(* ===== verification/_CoqProject ===== *)
-Q . S2P
Prelude.v
LinkedList.v
PriorityBitmap.v
KernelTask.v
Strategy.v
RoundRobin.v
Levels.v
FixedPriority.v
PThreshold.v
Edf.v
Monotonic.v
Schedulability.v
SmoothWRR.v
Kernel.v
KernelInv.v
KernelSync.v
KernelTick.v
KernelSafe.v
KernelRun.v
KernelOrder.v
KernelBehaviour.v
KernelExamples.v
HrtPolicy.v
KernelHrt.v
KernelHrtBoot.v
KernelHrtRun.v
KernelHrtExamples.v
Buffer.v
Monitor.v
Semaphore.v
Mutex.v
FastMutex.v
RWMutex.v
MessageQueue.v
Pipe.v
PipeT.v
Event.v
EventFlags.v
Threads.v
Barrier.v
SpinLock.v
FrtosNotify.v
Timer.v
TimerRun.v
TimerSafe.v
TimerProps.v
TimeUtil.v
Memory.v
BlockPool.v
BytePool.v
Allocator.v
DefaultHeap.v
HeapPools.v
PoolPtr.v
