(* ===== verification/Prelude.v ===== *)
(** * SuperTinyKernel RTOS: a verification library of its core

    SuperTinyKernel (STK) is a preemptive real-time kernel written in C++ as a set
    of header files.  A [Kernel] object owns a pool of tasks and a scheduling
    strategy; the platform layer calls its tick handler and switches the stacks
    it is told to switch; the tasks call its services (sleep, wait, wake, yield,
    exit, suspend, weights); and the synchronization primitives of [sync/] are
    built on two of these services, [Wait] and [Wake].  This library models the
    kernel, all of its scheduling strategies, the containers they are made of, the
    synchronization primitives, the memory pools and the software timers as
    executable Rocq definitions, and proves what makes them correct.  Source names below are files under
    [src/stk/include/].

    ** Parts of the program and where they are modelled

    Containers.
    - [stk_linked_list.h], the intrusive doubly-linked list of every queue in the
      kernel: [LinkedList.v], as pointer programs over an explicit heap.
    - [strategy/stk_priority_bitmap.h], the ready bitmaps: [PriorityBitmap.v].
    Scheduling strategies ([ITaskSwitchStrategy] of [stk_common.h]).
    - [Strategy.v]: the interface as a record of operations ([StrategyOps]) and the
      contract the kernel relies on, the type class [StrategySpec].
    - [RoundRobin.v], [FixedPriority.v], [PThreshold.v] (both over [Levels.v]),
      [Edf.v], [Monotonic.v], [SmoothWRR.v]: one file per strategy of
      [strategy/]; each operation is a definition.  All of them but the monotonic
      and the smooth weighted one are shown to be instances of [StrategySpec].
    - [HrtPolicy.v]: what hard real-time mode needs of a strategy, the type class
      [HrtPolicy]; every [StrategySpec] with sleep events is an instance, and so are
      the monotonic strategies, which skip sleeping tasks instead.
    - [Schedulability.v]: the worst-case response-time analysis of
      [stk_strategy_monotonic.h].
    Kernel ([stk.h]).
    - [KernelTask.v]: [KernelTask] with its state flags, [WaitObject], [HrtInfo],
      [TsInfo], and the constants of [stk_common.h].
    - [Kernel.v]: the state of [Kernel] and all its operations, for every strategy:
      task management, the tick handler [OnTick], the scheduler's state machine,
      the context switch, the services, synchronization objects, suspension,
      weights and telemetry.
    - [KernelInv.v] (the invariant), [KernelSync.v] (wait lists), [KernelTick.v]
      (the tick), [KernelSafe.v] (every operation), [KernelRun.v] (runs of
      calls), [KernelOrder.v] (the order of the waiters), [KernelBehaviour.v] (what the services mean), [KernelExamples.v]
      (concrete systems, and corner cases of the code).
    - [KernelHrt.v] (hard real-time mode: its specification as a system of periodic
      tasks, its invariant, and each event of the kernel), [KernelHrtBoot.v] (adding
      tasks with timing parameters, and the start), [KernelHrtRun.v] (runs),
      [KernelHrtExamples.v] (earliest deadline first, rate and deadline monotonic
      scheduling, a concrete system, corner cases).
    Synchronization primitives ([sync/], [memory/]).
    - [Monitor.v]: wait lists, the segments a call is cut into by the critical
      section, and the interleavings of them.
    - [Semaphore.v], [Mutex.v], [FastMutex.v], [RWMutex.v], [MessageQueue.v],
      [Pipe.v], [PipeT.v], [Event.v], [EventFlags.v]: one primitive per file, named
      after its class.
    - [Threads.v]: programs that are cut at every critical section or memory access,
      and their interleavings; [Barrier.v]: the barrier over a mutex and a condition
      variable; [SpinLock.v]: the spin lock over an atomic test-and-set.
    - [BlockPool.v], [BytePool.v]: the memory pools, whose allocations may wait;
      [Memory.v] holds the statistics and the alignment they share.
      [Buffer.v] holds what the buffers share.
    - [Allocator.v]: the front end [MemoryAllocator] (aligned blocks, arrays, [new] and
      [delete]) over the type class [Backend], the contract of the functions a program
      supplies; [DefaultHeap.v]: the default heap, a byte pool, as an instance of it,
      and the variant over [malloc]; [HeapPools.v]: the pools that take their storage
      from the front end; [PoolPtr.v]: objects in pools and the handles that own them,
      over the type class [ObjectPool], which both pools implement.
    FreeRTOS layer ([interop/freertos/src/freertos_stk.cpp]).
    - [FrtosNotify.v]: the notification slots of a task, over [Semaphore.v]; each critical
      section of the calls is a step of [Threads.v].
    Time ([time/]).
    - [Timer.v]: [Timer] and [TimerHost] of [stk_time_timer.h]; [TimerRun.v]: the
      tick task, the handler tasks and the callers, interleaved; [TimerSafe.v]: the
      invariant of that system; [TimerProps.v]: what a timer host promises, and does
      not.
    - [TimeUtil.v]: [PeriodicTrigger] and [Stopwatch] of [stk_time_util.h], and the
      conversions between ticks and milliseconds of [stk_helper.h].

    ** How the code is modelled

    A struct is a record with the members of the code, a method is a definition of
    the same name from the state to the state.  [STK_ASSERT], [STK_KERNEL_PANIC],
    a null pointer and a signed overflow are values of [res] (below), so that
    [op s = Ok s'] also says that none of them happens.  Machine integers are
    integers; where the code relies on their width, the wrap-around ([u16],
    [u32], [to_Timeout]) or the overflow check ([i32]) is written out.  Ticks are
    64-bit counters that do not wrap in any run of practical length and are not
    truncated, except where the code truncates them.  The tasks of the kernel's
    pool are a list indexed by slot, a pointer to a task is its slot.  Template
    parameters and compile-time switches are the record [KernelCfg], or the
    parameters of a section.

    Interrupts are disabled in every operation of the kernel and in every critical
    section, so the concurrent system is a sequence of atomic steps.  For the
    kernel these are the calls of [KernelRun.v].  A primitive's call is cut where
    it waits: [p_enter] runs up to the wait, [p_resume] goes on when the task
    that was taken off the wait list runs again, and between them any other
    segments, timeouts and cancellations may happen.  The barrier and the spin lock
    do not run in one critical section, so their steps are smaller ([Threads.v]); the
    tasks of a timer host are steps of their own with time passing between them
    ([TimerRun.v]).

    Loops over a list or a range of priorities are recursive functions over it.
    The other loops take fuel, and running out of it is the outcome [PANIC_FUEL]:
    the response-time iteration is given the period of the task as fuel, and
    [wcrt_decides] shows this is enough; loops over pointer lists, rings of tasks
    and wait lists are given the length of the list; the loop of [operator new] is
    given the number of pieces the program holds and a bound for the calls of
    new-handlers that give nothing back.  Theorems that an operation returns are stated as such
    ([= Ok _]), so fuel that is too small would falsify them.

    ** What the theorems show

    - The kernel never panics ([KernelRun.v]): outside hard real-time mode, in every
      state a run of permitted calls can reach, with every strategy that satisfies
      the contract and takes sleep events, no
      assertion fails, no null pointer is dereferenced and nothing overflows,
      and the invariant that ties the strategy, the task states, the wait lists
      and the state machine together holds.
    - The services mean what they say ([KernelBehaviour.v]): the task that the
      strategy selects runs after a tick, a sleep lasts the given number of
      ticks, a wait ends by its timeout or by the signal meant for it, waiters are
      served in the order in which they came, suspended
      and removed tasks do not run, a locked scheduler does not switch, a tickless
      kernel does not sleep through an event, inherited weights are restored,
      telemetry reports the true state.
    - In hard real-time mode the kernel implements a system of periodic tasks
      ([KernelHrtRun.v]): it releases every job at the start delay plus a multiple of
      the period, faults exactly when a job is active past its deadline, idles only
      when no job is active, under EDF runs the job with the earliest deadline and
      under the monotonic strategies the one with the shortest period or deadline.
    - The strategies select the right task: round robin serves everyone in turn,
      fixed priority the highest level, preemption thresholds guarantee the
      holder, EDF and the monotonic strategies the smallest key, smooth weighted
      round robin gives exact shares; the response-time analysis decides what it
      claims to decide as long as it does not overflow.
    - Containers refine their abstract counterparts: the pointer lists are lists,
      each bitmap is a finite set.
    - The primitives are safe in every interleaving: permits are conserved, locks
      exclude, the message queue is a bounded FIFO, an event releases one task
      per set, flags are delivered once, the pipe is a byte
      stream, allocated blocks are distinct, keep their data and lie inside the
      storage, and the byte pool finds memory whenever there is enough in one piece; and no wake-up is lost: nobody waits for
      what is available unless somebody else was woken for it.
    - The barrier lets tasks through in full groups and does not deadlock, provided
      the kernel does not switch a task out between the two halves of its wait; the
      spin lock excludes in every interleaving of single memory accesses; the typed
      pipe, with either way of copying, refines the byte pipe.
    - The notification slots of the FreeRTOS layer lose no wake-up; give and take are a
      counting semaphore, and values that are not overwritten a mailbox, in every
      interleaving of the critical sections of the calls.
    - The timer host keeps its lists and flags consistent in every interleaving; a
      scan finds exactly what is due; a periodic timer does not drift and its callback
      runs once per expiration; a timer that was stopped synchronously is stopped for
      good.
    - The allocator front end hands out memory that does not overlap, is aligned as
      asked for and is given back to the block it came from, over every allocator with
      the contract; pools on the heap have room for what was asked for and give their
      storage back; an object in a pool has one owner and is destroyed once.
    The examples at the end of [KernelExamples.v], [KernelHrtExamples.v], [Schedulability.v],
    [MessageQueue.v], [Pipe.v], [EventFlags.v], [Barrier.v], [FrtosNotify.v],
    [TimerProps.v] and [TimeUtil.v] evaluate corner cases in which the code
    does not do what its documentation says.

    ** Not modelled

    - The platform: CPU drivers, context switching in assembly, interrupt
      priorities, stacks, MPU regions ([stk_arch.h], [src/stk/src/arch]).  It is
      the environment that calls the modelled handlers.
    - The invariant of [KernelInv.v] is for the modes other than hard real time; the
      one of [KernelHrt.v] is for hard real-time systems whose tasks do not wait on
      synchronization objects and are not suspended or removed.
    - Trace hooks, debug names and user callbacks, which do not change the state.
    - Constructors and destructors of the objects in pools and arrays are the
      application's and appear as events; [malloc] and [free] are parameters.  For the polled mode of a
      timer host the functions are defined but no theorem is stated; [OnExpired] is
      the application's.  The spin lock is modelled over the RISC-V driver's lock, with
      a memory that is sequentially consistent.
    - The C, CMSIS, ThreadX and POSIX bindings and the rest of the FreeRTOS one, which
      adapt the modelled services to other interfaces, and the vendored SDKs. *)

From stdpp Require Export base list gmap numbers sorting.
From Stdlib Require Export Lia.

#[export] Set Default Goal Selector "!".

(** ** Outcomes

    The C++ code signals a violated precondition with [STK_ASSERT] and an
    unrecoverable condition with [STK_KERNEL_PANIC]; dereferencing a null
    pointer and overflowing a signed integer are undefined.  The model makes
    each of them a distinct, observable outcome, so that a theorem of the form
    [op s = Ok s'] also says that none of them happens. *)

Inductive panic : Set :=
| PANIC_ASSERT   (* STK_ASSERT(e) with e false *)
| PANIC_NULL     (* dereference of nullptr or of a dangling pointer *)
| PANIC_OVERFLOW (* signed arithmetic outside of its type *)
| PANIC_KERNEL   (* STK_KERNEL_PANIC *)
| PANIC_FUEL.    (* the bound given to a modelled loop was too small *)

Inductive res (A : Type) : Type :=
| Ok (a : A)
| Panic (p : panic).
Global Arguments Ok {A} a.
Global Arguments Panic {A} p.

#[global] Instance res_ret : MRet res := fun A a => Ok a.
#[global] Instance res_bind : MBind res := fun A B f m =>
  match m with Ok a => f a | Panic p => Panic p end.

Declare Scope stk_scope.
Delimit Scope stk_scope with stk.

(** [STK_ASSERT(b); k]. *)
Definition stk_assert {A} (b : bool) (k : res A) : res A :=
  if b then k else Panic PANIC_ASSERT.
Notation "'assert!' b ; k" := (stk_assert b k)
  (at level 100, b at level 99, k at level 200, right associativity) : stk_scope.

(** Dereference of a pointer whose target the model looks up as an option. *)
Definition deref {A} (o : option A) : res A :=
  match o with Some a => Ok a | None => Panic PANIC_NULL end.

#[global] Open Scope stk_scope.

(** Running a fallible operation [n] times, collecting its answers. *)
Fixpoint iterate_res {S A} (f : S → res (A * S)) (n : nat) (s : S) : res (list A * S) :=
  match n with
  | O => Ok ([], s)
  | S m => '(a, s1) ← f s; '(l, s2) ← iterate_res f m s1; Ok (a :: l, s2)
  end.

Lemma iterate_res_snoc {S A} (f : S → res (A * S)) n : ∀ s l s1 a s2,
  iterate_res f n s = Ok (l, s1) → f s1 = Ok (a, s2) → iterate_res f (Datatypes.S n) s = Ok (l ++ [a], s2).
Proof.
  induction n as [|n IH]; intros s l s1 a s2 E1 E2.
  - injection E1 as <- <-. cbn. by rewrite E2.
  - cbn [iterate_res] in E1. destruct (f s) as [[b s']|] eqn:E; [|done]. cbn [mbind res_bind] in E1.
    destruct (iterate_res f n s') as [[k s'']|] eqn:E'; [|done]. injection E1 as <- <-.
    change (iterate_res f (Datatypes.S (Datatypes.S n)) s) with
      ('(a, s1) ← f s; '(l, s2) ← iterate_res f (Datatypes.S n) s1; Ok (a :: l, s2)).
    rewrite E. cbn [mbind res_bind]. by rewrite (IH s' k s'' a s2 E' E2).
Qed.

Lemma iterate_res_app {S A} (f : S → res (A * S)) n m : ∀ s l1 s1 l2 s2,
  iterate_res f n s = Ok (l1, s1) → iterate_res f m s1 = Ok (l2, s2) → iterate_res f (n + m) s = Ok (l1 ++ l2, s2).
Proof.
  induction n as [|n IH]; intros s l1 s1 l2 s2 E1 E2; cbn [iterate_res Nat.add] in *; [by injection E1 as <- <-|].
  destruct (f s) as [[a s']|]; [|done]. cbn [mbind res_bind] in *.
  destruct (iterate_res f n s') as [[l s'']|] eqn:E; [|done]. cbn [mbind res_bind] in *. injection E1 as <- <-.
  by rewrite (IH s' l s'' l2 s2 E E2).
Qed.

(** If each step of [f] takes the head of a queue and puts it at its end, then
    running it for a prefix of the queue answers that prefix. *)
Lemma iterate_queue {S A B} (f : S → res (A * S)) (g : B → A) (I : S → Prop) (queue : S → list B) :
  (∀ s x q, I s → queue s = x :: q → ∃ s', f s = Ok (g x, s') ∧ I s' ∧ queue s' = q ++ [x]) →
  ∀ q r s, I s → queue s = q ++ r →
  ∃ s', iterate_res f (length q) s = Ok (g <$> q, s') ∧ I s' ∧ queue s' = r ++ q.
Proof.
  intros Hstep q. induction q as [|x q IH]; intros r s Hi Ho.
  { exists s. by rewrite app_nil_r. }
  destruct (Hstep s x (q ++ r) Hi Ho) as (s1 & E1 & Hi1 & Ho1). rewrite <- app_assoc in Ho1.
  destruct (IH (r ++ [x]) s1 Hi1 Ho1) as (s' & E & Hi' & Ho').
  exists s'. cbn [length iterate_res]. rewrite E1. cbn [mbind res_bind]. rewrite E. cbn.
  split_and!; [done|done|]. by rewrite Ho', <- app_assoc.
Qed.

(** Elements of a fixed-size array. *)
Definition aget {A} (l : list A) (i : Z) : res A := deref (l !! Z.to_nat i).
Definition aset {A} (l : list A) (i : Z) (x : A) : res (list A) :=
  if bool_decide (Z.to_nat i < length l) then Ok (<[Z.to_nat i := x]> l) else Panic PANIC_NULL.

Lemma aget_ok {A} (l : list A) i x : l !! Z.to_nat i = Some x → aget l i = Ok x.
Proof. unfold aget. by intros ->. Qed.
Lemma aset_ok {A} (l : list A) i x : Z.to_nat i < length l → aset l i x = Ok (<[Z.to_nat i := x]> l).
Proof. intros H. unfold aset. by rewrite bool_decide_eq_true_2. Qed.

(** ** Machine integers *)

Definition u16 (x : Z) : Z := (x `mod` 2 ^ 16)%Z.
Definition u32 (x : Z) : Z := (x `mod` 2 ^ 32)%Z.
Definition u64 (x : Z) : Z := (x `mod` 2 ^ 64)%Z.

Definition INT32_MIN : Z := (- 2 ^ 31)%Z.
Definition INT32_MAX : Z := (2 ^ 31 - 1)%Z.
Definition in_i32 (x : Z) : Prop := (INT32_MIN ≤ x ≤ INT32_MAX)%Z.
#[global] Instance in_i32_dec x : Decision (in_i32 x) := _.

(** The value of a signed 32-bit expression, undefined outside of the type. *)
Definition i32 (x : Z) : res Z :=
  if bool_decide (in_i32 x) then Ok x else Panic PANIC_OVERFLOW.

(** ** Automation *)

Create HintDb stk.

(** Split a successful bind, an assertion or a dereference in a hypothesis. *)
Ltac inv_res1 :=
  match goal with
  | H : Ok _ = Ok _ |- _ => injection H as H
  | H : Panic _ = Ok _ |- _ => discriminate H
  | H : Ok _ = Panic _ |- _ => discriminate H
  | H : mbind _ ?m = Ok _ |- _ =>
      let E := fresh "E" in destruct m eqn:E; cbn [mbind res_bind] in H; [|discriminate H]
  | H : stk_assert ?b _ = Ok _ |- _ =>
      let E := fresh "E" in destruct b eqn:E; cbn [stk_assert] in H; [|discriminate H]
  | H : deref ?o = Ok _ |- _ =>
      let E := fresh "E" in destruct o eqn:E; cbn [deref] in H; [|discriminate H]
  | p : _ * _ |- _ => destruct p
  end.
Ltac inv_res := repeat (inv_res1; simplify_eq/=).

(** Rewrite a boolean test by the proposition it decides. *)
Ltac bdecide :=
  repeat first
    [ rewrite bool_decide_eq_true_2 by (eauto with stk; done || set_solver || lia || congruence)
    | rewrite bool_decide_eq_false_2 by (eauto with stk; done || set_solver || lia || congruence) ];
  cbn [stk_assert negb andb orb].

(** Decide a closed goal by computation. *)
Ltac decided := apply (bool_decide_unpack _); vm_compute; exact I.

Ltac split_and_all := repeat match goal with |- _ ∧ _ => split end.

(** ** Lists *)

Section lists.
Context {A : Type}.
Implicit Types l : list A.

Lemma last_app_cons l x k : last (l ++ x :: k) = last (x :: k).
Proof.
  induction l as [|y l IH]; [done|]. cbn [app].
  rewrite last_cons. rewrite IH. by destruct (last (x :: k)) eqn:E; [|apply last_None in E].
Qed.

Lemma head_app_cons l x k : head (l ++ x :: k) = head (l ++ [x]).
Proof. by destruct l. Qed.

Lemma last_is_Some_cons x l : ∃ y, last (x :: l) = Some y.
Proof. destruct (last (x :: l)) eqn:E; [eauto|]. by apply last_None in E. Qed.

Lemma snoc_inv l : l = [] ∨ ∃ k x, l = k ++ [x].
Proof. destruct l as [|x k] using rev_ind; [by left|]. right; eauto. Qed.

Lemma last_elem_of l x : last l = Some x → x ∈ l.
Proof. intros (k & ->)%last_Some. set_solver. Qed.

Lemma head_elem_of l x : head l = Some x → x ∈ l.
Proof. destruct l; [done|]. intros [= ->]. set_solver. Qed.
End lists.

(** *** Removal of an element from a list of distinct elements *)

Lemma list_alter_insert {A} (f : A → A) (l : list A) i x : l !! i = Some x → alter f i l = <[i := f x]> l.
Proof.
  intros H. apply list_eq. intros j. rewrite list_lookup_alter, list_lookup_insert.
  assert (i < length l) by (by eapply lookup_lt_Some). repeat case_decide; subst; try done; [by rewrite H|lia..].
Qed.

Lemma same_length {A} (l l' : list A) : (∀ i, is_Some (l !! i) ↔ is_Some (l' !! i)) → length l = length l'.
Proof.
  intros H. destruct (Nat.lt_trichotomy (length l) (length l')) as [Hl|[?|Hl]]; [exfalso|done|exfalso].
  - assert (is_Some (l !! length l)) as Hs%lookup_lt_is_Some by (by apply H, lookup_lt_is_Some). lia.
  - assert (is_Some (l' !! length l')) as Hs%lookup_lt_is_Some by (by apply H, lookup_lt_is_Some). lia.
Qed.

(** Updating one list of an array of lists. *)
Section concat.
Context {A : Type}.
Implicit Types (L : list (list A)) (l : list A).

Lemma concat_split L p l : L !! p = Some l →
  ∃ L1 L2, L = L1 ++ l :: L2 ∧ length L1 = p ∧ ∀ l', <[p := l']> L = L1 ++ l' :: L2.
Proof.
  intros H. destruct (list_elem_of_split_length _ _ _ H) as (L1 & L2 & -> & ->).
  exists L1, L2. split; [done|]. split; [done|]. intros l'.
  rewrite insert_app_r_alt, Nat.sub_diag by done. done.
Qed.

Lemma elem_of_concat L x : x ∈ concat L ↔ ∃ p l, L !! p = Some l ∧ x ∈ l.
Proof.
  rewrite list_elem_of_In, in_concat. split.
  - intros (l & Hl & Hx). apply list_elem_of_In, list_elem_of_lookup in Hl as [p Hp].
    exists p, l. by rewrite list_elem_of_In.
  - intros (p & l & Hp & Hx). exists l. rewrite <- !list_elem_of_In. eauto using list_elem_of_lookup_2.
Qed.

Lemma concat_insert_perm L p l l' k : L !! p = Some l → l' ≡ₚ k ++ l →
  concat (<[p := l']> L) ≡ₚ k ++ concat L.
Proof.
  intros H Hl. destruct (concat_split _ _ _ H) as (L1 & L2 & -> & _ & ->).
  rewrite !concat_app. cbn. rewrite Hl. solve_Permutation.
Qed.
End concat.

Section remove.
Context `{EqDecision A}.
Implicit Types l : list A.

Definition list_remove1 (x : A) l : list A := filter (λ y, y ≠ x) l.

Lemma elem_of_remove1 x y l : y ∈ list_remove1 x l ↔ y ∈ l ∧ y ≠ x.
Proof. unfold list_remove1. rewrite list_elem_of_filter. tauto. Qed.

Lemma remove1_notin x l : x ∉ l → list_remove1 x l = l.
Proof.
  intros Hx. unfold list_remove1. induction l as [|y l IH]; [done|].
  rewrite filter_cons_True by set_solver. f_equal. apply IH. set_solver.
Qed.

Lemma remove1_mid x l k : (x ∉ l) → (x ∉ k) → list_remove1 x (l ++ x :: k) = l ++ k.
Proof.
  intros Hl Hk. unfold list_remove1. rewrite filter_app, filter_cons_False by naive_solver.
  change (list_remove1 x l ++ list_remove1 x k = l ++ k). by rewrite !remove1_notin.
Qed.

Lemma filter_in_id (P : A → Prop) `{!∀ x, Decision (P x)} l : (∀ x, x ∈ l → P x) → filter P l = l.
Proof.
  induction l as [|x l IH]; intros HPQ; [done|]. rewrite filter_cons_True by (apply HPQ; left). f_equal. apply IH. intros y Hy. apply HPQ. by right.
Qed.
Lemma filter_in_ext (P Q : A → Prop) `{!∀ x, Decision (P x), !∀ x, Decision (Q x)} l : (∀ x, x ∈ l → P x ↔ Q x) → filter P l = filter Q l.
Proof.
  induction l as [|x l IH]; intros HPQ; [done|]. assert (IH' : filter P l = filter Q l) by (apply IH; intros y Hy; apply HPQ; by right).
  destruct (decide (P x)) as [HP|HP]; [rewrite !filter_cons_True|rewrite !filter_cons_False]; rewrite ?IH'; try done; (rewrite <- HPQ; [done|left]).
Qed.
Lemma foldl_in_ext {B} (f g : B → A → B) l b : (∀ b x, x ∈ l → f b x = g b x) → foldl f b l = foldl g b l.
Proof. revert b. induction l as [|x l IH]; intros b H; [done|]. cbn. rewrite H by left. apply IH. intros. apply H. by right. Qed.

Lemma NoDup_remove1 x l : NoDup l → NoDup (list_remove1 x l).
Proof. apply NoDup_filter. Qed.

Lemma NoDup_mid x l k : NoDup (l ++ x :: k) → (x ∉ l) ∧ (x ∉ k) ∧ NoDup (l ++ k).
Proof.
  rewrite !NoDup_app, NoDup_cons. intros (? & Hd & ? & ?). split_and_all; try done.
  - intros Hx. apply (Hd x); set_solver.
  - set_solver.
Qed.

Lemma elem_of_split_nodup x l : x ∈ l → NoDup l →
  ∃ l1 l2, l = l1 ++ x :: l2 ∧ (x ∉ l1) ∧ (x ∉ l2) ∧ list_remove1 x l = l1 ++ l2.
Proof.
  intros (l1 & l2 & ->)%list_elem_of_split Hnd.
  destruct (NoDup_mid _ _ _ Hnd) as (? & ? & ?).
  exists l1, l2. split_and_all; auto using remove1_mid.
Qed.

Lemma remove1_perm x l : NoDup l → x ∈ l → l ≡ₚ x :: list_remove1 x l.
Proof.
  intros Hn Hx. destruct (elem_of_split_nodup _ _ Hx Hn) as (l1 & l2 & -> & _ & _ & ->).
  symmetry. apply Permutation_middle.
Qed.

Lemma remove1_length x l : x ∈ l → NoDup l → S (length (list_remove1 x l)) = length l.
Proof.
  intros Hx Hn. destruct (elem_of_split_nodup _ _ Hx Hn) as (l1 & l2 & -> & _ & _ & ->).
  rewrite !length_app. simpl. lia.
Qed.
End remove.

#[export] Hint Resolve NoDup_remove1 : stk.

(** Lists kept apart by a rank have no element in common. *)
Lemma NoDup_concat_rank {A} (rank : A → option nat) (L : list (list A)) :
  (∀ p l, L !! p = Some l → NoDup l ∧ ∀ x, x ∈ l → rank x = Some p) → NoDup (concat L).
Proof.
  intros H. assert (Hg : ∀ K M, L = K ++ M → NoDup (concat M)); [|by apply (Hg [] L)].
  intros K M. revert K. induction M as [|l M IH]; intros K ->; cbn; [constructor|].
  destruct (H (length K) l) as [Hl Hr]; [by rewrite lookup_app_r, Nat.sub_diag|].
  apply NoDup_app. split_and!; [done| |apply (IH (K ++ [l])); by rewrite <- app_assoc].
  intros x Hx (p & k & Hp & Hxk)%elem_of_concat.
  assert (rank x = Some (length K + S p)); [|by rewrite Hr in *; naive_solver lia].
  apply (H _ k); [|done]. rewrite lookup_app_r by lia. by replace (length K + S p - length K) with (S p) by lia.
Qed.

Lemma concat_remove1_perm `{EqDecision A} (L : list (list A)) p l x : L !! p = Some l →
  NoDup (concat L) → x ∈ l → concat (<[p := list_remove1 x l]> L) = list_remove1 x (concat L).
Proof.
  intros H Hn Hx. destruct (concat_split _ _ _ H) as (L1 & L2 & -> & _ & ->).
  rewrite !concat_app in *. cbn in *. unfold list_remove1. rewrite !filter_app.
  apply NoDup_app in Hn as (_ & Hd1 & (_ & Hd2 & _)%NoDup_app).
  change (concat L1 ++ list_remove1 x l ++ concat L2 =
    list_remove1 x (concat L1) ++ list_remove1 x l ++ list_remove1 x (concat L2)).
  rewrite (remove1_notin x (concat L1)), (remove1_notin x (concat L2)); [done|auto|].
  intros ?. apply (Hd1 x); set_solver.
Qed.

(** *** Circular successor and predecessor

    [cnext l x] is the element after [x] in [l] read as a ring, [cprev l x]
    the one before it. *)

Section ring.
Context `{EqDecision A}.
Implicit Types l : list A.

Fixpoint next_in (dflt : option A) (x : A) l : option A :=
  match l with
  | [] => None
  | y :: k => if decide (y = x) then (match k with [] => dflt | z :: _ => Some z end)
              else next_in dflt x k
  end.

Definition cnext l (x : A) : option A := next_in (head l) x l.
Definition cprev l (x : A) : option A := next_in (last l) x (reverse l).

Lemma next_in_mid d x l1 l2 : x ∉ l1 →
  next_in d x (l1 ++ x :: l2) = match l2 with [] => d | z :: _ => Some z end.
Proof.
  induction l1 as [|y l1 IH]; intros Hx; cbn.
  - by rewrite decide_True.
  - rewrite decide_False by set_solver. apply IH. set_solver.
Qed.

Lemma cnext_mid x l1 l2 : x ∉ l1 → cnext (l1 ++ x :: l2) x = head (l2 ++ l1 ++ [x]).
Proof. intros Hx. unfold cnext. rewrite next_in_mid by done. by destruct l2, l1. Qed.

Lemma cprev_mid x l1 l2 : x ∉ l2 → cprev (l1 ++ x :: l2) x = last (x :: l2 ++ l1).
Proof.
  intros Hx. unfold cprev.
  replace (reverse (l1 ++ x :: l2)) with (reverse l2 ++ x :: reverse l1)
    by (rewrite reverse_app, reverse_cons, <- app_assoc; done).
  rewrite next_in_mid by (rewrite elem_of_reverse; done).
  destruct (snoc_inv l1) as [-> | (k & y & ->)].
  - by rewrite app_nil_r.
  - rewrite reverse_snoc. rewrite app_comm_cons, app_assoc, last_snoc. done.
Qed.

Lemma cnext_elem x y l : cnext l x = Some y → x ∈ l ∧ y ∈ l.
Proof.
  unfold cnext. intros H.
  assert (Hg : ∀ d k, next_in d x k = Some y → x ∈ k ∧ (y ∈ k ∨ d = Some y)).
  { intros d k. induction k as [|z k IH]; [done|]. cbn. case_decide.
    - subst. destruct k; [set_solver|]. intros [= ->]. set_solver.
    - intros Hk. destruct (IH Hk) as [? [?|?]]; set_solver. }
  destruct (Hg _ _ H) as [? [?|Hh]]; [done|]. eauto using head_elem_of.
Qed.

Lemma cnext_is_Some x l : x ∈ l → NoDup l → ∃ y, cnext l x = Some y ∧ y ∈ l.
Proof.
  intros Hx Hn. destruct (elem_of_split_nodup _ _ Hx Hn) as (l1 & l2 & -> & H1 & H2 & _).
  rewrite cnext_mid by done. destruct l2 as [|z l2].
  - destruct l1 as [|z l1]; cbn; eexists; (split; [done|set_solver]).
  - exists z. split; [done|set_solver].
Qed.

Lemma cprev_is_Some x l : x ∈ l → NoDup l → ∃ y, cprev l x = Some y ∧ y ∈ l.
Proof.
  intros Hx Hn. destruct (elem_of_split_nodup _ _ Hx Hn) as (l1 & l2 & -> & H1 & H2 & _).
  rewrite cprev_mid by done. destruct (last_is_Some_cons x (l2 ++ l1)) as [y Hy].
  exists y. split; [done|]. apply last_elem_of in Hy. set_solver.
Qed.

Lemma cnext_self x l : x ∈ l → NoDup l → cnext l x = Some x → l = [x].
Proof.
  intros Hx Hn. destruct (elem_of_split_nodup _ _ Hx Hn) as (l1 & l2 & -> & H1 & H2 & _).
  rewrite cnext_mid by done. destruct l2; [destruct l1; [done|]|]; cbn; set_solver.
Qed.

(** The ring read from the element after [p], ending with [p]. *)
Fixpoint ring_after_aux (pre : list A) (p : A) l : list A :=
  match l with
  | [] => pre
  | x :: k => if decide (x = p) then k ++ pre ++ [x] else ring_after_aux (pre ++ [x]) p k
  end.
Definition ring_after (p : A) l : list A := ring_after_aux [] p l.

Lemma ring_after_mid p l1 l2 : p ∉ l1 → ring_after p (l1 ++ p :: l2) = l2 ++ l1 ++ [p].
Proof.
  unfold ring_after. intros Hp.
  assert (H : ∀ pre, ring_after_aux pre p (l1 ++ p :: l2) = l2 ++ (pre ++ l1) ++ [p]).
  { induction l1 as [|x l1 IH]; intros pre; cbn.
    - by rewrite decide_True, app_nil_r.
    - rewrite decide_False, IH by set_solver. by rewrite <- (app_assoc pre [x]). }
  apply H.
Qed.

Lemma ring_after_perm p l : ring_after p l ≡ₚ l.
Proof.
  unfold ring_after. assert (H : ∀ pre, ring_after_aux pre p l ≡ₚ pre ++ l); [|apply H].
  induction l as [|x l IH]; intros pre; cbn; [by rewrite app_nil_r|].
  case_decide as E; [|rewrite (IH (pre ++ [x])), <- app_assoc; done].
  rewrite (Permutation_app_comm l), <- app_assoc. done.
Qed.

Lemma cnext_ring_after p l : p ∈ l → NoDup l → cnext l p = head (ring_after p l).
Proof.
  intros Hp Hn. destruct (elem_of_split_nodup _ _ Hp Hn) as (l1 & l2 & -> & H1 & H2 & _).
  by rewrite cnext_mid, ring_after_mid.
Qed.

(** Stepping to the successor rotates the reading by one. *)
Lemma ring_after_step p q k l : p ∈ l → NoDup l → ring_after p l = q :: k →
  q ∈ l ∧ ring_after q l = k ++ [q].
Proof.
  intros Hp Hn. destruct (elem_of_split_nodup _ _ Hp Hn) as (l1 & l2 & -> & H1 & H2 & _).
  rewrite ring_after_mid by done. destruct l2 as [|x l2].
  - destruct l1 as [|x l1]; cbn; intros [= -> <-].
    + split; [set_solver|]. apply (ring_after_mid q [] []). set_solver.
    + split; [set_solver|]. apply (ring_after_mid q [] (l1 ++ [p])). set_solver.
  - cbn. intros [= -> <-]. split; [set_solver|].
    change (l1 ++ p :: q :: l2) with (l1 ++ [p] ++ q :: l2). rewrite app_assoc.
    assert (q ∉ l1 ++ [p]).
    { change (l1 ++ p :: q :: l2) with (l1 ++ [p] ++ q :: l2) in Hn. rewrite app_assoc in Hn.
      by apply NoDup_mid in Hn as (? & _). }
    rewrite ring_after_mid by done. by rewrite <- !app_assoc.
Qed.

Lemma remove1_app x l k : list_remove1 x (l ++ k) = list_remove1 x l ++ list_remove1 x k.
Proof. apply filter_app. Qed.

Lemma remove1_cons_ne x y l : y ≠ x → list_remove1 x (y :: l) = y :: list_remove1 x l.
Proof. intros ?. unfold list_remove1. by rewrite filter_cons_True. Qed.

Lemma cprev_cnext q n l : q ∈ l → NoDup l → cnext l q = Some n → cprev l n = Some q.
Proof.
  intros Hq Hn. destruct (elem_of_split_nodup _ _ Hq Hn) as (a & b & -> & H1 & H2 & _).
  rewrite cnext_mid by done. destruct b as [|y b]; [destruct a as [|y a]|]; cbn; intros [= ->].
  - apply (cprev_mid n [] []). set_solver.
  - rewrite <- app_comm_cons in *. apply NoDup_cons in Hn as [Hn _].
    etransitivity; [by apply (cprev_mid n [] (a ++ [q]))|]. by rewrite app_nil_r, app_comm_cons, last_snoc.
  - change (a ++ q :: n :: b) with (a ++ [q] ++ n :: b) in *. rewrite app_assoc in *.
    apply NoDup_mid in Hn as (_ & Hn & _).
    rewrite cprev_mid by done. by rewrite !app_assoc, app_comm_cons, last_snoc.
Qed.

(** Removing an element that is not the cursor. *)
Lemma ring_after_remove p i l : p ∈ l → NoDup l → p ≠ i →
  ring_after p (list_remove1 i l) = list_remove1 i (ring_after p l).
Proof.
  intros Hp Hn Hne. destruct (elem_of_split_nodup _ _ Hp Hn) as (l1 & l2 & -> & H1 & H2 & _).
  rewrite remove1_app, remove1_cons_ne by done.
  rewrite !ring_after_mid by (rewrite ?elem_of_remove1; naive_solver).
  rewrite !remove1_app, remove1_cons_ne by done. done.
Qed.

(** Removing the cursor itself: the predecessor of its successor takes over. *)
Lemma ring_after_cursor i n l : i ∈ l → NoDup l → cnext l i = Some n → n ≠ i →
  ∃ q, cprev (list_remove1 i l) n = Some q ∧ q ∈ list_remove1 i l ∧
    ring_after q (list_remove1 i l) = list_remove1 i (ring_after i l).
Proof.
  intros Hi Hn En Hne. destruct (elem_of_split_nodup _ _ Hi Hn) as (l1 & l2 & -> & H1 & H2 & Er).
  rewrite Er. rewrite cnext_mid in En by done. rewrite ring_after_mid, app_assoc by done.
  rewrite (remove1_mid i (l2 ++ l1) []) by set_solver. rewrite app_nil_r.
  apply NoDup_mid in Hn as (_ & _ & Hn).
  assert (H : ∃ q, q ∈ l1 ++ l2 ∧ ring_after q (l1 ++ l2) = l2 ++ l1).
  { destruct (snoc_inv l1) as [->|(k & q & ->)].
    - destruct (snoc_inv l2) as [->|(k & q & ->)]; [cbn in En; congruence|].
      exists q. split; [set_solver|]. apply NoDup_mid in Hn as (? & _).
      etransitivity; [by apply (ring_after_mid q k [])|]. by rewrite app_nil_r.
    - exists q. split; [set_solver|]. rewrite <- app_assoc in *. apply NoDup_mid in Hn as (? & _).
      by apply ring_after_mid. }
  destruct H as (q & Hq & Hring). exists q. split_and_all; [|done..].
  apply cprev_cnext; [done..|]. rewrite cnext_ring_after, Hring by done.
  destruct l2; [|done]. destruct l1; [cbn in En; congruence|done].
Qed.
End ring.

Global Arguments list_remove1 {A _} x l : simpl never.
Global Arguments cnext {A _} l x : simpl never.
Global Arguments cprev {A _} l x : simpl never.
Global Arguments ring_after {A _} p l : simpl never.
