(* ===== verification/LinkedList.v ===== *)
(** * Intrusive doubly-linked list ([stk_linked_list.h])

    [detail::DListEntry] and [detail::DListHead] as pointer-manipulating
    programs over an explicit heap, for both values of the template parameter
    [TClosedLoop].  The representation predicate [dlist_rep] says that the
    pointers reachable from a head spell a given Rocq list; the refinement
    theorems say that every operation of the class implements the list
    operation its clients rely on, keeps every other list of the heap intact,
    and never dereferences a null pointer or fails an assertion. *)

From S2P Require Import Prelude.

Module DList.

(** Addresses of entries and of heads. *)
Notation addr := nat (only parsing).
Notation hid := nat (only parsing).

(** [class DListEntry]: the three intrusive pointers. *)
Record DListEntry := mkEntry {
  m_head : option hid;
  m_next : option addr;
  m_prev : option addr;
}.

(** [class DListHead]: element count and boundary pointers. *)
Record DListHead := mkHead {
  m_count : Z;
  m_first : option addr;
  m_last : option addr;
}.

#[global] Instance DListEntry_eq_dec : EqDecision DListEntry.
Proof. solve_decision. Defined.

(** The memory the classes work on. *)
Record heap := mkHeap {
  entries : gmap addr DListEntry;
  heads : gmap hid DListHead;
}.

(** [DListEntry()] and [DListHead()]. *)
Definition DListEntry_ctor : DListEntry := mkEntry None None None.
Definition DListHead_ctor : DListHead := mkHead 0 None None.

(** *** Loads and stores through a pointer *)

Definition load (h : heap) (p : option addr) : res DListEntry :=
  a ← deref p; deref (entries h !! a).
Definition load_head (h : heap) (hd : hid) : res DListHead := deref (heads h !! hd).
Definition store (a : addr) (e : DListEntry) (h : heap) : heap :=
  mkHeap (<[a := e]> (entries h)) (heads h).
Definition store_head (hd : hid) (d : DListHead) (h : heap) : heap :=
  mkHeap (entries h) (<[hd := d]> (heads h)).

(** [p->m_next = v] and [p->m_prev = v]. *)
Definition set_next (p : option addr) (v : option addr) (h : heap) : res heap :=
  a ← deref p; e ← deref (entries h !! a);
  Ok (store a (mkEntry (m_head e) v (m_prev e)) h).
Definition set_prev (p : option addr) (v : option addr) (h : heap) : res heap :=
  a ← deref p; e ← deref (entries h !! a);
  Ok (store a (mkEntry (m_head e) (m_next e) v) h).

Definition is_null {A} (p : option A) : bool := match p with None => true | Some _ => false end.

(** *** [DListEntry] *)

(** [DListEntry::IsLinked]. *)
Definition IsLinked (e : DListEntry) : bool := negb (is_null (m_head e)).

(** [DListEntry::Link(head, next, prev)].  As in the code, the second test reads
    [m_next] after the first store. *)
Definition Entry_Link (this : addr) (hd : hid) (next prev : option addr) (h : heap) : res heap :=
  _ ← deref (entries h !! this);
  let h1 := store this (mkEntry (Some hd) next prev) h in
  h2 ← (if is_null prev then Ok h1 else set_next prev (Some this) h1);
  e2 ← deref (entries h2 !! this);
  if is_null (m_next e2) then Ok h2 else set_prev (m_next e2) (Some this) h2.

(** [DListEntry::Unlink()].  The neighbour pointers are re-read from the entry
    after the first store, as in the code: in a ring of one they alias it. *)
Definition Entry_Unlink (this : addr) (h : heap) : res heap :=
  e ← deref (entries h !! this);
  h1 ← (if is_null (m_prev e) then Ok h else set_next (m_prev e) (m_next e) h);
  e1 ← deref (entries h1 !! this);
  h2 ← (if is_null (m_next e1) then Ok h1 else set_prev (m_next e1) (m_prev e1) h1);
  Ok (store this (mkEntry None None None) h2).

Section head.
(** The template parameter [TClosedLoop]. *)
Context (TClosedLoop : bool).

(** [DListHead::GetSize], [IsEmpty]. *)
Definition GetSize (d : DListHead) : Z := m_count d.
Definition IsEmpty (d : DListHead) : bool := bool_decide (m_count d = 0%Z).

(** [DListHead::UpdateEnds()]. *)
Definition UpdateEnds (hd : hid) (h : heap) : res heap :=
  d ← load_head h hd;
  if IsEmpty d then Ok (store_head hd (mkHead (m_count d) None None) h)
  else if TClosedLoop then
    h1 ← set_prev (m_first d) (m_last d) h;
    set_next (m_last d) (m_first d) h1
  else Ok h.

(** [DListHead::Link(entry, next, prev)]. *)
Definition Link (hd : hid) (entry next prev : option addr) (h : heap) : res heap :=
  assert! negb (is_null entry);
  this ← deref entry;
  e0 ← deref (entries h !! this);
  assert! negb (IsLinked e0);
  d ← load_head h hd;
  let next := if is_null prev then m_first d else next in
  let h1 := store_head hd (mkHead (m_count d + 1) (m_first d) (m_last d)) h in
  h2 ← Entry_Link this hd next prev h1;
  d2 ← load_head h2 hd;
  e2 ← deref (entries h2 !! this);
  let first' := if is_null (m_first d2) then entry
                else if decide (m_first d2 = m_next e2) then entry else m_first d2 in
  let last' := if is_null (m_last d2) then entry
               else if decide (m_last d2 = m_prev e2) then entry else m_last d2 in
  let h3 := store_head hd (mkHead (m_count d2) first' last') h2 in
  if TClosedLoop then UpdateEnds hd h3 else Ok h3.

(** [DListHead::LinkBack], [LinkFront]. *)
Definition LinkBack (hd : hid) (entry : addr) (h : heap) : res heap :=
  d ← load_head h hd; Link hd (Some entry) None (m_last d) h.
Definition LinkFront (hd : hid) (entry : addr) (h : heap) : res heap :=
  d ← load_head h hd; Link hd (Some entry) (m_last d) None h.

(** [DListHead::Unlink(entry)]. *)
Definition Unlink (hd : hid) (entry : option addr) (h : heap) : res heap :=
  assert! negb (is_null entry);
  this ← deref entry;
  e ← deref (entries h !! this);
  assert! IsLinked e;
  assert! bool_decide (m_head e = Some hd);
  d ← load_head h hd;
  let first' := if decide (m_first d = entry) then m_next e else m_first d in
  let last' := if decide (m_last d = entry) then m_prev e else m_last d in
  let h1 := store_head hd (mkHead (m_count d) first' last') h in
  h2 ← Entry_Unlink this h1;
  d2 ← load_head h2 hd;
  UpdateEnds hd (store_head hd (mkHead (m_count d2 - 1) (m_first d2) (m_last d2)) h2).

(** [DListHead::PopBack], [PopFront]. *)
Definition PopBack (hd : hid) (h : heap) : res (option addr * heap) :=
  d ← load_head h hd; h' ← Unlink hd (m_last d) h; Ok (m_last d, h').
Definition PopFront (hd : hid) (h : heap) : res (option addr * heap) :=
  d ← load_head h hd; h' ← Unlink hd (m_first d) h; Ok (m_first d, h').

(** [DListHead::Clear()]: [while (!IsEmpty()) Unlink(m_first);]. *)
Fixpoint Clear (fuel : nat) (hd : hid) (h : heap) : res heap :=
  d ← load_head h hd;
  if IsEmpty d then Ok h
  else match fuel with
       | O => Panic PANIC_FUEL
       | S k => h' ← Unlink hd (m_first d) h; Clear k hd h'
       end.

(** [DListHead::RelinkTo(to)]: [while (!IsEmpty()) to.LinkBack(PopFront());]. *)
Fixpoint RelinkTo_loop (fuel : nat) (hd to : hid) (h : heap) : res heap :=
  d ← load_head h hd;
  if IsEmpty d then Ok h
  else match fuel with
       | O => Panic PANIC_FUEL
       | S k => '(e, h1) ← PopFront hd h;
                a ← deref e;
                h2 ← LinkBack to a h1;
                RelinkTo_loop k hd to h2
       end.
Definition RelinkTo (fuel : nat) (hd to : hid) (h : heap) : res heap :=
  assert! bool_decide (to ≠ hd);
  RelinkTo_loop fuel hd to h.
End head.

(** ** Representation *)

(** [dlseg E hd p l n]: the entries of [l] are chained in order, the first one
    having [p] before it and the last one [n] after it, all owned by [hd]. *)
Definition hd_or (n : option addr) (l : list addr) : option addr :=
  match l with [] => n | a :: _ => Some a end.
Definition last_or (p : option addr) (l : list addr) : option addr :=
  match last l with None => p | Some a => Some a end.

Fixpoint dlseg (E : gmap addr DListEntry) (hd : hid) (p : option addr)
    (l : list addr) (n : option addr) : Prop :=
  match l with
  | [] => True
  | a :: k => E !! a = Some (mkEntry (Some hd) (hd_or n k) p) ∧ dlseg E hd (Some a) k n
  end.

Definition ring_end (closed : bool) (o : option addr) : option addr :=
  if closed then o else None.

Record dlist_rep (closed : bool) (h : heap) (hd : hid) (l : list addr) : Prop := {
  rep_nodup : NoDup l;
  rep_head : heads h !! hd = Some (mkHead (Z.of_nat (length l)) (head l) (last l));
  rep_seg : dlseg (entries h) hd (ring_end closed (last l)) l (ring_end closed (head l));
  rep_owns : ∀ a e, entries h !! a = Some e → m_head e = Some hd → a ∈ l;
}.

(** An entry that is on no list. *)
Definition unlinked (h : heap) (a : addr) : Prop :=
  ∃ e, entries h !! a = Some e ∧ m_head e = None.

(** What an operation on [hd] leaves alone: every entry outside of [T], every
    other head. *)
Definition frame (h h' : heap) (hd : hid) (T : list addr) : Prop :=
  (∀ b, b ∉ T → entries h' !! b = entries h !! b) ∧
  (∀ hd', hd' ≠ hd → heads h' !! hd' = heads h !! hd').

(** ** Segments *)

Lemma dlseg_frame E E' hd p l n :
  (∀ b, b ∈ l → E' !! b = E !! b) → dlseg E hd p l n → dlseg E' hd p l n.
Proof.
  revert p. induction l as [|a l IH]; intros p HE; [done|].
  intros [Ha Hl]. split; [rewrite HE; set_solver|]. apply IH; set_solver.
Qed.

Lemma dlseg_app E hd p l1 l2 n :
  dlseg E hd p (l1 ++ l2) n ↔ dlseg E hd p l1 (hd_or n l2) ∧ dlseg E hd (last_or p l1) l2 n.
Proof.
  revert p. induction l1 as [|a l1 IH]; intros p; [cbn; tauto|].
  cbn [app dlseg]. rewrite IH.
  replace (hd_or n (l1 ++ l2)) with (hd_or (hd_or n l2) l1) by by destruct l1.
  replace (last_or p (a :: l1)) with (last_or (Some a) l1); [tauto|].
  unfold last_or. rewrite last_cons. by destruct (last l1).
Qed.

Lemma dlseg_owned E hd p l n a : dlseg E hd p l n → a ∈ l →
  ∃ e, E !! a = Some e ∧ m_head e = Some hd.
Proof.
  revert p. induction l as [|b l IH]; intros p; [set_solver|].
  intros [Hb Hl] [->|Ha]%elem_of_cons; eauto.
Qed.

Lemma dlseg_mid E hd p l1 a l2 n : dlseg E hd p (l1 ++ a :: l2) n →
  E !! a = Some (mkEntry (Some hd) (hd_or n l2) (last_or p l1)).
Proof. intros [_ [Ha _]]%dlseg_app. done. Qed.

(** Storing through the last or the first pointer of a segment retargets the
    corresponding end and nothing else. *)
Lemma set_next_seg h hd p l x n v : dlseg (entries h) hd p (l ++ [x]) n → (x ∉ l) →
  ∃ h', set_next (Some x) v h = Ok h' ∧ dlseg (entries h') hd p (l ++ [x]) v ∧
        heads h' = heads h ∧ (∀ b, b ≠ x → entries h' !! b = entries h !! b).
Proof.
  intros Hs Hx. assert (He := dlseg_mid _ _ _ _ _ _ _ Hs).
  unfold set_next. cbn. rewrite He. cbn. eexists. split_and_all; [done| |done|].
  - apply dlseg_app in Hs as [Hl _]. apply dlseg_app. split.
    + eapply dlseg_frame; [|exact Hl]. intros b Hb. cbn. rewrite lookup_insert_ne; set_solver.
    + split; [|done]. cbn. by rewrite lookup_insert_eq.
  - intros b Hb. cbn. by rewrite lookup_insert_ne.
Qed.

Lemma set_prev_seg h hd p l x n v : dlseg (entries h) hd p (x :: l) n → (x ∉ l) →
  ∃ h', set_prev (Some x) v h = Ok h' ∧ dlseg (entries h') hd v (x :: l) n ∧
        heads h' = heads h ∧ (∀ b, b ≠ x → entries h' !! b = entries h !! b).
Proof.
  intros [He Hl] Hx. unfold set_prev. cbn. rewrite He. cbn.
  eexists. split; [done|]. split; [|split; [done|]].
  - split; cbn; [by rewrite lookup_insert_eq|].
    eapply dlseg_frame; [|exact Hl]. intros b Hb. cbn. rewrite lookup_insert_ne; set_solver.
  - intros b Hb. cbn. by rewrite lookup_insert_ne.
Qed.

(** [UpdateEnds] closes an interior segment into the ring its head describes,
    whatever its ends were. *)
Lemma UpdateEnds_seg closed h hd l p n :
  NoDup l → l ≠ [] → dlseg (entries h) hd p l n →
  (closed = false → p = None ∧ n = None) →
  heads h !! hd = Some (mkHead (Z.of_nat (length l)) (head l) (last l)) →
  ∃ h', UpdateEnds closed hd h = Ok h' ∧ heads h' = heads h ∧
    dlseg (entries h') hd (ring_end closed (last l)) l (ring_end closed (head l)) ∧
    (∀ b, b ∉ l → entries h' !! b = entries h !! b).
Proof.
  intros Hnd Hne Hs Hopen Hh. unfold UpdateEnds, load_head. rewrite Hh. cbn [deref mbind res_bind].
  unfold IsEmpty. rewrite bool_decide_eq_false_2 by (destruct l; simpl; [done|lia]).
  destruct closed.
  2:{ destruct Hopen as [-> ->]; [done|]. exists h. auto. }
  destruct (snoc_inv l) as [->|(l' & y & Hl)]; [done|].
  destruct l as [|x k]; [done|]. cbn [m_first m_last head].
  assert (Hy : y ∉ l').
  { rewrite Hl in Hnd. apply NoDup_app in Hnd as (_ & N & _). intros Hy. apply (N y); set_solver. }
  apply NoDup_cons in Hnd as [Hx Hnd].
  destruct (set_prev_seg _ _ _ _ _ _ (last (x :: k)) Hs Hx) as (h1 & E1 & S1 & G1 & F1).
  rewrite E1. cbn [mbind res_bind].
  assert (HL : last (x :: k) = Some y) by (rewrite Hl; apply last_snoc).
  assert (Hxl : x ∈ l' ++ [y]) by (rewrite <- Hl; left).
  rewrite HL in S1 |- *. rewrite Hl in S1 |- *.
  destruct (set_next_seg _ _ _ _ _ _ (Some x) S1 Hy) as (h2 & E2 & S2 & G2 & F2).
  exists h2. rewrite G2. split_and_all; [done|done|done|].
  clear -F1 F2 Hxl. intros b Hb. rewrite F2, F1; [done|set_solver..].
Qed.

Lemma UpdateEnds_if closed h hd l p n :
  NoDup l → l ≠ [] → dlseg (entries h) hd p l n →
  (closed = false → p = None ∧ n = None) →
  heads h !! hd = Some (mkHead (Z.of_nat (length l)) (head l) (last l)) →
  ∃ h', (if closed then UpdateEnds closed hd h else Ok h) = Ok h' ∧ heads h' = heads h ∧
    dlseg (entries h') hd (ring_end closed (last l)) l (ring_end closed (head l)) ∧
    (∀ b, b ∉ l → entries h' !! b = entries h !! b).
Proof.
  destruct closed; [by apply UpdateEnds_seg|]. intros _ _ Hs Hopen _.
  destruct Hopen as [-> ->]; [done|]. by exists h.
Qed.

(** The guarded stores of the code: nothing happens on an empty side. *)
Lemma set_next_last h hd p l n v : dlseg (entries h) hd p l n → NoDup l →
  ∃ h', (if is_null (last l) then Ok h else set_next (last l) v h) = Ok h' ∧
    heads h' = heads h ∧ dlseg (entries h') hd p l v ∧
    (∀ b, b ∉ l → entries h' !! b = entries h !! b).
Proof.
  intros Hs Hnd. destruct (snoc_inv l) as [->|(k & x & ->)]; [exists h; done|].
  apply NoDup_mid in Hnd as (Hx & _ & _). rewrite last_snoc. cbn [is_null].
  destruct (set_next_seg _ _ _ _ _ _ v Hs Hx) as (h' & E & T & G & F).
  exists h'. split_and_all; [done..|]. intros b Hb. apply F. set_solver.
Qed.

Lemma set_prev_first h hd p l n v : dlseg (entries h) hd p l n → NoDup l →
  ∃ h', (if is_null (head l) then Ok h else set_prev (head l) v h) = Ok h' ∧
    heads h' = heads h ∧ dlseg (entries h') hd v l n ∧
    (∀ b, b ∉ l → entries h' !! b = entries h !! b).
Proof.
  intros Hs Hnd. destruct l as [|x k]; [exists h; done|].
  apply NoDup_cons in Hnd as [Hx _]. cbn [head is_null].
  destruct (set_prev_seg _ _ _ _ _ _ v Hs Hx) as (h' & E & T & G & F).
  exists h'. split; [done|]. split; [done|]. split; [done|]. intros b Hb. apply F. set_solver.
Qed.

Definition end_if {A} (l : list A) (o : option addr) : option addr :=
  match l with [] => None | _ => o end.

(** ** Linking *)

Lemma Entry_Link_seg h hd p l1 n1 p2 l2 n a :
  dlseg (entries h) hd p l1 n1 → dlseg (entries h) hd p2 l2 n →
  (a ∉ l1 ++ l2) → NoDup (l1 ++ l2) → is_Some (entries h !! a) →
  ∃ h', Entry_Link a hd (head l2) (last l1) h = Ok h' ∧ heads h' = heads h ∧
    dlseg (entries h') hd (end_if l1 p) (l1 ++ a :: l2) (end_if l2 n) ∧
    entries h' !! a = Some (mkEntry (Some hd) (head l2) (last l1)) ∧
    (∀ b, b ∉ a :: l1 ++ l2 → entries h' !! b = entries h !! b).
Proof.
  intros S1 S2 Ha (N1 & N12 & N2)%NoDup_app [e0 He0]. unfold Entry_Link.
  rewrite He0. cbn [deref mbind res_bind].
  set (ea := mkEntry (Some hd) (head l2) (last l1)). set (h1 := store a ea h).
  assert (Ga : entries h1 !! a = Some ea) by apply lookup_insert_eq.
  assert (F1 : ∀ b, b ≠ a → entries h1 !! b = entries h !! b)
    by (intros b Hb; by apply lookup_insert_ne).
  destruct (set_next_last h1 hd p l1 n1 (Some a)) as (h2 & -> & G2 & T2 & F2); [|done|].
  { eapply dlseg_frame, S1. intros; apply F1; set_solver. }
  cbn [mbind res_bind].
  assert (Ga2 : entries h2 !! a = Some ea) by (rewrite F2; [done|set_solver]).
  rewrite Ga2. cbn [deref mbind res_bind m_next ea].
  destruct (set_prev_first h2 hd p2 l2 n (Some a)) as (h3 & E3 & G3 & T3 & F3); [|done|].
  { eapply dlseg_frame, S2. intros b Hb. rewrite F2, F1; [done|set_solver|]. intros ?. by eapply N12. }
  assert (Ga3 : entries h3 !! a = Some ea) by (rewrite F3; [done|set_solver]).
  exists h3. split_and_all; [done|by rewrite G3, G2| |done|].
  - apply dlseg_app. split; [|split].
    + eapply dlseg_frame; [intros b Hb; apply F3; intros ?; by eapply N12|]. by destruct l1.
    + rewrite Ga3. unfold ea. do 2 f_equal; [by destruct l2|]. destruct l1 as [|x k]; [done|].
      unfold last_or. by destruct (last_is_Some_cons x k) as [y ->].
    + by destruct l2.
  - intros b Hb. rewrite F3, F2, F1; [done|set_solver..].
Qed.

(** How [Link] picks the new boundary pointers. *)
Lemma link_first (l1 l2 : list addr) a : NoDup (l1 ++ l2) →
  (if is_null (head (l1 ++ l2)) then Some a
   else if decide (head (l1 ++ l2) = head l2) then Some a else head (l1 ++ l2)) = head (l1 ++ a :: l2).
Proof.
  intros Hnd. destruct l1 as [|x l1]; cbn.
  - destruct l2; cbn; [done|]. by rewrite decide_True.
  - rewrite decide_False; [done|]. apply NoDup_cons in Hnd as [Hx _].
    intros E. symmetry in E. apply head_elem_of in E. set_solver.
Qed.

Lemma link_last (l1 l2 : list addr) a : NoDup (l1 ++ l2) →
  (if is_null (last (l1 ++ l2)) then Some a
   else if decide (last (l1 ++ l2) = last l1) then Some a else last (l1 ++ l2)) = last (l1 ++ a :: l2).
Proof.
  intros Hnd. destruct (snoc_inv l2) as [->|(k & x & ->)].
  - rewrite app_nil_r, last_snoc, decide_True by done. by destruct (is_null _).
  - rewrite app_comm_cons, !app_assoc, !last_snoc. cbn.
    rewrite decide_False; [done|]. rewrite app_assoc in Hnd. apply NoDup_mid in Hnd as (Hx & _ & _).
    intros E. symmetry in E. apply last_elem_of in E. set_solver.
Qed.

(** [DListHead::Link]: an unlinked entry goes between the two halves of the
    list that its neighbour arguments name. *)
Lemma Link_rep closed h hd l1 l2 a next prev :
  dlist_rep closed h hd (l1 ++ l2) → unlinked h a →
  prev = last l1 → (l1 ≠ [] → next = head l2) →
  ∃ h', Link closed hd (Some a) next prev h = Ok h' ∧
    dlist_rep closed h' hd (l1 ++ a :: l2) ∧ frame h h' hd (a :: l1 ++ l2).
Proof.
  intros [Hnd Hh Hs Ho] (e0 & He0 & Hnull) -> Hnext.
  assert (Ha : a ∉ l1 ++ l2).
  { intros Ha. destruct (dlseg_owned _ _ _ _ _ _ Hs Ha) as (e & He & ?). congruence. }
  unfold Link, load_head. cbn [is_null negb stk_assert deref mbind res_bind].
  rewrite He0. cbn [deref mbind res_bind]. unfold IsLinked. rewrite Hnull. cbn [is_null negb stk_assert].
  rewrite Hh. cbn [deref mbind res_bind m_first m_last m_count].
  replace (if is_null (last l1) then head (l1 ++ l2) else next) with (head l2).
  2:{ destruct (snoc_inv l1) as [->|(k & x & ->)]; [done|]. rewrite last_snoc. cbn.
      rewrite Hnext; [done|]. by destruct k. }
  set (h1 := store_head _ _ h).
  apply dlseg_app in Hs as [S1 S2].
  destruct (Entry_Link_seg h1 hd _ l1 _ _ l2 _ a S1 S2 Ha Hnd) as (h2 & -> & G2 & T2 & Ga & F2);
    [by eexists|].
  cbn [mbind res_bind]. rewrite G2, Ga. cbn [heads h1 store_head].
  rewrite lookup_insert_eq. cbn [deref mbind res_bind m_first m_last m_count m_next m_prev].
  rewrite (link_first l1 l2 a Hnd), (link_last l1 l2 a Hnd).
  set (h3 := store_head hd _ h2).
  assert (Hnd' : NoDup (l1 ++ a :: l2)).
  { rewrite <- Permutation_middle. by constructor. }
  assert (Hlen : (Z.of_nat (length (l1 ++ l2)) + 1 = Z.of_nat (length (l1 ++ a :: l2)))%Z)
    by (rewrite !length_app; simpl; lia).
  destruct (UpdateEnds_if closed h3 hd (l1 ++ a :: l2) _ _ Hnd' ltac:(by destruct l1) T2)
    as (h4 & E4 & G4 & T4 & F4); [|cbn; by rewrite lookup_insert_eq, Hlen|].
  { intros ->. cbn. by destruct l1, l2. }
  exists h4. split; [done|]. split; [split|split].
  - done.
  - rewrite G4. cbn. by rewrite lookup_insert_eq, Hlen.
  - done.
  - intros b e Hb He. destruct (decide (b ∈ l1 ++ a :: l2)); [done|].
    rewrite F4, F2 in Hb by (clear -n; set_solver).
    specialize (Ho b e Hb He). clear -Ho. set_solver.
  - clear -F4 F2. intros b Hb. rewrite F4, F2; set_solver.
  - intros hd' Hhd. rewrite G4. cbn. rewrite lookup_insert_ne, G2 by done.
    cbn. by rewrite lookup_insert_ne.
Qed.

(** ** Unlinking *)

Lemma store_frame h a e b : b ≠ a → entries (store a e h) !! b = entries h !! b.
Proof. intros ?. by apply lookup_insert_ne. Qed.

(** A ring may be read from any of its elements. *)
Lemma ring_rotate E hd l1 l2 :
  dlseg E hd (last (l1 ++ l2)) (l1 ++ l2) (head (l1 ++ l2)) →
  dlseg E hd (last (l2 ++ l1)) (l2 ++ l1) (head (l2 ++ l1)).
Proof.
  destruct l1 as [|x l1]; [by rewrite app_nil_r|]. destruct l2 as [|y l2]; [by rewrite app_nil_r|].
  rewrite !last_app_cons, !dlseg_app. cbn [hd_or head app].
  destruct (last_is_Some_cons x l1) as [x' Hx]. destruct (last_is_Some_cons y l2) as [y' Hy].
  unfold last_or. rewrite Hx, Hy. tauto.
Qed.

Lemma Entry_Unlink_stores a h h1 h2 o nx pv :
  entries h !! a = Some (mkEntry o nx pv) →
  (if is_null pv then Ok h else set_next pv nx h) = Ok h1 →
  entries h1 !! a = Some (mkEntry o nx pv) →
  (if is_null nx then Ok h1 else set_prev nx pv h1) = Ok h2 →
  Entry_Unlink a h = Ok (store a (mkEntry None None None) h2).
Proof.
  intros Ha H1 Ha1 H2. unfold Entry_Unlink. rewrite Ha. cbn [deref mbind res_bind m_prev m_next].
  rewrite H1. cbn [mbind res_bind]. rewrite Ha1. cbn [deref mbind res_bind m_prev m_next].
  by rewrite H2.
Qed.

(** [DListEntry::Unlink] splices the two halves around the entry together: in
    an open list ... *)
Lemma Entry_Unlink_open h hd l1 a l2 :
  NoDup (l1 ++ a :: l2) → dlseg (entries h) hd None (l1 ++ a :: l2) None →
  ∃ h', Entry_Unlink a h = Ok h' ∧ heads h' = heads h ∧
    dlseg (entries h') hd None (l1 ++ l2) None ∧
    entries h' !! a = Some (mkEntry None None None) ∧
    (∀ b, b ∉ l1 ++ a :: l2 → entries h' !! b = entries h !! b).
Proof.
  intros Hnd Hs. destruct (NoDup_mid _ _ _ Hnd) as (Ha1 & Ha2 & (N1 & N12 & N2)%NoDup_app).
  assert (Ha : entries h !! a = Some (mkEntry (Some hd) (head l2) (last l1))).
  { rewrite (dlseg_mid _ _ _ _ _ _ _ Hs). unfold last_or. by destruct l2, (last l1). }
  apply dlseg_app in Hs as [S1 [_ S2]].
  destruct (set_next_last _ _ _ _ _ (head l2) S1 N1) as (h1 & E1 & G1 & T1 & F1).
  destruct (set_prev_first h1 hd (Some a) l2 None (last l1)) as (h2 & E2 & G2 & T2 & F2); [|done|].
  { eapply dlseg_frame, S2. intros b Hb. apply F1. intros ?. by eapply N12. }
  eexists. split; [eapply Entry_Unlink_stores; eauto; by rewrite F1|].
  split; [by rewrite <- G1, <- G2|]. split; [|split; [apply lookup_insert_eq|]].
  - eapply dlseg_frame with (E := entries h2).
    { intros b Hb. apply store_frame. set_solver. }
    apply dlseg_app. split.
    + eapply dlseg_frame; [intros b Hb; apply F2; intros ?; by eapply N12|].
      by destruct l2.
    + unfold last_or. by destruct (last l1).
  - intros b Hb. rewrite store_frame, F2, F1; [done|set_solver..].
Qed.

(** ... and in a ring, where the neighbours may be the same entry, or the entry
    itself. *)
Lemma Entry_Unlink_ring h hd a k :
  NoDup (a :: k) → dlseg (entries h) hd (last (a :: k)) (a :: k) (Some a) →
  ∃ h', Entry_Unlink a h = Ok h' ∧ heads h' = heads h ∧
    dlseg (entries h') hd (last k) k (head k) ∧
    entries h' !! a = Some (mkEntry None None None) ∧
    (∀ b, b ∉ a :: k → entries h' !! b = entries h !! b).
Proof.
  intros [Hak Hnd]%NoDup_cons [Ha Hs]. destruct k as [|x k'] eqn:Ek.
  { unfold Entry_Unlink. cbn in Ha. rewrite Ha. cbn. rewrite Ha. cbn.
    rewrite lookup_insert_eq. cbn. rewrite lookup_insert_eq. cbn.
    eexists. split_and_all; [done..|apply lookup_insert_eq|].
    intros b Hb. rewrite !store_frame; [done|set_solver..]. }
  rewrite <- Ek in *. assert (Hne : k ≠ []) by by subst.
  assert (Ha' : entries h !! a = Some (mkEntry (Some hd) (head k) (last k))).
  { rewrite Ha, Ek. rewrite last_cons. by destruct (last_is_Some_cons x k') as [? ->]. }
  destruct (set_next_last _ _ _ _ _ (head k) Hs Hnd) as (h1 & E1 & G1 & T1 & F1).
  destruct (set_prev_first _ _ _ _ _ (last k) T1 Hnd) as (h2 & E2 & G2 & T2 & F2).
  eexists. split; [eapply Entry_Unlink_stores; eauto; by rewrite F1|].
  split; [by rewrite <- G1, <- G2|]. split; [|split; [apply lookup_insert_eq|]].
  - eapply dlseg_frame, T2. intros b Hb. apply store_frame. set_solver.
  - clear -F1 F2. intros b Hb. rewrite store_frame, F2, F1; [done|set_solver..].
Qed.

Lemma Entry_Unlink_seg closed h hd l1 a l2 :
  let l := l1 ++ a :: l2 in
  NoDup l → dlseg (entries h) hd (ring_end closed (last l)) l (ring_end closed (head l)) →
  ∃ h' p n, Entry_Unlink a h = Ok h' ∧ heads h' = heads h ∧
    dlseg (entries h') hd p (l1 ++ l2) n ∧ (closed = false → p = None ∧ n = None) ∧
    entries h' !! a = Some (mkEntry None None None) ∧
    (∀ b, b ∉ l → entries h' !! b = entries h !! b).
Proof.
  intros l Hnd Hs. destruct closed; cbn [ring_end] in Hs.
  - apply ring_rotate in Hs. assert (HP : l ≡ₚ a :: l2 ++ l1)
      by (unfold l; by rewrite <- Permutation_middle, Permutation_app_comm).
    rewrite HP in Hnd.
    destruct (Entry_Unlink_ring _ _ _ _ Hnd Hs) as (h' & E & G & T & Ga & F).
    apply ring_rotate in T. exists h', (last (l1 ++ l2)), (head (l1 ++ l2)).
    split_and_all; try done. intros b Hb. apply F. by rewrite <- HP.
  - destruct (Entry_Unlink_open _ _ _ _ _ Hnd Hs) as (h' & E & G & T & Ga & F).
    exists h', None, None. split_and_all; done.
Qed.

(** The boundary pointers [Unlink] computes before [UpdateEnds]. *)
Lemma unlink_first (l1 l2 : list addr) a N : (a ∉ l1) → (l1 ++ l2 ≠ []) →
  (if decide (head (l1 ++ a :: l2) = Some a) then hd_or N l2 else head (l1 ++ a :: l2))
  = head (l1 ++ l2).
Proof.
  intros Ha Hne. destruct l1 as [|x l1]; cbn.
  - rewrite decide_True by done. by destruct l2.
  - rewrite decide_False; [done|]. set_solver.
Qed.

Lemma unlink_last (l1 l2 : list addr) a P : (a ∉ l2) → (l1 ++ l2 ≠ []) →
  (if decide (last (l1 ++ a :: l2) = Some a) then last_or P l1 else last (l1 ++ a :: l2))
  = last (l1 ++ l2).
Proof.
  intros Ha Hne. destruct (snoc_inv l2) as [->|(k & x & ->)].
  - rewrite last_snoc, decide_True by done. rewrite app_nil_r in *. unfold last_or.
    destruct l1 as [|y l1]; [done|]. by destruct (last_is_Some_cons y l1) as [? ->].
  - rewrite app_comm_cons, !app_assoc, !last_snoc.
    rewrite decide_False; [done|]. set_solver.
Qed.

(** [UpdateEnds] after an entry left: the boundary pointers need to be right
    only if something remains. *)
Lemma UpdateEnds_shrunk closed h hd k f la p n :
  NoDup k → dlseg (entries h) hd p k n → (closed = false → p = None ∧ n = None) →
  heads h !! hd = Some (mkHead (Z.of_nat (length k)) f la) →
  (k ≠ [] → f = head k ∧ la = last k) →
  ∃ h', UpdateEnds closed hd h = Ok h' ∧
    heads h' !! hd = Some (mkHead (Z.of_nat (length k)) (head k) (last k)) ∧
    (∀ hd', hd' ≠ hd → heads h' !! hd' = heads h !! hd') ∧
    dlseg (entries h') hd (ring_end closed (last k)) k (ring_end closed (head k)) ∧
    (∀ b, b ∉ k → entries h' !! b = entries h !! b).
Proof.
  intros Hnd Hs Hop Hh Hends. destruct k as [|x k'] eqn:Ek.
  - unfold UpdateEnds, load_head. rewrite Hh. cbn. eexists. split; [done|].
    cbn. rewrite lookup_insert_eq. split_and_all; try done.
    intros hd' ?. by rewrite lookup_insert_ne.
  - destruct Hends as [-> ->]; [done|].
    destruct (UpdateEnds_seg closed h hd _ p n Hnd ltac:(done) Hs Hop Hh) as (h' & E & G & T & F).
    exists h'. rewrite G. split_and_all; done.
Qed.

(** [DListHead::Unlink] removes the entry, wherever it is. *)
Lemma Unlink_rep closed h hd l a :
  dlist_rep closed h hd l → a ∈ l →
  ∃ h', Unlink closed hd (Some a) h = Ok h' ∧ dlist_rep closed h' hd (list_remove1 a l) ∧
    entries h' !! a = Some DListEntry_ctor ∧ frame h h' hd l.
Proof.
  intros [Hnd Hh Hs Ho] Hal.
  destruct (elem_of_split_nodup _ _ Hal Hnd) as (l1 & l2 & -> & Ha1 & Ha2 & ->).
  unfold Unlink, load_head. cbn [is_null negb stk_assert deref mbind res_bind].
  rewrite (dlseg_mid _ _ _ _ _ _ _ Hs). cbn [deref mbind res_bind].
  unfold IsLinked. cbn [m_head is_null negb stk_assert]. rewrite bool_decide_eq_true_2 by done.
  cbn [stk_assert]. rewrite Hh. cbn [deref mbind res_bind m_first m_last m_count m_next m_prev].
  set (h1 := store_head hd _ h).
  destruct (Entry_Unlink_seg closed h1 hd l1 a l2 Hnd Hs) as (h2 & p & n & -> & G2 & T2 & Hop & Ga & F2).
  cbn [mbind res_bind]. rewrite G2. cbn [heads h1 store_head]. rewrite lookup_insert_eq.
  cbn [deref mbind res_bind m_first m_last m_count].
  set (h3 := store_head hd _ h2).
  assert (N : NoDup (l1 ++ l2)) by (by apply NoDup_mid in Hnd as (_ & _ & ?)).
  assert (Hlen : (Z.of_nat (length (l1 ++ a :: l2)) - 1 = Z.of_nat (length (l1 ++ l2)))%Z)
    by (rewrite !length_app; simpl; lia).
  destruct (UpdateEnds_shrunk closed h3 hd (l1 ++ l2)
    (if decide (head (l1 ++ a :: l2) = Some a) then hd_or (ring_end closed (head (l1 ++ a :: l2))) l2
     else head (l1 ++ a :: l2))
    (if decide (last (l1 ++ a :: l2) = Some a) then last_or (ring_end closed (last (l1 ++ a :: l2))) l1
     else last (l1 ++ a :: l2)) p n N T2 Hop) as (h4 & E4 & G4 & G4' & T4 & F4).
  { unfold h3. cbn. by rewrite lookup_insert_eq, Hlen. }
  { intros Hne. by rewrite unlink_first, unlink_last. }
  change (entries h3) with (entries h2) in F4.
  exists h4. split; [done|]. split; [split|split; [|split]]; try done.
  - intros b e Hb He. destruct (decide (b ∈ l1 ++ l2)) as [|Hn]; [done|].
    rewrite F4 in Hb by done. destruct (decide (b = a)) as [->|Hba].
    + rewrite Ga in Hb. by simplify_eq.
    + rewrite F2 in Hb by (clear -Hn Hba; set_solver). specialize (Ho b e Hb He).
      clear -Ho Hba. set_solver.
  - rewrite F4; [done|set_solver].
  - clear -F4 F2. intros b Hb. rewrite F4, F2; set_solver.
  - intros hd' Hhd. rewrite G4' by done. unfold h3. cbn.
    rewrite lookup_insert_ne, G2 by done. cbn. by rewrite lookup_insert_ne.
Qed.

(** ** Other lists are left alone *)

Lemma rep_not_other closed h hd hd' l a e : dlist_rep closed h hd l → hd' ≠ hd →
  a ∈ l → entries h !! a = Some e → m_head e ≠ Some hd'.
Proof.
  intros Hr Hne Ha He. destruct (dlseg_owned _ _ _ _ _ _ (rep_seg _ _ _ _ Hr) Ha) as (e' & He' & ?).
  congruence.
Qed.

Lemma rep_frame closed h h' hd hd' k T : hd' ≠ hd → frame h h' hd T →
  (∀ b e, b ∈ T → entries h !! b = Some e → m_head e ≠ Some hd') →
  (∀ b e, b ∈ T → entries h' !! b = Some e → m_head e ≠ Some hd') →
  dlist_rep closed h hd' k → dlist_rep closed h' hd' k.
Proof.
  intros Hne [FE FH] H1 H2 [Hnd Hh Hs Ho]. split; [done|by rewrite FH|..].
  - eapply dlseg_frame, Hs. intros b Hb. apply FE. intros HT.
    destruct (dlseg_owned _ _ _ _ _ _ Hs Hb) as (e & He & Hm). by eapply H1.
  - intros a e Ha Hm. destruct (decide (a ∈ T)) as [HT|HT]; [exfalso; eapply H2; eauto|].
    rewrite FE in Ha by done. eauto.
Qed.

(** ** The abstract list store

    [astate] is what the clients of the class see: the entries that exist and,
    for every head, the list it holds. *)

Record astate := mkA { a_entries : gset addr; a_lists : gmap hid (list addr) }.

Definition free_entry (A : astate) (a : addr) : Prop :=
  a ∈ a_entries A ∧ ∀ hd l, a_lists A !! hd = Some l → a ∉ l.

Record store_rep (closed : bool) (h : heap) (A : astate) : Prop := {
  sr_dom : dom (entries h) = a_entries A;
  sr_lists : ∀ hd l, a_lists A !! hd = Some l → dlist_rep closed h hd l;
  sr_heads : ∀ a e hd, entries h !! a = Some e → m_head e = Some hd → is_Some (a_lists A !! hd);
}.

Lemma store_rep_unlinked closed h A a : store_rep closed h A → free_entry A a → unlinked h a.
Proof.
  intros [Hd Hl Hh] [Ha Hfree]. rewrite <- Hd in Ha. apply elem_of_dom in Ha as [e He].
  exists e. split; [done|]. destruct (m_head e) as [hd|] eqn:Hm; [|done].
  destruct (Hh _ _ _ He Hm) as [l Hhd]. destruct (Hfree _ _ Hhd).
  eapply rep_owns; eauto.
Qed.

(** Updating one list of the store: the general frame argument. *)
Lemma store_rep_update closed h h' A hd l l' T :
  store_rep closed h A → a_lists A !! hd = Some l → frame h h' hd T →
  dlist_rep closed h' hd l' →
  (∀ b, b ∈ T → b ∈ l ∨ unlinked h b) →
  (∀ b, b ∈ T → b ∈ l' ∨ entries h' !! b = Some DListEntry_ctor) →
  store_rep closed h' (mkA (a_entries A) (<[hd := l']> (a_lists A))).
Proof.
  intros [Hd Hl Hh] Hhd HF Hr HT HT'.
  assert (Hbefore : ∀ b e hd', b ∈ T → hd' ≠ hd → entries h !! b = Some e → m_head e ≠ Some hd').
  { intros b e hd' Hb Hne He. destruct (HT b Hb) as [?|(e' & ? & ?)]; [|congruence].
    eapply (rep_not_other closed h hd hd' l b); eauto. }
  assert (Hafter : ∀ b e hd', b ∈ T → hd' ≠ hd → entries h' !! b = Some e → m_head e ≠ Some hd').
  { intros b e hd' Hb Hne He. destruct (HT' b Hb) as [?|E]; [eapply (rep_not_other closed h' hd hd' l' b); eauto|].
    rewrite E in He. by simplify_eq. }
  destruct HF as [FE FH]. split; cbn.
  - rewrite <- Hd. apply set_eq. intros b. rewrite !elem_of_dom.
    destruct (decide (b ∈ T)) as [HbT|]; [|by rewrite FE]. split; intros _.
    + destruct (HT b HbT) as [Hb|(e & -> & _)]; [|eauto].
      destruct (dlseg_owned _ _ _ _ _ _ (rep_seg _ _ _ _ (Hl _ _ Hhd)) Hb) as (? & -> & _). eauto.
    + destruct (HT' b HbT) as [Hb| ->]; [|eauto].
      destruct (dlseg_owned _ _ _ _ _ _ (rep_seg _ _ _ _ Hr) Hb) as (? & -> & _). eauto.
  - intros hd' k. rewrite lookup_insert. case_decide as E; [intros [= <-]; subst; done|].
    intros Hk. eapply (rep_frame closed h h' hd hd' k T); eauto; split; done.
  - intros a e hd' Ha Hm. rewrite lookup_insert. case_decide as E; [eauto|].
    destruct (decide (a ∈ T)) as [HaT|]; [exfalso; eapply Hafter; eauto|].
    rewrite FE in Ha by done. eauto.
Qed.

(** ** The operations on the store *)

Section ops.
Context (closed : bool).
Implicit Types (h : heap) (A : astate) (l k : list addr).

Definition put A hd l : astate := mkA (a_entries A) (<[hd := l]> (a_lists A)).

Lemma sim_link h A hd l1 l2 a next prev :
  store_rep closed h A → a_lists A !! hd = Some (l1 ++ l2) → free_entry A a →
  prev = last l1 → (l1 ≠ [] → next = head l2) →
  ∃ h', Link closed hd (Some a) next prev h = Ok h' ∧ store_rep closed h' (put A hd (l1 ++ a :: l2)).
Proof.
  intros Hr Hl Hfree Hp Hn. assert (Hu := store_rep_unlinked _ _ _ _ Hr Hfree).
  destruct (Link_rep closed h hd l1 l2 a next prev (sr_lists _ _ _ Hr _ _ Hl) Hu Hp Hn)
    as (h' & E & R & F).
  exists h'. split; [done|]. eapply store_rep_update; eauto.
  - intros b [->|Hb]%elem_of_cons; auto.
  - intros b Hb. left. clear -Hb. set_solver.
Qed.

Lemma sim_LinkBack h A hd l a :
  store_rep closed h A → a_lists A !! hd = Some l → free_entry A a →
  ∃ h', LinkBack closed hd a h = Ok h' ∧ store_rep closed h' (put A hd (l ++ [a])).
Proof.
  intros Hr Hl Hfree. unfold LinkBack, load_head.
  rewrite (rep_head _ _ _ _ (sr_lists _ _ _ Hr _ _ Hl)). cbn [deref mbind res_bind m_last].
  apply (sim_link h A hd l []); auto. by rewrite app_nil_r.
Qed.

Lemma sim_LinkFront h A hd l a :
  store_rep closed h A → a_lists A !! hd = Some l → free_entry A a →
  ∃ h', LinkFront closed hd a h = Ok h' ∧ store_rep closed h' (put A hd (a :: l)).
Proof.
  intros Hr Hl Hfree. unfold LinkFront, load_head.
  rewrite (rep_head _ _ _ _ (sr_lists _ _ _ Hr _ _ Hl)). cbn [deref mbind res_bind m_last].
  by apply (sim_link h A hd [] l).
Qed.

Lemma sim_Unlink h A hd l a :
  store_rep closed h A → a_lists A !! hd = Some l → a ∈ l →
  ∃ h', Unlink closed hd (Some a) h = Ok h' ∧ store_rep closed h' (put A hd (list_remove1 a l)).
Proof.
  intros Hr Hl Ha.
  destruct (Unlink_rep closed h hd l a (sr_lists _ _ _ Hr _ _ Hl) Ha) as (h' & E & R & Hnull & F).
  exists h'. split; [done|]. eapply store_rep_update; eauto.
  intros b Hb. destruct (decide (b = a)) as [->|]; [by right|]. left. by rewrite elem_of_remove1.
Qed.

Lemma free_after_unlink A hd l a : a_lists A !! hd = Some l →
  a ∈ a_entries A → (∀ hd' k, hd' ≠ hd → a_lists A !! hd' = Some k → a ∉ k) →
  free_entry (put A hd (list_remove1 a l)) a.
Proof.
  intros Hl Ha Hother. split; [done|]. intros hd' k. cbn. rewrite lookup_insert.
  case_decide; [intros [= <-]; rewrite elem_of_remove1; tauto|]. eauto.
Qed.

(** Distinct heads hold disjoint lists. *)
Lemma store_rep_disjoint h A hd hd' l k a : store_rep closed h A →
  a_lists A !! hd = Some l → a_lists A !! hd' = Some k → a ∈ l → a ∈ k → hd = hd'.
Proof.
  intros Hr Hl Hk Hal Hak.
  destruct (dlseg_owned _ _ _ _ _ _ (rep_seg _ _ _ _ (sr_lists _ _ _ Hr _ _ Hl)) Hal) as (e & He & ?).
  destruct (dlseg_owned _ _ _ _ _ _ (rep_seg _ _ _ _ (sr_lists _ _ _ Hr _ _ Hk)) Hak) as (e' & He' & ?).
  congruence.
Qed.

Lemma store_rep_entry h A hd l a : store_rep closed h A →
  a_lists A !! hd = Some l → a ∈ l → a ∈ a_entries A.
Proof.
  intros Hr Hl Ha. rewrite <- (sr_dom _ _ _ Hr).
  destruct (dlseg_owned _ _ _ _ _ _ (rep_seg _ _ _ _ (sr_lists _ _ _ Hr _ _ Hl)) Ha) as (e & He & _).
  apply elem_of_dom. eauto.
Qed.

Lemma sim_PopFront h A hd a l :
  store_rep closed h A → a_lists A !! hd = Some (a :: l) →
  ∃ h', PopFront closed hd h = Ok (Some a, h') ∧ store_rep closed h' (put A hd l).
Proof.
  intros Hr Hl. assert (Rl := sr_lists _ _ _ Hr _ _ Hl).
  unfold PopFront, load_head. rewrite (rep_head _ _ _ _ Rl). cbn [deref mbind res_bind m_first head].
  destruct (sim_Unlink h A hd (a :: l) a Hr Hl) as (h' & -> & R); [left|].
  exists h'. split; [done|]. assert (Hn := rep_nodup _ _ _ _ Rl). apply NoDup_cons in Hn as [Hn _].
  by rewrite (remove1_mid a [] l) in R by set_solver.
Qed.

Lemma sim_PopBack h A hd a l :
  store_rep closed h A → a_lists A !! hd = Some (l ++ [a]) →
  ∃ h', PopBack closed hd h = Ok (Some a, h') ∧ store_rep closed h' (put A hd l).
Proof.
  intros Hr Hl. assert (Rl := sr_lists _ _ _ Hr _ _ Hl).
  unfold PopBack, load_head. rewrite (rep_head _ _ _ _ Rl). cbn [deref mbind res_bind m_last].
  rewrite last_snoc.
  destruct (sim_Unlink h A hd (l ++ [a]) a Hr Hl) as (h' & -> & R); [set_solver|].
  exists h'. split; [done|]. assert (Hn := rep_nodup _ _ _ _ Rl). apply NoDup_mid in Hn as (Hn & _).
  rewrite (remove1_mid a l []) in R by set_solver. by rewrite app_nil_r in R.
Qed.

(** On an empty list both pops fail the null assertion of [Unlink]. *)
Lemma Pop_empty h hd : dlist_rep closed h hd [] →
  PopFront closed hd h = Panic PANIC_ASSERT ∧ PopBack closed hd h = Panic PANIC_ASSERT.
Proof.
  intros [_ Hh _ _]. unfold PopFront, PopBack, load_head. rewrite Hh. done.
Qed.

Lemma put_put A hd l k : put (put A hd l) hd k = put A hd k.
Proof. unfold put. cbn. by rewrite insert_insert_eq. Qed.

Lemma put_id A hd l : a_lists A !! hd = Some l → put A hd l = A.
Proof. intros Hl. unfold put. rewrite insert_id by done. by destruct A. Qed.

Lemma sim_Clear fuel h A hd l :
  store_rep closed h A → a_lists A !! hd = Some l → length l ≤ fuel →
  ∃ h', Clear closed fuel hd h = Ok h' ∧ store_rep closed h' (put A hd []).
Proof.
  revert h A l. induction fuel as [|fuel IH]; intros h A l Hr Hl Hf.
  all: assert (Rl := sr_lists _ _ _ Hr _ _ Hl); unfold Clear; fold (Clear closed);
    unfold load_head; rewrite (rep_head _ _ _ _ Rl); cbn [deref mbind res_bind m_first].
  all: destruct l as [|a l];
    [exists h; split; [by rewrite ?bool_decide_eq_true_2|by rewrite put_id]|].
  { simpl in Hf. lia. }
  unfold IsEmpty. cbn [m_count]. rewrite bool_decide_eq_false_2 by (simpl; lia). cbn [head].
  destruct (sim_Unlink h A hd (a :: l) a Hr Hl) as (h1 & -> & R); [left|]. cbn [mbind res_bind].
  assert (Hn := rep_nodup _ _ _ _ Rl). apply NoDup_cons in Hn as [Hn _].
  rewrite (remove1_mid a [] l) in R by set_solver. cbn [app] in R.
  destruct (IH h1 _ l R) as (h' & E & R'); [apply lookup_insert_eq|simpl in Hf; lia|].
  exists h'. split; [done|]. by rewrite put_put in R'.
Qed.

Lemma sim_RelinkTo_loop fuel h A hd to l k :
  hd ≠ to → store_rep closed h A → a_lists A !! hd = Some l → a_lists A !! to = Some k →
  length l ≤ fuel →
  ∃ h', RelinkTo_loop closed fuel hd to h = Ok h' ∧
    store_rep closed h' (put (put A hd []) to (k ++ l)).
Proof.
  intros Hne. revert h A l k. induction fuel as [|fuel IH]; intros h A l k Hr Hl Hk Hf.
  all: assert (Rl := sr_lists _ _ _ Hr _ _ Hl); cbn [RelinkTo_loop];
    unfold load_head; rewrite (rep_head _ _ _ _ Rl); cbn [deref mbind res_bind].
  all: destruct l as [|a l];
    [exists h; split; [done|rewrite app_nil_r, (put_id A hd []) by done; by rewrite put_id]|].
  { simpl in Hf. lia. }
  unfold IsEmpty. cbn [m_count]. rewrite bool_decide_eq_false_2 by (simpl; lia).
  destruct (sim_PopFront h A hd a l Hr Hl) as (h1 & -> & R1). cbn [mbind res_bind deref].
  assert (Hn := rep_nodup _ _ _ _ Rl). apply NoDup_cons in Hn as [Hn _].
  assert (Hk1 : a_lists (put A hd l) !! to = Some k) by (cbn; by rewrite lookup_insert_ne).
  assert (Hfr : free_entry (put A hd l) a).
  { replace l with (list_remove1 a (a :: l)) by (apply (remove1_mid a [] l); set_solver).
    apply free_after_unlink; [done|apply (store_rep_entry h A hd (a :: l)); [done..|left]|].
    intros hd' k' Hne' Hk' Hin. apply Hne'. symmetry.
    apply (store_rep_disjoint h A hd hd' (a :: l) k' a); [done..|left|done]. }
  destruct (sim_LinkBack h1 _ to k a R1 Hk1 Hfr) as (h2 & -> & R2). cbn [mbind res_bind].
  destruct (IH h2 _ l (k ++ [a]) R2) as (h' & E & R'); cbn.
  - by rewrite lookup_insert_ne, lookup_insert_eq.
  - apply lookup_insert_eq.
  - simpl in Hf. lia.
  - exists h'. split; [done|]. revert R'. rewrite <- app_assoc. unfold put. cbn.
    match goal with |- store_rep _ _ (mkA _ ?m) → store_rep _ _ (mkA _ ?m') =>
      replace m with m'; [done|] end.
    apply map_eq. intros i. rewrite !lookup_insert. repeat case_decide; congruence.
Qed.

(** The neighbour pointers of a ring are its circular successor and
    predecessor, and [GetHead] tells membership. *)
Lemma ring_neighbours h hd l a : dlist_rep true h hd l → a ∈ l →
  entries h !! a = Some (mkEntry (Some hd) (cnext l a) (cprev l a)).
Proof.
  intros [Hnd _ Hs _] Ha. destruct (elem_of_split_nodup _ _ Ha Hnd) as (l1 & l2 & -> & H1 & H2 & _).
  rewrite (dlseg_mid _ _ _ _ _ _ _ Hs), cnext_mid, cprev_mid by done. cbn [ring_end].
  do 2 f_equal.
  - by destruct l2, l1.
  - unfold last_or. destruct (snoc_inv l1) as [->|(k & x & ->)].
    + by rewrite app_nil_r.
    + by rewrite app_comm_cons, app_assoc, !last_snoc.
Qed.

Lemma head_membership h hd l a e : dlist_rep closed h hd l → entries h !! a = Some e →
  m_head e = Some hd ↔ a ∈ l.
Proof.
  intros Hr He. split; [by eapply rep_owns; eauto|]. intros Ha.
  destruct (dlseg_owned _ _ _ _ _ _ (rep_seg _ _ _ _ Hr) Ha) as (e' & He' & ?). congruence.
Qed.
End ops.

(** ** Refinement

    The calls the kernel makes, their abstract meaning and their
    implementation. *)

Inductive call : Set :=
| CLinkBack (hd : hid) (a : addr)
| CLinkFront (hd : hid) (a : addr)
| CLinkBefore (hd : hid) (a b : addr) (* Link(a, b, b->GetPrev()) *)
| CUnlink (hd : hid) (a : addr)
| CPopFront (hd : hid)
| CPopBack (hd : hid)
| CClear (hd : hid)
| CRelinkTo (hd to : hid).

Inductive spec_step : call → astate → option addr → astate → Prop :=
| spec_LinkBack hd a A l : a_lists A !! hd = Some l → free_entry A a →
    spec_step (CLinkBack hd a) A None (put A hd (l ++ [a]))
| spec_LinkFront hd a A l : a_lists A !! hd = Some l → free_entry A a →
    spec_step (CLinkFront hd a) A None (put A hd (a :: l))
| spec_LinkBefore hd a b A l1 l2 : a_lists A !! hd = Some (l1 ++ b :: l2) → l1 ≠ [] →
    free_entry A a →
    spec_step (CLinkBefore hd a b) A None (put A hd (l1 ++ a :: b :: l2))
| spec_Unlink hd a A l : a_lists A !! hd = Some l → a ∈ l →
    spec_step (CUnlink hd a) A None (put A hd (list_remove1 a l))
| spec_PopFront hd a A l : a_lists A !! hd = Some (a :: l) →
    spec_step (CPopFront hd) A (Some a) (put A hd l)
| spec_PopBack hd a A l : a_lists A !! hd = Some (l ++ [a]) →
    spec_step (CPopBack hd) A (Some a) (put A hd l)
| spec_Clear hd A l : a_lists A !! hd = Some l →
    spec_step (CClear hd) A None (put A hd [])
| spec_RelinkTo hd to A l k : a_lists A !! hd = Some l → a_lists A !! to = Some k → hd ≠ to →
    spec_step (CRelinkTo hd to) A None (put (put A hd []) to (k ++ l)).

Definition ret_null (m : res heap) : res (option addr * heap) := h ← m; Ok (None, h).

Definition impl_step (closed : bool) (c : call) (h : heap) : res (option addr * heap) :=
  let fuel := size (entries h) in
  match c with
  | CLinkBack hd a => ret_null (LinkBack closed hd a h)
  | CLinkFront hd a => ret_null (LinkFront closed hd a h)
  | CLinkBefore hd a b =>
      eb ← deref (entries h !! b); ret_null (Link closed hd (Some a) (Some b) (m_prev eb) h)
  | CUnlink hd a => ret_null (Unlink closed hd (Some a) h)
  | CPopFront hd => PopFront closed hd h
  | CPopBack hd => PopBack closed hd h
  | CClear hd => ret_null (Clear closed fuel hd h)
  | CRelinkTo hd to => ret_null (RelinkTo closed fuel hd to h)
  end.

Fixpoint spec_run (cs : list call) (A : astate) (rs : list (option addr)) (A' : astate) : Prop :=
  match cs, rs with
  | [], [] => A' = A
  | c :: cs, r :: rs => ∃ A1, spec_step c A r A1 ∧ spec_run cs A1 rs A'
  | _, _ => False
  end.
Fixpoint impl_run (closed : bool) (cs : list call) (h : heap) : res (list (option addr) * heap) :=
  match cs with
  | [] => Ok ([], h)
  | c :: cs => '(r, h1) ← impl_step closed c h; '(rs, h2) ← impl_run closed cs h1; Ok (r :: rs, h2)
  end.

(** No list of the store is longer than the number of entries, which is
    therefore enough fuel for the loops of [Clear] and [RelinkTo]. *)
Lemma list_length_bound closed h A hd l : store_rep closed h A → a_lists A !! hd = Some l →
  length l ≤ size (entries h).
Proof.
  intros Hr Hl. rewrite <- size_dom, (sr_dom _ _ _ Hr).
  rewrite <- (size_list_to_set (C := gset addr) l) by (eapply rep_nodup, (sr_lists _ _ _ Hr); eauto).
  apply subseteq_size. intros a. rewrite elem_of_list_to_set. by eapply store_rep_entry.
Qed.

Lemma sim_step closed c h A r A' :
  store_rep closed h A → spec_step c A r A' →
  ∃ h', impl_step closed c h = Ok (r, h') ∧ store_rep closed h' A'.
Proof.
  intros Hr Hs. destruct Hs as [hd a A l Hl Hf|hd a A l Hl Hf|hd a b A l1 l2 Hl Hne Hf|hd a A l Hl Ha
    |hd a A l Hl|hd a A l Hl|hd A l Hl|hd to A l k Hl Hk Hne]; cbn [impl_step].
  - destruct (sim_LinkBack closed h A hd l a Hr Hl Hf) as (h' & -> & R). by exists h'.
  - destruct (sim_LinkFront closed h A hd l a Hr Hl Hf) as (h' & -> & R). by exists h'.
  - rewrite (dlseg_mid _ _ _ _ _ _ _ (rep_seg _ _ _ _ (sr_lists _ _ _ Hr _ _ Hl))).
    cbn [deref mbind res_bind m_prev].
    destruct (sim_link closed h A hd l1 (b :: l2) a (Some b)
      (last_or (ring_end closed (last (l1 ++ b :: l2))) l1) Hr Hl Hf) as (h' & -> & R); [|done|by exists h'].
    destruct l1 as [|x k]; [done|]. unfold last_or. by destruct (last_is_Some_cons x k) as [y ->].
  - destruct (sim_Unlink closed h A hd l a Hr Hl Ha) as (h' & -> & R). by exists h'.
  - by apply sim_PopFront.
  - by apply sim_PopBack.
  - destruct (sim_Clear closed _ h A hd l Hr Hl (list_length_bound _ _ _ _ _ Hr Hl)) as (h' & -> & R).
    by exists h'.
  - unfold RelinkTo. rewrite bool_decide_eq_true_2 by done. cbn [stk_assert].
    destruct (sim_RelinkTo_loop closed _ h A hd to l k Hne Hr Hl Hk (list_length_bound _ _ _ _ _ Hr Hl))
      as (h' & -> & R). by exists h'.
Qed.

(** Freshly constructed entries and heads represent the store of empty lists. *)
Definition init_heap (U H : gset nat) : heap :=
  mkHeap (gset_to_gmap DListEntry_ctor U) (gset_to_gmap DListHead_ctor H).
Definition init_store (U H : gset nat) : astate := mkA U (gset_to_gmap [] H).

Lemma init_store_rep closed U H : store_rep closed (init_heap U H) (init_store U H).
Proof.
  split; cbn.
  - apply dom_gset_to_gmap.
  - intros hd l [Hh <-]%lookup_gset_to_gmap_Some. split; cbn; [constructor| |done|].
    + by apply lookup_gset_to_gmap_Some.
    + by intros a e [_ <-]%lookup_gset_to_gmap_Some ?.
  - by intros a e hd [_ <-]%lookup_gset_to_gmap_Some ?.
Qed.

(** C13. Every sequence of list calls whose abstract preconditions hold runs to
    completion on the pointer structure, in an open list and in a ring: no
    assertion fails, no null pointer is followed, every loop ends, the returned
    pointers are the ones of the abstract lists, and the heap ends up
    representing the abstract store, all its lists at once. *)
Theorem dlist_refinement (closed : bool) (cs : list call) (h : heap) (A A' : astate)
    (rs : list (option addr)) :
  store_rep closed h A → spec_run cs A rs A' →
  ∃ h', impl_run closed cs h = Ok (rs, h') ∧ store_rep closed h' A'.
Proof.
  revert h A rs. induction cs as [|c cs IH]; intros h A [|r rs] Hr Hs; try done.
  - cbn in Hs. subst. by exists h.
  - destruct Hs as (A1 & Hc & Hs).
    destruct (sim_step _ _ _ _ _ _ Hr Hc) as (h1 & E1 & R1).
    destruct (IH _ _ _ R1 Hs) as (h' & E & R). exists h'. split; [|done].
    cbn [impl_run]. rewrite E1. cbn [mbind res_bind]. by rewrite E.
Qed.

Lemma dlist_refinement_witness :
  ∃ h', impl_run true [CLinkBack 0 5; CLinkFront 0 6; CLinkBefore 0 7 5; CUnlink 0 6; CRelinkTo 0 1]
          (init_heap {[5; 6; 7]} {[0; 1]}) = Ok ([None; None; None; None; None], h') ∧
        store_rep true h' (mkA {[5; 6; 7]} (<[0 := []]> {[1 := [7; 5]]})).
Proof.
  apply (dlist_refinement true _ _ (init_store {[5; 6; 7]} {[0; 1]})); [apply init_store_rep|].
  cbn [spec_run]. eexists. split.
  { apply spec_LinkBack with (l := []); [done|]. split; [decided|].
    intros hd l. cbn. rewrite lookup_gset_to_gmap_Some. intros [_ <-]. decided. }
  eexists. split.
  { apply spec_LinkFront with (l := [5]); [done|]. split; [decided|].
    cbn. intros hd l [[<- <-]|[_ Hl]]%lookup_insert_Some; [decided|].
    apply lookup_gset_to_gmap_Some in Hl as [_ <-]. decided. }
  eexists. split.
  { apply spec_LinkBefore with (l1 := [6]) (l2 := []); [done..|]. split; [decided|].
    cbn. rewrite insert_insert_eq.
    intros hd l [[<- <-]|[_ Hl]]%lookup_insert_Some; [decided|].
    apply lookup_gset_to_gmap_Some in Hl as [_ <-]. decided. }
  eexists. split; [apply spec_Unlink with (l := [6; 7; 5]); [done|decided]|].
  eexists. split; [apply spec_RelinkTo with (l := [7; 5]) (k := []); done|].
  vm_compute. done.
Defined.

End DList.
