(* ===== verification/PriorityBitmap.v ===== *)
(** * Ready bitmaps ([stk_priority_bitmap.h], [CountLeadingZeros] of [stk_defs.h])

    The bitmaps that tell a priority scheduler which levels have ready tasks:
    a plain [uint32_t] or [uint64_t], or the two-level [PriorityBitmap<BITS>]
    of up to 1024 bits.  [BitmapOps] is the interface
    [PriorityBitmapTraits<BitmapT>] gives to the schedulers, [BitmapSpec] what
    they rely on: the bitmap is a set of levels and [HighestSet] is its
    maximum.  All three representations are instances. *)

From S2P Require Import Prelude.
Local Open Scope Z_scope.

Module PBitmap.

(** ** [CountLeadingZeros]

    The portable branch of the function: a binary search by halving shifts.
    [temp << k] is a 32-bit shift. *)
Definition clz_step (bound k : Z) (s : Z * Z) : Z * Z :=
  let '(count, temp) := s in
  if temp <=? bound then (count + k, u32 (Z.shiftl temp k)) else (count, temp).
Definition CountLeadingZeros (value : Z) : Z :=
  let s := clz_step 65535 16 (0, value) in
  let s := clz_step 16777215 8 s in
  let s := clz_step 268435455 4 s in
  let s := clz_step 1073741823 2 s in
  let '(count, temp) := s in
  if temp <=? 2147483647 then count + 1 else count.

Lemma clz_step_inv v k bound count temp :
  0 < k < 32 → bound = 2 ^ (32 - k) - 1 → 0 ≤ count →
  temp = v * 2 ^ count → 0 < temp < 2 ^ 32 →
  let '(count', temp') := clz_step bound k (count, temp) in
  0 ≤ count' ∧ temp' = v * 2 ^ count' ∧ 0 < temp' < 2 ^ 32 ∧
  (∀ m, 0 ≤ m → 32 - k ≤ m + k → 2 ^ m ≤ temp → 2 ^ Z.min (m + k) (32 - k) ≤ temp').
Proof.
  intros Hk -> Hc Ht Hr. unfold clz_step. destruct (Z.leb_spec temp (2 ^ (32 - k) - 1)) as [Hle|Hgt].
  - rewrite Z.shiftl_mul_pow2 by lia. unfold u32.
    assert (Hp : 2 ^ (32 - k) * 2 ^ k = 2 ^ 32) by (rewrite <- Z.pow_add_r by lia; f_equal; lia).
    assert (0 < 2 ^ k) by (apply Z.pow_pos_nonneg; lia).
    assert (Hlt : temp * 2 ^ k < 2 ^ 32) by nia.
    rewrite Z.mod_small by nia. split; [lia|]. split; [rewrite Z.pow_add_r by lia; nia|].
    split; [nia|]. intros m Hm _ Hmt. apply Z.le_trans with (2 ^ (m + k)).
    + apply Z.pow_le_mono_r; lia.
    + rewrite Z.pow_add_r by lia. nia.
  - split; [lia|]. split; [done|]. split; [lia|]. intros m Hm Hmk Hmt.
    replace (Z.min (m + k) (32 - k)) with (32 - k) by lia. lia.
Qed.

Lemma CountLeadingZeros_spec v : 0 < v < 2 ^ 32 → CountLeadingZeros v = 31 - Z.log2 v.
Proof.
  intros Hv. unfold CountLeadingZeros.
  assert (I0 := clz_step_inv v 16 65535 0 v).
  destruct (clz_step 65535 16 (0, v)) as [c1 t1]. destruct I0 as (? & ? & ? & L1); [lia..|].
  assert (I1 := clz_step_inv v 8 16777215 c1 t1).
  destruct (clz_step 16777215 8 (c1, t1)) as [c2 t2]. destruct I1 as (? & ? & ? & L2); [lia..|].
  assert (I2 := clz_step_inv v 4 268435455 c2 t2).
  destruct (clz_step 268435455 4 (c2, t2)) as [c3 t3]. destruct I2 as (? & ? & ? & L3); [lia..|].
  assert (I3 := clz_step_inv v 2 1073741823 c3 t3).
  destruct (clz_step 1073741823 2 (c3, t3)) as [c4 t4]. destruct I3 as (? & ? & ? & L4); [lia..|].
  specialize (L1 0 ltac:(lia) ltac:(lia) ltac:(lia)). specialize (L2 16 ltac:(lia) ltac:(lia) L1).
  specialize (L3 24 ltac:(lia) ltac:(lia) L2). specialize (L4 28 ltac:(lia) ltac:(lia) L3).
  change (2 ^ 30 ≤ t4) in L4. assert (0 < 2 ^ c4) by (apply Z.pow_pos_nonneg; lia).
  assert (Hlog : ∀ c, 0 ≤ c → 2 ^ 31 ≤ v * 2 ^ c < 2 ^ 32 → c = 31 - Z.log2 v).
  { intros c Hc Hb. assert (E : Z.log2 (v * 2 ^ c) = 31) by (apply Z.log2_unique; lia).
    rewrite Z.log2_mul_pow2 in E by lia. lia. }
  destruct (Z.leb_spec t4 2147483647) as [Hle|Hgt].
  - apply Hlog; [lia|]. rewrite Z.pow_add_r by lia. lia.
  - apply Hlog; [lia|]. lia.
Qed.

(** ** Bit algebra on machine words *)

Definition bit_mask (w bit : Z) : Z := (Z.shiftl 1 bit) `mod` 2 ^ w.

Lemma testbit_mod w x i : 0 ≤ w → Z.testbit (x `mod` 2 ^ w) i = (i <? w) && Z.testbit x i.
Proof.
  intros Hw. destruct (Z.ltb_spec i w).
  - destruct (decide (0 ≤ i)); [by rewrite Z.mod_pow2_bits_low|].
    by rewrite !Z.testbit_neg_r by lia.
  - by rewrite Z.mod_pow2_bits_high by lia.
Qed.

Lemma testbit_mask w bit i : 0 ≤ bit < w → Z.testbit (bit_mask w bit) i = (bit =? i).
Proof.
  intros Hb. unfold bit_mask. rewrite testbit_mod, Z.shiftl_1_l, Z.pow2_bits_eqb by lia.
  destruct (Z.ltb_spec i w), (Z.eqb_spec bit i); try done; lia.
Qed.

Lemma testbit_range w x i : 0 ≤ x < 2 ^ w → 0 ≤ w → w ≤ i → Z.testbit x i = false.
Proof.
  intros Hx Hw Hi. rewrite <- (Z.mod_small x (2 ^ w)) by done.
  rewrite testbit_mod by done. by destruct (Z.ltb_spec i w); [lia|].
Qed.

Lemma land_mask w x bit : 0 ≤ bit < w →
  (Z.land x (bit_mask w bit) =? 0) = negb (Z.testbit x bit).
Proof.
  intros Hb. destruct (Z.testbit x bit) eqn:E; cbn.
  - apply Z.eqb_neq. intros H. assert (Z.testbit (Z.land x (bit_mask w bit)) bit = false)
      by (rewrite H; apply Z.bits_0).
    rewrite Z.land_spec, E, testbit_mask, Z.eqb_refl in * by done. done.
  - apply Z.eqb_eq. apply Z.bits_inj'. intros i Hi. rewrite Z.land_spec, testbit_mask, Z.bits_0 by done.
    destruct (Z.eqb_spec bit i); subst; [by rewrite E|apply andb_false_r].
Qed.

Lemma zero_no_bits x : 0 ≤ x → x = 0 ↔ ∀ i, 0 ≤ i → Z.testbit x i = false.
Proof.
  intros Hx. split; [intros -> i _; apply Z.bits_0|]. intros H. apply Z.bits_inj'.
  intros i Hi. rewrite Z.bits_0. by apply H.
Qed.

Lemma lor_range w x y : 0 ≤ w → 0 ≤ x < 2 ^ w → 0 ≤ y < 2 ^ w → 0 ≤ Z.lor x y < 2 ^ w.
Proof.
  intros Hw Hx Hy. assert (E : Z.lor x y `mod` 2 ^ w = Z.lor x y).
  { apply Z.bits_inj'. intros i Hi. rewrite testbit_mod, Z.lor_spec by done.
    destruct (Z.ltb_spec i w); [done|]. by rewrite !(testbit_range w). }
  rewrite <- E. apply Z.mod_pos_bound. apply Z.pow_pos_nonneg; lia.
Qed.

Lemma land_range w x y : 0 ≤ w → 0 ≤ x < 2 ^ w → 0 ≤ Z.land x y < 2 ^ w.
Proof.
  intros Hw Hx. assert (E : Z.land x y `mod` 2 ^ w = Z.land x y).
  { apply Z.bits_inj'. intros i Hi. rewrite testbit_mod, Z.land_spec by done.
    destruct (Z.ltb_spec i w); [done|]. by rewrite (testbit_range w). }
  rewrite <- E. apply Z.mod_pos_bound. apply Z.pow_pos_nonneg; lia.
Qed.

Lemma mask_range w bit : 0 ≤ w → 0 ≤ bit_mask w bit < 2 ^ w.
Proof. intros Hw. apply Z.mod_pos_bound. apply Z.pow_pos_nonneg; lia. Qed.

(** [word | mask] and [word & ~mask] on [w]-bit words. *)
Definition set_bit (w x bit : Z) : Z := (Z.lor x (bit_mask w bit)) `mod` 2 ^ w.
Definition clear_bit (w x bit : Z) : Z :=
  (Z.land x (Z.lnot (bit_mask w bit) `mod` 2 ^ w)) `mod` 2 ^ w.

Lemma testbit_set_bit w x bit i : 0 ≤ x < 2 ^ w → 0 ≤ bit < w →
  Z.testbit (set_bit w x bit) i = (bit =? i) || Z.testbit x i.
Proof.
  intros Hx Hb. unfold set_bit. rewrite Z.mod_small by (apply lor_range; auto using mask_range with lia).
  rewrite Z.lor_spec, testbit_mask by done. apply orb_comm.
Qed.

Lemma testbit_clear_bit w x bit i : 0 ≤ x < 2 ^ w → 0 ≤ bit < w → 0 ≤ i →
  Z.testbit (clear_bit w x bit) i = negb (bit =? i) && Z.testbit x i.
Proof.
  intros Hx Hb Hi. unfold clear_bit. rewrite Z.mod_small by (apply land_range; lia).
  rewrite Z.land_spec, testbit_mod, Z.lnot_spec, testbit_mask by lia.
  destruct (Z.ltb_spec i w); cbn; [apply andb_comm|].
  rewrite (testbit_range w x i) by lia. by rewrite !andb_false_r.
Qed.

Lemma set_bit_range w x bit : 0 ≤ w → 0 ≤ set_bit w x bit < 2 ^ w.
Proof. intros Hw. apply Z.mod_pos_bound. apply Z.pow_pos_nonneg; lia. Qed.
Lemma clear_bit_range w x bit : 0 ≤ w → 0 ≤ clear_bit w x bit < 2 ^ w.
Proof. intros Hw. apply Z.mod_pos_bound. apply Z.pow_pos_nonneg; lia. Qed.

(** The most significant bit of a non-zero word. *)
Lemma log2_highest w x : 0 < x < 2 ^ w → 0 ≤ w →
  0 ≤ Z.log2 x < w ∧ Z.testbit x (Z.log2 x) = true ∧ ∀ i, Z.log2 x < i → Z.testbit x i = false.
Proof.
  intros Hx Hw. split_and_all.
  - apply Z.log2_nonneg.
  - apply Z.log2_lt_pow2; lia.
  - apply Z.bit_log2. lia.
  - intros i Hi. apply Z.bits_above_log2; lia.
Qed.

(** ** The interface the schedulers use

    [PriorityBitmapTraits<BitmapT>]: its operations, and what they mean in terms
    of the set of bits [bm_test]. *)

Record BitmapOps (B : Type) := mkOps {
  CAPACITY : Z;
  bm_ctor : B;
  bm_Set : B → Z → res B;
  bm_Clear : B → Z → res B;
  bm_IsSet : B → Z → res bool;
  bm_IsEmpty : B → bool;
  bm_HighestSet : B → res Z;
}.
Global Arguments CAPACITY {B}.
Global Arguments bm_ctor {B}.
Global Arguments bm_Set {B}.
Global Arguments bm_Clear {B}.
Global Arguments bm_IsSet {B}.
Global Arguments bm_IsEmpty {B}.
Global Arguments bm_HighestSet {B}.

Class BitmapSpec {B} (ops : BitmapOps B) := {
  bm_wf : B → Prop;
  bm_test : B → Z → bool;
  bm_ctor_spec : bm_wf (bm_ctor ops) ∧ ∀ i, bm_test (bm_ctor ops) i = false;
  bm_Set_spec s b : bm_wf s → 0 ≤ b < CAPACITY ops →
    ∃ s', bm_Set ops s b = Ok s' ∧ bm_wf s' ∧
      ∀ i, 0 ≤ i < CAPACITY ops → bm_test s' i = (b =? i) || bm_test s i;
  bm_Clear_spec s b : bm_wf s → 0 ≤ b < CAPACITY ops →
    ∃ s', bm_Clear ops s b = Ok s' ∧ bm_wf s' ∧
      ∀ i, 0 ≤ i < CAPACITY ops → bm_test s' i = negb (b =? i) && bm_test s i;
  bm_IsSet_spec s b : bm_wf s → 0 ≤ b < CAPACITY ops → bm_IsSet ops s b = Ok (bm_test s b);
  bm_IsEmpty_spec s : bm_wf s →
    bm_IsEmpty ops s = true ↔ ∀ i, 0 ≤ i < CAPACITY ops → bm_test s i = false;
  bm_HighestSet_spec s : bm_wf s → bm_IsEmpty ops s = false →
    ∃ b, bm_HighestSet ops s = Ok b ∧ 0 ≤ b < CAPACITY ops ∧ bm_test s b = true ∧
      ∀ i, b < i < CAPACITY ops → bm_test s i = false;
}.

(** ** Plain integers ([PriorityBitmapTraits<uint32_t>], [<uint64_t>]) *)

(** [Scan<4>::Highest] and [Scan<8>::Highest]. *)
Definition Scan_Highest32 (value : Z) : Z := u32 (31 - CountLeadingZeros value).
Definition Scan_Highest64 (value : Z) : Z :=
  let hi := u32 (Z.shiftr value 32) in
  if negb (hi =? 0) then u32 (63 - CountLeadingZeros hi)
  else u32 (31 - CountLeadingZeros (u32 value)).

Definition Word_Set (w : Z) (bitmap bit : Z) : res Z := Ok (set_bit w bitmap bit).
Definition Word_Clear (w : Z) (bitmap bit : Z) : res Z := Ok (clear_bit w bitmap bit).
Definition Word_IsSet (w : Z) (bitmap bit : Z) : res bool :=
  Ok (negb (Z.land bitmap (bit_mask w bit) =? 0)).
Definition Word_IsEmpty (bitmap : Z) : bool := bitmap =? 0.

Definition U32Bitmap : BitmapOps Z :=
  mkOps Z 32 0 (Word_Set 32) (Word_Clear 32) (Word_IsSet 32) Word_IsEmpty
    (λ x, Ok (Scan_Highest32 x)).
Definition U64Bitmap : BitmapOps Z :=
  mkOps Z 64 0 (Word_Set 64) (Word_Clear 64) (Word_IsSet 64) Word_IsEmpty
    (λ x, Ok (Scan_Highest64 x)).

Lemma Scan_Highest32_spec x : 0 < x < 2 ^ 32 → Scan_Highest32 x = Z.log2 x.
Proof.
  intros Hx. unfold Scan_Highest32, u32. rewrite CountLeadingZeros_spec by done.
  destruct (log2_highest 32 x Hx) as (? & _); [lia|]. rewrite Z.mod_small; lia.
Qed.

Lemma Scan_Highest64_spec x : 0 < x < 2 ^ 64 → Scan_Highest64 x = Z.log2 x.
Proof.
  intros Hx. unfold Scan_Highest64. rewrite Z.shiftr_div_pow2 by lia.
  assert (Hhi : 0 ≤ x / 2 ^ 32 < 2 ^ 32).
  { split; [apply Z.div_pos; lia|]. apply Z.div_lt_upper_bound; lia. }
  replace (u32 (x / 2 ^ 32)) with (x / 2 ^ 32) by (unfold u32; by rewrite Z.mod_small).
  destruct (Z.eqb_spec (x / 2 ^ 32) 0) as [E|E]; cbn [negb].
  - assert (x < 2 ^ 32) by (apply Z.div_small_iff in E; lia).
    change (Scan_Highest32 (u32 x) = Z.log2 x). unfold u32. rewrite Z.mod_small by lia.
    apply Scan_Highest32_spec; lia.
  - rewrite CountLeadingZeros_spec by lia.
    assert (El : Z.log2 (x / 2 ^ 32) = Z.log2 x - 32).
    { rewrite <- Z.shiftr_div_pow2, Z.log2_shiftr by lia.
      assert (32 ≤ Z.log2 x); [|lia]. apply Z.log2_le_pow2; [lia|].
      assert (1 ≤ x / 2 ^ 32) by lia. assert (2 ^ 32 * (x / 2 ^ 32) ≤ x) by (apply Z.mul_div_le; lia). lia. }
    rewrite El. destruct (log2_highest 64 x Hx) as ((? & ?) & _); [lia|].
    assert (0 ≤ Z.log2 (x / 2 ^ 32)) by apply Z.log2_nonneg.
    unfold u32. rewrite Z.mod_small; lia.
Qed.

(** Both widths at once: [w] is the capacity and [highest] the scan. *)
Section word_spec.
Context (w : Z) (highest : Z → Z) (Hw : 0 < w).
Context (Hhighest : ∀ x, 0 < x < 2 ^ w → highest x = Z.log2 x).
Definition word_ops : BitmapOps Z :=
  mkOps Z w 0 (Word_Set w) (Word_Clear w) (Word_IsSet w) Word_IsEmpty (λ x, Ok (highest x)).

Lemma word_ops_spec : BitmapSpec word_ops.
Proof.
  refine {| bm_wf := λ x, 0 ≤ x < 2 ^ w; bm_test := Z.testbit |}; cbn.
  - split; [|apply Z.bits_0]. split; [done|]. apply Z.pow_pos_nonneg; lia.
  - intros s b Hs Hb. eexists. split; [done|]. split; [apply set_bit_range; lia|].
    intros i Hi. by apply testbit_set_bit.
  - intros s b Hs Hb. eexists. split; [done|]. split; [apply clear_bit_range; lia|].
    intros i Hi. apply testbit_clear_bit; lia.
  - intros s b Hs Hb. unfold Word_IsSet. by rewrite land_mask, negb_involutive.
  - intros s Hs. unfold Word_IsEmpty. rewrite Z.eqb_eq, zero_no_bits by lia. split; [naive_solver lia|].
    intros H i Hi. destruct (decide (i < w)); [apply H; lia|]. apply (testbit_range w); lia.
  - intros s Hs He. unfold Word_IsEmpty in He. apply Z.eqb_neq in He.
    destruct (log2_highest w s) as (? & ? & Hab); [lia..|].
    exists (highest s). rewrite Hhighest by lia. split_and_all; try done; [lia..|].
    intros i Hi. apply Hab. lia.
Defined.
End word_spec.

#[global] Instance U32Bitmap_spec : BitmapSpec U32Bitmap.
Proof. apply (word_ops_spec 32 Scan_Highest32); [lia|apply Scan_Highest32_spec]. Defined.
#[global] Instance U64Bitmap_spec : BitmapSpec U64Bitmap.
Proof. apply (word_ops_spec 64 Scan_Highest64); [lia|apply Scan_Highest64_spec]. Defined.

(** ** The two-level bitmap [PriorityBitmap<BITS>] *)

Record PriorityBitmap := mkPB { m_summary : Z; m_words : list Z }.

Section words.
Context (BITS : Z).
Definition WORDS : Z := BITS / 32.

Definition PriorityBitmap_ctor : PriorityBitmap := mkPB 0 (replicate (Z.to_nat WORDS) 0).

(** [PriorityBitmap::Set]. *)
Definition PB_Set (s : PriorityBitmap) (bit : Z) : res PriorityBitmap :=
  assert! bool_decide (bit < BITS);
  let word := Z.shiftr bit 5 in
  x ← deref (m_words s !! Z.to_nat word);
  Ok (mkPB (set_bit 32 (m_summary s) word)
           (<[Z.to_nat word := set_bit 32 x (Z.land bit 31)]> (m_words s))).

(** [PriorityBitmap::Clear]: the summary bit goes when the word empties. *)
Definition PB_Clear (s : PriorityBitmap) (bit : Z) : res PriorityBitmap :=
  assert! bool_decide (bit < BITS);
  let word := Z.shiftr bit 5 in
  x ← deref (m_words s !! Z.to_nat word);
  let x' := clear_bit 32 x (Z.land bit 31) in
  let words' := <[Z.to_nat word := x']> (m_words s) in
  Ok (mkPB (if x' =? 0 then clear_bit 32 (m_summary s) word else m_summary s) words').

(** [PriorityBitmap::IsSet]. *)
Definition PB_IsSet (s : PriorityBitmap) (bit : Z) : res bool :=
  assert! bool_decide (bit < BITS);
  x ← deref (m_words s !! Z.to_nat (Z.shiftr bit 5));
  Ok (negb (Z.land x (bit_mask 32 (Z.land bit 31)) =? 0)).

Definition PB_IsEmpty (s : PriorityBitmap) : bool := m_summary s =? 0.

(** [PriorityBitmap::HighestSet]: two scans. *)
Definition PB_HighestSet (s : PriorityBitmap) : res Z :=
  assert! negb (m_summary s =? 0);
  let word := u32 (31 - CountLeadingZeros (m_summary s)) in
  x ← deref (m_words s !! Z.to_nat word);
  assert! negb (x =? 0);
  Ok (u32 (u32 (Z.shiftl word 5) + u32 (31 - CountLeadingZeros x))).

Definition PBOps : BitmapOps PriorityBitmap :=
  mkOps PriorityBitmap BITS PriorityBitmap_ctor PB_Set PB_Clear PB_IsSet PB_IsEmpty PB_HighestSet.

(** The static assertions of the class. *)
Definition bits_valid : Prop := BITS `mod` 32 = 0 ∧ 32 ≤ BITS ≤ 1024.

(** Word [i] is empty exactly when bit [i] of the summary is clear. *)
Record PB_wf (s : PriorityBitmap) : Prop := {
  pb_len : length (m_words s) = Z.to_nat WORDS;
  pb_words : ∀ i x, m_words s !! i = Some x → 0 ≤ x < 2 ^ 32;
  pb_summary : 0 ≤ m_summary s < 2 ^ 32;
  pb_sound : ∀ i x, m_words s !! i = Some x →
    Z.testbit (m_summary s) (Z.of_nat i) = negb (x =? 0);
  pb_above : ∀ i, WORDS ≤ i → Z.testbit (m_summary s) i = false;
}.
Definition PB_test (s : PriorityBitmap) (bit : Z) : bool :=
  match m_words s !! Z.to_nat (bit / 32) with
  | Some x => Z.testbit x (bit `mod` 32)
  | None => false
  end.

Context (HBITS : bits_valid).

Lemma WORDS_range : 1 ≤ WORDS ≤ 32 ∧ BITS = 32 * WORDS.
Proof.
  destruct HBITS as [Hm Hr]. unfold WORDS.
  assert (BITS = 32 * (BITS / 32)) by (rewrite (Z.div_mod BITS 32) at 1; lia). lia.
Qed.

Lemma bit_split bit : 0 ≤ bit < BITS →
  Z.shiftr bit 5 = bit / 32 ∧ Z.land bit 31 = bit `mod` 32 ∧
  0 ≤ bit / 32 < WORDS ∧ 0 ≤ bit `mod` 32 < 32.
Proof.
  intros Hb. destruct WORDS_range as [? HB]. split_and_all.
  - by rewrite Z.shiftr_div_pow2.
  - change 31 with (Z.ones 5). by rewrite Z.land_ones.
  - apply Z.div_pos; lia.
  - apply Z.div_lt_upper_bound; lia.
  - apply Z.mod_pos_bound. lia.
  - apply Z.mod_pos_bound. lia.
Qed.

Lemma PB_word s bit : PB_wf s → 0 ≤ bit < BITS → ∃ x, m_words s !! Z.to_nat (bit / 32) = Some x.
Proof.
  intros Hs Hb. apply lookup_lt_is_Some_2. rewrite (pb_len s Hs).
  destruct (bit_split bit Hb) as (_ & _ & ? & _). lia.
Qed.

(** Writing word [i] and recomputing its summary bit keeps the invariant. *)
Lemma PB_wf_update s i x y sum' : PB_wf s → m_words s !! i = Some x → 0 ≤ y < 2 ^ 32 →
  0 ≤ sum' < 2 ^ 32 → 
  (∀ j, 0 ≤ j → Z.testbit sum' j = if decide (j = Z.of_nat i) then negb (y =? 0) else Z.testbit (m_summary s) j) →
  PB_wf (mkPB sum' (<[i := y]> (m_words s))).
Proof.
  intros Hs Hi Hy Hr Hsum. assert (Hlt := lookup_lt_Some _ _ _ Hi). split; cbn.
  - rewrite length_insert. apply Hs.
  - intros j z [(<- & <- & _)|[_ ?]]%list_lookup_insert_Some; [done|]. by eapply (pb_words s Hs).
  - done.
  - intros j z Hj. rewrite Hsum by lia. apply list_lookup_insert_Some in Hj as [(<- & <- & _)|[? Hj]].
    + by rewrite decide_True.
    + rewrite decide_False by lia. by apply (pb_sound s Hs).
  - intros j Hj. destruct WORDS_range as [? _]. rewrite Hsum by lia. rewrite (pb_len s Hs) in Hlt.
    rewrite decide_False by lia. by apply (pb_above s Hs).
Qed.

Lemma PB_test_update s i x y sum' j : m_words s !! i = Some x →
  PB_test (mkPB sum' (<[i := y]> (m_words s))) j =
  if decide (Z.to_nat (j / 32) = i) then Z.testbit y (j `mod` 32) else PB_test s j.
Proof.
  intros Hi. unfold PB_test. cbn. assert (Hlt := lookup_lt_Some _ _ _ Hi).
  case_decide as E.
  - rewrite E, list_lookup_insert_eq by done. done.
  - by rewrite list_lookup_insert_ne by done.
Qed.

(** Equality of bit numbers, word by word. *)
Lemma same_bit b i : 0 ≤ b < BITS → 0 ≤ i < BITS →
  (b =? i) = bool_decide (Z.to_nat (i / 32) = Z.to_nat (b / 32)) && (b `mod` 32 =? i `mod` 32).
Proof.
  intros Hb Hi. destruct (bit_split b Hb) as (_ & _ & ? & _). destruct (bit_split i Hi) as (_ & _ & ? & _).
  assert (Eb := Z.div_mod b 32). assert (Ei := Z.div_mod i 32).
  case_bool_decide as E; cbn.
  - destruct (Z.eqb_spec b i), (Z.eqb_spec (b `mod` 32) (i `mod` 32)); subst; lia.
  - destruct (Z.eqb_spec b i); subst; done.
Qed.

Lemma PB_Set_spec s b : PB_wf s → 0 ≤ b < BITS →
  ∃ s', PB_Set s b = Ok s' ∧ PB_wf s' ∧
    ∀ i, 0 ≤ i < BITS → PB_test s' i = (b =? i) || PB_test s i.
Proof.
  intros Hs Hb. destruct (bit_split b Hb) as (E1 & E2 & Hw & Hm). destruct WORDS_range as [? _].
  destruct (PB_word s b Hs Hb) as [x Hx]. assert (Hxr := pb_words s Hs _ _ Hx).
  unfold PB_Set. rewrite bool_decide_eq_true_2 by lia. cbn [stk_assert].
  rewrite E1, E2, Hx. cbn [deref mbind res_bind].
  eexists. split; [done|]. split.
  - eapply PB_wf_update; eauto using set_bit_range with lia.
    intros j Hj. rewrite testbit_set_bit by (apply Hs || lia).
    case_decide as Ej; [|destruct (Z.eqb_spec (b / 32) j); [lia|done]].
    rewrite (proj2 (Z.eqb_eq _ _)) by lia. symmetry. cbn. apply negb_true_iff, Z.eqb_neq. intros E0.
    assert (Z.testbit (set_bit 32 x (b `mod` 32)) (b `mod` 32) = true)
      by (rewrite testbit_set_bit by lia; by rewrite Z.eqb_refl).
    rewrite E0, Z.bits_0 in *. done.
  - intros i Hi. erewrite PB_test_update by done. rewrite same_bit by done.
    case_decide as Ei; [|by rewrite bool_decide_eq_false_2].
    rewrite bool_decide_eq_true_2, testbit_set_bit by (done || lia). cbn.
    unfold PB_test. by rewrite Ei, Hx.
Qed.

Lemma PB_Clear_spec s b : PB_wf s → 0 ≤ b < BITS →
  ∃ s', PB_Clear s b = Ok s' ∧ PB_wf s' ∧
    ∀ i, 0 ≤ i < BITS → PB_test s' i = negb (b =? i) && PB_test s i.
Proof.
  intros Hs Hb. destruct (bit_split b Hb) as (E1 & E2 & Hw & Hm). destruct WORDS_range as [? _].
  destruct (PB_word s b Hs Hb) as [x Hx]. assert (Hxr := pb_words s Hs _ _ Hx).
  unfold PB_Clear. rewrite bool_decide_eq_true_2 by lia. cbn [stk_assert].
  rewrite E1, E2, Hx. cbn [deref mbind res_bind]. set (x' := clear_bit 32 x _).
  eexists. split; [done|]. split.
  - eapply PB_wf_update; eauto; [apply clear_bit_range; lia| |].
    { destruct (x' =? 0); [apply clear_bit_range; lia|apply Hs]. }
    intros j Hj. assert (Hsnd := pb_sound s Hs _ _ Hx). rewrite Z2Nat.id in * by lia.
    destruct (Z.eqb_spec x' 0) as [E0|E0].
    + rewrite testbit_clear_bit by (apply Hs || lia).
      case_decide as Ej; [by rewrite Ej, Z.eqb_refl|]. destruct (Z.eqb_spec (b / 32) j); [lia|done].
    + case_decide as Ej; [|done]. rewrite Ej, Hsnd. cbn. apply negb_true_iff, Z.eqb_neq.
      intros ->. apply E0. unfold x', clear_bit. by rewrite Z.land_0_l.
  - intros i Hi. erewrite PB_test_update by done. rewrite same_bit by done.
    case_decide as Ei; [|by rewrite bool_decide_eq_false_2].
    destruct (bit_split i Hi) as (_ & _ & _ & ?).
    rewrite bool_decide_eq_true_2 by done. unfold x'. rewrite testbit_clear_bit by lia. cbn.
    unfold PB_test. by rewrite Ei, Hx.
Qed.

Lemma PB_IsEmpty_spec s : PB_wf s →
  PB_IsEmpty s = true ↔ ∀ i, 0 ≤ i < BITS → PB_test s i = false.
Proof.
  intros Hs. unfold PB_IsEmpty. rewrite Z.eqb_eq. split.
  - intros E i Hi. destruct (PB_word s i Hs Hi) as [x Hx]. unfold PB_test. rewrite Hx.
    assert (Hsnd := pb_sound s Hs _ _ Hx). rewrite E, Z.bits_0 in Hsnd. symmetry in Hsnd.
    apply negb_false_iff, Z.eqb_eq in Hsnd. subst. apply Z.bits_0.
  - intros H. apply zero_no_bits; [apply Hs|]. intros i Hi.
    destruct (decide (WORDS ≤ i)); [by apply (pb_above s Hs)|]. destruct WORDS_range as [? HB].
    destruct (lookup_lt_is_Some_2 (m_words s) (Z.to_nat i)) as [x Hx]; [rewrite (pb_len s Hs); lia|].
    assert (Hsnd := pb_sound s Hs _ _ Hx). rewrite Z2Nat.id in Hsnd by lia. rewrite Hsnd.
    apply negb_false_iff, Z.eqb_eq. assert (Hr := pb_words s Hs _ _ Hx).
    apply zero_no_bits; [lia|]. intros j Hj.
    destruct (decide (j < 32)); [|apply (testbit_range 32); lia].
    specialize (H (32 * i + j) ltac:(lia)). unfold PB_test in H.
    replace ((32 * i + j) / 32) with i in H by (apply (Z.div_unique _ 32 i j); lia).
    replace ((32 * i + j) `mod` 32) with j in H by (apply (Z.mod_unique _ 32 i j); lia).
    by rewrite Hx in H.
Qed.

Lemma PB_HighestSet_spec s : PB_wf s → PB_IsEmpty s = false →
  ∃ b, PB_HighestSet s = Ok b ∧ 0 ≤ b < BITS ∧ PB_test s b = true ∧
    ∀ i, b < i < BITS → PB_test s i = false.
Proof.
  intros Hs He. unfold PB_IsEmpty in He. assert (Hsr := pb_summary s Hs). destruct WORDS_range as [? HB].
  apply Z.eqb_neq in He. unfold PB_HighestSet. rewrite (proj2 (Z.eqb_neq _ _)) by done.
  cbn [negb stk_assert]. change (u32 (31 - CountLeadingZeros (m_summary s))) with (Scan_Highest32 (m_summary s)).
  rewrite Scan_Highest32_spec by lia. set (w := Z.log2 (m_summary s)).
  destruct (log2_highest 32 (m_summary s)) as (Hwr & Hw & Habove); [lia..|]. fold w in Hwr, Hw, Habove.
  assert (HwW : w < WORDS).
  { destruct (decide (w < WORDS)); [done|]. rewrite (pb_above s Hs w) in Hw by lia. done. }
  destruct (lookup_lt_is_Some_2 (m_words s) (Z.to_nat w)) as [x Hx]; [rewrite (pb_len s Hs); lia|].
  assert (Hxr := pb_words s Hs _ _ Hx). assert (Hsnd := pb_sound s Hs _ _ Hx).
  rewrite Z2Nat.id, Hw in Hsnd by lia. symmetry in Hsnd. apply negb_true_iff in Hsnd.
  rewrite Hx. cbn [deref mbind res_bind]. rewrite Hsnd. cbn [negb stk_assert].
  apply Z.eqb_neq in Hsnd. change (u32 (31 - CountLeadingZeros x)) with (Scan_Highest32 x).
  rewrite Scan_Highest32_spec by lia.
  destruct (log2_highest 32 x) as (Hlr & Hl & Hla); [lia..|]. set (l := Z.log2 x) in *.
  rewrite Z.shiftl_mul_pow2 by lia. unfold u32. rewrite (Z.mod_small (w * 2 ^ 5)), Z.mod_small by lia.
  assert (Ed : (w * 2 ^ 5 + l) / 32 = w) by (symmetry; apply (Z.div_unique _ 32 w l); lia).
  assert (Em : (w * 2 ^ 5 + l) `mod` 32 = l) by (symmetry; apply (Z.mod_unique _ 32 w l); lia).
  eexists. split; [done|]. split; [lia|]. split.
  { unfold PB_test. by rewrite Ed, Em, Hx. }
  intros i Hi. destruct (bit_split i) as (_ & _ & Hir & Him); [lia|].
  destruct (PB_word s i Hs) as [y Hy]; [lia|]. unfold PB_test. rewrite Hy.
  assert (Ei := Z.div_mod i 32 ltac:(lia)).
  destruct (decide (i / 32 = w)) as [E|E].
  - rewrite E, Hx in Hy. simplify_eq. apply Hla. lia.
  - assert (Hz := pb_sound s Hs _ _ Hy). rewrite Z2Nat.id, Habove in Hz by lia.
    symmetry in Hz. apply negb_false_iff, Z.eqb_eq in Hz. subst. apply Z.bits_0.
Qed.

Lemma PB_spec : BitmapSpec PBOps.
Proof.
  refine {| bm_wf := PB_wf; bm_test := PB_test |}; cbn.
  - split; [split; cbn|].
    + apply length_replicate.
    + intros i x [-> _]%lookup_replicate. lia.
    + lia.
    + intros i x [-> _]%lookup_replicate. apply Z.bits_0.
    + intros. apply Z.bits_0.
    + intros i. unfold PB_test. cbn. destruct (_ !! _) as [x|] eqn:E; [|done].
      apply lookup_replicate in E as [-> _]. apply Z.bits_0.
  - apply PB_Set_spec.
  - apply PB_Clear_spec.
  - intros s b Hs Hb. destruct (bit_split b Hb) as (E1 & E2 & _ & ?). destruct (PB_word s b Hs Hb) as [x Hx].
    unfold PB_IsSet, PB_test. rewrite bool_decide_eq_true_2 by lia. cbn [stk_assert].
    rewrite E1, E2, Hx. cbn. by rewrite land_mask, negb_involutive by done.
  - apply PB_IsEmpty_spec.
  - apply PB_HighestSet_spec.
Defined.
End words.

(** ** Selection of the representation ([ReadyBitmapSelect]) *)

Definition ReadyBitmapSelect (MAX_PRIORITIES : Z) : { B : Set & BitmapOps B } :=
  if MAX_PRIORITIES <=? 32 then existT Z U32Bitmap
  else if MAX_PRIORITIES <=? 64 then existT Z U64Bitmap
  else existT PriorityBitmap (PBOps (((MAX_PRIORITIES + 31) / 32) * 32)).

Lemma ReadyBitmapSelect_spec MAX : 1 ≤ MAX ≤ 1024 →
  MAX ≤ CAPACITY (projT2 (ReadyBitmapSelect MAX)) ∧
  inhabited (BitmapSpec (projT2 (ReadyBitmapSelect MAX))).
Proof.
  intros HM. unfold ReadyBitmapSelect.
  destruct (Z.leb_spec MAX 32); [split; [done|exact (inhabits U32Bitmap_spec)]|].
  destruct (Z.leb_spec MAX 64); [split; [done|exact (inhabits U64Bitmap_spec)]|].
  assert (E := Z.div_mod (MAX + 31) 32). assert (B := Z.mod_pos_bound (MAX + 31) 32).
  cbn. split; [lia|]. constructor. apply PB_spec. split; [apply Z.mod_mul; lia|lia].
Qed.

(** A history of updates, on the bitmap and on the set it stands for. *)
Inductive bop := BSet (bit : Z) | BClear (bit : Z).
Definition bop_bit (o : bop) : Z := match o with BSet b => b | BClear b => b end.

Fixpoint run_bops {B} (ops : BitmapOps B) (l : list bop) (s : B) : res B :=
  match l with
  | [] => Ok s
  | BSet b :: l => s' ← bm_Set ops s b; run_bops ops l s'
  | BClear b :: l => s' ← bm_Clear ops s b; run_bops ops l s'
  end.
Fixpoint spec_bops (l : list bop) (S : gset Z) : gset Z :=
  match l with
  | [] => S
  | BSet b :: l => spec_bops l ({[b]} ∪ S)
  | BClear b :: l => spec_bops l (S ∖ {[b]})
  end.

Definition bm_denotes {B} (ops : BitmapOps B) `{!BitmapSpec ops} (s : B) (S : gset Z) : Prop :=
  bm_wf s ∧ (∀ i, i ∈ S → 0 ≤ i < CAPACITY ops) ∧
  ∀ i, 0 ≤ i < CAPACITY ops → bm_test s i = bool_decide (i ∈ S).

Section denotes.
Context {B} (ops : BitmapOps B) `{!BitmapSpec ops}.

Lemma denotes_set s S b : bm_denotes ops s S → 0 ≤ b < CAPACITY ops →
  ∃ s', bm_Set ops s b = Ok s' ∧ bm_denotes ops s' ({[b]} ∪ S).
Proof.
  intros (Hw & Hin & Ht) Hb. destruct (bm_Set_spec s b Hw Hb) as (s' & E & Hw' & Ht').
  exists s'. split; [done|]. split; [done|]. split; [set_solver|]. intros i Hi.
  rewrite Ht', Ht by done. apply eq_bool_prop_intro. rewrite orb_True, !bool_decide_spec, Is_true_true, Z.eqb_eq.
  set_solver.
Qed.

Lemma denotes_clear s S b : bm_denotes ops s S → 0 ≤ b < CAPACITY ops →
  ∃ s', bm_Clear ops s b = Ok s' ∧ bm_denotes ops s' (S ∖ {[b]}).
Proof.
  intros (Hw & Hin & Ht) Hb. destruct (bm_Clear_spec s b Hw Hb) as (s' & E & Hw' & Ht').
  exists s'. split; [done|]. split; [done|]. split; [set_solver|]. intros i Hi.
  rewrite Ht', Ht by done. apply eq_bool_prop_intro.
  rewrite andb_True, negb_True, !bool_decide_spec, Is_true_true, Z.eqb_eq. set_solver.
Qed.

Lemma denotes_empty s S : bm_denotes ops s S → bm_IsEmpty ops s = bool_decide (S = ∅).
Proof.
  intros (Hw & Hin & Ht). apply eq_bool_prop_intro. rewrite bool_decide_spec, Is_true_true, bm_IsEmpty_spec by done.
  split.
  - intros H. apply set_eq. intros i. split; [|set_solver]. intros Hi.
    specialize (H i (Hin i Hi)). rewrite Ht in H by auto. by apply bool_decide_eq_false in H.
  - intros -> i Hi. rewrite Ht by done. apply bool_decide_eq_false. set_solver.
Qed.

Lemma denotes_highest s S : bm_denotes ops s S → S ≠ ∅ →
  ∃ b, bm_HighestSet ops s = Ok b ∧ 0 ≤ b < CAPACITY ops ∧ b ∈ S ∧ ∀ i, i ∈ S → i ≤ b.
Proof.
  intros HD Hne. assert (He := denotes_empty _ _ HD). destruct HD as (Hw & Hin & Ht).
  rewrite bool_decide_eq_false_2 in He by done.
  destruct (bm_HighestSet_spec s Hw He) as (b & E & Hb & Hbt & Hab).
  exists b. split_and_all; try done; [lia..| |].
  - rewrite Ht in Hbt by lia. by apply bool_decide_eq_true in Hbt.
  - intros i Hi. destruct (decide (i ≤ b)); [done|]. assert (Hr := Hin i Hi).
    specialize (Hab i ltac:(lia)). rewrite Ht in Hab by lia. by apply bool_decide_eq_false in Hab.
Qed.

Lemma denotes_run l s S : bm_denotes ops s S → Forall (λ o, 0 ≤ bop_bit o < CAPACITY ops) l →
  ∃ s', run_bops ops l s = Ok s' ∧ bm_denotes ops s' (spec_bops l S).
Proof.
  revert s S. induction l as [|[b|b] l IH]; intros s S HD HF; [by exists s|..];
    apply Forall_cons in HF as [Hb HF]; cbn.
  - destruct (denotes_set s S b HD Hb) as (s1 & -> & HD1). cbn. by apply IH.
  - destruct (denotes_clear s S b HD Hb) as (s1 & -> & HD1). cbn. by apply IH.
Qed.
End denotes.

(** C16. Whatever representation [ReadyBitmapSelect] picks for 1 to 1024
    priorities, after any history of [Set] and [Clear] calls on valid levels the
    bitmap answers [IsSet] and [IsEmpty] like the set of levels the history
    leaves, and [HighestSet] returns its maximum; no assertion fails and no
    word outside of the array is accessed. *)
Theorem ready_bitmap_correct (MAX : Z) (l : list bop) :
  1 ≤ MAX ≤ 1024 → Forall (λ o, 0 ≤ bop_bit o < MAX) l →
  let ops := projT2 (ReadyBitmapSelect MAX) in
  let S := spec_bops l ∅ in
  ∃ s, run_bops ops l (bm_ctor ops) = Ok s ∧
    (∀ i, 0 ≤ i < MAX → bm_IsSet ops s i = Ok (bool_decide (i ∈ S))) ∧
    bm_IsEmpty ops s = bool_decide (S = ∅) ∧
    (S ≠ ∅ → ∃ b, bm_HighestSet ops s = Ok b ∧ b ∈ S ∧ ∀ i, i ∈ S → i ≤ b).
Proof.
  intros HM Hl ops S. destruct (ReadyBitmapSelect_spec MAX HM) as [Hcap [Hspec]]. fold ops in Hcap, Hspec.
  assert (H0 : bm_denotes ops (bm_ctor ops) ∅).
  { destruct (bm_ctor_spec (ops := ops)) as [? Ht]. split; [done|]. split; [set_solver|].
    intros i _. rewrite Ht. symmetry. apply bool_decide_eq_false. set_solver. }
  destruct (denotes_run ops l _ _ H0) as (s & E & HD).
  { eapply Forall_impl; [exact Hl|]. cbn. lia. }
  exists s. split; [done|]. split; [|split].
  - intros i Hi. destruct HD as (Hw & _ & Ht). rewrite bm_IsSet_spec, Ht by (done || lia). done.
  - by apply (denotes_empty ops (BitmapSpec0 := Hspec)).
  - intros Hne. destruct (denotes_highest ops s S HD Hne) as (b & ? & _ & ? & ?). eauto.
Qed.

Lemma ready_bitmap_correct_witness :
  let l := [BSet 7; BSet 300; BSet 40; BClear 300; BSet 100] in
  let ops := projT2 (ReadyBitmapSelect 1024) in
  spec_bops l ∅ ≠ ∅ ∧
  ∃ s, run_bops ops l (bm_ctor ops) = Ok s ∧
    (∀ i, 0 ≤ i < 1024 → bm_IsSet ops s i = Ok (bool_decide (i ∈ spec_bops l ∅))) ∧
    bm_IsEmpty ops s = bool_decide (spec_bops l ∅ = ∅) ∧
    (spec_bops l ∅ ≠ ∅ → ∃ b, bm_HighestSet ops s = Ok b ∧ b ∈ spec_bops l ∅ ∧
       ∀ i, i ∈ spec_bops l ∅ → i ≤ b).
Proof.
  split; [vm_compute; discriminate|].
  apply (ready_bitmap_correct 1024); [lia|]. repeat constructor; cbn; lia.
Defined.

Example ready_bitmap_1024_highest :
  (s ← run_bops (PBOps 1024) [BSet 7; BSet 300; BSet 40; BClear 300; BSet 100] (PriorityBitmap_ctor 1024);
   PB_HighestSet s) = Ok 100.
Proof. reflexivity. Qed.

End PBitmap.
