(* ===== verification/KernelTask.v ===== *)
(** * Kernel types and the kernel task ([stk_common.h], [Kernel::KernelTask] of [stk.h])

    The enumerations and constants of [stk_common.h], the user task as the
    kernel sees it through [ITask], and [KernelTask] with its nested [HrtInfo],
    [TsInfo] and [WaitObject]: one record per struct, one definition per
    method.  The template parameters of the kernel are the record [KernelCfg];
    a test of the code that is resolved at compile time ([if constexpr]) is a
    test of that record.  Methods that also touch other objects (the strategy,
    a wait list) are in [Kernel.v]. *)

From S2P Require Import Prelude.
Local Open Scope Z_scope.

Module KTask.

(** ** Constants and enumerations *)

(** [EKernelMode]. *)
Definition KERNEL_STATIC : Z := 1.
Definition KERNEL_DYNAMIC : Z := 2.
Definition KERNEL_HRT : Z := 4.
Definition KERNEL_SYNC : Z := 8.
Definition KERNEL_TICKLESS : Z := 16.
Definition KERNEL_TIMESLICE : Z := 32.
Definition KERNEL_TELEMETRY : Z := 64.

Definition WAIT_INFINITE : Z := INT32_MAX.
Definition NO_WAIT : Z := 0.
Definition NO_WEIGHT : Z := -1.
Definition DEFAULT_WEIGHT : Z := 1.
Definition NO_TIME_SLICE : Z := 0.
Definition TID_NONE : Z := 0.

Inductive ETaskState : Set :=
| TASK_STATE_REMOVED | TASK_STATE_READY | TASK_STATE_SLEEPING
| TASK_STATE_WAITING | TASK_STATE_SUSPENDED | TASK_STATE_EXITING.
Inductive EWaitResult : Set :=
| WAIT_RESULT_FAIL | WAIT_RESULT_SIGNAL | WAIT_RESULT_TIMEOUT | WAIT_RESULT_CANCELED.
Inductive EAddResult : Set :=
| ADD_FAIL_INVALID | ADD_FAIL_DUPLICATE | ADD_FAIL_POOL_FULL | ADD_OK.
Inductive ELockResult : Set := LOCK_FAIL_ISR | LOCK_FAIL | LOCK_WAS_UNLOCKED | LOCK_WAS_LOCKED.
Inductive ESuspendResult : Set := SUSPEND_FAIL | SUSPEND_DONE | SUSPEND_DEFERRED | SUSPEND_ALREADY.
Inductive EResumeResult : Set := RESUME_FAIL | RESUME_NOT_SUSPENDED | RESUME_DONE | RESUME_LIFTED.
Inductive EKernelState : Set :=
| KSTATE_INACTIVE | KSTATE_READY | KSTATE_RUNNING | KSTATE_SUSPENDED | KSTATE_LOCKED.
(** [IWaitObject::EState]. *)
Inductive EState : Set :=
| STATE_NONE | STATE_WAIT | STATE_SIGNALED | STATE_TIMEOUT | STATE_CANCELLED.

#[global] Instance EKernelState_eq_dec : EqDecision EKernelState.
Proof. solve_decision. Defined.
#[global] Instance EState_eq_dec : EqDecision EState.
Proof. solve_decision. Defined.
#[global] Instance EWaitResult_eq_dec : EqDecision EWaitResult.
Proof. solve_decision. Defined.
#[global] Instance EAddResult_eq_dec : EqDecision EAddResult.
Proof. solve_decision. Defined.

(** ** Template parameters *)

(** The [EConfig] enumeration of a switch strategy. *)
Record StrategyConfig := mkStrategyConfig {
  WEIGHT_API : bool;
  SLEEP_EVENT_API : bool;
  DEADLINE_MISSED_API : bool;
  PRIORITY_INHERITANCE_API : bool;
  NOSLEEP_YIELD_API : bool;
  TIMESLICE_API : bool;
}.

(** [TMode], and the capabilities of [TStrategy]. *)
Record KernelCfg := mkCfg { TMode : Z; cfg_strategy : StrategyConfig }.

Definition mode_has (c : KernelCfg) (m : Z) : bool := negb (Z.land (TMode c) m =? 0).
Definition IsStaticMode c := mode_has c KERNEL_STATIC.
Definition IsDynamicMode c := mode_has c KERNEL_DYNAMIC.
Definition IsHrtMode c := mode_has c KERNEL_HRT.
Definition IsSyncMode c := mode_has c KERNEL_SYNC.
Definition IsTicklessMode c := mode_has c KERNEL_TICKLESS.
Definition IsTimesliceMode c := mode_has c KERNEL_TIMESLICE.
Definition IsTelemetryMode c := mode_has c KERNEL_TELEMETRY.

(** ** The user task

    [ITask] is implemented by the application: the kernel reads its stack
    placement and its static attributes.  [u_addr] is the address of the object,
    which is also the task identifier ([GetTidFromUserTask]). *)
Record ITask := mkITask {
  u_addr : Z;
  u_stack : Z;
  u_stack_size : Z;
  u_weight : Z;
  u_time_slice : Z;
}.
#[global] Instance ITask_eq_dec : EqDecision ITask.
Proof. solve_decision. Defined.

(** ** [KernelTask] *)

(** [EStateFlags]. *)
Inductive EStateFlags : Set :=
| STATE_REMOVE_PENDING | STATE_SLEEP_PENDING | STATE_WAKE_PENDING
| STATE_SUSPENDED | STATE_YIELD_PENDING | STATE_SUSPEND_PENDING.
#[global] Instance EStateFlags_eq_dec : EqDecision EStateFlags.
Proof. solve_decision. Defined.

Definition flag_bit (f : EStateFlags) : Z :=
  match f with
  | STATE_REMOVE_PENDING => 0 | STATE_SLEEP_PENDING => 1 | STATE_WAKE_PENDING => 2
  | STATE_SUSPENDED => 3 | STATE_YIELD_PENDING => 4 | STATE_SUSPEND_PENDING => 5
  end.
Definition flag_mask (f : EStateFlags) : Z := Z.shiftl 1 (flag_bit f).

(** [(m & f) != 0], [m | f] and [m & ~f] on the 32-bit state word. *)
Definition has_flag (m : Z) (f : EStateFlags) : bool := negb (Z.land m (flag_mask f) =? 0).
Definition set_flag (m : Z) (f : EStateFlags) : Z := Z.lor m (flag_mask f).
Definition clear_flag (m : Z) (f : EStateFlags) : Z := Z.land m (u32 (Z.lnot (flag_mask f))).

Record HrtInfo := mkHrt { periodicity : Z; deadline : Z; duration : Z; done : bool }.
Definition HrtInfo_ctor : HrtInfo := mkHrt 0 0 0 false.

Record TsInfo := mkTs { quantum : Z; left_ : Z }.
Definition TsInfo_ctor : TsInfo := mkTs NO_TIME_SLICE NO_TIME_SLICE.
(** [TsInfo::Reload]. *)
Definition TsInfo_Reload (t : TsInfo) : TsInfo := mkTs (quantum t) (quantum t).

(** [WaitObject].  Its back pointer [m_task] is the slot that contains it;
    [m_sync_obj] is the synchronization object it waits for. *)
Record WaitObject := mkWait { m_sync_obj : option nat; m_time_wait : Z; w_state : EState }.
Definition WaitObject_ctor : WaitObject := mkWait None NO_WAIT STATE_NONE.

Record KernelTask := mkTask {
  m_user : option ITask;
  m_state : Z;
  m_time_sleep : Z;
  m_hrt : HrtInfo;
  m_rt_weight : Z;
  m_base_weight : Z;
  m_wait_obj : WaitObject;
  m_ts : TsInfo;
}.

(** [KernelTask()]: value-initialised arrays are zero. *)
Definition KernelTask_ctor : KernelTask :=
  mkTask None 0 NO_WAIT HrtInfo_ctor 0 0 WaitObject_ctor TsInfo_ctor.

(** Assignments to one member. *)
Definition with_user u t := mkTask u (m_state t) (m_time_sleep t) (m_hrt t) (m_rt_weight t) (m_base_weight t) (m_wait_obj t) (m_ts t).
Definition with_state s t := mkTask (m_user t) s (m_time_sleep t) (m_hrt t) (m_rt_weight t) (m_base_weight t) (m_wait_obj t) (m_ts t).
Definition with_sleep s t := mkTask (m_user t) (m_state t) s (m_hrt t) (m_rt_weight t) (m_base_weight t) (m_wait_obj t) (m_ts t).
Definition with_hrt h t := mkTask (m_user t) (m_state t) (m_time_sleep t) h (m_rt_weight t) (m_base_weight t) (m_wait_obj t) (m_ts t).
Definition with_rt_weight w t := mkTask (m_user t) (m_state t) (m_time_sleep t) (m_hrt t) w (m_base_weight t) (m_wait_obj t) (m_ts t).
Definition with_base_weight w t := mkTask (m_user t) (m_state t) (m_time_sleep t) (m_hrt t) (m_rt_weight t) w (m_wait_obj t) (m_ts t).
Definition with_wait w t := mkTask (m_user t) (m_state t) (m_time_sleep t) (m_hrt t) (m_rt_weight t) (m_base_weight t) w (m_ts t).
Definition with_ts s t := mkTask (m_user t) (m_state t) (m_time_sleep t) (m_hrt t) (m_rt_weight t) (m_base_weight t) (m_wait_obj t) s.

Definition has (t : KernelTask) (f : EStateFlags) : bool := has_flag (m_state t) f.
Definition raise (f : EStateFlags) (t : KernelTask) : KernelTask := with_state (set_flag (m_state t) f) t.
Definition lower (f : EStateFlags) (t : KernelTask) : KernelTask := with_state (clear_flag (m_state t) f) t.

Definition IsBusy (t : KernelTask) : bool := match m_user t with Some _ => true | None => false end.
Definition IsSleeping (t : KernelTask) : bool := m_time_sleep t <? 0.
Definition IsSleepInfinite (t : KernelTask) : bool := m_time_sleep t =? - WAIT_INFINITE.
Definition IsPendingRemoval (t : KernelTask) : bool := has t STATE_REMOVE_PENDING.

(** [GetTid()]: the address of the user task, [nullptr] being [TID_NONE]. *)
Definition GetTid (t : KernelTask) : Z := match m_user t with Some u => u_addr u | None => TID_NONE end.

(** [KernelTask::Wake()]: the task wakes in the next tick; if it was not yet
    moved to the sleepers, the wake is remembered. *)
Definition Wake (t : KernelTask) : res KernelTask :=
  assert! IsSleeping t;
  let t := with_sleep (-1) t in
  Ok (if has t STATE_SLEEP_PENDING then raise STATE_WAKE_PENDING t else t).

(** [KernelTask::CommitSuspend()]. *)
Definition CommitSuspend (t : KernelTask) : KernelTask :=
  let t := with_state (set_flag (clear_flag (m_state t) STATE_SUSPEND_PENDING) STATE_SUSPENDED) t in
  with_sleep (- WAIT_INFINITE) t.

Section methods.
Context (c : KernelCfg).
Let sc := cfg_strategy c.

Definition SetCurrentWeight (w : Z) (t : KernelTask) : KernelTask :=
  if WEIGHT_API sc then with_rt_weight w t else t.

(** [GetBaseWeight()]: [m_user->GetWeight()] unless overridden. *)
Definition GetBaseWeight (t : KernelTask) : res Z :=
  if WEIGHT_API sc then
    if negb (m_base_weight t =? NO_WEIGHT) then Ok (m_base_weight t)
    else u ← deref (m_user t); Ok (u_weight u)
  else Ok DEFAULT_WEIGHT.

Definition GetWeight (t : KernelTask) : res Z :=
  if PRIORITY_INHERITANCE_API sc then
    if negb (m_rt_weight t =? NO_WEIGHT) then Ok (m_rt_weight t) else GetBaseWeight t
  else GetBaseWeight t.

Definition SetBaseWeight (w : Z) (t : KernelTask) : KernelTask :=
  if WEIGHT_API sc then with_base_weight w t else t.

Definition GetCurrentWeight (t : KernelTask) : Z :=
  if WEIGHT_API sc then m_rt_weight t else DEFAULT_WEIGHT.

Definition GetHrtPeriodicity (t : KernelTask) : res Z :=
  assert! IsHrtMode c; Ok (periodicity (m_hrt t)).
Definition GetHrtDeadline (t : KernelTask) : res Z :=
  assert! IsHrtMode c; Ok (deadline (m_hrt t)).
Definition GetHrtRelativeDeadline (t : KernelTask) : res Z :=
  assert! IsHrtMode c;
  assert! negb (IsSleeping t);
  i32 (deadline (m_hrt t) - duration (m_hrt t)).

(** [WaitObject::IsWaiting()]. *)
Definition IsWaiting (w : WaitObject) : bool :=
  match m_sync_obj w with Some _ => true | None => false end.

(** [GetSleepTicks(sleep_ticks)]: the shortest time the kernel may stay idle
    on behalf of this task. *)
Definition GetSleepTicks (t : KernelTask) (sleep_ticks : Z) : res Z :=
  m ← i32 (- m_time_sleep t);
  let task_sleep := Z.max NO_WAIT m in
  let sleep_ticks :=
    if IsSyncMode c then
      if IsWaiting (m_wait_obj t) then
        let task_sleep := m_time_wait (m_wait_obj t) in
        if task_sleep >? NO_WAIT then Z.min sleep_ticks task_sleep else sleep_ticks
      else Z.min sleep_ticks task_sleep
    else Z.min sleep_ticks task_sleep in
  Ok (Z.max 1 sleep_ticks).

(** [WaitObject::GetWaitResult()] and [ClearState()]. *)
Definition GetWaitResult (w : WaitObject) : res EWaitResult :=
  assert! negb (IsWaiting w);
  match w_state w with
  | STATE_TIMEOUT => Ok WAIT_RESULT_TIMEOUT
  | STATE_CANCELLED => Ok WAIT_RESULT_CANCELED
  | STATE_SIGNALED => Ok WAIT_RESULT_SIGNAL
  | STATE_NONE | STATE_WAIT => Panic PANIC_ASSERT
  end.
Definition ClearState (w : WaitObject) : res WaitObject :=
  assert! negb (IsWaiting w); Ok (mkWait (m_sync_obj w) (m_time_wait w) STATE_NONE).

(** [WaitObject::Tick(elapsed_ticks)]: whether the object still waits. *)
Definition WaitObject_Tick (elapsed_ticks : Z) (w : WaitObject) : res (bool * WaitObject) :=
  w' ← (if negb (m_time_wait w =? WAIT_INFINITE) then
          if bool_decide (w_state w = STATE_WAIT) then
            tw ← i32 (m_time_wait w - elapsed_ticks);
            Ok (mkWait (m_sync_obj w) tw (if tw <=? NO_WAIT then STATE_TIMEOUT else w_state w))
          else Ok w
        else Ok w);
  Ok (bool_decide (w_state w' = STATE_WAIT), w').

(** [KernelTask::Bind(platform, user_task)]; [platform->InitStack] fills the
    initial stack frame and is outside of the model. *)
Definition Bind (u : ITask) (t : KernelTask) : res KernelTask :=
  let t := with_user (Some u) t in
  let t := if PRIORITY_INHERITANCE_API sc then SetCurrentWeight NO_WEIGHT t else t in
  let t := if WEIGHT_API sc then with_base_weight NO_WEIGHT t else t in
  if IsTimesliceMode c then
    assert! bool_decide (NO_TIME_SLICE ≤ u_time_slice u);
    Ok (with_ts (mkTs (u_time_slice u) (u_time_slice u)) t)
  else Ok t.

(** [KernelTask::Unbind()]. *)
Definition Unbind (t : KernelTask) : res KernelTask :=
  assert! negb (IsSyncMode c && IsWaiting (m_wait_obj t));
  let t := with_sleep 0 (with_state 0 (with_user None t)) in
  let t := if IsHrtMode c then with_hrt HrtInfo_ctor t else t in
  Ok (if IsTimesliceMode c then with_ts TsInfo_ctor t else t).

(** [KernelTask::IsMemoryOfSP(SP)] (non-TrustZone build); [W] is [sizeof(Word)]. *)
Definition IsMemoryOfSP (W : Z) (SP : Z) (t : KernelTask) : res bool :=
  u ← deref (m_user t);
  let start := u_stack u in
  let end_ := start + u_stack_size u * W in
  Ok ((start <=? SP) && (SP <=? end_)).

(** [KernelTask::ScheduleSleep(ticks)]. *)
Definition ScheduleSleep (ticks : Z) (t : KernelTask) : res KernelTask :=
  assert! bool_decide (0 < ticks);
  let t := if negb (IsSleeping t) then raise STATE_SLEEP_PENDING t else t in
  let t := with_sleep (- ticks) t in
  Ok (if IsTimesliceMode c then with_ts (TsInfo_Reload (m_ts t)) t else t).

(** [KernelTask::ScheduleYield()]. *)
Definition ScheduleYield (t : KernelTask) : KernelTask :=
  if NOSLEEP_YIELD_API sc then
    let t := raise STATE_YIELD_PENDING t in
    if IsTimesliceMode c then with_ts (TsInfo_Reload (m_ts t)) t else t
  else t.

(** [KernelTask::HrtInit(periodicity_tc, deadline_tc, start_delay_tc)]. *)
Definition HrtInit (p d delay : Z) (t : KernelTask) : res KernelTask :=
  assert! bool_decide (0 < p);
  assert! bool_decide (0 < d);
  assert! bool_decide (0 ≤ delay);
  assert! bool_decide (p < INT32_MAX);
  assert! bool_decide (d < INT32_MAX);
  let t := with_hrt (mkHrt p d (duration (m_hrt t)) (done (m_hrt t))) t in
  if bool_decide (0 < delay) then ScheduleSleep delay t else Ok t.

(** [KernelTask::HrtOnSwitchedOut()]. *)
Definition HrtOnSwitchedOut (t : KernelTask) : res KernelTask :=
  let h := m_hrt t in
  assert! bool_decide (0 ≤ duration h);
  sleep ← i32 (periodicity h - duration h);
  t ← (if bool_decide (0 < sleep) then ScheduleSleep sleep t else Ok t);
  Ok (with_hrt (mkHrt (periodicity (m_hrt t)) (deadline (m_hrt t)) 0 false) t).

(** [KernelTask::HrtOnWorkCompleted()], [HrtIsDeadlineMissed(duration)]. *)
Definition HrtOnWorkCompleted (t : KernelTask) : KernelTask :=
  let h := m_hrt t in with_hrt (mkHrt (periodicity h) (deadline h) (duration h) true) t.
Definition HrtIsDeadlineMissed (d : Z) (t : KernelTask) : bool := d >? deadline (m_hrt t).
End methods.

(** ** The state word as a set of flags *)

Lemma flag_bit_inj f g : flag_bit f = flag_bit g → f = g.
Proof. by destruct f, g. Qed.

Lemma flag_bit_range f : 0 ≤ flag_bit f < 32.
Proof. destruct f; cbn; lia. Qed.

Lemma testbit_flag_mask f i : 0 ≤ i → Z.testbit (flag_mask f) i = (flag_bit f =? i).
Proof.
  intros Hi. unfold flag_mask. assert (Hr := flag_bit_range f).
  rewrite Z.shiftl_1_l, Z.pow2_bits_eqb by lia. done.
Qed.

Lemma has_flag_testbit m f : has_flag m f = Z.testbit m (flag_bit f).
Proof.
  unfold has_flag. assert (Hr := flag_bit_range f). destruct (Z.testbit m (flag_bit f)) eqn:E.
  - apply negb_true_iff, Z.eqb_neq. intros H.
    assert (B : Z.testbit (Z.land m (flag_mask f)) (flag_bit f) = false) by (rewrite H; apply Z.bits_0).
    rewrite Z.land_spec, E, testbit_flag_mask, Z.eqb_refl in B by lia. done.
  - apply negb_false_iff, Z.eqb_eq. apply Z.bits_inj'. intros i Hi.
    rewrite Z.land_spec, testbit_flag_mask, Z.bits_0 by done.
    destruct (Z.eqb_spec (flag_bit f) i); subst; [by rewrite E|apply andb_false_r].
Qed.

Lemma has_set_flag m f g : has_flag (set_flag m f) g = bool_decide (f = g) || has_flag m g.
Proof.
  rewrite !has_flag_testbit. unfold set_flag. assert (Hr := flag_bit_range g).
  rewrite Z.lor_spec, testbit_flag_mask, orb_comm by lia. f_equal.
  case_bool_decide as E; [subst; apply Z.eqb_refl|]. apply Z.eqb_neq. intros ?. by apply E, flag_bit_inj.
Qed.

Lemma has_clear_flag m f g : has_flag (clear_flag m f) g = negb (bool_decide (f = g)) && has_flag m g.
Proof.
  rewrite !has_flag_testbit. unfold clear_flag, u32. assert (Hr := flag_bit_range g).
  rewrite Z.land_spec, Z.mod_pow2_bits_low, Z.lnot_spec, testbit_flag_mask, andb_comm by lia. f_equal.
  f_equal. case_bool_decide as E; [subst; apply Z.eqb_refl|]. apply Z.eqb_neq. intros ?.
  by apply E, flag_bit_inj.
Qed.

Lemma has_raise f t g : has (raise f t) g = bool_decide (f = g) || has t g.
Proof. apply has_set_flag. Qed.
Lemma has_lower f t g : has (lower f t) g = negb (bool_decide (f = g)) && has t g.
Proof. apply has_clear_flag. Qed.
Lemma has_zero t g : has (with_state 0 t) g = false.
Proof. unfold has. rewrite has_flag_testbit. apply Z.bits_0. Qed.

End KTask.
