(* ===== verification/Strategy.v ===== *)
(** * The switch strategy interface ([ITaskSwitchStrategy] of [stk_common.h])

    [StrategyOps] is the interface class with its virtual methods, and
    [StrategySpec] the contract the kernel relies on: a strategy partitions its
    tasks into ready and asleep ones, every call moves tasks between the two as
    announced, [GetNext] answers a ready task whenever there is one, and no
    call fails when its documented precondition holds.  The kernel's theorems
    are proved against [StrategySpec]; the strategies are its instances.

    A task pointer is the index of its slot in the kernel's task storage.  The
    lists of a strategy are rings of task pointers ([IKernelTask] is a
    [DListEntry<IKernelTask, true>]); [DList.ring_neighbours],
    [DList.head_membership] and [DList.dlist_refinement] justify reading
    [GetNext], [GetPrev], [GetHead] and the link operations of such a ring on
    the Rocq list it represents. *)

From S2P Require Import Prelude KernelTask.
Import KTask.
Local Open Scope Z_scope.

Module Strat.

Notation tasks := (list KernelTask) (only parsing).

(** ** Rings of task pointers *)

(** [head.LinkBack(task)]; [linked] is [task->IsLinked()]. *)
Definition LinkBack (linked : bool) (l : list nat) (i : nat) : res (list nat) :=
  assert! negb linked; Ok (l ++ [i]).
Definition LinkFront (linked : bool) (l : list nat) (i : nat) : res (list nat) :=
  assert! negb linked; Ok (i :: l).
(** [head.Unlink(task)]. *)
Definition Unlink (l : list nat) (i : nat) : res (list nat) :=
  assert! bool_decide (i ∈ l); Ok (list_remove1 i l).
(** [task->GetNext()], [task->GetPrev()] for a task on the ring [l]. *)
Definition Next (l : list nat) (i : nat) : res nat := deref (cnext l i).
Definition Prev (l : list nat) (i : nat) : res nat := deref (cprev l i).
Definition Size (l : list nat) : Z := Z.of_nat (length l).

(** Access to a task through its pointer. *)
Definition get (ts : tasks) (i : nat) : res KernelTask := deref (ts !! i).

Lemma LinkBack_ok l i : LinkBack false l i = Ok (l ++ [i]).
Proof. done. Qed.
Lemma Unlink_ok l i : i ∈ l → Unlink l i = Ok (list_remove1 i l).
Proof. intros Hi. unfold Unlink. by rewrite bool_decide_eq_true_2. Qed.
Lemma Next_ok l i : i ∈ l → NoDup l → ∃ j, Next l i = Ok j ∧ cnext l i = Some j ∧ j ∈ l.
Proof.
  intros Hi Hn. destruct (cnext_is_Some i l Hi Hn) as (j & E & ?).
  exists j. unfold Next. by rewrite E.
Qed.
Lemma Prev_ok l i : i ∈ l → NoDup l → ∃ j, Prev l i = Ok j ∧ cprev l i = Some j ∧ j ∈ l.
Proof.
  intros Hi Hn. destruct (cprev_is_Some i l Hi Hn) as (j & E & ?).
  exists j. unfold Prev. by rewrite E.
Qed.

(** *** Loops around a ring

    [do { body(itr); itr = itr->GetNext(); } while (itr != start)], where the
    body may [break].  [length l] rounds are always enough, and the loop is
    then the plain iteration over the list. *)

Fixpoint ring_loop {A} (fuel : nat) (l : list nat) (start itr : nat)
    (body : nat → A → res (A * bool)) (a : A) : res A :=
  match fuel with
  | O => Panic PANIC_FUEL
  | S f =>
      '(a, brk) ← body itr a;
      if (brk : bool) then Ok a
      else next ← Next l itr;
           if bool_decide (next = start) then Ok a else ring_loop f l start next body a
  end.

Fixpoint fold_break {A} (body : nat → A → res (A * bool)) (l : list nat) (a : A) : res A :=
  match l with
  | [] => Ok a
  | x :: k => '(a, brk) ← body x a; if (brk : bool) then Ok a else fold_break body k a
  end.

Lemma ring_loop_fold {A} (body : nat → A → res (A * bool)) pre itr rest start fuel a :
  NoDup (pre ++ itr :: rest) → head (pre ++ itr :: rest) = Some start → (length rest < fuel)%nat →
  ring_loop fuel (pre ++ itr :: rest) start itr body a = fold_break body (itr :: rest) a.
Proof.
  revert pre itr fuel a. induction rest as [|y rest IH]; intros pre itr [|fuel] a Hn Hs Hf; cbn in Hf; [lia| |lia|].
  - cbn. destruct (body itr a) as [[a' [|]]|]; try done. cbn.
    assert (itr ∉ pre) by (by apply NoDup_mid in Hn as (? & _)).
    unfold Next. rewrite cnext_mid by done. destruct pre as [|z pre]; cbn in *; simplify_eq; cbn;
      by rewrite bool_decide_eq_true_2.
  - cbn. destruct (body itr a) as [[a' [|]]|]; try done. cbn.
    assert (itr ∉ pre) by (by apply NoDup_mid in Hn as (? & _)).
    unfold Next. rewrite cnext_mid by done. cbn.
    assert (E : pre ++ itr :: y :: rest = (pre ++ [itr]) ++ y :: rest) by (by rewrite <- app_assoc).
    rewrite E in Hn, Hs |- *. rewrite bool_decide_eq_false_2; [apply IH; [done..|lia]|].
    intros ->. apply NoDup_mid in Hn as (Hy & _ & _). apply Hy. by destruct pre; cbn in *; simplify_eq; left.
Qed.

(** [for (itr = first;;)] over the whole ring. *)
Lemma ring_loop_all {A} (body : nat → A → res (A * bool)) x l a : NoDup (x :: l) →
  ring_loop (length (x :: l)) (x :: l) x x body a = fold_break body (x :: l) a.
Proof. intros Hn. apply (ring_loop_fold body [] x l); [done..|cbn; lia]. Qed.

(** ** The interface *)

Record StrategyOps (S : Type) := mkStrategyOps {
  st_config : StrategyConfig;
  st_ctor : S;
  st_AddTask : KernelCfg → nat → tasks * S → res (tasks * S);
  st_RemoveTask : KernelCfg → nat → tasks * S → res (tasks * S);
  st_GetNext : KernelCfg → tasks * S → res (option nat * (tasks * S));
  st_GetFirst : KernelCfg → tasks * S → res (option nat);
  st_GetSize : S → Z;
  st_OnTaskSleep : KernelCfg → nat → tasks * S → res (tasks * S);
  st_OnTaskWake : KernelCfg → nat → tasks * S → res (tasks * S);
  st_OnTaskYield : KernelCfg → nat → tasks * S → res (bool * (tasks * S));
  st_OnTaskTimeSlice : KernelCfg → nat → tasks * S → res (bool * (tasks * S));
  st_OnTaskDeadlineMissed : KernelCfg → nat → tasks * S → res (bool * (tasks * S));
  st_OnTaskWeightChange : KernelCfg → nat → Z → tasks * S → res (tasks * S);
}.
Global Arguments st_config {S}.
Global Arguments st_ctor {S}.
Global Arguments st_AddTask {S}.
Global Arguments st_RemoveTask {S}.
Global Arguments st_GetNext {S}.
Global Arguments st_GetFirst {S}.
Global Arguments st_GetSize {S}.
Global Arguments st_OnTaskSleep {S}.
Global Arguments st_OnTaskWake {S}.
Global Arguments st_OnTaskYield {S}.
Global Arguments st_OnTaskTimeSlice {S}.
Global Arguments st_OnTaskDeadlineMissed {S}.
Global Arguments st_OnTaskWeightChange {S}.

(** Default implementations of the optional methods. *)
Definition OnTaskYield_default {S} (c : KernelCfg) (i : nat) (st : tasks * S)
  : res (bool * (tasks * S)) := Ok (false, st).
Definition OnTaskTimeSlice_default {S} (c : KernelCfg) (i : nat) (st : tasks * S)
  : res (bool * (tasks * S)) := Ok (false, st).
Definition OnTaskDeadlineMissed_default {S} (c : KernelCfg) (i : nat) (st : tasks * S)
  : res (bool * (tasks * S)) := Ok (false, st).
Definition OnTaskWeightChange_default {S} (c : KernelCfg) (i : nat) (old : Z) (st : tasks * S)
  : res (tasks * S) := Ok st.

(** ** The contract *)

(** Two states of a task that look the same to a strategy's own bookkeeping:
    the weights and the user task are those it filed the task under. *)
Definition same_weight (t t' : KernelTask) : Prop :=
  m_user t' = m_user t ∧ m_rt_weight t' = m_rt_weight t ∧ m_base_weight t' = m_base_weight t.

Definition same_weights (M : list nat) (ts ts' : tasks) : Prop :=
  ∀ i t, i ∈ M → ts !! i = Some t → ∃ t', ts' !! i = Some t' ∧ same_weight t t'.

(** What a strategy may assume of a ready task when it picks the next one. *)
Definition runnable (ts : tasks) (i : nat) : Prop :=
  ∃ t, ts !! i = Some t ∧ IsSleeping t = false ∧
    0 ≤ deadline (m_hrt t) ≤ INT32_MAX ∧ 0 ≤ duration (m_hrt t) ≤ INT32_MAX.

Class StrategySpec {S : Type} (ops : StrategyOps S) := {
  (** the kernels it can be used in, its invariant, its tasks, which tasks it
      accepts, and which weights a task may be given later *)
  st_cfg_ok : KernelCfg → Prop;
  st_inv : KernelCfg → tasks → S → Prop;
  st_ready : S → list nat;
  st_asleep : S → list nat;
  st_admissible : KernelCfg → KernelTask → Prop;
  st_weight_ok : KernelCfg → KernelTask → Prop;

  st_nodup c ts s : st_inv c ts s → NoDup (st_ready s ++ st_asleep s);
  st_frame c ts ts' s : st_inv c ts s →
    same_weights (st_ready s ++ st_asleep s) ts ts' → st_inv c ts' s;
  st_admissible_frame c t t' : st_admissible c t → same_weight t t' → st_admissible c t';
  st_ctor_spec c ts : st_cfg_ok c →
    st_inv c ts (st_ctor ops) ∧ st_ready (st_ctor ops) = [] ∧ st_asleep (st_ctor ops) = [];
  st_AddTask_spec c ts s i t : st_cfg_ok c → st_inv c ts s → ts !! i = Some t →
    (i ∉ st_ready s ++ st_asleep s) → st_admissible c t →
    ∃ s', st_AddTask ops c i (ts, s) = Ok (ts, s') ∧ st_inv c ts s' ∧
      st_ready s' ≡ₚ i :: st_ready s ∧ st_asleep s' ≡ₚ st_asleep s;
  st_RemoveTask_spec c ts s i : st_cfg_ok c → st_inv c ts s → i ∈ st_ready s ++ st_asleep s →
    ∃ s', st_RemoveTask ops c i (ts, s) = Ok (ts, s') ∧ st_inv c ts s' ∧
      st_ready s' ≡ₚ list_remove1 i (st_ready s) ∧ st_asleep s' ≡ₚ list_remove1 i (st_asleep s);
  st_GetNext_spec c ts s : st_cfg_ok c → st_inv c ts s → Forall (runnable ts) (st_ready s) →
    ∃ r s', st_GetNext ops c (ts, s) = Ok (r, (ts, s')) ∧ st_inv c ts s' ∧
      st_ready s' ≡ₚ st_ready s ∧ st_asleep s' ≡ₚ st_asleep s ∧
      match r with None => st_ready s = [] | Some i => i ∈ st_ready s end;
  st_GetFirst_spec c ts s : st_cfg_ok c → st_inv c ts s → st_ready s ++ st_asleep s ≠ [] →
    ∃ i, st_GetFirst ops c (ts, s) = Ok (Some i) ∧ i ∈ st_ready s ++ st_asleep s;
  st_GetSize_spec c ts s : st_inv c ts s →
    st_GetSize ops s = Z.of_nat (length (st_ready s ++ st_asleep s));
  st_OnTaskSleep_spec c ts s i t : st_cfg_ok c → st_inv c ts s → ts !! i = Some t →
    IsSleeping t = true → i ∈ st_ready s →
    ∃ s', st_OnTaskSleep ops c i (ts, s) = Ok (ts, s') ∧ st_inv c ts s' ∧
      st_ready s' ≡ₚ list_remove1 i (st_ready s) ∧ st_asleep s' ≡ₚ i :: st_asleep s;
  st_OnTaskWake_spec c ts s i t : st_cfg_ok c → st_inv c ts s → ts !! i = Some t →
    IsSleeping t = false → i ∈ st_asleep s →
    ∃ s', st_OnTaskWake ops c i (ts, s) = Ok (ts, s') ∧ st_inv c ts s' ∧
      st_ready s' ≡ₚ i :: st_ready s ∧ st_asleep s' ≡ₚ list_remove1 i (st_asleep s);
  st_OnTaskYield_spec c ts s i : st_cfg_ok c → st_inv c ts s → i ∈ st_ready s ++ st_asleep s →
    ∃ b s', st_OnTaskYield ops c i (ts, s) = Ok (b, (ts, s')) ∧ st_inv c ts s' ∧
      st_ready s' ≡ₚ st_ready s ∧ st_asleep s' ≡ₚ st_asleep s;
  st_OnTaskTimeSlice_spec c ts s i : st_cfg_ok c → st_inv c ts s → i ∈ st_ready s ++ st_asleep s →
    ∃ b s', st_OnTaskTimeSlice ops c i (ts, s) = Ok (b, (ts, s')) ∧ st_inv c ts s' ∧
      st_ready s' ≡ₚ st_ready s ∧ st_asleep s' ≡ₚ st_asleep s;
  st_OnTaskWeightChange_spec c ts s i t t' w : st_cfg_ok c → st_inv c ts s →
    PRIORITY_INHERITANCE_API (st_config ops) = true → ts !! i = Some t → GetWeight c t = Ok w →
    st_weight_ok c t' → i ∈ st_ready s ++ st_asleep s →
    ∃ s', st_OnTaskWeightChange ops c i w (<[i := t']> ts, s) = Ok (<[i := t']> ts, s') ∧
      st_inv c (<[i := t']> ts) s' ∧ st_ready s' ≡ₚ st_ready s ∧ st_asleep s' ≡ₚ st_asleep s;
}.

(** The tasks a strategy holds. *)
Definition st_members {S} {ops : StrategyOps S} `{!StrategySpec ops} (s : S) : list nat :=
  st_ready s ++ st_asleep s.

Lemma same_weights_refl M ts ts' : (∀ i, i ∈ M → ts' !! i = ts !! i) → same_weights M ts ts'.
Proof. intros H i t Hi Ht. exists t. rewrite H by done. done. Qed.

Lemma same_weight_GetWeight c t t' : same_weight t t' → GetWeight c t' = GetWeight c t.
Proof. intros (E1 & E2 & E3). unfold GetWeight, GetBaseWeight. by rewrite E1, E2, E3. Qed.

Lemma same_weight_GetBaseWeight c t t' : same_weight t t' → GetBaseWeight c t' = GetBaseWeight c t.
Proof. intros (E1 & E2 & E3). unfold GetBaseWeight. by rewrite E1, E3. Qed.

(** Removing a task that is on one of two disjoint lists leaves the other. *)
Lemma remove1_two (a b : list nat) i : NoDup (a ++ b) → i ∈ b → list_remove1 i a = a.
Proof. intros (_ & H & _)%NoDup_app Hi. apply remove1_notin. intros Ha. by apply (H i). Qed.
Lemma remove1_two' (a b : list nat) i : NoDup (a ++ b) → i ∈ a → list_remove1 i b = b.
Proof. intros (_ & H & _)%NoDup_app Hi. apply remove1_notin. intros Hb. by apply (H i). Qed.

End Strat.
