(* ===== verification/RoundRobin.v ===== *)
(** * Round-robin scheduling ([stk_strategy_rrobin.h])

    [SwitchStrategyRoundRobinT<NoSleepYield>]: a ring of ready tasks with a
    cursor, and a ring of sleepers.  The cursor arithmetic is shown to implement
    a queue: [rr_order] is the order in which the ready tasks are going to run. *)

From S2P Require Import Prelude KernelTask Strategy.
Import KTask Strat.

Module RoundRobin.

Record RR := mkRR { m_tasks : list nat; m_sleep : list nat; m_prev : option nat }.

Definition RR_ctor : RR := mkRR [] [] None.

(** [GetHead() == &m_tasks], [== &m_sleep], [!= nullptr]. *)
Definition in_tasks (s : RR) (i : nat) : bool := bool_decide (i ∈ m_tasks s).
Definition in_sleep (s : RR) (i : nat) : bool := bool_decide (i ∈ m_sleep s).
Definition linked (s : RR) (i : nat) : bool := in_tasks s i || in_sleep s i.

Section strategy.
Context (NoSleepYield : bool).

Definition EConfig : StrategyConfig :=
  mkStrategyConfig false true false false NoSleepYield false.

Definition GetSize (s : RR) : Z := (Size (m_tasks s) + Size (m_sleep s))%Z.

(** [AddActive(task)]. *)
Definition AddActive (i : nat) (s : RR) : res RR :=
  l ← LinkBack (linked s i) (m_tasks s) i;
  Ok (mkRR l (m_sleep s) (match m_prev s with None => Some i | Some p => Some p end)).

(** [RemoveActive(task)]. *)
Definition RemoveActive (i : nat) (s : RR) : res RR :=
  next ← Next (m_tasks s) i;
  l ← Unlink (m_tasks s) i;
  if bool_decide (next = i) then Ok (mkRR l (m_sleep s) None)
  else if bool_decide (m_prev s = Some i) then
    p ← Prev l next; Ok (mkRR l (m_sleep s) (Some p))
  else Ok (mkRR l (m_sleep s) (m_prev s)).

Definition AddTask (c : KernelCfg) (i : nat) (st : list KernelTask * RR) : res (list KernelTask * RR) :=
  let '(ts, s) := st in
  assert! negb (linked s i);
  let tail := bool_decide (m_prev s = last (m_tasks s)) in
  l ← LinkBack (linked s i) (m_tasks s) i;
  Ok (ts, mkRR l (m_sleep s) (if tail then Some i else m_prev s)).

Definition RemoveTask (c : KernelCfg) (i : nat) (st : list KernelTask * RR) : res (list KernelTask * RR) :=
  let '(ts, s) := st in
  assert! negb (bool_decide (GetSize s = 0%Z));
  assert! (in_tasks s i || in_sleep s i);
  if in_tasks s i then s' ← RemoveActive i s; Ok (ts, s')
  else l ← Unlink (m_sleep s) i; Ok (ts, mkRR (m_tasks s) l (m_prev s)).

Definition GetNext (c : KernelCfg) (st : list KernelTask * RR)
  : res (option nat * (list KernelTask * RR)) :=
  let '(ts, s) := st in
  match m_prev s with
  | None => Ok (None, (ts, s))
  | Some p => n ← Next (m_tasks s) p; Ok (Some n, (ts, mkRR (m_tasks s) (m_sleep s) (Some n)))
  end.

Definition GetFirst (c : KernelCfg) (st : list KernelTask * RR) : res (option nat) :=
  let '(ts, s) := st in
  assert! negb (bool_decide (GetSize s = 0%Z));
  Ok (if negb (bool_decide (Size (m_tasks s) = 0%Z)) then head (m_tasks s) else head (m_sleep s)).

Definition OnTaskSleep (c : KernelCfg) (i : nat) (st : list KernelTask * RR) : res (list KernelTask * RR) :=
  let '(ts, s) := st in
  t ← get ts i;
  assert! IsSleeping t;
  assert! in_tasks s i;
  s ← RemoveActive i s;
  l ← LinkBack (linked s i) (m_sleep s) i;
  Ok (ts, mkRR (m_tasks s) l (m_prev s)).

Definition OnTaskWake (c : KernelCfg) (i : nat) (st : list KernelTask * RR) : res (list KernelTask * RR) :=
  let '(ts, s) := st in
  t ← get ts i;
  assert! negb (IsSleeping t);
  assert! in_sleep s i;
  l ← Unlink (m_sleep s) i;
  s' ← AddActive i (mkRR (m_tasks s) l (m_prev s));
  Ok (ts, s').

Definition OnTaskYield (c : KernelCfg) (i : nat) (st : list KernelTask * RR)
  : res (bool * (list KernelTask * RR)) :=
  let '(ts, s) := st in
  if NoSleepYield then
    if in_tasks s i then Ok (true, (ts, mkRR (m_tasks s) (m_sleep s) (Some i)))
    else Ok (false, (ts, s))
  else Ok (false, (ts, s)).

Definition RROps : StrategyOps RR :=
  mkStrategyOps RR EConfig RR_ctor AddTask RemoveTask GetNext GetFirst GetSize
    OnTaskSleep OnTaskWake OnTaskYield OnTaskTimeSlice_default OnTaskDeadlineMissed_default
    OnTaskWeightChange_default.
End strategy.

(** ** Invariant and queue order *)

Record rr_inv (s : RR) : Prop := {
  rr_nodup : NoDup (m_tasks s ++ m_sleep s);
  rr_prev : match m_prev s with None => m_tasks s = [] | Some p => p ∈ m_tasks s end;
}.

(** The order in which [GetNext] is going to return the ready tasks. *)
Definition rr_order (s : RR) : list nat :=
  match m_prev s with None => [] | Some p => ring_after p (m_tasks s) end.

Lemma rr_nodup_tasks s : rr_inv s → NoDup (m_tasks s).
Proof. intros [H _]. by apply NoDup_app in H as (? & _). Qed.

Lemma rr_order_perm s : rr_inv s → rr_order s ≡ₚ m_tasks s.
Proof.
  intros [_ Hp]. unfold rr_order. destruct (m_prev s); [apply ring_after_perm|by rewrite Hp].
Qed.

Lemma GetNext_order s : rr_inv s → ∀ c ts,
  match rr_order s with
  | [] => GetNext c (ts, s) = Ok (None, (ts, s)) ∧ m_tasks s = []
  | x :: q => ∃ s', GetNext c (ts, s) = Ok (Some x, (ts, s')) ∧ rr_inv s' ∧
      rr_order s' = q ++ [x] ∧ m_tasks s' = m_tasks s ∧ m_sleep s' = m_sleep s
  end.
Proof.
  intros Hi c ts. assert (Hn := rr_nodup_tasks s Hi). destruct Hi as [Hnd Hp].
  unfold rr_order, GetNext. destruct (m_prev s) as [p|] eqn:Ep; [|done].
  destruct (ring_after p (m_tasks s)) as [|x q] eqn:Eo.
  - assert (E := ring_after_perm p (m_tasks s)). rewrite Eo in E.
    apply Permutation_nil_l in E. rewrite <- E in Hp. by apply not_elem_of_nil in Hp.
  - unfold Next. rewrite cnext_ring_after, Eo by done. cbn.
    destruct (ring_after_step _ _ _ _ Hp Hn Eo) as [Hx Ex].
    eexists. split; [done|]. split; [by split|]. done.
Qed.

(** Unlinking the task at the cursor moves the cursor back, so that the order
    of the others is kept. *)
Lemma RemoveActive_order s i : rr_inv s → i ∈ m_tasks s →
  ∃ s', RemoveActive i s = Ok s' ∧ rr_inv s' ∧ rr_order s' = list_remove1 i (rr_order s) ∧
    m_tasks s' = list_remove1 i (m_tasks s) ∧ m_sleep s' = m_sleep s.
Proof.
  intros Hi Hin. assert (Hn := rr_nodup_tasks s Hi). destruct Hi as [Hnd Hp].
  unfold RemoveActive. destruct (Next_ok _ _ Hin Hn) as (n & -> & En & Hnin). cbn [mbind res_bind].
  rewrite Unlink_ok by done. cbn [mbind res_bind].
  assert (Hnd' : NoDup (list_remove1 i (m_tasks s) ++ m_sleep s)).
  { apply NoDup_app in Hnd as (? & Hd & ?). apply NoDup_app. split_and_all; eauto with stk.
    intros x [? _]%elem_of_remove1. by apply Hd. }
  destruct (m_prev s) as [p|] eqn:Ep; [|by rewrite Hp in Hin; apply not_elem_of_nil in Hin].
  case_bool_decide as Eni.
  { subst n. assert (m_tasks s = [i]) as El by (by apply cnext_self).
    rewrite El in *. eexists. split; [done|].
    assert (list_remove1 i [i] = []) as Er by (apply (remove1_mid i [] []); set_solver).
    rewrite Er in *. split; [by split|]. split; [|done].
    unfold rr_order. cbn [m_prev]. rewrite Ep, El. assert (p = i) as -> by set_solver.
    rewrite (ring_after_mid i [] []) by set_solver. cbn [app]. by rewrite Er. }
  unfold rr_order. rewrite Ep. case_bool_decide as Epi.
  - simplify_eq. destruct (ring_after_cursor _ _ _ Hin Hn En Eni) as (q & Eq & Hq & Ering).
    unfold Prev. rewrite Eq. cbn. eexists. split; [done|]. split; [by split|]. done.
  - assert (p ≠ i) by congruence. eexists. split; [done|].
    split; [split; [done|cbn; by rewrite elem_of_remove1]|]. cbn. by rewrite ring_after_remove.
Qed.


(** ** Each operation on the invariant and on the order *)

Lemma rr_linked_false s i : (i ∉ m_tasks s) → (i ∉ m_sleep s) → linked s i = false.
Proof. intros. unfold linked, in_tasks, in_sleep. by rewrite !bool_decide_eq_false_2. Qed.

Lemma order_append s i : rr_inv s → (i ∉ m_tasks s) → ∀ p k, m_prev s = Some p →
  rr_order s = k ++ [p] →
  ∃ a b, k = a ++ b ∧ ring_after p (m_tasks s ++ [i]) = a ++ i :: b ++ [p].
Proof.
  intros Hi Hin p k Ep Eo. assert (Hn := rr_nodup_tasks s Hi). destruct Hi as [_ Hp]. rewrite Ep in Hp.
  unfold rr_order in Eo. rewrite Ep in Eo.
  destruct (elem_of_split_nodup _ _ Hp Hn) as (l1 & l2 & El & H1 & H2 & _). rewrite El in *.
  rewrite ring_after_mid, app_assoc in Eo by done. apply app_inj_tail in Eo as [<- _].
  exists l2, l1. split; [done|]. rewrite <- app_assoc. cbn. rewrite ring_after_mid by done.
  by rewrite <- app_assoc.
Qed.

Lemma rr_AddTask c ts s i : rr_inv s → (i ∉ m_tasks s ++ m_sleep s) →
  ∃ s', AddTask c i (ts, s) = Ok (ts, s') ∧ rr_inv s' ∧
    m_tasks s' = m_tasks s ++ [i] ∧ m_sleep s' = m_sleep s.
Proof.
  intros Hi [H1 H2]%not_elem_of_app. unfold AddTask. rewrite rr_linked_false by done. cbn.
  eexists. split; [done|]. split; [|done]. destruct Hi as [Hnd Hp]. split; cbn.
  - rewrite <- app_assoc. cbn. rewrite <- Permutation_middle. constructor; [|done]. set_solver.
  - case_bool_decide as E; [set_solver|]. destruct (m_prev s); [set_solver|]. by rewrite Hp in E.
Qed.

(** A task added while the cursor is on the tail, as at start-up, runs last. *)
Lemma rr_AddTask_order c ts s i s' : rr_inv s → (i ∉ m_tasks s ++ m_sleep s) →
  m_prev s = last (m_tasks s) → AddTask c i (ts, s) = Ok (ts, s') →
  rr_order s' = rr_order s ++ [i].
Proof.
  intros Hi [H1 H2]%not_elem_of_app Hlast. unfold AddTask. rewrite rr_linked_false by done. cbn.
  rewrite bool_decide_eq_true_2 by done. intros [= <-]. unfold rr_order. cbn.
  rewrite ring_after_mid by done. cbn. destruct (m_prev s) as [p|] eqn:Ep.
  - symmetry in Hlast. apply last_Some in Hlast as [k Hk]. assert (Hn := rr_nodup_tasks s Hi).
    rewrite Hk in *. apply NoDup_mid in Hn as (Hn & _). by rewrite (ring_after_mid p k []).
  - by rewrite (proj1 (last_None _) (eq_sym Hlast)).
Qed.

Lemma rr_Wake c ts s i t : rr_inv s → ts !! i = Some t → IsSleeping t = false → i ∈ m_sleep s →
  ∃ s', OnTaskWake c i (ts, s) = Ok (ts, s') ∧ rr_inv s' ∧
    m_tasks s' = m_tasks s ++ [i] ∧ m_sleep s' = list_remove1 i (m_sleep s).
Proof.
  intros [Hnd Hp] Ht Hs Hin. unfold OnTaskWake, get. rewrite Ht. cbn [deref mbind res_bind]. rewrite Hs.
  cbn [negb stk_assert]. unfold in_sleep. rewrite bool_decide_eq_true_2 by done. cbn [stk_assert].
  rewrite Unlink_ok by done. cbn [mbind res_bind]. unfold AddActive.
  assert (Hnt : i ∉ m_tasks s) by (apply NoDup_app in Hnd as (_ & Hd & _); intros ?; by eapply Hd).
  rewrite rr_linked_false by (cbn; rewrite ?elem_of_remove1; naive_solver). cbn.
  eexists. split; [done|]. split; [|done]. split; cbn.
  - apply NoDup_app in Hnd as (? & Hd & ?). rewrite <- app_assoc. cbn. apply NoDup_app.
    split; [done|]. split.
    + intros x Hx [->|[? _]%elem_of_remove1]%elem_of_cons; [done|]. by apply (Hd x).
    + constructor; [rewrite elem_of_remove1; naive_solver|eauto with stk].
  - destruct (m_prev s); [set_solver|]. set_solver.
Qed.

Lemma rr_Sleep c ts s i t : rr_inv s → ts !! i = Some t → IsSleeping t = true → i ∈ m_tasks s →
  ∃ s', OnTaskSleep c i (ts, s) = Ok (ts, s') ∧ rr_inv s' ∧
    rr_order s' = list_remove1 i (rr_order s) ∧
    m_tasks s' = list_remove1 i (m_tasks s) ∧ m_sleep s' = m_sleep s ++ [i].
Proof.
  intros Hi Ht Hs Hin. unfold OnTaskSleep, get. rewrite Ht. cbn [deref mbind res_bind]. rewrite Hs.
  cbn [stk_assert]. unfold in_tasks. rewrite bool_decide_eq_true_2 by done. cbn [stk_assert].
  destruct (RemoveActive_order s i Hi Hin) as (s1 & -> & [Hnd Hp] & Ho & Et & Es). cbn [mbind res_bind].
  assert (Hns : i ∉ m_sleep s).
  { destruct Hi as [H _]. apply NoDup_app in H as (_ & Hd & _). by apply Hd. }
  rewrite rr_linked_false by (rewrite ?Et, ?Es, ?elem_of_remove1; naive_solver). cbn.
  eexists. split; [done|]. split; [|by rewrite Es].
  split; cbn; [|done]. rewrite app_assoc, (Permutation_app_comm _ [i]). cbn. constructor; [|done].
  rewrite Et, Es, elem_of_app, elem_of_remove1. naive_solver.
Qed.

Lemma rr_Remove c ts s i : rr_inv s → i ∈ m_tasks s ++ m_sleep s →
  ∃ s', RemoveTask c i (ts, s) = Ok (ts, s') ∧ rr_inv s' ∧
    m_tasks s' = list_remove1 i (m_tasks s) ∧ m_sleep s' = list_remove1 i (m_sleep s).
Proof.
  intros Hi Hin. unfold RemoveTask. assert (Hsz : GetSize s ≠ 0%Z).
  { unfold GetSize, Size. apply elem_of_app in Hin. destruct (m_tasks s), (m_sleep s); simpl; [set_solver|lia..]. }
  rewrite (bool_decide_eq_false_2 (GetSize s = 0%Z)) by done. cbn [negb stk_assert].
  unfold in_tasks, in_sleep. case_bool_decide as E1; cbn [orb stk_assert].
  - destruct (RemoveActive_order s i Hi E1) as (s1 & -> & Hi1 & _ & Et & Es). cbn.
    eexists. split; [done|]. split; [done|]. split; [done|].
    rewrite Es. symmetry. eapply remove1_two'; [apply Hi|done].
  - assert (E2 : i ∈ m_sleep s) by set_solver.
    rewrite bool_decide_eq_true_2 by done. cbn [stk_assert]. rewrite Unlink_ok by done. cbn.
    eexists. split; [done|]. destruct Hi as [Hnd Hp]. split; [split|]; cbn.
    + apply NoDup_app in Hnd as (? & Hd & ?). apply NoDup_app. split_and_all; eauto with stk.
      intros x Hx [? _]%elem_of_remove1. by apply (Hd x).
    + done.
    + by rewrite (remove1_notin i (m_tasks s)).
Qed.

#[global] Instance RROps_spec (nsy : bool) : StrategySpec (RROps nsy).
Proof.
  refine {| st_cfg_ok := λ _, True; st_inv := λ _ _ s, rr_inv s; st_ready := m_tasks;
            st_asleep := m_sleep; st_admissible := λ _ _, True;
            st_weight_ok := λ _ _, True |}; cbn; try done.
  - by intros _ _ s [? _].
  - intros _ _ _. split; [|done]. split; [constructor|done].
  - intros c ts s i t _ Hi _ Hn _. destruct (rr_AddTask c ts s i Hi Hn) as (s' & ? & ? & Et & Es).
    exists s'. rewrite Et, Es. split_and_all; try done. by rewrite Permutation_app_comm.
  - intros c ts s i _ Hi Hin. destruct (rr_Remove c ts s i Hi Hin) as (s' & ? & ? & Et & Es). exists s'. by rewrite Et, Es.
  - intros c ts s _ Hi _. assert (H := GetNext_order s Hi c ts). assert (Hp := rr_order_perm s Hi).
    destruct (rr_order s) as [|x q].
    + destruct H as [E ?]. exists None, s. by split; [exact E|].
    + destruct H as (s' & E & ? & _ & Et & Es). exists (Some x), s'. rewrite Et, Es.
      split; [exact E|]. split_and_all; try done.
      rewrite <- Hp. left.
  - intros c ts s _ _ Hne. assert (Hsz : GetSize s ≠ 0%Z).
    { unfold GetSize, Size. destruct (m_tasks s), (m_sleep s); simpl; [done|lia..]. }
    rewrite (bool_decide_eq_false_2 (GetSize s = 0%Z)) by done. cbn [negb stk_assert]. unfold Size.
    destruct (m_tasks s) as [|x l]; cbn.
    + destruct (m_sleep s) as [|y k]; [done|]. exists y. split; [done|left].
    + exists x. split; [done|left].
  - intros _ _ s _. unfold GetSize, Size. rewrite length_app. lia.
  - intros c ts s i t _ Hi Ht Hs Hin.
    destruct (rr_Sleep c ts s i t Hi Ht Hs Hin) as (s' & ? & ? & _ & Et & Es).
    exists s'. rewrite Et, Es. split_and_all; try done. by rewrite Permutation_app_comm.
  - intros c ts s i t _ Hi Ht Hs Hin.
    destruct (rr_Wake c ts s i t Hi Ht Hs Hin) as (s' & ? & ? & Et & Es).
    exists s'. rewrite Et, Es. split_and_all; try done. by rewrite Permutation_app_comm.
  - intros c ts s i _ Hi Hin. destruct nsy; [|by exists false, s].
    unfold in_tasks. case_bool_decide; [|by exists false, s].
    eexists true, _. split; [done|]. split; [|done]. destruct Hi. by split.
  - intros c ts s i _ Hi _. by exists false, s.
Defined.

(** Round robin is exact: with [n] ready tasks, [n] consecutive calls of
    [GetNext] return every ready task exactly once, in the order [rr_order]
    announced, and leave the scheduler ready to repeat the same cycle. *)
Theorem rr_full_cycle (c : KernelCfg) (ts : list KernelTask) (s : RR) :
  rr_inv s →
  ∃ s', iterate_res (GetNext c) (length (m_tasks s)) (ts, s) = Ok (Some <$> rr_order s, (ts, s')) ∧
    rr_order s ≡ₚ m_tasks s ∧ rr_order s' = rr_order s ∧ m_tasks s' = m_tasks s ∧ rr_inv s'.
Proof.
  intros Hi. assert (Hp := rr_order_perm s Hi). rewrite <- (Permutation_length Hp).
  destruct (iterate_queue (GetNext c) Some
    (λ st, st.1 = ts ∧ rr_inv st.2 ∧ m_tasks st.2 = m_tasks s) (λ st, rr_order st.2)) with
    (q := rr_order s) (r := @nil nat) (s := (ts, s)) as ([ts' s'] & E & (Ets & ? & ?) & ?);
    [| |by rewrite app_nil_r|cbn in *; subst ts'; by exists s']; [|done].
  intros [ts1 s1] x q (Ets & Hi1 & Et1) Ho. cbn in *. subst ts1. assert (Hn := GetNext_order s1 Hi1 c ts).
  rewrite Ho in Hn. destruct Hn as (s2 & E & ? & ? & Et & _). exists (ts, s2). cbn.
  split_and!; [exact E|done..|congruence|done].
Qed.

Lemma rr_full_cycle_witness :
  let s := mkRR [4; 1; 7] [2] (Some 1) in
  rr_inv s ∧ ∃ s', iterate_res (GetNext (mkCfg 1 (EConfig false))) 3 ([], s)
    = Ok ([Some 7; Some 4; Some 1], ([], s')) ∧
    rr_order s ≡ₚ m_tasks s ∧ rr_order s' = rr_order s ∧ m_tasks s' = m_tasks s ∧ rr_inv s'.
Proof.
  assert (rr_inv (mkRR [4; 1; 7] [2] (Some 1))) as Hi by (split; decided).
  split; [done|]. apply (rr_full_cycle (mkCfg 1 (EConfig false)) [] _ Hi).
Defined.

(** A task that goes to sleep leaves the running order of all others
    unchanged, wherever the cursor is, and no assertion fails on the way. *)
Theorem rr_sleep_keeps_order (c : KernelCfg) (ts : list KernelTask) (s : RR) (i : nat) (t : KernelTask) :
  rr_inv s → ts !! i = Some t → IsSleeping t = true → i ∈ m_tasks s →
  ∃ s', OnTaskSleep c i (ts, s) = Ok (ts, s') ∧ rr_inv s' ∧
    rr_order s' = list_remove1 i (rr_order s) ∧ m_sleep s' = m_sleep s ++ [i].
Proof.
  intros Hi Ht Hs Hin. destruct (rr_Sleep c ts s i t Hi Ht Hs Hin) as (s' & ? & ? & ? & _ & ?).
  by exists s'.
Qed.

Lemma rr_sleep_keeps_order_witness :
  let s := mkRR [0; 1; 2] [] (Some 1) in
  let ts := replicate 3 (with_sleep (-5) KernelTask_ctor) in
  ∃ s', OnTaskSleep (mkCfg 1 (EConfig false)) 1 (ts, s) = Ok (ts, s') ∧ rr_inv s' ∧
    rr_order s' = [2; 0] ∧ m_sleep s' = [1].
Proof.
  apply (rr_sleep_keeps_order (mkCfg 1 (EConfig false))
    (replicate 3 (with_sleep (-5) KernelTask_ctor)) (mkRR [0; 1; 2] [] (Some 1)) 1
    (with_sleep (-5) KernelTask_ctor)); [split; decided|reflexivity|reflexivity|decided].
Defined.

End RoundRobin.
