(* ===== verification/Levels.v ===== *)
(** * Rings of ready tasks, one per priority level

    The fixed-priority and the preemption-threshold strategies keep one ring of
    ready tasks and one cursor per priority level, and a bitmap of the levels
    whose ring is not empty.  This file states the invariant of that structure
    and how it changes when one level changes; the strategies' operations are
    in their own files. *)

From S2P Require Import Prelude PriorityBitmap KernelTask Strategy.
Import PBitmap KTask Strat.

Module Levels.

(** A level: distinct tasks, and a cursor on one of them unless it is empty. *)
Definition level_ok (l : list nat) (q : option nat) : Prop :=
  NoDup l ∧ match q with None => l = [] | Some x => x ∈ l end.

Section levels.
Context {B : Type} (bops : BitmapOps B) `{!BitmapSpec bops} (MAX : Z).
Context (Hmax : (1 ≤ MAX ≤ CAPACITY bops)%Z).

(** [rank i] is the level task [i] belongs to. *)
Record levels_inv (rank : nat → option nat) (L : list (list nat)) (P : list (option nat)) (bm : B) : Prop := {
  lv_len : length L = Z.to_nat MAX;
  lv_plen : length P = Z.to_nat MAX;
  lv_ok p l q : L !! p = Some l → P !! p = Some q → level_ok l q;
  lv_rank p l i : L !! p = Some l → i ∈ l → rank i = Some p;
  lv_wf : bm_wf bm;
  lv_bit p l : L !! p = Some l → bm_test bm (Z.of_nat p) = bool_decide (l ≠ []);
  lv_high p : (MAX ≤ p < CAPACITY bops)%Z → bm_test bm p = false;
}.

Lemma lv_init rank : levels_inv rank (replicate (Z.to_nat MAX) []) (replicate (Z.to_nat MAX) None) (bm_ctor bops).
Proof using Hmax.
  destruct (bm_ctor_spec (ops := bops)) as [Hw Ht]. split; try done.
  - apply length_replicate.
  - apply length_replicate.
  - intros p l q [-> _]%lookup_replicate [-> _]%lookup_replicate. split; [constructor|done].
  - intros p l i [-> _]%lookup_replicate. set_solver.
  - intros p l [-> _]%lookup_replicate. rewrite Ht. done.
Qed.

Lemma lv_nodup rank L P bm : levels_inv rank L P bm → NoDup (concat L).
Proof using.
  intros H. apply (NoDup_concat_rank rank). intros p l Hl.
  assert (p < length P) as [q Hq]%lookup_lt_is_Some
    by (rewrite (lv_plen _ _ _ _ H), <- (lv_len _ _ _ _ H); by eapply lookup_lt_Some).
  destruct (lv_ok _ _ _ _ H p l q Hl Hq). split; [done|]. intros x Hx. by eapply lv_rank.
Qed.

Lemma lv_level rank L P bm p : levels_inv rank L P bm → p < Z.to_nat MAX →
  ∃ l q, L !! p = Some l ∧ P !! p = Some q ∧ level_ok l q.
Proof using.
  intros H Hp. destruct (lookup_lt_is_Some_2 L p) as [l Hl]; [by rewrite (lv_len _ _ _ _ H)|].
  destruct (lookup_lt_is_Some_2 P p) as [q Hq]; [by rewrite (lv_plen _ _ _ _ H)|].
  exists l, q. split_and!; [done..|]. by eapply lv_ok.
Qed.

(** The level of a task that is ready. *)
Lemma lv_find rank L P bm i : levels_inv rank L P bm → i ∈ concat L →
  ∃ p l q, rank i = Some p ∧ p < Z.to_nat MAX ∧ L !! p = Some l ∧ P !! p = Some q ∧ level_ok l q ∧ i ∈ l.
Proof using.
  intros H (p & l & Hl & Hi)%elem_of_concat. assert (Hp : p < Z.to_nat MAX)
    by (rewrite <- (lv_len _ _ _ _ H); by eapply lookup_lt_Some).
  destruct (lv_level _ _ _ _ p H Hp) as (l' & q & Hl' & Hq & Hok). simplify_eq.
  exists p, l, q. split_and!; [by eapply lv_rank|done..].
Qed.

(** One level is replaced, together with its cursor and its bit. *)
Lemma lv_update rank L P bm p l' q' bm' : levels_inv rank L P bm → p < Z.to_nat MAX →
  level_ok l' q' → (∀ i, i ∈ l' → rank i = Some p) → bm_wf bm' →
  (∀ j, (0 ≤ j < CAPACITY bops)%Z →
     bm_test bm' j = if decide (j = Z.of_nat p) then bool_decide (l' ≠ []) else bm_test bm j) →
  levels_inv rank (<[p := l']> L) (<[p := q']> P) bm'.
Proof using Hmax.
  intros [HL HP Hok Hrk Hwf Hbit Hhi] Hp Hlq Hr Hw Ht. split; rewrite ?length_insert; try done.
  - intros p' l q [(<- & <- & _)|[Hne Hl]]%list_lookup_insert_Some
      [(Epp & <- & _)|[Hne' Hq]]%list_lookup_insert_Some; try done. by eapply Hok.
  - intros p' l i [(<- & <- & _)|[Hne Hl]]%list_lookup_insert_Some; [by apply Hr|by apply Hrk].
  - intros p' l Hl. assert (p' < Z.to_nat MAX) by (rewrite <- HL; apply lookup_lt_Some in Hl; by rewrite length_insert in Hl).
    rewrite Ht by lia. apply list_lookup_insert_Some in Hl as [(<- & <- & _)|[Hne Hl]].
    + by rewrite decide_True.
    + rewrite decide_False by lia. by apply Hbit.
  - intros j Hj. rewrite Ht, decide_False by lia. by apply Hhi.
Qed.

(** Moving the cursor of a level. *)
Lemma lv_cursor rank L P bm p l x : levels_inv rank L P bm → L !! p = Some l → x ∈ l →
  levels_inv rank L (<[p := Some x]> P) bm.
Proof using Hmax.
  intros H Hl Hx. assert (Hp : p < Z.to_nat MAX) by (rewrite <- (lv_len _ _ _ _ H); by eapply lookup_lt_Some).
  rewrite <- (list_insert_id L p l Hl). eapply lv_update; [done..| | |by eapply lv_wf|].
  - split; [|done]. destruct (lv_level _ _ _ _ p H Hp) as (? & q & ? & ? & [? _]). by simplify_eq.
  - intros i. by eapply lv_rank.
  - intros j Hj. case_decide; [subst|done]. by eapply lv_bit.
Qed.

Lemma bit_range p : p < Z.to_nat MAX → (0 ≤ Z.of_nat p < CAPACITY bops)%Z.
Proof using Hmax. lia. Qed.

(** A task is linked to an empty level, or to one that is not. *)
Lemma lv_link_first rank L P bm p i : levels_inv rank L P bm → L !! p = Some [] → rank i = Some p →
  ∃ bm', bm_Set bops bm (Z.of_nat p) = Ok bm' ∧ levels_inv rank (<[p := [i]]> L) (<[p := Some i]> P) bm'.
Proof using Hmax.
  intros H Hl Hr. assert (Hp : p < Z.to_nat MAX) by (rewrite <- (lv_len _ _ _ _ H); by eapply lookup_lt_Some).
  destruct (bm_Set_spec bm (Z.of_nat p) (lv_wf _ _ _ _ H) (bit_range p Hp)) as (bm' & E & Hw & Ht).
  exists bm'. split; [done|]. eapply lv_update; [done|done| | |done|].
  - split; [apply NoDup_singleton|set_solver].
  - intros j ->%list_elem_of_singleton. done.
  - intros j Hj. rewrite Ht by done. case_decide; [subst; by rewrite Z.eqb_refl|].
    by rewrite (proj2 (Z.eqb_neq _ _)) by congruence.
Qed.

Lemma lv_link_more rank L P bm p l i : levels_inv rank L P bm → L !! p = Some l → l ≠ [] →
  (i ∉ l) → rank i = Some p → levels_inv rank (<[p := l ++ [i]]> L) P bm.
Proof using Hmax.
  intros H Hl Hne Hi Hr. assert (Hp : p < Z.to_nat MAX) by (rewrite <- (lv_len _ _ _ _ H); by eapply lookup_lt_Some).
  destruct (lv_level _ _ _ _ p H Hp) as (? & q & ? & Hq & Hn & Hc). simplify_eq.
  rewrite <- (list_insert_id P p q Hq). eapply lv_update; [done|done| | |by eapply lv_wf|].
  - split.
    + apply NoDup_app. split_and!; [done|set_solver|apply NoDup_singleton].
    + destruct q; set_solver.
  - intros j [?| ->%list_elem_of_singleton]%elem_of_app; [by eapply lv_rank|done].
  - intros j Hj. case_decide; [subst|done]. rewrite (lv_bit _ _ _ _ H _ _ Hl).
    rewrite !bool_decide_eq_true_2; [done| |done]. by destruct l.
Qed.

(** A task leaves its level, which becomes empty or does not. *)
Lemma lv_unlink_last rank L P bm p i : levels_inv rank L P bm → L !! p = Some [i] →
  ∃ bm', bm_Clear bops bm (Z.of_nat p) = Ok bm' ∧ levels_inv rank (<[p := []]> L) (<[p := None]> P) bm'.
Proof using Hmax.
  intros H Hl. assert (Hp : p < Z.to_nat MAX) by (rewrite <- (lv_len _ _ _ _ H); by eapply lookup_lt_Some).
  destruct (bm_Clear_spec bm (Z.of_nat p) (lv_wf _ _ _ _ H) (bit_range p Hp)) as (bm' & E & Hw & Ht).
  exists bm'. split; [done|]. eapply lv_update; [done|done| | |done|].
  - split; [constructor|done].
  - set_solver.
  - intros j Hj. rewrite Ht by done. case_decide; [subst; by rewrite Z.eqb_refl|].
    by rewrite (proj2 (Z.eqb_neq _ _)) by congruence.
Qed.

Lemma lv_unlink_more rank L P bm p l i q : levels_inv rank L P bm → L !! p = Some l →
  q ∈ list_remove1 i l → levels_inv rank (<[p := list_remove1 i l]> L) (<[p := Some q]> P) bm.
Proof using Hmax.
  intros H Hl Hq. assert (Hp : p < Z.to_nat MAX) by (rewrite <- (lv_len _ _ _ _ H); by eapply lookup_lt_Some).
  destruct (lv_level _ _ _ _ p H Hp) as (? & q0 & ? & ? & [Hn _]). simplify_eq.
  eapply lv_update; [done|done| | |by eapply lv_wf|].
  - split; [eauto with stk|done].
  - intros j [? _]%elem_of_remove1. by eapply lv_rank.
  - intros j Hj. case_decide; [subst|done]. rewrite (lv_bit _ _ _ _ H _ _ Hl).
    rewrite !bool_decide_eq_true_2; [done| |].
    + intros El. rewrite El in Hq. by apply not_elem_of_nil in Hq.
    + intros ->. by apply not_elem_of_nil in Hq.
Qed.

Lemma lv_frame rank rank' L P bm : levels_inv rank L P bm →
  (∀ i, i ∈ concat L → rank' i = rank i) → levels_inv rank' L P bm.
Proof using.
  intros [HL HP Hok Hrk Hwf Hbit Hhi] Hr. split; try done. intros p l i Hl Hi.
  rewrite Hr; [by eapply Hrk|]. apply elem_of_concat. eauto.
Qed.

(** The bitmap finds the highest level that has a task. *)
Lemma lv_empty rank L P bm : levels_inv rank L P bm → bm_IsEmpty bops bm = true ↔ concat L = [].
Proof using Hmax.
  intros H. rewrite bm_IsEmpty_spec by (by eapply lv_wf). split.
  - intros Ht. destruct (concat L) as [|x k] eqn:E; [done|].
    assert (x ∈ concat L) as (p & l & Hl & Hx)%elem_of_concat by (rewrite E; left).
    assert (Hp : p < Z.to_nat MAX) by (rewrite <- (lv_len _ _ _ _ H); by eapply lookup_lt_Some).
    specialize (Ht _ (bit_range p Hp)). rewrite (lv_bit _ _ _ _ H _ _ Hl) in Ht.
    apply bool_decide_eq_false in Ht. destruct l; [by apply not_elem_of_nil in Hx|]. by destruct Ht.
  - intros E j Hj. destruct (decide (j < MAX)%Z) as [Hlt|]; [|apply (lv_high _ _ _ _ H); lia].
    destruct (lv_level _ _ _ _ (Z.to_nat j) H) as (l & _ & Hl & _); [lia|].
    rewrite <- (Z2Nat.id j), (lv_bit _ _ _ _ H _ _ Hl) by lia. apply bool_decide_eq_false.
    intros Hne. destruct l as [|x k]; [done|]. assert (x ∈ concat L) as Hx; [|by rewrite E in Hx; apply not_elem_of_nil in Hx].
    apply elem_of_concat. exists (Z.to_nat j), (x :: k). split; [done|left].
Qed.

Lemma lv_highest rank L P bm : levels_inv rank L P bm → concat L ≠ [] →
  bm_IsEmpty bops bm = false ∧
  ∃ h l q, bm_HighestSet bops bm = Ok (Z.of_nat h) ∧ h < Z.to_nat MAX ∧ L !! h = Some l ∧
    P !! h = Some (Some q) ∧ NoDup l ∧ q ∈ l ∧
    ∀ i p, i ∈ concat L → rank i = Some p → p ≤ h.
Proof using Hmax.
  intros H Hne. assert (He : bm_IsEmpty bops bm = false).
  { destruct (bm_IsEmpty bops bm) eqn:E; [|done]. by apply (lv_empty _ _ _ _ H) in E. }
  split; [done|]. destruct (bm_HighestSet_spec bm (lv_wf _ _ _ _ H) He) as (b & E & Hb & Hbt & Hab).
  assert (HbM : (b < MAX)%Z).
  { destruct (decide (b < MAX)%Z); [done|]. rewrite (lv_high _ _ _ _ H) in Hbt by lia. done. }
  destruct (lv_level _ _ _ _ (Z.to_nat b) H) as (l & q & Hl & Hq & Hn & Hc); [lia|].
  assert (Hlne : l ≠ []).
  { assert (Hbit := lv_bit _ _ _ _ H _ _ Hl). rewrite Z2Nat.id, Hbt in Hbit by lia.
    symmetry in Hbit. by apply bool_decide_eq_true in Hbit. }
  destruct q as [q|]; [|done]. exists (Z.to_nat b), l, q. rewrite Z2Nat.id by lia.
  split_and!; try done; [lia|].
  intros i p Hi Hr. destruct (lv_find _ _ _ _ i H Hi) as (p' & k & _ & Hr' & Hp & Hk & _ & _ & Hik).
  rewrite Hr in Hr'. injection Hr' as <-. destruct (decide (p ≤ Z.to_nat b)); [done|].
  specialize (Hab (Z.of_nat p) ltac:(lia)). rewrite (lv_bit _ _ _ _ H _ _ Hk) in Hab.
  apply bool_decide_eq_false in Hab. destruct k; [by apply not_elem_of_nil in Hik|]. by destruct Hab.
Qed.
End levels.

End Levels.
