(* ===== verification/FixedPriority.v ===== *)
(** * Fixed-priority scheduling ([stk_strategy_fpriority.h])

    [SwitchStrategyFixedPriority<MAX_PRIORITIES, NoSleepYield, ReadyBitmap>]: the
    weight of a task is its priority; the highest non-empty level is served in
    round robin.  The definitions take the bitmap operations as the code takes
    the [ReadyBitmap] template parameter, and the theorems hold for every
    instance of [BitmapSpec]. *)

From S2P Require Import Prelude PriorityBitmap KernelTask Strategy Levels RoundRobin.
Import PBitmap KTask Strat Levels.

Module FixedPriority.

Record FP (B : Type) := mkFP {
  m_tasks : list (list nat);
  m_sleep : list nat;
  m_ready_bitmap : B;
  m_prev : list (option nat);
}.
Global Arguments mkFP {B}.
Global Arguments m_tasks {B}.
Global Arguments m_sleep {B}.
Global Arguments m_ready_bitmap {B}.
Global Arguments m_prev {B}.

Section strategy.
Context {B : Type} (bops : BitmapOps B) (MAX_PRIORITIES : Z) (NoSleepYield : bool).
Implicit Types s : FP B.
Notation tasks := (list KernelTask) (only parsing).

Definition EConfig : StrategyConfig :=
  mkStrategyConfig true true false true NoSleepYield false.

Definition FP_ctor : FP B :=
  mkFP (replicate (Z.to_nat MAX_PRIORITIES) []) [] (bm_ctor bops)
       (replicate (Z.to_nat MAX_PRIORITIES) None).

Definition in_sleep s (i : nat) : bool := bool_decide (i ∈ m_sleep s).
Definition linked s (i : nat) : bool := bool_decide (i ∈ concat (m_tasks s)) || in_sleep s i.
(** [task->GetHead() == &m_tasks[prio]]. *)
Definition in_level s (prio : Z) (i : nat) : res bool :=
  l ← aget (m_tasks s) prio; Ok (bool_decide (i ∈ l)).

Definition IsWeightValid (weight : Z) : bool :=
  bool_decide (0 ≤ weight)%Z && bool_decide (weight < MAX_PRIORITIES)%Z.
Definition GetTaskPriorityFromWeight (weight : Z) : Z := u16 weight.
Definition GetTaskPriority (c : KernelCfg) (t : KernelTask) : res Z :=
  w ← GetWeight c t; Ok (GetTaskPriorityFromWeight w).
Definition GetHighestReadyPriority (bm : B) : res Z :=
  h ← bm_HighestSet bops bm; Ok (u16 h).

Definition GetSize s : Z :=
  foldl (λ total l, total + Size l)%Z (Size (m_sleep s)) (m_tasks s).

Definition AddActive (c : KernelCfg) (ts : tasks) (i : nat) s : res (FP B) :=
  t ← get ts i;
  prio ← GetTaskPriority c t;
  l ← aget (m_tasks s) prio;
  l ← LinkBack (linked s i) l i;
  L ← aset (m_tasks s) prio l;
  if bool_decide (Size l = 1%Z) then
    P ← aset (m_prev s) prio (Some i);
    bm ← bm_Set bops (m_ready_bitmap s) prio;
    Ok (mkFP L (m_sleep s) bm P)
  else Ok (mkFP L (m_sleep s) (m_ready_bitmap s) (m_prev s)).

Definition RemoveActive (i : nat) (prio : Z) s : res (FP B) :=
  l ← aget (m_tasks s) prio;
  next ← Next l i;
  l ← Unlink l i;
  L ← aset (m_tasks s) prio l;
  cur ← aget (m_prev s) prio;
  if bool_decide (next = i) then
    P ← aset (m_prev s) prio None;
    bm ← bm_Clear bops (m_ready_bitmap s) prio;
    Ok (mkFP L (m_sleep s) bm P)
  else if bool_decide (cur = Some i) then
    q ← Prev l next;
    P ← aset (m_prev s) prio (Some q);
    Ok (mkFP L (m_sleep s) (m_ready_bitmap s) P)
  else Ok (mkFP L (m_sleep s) (m_ready_bitmap s) (m_prev s)).

Definition AddTask (c : KernelCfg) (i : nat) (st : tasks * FP B) : res (tasks * FP B) :=
  let '(ts, s) := st in
  assert! negb (linked s i);
  t ← get ts i;
  w ← GetWeight c t;
  assert! IsWeightValid w;
  prio ← GetTaskPriority c t;
  cur ← aget (m_prev s) prio;
  l ← aget (m_tasks s) prio;
  let is_tail := bool_decide (cur = last l) in
  s ← AddActive c ts i s;
  if is_tail then
    P ← aset (m_prev s) prio (Some i);
    Ok (ts, mkFP (m_tasks s) (m_sleep s) (m_ready_bitmap s) P)
  else Ok (ts, s).

Definition RemoveTask (c : KernelCfg) (i : nat) (st : tasks * FP B) : res (tasks * FP B) :=
  let '(ts, s) := st in
  assert! negb (bool_decide (GetSize s = 0%Z));
  t ← get ts i;
  prio ← GetTaskPriority c t;
  here ← in_level s prio i;
  assert! (here || in_sleep s i);
  if in_sleep s i then
    l ← Unlink (m_sleep s) i; Ok (ts, mkFP (m_tasks s) l (m_ready_bitmap s) (m_prev s))
  else s ← RemoveActive i prio s; Ok (ts, s).

Definition GetNext (c : KernelCfg) (st : tasks * FP B) : res (option nat * (tasks * FP B)) :=
  let '(ts, s) := st in
  if negb (bm_IsEmpty bops (m_ready_bitmap s)) then
    prio ← GetHighestReadyPriority (m_ready_bitmap s);
    cur ← aget (m_prev s) prio;
    cur ← deref cur;
    l ← aget (m_tasks s) prio;
    next ← Next l cur;
    P ← aset (m_prev s) prio (Some next);
    Ok (Some next, (ts, mkFP (m_tasks s) (m_sleep s) (m_ready_bitmap s) P))
  else Ok (None, (ts, s)).

Definition GetFirst (c : KernelCfg) (st : tasks * FP B) : res (option nat) :=
  let '(ts, s) := st in
  assert! negb (bool_decide (GetSize s = 0%Z));
  if bm_IsEmpty bops (m_ready_bitmap s) then Ok (head (m_sleep s))
  else prio ← GetHighestReadyPriority (m_ready_bitmap s);
       l ← aget (m_tasks s) prio; Ok (head l).

Definition OnTaskSleep (c : KernelCfg) (i : nat) (st : tasks * FP B) : res (tasks * FP B) :=
  let '(ts, s) := st in
  t ← get ts i;
  assert! IsSleeping t;
  prio ← GetTaskPriority c t;
  here ← in_level s prio i;
  assert! here;
  s ← RemoveActive i prio s;
  l ← LinkBack (linked s i) (m_sleep s) i;
  Ok (ts, mkFP (m_tasks s) l (m_ready_bitmap s) (m_prev s)).

Definition OnTaskWake (c : KernelCfg) (i : nat) (st : tasks * FP B) : res (tasks * FP B) :=
  let '(ts, s) := st in
  t ← get ts i;
  assert! negb (IsSleeping t);
  assert! in_sleep s i;
  l ← Unlink (m_sleep s) i;
  s ← AddActive c ts i (mkFP (m_tasks s) l (m_ready_bitmap s) (m_prev s));
  Ok (ts, s).

Definition OnTaskWeightChange (c : KernelCfg) (i : nat) (old_weight : Z) (st : tasks * FP B)
  : res (tasks * FP B) :=
  let '(ts, s) := st in
  let old_prio := GetTaskPriorityFromWeight old_weight in
  t ← get ts i;
  w ← GetWeight c t;
  assert! IsWeightValid w;
  assert! IsWeightValid old_weight;
  if negb (in_sleep s i) then
    here ← in_level s old_prio i;
    assert! here;
    s ← RemoveActive i old_prio s;
    s ← AddActive c ts i s;
    Ok (ts, s)
  else Ok (ts, s).

Definition OnTaskYield (c : KernelCfg) (i : nat) (st : tasks * FP B) : res (bool * (tasks * FP B)) :=
  let '(ts, s) := st in
  if NoSleepYield then
    t ← get ts i;
    prio ← GetTaskPriority c t;
    here ← in_level s prio i;
    if (here : bool) then
      P ← aset (m_prev s) prio (Some i);
      Ok (true, (ts, mkFP (m_tasks s) (m_sleep s) (m_ready_bitmap s) P))
    else Ok (false, (ts, s))
  else Ok (false, (ts, s)).

Definition FPOps : StrategyOps (FP B) :=
  mkStrategyOps (FP B) EConfig FP_ctor AddTask RemoveTask GetNext GetFirst GetSize
    OnTaskSleep OnTaskWake OnTaskYield OnTaskTimeSlice_default OnTaskDeadlineMissed_default
    OnTaskWeightChange.
End strategy.

(** ** Invariant *)

Section invariant.
Context {B : Type} (bops : BitmapOps B) `{!BitmapSpec bops} (MAX : Z) (nsy : bool).
(** The static assertions of the constructor. *)
Context (Hmax : (1 ≤ MAX ≤ CAPACITY bops)%Z) (Hmax16 : (MAX ≤ 32768)%Z).
Implicit Types s : FP B.

(** The level of a task, when its weight is a valid priority. *)
Definition task_rank (c : KernelCfg) (ts : list KernelTask) (i : nat) : option nat :=
  t ← ts !! i;
  match GetWeight c t with
  | Ok w => if bool_decide (0 ≤ w < MAX)%Z then Some (Z.to_nat w) else None
  | Panic _ => None
  end.

Record fp_inv (c : KernelCfg) (ts : list KernelTask) s : Prop := {
  fp_levels : levels_inv bops MAX (task_rank c ts) (m_tasks s) (m_prev s) (m_ready_bitmap s);
  fp_sleep : Forall (λ i, is_Some (task_rank c ts i)) (m_sleep s);
  fp_nodup : NoDup (concat (m_tasks s) ++ m_sleep s);
}.

Lemma task_rank_weight c ts i p : task_rank c ts i = Some p →
  ∃ t, ts !! i = Some t ∧ GetWeight c t = Ok (Z.of_nat p) ∧ p < Z.to_nat MAX ∧
    GetTaskPriority c t = Ok (Z.of_nat p).
Proof using Hmax Hmax16.
  unfold task_rank, GetTaskPriority. destruct (ts !! i) as [t|] eqn:E; [|done]. cbn.
  destruct (GetWeight c t) as [w|] eqn:Ew; [|done]. case_bool_decide as Hw; [|done]. intros [= <-].
  exists t. rewrite Ew. cbn. unfold GetTaskPriorityFromWeight, u16.
  rewrite Z2Nat.id, Z.mod_small by lia. split_and!; [done..|lia|done].
Qed.

Lemma weight_valid w : (0 ≤ w < MAX)%Z → IsWeightValid MAX w = true.
Proof using. intros. unfold IsWeightValid. rewrite !bool_decide_eq_true_2 by lia. done. Qed.

Lemma fp_linked_false s i : (i ∉ concat (m_tasks s)) → (i ∉ m_sleep s) → linked s i = false.
Proof using. intros. unfold linked, in_sleep. by rewrite !bool_decide_eq_false_2. Qed.

Lemma fp_GetSize_spec s : GetSize s = Z.of_nat (length (concat (m_tasks s) ++ m_sleep s)).
Proof using.
  unfold GetSize. assert (H : ∀ (L : list (list nat)) n,
    foldl (λ total l, total + Size l)%Z n L = (n + Z.of_nat (length (concat L)))%Z).
  { induction L as [|l L IH]; intros n; cbn; [lia|]. rewrite IH. unfold Size. rewrite length_app. lia. }
  rewrite H. unfold Size. rewrite length_app. lia.
Qed.

Lemma fp_in_level_ok s p l i : m_tasks s !! p = Some l →
  in_level s (Z.of_nat p) i = Ok (bool_decide (i ∈ l)).
Proof using. intros H. unfold in_level, aget. by rewrite Nat2Z.id, H. Qed.

(** [AddActive] and [RemoveActive] on the structure of the levels. *)
Lemma fp_AddActive_ok c ts s i p : levels_inv bops MAX (task_rank c ts) (m_tasks s) (m_prev s) (m_ready_bitmap s) →
  task_rank c ts i = Some p → (i ∉ concat (m_tasks s)) → (i ∉ m_sleep s) →
  ∃ s' l, AddActive bops c ts i s = Ok s' ∧ m_sleep s' = m_sleep s ∧ m_tasks s !! p = Some l ∧
    m_tasks s' = <[p := l ++ [i]]> (m_tasks s) ∧ length (m_prev s') = Z.to_nat MAX ∧
    levels_inv bops MAX (task_rank c ts) (m_tasks s') (m_prev s') (m_ready_bitmap s') ∧
    concat (m_tasks s') ≡ₚ i :: concat (m_tasks s).
Proof using Hmax Hmax16.
  intros H Hr Hi Hs. destruct (task_rank_weight _ _ _ _ Hr) as (t & Ht & _ & Hp & Hprio).
  destruct (lv_level _ _ _ _ _ _ p H Hp) as (l & q & Hl & Hq & Hok).
  unfold AddActive, get, aget. rewrite Ht. cbn [deref mbind res_bind]. rewrite Hprio. cbn [mbind res_bind].
  rewrite Nat2Z.id, Hl. cbn [deref mbind res_bind]. rewrite fp_linked_false by done.
  cbn [LinkBack negb stk_assert mbind res_bind].
  rewrite !aset_ok, !Nat2Z.id by (rewrite Nat2Z.id, ?(lv_len _ _ _ _ _ _ H), ?(lv_plen _ _ _ _ _ _ H); lia).
  cbn [mbind res_bind].
  assert (Hperm : concat (<[p := l ++ [i]]> (m_tasks s)) ≡ₚ i :: concat (m_tasks s))
    by (apply (concat_insert_perm _ _ l _ [i] Hl); by rewrite Permutation_app_comm).
  unfold Size. case_bool_decide as Hsz.
  - assert (l = []) as -> by (destruct l; [done|]; rewrite length_app in Hsz; cbn in Hsz; lia).
    destruct (lv_link_first bops MAX Hmax _ _ _ _ p i H Hl Hr) as (bm' & -> & H'). cbn.
    eexists _, []. split_and!; try done. apply (lv_plen _ _ _ _ _ _ H').
  - eexists _, l. assert (H' : levels_inv bops MAX (task_rank c ts) (<[p := l ++ [i]]> (m_tasks s)) (m_prev s) (m_ready_bitmap s)).
    { apply lv_link_more; [done|done|done|by destruct l| |done].
      intros ?. apply Hi, elem_of_concat. eauto. }
    split_and!; try done. apply (lv_plen _ _ _ _ _ _ H').
Qed.

Lemma fp_RemoveActive_ok rank s i p l : levels_inv bops MAX rank (m_tasks s) (m_prev s) (m_ready_bitmap s) →
  m_tasks s !! p = Some l → i ∈ l →
  ∃ s', RemoveActive bops i (Z.of_nat p) s = Ok s' ∧ m_sleep s' = m_sleep s ∧
    levels_inv bops MAX rank (m_tasks s') (m_prev s') (m_ready_bitmap s') ∧
    m_tasks s' = <[p := list_remove1 i l]> (m_tasks s) ∧
    concat (m_tasks s') = list_remove1 i (concat (m_tasks s)).
Proof using Hmax Hmax16.
  intros H Hl Hi. assert (Hp : p < Z.to_nat MAX) by (rewrite <- (lv_len _ _ _ _ _ _ H); by eapply lookup_lt_Some).
  assert (Hc := concat_remove1_perm _ _ _ _ Hl (lv_nodup _ _ _ _ _ _ H) Hi).
  destruct (lv_level _ _ _ _ _ _ p H Hp) as (l' & q & Hl' & Hq & Hn & Hcur). simplify_eq.
  unfold RemoveActive, aget. rewrite Nat2Z.id, Hl. cbn [deref mbind res_bind].
  destruct (Next_ok _ _ Hi Hn) as (n & -> & En & Hnin). cbn [mbind res_bind].
  rewrite Unlink_ok by done. cbn [mbind res_bind].
  rewrite !aset_ok, !Nat2Z.id by (rewrite Nat2Z.id, ?(lv_len _ _ _ _ _ _ H), ?(lv_plen _ _ _ _ _ _ H); lia).
  cbn [mbind res_bind]. rewrite Hq. cbn [deref mbind res_bind].
  destruct q as [q|]; [|by rewrite Hcur in Hi; apply not_elem_of_nil in Hi].
  case_bool_decide as Eni.
  { subst n. assert (l = [i]) as El by (by eapply cnext_self).
    rewrite El in *. assert (list_remove1 i [i] = []) as Er by (apply (remove1_mid i [] []); set_solver).
    rewrite Er in *. destruct (lv_unlink_last bops MAX Hmax _ _ _ _ p i H Hl) as (bm' & -> & H'). cbn.
    eexists. split_and!; done. }
  case_bool_decide as Eq.
  - simplify_eq. destruct (ring_after_cursor _ _ _ Hi Hn En Eni) as (q & Eq & Hqin & _).
    unfold Prev. rewrite Eq. cbn [deref mbind res_bind].
    rewrite aset_ok, Nat2Z.id by (rewrite Nat2Z.id, (lv_plen _ _ _ _ _ _ H); lia). cbn.
    eexists. split_and!; [done..| |done|done]. by apply lv_unlink_more.
  - eexists. split_and!; [done..| |done|done]. cbn. rewrite <- (list_insert_id _ _ _ Hq).
    apply lv_unlink_more; [done..|]. rewrite elem_of_remove1. split; [done|]. congruence.
Qed.

(** ** Each operation on the invariant *)

Lemma rank_of c ts i t w : ts !! i = Some t → GetWeight c t = Ok w → (0 ≤ w < MAX)%Z →
  task_rank c ts i = Some (Z.to_nat w).
Proof using. intros Ht Hw Hr. unfold task_rank. rewrite Ht. cbn. by rewrite Hw, bool_decide_eq_true_2. Qed.

Lemma fp_AddTask c ts s i p : fp_inv c ts s → task_rank c ts i = Some p →
  (i ∉ concat (m_tasks s) ++ m_sleep s) →
  ∃ s', AddTask bops MAX c i (ts, s) = Ok (ts, s') ∧ fp_inv c ts s' ∧
    concat (m_tasks s') ≡ₚ i :: concat (m_tasks s) ∧ m_sleep s' = m_sleep s.
Proof using Hmax Hmax16.
  intros [H Hs Hn] Hr Hni. assert (Hni' := Hni). apply not_elem_of_app in Hni' as [H1 H2].
  destruct (task_rank_weight _ _ _ _ Hr) as (t & Ht & Hw & Hp & Hprio).
  destruct (lv_level _ _ _ _ _ _ p H Hp) as (l & q & Hl & Hq & _).
  unfold AddTask, get, aget. rewrite fp_linked_false by done. cbn [negb stk_assert].
  rewrite Ht. cbn [deref mbind res_bind]. rewrite Hw. cbn [mbind res_bind].
  rewrite weight_valid by lia. cbn [stk_assert]. rewrite Hprio. cbn [mbind res_bind].
  rewrite Nat2Z.id, Hq, Hl. cbn [deref mbind res_bind].
  destruct (fp_AddActive_ok c ts s i p H Hr H1 H2) as (s1 & l1 & -> & Es & Hl1 & El & Hpl & H' & Hperm).
  cbn [mbind res_bind]. assert (Hnd : NoDup (concat (m_tasks s1) ++ m_sleep s1)).
  { rewrite Es, Hperm. cbn. by constructor. }
  case_bool_decide.
  - rewrite aset_ok, Nat2Z.id by (rewrite Nat2Z.id; lia). cbn. eexists. split; [done|].
    split; [split; cbn; [|by rewrite Es|done]|done]. eapply lv_cursor; [done..| |].
    + rewrite El. apply list_lookup_insert_eq. by eapply lookup_lt_Some.
    + set_solver.
  - exists s1. split_and!; try done. split; [done|by rewrite Es|done].
Qed.

(** What is left of the invariant once a ready task has been unlinked. *)
Lemma fp_unlink c ts s i : fp_inv c ts s → i ∈ concat (m_tasks s) →
  ∃ p t s', task_rank c ts i = Some p ∧ ts !! i = Some t ∧ GetWeight c t = Ok (Z.of_nat p) ∧
    GetTaskPriority c t = Ok (Z.of_nat p) ∧ (Z.of_nat p < MAX)%Z ∧
    in_level s (Z.of_nat p) i = Ok true ∧ in_sleep s i = false ∧
    RemoveActive bops i (Z.of_nat p) s = Ok s' ∧ fp_inv c ts s' ∧
    concat (m_tasks s') = list_remove1 i (concat (m_tasks s)) ∧ m_sleep s' = m_sleep s.
Proof using Hmax Hmax16.
  intros [H Hs Hn] Hi. destruct (lv_find _ _ _ _ _ _ i H Hi) as (p & l & q & Hr & Hp & Hl & Hq & _ & Hil).
  destruct (task_rank_weight _ _ _ _ Hr) as (t & Ht & Hw & _ & Hprio).
  destruct (fp_RemoveActive_ok _ s i p l H Hl Hil) as (s' & E & Es & H' & _ & Ec).
  assert (Hns : i ∉ m_sleep s) by (apply NoDup_app in Hn as (_ & Hd & _); by apply Hd).
  exists p, t, s'. rewrite (fp_in_level_ok _ _ l) by done. rewrite (bool_decide_eq_true_2 (i ∈ l)) by done.
  unfold in_sleep. rewrite bool_decide_eq_false_2 by done. split_and!; try done; [lia|].
  split; [done|by rewrite Es|]. rewrite Es, Ec. apply NoDup_app in Hn as (? & Hd & ?).
  apply NoDup_app. split_and!; [eauto with stk| |done]. intros x [? _]%elem_of_remove1. by apply Hd.
Qed.

Lemma fp_members_size s i : i ∈ concat (m_tasks s) ++ m_sleep s → GetSize s ≠ 0%Z.
Proof using. rewrite fp_GetSize_spec. destruct (_ ++ _); [by intros ?%not_elem_of_nil|]. done. Qed.

Lemma fp_RemoveTask c ts s i : fp_inv c ts s → i ∈ concat (m_tasks s) ++ m_sleep s →
  ∃ s', RemoveTask bops c i (ts, s) = Ok (ts, s') ∧ fp_inv c ts s' ∧
    concat (m_tasks s') = list_remove1 i (concat (m_tasks s)) ∧ m_sleep s' = list_remove1 i (m_sleep s).
Proof using Hmax Hmax16.
  intros Hi Hin. unfold RemoveTask.
  rewrite (bool_decide_eq_false_2 (GetSize s = 0%Z)) by (by eapply fp_members_size). cbn [negb stk_assert].
  apply elem_of_app in Hin as [Hin|Hin].
  - destruct (fp_unlink c ts s i Hi Hin) as (p & t & s' & _ & Ht & _ & Hprio & _ & Hl & Hns & E & Hi' & Ec & Es).
    unfold get. rewrite Ht. cbn [deref mbind res_bind]. rewrite Hprio. cbn [mbind res_bind].
    rewrite Hl. cbn [mbind res_bind orb stk_assert]. rewrite Hns, E. cbn. exists s'. split_and!; try done.
    rewrite Es. symmetry. eapply remove1_two'; [apply Hi|done].
  - destruct Hi as [H Hs Hn]. rewrite Forall_forall in Hs. destruct (Hs i Hin) as [p Hr].
    destruct (task_rank_weight _ _ _ _ Hr) as (t & Ht & _ & Hp & Hprio).
    destruct (lv_level _ _ _ _ _ _ p H Hp) as (l & q & Hl & _).
    unfold get. rewrite Ht. cbn [deref mbind res_bind]. rewrite Hprio. cbn [mbind res_bind].
    rewrite (fp_in_level_ok _ _ l) by done. cbn [mbind res_bind]. unfold in_sleep.
    rewrite (bool_decide_eq_true_2 (i ∈ m_sleep s)), orb_true_r, Unlink_ok by done. cbn.
    eexists. split; [done|]. apply NoDup_app in Hn as (? & Hd & ?). split_and!; cbn; [split; cbn| |done].
    + done.
    + apply Forall_forall. intros x [? _]%elem_of_remove1. by apply Hs.
    + apply NoDup_app. split_and!; [done| |eauto with stk]. intros x Hx [? _]%elem_of_remove1. by apply (Hd x).
    + symmetry. apply remove1_notin. intros Hx. by apply (Hd i).
Qed.

Lemma fp_OnTaskSleep c ts s i t : fp_inv c ts s → ts !! i = Some t → IsSleeping t = true →
  i ∈ concat (m_tasks s) →
  ∃ s', OnTaskSleep bops c i (ts, s) = Ok (ts, s') ∧ fp_inv c ts s' ∧
    concat (m_tasks s') = list_remove1 i (concat (m_tasks s)) ∧ m_sleep s' = m_sleep s ++ [i].
Proof using Hmax Hmax16.
  intros Hi Ht Hsl Hin.
  destruct (fp_unlink c ts s i Hi Hin) as (p & t' & s' & Hr & Ht' & _ & Hprio & _ & Hl & Hns & E & Hi' & Ec & Es).
  simplify_eq. unfold OnTaskSleep, get. rewrite Ht. cbn [deref mbind res_bind]. rewrite Hsl. cbn [stk_assert].
  rewrite Hprio. cbn [mbind res_bind]. rewrite Hl. cbn [mbind res_bind stk_assert]. rewrite E. cbn [mbind res_bind].
  assert (H1 : i ∉ concat (m_tasks s')) by (rewrite Ec, elem_of_remove1; naive_solver).
  assert (H2 : i ∉ m_sleep s') by (rewrite Es; by apply bool_decide_eq_false in Hns).
  rewrite fp_linked_false by done. cbn. eexists. split; [done|]. destruct Hi' as [H Hs Hn].
  split_and!; cbn; [split; cbn|done|by rewrite Es]; [done| |].
  - apply Forall_app. split; [done|]. by apply Forall_singleton.
  - rewrite app_assoc, (Permutation_app_comm _ [i]). cbn. constructor; [|done]. by apply not_elem_of_app.
Qed.

Lemma fp_OnTaskWake c ts s i t : fp_inv c ts s → ts !! i = Some t → IsSleeping t = false →
  i ∈ m_sleep s →
  ∃ s', OnTaskWake bops c i (ts, s) = Ok (ts, s') ∧ fp_inv c ts s' ∧
    concat (m_tasks s') ≡ₚ i :: concat (m_tasks s) ∧ m_sleep s' = list_remove1 i (m_sleep s).
Proof using Hmax Hmax16.
  intros [H Hs Hn] Ht Hsl Hin. unfold OnTaskWake, get. rewrite Ht. cbn [deref mbind res_bind].
  rewrite Hsl. cbn [negb stk_assert]. unfold in_sleep. rewrite bool_decide_eq_true_2 by done.
  cbn [stk_assert]. rewrite Unlink_ok by done. cbn [mbind res_bind].
  apply NoDup_app in Hn as (Hn1 & Hd & Hn2). rewrite Forall_forall in Hs. destruct (Hs i Hin) as [p Hr].
  destruct (fp_AddActive_ok c ts (mkFP (m_tasks s) (list_remove1 i (m_sleep s)) (m_ready_bitmap s) (m_prev s)) i p)
    as (s' & l & -> & Es & _ & _ & _ & H' & Hperm); cbn in *; [done..| | |].
  { intros ?. by apply (Hd i). }
  { rewrite elem_of_remove1. naive_solver. }
  exists s'. split; [done|]. split_and!; [split|done..]; [done| |].
  - rewrite Es. apply Forall_forall. intros x [? _]%elem_of_remove1. by apply Hs.
  - rewrite Es, Hperm. cbn. constructor; [rewrite elem_of_app, elem_of_remove1; naive_solver|].
    apply NoDup_app. split_and!; [done| |eauto with stk]. intros x Hx [? _]%elem_of_remove1. by apply (Hd x).
Qed.

(** A state of the invariant with the weight of one task changed. *)
Lemma fp_inv_frame c ts ts' s : fp_inv c ts s →
  (∀ i, i ∈ concat (m_tasks s) → task_rank c ts' i = task_rank c ts i) →
  (∀ i, i ∈ m_sleep s → is_Some (task_rank c ts' i)) → fp_inv c ts' s.
Proof using.
  intros [H Hs Hn] H1 H2. split; [by eapply lv_frame|by apply Forall_forall|done].
Qed.

Lemma fp_OnTaskWeightChange c ts s i t t' w w' : fp_inv c ts s → ts !! i = Some t →
  GetWeight c t = Ok w → GetWeight c t' = Ok w' → (0 ≤ w' < MAX)%Z →
  i ∈ concat (m_tasks s) ++ m_sleep s →
  ∃ s', OnTaskWeightChange bops MAX c i w (<[i := t']> ts, s) = Ok (<[i := t']> ts, s') ∧
    fp_inv c (<[i := t']> ts) s' ∧ concat (m_tasks s') ≡ₚ concat (m_tasks s) ∧ m_sleep s' = m_sleep s.
Proof using Hmax Hmax16.
  intros Hi Ht Hw Hw' Hv Hin. assert (Hts : <[i := t']> ts !! i = Some t')
    by (apply list_lookup_insert_eq; by eapply lookup_lt_Some).
  assert (Hr' := rank_of c _ i t' w' Hts Hw' Hv).
  assert (Hfr : ∀ j, j ≠ i → task_rank c (<[i := t']> ts) j = task_rank c ts j).
  { intros j Hj. unfold task_rank. by rewrite list_lookup_insert_ne. }
  unfold OnTaskWeightChange, get. rewrite Hts. cbn [deref mbind res_bind]. rewrite Hw'. cbn [mbind res_bind].
  rewrite weight_valid by done. cbn [stk_assert].
  assert (Hold : IsWeightValid MAX w = true).
  { destruct Hi as [H Hs _]. assert (is_Some (task_rank c ts i)) as [p Hp].
    { apply elem_of_app in Hin as [Hin|Hin]; [|rewrite Forall_forall in Hs; by apply Hs].
      destruct (lv_find _ _ _ _ _ _ i H Hin) as (p & _ & _ & Hp & _). eauto. }
    destruct (task_rank_weight _ _ _ _ Hp) as (t0 & Ht0 & Hw0 & ? & _). simplify_eq. rewrite Hw in Hw0.
    simplify_eq. apply weight_valid. lia. }
  rewrite Hold. cbn [stk_assert]. apply elem_of_app in Hin as [Hin|Hin].
  - destruct (fp_unlink c ts s i Hi Hin) as (p & t0 & s1 & Hr & Ht0 & Hw0 & _ & Hp & Hl & Hns & E & Hi1 & Ec & Es).
    simplify_eq. rewrite Hw in Hw0. injection Hw0 as ->. rewrite Hns. cbn [negb].
    unfold GetTaskPriorityFromWeight, u16. rewrite Z.mod_small by lia.
    rewrite Hl. cbn [mbind res_bind stk_assert]. rewrite E. cbn [mbind res_bind].
    assert (H1 : i ∉ concat (m_tasks s1)) by (rewrite Ec, elem_of_remove1; naive_solver).
    assert (H2 : i ∉ m_sleep s1) by (rewrite Es; by apply bool_decide_eq_false in Hns).
    assert (Hi2 : fp_inv c (<[i := t']> ts) s1).
    { apply (fp_inv_frame c ts); [done|intros j Hj; apply Hfr; by intros ->|].
      intros j Hj. rewrite Hfr by (by intros ->). destruct Hi1 as [_ Hs _].
      rewrite Forall_forall in Hs. by apply Hs. }
    destruct Hi2 as [H2' Hs2 Hn2].
    destruct (fp_AddActive_ok c (<[i := t']> ts) s1 i _ H2' Hr' H1 H2) as (s2 & l & -> & Es2 & _ & _ & _ & H3 & Hperm).
    cbn. exists s2. split; [done|]. split_and!; [split|..].
    + done.
    + by rewrite Es2.
    + rewrite Es2, Hperm. cbn. constructor; [by apply not_elem_of_app|done].
    + rewrite Hperm, Ec. symmetry. apply remove1_perm; [apply (lv_nodup _ _ _ _ _ _ (fp_levels _ _ _ Hi))|done].
    + congruence.
  - unfold in_sleep. rewrite bool_decide_eq_true_2 by done. cbn. exists s. split_and!; try done.
    assert (Hd : ∀ x, x ∈ concat (m_tasks s) → (x ∉ m_sleep s))
      by (destruct Hi as [_ _ Hn]; by apply NoDup_app in Hn as (_ & ? & _)).
    apply (fp_inv_frame c ts); [done|intros j Hj; apply Hfr; intros ->; by apply (Hd i)|].
    intros j Hj. destruct (decide (j = i)) as [->|Hne]; [eauto|]. rewrite Hfr by done.
    destruct Hi as [_ Hs _]. rewrite Forall_forall in Hs. by apply Hs.
Qed.

(** The order in which [GetNext] is going to serve the highest ready level. *)
Definition fp_order s : list nat :=
  if bm_IsEmpty bops (m_ready_bitmap s) then []
  else match bm_HighestSet bops (m_ready_bitmap s) with
       | Ok h => match m_tasks s !! Z.to_nat h, m_prev s !! Z.to_nat h with
                 | Some l, Some (Some q) => ring_after q l
                 | _, _ => []
                 end
       | Panic _ => []
       end.

(** [i] is ready and no ready task has a higher priority. *)
Definition fp_top (c : KernelCfg) (ts : list KernelTask) s (i : nat) : Prop :=
  i ∈ concat (m_tasks s) ∧ ∃ p, task_rank c ts i = Some p ∧
    ∀ j p', j ∈ concat (m_tasks s) → task_rank c ts j = Some p' → p' ≤ p.

(** The highest level and its cursor. *)
Lemma fp_highest c ts s : fp_inv c ts s → concat (m_tasks s) ≠ [] →
  bm_IsEmpty bops (m_ready_bitmap s) = false ∧
  ∃ h l q, GetHighestReadyPriority bops (m_ready_bitmap s) = Ok (Z.of_nat h) ∧
    bm_HighestSet bops (m_ready_bitmap s) = Ok (Z.of_nat h) ∧
    m_tasks s !! h = Some l ∧ m_prev s !! h = Some (Some q) ∧ NoDup l ∧ q ∈ l ∧
    fp_order s = ring_after q l ∧ ∀ i, i ∈ l ↔ fp_top c ts s i.
Proof using Hmax Hmax16.
  intros [H Hs Hn] Hne. destruct (lv_highest bops MAX Hmax _ _ _ _ H Hne) as (He & h & l & q & Eh & Hh & Hl & Hq & Hnd & Hin & Hmaxi).
  split; [done|]. exists h, l, q. unfold fp_order, GetHighestReadyPriority. rewrite He, Eh, Nat2Z.id, Hl, Hq. cbn.
  unfold u16. rewrite Z.mod_small by lia. split_and!; try done. intros i. split.
  - intros Hi. split; [apply elem_of_concat; eauto|]. exists h. split; [by eapply lv_rank|]. intros j p'. apply Hmaxi.
  - intros (Hi & p & Hr & Htop). destruct (lv_find _ _ _ _ _ _ i H Hi) as (p' & l' & _ & Hr' & _ & Hl' & _ & _ & Hil).
    assert (p' = h) as ->; [|by simplify_eq]. simplify_eq.
    assert (p ≤ h) by (by eapply Hmaxi). assert (h ≤ p); [|lia].
    apply (Htop q); [apply elem_of_concat; eauto|by eapply lv_rank].
Qed.

Lemma fp_GetNext c ts s x k : fp_inv c ts s → fp_order s = x :: k →
  ∃ s', GetNext bops c (ts, s) = Ok (Some x, (ts, s')) ∧ fp_inv c ts s' ∧ fp_order s' = k ++ [x] ∧
    m_tasks s' = m_tasks s ∧ m_sleep s' = m_sleep s ∧ x ∈ concat (m_tasks s).
Proof using Hmax Hmax16.
  intros Hi Ho. assert (Hne : concat (m_tasks s) ≠ []).
  { intros E. unfold fp_order in Ho. destruct Hi as [H _ _]. rewrite <- (lv_empty bops MAX Hmax _ _ _ _ H) in E.
    by rewrite E in Ho. }
  destruct (fp_highest c ts s Hi Hne) as (He & h & l & q & Eh & Eh' & Hl & Hq & Hnd & Hin & Hord & _).
  unfold GetNext. rewrite He. cbn [negb]. rewrite Eh. cbn [mbind res_bind]. unfold aget.
  rewrite Nat2Z.id, Hq. cbn [deref mbind res_bind]. rewrite Hl. cbn [deref mbind res_bind].
  rewrite Hord in Ho. unfold Next. rewrite cnext_ring_after, Ho by done. cbn [head deref mbind res_bind].
  destruct (ring_after_step _ _ _ _ Hin Hnd Ho) as [Hx Ex]. assert (Hlt := lookup_lt_Some _ _ _ Hq).
  rewrite aset_ok, Nat2Z.id by (by rewrite Nat2Z.id). cbn.
  eexists. split; [done|]. destruct Hi as [H Hs Hn]. split_and!; cbn; try done.
  - split; cbn; [|done..]. by eapply lv_cursor.
  - unfold fp_order. cbn. by rewrite He, Eh', Nat2Z.id, Hl, list_lookup_insert_eq.
  - apply elem_of_concat. eauto.
Qed.

Lemma fp_order_nil c ts s : fp_inv c ts s → fp_order s = [] → concat (m_tasks s) = [].
Proof using Hmax Hmax16.
  intros Hi Ho. destruct (concat (m_tasks s)) as [|x k] eqn:E; [done|].
  destruct (fp_highest c ts s Hi) as (_ & _ & l & q & _ & _ & _ & _ & _ & Hin & Hord & _); [by rewrite E|].
  rewrite Hord in Ho. assert (Hp := ring_after_perm q l). rewrite Ho in Hp.
  apply Permutation_nil_l in Hp. rewrite <- Hp in Hin. by apply not_elem_of_nil in Hin.
Qed.

Lemma fp_order_spec c ts s : fp_inv c ts s →
  NoDup (fp_order s) ∧ ∀ i, i ∈ fp_order s ↔ fp_top c ts s i.
Proof using Hmax Hmax16.
  intros Hi. destruct (decide (concat (m_tasks s) = [])) as [Ec|Hne].
  - assert (fp_order s = []) as ->.
    { destruct Hi as [H _ _]. rewrite <- (lv_empty bops MAX Hmax _ _ _ _ H) in Ec.
      unfold fp_order. by rewrite Ec. }
    split; [constructor|]. intros i. split; [by intros ?%not_elem_of_nil|]. intros [Hin _].
    rewrite Ec in Hin. by apply not_elem_of_nil in Hin.
  - destruct (fp_highest c ts s Hi Hne) as (_ & _ & l & q & _ & _ & _ & _ & Hn & _ & Ho & Htop).
    rewrite Ho. split; [by rewrite ring_after_perm|]. intros i. rewrite ring_after_perm. apply Htop.
Qed.

Lemma fp_GetNext_none c ts s : fp_inv c ts s → concat (m_tasks s) = [] →
  GetNext bops c (ts, s) = Ok (None, (ts, s)).
Proof using Hmax Hmax16.
  intros [H _ _] E. rewrite <- (lv_empty bops MAX Hmax _ _ _ _ H) in E. unfold GetNext. by rewrite E.
Qed.

Lemma fp_GetFirst c ts s : fp_inv c ts s → concat (m_tasks s) ++ m_sleep s ≠ [] →
  ∃ i, GetFirst bops c (ts, s) = Ok (Some i) ∧ i ∈ concat (m_tasks s) ++ m_sleep s.
Proof using Hmax Hmax16.
  intros Hi Hne. unfold GetFirst. destruct (_ ++ _) as [|x k] eqn:E; [done|].
  rewrite (bool_decide_eq_false_2 (GetSize s = 0%Z)) by (apply (fp_members_size s x); rewrite E; left).
  cbn [negb stk_assert]. rewrite <- E. destruct (decide (concat (m_tasks s) = [])) as [Ec|Ec].
  - destruct Hi as [H _ _]. rewrite (proj2 (lv_empty bops MAX Hmax _ _ _ _ H) Ec). rewrite Ec in *.
    cbn in *. rewrite E. exists x. split; [done|left].
  - destruct (fp_highest c ts s Hi Ec) as (He & h & l & q & Eh & _ & Hl & _ & _ & Hin & _).
    rewrite He, Eh. cbn [mbind res_bind]. unfold aget. rewrite Nat2Z.id, Hl. cbn.
    destruct l as [|y l]; [by apply not_elem_of_nil in Hin|]. exists y. split; [done|].
    apply elem_of_app. left. apply elem_of_concat. exists h, (y :: l). split; [done|left].
Qed.

Lemma fp_OnTaskYield c ts s i : fp_inv c ts s → i ∈ concat (m_tasks s) ++ m_sleep s →
  ∃ b s', OnTaskYield nsy c i (ts, s) = Ok (b, (ts, s')) ∧ fp_inv c ts s' ∧
    m_tasks s' = m_tasks s ∧ m_sleep s' = m_sleep s.
Proof using Hmax Hmax16.
  intros Hi Hin. unfold OnTaskYield. destruct nsy; [|by exists false, s].
  destruct Hi as [H Hs Hn]. assert (is_Some (task_rank c ts i)) as [p Hr].
  { apply elem_of_app in Hin as [Hin|Hin]; [|rewrite Forall_forall in Hs; by apply Hs].
    destruct (lv_find _ _ _ _ _ _ i H Hin) as (p & _ & _ & Hp & _). eauto. }
  destruct (task_rank_weight _ _ _ _ Hr) as (t & Ht & _ & Hp & Hprio).
  destruct (lv_level _ _ _ _ _ _ p H Hp) as (l & q & Hl & Hq & _).
  unfold get. rewrite Ht. cbn [deref mbind res_bind]. rewrite Hprio. cbn [mbind res_bind].
  rewrite (fp_in_level_ok _ _ l) by done. cbn [mbind res_bind]. case_bool_decide as Hil; [|by exists false, s].
  rewrite aset_ok, Nat2Z.id by (rewrite Nat2Z.id, (lv_plen _ _ _ _ _ _ H); lia). cbn.
  eexists true, _. split; [done|]. split_and!; [split; cbn; [|done..]|done..]. by eapply lv_cursor.
Qed.

#[export] Instance FPOps_spec : StrategySpec (FPOps bops MAX nsy).
Proof using Hmax Hmax16 BitmapSpec0.
  refine {| st_cfg_ok := λ _, True; st_inv := fp_inv; st_ready := λ s, concat (m_tasks s);
            st_asleep := m_sleep;
            st_admissible := λ c t, ∃ w, GetWeight c t = Ok w ∧ (0 ≤ w < MAX)%Z;
            st_weight_ok := λ c t, ∃ w, GetWeight c t = Ok w ∧ (0 ≤ w < MAX)%Z |};
    cbn [st_AddTask st_RemoveTask st_GetNext st_GetFirst st_GetSize st_OnTaskSleep st_OnTaskWake st_OnTaskYield
         st_OnTaskTimeSlice st_OnTaskWeightChange st_ctor FPOps].
  - by intros c ts s [_ _ ?].
  - intros c ts ts' s Hi Hsw.
    assert (Hfr : ∀ i, i ∈ concat (m_tasks s) ++ m_sleep s → is_Some (task_rank c ts i) → task_rank c ts' i = task_rank c ts i).
    { intros i Hin [p Hp]. destruct (task_rank_weight _ _ _ _ Hp) as (t & Ht & _).
      destruct (Hsw i t Hin Ht) as (t' & Ht' & Hs). unfold task_rank. rewrite Ht, Ht'. cbn.
      by rewrite (same_weight_GetWeight c _ _ Hs). }
    apply (fp_inv_frame c ts); [done|..]; destruct Hi as [H Hs _].
    + intros i Hin. apply Hfr; [set_solver|].
      destruct (lv_find _ _ _ _ _ _ i H Hin) as (p & _ & _ & Hp & _). eauto.
    + intros i Hin. rewrite Forall_forall in Hs. rewrite Hfr; [by apply Hs|set_solver|by apply Hs].
  - intros c t t' (w & Hw & ?) Hs. exists w. by rewrite (same_weight_GetWeight c _ _ Hs).
  - intros c ts _. cbn. assert (Ec : ∀ n, concat (replicate n (@nil nat)) = []) by (induction n; done).
    rewrite Ec. split_and!; try done. split; cbn; [by apply lv_init|done|rewrite Ec; constructor].
  - intros c ts s i t _ Hi Ht Hni (w & Hw & Hv).
    destruct (fp_AddTask c ts s i _ Hi (rank_of c ts i t w Ht Hw Hv) Hni) as (s' & ? & ? & ? & Es).
    exists s'. by rewrite Es.
  - intros c ts s i _ Hi Hin. destruct (fp_RemoveTask c ts s i Hi Hin) as (s' & ? & ? & Ec & Es).
    exists s'. by rewrite Ec, Es.
  - intros c ts s _ Hi _. destruct (fp_order s) as [|x k] eqn:Eo.
    + apply (fp_order_nil c ts) in Eo; [|done]. exists None, s. by rewrite fp_GetNext_none.
    + destruct (fp_GetNext c ts s x k Hi Eo) as (s' & ? & ? & _ & Et & Es & ?).
      exists (Some x), s'. by rewrite Et, Es.
  - intros c ts s _ Hi. apply fp_GetFirst, Hi.
  - intros c ts s _. apply fp_GetSize_spec.
  - intros c ts s i t _ Hi Ht Hsl Hin.
    destruct (fp_OnTaskSleep c ts s i t Hi Ht Hsl Hin) as (s' & ? & ? & Ec & Es).
    exists s'. rewrite Ec, Es. split_and!; try done. by rewrite Permutation_app_comm.
  - intros c ts s i t _ Hi Ht Hsl Hin.
    destruct (fp_OnTaskWake c ts s i t Hi Ht Hsl Hin) as (s' & ? & ? & Ec & Es). exists s'. by rewrite Es.
  - intros c ts s i _ Hi Hin. destruct (fp_OnTaskYield c ts s i Hi Hin) as (b & s' & ? & ? & Et & Es).
    exists b, s'. by rewrite Et, Es.
  - intros c ts s i _ Hi _. by exists false, s.
  - intros c ts s i t t' w _ Hi _ Ht Hw (w' & Hw' & Hv) Hin.
    destruct (fp_OnTaskWeightChange c ts s i t t' w w' Hi Ht Hw Hw' Hv Hin) as (s' & ? & ? & ? & Es).
    exists s'. by rewrite Es.
Defined.
End invariant.

(** C12. Strict priority with round robin among equals: as long as nothing else
    happens, [GetNext] serves exactly the ready tasks of the highest priority
    present, each of them once per cycle, in an order that repeats; a task of a
    lower priority is not picked, and none of the array and bitmap accesses of
    the strategy fails.  For every bitmap representation with enough levels. *)
Theorem fp_serves_highest {B} (bops : BitmapOps B) `{!BitmapSpec bops} (MAX : Z) (c : KernelCfg)
    (ts : list KernelTask) (s : FP B) :
  (1 ≤ MAX ≤ CAPACITY bops)%Z → (MAX ≤ 32768)%Z → fp_inv bops MAX c ts s →
  ∃ s', iterate_res (GetNext bops c) (length (fp_order bops s)) (ts, s) =
          Ok (Some <$> fp_order bops s, (ts, s')) ∧
    fp_inv bops MAX c ts s' ∧ fp_order bops s' = fp_order bops s ∧
    NoDup (fp_order bops s) ∧ ∀ i, i ∈ fp_order bops s ↔ fp_top MAX c ts s i.
Proof.
  intros Hmax H16 Hi. destruct (iterate_queue (GetNext bops c) Some
    (λ st, st.1 = ts ∧ fp_inv bops MAX c ts st.2) (λ st, fp_order bops st.2)) with
    (q := fp_order bops s) (r := @nil nat) (s := (ts, s)) as ([ts' s'] & E & (Ets & ?) & ?);
    [|done|by rewrite app_nil_r|].
  { intros [ts1 s1] x q (Ets & Hi1) Ho. cbn in *. subst ts1.
    destruct (fp_GetNext bops MAX Hmax H16 c ts s1 x q Hi1 Ho) as (s2 & ? & ? & ? & _). by exists (ts, s2). }
  cbn in *. subst ts'. exists s'. destruct (fp_order_spec bops MAX Hmax H16 c ts s Hi). done.
Qed.

(** Four tasks on two of four levels. *)
Definition fp_example_cfg : KernelCfg := mkCfg 10 (EConfig false).
Definition fp_example_tasks : list KernelTask :=
  (λ w, with_rt_weight NO_WEIGHT (with_base_weight w KernelTask_ctor)) <$> [1; 3; 1; 3]%Z.
Definition fp_example : FP Z := mkFP [[]; [0; 2]; []; [1; 3]] [] 10%Z [None; Some 0; None; Some 3].

Lemma fp_example_inv : fp_inv U32Bitmap 4 fp_example_cfg fp_example_tasks fp_example.
Proof.
  split; [|constructor|decided]. split; try done.
  - intros p l q Hl Hq. do 4 (destruct p as [|p]; [injection Hl as <-; injection Hq as <-; split; decided|]). done.
  - intros p l i Hl Hi. do 4 (destruct p as [|p]; [injection Hl as <-; set_unfold in Hi; naive_solver|]). done.
  - intros p l Hl. do 4 (destruct p as [|p]; [by injection Hl as <-|]). done.
  - intros p Hp. apply Z.bits_above_log2; cbn in *; lia.
Qed.

Lemma fp_serves_highest_witness :
  ∃ s', iterate_res (GetNext U32Bitmap fp_example_cfg) 2 (fp_example_tasks, fp_example) =
          Ok ([Some 1; Some 3], (fp_example_tasks, s')) ∧
    fp_inv U32Bitmap 4 fp_example_cfg fp_example_tasks s' ∧ fp_order U32Bitmap s' = [1; 3] ∧
    NoDup [1; 3] ∧ ∀ i, i ∈ [1; 3] ↔ fp_top 4 fp_example_cfg fp_example_tasks fp_example i.
Proof.
  apply (fp_serves_highest U32Bitmap 4 fp_example_cfg fp_example_tasks fp_example);
    [cbn; lia|lia|apply fp_example_inv].
Defined.

(** When the weight of a task changes (priority inheritance, or a new base
    priority), the strategy refiles the task under its new priority wherever
    it was: the invariant holds for the new weights, the sets of ready and of
    sleeping tasks are unchanged, and no assertion fails. *)
Theorem fp_weight_change {B} (bops : BitmapOps B) `{!BitmapSpec bops} (MAX : Z) (c : KernelCfg)
    (ts : list KernelTask) (s : FP B) (i : nat) (t t' : KernelTask) (w w' : Z) :
  (1 ≤ MAX ≤ CAPACITY bops)%Z → (MAX ≤ 32768)%Z → fp_inv bops MAX c ts s → ts !! i = Some t →
  GetWeight c t = Ok w → GetWeight c t' = Ok w' → (0 ≤ w' < MAX)%Z →
  i ∈ concat (m_tasks s) ++ m_sleep s →
  ∃ s', OnTaskWeightChange bops MAX c i w (<[i := t']> ts, s) = Ok (<[i := t']> ts, s') ∧
    fp_inv bops MAX c (<[i := t']> ts) s' ∧
    concat (m_tasks s') ≡ₚ concat (m_tasks s) ∧ m_sleep s' = m_sleep s.
Proof. intros Hm H16. by apply fp_OnTaskWeightChange. Qed.

Lemma fp_weight_change_witness :
  let t' := with_rt_weight 3 (with_base_weight 1 KernelTask_ctor) in
  ∃ s', OnTaskWeightChange U32Bitmap 4 fp_example_cfg 0 1 (<[0 := t']> fp_example_tasks, fp_example)
          = Ok (<[0 := t']> fp_example_tasks, s') ∧
    fp_inv U32Bitmap 4 fp_example_cfg (<[0 := t']> fp_example_tasks) s' ∧
    concat (m_tasks s') ≡ₚ [0; 2; 1; 3] ∧ m_sleep s' = [].
Proof.
  apply (fp_weight_change U32Bitmap 4 fp_example_cfg fp_example_tasks fp_example 0
    (with_rt_weight NO_WEIGHT (with_base_weight 1 KernelTask_ctor)) _ 1 3);
    [cbn; lia|lia|apply fp_example_inv|done|done|done|lia|decided].
Defined.

End FixedPriority.
