(* ===== verification/PThreshold.v ===== *)
(** * Preemption-threshold scheduling ([stk_strategy_pthreshold.h])

    [SwitchStrategyPreemptionThreshold<MAX_PRIORITIES, TIMESLICE, ReadyBitmap>]:
    a weight packs a priority [P] and a threshold [T]; a task that is selected
    while [T > P] is held, and only a task of a priority above [T] is served
    before it.  The theorems cover the packing, the safety of every operation
    (as an instance of [StrategySpec]) and the preemption guarantee. *)

From S2P Require Import Prelude PriorityBitmap KernelTask Strategy Levels.
From stdpp Require Import relations.
Import PBitmap KTask Strat Levels.

Module PThreshold.

Record PT (B : Type) := mkPT {
  m_tasks : list (list nat);
  m_sleep : list nat;
  m_ready_bitmap : B;
  m_held_bitmap : B;
  m_advance_bitmap : B;
  m_running : option nat;
  m_prev : list (option nat);
  m_held : list (option nat);
}.
Global Arguments mkPT {B}.
Global Arguments m_tasks {B}.
Global Arguments m_sleep {B}.
Global Arguments m_ready_bitmap {B}.
Global Arguments m_held_bitmap {B}.
Global Arguments m_advance_bitmap {B}.
Global Arguments m_running {B}.
Global Arguments m_prev {B}.
Global Arguments m_held {B}.

(** ** Weights *)

(** [static_cast<int32_t>] of an unsigned 32-bit value. *)
Definition to_i32 (x : Z) : Z := (if bool_decide (u32 x ≤ INT32_MAX) then u32 x else u32 x - 2 ^ 32)%Z.

Definition MakeWeight (priority threshold : Z) : Z := to_i32 (Z.lor (Z.shiftl priority 16) threshold).
Definition DecodePriority (weight : Z) : Z := u16 (Z.land (Z.shiftr (u32 weight) 16) 0xFFFF).
Definition DecodeThreshold (weight : Z) : Z := u16 (Z.land (u32 weight) 0xFFFF).

Section strategy.
Context {B : Type} (bops : BitmapOps B) (MAX_PRIORITIES : Z) (TIMESLICE : bool).
Implicit Types s : PT B.
Notation tasks := (list KernelTask) (only parsing).

Definition EConfig : StrategyConfig := mkStrategyConfig true true false true true TIMESLICE.

Definition FromThreadX (tx_priority tx_threshold : Z) : Z :=
  MakeWeight (u16 ((MAX_PRIORITIES - 1) - tx_priority)) (u16 ((MAX_PRIORITIES - 1) - tx_threshold)).

Definition PT_ctor : PT B :=
  mkPT (replicate (Z.to_nat MAX_PRIORITIES) []) [] (bm_ctor bops) (bm_ctor bops) (bm_ctor bops) None
       (replicate (Z.to_nat MAX_PRIORITIES) None) (replicate (Z.to_nat MAX_PRIORITIES) None).

Definition set_tasks L s := mkPT L (m_sleep s) (m_ready_bitmap s) (m_held_bitmap s) (m_advance_bitmap s) (m_running s) (m_prev s) (m_held s).
Definition set_sleep l s := mkPT (m_tasks s) l (m_ready_bitmap s) (m_held_bitmap s) (m_advance_bitmap s) (m_running s) (m_prev s) (m_held s).
Definition set_ready b s := mkPT (m_tasks s) (m_sleep s) b (m_held_bitmap s) (m_advance_bitmap s) (m_running s) (m_prev s) (m_held s).
Definition set_held_bm b s := mkPT (m_tasks s) (m_sleep s) (m_ready_bitmap s) b (m_advance_bitmap s) (m_running s) (m_prev s) (m_held s).
Definition set_advance b s := mkPT (m_tasks s) (m_sleep s) (m_ready_bitmap s) (m_held_bitmap s) b (m_running s) (m_prev s) (m_held s).
Definition set_running r s := mkPT (m_tasks s) (m_sleep s) (m_ready_bitmap s) (m_held_bitmap s) (m_advance_bitmap s) r (m_prev s) (m_held s).
Definition set_prev P s := mkPT (m_tasks s) (m_sleep s) (m_ready_bitmap s) (m_held_bitmap s) (m_advance_bitmap s) (m_running s) P (m_held s).
Definition set_held H s := mkPT (m_tasks s) (m_sleep s) (m_ready_bitmap s) (m_held_bitmap s) (m_advance_bitmap s) (m_running s) (m_prev s) H.

Definition in_sleep s (i : nat) : bool := bool_decide (i ∈ m_sleep s).
Definition linked s (i : nat) : bool := bool_decide (i ∈ concat (m_tasks s)) || in_sleep s i.
Definition in_level s (prio : Z) (i : nat) : res bool :=
  l ← aget (m_tasks s) prio; Ok (bool_decide (i ∈ l)).

Definition GetTaskPriority (c : KernelCfg) (t : KernelTask) : res Z :=
  w ← GetWeight c t; Ok (DecodePriority w).
Definition GetRawThreshold (c : KernelCfg) (t : KernelTask) : res Z :=
  w ← GetBaseWeight c t; Ok (DecodeThreshold w).
Definition GetTaskThreshold (c : KernelCfg) (t : KernelTask) : res Z :=
  prio ← GetTaskPriority c t;
  thr ← GetRawThreshold c t;
  Ok (if (thr >? prio)%Z then thr else prio).
Definition GetHighestReadyPriority (bm : B) : res Z :=
  h ← bm_HighestSet bops bm; Ok (u16 h).

(** [m_held[prio] = task; Set(m_held_bitmap, prio)] and its converse. *)
Definition hold (prio : Z) (i : nat) s : res (PT B) :=
  H ← aset (m_held s) prio (Some i);
  bm ← bm_Set bops (m_held_bitmap s) prio;
  Ok (set_held_bm bm (set_held H s)).
Definition unhold (prio : Z) s : res (PT B) :=
  H ← aset (m_held s) prio None;
  bm ← bm_Clear bops (m_held_bitmap s) prio;
  Ok (set_held_bm bm (set_held H s)).

Definition GetSize s : Z :=
  foldl (λ total l, total + Size l)%Z (Size (m_sleep s)) (m_tasks s).

Definition AddActive (c : KernelCfg) (ts : tasks) (i : nat) s : res (PT B) :=
  t ← get ts i;
  prio ← GetTaskPriority c t;
  l ← aget (m_tasks s) prio;
  l ← LinkBack (linked s i) l i;
  L ← aset (m_tasks s) prio l;
  let s := set_tasks L s in
  if bool_decide (Size l = 1%Z) then
    P ← aset (m_prev s) prio (Some i);
    bm ← bm_Set bops (m_ready_bitmap s) prio;
    Ok (set_ready bm (set_prev P s))
  else Ok s.

Definition RemoveActive (i : nat) (prio : Z) s : res (PT B) :=
  l ← aget (m_tasks s) prio;
  next ← Next l i;
  l ← Unlink l i;
  L ← aset (m_tasks s) prio l;
  let s := set_tasks L s in
  let s := if bool_decide (m_running s = Some i) then set_running None s else s in
  h ← aget (m_held s) prio;
  s ← (if bool_decide (h = Some i) then unhold prio s else Ok s);
  cur ← aget (m_prev s) prio;
  if bool_decide (next = i) then
    P ← aset (m_prev s) prio None;
    bm ← bm_Clear bops (m_ready_bitmap s) prio;
    let s := set_ready bm (set_prev P s) in
    if TIMESLICE then bm ← bm_Clear bops (m_advance_bitmap s) prio; Ok (set_advance bm s) else Ok s
  else if bool_decide (cur = Some i) then
    q ← Prev l next;
    P ← aset (m_prev s) prio (Some q);
    let s := set_prev P s in
    if TIMESLICE then bm ← bm_Set bops (m_advance_bitmap s) prio; Ok (set_advance bm s) else Ok s
  else Ok s.

Definition UpdateHold (c : KernelCfg) (ts : tasks) (i : nat) (prio : Z) s : res (PT B) :=
  t ← get ts i;
  thr ← GetTaskThreshold c t;
  h ← aget (m_held s) prio;
  if (thr >? prio)%Z then
    if bool_decide (m_running s = Some i) && bool_decide (h = None) then hold prio i s else Ok s
  else if bool_decide (h = Some i) then unhold prio s
  else Ok s.

Definition AddTask (c : KernelCfg) (i : nat) (st : tasks * PT B) : res (tasks * PT B) :=
  let '(ts, s) := st in
  assert! negb (linked s i);
  t ← get ts i;
  prio ← GetTaskPriority c t;
  thr ← GetRawThreshold c t;
  assert! bool_decide (prio < MAX_PRIORITIES)%Z;
  assert! bool_decide (thr < MAX_PRIORITIES)%Z;
  assert! bool_decide (prio ≤ thr)%Z;
  cur ← aget (m_prev s) prio;
  l ← aget (m_tasks s) prio;
  let is_tail := bool_decide (cur = last l) in
  s ← AddActive c ts i s;
  if is_tail && negb TIMESLICE then
    P ← aset (m_prev s) prio (Some i); Ok (ts, set_prev P s)
  else Ok (ts, s).

Definition RemoveTask (c : KernelCfg) (i : nat) (st : tasks * PT B) : res (tasks * PT B) :=
  let '(ts, s) := st in
  assert! negb (bool_decide (GetSize s = 0%Z));
  t ← get ts i;
  prio ← GetTaskPriority c t;
  here ← in_level s prio i;
  assert! (here || in_sleep s i);
  if in_sleep s i then l ← Unlink (m_sleep s) i; Ok (ts, set_sleep l s)
  else s ← RemoveActive i prio s; Ok (ts, s).

(** The holder that may keep the processor: [None] when no task is held or a
    ready task is above its threshold. *)
Definition GetNext_holder (c : KernelCfg) (ts : tasks) (hi : Z) s : res (option nat) :=
  if negb (bm_IsEmpty bops (m_held_bitmap s)) then
    p ← GetHighestReadyPriority (m_held_bitmap s);
    h ← aget (m_held s) p;
    match h with
    | None => Panic PANIC_ASSERT
    | Some holder =>
        t ← get ts holder;
        thr ← GetTaskThreshold c t;
        Ok (if (hi <=? thr)%Z then Some holder else None)
    end
  else Ok None.

(** The selection within the level [hi], when no holder stands against it. *)
Definition GetNext_level (c : KernelCfg) (ts : tasks) (hi : Z) s : res (nat * PT B) :=
  '(advance, s) ← (if TIMESLICE then
                     a ← bm_IsSet bops (m_advance_bitmap s) hi;
                     bm ← bm_Clear bops (m_advance_bitmap s) hi;
                     Ok (a, set_advance bm s)
                   else Ok (true, s));
  cur ← aget (m_prev s) hi;
  cur ← deref cur;
  '(next, s) ← (if (advance : bool) then
                  l ← aget (m_tasks s) hi;
                  next ← Next l cur;
                  P ← aset (m_prev s) hi (Some next);
                  Ok (next, set_prev P s)
                else Ok (cur, s));
  t ← get ts next;
  thr ← GetTaskThreshold c t;
  if (thr >? hi)%Z then s ← hold hi next s; Ok (next, s) else Ok (next, s).

Definition GetNext (c : KernelCfg) (st : tasks * PT B) : res (option nat * (tasks * PT B)) :=
  let '(ts, s) := st in
  '(next, s) ←
    (if negb (bm_IsEmpty bops (m_ready_bitmap s)) then
       hi ← GetHighestReadyPriority (m_ready_bitmap s);
       holder ← GetNext_holder c ts hi s;
       match holder with
       | Some h => Ok (Some h, s)
       | None => '(n, s) ← GetNext_level c ts hi s; Ok (Some n, s)
       end
     else Ok (None, s));
  Ok (next, (ts, set_running next s)).

Definition GetFirst (c : KernelCfg) (st : tasks * PT B) : res (option nat) :=
  let '(ts, s) := st in
  assert! negb (bool_decide (GetSize s = 0%Z));
  if bm_IsEmpty bops (m_ready_bitmap s) then Ok (head (m_sleep s))
  else prio ← GetHighestReadyPriority (m_ready_bitmap s);
       l ← aget (m_tasks s) prio; Ok (head l).

Definition OnTaskSleep (c : KernelCfg) (i : nat) (st : tasks * PT B) : res (tasks * PT B) :=
  let '(ts, s) := st in
  t ← get ts i;
  assert! IsSleeping t;
  prio ← GetTaskPriority c t;
  here ← in_level s prio i;
  assert! here;
  s ← RemoveActive i prio s;
  l ← LinkBack (linked s i) (m_sleep s) i;
  Ok (ts, set_sleep l s).

Definition OnTaskWake (c : KernelCfg) (i : nat) (st : tasks * PT B) : res (tasks * PT B) :=
  let '(ts, s) := st in
  t ← get ts i;
  assert! negb (IsSleeping t);
  assert! in_sleep s i;
  l ← Unlink (m_sleep s) i;
  s ← AddActive c ts i (set_sleep l s);
  Ok (ts, s).

Definition OnTaskWeightChange (c : KernelCfg) (i : nat) (old_weight : Z) (st : tasks * PT B)
  : res (tasks * PT B) :=
  let '(ts, s) := st in
  let old_prio := DecodePriority old_weight in
  t ← get ts i;
  new_prio ← GetTaskPriority c t;
  assert! bool_decide (new_prio < MAX_PRIORITIES)%Z;
  assert! bool_decide (old_prio < MAX_PRIORITIES)%Z;
  if negb (in_sleep s i) then
    here ← in_level s old_prio i;
    assert! here;
    if bool_decide (old_prio = new_prio) then
      s ← UpdateHold c ts i new_prio s; Ok (ts, s)
    else
      h ← aget (m_held s) old_prio;
      let was_held := bool_decide (h = Some i) in
      s ← RemoveActive i old_prio s;
      s ← AddActive c ts i s;
      thr ← GetTaskThreshold c t;
      h ← aget (m_held s) new_prio;
      if was_held && (thr >? new_prio)%Z && bool_decide (h = None)
      then s ← hold new_prio i s; Ok (ts, s) else Ok (ts, s)
  else Ok (ts, s).

Definition OnTaskYield (c : KernelCfg) (i : nat) (st : tasks * PT B) : res (bool * (tasks * PT B)) :=
  let '(ts, s) := st in
  t ← get ts i;
  prio ← GetTaskPriority c t;
  here ← (if bool_decide (prio < MAX_PRIORITIES)%Z then in_level s prio i else Ok false);
  if (here : bool) then
    h ← aget (m_held s) prio;
    s ← (if bool_decide (h = Some i) then unhold prio s else Ok s);
    P ← aset (m_prev s) prio (Some i);
    let s := set_prev P s in
    if TIMESLICE then
      bm ← bm_Set bops (m_advance_bitmap s) prio; Ok (true, (ts, set_advance bm s))
    else Ok (true, (ts, s))
  else Ok (false, (ts, s)).

Definition OnTaskTimeSlice (c : KernelCfg) (i : nat) (st : tasks * PT B) : res (bool * (tasks * PT B)) :=
  let '(ts, s) := st in
  if TIMESLICE then
    t ← get ts i;
    prio ← GetTaskPriority c t;
    rotate ← (if bool_decide (prio < MAX_PRIORITIES)%Z then
                l ← aget (m_tasks s) prio;
                h ← aget (m_held s) prio;
                Ok (bool_decide (i ∈ l) && bool_decide (h ≠ Some i) && (Size l >? 1)%Z)
              else Ok false);
    if (rotate : bool) then
      P ← aset (m_prev s) prio (Some i);
      bm ← bm_Set bops (m_advance_bitmap s) prio;
      Ok (true, (ts, set_advance bm (set_prev P s)))
    else Ok (false, (ts, s))
  else Ok (false, (ts, s)).

Definition PTOps : StrategyOps (PT B) :=
  mkStrategyOps (PT B) EConfig PT_ctor AddTask RemoveTask GetNext GetFirst GetSize
    OnTaskSleep OnTaskWake OnTaskYield OnTaskTimeSlice OnTaskDeadlineMissed_default
    OnTaskWeightChange.
End strategy.

(** ** The packing of weights *)

Lemma lor_shift p t : (0 ≤ t < 65536)%Z → Z.lor (Z.shiftl p 16) t = (p * 65536 + t)%Z.
Proof.
  intros Ht. assert (Hd : Z.land (Z.shiftl p 16) t = 0%Z).
  { apply Z.bits_inj'. intros i Hi. rewrite Z.land_spec, Z.bits_0, Z.shiftl_spec by done.
    destruct (decide (i < 16)%Z); [by rewrite Z.testbit_neg_r by lia|].
    rewrite (testbit_range 16 t i) by lia. apply andb_false_r. }
  rewrite <- Z.lxor_lor, <- Z.add_nocarry_lxor by done. rewrite Z.shiftl_mul_pow2 by lia. done.
Qed.

Lemma MakeWeight_u32 p t : (0 ≤ p < 65536)%Z → (0 ≤ t < 65536)%Z →
  u32 (MakeWeight p t) = (p * 65536 + t)%Z.
Proof.
  intros Hp Ht. unfold MakeWeight, to_i32. rewrite lor_shift by done.
  assert (E : u32 (p * 65536 + t) = (p * 65536 + t)%Z) by (unfold u32; apply Z.mod_small; lia).
  rewrite E. case_bool_decide; [done|]. unfold u32.
  rewrite <- (Z_mod_plus_full _ 1), Z.sub_add. apply Z.mod_small. lia.
Qed.

Lemma Decode_u32 w p t : u32 w = (p * 65536 + t)%Z → (0 ≤ p < 65536)%Z → (0 ≤ t < 65536)%Z →
  DecodePriority w = p ∧ DecodeThreshold w = t.
Proof.
  intros E Hp Ht. unfold DecodePriority, DecodeThreshold, u16. rewrite E.
  change 0xFFFF%Z with (Z.ones 16). rewrite !Z.land_ones, Z.shiftr_div_pow2 by lia.
  change (2 ^ 16)%Z with 65536%Z. rewrite Z.div_add_l, Z.div_small, Z.add_0_r by lia.
  rewrite (Z.add_comm (p * 65536)), Z_mod_plus_full, !Z.mod_mod, !Z.mod_small by lia. done.
Qed.

Lemma DecodePriority_range w : (0 ≤ DecodePriority w < 65536)%Z.
Proof. unfold DecodePriority, u16. apply Z.mod_pos_bound. lia. Qed.

(** The packed weight is a faithful encoding: decoding returns the priority
    and the threshold it was made of, and for legal priorities the order of
    weights, which priority inheritance compares, is the lexicographic order
    of (priority, threshold). *)
Theorem weight_packing (p t p' t' : Z) :
  (0 ≤ p < 32768)%Z → (0 ≤ t < 65536)%Z → (0 ≤ p' < 32768)%Z → (0 ≤ t' < 65536)%Z →
  DecodePriority (MakeWeight p t) = p ∧ DecodeThreshold (MakeWeight p t) = t ∧
  (0 ≤ MakeWeight p t ≤ INT32_MAX)%Z ∧
  ((MakeWeight p t < MakeWeight p' t')%Z ↔ (p < p' ∨ p = p' ∧ t < t')%Z).
Proof.
  intros Hp Ht Hp' Ht'.
  assert (H : ∀ a b, (0 ≤ a < 32768)%Z → (0 ≤ b < 65536)%Z → MakeWeight a b = (a * 65536 + b)%Z).
  { intros a b Ha Hb. unfold MakeWeight, to_i32. rewrite lor_shift by done. unfold u32.
    rewrite Z.mod_small by lia. rewrite bool_decide_eq_true_2; [done|]. unfold INT32_MAX. lia. }
  destruct (Decode_u32 (MakeWeight p t) p t) as [E1 E2]; [apply MakeWeight_u32; lia|lia..|].
  rewrite !H by lia. rewrite H in E1, E2 by lia. unfold INT32_MAX. split_and!; [done|done|lia..].
Qed.

Lemma weight_packing_witness :
  DecodePriority (MakeWeight 5 9) = 5%Z ∧ DecodeThreshold (MakeWeight 5 9) = 9%Z ∧
  (0 ≤ MakeWeight 5 9 ≤ INT32_MAX)%Z ∧
  ((MakeWeight 5 9 < MakeWeight 6 2)%Z ↔ (5 < 6 ∨ 5 = 6 ∧ 9 < 2)%Z).
Proof. apply (weight_packing 5 9 6 2); lia. Defined.

(** ** Invariant *)

Section invariant.
Context {B : Type} (bops : BitmapOps B) `{!BitmapSpec bops} (MAX : Z) (TS : bool).
Context (Hmax : (1 ≤ MAX ≤ CAPACITY bops)%Z) (Hmax16 : (MAX ≤ 32768)%Z).
Implicit Types s : PT B.
Implicit Types ts : list KernelTask.

(** Priority and effective threshold of a task. *)
Definition task_rank (c : KernelCfg) ts (i : nat) : option nat :=
  t ← ts !! i;
  match GetTaskPriority c t, GetTaskThreshold c t with
  | Ok p, Ok _ => if bool_decide (p < MAX)%Z then Some (Z.to_nat p) else None
  | _, _ => None
  end.
Definition task_thr (c : KernelCfg) ts (i : nat) : option Z :=
  t ← ts !! i; match GetTaskThreshold c t with Ok x => Some x | Panic _ => None end.

(** The holders: at most one per level, ready, with a threshold above the level. *)
Record held_inv (c : KernelCfg) ts (L : list (list nat)) (H : list (option nat)) (bm : B) : Prop := {
  h_len : length H = Z.to_nat MAX;
  h_wf : bm_wf bm;
  h_bit p h : H !! p = Some h → bm_test bm (Z.of_nat p) = bool_decide (h ≠ None);
  h_high p : (MAX ≤ p < CAPACITY bops)%Z → bm_test bm p = false;
  h_in p x : H !! p = Some (Some x) → ∃ l, L !! p = Some l ∧ x ∈ l;
  h_thr p x : H !! p = Some (Some x) → ∃ T, task_thr c ts x = Some T ∧ (Z.of_nat p < T)%Z;
}.

Record pt_inv (c : KernelCfg) ts s : Prop := {
  pt_levels : levels_inv bops MAX (task_rank c ts) (m_tasks s) (m_prev s) (m_ready_bitmap s);
  pt_held : held_inv c ts (m_tasks s) (m_held s) (m_held_bitmap s);
  pt_adv : bm_wf (m_advance_bitmap s);
  pt_run r : m_running s = Some r → r ∈ concat (m_tasks s);
  pt_sleep : Forall (λ i, is_Some (task_rank c ts i)) (m_sleep s);
  pt_nodup : NoDup (concat (m_tasks s) ++ m_sleep s);
}.

Lemma task_rank_spec c ts i p : task_rank c ts i = Some p →
  ∃ t T, ts !! i = Some t ∧ GetTaskPriority c t = Ok (Z.of_nat p) ∧ GetTaskThreshold c t = Ok T ∧
    task_thr c ts i = Some T ∧ p < Z.to_nat MAX ∧ (Z.of_nat p ≤ T)%Z.
Proof using Hmax Hmax16.
  unfold task_rank, task_thr. destruct (ts !! i) as [t|] eqn:E; [|done]. cbn.
  destruct (GetTaskPriority c t) as [w|] eqn:Ew; [|done].
  destruct (GetTaskThreshold c t) as [T|] eqn:ET; [|done].
  assert (Hr : (0 ≤ w)%Z) by (unfold GetTaskPriority in Ew; inv_res; apply DecodePriority_range).
  case_bool_decide as Hw; [|done]. intros [= <-]. exists t, T.
  rewrite Z2Nat.id by done. split_and!; try done; [lia|].
  unfold GetTaskThreshold in ET. rewrite Ew in ET. cbn in ET. inv_res. case_match; lia.
Qed.

Lemma pt_in_level_ok s p l i : m_tasks s !! p = Some l →
  in_level s (Z.of_nat p) i = Ok (bool_decide (i ∈ l)).
Proof using. intros H. unfold in_level, aget. by rewrite Nat2Z.id, H. Qed.

Lemma pt_linked_false s i : (i ∉ concat (m_tasks s)) → (i ∉ m_sleep s) → linked s i = false.
Proof using. intros. unfold linked, in_sleep. by rewrite !bool_decide_eq_false_2. Qed.

Lemma pt_GetSize_spec s : GetSize s = Z.of_nat (length (concat (m_tasks s) ++ m_sleep s)).
Proof using.
  unfold GetSize. assert (H : ∀ (L : list (list nat)) n,
    foldl (λ total l, total + Size l)%Z n L = (n + Z.of_nat (length (concat L)))%Z).
  { induction L as [|l L IH]; intros n; cbn; [lia|]. rewrite IH. unfold Size. rewrite length_app. lia. }
  rewrite H. unfold Size. rewrite length_app. lia.
Qed.

Lemma pt_members_size s i : i ∈ concat (m_tasks s) ++ m_sleep s → GetSize s ≠ 0%Z.
Proof using. rewrite pt_GetSize_spec. destruct (_ ++ _); [by intros ?%not_elem_of_nil|]. done. Qed.

(** ** Holders *)

Lemma held_update c ts L H bm p h' bm' : held_inv c ts L H bm → p < Z.to_nat MAX → bm_wf bm' →
  (∀ j, (0 ≤ j < CAPACITY bops)%Z →
     bm_test bm' j = if decide (j = Z.of_nat p) then bool_decide (h' ≠ None) else bm_test bm j) →
  (∀ x, h' = Some x → (∃ l, L !! p = Some l ∧ x ∈ l) ∧
     ∃ T, task_thr c ts x = Some T ∧ (Z.of_nat p < T)%Z) →
  held_inv c ts L (<[p := h']> H) bm'.
Proof using Hmax.
  intros [HL Hwf Hbit Hhi Hin Hth] Hp Hw Ht Hx. split; rewrite ?length_insert; try done.
  - intros p' h Hh. assert (p' < Z.to_nat MAX) by (rewrite <- HL; apply lookup_lt_Some in Hh; by rewrite length_insert in Hh).
    rewrite Ht by lia. apply list_lookup_insert_Some in Hh as [(<- & <- & _)|[Hne Hh]].
    + by rewrite decide_True.
    + rewrite decide_False by lia. by apply Hbit.
  - intros j Hj. rewrite Ht, decide_False by lia. by apply Hhi.
  - intros p' x [(<- & -> & _)|[_ Hh]]%list_lookup_insert_Some; [by apply Hx|by apply Hin].
  - intros p' x [(<- & -> & _)|[_ Hh]]%list_lookup_insert_Some; [by apply Hx|by apply Hth].
Qed.

Lemma hold_ok c ts s p l x T : held_inv c ts (m_tasks s) (m_held s) (m_held_bitmap s) →
  m_tasks s !! p = Some l → x ∈ l → p < Z.to_nat MAX → task_thr c ts x = Some T → (Z.of_nat p < T)%Z →
  ∃ bm', hold bops (Z.of_nat p) x s = Ok (set_held_bm bm' (set_held (<[p := Some x]> (m_held s)) s)) ∧
    held_inv c ts (m_tasks s) (<[p := Some x]> (m_held s)) bm'.
Proof using Hmax.
  intros H Hl Hx Hp HT HpT. unfold hold.
  rewrite aset_ok, Nat2Z.id by (rewrite Nat2Z.id, (h_len _ _ _ _ _ H); lia). cbn [mbind res_bind].
  destruct (bm_Set_spec (m_held_bitmap s) (Z.of_nat p) (h_wf _ _ _ _ _ H) (bit_range bops MAX Hmax p Hp))
    as (bm' & -> & Hw & Ht).
  exists bm'. split; [done|]. eapply held_update; [done..| |].
  - intros j Hj. rewrite Ht by done. case_decide; [subst; by rewrite Z.eqb_refl|].
    by rewrite (proj2 (Z.eqb_neq _ _)) by congruence.
  - intros ? [= <-]. split; [by exists l|by exists T].
Qed.

Lemma unhold_ok c ts s p : held_inv c ts (m_tasks s) (m_held s) (m_held_bitmap s) → p < Z.to_nat MAX →
  ∃ bm', unhold bops (Z.of_nat p) s = Ok (set_held_bm bm' (set_held (<[p := None]> (m_held s)) s)) ∧
    held_inv c ts (m_tasks s) (<[p := None]> (m_held s)) bm'.
Proof using Hmax.
  intros H Hp. unfold unhold.
  rewrite aset_ok, Nat2Z.id by (rewrite Nat2Z.id, (h_len _ _ _ _ _ H); lia). cbn [mbind res_bind].
  destruct (bm_Clear_spec (m_held_bitmap s) (Z.of_nat p) (h_wf _ _ _ _ _ H) (bit_range bops MAX Hmax p Hp))
    as (bm' & -> & Hw & Ht).
  exists bm'. split; [done|]. eapply held_update; [done..| |done].
  intros j Hj. rewrite Ht by done. case_decide; [subst; by rewrite Z.eqb_refl|].
  by rewrite (proj2 (Z.eqb_neq _ _)) by congruence.
Qed.

Lemma held_frame c ts ts' L L' H bm : held_inv c ts L H bm →
  (∀ p x l, H !! p = Some (Some x) → L !! p = Some l → x ∈ l →
     (∃ T, task_thr c ts x = Some T ∧ (Z.of_nat p < T)%Z) →
     (∃ T, task_thr c ts' x = Some T ∧ (Z.of_nat p < T)%Z) ∧ ∃ l', L' !! p = Some l' ∧ x ∈ l') →
  held_inv c ts' L' H bm.
Proof using.
  intros [HL Hwf Hbit Hhi Hin Hth] Hf. split; try done.
  - intros p x Hx. destruct (Hin p x Hx) as (l & Hl & Hxl). by apply (Hf p x l); [..|apply Hth].
  - intros p x Hx. destruct (Hin p x Hx) as (l & Hl & Hxl). by apply (Hf p x l); [..|apply Hth].
Qed.

(** ** [AddActive] and [RemoveActive] *)

Lemma pt_AddActive_ok c ts s i p :
  levels_inv bops MAX (task_rank c ts) (m_tasks s) (m_prev s) (m_ready_bitmap s) →
  task_rank c ts i = Some p → (i ∉ concat (m_tasks s)) → (i ∉ m_sleep s) →
  ∃ l P bm, AddActive bops c ts i s = Ok (set_ready bm (set_prev P (set_tasks (<[p := l ++ [i]]> (m_tasks s)) s))) ∧
    m_tasks s !! p = Some l ∧
    levels_inv bops MAX (task_rank c ts) (<[p := l ++ [i]]> (m_tasks s)) P bm ∧
    concat (<[p := l ++ [i]]> (m_tasks s)) ≡ₚ i :: concat (m_tasks s).
Proof using Hmax Hmax16.
  intros H Hr Hi Hs. destruct (task_rank_spec _ _ _ _ Hr) as (t & T & Ht & Hprio & _ & _ & Hp & _).
  destruct (lv_level _ _ _ _ _ _ p H Hp) as (l & q & Hl & Hq & Hok).
  unfold AddActive, get, aget. rewrite Ht. cbn [deref mbind res_bind]. rewrite Hprio. cbn [mbind res_bind].
  rewrite Nat2Z.id, Hl. cbn [deref mbind res_bind]. rewrite pt_linked_false by done.
  cbn [LinkBack negb stk_assert mbind res_bind].
  rewrite !aset_ok, !Nat2Z.id by (rewrite Nat2Z.id, ?(lv_len _ _ _ _ _ _ H); lia). cbn [mbind res_bind].
  assert (Hperm : concat (<[p := l ++ [i]]> (m_tasks s)) ≡ₚ i :: concat (m_tasks s))
    by (apply (concat_insert_perm _ _ l _ [i] Hl); by rewrite Permutation_app_comm).
  unfold Size. case_bool_decide as Hsz.
  - assert (l = []) as -> by (destruct l; [done|]; rewrite length_app in Hsz; cbn in Hsz; lia).
    destruct (lv_link_first bops MAX Hmax _ _ _ _ p i H Hl Hr) as (bm' & Eb & H').
    cbn [set_tasks m_prev m_ready_bitmap].
    rewrite aset_ok, Nat2Z.id by (rewrite Nat2Z.id, (lv_plen _ _ _ _ _ _ H); lia). cbn [mbind res_bind].
    rewrite Eb. cbn. eexists [], _, bm'. split_and!; done.
  - exists l, (m_prev s), (m_ready_bitmap s). split_and!; try done.
    apply lv_link_more; [done|done|done|by destruct l| |done]. intros ?. apply Hi, elem_of_concat. eauto.
Qed.

(** What [RemoveActive] leaves of the holders and of the running task. *)
Definition drop_held (p i : nat) (H : list (option nat)) : list (option nat) :=
  if decide (H !! p = Some (Some i)) then <[p := None]> H else H.
Definition drop_running (i : nat) (r : option nat) : option nat :=
  if decide (r = Some i) then None else r.

(** The steps of [RemoveActive] up to the cursor. *)
Lemma remove_held c ts s i p l : p < Z.to_nat MAX → m_tasks s !! p = Some l → NoDup l →
  levels_inv bops MAX (task_rank c ts) (m_tasks s) (m_prev s) (m_ready_bitmap s) →
  held_inv c ts (m_tasks s) (m_held s) (m_held_bitmap s) →
  let s1 := set_tasks (<[p := list_remove1 i l]> (m_tasks s)) s in
  let s1 := if bool_decide (m_running s1 = Some i) then set_running None s1 else s1 in
  ∃ h bm', aget (m_held s1) (Z.of_nat p) = Ok h ∧
    (if bool_decide (h = Some i) then unhold bops (Z.of_nat p) s1 else Ok s1) =
      Ok (set_held_bm bm' (set_held (drop_held p i (m_held s))
           (set_running (drop_running i (m_running s)) (set_tasks (<[p := list_remove1 i l]> (m_tasks s)) s)))) ∧
    held_inv c ts (<[p := list_remove1 i l]> (m_tasks s)) (drop_held p i (m_held s)) bm'.
Proof using Hmax Hmax16.
  intros Hp Hl Hn HL H s1 s2.
  assert (E1 : s2 = set_running (drop_running i (m_running s)) (set_tasks (<[p := list_remove1 i l]> (m_tasks s)) s)).
  { unfold s2, s1, drop_running. cbn. case_bool_decide; case_decide; done || by destruct s. }
  rewrite E1. cbn [m_held set_running set_tasks]. unfold aget, drop_held. rewrite Nat2Z.id.
  destruct (lookup_lt_is_Some_2 (m_held s) p) as [h Hh]; [by rewrite (h_len _ _ _ _ _ H)|].
  exists h. rewrite Hh. cbn [deref mbind res_bind].
  assert (Hsame : ∀ p' x l', m_held s !! p' = Some (Some x) → m_tasks s !! p' = Some l' → x ∈ l' →
    (p' = p → x ≠ i) → ∃ k, <[p := list_remove1 i l]> (m_tasks s) !! p' = Some k ∧ x ∈ k).
  { intros p' x l' _ Hl' Hx Hne. destruct (decide (p' = p)) as [->|].
    - simplify_eq. exists (list_remove1 i l). rewrite list_lookup_insert_eq by (by eapply lookup_lt_Some).
      split; [done|]. rewrite elem_of_remove1. auto.
    - exists l'. by rewrite list_lookup_insert_ne. }
  case_bool_decide as Eh.
  - subst h. rewrite decide_True by done.
    destruct (unhold_ok c ts (set_running (drop_running i (m_running s)) s) p H Hp) as (bm' & E & H').
    exists bm'. cbn in *. split; [done|]. split.
    + unfold unhold in *. cbn in *. by destruct (aset _ _ _); [|done]; cbn in *; destruct (bm_Clear _ _ _); [|done]; cbn in *; simplify_eq.
    + eapply held_frame; [done|]. intros p' x l' Hx Hl' Hxl HT. split; [done|]. apply (Hsame p' x l'); try done.
      * apply list_lookup_insert_Some in Hx as [(? & ? & _)|[_ ?]]; done.
      * intros ->. apply list_lookup_insert_Some in Hx as [(_ & ? & _)|[? _]]; done.
  - rewrite decide_False by congruence. exists (m_held_bitmap s). split; [done|]. split; [by destruct s|].
    eapply held_frame; [done|]. intros p' x l' Hx Hl' Hxl HT. split; [done|]. apply (Hsame p' x l'); try done.
    intros -> ->. congruence.
Qed.

Lemma pt_RemoveActive_ok c ts s i p l :
  levels_inv bops MAX (task_rank c ts) (m_tasks s) (m_prev s) (m_ready_bitmap s) →
  held_inv c ts (m_tasks s) (m_held s) (m_held_bitmap s) → bm_wf (m_advance_bitmap s) →
  m_tasks s !! p = Some l → i ∈ l →
  ∃ s', RemoveActive bops TS i (Z.of_nat p) s = Ok s' ∧ m_sleep s' = m_sleep s ∧
    levels_inv bops MAX (task_rank c ts) (m_tasks s') (m_prev s') (m_ready_bitmap s') ∧
    held_inv c ts (m_tasks s') (m_held s') (m_held_bitmap s') ∧ bm_wf (m_advance_bitmap s') ∧
    m_held s' = drop_held p i (m_held s) ∧ m_running s' = drop_running i (m_running s) ∧
    concat (m_tasks s') = list_remove1 i (concat (m_tasks s)).
Proof using Hmax Hmax16.
  intros H HH Ha Hl Hi. assert (Hp : p < Z.to_nat MAX) by (rewrite <- (lv_len _ _ _ _ _ _ H); by eapply lookup_lt_Some).
  assert (Hc := concat_remove1_perm _ _ _ _ Hl (lv_nodup _ _ _ _ _ _ H) Hi).
  destruct (lv_level _ _ _ _ _ _ p H Hp) as (l' & q & Hl' & Hq & Hn & Hcur). simplify_eq.
  unfold RemoveActive. rewrite (aget_ok _ _ l) by (by rewrite Nat2Z.id). cbn [mbind res_bind].
  destruct (Next_ok _ _ Hi Hn) as (n & -> & En & Hnin). cbn [mbind res_bind].
  rewrite Unlink_ok by done. cbn [mbind res_bind].
  rewrite aset_ok, Nat2Z.id by (rewrite Nat2Z.id, (lv_len _ _ _ _ _ _ H); lia). cbn [mbind res_bind].
  destruct (remove_held c ts s i p l Hp Hl Hn H HH) as (h & bm' & Eh & Eu & HH'). cbv zeta in Eh, Eu.
  rewrite Eh. cbn [mbind res_bind]. rewrite Eu. cbn [mbind res_bind m_prev set_held_bm set_held set_running set_tasks].
  rewrite (aget_ok _ _ q) by (by rewrite Nat2Z.id). cbn [mbind res_bind].
  assert (Hset : ∀ x, aset (m_prev s) (Z.of_nat p) x = Ok (<[p := x]> (m_prev s)))
    by (intros x; rewrite aset_ok, Nat2Z.id by (rewrite Nat2Z.id, (lv_plen _ _ _ _ _ _ H); lia); done).
  assert (Hbr := bit_range bops MAX Hmax p Hp). clear Eh Eu.
  destruct q as [q|]; [|by rewrite Hcur in Hi; apply not_elem_of_nil in Hi].
  case_bool_decide as Eni.
  { subst n. assert (l = [i]) as El by (by eapply cnext_self).
    assert (list_remove1 i l = []) as Er by (rewrite El; apply (remove1_mid i [] []); set_solver).
    rewrite Hset. cbn [mbind res_bind m_ready_bitmap set_held_bm set_held set_running set_tasks]. rewrite El in Hl.
    destruct (lv_unlink_last bops MAX Hmax _ _ _ _ p i H Hl) as (bm & -> & H'). rewrite Er in *.
    cbn [mbind res_bind m_advance_bitmap set_ready set_prev set_held_bm set_held set_running set_tasks].
    destruct TS.
    - destruct (bm_Clear_spec _ _ Ha Hbr) as (a & -> & Hwa & _). cbn. eexists. split_and!; done.
    - eexists. split_and!; done. }
  case_bool_decide as Eq.
  - simplify_eq. destruct (ring_after_cursor _ _ _ Hi Hn En Eni) as (q & Eq & Hqin & _).
    unfold Prev. rewrite Eq. cbn [deref mbind res_bind]. rewrite Hset.
    cbn [mbind res_bind m_advance_bitmap set_prev set_held_bm set_held set_running set_tasks].
    assert (H' := lv_unlink_more bops MAX Hmax _ _ _ _ p l i q H Hl Hqin). destruct TS.
    + destruct (bm_Set_spec _ _ Ha Hbr) as (a & -> & Hwa & _). cbn. eexists. split_and!; done.
    + eexists. split_and!; done.
  - eexists. split_and!; try done. cbn. rewrite <- (list_insert_id _ _ _ Hq).
    apply lv_unlink_more; [done..|]. rewrite elem_of_remove1. split; [done|]. congruence.
Qed.

(** ** Each operation on the invariant *)

Lemma pt_member_rank c ts s i : pt_inv c ts s → i ∈ concat (m_tasks s) ++ m_sleep s →
  is_Some (task_rank c ts i).
Proof using.
  intros Hi Hin. apply elem_of_app in Hin as [Hin|Hin].
  - destruct (lv_find _ _ _ _ _ _ i (pt_levels _ _ _ Hi) Hin) as (p & _ & _ & Hp & _). eauto.
  - assert (Hs := pt_sleep _ _ _ Hi). rewrite Forall_forall in Hs. by apply Hs.
Qed.

Lemma pt_add c ts s i p : pt_inv c ts s → task_rank c ts i = Some p →
  (i ∉ concat (m_tasks s) ++ m_sleep s) →
  ∃ s' l, AddActive bops c ts i s = Ok s' ∧ pt_inv c ts s' ∧
    concat (m_tasks s') ≡ₚ i :: concat (m_tasks s) ∧ m_sleep s' = m_sleep s ∧
    m_tasks s' !! p = Some (l ++ [i]) ∧ m_held s' = m_held s ∧ m_running s' = m_running s.
Proof using Hmax Hmax16.
  intros [H HH Ha Hrun Hs Hn] Hr Hni. assert (Hni' := Hni). apply not_elem_of_app in Hni' as [H1 H2].
  destruct (pt_AddActive_ok c ts s i p H Hr H1 H2) as (l & P & bm & E & Hl & H' & Hperm).
  eexists _, l. split; [exact E|]. split_and!; cbn; try done.
  - split; cbn; try done.
    + eapply held_frame; [done|]. intros p' x l' _ Hl' Hx HT. split; [done|].
      destruct (decide (p' = p)) as [->|].
      * simplify_eq. exists (l ++ [i]). rewrite list_lookup_insert_eq by (by eapply lookup_lt_Some). set_solver.
      * exists l'. by rewrite list_lookup_insert_ne.
    + intros r Hr'. rewrite Hperm. right. by apply Hrun.
    + rewrite Hperm. cbn. by constructor.
  - apply list_lookup_insert_eq. by eapply lookup_lt_Some.
Qed.

Lemma pt_AddTask c ts s i t p b T : pt_inv c ts s → (i ∉ concat (m_tasks s) ++ m_sleep s) →
  ts !! i = Some t → GetTaskPriority c t = Ok p → GetRawThreshold c t = Ok b → GetTaskThreshold c t = Ok T →
  (p ≤ b < MAX)%Z →
  ∃ s', AddTask bops MAX TS c i (ts, s) = Ok (ts, s') ∧ pt_inv c ts s' ∧
    concat (m_tasks s') ≡ₚ i :: concat (m_tasks s) ∧ m_sleep s' = m_sleep s ∧ m_held s' = m_held s.
Proof using Hmax Hmax16.
  intros Hi Hni Ht Ep Eb ET Hb. assert (Hni' := Hni). apply not_elem_of_app in Hni' as [H1 H2].
  assert (Hr : task_rank c ts i = Some (Z.to_nat p))
    by (unfold task_rank; rewrite Ht; cbn; rewrite Ep, ET, bool_decide_eq_true_2 by lia; done).
  destruct (task_rank_spec _ _ _ _ Hr) as (t0 & T0 & Ht0 & Ep0 & _ & _ & Hp & _). simplify_eq. rewrite Ep in Ep0.
  injection Ep0 as Ez. rewrite Ez in Hp.
  destruct (lv_level _ _ _ _ _ _ (Z.to_nat p) (pt_levels _ _ _ Hi)) as (l & q & Hl & Hq & _); [lia|].
  unfold AddTask, get. rewrite pt_linked_false by done. cbn [negb stk_assert].
  rewrite Ht. cbn [deref mbind res_bind]. rewrite Ep, Eb. cbn [mbind res_bind].
  rewrite !bool_decide_eq_true_2 by lia. cbn [stk_assert].
  rewrite (aget_ok _ _ q Hq), (aget_ok _ _ l Hl). cbn [mbind res_bind].
  destruct (pt_add c ts s i _ Hi Hr Hni) as (s1 & l1 & -> & Hi1 & Hperm & Es & Hl1 & Eh & _). cbn [mbind res_bind].
  destruct (bool_decide (q = last l) && negb TS); [|by exists s1].
  rewrite aset_ok by (rewrite (lv_plen _ _ _ _ _ _ (pt_levels _ _ _ Hi1)); lia). cbn.
  eexists. split; [done|]. split_and!; try done. destruct Hi1 as [H HH Ha Hrun Hs Hn]. split; cbn; try done.
  eapply lv_cursor; [done..|set_solver].
Qed.

Lemma pt_unlink c ts s i : pt_inv c ts s → i ∈ concat (m_tasks s) →
  ∃ p t s', task_rank c ts i = Some p ∧ ts !! i = Some t ∧ GetTaskPriority c t = Ok (Z.of_nat p) ∧
    (Z.of_nat p < MAX)%Z ∧ in_level s (Z.of_nat p) i = Ok true ∧ in_sleep s i = false ∧
    RemoveActive bops TS i (Z.of_nat p) s = Ok s' ∧ pt_inv c ts s' ∧
    concat (m_tasks s') = list_remove1 i (concat (m_tasks s)) ∧ m_sleep s' = m_sleep s ∧
    m_held s' = drop_held p i (m_held s) ∧ m_running s' = drop_running i (m_running s).
Proof using Hmax Hmax16.
  intros [H HH Ha Hrun Hs Hn] Hi.
  destruct (lv_find _ _ _ _ _ _ i H Hi) as (p & l & q & Hr & Hp & Hl & Hq & _ & Hil).
  destruct (task_rank_spec _ _ _ _ Hr) as (t & T & Ht & Hprio & _).
  destruct (pt_RemoveActive_ok c ts s i p l H HH Ha Hl Hil) as (s' & E & Es & H' & HH' & Ha' & Eh & Er & Ec).
  assert (Hns : i ∉ m_sleep s) by (apply NoDup_app in Hn as (_ & Hd & _); by apply Hd).
  exists p, t, s'. rewrite (pt_in_level_ok _ _ l) by done. rewrite (bool_decide_eq_true_2 (i ∈ l)) by done.
  unfold in_sleep. rewrite bool_decide_eq_false_2 by done. split_and!; try done; [lia|].
  split; try done.
  - intros r. rewrite Er, Ec, elem_of_remove1. unfold drop_running. case_decide; [done|]. intros Er'.
    split; [by apply Hrun|congruence].
  - by rewrite Es.
  - rewrite Es, Ec. apply NoDup_app in Hn as (? & Hd & ?).
    apply NoDup_app. split_and!; [eauto with stk| |done]. intros x [? _]%elem_of_remove1. by apply Hd.
Qed.

Lemma pt_sleep_remove c ts s i : pt_inv c ts s → i ∈ m_sleep s →
  pt_inv c ts (set_sleep (list_remove1 i (m_sleep s)) s) ∧
  (i ∉ concat (m_tasks s) ++ list_remove1 i (m_sleep s)).
Proof using.
  intros [H HH Ha Hrun Hs Hn] Hin. apply NoDup_app in Hn as (Hn1 & Hd & Hn2).
  split; [split; cbn; try done|].
  - rewrite Forall_forall in Hs |- *. intros x [? _]%elem_of_remove1. by apply Hs.
  - apply NoDup_app. split_and!; [done| |eauto with stk]. intros x Hx [? _]%elem_of_remove1. by apply (Hd x).
  - rewrite elem_of_app, elem_of_remove1. intros [?|[_ ?]]; [by apply (Hd i)|done].
Qed.

Lemma pt_RemoveTask c ts s i : pt_inv c ts s → i ∈ concat (m_tasks s) ++ m_sleep s →
  ∃ s', RemoveTask bops TS c i (ts, s) = Ok (ts, s') ∧ pt_inv c ts s' ∧
    concat (m_tasks s') = list_remove1 i (concat (m_tasks s)) ∧ m_sleep s' = list_remove1 i (m_sleep s) ∧
    (∃ p, m_held s' = drop_held p i (m_held s)).
Proof using Hmax Hmax16.
  intros Hi Hin. unfold RemoveTask.
  rewrite (bool_decide_eq_false_2 (GetSize s = 0%Z)) by (by eapply pt_members_size). cbn [negb stk_assert].
  apply elem_of_app in Hin as [Hin|Hin].
  - destruct (pt_unlink c ts s i Hi Hin) as (p & t & s' & _ & Ht & Hprio & _ & Hl & Hns & E & Hi' & Ec & Es & Eh & _).
    unfold get. rewrite Ht. cbn [deref mbind res_bind]. rewrite Hprio. cbn [mbind res_bind].
    rewrite Hl. cbn [mbind res_bind orb stk_assert]. rewrite Hns, E. cbn. exists s'. split_and!; try done; [|eauto].
    rewrite Es. symmetry. eapply remove1_two'; [apply Hi|done].
  - destruct (pt_member_rank c ts s i Hi) as [p Hr]; [set_solver|].
    destruct (task_rank_spec _ _ _ _ Hr) as (t & T & Ht & Hprio & _ & _ & Hp & _).
    destruct (lv_level _ _ _ _ _ _ p (pt_levels _ _ _ Hi) Hp) as (l & q & Hl & _).
    unfold get. rewrite Ht. cbn [deref mbind res_bind]. rewrite Hprio. cbn [mbind res_bind].
    rewrite (pt_in_level_ok _ _ l) by done. cbn [mbind res_bind]. unfold in_sleep.
    rewrite (bool_decide_eq_true_2 (i ∈ m_sleep s)), orb_true_r, Unlink_ok by done. cbn.
    destruct (pt_sleep_remove c ts s i Hi Hin) as [Hi' [Hni _]%not_elem_of_app].
    eexists. split; [done|]. split_and!; cbn; [done|by rewrite remove1_notin|done|].
    exists (length (m_held s)). unfold drop_held. rewrite lookup_ge_None_2 by done. done.
Qed.

Lemma pt_OnTaskSleep c ts s i t : pt_inv c ts s → ts !! i = Some t → IsSleeping t = true →
  i ∈ concat (m_tasks s) →
  ∃ s', OnTaskSleep bops TS c i (ts, s) = Ok (ts, s') ∧ pt_inv c ts s' ∧
    concat (m_tasks s') = list_remove1 i (concat (m_tasks s)) ∧ m_sleep s' = m_sleep s ++ [i] ∧
    (∃ p, m_held s' = drop_held p i (m_held s)).
Proof using Hmax Hmax16.
  intros Hi Ht Hsl Hin.
  destruct (pt_unlink c ts s i Hi Hin) as (p & t' & s' & Hr & Ht' & Hprio & _ & Hl & Hns & E & Hi' & Ec & Es & Eh & _).
  simplify_eq. unfold OnTaskSleep, get. rewrite Ht. cbn [deref mbind res_bind]. rewrite Hsl. cbn [stk_assert].
  rewrite Hprio. cbn [mbind res_bind]. rewrite Hl. cbn [mbind res_bind stk_assert]. rewrite E. cbn [mbind res_bind].
  assert (H1 : i ∉ concat (m_tasks s')) by (rewrite Ec, elem_of_remove1; naive_solver).
  assert (H2 : i ∉ m_sleep s') by (rewrite Es; by apply bool_decide_eq_false in Hns).
  rewrite pt_linked_false by done. cbn. eexists. split; [done|]. destruct Hi' as [H HH Ha Hrun Hs Hn].
  split_and!; cbn; [split; cbn; try done|done|by rewrite Es|eauto].
  - apply Forall_app. split; [done|]. by apply Forall_singleton.
  - rewrite app_assoc, (Permutation_app_comm _ [i]). cbn. constructor; [|done]. by apply not_elem_of_app.
Qed.

Lemma pt_OnTaskWake c ts s i t : pt_inv c ts s → ts !! i = Some t → IsSleeping t = false →
  i ∈ m_sleep s →
  ∃ s', OnTaskWake bops c i (ts, s) = Ok (ts, s') ∧ pt_inv c ts s' ∧
    concat (m_tasks s') ≡ₚ i :: concat (m_tasks s) ∧ m_sleep s' = list_remove1 i (m_sleep s) ∧
    m_held s' = m_held s.
Proof using Hmax Hmax16.
  intros Hi Ht Hsl Hin. unfold OnTaskWake, get. rewrite Ht. cbn [deref mbind res_bind].
  rewrite Hsl. cbn [negb stk_assert]. unfold in_sleep. rewrite bool_decide_eq_true_2 by done.
  cbn [stk_assert]. rewrite Unlink_ok by done. cbn [mbind res_bind].
  destruct (pt_member_rank c ts s i Hi) as [p Hr]; [set_solver|].
  destruct (pt_sleep_remove c ts s i Hi Hin) as [Hi1 Hni].
  destruct (pt_add c ts _ i p Hi1 Hr Hni) as (s' & l & -> & Hi' & Hperm & Es & _ & Eh & _). cbn.
  exists s'. split_and!; done.
Qed.

Lemma pt_unhold c ts s p : pt_inv c ts s → p < Z.to_nat MAX →
  ∃ bm, unhold bops (Z.of_nat p) s = Ok (set_held_bm bm (set_held (<[p := None]> (m_held s)) s)) ∧
    pt_inv c ts (set_held_bm bm (set_held (<[p := None]> (m_held s)) s)).
Proof using Hmax.
  intros [H HH Ha Hrun Hs Hn] Hp. destruct (unhold_ok c ts s p HH Hp) as (bm & E & HH').
  exists bm. split; [done|]. by split.
Qed.

Lemma pt_hold c ts s p l x T : pt_inv c ts s → m_tasks s !! p = Some l → x ∈ l →
  task_thr c ts x = Some T → (Z.of_nat p < T)%Z →
  ∃ bm, hold bops (Z.of_nat p) x s = Ok (set_held_bm bm (set_held (<[p := Some x]> (m_held s)) s)) ∧
    pt_inv c ts (set_held_bm bm (set_held (<[p := Some x]> (m_held s)) s)).
Proof using Hmax.
  intros [H HH Ha Hrun Hs Hn] Hl Hx HT HpT.
  assert (Hp : p < Z.to_nat MAX) by (rewrite <- (lv_len _ _ _ _ _ _ H); by eapply lookup_lt_Some).
  destruct (hold_ok c ts s p l x T HH Hl Hx Hp HT HpT) as (bm & E & HH'). exists bm. split; [done|]. by split.
Qed.

Lemma pt_set_prev c ts s p l x : pt_inv c ts s → m_tasks s !! p = Some l → x ∈ l →
  aset (m_prev s) (Z.of_nat p) (Some x) = Ok (<[p := Some x]> (m_prev s)) ∧
  pt_inv c ts (set_prev (<[p := Some x]> (m_prev s)) s).
Proof using Hmax.
  intros [H HH Ha Hrun Hs Hn] Hl Hx.
  assert (Hp : p < Z.to_nat MAX) by (rewrite <- (lv_len _ _ _ _ _ _ H); by eapply lookup_lt_Some).
  rewrite aset_ok, Nat2Z.id by (rewrite Nat2Z.id, (lv_plen _ _ _ _ _ _ H); lia).
  split; [done|]. split; cbn; try done. by eapply lv_cursor.
Qed.

Lemma pt_set_advance c ts s bm : pt_inv c ts s → bm_wf bm → pt_inv c ts (set_advance bm s).
Proof using. intros [H HH Ha Hrun Hs Hn] Hw. by split. Qed.

(** The level and the hold slot of a member. *)
Lemma pt_slot c ts s i : pt_inv c ts s → i ∈ concat (m_tasks s) ++ m_sleep s →
  ∃ p t T l h, task_rank c ts i = Some p ∧ ts !! i = Some t ∧ GetTaskPriority c t = Ok (Z.of_nat p) ∧
    GetTaskThreshold c t = Ok T ∧ task_thr c ts i = Some T ∧ p < Z.to_nat MAX ∧
    m_tasks s !! p = Some l ∧ m_held s !! p = Some h.
Proof using Hmax Hmax16.
  intros Hi Hin. destruct (pt_member_rank c ts s i Hi Hin) as [p Hr].
  destruct (task_rank_spec _ _ _ _ Hr) as (t & T & Ht & Hprio & HT & HT' & Hp & _).
  destruct (lv_level _ _ _ _ _ _ p (pt_levels _ _ _ Hi) Hp) as (l & q & Hl & _).
  destruct (lookup_lt_is_Some_2 (m_held s) p) as [h Hh]; [by rewrite (h_len _ _ _ _ _ (pt_held _ _ _ Hi))|].
  by exists p, t, T, l, h.
Qed.

Lemma pt_OnTaskYield c ts s i : pt_inv c ts s → i ∈ concat (m_tasks s) ++ m_sleep s →
  ∃ b s', OnTaskYield bops MAX TS c i (ts, s) = Ok (b, (ts, s')) ∧ pt_inv c ts s' ∧
    m_tasks s' = m_tasks s ∧ m_sleep s' = m_sleep s ∧ ∃ p, m_held s' = drop_held p i (m_held s).
Proof using Hmax Hmax16.
  intros Hi Hin. destruct (pt_slot c ts s i Hi Hin) as (p & t & T & l & h & Hr & Ht & Hprio & _ & _ & Hp & Hl & Hh).
  unfold OnTaskYield, get. rewrite Ht. cbn [deref mbind res_bind]. rewrite Hprio. cbn [mbind res_bind].
  rewrite bool_decide_eq_true_2, (pt_in_level_ok _ _ l) by (done || lia). cbn [mbind res_bind].
  case_bool_decide as Hil.
  2:{ exists false, s. split_and!; try done. exists (length (m_held s)). unfold drop_held.
      by rewrite lookup_ge_None_2. }
  rewrite (aget_ok _ _ h) by (by rewrite Nat2Z.id). cbn [mbind res_bind].
  assert (∃ s1, (if bool_decide (h = Some i) then unhold bops (Z.of_nat p) s else Ok s) = Ok s1 ∧
    pt_inv c ts s1 ∧ m_tasks s1 = m_tasks s ∧ m_sleep s1 = m_sleep s ∧ m_held s1 = drop_held p i (m_held s)) as
    (s1 & -> & Hi1 & Et & Es & Eh).
  { unfold drop_held. rewrite Hh. case_bool_decide.
    - subst h. destruct (pt_unhold c ts s p Hi Hp) as (bm & -> & Hi'). eexists. split; [done|].
      by rewrite decide_True.
    - exists s. rewrite decide_False by congruence. done. }
  cbn [mbind res_bind]. destruct (pt_set_prev c ts s1 p l i Hi1) as [-> Hi2]; [by rewrite Et|done|].
  cbn [mbind res_bind]. destruct TS; [|eexists true, _; split; [done|]; split_and!; cbn; eauto].
  destruct (bm_Set_spec (m_advance_bitmap s1) (Z.of_nat p)) as (bm & E & Hw & _); [apply Hi1|lia|].
  cbn. rewrite E. cbn. eexists true, _. split; [done|]. split_and!; cbn; eauto. by apply pt_set_advance.
Qed.

Lemma pt_OnTaskTimeSlice c ts s i : pt_inv c ts s → i ∈ concat (m_tasks s) ++ m_sleep s →
  ∃ b s', OnTaskTimeSlice bops MAX TS c i (ts, s) = Ok (b, (ts, s')) ∧ pt_inv c ts s' ∧
    m_tasks s' = m_tasks s ∧ m_sleep s' = m_sleep s ∧ m_held s' = m_held s.
Proof using Hmax Hmax16.
  intros Hi Hin. destruct (pt_slot c ts s i Hi Hin) as (p & t & T & l & h & Hr & Ht & Hprio & _ & _ & Hp & Hl & Hh).
  unfold OnTaskTimeSlice, get. destruct TS; [|by exists false, s].
  rewrite Ht. cbn [deref mbind res_bind]. rewrite Hprio. cbn [mbind res_bind].
  rewrite bool_decide_eq_true_2, (aget_ok _ _ l), (aget_ok _ _ h) by (rewrite ?Nat2Z.id; done || lia).
  cbn [mbind res_bind]. destruct (bool_decide (i ∈ l)) eqn:Hil; [|by exists false, s].
  apply bool_decide_eq_true in Hil. destruct (_ && _ && _); [|by exists false, s].
  destruct (pt_set_prev c ts s p l i Hi Hl Hil) as [-> Hi2]. cbn [mbind res_bind].
  destruct (bm_Set_spec (m_advance_bitmap s) (Z.of_nat p)) as (bm & -> & Hw & _); [apply Hi|lia|].
  cbn. eexists true, _. split; [done|]. split_and!; try done. by apply pt_set_advance.
Qed.

Lemma pt_GetFirst c ts s : pt_inv c ts s → concat (m_tasks s) ++ m_sleep s ≠ [] →
  ∃ i, GetFirst bops c (ts, s) = Ok (Some i) ∧ i ∈ concat (m_tasks s) ++ m_sleep s.
Proof using Hmax Hmax16.
  intros Hi Hne. unfold GetFirst. destruct (_ ++ _) as [|x k] eqn:E; [done|].
  rewrite (bool_decide_eq_false_2 (GetSize s = 0%Z)) by (apply (pt_members_size s x); rewrite E; left).
  cbn [negb stk_assert]. rewrite <- E. assert (H := pt_levels _ _ _ Hi).
  destruct (decide (concat (m_tasks s) = [])) as [Ec|Ec].
  - rewrite (proj2 (lv_empty bops MAX Hmax _ _ _ _ H) Ec). rewrite Ec in *.
    cbn in *. rewrite E. exists x. split; [done|left].
  - destruct (lv_highest bops MAX Hmax _ _ _ _ H Ec) as (He & h & l & q & Eh & Hh & Hl & _ & _ & Hin & _).
    rewrite He. unfold GetHighestReadyPriority. rewrite Eh. cbn [mbind res_bind]. unfold u16.
    rewrite Z.mod_small, (aget_ok _ _ l) by (rewrite ?Nat2Z.id; done || lia). cbn.
    destruct l as [|y l]; [by apply not_elem_of_nil in Hin|]. exists y. split; [done|].
    apply elem_of_app. left. apply elem_of_concat. exists h, (y :: l). split; [done|left].
Qed.

(** ** Weight changes *)

Lemma pt_frame c ts ts' s : pt_inv c ts s →
  (∀ i, i ∈ concat (m_tasks s) ++ m_sleep s →
     task_rank c ts' i = task_rank c ts i ∧ task_thr c ts' i = task_thr c ts i) → pt_inv c ts' s.
Proof using Hmax Hmax16.
  intros [H HH Ha Hrun Hs Hn] Hf. split; try done.
  - eapply lv_frame; [done|]. intros i Hin. apply Hf. set_solver.
  - eapply held_frame; [done|]. intros p x l Hx Hl Hxl HT. split; [|eauto].
    destruct (Hf x) as [_ ->]; [|done]. apply elem_of_app. left. apply elem_of_concat. eauto.
  - rewrite Forall_forall in Hs |- *. intros i Hin. destruct (Hf i) as [-> _]; [set_solver|auto].
Qed.

(** A task is held at most at the level it is filed under. *)
Lemma pt_held_level c ts s i p p' : pt_inv c ts s → task_rank c ts i = Some p →
  m_held s !! p' = Some (Some i) → p' = p.
Proof using.
  intros Hi Hr Hh. destruct (h_in _ _ _ _ _ (pt_held _ _ _ Hi) p' i Hh) as (l & Hl & Hil).
  assert (Hr' := lv_rank _ _ _ _ _ _ (pt_levels _ _ _ Hi) p' l i Hl Hil). congruence.
Qed.

(** A weight change of [i] leaves the holds of the others alone; a hold of [i]
    may go, or move to the new level [q] if [i] was holding or running. *)
Definition held_moved (s s' : PT B) (i q : nat) : Prop :=
  (∀ p x, x ≠ i → m_held s !! p = Some (Some x) → m_held s' !! p = Some (Some x)) ∧
  (∀ p x, m_held s' !! p = Some (Some x) → m_held s !! p = Some (Some x) ∨
     x = i ∧ p = q ∧ (m_running s = Some i ∨ ∃ p0, m_held s !! p0 = Some (Some i))).

Lemma held_moved_drop s s' p i q : m_held s' = drop_held p i (m_held s) → held_moved s s' i q.
Proof using.
  unfold held_moved, drop_held. intros ->. case_decide as Ed; [|auto]. split.
  - intros p1 x Hx H1. rewrite list_lookup_insert_ne; [done|]. congruence.
  - intros p1 x [(_ & ? & _)|[_ Hx]]%list_lookup_insert_Some; [done|auto].
Qed.

Lemma held_moved_set s s1 s' i q : held_moved s s1 i q → m_held s1 !! q = Some None →
  (m_running s = Some i ∨ ∃ p0, m_held s !! p0 = Some (Some i)) → m_held s' = <[q := Some i]> (m_held s1) → held_moved s s' i q.
Proof using.
  intros [H1 H2] Hq Hr E. unfold held_moved. rewrite E. split.
  - intros p x Hx Hp. specialize (H1 p x Hx Hp). rewrite list_lookup_insert_ne; [done|]. congruence.
  - intros p x [(-> & [= <-] & _)|[_ Hx]]%list_lookup_insert_Some; [right; auto|auto].
Qed.

Lemma pt_UpdateHold c ts ts' s i p t' T' : pt_inv c ts s → i ∈ concat (m_tasks s) →
  (∀ j, j ≠ i → task_rank c ts' j = task_rank c ts j ∧ task_thr c ts' j = task_thr c ts j) →
  task_rank c ts i = Some p → task_rank c ts' i = Some p → ts' !! i = Some t' →
  GetTaskThreshold c t' = Ok T' → task_thr c ts' i = Some T' →
  ∃ s', UpdateHold bops c ts' i (Z.of_nat p) s = Ok s' ∧ pt_inv c ts' s' ∧
    m_tasks s' = m_tasks s ∧ m_sleep s' = m_sleep s ∧ held_moved s s' i p.
Proof using Hmax Hmax16.
  intros Hi Hin Hfr Hr Hr' Ht' ET HT'.
  destruct (pt_slot c ts s i Hi) as (p0 & t & T & l & h & Hr0 & Ht & _ & _ & _ & Hp & Hl & Hh); [set_solver|].
  rewrite Hr in Hr0. injection Hr0 as <-.
  assert (Hil : i ∈ l).
  { destruct (lv_find _ _ _ _ _ _ i (pt_levels _ _ _ Hi) Hin) as (p1 & l1 & _ & Hr1 & _ & Hl1 & _ & _ & ?). by simplify_eq. }
  unfold UpdateHold, get. rewrite Ht'. cbn [deref mbind res_bind]. rewrite ET. cbn [mbind res_bind].
  rewrite (aget_ok _ _ h) by (by rewrite Nat2Z.id). cbn [mbind res_bind].
  (* the invariant for the new weights, if the holder at [p] is no longer [i] or keeps its hold *)
  assert (Hnew : ∀ s0, pt_inv c ts s0 → m_tasks s0 = m_tasks s → m_sleep s0 = m_sleep s →
    (m_held s0 !! p = Some (Some i) → (Z.of_nat p < T')%Z) → pt_inv c ts' s0).
  { intros s0 Hi0 Et Es HTi. assert (Hlv := λ p', pt_held_level c ts s0 i p p' Hi0 Hr).
    destruct Hi0 as [H HH Ha Hrun Hs Hn]. split; try done.
    - eapply lv_frame; [done|]. intros j _. destruct (decide (j = i)) as [->|Hj]; [congruence|by apply Hfr].
    - eapply held_frame; [done|]. intros p' x k Hx Hk Hxk HTx. split; [|eauto].
      destruct (decide (x = i)) as [->|Hj]; [|destruct (Hfr x Hj) as [_ ->]; done].
      assert (p' = p) as -> by (by apply Hlv). exists T'. split; [done|by apply HTi].
    - rewrite Forall_forall in Hs |- *. intros j Hj. destruct (decide (j = i)) as [->|Hne]; [eauto|].
      destruct (Hfr j Hne) as [-> _]. by apply Hs. }
  assert (Hsame : held_moved s s i p) by (split; auto).
  destruct (Z.gtb_spec T' (Z.of_nat p)) as [HTp|HTp].
  - assert (Hi' : pt_inv c ts' s) by (by apply Hnew).
    destruct (bool_decide (m_running s = Some i) && bool_decide (h = None)) eqn:Ec; [|by exists s].
    apply andb_true_iff in Ec as [Er%bool_decide_eq_true ->%bool_decide_eq_true].
    destruct (pt_hold c ts' s p l i T' Hi' Hl Hil HT' HTp) as (bm & E & Hi2). eexists. split; [exact E|].
    split_and!; try done. eapply held_moved_set; [exact Hsame|done|by left|done].
  - case_bool_decide as Eh; [|exists s; split_and!; try done; apply Hnew; [done..|congruence]].
    destruct (pt_unhold c ts s p Hi Hp) as (bm & E & Hi2). eexists. split; [exact E|]. split_and!; try done.
    + apply Hnew; [done..|]. cbn. rewrite list_lookup_insert_eq by (by eapply lookup_lt_Some). congruence.
    + apply (held_moved_drop _ _ p). unfold drop_held. rewrite decide_True by congruence. done.
Qed.

Lemma pt_OnTaskWeightChange c ts s i t t' w p' T' : pt_inv c ts s → ts !! i = Some t →
  GetWeight c t = Ok w → GetTaskPriority c t' = Ok p' → (p' < MAX)%Z → GetTaskThreshold c t' = Ok T' →
  i ∈ concat (m_tasks s) ++ m_sleep s →
  ∃ s', OnTaskWeightChange bops MAX TS c i w (<[i := t']> ts, s) = Ok (<[i := t']> ts, s') ∧
    pt_inv c (<[i := t']> ts) s' ∧ concat (m_tasks s') ≡ₚ concat (m_tasks s) ∧ m_sleep s' = m_sleep s ∧
    held_moved s s' i (Z.to_nat p').
Proof using Hmax Hmax16.
  intros Hi Ht Hw Ep' Hp' ET' Hin. assert (Hsame : held_moved s s i (Z.to_nat p')) by (split; auto). assert (Hts : <[i := t']> ts !! i = Some t')
    by (apply list_lookup_insert_eq; by eapply lookup_lt_Some).
  assert (Hr' : task_rank c (<[i := t']> ts) i = Some (Z.to_nat p'))
    by (unfold task_rank; rewrite Hts; cbn; rewrite Ep', ET', bool_decide_eq_true_2 by lia; done).
  assert (HT' : task_thr c (<[i := t']> ts) i = Some T') by (unfold task_thr; rewrite Hts; cbn; by rewrite ET').
  assert (Hfr : ∀ j, j ≠ i → task_rank c (<[i := t']> ts) j = task_rank c ts j ∧
    task_thr c (<[i := t']> ts) j = task_thr c ts j).
  { intros j Hj. unfold task_rank, task_thr. by rewrite list_lookup_insert_ne. }
  destruct (task_rank_spec _ _ _ _ Hr') as (t0 & _ & Ht0 & Ez & _ & _ & Hpn & _). simplify_eq. rewrite Ep' in Ez.
  injection Ez as Ez. destruct (pt_slot c ts s i Hi Hin) as (p & t0 & T & l & h & Hr & Ht0 & Hprio & _ & _ & Hp & Hl & Hh).
  simplify_eq. assert (Ed : DecodePriority w = Z.of_nat p)
    by (unfold GetTaskPriority in Hprio; rewrite Hw in Hprio; cbn in Hprio; congruence).
  unfold OnTaskWeightChange, get. rewrite Hts. cbn [deref mbind res_bind]. rewrite Ep'. cbn [mbind res_bind].
  rewrite Ed, !bool_decide_eq_true_2 by lia. cbn [stk_assert]. unfold in_sleep. case_bool_decide as Hsl; cbn [negb].
  { exists s. split_and!; try done. assert (Hd : (i ∉ concat (m_tasks s)))
      by (destruct Hi as [_ _ _ _ _ Hn]; apply NoDup_app in Hn as (_ & Hd & _); intros ?; by apply (Hd i)).
    destruct Hi as [H HH Ha Hrun Hs Hn]. split; try done.
    - eapply lv_frame; [done|]. intros j Hj. apply Hfr. by intros ->.
    - eapply held_frame; [done|]. intros p1 x k Hx Hk Hxk HTx. split; [|eauto]. destruct (Hfr x) as [_ ->]; [|done].
      intros ->. apply Hd, elem_of_concat. eauto.
    - rewrite Forall_forall in Hs |- *. intros j Hj. destruct (decide (j = i)) as [->|Hne]; [eauto|].
      destruct (Hfr j Hne) as [-> _]. by apply Hs. }
  assert (Hin' : i ∈ concat (m_tasks s)) by (apply elem_of_app in Hin as [?|?]; done).
  destruct (pt_unlink c ts s i Hi Hin') as (p1 & t1 & s1 & Hr1 & _ & _ & _ & Hlv & _ & E & Hi1 & Ec & Es & Eh1 & _).
  rewrite Hr in Hr1. injection Hr1 as <-. rewrite Hlv. cbn [mbind res_bind stk_assert].
  case_bool_decide as Epp.
  - assert (Hr2 : task_rank c (<[i := t']> ts) i = Some p) by (rewrite Hr'; f_equal; lia).
    destruct (pt_UpdateHold c ts (<[i := t']> ts) s i p t' T' Hi Hin' Hfr Hr Hr2 Hts ET' HT') as (s' & Eu & Hi' & Et & Es' & Hmv).
    rewrite <- Epp, Eu. cbn. exists s'. rewrite Et, Nat2Z.id. done.
  - rewrite (aget_ok _ _ h) by (by rewrite Nat2Z.id). cbn [mbind res_bind]. rewrite E. cbn [mbind res_bind].
    assert (Hni : i ∉ concat (m_tasks s1) ++ m_sleep s1)
      by (rewrite Ec, Es, elem_of_app, elem_of_remove1; naive_solver).
    assert (Hi2 : pt_inv c (<[i := t']> ts) s1).
    { apply (pt_frame c ts); [done|]. intros j Hj. apply Hfr. by intros ->. }
    destruct (pt_add c _ s1 i _ Hi2 Hr' Hni) as (s2 & k & -> & Hi3 & Hperm & Es2 & Hl2 & Eh2 & _). cbn [mbind res_bind].
    assert (Hmv : held_moved s s2 i (Z.to_nat p')) by (apply (held_moved_drop _ _ p); congruence).
    rewrite ET'. cbn [mbind res_bind].
    destruct (lookup_lt_is_Some_2 (m_held s2) (Z.to_nat p')) as [h2 Hh2];
      [rewrite (h_len _ _ _ _ _ (pt_held _ _ _ Hi3)); lia|].
    rewrite (aget_ok _ _ h2 Hh2). cbn [mbind res_bind].
    assert (Hpc : concat (m_tasks s2) ≡ₚ concat (m_tasks s)).
    { rewrite Hperm, Ec. symmetry. apply remove1_perm; [|done].
      apply (lv_nodup _ _ _ _ _ _ (pt_levels _ _ _ Hi)). }
    destruct (Z.gtb_spec T' p') as [HTp|]; [|rewrite andb_false_r; cbn; exists s2; split_and!; congruence || done].
    destruct (bool_decide (h = Some i) && _ && _) eqn:Eand; [|exists s2; split_and!; congruence || done].
    apply andb_true_iff in Eand as [[->%bool_decide_eq_true _]%andb_true_iff ->%bool_decide_eq_true].
    destruct (pt_hold c _ s2 _ _ i T' Hi3 Hl2) as (bm & Eb & Hi4); [set_solver|done|lia|].
    rewrite <- Ez in Eb. rewrite Eb. cbn. eexists. split; [done|]. split_and!; cbn; try (congruence || done).
    eapply held_moved_set; [exact Hmv|done|by right; exists p|done].
Qed.

(** ** Selection *)

(** [r] is the holder of the highest level, [p], that has one. *)
Definition top_hold (H : list (option nat)) (r p : nat) : Prop :=
  H !! p = Some (Some r) ∧ ∀ p' x, H !! p' = Some (Some x) → p' ≤ p.

Lemma top_hold_unique H r p r' p' : top_hold H r p → top_hold H r' p' → r' = r ∧ p' = p.
Proof using.
  intros [E M] [E' M']. assert (p' = p) as -> by (apply Nat.le_antisymm; eauto). split; [congruence|done].
Qed.

Lemma held_highest c ts s : pt_inv c ts s →
  (bm_IsEmpty bops (m_held_bitmap s) = true ∧ ∀ p x, m_held s !! p ≠ Some (Some x)) ∨
  (bm_IsEmpty bops (m_held_bitmap s) = false ∧ ∃ p r,
     bm_HighestSet bops (m_held_bitmap s) = Ok (Z.of_nat p) ∧ p < Z.to_nat MAX ∧ top_hold (m_held s) r p).
Proof using Hmax.
  intros Hi. destruct (pt_held _ _ _ Hi) as [HL Hwf Hbit Hhi Hin Hth].
  assert (Hr : ∀ p h, m_held s !! p = Some h → p < Z.to_nat MAX)
    by (intros p h Hh; rewrite <- HL; by eapply lookup_lt_Some).
  destruct (bm_IsEmpty bops (m_held_bitmap s)) eqn:E; [left|right]; (split; [done|]).
  - intros p x Hx. apply bm_IsEmpty_spec with (i := Z.of_nat p) in E; [|done|specialize (Hr _ _ Hx); lia].
    by rewrite (Hbit p _ Hx) in E.
  - destruct (bm_HighestSet_spec _ Hwf E) as (b & Eb & Hb & Hbt & Hab).
    assert (HbM : (b < MAX)%Z) by (destruct (decide (b < MAX)%Z); [done|]; rewrite Hhi in Hbt by lia; done).
    destruct (lookup_lt_is_Some_2 (m_held s) (Z.to_nat b)) as [h Hh]; [lia|].
    assert (Hh' := Hbit _ _ Hh). rewrite Z2Nat.id, Hbt in Hh' by lia. symmetry in Hh'.
    apply bool_decide_eq_true in Hh'. destruct h as [r|]; [|done].
    exists (Z.to_nat b), r. rewrite Z2Nat.id by lia. split_and!; [done|lia|]. split; [done|].
    intros p' x Hx. destruct (decide (p' ≤ Z.to_nat b)); [done|].
    specialize (Hab (Z.of_nat p') ltac:(specialize (Hr _ _ Hx); lia)). by rewrite (Hbit _ _ Hx) in Hab.
Qed.

(** The holder check answers the top holder when no ready task is above its
    threshold. *)
Lemma GetNext_holder_spec c ts s hi : pt_inv c ts s →
  (GetNext_holder bops c ts (Z.of_nat hi) s = Ok None ∧
     ∀ r p T, top_hold (m_held s) r p → task_thr c ts r = Some T → (T < Z.of_nat hi)%Z) ∨
  (∃ r p T, GetNext_holder bops c ts (Z.of_nat hi) s = Ok (Some r) ∧ top_hold (m_held s) r p ∧
     task_thr c ts r = Some T ∧ (Z.of_nat hi ≤ T)%Z ∧ r ∈ concat (m_tasks s)).
Proof using Hmax Hmax16.
  intros Hi. unfold GetNext_holder. destruct (held_highest c ts s Hi) as [[-> Hno]|(-> & p & r & Eh & Hp & Htop)]; cbn [negb].
  { left. split; [done|]. intros r p T [Hr _]. by apply Hno in Hr. }
  assert (Hin : r ∈ concat (m_tasks s)).
  { destruct (h_in _ _ _ _ _ (pt_held _ _ _ Hi) p r (proj1 Htop)) as (l & ? & ?). apply elem_of_concat. eauto. }
  destruct (pt_slot c ts s r Hi) as (p1 & t & T & l & h & Hr & Ht & _ & ET & HT & _); [set_solver|].
  unfold GetHighestReadyPriority, u16, get. rewrite Eh. cbn [mbind res_bind].
  rewrite Z.mod_small, (aget_ok _ _ (Some r)) by (rewrite ?Nat2Z.id; apply Htop || lia). cbn [mbind res_bind].
  rewrite Ht. cbn [deref mbind res_bind]. rewrite ET. cbn [mbind res_bind].
  destruct (Z.leb_spec (Z.of_nat hi) T).
  - right. by exists r, p, T.
  - left. split; [done|]. intros r' p' T' Htop' HT'.
    destruct (top_hold_unique _ _ _ _ _ Htop Htop') as [-> _]. simplify_eq. done.
Qed.

Lemma GetNext_level_spec c ts s hi l q : pt_inv c ts s → hi < Z.to_nat MAX → m_tasks s !! hi = Some l →
  m_prev s !! hi = Some (Some q) → NoDup l → q ∈ l →
  ∃ x T s', GetNext_level bops TS c ts (Z.of_nat hi) s = Ok (x, s') ∧ pt_inv c ts s' ∧ x ∈ l ∧
    m_tasks s' = m_tasks s ∧ m_sleep s' = m_sleep s ∧ task_thr c ts x = Some T ∧
    m_held s' = (if decide (Z.of_nat hi < T)%Z then <[hi := Some x]> (m_held s) else m_held s).
Proof using Hmax Hmax16.
  intros Hi Hhi Hl Hq Hn Hin. unfold GetNext_level.
  assert (∃ adv s1, (if TS then a ← bm_IsSet bops (m_advance_bitmap s) (Z.of_nat hi);
                      bm ← bm_Clear bops (m_advance_bitmap s) (Z.of_nat hi); Ok (a, set_advance bm s)
                     else Ok (true, s)) = Ok (adv, s1) ∧ pt_inv c ts s1 ∧ m_tasks s1 = m_tasks s ∧
      m_sleep s1 = m_sleep s ∧ m_held s1 = m_held s ∧ m_prev s1 = m_prev s) as
    (adv & s1 & -> & Hi1 & Et1 & Es1 & Eh1 & Ep1).
  { destruct TS; [|by exists true, s]. rewrite bm_IsSet_spec by (apply Hi || lia). cbn.
    destruct (bm_Clear_spec (m_advance_bitmap s) (Z.of_nat hi)) as (bm & -> & Hw & _); [apply Hi|lia|]. cbn.
    eexists _, _. split; [done|]. split_and!; try done. by apply pt_set_advance. }
  cbn [mbind res_bind]. rewrite Ep1, (aget_ok _ _ (Some q)) by (by rewrite Nat2Z.id). cbn [deref mbind res_bind].
  assert (∃ x s2, (if adv then l ← aget (m_tasks s1) (Z.of_nat hi); next ← Next l q;
                      P ← aset (m_prev s) (Z.of_nat hi) (Some next); Ok (next, set_prev P s1)
                   else Ok (q, s1)) = Ok (x, s2) ∧ pt_inv c ts s2 ∧ x ∈ l ∧ m_tasks s2 = m_tasks s ∧
      m_sleep s2 = m_sleep s ∧ m_held s2 = m_held s) as (x & s2 & -> & Hi2 & Hx & Et2 & Es2 & Eh2).
  { destruct adv; [|by exists q, s1]. rewrite Et1, (aget_ok _ _ l) by (by rewrite Nat2Z.id). cbn [mbind res_bind].
    destruct (Next_ok _ _ Hin Hn) as (n & -> & _ & Hnin). cbn [mbind res_bind].
    destruct (pt_set_prev c ts s1 hi l n Hi1) as [E Hi2]; [by rewrite Et1|done|]. rewrite Ep1 in E, Hi2.
    rewrite E. cbn. by eexists n, _. }
  cbn [mbind res_bind].
  destruct (pt_slot c ts s2 x Hi2) as (p & t & T & l0 & h & _ & Ht & _ & ET & HT & _).
  { apply elem_of_app. left. apply elem_of_concat. exists hi, l. by rewrite Et2. }
  unfold get. rewrite Ht. cbn [deref mbind res_bind]. rewrite ET. cbn [mbind res_bind].
  exists x, T. destruct (Z.gtb_spec T (Z.of_nat hi)) as [HT'|HT'].
  - destruct (pt_hold c ts s2 hi l x T Hi2) as (bm & -> & Hi3); [by rewrite Et2|done..|]. cbn.
    eexists. split; [done|]. rewrite decide_True, Eh2 by done. rewrite Eh2 in Hi3. done.
  - exists s2. rewrite decide_False by lia. done.
Qed.

Lemma pt_set_running c ts s x : pt_inv c ts s → (∀ r, x = Some r → r ∈ concat (m_tasks s)) →
  pt_inv c ts (set_running x s).
Proof using. intros [H HH Ha Hrun Hs Hn] Hx. by split. Qed.

(** [GetNext]: the top holder if no ready task is above its threshold, a task
    of the highest ready level otherwise. *)
Lemma pt_GetNext c ts s : pt_inv c ts s → concat (m_tasks s) ≠ [] →
  ∃ hi x s', GetNext bops TS c (ts, s) = Ok (Some x, (ts, s')) ∧ pt_inv c ts s' ∧
    m_tasks s' = m_tasks s ∧ m_sleep s' = m_sleep s ∧ x ∈ concat (m_tasks s) ∧
    (∀ i p, i ∈ concat (m_tasks s) → task_rank c ts i = Some p → p ≤ hi) ∧
    ((∃ p T, top_hold (m_held s) x p ∧ task_thr c ts x = Some T ∧ (Z.of_nat hi ≤ T)%Z ∧ m_held s' = m_held s) ∨
     (∃ T, task_rank c ts x = Some hi ∧ task_thr c ts x = Some T ∧
        (∀ r p T', top_hold (m_held s) r p → task_thr c ts r = Some T' → (T' < Z.of_nat hi)%Z) ∧
        m_held s' = (if decide (Z.of_nat hi < T)%Z then <[hi := Some x]> (m_held s) else m_held s))).
Proof using Hmax Hmax16.
  intros Hi Hne. assert (H := pt_levels _ _ _ Hi).
  destruct (lv_highest bops MAX Hmax _ _ _ _ H Hne) as (He & hi & l & q & Eh & Hh & Hl & Hq & Hn & Hin & Hmaxi).
  unfold GetNext. rewrite He. cbn [negb]. unfold GetHighestReadyPriority at 1, u16. rewrite Eh.
  cbn [mbind res_bind]. rewrite Z.mod_small by lia.
  destruct (GetNext_holder_spec c ts s hi Hi) as [[-> Hno]|(r & p & T & -> & Htop & HT & Hle & Hr)]; cbn [mbind res_bind].
  - destruct (GetNext_level_spec c ts s hi l q Hi Hh Hl Hq Hn Hin) as (x & T & s' & -> & Hi' & Hx & Et & Es & HT & Eh').
    cbn. assert (Hxc : x ∈ concat (m_tasks s)) by (apply elem_of_concat; eauto).
    exists hi, x, (set_running (Some x) s'). split; [done|]. split; [|split_and!; try done].
    + apply pt_set_running; [done|]. rewrite Et. by intros ? [= <-].
    + right. exists T. split_and!; try done. by eapply lv_rank.
  - exists hi, r, (set_running (Some r) s). split; [done|]. split; [|split_and!; try done].
    + apply pt_set_running; [done|]. by intros ? [= <-].
    + left. by exists p, T.
Qed.

Lemma pt_GetNext_none c ts s : pt_inv c ts s → concat (m_tasks s) = [] →
  GetNext bops TS c (ts, s) = Ok (None, (ts, set_running None s)).
Proof using Hmax.
  intros Hi E. rewrite <- (lv_empty bops MAX Hmax _ _ _ _ (pt_levels _ _ _ Hi)) in E. unfold GetNext. by rewrite E.
Qed.

(** ** The strategy contract *)

Definition pt_admissible (c : KernelCfg) (t : KernelTask) : Prop :=
  ∃ p b T, GetTaskPriority c t = Ok p ∧ GetRawThreshold c t = Ok b ∧ GetTaskThreshold c t = Ok T ∧
    (p ≤ b < MAX)%Z.
Definition pt_weight_ok (c : KernelCfg) (t : KernelTask) : Prop :=
  ∃ p T, GetTaskPriority c t = Ok p ∧ (p < MAX)%Z ∧ GetTaskThreshold c t = Ok T.

Lemma same_weight_prio c t t' : same_weight t t' →
  GetTaskPriority c t' = GetTaskPriority c t ∧ GetRawThreshold c t' = GetRawThreshold c t ∧
  GetTaskThreshold c t' = GetTaskThreshold c t.
Proof using.
  intros Hs. unfold GetTaskThreshold, GetTaskPriority, GetRawThreshold.
  by rewrite (same_weight_GetWeight c _ _ Hs), (same_weight_GetBaseWeight c _ _ Hs).
Qed.

Lemma pt_same_weights c ts ts' s : pt_inv c ts s →
  same_weights (concat (m_tasks s) ++ m_sleep s) ts ts' → pt_inv c ts' s.
Proof using Hmax Hmax16.
  intros Hi Hsw. apply (pt_frame c ts); [done|]. intros i Hin.
  destruct (pt_member_rank c ts s i Hi Hin) as [p Hr].
  destruct (task_rank_spec _ _ _ _ Hr) as (t & T & Ht & _). destruct (Hsw i t Hin Ht) as (t' & Ht' & Hs).
  destruct (same_weight_prio c _ _ Hs) as (E1 & _ & E2). unfold task_rank, task_thr. rewrite Ht, Ht'. cbn.
  by rewrite E1, E2.
Qed.

#[export] Instance PTOps_spec : StrategySpec (PTOps bops MAX TS).
Proof using Hmax Hmax16 BitmapSpec0.
  refine {| st_cfg_ok := λ _, True; st_inv := pt_inv; st_ready := λ s, concat (m_tasks s);
            st_asleep := m_sleep; st_admissible := pt_admissible; st_weight_ok := pt_weight_ok |};
    cbn [st_AddTask st_RemoveTask st_GetNext st_GetFirst st_GetSize st_OnTaskSleep st_OnTaskWake st_OnTaskYield
         st_OnTaskTimeSlice st_OnTaskWeightChange st_ctor PTOps].
  - by intros c ts s [].
  - apply pt_same_weights.
  - intros c t t' (p & b & T & ?) Hs. destruct (same_weight_prio c _ _ Hs) as (E1 & E2 & E3).
    exists p, b, T. by rewrite E1, E2, E3.
  - intros c ts _. cbn. assert (Ec : ∀ n, concat (replicate n (@nil nat)) = []) by (induction n; done).
    destruct (bm_ctor_spec (ops := bops)) as [Hw Ht].
    rewrite Ec. split_and!; try done. split; cbn; try done; [by apply lv_init| |by rewrite Ec; constructor].
    split; try done; [apply length_replicate|..]; intros p x [? _]%lookup_replicate; subst; [apply Ht|done..].
  - intros c ts s i t _ Hi Ht Hni (p & b & T & Hp & Hb & HT & Hr).
    destruct (pt_AddTask c ts s i t p b T Hi Hni Ht Hp Hb HT Hr) as (s' & ? & ? & ? & Es & _).
    exists s'. by rewrite Es.
  - intros c ts s i _ Hi Hin. destruct (pt_RemoveTask c ts s i Hi Hin) as (s' & ? & ? & Ec & Es & _).
    exists s'. by rewrite Ec, Es.
  - intros c ts s _ Hi _. destruct (decide (concat (m_tasks s) = [])) as [Ec|Hne].
    + exists None, (set_running None s). rewrite pt_GetNext_none by done. split_and!; try done.
      by apply pt_set_running.
    + destruct (pt_GetNext c ts s Hi Hne) as (_ & x & s' & ? & ? & Et & Es & ? & _).
      exists (Some x), s'. by rewrite Et, Es.
  - intros c ts s _ Hi. apply pt_GetFirst, Hi.
  - intros c ts s _. apply pt_GetSize_spec.
  - intros c ts s i t _ Hi Ht Hsl Hin.
    destruct (pt_OnTaskSleep c ts s i t Hi Ht Hsl Hin) as (s' & ? & ? & Ec & Es & _).
    exists s'. rewrite Ec, Es. split_and!; try done. by rewrite Permutation_app_comm.
  - intros c ts s i t _ Hi Ht Hsl Hin.
    destruct (pt_OnTaskWake c ts s i t Hi Ht Hsl Hin) as (s' & ? & ? & Ec & Es & _). exists s'. by rewrite Es.
  - intros c ts s i _ Hi Hin. destruct (pt_OnTaskYield c ts s i Hi Hin) as (b & s' & ? & ? & Et & Es & _).
    exists b, s'. by rewrite Et, Es.
  - intros c ts s i _ Hi Hin. destruct (pt_OnTaskTimeSlice c ts s i Hi Hin) as (b & s' & ? & ? & Et & Es & _).
    exists b, s'. by rewrite Et, Es.
  - intros c ts s i t t' w _ Hi _ Ht Hw (p & T & Hp & Hlt & HT) Hin.
    destruct (pt_OnTaskWeightChange c ts s i t t' w p T Hi Ht Hw Hp Hlt HT Hin) as (s' & ? & ? & ? & Es & _).
    exists s'. by rewrite Es.
Defined.

(** ** The preemption guarantee *)

(** What may happen to the strategy while task [r] is ready: the tasks'
    records change except for their weights, any other task is added,
    removed, put to sleep, woken or yields, a quantum expires, another task
    changes its weight, and [GetNext] selects whatever it selects.  Only a
    task that runs or holds its level may not change its priority to one
    between [p] and [T], the priority and the threshold of [r]: it keeps its
    hold and would bring it to that level. *)
Inductive pt_event (c : KernelCfg) (r p : nat) (T : Z) : list KernelTask * PT B → list KernelTask * PT B → Prop :=
| ev_tasks ts ts' s : same_weights (concat (m_tasks s) ++ m_sleep s) ts ts' → pt_event c r p T (ts, s) (ts', s)
| ev_add ts s s' i t : i ≠ r → (i ∉ concat (m_tasks s) ++ m_sleep s) → ts !! i = Some t → pt_admissible c t →
    AddTask bops MAX TS c i (ts, s) = Ok (ts, s') → pt_event c r p T (ts, s) (ts, s')
| ev_remove ts s s' i : i ≠ r → i ∈ concat (m_tasks s) ++ m_sleep s →
    RemoveTask bops TS c i (ts, s) = Ok (ts, s') → pt_event c r p T (ts, s) (ts, s')
| ev_sleep ts s s' i t : i ≠ r → i ∈ concat (m_tasks s) → ts !! i = Some t → IsSleeping t = true →
    OnTaskSleep bops TS c i (ts, s) = Ok (ts, s') → pt_event c r p T (ts, s) (ts, s')
| ev_wake ts s s' i t : i ∈ m_sleep s → ts !! i = Some t → IsSleeping t = false →
    OnTaskWake bops c i (ts, s) = Ok (ts, s') → pt_event c r p T (ts, s) (ts, s')
| ev_yield ts s s' i b : i ≠ r → i ∈ concat (m_tasks s) ++ m_sleep s →
    OnTaskYield bops MAX TS c i (ts, s) = Ok (b, (ts, s')) → pt_event c r p T (ts, s) (ts, s')
| ev_slice ts s s' i b : i ∈ concat (m_tasks s) ++ m_sleep s →
    OnTaskTimeSlice bops MAX TS c i (ts, s) = Ok (b, (ts, s')) → pt_event c r p T (ts, s) (ts, s')
| ev_weight ts s s' i t t' w q : i ≠ r → i ∈ concat (m_tasks s) ++ m_sleep s → ts !! i = Some t → GetWeight c t = Ok w →
    pt_weight_ok c t' → GetTaskPriority c t' = Ok q →
    (m_running s ≠ Some i ∧ (∀ l, m_held s !! l ≠ Some (Some i)) ∨ (q ≤ Z.of_nat p ∨ T < q)%Z) →
    OnTaskWeightChange bops MAX TS c i w (<[i := t']> ts, s) = Ok (<[i := t']> ts, s') →
    pt_event c r p T (ts, s) (<[i := t']> ts, s')
| ev_next ts s s' x : GetNext bops TS c (ts, s) = Ok (x, (ts, s')) → pt_event c r p T (ts, s) (ts, s').

(** [r] holds its level [p] under its threshold [T], and whoever holds a higher
    level is above [T]. *)
Definition guarded (H : list (option nat)) (r p : nat) (T : Z) : Prop :=
  H !! p = Some (Some r) ∧ ∀ q x, H !! q = Some (Some x) → p < q → (T < Z.of_nat q)%Z.
Definition protected (c : KernelCfg) (r p : nat) (T : Z) (st : list KernelTask * PT B) : Prop :=
  pt_inv c st.1 st.2 ∧ guarded (m_held st.2) r p T ∧ task_thr c st.1 r = Some T ∧ (Z.of_nat p < T)%Z.

Lemma guarded_drop H r p T q i : i ≠ r → guarded H r p T → guarded (drop_held q i H) r p T.
Proof using.
  intros Hne [E M]. unfold drop_held. case_decide as Ed; [|done]. split.
  - destruct (decide (q = p)) as [->|]; [congruence|]. by rewrite list_lookup_insert_ne.
  - intros p' x [(_ & ? & _)|[_ Hx]]%list_lookup_insert_Some; [done|]. by eapply M.
Qed.

Lemma guarded_hold H r p T q x : (Z.of_nat p < T)%Z → (T < Z.of_nat q)%Z → guarded H r p T → guarded (<[q := Some x]> H) r p T.
Proof using.
  intros Hp Hq [E M]. split.
  - rewrite list_lookup_insert_ne by lia. done.
  - intros p' y [(<- & _)|[_ Hx]]%list_lookup_insert_Some; [done|]. by eapply M.
Qed.

Lemma guarded_moved s s' r p T i q : i ≠ r → held_moved s s' i q →
  (m_running s ≠ Some i ∧ (∀ l, m_held s !! l ≠ Some (Some i)) ∨ q ≤ p ∨ (T < Z.of_nat q)%Z) →
  guarded (m_held s) r p T → guarded (m_held s') r p T.
Proof using.
  intros Hne [H1 H2] Hq [E M]. split; [by apply H1|]. intros p' x Hx Hlt.
  destruct (H2 p' x Hx) as [?|(-> & -> & Hi)]; [by eapply M|].
  destruct Hq as [[Hr Hl]|[?|?]]; [|lia|done]. destruct Hi as [?|[p0 ?]]; [done|]. by destruct (Hl p0).
Qed.

Lemma protected_ready c r p T st : protected c r p T st → r ∈ concat (m_tasks st.2).
Proof using.
  intros (Hi & [Hh _] & _). destruct (h_in _ _ _ _ _ (pt_held _ _ _ Hi) p r Hh) as (l & ? & ?).
  apply elem_of_concat. eauto.
Qed.

(** A holder's level is its priority, and it is ready. *)
Lemma holder_rank c ts s q x : pt_inv c ts s → m_held s !! q = Some (Some x) →
  task_rank c ts x = Some q ∧ x ∈ concat (m_tasks s).
Proof using.
  intros Hi Hx. destruct (h_in _ _ _ _ _ (pt_held _ _ _ Hi) q x Hx) as (l & Hl & Hxl).
  split; [by eapply (lv_rank _ _ _ _ _ _ (pt_levels _ _ _ Hi))|]. apply elem_of_concat. eauto.
Qed.

Lemma protected_next c ts s r p T : protected c r p T (ts, s) →
  ∃ x s', GetNext bops TS c (ts, s) = Ok (Some x, (ts, s')) ∧ protected c r p T (ts, s') ∧
    (x = r ∨ ∃ px, task_rank c ts x = Some px ∧ (T < Z.of_nat px)%Z).
Proof using Hmax Hmax16.
  intros Hpr. assert (Hr := protected_ready _ _ _ _ _ Hpr). destruct Hpr as (Hi & [Hh Hab] & HT & Hlt). cbn in *.
  destruct (pt_GetNext c ts s Hi) as (hi & x & s' & E & Hi' & _ & _ & _ & Hmaxi & Hcase).
  { intros Ec. rewrite Ec in Hr. by apply not_elem_of_nil in Hr. }
  exists x, s'. split; [done|]. destruct Hcase as [(p' & T' & [Hx Htop] & HT' & Hle & Eh)|(T' & Hrx & HT' & Hno & Eh)].
  - split; [by split_and!; cbn; rewrite ?Eh|]. destruct (decide (p' = p)) as [->|Hne]; [left; congruence|]. right.
    exists p'. split; [by apply (holder_rank c ts s)|]. apply (Hab p' x Hx). specialize (Htop p r Hh). lia.
  - assert (Hhi : (T < Z.of_nat hi)%Z).
    { destruct (held_highest c ts s Hi) as [[_ Hn]|(_ & q & y & _ & _ & Htop)]; [by apply Hn in Hh|].
      assert (Hpq := proj2 Htop p r Hh). destruct (decide (q = p)) as [->|Hne].
      - apply (Hno r p T); [|done]. destruct Htop as [E1 ?]. rewrite Hh in E1. by simplify_eq.
      - destruct (holder_rank c ts s q y Hi (proj1 Htop)) as [Hy Hyr]. specialize (Hmaxi y q Hyr Hy).
        specialize (Hab q y (proj1 Htop)). lia. }
    split; [|right; eauto]. split_and!; cbn; [done| |done..]. rewrite Eh. case_decide; [by apply guarded_hold|done].
Qed.

(** A task selected below its threshold is guarded. *)
Lemma protected_start c ts s r p T s1 : pt_inv c ts s →
  GetNext bops TS c (ts, s) = Ok (Some r, (ts, s1)) → task_rank c ts r = Some p →
  task_thr c ts r = Some T → (Z.of_nat p < T)%Z → protected c r p T (ts, s1).
Proof using Hmax Hmax16.
  intros Hi E Hr HT Hlt. destruct (decide (concat (m_tasks s) = [])) as [Ec|Hne].
  { rewrite (pt_GetNext_none c ts s Hi Ec) in E. done. }
  destruct (pt_GetNext c ts s Hi Hne) as (hi & x & s' & E' & Hi' & _ & _ & Hx & Hmaxi & Hcase). rewrite E in E'.
  simplify_eq. split_and!; cbn; try done. destruct Hcase as [(p' & T' & Htop & HT' & Hle & Eh)|(T' & Hrx & HT' & Hno & Eh)].
  - rewrite <- Eh in Htop. rewrite (pt_held_level c ts s' x p p' Hi' Hr (proj1 Htop)) in Htop.
    destruct Htop as [? Htop]. split; [done|]. intros q y Hy. specialize (Htop q y Hy). lia.
  - simplify_eq. rewrite decide_True in Eh by done. rewrite Eh.
    assert (Hlen : p < length (m_held s)).
    { destruct (task_rank_spec _ _ _ _ Hr) as (_ & _ & _ & _ & _ & _ & Hp & _).
      by rewrite (h_len _ _ _ _ _ (pt_held _ _ _ Hi)). }
    split; [by apply list_lookup_insert_eq|].
    intros p' y [(<- & _)|[_ Hy]]%list_lookup_insert_Some; [lia|].
    destruct (holder_rank c ts s p' y Hi Hy) as [Hyr Hyc]. specialize (Hmaxi y p' Hyc Hyr). lia.
Qed.

Lemma protected_event c r p T st st' : protected c r p T st → pt_event c r p T st st' → protected c r p T st'.
Proof using Hmax Hmax16.
  intros Hpr Hev. assert (Hr := protected_ready _ _ _ _ _ Hpr).
  assert (Hkeep : ∀ ts s s', (ts, s) = st → pt_inv c ts s' → guarded (m_held s') r p T → protected c r p T (ts, s')).
  { intros ts s s' <- Hi' Ht'. destruct Hpr as (_ & _ & ? & ?). done. }
  assert (Hinv : ∀ ts s, (ts, s) = st → pt_inv c ts s ∧ guarded (m_held s) r p T).
  { intros ts s <-. by destruct Hpr as (? & ? & _). }
  destruct Hev as [ts ts' s Hsw|ts s s' i t Hne Hni Ht (q & b & T' & Hp & Hb & HT' & Hle) E|ts s s' i Hne Hin E
    |ts s s' i t Hne Hin Ht Hsl E|ts s s' i t Hin Ht Hsl E|ts s s' i b Hne Hin E|ts s s' i b Hin E
    |ts s s' i t t' w q Hne Hin Ht Hw (q' & T' & Hq' & Hlt & HT') Hq Hmv E|ts s s' x E];
    destruct (Hinv ts s eq_refl) as [Hi Htop].
  - split_and!; cbn; [by apply (pt_same_weights c ts)|done|..]; destruct Hpr as (_ & _ & HT & Hlt); [|done].
    cbn in *. unfold task_thr in *. destruct (ts !! r) as [t|] eqn:Et; [|done].
    destruct (Hsw r t) as (t' & -> & Hs); [set_solver|done|]. cbn in *.
    by destruct (same_weight_prio c _ _ Hs) as (_ & _ & ->).
  - destruct (pt_AddTask c ts s i t q b T' Hi Hni Ht Hp Hb HT' Hle) as (s1 & E1 & ? & _ & _ & Eh). rewrite E in E1. simplify_eq.
    apply (Hkeep ts s); [done..|]. by rewrite Eh.
  - destruct (pt_RemoveTask c ts s i Hi Hin) as (s1 & E1 & ? & _ & _ & q & Eh). rewrite E in E1. simplify_eq.
    apply (Hkeep ts s); [done..|]. rewrite Eh. by apply guarded_drop.
  - destruct (pt_OnTaskSleep c ts s i t Hi Ht Hsl Hin) as (s1 & E1 & ? & _ & _ & q & Eh). rewrite E in E1. simplify_eq.
    apply (Hkeep ts s); [done..|]. rewrite Eh. by apply guarded_drop.
  - destruct (pt_OnTaskWake c ts s i t Hi Ht Hsl Hin) as (s1 & E1 & ? & _ & _ & Eh). rewrite E in E1. simplify_eq.
    apply (Hkeep ts s); [done..|]. by rewrite Eh.
  - destruct (pt_OnTaskYield c ts s i Hi Hin) as (b1 & s1 & E1 & ? & _ & _ & q & Eh). rewrite E in E1. simplify_eq.
    apply (Hkeep ts s); [done..|]. rewrite Eh. by apply guarded_drop.
  - destruct (pt_OnTaskTimeSlice c ts s i Hi Hin) as (b1 & s1 & E1 & ? & _ & _ & Eh). rewrite E in E1. simplify_eq.
    apply (Hkeep ts s); [done..|]. by rewrite Eh.
  - rewrite Hq in Hq'. injection Hq' as <-. destruct (pt_OnTaskWeightChange c ts s i t t' w q T' Hi Ht Hw Hq Hlt HT' Hin)
      as (s1 & E1 & Hi1 & _ & _ & Hm). rewrite E in E1. simplify_eq. destruct Hpr as (_ & _ & HT & HpT). cbn in *.
    split_and!; cbn; [done| |unfold task_thr in *; by rewrite list_lookup_insert_ne|done].
    eapply guarded_moved; [done..| |done]. destruct Hmv as [?|[?|?]]; [by left|right; left; lia|right; right; lia].
  - destruct (protected_next c ts s r p T Hpr) as (y & s1 & E1 & ? & _). rewrite E in E1. by simplify_eq.
Qed.
End invariant.

(** C11. The preemption-threshold guarantee: once [GetNext] has selected a task
    [r] whose threshold [T] is above its priority [p], then through every
    sequence of events of the other tasks (added, removed, asleep, woken,
    yielding, at the end of a quantum, changing weight, selected above [T]),
    as long as [r] itself neither sleeps, yields, leaves nor changes weight, and
    no other task that runs or holds its level changes its priority to one
    between [p] and [T], every [GetNext] answers [r] or a task whose priority is
    strictly above [T]; it always answers one. *)
Theorem pt_preemption_guarantee {B} (bops : BitmapOps B) `{!BitmapSpec bops} (MAX : Z) (TS : bool)
    (c : KernelCfg) (ts ts2 : list KernelTask) (s s1 s2 : PT B) (r p : nat) (T : Z) :
  (1 ≤ MAX ≤ CAPACITY bops)%Z → (MAX ≤ 32768)%Z → pt_inv bops MAX c ts s →
  GetNext bops TS c (ts, s) = Ok (Some r, (ts, s1)) →
  task_rank MAX c ts r = Some p → task_thr c ts r = Some T → (Z.of_nat p < T)%Z →
  rtc (pt_event bops MAX TS c r p T) (ts, s1) (ts2, s2) →
  ∃ x s3, GetNext bops TS c (ts2, s2) = Ok (Some x, (ts2, s3)) ∧
    (x = r ∨ ∃ px, task_rank MAX c ts2 x = Some px ∧ (T < Z.of_nat px)%Z).
Proof.
  intros Hm H16 Hi E Hr HT Hlt Hsteps.
  assert (Hp1 : protected bops MAX c r p T (ts, s1)) by (by apply (protected_start bops MAX TS Hm H16 c ts s)).
  assert (Hp2 : protected bops MAX c r p T (ts2, s2)).
  { clear -Hp1 Hsteps Hm H16. induction Hsteps as [|st st1 st2 Hev _ IH]; [done|].
    apply IH. by eapply protected_event. }
  destruct (protected_next bops MAX TS Hm H16 c ts2 s2 r p T Hp2) as (x & s3 & Ex & _ & Hx).
  by exists x, s3.
Qed.

(** A task of priority 1 and threshold 2, and sleeping tasks of priorities 2 and
    3. *)
Definition pt_example_cfg : KernelCfg := mkCfg 10 (EConfig false).
Definition pt_example_tasks : list KernelTask :=
  (λ w, with_rt_weight NO_WEIGHT (with_base_weight w KernelTask_ctor)) <$> [MakeWeight 1 2; MakeWeight 2 2; MakeWeight 3 3].
Definition pt_example : PT Z :=
  mkPT [[]; [0]; []; []] [1; 2] 2%Z 0%Z 0%Z None [None; Some 0; None; None] [None; None; None; None].
(** Task 0 is selected; then the others wake up, task 2 preempts it and goes
    back to sleep. *)
Definition pt_example1 : PT Z :=
  mkPT [[]; [0]; []; []] [1; 2] 2%Z 2%Z 0%Z (Some 0) [None; Some 0; None; None] [None; Some 0; None; None].
Definition pt_example2 : PT Z :=
  mkPT [[]; [0]; [1]; []] [2] 6%Z 2%Z 0%Z (Some 0) [None; Some 0; Some 1; None] [None; Some 0; None; None].
Definition pt_example3 : PT Z :=
  mkPT [[]; [0]; [1]; [2]] [] 14%Z 2%Z 0%Z (Some 0) [None; Some 0; Some 1; Some 2] [None; Some 0; None; None].
Definition pt_example4 : PT Z := set_running (Some 2) pt_example3.
Definition pt_example_tasks' : list KernelTask := alter (with_sleep (-5)) 2 pt_example_tasks.
Definition pt_example5 : PT Z :=
  mkPT [[]; [0]; [1]; []] [2] 6%Z 2%Z 0%Z None [None; Some 0; Some 1; None] [None; Some 0; None; None].

Lemma pt_example_inv : pt_inv U32Bitmap 4 pt_example_cfg pt_example_tasks pt_example.
Proof.
  split; try done; [split; try done|split; try done|repeat constructor; eexists; vm_compute; done|decided].
  - intros p l q Hl Hq. do 4 (destruct p as [|p]; [injection Hl as <-; injection Hq as <-; split; decided|]). done.
  - intros p l i Hl Hi. do 4 (destruct p as [|p]; [injection Hl as <-; set_unfold in Hi; naive_solver|]). done.
  - intros p l Hl. do 4 (destruct p as [|p]; [by injection Hl as <-|]). done.
  - intros p Hp. apply Z.bits_above_log2; cbn in *; lia.
  - intros p h Hh. do 4 (destruct p as [|p]; [by injection Hh as <-|]). done.
  - intros p _. apply Z.bits_0.
  - intros p x Hh. do 4 (destruct p as [|p]; [done|]). done.
  - intros p x Hh. do 4 (destruct p as [|p]; [done|]). done.
Qed.

Lemma pt_example_run : rtc (pt_event U32Bitmap 4 false pt_example_cfg 0 1 2)
  (pt_example_tasks, pt_example1) (pt_example_tasks', pt_example5).
Proof.
  apply (rtc_l _ _ (pt_example_tasks, pt_example2)); [eapply ev_wake with (i := 1); [decided|done..]|].
  apply (rtc_l _ _ (pt_example_tasks, pt_example3)); [eapply ev_wake with (i := 2); [decided|done..]|].
  apply (rtc_l _ _ (pt_example_tasks, pt_example4)); [by eapply ev_next with (x := Some 2)|].
  apply (rtc_l _ _ (pt_example_tasks', pt_example4)).
  { apply ev_tasks. intros i t _ Ht. do 3 (destruct i as [|i]; [injection Ht as <-; by eexists|]). done. }
  apply rtc_once. eapply ev_sleep with (i := 2); [done|decided|done..].
Qed.

(** Task 1 is ready and of a higher priority than task 0, yet task 0 goes on. *)
Lemma pt_preemption_guarantee_witness :
  ∃ x s3, GetNext U32Bitmap false pt_example_cfg (pt_example_tasks', pt_example5) = Ok (Some x, (pt_example_tasks', s3)) ∧
    (x = 0 ∨ ∃ px, task_rank 4 pt_example_cfg pt_example_tasks' x = Some px ∧ (2 < Z.of_nat px)%Z).
Proof.
  apply (pt_preemption_guarantee U32Bitmap 4 false pt_example_cfg pt_example_tasks pt_example_tasks'
    pt_example pt_example1 pt_example5 0 1 2); [cbn; lia|lia|apply pt_example_inv|done|done|done|lia|].
  apply pt_example_run.
Defined.

End PThreshold.
