(* ===== verification/Edf.v ===== *)
(** * Earliest-deadline-first scheduling ([stk_strategy_edf.h])

    [SwitchStrategyEDF]: the ready task with the smallest relative deadline runs,
    the one linked first on a tie. *)

From S2P Require Import Prelude KernelTask Strategy.
Import KTask Strat.

Module Edf.

Record EDF := mkEDF { m_tasks : list nat; m_sleep : list nat }.

Definition EConfig : StrategyConfig := mkStrategyConfig false true false false false false.
Definition EDF_ctor : EDF := mkEDF [] [].

Definition in_tasks (s : EDF) (i : nat) : bool := bool_decide (i ∈ m_tasks s).
Definition in_sleep (s : EDF) (i : nat) : bool := bool_decide (i ∈ m_sleep s).
Definition linked (s : EDF) (i : nat) : bool := in_tasks s i || in_sleep s i.

Definition GetSize (s : EDF) : Z := (Size (m_tasks s) + Size (m_sleep s))%Z.

Definition AddTask (c : KernelCfg) (i : nat) (st : list KernelTask * EDF) : res (list KernelTask * EDF) :=
  let '(ts, s) := st in
  assert! negb (linked s i);
  l ← LinkBack (linked s i) (m_tasks s) i;
  Ok (ts, mkEDF l (m_sleep s)).

Definition RemoveTask (c : KernelCfg) (i : nat) (st : list KernelTask * EDF) : res (list KernelTask * EDF) :=
  let '(ts, s) := st in
  assert! negb (bool_decide (GetSize s = 0%Z));
  assert! (in_tasks s i || in_sleep s i);
  if in_tasks s i then l ← Unlink (m_tasks s) i; Ok (ts, mkEDF l (m_sleep s))
  else l ← Unlink (m_sleep s) i; Ok (ts, mkEDF (m_tasks s) l).

(** The body of the loop of [GetNext] on [(earliest, next)]. *)
Definition GetNext_body (c : KernelCfg) (ts : list KernelTask) (itr : nat) (a : Z * nat)
  : res ((Z * nat) * bool) :=
  t ← get ts itr;
  deadline ← GetHrtRelativeDeadline c t;
  Ok (if (deadline <? a.1)%Z then (deadline, itr) else a, false).

Definition GetNext (c : KernelCfg) (st : list KernelTask * EDF)
  : res (option nat * (list KernelTask * EDF)) :=
  let '(ts, s) := st in
  match m_tasks s with
  | [] => Ok (None, (ts, s))
  | start :: _ =>
      t ← get ts start;
      earliest ← GetHrtRelativeDeadline c t;
      itr ← Next (m_tasks s) start;
      '(_, next) ← (if bool_decide (itr = start) then Ok (earliest, start)
                    else ring_loop (length (m_tasks s)) (m_tasks s) start itr (GetNext_body c ts) (earliest, start));
      Ok (Some next, (ts, s))
  end.

Definition GetFirst (c : KernelCfg) (st : list KernelTask * EDF) : res (option nat) :=
  let '(ts, s) := st in
  assert! negb (bool_decide (GetSize s = 0%Z));
  Ok (match m_tasks s with [] => head (m_sleep s) | x :: _ => Some x end).

Definition OnTaskSleep (c : KernelCfg) (i : nat) (st : list KernelTask * EDF) : res (list KernelTask * EDF) :=
  let '(ts, s) := st in
  t ← get ts i;
  assert! IsSleeping t;
  assert! in_tasks s i;
  l ← Unlink (m_tasks s) i;
  k ← LinkBack (linked (mkEDF l (m_sleep s)) i) (m_sleep s) i;
  Ok (ts, mkEDF l k).

Definition OnTaskWake (c : KernelCfg) (i : nat) (st : list KernelTask * EDF) : res (list KernelTask * EDF) :=
  let '(ts, s) := st in
  t ← get ts i;
  assert! negb (IsSleeping t);
  assert! in_sleep s i;
  k ← Unlink (m_sleep s) i;
  l ← LinkBack (linked (mkEDF (m_tasks s) k) i) (m_tasks s) i;
  Ok (ts, mkEDF l k).

Definition EDFOps : StrategyOps EDF :=
  mkStrategyOps EDF EConfig EDF_ctor AddTask RemoveTask GetNext GetFirst GetSize OnTaskSleep OnTaskWake
    OnTaskYield_default OnTaskTimeSlice_default OnTaskDeadlineMissed_default OnTaskWeightChange_default.

(** ** Correctness *)

Definition edf_inv (s : EDF) : Prop := NoDup (m_tasks s ++ m_sleep s).

(** Relative deadline of a task. *)
Definition rel (ts : list KernelTask) (i : nat) : Z :=
  match ts !! i with Some t => deadline (m_hrt t) - duration (m_hrt t) | None => 0 end%Z.

Lemma GetHrtRelativeDeadline_ok c ts i : IsHrtMode c = true → runnable ts i →
  ∃ t, get ts i = Ok t ∧ GetHrtRelativeDeadline c t = Ok (rel ts i).
Proof.
  intros Hc (t & Ht & Hsl & Hd & Hu). exists t. unfold get, GetHrtRelativeDeadline, rel, i32. rewrite Ht, Hc, Hsl.
  split; [done|]. cbn. rewrite bool_decide_eq_true_2; [done|]. unfold in_i32, INT32_MIN, INT32_MAX in *. lia.
Qed.

Lemma edf_GetNext_body_ok c ts y a : IsHrtMode c = true → runnable ts y →
  GetNext_body c ts y a = Ok (if (rel ts y <? a.1)%Z then (rel ts y, y) else a, false).
Proof.
  intros Hc Hy. destruct (GetHrtRelativeDeadline_ok c ts y Hc Hy) as (t & Et & Ed).
  unfold GetNext_body. rewrite Et. cbn. by rewrite Ed.
Qed.

(** The loop keeps the first task of minimal deadline. *)
Lemma edf_GetNext_fold c ts l e n : IsHrtMode c = true → Forall (runnable ts) l → e = rel ts n →
  ∃ e' x, fold_break (GetNext_body c ts) l (e, n) = Ok (e', x) ∧ e' = rel ts x ∧
    (∀ j, j ∈ n :: l → rel ts x ≤ rel ts j)%Z ∧
    (x = n ∨ ∃ l1 l2, l = l1 ++ x :: l2 ∧ ∀ j, j ∈ n :: l1 → (rel ts x < rel ts j)%Z).
Proof.
  intros Hc. revert e n. induction l as [|y l IH]; intros e n Hr He.
  { exists e, n. split_and!; try done; [|by left]. intros j ->%list_elem_of_singleton. done. }
  apply Forall_cons in Hr as [Hy Hr]. cbn [fold_break]. rewrite edf_GetNext_body_ok by done.
  cbn [mbind res_bind fst].
  destruct (Z.ltb_spec (rel ts y) e) as [Hlt|Hge].
  - destruct (IH (rel ts y) y Hr eq_refl) as (e' & x & -> & -> & Hmin & Hpos). exists (rel ts x), x.
    assert (Hxy : (rel ts x ≤ rel ts y)%Z) by (apply Hmin; left).
    split_and!; try done.
    + intros j [->|Hj]%elem_of_cons; [lia|]. by apply Hmin.
    + right. destruct Hpos as [->|(l1 & l2 & -> & Hl)].
      * exists [], l. split; [done|]. intros j ->%list_elem_of_singleton. lia.
      * exists (y :: l1), l2. split; [done|]. intros j [->|Hj]%elem_of_cons; [|by apply Hl].
        assert (rel ts x < rel ts y)%Z by (apply Hl; left). lia.
  - destruct (IH e n Hr He) as (e' & x & -> & -> & Hmin & Hpos). exists (rel ts x), x.
    assert (Hxn : (rel ts x ≤ rel ts n)%Z) by (apply Hmin; left).
    split_and!; try done.
    + intros j [->|[->|Hj]%elem_of_cons]%elem_of_cons; [done|lia|]. apply Hmin. by right.
    + destruct Hpos as [->|(l1 & l2 & -> & Hl)]; [by left|]. right. exists (y :: l1), l2. split; [done|].
      intros j [->|[->|Hj]%elem_of_cons]%elem_of_cons; [apply Hl; left| |apply Hl; by right].
      assert (rel ts x < rel ts n)%Z by (apply Hl; left). lia.
Qed.

Lemma edf_GetNext c ts s x0 k : IsHrtMode c = true → edf_inv s → Forall (runnable ts) (m_tasks s) →
  m_tasks s = x0 :: k →
  ∃ x l1 l2, GetNext c (ts, s) = Ok (Some x, (ts, s)) ∧ m_tasks s = l1 ++ x :: l2 ∧
    (∀ j, j ∈ l1 → rel ts x < rel ts j)%Z ∧ (∀ j, j ∈ l2 → rel ts x ≤ rel ts j)%Z.
Proof.
  intros Hc Hi Hr El. unfold GetNext. rewrite El in *. unfold edf_inv in Hi. rewrite El in Hi.
  apply NoDup_app in Hi as (Hn & _). apply Forall_cons in Hr as [Hx Hr].
  destruct (GetHrtRelativeDeadline_ok c ts x0 Hc Hx) as (t & -> & Ed). cbn [mbind res_bind]. rewrite Ed. cbn [mbind res_bind].
  unfold Next. rewrite (cnext_mid x0 [] k) by set_solver.
  destruct (edf_GetNext_fold c ts k (rel ts x0) x0 Hc Hr eq_refl) as (e & x & Ef & -> & Hmin & Hpos).
  destruct k as [|y k].
  - cbn [head app deref mbind res_bind]. rewrite bool_decide_eq_true_2 by done. cbn [mbind res_bind].
    exists x0, [], []. split_and!; set_solver.
  - cbn [head app deref mbind res_bind].
    rewrite bool_decide_eq_false_2 by (intros ->; apply NoDup_cons in Hn as [Hn _]; set_solver).
    rewrite (ring_loop_fold _ [x0] y k) by (done || cbn; lia). rewrite Ef. cbn [mbind res_bind]. exists x.
    destruct Hpos as [->|(l1 & l2 & E & Hl)].
    + exists [], (y :: k). split_and!; set_solver.
    + exists (x0 :: l1), l2. rewrite E in *. split_and!; try done. intros j Hj. apply Hmin. set_solver.
Qed.

Lemma edf_linked_false s i : (i ∉ m_tasks s) → (i ∉ m_sleep s) → linked s i = false.
Proof. intros. unfold linked, in_tasks, in_sleep. by rewrite !bool_decide_eq_false_2. Qed.

Lemma size_ne s i : i ∈ m_tasks s ++ m_sleep s → GetSize s ≠ 0%Z.
Proof.
  intros Hin. unfold GetSize, Size. destruct (m_tasks s), (m_sleep s); simpl; [set_solver|lia..].
Qed.

Lemma NoDup_move (a b : list nat) i : NoDup (a ++ b) → i ∈ a → NoDup (list_remove1 i a ++ b ++ [i]).
Proof.
  intros Hn Hi. rewrite app_assoc, (Permutation_app_comm _ [i]).
  rewrite (remove1_perm i a) in Hn by (done || by apply NoDup_app in Hn as (? & _)). done.
Qed.

Lemma edf_Sleep c ts s i t : edf_inv s → ts !! i = Some t → IsSleeping t = true → i ∈ m_tasks s →
  ∃ s', OnTaskSleep c i (ts, s) = Ok (ts, s') ∧ edf_inv s' ∧
    m_tasks s' = list_remove1 i (m_tasks s) ∧ m_sleep s' = m_sleep s ++ [i].
Proof.
  intros Hi Ht Hs Hin. unfold OnTaskSleep, get, in_tasks. rewrite Ht. cbn [deref mbind res_bind]. rewrite Hs.
  cbn [stk_assert]. rewrite bool_decide_eq_true_2 by done. cbn [stk_assert]. rewrite Unlink_ok by done.
  cbn [mbind res_bind]. rewrite edf_linked_false; cbn.
  - eexists. split; [done|]. split; [by apply NoDup_move|done].
  - rewrite elem_of_remove1. naive_solver.
  - apply NoDup_app in Hi as (_ & Hd & _). by apply Hd.
Qed.

Lemma edf_Wake c ts s i t : edf_inv s → ts !! i = Some t → IsSleeping t = false → i ∈ m_sleep s →
  ∃ s', OnTaskWake c i (ts, s) = Ok (ts, s') ∧ edf_inv s' ∧
    m_tasks s' = m_tasks s ++ [i] ∧ m_sleep s' = list_remove1 i (m_sleep s).
Proof.
  intros Hi Ht Hs Hin. unfold OnTaskWake, get, in_sleep. rewrite Ht. cbn [deref mbind res_bind]. rewrite Hs.
  cbn [negb stk_assert]. rewrite bool_decide_eq_true_2 by done. cbn [stk_assert]. rewrite Unlink_ok by done.
  cbn [mbind res_bind]. rewrite edf_linked_false; cbn.
  - eexists. split; [done|]. split; [|done]. unfold edf_inv in *. cbn. rewrite Permutation_app_comm.
    apply NoDup_move; [by rewrite Permutation_app_comm|done].
  - apply NoDup_app in Hi as (_ & Hd & _). intros ?. by apply (Hd i).
  - rewrite elem_of_remove1. naive_solver.
Qed.

Lemma edf_Remove c ts s i : edf_inv s → i ∈ m_tasks s ++ m_sleep s →
  ∃ s', RemoveTask c i (ts, s) = Ok (ts, s') ∧ edf_inv s' ∧
    m_tasks s' = list_remove1 i (m_tasks s) ∧ m_sleep s' = list_remove1 i (m_sleep s).
Proof.
  intros Hi Hin. unfold RemoveTask. rewrite (bool_decide_eq_false_2 (GetSize s = 0%Z)) by (by eapply size_ne).
  cbn [negb stk_assert]. unfold in_tasks, in_sleep.
  assert (Hnd : NoDup (list_remove1 i (m_tasks s) ++ list_remove1 i (m_sleep s)))
    by (rewrite <- remove1_app; by apply NoDup_remove1).
  case_bool_decide as E1; cbn [orb stk_assert].
  - rewrite Unlink_ok by done. cbn. assert (Es := remove1_two' _ _ i Hi E1). rewrite Es in *.
    eexists. by split_and!.
  - assert (E2 : i ∈ m_sleep s) by set_solver. rewrite bool_decide_eq_true_2, Unlink_ok by done. cbn.
    assert (Es := remove1_two _ _ i Hi E2). rewrite Es in *. eexists. by split_and!.
Qed.

#[global] Instance EDFOps_spec : StrategySpec EDFOps.
Proof.
  refine {| st_cfg_ok := λ c, IsHrtMode c = true; st_inv := λ _ _ s, edf_inv s; st_ready := m_tasks;
            st_asleep := m_sleep; st_admissible := λ _ _, True; st_weight_ok := λ _ _, True |};
    cbn [st_AddTask st_RemoveTask st_GetNext st_GetFirst st_GetSize st_OnTaskSleep st_OnTaskWake st_OnTaskYield
         st_OnTaskTimeSlice st_OnTaskWeightChange st_ctor st_config EDFOps]; try done.
  - intros _ _ _. split; [constructor|done].
  - intros c ts s i t _ Hi _ Hni _. assert (Hni' := Hni). apply not_elem_of_app in Hni' as [H1 H2].
    unfold AddTask. rewrite edf_linked_false by done. cbn. eexists. split; [done|]. cbn. split; [|split; [|done]].
    + unfold edf_inv. cbn. rewrite <- app_assoc, (Permutation_app_comm [i]), app_assoc, (Permutation_app_comm _ [i]).
      by constructor.
    + by rewrite Permutation_app_comm.
  - intros c ts s i _ Hi Hin. destruct (edf_Remove c ts s i Hi Hin) as (s' & ? & ? & Et & Es).
    exists s'. by rewrite Et, Es.
  - intros c ts s Hc Hi Hr. destruct (m_tasks s) as [|x k] eqn:El.
    + exists None, s. unfold GetNext. rewrite El. done.
    + destruct (edf_GetNext c ts s x k Hc Hi) as (y & l1 & l2 & E & El' & _); [by rewrite El|done|].
      exists (Some y), s. rewrite El' in El. rewrite <- El. split_and!; try done; [by rewrite El'|set_solver].
  - intros c ts s _ _ Hne. destruct (_ ++ _) as [|x k] eqn:E; [done|]. unfold GetFirst.
    rewrite (bool_decide_eq_false_2 (GetSize s = 0%Z)) by (apply (size_ne s x); rewrite E; left).
    cbn [negb stk_assert]. exists x. rewrite <- E. destruct (m_tasks s) as [|y l]; cbn in *; simplify_eq.
    + rewrite E. split; [done|left].
    + split; [done|left].
  - intros _ _ s _. unfold GetSize, Size. rewrite length_app. lia.
  - intros c ts s i t _ Hi Ht Hs Hin. destruct (edf_Sleep c ts s i t Hi Ht Hs Hin) as (s' & ? & ? & Et & Es).
    exists s'. rewrite Et, Es. split_and!; try done. by rewrite Permutation_app_comm.
  - intros c ts s i t _ Hi Ht Hs Hin. destruct (edf_Wake c ts s i t Hi Ht Hs Hin) as (s' & ? & ? & Et & Es).
    exists s'. rewrite Et, Es. split_and!; try done. by rewrite Permutation_app_comm.
  - intros c ts s i _ Hi _. by exists false, s.
  - intros c ts s i _ Hi _. by exists false, s.
Defined.

(** [GetNext] is earliest deadline first: it returns a ready task of minimal
    relative deadline, the first one in link order among equals, changes
    nothing, and no assertion or overflow occurs on the way. *)
Theorem edf_earliest_deadline (c : KernelCfg) (ts : list KernelTask) (s : EDF) :
  IsHrtMode c = true → edf_inv s → Forall (runnable ts) (m_tasks s) → m_tasks s ≠ [] →
  ∃ x l1 l2, GetNext c (ts, s) = Ok (Some x, (ts, s)) ∧ m_tasks s = l1 ++ x :: l2 ∧
    (∀ j, j ∈ l1 → rel ts x < rel ts j)%Z ∧ (∀ j, j ∈ l2 → rel ts x ≤ rel ts j)%Z.
Proof.
  intros Hc Hi Hr Hne. destruct (m_tasks s) as [|x0 k] eqn:El; [done|]. rewrite <- El.
  eapply edf_GetNext; [done|done|by rewrite El|done].
Qed.

Lemma edf_earliest_deadline_witness :
  let t d u := with_hrt (mkHrt 100 d u false) KernelTask_ctor in
  let ts := [t 50 10; t 60 35; t 30 5]%Z in
  let s := mkEDF [0; 1; 2] [] in
  ∃ x l1 l2, GetNext (mkCfg 4 EConfig) (ts, s) = Ok (Some x, (ts, s)) ∧ m_tasks s = l1 ++ x :: l2 ∧
    (∀ j, j ∈ l1 → rel ts x < rel ts j)%Z ∧ (∀ j, j ∈ l2 → rel ts x ≤ rel ts j)%Z.
Proof.
  apply edf_earliest_deadline; [done|unfold edf_inv; cbn; decided| |done].
  repeat constructor; eexists; (split; [reflexivity|]); (split; [reflexivity|]); cbn;
    unfold INT32_MAX; lia.
Defined.


End Edf.
