(* ===== verification/Monotonic.v ===== *)
(** * Rate- and deadline-monotonic scheduling ([stk_strategy_monotonic.h])

    [SwitchStrategyMonotonic]: one list of all tasks, sorted by period or by
    deadline when they are added; the first one that is awake runs.
    [SchedulabilityCheck]: worst-case response times by fixed-point iteration,
    in the wrapping 32-bit arithmetic of the code. *)

From S2P Require Import Prelude KernelTask Strategy.
Import KTask Strat.
Local Open Scope Z_scope.

Module Monotonic.

Inductive EMonotonicSwitchStrategyType : Set := MSS_TYPE_RATE | MSS_TYPE_DEADLINE.

(** The strategy's state is its list [m_tasks]. *)
Record Mono := mkMono { m_tasks : list nat }.

Definition EConfig : StrategyConfig := mkStrategyConfig false false false false false false.

Section strategy.
Context (TStrategyType : EMonotonicSwitchStrategyType).

Definition higher_priority (c : KernelCfg) (task itr : KernelTask) : res bool :=
  match TStrategyType with
  | MSS_TYPE_RATE => a ← GetHrtPeriodicity c task; b ← GetHrtPeriodicity c itr; Ok (a <? b)
  | MSS_TYPE_DEADLINE => a ← GetHrtDeadline c task; b ← GetHrtDeadline c itr; Ok (a <? b)
  end.

(** [m_tasks.Link(task, itr, itr->GetPrev())]. *)
Fixpoint insert_before (l : list nat) (i itr : nat) : list nat :=
  match l with
  | [] => []
  | x :: k => if decide (x = itr) then i :: x :: k else x :: insert_before k i itr
  end.
Definition LinkBefore (linked : bool) (l : list nat) (i itr : nat) : res (list nat) :=
  assert! negb linked; Ok (insert_before l i itr).

(** The [for (;;)] loop of [AddTask]; [length m_tasks] rounds are enough. *)
Fixpoint AddTask_loop (fuel : nat) (c : KernelCfg) (ts : list KernelTask) (l : list nat) (i : nat)
    (start itr : nat) : res (list nat) :=
  match fuel with
  | O => Panic PANIC_FUEL
  | S f =>
      t ← get ts i;
      t' ← get ts itr;
      hp ← higher_priority c t t';
      if (hp : bool) then
        if bool_decide (itr = start) then LinkFront (bool_decide (i ∈ l)) l i
        else LinkBefore (bool_decide (i ∈ l)) l i itr
      else
        next ← Next l itr;
        if bool_decide (next = start) then LinkBack (bool_decide (i ∈ l)) l i
        else AddTask_loop f c ts l i start next
  end.

Definition AddTask (c : KernelCfg) (i : nat) (st : list KernelTask * Mono) : res (list KernelTask * Mono) :=
  let '(ts, s) := st in
  assert! negb (bool_decide (i ∈ m_tasks s));
  l ← match m_tasks s with
      | [] => LinkFront (bool_decide (i ∈ m_tasks s)) (m_tasks s) i
      | start :: _ => AddTask_loop (length (m_tasks s)) c ts (m_tasks s) i start start
      end;
  Ok (ts, mkMono l).

Definition GetSize (s : Mono) : Z := Size (m_tasks s).

Definition RemoveTask (c : KernelCfg) (i : nat) (st : list KernelTask * Mono) : res (list KernelTask * Mono) :=
  let '(ts, s) := st in
  assert! negb (bool_decide (GetSize s = 0));
  assert! bool_decide (i ∈ m_tasks s);
  l ← Unlink (m_tasks s) i;
  Ok (ts, mkMono l).

Definition GetNext_body (ts : list KernelTask) (itr : nat) (next : option nat) : res (option nat * bool) :=
  t ← get ts itr;
  Ok (if negb (IsSleeping t) then (Some itr, true) else (next, false)).

Definition GetNext (c : KernelCfg) (st : list KernelTask * Mono)
  : res (option nat * (list KernelTask * Mono)) :=
  let '(ts, s) := st in
  match m_tasks s with
  | [] => Ok (None, (ts, s))
  | start :: _ =>
      next ← ring_loop (length (m_tasks s)) (m_tasks s) start start (GetNext_body ts) None;
      Ok (next, (ts, s))
  end.

Definition GetFirst (c : KernelCfg) (st : list KernelTask * Mono) : res (option nat) :=
  let '(ts, s) := st in
  assert! negb (bool_decide (Size (m_tasks s) = 0));
  Ok (head (m_tasks s)).

Definition OnTaskSleep (c : KernelCfg) (i : nat) (st : list KernelTask * Mono) : res (list KernelTask * Mono) :=
  Panic PANIC_ASSERT.
Definition OnTaskWake (c : KernelCfg) (i : nat) (st : list KernelTask * Mono) : res (list KernelTask * Mono) :=
  Panic PANIC_ASSERT.

Definition MonoOps : StrategyOps Mono :=
  mkStrategyOps Mono EConfig (mkMono []) AddTask RemoveTask GetNext GetFirst GetSize OnTaskSleep OnTaskWake
    OnTaskYield_default OnTaskTimeSlice_default OnTaskDeadlineMissed_default OnTaskWeightChange_default.

(** ** The list is sorted by the monotonic key *)

Definition key (ts : list KernelTask) (i : nat) : Z :=
  match ts !! i with
  | Some t => match TStrategyType with MSS_TYPE_RATE => periodicity (m_hrt t) | MSS_TYPE_DEADLINE => deadline (m_hrt t) end
  | None => 0
  end.

Record mono_inv (ts : list KernelTask) (s : Mono) : Prop := {
  mono_nodup : NoDup (m_tasks s);
  mono_valid : Forall (λ i, is_Some (ts !! i)) (m_tasks s);
  mono_sorted : StronglySorted (λ i j, key ts i ≤ key ts j) (m_tasks s);
}.

Lemma higher_priority_ok c ts i j t t' : IsHrtMode c = true → ts !! i = Some t → ts !! j = Some t' →
  higher_priority c t t' = Ok (key ts i <? key ts j).
Proof using.
  intros Hc Hi Hj. unfold higher_priority, key, GetHrtPeriodicity, GetHrtDeadline. rewrite Hc, Hi, Hj.
  by destruct TStrategyType.
Qed.

Lemma insert_before_mid l1 l2 i x : (x ∉ l1) → insert_before (l1 ++ x :: l2) i x = l1 ++ i :: x :: l2.
Proof using.
  induction l1 as [|y l1 IH]; intros Hx; cbn; [by rewrite decide_True|].
  rewrite decide_False, IH by set_solver. done.
Qed.

(** The loop inserts before the first task of a larger key. *)
Lemma AddTask_loop_spec c ts l i t start pre itr rest fuel : IsHrtMode c = true →
  ts !! i = Some t → Forall (λ j, is_Some (ts !! j)) l → NoDup l → (i ∉ l) →
  l = pre ++ itr :: rest → head l = Some start → (length rest < fuel)%nat →
  Forall (λ x, key ts x ≤ key ts i) pre →
  ∃ l1 l2, AddTask_loop fuel c ts l i start itr = Ok (l1 ++ i :: l2) ∧ l = l1 ++ l2 ∧
    Forall (λ x, key ts x ≤ key ts i) l1 ∧ match l2 with [] => True | y :: _ => key ts i < key ts y end.
Proof using.
  intros Hc Ht Hv Hn Hni. revert pre itr rest fuel.
  intros pre itr rest. revert pre itr. induction rest as [|y rest IH]; intros pre itr [|fuel] El Hs Hf Hpre; cbn in Hf; try lia;
    assert (∃ t', ts !! itr = Some t') as [t' Ht'] by (rewrite El, Forall_app, Forall_cons in Hv; tauto);
    assert (Hitr : itr ∉ pre) by (rewrite El in Hn; by apply NoDup_mid in Hn as (? & _));
    cbn [AddTask_loop]; unfold get; rewrite Ht, Ht'; cbn [deref mbind res_bind];
    rewrite (higher_priority_ok c ts i itr t t' Hc Ht Ht'); cbn [mbind res_bind];
    rewrite (bool_decide_eq_false_2 (i ∈ l)) by done;
    (destruct (Z.ltb_spec (key ts i) (key ts itr)) as [Hlt|Hge];
     [exists pre; eexists; (split; [|split; [exact El|done]]);
      case_bool_decide as Es;
      [subst start; destruct pre; [by rewrite El|rewrite El in Hs; cbn in Hs; set_solver]
      |unfold LinkBefore; cbn; by rewrite El, insert_before_mid]
     |]).
  - unfold Next. rewrite El, cnext_mid by done. exists l, [].
    assert (head ([] ++ pre ++ [itr]) = Some start) as ->.
    { cbn. rewrite El in Hs. by destruct pre. }
    cbn [deref mbind res_bind]. rewrite bool_decide_eq_true_2 by done. rewrite El, app_nil_r. split_and!; try done.
    apply Forall_app. split; [done|]. by apply Forall_singleton.
  - unfold Next. rewrite El, cnext_mid by done. cbn [head app deref mbind res_bind].
    rewrite bool_decide_eq_false_2.
    + rewrite <- El. apply (IH (pre ++ [itr])); [by rewrite El, <- app_assoc|done|lia|].
      apply Forall_app. split; [done|]. by apply Forall_singleton.
    + intros ->. rewrite El in Hs, Hn. change (pre ++ itr :: start :: rest) with (pre ++ [itr] ++ start :: rest) in Hn.
      rewrite app_assoc in Hn. apply NoDup_mid in Hn as (Hy & _). apply Hy. destruct pre; cbn in *; set_solver.
Qed.

Lemma StronglySorted_insert ts l1 l2 i : StronglySorted (λ i j, key ts i ≤ key ts j) (l1 ++ l2) →
  Forall (λ x, key ts x ≤ key ts i) l1 → Forall (λ x, key ts i < key ts x) l2 →
  StronglySorted (λ i j, key ts i ≤ key ts j) (l1 ++ i :: l2).
Proof using.
  intros Hs H1 H2. induction l1 as [|x l1 IH]; cbn in *.
  - constructor; [done|]. eapply Forall_impl; [done|]. cbn. lia.
  - apply StronglySorted_inv in Hs as [Hs Hx]. apply Forall_cons in H1 as [Hxi H1]. constructor; [by apply IH|].
    apply Forall_app in Hx as [Hx1 Hx2]. apply Forall_app. split; [done|]. by constructor.
Qed.

Lemma StronglySorted_tail ts l y k : StronglySorted (λ i j, key ts i ≤ key ts j) (l ++ y :: k) →
  Forall (λ x, key ts y ≤ key ts x) (y :: k).
Proof using.
  induction l as [|x l IH]; cbn; intros [Hs Hx]%StronglySorted_inv; [|by apply IH].
  constructor; [lia|done].
Qed.

Lemma mono_AddTask c ts s i t : IsHrtMode c = true → mono_inv ts s → ts !! i = Some t → (i ∉ m_tasks s) →
  ∃ l1 l2, AddTask c i (ts, s) = Ok (ts, mkMono (l1 ++ i :: l2)) ∧ m_tasks s = l1 ++ l2 ∧
    Forall (λ x, key ts x ≤ key ts i) l1 ∧ Forall (λ x, key ts i < key ts x) l2 ∧
    mono_inv ts (mkMono (l1 ++ i :: l2)).
Proof using.
  intros Hc [Hn Hv Hs] Ht Hni. unfold AddTask. rewrite (bool_decide_eq_false_2 (i ∈ _)) by done. cbn [negb stk_assert].
  assert (∃ l1 l2, match m_tasks s with
      | [] => LinkFront false (m_tasks s) i
      | start :: _ => AddTask_loop (length (m_tasks s)) c ts (m_tasks s) i start start
      end = Ok (l1 ++ i :: l2) ∧ m_tasks s = l1 ++ l2 ∧ Forall (λ x, key ts x ≤ key ts i) l1 ∧
      match l2 with [] => True | y :: _ => key ts i < key ts y end) as (l1 & l2 & -> & El & H1 & H2).
  { destruct (m_tasks s) as [|x k] eqn:El; [by exists [], []|].
    apply (AddTask_loop_spec c ts _ i t x [] x k); [done..|cbn; lia|done]. }
  cbn. exists l1, l2. assert (H2' : Forall (λ x, key ts i < key ts x) l2).
  { destruct l2 as [|y l2]; [done|]. rewrite El in Hs. apply StronglySorted_tail in Hs.
    eapply Forall_impl; [done|]. cbn. lia. }
  split_and!; try done. rewrite El in *. split; cbn.
  - rewrite <- Permutation_middle. by constructor.
  - apply Forall_app in Hv as [? ?]. apply Forall_app. split; [done|]. by constructor.
  - by apply StronglySorted_insert.
Qed.

Lemma mono_GetNext_body_ok ts y n t : ts !! y = Some t →
  GetNext_body ts y n = Ok (if negb (IsSleeping t) then (Some y, true) else (n, false)).
Proof using. intros Ht. unfold GetNext_body, get. by rewrite Ht. Qed.

Lemma mono_GetNext_fold ts l n : Forall (λ i, is_Some (ts !! i)) l →
  (fold_break (GetNext_body ts) l n = Ok n ∧ Forall (λ i, ∃ t, ts !! i = Some t ∧ IsSleeping t = true) l) ∨
  (∃ l1 x l2 t, fold_break (GetNext_body ts) l n = Ok (Some x) ∧ l = l1 ++ x :: l2 ∧
     ts !! x = Some t ∧ IsSleeping t = false ∧ Forall (λ i, ∃ t, ts !! i = Some t ∧ IsSleeping t = true) l1).
Proof using.
  induction l as [|y l IH]; intros Hv; [by left|]. apply Forall_cons in Hv as [[t Ht] Hv].
  cbn [fold_break]. rewrite (mono_GetNext_body_ok ts y n t Ht). cbn [mbind res_bind].
  destruct (IsSleeping t) eqn:Es; cbn.
  - destruct (IH Hv) as [[-> ?]|(l1 & x & l2 & tx & -> & -> & ? & ? & ?)]; [left|right].
    + split; [done|]. constructor; eauto.
    + exists (y :: l1), x, l2, tx. split_and!; try done. constructor; eauto.
  - right. exists [], y, l, t. split_and!; done.
Qed.
End strategy.

(** Adding a task to a monotonic strategy inserts it behind all tasks of
    a smaller or equal period (rate monotonic) or deadline (deadline
    monotonic) and before all tasks of a larger one: the list stays sorted,
    equal tasks stay in the order in which they were added, and the search
    around the ring ends. *)
Theorem mono_add_sorted (ty : EMonotonicSwitchStrategyType) (c : KernelCfg) (ts : list KernelTask)
    (s : Mono) (i : nat) (t : KernelTask) :
  IsHrtMode c = true → mono_inv ty ts s → ts !! i = Some t → (i ∉ m_tasks s) →
  ∃ l1 l2, AddTask ty c i (ts, s) = Ok (ts, mkMono (l1 ++ i :: l2)) ∧ m_tasks s = l1 ++ l2 ∧
    Forall (λ x, key ty ts x ≤ key ty ts i) l1 ∧ Forall (λ x, key ty ts i < key ty ts x) l2 ∧
    mono_inv ty ts (mkMono (l1 ++ i :: l2)).
Proof. apply mono_AddTask. Qed.

(** Three periodic tasks and one that is added to them. *)
Definition mono_example : list KernelTask :=
  (λ p, with_hrt (mkHrt p p 0 false) KernelTask_ctor) <$> [10; 40; 20; 20].

Lemma mono_example_inv : mono_inv MSS_TYPE_RATE mono_example (mkMono [0; 2; 1]%nat).
Proof.
  split; cbn; [decided|repeat constructor; eexists; reflexivity|].
  repeat constructor; cbn; lia.
Qed.

Lemma mono_add_sorted_witness :
  ∃ l1 l2, AddTask MSS_TYPE_RATE (mkCfg 4 EConfig) 3 (mono_example, mkMono [0; 2; 1]%nat) =
      Ok (mono_example, mkMono (l1 ++ 3%nat :: l2)) ∧ [0; 2; 1]%nat = l1 ++ l2 ∧
    Forall (λ x, key MSS_TYPE_RATE mono_example x ≤ key MSS_TYPE_RATE mono_example 3) l1 ∧
    Forall (λ x, key MSS_TYPE_RATE mono_example 3 < key MSS_TYPE_RATE mono_example x) l2 ∧
    mono_inv MSS_TYPE_RATE mono_example (mkMono (l1 ++ 3%nat :: l2)).
Proof.
  apply (mono_add_sorted MSS_TYPE_RATE (mkCfg 4 EConfig) mono_example (mkMono [0; 2; 1]%nat) 3
    (with_hrt (mkHrt 20 20 0 false) KernelTask_ctor)); [done|apply mono_example_inv|done|cbn; decided].
Defined.

(** [GetNext] answers the awake task with the smallest period or deadline
    (the one added first among equals), and none exactly when all sleep. *)
Theorem mono_next_highest (ty : EMonotonicSwitchStrategyType) (c : KernelCfg) (ts : list KernelTask) (s : Mono) :
  mono_inv ty ts s →
  ∃ r, GetNext c (ts, s) = Ok (r, (ts, s)) ∧
    match r with
    | None => Forall (λ i, ∃ t, ts !! i = Some t ∧ IsSleeping t = true) (m_tasks s)
    | Some x => ∃ t l1 l2, m_tasks s = l1 ++ x :: l2 ∧ ts !! x = Some t ∧ IsSleeping t = false ∧
        Forall (λ i, ∃ t, ts !! i = Some t ∧ IsSleeping t = true) l1 ∧
        Forall (λ j, key ty ts x ≤ key ty ts j) l2
    end.
Proof.
  intros [Hn Hv Hs]. unfold GetNext. destruct (m_tasks s) as [|x0 k] eqn:El; [by exists None|].
  rewrite ring_loop_all by done.
  destruct (mono_GetNext_fold ts (x0 :: k) None Hv) as [[E H]|(l1 & x & l2 & t & E & E2 & Ht & Hsl & H)]; rewrite E; cbn.
  - exists None. done.
  - exists (Some x). split; [done|]. exists t, l1, l2. split_and!; try done.
    rewrite E2 in Hs. apply StronglySorted_tail in Hs. by apply Forall_cons in Hs as [_ ?].
Qed.

Lemma mono_next_highest_witness :
  ∃ r, GetNext (mkCfg 4 EConfig) (mono_example, mkMono [0; 2; 1]%nat) = Ok (r, (mono_example, mkMono [0; 2; 1]%nat)) ∧
    match r with
    | None => Forall (λ i, ∃ t, mono_example !! i = Some t ∧ IsSleeping t = true) [0; 2; 1]%nat
    | Some x => ∃ t l1 l2, [0; 2; 1]%nat = l1 ++ x :: l2 ∧ mono_example !! x = Some t ∧ IsSleeping t = false ∧
        Forall (λ i, ∃ t, mono_example !! i = Some t ∧ IsSleeping t = true) l1 ∧
        Forall (λ j, key MSS_TYPE_RATE mono_example x ≤ key MSS_TYPE_RATE mono_example j) l2
    end.
Proof. apply (mono_next_highest MSS_TYPE_RATE (mkCfg 4 EConfig) mono_example (mkMono [0; 2; 1]%nat) mono_example_inv). Defined.

End Monotonic.
