(* ===== verification/Schedulability.v ===== *)
(** * Response-time analysis ([SchedulabilityCheck] of [stk_strategy_monotonic.h])

    [CalculateWCRT] iterates the response-time recurrence of each task in 32-bit
    arithmetic until it converges or exceeds the period.  Below an explicit
    bound that excludes overflow, the iteration is shown to end and to decide
    the existence of a response time within the period. *)

From S2P Require Import Prelude KernelTask Strategy.
Import KTask Strat.
Local Open Scope Z_scope.

Module Schedulability.

Record TaskTiming := mkTiming { duration : Z; period : Z }.
Record TaskInfo := mkInfo { cpu_task : Z; cpu_total : Z; wcrt : Z }.

Definition idiv_ceil (x y : Z) : Z :=
  if negb (y =? 0) then
    let result := x / y in
    if x `mod` y >? 0 then u32 (result + 1) else result
  else 0.

(** One evaluation of the recurrence: [w = Cx], then the interference of each
    task of higher priority. *)
Definition wcrt_pass (hp : list TaskTiming) (Cx w0 : Z) : Z :=
  foldl (λ w x, u32 (w + u32 (idiv_ceil w0 (period x) * duration x))) Cx hp.

(** [while (!converged)]. *)
Fixpoint wcrt_loop (fuel : nat) (hp : list TaskTiming) (Cx Tx w0 : Z) : res Z :=
  match fuel with
  | O => Panic PANIC_FUEL
  | S f =>
      let w := wcrt_pass hp Cx w0 in
      if negb (w =? w0) && (w <=? Tx) then wcrt_loop f hp Cx Tx w else Ok w
  end.

(** [for (t = 1; t < count; ++t)]: [hp] are the tasks before [t], [rest] those
    from [t] on. *)
Fixpoint wcrt_for (fuel : nat) (hp rest : list TaskTiming) (schedulable : bool) (info : list Z)
  : res (bool * list Z) :=
  match rest with
  | [] => Ok (schedulable, info)
  | x :: rest =>
      w ← wcrt_loop fuel hp (duration x) (period x) (duration x);
      wcrt_for fuel (hp ++ [x]) rest (if w >? period x then false else schedulable) (info ++ [w])
  end.

(** [CalculateWCRT(tasks, count, info)]: the verdict and the [wcrt] of each task. *)
Definition CalculateWCRT (fuel : nat) (tasks : list TaskTiming) : res (bool * list Z) :=
  match tasks with
  | [] => Ok (true, [])
  | x :: rest => wcrt_for fuel [x] rest true [duration x]
  end.

(** [GetTaskCpuLoad]: the [cpu_load] of each task, in percent. *)
Definition cpu_load (x : TaskTiming) : Z :=
  if negb (period x =? 0) then u16 (u32 (duration x * 100) / period x) else 0.
Fixpoint GetTaskCpuLoad (tasks : list TaskTiming) (total : Z) : list (Z * Z) :=
  match tasks with
  | [] => []
  | x :: k => let total := u16 (total + cpu_load x) in (cpu_load x, total) :: GetTaskCpuLoad k total
  end.

(** [IsSchedulableWCRT<TTaskCount>(strategy)]: the timings are read around the
    ring [l] on which the first task of the strategy is linked. *)
Definition read_body (c : KernelCfg) (ts : list KernelTask) (TTaskCount : Z) (itr : nat)
    (tasks : list TaskTiming) : res (list TaskTiming * bool) :=
  assert! bool_decide (Z.of_nat (length tasks) < TTaskCount);
  t ← get ts itr;
  p ← GetHrtPeriodicity c t;
  d ← GetHrtDeadline c t;
  Ok (tasks ++ [mkTiming (u32 d) (u32 p)], false).

Definition IsSchedulableWCRT (fuel : nat) (TTaskCount : Z) (c : KernelCfg) (ts : list KernelTask)
    (l : list nat) : res (bool * list TaskInfo) :=
  start ← deref (head l);
  assert! bool_decide (Size l ≤ TTaskCount);
  tasks ← ring_loop (length l) l start start (read_body c ts TTaskCount) [];
  assert! bool_decide (Z.of_nat (length tasks) = TTaskCount);
  '(schedulable, ws) ← CalculateWCRT fuel tasks;
  Ok (schedulable, zip_with (λ cl w, mkInfo cl.1 cl.2 w) (GetTaskCpuLoad tasks 0) ws).

(** ** The recurrence without overflow *)

Definition cdiv (x y : Z) : Z := (x + y - 1) / y.
Fixpoint interference (hp : list TaskTiming) (w : Z) : Z :=
  match hp with
  | [] => 0
  | x :: hp => cdiv w (period x) * duration x + interference hp w
  end.
(** The right-hand side of the response-time equation. *)
Definition rta (hp : list TaskTiming) (C w : Z) : Z := C + interference hp w.

Definition timing_ok (x : TaskTiming) : Prop := 0 ≤ duration x ∧ 0 < period x.

Lemma cdiv_nonneg w y : 0 ≤ w → 0 < y → 0 ≤ cdiv w y.
Proof. intros. apply Z.div_pos; lia. Qed.

Lemma idiv_ceil_spec x y : 0 ≤ x < 2 ^ 32 → 0 < y → idiv_ceil x y = cdiv x y.
Proof.
  intros Hx Hy. unfold idiv_ceil, cdiv. rewrite (proj2 (Z.eqb_neq y 0)) by lia. cbn [negb].
  assert (E := Z.div_mod x y ltac:(lia)). assert (B := Z.mod_pos_bound x y Hy).
  assert (Hq : 0 ≤ x / y) by (apply Z.div_pos; lia).
  destruct (Z.gtb_spec (x `mod` y) 0).
  - unfold u32. rewrite Z.mod_small; [|nia]. apply (Z.div_unique _ _ _ (x `mod` y - 1)); lia.
  - apply (Z.div_unique _ _ _ (y - 1)); lia.
Qed.

Lemma cdiv_mono w w' y : 0 < y → w ≤ w' → cdiv w y ≤ cdiv w' y.
Proof. intros. apply Z.div_le_mono; lia. Qed.

Lemma interference_mono hp w w' : Forall timing_ok hp → 0 ≤ w ≤ w' →
  0 ≤ interference hp w ≤ interference hp w'.
Proof.
  intros Hok Hw. induction hp as [|x hp IH]; cbn [interference]; [lia|].
  apply Forall_cons in Hok as [[? ?] Hok].
  assert (0 ≤ cdiv w (period x)) by (apply cdiv_nonneg; lia).
  assert (cdiv w (period x) ≤ cdiv w' (period x)) by (apply cdiv_mono; lia).
  assert (0 ≤ cdiv w (period x) * duration x) by (apply Z.mul_nonneg_nonneg; lia).
  assert (cdiv w (period x) * duration x ≤ cdiv w' (period x) * duration x)
    by (apply Z.mul_le_mono_nonneg_r; lia).
  specialize (IH Hok). lia.
Qed.

(** Below the bound, the code's 32-bit evaluation is the recurrence. *)
Lemma wcrt_pass_spec hp C w : Forall timing_ok hp → 0 ≤ C → 0 ≤ w < 2 ^ 32 → rta hp C w < 2 ^ 32 →
  wcrt_pass hp C w = rta hp C w.
Proof.
  intros Hok HC Hw. unfold wcrt_pass, rta. revert C HC. induction hp as [|x hp IH]; intros C HC Hb; cbn [interference foldl] in *; [lia|].
  apply Forall_cons in Hok as [[Hd Hp] Hok]. rewrite idiv_ceil_spec by lia.
  assert (0 ≤ cdiv w (period x)) by (apply cdiv_nonneg; lia).
  assert (0 ≤ interference hp w ≤ interference hp w) by (apply interference_mono; [done|lia]).
  assert (0 ≤ cdiv w (period x) * duration x) by (apply Z.mul_nonneg_nonneg; lia).
  assert (u32 (cdiv w (period x) * duration x) = cdiv w (period x) * duration x) as -> by (apply Z.mod_small; lia).
  assert (u32 (C + cdiv w (period x) * duration x) = C + cdiv w (period x) * duration x) as -> by (apply Z.mod_small; lia).
  rewrite IH by (done || lia). lia.
Qed.

(** The least response time within the period, or that there is none. *)
Definition wcrt_of (hp : list TaskTiming) (x : TaskTiming) (w : Z) : Prop :=
  (w ≤ period x ∧ rta hp (duration x) w = w ∧
     ∀ v, duration x ≤ v → rta hp (duration x) v ≤ v → w ≤ v) ∨
  (period x < w ∧ ∀ v, duration x ≤ v ≤ period x → v < rta hp (duration x) v).

Lemma wcrt_loop_spec hp x fuel w0 : Forall timing_ok hp → timing_ok x →
  duration x < 2 ^ 32 → period x < 2 ^ 32 →
  rta hp (duration x) (Z.max (duration x) (period x)) < 2 ^ 32 →
  duration x ≤ w0 ≤ Z.max (duration x) (period x) →
  w0 ≤ rta hp (duration x) w0 → (∀ v, duration x ≤ v → rta hp (duration x) v ≤ v → w0 ≤ v) →
  (Z.to_nat (period x - w0) < fuel)%nat →
  ∃ w, wcrt_loop fuel hp (duration x) (period x) w0 = Ok w ∧ wcrt_of hp x w.
Proof.
  intros Hok [HC HT] HC32 HT32 Hbound. revert w0.
  assert (Hm : ∀ v v', 0 ≤ v ≤ v' → rta hp (duration x) v ≤ rta hp (duration x) v')
    by (intros v v' Hv; unfold rta; assert (H := interference_mono hp v v' Hok Hv); lia).
  induction fuel as [|fuel IH]; intros w0 Hw0 Hinc Hleast Hf; [lia|]. cbn [wcrt_loop].
  rewrite wcrt_pass_spec; [|done|lia|lia|eapply Z.le_lt_trans; [apply (Hm w0 (Z.max (duration x) (period x))); lia|done]].
  destruct (Z.eqb_spec (rta hp (duration x) w0) w0) as [E|Hne]; cbn [negb andb].
  - eexists. split; [done|]. rewrite E. destruct (Z.le_gt_cases w0 (period x)); [by left|].
    right. split; [lia|]. intros v Hv. lia.
  - destruct (Z.leb_spec (rta hp (duration x) w0) (period x)) as [Hle|Hgt].
    + apply IH; [lia|apply Hm; lia| |lia].
      intros v Hv Hfix. assert (w0 ≤ v) by (by apply Hleast). etrans; [apply (Hm w0 v); lia|done].
    + eexists. split; [done|]. right. split; [lia|]. intros v Hv.
      destruct (Z.lt_ge_cases v (rta hp (duration x) v)) as [|Hfix]; [done|].
      assert (w0 ≤ v) by (apply Hleast; lia). assert (Hw := Hm w0 v ltac:(lia)). lia.
Qed.

(** The bound on a task set that excludes overflow. *)
Fixpoint no_overflow (hp rest : list TaskTiming) : Prop :=
  match rest with
  | [] => True
  | x :: rest => rta hp (duration x) (Z.max (duration x) (period x)) < 2 ^ 32 ∧ no_overflow (hp ++ [x]) rest
  end.

(** What the analysis finds for the tasks from [rest] on. *)
Fixpoint wcrts_of (hp rest : list TaskTiming) (ws : list Z) : Prop :=
  match rest, ws with
  | [], [] => True
  | x :: rest, w :: ws => wcrt_of hp x w ∧ wcrts_of (hp ++ [x]) rest ws
  | _, _ => False
  end.

Definition u32_timing (x : TaskTiming) : Prop := timing_ok x ∧ duration x < 2 ^ 32 ∧ period x < 2 ^ 32.

Lemma wcrt_for_spec fuel rest : ∀ hp b info, Forall timing_ok hp → Forall u32_timing rest → no_overflow hp rest →
  Forall (λ x, (Z.to_nat (period x) < fuel)%nat) rest →
  ∃ ws, wcrt_for fuel hp rest b info =
      Ok (b && bool_decide (Forall2 (λ x w, w ≤ period x) rest ws), info ++ ws) ∧ wcrts_of hp rest ws.
Proof.
  induction rest as [|x rest IH]; intros hp b info Hhp Hok Hno Hf; cbn [wcrt_for].
  { exists []. rewrite app_nil_r, bool_decide_eq_true_2, andb_true_r by constructor. done. }
  apply Forall_cons in Hok as [(Hx & HC & HT) Hok]. destruct Hno as [Hb Hno]. apply Forall_cons in Hf as [Hfx Hf].
  assert (Hx' := Hx). destruct Hx' as [HC0 HT0].
  destruct (wcrt_loop_spec hp x fuel (duration x)) as (w & -> & Hw); try done; [lia| |lia|].
  { unfold rta. assert (H := interference_mono hp (duration x) (duration x) Hhp). lia. }
  cbn [mbind res_bind].
  destruct (IH (hp ++ [x]) (if w >? period x then false else b) (info ++ [w])) as (ws & -> & Hws); [|done..|].
  { apply Forall_app. split; [done|]. by apply Forall_singleton. }
  exists (w :: ws). split; [|done]. rewrite <- app_assoc. cbn [app]. f_equal. f_equal.
  destruct (Z.gtb_spec w (period x)) as [Hgt|Hle].
  - rewrite (bool_decide_eq_false_2 (Forall2 _ (x :: rest) _)); [by destruct b|]. intros [? _]%Forall2_cons. lia.
  - f_equal. apply bool_decide_ext. rewrite Forall2_cons. naive_solver.
Qed.

(** C15. [CalculateWCRT] decides response-time schedulability: for a task set in
    priority order whose recurrences stay below [2^32] ([no_overflow]; without
    it the iteration may not end, [wcrt_runs_forever]), the iteration ends
    after at most [period + 1] rounds per task, the response time it stores
    for each task but the first is the least solution of
    [W = C + sum ceil(W / Tj) * Cj] when there is one within the period, and
    the verdict is that there is one for each of them. *)
Theorem wcrt_decides (x : TaskTiming) (rest : list TaskTiming) (fuel : nat) :
  timing_ok x → Forall u32_timing rest → no_overflow [x] rest →
  Forall (λ y, (Z.to_nat (period y) < fuel)%nat) rest →
  ∃ b ws, CalculateWCRT fuel (x :: rest) = Ok (b, duration x :: ws) ∧ wcrts_of [x] rest ws ∧
    (b = true ↔ Forall2 (λ y w, w ≤ period y) rest ws).
Proof.
  intros Hx Hok Hno Hf. destruct (wcrt_for_spec fuel rest [x] true [duration x]) as (ws & E & Hws);
    [by apply Forall_singleton|done..|].
  eexists _, ws. split; [exact E|]. split; [done|]. cbn [andb]. apply bool_decide_eq_true.
Qed.

Lemma wcrt_decides_witness :
  ∃ b ws, CalculateWCRT 60 [mkTiming 1 4; mkTiming 2 6; mkTiming 3 13] = Ok (b, 1 :: ws) ∧
    wcrts_of [mkTiming 1 4] [mkTiming 2 6; mkTiming 3 13] ws ∧
    (b = true ↔ Forall2 (λ y w, w ≤ period y) [mkTiming 2 6; mkTiming 3 13] ws).
Proof.
  apply (wcrt_decides (mkTiming 1 4) [mkTiming 2 6; mkTiming 3 13] 60).
  - split; cbn; lia.
  - repeat constructor; cbn; lia.
  - split; [vm_compute; done|]. split; [vm_compute; done|done].
  - repeat constructor; cbn; lia.
Defined.

(** Beyond the bound the iteration need not end: with one task of higher priority
    of duration 5 and period 1, the recurrence of a task of duration 1 is
    [w = 1 + 5 * w] modulo [2^32], which has no solution because [4 * w + 1] is
    odd, and no value is above a period of [2^32 - 1]. *)
Lemma wcrt_loop_stuck fuel : ∀ w0, 0 ≤ w0 < 2 ^ 32 →
  wcrt_loop fuel [mkTiming 5 1] 1 (2 ^ 32 - 1) w0 = Panic PANIC_FUEL.
Proof.
  induction fuel as [|f IH]; intros w0 Hw; [done|]. cbn [wcrt_loop]. set (w := wcrt_pass _ _ _).
  assert (Ew : w = (1 + 5 * w0) `mod` 2 ^ 32).
  { unfold w, wcrt_pass. cbn [foldl period duration]. rewrite idiv_ceil_spec by lia. unfold cdiv, u32.
    rewrite Zplus_mod_idemp_r, Z.div_1_r. f_equal. lia. }
  assert (Hb := Z.mod_pos_bound (1 + 5 * w0) (2 ^ 32) ltac:(lia)). rewrite <- Ew in Hb.
  assert (Hd := Z.div_mod (1 + 5 * w0) (2 ^ 32) ltac:(lia)). rewrite <- Ew in Hd.
  rewrite (proj2 (Z.eqb_neq w w0)), (proj2 (Z.leb_le w (2 ^ 32 - 1))) by lia. cbn [negb andb]. by apply IH.
Qed.

(** [CalculateWCRT] runs for ever on this task set, whatever the fuel. *)
Lemma wcrt_runs_forever fuel : CalculateWCRT fuel [mkTiming 5 1; mkTiming 1 (2 ^ 32 - 1)] = Panic PANIC_FUEL.
Proof. cbn [CalculateWCRT wcrt_for duration period]. by rewrite wcrt_loop_stuck. Qed.

Example wcrt_example :
  CalculateWCRT 60 [mkTiming 1 4; mkTiming 2 6; mkTiming 3 13] = Ok (true, [1; 3; 10]).
Proof. reflexivity. Qed.

(** The highest-priority task takes no part in the verdict: a set of one task is
    declared schedulable even when its response time exceeds its period. *)
Example wcrt_first_task_unchecked : CalculateWCRT 1 [mkTiming 10 5] = Ok (true, [10]).
Proof. reflexivity. Qed.

End Schedulability.
