(* ===== verification/SmoothWRR.v ===== *)
(** * Smooth weighted round robin ([stk_strategy_swrrobin.h])

    [SwitchStrategySmoothWeightedRoundRobinT<NoSleepYield>]: every selection adds
    to each ready task its weight, picks the largest accumulated weight and
    subtracts the total from it.  The accumulated weight lives in the task
    ([SetCurrentWeight]), so the operations also return the tasks. *)

From S2P Require Import Prelude KernelTask Strategy.
Import KTask Strat.
Local Open Scope Z_scope.

Module SmoothWRR.

Record SWRR := mkSWRR {
  m_tasks : list nat;
  m_sleep : list nat;
  m_yielded : option nat;
  m_total_weight : Z;
}.
Definition SWRR_ctor : SWRR := mkSWRR [] [] None 0.

Notation tasks := (list KernelTask) (only parsing).

Definition in_tasks (s : SWRR) (i : nat) : bool := bool_decide (i ∈ m_tasks s).
Definition in_sleep (s : SWRR) (i : nat) : bool := bool_decide (i ∈ m_sleep s).
Definition linked (s : SWRR) (i : nat) : bool := in_tasks s i || in_sleep s i.

(** [task->GetWeight()] and [task->SetCurrentWeight(w)] through the pointer. *)
Definition weight_of (c : KernelCfg) (ts : tasks) (i : nat) : res Z := t ← get ts i; GetWeight c t.
Definition set_current (c : KernelCfg) (ts : tasks) (i : nat) (w : Z) : res tasks :=
  t ← get ts i; Ok (<[i := SetCurrentWeight c w t]> ts).

Section strategy.
Context (NoSleepYield : bool).

Definition EConfig : StrategyConfig := mkStrategyConfig true true false false NoSleepYield false.

Definition GetSize (s : SWRR) : Z := Size (m_tasks s) + Size (m_sleep s).

Definition AddActive (c : KernelCfg) (ts : tasks) (i : nat) (s : SWRR) : res SWRR :=
  l ← LinkBack (linked s i) (m_tasks s) i;
  w ← weight_of c ts i;
  total ← i32 (m_total_weight s + w);
  Ok (mkSWRR l (m_sleep s) (m_yielded s) total).

Definition RemoveActive (c : KernelCfg) (ts : tasks) (i : nat) (s : SWRR) : res SWRR :=
  let y := if NoSleepYield then if bool_decide (m_yielded s = Some i) then None else m_yielded s
           else m_yielded s in
  l ← Unlink (m_tasks s) i;
  w ← weight_of c ts i;
  total ← i32 (m_total_weight s - w);
  Ok (mkSWRR l (m_sleep s) y total).

Definition AddTask (c : KernelCfg) (i : nat) (st : tasks * SWRR) : res (tasks * SWRR) :=
  let '(ts, s) := st in
  w ← weight_of c ts i;
  assert! (bool_decide (0 < w) && bool_decide (w ≤ 0x7FFFFF));
  ts ← set_current c ts i NO_WEIGHT;
  s ← AddActive c ts i s;
  Ok (ts, s).

Definition RemoveTask (c : KernelCfg) (i : nat) (st : tasks * SWRR) : res (tasks * SWRR) :=
  let '(ts, s) := st in
  assert! (in_tasks s i || in_sleep s i);
  if in_tasks s i then s ← RemoveActive c ts i s; Ok (ts, s)
  else l ← Unlink (m_sleep s) i; Ok (ts, mkSWRR (m_tasks s) l (m_yielded s) (m_total_weight s)).

(** The loop body on [(tasks, max_weight, next)]. *)
Definition GetNext_body (c : KernelCfg) (skip : option nat) (itr : nat) (a : tasks * Z * option nat)
  : res ((tasks * Z * option nat) * bool) :=
  let '(ts, max_weight, next) := a in
  t ← get ts itr;
  w ← GetWeight c t;
  candidate_weight ← i32 (GetCurrentWeight c t + w);
  ts ← set_current c ts itr candidate_weight;
  let better := (candidate_weight >? max_weight) in
  let better := if NoSleepYield then negb (bool_decide (skip = Some itr)) && better else better in
  Ok (if better then (ts, candidate_weight, Some itr) else (ts, max_weight, next), false).

Definition GetNext (c : KernelCfg) (st : tasks * SWRR) : res (option nat * (tasks * SWRR)) :=
  let '(ts, s) := st in
  match m_tasks s with
  | [] => Ok (None, (ts, s))
  | start :: _ =>
      let skip := if NoSleepYield then m_yielded s else None in
      let s := if NoSleepYield then mkSWRR (m_tasks s) (m_sleep s) None (m_total_weight s) else s in
      '(ts, max_weight, next) ←
        ring_loop (length (m_tasks s)) (m_tasks s) start start (GetNext_body c skip) (ts, INT32_MIN, None);
      '(next, max_weight) ←
        (if NoSleepYield then
           match next with
           | None =>
               match skip with
               | None => Panic PANIC_ASSERT
               | Some k => t ← get ts k; Ok (Some k, GetCurrentWeight c t)
               end
           | Some n => Ok (Some n, max_weight)
           end
         else Ok (next, max_weight));
      match next with
      | None => Panic PANIC_ASSERT
      | Some n =>
          w ← i32 (max_weight - m_total_weight s);
          ts ← set_current c ts n w;
          Ok (Some n, (ts, s))
      end
  end.

Definition GetFirst (c : KernelCfg) (st : tasks * SWRR) : res (option nat) :=
  let '(ts, s) := st in
  assert! negb (bool_decide (GetSize s = 0));
  Ok (match m_tasks s with [] => head (m_sleep s) | x :: _ => Some x end).

Definition OnTaskSleep (c : KernelCfg) (i : nat) (st : tasks * SWRR) : res (tasks * SWRR) :=
  let '(ts, s) := st in
  t ← get ts i;
  assert! IsSleeping t;
  assert! in_tasks s i;
  s ← RemoveActive c ts i s;
  l ← LinkBack (linked s i) (m_sleep s) i;
  Ok (ts, mkSWRR (m_tasks s) l (m_yielded s) (m_total_weight s)).

Definition OnTaskWake (c : KernelCfg) (i : nat) (st : tasks * SWRR) : res (tasks * SWRR) :=
  let '(ts, s) := st in
  t ← get ts i;
  assert! negb (IsSleeping t);
  assert! in_sleep s i;
  l ← Unlink (m_sleep s) i;
  let s := mkSWRR (m_tasks s) l (m_yielded s) (m_total_weight s) in
  ts ← set_current c ts i (m_total_weight s);
  s ← AddActive c ts i s;
  Ok (ts, s).

Definition OnTaskYield (c : KernelCfg) (i : nat) (st : tasks * SWRR) : res (bool * (tasks * SWRR)) :=
  let '(ts, s) := st in
  if NoSleepYield then
    if in_tasks s i then Ok (true, (ts, mkSWRR (m_tasks s) (m_sleep s) (Some i) (m_total_weight s)))
    else Ok (false, (ts, s))
  else Ok (false, (ts, s)).

Definition SWRROps : StrategyOps SWRR :=
  mkStrategyOps SWRR EConfig SWRR_ctor AddTask RemoveTask GetNext GetFirst GetSize OnTaskSleep OnTaskWake
    OnTaskYield OnTaskTimeSlice_default OnTaskDeadlineMissed_default OnTaskWeightChange_default.
End strategy.

(** ** Sums and occurrences *)

Fixpoint sumf (f : nat → Z) (l : list nat) : Z :=
  match l with [] => 0 | x :: k => f x + sumf f k end.

Definition occ (i : nat) (p : list nat) : Z := Z.of_nat (length (filter (λ y, y = i) p)).

Lemma sumf_ext f g l : (∀ i, i ∈ l → f i = g i) → sumf f l = sumf g l.
Proof. induction l as [|x l IH]; intros H; cbn; [done|]. rewrite H, IH by set_solver. done. Qed.

Lemma sumf_lin f a b l : sumf (λ i, a + b * f i) l = a * Z.of_nat (length l) + b * sumf f l.
Proof. induction l as [|x l IH]; cbn [sumf length]; [lia|]. rewrite IH. lia. Qed.

Lemma sumf_add f g l : sumf (λ i, f i + g i) l = sumf f l + sumf g l.
Proof. induction l as [|x l IH]; cbn [sumf]; lia. Qed.

Lemma sumf_lower f b i l : (∀ j, j ∈ l → b ≤ f j) → i ∈ l → f i + b * (Z.of_nat (length l) - 1) ≤ sumf f l.
Proof.
  induction l as [|x l IH]; intros Hb Hi; [by apply not_elem_of_nil in Hi|]. cbn [sumf length].
  assert (Hlow : ∀ k, (∀ j, j ∈ k → b ≤ f j) → b * Z.of_nat (length k) ≤ sumf f k).
  { induction k as [|y k IHk]; intros Hk; cbn [sumf length]; [lia|].
    assert (b ≤ f y) by (apply Hk; left). assert (b * Z.of_nat (length k) ≤ sumf f k) by (apply IHk; set_solver). lia. }
  apply elem_of_cons in Hi as [->|Hi].
  - assert (b * Z.of_nat (length l) ≤ sumf f l) by (apply Hlow; set_solver). lia.
  - assert (b ≤ f x) by (apply Hb; left). specialize (IH ltac:(set_solver) Hi). lia.
Qed.

Lemma sumf_upper f b l : (∀ j, j ∈ l → f j ≤ b) → sumf f l ≤ b * Z.of_nat (length l).
Proof.
  induction l as [|x l IH]; intros Hb; cbn [sumf length]; [lia|].
  assert (f x ≤ b) by (apply Hb; left). specialize (IH ltac:(set_solver)). lia.
Qed.

(** Values below others with the same sum are equal to them. *)
Lemma sumf_pointwise f g l : (∀ i, i ∈ l → f i ≤ g i) → sumf f l = sumf g l → ∀ i, i ∈ l → f i = g i.
Proof.
  induction l as [|x l IH]; intros Hle Hs i Hi; [by apply not_elem_of_nil in Hi|]. cbn [sumf] in Hs.
  assert (Hx : f x ≤ g x) by (apply Hle; left).
  assert (Hl : sumf f l ≤ sumf g l).
  { clear -Hle. induction l as [|y l IH]; cbn [sumf]; [done|]. assert (f y ≤ g y) by (apply Hle; set_solver).
    assert (sumf f l ≤ sumf g l) by (apply IH; intros j Hj; apply Hle; set_solver). lia. }
  apply elem_of_cons in Hi as [->|Hi]; [lia|]. apply IH; [intros j Hj; apply Hle; by right|lia|done].
Qed.

(** The largest of some values whose average is above [b] is above [b]. *)
Lemma above_average f b W l x : sumf f l = b * Z.of_nat (length l) + W → 0 < W →
  (∀ j, j ∈ l → f j ≤ f x) → b < f x.
Proof.
  intros Hs HW Hm. destruct (Z.lt_ge_cases b (f x)) as [|Hge]; [done|]. assert (H := sumf_upper f b l).
  enough (sumf f l ≤ b * Z.of_nat (length l)) by lia. apply H. intros j Hj. specialize (Hm j Hj). lia.
Qed.

Lemma occ_snoc i p x : occ i (p ++ [x]) = occ i p + (if decide (x = i) then 1 else 0).
Proof.
  unfold occ. rewrite filter_app, length_app. cbn. case_decide; cbn; lia.
Qed.

Lemma sumf_occ l p : NoDup l → Forall (λ x, x ∈ l) p → sumf (λ i, occ i p) l = Z.of_nat (length p).
Proof.
  intros Hn. induction p as [|x p IH] using rev_ind; intros Hp.
  - rewrite (sumf_ext _ (λ _, 0 + 0 * 0)) by done. rewrite (sumf_lin (λ _, 0)). cbn. lia.
  - apply Forall_app in Hp as [Hp Hx]. rewrite Forall_singleton in Hx.
    rewrite (sumf_ext _ (λ i, occ i p + (if decide (x = i) then 1 else 0))) by (intros; apply occ_snoc).
    rewrite sumf_add, IH, length_app by done. cbn [length].
    enough (sumf (λ i, if decide (x = i) then 1 else 0) l = 1) by lia. clear -Hn Hx.
    induction l as [|y l IH]; [by apply not_elem_of_nil in Hx|]. cbn [sumf]. apply NoDup_cons in Hn as [Hy Hn].
    apply elem_of_cons in Hx as [->|Hx].
    + rewrite decide_True by done. rewrite (sumf_ext _ (λ _, 0 + 0 * 0)).
      * rewrite (sumf_lin (λ _, 0)). lia.
      * intros i Hi. rewrite decide_False; [done|]. by intros ->.
    + rewrite decide_False by (by intros ->). rewrite IH by done. done.
Qed.

(** ** One selection *)

Section selection.
Context (nsy : bool) (c : KernelCfg).
Context (Hcfg : cfg_strategy c = EConfig nsy).

(** Current weight and weight of a task. *)
Definition cur (ts : tasks) (i : nat) : Z := match ts !! i with Some t => m_rt_weight t | None => 0 end.
Definition wt (ts : tasks) (i : nat) : Z :=
  match ts !! i with Some t => match GetWeight c t with Ok w => w | Panic _ => 0 end | None => 0 end.
Definition weighted (ts : tasks) (i : nat) : Prop := ∃ t, ts !! i = Some t ∧ GetWeight c t = Ok (wt ts i) ∧ 0 < wt ts i.

Definition set_cur (ts : tasks) (i : nat) (w : Z) : tasks := alter (with_rt_weight w) i ts.

Lemma SetCurrentWeight_eq w t : SetCurrentWeight c w t = with_rt_weight w t.
Proof using Hcfg. unfold SetCurrentWeight. by rewrite Hcfg. Qed.
Lemma GetCurrentWeight_eq t : GetCurrentWeight c t = m_rt_weight t.
Proof using Hcfg. unfold GetCurrentWeight. by rewrite Hcfg. Qed.
Lemma GetWeight_rt w t : GetWeight c (with_rt_weight w t) = GetWeight c t.
Proof using Hcfg. unfold GetWeight, GetBaseWeight. rewrite Hcfg. done. Qed.

Lemma set_current_ok ts i w t : ts !! i = Some t → set_current c ts i w = Ok (set_cur ts i w).
Proof using Hcfg.
  intros Ht. unfold set_current, set_cur, get. rewrite Ht. cbn. by rewrite SetCurrentWeight_eq, (list_alter_insert _ _ _ t).
Qed.

Lemma lookup_set_cur ts i w j : set_cur ts i w !! j = (if decide (i = j) then with_rt_weight w <$> ts !! j else ts !! j).
Proof using.
  unfold set_cur. case_decide; [subst; apply list_lookup_alter_eq|by apply list_lookup_alter_ne].
Qed.
Lemma cur_set ts i w j t : ts !! i = Some t → cur (set_cur ts i w) j = (if decide (i = j) then w else cur ts j).
Proof using. intros Ht. unfold cur. rewrite lookup_set_cur. case_decide; [subst; by rewrite Ht|done]. Qed.
Lemma wt_set ts i w j : wt (set_cur ts i w) j = wt ts j.
Proof using Hcfg.
  unfold wt. rewrite lookup_set_cur. case_decide; [|done]. destruct (ts !! j); cbn; [by rewrite GetWeight_rt|done].
Qed.
Lemma weighted_set ts i w j : weighted ts j → weighted (set_cur ts i w) j.
Proof using Hcfg.
  intros (t & Ht & Hw & Hp). unfold weighted. rewrite wt_set, lookup_set_cur. case_decide; [|by exists t].
  exists (with_rt_weight w t). rewrite Ht, GetWeight_rt. done.
Qed.

(** The tasks that differ at most in the current weight. *)
Definition same_but_cur (ts ts' : tasks) : Prop :=
  length ts' = length ts ∧ ∀ i t', ts' !! i = Some t' → ∃ t w, ts !! i = Some t ∧ t' = with_rt_weight w t.

Lemma same_but_cur_refl ts : same_but_cur ts ts.
Proof using. split; [done|]. intros i t Ht. exists t, (m_rt_weight t). split; [done|]. by destruct t. Qed.
Lemma same_but_cur_set ts ts' i w : same_but_cur ts ts' → same_but_cur ts (set_cur ts' i w).
Proof using.
  intros [Hl H]. split; [by rewrite <- Hl; apply length_alter|]. intros j t'. rewrite lookup_set_cur. case_decide.
  - destruct (ts' !! j) as [u|] eqn:Eu; [|done]. intros [= <-]. destruct (H j u Eu) as (t & w' & ? & ->).
    exists t, w. done.
  - apply H.
Qed.
Lemma same_but_cur_trans ts1 ts2 ts3 : same_but_cur ts1 ts2 → same_but_cur ts2 ts3 → same_but_cur ts1 ts3.
Proof using.
  intros [L1 H1] [L2 H2]. split; [congruence|]. intros i t3 E3. destruct (H2 i t3 E3) as (t2 & w & E2 & ->).
  destruct (H1 i t2 E2) as (t1 & w1 & E1 & ->). by exists t1, w.
Qed.
Lemma same_but_cur_eq ts ts' : same_but_cur ts ts' → (∀ i, cur ts' i = cur ts i) → ts' = ts.
Proof using.
  intros [Hl H] Hc. apply list_eq. intros i. specialize (Hc i). unfold cur in Hc.
  destruct (ts' !! i) as [t'|] eqn:E'.
  - destruct (H i t' E') as (t & w & E & ->). rewrite E in *. cbn in Hc. subst. by destruct t.
  - symmetry. apply lookup_ge_None. rewrite <- Hl. by apply lookup_ge_None.
Qed.

(** The loop without a task to skip: every task gains its weight, and the
    first largest candidate is kept. *)
Lemma swrr_GetNext_fold l : ∀ ts m n, NoDup l → Forall (weighted ts) l →
  Forall (λ i, in_i32 (cur ts i + wt ts i)) l →
  ∃ ts' m' n', fold_break (GetNext_body nsy c None) l (ts, m, n) = Ok (ts', m', n') ∧
    same_but_cur ts ts' ∧ (∀ i, cur ts' i = if decide (i ∈ l) then cur ts i + wt ts i else cur ts i) ∧
    m ≤ m' ∧ (∀ i, i ∈ l → cur ts i + wt ts i ≤ m') ∧
    ((m' = m ∧ n' = n) ∨ ∃ x, n' = Some x ∧ x ∈ l ∧ m' = cur ts x + wt ts x).
Proof using Hcfg.
  induction l as [|y l IH]; intros ts m n Hn Hw Hr; cbn [fold_break].
  { exists ts, m, n. split_and!; [done|apply same_but_cur_refl|done|done|set_solver|by left]. }
  apply NoDup_cons in Hn as [Hy Hn]. apply Forall_cons in Hw as [Hwy Hw]. apply Forall_cons in Hr as [Hry Hr].
  destruct Hwy as (t & Ht & HwG & Hpos). set (v := cur ts y + wt ts y).
  set (ts1 := set_cur ts y v). assert (Hc1 : ∀ j, cur ts1 j = if decide (y = j) then v else cur ts j)
    by (intros j; by apply (cur_set ts y v j t)).
  assert (Hw1 : ∀ j, wt ts1 j = wt ts j) by (intros j; apply wt_set).
  assert (Ebody : GetNext_body nsy c None y (ts, m, n) =
    Ok (if (v >? m) then (ts1, v, Some y) else (ts1, m, n), false)).
  { unfold GetNext_body, get. rewrite Ht. cbn [deref mbind res_bind]. rewrite HwG. cbn [mbind res_bind].
    rewrite GetCurrentWeight_eq. assert (Ev : m_rt_weight t + wt ts y = v) by (unfold v, cur; by rewrite Ht).
    rewrite Ev. unfold i32. rewrite (bool_decide_eq_true_2 (in_i32 v)) by done. cbn [mbind res_bind].
    rewrite (set_current_ok ts y v t Ht). cbn [mbind res_bind]. rewrite bool_decide_eq_false_2 by done.
    by destruct nsy. }
  rewrite Ebody. cbn [mbind res_bind].
  assert (Hone : ∀ j, j ∈ l → cur ts1 j = cur ts j) by (intros j Hj; rewrite Hc1, decide_False; [done|by intros ->]).
  assert (IH' : ∀ m0 n0, ∃ ts' m' n', fold_break (GetNext_body nsy c None) l (ts1, m0, n0) = Ok (ts', m', n') ∧
    same_but_cur ts ts' ∧ (∀ i, cur ts' i = if decide (i ∈ y :: l) then cur ts i + wt ts i else cur ts i) ∧
    m0 ≤ m' ∧ (∀ i, i ∈ l → cur ts i + wt ts i ≤ m') ∧
    ((m' = m0 ∧ n' = n0) ∨ ∃ x, n' = Some x ∧ x ∈ l ∧ m' = cur ts x + wt ts x)).
  { intros m0 n0. destruct (IH ts1 m0 n0) as (ts' & m' & n' & E & Hsb & Hcur & Hm & Hmax & Hn'); [done|..].
    - eapply Forall_impl; [exact Hw|]. intros j. apply weighted_set.
    - apply Forall_forall. intros j Hj. rewrite Hone, Hw1 by done. rewrite Forall_forall in Hr. by apply Hr.
    - exists ts', m', n'. split; [done|]. split; [by eapply same_but_cur_trans; [apply same_but_cur_set, same_but_cur_refl|]|].
      split_and!; [|done| |].
      + intros i. rewrite Hcur, Hc1, Hw1. repeat case_decide; subst; set_solver.
      + intros i Hi. rewrite <- Hone, <- Hw1 by done. by apply Hmax.
      + destruct Hn' as [?|(x & ? & Hx & ->)]; [by left|right]. exists x. by rewrite Hone, Hw1. }
  destruct (Z.gtb_spec v m).
  - destruct (IH' v (Some y)) as (ts' & m' & n' & E & Hsb & Hcur & Hm & Hmax & Hn'). exists ts', m', n'.
    split_and!; try done; [lia| |].
    + intros i [->|Hi]%elem_of_cons; [done|by apply Hmax].
    + right. destruct Hn' as [[-> ->]|(x & ? & ? & ?)]; [exists y|exists x]; split_and!; try done; set_solver.
  - destruct (IH' m n) as (ts' & m' & n' & E & Hsb & Hcur & Hm & Hmax & Hn'). exists ts', m', n'.
    split_and!; try done.
    + intros i [->|Hi]%elem_of_cons; [unfold v in *; lia|by apply Hmax].
    + destruct Hn' as [?|(x & ? & ? & ?)]; [by left|right]. exists x. split_and!; try done. set_solver.
Qed.

Lemma swrr_GetNext ts s : NoDup (m_tasks s) → Forall (weighted ts) (m_tasks s) → m_tasks s ≠ [] →
  m_yielded s = None →
  (∀ i, i ∈ m_tasks s → INT32_MIN < cur ts i + wt ts i ≤ INT32_MAX) →
  (∀ x, x ∈ m_tasks s → (∀ j, j ∈ m_tasks s → cur ts j + wt ts j ≤ cur ts x + wt ts x) →
     in_i32 (cur ts x + wt ts x - m_total_weight s)) →
  ∃ x ts', GetNext nsy c (ts, s) = Ok (Some x, (ts', s)) ∧ x ∈ m_tasks s ∧
    (∀ j, j ∈ m_tasks s → cur ts j + wt ts j ≤ cur ts x + wt ts x) ∧ same_but_cur ts ts' ∧
    ∀ i, cur ts' i = (if decide (i ∈ m_tasks s) then cur ts i + wt ts i else cur ts i) -
                     (if decide (x = i) then m_total_weight s else 0).
Proof using Hcfg.
  intros Hn Hw Hne Hy Hr Hx. unfold GetNext. destruct (m_tasks s) as [|x0 k] eqn:El; [done|].
  assert (Es : (if nsy then mkSWRR (x0 :: k) (m_sleep s) None (m_total_weight s) else s) = s).
  { rewrite <- El, <- Hy. destruct nsy; [by destruct s|done]. }
  assert (Ek : (if nsy then m_yielded s else None) = None) by (by destruct nsy).
  rewrite Es, Ek, El, ring_loop_all by done.
  destruct (swrr_GetNext_fold (x0 :: k) ts INT32_MIN None Hn Hw) as (ts1 & m & n & -> & Hsb & Hcur & Hm & Hmax & Hsel).
  { apply Forall_forall. intros i Hi. specialize (Hr i Hi). unfold in_i32. lia. }
  cbn [mbind res_bind]. destruct Hsel as [[-> _]|(x & -> & Hxin & Em)].
  { assert (x0 ∈ x0 :: k) as Hx0 by left. specialize (Hmax x0 Hx0). specialize (Hr x0 Hx0). lia. }
  assert (E : (if nsy then Ok (Some x, m) else Ok (Some x, m)) = Ok (Some x, m)) by (by destruct nsy). rewrite E.
  cbn [mbind res_bind]. assert (Hin : in_i32 (m - m_total_weight s)).
  { rewrite Em. apply Hx; [done|]. intros j Hj. rewrite <- Em. by apply Hmax. }
  unfold i32. rewrite bool_decide_eq_true_2 by done. cbn [mbind res_bind].
  assert (∃ t1, ts1 !! x = Some t1) as [t1 Ht1].
  { apply lookup_lt_is_Some. rewrite Forall_forall in Hw. destruct (Hw x Hxin) as (t & Ht & _).
    destruct Hsb as [-> _]. by eapply lookup_lt_Some. }
  rewrite (set_current_ok ts1 x _ t1 Ht1). cbn [mbind res_bind]. eexists x, _. split; [done|]. split; [done|].
  split; [intros j Hj; rewrite <- Em; by apply Hmax|]. split; [by apply same_but_cur_set|].
  intros i. rewrite (cur_set ts1 x _ i t1 Ht1), Hcur. repeat case_decide; subst; try done; lia.
Qed.

Record swrr_inv (ts : tasks) (s : SWRR) : Prop := {
  sw_nodup : NoDup (m_tasks s ++ m_sleep s);
  sw_weighted : Forall (weighted ts) (m_tasks s ++ m_sleep s);
  sw_total : m_total_weight s = sumf (wt ts) (m_tasks s);
  sw_yielded y : m_yielded s = Some y → y ∈ m_tasks s;
}.

Lemma same_but_cur_wt ts ts' i : same_but_cur ts ts' → wt ts' i = wt ts i.
Proof using Hcfg.
  intros [Hl H]. unfold wt. destruct (ts' !! i) as [t'|] eqn:E.
  - destruct (H i t' E) as (t & w & -> & ->). by rewrite GetWeight_rt.
  - apply lookup_ge_None in E. rewrite Hl in E. by rewrite (lookup_ge_None_2 ts).
Qed.
Lemma same_but_cur_weighted ts ts' i : same_but_cur ts ts' → weighted ts i → weighted ts' i.
Proof using Hcfg.
  intros Hs (t & Ht & Hw & Hp). unfold weighted. rewrite (same_but_cur_wt ts ts') by done. destruct Hs as [Hl H].
  assert (is_Some (ts' !! i)) as [t' Ht'] by (apply lookup_lt_is_Some; rewrite Hl; by eapply lookup_lt_Some).
  destruct (H i t' Ht') as (t0 & w & E & ->). simplify_eq. exists (with_rt_weight w t). by rewrite GetWeight_rt.
Qed.

Lemma total_nonneg ts s : swrr_inv ts s → 0 ≤ m_total_weight s.
Proof using.
  intros [_ Hw Ht _]. rewrite Ht. apply Forall_app in Hw as [Hw _]. clear Ht.
  induction Hw as [|x l (_ & _ & _ & Hx) _ IH]; cbn [sumf]; lia.
Qed.

(** ** A full cycle *)

(** [n] selections from a state in which every ready task has the current
    weight [c0]. *)
Definition progress (c0 : Z) (ts : tasks) (s : SWRR) (n : nat) (p : list nat) (ts' : tasks) : Prop :=
  iterate_res (GetNext nsy c) n (ts, s) = Ok (Some <$> p, (ts', s)) ∧ length p = n ∧
  Forall (λ x, x ∈ m_tasks s) p ∧ same_but_cur ts ts' ∧
  (∀ i, i ∉ m_tasks s → cur ts' i = cur ts i) ∧
  ∀ i, i ∈ m_tasks s →
    cur ts' i = c0 + Z.of_nat n * wt ts i - m_total_weight s * occ i p ∧
    occ i p ≤ wt ts i ∧ - m_total_weight s < Z.of_nat n * wt ts i - m_total_weight s * occ i p.

(** The candidates of a round add up to the same value in every round. *)
Lemma sum_candidates c0 W n ts l p : NoDup l → Forall (λ x, x ∈ l) p →
  sumf (λ i, c0 + 1 * (n * wt ts i + - W * occ i p)) l =
  c0 * Z.of_nat (length l) + n * sumf (wt ts) l - W * Z.of_nat (length p).
Proof using.
  intros Hn Hp. rewrite (sumf_lin (λ i, n * wt ts i + - W * occ i p)).
  rewrite (sumf_add (λ i, n * wt ts i) (λ i, - W * occ i p)).
  rewrite (sumf_ext (λ i, n * wt ts i) (λ i, 0 + n * wt ts i)) by (intros; lia).
  rewrite (sumf_ext (λ i, - W * occ i p) (λ i, 0 + - W * occ i p)) by (intros; lia).
  rewrite (sumf_lin (wt ts)), (sumf_lin (λ i, occ i p)), sumf_occ by done. lia.
Qed.

Lemma progress_step c0 ts s n p ts' : swrr_inv ts s → m_yielded s = None → m_tasks s ≠ [] →
  INT32_MIN < c0 - m_total_weight s →
  c0 + Z.of_nat (length (m_tasks s)) * m_total_weight s ≤ INT32_MAX →
  progress c0 ts s n p ts' → Z.of_nat n < m_total_weight s →
  ∃ x ts2, progress c0 ts s (S n) (p ++ [x]) ts2.
Proof using Hcfg.
  intros [Hnd Hw Htot _] Hy Hne Hlo Hhi (Eit & Hlen & Hin & Hsb & Hout & Hcur) Hlt.
  apply NoDup_app in Hnd as (Hn & _). apply Forall_app in Hw as [Hw _].
  set (W := m_total_weight s) in *. set (l := m_tasks s) in *.
  set (cand := λ i, cur ts' i + wt ts i).
  assert (Hcand : ∀ i, i ∈ l → cand i = c0 + 1 * (Z.of_nat (S n) * wt ts i + - W * occ i p)).
  { intros i Hi. unfold cand. destruct (Hcur i Hi) as [-> _]. lia. }
  assert (Hsum : sumf cand l = c0 * Z.of_nat (length l) + W).
  { rewrite (sumf_ext _ _ _ Hcand), (sum_candidates c0 W _ ts l p Hn Hin), Hlen, <- Htot. nia. }
  assert (Hpos : ∀ i, i ∈ l → 0 < wt ts i).
  { intros i Hi. rewrite Forall_forall in Hw. by destruct (Hw i Hi) as (_ & _ & _ & ?). }
  assert (Hlow : ∀ i, i ∈ l → c0 - W + 2 ≤ cand i).
  { intros i Hi. unfold cand. destruct (Hcur i Hi) as (-> & _ & ?). specialize (Hpos i Hi). lia. }
  assert (Hup : ∀ i, i ∈ l → cand i ≤ INT32_MAX).
  { intros i Hi. assert (H := sumf_lower cand (c0 - W) i l ltac:(intros j Hj; specialize (Hlow j Hj); lia) Hi).
    rewrite Hsum in H. nia. }
  assert (Hwt : ∀ i, wt ts' i = wt ts i) by (intros; by apply same_but_cur_wt).
  destruct (swrr_GetNext ts' s Hn) as (x & ts2 & E2 & Hx & Hmax & Hsb2 & Hcur2); try done.
  { eapply Forall_impl; [exact Hw|]. intros i. by apply same_but_cur_weighted. }
  { intros i Hi. rewrite Hwt. fold l in Hi. specialize (Hlow i Hi). specialize (Hup i Hi). unfold cand in *. lia. }
  { intros x Hx Hm. rewrite Hwt in *. fold l in Hx, Hm. fold W. specialize (Hup x Hx).
    assert (c0 < cand x); [|unfold cand, in_i32 in *; lia]. eapply (above_average cand c0 W l); [done|lia|].
    intros j Hj. specialize (Hm j Hj). by rewrite Hwt in Hm. }
  exists x, ts2. unfold progress. fold l W. fold l in Hx, Hmax, Hcur2. fold W in Hcur2.
  assert (Hcx : c0 < cand x).
  { eapply (above_average cand c0 W l); [done|lia|]. intros j Hj. specialize (Hmax j Hj). by rewrite !Hwt in Hmax. }
  split; [rewrite fmap_app; eapply iterate_res_snoc; [exact Eit|exact E2]|].
  split; [rewrite length_app; cbn; lia|]. split; [apply Forall_app; split; [done|]; by apply Forall_singleton|].
  split; [by eapply same_but_cur_trans|]. split.
  - intros i Hi. rewrite Hcur2, decide_False, decide_False by (done || by intros ->). rewrite Hout by done. lia.
  - intros i Hi. rewrite Hcur2, Hwt, occ_snoc, decide_True by done.
    destruct (Hcur i Hi) as (Ec & Ho & Hb). specialize (Hpos i Hi). rewrite Ec. case_decide; [subst i|split_and!; nia].
    rewrite Hcand in Hcx by done. split_and!; [lia| |lia].
    enough (occ x p < wt ts x) by lia. assert (W * occ x p < Z.of_nat (S n) * wt ts x) by lia. nia.
Qed.

Lemma progress_all c0 ts s n : swrr_inv ts s → m_yielded s = None → m_tasks s ≠ [] →
  INT32_MIN < c0 - m_total_weight s →
  c0 + Z.of_nat (length (m_tasks s)) * m_total_weight s ≤ INT32_MAX →
  (∀ i, i ∈ m_tasks s → cur ts i = c0) → Z.of_nat n ≤ m_total_weight s →
  ∃ p ts', progress c0 ts s n p ts'.
Proof using Hcfg.
  intros Hi Hy Hne Hlo Hhi Hc0. induction n as [|n IH]; intros Hn.
  - exists [], ts. split; [done|]. split; [done|]. split; [constructor|]. split; [apply same_but_cur_refl|].
    split; [done|]. intros i Hin. rewrite Hc0 by done. destruct Hi as [_ Hw Ht _]. rewrite Forall_forall in Hw.
    destruct (Hw i) as (_ & _ & _ & Hp); [set_solver|].
    assert (H := sumf_lower (wt ts) 0 i (m_tasks s)). unfold occ. cbn in *.
    assert (wt ts i ≤ m_total_weight s); [|lia].
    assert (wt ts i + 0 * (Z.of_nat (length (m_tasks s)) - 1) ≤ sumf (wt ts) (m_tasks s)); [|lia]. apply H; [|done].
    intros j Hj. destruct (Hw j) as (_ & _ & _ & Hp'); [set_solver|]. lia.
  - destruct IH as (p & ts' & Hp); [lia|].
    destruct (progress_step c0 ts s n p ts' Hi Hy Hne Hlo Hhi Hp) as (x & ts2 & H2); [lia|]. eauto.
Qed.
(** One cycle of [m_total_weight] selections, from a state in which all ready
    tasks have the same current weight, ends in the state it started from. *)
Lemma cycle_shares (ts : list KernelTask) (s : SWRR) (c0 : Z) :
  swrr_inv ts s → m_yielded s = None → m_tasks s ≠ [] →
  INT32_MIN < c0 - m_total_weight s →
  c0 + Z.of_nat (length (m_tasks s)) * m_total_weight s ≤ INT32_MAX →
  (∀ i, i ∈ m_tasks s → cur ts i = c0) →
  ∃ p, iterate_res (GetNext nsy c) (Z.to_nat (m_total_weight s)) (ts, s) = Ok (Some <$> p, (ts, s)) ∧
    (∀ i, i ∈ m_tasks s → occ i p = wt ts i) ∧ Forall (λ x, x ∈ m_tasks s) p.
Proof using Hcfg.
  intros Hi Hy Hne Hlo Hhi Hc0.
  assert (HW : 0 ≤ m_total_weight s) by (apply (total_nonneg ts s Hi)).
  destruct (progress_all c0 ts s (Z.to_nat (m_total_weight s)) Hi Hy Hne Hlo Hhi Hc0)
    as (p & ts' & E & Hlen & Hin & Hsb & Hout & Hcur); [lia|].
  rewrite Z2Nat.id in Hcur by done.
  assert (Hocc : ∀ i, i ∈ m_tasks s → occ i p = wt ts i).
  { apply (sumf_pointwise (λ i, occ i p) (wt ts)); [intros i Hx; by apply Hcur|].
    destruct Hi as [Hn _ Ht _]. apply NoDup_app in Hn as (Hn & _). rewrite sumf_occ, Hlen, <- Ht by done. lia. }
  assert (ts' = ts) as ->.
  { apply same_but_cur_eq; [done|]. intros i. destruct (decide (i ∈ m_tasks s)) as [Hx|Hx]; [|by apply Hout].
    destruct (Hcur i Hx) as [-> _]. rewrite Hocc, Hc0 by done. lia. }
  exists p. done.
Qed.


Lemma cycles_shares ts s c0 m : swrr_inv ts s → m_yielded s = None → m_tasks s ≠ [] →
  INT32_MIN < c0 - m_total_weight s →
  c0 + Z.of_nat (length (m_tasks s)) * m_total_weight s ≤ INT32_MAX →
  (∀ i, i ∈ m_tasks s → cur ts i = c0) →
  ∃ p, iterate_res (GetNext nsy c) (m * Z.to_nat (m_total_weight s)) (ts, s) = Ok (Some <$> p, (ts, s)) ∧
    (∀ i, i ∈ m_tasks s → occ i p = Z.of_nat m * wt ts i) ∧ Forall (λ x, x ∈ m_tasks s) p.
Proof using Hcfg.
  intros Hi Hy Hne Hlo Hhi Hc0. induction m as [|m (q & Eq & Hq & Fq)]; [by exists []|].
  destruct (cycle_shares ts s c0 Hi Hy Hne Hlo Hhi Hc0) as (p & Ep & Hp & Fp). exists (p ++ q). split_and!.
  - rewrite fmap_app. by eapply iterate_res_app.
  - intros i Hx. unfold occ in *. rewrite filter_app, length_app, Nat2Z.inj_add, Hp, Hq by done. lia.
  - by apply Forall_app.
Qed.

(** ** From the empty strategy *)

Fixpoint add_all (l : list nat) (st : tasks * SWRR) : res (tasks * SWRR) :=
  match l with [] => Ok st | i :: k => st ← AddTask c i st; add_all k st end.

Lemma sumf_nonneg f l : (∀ i, i ∈ l → 0 < f i) → 0 ≤ sumf f l.
Proof using.
  induction l as [|x l IH]; intros H; cbn [sumf]; [done|]. assert (0 < f x) by (apply H; left).
  assert (0 ≤ sumf f l) by (apply IH; intros i Hi; apply H; by right). lia.
Qed.

(** Only ready tasks, none of which was selected yet. *)
Definition fresh ts s : Prop :=
  swrr_inv ts s ∧ m_sleep s = [] ∧ m_yielded s = None ∧ ∀ i, i ∈ m_tasks s → cur ts i = NO_WEIGHT.

Lemma swrr_add_one ts s i : fresh ts s → (i ∉ m_tasks s) → weighted ts i → wt ts i ≤ 0x7FFFFF →
  m_total_weight s + wt ts i ≤ INT32_MAX →
  ∃ s', AddTask c i (ts, s) = Ok (set_cur ts i NO_WEIGHT, s') ∧ fresh (set_cur ts i NO_WEIGHT) s' ∧
    m_tasks s' = m_tasks s ++ [i] ∧ m_total_weight s' = m_total_weight s + wt ts i.
Proof using Hcfg.
  intros (Hi & Hs & Hy & Hc) Hni Hw Hle Hfit. assert (Hw' := Hw). destruct Hw' as (t & Ht & Eg & Hpos).
  assert (H0 := total_nonneg ts s Hi). set (ts1 := set_cur ts i NO_WEIGHT).
  assert (Ht1 : ts1 !! i = Some (with_rt_weight NO_WEIGHT t)) by (unfold ts1; rewrite lookup_set_cur, decide_True, Ht by done; done).
  unfold AddTask, weight_of, get. rewrite Ht. cbn [deref mbind res_bind]. rewrite Eg. cbn [mbind res_bind].
  rewrite !bool_decide_eq_true_2 by lia. cbn [andb stk_assert]. rewrite (set_current_ok ts i _ t Ht). cbn [mbind res_bind]. fold ts1.
  unfold AddActive, LinkBack, linked, in_tasks, in_sleep. rewrite Hs, !bool_decide_eq_false_2 by set_solver.
  cbn [orb negb stk_assert mbind res_bind]. unfold weight_of, get. rewrite Ht1. cbn [deref mbind res_bind].
  rewrite GetWeight_rt, Eg. cbn [mbind res_bind]. unfold i32.
  rewrite bool_decide_eq_true_2 by (unfold in_i32, INT32_MIN, INT32_MAX in *; lia). cbn [mbind res_bind].
  eexists. split; [done|]. cbn. split_and!; [|done..]. destruct Hi as [Hn Hf Htot _]. rewrite Hs, app_nil_r in Hn, Hf.
  split_and!; cbn; [|done..|].
  - split; cbn.
    + rewrite app_nil_r. apply NoDup_app. split_and!; [done|set_solver|apply NoDup_singleton].
    + rewrite app_nil_r. apply Forall_app. split; [|apply Forall_singleton; by apply weighted_set].
      eapply Forall_impl; [done|]. intros j. apply weighted_set.
    + rewrite Htot. unfold ts1. clear -Hcfg. induction (m_tasks s) as [|x l IH]; cbn [sumf app]; rewrite wt_set; [lia|]. lia.
    + by rewrite Hy.
  - intros j Hj. unfold ts1. rewrite (cur_set ts i _ j t Ht). case_decide; [done|]. apply Hc. set_solver.
Qed.

Lemma swrr_add_all l : ∀ ts s, fresh ts s → NoDup l → (∀ i, i ∈ l → (i ∉ m_tasks s) ∧ weighted ts i ∧ wt ts i ≤ 0x7FFFFF) →
  m_total_weight s + sumf (wt ts) l ≤ INT32_MAX →
  ∃ ts' s', add_all l (ts, s) = Ok (ts', s') ∧ fresh ts' s' ∧ m_tasks s' = m_tasks s ++ l ∧
    m_total_weight s' = m_total_weight s + sumf (wt ts) l ∧ ∀ i, wt ts' i = wt ts i.
Proof using Hcfg.
  induction l as [|x l IH]; intros ts s Hf Hn Hl Hfit; cbn [add_all sumf] in *.
  { exists ts, s. rewrite app_nil_r. split_and!; try done. lia. }
  apply NoDup_cons in Hn as [Hx Hn]. destruct (Hl x) as (Hni & Hw & Hle); [by left|].
  assert (H0 : 0 ≤ sumf (wt ts) l) by (apply sumf_nonneg; intros i Hi; destruct (Hl i) as (_ & (_ & _ & _ & ?) & _); [by right|done]).
  destruct (swrr_add_one ts s x Hf Hni Hw Hle) as (s1 & E1 & Hf1 & Et1 & Ew1); [lia|]. rewrite E1. cbn [mbind res_bind].
  assert (Es : ∀ k, sumf (wt (set_cur ts x NO_WEIGHT)) k = sumf (wt ts) k) by (intros; apply sumf_ext; intros; apply wt_set).
  destruct (IH (set_cur ts x NO_WEIGHT) s1 Hf1 Hn) as (ts' & s' & E' & Hf' & Et' & Ew' & Hw').
  - intros i Hi. destruct (Hl i) as (Hni' & Hwi & Hli); [by right|]. rewrite wt_set. split_and!; [|by apply weighted_set|done].
    rewrite Et1. intros [?|?%list_elem_of_singleton]%elem_of_app; [done|by subst].
  - rewrite Es, Ew1. lia.
  - exists ts', s'. split_and!; [done..| | |].
    + by rewrite Et', Et1, <- app_assoc.
    + rewrite Ew', Ew1, Es. lia.
    + intros i. by rewrite Hw', wt_set.
Qed.
End selection.


(** Weights 3, 1 and 2: two cycles of six selections. *)
Definition swrr_ex_cfg : KernelCfg := mkCfg 2 (EConfig false).
Definition swrr_ex_tasks : list KernelTask := (λ w, with_base_weight w KernelTask_ctor) <$> [3; 1; 2].

Example swrr_example :
  let c := mkCfg 2 (EConfig false) in
  let ts := (λ w, with_rt_weight (-1) (with_base_weight w KernelTask_ctor)) <$> [3; 1; 2] in
  iterate_res (GetNext false c) 6 (ts, mkSWRR [0; 1; 2]%nat [] None 6) =
    Ok (Some <$> [0; 2; 0; 1; 2; 0]%nat, (ts, mkSWRR [0; 1; 2]%nat [] None 6)).
Proof. vm_compute. reflexivity. Qed.

End SmoothWRR.
