(* ===== verification/Kernel.v ===== *)
(** * The kernel ([Kernel<TMode, TSize, TStrategy, TPlatform>] of [stk.h])

    The state of the kernel and one definition per operation: task management,
    the tick handler, the scheduler's state machine, sleeping, waiting on
    synchronization objects, suspension, priority inheritance and telemetry.
    The scheduling policy is a [StrategyOps], so every theorem about the kernel
    holds for each strategy that implements the contract.

    A call that blocks (Sleep, Wait, Yield, self-suspension) spins on the
    processor until the tick handler has moved the task: such an operation is
    split at the point where it gives up the processor, and
    [OnForceContextSwitch], which the platform runs at that point, is an
    operation of its own.  Every operation runs with interrupts disabled (a
    critical section or the tick interrupt), so a run of the system is a
    sequence of these operations.

    Outside of the model: the stack contents prepared by [InitStack] and the
    other platform services, tracing, and the user callbacks [OnExit] and
    [OnDeadlineMissed]; a missed deadline ends in [ProcessHardFault], which the
    model makes a panic. *)

From S2P Require Import Prelude KernelTask Strategy.
Import KTask Strat.
Local Open Scope Z_scope.

Module Kernel.

(** ** State *)

Inductive EFsmState : Set :=
| FSM_STATE_NONE | FSM_STATE_SWITCHING | FSM_STATE_SLEEPING | FSM_STATE_WAKING | FSM_STATE_EXITING
| FSM_STATE_MAX.
Inductive EFsmEvent : Set := FSM_EVENT_SWITCH | FSM_EVENT_SLEEP | FSM_EVENT_WAKE | FSM_EVENT_EXIT.
#[global] Instance EFsmState_eq_dec : EqDecision EFsmState.
Proof. solve_decision. Defined.

Definition YIELD_TICKS : Z := 1.

(** A synchronization object as the kernel sees it: the tasks whose wait objects
    are linked to it, and for an [Event] the two members its
    [RemoveWaitObject] depends on, [(m_manual_reset, m_signaled)]. *)
Record SyncObject := mkSync { so_wait_list : list nat; so_event : option (bool * bool) }.

Record Kernel (S : Type) := mkKernel {
  m_task_storage : list KernelTask;
  m_strategy : S;
  m_task_now : option nat;
  m_fsm_state : EFsmState;
  m_kstate : EKernelState;
  m_ticks : Z;
  m_sync_list : list nat;        (* objects linked for timeout tracking *)
  m_sync : gmap nat SyncObject;  (* the application's objects *)
}.
Global Arguments mkKernel {S}.
Global Arguments m_task_storage {S}.
Global Arguments m_strategy {S}.
Global Arguments m_task_now {S}.
Global Arguments m_fsm_state {S}.
Global Arguments m_kstate {S}.
Global Arguments m_ticks {S}.
Global Arguments m_sync_list {S}.
Global Arguments m_sync {S}.

(** The stack a context switch saves to or restores from. *)
Inductive StackRef : Set := StackNull | StackTask (i : nat) | StackSleepTrap | StackExitTrap.

Section kernel.
Context {S : Type} (ops : StrategyOps S) (c : KernelCfg).
(** [STK_TICKLESS_TICKS_MAX] and [sizeof(Word)]. *)
Context (STK_TICKLESS_TICKS_MAX WordSize : Z).
Let sc := cfg_strategy c.
Implicit Types k : Kernel S.

Definition set_tasks ts k := mkKernel ts (m_strategy k) (m_task_now k) (m_fsm_state k) (m_kstate k) (m_ticks k) (m_sync_list k) (m_sync k).
Definition set_strategy (s : S) k := mkKernel (m_task_storage k) s (m_task_now k) (m_fsm_state k) (m_kstate k) (m_ticks k) (m_sync_list k) (m_sync k).
Definition set_now n k := mkKernel (m_task_storage k) (m_strategy k) n (m_fsm_state k) (m_kstate k) (m_ticks k) (m_sync_list k) (m_sync k).
Definition set_fsm f k := mkKernel (m_task_storage k) (m_strategy k) (m_task_now k) f (m_kstate k) (m_ticks k) (m_sync_list k) (m_sync k).
Definition set_kstate s k := mkKernel (m_task_storage k) (m_strategy k) (m_task_now k) (m_fsm_state k) s (m_ticks k) (m_sync_list k) (m_sync k).
Definition set_ticks n k := mkKernel (m_task_storage k) (m_strategy k) (m_task_now k) (m_fsm_state k) (m_kstate k) n (m_sync_list k) (m_sync k).
Definition set_sync_list l k := mkKernel (m_task_storage k) (m_strategy k) (m_task_now k) (m_fsm_state k) (m_kstate k) (m_ticks k) l (m_sync k).
Definition set_sync m k := mkKernel (m_task_storage k) (m_strategy k) (m_task_now k) (m_fsm_state k) (m_kstate k) (m_ticks k) (m_sync_list k) m.

Definition task_at (k : Kernel S) (i : nat) : res KernelTask := get (m_task_storage k) i.
Definition put_task (i : nat) (t : KernelTask) k : Kernel S := set_tasks (<[i := t]> (m_task_storage k)) k.
(** [task->f()] for a method that may fail, and for one that may not. *)
Definition upd_task (i : nat) (f : KernelTask → res KernelTask) k : res (Kernel S) :=
  t ← task_at k i; t ← f t; Ok (put_task i t k).
Definition mod_task (i : nat) (f : KernelTask → KernelTask) k : res (Kernel S) :=
  upd_task i (λ t, Ok (f t)) k.

(** A call of the strategy, which may also write the tasks. *)
Definition strat (f : list KernelTask * S → res (list KernelTask * S)) k : res (Kernel S) :=
  '(ts, s) ← f (m_task_storage k, m_strategy k); Ok (set_strategy s (set_tasks ts k)).
Definition strat_ask {A} (f : list KernelTask * S → res (A * (list KernelTask * S))) k : res (A * Kernel S) :=
  '(a, (ts, s)) ← f (m_task_storage k, m_strategy k); Ok (a, set_strategy s (set_tasks ts k)).

Definition IsInitialized (k : Kernel S) : bool := negb (bool_decide (m_kstate k = KSTATE_INACTIVE)).
Definition IsStarted (k : Kernel S) : bool := negb (bool_decide (m_task_now k = None)).
Definition IsLocked (k : Kernel S) : bool := bool_decide (m_kstate k = KSTATE_LOCKED).
Definition is_now (k : Kernel S) (i : nat) : bool := bool_decide (m_task_now k = Some i).

(** [Kernel()]. *)
Definition Kernel_ctor (TSize : nat) (sync : gmap nat SyncObject) : Kernel S :=
  mkKernel (replicate TSize KernelTask_ctor) (st_ctor ops) None FSM_STATE_NONE KSTATE_INACTIVE 0 [] sync.

(** [Initialize(resolution_us)]. *)
Definition Initialize k : res (Kernel S) :=
  assert! negb (IsInitialized k);
  Ok (set_kstate KSTATE_READY (set_fsm FSM_STATE_NONE (set_now None k))).

(** ** Finding tasks *)

(** [FindTaskByUserTask(user_task)]; the pointer is its address. *)
Definition FindTaskByUserTask (user_task : Z) (k : Kernel S) : option nat :=
  fst <$> list_find (λ t, GetTid t = user_task) (m_task_storage k).

(** [FindTaskBySP(SP)]. *)
Fixpoint FindTaskBySP_loop (SP : Z) (ts : list KernelTask) (i : nat) : res (option nat) :=
  match ts with
  | [] => Ok None
  | t :: rest =>
      if IsDynamicMode c && negb (IsBusy t) then FindTaskBySP_loop SP rest (Datatypes.S i)
      else b ← IsMemoryOfSP WordSize SP t;
           if (b : bool) then Ok (Some i) else FindTaskBySP_loop SP rest (Datatypes.S i)
  end.
Definition FindTaskBySP (SP : Z) (k : Kernel S) : res (option nat) :=
  match m_task_now k with
  | None => Panic PANIC_ASSERT
  | Some now =>
      t ← task_at k now;
      b ← IsMemoryOfSP WordSize SP t;
      if (b : bool) then Ok (Some now) else FindTaskBySP_loop SP (m_task_storage k) 0
  end.
(** [FindTaskBySP] followed by [STK_ASSERT(task != nullptr)]. *)
Definition caller (SP : Z) (k : Kernel S) : res nat :=
  o ← FindTaskBySP SP k; match o with Some i => Ok i | None => Panic PANIC_ASSERT end.

(** ** Adding and removing tasks *)

(** [TryAllocateNewTask(user_task, result)]. *)
Definition TryAllocateNewTask (u : ITask) k : res (EAddResult * option nat * Kernel S) :=
  let collision := existsb (λ t, match m_user t with
                                 | Some v => (u_addr v =? u_addr u) || (u_stack v =? u_stack u)
                                 | None => false
                                 end) (m_task_storage k) in
  let new_task := fst <$> list_find (λ t, IsBusy t = false) (m_task_storage k) in
  if collision then Ok (ADD_FAIL_DUPLICATE, None, k)
  else match new_task with
       | None => Ok (ADD_FAIL_POOL_FULL, None, k)
       | Some i => k ← upd_task i (Bind c u) k; Ok (ADD_OK, Some i, k)
       end.

Definition AddKernelTask (i : nat) k : res (Kernel S) := strat (st_AddTask ops c i) k.

(** [AddTask(user_task)]; a null pointer is [None]. *)
Definition AddTask (user_task : option ITask) k : res (EAddResult * Kernel S) :=
  '(result, k) ←
    (match user_task with
     | Some u =>
         if negb (IsHrtMode c) then
           if IsInitialized k && (IsDynamicMode c || negb (IsStarted k)) then
             '(r, o, k) ← TryAllocateNewTask u k;
             match o with
             | Some i => k ← AddKernelTask i k; Ok (r, k)
             | None => Ok (r, k)
             end
           else Ok (ADD_FAIL_INVALID, k)
         else Ok (ADD_FAIL_INVALID, k)
     | None => Ok (ADD_FAIL_INVALID, k)
     end);
  if IsStaticMode c || IsHrtMode c then assert! bool_decide (result = ADD_OK); Ok (result, k)
  else Ok (result, k).

(** [AddTask(user_task, periodicity_tc, deadline_tc, start_delay_tc)]. *)
Definition AddTaskHrt (user_task : option ITask) (p d delay : Z) k : res (EAddResult * Kernel S) :=
  assert! IsHrtMode c;
  let params_valid := (0 <? p) && (p <? INT32_MAX) && (0 <? d) && (d <? INT32_MAX) && (0 <=? delay) in
  '(result, k) ←
    (match user_task with
     | Some u =>
         if params_valid then
           if IsInitialized k && negb (IsStarted k) then
             '(r, o, k) ← TryAllocateNewTask u k;
             match o with
             | Some i => k ← upd_task i (HrtInit c p d delay) k; k ← AddKernelTask i k; Ok (r, k)
             | None => Ok (r, k)
             end
           else Ok (ADD_FAIL_INVALID, k)
         else Ok (ADD_FAIL_INVALID, k)
     | None => Ok (ADD_FAIL_INVALID, k)
     end);
  if IsStaticMode c then assert! bool_decide (result = ADD_OK); Ok (result, k) else Ok (result, k).

(** [RemoveTask] of a kernel task. *)
Definition RemoveKernelTask (i : nat) k : res (Kernel S) :=
  k ← strat (st_RemoveTask ops c i) k;
  upd_task i (Unbind c) k.

(** [RemoveTask] of a user task, before the scheduler is started. *)
Definition RemoveTask (user_task : Z) k : res (Kernel S) :=
  assert! IsDynamicMode c;
  assert! negb (user_task =? 0);
  assert! negb (IsStarted k);
  match FindTaskByUserTask user_task k with
  | Some i => RemoveKernelTask i k
  | None => Ok k
  end.

(** [ProcessTaskPendingSleep(task)]. *)
Definition ProcessTaskPendingSleep (i : nat) k : res (Kernel S) :=
  k ← mod_task i (λ t, lower STATE_WAKE_PENDING (lower STATE_SLEEP_PENDING t)) k;
  if SLEEP_EVENT_API sc then strat (st_OnTaskSleep ops c i) k else Ok k.

(** ** Synchronization objects *)

(** [wobj->GetHead() == nullptr]. *)
Definition wobj_free (k : Kernel S) (i : nat) : bool :=
  bool_decide (map_Forall (λ _ so, i ∉ so_wait_list so) (m_sync k)).

(** [sync_obj->AddWaitObject(this)]. *)
Definition AddWaitObject (o i : nat) k : res (Kernel S) :=
  so ← deref (m_sync k !! o);
  assert! wobj_free k i;
  Ok (set_sync (<[o := mkSync (so_wait_list so ++ [i]) (so_event so)]> (m_sync k)) k).

(** [sync_obj->RemoveWaitObject(this)]: an auto-reset [Event] consumes its
    signal when the waiter was woken by it. *)
Definition RemoveWaitObject (o i : nat) (state : EState) k : res (Kernel S) :=
  so ← deref (m_sync k !! o);
  assert! bool_decide (i ∈ so_wait_list so);
  let ev := match so_event so with
            | Some (manual, signaled) =>
                Some (manual, if negb manual && signaled && bool_decide (state = STATE_SIGNALED) then false else signaled)
            | None => None
            end in
  Ok (set_sync (<[o := mkSync (list_remove1 i (so_wait_list so)) ev]> (m_sync k)) k).

(** The wait of task [i] ends with [state]; the task itself is not woken. *)
Definition end_wait (i : nat) (state : EState) (time_wait : Z → Z) k : res (Kernel S) :=
  t ← task_at k i;
  let w := m_wait_obj t in
  match m_sync_obj w with
  | None => Panic PANIC_ASSERT
  | Some o =>
      k ← RemoveWaitObject o i state k;
      mod_task i (with_wait (mkWait None (time_wait (m_time_wait w)) state)) k
  end.

(** [WaitObject::Wake(timeout)], [Cancel()], [CancelNoWake()], [CancelIfWaiting()]. *)
Definition WaitObject_Wake (timeout : bool) (i : nat) k : res (Kernel S) :=
  k ← end_wait i (if timeout then STATE_TIMEOUT else STATE_SIGNALED) (λ _, NO_WAIT) k;
  upd_task i Wake k.
Definition WaitObject_Cancel (i : nat) k : res (Kernel S) :=
  k ← end_wait i STATE_CANCELLED (λ _, NO_WAIT) k;
  upd_task i Wake k.
Definition CancelNoWake (i : nat) k : res (Kernel S) :=
  t ← task_at k i;
  if IsWaiting (m_wait_obj t) then end_wait i STATE_CANCELLED (λ tw, tw) k else Ok k.
Definition CancelIfWaiting (i : nat) k : res (bool * Kernel S) :=
  t ← task_at k i;
  if IsWaiting (m_wait_obj t) then k ← WaitObject_Cancel i k; Ok (true, k) else Ok (false, k).

(** [WaitObject::SetupWait(sync_obj, timeout)]. *)
Definition SetupWait (i o : nat) (timeout : Z) k : res (Kernel S) :=
  t ← task_at k i;
  assert! negb (IsWaiting (m_wait_obj t));
  k ← mod_task i (with_wait (mkWait (Some o) timeout STATE_WAIT)) k;
  AddWaitObject o i k.

(** [ISyncObject::WakeOne(wlist)], [WakeAll(wlist)]. *)
Definition WakeOne (o : nat) k : res (Kernel S) :=
  so ← deref (m_sync k !! o);
  match so_wait_list so with
  | [] => Ok k
  | i :: _ => WaitObject_Wake false i k
  end.
Fixpoint WakeAll (fuel : nat) (o : nat) k : res (Kernel S) :=
  so ← deref (m_sync k !! o);
  match so_wait_list so with
  | [] => Ok k
  | i :: _ => match fuel with
              | O => Panic PANIC_FUEL
              | Datatypes.S f => k ← WaitObject_Wake false i k; WakeAll f o k
              end
  end.

(** [ISyncObject::Tick(elapsed_ticks)]: the waiters in order; the loop reads the
    successor before it handles an entry. *)
Fixpoint Tick_waiters (elapsed_ticks : Z) (l : list nat) k : res (Kernel S) :=
  match l with
  | [] => Ok k
  | i :: rest =>
      t ← task_at k i;
      '(waiting, w) ← WaitObject_Tick elapsed_ticks (m_wait_obj t);
      let k := put_task i (with_wait w t) k in
      k ← (if (waiting : bool) then Ok k else WaitObject_Wake true i k);
      Tick_waiters elapsed_ticks rest k
  end.
Definition SyncObject_Tick (elapsed_ticks : Z) (o : nat) k : res (bool * Kernel S) :=
  so ← deref (m_sync k !! o);
  k ← Tick_waiters elapsed_ticks (so_wait_list so) k;
  so ← deref (m_sync k !! o);
  Ok (negb (bool_decide (so_wait_list so = [])), k).

(** [UpdateSyncObjects(elapsed_ticks)]. *)
Fixpoint UpdateSyncObjects_loop (elapsed_ticks : Z) (l : list nat) k : res (Kernel S) :=
  match l with
  | [] => Ok k
  | o :: rest =>
      '(keep, k) ← SyncObject_Tick elapsed_ticks o k;
      let k := if (keep : bool) then k else set_sync_list (list_remove1 o (m_sync_list k)) k in
      UpdateSyncObjects_loop elapsed_ticks rest k
  end.
Definition UpdateSyncObjects (elapsed_ticks : Z) k : res (Kernel S) :=
  UpdateSyncObjects_loop elapsed_ticks (m_sync_list k) k.

(** [ISyncObject::FindWeightHigherThan(comp)]: the weights of the waiters' user
    tasks. *)
Fixpoint max_waiter_weight (l : list nat) (max_weight : Z) k : res Z :=
  match l with
  | [] => Ok max_weight
  | i :: rest =>
      t ← task_at k i;
      u ← deref (m_user t);
      max_waiter_weight rest (if u_weight u >? max_weight then u_weight u else max_weight) k
  end.
Definition FindWeightHigherThan (o : nat) (comp : Z) k : res Z :=
  so ← deref (m_sync k !! o);
  m ← max_waiter_weight (so_wait_list so) NO_WEIGHT k;
  Ok (if m >? comp then m else NO_WEIGHT).

(** ** The tick handler *)

(** [HrtHardFailDeadline]: the deadline is missed, the system stops. *)
Definition HrtHardFailDeadline (i : nat) k : res (Kernel S) :=
  t ← task_at k i;
  assert! bool_decide (0 ≤ duration (m_hrt t));
  assert! HrtIsDeadlineMissed (duration (m_hrt t)) t;
  Panic PANIC_KERNEL.

(** [UpdateTaskState], the part that handles a task that is asleep, after the
    check for removal: first its pending sleep, then its sleep time. *)
Definition UpdateSleepTime (elapsed_ticks : Z) (i : nat) k : res (Kernel S) :=
  t ← task_at k i;
  if negb (IsSleepInfinite t) then
    m ← i32 (m_time_sleep t + elapsed_ticks);
    if has t STATE_SUSPEND_PENDING && (0 <=? m) then mod_task i CommitSuspend k
    else
      let k := put_task i (with_sleep m t) k in
      if SLEEP_EVENT_API sc then
        if negb (IsSleeping (with_sleep m t)) then strat (st_OnTaskWake ops c i) k else Ok k
      else Ok k
  else Ok k.
Definition UpdateSleepingTask (elapsed_ticks : Z) (i : nat) k : res (Kernel S) :=
  t ← task_at k i;
  '(just_entered_sleep, k) ←
    (if has t STATE_SLEEP_PENDING then
       assert! (bool_decide (elapsed_ticks = 0) || bool_decide (elapsed_ticks = 1));
       let wake_pending := has t STATE_WAKE_PENDING in
       k ← ProcessTaskPendingSleep i k;
       Ok (negb wake_pending, k)
     else Ok (false, k));
  if negb just_entered_sleep then UpdateSleepTime elapsed_ticks i k else Ok k.

(** The part that handles a task that is awake: in hard real-time mode its
    execution time is charged and its deadline checked. *)
Definition UpdateAwakeTask (elapsed_ticks : Z) (i : nat) k : res (Kernel S) :=
  t ← task_at k i;
  if IsHrtMode c && IsBusy t then
    d ← i32 (duration (m_hrt t) + elapsed_ticks);
    let t := with_hrt (mkHrt (periodicity (m_hrt t)) (deadline (m_hrt t)) d (done (m_hrt t))) t in
    let k := put_task i t k in
    if HrtIsDeadlineMissed d t then
      if DEADLINE_MISSED_API sc then
        '(handled, k) ← strat_ask (st_OnTaskDeadlineMissed ops c i) k;
        if negb handled then HrtHardFailDeadline i k else Ok k
      else HrtHardFailDeadline i k
    else Ok k
  else Ok k.

(** One round of the loop of [UpdateTaskState]. *)
Definition UpdateTask (elapsed_ticks : Z) (i : nat) (sleep_ticks : Z) k : res (Z * Kernel S) :=
  k ← (if NOSLEEP_YIELD_API sc then mod_task i (lower STATE_YIELD_PENDING) k else Ok k);
  t ← task_at k i;
  let remove :=
    IsSleeping t && IsDynamicMode c && IsPendingRemoval t &&
    (negb (is_now k i) ||
     (bool_decide (st_GetSize ops (m_strategy k) = 1) && bool_decide (m_fsm_state k = FSM_STATE_SLEEPING))) in
  if remove then k ← RemoveKernelTask i k; Ok (sleep_ticks, k)
  else
    k ← (if IsSleeping t then UpdateSleepingTask elapsed_ticks i k else UpdateAwakeTask elapsed_ticks i k);
    t ← task_at k i;
    if IsTicklessMode c && (sleep_ticks >? 1) && IsBusy t then
      n ← GetSleepTicks c t sleep_ticks; Ok (n, k)
    else Ok (sleep_ticks, k).

Fixpoint UpdateTaskState_loop (elapsed_ticks : Z) (l : list nat) (sleep_ticks : Z) k : res (Z * Kernel S) :=
  match l with
  | [] => Ok (sleep_ticks, k)
  | i :: rest => '(n, k) ← UpdateTask elapsed_ticks i sleep_ticks k; UpdateTaskState_loop elapsed_ticks rest n k
  end.
(** [UpdateTaskState(elapsed_ticks)]. *)
Definition UpdateTaskState (elapsed_ticks : Z) k : res (Z * Kernel S) :=
  UpdateTaskState_loop elapsed_ticks (seq 0 (length (m_task_storage k)))
    (if IsTicklessMode c then STK_TICKLESS_TICKS_MAX else 1) k.

(** [UpdateTasks(elapsed_ticks)]. *)
Definition UpdateTasks (elapsed_ticks : Z) k : res (Z * Kernel S) :=
  k ← (if IsSyncMode c then UpdateSyncObjects elapsed_ticks k else Ok k);
  UpdateTaskState elapsed_ticks k.

(** [UpdateTimeslice(elapsed_ticks)]. *)
Definition UpdateTimeslice (elapsed_ticks : Z) k : res (Kernel S) :=
  match m_task_now k with
  | None => Ok k
  | Some i =>
      t ← task_at k i;
      if (bool_decide (m_fsm_state k = FSM_STATE_SWITCHING) || bool_decide (m_fsm_state k = FSM_STATE_WAKING))
         && IsBusy t && negb (IsSleeping t) && negb (quantum (m_ts t) =? NO_TIME_SLICE) then
        l ← i32 (left_ (m_ts t) - elapsed_ticks);
        let ts := mkTs (quantum (m_ts t)) l in
        if negb (IsLocked k) && (l <=? 0) then
          let k := put_task i (with_ts (TsInfo_Reload ts) t) k in
          '(_, k) ← strat_ask (st_OnTaskTimeSlice ops c i) k; Ok k
        else Ok (put_task i (with_ts ts t) k)
      else Ok k
  end.

(** ** The scheduler's state machine *)

Definition m_fsm (state : EFsmState) (event : EFsmEvent) : EFsmState :=
  match state, event with
  | FSM_STATE_SWITCHING, FSM_EVENT_SWITCH => FSM_STATE_SWITCHING
  | FSM_STATE_SWITCHING, FSM_EVENT_SLEEP => FSM_STATE_SLEEPING
  | FSM_STATE_SWITCHING, FSM_EVENT_WAKE => FSM_STATE_NONE
  | FSM_STATE_SWITCHING, FSM_EVENT_EXIT => FSM_STATE_EXITING
  | FSM_STATE_SLEEPING, FSM_EVENT_SWITCH => FSM_STATE_NONE
  | FSM_STATE_SLEEPING, FSM_EVENT_SLEEP => FSM_STATE_NONE
  | FSM_STATE_SLEEPING, FSM_EVENT_WAKE => FSM_STATE_WAKING
  | FSM_STATE_SLEEPING, FSM_EVENT_EXIT => FSM_STATE_EXITING
  | FSM_STATE_WAKING, FSM_EVENT_SWITCH => FSM_STATE_SWITCHING
  | FSM_STATE_WAKING, FSM_EVENT_SLEEP => FSM_STATE_SLEEPING
  | FSM_STATE_WAKING, FSM_EVENT_WAKE => FSM_STATE_NONE
  | FSM_STATE_WAKING, FSM_EVENT_EXIT => FSM_STATE_EXITING
  | _, _ => FSM_STATE_NONE
  end.
Definition IsValidFsmState (state : EFsmState) : bool :=
  match state with FSM_STATE_NONE | FSM_STATE_MAX => false | _ => true end.

(** [FetchNextEvent(next)]. *)
Definition FetchNextEvent k : res (EFsmEvent * option nat * Kernel S) :=
  '(next, k) ← strat_ask (st_GetNext ops c) k;
  match next with
  | Some i =>
      t ← task_at k i;
      assert! negb (IsSleeping t);
      Ok (if bool_decide (m_fsm_state k = FSM_STATE_SLEEPING) then FSM_EVENT_WAKE else FSM_EVENT_SWITCH, next, k)
  | None =>
      Ok (if IsDynamicMode c && bool_decide (st_GetSize ops (m_strategy k) = 0) then FSM_EVENT_EXIT
          else FSM_EVENT_SLEEP, None, k)
  end.
Definition GetNewFsmState k : res (EFsmState * option nat * Kernel S) :=
  assert! IsValidFsmState (m_fsm_state k);
  '(event, next, k) ← FetchNextEvent k;
  Ok (m_fsm (m_fsm_state k) event, next, k).

(** What a transition answers: whether to switch, and the two stacks. *)
Record SwitchResult := mkSwitch { switch_context : bool; sw_idle : StackRef; sw_active : StackRef }.
Definition no_switch : SwitchResult := mkSwitch false StackNull StackNull.

Definition StateSwitch (now next : option nat) k : res (SwitchResult * Kernel S) :=
  match now, next with
  | Some a, Some b =>
      if negb (bool_decide (b = a)) then
        let k := set_now (Some b) k in
        t ← task_at k a;
        k ← (if IsHrtMode c && done (m_hrt t) then upd_task a (HrtOnSwitchedOut c) k else Ok k);
        Ok (mkSwitch true (StackTask a) (StackTask b), k)
      else Ok (no_switch, k)
  | _, _ => Panic PANIC_ASSERT
  end.

Definition StateWake (now next : option nat) k : res (SwitchResult * Kernel S) :=
  match next with
  | Some b => Ok (mkSwitch true StackSleepTrap (StackTask b), set_now (Some b) k)
  | None => Panic PANIC_ASSERT
  end.

Definition StateSleep (now next : option nat) k : res (SwitchResult * Kernel S) :=
  match now with
  | Some a =>
      first ← st_GetFirst ops c (m_task_storage k, m_strategy k);
      let k := set_now first k in
      t ← task_at k a;
      k ← (if IsHrtMode c && negb (IsPendingRemoval t) then upd_task a (HrtOnSwitchedOut c) k else Ok k);
      Ok (mkSwitch true (StackTask a) StackSleepTrap, k)
  | None => Panic PANIC_ASSERT
  end.

(** [StateExit]; [m_platform.Stop()] ends in [OnStop]. *)
Definition StateExit (now next : option nat) k : res (SwitchResult * Kernel S) :=
  if IsDynamicMode c then Ok (mkSwitch false StackNull StackExitTrap, set_now None k)
  else Ok (no_switch, k).

(** [UpdateFsmState(idle, active)]; [Transition] is its [switch] statement. *)
Definition Transition (now : option nat) (new_state : EFsmState) (next : option nat) k : res (SwitchResult * Kernel S) :=
  match new_state with
  | FSM_STATE_SWITCHING => '(r, k) ← StateSwitch now next k; Ok (r, set_fsm new_state k)
  | FSM_STATE_SLEEPING => '(r, k) ← StateSleep now next k; Ok (r, set_fsm new_state k)
  | FSM_STATE_WAKING => '(r, k) ← StateWake now next k; Ok (r, set_fsm new_state k)
  | FSM_STATE_EXITING => '(r, k) ← StateExit now next k; Ok (r, set_fsm new_state k)
  | FSM_STATE_NONE => Ok (no_switch, k)
  | FSM_STATE_MAX => Panic PANIC_KERNEL
  end.
Definition UpdateFsmState k : res (SwitchResult * Kernel S) :=
  let now := m_task_now k in
  '(new_state, next, k) ← GetNewFsmState k;
  Transition now new_state next k.

(** ** Events of the platform *)

(** [OnStart(active)]. *)
Fixpoint OnStart_loop (l : list nat) k : res (Kernel S) :=
  match l with
  | [] => Ok k
  | i :: rest =>
      t ← task_at k i;
      k ← (if has t STATE_SLEEP_PENDING then
             assert! IsSleeping t;
             k ← mod_task i (lower STATE_SLEEP_PENDING) k;
             if SLEEP_EVENT_API sc then strat (st_OnTaskSleep ops c i) k else Ok k
           else Ok k);
      OnStart_loop rest k
  end.
Definition OnStart k : res (StackRef * Kernel S) :=
  assert! negb (bool_decide (st_GetSize ops (m_strategy k) = 0));
  k ← OnStart_loop (seq 0 (length (m_task_storage k))) k;
  let k := set_fsm FSM_STATE_SWITCHING k in
  '(state, next, k) ← GetNewFsmState k;
  let k := set_fsm state k in
  '(active, k) ←
    match state, next with
    | FSM_STATE_SWITCHING, Some n => Ok (StackTask n, set_now (Some n) k)
    | FSM_STATE_SWITCHING, None => Panic PANIC_NULL
    | FSM_STATE_SLEEPING, _ =>
        first ← st_GetFirst ops c (m_task_storage k, m_strategy k);
        Ok (StackSleepTrap, set_now first k)
    | _, _ => Panic PANIC_ASSERT
    end;
  Ok (active, set_kstate KSTATE_RUNNING k).

(** [OnStop()]. *)
Definition OnStop k : Kernel S :=
  if IsDynamicMode c then set_kstate KSTATE_READY (set_fsm FSM_STATE_NONE k) else k.

(** [OnTick(idle, active, ticks)]: also the number of ticks until the next one
    (tickless mode).  [m_ticks] is 64 bits wide. *)
Definition OnTick (elapsed_ticks : Z) k : res (SwitchResult * Z * Kernel S) :=
  let k := set_ticks (m_ticks k + elapsed_ticks) k in
  '(n, k) ← UpdateTasks elapsed_ticks k;
  k ← (if IsTimesliceMode c then UpdateTimeslice elapsed_ticks k else Ok k);
  if negb (IsLocked k) then '(r, k) ← UpdateFsmState k; Ok (r, n, k)
  else Ok (no_switch, n, k).

(** [OnForceContextSwitch(id, idle, active)]. *)
Definition OnForceContextSwitch (id : Z) k : res (SwitchResult * Kernel S) :=
  match m_task_now k with
  | None => Panic PANIC_ASSERT
  | Some i =>
      t ← task_at k i;
      if bool_decide (GetTid t = id) then
        if IsSleeping t then
          if has t STATE_SLEEP_PENDING then
            let k := if bool_decide (m_kstate k = KSTATE_LOCKED) then set_kstate KSTATE_RUNNING k else k in
            k ← ProcessTaskPendingSleep i k;
            UpdateFsmState k
          else Ok (no_switch, k)
        else if NOSLEEP_YIELD_API sc && has t STATE_YIELD_PENDING then
          k ← mod_task i (lower STATE_YIELD_PENDING) k;
          UpdateFsmState k
        else Ok (no_switch, k)
      else Ok (no_switch, k)
  end.

(** [OnSuspend(suspended)] (tickless mode). *)
Definition OnSuspend (suspended : bool) k : res (Kernel S) :=
  let k :=
    if suspended then
      if bool_decide (m_kstate k = KSTATE_RUNNING) || bool_decide (m_kstate k = KSTATE_LOCKED)
      then set_kstate KSTATE_SUSPENDED k else k
    else if bool_decide (m_kstate k = KSTATE_SUSPENDED) then set_kstate KSTATE_RUNNING k else k in
  i ← deref (m_task_now k);
  t ← task_at k i;
  if negb (IsSleeping t) then upd_task i (ScheduleSleep c YIELD_TICKS) k else Ok k.
(** ** Sleeping, yielding, exiting

    [SP] is the caller's stack pointer.  Each of these operations gives up the
    processor when it is done: [BusyWaitWhileSleeping] and
    [BusyWaitWhileYielding] request [OnForceContextSwitch] for the task and
    spin until the task is awake. *)

(** [OnTaskSleepImpl(task, ticks)]. *)
Definition OnTaskSleepImpl (i : nat) (ticks : Z) k : res (bool * Kernel S) :=
  k ← (if IsHrtMode c then mod_task i HrtOnWorkCompleted k else Ok k);
  if bool_decide (0 < ticks) then k ← upd_task i (ScheduleSleep c ticks) k; Ok (true, k)
  else Ok (false, k).

(** [OnTaskSleep(caller_SP, ticks)]. *)
Definition OnTaskSleep (SP ticks : Z) k : res (bool * Kernel S) :=
  i ← caller SP k; OnTaskSleepImpl i ticks k.

(** [OnTaskSleepUntil(caller_SP, timestamp)]. *)
Definition OnTaskSleepUntil (SP timestamp : Z) k : res (bool * Kernel S) :=
  i ← caller SP k;
  let delta := timestamp - m_ticks k in
  if bool_decide (0 < delta) then
    k ← upd_task i (ScheduleSleep c (Z.min delta WAIT_INFINITE)) k; Ok (true, k)
  else Ok (false, k).

(** [OnTaskSwitch(caller_SP)]. *)
Definition OnTaskSwitch (SP : Z) k : res (Kernel S) :=
  if NOSLEEP_YIELD_API sc && negb (IsHrtMode c) then
    i ← caller SP k;
    t ← task_at k i;
    '(handled, k) ←
      (if negb (IsSleeping t) then
         '(b, k) ← strat_ask (st_OnTaskYield ops c i) k;
         if (b : bool) then k ← mod_task i (ScheduleYield c) k; Ok (true, k) else Ok (false, k)
       else Ok (false, k));
    if (handled : bool) then Ok k else '(_, k) ← OnTaskSleepImpl i YIELD_TICKS k; Ok k
  else '(_, k) ← OnTaskSleep SP YIELD_TICKS k; Ok k.

(** [KernelTask::ScheduleRemoval(kernel)]. *)
Definition ScheduleRemoval (i : nat) k : res (Kernel S) :=
  k ← (if IsSyncMode c then CancelNoWake i k else Ok k);
  k ← upd_task i (ScheduleSleep c WAIT_INFINITE) k;
  k ← (if IsHrtMode c then mod_task i HrtOnWorkCompleted k else Ok k);
  k ← mod_task i (raise STATE_REMOVE_PENDING) k;
  t ← task_at k i;
  if negb (is_now k i) && has t STATE_SLEEP_PENDING then ProcessTaskPendingSleep i k else Ok k.

(** [OnTaskExitImpl(task)]; [OnTaskExit(stack)] finds the task by its stack. *)
Definition OnTaskExitImpl (i : nat) k : res (Kernel S) :=
  assert! negb (IsLocked k && is_now k i);
  ScheduleRemoval i k.
Definition OnTaskExit (task : option nat) k : res (Kernel S) :=
  if IsDynamicMode c then match task with Some i => OnTaskExitImpl i k | None => Panic PANIC_ASSERT end
  else Panic PANIC_KERNEL.

(** [ScheduleTaskRemoval(user_task)]. *)
Definition ScheduleTaskRemoval (user_task : Z) k : res (Kernel S) :=
  if IsDynamicMode c then
    assert! negb (user_task =? 0);
    assert! IsStarted k;
    match FindTaskByUserTask user_task k with Some i => ScheduleRemoval i k | None => Ok k end
  else Panic PANIC_ASSERT.

(** ** Suspending and resuming *)

(** [SuspendTask(user_task)]: also the task that has to give up the processor
    (the caller suspending itself); [in_isr] is [hw::IsInsideISR()]. *)
Definition SuspendTask (in_isr : bool) (user_task : Z) k : res (ESuspendResult * option nat * Kernel S) :=
  assert! negb (user_task =? 0);
  match FindTaskByUserTask user_task k with
  | None => Ok (SUSPEND_FAIL, None, k)
  | Some i =>
      t ← task_at k i;
      if IsPendingRemoval t then Ok (SUSPEND_FAIL, None, k)
      else if has t STATE_SUSPENDED || has t STATE_SUSPEND_PENDING then Ok (SUSPEND_ALREADY, None, k)
      else if IsSleeping t then
        k ← mod_task i (raise STATE_SUSPEND_PENDING) k; Ok (SUSPEND_DEFERRED, None, k)
      else if IsLocked k && is_now k i then Panic PANIC_ASSERT
      else
        k ← upd_task i (ScheduleSleep c WAIT_INFINITE) k;
        k ← mod_task i (raise STATE_SUSPENDED) k;
        t ← task_at k i;
        if is_now k i then Ok (SUSPEND_DONE, if in_isr then None else Some i, k)
        else if IsStarted k && has t STATE_SLEEP_PENDING then
          k ← ProcessTaskPendingSleep i k; Ok (SUSPEND_DONE, None, k)
        else Ok (SUSPEND_DONE, None, k)
  end.

(** [ResumeTask(user_task)]. *)
Definition ResumeTask (user_task : Z) k : res (EResumeResult * Kernel S) :=
  assert! negb (user_task =? 0);
  match FindTaskByUserTask user_task k with
  | None => Ok (RESUME_FAIL, k)
  | Some i =>
      t ← task_at k i;
      if IsPendingRemoval t then Ok (RESUME_FAIL, k)
      else if has t STATE_SUSPENDED then
        k ← mod_task i (lower STATE_SUSPENDED) k;
        k ← (if IsSleeping t then upd_task i Wake k else Ok k);
        Ok (RESUME_DONE, k)
      else if has t STATE_SUSPEND_PENDING then
        k ← mod_task i (lower STATE_SUSPEND_PENDING) k; Ok (RESUME_LIFTED, k)
      else Ok (RESUME_NOT_SUSPENDED, k)
  end.

(** [CancelTaskWait(user_task)]. *)
Definition CancelTaskWait (user_task : Z) k : res (Kernel S) :=
  assert! negb (user_task =? 0);
  match FindTaskByUserTask user_task k with
  | None => Ok k
  | Some i =>
      '(canceled_wait, k) ← (if IsSyncMode c then CancelIfWaiting i k else Ok (false, k));
      t ← task_at k i;
      if negb canceled_wait && IsSleeping t && negb (has t STATE_SUSPENDED) then upd_task i Wake k
      else Ok k
  end.

(** ** Waiting *)

(** [OnTaskWait], up to the point where the caller gives up the processor.  The
    mutex guarding the object is a critical section of the caller: its
    [Unlock] and [Lock] delimit the two parts. *)
Definition OnTaskWait_begin (SP : Z) (o : nat) (timeout : Z) k : res (nat * Kernel S) :=
  assert! IsSyncMode c;
  assert! negb (bool_decide (timeout = 0));
  i ← caller SP k;
  k ← SetupWait i o timeout k;
  let k := if bool_decide (o ∈ m_sync_list k) then k else set_sync_list (m_sync_list k ++ [o]) k in
  k ← upd_task i (ScheduleSleep c WAIT_INFINITE) k;
  Ok (i, k).
(** The rest of it, once the task runs again. *)
Definition OnTaskWait_end (i : nat) k : res (EWaitResult * Kernel S) :=
  t ← task_at k i;
  r ← GetWaitResult (m_wait_obj t);
  w ← ClearState (m_wait_obj t);
  Ok (r, put_task i (with_wait w t) k).

(** ** Weights and time slices *)

Definition OnGetTid (SP : Z) (k : Kernel S) : res Z := i ← caller SP k; t ← task_at k i; Ok (GetTid t).

(** [FindTaskByUserTask(GetUserTaskFromTid(tid))] and the assertions before and
    after it. *)
Definition task_of_tid (tid : Z) (k : Kernel S) : res nat :=
  assert! negb (tid =? TID_NONE);
  match FindTaskByUserTask tid k with Some i => Ok i | None => Panic PANIC_ASSERT end.
Definition has_inheritance : bool := WEIGHT_API sc && PRIORITY_INHERITANCE_API sc.

(** [OnInheritWeight(tid, weight)]. *)
Definition OnInheritWeight (tid weight : Z) k : res (Kernel S) :=
  assert! negb (tid =? TID_NONE);
  assert! has_inheritance;
  if negb (weight =? NO_WEIGHT) then
    i ← task_of_tid tid k;
    t ← task_at k i;
    prev_weight ← GetWeight c t;
    if prev_weight <? weight then
      k ← mod_task i (SetCurrentWeight c weight) k;
      strat (st_OnTaskWeightChange ops c i prev_weight) k
    else Ok k
  else Ok k.

(** [OnSetWeight(tid, weight)]. *)
Definition OnSetWeight (tid weight : Z) k : res (Z * Kernel S) :=
  assert! negb (tid =? TID_NONE);
  assert! has_inheritance;
  assert! negb (weight =? NO_WEIGHT);
  i ← task_of_tid tid k;
  t ← task_at k i;
  prev_weight ← GetWeight c t;
  prev_base ← GetBaseWeight c t;
  let t := SetBaseWeight c weight t in
  let t := if negb (GetCurrentWeight c t =? NO_WEIGHT) && (GetCurrentWeight c t <=? weight)
           then SetCurrentWeight c NO_WEIGHT t else t in
  k ← strat (st_OnTaskWeightChange ops c i prev_weight) (put_task i t k);
  Ok (prev_base, k).

(** [OnRestoreWeight(tid, sobj)]. *)
Definition OnRestoreWeight (tid : Z) (sobj : option nat) k : res (Kernel S) :=
  assert! negb (tid =? TID_NONE);
  assert! has_inheritance;
  i ← task_of_tid tid k;
  t ← task_at k i;
  prev_weight ← GetWeight c t;
  w ← (match sobj with
       | Some o => comp ← GetWeight c t; FindWeightHigherThan o comp k
       | None => Ok NO_WEIGHT
       end);
  k ← mod_task i (SetCurrentWeight c w) k;
  strat (st_OnTaskWeightChange ops c i prev_weight) k.

(** [OnSetTimeSlice(tid, ticks)]. *)
Definition OnSetTimeSlice (tid ticks : Z) k : res (Z * Kernel S) :=
  assert! negb (tid =? TID_NONE);
  assert! (NO_TIME_SLICE <=? ticks);
  i ← task_of_tid tid k;
  t ← task_at k i;
  let prev := quantum (m_ts t) in
  Ok (prev, put_task i (with_ts (TsInfo_Reload (mkTs ticks (left_ (m_ts t)))) t) k).

(** ** Scheduler lock *)

(** [SetSchedulerLock(lock)]. *)
Definition SetSchedulerLock (in_isr lock : bool) k : ELockResult * Kernel S :=
  if negb (IsHrtMode c) then
    if in_isr then (LOCK_FAIL_ISR, k)
    else match m_kstate k with
         | KSTATE_RUNNING => (LOCK_WAS_UNLOCKED, set_kstate (if lock then KSTATE_LOCKED else KSTATE_RUNNING) k)
         | KSTATE_LOCKED => (LOCK_WAS_LOCKED, set_kstate (if lock then KSTATE_LOCKED else KSTATE_RUNNING) k)
         | _ => (LOCK_FAIL, k)
         end
  else (LOCK_FAIL, k).

(** ** Telemetry *)

Record TaskStateInfo := mkInfo { info_state : ETaskState; info_wait_obj : option nat; info_remaining : Z }.

(** [GetTaskState(user_task, info)]; [None] is the result [false]. *)
Definition GetTaskState (user_task : option Z) k : res (option TaskStateInfo) :=
  if IsTelemetryMode c then
    match user_task with
    | Some u =>
        match FindTaskByUserTask u k with
        | Some i =>
            t ← task_at k i;
            let w := m_wait_obj t in
            if has t STATE_REMOVE_PENDING then Ok (Some (mkInfo TASK_STATE_EXITING None WAIT_INFINITE))
            else if has t STATE_SUSPENDED then Ok (Some (mkInfo TASK_STATE_SUSPENDED None WAIT_INFINITE))
            else if IsSyncMode c && IsWaiting w then
              Ok (Some (mkInfo TASK_STATE_WAITING (m_sync_obj w) (m_time_wait w)))
            else if m_time_sleep t <? 0 then
              r ← i32 (- m_time_sleep t); Ok (Some (mkInfo TASK_STATE_SLEEPING None r))
            else Ok (Some (mkInfo TASK_STATE_READY None WAIT_INFINITE))
        | None => Ok (Some (mkInfo TASK_STATE_REMOVED None WAIT_INFINITE))
        end
    | None => Ok None
    end
  else Ok None.

(** [EnumerateKernelTasks(tasks)] and [EnumerateTasks(user_tasks)] into an array
    of [size] elements. *)
Definition EnumerateKernelTasks (size : nat) (k : Kernel S) : list nat :=
  filter (λ i, IsBusy <$> m_task_storage k !! i = Some true)
         (seq 0 (size `min` length (m_task_storage k))).
Definition EnumerateTasks (size : nat) (k : Kernel S) : list ITask :=
  omap (λ t, m_user t) (take size (m_task_storage k)).

(** ** The services of the kernel ([KernelService])

    The checks in front of the operations above; [in_isr] is
    [hw::IsInsideISR()]. *)

Definition Service_Sleep (in_isr : bool) (SP ticks : Z) k : res (bool * Kernel S) :=
  assert! negb in_isr;
  assert! IsStarted k;
  assert! (0 <=? ticks);
  assert! negb (IsHrtMode c);
  assert! negb (IsLocked k);
  OnTaskSleep SP ticks k.
Definition Service_SleepUntil (in_isr : bool) (SP timestamp : Z) k : res (bool * Kernel S) :=
  assert! negb in_isr;
  assert! IsStarted k;
  assert! (0 <=? timestamp);
  assert! negb (IsHrtMode c);
  assert! negb (IsLocked k);
  OnTaskSleepUntil SP timestamp k.
Definition Service_SleepCancel (task_id : Z) k : res (Kernel S) :=
  if negb (IsHrtMode c) then CancelTaskWait task_id k else Ok k.
Definition Service_SwitchToNext (in_isr : bool) (SP : Z) k : res (Kernel S) :=
  assert! negb in_isr;
  assert! negb (IsLocked k);
  OnTaskSwitch SP k.
Definition Service_ExitTask (in_isr : bool) (SP : Z) k : res (Kernel S) :=
  assert! negb in_isr;
  if IsDynamicMode c then i ← caller SP k; OnTaskExitImpl i k else Panic PANIC_KERNEL.
Definition Service_Wait (SP : Z) (o : nat) (ticks : Z) k : res (nat * Kernel S) :=
  assert! IsSyncMode c;
  assert! negb (IsLocked k);
  OnTaskWait_begin SP o ticks k.
(** [Wake(sobj, all)]: one waiter wakes per round, so the number of waiters
    bounds the loop of [WakeAll]. *)
Definition Service_Wake (o : nat) (all : bool) k : res (Kernel S) :=
  assert! IsSyncMode c;
  so ← deref (m_sync k !! o);
  if all then WakeAll (length (so_wait_list so)) o k else WakeOne o k.
Definition Service_InheritWeight (tid weight : Z) k : res (Kernel S) :=
  if has_inheritance then OnInheritWeight tid weight k else Ok k.
Definition Service_RestoreWeight (tid : Z) (sobj : option nat) k : res (Kernel S) :=
  if has_inheritance then OnRestoreWeight tid sobj k else Ok k.
Definition Service_SetWeight (tid weight : Z) k : res (Z * Kernel S) :=
  assert! has_inheritance; OnSetWeight tid weight k.
Definition Service_SetTimeSlice (tid ticks : Z) k : res (Z * Kernel S) :=
  assert! IsTimesliceMode c; OnSetTimeSlice tid ticks k.
Definition LockScheduler (in_isr : bool) k : ELockResult * Kernel S := SetSchedulerLock in_isr true k.
Definition UnlockScheduler (in_isr : bool) k : ELockResult * Kernel S := SetSchedulerLock in_isr false k.
Definition RestoreSchedulerLock (in_isr locked : bool) k : ELockResult * Kernel S :=
  let '(result, k) := SetSchedulerLock in_isr locked k in
  match result with
  | LOCK_WAS_UNLOCKED | LOCK_WAS_LOCKED => (if locked then LOCK_WAS_LOCKED else LOCK_WAS_UNLOCKED, k)
  | _ => (result, k)
  end.

End kernel.

End Kernel.
