(* ===== verification/KernelInv.v ===== *)
(** * The invariant of the kernel

    What holds of the kernel between two operations, for every strategy that
    implements [StrategySpec] and every mode but hard real time: where the
    strategy keeps a task agrees with the task's own state, the wait lists agree
    with the wait objects, and the current task and the state of the scheduler's
    state machine agree.  The file defines the invariant and proves it for the
    building blocks of the operations; [KernelSafe.v] composes them. *)

From S2P Require Import Prelude KernelTask Strategy Kernel.
Import KTask Strat Kernel.
Local Open Scope Z_scope.

Module KernelInv.

(** ** Reading tasks after an assignment *)

(** Evaluate the tests of the state word after [raise] and [lower]. *)
Ltac flag_eval :=
  repeat match goal with
  | |- context [bool_decide (@eq EStateFlags ?a ?b)] =>
      let v := eval vm_compute in (bool_decide (a = b)) in change (bool_decide (a = b)) with v
  | H : context [bool_decide (@eq EStateFlags ?a ?b)] |- _ =>
      let v := eval vm_compute in (bool_decide (a = b)) in change (bool_decide (a = b)) with v in H
  end.
Ltac ktask :=
  unfold IsPendingRemoval, has, CommitSuspend, raise, lower, with_sleep, with_state, with_wait, with_ts, with_user,
    IsSleeping, IsSleepInfinite, IsBusy, IsWaiting in *;
  cbn [m_user m_state m_time_sleep m_hrt m_rt_weight m_base_weight m_wait_obj m_ts
       m_sync_obj m_time_wait w_state quantum left_ TsInfo_Reload] in *;
  rewrite ?has_set_flag, ?has_clear_flag in *; flag_eval; cbn [negb orb andb] in *.

(** ** The invariant of a task *)

(** The part that does not depend on where the strategy keeps it. *)
Record self_ok (t : KernelTask) : Prop := {
  so_free : IsBusy t = false → m_state t = 0 ∧ m_time_sleep t = 0 ∧ m_sync_obj (m_wait_obj t) = None;
  so_tid : IsBusy t = true → GetTid t ≠ TID_NONE;
  so_sleep : - INT32_MAX ≤ m_time_sleep t ≤ INT32_MAX;
  so_wait : IsWaiting (m_wait_obj t) = true →
    m_time_sleep t = - WAIT_INFINITE ∧ w_state (m_wait_obj t) = STATE_WAIT ∧
    0 < m_time_wait (m_wait_obj t) ≤ WAIT_INFINITE;
  so_parked : has t STATE_SUSPENDED = true ∨ IsPendingRemoval t = true →
    m_time_sleep t = - WAIT_INFINITE ∧ IsWaiting (m_wait_obj t) = false;
  so_deferred : has t STATE_SUSPEND_PENDING = true → IsSleeping t = true;
  so_hrt : m_hrt t = HrtInfo_ctor;
  so_ts : 0 ≤ quantum (m_ts t) ≤ INT32_MAX ∧ left_ (m_ts t) ≤ quantum (m_ts t);
}.

(** [R] and [A] are the tasks the strategy holds as ready and as asleep, [now]
    is [m_task_now]. *)
Record task_ok (R A : list nat) (now : option nat) (i : nat) (t : KernelTask) : Prop := {
  tk_self : self_ok t;
  tk_busy : IsBusy t = true ↔ i ∈ R ∨ i ∈ A;
  tk_pending : has t STATE_SLEEP_PENDING = true ↔ i ∈ R ∧ IsSleeping t = true;
  tk_asleep : i ∈ A → IsSleeping t = true;
  tk_now : i ∈ R → IsSleeping t = true → now = None ∨ now = Some i;
}.

Lemma task_ok_perm R A R' A' now i t : R ≡ₚ R' → A ≡ₚ A' → task_ok R A now i t → task_ok R' A' now i t.
Proof. intros HR HA []. split; rewrite <- ?HR, <- ?HA; auto. Qed.

Lemma task_ok_sub R A R' A' now i t : (i ∈ R ↔ i ∈ R') → (i ∈ A ↔ i ∈ A') →
  task_ok R A now i t → task_ok R' A' now i t.
Proof. intros HR HA []. split; rewrite <- ?HR, <- ?HA; auto. Qed.

(** ** The invariant of the kernel *)

(** Which object each task waits for. *)
Definition waits_for (ts : list KernelTask) (i : nat) : option nat :=
  t ← ts !! i; m_sync_obj (m_wait_obj t).

(** [sync] says whether the kernel supports waiting at all ([KERNEL_SYNC]). *)
Record sync_inv (sync : bool) (W : nat → option nat) (sl : list nat) (sy : gmap nat SyncObject) : Prop := {
  sy_list o so : sy !! o = Some so →
    NoDup (so_wait_list so) ∧ ∀ i, i ∈ so_wait_list so ↔ W i = Some o;
  sy_dom i o : W i = Some o → is_Some (sy !! o) ∧ o ∈ sl;
  sy_nodup : NoDup sl;
  sy_known o : o ∈ sl → is_Some (sy !! o);
  sy_mode : sync = false → sl = [];
}.

Lemma sync_inv_ext b W W' sl sy : (∀ i, W' i = W i) → sync_inv b W sl sy → sync_inv b W' sl sy.
Proof.
  intros E [Hl Hd Hn Hk Hm]. split; [| |done..].
  - intros o so Ho. destruct (Hl o so Ho) as [? Hi]. split; [done|]. intros i. by rewrite E.
  - intros i o. rewrite E. apply Hd.
Qed.

Section inv.
Context {S : Type} {ops : StrategyOps S} {HS : StrategySpec ops} (c : KernelCfg).
Implicit Types (k : Kernel S) (ts : list KernelTask) (s : S).

Record sched_inv ts s (now : option nat) : Prop := {
  si_strat : st_inv c ts s;
  si_slot i : i ∈ st_ready s ++ st_asleep s → (i < length ts)%nat;
  si_task i t : ts !! i = Some t → task_ok (st_ready s) (st_asleep s) now i t;
}.

Definition running_state (f : EFsmState) : Prop :=
  f = FSM_STATE_SWITCHING ∨ f = FSM_STATE_SLEEPING ∨ f = FSM_STATE_WAKING.

(** The current task and the state machine. *)
Record now_inv (k : Kernel S) : Prop := {
  ni_now : match m_task_now k with
           | None => m_fsm_state k = FSM_STATE_NONE ∨ m_fsm_state k = FSM_STATE_EXITING
           | Some i => i ∈ st_ready (m_strategy k) ++ st_asleep (m_strategy k) ∧ running_state (m_fsm_state k)
           end;
  ni_lock : m_fsm_state k = FSM_STATE_SLEEPING → IsLocked k = false;
}.

Record kernel_inv (k : Kernel S) : Prop := {
  ki_sched : sched_inv (m_task_storage k) (m_strategy k) (m_task_now k);
  ki_sync : sync_inv (IsSyncMode c) (waits_for (m_task_storage k)) (m_sync_list k) (m_sync k);
  ki_now : now_inv k;
}.

(** *** Members of the strategy *)

Lemma si_member ts s now i t : sched_inv ts s now → ts !! i = Some t →
  IsBusy t = true → i ∈ st_ready s ++ st_asleep s.
Proof. intros [_ _ H] Ht Hb. rewrite elem_of_app. by apply (tk_busy _ _ _ _ _ (H i t Ht)). Qed.

Lemma si_get ts s now i : sched_inv ts s now → i ∈ st_ready s ++ st_asleep s →
  ∃ t, ts !! i = Some t ∧ IsBusy t = true ∧ task_ok (st_ready s) (st_asleep s) now i t.
Proof.
  intros [_ Hl H] Hi. destruct (lookup_lt_is_Some_2 ts i (Hl i Hi)) as [t Ht]. exists t.
  split; [done|]. split; [|by apply H]. apply (tk_busy _ _ _ _ _ (H i t Ht)). by apply elem_of_app.
Qed.

Lemma si_disjoint ts s now i : sched_inv ts s now → i ∈ st_ready s → i ∉ st_asleep s.
Proof. intros [H _ _] Hr Ha. apply st_nodup, NoDup_app in H as (_ & H & _). by apply (H i). Qed.

(** *** Assignments to a task *)

(** A task may change as long as its own invariant holds and the strategy
    cannot see the change. *)
Lemma sched_inv_put ts s now i t t' : sched_inv ts s now → ts !! i = Some t → same_weight t t' →
  task_ok (st_ready s) (st_asleep s) now i t' → sched_inv (<[i := t']> ts) s now.
Proof.
  intros [Hs Hl Ht] Hi Hw Hok. assert (i < length ts)%nat by (by eapply lookup_lt_Some). split.
  - apply (st_frame c ts); [done|]. intros j u _ Hj. destruct (decide (j = i)) as [->|Hne].
    + exists t'. simplify_eq. by rewrite list_lookup_insert_eq.
    + exists u. by rewrite list_lookup_insert_ne.
  - intros j Hj. rewrite length_insert. auto.
  - intros j u. destruct (decide (j = i)) as [->|Hne].
    + rewrite list_lookup_insert_eq by done. by intros [= <-].
    + rewrite list_lookup_insert_ne by done. apply Ht.
Qed.

Lemma waits_for_put ts i t t' : ts !! i = Some t →
  ∀ j, waits_for (<[i := t']> ts) j = if decide (j = i) then m_sync_obj (m_wait_obj t') else waits_for ts j.
Proof.
  intros Hi j. unfold waits_for. assert (i < length ts)%nat by (by eapply lookup_lt_Some).
  case_decide; subst; [by rewrite list_lookup_insert_eq|by rewrite list_lookup_insert_ne].
Qed.

Lemma waits_for_same ts i t t' : ts !! i = Some t → m_sync_obj (m_wait_obj t') = m_sync_obj (m_wait_obj t) →
  ∀ j, waits_for (<[i := t']> ts) j = waits_for ts j.
Proof.
  intros Hi E j. rewrite (waits_for_put ts i t) by done. case_decide; subst; [|done].
  unfold waits_for. by rewrite Hi.
Qed.

(** The task operations of the kernel on a slot that exists. *)
Lemma task_at_ok k i t : m_task_storage k !! i = Some t → task_at k i = Ok t.
Proof. unfold task_at, get. by intros ->. Qed.
Lemma upd_task_ok k i t t' f : m_task_storage k !! i = Some t → f t = Ok t' →
  upd_task i f k = Ok (put_task i t' k).
Proof. intros Hi Hf. unfold upd_task. rewrite (task_at_ok k i t Hi). cbn. by rewrite Hf. Qed.
Lemma mod_task_ok k i t f : m_task_storage k !! i = Some t → mod_task i f k = Ok (put_task i (f t) k).
Proof. intros Hi. by apply (upd_task_ok k i t). Qed.
Lemma put_task_at k i t t' : m_task_storage k !! i = Some t → m_task_storage (put_task i t' k) !! i = Some t'.
Proof. intros Hi. cbn. apply list_lookup_insert_eq. by eapply lookup_lt_Some. Qed.
Lemma put_task_ne k i j t' : j ≠ i → m_task_storage (put_task i t' k) !! j = m_task_storage k !! j.
Proof. intros Hne. cbn. by apply list_lookup_insert_ne. Qed.
Lemma put_task_put k i t t' : put_task i t' (put_task i t k) = put_task i t' k.
Proof. unfold put_task, set_tasks. cbn. by rewrite list_insert_insert_eq. Qed.
Lemma strat_ok k f s' : f (m_task_storage k, m_strategy k) = Ok (m_task_storage k, s') →
  strat f k = Ok (set_strategy s' k).
Proof. intros E. unfold strat. rewrite E. by destruct k. Qed.
Lemma strat_ask_ok {A} k (f : _ → res (A * _)) a s' :
  f (m_task_storage k, m_strategy k) = Ok (a, (m_task_storage k, s')) →
  strat_ask f k = Ok (a, set_strategy s' k).
Proof. intros E. unfold strat_ask. rewrite E. by destruct k. Qed.
(** *** Moving one task *)

(** The strategy keeps every task but [i] where it was. *)
Definition same_others (i : nat) (s s' : S) : Prop :=
  ∀ j, j ≠ i → (j ∈ st_ready s' ↔ j ∈ st_ready s) ∧ (j ∈ st_asleep s' ↔ j ∈ st_asleep s).

Lemma same_others_refl i s : same_others i s s.
Proof. done. Qed.
Lemma same_others_trans i s1 s2 s3 : same_others i s1 s2 → same_others i s2 s3 → same_others i s1 s3.
Proof. intros H1 H2 j Hj. destruct (H1 j Hj), (H2 j Hj). split; etransitivity; eauto. Qed.

Lemma sched_inv_move ts s s' now i t t' : sched_inv ts s now → ts !! i = Some t →
  st_inv c (<[i := t']> ts) s' → same_others i s s' →
  task_ok (st_ready s') (st_asleep s') now i t' → sched_inv (<[i := t']> ts) s' now.
Proof.
  intros [Hs Hl Ht] Hi Hs' Ho Hok. assert (i < length ts)%nat by (by eapply lookup_lt_Some). split.
  - done.
  - intros j. rewrite length_insert. destruct (decide (j = i)) as [->|Hne]; [done|].
    rewrite elem_of_app. intros Hj. apply Hl, elem_of_app. by destruct (Ho j Hne) as [<- <-].
  - intros j u. destruct (decide (j = i)) as [->|Hne].
    + rewrite list_lookup_insert_eq by done. by intros [= <-].
    + rewrite list_lookup_insert_ne by done. intros Hj. destruct (Ho j Hne).
      by apply (task_ok_sub (st_ready s) (st_asleep s)); [| |apply Ht].
Qed.

(** With no sleeper among the ready tasks, any task may be the current one. *)
Definition all_awake ts s : Prop := ∀ i t, i ∈ st_ready s → ts !! i = Some t → IsSleeping t = false.

Lemma sched_inv_now ts s now now' : all_awake ts s → sched_inv ts s now → sched_inv ts s now'.
Proof.
  intros Ha [Hs Hl Ht]. split; [done..|]. intros i t Hi. destruct (Ht i t Hi) as [? ? ? ? _].
  split; [done..|]. intros Hr. by rewrite (Ha i t Hr Hi).
Qed.

Lemma all_awake_runnable ts s now : sched_inv ts s now → all_awake ts s → Forall (runnable ts) (st_ready s).
Proof.
  intros Hi Ha. apply Forall_forall. intros i Hr.
  destruct (si_get ts s now i Hi) as (t & Ht & _ & Hok); [set_solver|].
  exists t. rewrite (so_hrt t (tk_self _ _ _ _ _ Hok)). cbn. unfold INT32_MAX.
  split_and!; [done|by eapply Ha|lia..].
Qed.
End inv.

(** ** The tick of a sleeping task, as a function of the task *)

(** The task has left the ready tasks. *)
Definition settle (t : KernelTask) : KernelTask := lower STATE_WAKE_PENDING (lower STATE_SLEEP_PENDING t).

(** One tick on a task the strategy holds as asleep. *)
Definition count_down (e : Z) (t : KernelTask) : KernelTask :=
  if IsSleepInfinite t then t
  else if has t STATE_SUSPEND_PENDING && (0 <=? m_time_sleep t + e) then CommitSuspend t
  else with_sleep (m_time_sleep t + e) t.

Definition tick_sleeping (e : Z) (t : KernelTask) : KernelTask :=
  if has t STATE_SLEEP_PENDING then
    if has t STATE_WAKE_PENDING then count_down e (settle t) else settle t
  else count_down e t.

Lemma settle_self t : self_ok t → self_ok (settle t).
Proof.
  intros []. unfold settle. split; ktask; try done.
  intros Hb. destruct so_free0 as (E & ? & ?); [done|]. rewrite E. done.
Qed.

Lemma count_down_self e t : self_ok t → IsBusy t = true → IsSleeping t = true → 0 ≤ e ≤ INT32_MAX →
  self_ok (count_down e t).
Proof.
  intros Hself Hb Hsl He. unfold count_down. destruct (IsSleepInfinite t) eqn:Ei; [done|].
  assert (Hw : IsWaiting (m_wait_obj t) = false).
  { destruct (IsWaiting _) eqn:Ew; [|done]. destruct (so_wait t Hself Ew) as (E & _).
    unfold IsSleepInfinite in Ei. rewrite E in Ei. done. }
  assert (Hp : has t STATE_SUSPENDED = false ∧ IsPendingRemoval t = false).
  { destruct (has t STATE_SUSPENDED) eqn:E1; [|destruct (IsPendingRemoval t) eqn:E2; [|done]];
      (destruct (so_parked t Hself) as (E & _); [auto|]; unfold IsSleepInfinite in Ei; rewrite E in Ei; done). }
  destruct Hself, Hp as [Hp1 Hp2]. destruct (has t STATE_SUSPEND_PENDING && _) eqn:Es.
  - split; ktask; try done; try (intros; congruence); unfold WAIT_INFINITE, INT32_MAX in *; try lia.
  - unfold IsSleeping in Hsl. apply Z.ltb_lt in Hsl. apply andb_false_iff in Es.
    split; ktask; try done; try (intros; congruence); try lia.
    + intros [H|H]; congruence.
    + intros H. destruct Es as [Es|Es]; [congruence|]. apply Z.ltb_lt. apply Z.leb_gt in Es. lia.
Qed.

(** ** Building blocks of the operations *)

Section blocks.
Context {S : Type} {ops : StrategyOps S} {HS : StrategySpec ops} (c : KernelCfg).
Context (Hcfg : st_cfg_ok c) (Hse : SLEEP_EVENT_API (cfg_strategy c) = true).
Implicit Types (k : Kernel S) (ts : list KernelTask) (s : S).

Lemma same_weight_refl t : same_weight t t.
Proof. done. Qed.

Lemma st_frame_put ts s i t t' : st_inv c ts s → ts !! i = Some t → same_weight t t' → st_inv c (<[i := t']> ts) s.
Proof.
  intros Hs Hi Hw. apply (st_frame c ts); [done|]. intros j u _ Hj.
  assert (i < length ts)%nat by (by eapply lookup_lt_Some). destruct (decide (j = i)) as [->|Hne].
  - exists t'. simplify_eq. by rewrite list_lookup_insert_eq.
  - exists u. by rewrite list_lookup_insert_ne.
Qed.

(** A task leaves the ready tasks: it becomes [t'], which sleeps. *)
Lemma move_asleep k i t t' now : sched_inv c (m_task_storage k) (m_strategy k) now →
  m_task_storage k !! i = Some t → i ∈ st_ready (m_strategy k) → same_weight t t' → self_ok t' →
  IsSleeping t' = true → has t' STATE_SLEEP_PENDING = false →
  ∃ s', strat (st_OnTaskSleep ops c i) (put_task i t' k) = Ok (set_strategy s' (put_task i t' k)) ∧
    sched_inv c (<[i := t']> (m_task_storage k)) s' now ∧ same_others i (m_strategy k) s' ∧
    i ∈ st_asleep s' ∧ length (st_ready s' ++ st_asleep s') = length (st_ready (m_strategy k) ++ st_asleep (m_strategy k)).
Proof.
  intros Hi Ht Hr Hw Hself Hsl Hp. set (ts := m_task_storage k) in *. set (s := m_strategy k) in *.
  assert (Hlt : (i < length ts)%nat) by (by eapply lookup_lt_Some).
  assert (Hs1 : st_inv c (<[i := t']> ts) s)
    by (eapply st_frame_put; [apply (si_strat c ts s now Hi)|done|done]).
  assert (Hnd := st_nodup c _ _ Hs1).
  destruct (st_OnTaskSleep_spec c (<[i := t']> ts) s i t') as (s' & E & Hs' & HR & HA);
    [done|done|by rewrite list_lookup_insert_eq|done|done|].
  exists s'. split; [|split; [|split; [|split]]].
  - by apply strat_ok.
  - assert (Hb := tk_busy _ _ _ _ _ (si_task c _ _ _ Hi i t Ht)).
    apply (sched_inv_move c ts s s' now i t); [done..| |].
    + intros j Hj. rewrite HR, HA, elem_of_remove1. set_solver.
    + split; [done| | |done|].
      * rewrite HR, HA, elem_of_remove1. unfold IsBusy in *. destruct Hw as (-> & _). rewrite Hb. set_solver.
      * rewrite HR, elem_of_remove1, Hp. naive_solver.
      * rewrite HR, elem_of_remove1. naive_solver.
  - intros j Hj. rewrite HR, HA, elem_of_remove1. set_solver.
  - rewrite HA. set_solver.
  - rewrite HR, HA. rewrite !length_app. cbn. apply NoDup_app in Hnd as (Hnd & _).
    assert (Hl := remove1_length i _ Hr Hnd). lia.
Qed.

(** [ProcessTaskPendingSleep]: the task moves from the ready tasks to those asleep. *)
Lemma process_sleep k i t now : sched_inv c (m_task_storage k) (m_strategy k) now →
  m_task_storage k !! i = Some t → i ∈ st_ready (m_strategy k) → IsSleeping t = true →
  ∃ s', ProcessTaskPendingSleep ops c i k = Ok (set_strategy s' (put_task i (settle t) k)) ∧
    sched_inv c (<[i := settle t]> (m_task_storage k)) s' now ∧ same_others i (m_strategy k) s' ∧
    i ∈ st_asleep s' ∧ length (st_ready s' ++ st_asleep s') = length (st_ready (m_strategy k) ++ st_asleep (m_strategy k)).
Proof.
  intros Hi Ht Hr Hsl.
  destruct (move_asleep k i t (settle t) now) as (s' & E & ?); try done.
  - apply settle_self, (tk_self _ _ _ _ _ (si_task c _ _ _ Hi i t Ht)).
  - unfold settle. by ktask.
  - exists s'. split; [|done]. unfold ProcessTaskPendingSleep. rewrite (mod_task_ok k i t) by done.
    cbn [mbind res_bind]. by rewrite Hse.
Qed.

(** A sleeping task whose time is over moves back to the ready tasks. *)
Lemma process_wake k i t t' now : sched_inv c (m_task_storage k) (m_strategy k) now →
  m_task_storage k !! i = Some t → i ∈ st_asleep (m_strategy k) → same_weight t t' → self_ok t' →
  IsSleeping t' = false → has t' STATE_SLEEP_PENDING = false →
  ∃ s', strat (st_OnTaskWake ops c i) (put_task i t' k) = Ok (set_strategy s' (put_task i t' k)) ∧
    sched_inv c (<[i := t']> (m_task_storage k)) s' now ∧ same_others i (m_strategy k) s' ∧
    i ∈ st_ready s' ∧ length (st_ready s' ++ st_asleep s') = length (st_ready (m_strategy k) ++ st_asleep (m_strategy k)).
Proof.
  intros Hi Ht Ha Hw Hself Hsl Hp. set (ts := m_task_storage k) in *. set (s := m_strategy k) in *.
  assert (Hlt : (i < length ts)%nat) by (by eapply lookup_lt_Some).
  assert (Hs1 : st_inv c (<[i := t']> ts) s)
    by (eapply st_frame_put; [apply (si_strat c ts s now Hi)|done|done]).
  assert (Hnd := st_nodup c _ _ Hs1).
  destruct (st_OnTaskWake_spec c (<[i := t']> ts) s i t') as (s' & E & Hs' & HR & HA);
    [done|done|by rewrite list_lookup_insert_eq|done|done|].
  exists s'. split; [|split; [|split; [|split]]].
  - by apply strat_ok.
  - assert (Hb := tk_busy _ _ _ _ _ (si_task c _ _ _ Hi i t Ht)).
    apply (sched_inv_move c ts s s' now i t); [done..| |].
    + intros j Hj. rewrite HR, HA, elem_of_remove1. set_solver.
    + split; [done| | | |].
      * rewrite HR, HA, elem_of_remove1. unfold IsBusy in *. destruct Hw as (-> & _). rewrite Hb. set_solver.
      * rewrite Hp, Hsl. naive_solver.
      * rewrite HA, elem_of_remove1. naive_solver.
      * rewrite Hsl. done.
  - intros j Hj. rewrite HR, HA, elem_of_remove1. set_solver.
  - rewrite HR. set_solver.
  - rewrite HR, HA. rewrite !length_app. cbn. apply NoDup_app in Hnd as (_ & _ & Hnd).
    assert (Hl := remove1_length i _ Ha Hnd). lia.
Qed.
(** A task whose new state keeps it where the strategy has it. *)
Lemma sched_inv_stay k i t t' now : sched_inv c (m_task_storage k) (m_strategy k) now →
  m_task_storage k !! i = Some t → i ∈ st_asleep (m_strategy k) → same_weight t t' → self_ok t' →
  IsSleeping t' = true → has t' STATE_SLEEP_PENDING = false →
  sched_inv c (<[i := t']> (m_task_storage k)) (m_strategy k) now.
Proof.
  intros Hi Ht Ha Hw Hself Hsl Hp. assert (Hok := si_task c _ _ _ Hi i t Ht).
  assert (i ∉ st_ready (m_strategy k)) by (intros ?; by eapply (si_disjoint c)).
  apply (sched_inv_put c _ _ _ i t); [done..|]. split; [done| | |done|done].
  - rewrite <- (tk_busy _ _ _ _ _ Hok). unfold IsBusy. by destruct Hw as (-> & _).
  - rewrite Hp. naive_solver.
Qed.

Lemma asleep_settled ts s now i t : sched_inv c ts s now → ts !! i = Some t → i ∈ st_asleep s →
  IsSleeping t = true ∧ has t STATE_SLEEP_PENDING = false ∧ IsBusy t = true.
Proof.
  intros Hi Ht Ha. assert (Hok := si_task c _ _ _ Hi i t Ht). split; [by apply (tk_asleep _ _ _ _ _ Hok)|].
  assert (i ∉ st_ready s) by (intros ?; by eapply (si_disjoint c)). split.
  - destruct (has t _) eqn:E; [|done]. by apply (tk_pending _ _ _ _ _ Hok) in E as [? _].
  - apply (tk_busy _ _ _ _ _ Hok). by right.
Qed.

Lemma update_sleep_time k i t now e : sched_inv c (m_task_storage k) (m_strategy k) now →
  m_task_storage k !! i = Some t → i ∈ st_asleep (m_strategy k) → 0 ≤ e ≤ INT32_MAX →
  ∃ s', UpdateSleepTime ops c e i k = Ok (set_strategy s' (put_task i (count_down e t) k)) ∧
    sched_inv c (<[i := count_down e t]> (m_task_storage k)) s' now ∧ same_others i (m_strategy k) s' ∧
    (i ∈ st_ready s' ↔ IsSleeping (count_down e t) = false) ∧
    length (st_ready s' ++ st_asleep s') = length (st_ready (m_strategy k) ++ st_asleep (m_strategy k)).
Proof.
  intros Hi Ht Ha He. destruct (asleep_settled _ _ _ _ _ Hi Ht Ha) as (Hsl & Hp & Hb).
  assert (Hself := tk_self _ _ _ _ _ (si_task c _ _ _ Hi i t Ht)).
  assert (Hcs := count_down_self e t Hself Hb Hsl He).
  assert (Hnr : i ∉ st_ready (m_strategy k)) by (intros ?; by eapply (si_disjoint c)).
  unfold UpdateSleepTime. rewrite (task_at_ok k i t Ht). cbn [mbind res_bind]. unfold count_down in *.
  destruct (IsSleepInfinite t) eqn:Einf; cbn [negb].
  { exists (m_strategy k). split_and!; [|by rewrite list_insert_id|done| |done].
    - unfold put_task, set_strategy, set_tasks. cbn. rewrite list_insert_id by done. by destruct k.
    - rewrite Hsl. done. }
  assert (Hr : in_i32 (m_time_sleep t + e)).
  { assert (Hrng := so_sleep t Hself). unfold IsSleeping in Hsl. unfold in_i32, INT32_MIN, INT32_MAX in *. lia. }
  unfold i32. rewrite bool_decide_eq_true_2 by done. cbn [mbind res_bind].
  destruct (has t STATE_SUSPEND_PENDING && (0 <=? m_time_sleep t + e)) eqn:Ec.
  { exists (m_strategy k). assert (Hsl' : IsSleeping (CommitSuspend t) = true) by done.
    split_and!; [|apply (sched_inv_stay k i t); try done; by ktask|done|by rewrite Hsl'|done].
    rewrite (mod_task_ok k i t) by done. by destruct k. }
  rewrite Hse. destruct (IsSleeping (with_sleep (m_time_sleep t + e) t)) eqn:Es; cbn [negb].
  - exists (m_strategy k). split_and!; [by destruct k|by apply (sched_inv_stay k i t)|done|done|done].
  - destruct (process_wake k i t (with_sleep (m_time_sleep t + e) t) now) as (s' & E & ? & ? & ? & ?); try done.
    exists s'. done.
Qed.

(** The tick of a sleeping task is [tick_sleeping]. *)
Lemma update_sleeping_task k i t now e : sched_inv c (m_task_storage k) (m_strategy k) now →
  m_task_storage k !! i = Some t → IsBusy t = true → IsSleeping t = true → 0 ≤ e ≤ INT32_MAX →
  (has t STATE_SLEEP_PENDING = true → e ≤ 1) →
  ∃ s', UpdateSleepingTask ops c e i k = Ok (set_strategy s' (put_task i (tick_sleeping e t) k)) ∧
    sched_inv c (<[i := tick_sleeping e t]> (m_task_storage k)) s' now ∧ same_others i (m_strategy k) s' ∧
    (i ∈ st_ready s' ↔ IsSleeping (tick_sleeping e t) = false) ∧
    length (st_ready s' ++ st_asleep s') = length (st_ready (m_strategy k) ++ st_asleep (m_strategy k)).
Proof.
  intros Hi Ht Hb Hsl He He1. assert (Hok := si_task c _ _ _ Hi i t Ht).
  unfold UpdateSleepingTask, tick_sleeping. rewrite (task_at_ok k i t Ht). cbn [mbind res_bind].
  destruct (has t STATE_SLEEP_PENDING) eqn:Ep.
  - assert (Hr : i ∈ st_ready (m_strategy k)) by (by apply (tk_pending _ _ _ _ _ Hok) in Ep as [? _]).
    assert (E01 : bool_decide (e = 0) || bool_decide (e = 1) = true).
    { specialize (He1 eq_refl). repeat case_bool_decide; try done. lia. }
    rewrite E01. cbn [stk_assert].
    destruct (process_sleep k i t now) as (s1 & E1 & Hi1 & Ho1 & Ha1 & Hl1); [done..|].
    rewrite E1. cbn [mbind res_bind].
    destruct (has t STATE_WAKE_PENDING); cbn [negb].
    + set (k1 := set_strategy s1 (put_task i (settle t) k)).
      destruct (update_sleep_time k1 i (settle t) now e) as (s2 & E2 & Hi2 & Ho2 & Hr2 & Hl2); try done.
      { cbn. apply list_lookup_insert_eq. by eapply lookup_lt_Some. }
      exists s2. rewrite E2. cbn in Hi2, Hl2. rewrite list_insert_insert_eq in Hi2.
      split_and!; [|done|by eapply same_others_trans|done|by rewrite <- Hl1].
      unfold k1, put_task, set_strategy, set_tasks. cbn. by rewrite list_insert_insert_eq.
    + exists s1. split_and!; try done.
      assert (Hss : IsSleeping (settle t) = true) by done. rewrite Hss. split; [|done]. intros Hr1.
      by apply (si_disjoint c _ _ _ i Hi1) in Hr1.
  - assert (Ha : i ∈ st_asleep (m_strategy k)).
    { apply (tk_busy _ _ _ _ _ Hok) in Hb as [Hr|Ha]; [|done].
      assert (has t STATE_SLEEP_PENDING = true) by (by apply (tk_pending _ _ _ _ _ Hok)). congruence. }
    by apply update_sleep_time.
Qed.
(** *** Removing a task *)

Definition freed (t : KernelTask) : KernelTask :=
  let t := with_sleep 0 (with_state 0 (with_user None t)) in
  if IsTimesliceMode c then with_ts TsInfo_ctor t else t.

Context (Hhrt : IsHrtMode c = false).

Lemma Unbind_ok t : IsWaiting (m_wait_obj t) = false → Unbind c t = Ok (freed t).
Proof. intros E. unfold Unbind. by rewrite E, andb_false_r, Hhrt. Qed.

Lemma freed_free t : IsBusy (freed t) = false ∧ m_state (freed t) = 0 ∧ m_time_sleep (freed t) = 0 ∧
  m_wait_obj (freed t) = m_wait_obj t.
Proof. unfold freed. by destruct (IsTimesliceMode c). Qed.

Lemma freed_self t : self_ok t → IsWaiting (m_wait_obj t) = false → self_ok (freed t).
Proof.
  intros Hs Hw. destruct (freed_free t) as (Eb & Es & Et & Ew).
  assert (Hf : ∀ f, has (freed t) f = false) by (intros f; unfold has; rewrite Es, has_flag_testbit; apply Z.bits_0).
  split; unfold IsPendingRemoval; rewrite ?Hf, ?Ew, ?Et, ?Eb, ?Hw; try done.
  - intros _. rewrite Es. split_and!; [done..|]. unfold IsWaiting in Hw. by destruct (m_sync_obj _).
  - intros [?|?]; done.
  - unfold freed. destruct (IsTimesliceMode c); apply Hs.
  - unfold freed. destruct (IsTimesliceMode c); [done|apply Hs].
Qed.

Lemma free_ok R A now i t : self_ok t → IsBusy t = false → (i ∉ R) → (i ∉ A) → task_ok R A now i t.
Proof.
  intros Hs Hb HR HA. split; [done| | |done|done].
  - rewrite Hb. naive_solver.
  - destruct (so_free t Hs Hb) as (E & _). unfold has. rewrite E, has_flag_testbit, Z.bits_0. naive_solver.
Qed.

Lemma remove_task k i t now : sched_inv c (m_task_storage k) (m_strategy k) now →
  m_task_storage k !! i = Some t → IsBusy t = true → IsWaiting (m_wait_obj t) = false →
  ∃ s', RemoveKernelTask ops c i k = Ok (set_strategy s' (put_task i (freed t) k)) ∧
    sched_inv c (<[i := freed t]> (m_task_storage k)) s' now ∧ same_others i (m_strategy k) s' ∧
    (i ∉ st_ready s' ++ st_asleep s') ∧
    Datatypes.S (length (st_ready s' ++ st_asleep s')) = length (st_ready (m_strategy k) ++ st_asleep (m_strategy k)).
Proof.
  intros Hi Ht Hb Hw. set (ts := m_task_storage k) in *. set (s := m_strategy k) in *.
  assert (Hm := si_member c ts s now i t Hi Ht Hb).
  destruct (st_RemoveTask_spec c ts s i) as (s' & E & Hs' & HR & HA); [done|apply Hi|done|].
  assert (Hn : i ∉ st_ready s' ++ st_asleep s') by (rewrite HR, HA, elem_of_app, !elem_of_remove1; naive_solver).
  assert (Hlt : (i < length ts)%nat) by (by eapply lookup_lt_Some).
  assert (Hself := tk_self _ _ _ _ _ (si_task c _ _ _ Hi i t Ht)).
  exists s'. split_and!; [| | |done|].
  - unfold RemoveKernelTask. rewrite (strat_ok k _ s') by done. cbn [mbind res_bind].
    rewrite (upd_task_ok _ i t (freed t)); [by destruct k|done|by apply Unbind_ok].
  - apply (sched_inv_move c ts s s' now i t); [done..| | |].
    + apply (st_frame c ts); [done|]. intros j u Hj Hu. exists u. split; [|done].
      rewrite list_lookup_insert_ne; [done|]. by intros <-.
    + intros j Hj. rewrite HR, HA, !elem_of_remove1. set_solver.
    + rewrite elem_of_app in Hn. apply free_ok; [by apply freed_self|apply freed_free|tauto..].
  - intros j Hj. rewrite HR, HA, !elem_of_remove1. set_solver.
  - assert (Hnd := st_nodup c _ _ (si_strat c _ _ _ Hi)). rewrite HR, HA, <- remove1_app.
    by apply remove1_length.
Qed.
(** *** The tick of one task *)

Definition unyield (t : KernelTask) : KernelTask :=
  if NOSLEEP_YIELD_API (cfg_strategy c) then lower STATE_YIELD_PENDING t else t.

(** What a tick makes of a task that is not removed by it. *)
Definition tick_task (e : Z) (t : KernelTask) : KernelTask :=
  if IsSleeping t then tick_sleeping e (unyield t) else unyield t.

(** Whether the tick removes the task. *)
Definition removable k (i : nat) (t : KernelTask) : bool :=
  IsSleeping t && IsDynamicMode c && IsPendingRemoval t &&
  (negb (is_now k i) ||
   (bool_decide (st_GetSize ops (m_strategy k) = 1) && bool_decide (m_fsm_state k = FSM_STATE_SLEEPING))).

(** How long the kernel may stay idle on behalf of a task. *)
Definition idle_limit (t : KernelTask) : Z :=
  if IsSyncMode c && IsWaiting (m_wait_obj t) then m_time_wait (m_wait_obj t) else Z.max 0 (- m_time_sleep t).
Definition next_idle (n : Z) (t : KernelTask) : Z :=
  if IsTicklessMode c && (n >? 1) && IsBusy t then Z.max 1 (Z.min n (idle_limit t)) else n.

Lemma GetSleepTicks_ok t n : self_ok t → GetSleepTicks c t n = Ok (Z.max 1 (Z.min n (idle_limit t))).
Proof.
  intros Hs. unfold GetSleepTicks, idle_limit, i32. assert (Hr := so_sleep t Hs).
  rewrite bool_decide_eq_true_2 by (unfold in_i32, INT32_MIN, INT32_MAX in *; lia). cbn [mbind res_bind].
  destruct (IsSyncMode c); [|done]. destruct (IsWaiting _) eqn:Ew; [|done].
  destruct (so_wait t Hs Ew) as (_ & _ & ?). cbn [andb].
  replace (m_time_wait (m_wait_obj t) >? NO_WAIT) with true; [done|]. unfold NO_WAIT. lia.
Qed.

Lemma unyield_same t : same_weight t (unyield t) ∧ m_time_sleep (unyield t) = m_time_sleep t ∧
  m_wait_obj (unyield t) = m_wait_obj t ∧ IsBusy (unyield t) = IsBusy t ∧ m_ts (unyield t) = m_ts t ∧
  ∀ f, f ≠ STATE_YIELD_PENDING → has (unyield t) f = has t f.
Proof.
  unfold unyield. destruct (NOSLEEP_YIELD_API _); [|done]. split_and!; try done. intros f Hf.
  rewrite has_lower, bool_decide_eq_false_2; [done|congruence].
Qed.

Lemma unyield_ok R A now i t : task_ok R A now i t → task_ok R A now i (unyield t).
Proof.
  intros [[] ? ? ? ?]. unfold unyield. destruct (NOSLEEP_YIELD_API _); [|done].
  split; [split|..]; ktask; try done. intros Hb. destruct so_free0 as (E & ? & ?); [done|]. by rewrite E.
Qed.

Lemma update_awake_task k i t e : m_task_storage k !! i = Some t → UpdateAwakeTask ops c e i k = Ok k.
Proof. intros Ht. unfold UpdateAwakeTask. rewrite (task_at_ok k i t Ht), Hhrt. done. Qed.

Lemma tick_task_wait e t : m_wait_obj (tick_task e t) = m_wait_obj t.
Proof.
  destruct (unyield_same t) as (_ & _ & Ew & _). rewrite <- Ew. unfold tick_task, tick_sleeping, count_down.
  repeat case_match; done.
Qed.

Lemma tick_task_busy e t : IsBusy (tick_task e t) = IsBusy t.
Proof.
  destruct (unyield_same t) as (_ & _ & _ & Eb & _). rewrite <- Eb. unfold tick_task, tick_sleeping, count_down.
  repeat case_match; done.
Qed.
(** The task slot [i] after the tick, and what the strategy knows of it. *)
Definition ticked k (e : Z) (i : nat) (t : KernelTask) : KernelTask :=
  if removable k i t then freed (unyield t) else tick_task e t.

Record tick_moved k (i : nat) (t t' : KernelTask) (s' : S) : Prop := {
  tm_others : same_others i (m_strategy k) s';
  tm_awake : i ∈ st_ready s' → IsSleeping t' = false;
  tm_member : i ∈ st_ready s' ++ st_asleep s' ↔
    removable k i t = false ∧ i ∈ st_ready (m_strategy k) ++ st_asleep (m_strategy k);
  tm_size : (length (st_ready (m_strategy k) ++ st_asleep (m_strategy k)) =
    (if removable k i t then 1 else 0) + length (st_ready s' ++ st_asleep s'))%nat;
}.

Lemma update_task_stays k i t now e : sched_inv c (m_task_storage k) (m_strategy k) now →
  m_task_storage k !! i = Some t → 0 ≤ e ≤ INT32_MAX → (has t STATE_SLEEP_PENDING = true → e ≤ 1) →
  ∃ s', (if IsSleeping t then UpdateSleepingTask ops c e i k else UpdateAwakeTask ops c e i k) =
      Ok (set_strategy s' (put_task i (if IsSleeping t then tick_sleeping e t else t) k)) ∧
    sched_inv c (<[i := if IsSleeping t then tick_sleeping e t else t]> (m_task_storage k)) s' now ∧
    same_others i (m_strategy k) s' ∧
    (i ∈ st_ready s' → IsSleeping (if IsSleeping t then tick_sleeping e t else t) = false) ∧
    length (st_ready s' ++ st_asleep s') = length (st_ready (m_strategy k) ++ st_asleep (m_strategy k)).
Proof.
  intros Hi Ht He He1. destruct (IsSleeping t) eqn:Hsl.
  - assert (Hb : IsBusy t = true).
    { destruct (IsBusy t) eqn:Eb; [done|]. assert (Hs := tk_self _ _ _ _ _ (si_task c _ _ _ Hi i t Ht)).
      destruct (so_free t Hs Eb) as (_ & E & _). unfold IsSleeping in Hsl. by rewrite E in Hsl. }
    destruct (update_sleeping_task k i t now e) as (s' & ? & ? & ? & Hr & ?); [done..|].
    exists s'. split_and!; try done. intros ?. by apply Hr.
  - exists (m_strategy k). rewrite (update_awake_task k i t e Ht), list_insert_id by done.
    split_and!; try done. unfold put_task, set_strategy, set_tasks. cbn. rewrite list_insert_id by done.
    by destruct k.
Qed.

Lemma update_task k i t now e n : sched_inv c (m_task_storage k) (m_strategy k) now →
  m_task_storage k !! i = Some t → 0 ≤ e ≤ INT32_MAX → (has t STATE_SLEEP_PENDING = true → e ≤ 1) →
  ∃ s', UpdateTask ops c e i n k =
      Ok (next_idle n (ticked k e i t), set_strategy s' (put_task i (ticked k e i t) k)) ∧
    sched_inv c (<[i := ticked k e i t]> (m_task_storage k)) s' now ∧ tick_moved k i t (ticked k e i t) s'.
Proof.
  intros Hi Ht He He1. destruct (unyield_same t) as (Ew & Esl & Eo & Eb & _ & Ef).
  assert (Hok := unyield_ok _ _ _ _ _ (si_task c _ _ _ Hi i t Ht)).
  set (k1 := put_task i (unyield t) k).
  assert (Ht1 : m_task_storage k1 !! i = Some (unyield t)) by (by apply (put_task_at k i t)).
  assert (Hi1 : sched_inv c (m_task_storage k1) (m_strategy k1) now) by (by apply (sched_inv_put c _ _ _ i t)).
  assert (Ek1 : (if NOSLEEP_YIELD_API (cfg_strategy c) then mod_task i (lower STATE_YIELD_PENDING) k else Ok k) = Ok k1).
  { unfold k1, unyield. destruct (NOSLEEP_YIELD_API _); [by apply mod_task_ok|].
    unfold put_task, set_tasks. rewrite list_insert_id by done. by destruct k. }
  unfold UpdateTask. rewrite Ek1. cbn [mbind res_bind]. rewrite (task_at_ok k1 i _ Ht1). cbn [mbind res_bind].
  assert (Es : IsSleeping (unyield t) = IsSleeping t) by (unfold IsSleeping; by rewrite Esl).
  assert (Er : IsPendingRemoval (unyield t) = IsPendingRemoval t) by (by apply Ef).
  rewrite Es, Er. change (is_now k1 i) with (is_now k i).
  change (m_strategy k1) with (m_strategy k). change (m_fsm_state k1) with (m_fsm_state k).
  fold (removable k i t). unfold ticked. destruct (removable k i t) eqn:Erm.
  - (* removed *)
    assert (Hp : IsPendingRemoval t = true ∧ IsSleeping t = true)
      by (unfold removable in Erm; destruct (IsPendingRemoval t), (IsSleeping t), (IsDynamicMode c); done).
    assert (Hself := tk_self _ _ _ _ _ Hok). destruct (so_parked _ Hself) as (Einf & Hw); [right; rewrite Er; apply Hp|].
    assert (Hbu : IsBusy (unyield t) = true).
    { destruct (IsBusy (unyield t)) eqn:E; [done|]. destruct (so_free _ Hself E) as (_ & E0 & _). by rewrite E0 in Einf. }
    destruct (remove_task k1 i (unyield t) now) as (s' & E & Hi' & Ho & Hn & Hsz); [done..|].
    exists s'. rewrite E. cbn [mbind res_bind]. unfold k1 in Hi' |- *. cbn in Hi'. rewrite list_insert_insert_eq in Hi'.
    split_and!; [|done|].
    + unfold next_idle. destruct (freed_free (unyield t)) as (-> & _). rewrite andb_false_r.
      unfold put_task, set_strategy, set_tasks. cbn. by rewrite list_insert_insert_eq.
    + split; rewrite ?Erm; try done; [|naive_solver]. intros Hr. exfalso. apply Hn. set_solver.
  - destruct (update_task_stays k1 i (unyield t) now e) as (s' & E & Hi' & Ho & Ha & Hsz); [done..| |].
    { rewrite Ef by done. done. }
    rewrite Es in *. change (if IsSleeping t then tick_sleeping e (unyield t) else unyield t) with (tick_task e t) in *.
    rewrite E. cbn [mbind res_bind]. set (k2 := set_strategy s' (put_task i (tick_task e t) k1)).
    assert (Ht2 : m_task_storage k2 !! i = Some (tick_task e t)) by (by apply (put_task_at k1 i (unyield t))).
    rewrite (task_at_ok k2 i _ Ht2). cbn [mbind res_bind].
    assert (Hself : self_ok (tick_task e t)) by (by apply (tk_self _ _ _ _ _ (si_task c _ _ _ Hi' i _ Ht2))).
    exists s'. unfold k1 in Hi'. cbn in Hi'. rewrite list_insert_insert_eq in Hi'. split_and!; [|done|].
    + rewrite GetSleepTicks_ok by done. unfold next_idle, k2, k1. cbn [mbind res_bind].
      unfold put_task, set_strategy, set_tasks. cbn. rewrite list_insert_insert_eq. by destruct (_ && _ && _).
    + assert (Hm := tk_busy _ _ _ _ _ (si_task c _ _ _ Hi' i (tick_task e t)
        (list_lookup_insert_eq _ _ _ (lookup_lt_Some _ _ _ Ht)))).
      assert (Hm0 := tk_busy _ _ _ _ _ (si_task c _ _ _ Hi i t Ht)).
      split; rewrite ?Erm; try done. rewrite !elem_of_app, <- Hm0, <- Hm, tick_task_busy. tauto.
Qed.
End blocks.
Global Arguments removable {S} ops c k i t.
Global Arguments ticked {S} ops c k e i t.

End KernelInv.
