(* ===== verification/KernelSync.v ===== *)
(** * Waiting on synchronization objects

    The wait objects of the tasks and the wait lists of the objects stay in
    agreement, and [UpdateSyncObjects] computes, for every waiting task, the
    function [tick_waiter]: count its timeout down, and wake it with a timeout
    when it reaches zero. *)

From S2P Require Import Prelude KernelTask Strategy Kernel KernelInv.
Import KTask Strat Kernel KernelInv.
Local Open Scope Z_scope.

Module KernelSync.

(** ** Waking a task *)

Definition woken (t : KernelTask) : KernelTask :=
  if has t STATE_SLEEP_PENDING then raise STATE_WAKE_PENDING (with_sleep (-1) t) else with_sleep (-1) t.

Lemma Wake_ok t : IsSleeping t = true → Wake t = Ok (woken t).
Proof. intros E. unfold Wake, woken. rewrite E. cbn [stk_assert]. done. Qed.

Lemma woken_same t : same_weight t (woken t) ∧ IsSleeping (woken t) = true ∧ IsBusy (woken t) = IsBusy t ∧
  m_wait_obj (woken t) = m_wait_obj t ∧ ∀ f, f ≠ STATE_WAKE_PENDING → has (woken t) f = has t f.
Proof.
  unfold woken. destruct (has t STATE_SLEEP_PENDING); [|done]. split_and!; try done.
  intros f Hf. rewrite has_raise, bool_decide_eq_false_2; [done|congruence].
Qed.

Lemma woken_self t : self_ok t → IsBusy t = true → IsWaiting (m_wait_obj t) = false →
  has t STATE_SUSPENDED = false → IsPendingRemoval t = false → self_ok (woken t).
Proof.
  intros [] Hb Hw H1 H2. unfold woken. destruct (has t STATE_SLEEP_PENDING); split; ktask; try done;
    try (intros; congruence); try (intros [?|?]; congruence); unfold INT32_MAX; lia.
Qed.

(** The wait of a task ends with [state]; the second function also wakes it. *)
Definition end_of_wait (state : EState) (tw : Z) (t : KernelTask) : KernelTask := with_wait (mkWait None tw state) t.
Definition wait_woken (state : EState) (t : KernelTask) : KernelTask := woken (end_of_wait state NO_WAIT t).

(** One tick of a waiting task. *)
Definition tick_waiter (e : Z) (t : KernelTask) : KernelTask :=
  let w := m_wait_obj t in
  if m_time_wait w =? WAIT_INFINITE then t
  else if m_time_wait w - e <=? NO_WAIT then wait_woken STATE_TIMEOUT t
  else with_wait (mkWait (m_sync_obj w) (m_time_wait w - e) STATE_WAIT) t.

(** A waiting task is neither suspended nor being removed. *)
Lemma waiting_free t : self_ok t → IsWaiting (m_wait_obj t) = true →
  IsSleeping t = true ∧ IsBusy t = true ∧ has t STATE_SUSPENDED = false ∧ IsPendingRemoval t = false.
Proof.
  intros Hs Hw. destruct (so_wait t Hs Hw) as (E & _). split_and!.
  - unfold IsSleeping. by rewrite E.
  - destruct (IsBusy t) eqn:Eb; [done|]. destruct (so_free t Hs Eb) as (_ & E0 & _). by rewrite E0 in E.
  - destruct (has t STATE_SUSPENDED) eqn:Es; [|done]. destruct (so_parked t Hs) as [_ H]; [auto|congruence].
  - destruct (IsPendingRemoval t) eqn:Es; [|done]. destruct (so_parked t Hs) as [_ H]; [auto|congruence].
Qed.

Lemma end_of_wait_self st tw t : self_ok t → self_ok (end_of_wait st tw t).
Proof.
  intros []. split; ktask; try done.
  - intros Hb. by destruct so_free0 as (? & ? & ?).
  - intros H. destruct so_parked0 as [? ?]; done.
Qed.

Lemma wait_woken_self st t : self_ok t → IsWaiting (m_wait_obj t) = true → self_ok (wait_woken st t).
Proof.
  intros Hs Hw. destruct (waiting_free t Hs Hw) as (? & ? & ? & ?).
  apply woken_self; [by apply end_of_wait_self|done..].
Qed.

Lemma tick_waiter_self e t : self_ok t → IsWaiting (m_wait_obj t) = true → 0 ≤ e → self_ok (tick_waiter e t).
Proof.
  intros Hs Hw He. unfold tick_waiter. destruct (Z.eqb_spec (m_time_wait (m_wait_obj t)) WAIT_INFINITE); [done|].
  destruct (Z.leb_spec (m_time_wait (m_wait_obj t) - e) NO_WAIT); [by apply wait_woken_self|].
  destruct (so_wait t Hs Hw) as (Hw1 & Hw2 & Hw3). destruct (waiting_free t Hs Hw) as (? & Hb & Hf1 & Hf2).
  unfold NO_WAIT in *. destruct Hs. split; ktask; try done; try (intros; congruence).
  - intros _. split_and!; [done|done|lia..].
Qed.

(** *** Wait lists *)

Definition so_removed (i : nat) (state : EState) (so : SyncObject) : SyncObject :=
  mkSync (list_remove1 i (so_wait_list so))
    (match so_event so with
     | Some (manual, signaled) =>
         Some (manual, if negb manual && signaled && bool_decide (state = STATE_SIGNALED) then false else signaled)
     | None => None
     end).

Lemma sync_inv_unlink b W sl sy i o so st : sync_inv b W sl sy → W i = Some o → sy !! o = Some so →
  sync_inv b (λ j, if decide (j = i) then None else W j) sl (<[o := so_removed i st so]> sy).
Proof.
  intros [Hl Hd Hn Hk Hmode] Hi Ho. split.
  - intros o' so'. destruct (decide (o' = o)) as [->|Hne].
    + rewrite lookup_insert_eq. intros [= <-]. destruct (Hl o so Ho) as [Hnd Hm]. cbn. split; [by apply NoDup_remove1|].
      intros j. rewrite elem_of_remove1, Hm. case_decide; naive_solver.
    + rewrite lookup_insert_ne by done. intros Ho'. destruct (Hl o' so' Ho') as [Hnd Hm]. split; [done|].
      intros j. rewrite Hm. case_decide; [|done]. subst. naive_solver.
  - intros j o'. case_decide; [done|]. intros Hj. destruct (Hd j o' Hj) as [[x Hx] ?]. split; [|done].
    destruct (decide (o' = o)) as [->|?]; [rewrite lookup_insert_eq|rewrite lookup_insert_ne by done]; eauto.
  - done.
  - intros o' Ho'. destruct (Hk o' Ho') as [x Hx].
    destruct (decide (o' = o)) as [->|?]; [rewrite lookup_insert_eq|rewrite lookup_insert_ne by done]; eauto.
  - done.
Qed.

Lemma sync_inv_link b W sl sl' sy i o so : b = true → sync_inv b W sl sy → W i = None → sy !! o = Some so →
  NoDup sl' → (∀ x, x ∈ sl' ↔ x ∈ sl ∨ x = o) →
  sync_inv b (λ j, if decide (j = i) then Some o else W j) sl'
    (<[o := mkSync (so_wait_list so ++ [i]) (so_event so)]> sy).
Proof.
  intros Hb [Hl Hd Hn Hk Hmode] Hi Ho Hnd' Hsl. split.
  - intros o' so'. destruct (decide (o' = o)) as [->|Hne].
    + rewrite lookup_insert_eq. intros [= <-]. destruct (Hl o so Ho) as [Hnd Hm]. cbn. split.
      * apply NoDup_app. split_and!; [done| |apply NoDup_singleton]. intros j Hj ->%list_elem_of_singleton.
        apply Hm in Hj. congruence.
      * intros j. rewrite elem_of_app, list_elem_of_singleton, Hm. case_decide; naive_solver.
    + rewrite lookup_insert_ne by done. intros Ho'. destruct (Hl o' so' Ho') as [Hnd Hm]. split; [done|].
      intros j. rewrite Hm. case_decide; [|done]. subst. naive_solver.
  - intros j o'. rewrite Hsl. case_decide.
    + intros [= <-]. rewrite lookup_insert_eq. eauto.
    + intros Hj. destruct (Hd j o' Hj) as [[x Hx] ?]. split; [|auto].
      destruct (decide (o' = o)) as [->|?]; [rewrite lookup_insert_eq|rewrite lookup_insert_ne by done]; eauto.
  - done.
  - intros o'. rewrite Hsl. intros Ho'. destruct (decide (o' = o)) as [->|?]; [rewrite lookup_insert_eq; eauto|].
    rewrite lookup_insert_ne by done. apply Hk. naive_solver.
  - by rewrite Hb.
Qed.

(** ** The operations of the kernel *)

Section sync.
Context {S : Type} {ops : StrategyOps S} {HS : StrategySpec ops} (c : KernelCfg).
Implicit Types (k : Kernel S) (ts : list KernelTask) (s : S).

(** The invariant without the current task and the state machine. *)
Record core_inv k : Prop := {
  ci_sched : sched_inv c (m_task_storage k) (m_strategy k) (m_task_now k);
  ci_sync : sync_inv (IsSyncMode c) (waits_for (m_task_storage k)) (m_sync_list k) (m_sync k);
}.

Lemma ci_self k i t : core_inv k → m_task_storage k !! i = Some t → self_ok t.
Proof. intros [Hs _] Ht. apply (tk_self _ _ _ _ _ (si_task c _ _ _ Hs i t Ht)). Qed.

(** An assignment that neither wakes the task nor puts it to sleep. *)
Lemma sched_inv_neutral ts s now i t t' : sched_inv c ts s now → ts !! i = Some t → same_weight t t' →
  self_ok t' → IsSleeping t' = IsSleeping t → has t' STATE_SLEEP_PENDING = has t STATE_SLEEP_PENDING →
  sched_inv c (<[i := t']> ts) s now.
Proof.
  intros Hi Ht Hw Hs E1 E2. destruct (si_task c _ _ _ Hi i t Ht) as [? Hb ? ? ?].
  apply (sched_inv_put c _ _ _ i t); [done..|]. split; rewrite ?E1, ?E2; try done.
  unfold IsBusy in *. by destruct Hw as (-> & _).
Qed.

Lemma core_inv_neutral k i t t' : core_inv k → m_task_storage k !! i = Some t → same_weight t t' →
  self_ok t' → IsSleeping t' = IsSleeping t → has t' STATE_SLEEP_PENDING = has t STATE_SLEEP_PENDING →
  m_sync_obj (m_wait_obj t') = m_sync_obj (m_wait_obj t) → core_inv (put_task i t' k).
Proof.
  intros [Hs Hy] Ht Hw Hok E1 E2 E3. split; cbn.
  - by apply (sched_inv_neutral _ _ _ i t).
  - eapply sync_inv_ext; [|exact Hy]. by apply (waits_for_same _ i t).
Qed.

Lemma end_wait_eq k i t o so st f : m_task_storage k !! i = Some t → m_sync_obj (m_wait_obj t) = Some o →
  m_sync k !! o = Some so → i ∈ so_wait_list so →
  end_wait i st f k = Ok (set_sync (<[o := so_removed i st so]> (m_sync k))
                            (put_task i (end_of_wait st (f (m_time_wait (m_wait_obj t))) t) k)).
Proof.
  intros Ht Eo Ho Hi. unfold end_wait. rewrite (task_at_ok k i t Ht). cbn [mbind res_bind]. rewrite Eo.
  unfold RemoveWaitObject. rewrite Ho. cbn [deref mbind res_bind]. rewrite bool_decide_eq_true_2 by done.
  cbn [stk_assert mbind res_bind]. by rewrite (mod_task_ok _ i t).
Qed.

Lemma wait_list_of k i t o : core_inv k → m_task_storage k !! i = Some t → m_sync_obj (m_wait_obj t) = Some o →
  ∃ so, m_sync k !! o = Some so ∧ i ∈ so_wait_list so.
Proof.
  intros [_ Hy] Ht Eo. assert (Hw : waits_for (m_task_storage k) i = Some o) by (unfold waits_for; by rewrite Ht).
  destruct (sy_dom _ _ _ _ Hy i o Hw) as [[so Hso] _]. exists so. split; [done|]. by apply (sy_list _ _ _ _ Hy o so Hso).
Qed.

(** Ending the wait of a task, whatever then becomes of its sleep. *)
Lemma core_inv_unlink k i t o so st t' : core_inv k → m_task_storage k !! i = Some t →
  m_sync_obj (m_wait_obj t) = Some o → m_sync k !! o = Some so →
  same_weight t t' → self_ok t' → IsSleeping t' = true → has t' STATE_SLEEP_PENDING = has t STATE_SLEEP_PENDING →
  m_sync_obj (m_wait_obj t') = None →
  core_inv (set_sync (<[o := so_removed i st so]> (m_sync k)) (put_task i t' k)).
Proof.
  intros Hc Ht Eo Ho Hw Hs Hsl Hp En. assert (Hself := ci_self k i t Hc Ht).
  destruct (waiting_free t Hself) as (Hsl0 & _); [unfold IsWaiting; by rewrite Eo|]. destruct Hc as [Hi Hy]. split; cbn.
  - apply (sched_inv_neutral _ _ _ i t); [done..|congruence|done].
  - eapply sync_inv_ext; [|apply (sync_inv_unlink _ _ _ _ i o so st Hy); [unfold waits_for; by rewrite Ht|done]].
    intros j. rewrite (waits_for_put _ i t) by done. by rewrite En.
Qed.

Lemma wait_wake_eq k i t o so (b : bool) : m_task_storage k !! i = Some t → m_sync_obj (m_wait_obj t) = Some o →
  m_sync k !! o = Some so → i ∈ so_wait_list so → IsSleeping t = true →
  let st := if b then STATE_TIMEOUT else STATE_SIGNALED in
  WaitObject_Wake b i k =
    Ok (set_sync (<[o := so_removed i st so]> (m_sync k)) (put_task i (wait_woken st t) k)).
Proof.
  intros Ht Eo Ho Hi Hsl st. unfold WaitObject_Wake. rewrite (end_wait_eq k i t o so) by done. cbn [mbind res_bind].
  rewrite (upd_task_ok _ i (end_of_wait st NO_WAIT t) (wait_woken st t)).
  - unfold put_task, set_sync, set_tasks. cbn. by rewrite list_insert_insert_eq.
  - by apply (put_task_at k i t).
  - by apply Wake_ok.
Qed.

Lemma wait_woken_core k i t o so st : core_inv k → m_task_storage k !! i = Some t →
  m_sync_obj (m_wait_obj t) = Some o → m_sync k !! o = Some so →
  core_inv (set_sync (<[o := so_removed i st so]> (m_sync k)) (put_task i (wait_woken st t) k)).
Proof.
  intros Hc Ht Eo Ho. assert (Hself := ci_self k i t Hc Ht).
  assert (Hw : IsWaiting (m_wait_obj t) = true) by (unfold IsWaiting; by rewrite Eo).
  destruct (woken_same (end_of_wait st NO_WAIT t)) as (? & ? & ? & Em & Ef).
  apply (core_inv_unlink k i t); [done..|by apply wait_woken_self|done| |].
  - unfold wait_woken. by rewrite Ef.
  - unfold wait_woken. by rewrite Em.
Qed.
(** *** The tick of the waiters *)

(** The tasks in [P] have been ticked; nothing else changed but wait lists. *)
Record waiters_ok k (e : Z) (P : nat → bool) k' : Prop := {
  wk_frame : k' = set_sync_list (m_sync_list k') (set_sync (m_sync k') (set_tasks (m_task_storage k') k));
  wk_core : core_inv k';
  wk_dom o : is_Some (m_sync k' !! o) ↔ is_Some (m_sync k !! o);
  wk_task j : m_task_storage k' !! j = (if P j then tick_waiter e else λ t, t) <$> m_task_storage k !! j;
}.

Lemma waiters_ok_refl k e : core_inv k → waiters_ok k e (λ _, false) k.
Proof. intros Hc. split; [by destruct k|done|done|]. intros j. by destruct (m_task_storage k !! j). Qed.

Lemma waiters_ok_trans k1 k2 k3 e P1 P2 P : waiters_ok k1 e P1 k2 → waiters_ok k2 e P2 k3 →
  (∀ j, P j = P1 j || P2 j) → (∀ j, P1 j = true → P2 j = false) → waiters_ok k1 e P k3.
Proof.
  intros [F1 _ D1 T1] [F2 C2 D2 T2] HP Hd. split.
  - rewrite F2 at 1. rewrite F1 at 1. done.
  - done.
  - intros o. by rewrite D2.
  - intros j. rewrite T2, T1, HP. destruct (P1 j) eqn:E1.
    + rewrite (Hd j E1). cbn. by destruct (m_task_storage k1 !! j).
    + cbn. by destruct (m_task_storage k1 !! j), (P2 j).
Qed.

Lemma waiters_ok_ext k e P P' k' : waiters_ok k e P k' → (∀ j, P' j = P j) → waiters_ok k e P' k'.
Proof. intros [? ? ? T] HP. split; [done..|]. intros j. by rewrite HP. Qed.

Lemma is_Some_insert (m : gmap nat SyncObject) o so x : m !! o = Some so →
  ∀ o', is_Some (<[o := x]> m !! o') ↔ is_Some (m !! o').
Proof.
  intros Ho o'. destruct (decide (o' = o)) as [->|Hne].
  - rewrite lookup_insert_eq, Ho. split; eauto.
  - by rewrite lookup_insert_ne.
Qed.

Lemma put_lookup ts i t t' (f : KernelTask → KernelTask) : ts !! i = Some t → t' = f t →
  ∀ j, <[i := t']> ts !! j = (if decide (j = i) then f else λ u, u) <$> ts !! j.
Proof.
  intros Ht -> j. assert (i < length ts)%nat by (by eapply lookup_lt_Some). case_decide; subst.
  - rewrite list_lookup_insert_eq, Ht by done. done.
  - rewrite list_lookup_insert_ne by done. by destruct (ts !! j).
Qed.

(** One round of [ISyncObject::Tick]. *)
Lemma tick_one_waiter k e i o : core_inv k → waits_for (m_task_storage k) i = Some o → 0 ≤ e ≤ INT32_MAX →
  ∃ t k', m_task_storage k !! i = Some t ∧
    (t ← task_at k i; '(waiting, w) ← WaitObject_Tick e (m_wait_obj t);
     (if (waiting : bool) then Ok (put_task i (with_wait w t) k)
      else WaitObject_Wake true i (put_task i (with_wait w t) k))) = Ok k' ∧
    waiters_ok k e (λ j, bool_decide (j = i)) k'.
Proof.
  intros Hc Hw He. unfold waits_for in Hw. destruct (m_task_storage k !! i) as [t|] eqn:Ht; [|done]. cbn in Hw.
  assert (Hself := ci_self k i t Hc Ht).
  assert (Hwt : IsWaiting (m_wait_obj t) = true) by (unfold IsWaiting; by rewrite Hw).
  destruct (so_wait t Hself Hwt) as (Esl & Est & Hrng). exists t.
  destruct (wait_list_of k i t o Hc Ht Hw) as (so & Ho & Hi).
  rewrite (task_at_ok k i t Ht). cbn [mbind res_bind]. unfold WaitObject_Tick.
  assert (Hnew : ∀ t', t' = tick_waiter e t → core_inv (put_task i t' k) → waiters_ok k e (λ j, bool_decide (j = i)) (put_task i t' k)).
  { intros t' Et' Hc'. split; [by destruct k|done|done|]. intros j. cbn.
    rewrite (put_lookup _ i t t' (tick_waiter e)) by done. repeat case_decide || case_bool_decide; done. }
  destruct (Z.eqb_spec (m_time_wait (m_wait_obj t)) WAIT_INFINITE) as [Einf|Einf]; cbn [negb mbind res_bind].
  { rewrite Est. eexists. split; [done|]. split; [done|].
    assert (Et : with_wait (m_wait_obj t) t = t) by (by destruct t). rewrite Et.
    assert (Etk : t = tick_waiter e t) by (unfold tick_waiter; by rewrite Einf). apply Hnew; [done|].
    apply (core_inv_neutral k i t); done. }
  rewrite Est. rewrite bool_decide_eq_true_2 by done. unfold i32.
  rewrite bool_decide_eq_true_2 by (unfold in_i32, INT32_MIN, INT32_MAX, WAIT_INFINITE, INT32_MAX in *; lia).
  cbn [mbind res_bind w_state]. assert (Htw := tick_waiter_self e t Hself Hwt (proj1 He)).
  unfold tick_waiter in Hnew, Htw. rewrite (proj2 (Z.eqb_neq _ _) Einf) in Hnew, Htw.
  destruct (m_time_wait (m_wait_obj t) - e <=? NO_WAIT) eqn:Ele.
  - rewrite bool_decide_eq_false_2 by done. set (t1 := with_wait _ t).
    rewrite (wait_wake_eq _ i t1 o so true); [|by apply (put_task_at k i t)|done|done|done|unfold IsSleeping; cbn; by rewrite Esl].
    eexists. split; [done|]. split; [done|]. split.
    + by destruct k.
    + assert (Hc2 := wait_woken_core k i t o so STATE_TIMEOUT Hc Ht Hw Ho).
      unfold put_task, set_sync, set_tasks in *. cbn in *. by rewrite list_insert_insert_eq.
    + cbn. by apply (is_Some_insert _ _ so).
    + intros j. cbn. rewrite list_insert_insert_eq.
      rewrite (put_lookup _ i t _ (tick_waiter e)); [repeat case_decide || case_bool_decide; done|done|].
      unfold tick_waiter. rewrite (proj2 (Z.eqb_neq _ _) Einf), Ele. done.
  - rewrite bool_decide_eq_true_2 by done. eexists. split; [done|]. split; [done|]. apply Hnew; [done|].
    apply (core_inv_neutral k i t); done.
Qed.
(** A task that is ticked keeps its object, or waits no more. *)
Lemma tick_waiter_sync e t : m_sync_obj (m_wait_obj (tick_waiter e t)) = m_sync_obj (m_wait_obj t) ∨
  m_sync_obj (m_wait_obj (tick_waiter e t)) = None.
Proof.
  unfold tick_waiter, wait_woken. destruct (_ =? _); [by left|]. destruct (_ <=? _); [right|by left].
  by rewrite (proj1 (proj2 (proj2 (proj2 (woken_same _))))).
Qed.

Lemma waits_for_ticked k k' e P j o : waiters_ok k e P k' → waits_for (m_task_storage k') j = Some o →
  waits_for (m_task_storage k) j = Some o.
Proof.
  intros [_ _ _ T]. unfold waits_for. rewrite T. destruct (m_task_storage k !! j) as [t|]; cbn; [|done].
  destruct (P j); [|done]. destruct (tick_waiter_sync e t) as [-> | ->]; done.
Qed.

Lemma waits_for_unticked k k' e P j : waiters_ok k e P k' → P j = false →
  waits_for (m_task_storage k') j = waits_for (m_task_storage k) j.
Proof.
  intros [_ _ _ T] Hj. unfold waits_for. rewrite T, Hj. by destruct (m_task_storage k !! j).
Qed.

Lemma tick_waiters l : ∀ k e o, core_inv k → NoDup l → (∀ i, i ∈ l → waits_for (m_task_storage k) i = Some o) →
  0 ≤ e ≤ INT32_MAX → ∃ k', Tick_waiters e l k = Ok k' ∧ waiters_ok k e (λ j, bool_decide (j ∈ l)) k'.
Proof.
  induction l as [|i l IH]; intros k e o Hc Hnd Hl He.
  { exists k. split; [done|]. eapply waiters_ok_ext; [by apply waiters_ok_refl|]. intros j.
    by rewrite bool_decide_eq_false_2 by set_solver. }
  apply NoDup_cons in Hnd as [Hn Hnd].
  destruct (tick_one_waiter k e i o Hc (Hl i ltac:(set_solver)) He) as (t & k1 & Ht & E1 & W1).
  destruct (IH k1 e o) as (k2 & E2 & W2); [apply W1|done| |done|].
  { intros j Hj. rewrite (waits_for_unticked k k1 e _ j W1); [apply Hl; set_solver|].
    apply bool_decide_eq_false_2. intros ->. done. }
  exists k2. split.
  - cbn [Tick_waiters]. rewrite (task_at_ok k i t Ht) in E1 |- *. cbn [mbind res_bind] in E1 |- *.
    destruct (WaitObject_Tick e (m_wait_obj t)) as [[b w]|]; [|done]. cbn [mbind res_bind] in E1 |- *.
    rewrite E1. done.
  - eapply waiters_ok_trans; [done..| |]; intros j; cbn.
    + repeat case_bool_decide; set_solver.
    + intros ->%bool_decide_eq_true. by apply bool_decide_eq_false_2.
Qed.

(** The tasks that wait for an object of [l]. *)
Definition waits_in (ts : list KernelTask) (l : list nat) (j : nat) : bool :=
  match waits_for ts j with Some o => bool_decide (o ∈ l) | None => false end.

Lemma core_inv_unlist k o : core_inv k → (∀ j, waits_for (m_task_storage k) j ≠ Some o) →
  core_inv (set_sync_list (list_remove1 o (m_sync_list k)) k).
Proof.
  intros [Hs [Hl Hd Hn Hk Hm]] Ho. split; [done|]. cbn. split; [done| |by apply NoDup_remove1| |].
  - intros i o' Hi. destruct (Hd i o' Hi) as [? ?]. split; [done|]. apply elem_of_remove1. split; [done|].
    intros ->. by apply (Ho i).
  - intros o' [Ho' _]%elem_of_remove1. auto.
  - intros E. by rewrite (Hm E).
Qed.

Lemma sync_object_tick k e o : core_inv k → is_Some (m_sync k !! o) → 0 ≤ e ≤ INT32_MAX →
  ∃ keep k', SyncObject_Tick e o k = Ok (keep, k') ∧ waiters_ok k e (waits_in (m_task_storage k) [o]) k' ∧
    (keep = false → ∀ j, waits_for (m_task_storage k') j ≠ Some o).
Proof.
  intros Hc [so Ho] He. destruct (sy_list _ _ _ _ (ci_sync k Hc) o so Ho) as [Hnd Hm].
  destruct (tick_waiters (so_wait_list so) k e o Hc Hnd) as (k' & E & W); [by intros i; apply Hm|done|].
  destruct (proj2 (wk_dom _ _ _ _ W o)) as [so' Ho']; [eauto|].
  unfold SyncObject_Tick. rewrite Ho. cbn [deref mbind res_bind]. rewrite E. cbn [mbind res_bind]. rewrite Ho'.
  eexists _, k'. split; [done|]. split.
  - eapply waiters_ok_ext; [done|]. intros j. unfold waits_in. cbn. apply eq_true_iff_eq. rewrite bool_decide_eq_true.
    rewrite Hm. destruct (waits_for _ j) as [o'|]; [|done]. rewrite bool_decide_eq_true, list_elem_of_singleton. naive_solver.
  - intros Hk j Hj. apply negb_false_iff, bool_decide_eq_true in Hk.
    apply (sy_list _ _ _ _ (ci_sync k' (wk_core _ _ _ _ W)) o so' Ho') in Hj. rewrite Hk in Hj. set_solver.
Qed.

Lemma update_sync_loop l : ∀ k e, core_inv k → NoDup l → (∀ o, o ∈ l → is_Some (m_sync k !! o)) →
  0 ≤ e ≤ INT32_MAX →
  ∃ k', UpdateSyncObjects_loop e l k = Ok k' ∧ waiters_ok k e (waits_in (m_task_storage k) l) k'.
Proof.
  induction l as [|o l IH]; intros k e Hc Hnd Hl He.
  { exists k. split; [done|]. eapply waiters_ok_ext; [by apply waiters_ok_refl|]. intros j. unfold waits_in.
    by destruct (waits_for _ j); [rewrite bool_decide_eq_false_2 by set_solver|]. }
  apply NoDup_cons in Hnd as [Hn Hnd].
  destruct (sync_object_tick k e o Hc) as (keep & k1 & E1 & W1 & Hkeep); [apply Hl; set_solver|done|].
  set (k1' := if keep then k1 else set_sync_list (list_remove1 o (m_sync_list k1)) k1).
  assert (W1' : waiters_ok k e (waits_in (m_task_storage k) [o]) k1').
  { unfold k1'. destruct keep; [done|]. destruct W1 as [F C D T]. split; [|by apply core_inv_unlist; [|apply Hkeep]|done|done].
    apply (f_equal (set_sync_list (list_remove1 o (m_sync_list k1)))) in F. exact F. }
  destruct (IH k1' e) as (k2 & E2 & W2); [apply W1'|done| |done|].
  { intros o' Ho'. apply (wk_dom _ _ _ _ W1'), Hl. set_solver. }
  exists k2. split.
  - cbn [UpdateSyncObjects_loop]. rewrite E1. done.
  - assert (Hd : ∀ j, waits_in (m_task_storage k) [o] j = true → waits_in (m_task_storage k1') l j = false).
    { intros j. unfold waits_in. destruct (waits_for (m_task_storage k1') j) as [o'|] eqn:E'; [|done].
      rewrite (waits_for_ticked _ _ _ _ _ _ W1' E'). rewrite bool_decide_eq_true, bool_decide_eq_false. set_solver. }
    eapply waiters_ok_trans; [done..| |done].
    intros j. destruct (waits_in (m_task_storage k) [o] j) eqn:Ew; cbn.
    + unfold waits_in in *. destruct (waits_for (m_task_storage k) j) as [o'|]; [|done].
      apply bool_decide_eq_true in Ew. apply bool_decide_eq_true. set_solver.
    + unfold waits_in in *. rewrite (waits_for_unticked _ _ _ _ j W1') by (unfold waits_in; done).
      destruct (waits_for (m_task_storage k) j) as [o'|]; [|done].
      apply bool_decide_eq_false in Ew. apply bool_decide_ext. set_solver.
Qed.

(** [UpdateSyncObjects] ticks every waiting task once. *)
Lemma update_sync_objects k e : core_inv k → 0 ≤ e ≤ INT32_MAX →
  ∃ k', UpdateSyncObjects e k = Ok k' ∧
    waiters_ok k e (λ j, match waits_for (m_task_storage k) j with Some _ => true | None => false end) k'.
Proof.
  intros Hc He. destruct Hc as [Hs Hy]. destruct (update_sync_loop (m_sync_list k) k e) as (k' & E & W); try done.
  - apply Hy.
  - intros o. apply (sy_known _ _ _ _ Hy).
  - exists k'. split; [done|]. eapply waiters_ok_ext; [done|]. intros j. unfold waits_in.
    destruct (waits_for _ j) as [o|] eqn:E'; [|done]. symmetry. apply bool_decide_eq_true. by eapply (sy_dom _ _ _ _ Hy).
Qed.
End sync.

End KernelSync.
