(* ===== verification/KernelTick.v ===== *)
(** * The tick handler and the scheduler's state machine

    The pass of [OnTick] over all tasks computes, slot by slot, the function
    [tick_task]; it never fails, and afterwards no ready task is asleep, which
    is what the state machine needs to pick the next task. *)

From S2P Require Import Prelude KernelTask Strategy Kernel KernelInv KernelSync.
Import KTask Strat Kernel KernelInv KernelSync.
Local Open Scope Z_scope.

Module KernelTick.

Section tick.
Context {S : Type} {ops : StrategyOps S} {HS : StrategySpec ops} (c : KernelCfg).
Context (Hcfg : st_cfg_ok c) (Hse : SLEEP_EVENT_API (cfg_strategy c) = true) (Hhrt : IsHrtMode c = false).
Context (STK_TICKLESS_TICKS_MAX : Z).
Implicit Types (k : Kernel S) (ts : list KernelTask) (s : S).

Definition members s : list nat := st_ready s ++ st_asleep s.

(** ** The pass over the tasks *)

(** Slot [j], holding [t] before the pass, after it. *)
Definition slot_after k k' (e : Z) (j : nat) (t : KernelTask) : Prop :=
  ∃ b : bool,
    m_task_storage k' !! j =
      Some (if IsSleeping t && IsDynamicMode c && IsPendingRemoval t && b then freed c (unyield c t)
            else tick_task c e t) ∧
    (m_task_now k ≠ Some j → b = true) ∧
    (b = true → m_task_now k = Some j → m_fsm_state k = FSM_STATE_SLEEPING).

Record pass_ok k (e : Z) (l : list nat) (n n' : Z) k' : Prop := {
  pk_frame : k' = set_strategy (m_strategy k') (set_tasks (m_task_storage k') k);
  pk_sched : sched_inv c (m_task_storage k') (m_strategy k') (m_task_now k);
  pk_done j t : j ∈ l → m_task_storage k !! j = Some t → slot_after k k' e j t;
  pk_awake j t : j ∈ l → j ∈ st_ready (m_strategy k') → m_task_storage k' !! j = Some t → IsSleeping t = false;
  pk_rest j : j ∉ l → m_task_storage k' !! j = m_task_storage k !! j ∧
    (j ∈ st_ready (m_strategy k') ↔ j ∈ st_ready (m_strategy k)) ∧
    (j ∈ st_asleep (m_strategy k') ↔ j ∈ st_asleep (m_strategy k));
  pk_now i : m_task_now k = Some i → i ∈ members (m_strategy k) → i ∈ members (m_strategy k') ∨
    IsDynamicMode c = true ∧ m_fsm_state k = FSM_STATE_SLEEPING ∧ members (m_strategy k') = [];
  pk_empty : members (m_strategy k) = [] → members (m_strategy k') = [];
  pk_idle : n' ≤ n ∧ (1 ≤ n → 1 ≤ n');
  pk_limit j t : IsTicklessMode c = true → j ∈ l → m_task_storage k' !! j = Some t → IsBusy t = true →
    n' ≤ Z.max 1 (idle_limit c t);
}.

Definition tick_pre k (e : Z) : Prop :=
  0 ≤ e ≤ INT32_MAX ∧ ∀ i t, m_task_storage k !! i = Some t → has t STATE_SLEEP_PENDING = true → e ≤ 1.

Lemma next_idle_le n t : next_idle c n t ≤ n ∧ (1 ≤ n → 1 ≤ next_idle c n t) ∧
  (IsTicklessMode c = true → IsBusy t = true → next_idle c n t ≤ Z.max 1 (idle_limit c t)).
Proof.
  unfold next_idle. destruct (IsTicklessMode c), (n >? 1) eqn:E, (IsBusy t); cbn [andb];
    rewrite ?Z.gtb_ltb, ?Z.ltb_lt, ?Z.ltb_ge in E; split_and!; intros; lia || done.
Qed.

Lemma removable_slot k i t : removable ops c k i t = true →
  IsSleeping t && IsDynamicMode c && IsPendingRemoval t = true ∧
  (m_task_now k = Some i → m_fsm_state k = FSM_STATE_SLEEPING ∧ st_GetSize ops (m_strategy k) = 1).
Proof.
  unfold removable. destruct (IsSleeping t && IsDynamicMode c && IsPendingRemoval t); [|done]. cbn [andb].
  unfold is_now. intros H. split; [done|]. intros E. rewrite bool_decide_eq_true_2 in H by done. cbn in H.
  apply andb_true_iff in H as [H1 H2]. by apply bool_decide_eq_true in H1, H2.
Qed.

Lemma not_removable_slot k i t : removable ops c k i t = false → m_task_now k ≠ Some i →
  IsSleeping t && IsDynamicMode c && IsPendingRemoval t = false.
Proof.
  unfold removable, is_now. intros H E. rewrite (bool_decide_eq_false_2 _ E) in H.
  by rewrite andb_true_r in H.
Qed.

(** Slot [i] after its own round. *)
Lemma ticked_slot k e i t : ∃ b : bool,
  ticked ops c k e i t = (if IsSleeping t && IsDynamicMode c && IsPendingRemoval t && b then freed c (unyield c t)
                      else tick_task c e t) ∧
  (m_task_now k ≠ Some i → b = true) ∧
  (b = true → m_task_now k = Some i → m_fsm_state k = FSM_STATE_SLEEPING).
Proof.
  unfold ticked. destruct (removable ops c k i t) eqn:Er.
  - exists true. destruct (removable_slot k i t Er) as [-> Hn]. split; [done|]. split; [done|]. intros _ E. by apply Hn.
  - destruct (decide (m_task_now k = Some i)) as [E|E].
    + exists false. rewrite andb_false_r. done.
    + exists true. by rewrite (not_removable_slot k i t Er E).
Qed.

Lemma size_one_empty k ts : st_inv c ts (m_strategy k) → st_GetSize ops (m_strategy k) = 1 →
  ∀ s', length (members (m_strategy k)) = (1 + length (members s'))%nat → members s' = [].
Proof.
  intros Hs Hsz s' Hl. rewrite (st_GetSize_spec c ts) in Hsz by done.
  apply length_zero_iff_nil. unfold members in *. lia.
Qed.

Lemma update_task_pass k e i t n : sched_inv c (m_task_storage k) (m_strategy k) (m_task_now k) →
  m_task_storage k !! i = Some t → tick_pre k e →
  ∃ k' n', UpdateTask ops c e i n k = Ok (n', k') ∧ pass_ok k e [i] n n' k'.
Proof.
  intros Hi Ht [He He1]. destruct (update_task c Hcfg Hse Hhrt k i t _ e n Hi Ht He (He1 i t Ht)) as (s' & E & Hi' & [Ho Ha Hm Hsz]).
  eexists _, _. split; [exact E|]. destruct (next_idle_le n (ticked ops c k e i t)) as (? & ? & Hlim).
  assert (Hput : ∀ u, m_task_storage (put_task i u k) !! i = Some u) by (intros; by apply (put_task_at k i t)).
  split; cbn [m_task_storage m_strategy set_strategy set_tasks].
  - done.
  - done.
  - intros j u ->%list_elem_of_singleton Hu. rewrite Ht in Hu. injection Hu as <-.
    destruct (ticked_slot k e i t) as (b & Eb & ?).
    exists b. rewrite <- Eb. split; [apply Hput|done].
  - intros j u ->%list_elem_of_singleton Hr Hu. rewrite Hput in Hu. injection Hu as <-. auto.
  - intros j Hj%not_elem_of_cons. destruct Hj as [Hj _]. rewrite put_task_ne by done.
    split; [done|]. by apply Ho.
  - intros j Hj Hjm. destruct (decide (j = i)) as [->|Hne].
    + destruct (removable ops c k i t) eqn:Er; [|left; by apply Hm].
      destruct (removable_slot k i t Er) as [Hd Hn]. destruct (Hn Hj) as [Hf H1]. right.
      split; [by destruct (IsSleeping t), (IsDynamicMode c)|]. split; [done|].
      by eapply size_one_empty; [apply Hi|..].
    + left. unfold members in *. rewrite elem_of_app in *. destruct (Ho j Hne) as [-> ->]. done.
  - unfold members. intros Hnil. rewrite Hnil in Hsz. cbn in Hsz. apply length_zero_iff_nil. lia.
  - done.
  - intros j u Htl ->%list_elem_of_singleton Hu Hb. rewrite Hput in Hu. injection Hu as <-. auto.
Qed.
Lemma pass_ok_nil k e n : sched_inv c (m_task_storage k) (m_strategy k) (m_task_now k) → pass_ok k e [] n n k.
Proof.
  intros Hi. split; try done; [by destruct k|..]; try (intros; set_solver).
Qed.

Lemma pass_ok_trans k1 k2 k3 e l1 l2 n1 n2 n3 : (∀ j, j ∈ l1 → j ∉ l2) →
  pass_ok k1 e l1 n1 n2 k2 → pass_ok k2 e l2 n2 n3 k3 → pass_ok k1 e (l1 ++ l2) n1 n3 k3.
Proof.
  intros Hd [F1 S1 D1 A1 R1 N1 E1 I1 L1] [F2 S2 D2 A2 R2 N2 E2 I2 L2].
  assert (En : m_task_now k2 = m_task_now k1) by (by rewrite F1).
  assert (Ef : m_fsm_state k2 = m_fsm_state k1) by (by rewrite F1).
  split.
  - rewrite F2 at 1. rewrite F1 at 1. done.
  - by rewrite <- En.
  - intros j t [Hj|Hj]%elem_of_app Ht.
    + destruct (D1 j t Hj Ht) as (b & Eb & ?). exists b. by rewrite (proj1 (R2 j (Hd j Hj))).
    + assert (Hj1 : j ∉ l1) by (intros ?; by apply (Hd j)).
      destruct (D2 j t Hj) as (b & Eb & Hb); [by rewrite (proj1 (R1 j Hj1))|]. rewrite En, Ef in Hb. by exists b.
  - intros j t [Hj|Hj]%elem_of_app Hr Ht; [|by eapply A2].
    destruct (R2 j (Hd j Hj)) as (Et & Er & _). rewrite Et in Ht. rewrite Er in Hr. by eapply A1.
  - intros j Hj. rewrite elem_of_app in Hj. destruct (R1 j) as (<- & <- & <-); [tauto|]. apply R2. tauto.
  - intros i Hi Hm. destruct (N1 i Hi Hm) as [Hm2|(? & ? & Hm2)]; [|right; auto].
    rewrite <- Ef. apply N2; [by rewrite En|done].
  - auto.
  - lia.
  - intros j t Htl [Hj|Hj]%elem_of_app Ht Hb; [|by apply (L2 j)].
    rewrite (proj1 (R2 j (Hd j Hj))) in Ht. specialize (L1 j t Htl Hj Ht Hb). lia.
Qed.

Lemma tick_pre_pass k k' e l n n' : pass_ok k e l n n' k' → tick_pre k e →
  (∀ i t, i ∉ l → m_task_storage k' !! i = Some t → has t STATE_SLEEP_PENDING = true → e ≤ 1) → tick_pre k' e.
Proof.
  intros [? Hs ? Ha ? ? ? ? ?] [He He1] Hr. split; [done|]. intros i t Ht Hp.
  destruct (decide (i ∈ l)) as [Hi|Hi]; [|by eapply Hr].
  apply (tk_pending _ _ _ _ _ (si_task c _ _ _ Hs i t Ht)) in Hp as [Hr1 Hsl].
  rewrite (Ha i t Hi Hr1 Ht) in Hsl. done.
Qed.

Lemma update_tasks_loop l : ∀ k e n, NoDup l → (∀ i, i ∈ l → is_Some (m_task_storage k !! i)) →
  sched_inv c (m_task_storage k) (m_strategy k) (m_task_now k) → tick_pre k e →
  ∃ k' n', UpdateTaskState_loop ops c e l n k = Ok (n', k') ∧ pass_ok k e l n n' k'.
Proof.
  induction l as [|i l IH]; intros k e n Hnd Hsl Hi Hpre.
  { exists k, n. split; [done|]. by apply pass_ok_nil. }
  apply NoDup_cons in Hnd as [Hn Hnd]. destruct (Hsl i) as [t Ht]; [set_solver|].
  destruct (update_task_pass k e i t n Hi Ht Hpre) as (k1 & n1 & E1 & P1).
  destruct (IH k1 e n1) as (k2 & n2 & E2 & P2); [done|..].
  - intros j Hj. destruct (pk_rest _ _ _ _ _ _ P1 j) as (-> & _); [set_solver|]. apply Hsl. set_solver.
  - assert (En : m_task_now k1 = m_task_now k) by (by rewrite (pk_frame _ _ _ _ _ _ P1)).
    rewrite En. apply (pk_sched _ _ _ _ _ _ P1).
  - eapply tick_pre_pass; [done..|]. intros j u Hj. rewrite (proj1 (pk_rest _ _ _ _ _ _ P1 j Hj)). apply Hpre.
  - exists k2, n2. cbn [UpdateTaskState_loop]. rewrite E1. cbn [mbind res_bind]. split; [done|].
    apply (pass_ok_trans k k1 k2 e [i] l n n1 n2); [set_solver|done..].
Qed.

(** The whole pass. *)
Definition idle_start : Z := if IsTicklessMode c then STK_TICKLESS_TICKS_MAX else 1.

Lemma update_task_state k e : sched_inv c (m_task_storage k) (m_strategy k) (m_task_now k) → tick_pre k e →
  ∃ k' n', UpdateTaskState ops c STK_TICKLESS_TICKS_MAX e k = Ok (n', k') ∧
    pass_ok k e (seq 0 (length (m_task_storage k))) idle_start n' k' ∧
    all_awake (m_task_storage k') (m_strategy k').
Proof.
  intros Hi Hpre.
  destruct (update_tasks_loop (seq 0 (length (m_task_storage k))) k e idle_start) as (k' & n' & E & P); try done.
  - apply NoDup_seq.
  - intros i Hs. apply lookup_lt_is_Some_2. apply elem_of_seq in Hs. lia.
  - exists k', n'. split_and!; [done..|]. intros i t Hr Ht.
    destruct (decide (i ∈ seq 0 (length (m_task_storage k)))) as [Hs|Hs]; [by eapply (pk_awake _ _ _ _ _ _ P)|].
    rewrite (proj1 (pk_rest _ _ _ _ _ _ P i Hs)) in Ht. destruct Hs.
    apply elem_of_seq. apply lookup_lt_Some in Ht. lia.
Qed.
(** ** Both passes *)

(** What a tick makes of a task that is not removed by it. *)
Definition full_tick (e : Z) (t : KernelTask) : KernelTask :=
  tick_task c e (if IsSyncMode c && IsWaiting (m_wait_obj t) then tick_waiter e t else t).

Record ticked_all k (e : Z) (n' : Z) k' : Prop := {
  ta_core : core_inv c k';
  ta_awake : all_awake (m_task_storage k') (m_strategy k');
  ta_frame : m_task_now k' = m_task_now k ∧ m_fsm_state k' = m_fsm_state k ∧ m_kstate k' = m_kstate k ∧
    m_ticks k' = m_ticks k;
  ta_slot j t : m_task_storage k !! j = Some t → ∃ b : bool,
    m_task_storage k' !! j =
      Some (if IsSleeping t && IsDynamicMode c && IsPendingRemoval t && b then freed c (unyield c t)
            else full_tick e t) ∧
    (m_task_now k ≠ Some j → b = true) ∧
    (b = true → m_task_now k = Some j → m_fsm_state k = FSM_STATE_SLEEPING);
  ta_dom j : m_task_storage k !! j = None → m_task_storage k' !! j = None;
  ta_now i : m_task_now k = Some i → i ∈ members (m_strategy k) → i ∈ members (m_strategy k') ∨
    IsDynamicMode c = true ∧ m_fsm_state k = FSM_STATE_SLEEPING ∧ members (m_strategy k') = [];
  ta_idle : n' ≤ idle_start ∧ (1 ≤ idle_start → 1 ≤ n');
  ta_limit j t : IsTicklessMode c = true → m_task_storage k' !! j = Some t → IsBusy t = true →
    n' ≤ Z.max 1 (idle_limit c t);
}.

Lemma tick_waiter_flags e t f : f ≠ STATE_WAKE_PENDING → has (tick_waiter e t) f = has t f.
Proof.
  intros Hf. unfold tick_waiter, wait_woken. destruct (_ =? _); [done|]. destruct (_ <=? _); [|done].
  by rewrite (proj2 (proj2 (proj2 (proj2 (woken_same _)))) f Hf).
Qed.

(** The pass over the tasks does not touch the wait objects. *)
Lemma pass_waits k e n n' k' : pass_ok k e (seq 0 (length (m_task_storage k))) n n' k' →
  ∀ j, waits_for (m_task_storage k') j = waits_for (m_task_storage k) j.
Proof.
  intros P j. unfold waits_for. destruct (m_task_storage k !! j) as [t|] eqn:Ht.
  - destruct (pk_done _ _ _ _ _ _ P j t) as (b & -> & _); [|done|].
    { apply elem_of_seq. apply lookup_lt_Some in Ht. lia. }
    cbn. destruct (_ && b); [|by rewrite tick_task_wait].
    destruct (freed_free c (unyield c t)) as (_ & _ & _ & ->). by destruct (unyield_same c t) as (_ & _ & -> & _).
  - destruct (pk_rest _ _ _ _ _ _ P j) as (-> & _); [|by rewrite Ht]. intros Hj%elem_of_seq.
    apply lookup_ge_None in Ht. lia.
Qed.

Lemma sync_pass k e : core_inv c k → tick_pre k e →
  ∃ k1, (if IsSyncMode c then UpdateSyncObjects e k else Ok k) = Ok k1 ∧
    waiters_ok c k e (λ j, IsSyncMode c && bool_decide (is_Some (waits_for (m_task_storage k) j))) k1.
Proof.
  intros Hc Hpre. destruct (IsSyncMode c).
  - destruct (update_sync_objects c k e Hc (proj1 Hpre)) as (k1 & E & W). exists k1. split; [done|].
    eapply waiters_ok_ext; [done|]. intros j. cbn. by destruct (waits_for _ j).
  - exists k. split; [done|]. by apply waiters_ok_refl.
Qed.

Lemma update_tasks k e : core_inv c k → tick_pre k e →
  ∃ k' n', UpdateTasks ops c STK_TICKLESS_TICKS_MAX e k = Ok (n', k') ∧ ticked_all k e n' k'.
Proof.
  intros Hc Hpre. destruct (sync_pass k e Hc Hpre) as (k1 & E1 & [F1 C1 D1 T1]).
  assert (En : m_task_now k1 = m_task_now k) by (by rewrite F1).
  assert (Ef : m_fsm_state k1 = m_fsm_state k) by (by rewrite F1).
  assert (Es : m_strategy k1 = m_strategy k) by (by rewrite F1).
  destruct (update_task_state k1 e) as (k' & n' & E & P & Ha); [apply C1| |].
  { split; [apply Hpre|]. intros i u. rewrite T1. destruct (m_task_storage k !! i) as [t|] eqn:Ht; cbn; [|done].
    intros [= <-]. destruct (_ && _); rewrite ?tick_waiter_flags by done; by apply (proj2 Hpre i). }
  exists k', n'. split; [unfold UpdateTasks; rewrite E1; done|].
  assert (F' := pk_frame _ _ _ _ _ _ P).
  assert (En' : m_task_now k' = m_task_now k1) by (by rewrite F').
  assert (El : m_sync_list k' = m_sync_list k1) by (by rewrite F').
  assert (Ey : m_sync k' = m_sync k1) by (by rewrite F').
  split.
  - split; [rewrite En'; apply P|]. rewrite El, Ey. eapply sync_inv_ext; [by eapply pass_waits|apply C1].
  - done.
  - rewrite F', F1. done.
  - intros j t Ht. set (u := if IsSyncMode c && IsWaiting (m_wait_obj t) then tick_waiter e t else t).
    assert (Hu : m_task_storage k1 !! j = Some u).
    { rewrite T1, Ht. unfold waits_for. rewrite Ht. cbn. unfold u, IsWaiting. f_equal.
      by destruct (m_sync_obj (m_wait_obj t)), (IsSyncMode c). }
    destruct (pk_done _ _ _ _ _ _ P j u) as (b & Eb & Hb); [|done|].
    { apply elem_of_seq. apply lookup_lt_Some in Hu. lia. }
    rewrite En, Ef in Hb. exists b. split; [|done]. rewrite Eb. unfold full_tick. fold u.
    assert (Hp : IsPendingRemoval u = IsPendingRemoval t) by (unfold u; destruct (_ && _); [by apply tick_waiter_flags|done]).
    rewrite Hp. destruct (IsPendingRemoval t) eqn:Epr; [|by rewrite !andb_false_r].
    assert (Eu : u = t); [|by rewrite Eu].
    unfold u. destruct (so_parked t (ci_self c k j t Hc Ht)) as [_ ->]; [auto|]. by rewrite andb_false_r.
  - intros j Hj. assert (Hj1 : m_task_storage k1 !! j = None) by (by rewrite T1, Hj).
    destruct (pk_rest _ _ _ _ _ _ P j) as (-> & _); [|done]. intros Hs%elem_of_seq. apply lookup_ge_None in Hj1. lia.
  - rewrite <- Es, <- En, <- Ef. apply (pk_now _ _ _ _ _ _ P).
  - apply (pk_idle _ _ _ _ _ _ P).
  - intros j t Htl Ht. apply (pk_limit _ _ _ _ _ _ P j t Htl); [|done].
    destruct (decide (j ∈ seq 0 (length (m_task_storage k1)))) as [|Hj]; [done|].
    rewrite (proj1 (pk_rest _ _ _ _ _ _ P j Hj)) in Ht. apply elem_of_seq. apply lookup_lt_Some in Ht. lia.
Qed.
(** ** The state machine *)

Lemma sched_inv_perm ts s s' now : st_inv c ts s' → st_ready s' ≡ₚ st_ready s → st_asleep s' ≡ₚ st_asleep s →
  sched_inv c ts s now → sched_inv c ts s' now.
Proof.
  intros Hs HR HA [_ Hl Ht]. split; [done| |].
  - intros i. rewrite HR, HA. apply Hl.
  - intros i t Hi. eapply task_ok_perm; [by symmetry|by symmetry|by apply Ht].
Qed.

Lemma core_inv_perm k s' : core_inv c k → st_inv c (m_task_storage k) s' →
  st_ready s' ≡ₚ st_ready (m_strategy k) → st_asleep s' ≡ₚ st_asleep (m_strategy k) → core_inv c (set_strategy s' k).
Proof. intros [Hs Hy] Hi HR HA. split; [|done]. by eapply sched_inv_perm. Qed.

Lemma core_inv_now k now : core_inv c k → all_awake (m_task_storage k) (m_strategy k) → core_inv c (set_now now k).
Proof. intros [Hs Hy] Ha. split; [|done]. by eapply sched_inv_now. Qed.

(** What one run of the state machine does, [a] being the current task. *)
Inductive fsm_outcome k (a : nat) k' : SwitchResult → Prop :=
| fsm_run b : b ∈ st_ready (m_strategy k) → m_task_now k' = Some b →
    m_fsm_state k ≠ FSM_STATE_SLEEPING → m_fsm_state k' = FSM_STATE_SWITCHING →
    fsm_outcome k a k' (if bool_decide (b = a) then no_switch else mkSwitch true (StackTask a) (StackTask b))
| fsm_wake b : b ∈ st_ready (m_strategy k) → m_task_now k' = Some b →
    m_fsm_state k = FSM_STATE_SLEEPING → m_fsm_state k' = FSM_STATE_WAKING →
    fsm_outcome k a k' (mkSwitch true StackSleepTrap (StackTask b))
| fsm_sleep b : st_ready (m_strategy k) = [] → b ∈ members (m_strategy k) → m_task_now k' = Some b →
    m_fsm_state k ≠ FSM_STATE_SLEEPING → m_fsm_state k' = FSM_STATE_SLEEPING →
    fsm_outcome k a k' (mkSwitch true (StackTask a) StackSleepTrap)
| fsm_idle : st_ready (m_strategy k) = [] → m_fsm_state k = FSM_STATE_SLEEPING → m_task_now k' = Some a →
    m_fsm_state k' = FSM_STATE_SLEEPING → fsm_outcome k a k' no_switch
| fsm_exit : IsDynamicMode c = true → members (m_strategy k) = [] → m_task_now k' = None →
    m_fsm_state k' = FSM_STATE_EXITING → fsm_outcome k a k' (mkSwitch false StackNull StackExitTrap).

(** The rest of the kernel is as before. *)
Record fsm_frame k k' : Prop := {
  ff_same : m_task_storage k' = m_task_storage k ∧ m_kstate k' = m_kstate k ∧ m_ticks k' = m_ticks k ∧
    m_sync_list k' = m_sync_list k ∧ m_sync k' = m_sync k;
  ff_ready : st_ready (m_strategy k') ≡ₚ st_ready (m_strategy k);
  ff_asleep : st_asleep (m_strategy k') ≡ₚ st_asleep (m_strategy k);
}.

Lemma fetch_event k : core_inv c k → all_awake (m_task_storage k) (m_strategy k) →
  ∃ s' next, FetchNextEvent ops c k =
      Ok (match next with
          | Some _ => if bool_decide (m_fsm_state k = FSM_STATE_SLEEPING) then FSM_EVENT_WAKE else FSM_EVENT_SWITCH
          | None => if IsDynamicMode c && bool_decide (members (m_strategy k) = []) then FSM_EVENT_EXIT else FSM_EVENT_SLEEP
          end, next, set_strategy s' k) ∧
    core_inv c (set_strategy s' k) ∧ all_awake (m_task_storage k) s' ∧ fsm_frame k (set_strategy s' k) ∧
    match next with None => st_ready (m_strategy k) = [] | Some i => i ∈ st_ready (m_strategy k) end.
Proof.
  intros Hc Ha. destruct (st_GetNext_spec c (m_task_storage k) (m_strategy k)) as (next & s' & E & Hs' & HR & HA & Hn);
    [done|apply (ci_sched c k Hc)|by eapply all_awake_runnable; [apply (ci_sched c k Hc)|]|].
  exists s', next. assert (Hc' : core_inv c (set_strategy s' k)) by (by apply core_inv_perm).
  split; [|split_and!; [done| |done..]].
  - unfold FetchNextEvent. rewrite (strat_ask_ok k _ next s') by done. cbn [mbind res_bind]. destruct next as [i|].
    + destruct (si_get c _ _ _ i (ci_sched c k Hc)) as (t & Ht & _); [set_solver|].
      rewrite (task_at_ok _ i t) by done. cbn [mbind res_bind]. by rewrite (Ha i t Hn Ht).
    + cbn [m_strategy set_strategy]. rewrite (st_GetSize_spec c (m_task_storage k)) by done.
      assert (Eb : bool_decide (Z.of_nat (length (st_ready s' ++ st_asleep s')) = 0) = bool_decide (members (m_strategy k) = [])).
      { apply bool_decide_ext. unfold members. rewrite HR, HA. rewrite <- length_zero_iff_nil. lia. }
      by rewrite Eb.
  - intros i t Hi. apply Ha. by rewrite <- HR.
Qed.
Lemma transition_some k a b : core_inv c k → all_awake (m_task_storage k) (m_strategy k) → m_task_now k = Some a →
  running_state (m_fsm_state k) → a ∈ members (m_strategy k) → b ∈ st_ready (m_strategy k) →
  ∃ r k', Transition ops c (Some a)
      (m_fsm (m_fsm_state k) (if bool_decide (m_fsm_state k = FSM_STATE_SLEEPING) then FSM_EVENT_WAKE else FSM_EVENT_SWITCH))
      (Some b) k = Ok (r, k') ∧ kernel_inv c k' ∧ fsm_frame k k' ∧ fsm_outcome k a k' r.
Proof.
  intros Hc Ha Hnow Hrun Hm Hb. assert (Hbm : b ∈ members (m_strategy k)) by (unfold members; set_solver).
  assert (Hinv : ∀ f, f = FSM_STATE_SWITCHING ∨ f = FSM_STATE_WAKING → kernel_inv c (set_fsm f (set_now (Some b) k))).
  { intros f Hf. destruct (core_inv_now k (Some b) Hc Ha). split; [done..|].
    split; cbn; [split; [done|unfold running_state; tauto]|by destruct Hf as [-> | ->]]. }
  destruct (decide (m_fsm_state k = FSM_STATE_SLEEPING)) as [Ef|Ef].
  - rewrite (bool_decide_eq_true_2 _ Ef), Ef. cbn [m_fsm Transition StateWake mbind res_bind]. eexists _, _.
    split; [done|]. split_and!; [by apply Hinv; right|done|by eapply fsm_wake].
  - assert (Efs : m_fsm (m_fsm_state k) FSM_EVENT_SWITCH = FSM_STATE_SWITCHING) by (by destruct Hrun as [-> | [? | ->]]).
    rewrite (bool_decide_eq_false_2 _ Ef), Efs. cbn [Transition StateSwitch].
    destruct (si_get c _ _ _ a (ci_sched c k Hc) Hm) as (t & Ht & _).
    exists (if bool_decide (b = a) then no_switch else mkSwitch true (StackTask a) (StackTask b)),
      (set_fsm FSM_STATE_SWITCHING (set_now (Some b) k)).
    split; [|split_and!; [by apply Hinv; left|done|by eapply fsm_run]].
    destruct (decide (b = a)) as [->|Hne].
    + rewrite bool_decide_eq_true_2 by done. cbn. rewrite <- Hnow. by destruct k.
    + rewrite bool_decide_eq_false_2 by done. cbn [negb]. rewrite (task_at_ok _ a t) by done.
      cbn [mbind res_bind]. by rewrite Hhrt.
Qed.

Lemma transition_none k a : core_inv c k → all_awake (m_task_storage k) (m_strategy k) → m_task_now k = Some a →
  running_state (m_fsm_state k) → IsLocked k = false → a ∈ members (m_strategy k) → st_ready (m_strategy k) = [] →
  ∃ r k', Transition ops c (Some a) (m_fsm (m_fsm_state k) FSM_EVENT_SLEEP) None k = Ok (r, k') ∧
    kernel_inv c k' ∧ fsm_frame k k' ∧ fsm_outcome k a k' r.
Proof.
  intros Hc Ha Hnow Hrun Hlk Hm Hr. destruct (decide (m_fsm_state k = FSM_STATE_SLEEPING)) as [Ef|Ef].
  - rewrite Ef. cbn [m_fsm Transition]. eexists _, _. split; [done|]. split_and!; [|done|by apply fsm_idle].
    destruct Hc. split; [done..|]. by split; [rewrite Hnow|].
  - assert (Efs : m_fsm (m_fsm_state k) FSM_EVENT_SLEEP = FSM_STATE_SLEEPING) by (by destruct Hrun as [-> | [? | ->]]).
    rewrite Efs. cbn [Transition StateSleep].
    destruct (st_GetFirst_spec c (m_task_storage k) (m_strategy k)) as (b & Eb & Hb);
      [done|apply (ci_sched c k Hc)|by intros Hnil; unfold members in Hm; rewrite Hnil in Hm; set_solver|].
    rewrite Eb. cbn [mbind res_bind]. destruct (si_get c _ _ _ a (ci_sched c k Hc) Hm) as (t & Ht & _).
    rewrite (task_at_ok _ a t) by done. cbn [mbind res_bind]. rewrite Hhrt. cbn [andb].
    eexists _, _. split; [done|]. split_and!; [|done|by eapply (fsm_sleep _ _ _ b)].
    destruct (core_inv_now k (Some b) Hc Ha). split; [done..|]. split; cbn; [|done].
    split; [done|]. by right; left.
Qed.

(** The outcome only depends on the tasks the strategy holds. *)
Lemma outcome_perm k s' a k' r : fsm_frame k (set_strategy s' k) →
  fsm_frame (set_strategy s' k) k' → fsm_outcome (set_strategy s' k) a k' r → fsm_frame k k' ∧ fsm_outcome k a k' r.
Proof.
  intros [_ HR HA] [Hs HR' HA'] Ho. cbn in *. split; [split; [done|by rewrite HR'|by rewrite HA']|].
  assert (Hnil : st_ready s' = [] → st_ready (m_strategy k) = [])
    by (intros E; rewrite E in HR; by apply Permutation_nil in HR).
  assert (Hm : members s' ≡ₚ members (m_strategy k)) by (unfold members; by rewrite HR, HA).
  destruct Ho as [b Hb|b Hb|b Hb Hb'|Hb|Hd Hb]; cbn in *.
  - apply fsm_run; [by rewrite <- HR|done..].
  - apply fsm_wake; [by rewrite <- HR|done..].
  - eapply fsm_sleep; [auto|by rewrite <- Hm|done..].
  - apply fsm_idle; auto.
  - apply fsm_exit; try done. rewrite Hb in Hm. by apply Permutation_nil in Hm.
Qed.

Lemma fsm_step k a : core_inv c k → all_awake (m_task_storage k) (m_strategy k) → m_task_now k = Some a →
  running_state (m_fsm_state k) → (st_ready (m_strategy k) = [] → IsLocked k = false) →
  (a ∈ members (m_strategy k) ∨
    IsDynamicMode c = true ∧ m_fsm_state k = FSM_STATE_SLEEPING ∧ members (m_strategy k) = []) →
  ∃ r k', UpdateFsmState ops c k = Ok (r, k') ∧ kernel_inv c k' ∧ fsm_frame k k' ∧ fsm_outcome k a k' r.
Proof.
  intros Hc Ha Hnow Hrun Hlk Hm. destruct (fetch_event k Hc Ha) as (s' & next & E & Hc' & Ha' & Hf & Hnext).
  assert (Hval : IsValidFsmState (m_fsm_state k) = true) by (by destruct Hrun as [-> | [-> | ->]]).
  assert (HR := ff_ready _ _ Hf). assert (HA := ff_asleep _ _ Hf). cbn in HR, HA.
  unfold UpdateFsmState, GetNewFsmState. rewrite Hval. cbn [stk_assert]. rewrite E. cbn [mbind res_bind].
  cbn [m_fsm_state set_strategy]. rewrite Hnow. set (k1 := set_strategy s' k) in *.
  assert (Hm1 : ∀ x, x ∈ members (m_strategy k) → x ∈ members (m_strategy k1)).
  { intros x. unfold members, k1. cbn. by rewrite HR, HA. }
  destruct next as [b|].
  - destruct (transition_some k1 a b) as (r & k' & E' & Hi & Hf' & Ho); [done..| |unfold k1; cbn; by rewrite HR|].
    { destruct Hm as [?|(_ & _ & Em)]; [auto|]. unfold members in Em. apply app_nil in Em as [Em _]. rewrite Em in Hnext. set_solver. }
    exists r, k'. by destruct (outcome_perm k s' a k' r Hf Hf' Ho).
  - destruct (decide (members (m_strategy k) = [])) as [Em|Em].
    + destruct Hm as [Hm|(Hd & Ef & _)]; [rewrite Em in Hm; set_solver|].
      rewrite (bool_decide_eq_true_2 _ Em), Hd, Ef. cbn [andb m_fsm Transition]. unfold StateExit. rewrite Hd.
      eexists _, _. split; [done|]. split_and!; [|by destruct Hf|by apply fsm_exit].
      destruct (core_inv_now k1 None Hc' Ha'). split; [done..|]. split; cbn; [|done]. by right.
    + destruct Hm as [Hm|(_ & _ & ?)]; [|done]. rewrite (bool_decide_eq_false_2 _ Em), andb_false_r.
      destruct (transition_none k1 a) as (r & k' & E' & Hi & Hf' & Ho); [done..|by apply Hlk|auto| |].
      { unfold k1. cbn. apply Permutation_nil. by rewrite HR, Hnext. }
      exists r, k'. by destruct (outcome_perm k s' a k' r Hf Hf' Ho).
Qed.
End tick.

End KernelTick.
