(* ===== verification/KernelSafe.v ===== *)
(** * No operation of the kernel fails

    For every operation: from a state that satisfies the invariant, and under
    the precondition the API documents, the operation returns and the invariant
    holds again.  The operations are composed into runs of the system, and the
    invariant is proved for every reachable state. *)

From S2P Require Import Prelude KernelTask Strategy Kernel KernelInv KernelSync KernelTick.
Import KTask Strat Kernel KernelInv KernelSync KernelTick.
Local Open Scope Z_scope.

Module KernelSafe.

Section safe.
Context {S : Type} {ops : StrategyOps S} {HS : StrategySpec ops} (c : KernelCfg).
Context (Hcfg : st_cfg_ok c) (Hse : SLEEP_EVENT_API (cfg_strategy c) = true) (Hhrt : IsHrtMode c = false).
Context (STK_TICKLESS_TICKS_MAX WordSize : Z).
Implicit Types (k : Kernel S) (ts : list KernelTask) (s : S).

Lemma kernel_core k : kernel_inv c k → core_inv c k.
Proof. intros [? ? _]. by split. Qed.
Lemma kernel_of_core k : core_inv c k → now_inv k → kernel_inv c k.
Proof. intros [? ?] ?. by split. Qed.

(** ** The tick *)

(** The time slice of the running task does not underflow.  (It only keeps
    falling while the scheduler is locked.) *)
Definition slice_pre k (e : Z) : Prop :=
  ∀ i t, m_task_storage k !! i = Some t → INT32_MIN + e ≤ left_ (m_ts t).

(** The tasks are the same up to their time slices. *)
Definition sliced (e : Z) ts ts' : Prop :=
  ∀ j, ts' !! j = ts !! j ∨
    ∃ t sl, ts !! j = Some t ∧ ts' !! j = Some (with_ts sl t) ∧ left_ (m_ts t) - e ≤ left_ sl.

Lemma full_tick_ts e t : m_ts (full_tick c e t) = m_ts t.
Proof.
  unfold full_tick, tick_task, tick_sleeping, count_down, tick_waiter, wait_woken, woken, unyield, settle.
  repeat case_match; done.
Qed.

Lemma core_inv_ts k i t sl : core_inv c k → m_task_storage k !! i = Some t →
  0 ≤ quantum sl ≤ INT32_MAX → left_ sl ≤ quantum sl → core_inv c (put_task i (with_ts sl t) k).
Proof.
  intros Hc Ht Hq Hl. assert (Hs := ci_self c k i t Hc Ht). apply (core_inv_neutral c k i t); try done.
  destruct Hs. split; done.
Qed.

Record slice_ok (e : Z) k k' : Prop := {
  sk_core : core_inv c k';
  sk_awake : all_awake (m_task_storage k') (m_strategy k');
  sk_frame : m_task_now k' = m_task_now k ∧ m_fsm_state k' = m_fsm_state k ∧ m_kstate k' = m_kstate k ∧
    m_ticks k' = m_ticks k;
  sk_ready : st_ready (m_strategy k') ≡ₚ st_ready (m_strategy k);
  sk_asleep : st_asleep (m_strategy k') ≡ₚ st_asleep (m_strategy k);
  sk_tasks : sliced e (m_task_storage k) (m_task_storage k');
}.

Lemma slice_ok_refl e k : core_inv c k → all_awake (m_task_storage k) (m_strategy k) → slice_ok e k k.
Proof. intros. split; try done. by left. Qed.

Lemma slice_ok_put e k i t sl : core_inv c k → all_awake (m_task_storage k) (m_strategy k) →
  m_task_storage k !! i = Some t → 0 ≤ quantum sl ≤ INT32_MAX → left_ sl ≤ quantum sl →
  left_ (m_ts t) - e ≤ left_ sl → slice_ok e k (put_task i (with_ts sl t) k).
Proof.
  intros Hc Ha Ht Hq Hl Hle. assert (Hlt : (i < length (m_task_storage k))%nat) by (by eapply lookup_lt_Some).
  split; try done; [by apply core_inv_ts|..].
  - intros j u Hr. cbn. destruct (decide (j = i)) as [->|Hne].
    + rewrite list_lookup_insert_eq by done. intros [= <-]. by apply (Ha i t).
    + rewrite list_lookup_insert_ne by done. by apply Ha.
  - intros j. cbn. destruct (decide (j = i)) as [->|Hne].
    + right. exists t, sl. by rewrite list_lookup_insert_eq.
    + left. by rewrite list_lookup_insert_ne.
Qed.

Lemma update_timeslice k e : core_inv c k → all_awake (m_task_storage k) (m_strategy k) →
  (∀ i, m_task_now k = Some i → is_Some (m_task_storage k !! i)) → 0 ≤ e ≤ INT32_MAX → slice_pre k e →
  ∃ k', (if IsTimesliceMode c then UpdateTimeslice ops c e k else Ok k) = Ok k' ∧ slice_ok e k k'.
Proof.
  intros Hc Ha Hnow He Hpre. destruct (IsTimesliceMode c); [|exists k; split; [done|by apply slice_ok_refl]].
  unfold UpdateTimeslice. destruct (m_task_now k) as [i|] eqn:En; [|exists k; split; [done|by apply slice_ok_refl]].
  destruct (Hnow i eq_refl) as [t Ht]. rewrite (task_at_ok k i t Ht). cbn [mbind res_bind].
  destruct (_ && _ && _ && _) eqn:Ec; [|exists k; split; [done|by apply slice_ok_refl]].
  assert (Hb : IsBusy t = true) by (by repeat (apply andb_true_iff in Ec as [Ec ?])).
  destruct (so_ts t (ci_self c k i t Hc Ht)) as [Hq Hl]. assert (Hp := Hpre i t Ht). unfold i32.
  rewrite bool_decide_eq_true_2 by (unfold in_i32, INT32_MIN, INT32_MAX in *; lia). cbn [mbind res_bind].
  destruct (negb (IsLocked k) && _).
  - set (sl := TsInfo_Reload _). assert (Hk1 := slice_ok_put e k i t sl Hc Ha Ht).
    destruct Hk1 as [C1 A1 F1 R1 S1 T1]; [done|cbn; lia..|]. set (k1 := put_task i _ k) in *.
    destruct (st_OnTaskTimeSlice_spec c (m_task_storage k1) (m_strategy k1) i) as (b & s' & E & Hs' & HR & HA);
      [done|apply (ci_sched c k1 C1)|by eapply (si_member c); [apply (ci_sched c k Hc)|..]|].
    rewrite (strat_ask_ok k1 _ b s') by done. cbn [mbind res_bind]. eexists. split; [done|].
    split; cbn; try done; [by apply core_inv_perm|]. intros j u Hj. apply A1. by rewrite <- HR.
  - eexists. split; [done|]. apply slice_ok_put; cbn; try done; lia.
Qed.
(** What the scheduler has chosen. *)
Definition dispatched k : Prop :=
  match m_task_now k with
  | None => m_fsm_state k = FSM_STATE_EXITING ∧ members (m_strategy k) = []
  | Some b =>
      (m_fsm_state k = FSM_STATE_SWITCHING ∨ m_fsm_state k = FSM_STATE_WAKING) ∧ b ∈ st_ready (m_strategy k) ∨
      m_fsm_state k = FSM_STATE_SLEEPING ∧ st_ready (m_strategy k) = []
  end.

Lemma outcome_dispatched k a k' r : fsm_frame k k' → fsm_outcome c k a k' r → dispatched k'.
Proof.
  intros [_ HR HA] Ho. unfold dispatched.
  assert (Hnil : st_ready (m_strategy k) = [] → st_ready (m_strategy k') = [])
    by (intros E; rewrite E in HR; by symmetry in HR; apply Permutation_nil in HR).
  assert (Hin : ∀ b, b ∈ st_ready (m_strategy k) → b ∈ st_ready (m_strategy k')) by (intros b; by rewrite HR).
  destruct Ho as [b Hb ->|b Hb ->|b Hb Hb' ->|Hb _ ->|Hd Hb ->]; [auto..|].
  split; [done|]. assert (Hm : members (m_strategy k') ≡ₚ members (m_strategy k)) by (unfold members; by rewrite HR, HA).
  rewrite Hb in Hm. symmetry in Hm. by apply Permutation_nil in Hm.
Qed.

(** The task that has the processor; in the sleep and exit traps there is none. *)
Definition running k : option nat :=
  match m_fsm_state k with FSM_STATE_SWITCHING | FSM_STATE_WAKING => m_task_now k | _ => None end.

(** The state machine asks the strategy once, and its answer is what runs. *)
Lemma fsm_pick k r k' : running_state (m_fsm_state k) → UpdateFsmState ops c k = Ok (r, k') →
  st_GetNext ops c (m_task_storage k, m_strategy k) = Ok (running k', (m_task_storage k', m_strategy k')).
Proof.
  intros Hrun. unfold UpdateFsmState, GetNewFsmState, FetchNextEvent, strat_ask. intros H. inv_res.
  match goal with H : st_GetNext _ _ _ = Ok (?n, _) |- _ => destruct n as [b|] end; inv_res.
  - case_bool_decide as Es; cbn [m_fsm_state set_strategy set_tasks] in Es.
    + rewrite Es in H. cbn in H. inv_res. done.
    + destruct Hrun as [Ef|[Ef|Ef]]; [|done|]; rewrite Ef in H; cbn in H; unfold StateSwitch in H;
        (destruct (m_task_now k) as [a'|] eqn:En; [|done]); (destruct (decide (b = a')) as [->|Hne];
        [rewrite bool_decide_eq_true_2 in H by done; cbn in H; injection H as _ <-; unfold running; cbn; by rewrite En|]);
        rewrite bool_decide_eq_false_2 in H by done; cbn in H; inv_res; rewrite Hhrt in *; cbn [andb] in *; by inv_res.
  - destruct (IsDynamicMode c && _) eqn:Ex; destruct Hrun as [Ef|[Ef|Ef]]; rewrite Ef in H; cbn in H;
      unfold StateExit, StateSleep in H; rewrite ?Hhrt in H; cbn [andb] in H;
      try (destruct (m_task_now k) as [a|] eqn:En; [|done]); try (destruct (IsDynamicMode c); [|done]);
      inv_res; unfold running; cbn; by rewrite ?Ef.
Qed.

(** Which stacks the platform has to switch, if any: [f] is the state of the
    machine and [a] the current task before, [k'] the kernel after. *)
Definition switch_spec (f : EFsmState) (a : nat) k' : SwitchResult :=
  match m_task_now k' with
  | None => mkSwitch false StackNull StackExitTrap
  | Some b =>
      if bool_decide (m_fsm_state k' = FSM_STATE_SLEEPING) then
        if bool_decide (f = FSM_STATE_SLEEPING) then no_switch else mkSwitch true (StackTask a) StackSleepTrap
      else if bool_decide (f = FSM_STATE_SLEEPING) then mkSwitch true StackSleepTrap (StackTask b)
      else if bool_decide (b = a) then no_switch else mkSwitch true (StackTask a) (StackTask b)
  end.

Lemma outcome_switch k a k' r : fsm_outcome c k a k' r → r = switch_spec (m_fsm_state k) a k'.
Proof.
  unfold switch_spec. destruct 1 as [b _ -> Ef ->|b _ -> -> ->|b _ _ -> Ef ->|_ -> -> ->|_ _ -> _]; try done.
  - rewrite (bool_decide_eq_false_2 _ Ef). done.
  - by rewrite (bool_decide_eq_false_2 _ Ef).
Qed.

(** The effect of a tick. *)
Record tick_effect k (e : Z) (r : SwitchResult) (n : Z) k' : Prop := {
  te_slot j t : m_task_storage k !! j = Some t → ∃ (b : bool) t',
    t' = (if IsSleeping t && IsDynamicMode c && IsPendingRemoval t && b then freed c (unyield c t)
          else full_tick c e t) ∧
    (m_task_storage k' !! j = Some t' ∨
      ∃ sl, m_task_storage k' !! j = Some (with_ts sl t') ∧ left_ (m_ts t') - e ≤ left_ sl) ∧
    (m_task_now k ≠ Some j → b = true) ∧
    (b = true → m_task_now k = Some j → m_fsm_state k = FSM_STATE_SLEEPING);
  te_length : length (m_task_storage k') = length (m_task_storage k);
  te_awake : all_awake (m_task_storage k') (m_strategy k');
  te_ticks : m_ticks k' = m_ticks k + e;
  te_kstate : m_kstate k' = m_kstate k;
  te_dispatch : IsLocked k = false → dispatched k';
  te_switch a : IsLocked k = false → m_task_now k = Some a → r = switch_spec (m_fsm_state k) a k';
  te_pick : IsLocked k = false → ∃ k1 k2,
    UpdateTasks ops c STK_TICKLESS_TICKS_MAX e (set_ticks (m_ticks k + e) k) = Ok (n, k1) ∧
    (if IsTimesliceMode c then UpdateTimeslice ops c e k1 else Ok k1) = Ok k2 ∧
    st_GetNext ops c (m_task_storage k2, m_strategy k2) = Ok (running k', (m_task_storage k', m_strategy k'));
  te_locked : IsLocked k = true → r = no_switch ∧ m_task_now k' = m_task_now k ∧ m_fsm_state k' = m_fsm_state k;
  te_idle : n ≤ idle_start c STK_TICKLESS_TICKS_MAX ∧ (1 ≤ idle_start c STK_TICKLESS_TICKS_MAX → 1 ≤ n);
  te_limit j t : IsTicklessMode c = true → m_task_storage k' !! j = Some t → IsBusy t = true →
    n ≤ Z.max 1 (idle_limit c t);
}.

Lemma sliced_idle e ts ts' j t' : sliced e ts ts' → ts' !! j = Some t' →
  ∃ t, ts !! j = Some t ∧ IsBusy t = IsBusy t' ∧ idle_limit c t = idle_limit c t'.
Proof. intros Hs Hj. destruct (Hs j) as [E|(t & sl & E & E' & _)]; [rewrite <- E; eauto|]. rewrite E' in Hj. simplify_eq. eauto. Qed.

Lemma tick_effect_intro k k1 k2 k3 e n r : ticked_all c STK_TICKLESS_TICKS_MAX (set_ticks (m_ticks k + e) k) e n k1 →
  slice_ok e k1 k2 → m_task_storage k3 = m_task_storage k2 →
  st_ready (m_strategy k3) ≡ₚ st_ready (m_strategy k2) → m_ticks k3 = m_ticks k2 → m_kstate k3 = m_kstate k2 →
  (IsLocked k = false → dispatched k3) →
  (∀ a, IsLocked k = false → m_task_now k = Some a → r = switch_spec (m_fsm_state k) a k3) →
  (IsLocked k = false → ∃ k1 k2,
    UpdateTasks ops c STK_TICKLESS_TICKS_MAX e (set_ticks (m_ticks k + e) k) = Ok (n, k1) ∧
    (if IsTimesliceMode c then UpdateTimeslice ops c e k1 else Ok k1) = Ok k2 ∧
    st_GetNext ops c (m_task_storage k2, m_strategy k2) = Ok (running k3, (m_task_storage k3, m_strategy k3))) →
  (IsLocked k = true → r = no_switch ∧ m_task_now k3 = m_task_now k2 ∧ m_fsm_state k3 = m_fsm_state k2) →
  tick_effect k e r n k3.
Proof.
  intros [C1 A1 F1 S1 D1 N1 I1 L1] [C2 A2 F2 R2 P2 T2] Et HR Etk Eks Hd Hsw Hpk Hlk.
  destruct F1 as (Fn & Ff & Fk & Ft), F2 as (Gn & Gf & Gk & Gt). cbn in Fn, Ff, Fk, Ft. split.
  - intros j t Ht. destruct (S1 j t Ht) as (b & Eb & Hb). exists b. eexists. split; [done|]. split; [|done].
    rewrite Et. destruct (T2 j) as [-> |(u & sl & Hu & -> & Hle)]; [by left|]. right. exists sl. rewrite Eb in Hu. by injection Hu as <-.
  - apply same_length. intros j. rewrite Et. destruct (m_task_storage k !! j) as [t|] eqn:Ht.
    + destruct (S1 j t Ht) as (b & Eb & _). destruct (T2 j) as [-> |(u & sl & _ & -> & _)]; [rewrite Eb|]; split; eauto.
    + specialize (D1 j Ht). destruct (T2 j) as [-> |(u & sl & Hu & _)]; [by rewrite D1|congruence].
  - intros j t Hj. rewrite Et. apply A2. by rewrite <- HR.
  - by rewrite Etk, Gt, Ft.
  - by rewrite Eks, Gk, Fk.
  - done.
  - done.
  - done.
  - intros H. destruct (Hlk H) as (? & -> & ->). by rewrite Gn, Gf, Fn, Ff.
  - done.
  - intros j t Htl Hj Hb. rewrite Et in Hj. destruct (sliced_idle _ _ _ j t T2 Hj) as (u & Hu & Eb & El).
    rewrite <- El. apply (L1 j u); [done..|by rewrite Eb].
Qed.

Lemma on_tick k a e : kernel_inv c k → m_task_now k = Some a → tick_pre k e → slice_pre k e →
  ∃ r n k', OnTick ops c STK_TICKLESS_TICKS_MAX e k = Ok (r, n, k') ∧ kernel_inv c k' ∧ tick_effect k e r n k'.
Proof.
  intros Hk Hnow Hpre Hsp. set (k0 := set_ticks (m_ticks k + e) k).
  assert (Hc0 : core_inv c k0) by (by destruct (kernel_core k Hk)).
  destruct (ki_now c k Hk) as [Hn Hl]. rewrite Hnow in Hn. destruct Hn as [Hm Hrun].
  destruct (update_tasks c Hcfg Hse Hhrt STK_TICKLESS_TICKS_MAX k0 e Hc0 Hpre) as (k1 & n & E1 & T1).
  destruct (ta_frame _ _ _ _ _ _ T1) as (Fn & Ff & Fk & Ft). cbn in Fn, Ff, Fk, Ft. unfold k0 in Fn, Ff, Fk; cbn in Fn, Ff, Fk.
  destruct (si_get c _ _ _ a (ki_sched c k Hk) Hm) as (ta & Hta & _ & _).
  destruct (update_timeslice k1 e) as (k2 & E2 & T2); [apply T1|apply T1| |apply Hpre| |].
  { intros i. rewrite Fn, Hnow. intros [= <-]. destruct (ta_slot _ _ _ _ _ _ T1 a ta Hta) as (? & -> & _). eauto. }
  { intros i t Ht. destruct (m_task_storage k !! i) as [u|] eqn:Hu; [|by rewrite (ta_dom _ _ _ _ _ _ T1 i Hu) in Ht].
    destruct (ta_slot _ _ _ _ _ _ T1 i u Hu) as (b & Eb & _). rewrite Eb in Ht. injection Ht as <-.
    destruct (_ && b); [|rewrite full_tick_ts; by apply (Hsp i)]. unfold freed.
    destruct (unyield_same c u) as (_ & _ & _ & _ & Eu & _).
    destruct (IsTimesliceMode c); cbn; [destruct Hpre; unfold NO_TIME_SLICE, INT32_MIN, INT32_MAX in *; lia|].
    rewrite Eu. by apply (Hsp i). }
  destruct (sk_frame _ _ _ T2) as (Gn & Gf & Gk & Gt).
  unfold OnTick. fold k0. rewrite E1. cbn [mbind res_bind]. rewrite E2. cbn [mbind res_bind].
  assert (Elk : IsLocked k2 = IsLocked k) by (unfold IsLocked; by rewrite Gk, Fk).
  assert (Hm2 : ∀ x, x ∈ members (m_strategy k2) ↔ x ∈ members (m_strategy k1)).
  { intros x. unfold members. by rewrite (sk_ready _ _ _ T2), (sk_asleep _ _ _ T2). }
  assert (Hn1 := ta_now _ _ _ _ _ _ T1 a Hnow Hm). cbn in Hn1. rewrite Elk. destruct (IsLocked k) eqn:El; cbn [negb].
  - (* locked: the current task stays *)
    destruct Hn1 as [Hn1|(_ & Hf & _)]; [|specialize (Hl Hf); congruence].
    exists no_switch, n, k2. split; [done|]. split.
    + apply kernel_of_core; [apply T2|]. split; rewrite Gf, Ff.
      * rewrite Gn, Fn, Hnow. split; [by apply Hm2|done].
      * intros Hf. specialize (Hl Hf); congruence.
    + apply (tick_effect_intro k k1 k2 k2); try done; intros; congruence.
  - destruct (fsm_step c Hcfg Hse Hhrt k2 a) as (r & k3 & E3 & Hi3 & Hf3 & Ho3);
      [apply T2|apply T2|by rewrite Gn, Fn|by rewrite Gf, Ff|done| |].
    { destruct Hn1 as [Hn1|(? & ? & Hn1)]; [left; by apply Hm2|]. right. rewrite Gf, Ff. split_and!; [done..|].
      destruct (members (m_strategy k2)) as [|x m] eqn:Em; [done|]. exfalso.
      assert (Hx : x ∈ members (m_strategy k1)) by (apply Hm2; set_solver). rewrite Hn1 in Hx. set_solver. }
    rewrite E3. cbn [mbind res_bind]. exists r, n, k3. split; [done|]. split; [done|].
    destruct (ff_same _ _ Hf3) as (? & ? & ? & _).
    apply (tick_effect_intro k k1 k2 k3); try done; [apply Hf3| | | |intros; congruence].
    + intros _. by eapply outcome_dispatched.
    + intros x _ Hx. rewrite Hnow in Hx. injection Hx as <-. rewrite <- Ff, <- Gf. by apply outcome_switch.
    + intros _. exists k1, k2. split_and!; [done..|]. eapply fsm_pick; [|done]. by rewrite Gf, Ff.
Qed.
(** ** Giving up the processor *)

Lemma now_inv_same k k' : now_inv k → m_task_now k' = m_task_now k → m_fsm_state k' = m_fsm_state k →
  m_kstate k' = m_kstate k → (∀ x, x ∈ members (m_strategy k) → x ∈ members (m_strategy k')) → now_inv k'.
Proof.
  intros [Hn Hl] E1 E2 E3 Hm. split.
  - rewrite E1, E2. destruct (m_task_now k); [|done]. destruct Hn. split; [by apply Hm|done].
  - rewrite E2. unfold IsLocked. rewrite E3. done.
Qed.

(** Only the current task can be ready and asleep. *)
Lemma all_awake_now k a : core_inv c k → m_task_now k = Some a →
  (∀ t, m_task_storage k !! a = Some t → a ∈ st_ready (m_strategy k) → IsSleeping t = false) →
  all_awake (m_task_storage k) (m_strategy k).
Proof.
  intros [Hs _] Hn Ha i t Hr Ht. destruct (decide (i = a)) as [->|Hne]; [by apply Ha|].
  destruct (IsSleeping t) eqn:E; [|done]. rewrite Hn in Hs.
  destruct (tk_now _ _ _ _ _ (si_task c _ _ _ Hs i t Ht) Hr E); naive_solver.
Qed.

Lemma same_others_members i s s' : same_others i s s' → i ∈ st_ready s' ++ st_asleep s' →
  ∀ x, x ∈ members s → x ∈ members s'.
Proof.
  intros Ho Hi x. unfold members. destruct (decide (x = i)) as [->|Hne]; [done|].
  rewrite !elem_of_app. by destruct (Ho x Hne) as [-> ->].
Qed.

(** [ProcessTaskPendingSleep] and the invariant. *)
Lemma process_sleep_core k i t : core_inv c k → m_task_storage k !! i = Some t → i ∈ st_ready (m_strategy k) →
  IsSleeping t = true →
  ∃ k', ProcessTaskPendingSleep ops c i k = Ok k' ∧ core_inv c k' ∧ same_others i (m_strategy k) (m_strategy k') ∧
    i ∈ st_asleep (m_strategy k') ∧ m_task_storage k' = <[i := settle t]> (m_task_storage k) ∧
    m_task_now k' = m_task_now k ∧ m_fsm_state k' = m_fsm_state k ∧ m_kstate k' = m_kstate k ∧ m_ticks k' = m_ticks k.
Proof.
  intros [Hs Hy] Ht Hr Hsl. destruct (process_sleep c Hcfg Hse k i t _ Hs Ht Hr Hsl) as (s' & E & Hi & Ho & Ha & _).
  eexists. split; [exact E|]. split_and!; try done. split; [done|]. cbn.
  eapply sync_inv_ext; [|exact Hy]. by apply (waits_for_same _ i t).
Qed.

(** What the forced switch does: the caller sleeps (or yields) and the scheduler
    picks the next task. *)
Record force_effect k k' (a : nat) (r : SwitchResult) (f : KernelTask → KernelTask) : Prop := {
  fe_tasks t : m_task_storage k !! a = Some t → m_task_storage k' = <[a := f t]> (m_task_storage k);
  fe_ticks : m_ticks k' = m_ticks k;
  fe_dispatch : dispatched k';
  fe_awake : all_awake (m_task_storage k') (m_strategy k');
  fe_switch : r = switch_spec (m_fsm_state k) a k';
  fe_pick : ∃ k2, ProcessTaskPendingSleep ops c a (if bool_decide (m_kstate k = KSTATE_LOCKED) then set_kstate KSTATE_RUNNING k else k) = Ok k2 ∧
    st_GetNext ops c (m_task_storage k2, m_strategy k2) = Ok (running k', (m_task_storage k', m_strategy k'));
}.

Lemma force_switch k a t : kernel_inv c k → m_task_now k = Some a → m_task_storage k !! a = Some t →
  has t STATE_SLEEP_PENDING = true →
  ∃ r k', OnForceContextSwitch ops c (GetTid t) k = Ok (r, k') ∧ kernel_inv c k' ∧ force_effect k k' a r settle ∧
    m_task_now k' ≠ None.
Proof.
  intros Hk Hn Ht Hp. assert (Hc := kernel_core k Hk).
  assert (Hok := si_task c _ _ _ (ci_sched c k Hc) a t Ht). destruct (proj1 (tk_pending _ _ _ _ _ Hok) Hp) as [Hr Hsl].
  unfold OnForceContextSwitch. rewrite Hn, (task_at_ok k a t Ht). cbn [mbind res_bind].
  rewrite bool_decide_eq_true_2, Hsl, Hp by done.
  set (k1 := if bool_decide (m_kstate k = KSTATE_LOCKED) then set_kstate KSTATE_RUNNING k else k).
  assert (Hc1 : core_inv c k1) by (unfold k1; destruct Hc; by destruct (bool_decide _)).
  assert (E1 : m_task_storage k1 = m_task_storage k ∧ m_strategy k1 = m_strategy k ∧ m_task_now k1 = m_task_now k ∧
    m_fsm_state k1 = m_fsm_state k ∧ m_ticks k1 = m_ticks k ∧ IsLocked k1 = false).
  { unfold k1, IsLocked. case_bool_decide as E; [done|]. split_and!; try done. by apply bool_decide_eq_false. }
  destruct E1 as (Et & Es & En & Ef & Etk & El).
  destruct (process_sleep_core k1 a t) as (k2 & E2 & Hc2 & Ho2 & Ha2 & Ht2 & Hn2 & Hf2 & Hk2 & Htk2);
    [done|by rewrite Et|by rewrite Es|done|].
  rewrite E2. cbn [mbind res_bind]. destruct (ki_now c k Hk) as [Hnn _]. rewrite Hn in Hnn. destruct Hnn as [Hm Hrun].
  assert (Haw : all_awake (m_task_storage k2) (m_strategy k2)).
  { eapply all_awake_now; [done|by rewrite Hn2, En|]. intros u _ Hr2.
    by destruct (si_disjoint c _ _ _ a (ci_sched c k2 Hc2) Hr2). }
  destruct (fsm_step c Hcfg Hse Hhrt k2 a) as (r & k3 & E3 & Hi3 & Hf3 & Ho3); try done.
  - by rewrite Hn2, En.
  - by rewrite Hf2, Ef.
  - unfold IsLocked in *. by rewrite Hk2.
  - left. unfold members. set_solver.
  - exists r, k3. split; [done|]. split; [done|]. split.
    + destruct (ff_same _ _ Hf3) as (Eq & _ & Eq2 & _). split; [|by rewrite Eq2, Htk2|by eapply outcome_dispatched| | |].
      * intros u Hu. simplify_eq. by rewrite Eq, Ht2, Et.
      * intros j u. rewrite (ff_ready _ _ Hf3), Eq. apply Haw.
      * rewrite <- Ef, <- Hf2. by apply outcome_switch.
      * exists k2. split; [done|]. eapply fsm_pick; [|done]. by rewrite Hf2, Ef.
    + destruct Ho3 as [? ? -> | ? ? -> | ? ? ? -> | ? ? -> | ? Hnil]; try done. unfold members in Hnil.
      apply app_nil in Hnil as [_ Hnil]. rewrite Hnil in Ha2. set_solver.
Qed.
Lemma kernel_inv_neutral k i t t' : kernel_inv c k → m_task_storage k !! i = Some t → same_weight t t' →
  self_ok t' → IsSleeping t' = IsSleeping t → has t' STATE_SLEEP_PENDING = has t STATE_SLEEP_PENDING →
  m_sync_obj (m_wait_obj t') = m_sync_obj (m_wait_obj t) → kernel_inv c (put_task i t' k).
Proof.
  intros Hk Ht Hw Hs E1 E2 E3. apply kernel_of_core; [|by eapply now_inv_same; [apply (ki_now c k Hk)|..]].
  by apply (core_inv_neutral c k i t); [apply kernel_core|..].
Qed.

(** Flags that say nothing about sleeping. *)
Lemma self_ok_flag t t' : self_ok t → IsBusy t = true →
  m_user t' = m_user t → m_time_sleep t' = m_time_sleep t → m_hrt t' = m_hrt t → m_wait_obj t' = m_wait_obj t →
  m_ts t' = m_ts t → has t' STATE_SUSPENDED = has t STATE_SUSPENDED → IsPendingRemoval t' = IsPendingRemoval t →
  has t' STATE_SUSPEND_PENDING = has t STATE_SUSPEND_PENDING → self_ok t'.
Proof.
  intros [] Hb E1 E2 E3 E4 E5 E6 E7 E8. split; unfold IsBusy, GetTid, IsSleeping in *;
    rewrite ?E1, ?E2, ?E3, ?E4, ?E5, ?E6, ?E7, ?E8; try done. rewrite Hb. done.
Qed.

Lemma force_any k a id : kernel_inv c k → m_task_now k = Some a →
  ∃ r k', OnForceContextSwitch ops c id k = Ok (r, k') ∧ kernel_inv c k'.
Proof.
  intros Hk Hn. assert (Hc := kernel_core k Hk). destruct (ki_now c k Hk) as [Hnn Hlk]. rewrite Hn in Hnn.
  destruct Hnn as [Hm Hrun]. destruct (si_get c _ _ _ a (ci_sched c k Hc) Hm) as (t & Ht & Hb & Hok).
  destruct (decide (GetTid t = id ∧ has t STATE_SLEEP_PENDING = true)) as [[<- Hp]|Hno].
  { destruct (force_switch k a t Hk Hn Ht Hp) as (r & k' & E & ? & _). eauto. }
  unfold OnForceContextSwitch. rewrite Hn, (task_at_ok k a t Ht). cbn [mbind res_bind].
  case_bool_decide as Eid; [|eauto]. destruct (IsSleeping t) eqn:Hsl.
  { destruct (has t STATE_SLEEP_PENDING) eqn:Hp; [by destruct Hno|eauto]. }
  destruct (NOSLEEP_YIELD_API (cfg_strategy c) && has t STATE_YIELD_PENDING); [|eauto].
  rewrite (mod_task_ok k a t) by done. cbn [mbind res_bind].
  set (t' := lower STATE_YIELD_PENDING t).
  assert (Hc1 : core_inv c (put_task a t' k)).
  { apply (core_inv_neutral c k a t); try done; [|unfold t'; by ktask].
    apply (self_ok_flag t); try done; [apply Hok|unfold t'; by ktask..]. }
  destruct (fsm_step c Hcfg Hse Hhrt (put_task a t' k) a) as (r & k3 & E3 & Hi3 & _); try done.
  - eapply all_awake_now; [done|done|]. intros u. rewrite (put_task_at k a t) by done. by intros [= <-].
  - intros Hnil. assert (Hr : a ∈ st_ready (m_strategy k)); [|cbn in Hnil; rewrite Hnil in Hr; set_solver].
    destruct (proj1 (tk_busy _ _ _ _ _ Hok) Hb) as [?|Ha]; [done|].
    rewrite (tk_asleep _ _ _ _ _ Hok Ha) in Hsl. done.
  - by left.
  - rewrite E3. eauto.
Qed.
(** ** Going to sleep *)

(** [ScheduleSleep]. *)
Definition slept (n : Z) (t : KernelTask) : KernelTask :=
  let t := if negb (IsSleeping t) then raise STATE_SLEEP_PENDING t else t in
  let t := with_sleep (- n) t in
  if IsTimesliceMode c then with_ts (TsInfo_Reload (m_ts t)) t else t.

Lemma ScheduleSleep_ok n t : 0 < n → ScheduleSleep c n t = Ok (slept n t).
Proof. intros Hn. unfold ScheduleSleep. by rewrite bool_decide_eq_true_2. Qed.

Lemma slept_same n t : same_weight t (slept n t) ∧ m_time_sleep (slept n t) = - n ∧
  m_wait_obj (slept n t) = m_wait_obj t ∧ m_hrt (slept n t) = m_hrt t ∧ quantum (m_ts (slept n t)) = quantum (m_ts t) ∧
  (left_ (m_ts t) ≤ quantum (m_ts t) → left_ (m_ts (slept n t)) ≤ quantum (m_ts t)) ∧
  has (slept n t) STATE_SLEEP_PENDING = negb (IsSleeping t) || has t STATE_SLEEP_PENDING ∧
  ∀ f, f ≠ STATE_SLEEP_PENDING → has (slept n t) f = has t f.
Proof.
  unfold slept. destruct (IsSleeping t), (IsTimesliceMode c); cbn [negb]; split_and!; try done; ktask; try done;
    intros f Hf; rewrite has_set_flag, bool_decide_eq_false_2; congruence || done.
Qed.

Lemma slept_self n t : self_ok t → IsBusy t = true → 0 < n ≤ INT32_MAX →
  (n = WAIT_INFINITE ∨ IsWaiting (m_wait_obj t) = false ∧ has t STATE_SUSPENDED = false ∧ IsPendingRemoval t = false) →
  self_ok (slept n t).
Proof.
  intros [] Hb Hn Hw. destruct (slept_same n t) as ((Eu & _) & Es & Ew & Eh & Eq & El & _ & Ef).
  assert (Hb' : IsBusy (slept n t) = true) by (unfold IsBusy in *; by rewrite Eu).
  split; unfold IsPendingRemoval, IsSleeping in *; rewrite ?Hb', ?Es, ?Ew, ?Eh, ?Eq, ?Ef by done; try done.
  - intros _. unfold GetTid, IsBusy in *. rewrite Eu. auto.
  - lia.
  - intros H. destruct (so_wait0 H) as (? & ? & ?). split_and!; try done; try lia.
    destruct Hw as [->|(? & _)]; [done|congruence].
  - intros H. destruct (so_parked0 H) as (? & ?). destruct Hw as [->|(_ & ? & ?)]; [done|]. destruct H; congruence.
  - intros _. lia.
  - split; [tauto|]. apply El. tauto.
Qed.

(** An awake task goes to sleep; it stays with the ready tasks until its
    pending sleep is processed. *)
Lemma sleep_core k i t n : core_inv c k → m_task_storage k !! i = Some t → IsBusy t = true → IsSleeping t = false →
  m_task_now k = None ∨ m_task_now k = Some i → 0 < n ≤ INT32_MAX → core_inv c (put_task i (slept n t) k).
Proof.
  intros [Hs Hy] Ht Hb Hsl Hn Hnr. assert (Hok := si_task c _ _ _ Hs i t Ht). assert (Hself := tk_self _ _ _ _ _ Hok).
  destruct (slept_same n t) as (Hw & Es & Ew & _ & _ & _ & Ep & _).
  assert (Hslp : IsSleeping (slept n t) = true) by (unfold IsSleeping; rewrite Es; apply Z.ltb_lt; lia).
  split; cbn.
  - apply (sched_inv_put c _ _ _ i t); [done..|]. destruct Hok as [_ H1 H2 H3 H4]. split.
    + apply slept_self; try done. right.
      assert (Hni : m_time_sleep t ≠ - WAIT_INFINITE) by (intros E; unfold IsSleeping in Hsl; by rewrite E in Hsl).
      split_and!.
      * destruct (IsWaiting _) eqn:E; [|done]. by destruct (so_wait t Hself E).
      * destruct (has t STATE_SUSPENDED) eqn:E; [|done]. destruct (so_parked t Hself); auto; done.
      * destruct (IsPendingRemoval t) eqn:E; [|done]. destruct (so_parked t Hself); auto; done.
    + unfold IsBusy in *. destruct Hw as (-> & _). done.
    + rewrite Ep, Hsl, Hslp. cbn. split; [|done]. intros _. split; [|done].
      destruct (proj1 H1 Hb) as [?|Ha]; [done|]. rewrite (H3 Ha) in Hsl. done.
    + done.
    + naive_solver.
  - eapply sync_inv_ext; [|exact Hy]. apply (waits_for_same _ i t); [done|]. by rewrite Ew.
Qed.

Lemma sleep_kernel k i t n : kernel_inv c k → m_task_storage k !! i = Some t → IsBusy t = true → IsSleeping t = false →
  m_task_now k = None ∨ m_task_now k = Some i → 0 < n ≤ INT32_MAX → kernel_inv c (put_task i (slept n t) k).
Proof.
  intros Hk. intros. apply kernel_of_core; [by apply sleep_core; [apply kernel_core|..]|].
  by eapply now_inv_same; [apply (ki_now c k Hk)|..].
Qed.
(** ** Calls of the running task *)

(** Task [i] executes with its stack pointer at [SP]. *)
Record executes k (SP : Z) (i : nat) (t : KernelTask) : Prop := {
  ex_now : m_task_now k = Some i;
  ex_task : m_task_storage k !! i = Some t;
  ex_stack : IsMemoryOfSP WordSize SP t = Ok true;
  ex_awake : IsSleeping t = false;
}.

Lemma caller_ok k SP i t : executes k SP i t → caller c WordSize SP k = Ok i.
Proof.
  intros [Hn Ht Hm _]. unfold caller, FindTaskBySP. rewrite Hn, (task_at_ok k i t Ht). cbn [mbind res_bind]. by rewrite Hm.
Qed.

Lemma executes_busy k SP i t : executes k SP i t → IsBusy t = true.
Proof. intros [_ _ Hm _]. unfold IsMemoryOfSP in Hm. unfold IsBusy. by destruct (m_user t). Qed.

Lemma executes_started k SP i t : executes k SP i t → IsStarted k = true.
Proof. intros [Hn _ _ _]. unfold IsStarted. by rewrite Hn. Qed.

Lemma sleep_impl k SP i t n : kernel_inv c k → executes k SP i t → n ≤ INT32_MAX →
  ∃ k', OnTaskSleepImpl c i n k = Ok (bool_decide (0 < n), k') ∧ kernel_inv c k' ∧
    k' = (if bool_decide (0 < n) then put_task i (slept n t) k else k).
Proof.
  intros Hk Hx Hn. unfold OnTaskSleepImpl. rewrite Hhrt. cbn [mbind res_bind]. case_bool_decide as Hp; [|eauto].
  rewrite (upd_task_ok k i t (slept n t)); [|apply Hx|by apply ScheduleSleep_ok]. cbn [mbind res_bind].
  eexists. split; [done|]. split; [|done].
  apply sleep_kernel; [done|apply Hx|by eapply executes_busy|apply Hx|right; apply Hx|lia].
Qed.

Lemma service_sleep k SP i t n : kernel_inv c k → executes k SP i t → IsLocked k = false → 0 ≤ n ≤ INT32_MAX →
  ∃ k', Service_Sleep c WordSize false SP n k = Ok (bool_decide (0 < n), k') ∧ kernel_inv c k' ∧
    k' = (if bool_decide (0 < n) then put_task i (slept n t) k else k).
Proof.
  intros Hk Hx Hl Hn. unfold Service_Sleep, OnTaskSleep. rewrite (executes_started k SP i t Hx), Hl, Hhrt.
  rewrite (proj2 (Z.leb_le 0 n)) by lia. cbn [stk_assert negb]. rewrite (caller_ok k SP i t Hx).
  cbn [mbind res_bind]. apply (sleep_impl k SP); [done..|lia].
Qed.

Lemma service_sleep_until k SP i t stamp : kernel_inv c k → executes k SP i t → IsLocked k = false → 0 ≤ stamp →
  ∃ k', Service_SleepUntil c WordSize false SP stamp k = Ok (bool_decide (m_ticks k < stamp), k') ∧ kernel_inv c k' ∧
    k' = (if bool_decide (m_ticks k < stamp) then put_task i (slept (Z.min (stamp - m_ticks k) WAIT_INFINITE) t) k else k).
Proof.
  intros Hk Hx Hl Hst. unfold Service_SleepUntil, OnTaskSleepUntil. rewrite (executes_started k SP i t Hx), Hl, Hhrt.
  rewrite (proj2 (Z.leb_le 0 stamp)) by lia. cbn [stk_assert negb]. rewrite (caller_ok k SP i t Hx). cbn [mbind res_bind].
  rewrite (bool_decide_ext (0 < stamp - m_ticks k) (m_ticks k < stamp)) by lia. case_bool_decide as Hp; [|eauto].
  set (n := Z.min _ _). assert (Hn : 0 < n ≤ INT32_MAX) by (unfold n, WAIT_INFINITE, INT32_MAX; lia).
  rewrite (upd_task_ok k i t (slept n t)); [|apply Hx|apply ScheduleSleep_ok; lia]. cbn [mbind res_bind].
  eexists. split; [done|]. split; [|done].
  apply sleep_kernel; [done|apply Hx|by eapply executes_busy|apply Hx|right; apply Hx|lia].
Qed.

Lemma service_yield k SP i t : kernel_inv c k → executes k SP i t → IsLocked k = false →
  ∃ k', Service_SwitchToNext ops c WordSize false SP k = Ok k' ∧ kernel_inv c k'.
Proof.
  intros Hk Hx Hl. unfold Service_SwitchToNext, OnTaskSwitch. rewrite Hl. cbn [stk_assert negb]. rewrite Hhrt.
  assert (Hc := kernel_core k Hk). destruct (NOSLEEP_YIELD_API (cfg_strategy c)) eqn:Ey; cbn [andb negb].
  2: { unfold OnTaskSleep. rewrite (caller_ok k SP i t Hx). cbn [mbind res_bind].
       destruct (sleep_impl k SP i t YIELD_TICKS) as (k' & -> & ? & _); [done..|]. eauto. }
  rewrite (caller_ok k SP i t Hx). cbn [mbind res_bind]. rewrite (task_at_ok k i t) by apply Hx. cbn [mbind res_bind].
  rewrite (ex_awake _ _ _ _ Hx). cbn [negb].
  destruct (st_OnTaskYield_spec c (m_task_storage k) (m_strategy k) i) as (b & s' & E & Hs' & HR & HA);
    [done|apply (ci_sched c k Hc)|by eapply (si_member c); [apply (ci_sched c k Hc)|apply Hx|by eapply executes_busy]|].
  rewrite (strat_ask_ok k _ b s') by done. cbn [mbind res_bind].
  assert (Hk1 : kernel_inv c (set_strategy s' k)).
  { apply kernel_of_core; [by apply core_inv_perm|]. eapply now_inv_same; [apply (ki_now c k Hk)|done..|].
    intros x. unfold members. cbn. by rewrite HR, HA. }
  assert (Hx1 : executes (set_strategy s' k) SP i t) by (by destruct Hx).
  destruct b.
  - rewrite (mod_task_ok _ i t) by apply Hx1. cbn [mbind res_bind]. eexists. split; [done|].
    assert (Hself := ci_self c k i t Hc (ex_task _ _ _ _ Hx)). assert (Hb := executes_busy _ _ _ _ Hx).
    apply (kernel_inv_neutral _ i t); [done|apply Hx1|unfold ScheduleYield; rewrite Ey; destruct (IsTimesliceMode c)..]; try done.
    1-2: destruct Hself; split; ktask; try done; intros; congruence || lia.
    all: unfold ScheduleYield; ktask; done.
  - cbn [mbind res_bind]. destruct (sleep_impl (set_strategy s' k) SP i t YIELD_TICKS) as (k' & -> & ? & _); [done..|]. eauto.
Qed.
(** ** Parking another task *)

Lemma sched_inv_weaken ts s now : sched_inv c ts s now → sched_inv c ts s None.
Proof. intros [Hs Hl Ht]. split; [done..|]. intros i t Hi. destruct (Ht i t Hi). split; try done. by left. Qed.

Lemma sched_inv_restore ts s now : sched_inv c ts s None →
  (∀ i t, i ∈ st_ready s → ts !! i = Some t → IsSleeping t = true → now = None ∨ now = Some i) → sched_inv c ts s now.
Proof. intros [Hs Hl Ht] Hn. split; [done..|]. intros i t Hi. destruct (Ht i t Hi). split; try done. intros. by eapply Hn. Qed.

(** An awake task becomes [t'], which sleeps and has that pending. *)
Lemma sched_put_sleep ts s now i t t' : sched_inv c ts s now → ts !! i = Some t → same_weight t t' → self_ok t' →
  IsBusy t = true → IsSleeping t = false → IsSleeping t' = true → has t' STATE_SLEEP_PENDING = true →
  now = None ∨ now = Some i → sched_inv c (<[i := t']> ts) s now ∧ i ∈ st_ready s.
Proof.
  intros Hs Ht Hw Hself Hb Ha Ha' Hp Hn. destruct (si_task c _ _ _ Hs i t Ht) as [_ H1 H2 H3 H4].
  assert (Hr : i ∈ st_ready s) by (destruct (proj1 H1 Hb) as [?|Hsl]; [done|rewrite (H3 Hsl) in Ha; done]).
  split; [|done]. apply (sched_inv_put c _ _ _ i t); [done..|]. split; try done.
  unfold IsBusy in *. by destruct Hw as (-> & _).
Qed.

Lemma park_other k i t t' : core_inv c k → m_task_storage k !! i = Some t → same_weight t t' → self_ok t' →
  IsBusy t = true → IsSleeping t = false → IsSleeping t' = true → has t' STATE_SLEEP_PENDING = true →
  m_sync_obj (m_wait_obj t') = m_sync_obj (m_wait_obj t) →
  ∃ k', ProcessTaskPendingSleep ops c i (put_task i t' k) = Ok k' ∧ core_inv c k' ∧
    same_others i (m_strategy k) (m_strategy k') ∧ i ∈ st_asleep (m_strategy k') ∧
    m_task_storage k' = <[i := settle t']> (m_task_storage k) ∧
    m_task_now k' = m_task_now k ∧ m_fsm_state k' = m_fsm_state k ∧ m_kstate k' = m_kstate k ∧ m_ticks k' = m_ticks k.
Proof.
  intros [Hs Hy] Ht Hw Hself Hb Ha Ha' Hp Eo.
  destruct (sched_put_sleep _ _ None i t t' (sched_inv_weaken _ _ _ Hs) Ht) as [Hs1 Hr]; try done; [by left|].
  assert (Ht1 := put_task_at k i t t' Ht).
  destruct (process_sleep c Hcfg Hse (put_task i t' k) i t' None Hs1 Ht1 Hr Ha') as (s' & E & Hi & Ho & Has & _).
  eexists. split; [exact E|]. cbn [m_task_storage m_strategy set_strategy put_task set_tasks m_task_now m_fsm_state m_kstate m_ticks].
  cbn [m_task_storage put_task set_tasks] in Hi. rewrite list_insert_insert_eq in *. split_and!; try done. split; cbn.
  - rewrite list_insert_insert_eq. apply sched_inv_restore; [done|]. intros j u Hj Hu Hsl.
    destruct (decide (j = i)) as [->|Hne]; [by destruct (si_disjoint c _ _ _ i Hi Hj)|].
    rewrite list_lookup_insert_ne in Hu by done. destruct (Ho j Hne) as [Hrj _].
    apply (tk_now _ _ _ _ _ (si_task c _ _ _ Hs j u Hu)); [by apply Hrj|done].
  - rewrite list_insert_insert_eq. eapply sync_inv_ext; [|exact Hy]. by apply (waits_for_same _ i t).
Qed.

(** The task sleeps until it is resumed or removed. *)
Definition parked (f : EStateFlags) (t : KernelTask) : KernelTask := raise f (slept WAIT_INFINITE t).

Lemma parked_same f t : f = STATE_SUSPENDED ∨ f = STATE_REMOVE_PENDING →
  same_weight t (parked f t) ∧ IsSleeping (parked f t) = true ∧ m_wait_obj (parked f t) = m_wait_obj t ∧
  has (parked f t) STATE_SLEEP_PENDING = negb (IsSleeping t) || has t STATE_SLEEP_PENDING.
Proof.
  intros Hf. destruct (slept_same WAIT_INFINITE t) as (Hw & Es & Ew & _ & _ & _ & Ep & _). unfold parked.
  split_and!; [done|unfold IsSleeping; cbn; by rewrite Es|done|].
  rewrite has_raise, bool_decide_eq_false_2 by (destruct Hf as [-> | ->]; done). done.
Qed.

Lemma parked_self f t : f = STATE_SUSPENDED ∨ f = STATE_REMOVE_PENDING → self_ok t → IsBusy t = true →
  IsWaiting (m_wait_obj t) = false → self_ok (parked f t).
Proof.
  intros Hf Hs Hb Hw. assert (Hn : 0 < WAIT_INFINITE ≤ INT32_MAX) by (unfold WAIT_INFINITE, INT32_MAX; lia).
  destruct (slept_self WAIT_INFINITE t Hs Hb Hn) as [F T R W P D H Q]; [by left|].
  destruct (slept_same WAIT_INFINITE t) as ((Eu & _) & Es & Ew & _).
  assert (Hb' : IsBusy (parked f t) = true) by (unfold IsBusy in *; cbn; by rewrite Eu).
  unfold parked in *. split; try done.
  - rewrite Hb'. done.
  - cbn. intros _. rewrite Es, Ew. done.
  - rewrite has_raise, bool_decide_eq_false_2 by (destruct Hf as [-> | ->]; done). apply D.
Qed.
(** ** Suspending, resuming, cancelling, removing *)

Lemma find_task u k i : FindTaskByUserTask u k = Some i → u ≠ 0 →
  ∃ t, m_task_storage k !! i = Some t ∧ GetTid t = u ∧ IsBusy t = true.
Proof.
  unfold FindTaskByUserTask. intros H Hu. destruct (list_find _ _) as [[j t]|] eqn:E; [|done].
  apply list_find_Some in E as (Ht & Hid & _). cbn in H. injection H as ->. exists t. split_and!; [done..|].
  unfold GetTid, IsBusy in *. destruct (m_user t); [done|]. by rewrite <- Hid in Hu.
Qed.

(** A task goes to sleep until further notice: at once if another one executes. *)
Lemma park_kernel k i t f : f = STATE_SUSPENDED ∨ f = STATE_REMOVE_PENDING → kernel_inv c k →
  m_task_storage k !! i = Some t → IsBusy t = true → IsSleeping t = false → IsWaiting (m_wait_obj t) = false →
  (m_task_now k = None ∨ m_task_now k = Some i → kernel_inv c (put_task i (parked f t) k)) ∧
  ∃ k', ProcessTaskPendingSleep ops c i (put_task i (parked f t) k) = Ok k' ∧ kernel_inv c k' ∧
    m_task_storage k' = <[i := settle (parked f t)]> (m_task_storage k) ∧ m_task_now k' = m_task_now k.
Proof.
  intros Hf Hk Ht Hb Ha Hnw. assert (Hc := kernel_core k Hk).
  destruct (parked_same f t Hf) as (Hw & Hsl & Eo & Ep). rewrite Ha in Ep. cbn in Ep.
  assert (Hself := parked_self f t Hf (ci_self c k i t Hc Ht) Hb Hnw). split.
  - intros Hn. destruct (sched_put_sleep _ _ _ i t (parked f t) (ci_sched c k Hc) Ht) as [Hs _]; try done.
    split; [done| |by eapply now_inv_same; [apply (ki_now c k Hk)|..]].
    eapply sync_inv_ext; [|apply (ki_sync c k Hk)]. apply (waits_for_same _ i t); [done|]. by rewrite Eo.
  - destruct (park_other k i t (parked f t)) as (k' & E & Hc' & Ho & Has & Ets & En & Ef & Ek & _); try done.
    { by rewrite Eo. }
    exists k'. split_and!; try done. apply kernel_of_core; [done|]. eapply now_inv_same; [apply (ki_now c k Hk)|done..|].
    apply (same_others_members i); [done|set_solver].
Qed.

Lemma awake_not_waiting t : self_ok t → IsSleeping t = false → IsWaiting (m_wait_obj t) = false.
Proof. intros Hs Ha. destruct (IsWaiting _) eqn:E; [|done]. destruct (waiting_free t Hs E). congruence. Qed.

Lemma awake_flags t : self_ok t → IsSleeping t = false →
  IsWaiting (m_wait_obj t) = false ∧ has t STATE_SUSPENDED = false ∧ IsPendingRemoval t = false ∧
  has t STATE_SUSPEND_PENDING = false.
Proof.
  intros Hs Ha. assert (Hni : m_time_sleep t ≠ - WAIT_INFINITE) by (intros E; unfold IsSleeping in Ha; by rewrite E in Ha).
  split; [by apply awake_not_waiting|]. split_and!.
  - destruct (has t STATE_SUSPENDED) eqn:E; [|done]. destruct (so_parked t Hs); auto; done.
  - destruct (IsPendingRemoval t) eqn:E; [|done]. destruct (so_parked t Hs); auto; done.
  - destruct (has t STATE_SUSPEND_PENDING) eqn:E; [|done]. rewrite (so_deferred t Hs E) in Ha. done.
Qed.

(** Suspending an awake task. *)
Lemma suspend_awake k u i t b : u ≠ 0 → FindTaskByUserTask u k = Some i → m_task_storage k !! i = Some t →
  self_ok t → IsSleeping t = false → IsLocked k && is_now k i = false →
  SuspendTask ops c b u k =
    (if is_now k i then Ok (SUSPEND_DONE, if b then None else Some i, put_task i (parked STATE_SUSPENDED t) k)
     else if IsStarted k then
       k' ← ProcessTaskPendingSleep ops c i (put_task i (parked STATE_SUSPENDED t) k); Ok (SUSPEND_DONE, None, k')
     else Ok (SUSPEND_DONE, None, put_task i (parked STATE_SUSPENDED t) k)).
Proof.
  intros Hu Hi Ht Hself Hsl El. destruct (awake_flags t Hself Hsl) as (_ & F1 & F2 & F3).
  unfold SuspendTask. rewrite (proj2 (Z.eqb_neq u 0)) by done. cbn [negb stk_assert]. rewrite Hi.
  rewrite (task_at_ok k i t Ht). cbn [mbind res_bind]. rewrite F1, F2, F3, Hsl, El. cbn [orb].
  rewrite (upd_task_ok k i t (slept WAIT_INFINITE t)); [|done|by apply ScheduleSleep_ok]. cbn [mbind res_bind].
  rewrite (mod_task_ok _ i (slept WAIT_INFINITE t)) by (by apply (put_task_at k i t)). cbn [mbind res_bind].
  rewrite put_task_put. fold (parked STATE_SUSPENDED t). rewrite (task_at_ok _ i (parked STATE_SUSPENDED t)) by (by apply (put_task_at k i t)).
  cbn [mbind res_bind]. rewrite (proj2 (proj2 (proj2 (parked_same _ _ (or_introl eq_refl))))), Hsl. cbn [negb orb].
  rewrite andb_true_r. done.
Qed.

Lemma suspend_other k u i t b : kernel_inv c k → u ≠ 0 → FindTaskByUserTask u k = Some i → m_task_storage k !! i = Some t →
  IsSleeping t = false → m_task_now k ≠ None → m_task_now k ≠ Some i →
  ∃ k', SuspendTask ops c b u k = Ok (SUSPEND_DONE, None, k') ∧ kernel_inv c k' ∧
    m_task_storage k' = <[i := settle (parked STATE_SUSPENDED t)]> (m_task_storage k) ∧ m_task_now k' = m_task_now k.
Proof.
  intros Hk Hu Hi Ht Ha Hn Hne. destruct (find_task u k i Hi Hu) as (t0 & Ht0 & _ & Hb). rewrite Ht in Ht0. injection Ht0 as <-.
  assert (Hself := ci_self c k i t (kernel_core k Hk) Ht). assert (En : is_now k i = false) by (by apply bool_decide_eq_false).
  destruct (park_kernel k i t STATE_SUSPENDED) as [_ (k' & E & ?)]; try done; [by left|by apply awake_not_waiting|].
  exists k'. split; [|done]. rewrite (suspend_awake k u i t) by (done || by rewrite En, andb_false_r).
  rewrite En. unfold IsStarted. rewrite bool_decide_eq_false_2 by done. cbn [negb]. by rewrite E.
Qed.

Lemma suspend_task k u b : kernel_inv c k → u ≠ 0 →
  (IsLocked k = true → ∀ i t, m_task_now k = Some i → m_task_storage k !! i = Some t → GetTid t ≠ u) →
  ∃ r o k', SuspendTask ops c b u k = Ok (r, o, k') ∧ kernel_inv c k'.
Proof.
  intros Hk Hu Hlk. destruct (FindTaskByUserTask u k) as [i|] eqn:Ei.
  2: { unfold SuspendTask. rewrite (proj2 (Z.eqb_neq u 0)), Ei by done. cbn. eauto. }
  destruct (find_task u k i Ei Hu) as (t & Ht & Htid & Hb). assert (Hself := ci_self c k i t (kernel_core k Hk) Ht).
  destruct (IsSleeping t) eqn:Hsl.
  - unfold SuspendTask. rewrite (proj2 (Z.eqb_neq u 0)), Ei by done. cbn [negb stk_assert].
    rewrite (task_at_ok k i t Ht). cbn [mbind res_bind]. destruct (IsPendingRemoval t) eqn:Er; [eauto|].
    destruct (_ || _) eqn:Es; [eauto|]. apply orb_false_iff in Es as [Es1 Es2]. rewrite Hsl.
    rewrite (mod_task_ok k i t) by done. cbn [mbind res_bind]. eexists _, _, _. split; [done|].
    apply (kernel_inv_neutral k i t); try done; [|by ktask]. destruct Hself. split; ktask; try done. intros; congruence.
  - assert (El : IsLocked k && is_now k i = false).
    { destruct (IsLocked k) eqn:El; [|done]. unfold is_now. apply bool_decide_eq_false. intros En. by apply (Hlk eq_refl i t). }
    rewrite (suspend_awake k u i t) by done. unfold is_now, IsStarted.
    destruct (park_kernel k i t STATE_SUSPENDED) as [Hin (k' & E & ? & _)]; try done; [by left|by apply awake_not_waiting|].
    case_bool_decide as En; [eexists _, _, _; split; [done|]; auto|].
    case_bool_decide as E0; cbn [negb]; [eexists _, _, _; split; [done|]; auto|]. rewrite E. cbn. eauto.
Qed.

Lemma woken_kernel k i t : kernel_inv c k → m_task_storage k !! i = Some t → IsBusy t = true → IsSleeping t = true →
  IsWaiting (m_wait_obj t) = false → has t STATE_SUSPENDED = false → IsPendingRemoval t = false →
  kernel_inv c (put_task i (woken t) k).
Proof.
  intros Hk Ht Hb Hsl Hw H1 H2. destruct (woken_same t) as (? & ? & _ & Em & Ef).
  apply (kernel_inv_neutral k i t); try done; [|congruence|by apply Ef|by rewrite Em].
  apply woken_self; try done. by apply (ci_self c k i); [apply kernel_core|].
Qed.

Lemma resume_task k u : kernel_inv c k → u ≠ 0 →
  ∃ r k', ResumeTask u k = Ok (r, k') ∧ kernel_inv c k'.
Proof.
  intros Hk Hu. unfold ResumeTask. rewrite (proj2 (Z.eqb_neq u 0)) by done. cbn [negb stk_assert].
  destruct (FindTaskByUserTask u k) as [i|] eqn:Ei; [|eauto]. destruct (find_task u k i Ei Hu) as (t & Ht & Htid & Hb).
  assert (Hself := ci_self c k i t (kernel_core k Hk) Ht). rewrite (task_at_ok k i t Ht). cbn [mbind res_bind].
  destruct (IsPendingRemoval t) eqn:Er; [eauto|]. destruct (has t STATE_SUSPENDED) eqn:Es.
  - destruct (so_parked t Hself (or_introl Es)) as [Einf Hw].
    assert (Hsl : IsSleeping t = true) by (unfold IsSleeping; by rewrite Einf). rewrite Hsl.
    rewrite (mod_task_ok k i t) by done. cbn [mbind res_bind]. set (t1 := lower STATE_SUSPENDED t).
    rewrite (upd_task_ok _ i t1 (woken t1)); [|by apply (put_task_at k i t)|by apply Wake_ok]. cbn [mbind res_bind].
    eexists _, _. split; [done|]. apply woken_kernel; try done; [|by apply (put_task_at k i t)|unfold t1; by ktask..].
    apply (kernel_inv_neutral k i t); try done; [|unfold t1; by ktask]. unfold t1. destruct Hself.
    split; ktask; try done; intros; congruence || (apply so_parked0; by left).
  - destruct (has t STATE_SUSPEND_PENDING); [|eauto]. rewrite (mod_task_ok k i t) by done. cbn [mbind res_bind].
    eexists _, _. split; [done|]. apply (kernel_inv_neutral k i t); try done; [|by ktask].
    destruct Hself. split; ktask; try done. intros; congruence.
Qed.
(** Ending a wait, in its variants. *)
Lemma nosync_no_wait k i t : kernel_inv c k → IsSyncMode c = false → m_task_storage k !! i = Some t →
  IsWaiting (m_wait_obj t) = false.
Proof.
  intros Hk Em Ht. unfold IsWaiting. destruct (m_sync_obj (m_wait_obj t)) as [o|] eqn:Eo; [|done].
  destruct (sy_dom _ _ _ _ (ki_sync c k Hk) i o) as [_ Ho]; [unfold waits_for; by rewrite Ht|].
  rewrite (sy_mode _ _ _ _ (ki_sync c k Hk) Em) in Ho. set_solver.
Qed.

Lemma kernel_sync k k' : kernel_inv c k → core_inv c k' → m_task_now k' = m_task_now k →
  m_fsm_state k' = m_fsm_state k → m_kstate k' = m_kstate k → m_strategy k' = m_strategy k → kernel_inv c k'.
Proof.
  intros Hk Hc E1 E2 E3 E4. apply kernel_of_core; [done|]. eapply now_inv_same; [apply (ki_now c k Hk)|done..|].
  by rewrite E4.
Qed.

Lemma cancel_wait k i t : kernel_inv c k → m_task_storage k !! i = Some t → IsWaiting (m_wait_obj t) = true →
  ∃ k', WaitObject_Cancel i k = Ok k' ∧ kernel_inv c k' ∧
    m_task_storage k' = <[i := wait_woken STATE_CANCELLED t]> (m_task_storage k).
Proof.
  intros Hk Ht Hw. assert (Hc := kernel_core k Hk). unfold IsWaiting in Hw.
  destruct (m_sync_obj (m_wait_obj t)) as [o|] eqn:Eo; [|done]. destruct (wait_list_of c k i t o Hc Ht Eo) as (so & Ho & Hi).
  destruct (waiting_free t (ci_self c k i t Hc Ht)) as (Hsl & _); [unfold IsWaiting; by rewrite Eo|].
  unfold WaitObject_Cancel. rewrite (end_wait_eq k i t o so) by done. cbn [mbind res_bind].
  rewrite (upd_task_ok _ i (end_of_wait STATE_CANCELLED NO_WAIT t) (wait_woken STATE_CANCELLED t));
    [|by apply (put_task_at k i t)|by apply Wake_ok].
  eexists. split; [done|]. cbn. rewrite list_insert_insert_eq. split; [|done].
  eapply (kernel_sync k); [done| |done..]. assert (H := wait_woken_core c k i t o so STATE_CANCELLED Hc Ht Eo Ho).
  unfold put_task, set_sync, set_tasks in *. cbn in *. by rewrite list_insert_insert_eq.
Qed.

Lemma cancel_no_wake k i t : kernel_inv c k → m_task_storage k !! i = Some t →
  ∃ k' t', CancelNoWake i k = Ok k' ∧ kernel_inv c k' ∧ m_task_storage k' = <[i := t']> (m_task_storage k) ∧
    IsWaiting (m_wait_obj t') = false ∧ same_weight t t' ∧ IsSleeping t' = IsSleeping t ∧ m_ts t' = m_ts t ∧
    m_task_now k' = m_task_now k ∧ m_strategy k' = m_strategy k.
Proof.
  intros Hk Ht. assert (Hc := kernel_core k Hk). unfold CancelNoWake. rewrite (task_at_ok k i t Ht). cbn [mbind res_bind].
  destruct (IsWaiting (m_wait_obj t)) eqn:Hw; [|exists k, t; rewrite list_insert_id by done; done].
  unfold IsWaiting in Hw. destruct (m_sync_obj (m_wait_obj t)) as [o|] eqn:Eo; [|done].
  destruct (wait_list_of c k i t o Hc Ht Eo) as (so & Ho & Hi).
  assert (Hself := ci_self c k i t Hc Ht). destruct (waiting_free t Hself) as (Hsl & _); [unfold IsWaiting; by rewrite Eo|].
  rewrite (end_wait_eq k i t o so) by done. set (t' := end_of_wait _ _ t).
  eexists _, t'. split; [done|]. split_and!; try done. eapply (kernel_sync k); [done| |done..].
  apply (core_inv_unlink c k i t); try done. by apply end_of_wait_self.
Qed.

Lemma cancel_task_wait k u : kernel_inv c k → u ≠ 0 →
  (∀ i t, FindTaskByUserTask u k = Some i → m_task_storage k !! i = Some t → IsPendingRemoval t = false) →
  ∃ k', CancelTaskWait c u k = Ok k' ∧ kernel_inv c k'.
Proof.
  intros Hk Hu Hnr. unfold CancelTaskWait. rewrite (proj2 (Z.eqb_neq u 0)) by done. cbn [negb stk_assert].
  destruct (FindTaskByUserTask u k) as [i|] eqn:Ei; [|eauto]. destruct (find_task u k i Ei Hu) as (t & Ht & Htid & Hb).
  assert (E : ∃ b k1 t1, (if IsSyncMode c then CancelIfWaiting i k else Ok (false, k)) = Ok (b, k1) ∧ kernel_inv c k1 ∧
    m_task_storage k1 !! i = Some t1 ∧ (b = false → k1 = k ∧ IsWaiting (m_wait_obj t) = false)).
  { destruct (IsSyncMode c) eqn:Em; [|exists false, k, t; split_and!; try done; intros _; by split; [|eapply nosync_no_wait]].
    unfold CancelIfWaiting. rewrite (task_at_ok k i t Ht). cbn [mbind res_bind].
    destruct (IsWaiting (m_wait_obj t)) eqn:Hw; [|exists false, k, t; done].
    destruct (cancel_wait k i t Hk Ht Hw) as (k1 & -> & ? & Ek). eexists true, k1, _. cbn.
    split_and!; try done. rewrite Ek. apply list_lookup_insert_eq. by eapply lookup_lt_Some. }
  destruct E as (b & k1 & t1 & -> & Hk1 & Ht1 & Hb1). cbn [mbind res_bind]. rewrite (task_at_ok k1 i t1 Ht1). cbn [mbind res_bind].
  destruct b; cbn [negb andb]; [eauto|]. destruct (Hb1 eq_refl) as [-> Hw]. rewrite Ht in Ht1. injection Ht1 as <-.
  destruct (IsSleeping t && _) eqn:E; [|eauto]. apply andb_true_iff in E as [Hsl Hs%negb_true_iff].
  rewrite (upd_task_ok k i t (woken t)); [|done|by apply Wake_ok]. eexists. split; [done|].
  apply woken_kernel; try done. by apply (Hnr i).
Qed.

(** [ScheduleRemoval], after the wait of the task is cancelled. *)
Lemma removal_park k i t : kernel_inv c k → m_task_storage k !! i = Some t → IsBusy t = true → m_task_now k ≠ None →
  IsWaiting (m_wait_obj t) = false →
  ∃ k' t', (k ← upd_task i (ScheduleSleep c WAIT_INFINITE) k;
      k ← mod_task i (raise STATE_REMOVE_PENDING) k;
      t ← task_at k i;
      if negb (is_now k i) && has t STATE_SLEEP_PENDING then ProcessTaskPendingSleep ops c i k else Ok k) = Ok k' ∧
    kernel_inv c k' ∧ m_task_storage k' = <[i := t']> (m_task_storage k) ∧ m_task_now k' = m_task_now k ∧
    (t' = parked STATE_REMOVE_PENDING t ∨ t' = settle (parked STATE_REMOVE_PENDING t)).
Proof.
  intros Hk Ht Hb Hn Hw.
  rewrite (upd_task_ok k i t (slept WAIT_INFINITE t)); [|done|by apply ScheduleSleep_ok]. cbn [mbind res_bind].
  rewrite (mod_task_ok _ i (slept WAIT_INFINITE t)) by (by apply (put_task_at k i t)). cbn [mbind res_bind].
  rewrite put_task_put. fold (parked STATE_REMOVE_PENDING t).
  rewrite (task_at_ok _ i (parked STATE_REMOVE_PENDING t)) by (by apply (put_task_at k i t)). cbn [mbind res_bind].
  destruct (parked_same STATE_REMOVE_PENDING t) as (Hpw & Hpsl & Hpo & Hpp); [by right|]. rewrite Hpp.
  assert (Hself := ci_self c k i t (kernel_core k Hk) Ht). unfold is_now. cbn [m_task_now put_task set_tasks].
  destruct (IsSleeping t) eqn:Hsl.
  - assert (Hk2 : kernel_inv c (put_task i (parked STATE_REMOVE_PENDING t) k)).
    { apply (kernel_inv_neutral k i t); try done; [apply parked_self; auto|congruence|by rewrite Hpo]. }
    assert (E : negb (bool_decide (m_task_now k = Some i)) && (negb true || has t STATE_SLEEP_PENDING) = false).
    { destruct (has t STATE_SLEEP_PENDING) eqn:Hp; [|by rewrite andb_false_r].
      assert (Hok := si_task c _ _ _ (ki_sched c k Hk) i t Ht). destruct (proj1 (tk_pending _ _ _ _ _ Hok) Hp) as [Hr _].
      destruct (tk_now _ _ _ _ _ Hok Hr Hsl) as [?|En]; [done|]. by rewrite (bool_decide_eq_true_2 _ En). }
    rewrite E. eexists _, _. split_and!; try done. by left.
  - destruct (park_kernel k i t STATE_REMOVE_PENDING) as [Hin Hout]; try done; [by right|]. cbn [negb orb].
    case_bool_decide as En; cbn [negb andb].
    + eexists _, _. split_and!; try done; [by apply Hin; right|by left].
    + destruct Hout as (k' & -> & ? & ? & ?). eexists k', _. split_and!; try done. by right.
Qed.

Lemma schedule_removal k i t : kernel_inv c k → m_task_storage k !! i = Some t → IsBusy t = true →
  m_task_now k ≠ None →
  ∃ k' t', ScheduleRemoval ops c i k = Ok k' ∧ kernel_inv c k' ∧ m_task_storage k' = <[i := t']> (m_task_storage k) ∧
    m_task_now k' = m_task_now k ∧ IsPendingRemoval t' = true ∧ IsSleeping t' = true ∧ left_ (m_ts t) ≤ left_ (m_ts t').
Proof.
  intros Hk Ht Hb Hn0. unfold ScheduleRemoval.
  assert (E : ∃ k1 t1, (if IsSyncMode c then CancelNoWake i k else Ok k) = Ok k1 ∧ kernel_inv c k1 ∧
    m_task_storage k1 = <[i := t1]> (m_task_storage k) ∧ IsWaiting (m_wait_obj t1) = false ∧ IsBusy t1 = true ∧
    m_task_now k1 = m_task_now k ∧ m_ts t1 = m_ts t).
  { destruct (IsSyncMode c) eqn:Em.
    - destruct (cancel_no_wake k i t Hk Ht) as (k1 & t1 & E & ? & Ek & ? & Hw & _ & ? & En & _). exists k1, t1.
      split_and!; try done. unfold IsBusy in *. by destruct Hw as (-> & _).
    - exists k, t. rewrite list_insert_id by done. split_and!; try done. by eapply nosync_no_wait. }
  destruct E as (k1 & t1 & -> & Hk1 & Et1 & Hw1 & Hb1 & Hn1 & Ets). cbn [mbind res_bind]. rewrite Hhrt.
  assert (Ht1 : m_task_storage k1 !! i = Some t1) by (rewrite Et1; apply list_lookup_insert_eq; by eapply lookup_lt_Some).
  destruct (removal_park k1 i t1 Hk1 Ht1 Hb1) as (k' & t' & E & Hk' & Et' & En' & Hform); [by rewrite Hn1|done|].
  exists k', t'. split; [exact E|]. rewrite Et1, list_insert_insert_eq in Et'. rewrite En', Hn1.
  assert (Hf : IsPendingRemoval t' = true ∧ IsSleeping t' = true ∧ m_ts t' = m_ts (slept WAIT_INFINITE t1)).
  { destruct (parked_same STATE_REMOVE_PENDING t1) as (_ & Hpsl & _); [by right|].
    destruct Hform as [-> | ->]; (split_and!; [|exact Hpsl|done]); unfold settle, parked, IsPendingRemoval;
      rewrite ?has_lower, has_raise; by flag_eval. }
  destruct Hf as (? & ? & Els). split_and!; try done. rewrite Els, <- Ets.
  destruct (so_ts t1 (ci_self c k1 i t1 (kernel_core k1 Hk1) Ht1)) as [_ Hl].
  unfold slept. destruct (negb _), (IsTimesliceMode c); cbn; lia.
Qed.

(** ** Waiting and signalling *)

(** The caller of [Wait] just before it gives up the processor. *)
Definition waiting_task (o : nat) (timeout : Z) (t : KernelTask) : KernelTask :=
  slept WAIT_INFINITE (with_wait (mkWait (Some o) timeout STATE_WAIT) t).

Lemma waiting_task_self o n t : self_ok t → IsBusy t = true → IsSleeping t = false → 0 < n ≤ WAIT_INFINITE →
  self_ok (waiting_task o n t).
Proof.
  intros Hs Hb Ha Hn. destruct (awake_flags t Hs Ha) as (_ & F1 & F2 & F3). unfold waiting_task.
  set (u := with_wait _ t). destruct (slept_same WAIT_INFINITE u) as ((Eu & _) & Es & Ew & Eh & Eq & El & _ & Ef).
  assert (Hb' : IsBusy (slept WAIT_INFINITE u) = true) by (unfold IsBusy in *; by rewrite Eu).
  destruct Hs. split; unfold IsPendingRemoval, IsSleeping in *; rewrite ?Hb', ?Es, ?Ew, ?Eh, ?Eq, ?Ef by done; try done.
  - intros _. unfold GetTid, IsBusy in *. rewrite Eu. auto.
  - intros [H|H]; unfold u in H; ktask; congruence.
  - split; [apply so_ts0|]. apply El, so_ts0.
Qed.

Lemma wobj_free_ok k i : core_inv c k → waits_for (m_task_storage k) i = None → wobj_free k i = true.
Proof.
  intros [_ Hy] Hi. unfold wobj_free. apply bool_decide_eq_true. intros o so Ho Hin.
  apply (sy_list _ _ _ _ Hy o so Ho) in Hin. congruence.
Qed.

Lemma service_wait k SP i t o n : kernel_inv c k → executes k SP i t → IsLocked k = false → IsSyncMode c = true →
  is_Some (m_sync k !! o) → 0 < n ≤ WAIT_INFINITE →
  ∃ k', Service_Wait c WordSize SP o n k = Ok (i, k') ∧ kernel_inv c k' ∧
    m_task_storage k' = <[i := waiting_task o n t]> (m_task_storage k) ∧ m_task_now k' = Some i ∧ IsLocked k' = false.
Proof.
  intros Hk Hx Hl Hm [so Ho] Hn. assert (Hc := kernel_core k Hk). destruct Hx as [Hnow Ht Hsp Ha].
  assert (Hb := executes_busy k SP i t (Build_executes _ _ _ _ Hnow Ht Hsp Ha)). assert (Hself := ci_self c k i t Hc Ht).
  destruct (awake_flags t Hself Ha) as (Hw & _). unfold Service_Wait, OnTaskWait_begin.
  rewrite Hm, Hl. cbn [negb stk_assert]. rewrite bool_decide_eq_false_2 by lia. cbn [negb stk_assert].
  rewrite (caller_ok k SP i t) by done. cbn [mbind res_bind]. unfold SetupWait. rewrite (task_at_ok k i t Ht). cbn [mbind res_bind].
  rewrite Hw. cbn [negb stk_assert]. rewrite (mod_task_ok k i t) by done. cbn [mbind res_bind].
  set (u := with_wait _ t). unfold AddWaitObject. cbn [m_sync put_task set_tasks]. rewrite Ho. cbn [deref mbind res_bind].
  assert (Hwn : waits_for (m_task_storage k) i = None) by (unfold waits_for; rewrite Ht; cbn; unfold IsWaiting in Hw; by destruct (m_sync_obj _)).
  change (wobj_free (put_task i u k) i) with (wobj_free k i). rewrite (wobj_free_ok k i Hc Hwn). cbn [stk_assert mbind res_bind].
  set (k1 := set_sync _ (put_task i u k)). set (k2 := if bool_decide _ then k1 else _).
  assert (E2 : m_task_storage k2 = <[i := u]> (m_task_storage k) ∧ m_strategy k2 = m_strategy k ∧ m_task_now k2 = Some i ∧
    m_fsm_state k2 = m_fsm_state k ∧ m_kstate k2 = m_kstate k ∧ m_sync k2 = m_sync k1 ∧
    NoDup (m_sync_list k2) ∧ ∀ x, x ∈ m_sync_list k2 ↔ x ∈ m_sync_list k ∨ x = o).
  { assert (Hnd := sy_nodup _ _ _ _ (ki_sync c k Hk)). unfold k2. cbn [m_sync_list k1 set_sync put_task set_tasks].
    case_bool_decide as E; cbn; split_and!; try done; [naive_solver| |set_solver].
    apply NoDup_app. split_and!; [done|set_solver|apply NoDup_singleton]. }
  destruct E2 as (Et & Es & En & Ef & Ek & Ey & Hnd & Hsl).
  assert (Hi2 : m_task_storage k2 !! i = Some u) by (rewrite Et; apply list_lookup_insert_eq; by eapply lookup_lt_Some).
  rewrite (upd_task_ok k2 i u (waiting_task o n t)); [|done|by apply ScheduleSleep_ok]. cbn [mbind res_bind].
  assert (Ets : m_task_storage (put_task i (waiting_task o n t) k2) = <[i := waiting_task o n t]> (m_task_storage k))
    by (cbn; by rewrite Et, list_insert_insert_eq).
  eexists. split; [done|]. split_and!; [|done|done|cbn; unfold IsLocked in *; cbn; by rewrite Ek].
  destruct (slept_same WAIT_INFINITE u) as (Hsw & Est & Ew & _ & _ & _ & Ep & _).
  apply kernel_of_core; [|eapply now_inv_same; [apply (ki_now c k Hk)|cbn; congruence..|cbn; by rewrite Es]].
  split; rewrite Ets; cbn [m_strategy m_task_now m_sync_list m_sync put_task set_tasks]; rewrite ?Es, ?En, ?Ey.
  - destruct (sched_put_sleep _ _ (Some i) i t (waiting_task o n t) ltac:(rewrite <- Hnow; apply (ki_sched c k Hk)) Ht) as [? _]; try done.
    + by apply waiting_task_self.
    + unfold IsSleeping, waiting_task. fold u. by rewrite Est.
    + unfold waiting_task. fold u. rewrite Ep. change (IsSleeping u) with (IsSleeping t). by rewrite Ha.
    + by right.
  - eapply sync_inv_ext; [|eapply (sync_inv_link _ _ _ _ _ i o so Hm (ki_sync c k Hk)); done].
    intros j. rewrite (waits_for_put _ i t) by done. case_decide; [|done]. unfold waiting_task. fold u. by rewrite Ew.
Qed.
(** Waking the first waiter of an object. *)
Lemma wake_first k o so i l : kernel_inv c k → m_sync k !! o = Some so → so_wait_list so = i :: l →
  ∃ t k', m_task_storage k !! i = Some t ∧ m_sync_obj (m_wait_obj t) = Some o ∧
    WaitObject_Wake false i k = Ok k' ∧ kernel_inv c k' ∧
    m_task_storage k' = <[i := wait_woken STATE_SIGNALED t]> (m_task_storage k) ∧
    m_sync k' !! o = Some (so_removed i STATE_SIGNALED so) ∧ so_wait_list (so_removed i STATE_SIGNALED so) = l ∧
    m_strategy k' = m_strategy k ∧ m_task_now k' = m_task_now k ∧ ∀ o', o' ≠ o → m_sync k' !! o' = m_sync k !! o'.
Proof.
  intros Hk Ho El. assert (Hc := kernel_core k Hk). destruct (sy_list _ _ _ _ (ki_sync c k Hk) o so Ho) as [Hnd Hm].
  assert (Hi : i ∈ so_wait_list so) by (rewrite El; set_solver).
  assert (Hw := proj1 (Hm i) Hi). unfold waits_for in Hw. destruct (m_task_storage k !! i) as [t|] eqn:Ht; [|done]. cbn in Hw.
  destruct (waiting_free t (ci_self c k i t Hc Ht)) as (Hsl & _); [unfold IsWaiting; by rewrite Hw|].
  exists t. eexists. split; [done|]. split; [done|]. rewrite (wait_wake_eq k i t o so false) by done. split; [done|].
  split_and!; try done.
  - eapply (kernel_sync k); [done| |done..]. by apply wait_woken_core.
  - cbn. by rewrite lookup_insert_eq.
  - cbn. rewrite El in *. apply NoDup_cons in Hnd as [Hn _].
    change (list_remove1 i ([] ++ i :: l) = l). rewrite remove1_mid; [done|set_solver|done].
  - intros o' Hne. cbn. by rewrite lookup_insert_ne.
Qed.

Lemma wake_one k o : kernel_inv c k → is_Some (m_sync k !! o) → ∃ k', WakeOne o k = Ok k' ∧ kernel_inv c k'.
Proof.
  intros Hk [so Ho]. unfold WakeOne. rewrite Ho. cbn [deref mbind res_bind].
  destruct (so_wait_list so) as [|i l] eqn:El; [eauto|].
  destruct (wake_first k o so i l Hk Ho El) as (t & k' & _ & _ & E & ? & _). eauto.
Qed.

Lemma wake_all n : ∀ k o so, kernel_inv c k → m_sync k !! o = Some so → (length (so_wait_list so) ≤ n)%nat →
  ∃ k', WakeAll n o k = Ok k' ∧ kernel_inv c k' ∧
    (∀ j, m_task_storage k' !! j =
      (if bool_decide (j ∈ so_wait_list so) then wait_woken STATE_SIGNALED else λ t, t) <$> m_task_storage k !! j) ∧
    (∃ so', m_sync k' !! o = Some so' ∧ so_wait_list so' = []) ∧ m_task_now k' = m_task_now k ∧ m_strategy k' = m_strategy k.
Proof.
  induction n as [|n IH]; intros k o so Hk Ho Hl; cbn [WakeAll]; rewrite Ho; cbn [deref mbind res_bind];
    destruct (so_wait_list so) as [|i l] eqn:El; try (cbn in Hl; lia).
  1-2: exists k; split_and!; eauto; intros j; rewrite bool_decide_eq_false_2 by set_solver; by destruct (m_task_storage k !! j).
  destruct (wake_first k o so i l Hk Ho El) as (t & k1 & Ht & Hw & E & Hk1 & Et & Ho1 & El1 & Es & En & _).
  rewrite E. cbn [mbind res_bind]. destruct (IH k1 o _ Hk1 Ho1) as (k' & E' & Hk' & Hts & Hso & En' & Es'); [rewrite El1; cbn in Hl; lia|].
  exists k'. split_and!; try done; [|by rewrite En'|by rewrite Es']. intros j. rewrite Hts, Et, El1.
  destruct (sy_list _ _ _ _ (ki_sync c k Hk) o so Ho) as [Hnd _]. rewrite El in Hnd. apply NoDup_cons in Hnd as [Hn _].
  destruct (decide (j = i)) as [->|Hne].
  - rewrite list_lookup_insert_eq by (by eapply lookup_lt_Some). rewrite Ht.
    rewrite bool_decide_eq_false_2, bool_decide_eq_true_2 by set_solver. done.
  - rewrite list_lookup_insert_ne by done. rewrite (bool_decide_ext (j ∈ i :: l) (j ∈ l)) by set_solver. done.
Qed.

Lemma service_wake k o all : kernel_inv c k → is_Some (m_sync k !! o) → IsSyncMode c = true →
  ∃ k', Service_Wake c o all k = Ok k' ∧ kernel_inv c k'.
Proof.
  intros Hk [so Ho] Hm. unfold Service_Wake. rewrite Hm. cbn [stk_assert]. rewrite Ho. cbn [deref mbind res_bind].
  destruct all; [|by apply wake_one]. destruct (wake_all (length (so_wait_list so)) k o so Hk Ho) as (k' & ? & ? & _); [lia|]. eauto.
Qed.

(** The end of [Wait], in the task that waited. *)
Lemma wait_end k i t : kernel_inv c k → m_task_storage k !! i = Some t → IsWaiting (m_wait_obj t) = false →
  w_state (m_wait_obj t) = STATE_TIMEOUT ∨ w_state (m_wait_obj t) = STATE_CANCELLED ∨ w_state (m_wait_obj t) = STATE_SIGNALED →
  ∃ r k', OnTaskWait_end i k = Ok (r, k') ∧ kernel_inv c k'.
Proof.
  intros Hk Ht Hw Hst. unfold OnTaskWait_end, GetWaitResult, ClearState. rewrite (task_at_ok k i t Ht). cbn [mbind res_bind].
  rewrite Hw. cbn [negb stk_assert mbind res_bind].
  assert (Hself := ci_self c k i t (kernel_core k Hk) Ht).
  assert (Hk' : kernel_inv c (put_task i (with_wait (mkWait (m_sync_obj (m_wait_obj t)) (m_time_wait (m_wait_obj t)) STATE_NONE) t) k)).
  { apply (kernel_inv_neutral k i t); try done. destruct Hself. split; try done. ktask. intros; congruence. }
  destruct Hst as [-> |[-> | ->]]; cbn [mbind res_bind]; eauto.
Qed.
(** ** Adding and removing tasks *)

(** A user task the kernel can be given. *)
Record user_ok (u : ITask) : Prop := {
  uo_addr : u_addr u ≠ TID_NONE;
  uo_slice : 0 ≤ u_time_slice u ≤ INT32_MAX;
  uo_weight t t' : Bind c u t = Ok t' → st_admissible c t';
}.

(** No other task has its address or its stack, and a slot is free. *)
Definition collides (u : ITask) (t : KernelTask) : bool :=
  match m_user t with Some v => (u_addr v =? u_addr u) || (u_stack v =? u_stack u) | None => false end.
Definition has_room k (u : ITask) : Prop :=
  existsb (collides u) (m_task_storage k) = false ∧ ∃ i t, m_task_storage k !! i = Some t ∧ IsBusy t = false.

Lemma Bind_ok u t : 0 ≤ u_time_slice u → ∃ t', Bind c u t = Ok t' ∧ m_user t' = Some u ∧ m_state t' = m_state t ∧
  m_time_sleep t' = m_time_sleep t ∧ m_wait_obj t' = m_wait_obj t ∧ m_hrt t' = m_hrt t ∧
  (m_ts t' = m_ts t ∨ m_ts t' = mkTs (u_time_slice u) (u_time_slice u)).
Proof.
  intros Hs. unfold Bind, SetCurrentWeight.
  destruct (IsTimesliceMode c); [rewrite bool_decide_eq_true_2 by (unfold NO_TIME_SLICE; lia); cbn [stk_assert]|];
    destruct (PRIORITY_INHERITANCE_API _), (WEIGHT_API _); eexists; split_and!; try done; cbn; auto.
Qed.

Lemma bound_self u t t' : user_ok u → self_ok t → IsBusy t = false → Bind c u t = Ok t' → self_ok t'.
Proof.
  intros [Ha Hs _] Hself Hb E. destruct (Bind_ok u t) as (x & E' & Eu & Em & Et & Ew & Eh & Ets); [lia|].
  rewrite E in E'. injection E' as <-. destruct (so_free t Hself Hb) as (Ez & Esl & Eo).
  assert (Hf : ∀ f, has t' f = false) by (intros f; unfold has; rewrite Em, Ez, has_flag_testbit; apply Z.bits_0).
  destruct Hself. split; unfold IsBusy, GetTid, IsPendingRemoval; rewrite ?Eu, ?Et, ?Ew, ?Eh, ?Hf; try done.
  - by intros [?|?].
  - destruct Ets as [-> | ->]; [done|]. cbn. lia.
Qed.

Lemma add_core k i t u : core_inv c k → m_task_storage k !! i = Some t → IsBusy t = false → user_ok u →
  ∃ t' s', Bind c u t = Ok t' ∧ AddKernelTask ops c i (put_task i t' k) = Ok (set_strategy s' (put_task i t' k)) ∧
    core_inv c (set_strategy s' (put_task i t' k)) ∧ m_user t' = Some u ∧ IsSleeping t' = false ∧
    st_ready s' ≡ₚ i :: st_ready (m_strategy k) ∧ st_asleep s' ≡ₚ st_asleep (m_strategy k).
Proof.
  intros [Hs Hy] Ht Hb Hu. assert (Hok := si_task c _ _ _ Hs i t Ht). assert (Hself := tk_self _ _ _ _ _ Hok).
  destruct (Bind_ok u t) as (t' & E & Eu & Em & Et & Ew & Eh & Ets); [apply Hu|]. exists t'.
  assert (Hself' := bound_self u t t' Hu Hself Hb E). destruct (so_free t Hself Hb) as (Ez & Esl & Eo).
  assert (Hni : i ∉ st_ready (m_strategy k) ++ st_asleep (m_strategy k)).
  { rewrite elem_of_app, <- (tk_busy _ _ _ _ _ Hok), Hb. done. }
  assert (Ht' := put_task_at k i t t' Ht).
  destruct (st_AddTask_spec c (<[i := t']> (m_task_storage k)) (m_strategy k) i t') as (s' & Ea & Hs' & HR & HA);
    [done| |done|done|by eapply uo_weight|].
  { apply (st_frame c (m_task_storage k)); [apply Hs|]. intros j v Hj Hv. exists v. split; [|done].
    rewrite list_lookup_insert_ne; [done|]. by intros <-. }
  assert (Ha : IsSleeping t' = false) by (unfold IsSleeping; by rewrite Et, Esl).
  exists s'. split_and!; try done; [by apply strat_ok|]. split; cbn.
  - apply (sched_inv_move c _ (m_strategy k) _ _ i t); try done.
    + intros j Hj. rewrite HR, HA. set_solver.
    + rewrite elem_of_app in Hni. split; [done| | | |].
      * unfold IsBusy. rewrite Eu, HR. set_solver.
      * rewrite Ha. unfold has. rewrite Em, Ez, has_flag_testbit, Z.bits_0. naive_solver.
      * rewrite HA. tauto.
      * by rewrite Ha.
  - eapply sync_inv_ext; [|exact Hy]. apply (waits_for_same _ i t); [done|]. by rewrite Ew.
Qed.

Lemma add_task k u : kernel_inv c k → user_ok u →
  (IsStaticMode c = true → has_room k u ∧ IsInitialized k = true ∧ IsStarted k = false) →
  ∃ r k', AddTask ops c (Some u) k = Ok (r, k') ∧ kernel_inv c k'.
Proof.
  intros Hk Hu Hst. unfold AddTask. rewrite Hhrt, orb_false_r. cbn [negb].
  assert (Hend : ∀ r k', (IsStaticMode c = true → r = ADD_OK) →
    (if IsStaticMode c then assert! bool_decide (r = ADD_OK); Ok (r, k') else Ok (r, k')) = Ok (r, k')).
  { intros r k' Hr. destruct (IsStaticMode c); [|done]. by rewrite Hr. }
  destruct (IsInitialized k && (IsDynamicMode c || negb (IsStarted k))) eqn:Eg; cbn [mbind res_bind].
  2: { eexists _, k. split; [apply Hend|done]. intros Es. destruct (Hst Es) as (_ & E1 & E2). rewrite E1, E2, orb_true_r in Eg. done. }
  unfold TryAllocateNewTask. fold (collides u). destruct (existsb (collides u) (m_task_storage k)) eqn:Ec; cbn [mbind res_bind].
  { eexists _, k. split; [apply Hend|done]. intros Es. destruct (Hst Es) as ([E1 _] & _). congruence. }
  destruct (list_find (λ t, IsBusy t = false) (m_task_storage k)) as [[i t]|] eqn:Ef; cbn [fmap option_fmap option_map fst mbind res_bind].
  2: { eexists _, k. split; [apply Hend|done]. intros Es. destruct (Hst Es) as ([_ (i & t & Ht & Hb)] & _).
       apply list_find_None in Ef. rewrite Forall_lookup in Ef. by destruct (Ef i t Ht). }
  apply list_find_Some in Ef as (Ht & Hb & _).
  destruct (add_core k i t u (kernel_core k Hk) Ht Hb Hu) as (t' & s' & E & Ea & Hc' & _ & _ & HR & HA).
  rewrite (upd_task_ok k i t t') by done. cbn [mbind res_bind]. rewrite Ea. cbn [mbind res_bind].
  eexists _, _. split; [by apply Hend|]. apply kernel_of_core; [done|].
  eapply now_inv_same; [apply (ki_now c k Hk)|done..|]. intros x. unfold members. cbn. rewrite HR, HA. set_solver.
Qed.

Lemma remove_task_api k u : kernel_inv c k → u ≠ 0 → IsDynamicMode c = true → m_task_now k = None →
  (∀ i t, FindTaskByUserTask u k = Some i → m_task_storage k !! i = Some t → IsWaiting (m_wait_obj t) = false) →
  ∃ k', RemoveTask ops c u k = Ok k' ∧ kernel_inv c k'.
Proof.
  intros Hk Hu Hd Hn Hw. unfold RemoveTask, IsStarted. rewrite Hd, Hn. rewrite (proj2 (Z.eqb_neq u 0)) by done.
  rewrite bool_decide_eq_true_2 by done. cbn [negb stk_assert].
  destruct (FindTaskByUserTask u k) as [i|] eqn:Ei; [|eauto]. destruct (find_task u k i Ei Hu) as (t & Ht & Htid & Hb).
  destruct (remove_task c Hcfg Hse Hhrt k i t _ (ki_sched c k Hk) Ht Hb) as (s' & E & Hs' & Ho & Hni & _); [by eapply Hw|].
  eexists. split; [exact E|]. apply kernel_of_core.
  - split; [done|]. cbn. eapply sync_inv_ext; [|apply (ki_sync c k Hk)].
    apply (waits_for_same _ i t); [done|]. by destruct (freed_free c t) as (_ & _ & _ & ->).
  - destruct (ki_now c k Hk) as [H1 H2]. split; cbn; [|done]. by rewrite Hn in *.
Qed.
(** ** Starting and stopping *)

Lemma ctor_inv n sync : map_Forall (λ _ so, so_wait_list so = []) sync → kernel_inv c (Kernel_ctor ops n sync).
Proof.
  intros Hsync. assert (Hrep : ∀ i t, replicate n KernelTask_ctor !! i = Some t → t = KernelTask_ctor)
    by (intros i t Ht; by apply lookup_replicate in Ht as [-> _]).
  destruct (st_ctor_spec c (replicate n KernelTask_ctor) Hcfg) as (Hs & HR & HA). split; cbn.
  - split; rewrite ?HR, ?HA; [done|set_solver|]. intros i t ->%Hrep. apply free_ok; [|done|set_solver..].
    split; cbn; try done; unfold INT32_MAX; try lia. intros [?|?]; done.
  - assert (Hw : ∀ i, waits_for (replicate n KernelTask_ctor) i = None).
    { intros i. unfold waits_for. destruct (_ !! i) eqn:E; [|done]. by rewrite (Hrep _ _ E). }
    split; [|intros i o; by rewrite Hw|apply NoDup_nil_2|set_solver|done].
    intros o so Ho. rewrite (Hsync o so Ho). split; [apply NoDup_nil_2|]. intros i. rewrite Hw. set_solver.
  - split; cbn; [by left|done].
Qed.

Lemma initialize k : kernel_inv c k → IsInitialized k = false → ∃ k', Initialize k = Ok k' ∧ kernel_inv c k'.
Proof.
  intros [Hs Hy _] Hi. unfold Initialize. rewrite Hi. cbn. eexists. split; [done|]. split; [|done|].
  - by eapply sched_inv_weaken.
  - split; cbn; [by left|done].
Qed.

Lemma start_loop l : ∀ k, core_inv c k → m_task_now k = None → (∀ i, i ∈ l → is_Some (m_task_storage k !! i)) → NoDup l →
  ∃ k', OnStart_loop ops c l k = Ok k' ∧ core_inv c k' ∧
    (∀ i t, i ∈ l → i ∈ st_ready (m_strategy k') → m_task_storage k' !! i = Some t → IsSleeping t = false) ∧
    (∀ i, i ∉ l → m_task_storage k' !! i = m_task_storage k !! i ∧ (i ∈ st_ready (m_strategy k') ↔ i ∈ st_ready (m_strategy k))) ∧
    (∀ x, x ∈ members (m_strategy k) → x ∈ members (m_strategy k')) ∧ m_task_now k' = None.
Proof.
  induction l as [|i l IH]; intros k Hc Hn Hl Hnd; [exists k; split_and!; done || set_solver|].
  apply NoDup_cons in Hnd as [Hni Hnd]. destruct (Hl i ltac:(set_solver)) as [t Ht].
  assert (Hok := si_task c _ _ _ (ci_sched c k Hc) i t Ht).
  assert (E : ∃ k1, (if has t STATE_SLEEP_PENDING then assert! IsSleeping t;
        k ← mod_task i (lower STATE_SLEEP_PENDING) k;
        if SLEEP_EVENT_API (cfg_strategy c) then strat (st_OnTaskSleep ops c i) k else Ok k else Ok k) = Ok k1 ∧
      core_inv c k1 ∧ m_task_now k1 = None ∧ same_others i (m_strategy k) (m_strategy k1) ∧
      (∀ u, i ∈ st_ready (m_strategy k1) → m_task_storage k1 !! i = Some u → IsSleeping u = false) ∧
      (∀ x, x ∈ members (m_strategy k) → x ∈ members (m_strategy k1)) ∧
      ∀ j, (j ≠ i → m_task_storage k1 !! j = m_task_storage k !! j) ∧ (is_Some (m_task_storage k !! j) → is_Some (m_task_storage k1 !! j))).
  { destruct (has t STATE_SLEEP_PENDING) eqn:Hp.
    - destruct (proj1 (tk_pending _ _ _ _ _ Hok) Hp) as [Hr Hsl]. rewrite Hsl. cbn [stk_assert].
      rewrite (mod_task_ok k i t) by done. cbn [mbind res_bind]. rewrite Hse. set (t' := lower STATE_SLEEP_PENDING t).
      assert (Hb : IsBusy t = true) by (apply (tk_busy _ _ _ _ _ Hok); by left).
      destruct (move_asleep c Hcfg Hse k i t t' _ (ci_sched c k Hc) Ht Hr) as (s' & E & Hs' & Ho & Ha & _); try done.
      { apply (self_ok_flag t); try done; [apply Hok|unfold t'; by ktask..]. }
      { unfold t'. by ktask. }
      rewrite E. eexists. split; [done|]. split_and!; try done.
      + split; [done|]. cbn. eapply sync_inv_ext; [|apply (ci_sync c k Hc)]. by apply (waits_for_same _ i t).
      + cbn. intros u Hr'. by destruct (si_disjoint c _ _ _ i Hs' Hr').
      + apply (same_others_members i); [done|]. cbn. set_solver.
      + intros j. cbn. split; [intros; by rewrite list_lookup_insert_ne|].
        rewrite !lookup_lt_is_Some, length_insert. done.
    - exists k. split_and!; try done. intros u Hr Hu. rewrite Ht in Hu. injection Hu as <-.
      destruct (IsSleeping t) eqn:Hsl; [|done]. assert (has t STATE_SLEEP_PENDING = true); [|congruence].
      by apply (tk_pending _ _ _ _ _ Hok). }
  destruct E as (k1 & E1 & Hc1 & Hn1 & Ho1 & Ha1 & Hm1 & Hs1).
  destruct (IH k1 Hc1 Hn1) as (k2 & E2 & Hc2 & Ha2 & Hr2 & Hm2 & Hn2); [|done|].
  { intros j Hj. apply Hs1, Hl. set_solver. }
  exists k2. split_and!; try done; [| | |auto].
  - cbn [OnStart_loop]. rewrite (task_at_ok k i t Ht). cbn [mbind res_bind]. rewrite E1. done.
  - intros j u [->|Hj]%elem_of_cons Hr Hu; [|by eapply Ha2]. destruct (Hr2 i Hni) as [Eq Er].
    rewrite Eq in Hu. by apply Ha1; [apply Er|].
  - intros j Hj. apply not_elem_of_cons in Hj as [Hne Hj]. destruct (Hr2 j Hj) as [-> ->].
    split; [by apply Hs1|]. by apply Ho1.
Qed.
Lemma on_start k : kernel_inv c k → m_task_now k = None → members (m_strategy k) ≠ [] →
  ∃ r k', OnStart ops c k = Ok (r, k') ∧ kernel_inv c k' ∧ dispatched k' ∧ m_kstate k' = KSTATE_RUNNING ∧
    all_awake (m_task_storage k') (m_strategy k').
Proof.
  intros Hk Hn Hm. assert (Hc := kernel_core k Hk). unfold OnStart.
  rewrite (st_GetSize_spec c (m_task_storage k)) by apply (ci_sched c k Hc).
  rewrite bool_decide_eq_false_2 by (unfold members in Hm; rewrite <- length_zero_iff_nil in Hm; lia). cbn [negb stk_assert].
  destruct (start_loop (seq 0 (length (m_task_storage k))) k Hc Hn) as (k1 & E1 & Hc1 & Ha1 & Hr1 & Hm1 & Hn1).
  { intros i Hi%elem_of_seq. apply lookup_lt_is_Some_2. lia. }
  { apply NoDup_seq. }
  rewrite E1. cbn [mbind res_bind].
  assert (Haw : all_awake (m_task_storage k1) (m_strategy k1)).
  { intros i t Hr Ht. destruct (decide (i ∈ seq 0 (length (m_task_storage k)))) as [Hi|Hi]; [by eapply Ha1|].
    destruct (Hr1 i Hi) as [E _]. rewrite E in Ht. destruct Hi. apply elem_of_seq. apply lookup_lt_Some in Ht. lia. }
  set (k2 := set_fsm FSM_STATE_SWITCHING k1). assert (Hc2 : core_inv c k2) by (by destruct Hc1).
  destruct (fetch_event c Hcfg Hse Hhrt k2 Hc2 Haw) as (s' & next & E & Hc' & Ha' & Hf & Hnext).
  assert (Hnil : members (m_strategy k2) ≠ []).
  { intros E0. destruct (members (m_strategy k)) as [|x m]; [done|]. specialize (Hm1 x ltac:(set_solver)).
    unfold k2 in E0. cbn in E0. rewrite E0 in Hm1. set_solver. }
  unfold GetNewFsmState. cbn [IsValidFsmState m_fsm_state k2 set_fsm stk_assert]. fold k2. rewrite E. cbn [mbind res_bind].
  cbn [m_fsm_state k2 set_fsm set_strategy]. rewrite (bool_decide_eq_false_2 _ Hnil), andb_false_r.
  destruct Hf as [_ HR HA]. cbn in HR, HA, Hnext.
  assert (Hfin : ∀ b f, b ∈ members s' → running_state f →
    kernel_inv c (set_kstate KSTATE_RUNNING (set_now (Some b) (set_fsm f (set_strategy s' k2))))).
  { intros b f Hb Hrf. destruct (core_inv_now c (set_strategy s' k2) (Some b) Hc' Ha'). split; [done..|]. by split. }
  destruct next as [b|].
  - rewrite (bool_decide_eq_false_2 (m_fsm_state k2 = _)) by done. cbn [m_fsm mbind res_bind]. eexists _, _. split; [done|].
    assert (Hb : b ∈ st_ready s') by (by rewrite HR).
    split_and!; [|left; cbn; auto|done|done]. apply Hfin; [unfold members; set_solver|by left].
  - cbn [m_fsm]. cbn [m_task_storage m_strategy set_fsm set_strategy].
    assert (Hr0 : st_ready s' = []) by (apply Permutation_nil; by rewrite HR, Hnext).
    destruct (st_GetFirst_spec c (m_task_storage k2) s') as (b & Eb & Hb); [done|apply (ci_sched c _ Hc')| |].
    { intros E0. apply Hnil. unfold members, k2. cbn. apply Permutation_nil. by rewrite <- HR, <- HA, E0. }
    rewrite Eb. cbn [mbind res_bind]. eexists _, _. split; [done|].
    split_and!; [|right; cbn; auto|done|done]. apply Hfin; [done|by right; left].
Qed.

Lemma on_stop k : kernel_inv c k → m_task_now k = None → kernel_inv c (OnStop c k).
Proof.
  intros [Hs Hy [Hn Hl]] E. unfold OnStop. destruct (IsDynamicMode c); [|done]. split; [done..|].
  split; cbn; rewrite E in *; auto.
Qed.

(** ** Scheduler lock, time slices, weights *)

Lemma set_lock k b in_isr r k' : kernel_inv c k → m_fsm_state k ≠ FSM_STATE_SLEEPING →
  SetSchedulerLock c in_isr b k = (r, k') → kernel_inv c k'.
Proof.
  intros [Hs Hy [Hn Hl]] Hf. unfold SetSchedulerLock.
  destruct (negb (IsHrtMode c)), in_isr, (m_kstate k); intros [= <- <-]; (split; [done..|]; split; [done|]; cbn; done).
Qed.

Lemma set_time_slice k tid n : kernel_inv c k → tid ≠ TID_NONE → 0 ≤ n ≤ INT32_MAX → is_Some (FindTaskByUserTask tid k) →
  IsTimesliceMode c = true → ∃ r k', Service_SetTimeSlice c tid n k = Ok (r, k') ∧ kernel_inv c k'.
Proof.
  intros Hk Ht Hn [i Hi] Hm. unfold Service_SetTimeSlice, OnSetTimeSlice, task_of_tid. rewrite Hm.
  rewrite (proj2 (Z.eqb_neq tid TID_NONE)), (proj2 (Z.leb_le NO_TIME_SLICE n)), Hi by (unfold NO_TIME_SLICE; done || lia).
  cbn [negb stk_assert mbind res_bind]. destruct (find_task tid k i Hi Ht) as (t & Htt & _).
  rewrite (task_at_ok k i t Htt). cbn [mbind res_bind]. eexists _, _. split; [done|].
  apply (kernel_inv_neutral k i t); try done. destruct (ci_self c k i t (kernel_core k Hk) Htt). split; try done.
Qed.
(** A task whose weights change, and nothing else. *)
Definition reweighted (t t' : KernelTask) : Prop := ∃ a b, t' = with_rt_weight a (with_base_weight b t).

Lemma SetCurrentWeight_re w t : reweighted t (SetCurrentWeight c w t).
Proof.
  unfold SetCurrentWeight. destruct (WEIGHT_API _); [by exists w, (m_base_weight t)|].
  exists (m_rt_weight t), (m_base_weight t). by destruct t.
Qed.
Lemma SetBaseWeight_re w t : reweighted t (SetBaseWeight c w t).
Proof.
  unfold SetBaseWeight. destruct (WEIGHT_API _); [by exists (m_rt_weight t), w|].
  exists (m_rt_weight t), (m_base_weight t). by destruct t.
Qed.
Lemma reweighted_trans t1 t2 t3 : reweighted t1 t2 → reweighted t2 t3 → reweighted t1 t3.
Proof. intros (a & b & ->) (a' & b' & ->). by exists a', b'. Qed.

Lemma GetWeight_ok t : IsBusy t = true → ∃ w b, GetWeight c t = Ok w ∧ GetBaseWeight c t = Ok b.
Proof.
  intros Hb. unfold IsBusy in Hb. destruct (m_user t) as [u|] eqn:E; [|done].
  assert (H : ∃ b, GetBaseWeight c t = Ok b).
  { unfold GetBaseWeight. rewrite E. destruct (WEIGHT_API _); [|eauto]. destruct (negb _); cbn; eauto. }
  destruct H as [b Eb]. unfold GetWeight. rewrite Eb. destruct (PRIORITY_INHERITANCE_API _); [|eauto].
  destruct (negb _); eauto.
Qed.

Context (Hsc : cfg_strategy c = st_config ops).

Lemma change_weight k i t t' w : kernel_inv c k → has_inheritance c = true → m_task_storage k !! i = Some t →
  IsBusy t = true → reweighted t t' → st_weight_ok c t' → GetWeight c t = Ok w →
  ∃ k', strat (st_OnTaskWeightChange ops c i w) (put_task i t' k) = Ok k' ∧ kernel_inv c k' ∧
    m_task_storage k' = <[i := t']> (m_task_storage k).
Proof.
  intros Hk Hin Ht Hb (a & b & ->) Hok Hw. set (t' := with_rt_weight _ _) in *.
  apply andb_true_iff in Hin as [_ Hin]. rewrite Hsc in Hin.
  assert (Htk := si_task c _ _ _ (ki_sched c k Hk) i t Ht).
  destruct (st_OnTaskWeightChange_spec c (m_task_storage k) (m_strategy k) i t t' w) as (s' & E & Hs' & HR & HA);
    try done; [apply (ki_sched c k Hk)|by eapply (si_member c); [apply (ki_sched c k Hk)|..]|].
  eexists. split; [by apply strat_ok|]. split; [|done]. apply kernel_of_core.
  - split; cbn.
    + apply (sched_inv_move c _ (m_strategy k) _ _ i t); [apply (ki_sched c k Hk)|done|done|..].
      * intros j _. by rewrite HR, HA.
      * eapply task_ok_perm; [by symmetry|by symmetry|]. destruct Htk as [[] ? ? ? ?]. by split; [split|..].
    + eapply sync_inv_ext; [|apply (ki_sync c k Hk)]. by apply (waits_for_same _ i t).
  - eapply now_inv_same; [apply (ki_now c k Hk)|done..|]. intros x. unfold members. cbn. by rewrite HR, HA.
Qed.

Lemma task_of_tid_ok k tid i : tid ≠ TID_NONE → FindTaskByUserTask tid k = Some i → task_of_tid tid k = Ok i.
Proof. intros Ht Hi. unfold task_of_tid. by rewrite (proj2 (Z.eqb_neq tid TID_NONE)), Hi. Qed.

Lemma inherit_weight k tid w i t : kernel_inv c k → tid ≠ TID_NONE → FindTaskByUserTask tid k = Some i →
  m_task_storage k !! i = Some t → (w ≠ NO_WEIGHT → st_weight_ok c (SetCurrentWeight c w t)) →
  ∃ k', Service_InheritWeight ops c tid w k = Ok k' ∧ kernel_inv c k'.
Proof.
  intros Hk Htid Hi Ht Hok. unfold Service_InheritWeight. destruct (has_inheritance c) eqn:Hin; [|eauto].
  unfold OnInheritWeight. rewrite (proj2 (Z.eqb_neq tid TID_NONE)), Hin by done. cbn [negb stk_assert].
  destruct (Z.eqb_spec w NO_WEIGHT) as [?|Hw]; cbn [negb]; [eauto|].
  destruct (find_task tid k i Hi Htid) as (t0 & Ht0 & _ & Hb). rewrite Ht in Ht0. injection Ht0 as <-.
  rewrite (task_of_tid_ok k tid i) by done. cbn [mbind res_bind]. rewrite (task_at_ok k i t Ht). cbn [mbind res_bind].
  destruct (GetWeight_ok t Hb) as (pw & _ & Ew & _). rewrite Ew. cbn [mbind res_bind].
  destruct (pw <? w); [|eauto]. rewrite (mod_task_ok k i t) by done. cbn [mbind res_bind].
  destruct (change_weight k i t (SetCurrentWeight c w t) pw) as (k' & -> & ? & _); try done; [apply SetCurrentWeight_re|auto|].
  eauto.
Qed.

Lemma max_waiter_ok k l : ∀ m, (∀ j, j ∈ l → ∃ t v, m_task_storage k !! j = Some t ∧ m_user t = Some v) →
  ∃ w, max_waiter_weight l m k = Ok w ∧
    (w = m ∨ ∃ j t v, j ∈ l ∧ m_task_storage k !! j = Some t ∧ m_user t = Some v ∧ w = u_weight v).
Proof.
  induction l as [|i l IH]; intros m Hl; [eauto|]. destruct (Hl i) as (t & v & Ht & Hv); [set_solver|].
  cbn [max_waiter_weight]. rewrite (task_at_ok k i t Ht). cbn [mbind res_bind]. rewrite Hv. cbn [deref mbind res_bind].
  destruct (IH (if u_weight v >? m then u_weight v else m)) as (w & -> & Hw); [set_solver|]. exists w. split; [done|].
  destruct Hw as [-> |(j & ? & ? & ? & ?)].
  - destruct (_ >? _); [|by left]. right. exists i, t, v. split_and!; [set_solver|done..].
  - right. exists j. eexists _, _. split; [set_solver|done].
Qed.

Lemma waiter_user k x so j : kernel_inv c k → m_sync k !! x = Some so → j ∈ so_wait_list so →
  ∃ t v, m_task_storage k !! j = Some t ∧ m_user t = Some v.
Proof.
  intros Hk Hso Hj. apply (sy_list _ _ _ _ (ki_sync c k Hk) x so Hso) in Hj. unfold waits_for in Hj.
  destruct (m_task_storage k !! j) as [u|] eqn:Hu; [|done]. cbn in Hj.
  destruct (waiting_free u (ci_self c k j u (kernel_core k Hk) Hu)) as (_ & Hbu & _); [unfold IsWaiting; by rewrite Hj|].
  unfold IsBusy in Hbu. destruct (m_user u) eqn:Eu; [eauto|done].
Qed.

Lemma restore_weight k tid o i t : kernel_inv c k → tid ≠ TID_NONE → FindTaskByUserTask tid k = Some i →
  m_task_storage k !! i = Some t → (∀ x, o = Some x → is_Some (m_sync k !! x)) →
  (∀ w, w = NO_WEIGHT ∨ (∃ j u v, m_task_storage k !! j = Some u ∧ m_user u = Some v ∧ w = u_weight v) →
    st_weight_ok c (SetCurrentWeight c w t)) →
  ∃ k', Service_RestoreWeight ops c tid o k = Ok k' ∧ kernel_inv c k'.
Proof.
  intros Hk Htid Hi Ht Ho Hok. unfold Service_RestoreWeight. destruct (has_inheritance c) eqn:Hin; [|eauto].
  unfold OnRestoreWeight. rewrite (proj2 (Z.eqb_neq tid TID_NONE)), Hin by done. cbn [negb stk_assert].
  destruct (find_task tid k i Hi Htid) as (t0 & Ht0 & _ & Hb). rewrite Ht in Ht0. injection Ht0 as <-.
  rewrite (task_of_tid_ok k tid i) by done. cbn [mbind res_bind]. rewrite (task_at_ok k i t Ht). cbn [mbind res_bind].
  destruct (GetWeight_ok t Hb) as (pw & _ & Ew & _). rewrite Ew. cbn [mbind res_bind].
  assert (E : ∃ w, match o with Some x => FindWeightHigherThan x pw k | None => Ok NO_WEIGHT end = Ok w ∧ st_weight_ok c (SetCurrentWeight c w t)).
  { destruct o as [x|]; [|exists NO_WEIGHT; auto]. destruct (Ho x eq_refl) as [so Hso]. unfold FindWeightHigherThan.
    rewrite Hso. cbn [deref mbind res_bind].
    destruct (max_waiter_ok k (so_wait_list so) NO_WEIGHT) as (w & -> & Hw).
    { intros j. by apply (waiter_user k x so). }
    cbn [mbind res_bind]. eexists. split; [done|]. apply Hok. destruct (w >? pw); [|by left].
    destruct Hw as [?|(j & u & v & _ & ?)]; [by left|]. right. eauto. }
  destruct E as (w & -> & Hw). cbn [mbind res_bind]. rewrite (mod_task_ok k i t) by done. cbn [mbind res_bind].
  destruct (change_weight k i t (SetCurrentWeight c w t) pw) as (k' & -> & ? & _); try done; [apply SetCurrentWeight_re|]. eauto.
Qed.

Lemma set_weight k tid w i t : kernel_inv c k → tid ≠ TID_NONE → w ≠ NO_WEIGHT → has_inheritance c = true →
  FindTaskByUserTask tid k = Some i → m_task_storage k !! i = Some t →
  (∀ a, a = m_rt_weight t ∨ a = NO_WEIGHT → st_weight_ok c (with_rt_weight a (with_base_weight w t))) →
  ∃ r k', Service_SetWeight ops c tid w k = Ok (r, k') ∧ kernel_inv c k'.
Proof.
  intros Hk Htid Hw Hin Hi Ht Hok. unfold Service_SetWeight, OnSetWeight.
  rewrite (proj2 (Z.eqb_neq tid TID_NONE)), (proj2 (Z.eqb_neq w NO_WEIGHT)), Hin by done. cbn [negb stk_assert].
  destruct (find_task tid k i Hi Htid) as (t0 & Ht0 & _ & Hb). rewrite Ht in Ht0. injection Ht0 as <-.
  rewrite (task_of_tid_ok k tid i) by done. cbn [mbind res_bind]. rewrite (task_at_ok k i t Ht). cbn [mbind res_bind].
  destruct (GetWeight_ok t Hb) as (pw & pb & Ew & Eb). rewrite Ew, Eb. cbn [mbind res_bind].
  match goal with |- context [put_task i ?x k] => set (t' := x) end.
  assert (Hre : ∃ a, (a = m_rt_weight t ∨ a = NO_WEIGHT) ∧ t' = with_rt_weight a (with_base_weight w t)).
  { assert (Hwa : WEIGHT_API (cfg_strategy c) = true) by (by apply andb_true_iff in Hin as [? _]).
    subst t'. unfold SetBaseWeight, SetCurrentWeight. rewrite Hwa.
    destruct (_ && _); [exists NO_WEIGHT|exists (m_rt_weight t)]; (split; [|done]); auto. }
  destruct Hre as (a & Ha & Et').
  destruct (change_weight k i t t' pw) as (k' & -> & ? & _); [done..|by exists a, w|rewrite Et'; by apply Hok|done|]. cbn. eauto.
Qed.
(** ** The rest of the interface *)

Lemma service_exit k SP i t : kernel_inv c k → executes k SP i t → IsLocked k = false → IsDynamicMode c = true →
  ∃ k', Service_ExitTask ops c WordSize false SP k = Ok k' ∧ kernel_inv c k'.
Proof.
  intros Hk Hx Hl Hd. unfold Service_ExitTask, OnTaskExitImpl. cbn [negb stk_assert]. rewrite Hd.
  rewrite (caller_ok k SP i t Hx). cbn [mbind res_bind]. rewrite Hl. cbn [negb andb stk_assert].
  destruct (schedule_removal k i t) as (k' & _ & ? & ? & _); [done|apply Hx|by eapply executes_busy|by rewrite (ex_now _ _ _ _ Hx)|].
  eauto.
Qed.

Lemma schedule_task_removal k u : kernel_inv c k → u ≠ 0 → m_task_now k ≠ None → IsDynamicMode c = true →
  ∃ k', ScheduleTaskRemoval ops c u k = Ok k' ∧ kernel_inv c k'.
Proof.
  intros Hk Hu Hn Hd. unfold ScheduleTaskRemoval, IsStarted. rewrite Hd, (proj2 (Z.eqb_neq u 0)) by done.
  rewrite bool_decide_eq_false_2 by done. cbn [negb stk_assert].
  destruct (FindTaskByUserTask u k) as [i|] eqn:Ei; [|eauto]. destruct (find_task u k i Ei Hu) as (t & Ht & _ & Hb).
  destruct (schedule_removal k i t) as (k' & _ & ? & ? & _); [done..|]. eauto.
Qed.

Lemma on_suspend k a b : kernel_inv c k → m_task_now k = Some a → ∃ k', OnSuspend c b k = Ok k' ∧ kernel_inv c k'.
Proof.
  intros Hk Hn. unfold OnSuspend. match goal with |- context [deref (m_task_now ?x)] => set (k1 := x) end.
  assert (Hk1 : kernel_inv c k1 ∧ m_task_now k1 = m_task_now k).
  { destruct Hk as [Hs Hy [H1 H2]]. unfold k1.
    destruct b; (destruct (_ || _) || destruct (bool_decide _)); (split; [split; [done|done|by split]|done]). }
  destruct Hk1 as [Hk1 En]. rewrite En, Hn. cbn [deref mbind res_bind].
  assert (Hm := ni_now k1 (ki_now c k1 Hk1)). rewrite En, Hn in Hm. destruct Hm as [Hm _].
  destruct (si_get c _ _ _ a (ki_sched c k1 Hk1) Hm) as (t & Ht & Hb & _).
  rewrite (task_at_ok k1 a t Ht). cbn [mbind res_bind]. destruct (IsSleeping t) eqn:Hsl; cbn [negb]; [eauto|].
  rewrite (upd_task_ok k1 a t (slept YIELD_TICKS t)); [|done|by apply ScheduleSleep_ok]. eexists. split; [done|].
  apply sleep_kernel; [done..|right; by rewrite En|unfold YIELD_TICKS, INT32_MAX; lia].
Qed.
End safe.
End KernelSafe.
