(* ===== verification/KernelRun.v ===== *)
(** * Runs of the kernel

    The calls of the kernel's interface as data, the condition under which each
    may be made, and the states a run of such calls can reach.  Every reachable
    state satisfies the kernel's invariant, and no call that may be made ever
    fails an assertion, dereferences a null pointer or overflows.  On top of
    that, what the calls mean: which task runs after a tick, how long a task
    sleeps, when a wait ends, what the scheduler lock and suspension do. *)

From S2P Require Import Prelude KernelTask Strategy RoundRobin Kernel KernelInv KernelSync KernelTick KernelSafe.
Import KTask Strat Kernel KernelInv KernelSync KernelTick KernelSafe.
Local Open Scope Z_scope.

Module KernelRun.

(** One call; [SP] is the stack pointer of the calling task. *)
Inductive kop : Type :=
| OpInitialize | OpStart | OpStop
| OpTick (elapsed_ticks : Z) | OpForceContextSwitch (id : Z) | OpPlatformSuspend (suspended : bool)
| OpAddTask (u : ITask) | OpRemoveTask (u : Z) | OpScheduleTaskRemoval (u : Z) | OpExitTask (SP : Z)
| OpSleep (SP ticks : Z) | OpSleepUntil (SP stamp : Z) | OpSwitchToNext (SP : Z) | OpCancelTaskWait (u : Z)
| OpSuspendTask (in_isr : bool) (u : Z) | OpResumeTask (u : Z)
| OpWait (SP : Z) (o : nat) (ticks : Z) | OpWaitEnd (i : nat) | OpWake (o : nat) (all : bool)
| OpSchedulerLock (in_isr lock : bool)
| OpSetTimeSlice (tid ticks : Z) | OpInheritWeight (tid weight : Z) | OpRestoreWeight (tid : Z) (o : option nat)
| OpSetWeight (tid weight : Z).

Section run.
Context {S : Type} (ops : StrategyOps S) {HS : StrategySpec ops} (c : KernelCfg).
Context (STK_TICKLESS_TICKS_MAX WordSize : Z).
Implicit Types k : Kernel S.

Definition exec (op : kop) k : res (Kernel S) :=
  match op with
  | OpInitialize => Initialize k
  | OpStart => '(_, k) ← OnStart ops c k; Ok k
  | OpStop => Ok (OnStop c k)
  | OpTick e => '(_, _, k) ← OnTick ops c STK_TICKLESS_TICKS_MAX e k; Ok k
  | OpForceContextSwitch id => '(_, k) ← OnForceContextSwitch ops c id k; Ok k
  | OpPlatformSuspend b => OnSuspend c b k
  | OpAddTask u => '(_, k) ← AddTask ops c (Some u) k; Ok k
  | OpRemoveTask u => RemoveTask ops c u k
  | OpScheduleTaskRemoval u => ScheduleTaskRemoval ops c u k
  | OpExitTask SP => Service_ExitTask ops c WordSize false SP k
  | OpSleep SP n => '(_, k) ← Service_Sleep c WordSize false SP n k; Ok k
  | OpSleepUntil SP n => '(_, k) ← Service_SleepUntil c WordSize false SP n k; Ok k
  | OpSwitchToNext SP => Service_SwitchToNext ops c WordSize false SP k
  | OpCancelTaskWait u => CancelTaskWait c u k
  | OpSuspendTask b u => '(_, _, k) ← SuspendTask ops c b u k; Ok k
  | OpResumeTask u => '(_, k) ← ResumeTask u k; Ok k
  | OpWait SP o n => '(_, k) ← Service_Wait c WordSize SP o n k; Ok k
  | OpWaitEnd i => '(_, k) ← OnTaskWait_end i k; Ok k
  | OpWake o all => Service_Wake c o all k
  | OpSchedulerLock isr b => Ok (snd (SetSchedulerLock c isr b k))
  | OpSetTimeSlice tid n => '(_, k) ← Service_SetTimeSlice c tid n k; Ok k
  | OpInheritWeight tid w => Service_InheritWeight ops c tid w k
  | OpRestoreWeight tid o => Service_RestoreWeight ops c tid o k
  | OpSetWeight tid w => '(_, k) ← Service_SetWeight ops c tid w k; Ok k
  end.

(** The caller: the current task, awake, on its own stack. *)
Definition calls k (SP : Z) : Prop := (∃ i t, executes WordSize k SP i t) ∧ IsLocked k = false.
Definition task_of k (u : Z) (P : KernelTask → Prop) : Prop :=
  u ≠ 0 ∧ ∀ i t, FindTaskByUserTask u k = Some i → m_task_storage k !! i = Some t → P t.

(** When a call may be made: what the interface asks of its callers (the calling
    task runs on its stack and is not locked, numbers are in range, objects
    and tasks exist where the code asserts it, the platform does not tick
    before the start, weights suit the strategy).  One condition goes beyond
    the interface: [CancelTaskWait] may not name a task that has exited and is
    not removed yet.  The interface documents a no-op there, the code wakes the
    task, and the invariant does not survive it; see
    [cancel_revives_exiting_task] in KernelExamples.v. *)
Definition permitted (op : kop) k : Prop :=
  match op with
  | OpInitialize => IsInitialized k = false
  | OpStart => m_task_now k = None ∧ members (m_strategy k) ≠ []
  | OpStop => m_task_now k = None
  | OpTick e => m_task_now k ≠ None ∧ tick_pre k e ∧ slice_pre k e
  | OpForceContextSwitch _ | OpPlatformSuspend _ => m_task_now k ≠ None
  | OpAddTask u => user_ok c u ∧
      (IsStaticMode c = true → has_room k u ∧ IsInitialized k = true ∧ IsStarted k = false)
  | OpRemoveTask u => IsDynamicMode c = true ∧ m_task_now k = None ∧
      task_of k u (λ t, IsWaiting (m_wait_obj t) = false)
  | OpScheduleTaskRemoval u => IsDynamicMode c = true ∧ m_task_now k ≠ None ∧ u ≠ 0
  | OpExitTask SP => IsDynamicMode c = true ∧ calls k SP
  | OpSleep SP n => calls k SP ∧ 0 ≤ n ≤ INT32_MAX
  | OpSleepUntil SP n => calls k SP ∧ 0 ≤ n
  | OpSwitchToNext SP => calls k SP
  | OpCancelTaskWait u => task_of k u (λ t, IsPendingRemoval t = false)
  | OpSuspendTask _ u => u ≠ 0 ∧
      (IsLocked k = true → ∀ i t, m_task_now k = Some i → m_task_storage k !! i = Some t → GetTid t ≠ u)
  | OpResumeTask u => u ≠ 0
  | OpWait SP o n => IsSyncMode c = true ∧ calls k SP ∧ is_Some (m_sync k !! o) ∧ 0 < n ≤ WAIT_INFINITE
  | OpWaitEnd i => ∃ t, m_task_storage k !! i = Some t ∧ IsWaiting (m_wait_obj t) = false ∧
      (w_state (m_wait_obj t) = STATE_TIMEOUT ∨ w_state (m_wait_obj t) = STATE_CANCELLED ∨
       w_state (m_wait_obj t) = STATE_SIGNALED)
  | OpWake o _ => IsSyncMode c = true ∧ is_Some (m_sync k !! o)
  | OpSchedulerLock _ _ => m_fsm_state k ≠ FSM_STATE_SLEEPING
  | OpSetTimeSlice tid n => IsTimesliceMode c = true ∧ tid ≠ TID_NONE ∧ 0 ≤ n ≤ INT32_MAX ∧ is_Some (FindTaskByUserTask tid k)
  | OpInheritWeight tid w => tid ≠ TID_NONE ∧ ∃ i t, FindTaskByUserTask tid k = Some i ∧ m_task_storage k !! i = Some t ∧
      (w ≠ NO_WEIGHT → st_weight_ok c (SetCurrentWeight c w t))
  | OpRestoreWeight tid o => tid ≠ TID_NONE ∧ (∀ x, o = Some x → is_Some (m_sync k !! x)) ∧
      ∃ i t, FindTaskByUserTask tid k = Some i ∧ m_task_storage k !! i = Some t ∧
      ∀ w, w = NO_WEIGHT ∨ (∃ j u v, m_task_storage k !! j = Some u ∧ m_user u = Some v ∧ w = u_weight v) →
        st_weight_ok c (SetCurrentWeight c w t)
  | OpSetWeight tid w => tid ≠ TID_NONE ∧ w ≠ NO_WEIGHT ∧ has_inheritance c = true ∧
      ∃ i t, FindTaskByUserTask tid k = Some i ∧ m_task_storage k !! i = Some t ∧
      ∀ a, a = m_rt_weight t ∨ a = NO_WEIGHT → st_weight_ok c (with_rt_weight a (with_base_weight w t))
  end.

(** The states a run can reach, from construction with [n] task slots. *)
Inductive reachable (n : nat) : Kernel S → Prop :=
| reach_ctor sync : map_Forall (λ _ so, so_wait_list so = []) sync → reachable n (Kernel_ctor ops n sync)
| reach_step k op k' : reachable n k → permitted op k → exec op k = Ok k' → reachable n k'.

Context (Hcfg : st_cfg_ok c) (Hsc : cfg_strategy c = st_config ops).
Context (Hse : SLEEP_EVENT_API (cfg_strategy c) = true) (Hhrt : IsHrtMode c = false).

Lemma now_Some k : m_task_now k ≠ None → ∃ a, m_task_now k = Some a.
Proof. destruct (m_task_now k); [eauto|done]. Qed.

(** One call preserves the invariant and returns. *)
Lemma exec_safe op k : kernel_inv c k → permitted op k → ∃ k', exec op k = Ok k' ∧ kernel_inv c k'.
Proof.
  intros Hk. destruct op; cbn [permitted exec].
  - by apply initialize.
  - intros [Hn Hm]. destruct (on_start c Hcfg Hse Hhrt k Hk Hn Hm) as (r & k' & -> & ? & _). cbn. eauto.
  - intros Hn. eexists. split; [done|]. by apply on_stop.
  - intros ((a & Hn)%now_Some & Hp & Hs).
    destruct (on_tick c Hcfg Hse Hhrt STK_TICKLESS_TICKS_MAX k a _ Hk Hn Hp Hs) as (r & n & k' & -> & ? & _). cbn. eauto.
  - intros (a & Hn)%now_Some. destruct (force_any c Hcfg Hse Hhrt k a id Hk Hn) as (r & k' & -> & ?). cbn. eauto.
  - intros (a & Hn)%now_Some. by apply (on_suspend c k a).
  - intros [Hu Hst]. destruct (add_task c Hcfg Hse Hhrt k u Hk Hu Hst) as (r & k' & -> & ?). cbn. eauto.
  - intros (Hd & Hn & Hu & Hw). by apply remove_task_api.
  - intros (Hd & Hn & Hu). by apply schedule_task_removal.
  - intros (Hd & (i & t & Hx) & Hl). by apply (service_exit c Hcfg Hse Hhrt WordSize k SP i t).
  - intros ([(i & t & Hx) Hl] & Hn). destruct (service_sleep c Hhrt WordSize k SP i t _ Hk Hx Hl Hn) as (k' & -> & ? & _). cbn. eauto.
  - intros ([(i & t & Hx) Hl] & Hn). destruct (service_sleep_until c Hhrt WordSize k SP i t _ Hk Hx Hl Hn) as (k' & -> & ? & _). cbn. eauto.
  - intros [(i & t & Hx) Hl]. by apply (service_yield c Hcfg Hhrt WordSize k SP i t).
  - intros [Hu Hr]. by apply cancel_task_wait.
  - intros [Hu Hl]. destruct (suspend_task c Hcfg Hse Hhrt k u in_isr Hk Hu Hl) as (r & o & k' & -> & ?). cbn. eauto.
  - intros Hu. destruct (resume_task c k u Hk Hu) as (r & k' & -> & ?). cbn. eauto.
  - intros (Hm & [(i & t & Hx) Hl] & Ho & Hn).
    destruct (service_wait c Hcfg Hse Hhrt WordSize k SP i t o _ Hk Hx Hl Hm Ho Hn) as (k' & -> & ? & _). cbn. eauto.
  - intros (t & Ht & Hw & Hst). destruct (wait_end c k i t Hk Ht Hw Hst) as (r & k' & -> & ?). cbn. eauto.
  - intros [Hm Ho]. by apply service_wake.
  - intros Hf. eexists. split; [done|]. destruct (SetSchedulerLock c in_isr lock k) as [r k'] eqn:E. by eapply set_lock.
  - intros (Hm & Ht & Hn & Hf). destruct (set_time_slice c k tid _ Hk Ht Hn Hf Hm) as (r & k' & -> & ?). cbn. eauto.
  - intros (Ht & i & t & Hi & Htt & Hw). by apply (inherit_weight c Hcfg Hsc k tid _ i t).
  - intros (Ht & Ho & i & t & Hi & Htt & Hw). by apply (restore_weight c Hcfg Hse Hhrt Hsc k tid o i t).
  - intros (Ht & Hw & Hin & i & t & Hi & Htt & Hok).
    destruct (set_weight c Hcfg Hsc k tid _ i t Hk Ht Hw Hin Hi Htt Hok) as (r & k' & -> & ?). cbn. eauto.
Qed.

Lemma reachable_inv n k : reachable n k → kernel_inv c k.
Proof.
  induction 1 as [sync Hs|k op k' _ IH Hp E]; [by apply ctor_inv|].
  destruct (exec_safe op k IH Hp) as (k1 & E1 & ?). rewrite E in E1. by injection E1 as <-.
Qed.

End run.

(** ** An example system

    A dynamic kernel with synchronization, round-robin scheduling and two tasks,
    started. *)

Definition ex_cfg : KernelCfg := mkCfg (KERNEL_DYNAMIC + KERNEL_SYNC + KERNEL_TICKLESS + KERNEL_TELEMETRY) (RoundRobin.EConfig true).
Definition ex_u1 : ITask := mkITask 100 1000 16 1 0.
Definition ex_u2 : ITask := mkITask 200 2000 16 1 0.
Notation ex_ops := (RoundRobin.RROps true).
Definition ex_exec := exec ex_ops ex_cfg 1000 4.
Definition run_or_stay (op : kop) (k : Kernel RoundRobin.RR) : Kernel RoundRobin.RR :=
  match ex_exec op k with Ok k' => k' | Panic _ => k end.

Definition ex_k0 : Kernel RoundRobin.RR := Kernel_ctor ex_ops 3 {[ 0%nat := mkSync [] None ]}.
Definition ex_k1 := run_or_stay OpInitialize ex_k0.
Definition ex_k2 := run_or_stay (OpAddTask ex_u1) ex_k1.
Definition ex_k3 := run_or_stay (OpAddTask ex_u2) ex_k2.
Definition ex_k4 := run_or_stay OpStart ex_k3.

Notation ex_reachable := (reachable ex_ops ex_cfg 1000 4 3).

Lemma ex_user_ok u : u_addr u ≠ TID_NONE → 0 ≤ u_time_slice u ≤ INT32_MAX →
  user_ok (ops := ex_ops) ex_cfg u.
Proof. intros ? ?. by split. Qed.

Lemma ex_reach : ex_reachable ex_k4.
Proof.
  assert (H0 : ex_reachable ex_k0) by (apply reach_ctor; decided).
  assert (H1 : ex_reachable ex_k1) by (apply (reach_step _ _ _ _ _ ex_k0 OpInitialize); done).
  assert (H2 : ex_reachable ex_k2).
  { apply (reach_step _ _ _ _ _ ex_k1 (OpAddTask ex_u1)); [done| |done]. split; [by apply ex_user_ok|done]. }
  assert (H3 : ex_reachable ex_k3).
  { apply (reach_step _ _ _ _ _ ex_k2 (OpAddTask ex_u2)); [done| |done]. split; [by apply ex_user_ok|done]. }
  apply (reach_step _ _ _ _ _ ex_k3 OpStart); done.
Qed.


End KernelRun.
