(* ===== verification/KernelOrder.v ===== *)
(** * The order of the waiters

    Whatever call is made and whatever its outcome, the wait list of a
    synchronization object is a queue: a wait puts its caller at the end, and
    every other call at most takes waiters out, without changing the order of
    the rest.  The first task of a list is therefore the one that has waited
    longest. *)

From S2P Require Import Prelude KernelTask Strategy Kernel KernelInv KernelSync KernelTick KernelSafe KernelRun.
Import KTask Strat Kernel KernelInv KernelSync KernelTick KernelSafe KernelRun.
Local Open Scope Z_scope.

Module KernelOrder.

Section order.
Context {S : Type} (ops : StrategyOps S) (c : KernelCfg).
Context (STK_TICKLESS_TICKS_MAX WordSize : Z).
Implicit Types k : Kernel S.

(** The tasks waiting for object [o], in order. *)
Definition wait_list k (o : nat) : list nat := default [] (so_wait_list <$> m_sync k !! o).

(** Waiters may only have left. *)
Definition queue_le k k' : Prop := ∀ o, wait_list k' o `sublist_of` wait_list k o.

Lemma queue_le_refl k : queue_le k k.
Proof. by intros o. Qed.
Lemma queue_le_trans k1 k2 k3 : queue_le k1 k2 → queue_le k2 k3 → queue_le k1 k3.
Proof. intros H1 H2 o. by transitivity (wait_list k2 o). Qed.

(** Chains the calls a successful operation consists of, from the last one
    back to the first; everything but [m_sync] is irrelevant. *)
Create HintDb fifo.
Local Ltac split_run := repeat first
  [ progress inv_res
  | match goal with
    | H : (if ?b then _ else _) = Ok _ |- _ => destruct b eqn:?
    | H : match ?x with _ => _ end = Ok _ |- _ => destruct x eqn:?
    end ].
Local Ltac chain := repeat first
  [ apply queue_le_refl
  | lazymatch goal with
    | |- queue_le ?y (set_tasks _ ?x) => change (queue_le y x)
    | |- queue_le ?y (put_task _ _ ?x) => change (queue_le y x)
    | |- queue_le ?y (set_strategy _ ?x) => change (queue_le y x)
    | |- queue_le ?y (set_now _ ?x) => change (queue_le y x)
    | |- queue_le ?y (set_fsm _ ?x) => change (queue_le y x)
    | |- queue_le ?y (set_kstate _ ?x) => change (queue_le y x)
    | |- queue_le ?y (set_ticks _ ?x) => change (queue_le y x)
    | |- queue_le ?y (set_sync_list _ ?x) => change (queue_le y x)
    end
  | match goal with |- context [if ?b then _ else _] => destruct b end
  | eapply queue_le_trans; [|solve [eauto 2 with fifo nocore]] ].
Local Ltac walk f := intros; unfold f in *; split_run; chain.

(** ** What the operations are made of *)

Lemma upd_task_fifo i f k k' : upd_task i f k = Ok k' → queue_le k k'.
Proof. walk @upd_task. Qed.
Lemma mod_task_fifo i f k k' : mod_task i f k = Ok k' → queue_le k k'.
Proof. apply upd_task_fifo. Qed.
Lemma strat_fifo f k k' : strat f k = Ok k' → queue_le k k'.
Proof. walk @strat. Qed.
Lemma strat_ask_fifo {A} (f : list KernelTask * S → res (A * (list KernelTask * S))) k a k' :
  strat_ask f k = Ok (a, k') → queue_le k k'.
Proof. walk @strat_ask. Qed.
#[local] Hint Resolve upd_task_fifo mod_task_fifo strat_fifo strat_ask_fifo : fifo.

Lemma remove_wait_fifo o i st k k' : RemoveWaitObject o i st k = Ok k' → queue_le k k'.
Proof.
  unfold RemoveWaitObject. intros H. inv_res. intros o'. unfold wait_list. cbn.
  destruct (decide (o' = o)) as [->|Hne]; [|by rewrite lookup_insert_ne].
  match goal with E : m_sync _ !! o = Some _ |- _ => rewrite E end. rewrite lookup_insert_eq. cbn.
  apply sublist_filter.
Qed.
#[local] Hint Resolve remove_wait_fifo : fifo.
Lemma end_wait_fifo i st f k k' : end_wait i st f k = Ok k' → queue_le k k'.
Proof. walk @end_wait. Qed.
#[local] Hint Resolve end_wait_fifo : fifo.
Lemma wake_fifo b i k k' : WaitObject_Wake b i k = Ok k' → queue_le k k'.
Proof. walk @WaitObject_Wake. Qed.
Lemma cancel_fifo i k k' : WaitObject_Cancel i k = Ok k' → queue_le k k'.
Proof. walk @WaitObject_Cancel. Qed.
Lemma cancel_no_wake_fifo i k k' : CancelNoWake i k = Ok k' → queue_le k k'.
Proof. walk @CancelNoWake. Qed.
#[local] Hint Resolve wake_fifo cancel_fifo cancel_no_wake_fifo : fifo.
Lemma cancel_waiting_fifo i k b k' : CancelIfWaiting i k = Ok (b, k') → queue_le k k'.
Proof. walk @CancelIfWaiting. Qed.
#[local] Hint Resolve cancel_waiting_fifo : fifo.
Lemma wake_one_fifo o k k' : WakeOne o k = Ok k' → queue_le k k'.
Proof. walk @WakeOne. Qed.
Lemma wake_all_fifo n o : ∀ k k', WakeAll n o k = Ok k' → queue_le k k'.
Proof.
  induction n as [|n IH]; intros k k' H; cbn [WakeAll] in H; split_run; chain.
Qed.
#[local] Hint Resolve wake_one_fifo wake_all_fifo : fifo.

(** ** The operations *)

Lemma tick_waiters_fifo e l : ∀ k k', Tick_waiters e l k = Ok k' → queue_le k k'.
Proof.
  induction l as [|i l IH]; intros k k' H; cbn [Tick_waiters] in H; split_run; chain.
Qed.
#[local] Hint Resolve tick_waiters_fifo : fifo.
Lemma sync_tick_fifo e o k b k' : SyncObject_Tick e o k = Ok (b, k') → queue_le k k'.
Proof. walk @SyncObject_Tick. Qed.
#[local] Hint Resolve sync_tick_fifo : fifo.
Lemma update_sync_fifo e l : ∀ k k', UpdateSyncObjects_loop e l k = Ok k' → queue_le k k'.
Proof.
  induction l as [|o l IH]; intros k k' H; cbn [UpdateSyncObjects_loop] in H; split_run; chain.
Qed.
#[local] Hint Resolve update_sync_fifo : fifo.

Lemma pending_sleep_fifo i k k' : ProcessTaskPendingSleep ops c i k = Ok k' → queue_le k k'.
Proof. walk @ProcessTaskPendingSleep. Qed.
Lemma remove_kernel_task_fifo i k k' : RemoveKernelTask ops c i k = Ok k' → queue_le k k'.
Proof. walk @RemoveKernelTask. Qed.
Lemma sleep_time_fifo e i k k' : UpdateSleepTime ops c e i k = Ok k' → queue_le k k'.
Proof. walk @UpdateSleepTime. Qed.
#[local] Hint Resolve pending_sleep_fifo remove_kernel_task_fifo sleep_time_fifo : fifo.
Lemma sleeping_task_fifo e i k k' : UpdateSleepingTask ops c e i k = Ok k' → queue_le k k'.
Proof. walk @UpdateSleepingTask. Qed.
Lemma awake_task_fifo e i k k' : UpdateAwakeTask ops c e i k = Ok k' → queue_le k k'.
Proof. unfold UpdateAwakeTask, HrtHardFailDeadline. intros. split_run; chain. Qed.
#[local] Hint Resolve sleeping_task_fifo awake_task_fifo : fifo.
Lemma update_task_fifo e i n k m k' : UpdateTask ops c e i n k = Ok (m, k') → queue_le k k'.
Proof. walk @UpdateTask. Qed.
#[local] Hint Resolve update_task_fifo : fifo.
Lemma update_loop_fifo e l : ∀ n k m k', UpdateTaskState_loop ops c e l n k = Ok (m, k') → queue_le k k'.
Proof.
  induction l as [|i l IH]; intros n k m k' H; cbn [UpdateTaskState_loop] in H; split_run; chain.
Qed.
#[local] Hint Resolve update_loop_fifo : fifo.
Lemma update_tasks_fifo e k m k' : UpdateTasks ops c STK_TICKLESS_TICKS_MAX e k = Ok (m, k') → queue_le k k'.
Proof. unfold UpdateTasks, UpdateSyncObjects, UpdateTaskState. intros. split_run; chain. Qed.
Lemma timeslice_fifo e k k' : UpdateTimeslice ops c e k = Ok k' → queue_le k k'.
Proof. walk @UpdateTimeslice. Qed.
Lemma new_state_fifo k f n k' : GetNewFsmState ops c k = Ok (f, n, k') → queue_le k k'.
Proof. unfold GetNewFsmState, FetchNextEvent. intros. split_run; chain. Qed.
#[local] Hint Resolve update_tasks_fifo timeslice_fifo new_state_fifo : fifo.
Lemma fsm_fifo k r k' : UpdateFsmState ops c k = Ok (r, k') → queue_le k k'.
Proof. unfold UpdateFsmState, Transition, StateSwitch, StateSleep, StateWake, StateExit. intros. split_run; chain. Qed.
#[local] Hint Resolve fsm_fifo : fifo.
Lemma on_tick_fifo e k r n k' : OnTick ops c STK_TICKLESS_TICKS_MAX e k = Ok (r, n, k') → queue_le k k'.
Proof. walk @OnTick. Qed.
Lemma force_fifo id k r k' : OnForceContextSwitch ops c id k = Ok (r, k') → queue_le k k'.
Proof. walk @OnForceContextSwitch. Qed.
Lemma start_loop_fifo l : ∀ k k', OnStart_loop ops c l k = Ok k' → queue_le k k'.
Proof.
  induction l as [|i l IH]; intros k k' H; cbn [OnStart_loop] in H; split_run; chain.
Qed.
#[local] Hint Resolve on_tick_fifo force_fifo start_loop_fifo : fifo.
Lemma on_start_fifo k r k' : OnStart ops c k = Ok (r, k') → queue_le k k'.
Proof. walk @OnStart. Qed.
Lemma on_suspend_fifo b k k' : OnSuspend c b k = Ok k' → queue_le k k'.
Proof. walk @OnSuspend. Qed.
#[local] Hint Resolve on_start_fifo on_suspend_fifo : fifo.

Lemma schedule_removal_fifo i k k' : ScheduleRemoval ops c i k = Ok k' → queue_le k k'.
Proof. walk @ScheduleRemoval. Qed.
Lemma sleep_impl_fifo i n k b k' : OnTaskSleepImpl c i n k = Ok (b, k') → queue_le k k'.
Proof. walk @OnTaskSleepImpl. Qed.
#[local] Hint Resolve schedule_removal_fifo sleep_impl_fifo : fifo.
Lemma task_switch_fifo SP k k' : OnTaskSwitch ops c WordSize SP k = Ok k' → queue_le k k'.
Proof. unfold OnTaskSwitch, OnTaskSleep. intros. split_run; chain. Qed.
Lemma suspend_fifo b u k r o k' : SuspendTask ops c b u k = Ok (r, o, k') → queue_le k k'.
Proof. walk @SuspendTask. Qed.
Lemma resume_fifo u k r k' : ResumeTask u k = Ok (r, k') → queue_le k k'.
Proof. walk @ResumeTask. Qed.
Lemma cancel_task_fifo u k k' : CancelTaskWait c u k = Ok k' → queue_le k k'.
Proof. walk @CancelTaskWait. Qed.
Lemma allocate_fifo u k r o k' : TryAllocateNewTask c u k = Ok (r, o, k') → queue_le k k'.
Proof. walk @TryAllocateNewTask. Qed.
#[local] Hint Resolve task_switch_fifo suspend_fifo resume_fifo cancel_task_fifo allocate_fifo : fifo.
Lemma add_task_fifo u k r k' : AddTask ops c u k = Ok (r, k') → queue_le k k'.
Proof. unfold AddTask, AddKernelTask. intros. split_run; chain. Qed.
#[local] Hint Resolve add_task_fifo : fifo.

(** A wait puts its caller at the end of the list. *)
Lemma service_wait_fifo SP o n k i k' : Service_Wait c WordSize SP o n k = Ok (i, k') →
  caller c WordSize SP k = Ok i ∧ wait_list k' o = wait_list k o ++ [i] ∧
  ∀ o', o' ≠ o → wait_list k' o' = wait_list k o'.
Proof.
  unfold Service_Wait, OnTaskWait_begin, SetupWait, AddWaitObject, mod_task, upd_task. intros H. split_run.
  split; [done|]. match goal with E : m_sync _ !! o = Some _ |- _ => cbn in E; rename E into Eo end.
  destruct (bool_decide (o ∈ m_sync_list k)); unfold wait_list; cbn;
    (split; [by rewrite lookup_insert_eq, Eo|intros o' Hne; by rewrite lookup_insert_ne]).
Qed.

(** Every call treats every wait list as a queue. *)
Lemma exec_fifo op k k' : exec ops c STK_TICKLESS_TICKS_MAX WordSize op k = Ok k' →
  queue_le k k' ∨ ∃ SP o n i, op = OpWait SP o n ∧ caller c WordSize SP k = Ok i ∧
    wait_list k' o = wait_list k o ++ [i] ∧ ∀ o', o' ≠ o → wait_list k' o' = wait_list k o'.
Proof.
  destruct op; cbn [exec]; intros H; try (left; unfold Initialize, OnStop, RemoveTask, ScheduleTaskRemoval, Service_ExitTask,
    OnTaskExitImpl, Service_Sleep, Service_SleepUntil, OnTaskSleep, OnTaskSleepUntil, Service_SwitchToNext, OnTaskWait_end, Service_Wake,
    Service_SetTimeSlice, OnSetTimeSlice, Service_InheritWeight, OnInheritWeight, Service_RestoreWeight,
    OnRestoreWeight, Service_SetWeight, OnSetWeight in *; split_run; chain; fail).
  - right. inv_res. eexists _, _, _, _. split; [done|]. by eapply service_wait_fifo.
  - left. unfold SetSchedulerLock in H. injection H as <-. destruct (negb _), in_isr, (m_kstate k); by intros o.
Qed.
End order.
End KernelOrder.
