(* ===== verification/KernelBehaviour.v ===== *)
(** * What the kernel does

    The meaning of the kernel's services, proved for every strategy that
    implements the strategy contract: which task runs after a tick and which
    stacks are switched, how long a task sleeps, when a wait ends and with which
    result, what suspension, removal and the scheduler lock do, and how long a
    tickless kernel may stay idle. *)

From S2P Require Import Prelude KernelTask Strategy RoundRobin Kernel KernelInv KernelSync KernelTick KernelSafe KernelRun KernelOrder.
Import KTask Strat Kernel KernelInv KernelSync KernelTick KernelSafe KernelRun KernelOrder.
Local Open Scope Z_scope.

Module KernelBehaviour.

Section behaviour.
Context {S : Type} (ops : StrategyOps S) {HS : StrategySpec ops} (c : KernelCfg).
Context (STK_TICKLESS_TICKS_MAX WordSize : Z).
Context (Hcfg : st_cfg_ok c) (Hse : SLEEP_EVENT_API (cfg_strategy c) = true) (Hhrt : IsHrtMode c = false).
Implicit Types k : Kernel S.

(** ** Dispatching *)

(** A task is ready for the strategy exactly if it is awake, once pending sleeps
    are processed. *)
Lemma ready_iff_awake k i t : kernel_inv c k → m_task_storage k !! i = Some t → IsBusy t = true →
  has t STATE_SLEEP_PENDING = false → (i ∈ st_ready (m_strategy k) ↔ IsSleeping t = false).
Proof.
  intros Hk Ht Hb Hp. destruct (si_task c _ _ _ (ki_sched c k Hk) i t Ht) as [_ H1 H2 H3 _]. split.
  - intros Hr. destruct (IsSleeping t) eqn:E; [|done]. rewrite (proj2 H2) in Hp; done.
  - intros Ha. destruct (proj1 H1 Hb) as [?|Hs]; [done|]. rewrite (H3 Hs) in Ha. done.
Qed.

Lemma awake_ready k i t : kernel_inv c k → m_task_storage k !! i = Some t → IsBusy t = true →
  IsSleeping t = false → i ∈ st_ready (m_strategy k).
Proof.
  intros Hk Ht Hb Ha. destruct (si_task c _ _ _ (ki_sched c k Hk) i t Ht) as [_ H1 _ H3 _].
  destruct (proj1 H1 Hb) as [?|Hs]; [done|]. rewrite (H3 Hs) in Ha. done.
Qed.

(** What the scheduler has decided, in terms of the tasks. *)
Definition decision k : Prop :=
  match m_task_now k with
  | Some b => ∃ t, m_task_storage k !! b = Some t ∧ IsBusy t = true ∧
      ((m_fsm_state k = FSM_STATE_SWITCHING ∨ m_fsm_state k = FSM_STATE_WAKING) ∧ IsSleeping t = false ∨
       m_fsm_state k = FSM_STATE_SLEEPING ∧
       ∀ j u, m_task_storage k !! j = Some u → IsBusy u = true → IsSleeping u = true)
  | None => m_fsm_state k = FSM_STATE_EXITING ∧ ∀ j u, m_task_storage k !! j = Some u → IsBusy u = false
  end.

Lemma dispatched_decision k : kernel_inv c k → all_awake (m_task_storage k) (m_strategy k) → dispatched k → decision k.
Proof.
  intros Hk Ha. unfold dispatched, decision. assert (Hn := ni_now k (ki_now c k Hk)).
  destruct (m_task_now k) as [b|].
  - destruct Hn as [Hm _]. destruct (si_get c _ _ _ b (ki_sched c k Hk) Hm) as (t & Ht & Hb & _).
    intros [[Hf Hr]|[Hf Hr]]; exists t; split_and!; try done.
    + left. split; [done|]. by eapply Ha.
    + right. split; [done|]. intros j u Hu Hbu. destruct (IsSleeping u) eqn:E; [done|].
      assert (Hj := awake_ready k j u Hk Hu Hbu E). rewrite Hr in Hj. set_solver.
  - intros [Hf Hm]. split; [done|]. intros j u Hu. destruct (IsBusy u) eqn:E; [|done].
    assert (Hj := si_member c _ _ _ j u (ki_sched c k Hk) Hu E). unfold members in Hm. rewrite Hm in Hj. set_solver.
Qed.

(** C2. A tick of an unlocked scheduler first charges the time to all tasks and
    to the time slice, then asks the strategy once for the next task, and what
    the strategy answers is what runs: an awake task if there is one; without
    an answer the kernel goes to sleep, and then every task sleeps, or it
    exits, and then there is no task left.  The stacks handed to the platform
    are those of the context that was interrupted and of the one chosen. *)
Theorem tick_dispatches k a e : kernel_inv c k → m_task_now k = Some a → IsLocked k = false →
  tick_pre k e → slice_pre k e →
  ∃ n k1 k2 r k', UpdateTasks ops c STK_TICKLESS_TICKS_MAX e (set_ticks (m_ticks k + e) k) = Ok (n, k1) ∧
    (if IsTimesliceMode c then UpdateTimeslice ops c e k1 else Ok k1) = Ok k2 ∧
    st_GetNext ops c (m_task_storage k2, m_strategy k2) = Ok (running k', (m_task_storage k', m_strategy k')) ∧
    OnTick ops c STK_TICKLESS_TICKS_MAX e k = Ok (r, n, k') ∧ decision k' ∧
    r = switch_spec (m_fsm_state k) a k' ∧ m_ticks k' = m_ticks k + e.
Proof.
  intros Hk Hn Hl Hp Hs. destruct (on_tick c Hcfg Hse Hhrt STK_TICKLESS_TICKS_MAX k a e Hk Hn Hp Hs) as (r & n & k' & E & Hk' & T).
  destruct (te_pick _ _ _ _ _ _ _ T Hl) as (k1 & k2 & E1 & E2 & Eg). exists n, k1, k2, r, k'.
  split_and!; [done..| |by apply (te_switch _ _ _ _ _ _ _ T)|apply T].
  apply dispatched_decision; [done|apply T|]. by apply (te_dispatch _ _ _ _ _ _ _ T).
Qed.

(** While the scheduler is locked, ticks count time and wake tasks, but the
    current task keeps the processor. *)
Theorem locked_tick_keeps_task k a e : kernel_inv c k → m_task_now k = Some a → IsLocked k = true →
  tick_pre k e → slice_pre k e →
  ∃ n k', OnTick ops c STK_TICKLESS_TICKS_MAX e k = Ok (no_switch, n, k') ∧ kernel_inv c k' ∧
    m_task_now k' = Some a ∧ m_fsm_state k' = m_fsm_state k ∧ m_ticks k' = m_ticks k + e ∧ IsLocked k' = true.
Proof.
  intros Hk Hn Hl Hp Hs. destruct (on_tick c Hcfg Hse Hhrt STK_TICKLESS_TICKS_MAX k a e Hk Hn Hp Hs) as (r & n & k' & E & Hk' & T).
  destruct (te_locked _ _ _ _ _ _ _ T Hl) as (-> & En & Ef). exists n, k'. rewrite En.
  split_and!; try done; [apply T|]. unfold IsLocked in *. by rewrite (te_kstate _ _ _ _ _ _ _ T).
Qed.

(** A task that is asleep is off the processor once the scheduler has decided. *)
Lemma asleep_off k i t : decision k → m_task_storage k !! i = Some t → IsSleeping t = true → running k ≠ Some i.
Proof.
  unfold decision, running. intros Hd Ht Hs E. destruct (m_fsm_state k) eqn:Ef; try done; rewrite E in Hd;
    destruct Hd as (u & Hu & _ & [[_ Ha]|[Hf _]]); congruence.
Qed.

Lemma force_decision k k' a r f : kernel_inv c k' → force_effect c k k' a r f → decision k'.
Proof. intros Hk' F. apply dispatched_decision; [done|apply F..]. Qed.

(** C18. A tickless kernel never idles past the moment a task has to act: the
    number of ticks until the next tick is at least one, at most the maximum,
    and no task is due to wake or to time out before. *)
Theorem tickless_bound k a e : kernel_inv c k → m_task_now k = Some a → IsTicklessMode c = true →
  1 ≤ STK_TICKLESS_TICKS_MAX → tick_pre k e → slice_pre k e →
  ∃ r n k', OnTick ops c STK_TICKLESS_TICKS_MAX e k = Ok (r, n, k') ∧ 1 ≤ n ≤ STK_TICKLESS_TICKS_MAX ∧
    ∀ j t, m_task_storage k' !! j = Some t → IsBusy t = true → n = 1 ∨ n ≤ idle_limit c t.
Proof.
  intros Hk Hn Ht Hm Hp Hs. destruct (on_tick c Hcfg Hse Hhrt STK_TICKLESS_TICKS_MAX k a e Hk Hn Hp Hs) as (r & n & k' & E & Hk' & T).
  destruct (te_idle _ _ _ _ _ _ _ T) as [H1 H2]. unfold idle_start in *. rewrite Ht in *. specialize (H2 Hm).
  exists r, n, k'. split_and!; try done. intros j t Hj Hb.
  assert (H := te_limit _ _ _ _ _ _ _ T j t Ht Hj Hb). lia.
Qed.
(** ** Sequences of ticks *)

Fixpoint tick_n (n : nat) k : res (Kernel S) :=
  match n with
  | O => Ok k
  | Datatypes.S m => k ← tick_n m k; '(_, _, k) ← OnTick ops c STK_TICKLESS_TICKS_MAX 1 k; Ok k
  end.

Lemma tick_task_ts t (b : bool) : m_ts (if b then freed c (unyield c t) else full_tick c 1 t) = m_ts t ∨
  m_ts (if b then freed c (unyield c t) else full_tick c 1 t) = TsInfo_ctor.
Proof.
  destruct b; [|left; apply full_tick_ts]. unfold freed. destruct (unyield_same c t) as (_ & _ & _ & _ & E & _).
  destruct (IsTimesliceMode c); [by right|]. left. exact E.
Qed.

(** A tick leaves the tasks in their slots, or removes them. *)
Definition tids_kept k k' : Prop := ∀ j t', m_task_storage k' !! j = Some t' →
  ∃ t, m_task_storage k !! j = Some t ∧ (GetTid t' = GetTid t ∨ GetTid t' = TID_NONE).

Lemma tids_kept_trans k1 k2 k3 : tids_kept k1 k2 → tids_kept k2 k3 → tids_kept k1 k3.
Proof.
  intros H1 H2 j t3 H3. destruct (H2 j t3 H3) as (t2 & Ht2 & E2). destruct (H1 j t2 Ht2) as (t1 & Ht1 & E1).
  exists t1. split; [done|]. destruct E2 as [-> | ->]; [done|by right].
Qed.

Lemma tids_kept_find k k' u i t : u ≠ 0 → tids_kept k k' → FindTaskByUserTask u k = Some i →
  m_task_storage k' !! i = Some t → GetTid t = u → FindTaskByUserTask u k' = Some i.
Proof.
  intros Hu Hk Hf Ht Htid. unfold FindTaskByUserTask in *.
  destruct (list_find (λ t, GetTid t = u) (m_task_storage k)) as [[j v]|] eqn:E; [|done]. injection Hf as ->.
  apply list_find_Some in E as (Hv & Hvid & Hfirst).
  assert (E' : list_find (λ t, GetTid t = u) (m_task_storage k') = Some (i, t)); [|by rewrite E'].
  apply list_find_Some. split_and!; [done..|]. intros x y Hy Hlt Hyu.
  destruct (Hk x y Hy) as (y0 & Hy0 & [E|E]); [|by rewrite E in Hyu].
  apply (Hfirst x y0 Hy0 Hlt). by rewrite <- E.
Qed.

Lemma full_tick_user e t : m_user (full_tick c e t) = m_user t.
Proof.
  unfold full_tick, tick_task, tick_sleeping, count_down, tick_waiter, wait_woken, woken, unyield, settle.
  repeat case_match; done.
Qed.

Lemma freed_user t : m_user (freed c t) = None.
Proof. unfold freed. by destruct (IsTimesliceMode c). Qed.

Lemma tick_tids k e r n k' : tick_effect c STK_TICKLESS_TICKS_MAX k e r n k' → tids_kept k k'.
Proof.
  intros T j t' Hj. destruct (m_task_storage k !! j) as [t|] eqn:Ht.
  - exists t. split; [done|]. destruct (te_slot _ _ _ _ _ _ _ T j t Ht) as (b & u & Eu & Hu & _).
    assert (E : m_user t' = m_user u) by (destruct Hu as [Hu|(sl & Hu & _)]; rewrite Hj in Hu; by injection Hu as ->).
    unfold GetTid. rewrite E, Eu. destruct (_ && _ && _ && _); [right; by rewrite freed_user|left; by rewrite full_tick_user].
  - apply lookup_ge_None in Ht. rewrite <- (te_length _ _ _ _ _ _ _ T) in Ht. apply lookup_ge_None in Ht. congruence.
Qed.

(** One tick of a sequence: slot [i], holding a task that is not being removed. *)
Lemma tick_one k m i t : kernel_inv c k → m_task_now k ≠ None → slice_pre k (m + 1) → 0 ≤ m < INT32_MAX →
  m_task_storage k !! i = Some t → IsBusy t = true → IsPendingRemoval t = false →
  ∃ r n k', OnTick ops c STK_TICKLESS_TICKS_MAX 1 k = Ok (r, n, k') ∧ kernel_inv c k' ∧ m_task_now k' ≠ None ∧
    slice_pre k' m ∧ tids_kept k k' ∧ ∃ t', m_task_storage k' !! i = Some t' ∧ ∃ sl, t' = with_ts sl (full_tick c 1 t).
Proof.
  intros Hk (a & Hn)%now_Some Hs Hm Ht Hb Hr.
  assert (Hpre : tick_pre k 1) by (split; [unfold INT32_MAX; lia|done]).
  assert (Hsp : slice_pre k 1) by (intros j u Hj; specialize (Hs j u Hj); lia).
  destruct (on_tick c Hcfg Hse Hhrt STK_TICKLESS_TICKS_MAX k a 1 Hk Hn Hpre Hsp) as (r & n & k' & E & Hk' & T).
  assert (Hslot : ∃ t', m_task_storage k' !! i = Some t' ∧ ∃ sl, t' = with_ts sl (full_tick c 1 t)).
  { destruct (te_slot _ _ _ _ _ _ _ T i t Ht) as (b & t' & -> & Hi & _). rewrite Hr in Hi.
    rewrite !andb_false_r in Hi. cbn in Hi. destruct Hi as [Hi|(sl & Hi & _)]; eexists; (split; [exact Hi|]); [|eauto].
    exists (m_ts (full_tick c 1 t)). by destruct (full_tick c 1 t). }
  exists r, n, k'. split_and!; try done.
  - destruct (IsLocked k) eqn:El; [by rewrite (proj1 (proj2 (te_locked _ _ _ _ _ _ _ T El))), Hn|].
    assert (D := te_dispatch _ _ _ _ _ _ _ T El). unfold dispatched in D. destruct (m_task_now k'); [done|].
    destruct D as [_ D]. destruct Hslot as (t' & Ht' & sl & ->).
    assert (Hin := si_member c _ _ _ i _ (ki_sched c k' Hk') Ht'). unfold members in D. rewrite D in Hin.
    exfalso. eapply not_elem_of_nil, Hin. unfold full_tick. change (IsBusy (tick_task c 1 (if IsSyncMode c && IsWaiting (m_wait_obj t) then tick_waiter 1 t else t)) = true).
    rewrite tick_task_busy. destruct (_ && _); [|done]. unfold tick_waiter, wait_woken, woken. repeat case_match; done.
  - intros j u Hj. destruct (m_task_storage k !! j) as [v|] eqn:Hv.
    + destruct (te_slot _ _ _ _ _ _ _ T j v Hv) as (b & t' & Et' & Hu & _).
      assert (Hl : INT32_MIN + (m + 1) ≤ left_ (m_ts t')).
      { rewrite Et'. destruct (tick_task_ts v (IsSleeping v && IsDynamicMode c && IsPendingRemoval v && b)) as [-> | ->];
          [by apply (Hs j)|unfold INT32_MIN, INT32_MAX in *; cbn; unfold NO_TIME_SLICE; lia]. }
      destruct Hu as [Hu|(sl & Hu & Hle)]; rewrite Hj in Hu; injection Hu as ->; cbn; lia.
    + exfalso. assert (Hlt : (j < length (m_task_storage k'))%nat) by (by eapply lookup_lt_Some).
      apply lookup_ge_None in Hv. rewrite (te_length _ _ _ _ _ _ _ T) in Hlt. lia.
  - by eapply tick_tids.
Qed.
(** An invariant of a task under ticks carries over to sequences of ticks; [P r]
    is what holds [r] ticks before the end. *)
Lemma tick_n_task (P : Z → KernelTask → Prop) k i (r : Z) :
  (∀ r t sl, P r t → P r (with_ts sl t)) →
  (∀ r t, P r t → self_ok t → IsBusy t = true ∧ IsPendingRemoval t = false) →
  (∀ q t, 0 < q ≤ r → P q t → self_ok t → P (q - 1) (full_tick c 1 t)) →
  kernel_inv c k → m_task_now k ≠ None → slice_pre k r → 0 ≤ r ≤ INT32_MAX →
  (∃ t, m_task_storage k !! i = Some t ∧ P r t) →
  ∀ m, Z.of_nat m ≤ r → ∃ k' t', tick_n m k = Ok k' ∧ kernel_inv c k' ∧ m_task_now k' ≠ None ∧
    slice_pre k' (r - Z.of_nat m) ∧ tids_kept k k' ∧ m_task_storage k' !! i = Some t' ∧ P (r - Z.of_nat m) t'.
Proof.
  intros Hts Hb Hstep Hk Hn Hs Hr (t & Ht & HP) m. induction m as [|m IH]; intros Hm.
  { exists k, t. rewrite Z.sub_0_r. split_and!; try done. intros j u Hu. eauto. }
  destruct IH as (k1 & t1 & E1 & Hk1 & Hn1 & Hs1 & Hi1 & Ht1 & HP1); [lia|].
  assert (Hself := ci_self c k1 i t1 (kernel_core c k1 Hk1) Ht1). destruct (Hb _ _ HP1 Hself) as [Hb1 Hr1].
  destruct (tick_one k1 (r - Z.of_nat (Datatypes.S m)) i t1) as (x & n & k2 & E2 & Hk2 & Hn2 & Hs2 & Hi2 & t2 & Ht2 & sl & ->); try done.
  - by replace (r - Z.of_nat (Datatypes.S m) + 1) with (r - Z.of_nat m) by lia.
  - lia.
  - exists k2. eexists. cbn [tick_n]. rewrite E1. cbn [mbind res_bind]. rewrite E2.
    split_and!; try done; [by eapply tids_kept_trans|].
    apply Hts. replace (r - Z.of_nat (Datatypes.S m)) with (r - Z.of_nat m - 1) by lia. apply Hstep; [lia|done..].
Qed.

(** ** Sleeping *)

(** The task sleeps for [r] more ticks (it is awake if [r] is zero) and nothing
    else is going on with it. *)
Record sleeper (r : Z) (t : KernelTask) : Prop := {
  sl_busy : IsBusy t = true;
  sl_time : m_time_sleep t = - r;
  sl_flags : has t STATE_SLEEP_PENDING = false ∧ has t STATE_SUSPEND_PENDING = false ∧ IsPendingRemoval t = false;
  sl_wait : IsWaiting (m_wait_obj t) = false;
}.

Lemma sleeper_tick q t : 0 < q < WAIT_INFINITE → sleeper q t → sleeper (q - 1) (full_tick c 1 t).
Proof.
  intros Hq [Hb Ht (F1 & F2 & F3) Hw]. destruct (unyield_same c t) as (_ & Es & Ew & Eb & _ & Ef).
  unfold full_tick. rewrite Hw, andb_false_r. unfold tick_task.
  assert (Hsl : IsSleeping t = true) by (unfold IsSleeping; rewrite Ht; lia). rewrite Hsl.
  unfold tick_sleeping. rewrite Ef by done. rewrite F1. unfold count_down.
  assert (Hni : IsSleepInfinite (unyield c t) = false) by (unfold IsSleepInfinite; rewrite Es, Ht; lia).
  rewrite Hni, Ef, F2 by done. cbn [andb].
  split; cbn; rewrite ?Es, ?Ew; try done; [by rewrite <- Eb in Hb|lia|].
  unfold has, IsPendingRemoval, has. cbn. change (has_flag (m_state (unyield c t))) with (has (unyield c t)).
  rewrite !Ef by done. done.
Qed.

Lemma settle_sleeper n t : self_ok t → IsBusy t = true → IsSleeping t = false → 0 < n → sleeper n (settle (slept c n t)).
Proof.
  intros Hs Hb Ha Hn. destruct (awake_flags t Hs Ha) as (Hw & _ & F2 & F3).
  destruct (slept_same c n t) as ((Eu & _) & Es & Ew & _ & _ & _ & _ & Ef). split.
  - unfold IsBusy in *. cbn. by rewrite Eu.
  - done.
  - unfold settle, IsPendingRemoval. rewrite !has_lower. flag_eval. cbn [negb andb]. rewrite !Ef by done. done.
  - cbn. by rewrite Ew.
Qed.

(** The processor changes hands after a call that put the caller to sleep. *)
Lemma slept_switch k i t n : kernel_inv c k → m_task_now k = Some i → m_task_storage k !! i = Some t →
  IsBusy t = true → IsSleeping t = false → 0 < n ≤ INT32_MAX →
  ∃ r k', OnForceContextSwitch ops c (GetTid t) (put_task i (slept c n t) k) = Ok (r, k') ∧ kernel_inv c k' ∧
    m_task_now k' ≠ None ∧ m_task_storage k' = <[i := settle (slept c n t)]> (m_task_storage k) ∧
    decision k' ∧ running k' ≠ Some i ∧ r = switch_spec (m_fsm_state k) i k'.
Proof.
  intros Hk Hn Ht Hb Ha Hr. destruct (slept_same c n t) as ((Eu & _) & Es & _ & _ & _ & _ & Ep & _).
  set (k1 := put_task i (slept c n t) k). assert (Ht1 : m_task_storage k1 !! i = Some (slept c n t)) by (by apply (put_task_at k i t)).
  assert (Hk1 : kernel_inv c k1) by (by apply sleep_kernel; auto).
  assert (Etid : GetTid t = GetTid (slept c n t)) by (unfold GetTid; by rewrite Eu). rewrite Etid.
  destruct (force_switch c Hcfg Hse Hhrt k1 i (slept c n t) Hk1 Hn Ht1) as (r & k' & E & Hk' & F & Hn'); [by rewrite Ep, Ha|].
  assert (Ets : m_task_storage k' = <[i := settle (slept c n t)]> (m_task_storage k))
    by (rewrite (fe_tasks _ _ _ _ _ _ F _ Ht1); cbn; by rewrite list_insert_insert_eq).
  assert (Hd := force_decision _ _ _ _ _ Hk' F). exists r, k'. split_and!; try done; [|apply F].
  apply (asleep_off k' i (settle (slept c n t))); [done|rewrite Ets; apply list_lookup_insert_eq; by eapply lookup_lt_Some|].
  unfold IsSleeping. change (m_time_sleep (settle (slept c n t))) with (m_time_sleep (slept c n t)). rewrite Es. lia.
Qed.

Lemma slice_pre_put k k' i t t' m : slice_pre k m → m_task_storage k !! i = Some t →
  m_task_storage k' = <[i := t']> (m_task_storage k) → left_ (m_ts t) ≤ left_ (m_ts t') → slice_pre k' m.
Proof.
  intros Hs Ht E Hl j u Hj. rewrite E in Hj. destruct (decide (j = i)) as [->|Hne].
  - rewrite list_lookup_insert_eq in Hj by (by eapply lookup_lt_Some). injection Hj as <-. specialize (Hs i t Ht). lia.
  - rewrite list_lookup_insert_ne in Hj by done. by apply (Hs j).
Qed.

Lemma slept_left n t : left_ (m_ts t) ≤ quantum (m_ts t) → left_ (m_ts t) ≤ left_ (m_ts (settle (slept c n t))).
Proof.
  intros Hl. unfold slept, settle.
  destruct (negb _), (IsTimesliceMode c); cbn; lia.
Qed.

(** C3. A task that calls Sleep(n), where the context switch the call forces is
    taken before the next tick, sleeps for exactly n ticks: the switch takes
    the processor from it (the scheduler has decided for an awake task or for
    the sleep trap, and the platform is told to change the stacks), it is not
    ready after any of the first n - 1 ticks, and it is awake and ready after
    the n-th. *)
Theorem sleep_lasts_n_ticks k SP i t n : kernel_inv c k → executes WordSize k SP i t → IsLocked k = false →
  0 < n < WAIT_INFINITE → slice_pre k n →
  ∃ k1 r k2, Service_Sleep c WordSize false SP n k = Ok (true, k1) ∧
    OnForceContextSwitch ops c (GetTid t) k1 = Ok (r, k2) ∧ decision k2 ∧ running k2 ≠ Some i ∧
    r = switch_spec (m_fsm_state k) i k2 ∧
    ∀ m, Z.of_nat m ≤ n → ∃ k3, tick_n m k2 = Ok k3 ∧ kernel_inv c k3 ∧
      (i ∈ st_ready (m_strategy k3) ↔ Z.of_nat m = n).
Proof.
  intros Hk Hx Hl Hn Hs. assert (Hb := executes_busy _ _ _ _ _ Hx).
  assert (Hself := ci_self c k i t (kernel_core c k Hk) (ex_task _ _ _ _ _ Hx)).
  assert (Hni : n ≤ INT32_MAX) by (unfold WAIT_INFINITE in Hn; lia).
  destruct (service_sleep c Hhrt WordSize k SP i t n Hk Hx Hl) as (k1 & E1 & _ & ->); [lia|].
  rewrite bool_decide_eq_true_2 in E1 by lia.
  destruct (slept_switch k i t n) as (r & k2 & E2 & Hk2 & Hn2 & Ets & Hd & Hoff & Hsw); try done; [apply Hx..|lia|].
  exists (put_task i (slept c n t) k), r, k2. split_and!; try done. intros m Hm.
  destruct (tick_n_task (λ r t, sleeper r t) k2 i n) with (m := m) as (k3 & t3 & E3 & Hk3 & _ & _ & _ & Ht3 & S3); try done.
  - intros q u sl []. by split.
  - intros q u [? ? (? & ? & ?) ?] _. done.
  - intros q u Hq Hsu _. apply sleeper_tick; [lia|done].
  - eapply slice_pre_put; [done|apply Hx|done|by apply slept_left, so_ts].
  - lia.
  - exists (settle (slept c n t)). split; [|apply settle_sleeper; try done; [apply Hx|lia]].
    rewrite Ets. apply list_lookup_insert_eq. eapply lookup_lt_Some, Hx.
  - exists k3. split_and!; try done. destruct S3 as [? Et3 (F & _) _].
    rewrite (ready_iff_awake k3 i t3) by done. unfold IsSleeping. rewrite Et3. lia.
Qed.
(** ** Waiting with a timeout *)

Record waiter (o : nat) (q : Z) (t : KernelTask) : Prop := {
  wt_busy : IsBusy t = true;
  wt_obj : m_wait_obj t = mkWait (Some o) q STATE_WAIT;
  wt_time : m_time_sleep t = - WAIT_INFINITE;
  wt_flags : has t STATE_SLEEP_PENDING = false ∧ has t STATE_SUSPEND_PENDING = false ∧ IsPendingRemoval t = false;
}.
(** The wait is over with [st] and the task is awake. *)
Record wait_over (st : EState) (t : KernelTask) : Prop := {
  wo_busy : IsBusy t = true;
  wo_obj : m_sync_obj (m_wait_obj t) = None ∧ w_state (m_wait_obj t) = st;
  wo_time : m_time_sleep t = 0;
  wo_flags : has t STATE_SLEEP_PENDING = false ∧ has t STATE_SUSPEND_PENDING = false ∧ IsPendingRemoval t = false;
}.

(** A task that was woken runs after the next tick, whether or not its sleep
    had been processed. *)
Lemma woken_tick t : IsBusy t = true → has t STATE_SUSPEND_PENDING = false → IsPendingRemoval t = false →
  m_time_sleep (tick_task c 1 (woken t)) = 0 ∧ IsBusy (tick_task c 1 (woken t)) = true ∧
  m_wait_obj (tick_task c 1 (woken t)) = m_wait_obj t ∧ has (tick_task c 1 (woken t)) STATE_SLEEP_PENDING = false ∧
  has (tick_task c 1 (woken t)) STATE_SUSPEND_PENDING = false ∧ IsPendingRemoval (tick_task c 1 (woken t)) = false.
Proof.
  intros Hb F2 F3. destruct (woken_same t) as (_ & Hsl & Hbw & Hwo & Hf).
  rewrite tick_task_busy, tick_task_wait, Hbw, Hwo.
  assert (Et : m_time_sleep (woken t) = -1) by (unfold woken; by destruct (has t STATE_SLEEP_PENDING)).
  assert (Ewp : has (woken t) STATE_SLEEP_PENDING = true → has (woken t) STATE_WAKE_PENDING = true).
  { rewrite Hf by done. intros E. unfold woken. rewrite E, has_raise. by flag_eval. }
  destruct (unyield_same c (woken t)) as (_ & Es & _ & _ & _ & Ef).
  assert (E : ∀ u, m_time_sleep u = -1 → has u STATE_SUSPEND_PENDING = false → count_down 1 u = with_sleep 0 u).
  { intros u Eu Hu. unfold count_down, IsSleepInfinite. rewrite Eu, Hu. done. }
  unfold tick_task. rewrite Hsl. unfold tick_sleeping. rewrite !Ef by done.
  destruct (has (woken t) STATE_SLEEP_PENDING) eqn:Ep.
  - rewrite Ewp by done. rewrite E.
    + unfold IsPendingRemoval. change (has (with_sleep 0 (settle (unyield c (woken t))))) with (has (settle (unyield c (woken t)))).
      unfold settle. rewrite !has_lower. flag_eval. cbn [negb andb]. rewrite !Ef, !Hf by done. done.
    + unfold settle. cbn. by rewrite Es.
    + unfold settle. rewrite !has_lower. flag_eval. cbn. by rewrite Ef, Hf.
  - rewrite E; [|by rewrite Es|by rewrite Ef, Hf]. split_and!; try done; unfold IsPendingRemoval;
      change (has (with_sleep 0 (unyield c (woken t)))) with (has (unyield c (woken t))); rewrite Ef by done; try done; by rewrite Hf.
Qed.

Lemma waiter_tick o q t : 1 < q < WAIT_INFINITE → IsSyncMode c = true → waiter o q t → waiter o (q - 1) (full_tick c 1 t).
Proof.
  intros Hq Hm [Hb Ho Ht (F1 & F2 & F3)]. unfold full_tick. rewrite Hm, Ho. cbn [IsWaiting m_sync_obj andb].
  unfold tick_waiter. rewrite Ho. cbn [m_time_wait m_sync_obj].
  rewrite (proj2 (Z.eqb_neq q WAIT_INFINITE)) by lia. rewrite (proj2 (Z.leb_gt (q - 1) NO_WAIT)) by (unfold NO_WAIT; lia).
  set (u := with_wait _ t). destruct (unyield_same c u) as (_ & Es & Ew & Eb & _ & Ef).
  assert (Hsl : IsSleeping u = true) by (unfold IsSleeping; cbn; by rewrite Ht).
  assert (Hinf : IsSleepInfinite (unyield c u) = true) by (unfold IsSleepInfinite; rewrite Es; cbn; by rewrite Ht).
  unfold tick_task. rewrite Hsl. unfold tick_sleeping. rewrite Ef by done. change (has u STATE_SLEEP_PENDING) with (has t STATE_SLEEP_PENDING).
  rewrite F1. unfold count_down. rewrite Hinf. split.
  - by rewrite Eb.
  - by rewrite Ew.
  - by rewrite Es.
  - unfold IsPendingRemoval. rewrite !Ef by done. done.
Qed.

Lemma waiter_timeout o t : IsSyncMode c = true → waiter o 1 t → wait_over STATE_TIMEOUT (full_tick c 1 t).
Proof.
  intros Hm [Hb Ho Ht (F1 & F2 & F3)]. unfold full_tick. rewrite Hm, Ho. cbn [IsWaiting m_sync_obj andb].
  unfold tick_waiter. rewrite Ho. cbn [m_time_wait].
  destruct (woken_tick (end_of_wait STATE_TIMEOUT NO_WAIT t)) as (E1 & E2 & E3 & E4 & E5 & E6); try done.
  change (1 =? WAIT_INFINITE) with false. change (1 - 1 <=? NO_WAIT) with true. unfold wait_woken.
  split; try done. by rewrite E3.
Qed.

Lemma wait_result_over k i t st r : m_task_storage k !! i = Some t → wait_over st t →
  st = STATE_TIMEOUT ∧ r = WAIT_RESULT_TIMEOUT ∨ st = STATE_SIGNALED ∧ r = WAIT_RESULT_SIGNAL ∨
  st = STATE_CANCELLED ∧ r = WAIT_RESULT_CANCELED → ∃ k', OnTaskWait_end i k = Ok (r, k').
Proof.
  intros Ht [_ [Ho Hs] _ _] Hr. unfold OnTaskWait_end, GetWaitResult, ClearState, IsWaiting.
  rewrite (task_at_ok k i t Ht). cbn [mbind res_bind]. rewrite Ho, Hs. cbn [negb stk_assert].
  destruct Hr as [[-> ->]|[[-> ->]|[-> ->]]]; cbn; eauto.
Qed.

Lemma settle_waiter o n t : self_ok t → IsBusy t = true → IsSleeping t = false →
  waiter o n (settle (waiting_task c o n t)).
Proof.
  intros Hs Hb Ha. destruct (awake_flags t Hs Ha) as (Hw & _ & F2 & F3). unfold waiting_task. set (u := with_wait _ t).
  destruct (slept_same c WAIT_INFINITE u) as ((Eu & _) & Es & Ew & _ & _ & _ & _ & Ef). split.
  - unfold IsBusy in *. cbn. by rewrite Eu.
  - cbn. by rewrite Ew.
  - done.
  - unfold settle, IsPendingRemoval. rewrite !has_lower. flag_eval. cbn [negb andb]. rewrite !Ef by done. done.
Qed.
(** The wait lists hold the waiters. *)
Lemma wait_list_iff k i o : kernel_inv c k → (i ∈ wait_list k o ↔ waits_for (m_task_storage k) i = Some o).
Proof.
  intros Hk. unfold wait_list. destruct (m_sync k !! o) as [so|] eqn:Eo; cbn.
  - apply (sy_list _ _ _ _ (ki_sync c k Hk) o so Eo).
  - split; [set_solver|]. intros Hw. destruct (sy_dom _ _ _ _ (ki_sync c k Hk) i o Hw) as [[so ?] _]. congruence.
Qed.
(** A waiter that nobody wakes, tick by tick. *)
Lemma waiter_ticks k i t o n : kernel_inv c k → m_task_now k ≠ None → IsSyncMode c = true → 0 < n < WAIT_INFINITE →
  slice_pre k n → m_task_storage k !! i = Some t → waiter o n t →
  ∀ m, Z.of_nat m ≤ n → ∃ k' t', tick_n m k = Ok k' ∧ kernel_inv c k' ∧ m_task_storage k' !! i = Some t' ∧
    if decide (0 < n - Z.of_nat m) then waiter o (n - Z.of_nat m) t' else wait_over STATE_TIMEOUT t'.
Proof.
  intros Hk Hn Hm Hr Hs Ht Hw m Hmn.
  destruct (tick_n_task (λ q v, if decide (0 < q) then waiter o q v else wait_over STATE_TIMEOUT v) k i n)
    with (m := m) as (k' & t' & E & Hk' & _ & _ & _ & Ht' & P'); try done.
  - intros q v sl. case_decide; intros []; by split.
  - intros q v. case_decide; intros [? ? ? (? & ? & ?)] _; done.
  - intros q v Hq Hv _. rewrite decide_True in Hv by lia. case_decide.
    + apply waiter_tick; [lia|done..].
    + assert (q = 1) as -> by lia. by eapply waiter_timeout.
  - unfold WAIT_INFINITE in *. lia.
  - exists t. rewrite decide_True by lia. done.
  - eauto 10.
Qed.

(** C4. A task that waits for an object with a timeout of n ticks, gives up the
    processor before the next tick and is not signalled, waits for exactly n
    ticks: after fewer it is off the processor, on the wait list of the object
    and not ready; after n ticks it is ready, it is on no wait list, and its
    call of Wait answers WAIT_RESULT_TIMEOUT. *)
Theorem wait_times_out k SP i t o n : kernel_inv c k → executes WordSize k SP i t → IsLocked k = false →
  IsSyncMode c = true → is_Some (m_sync k !! o) → 0 < n < WAIT_INFINITE → slice_pre k n →
  ∃ k1 r k2, Service_Wait c WordSize SP o n k = Ok (i, k1) ∧
    OnForceContextSwitch ops c (GetTid t) k1 = Ok (r, k2) ∧ decision k2 ∧ running k2 ≠ Some i ∧
    (∀ m, Z.of_nat m < n → ∃ k3, tick_n m k2 = Ok k3 ∧ waits_for (m_task_storage k3) i = Some o ∧
      i ∈ wait_list k3 o ∧ i ∉ st_ready (m_strategy k3)) ∧
    ∃ k3 k4, tick_n (Z.to_nat n) k2 = Ok k3 ∧ i ∈ st_ready (m_strategy k3) ∧ waits_for (m_task_storage k3) i = None ∧
      (∀ o', i ∉ wait_list k3 o') ∧ OnTaskWait_end i k3 = Ok (WAIT_RESULT_TIMEOUT, k4).
Proof.
  intros Hk Hx Hl Hm Ho Hn Hs. assert (Hb := executes_busy _ _ _ _ _ Hx).
  assert (Hself := ci_self c k i t (kernel_core c k Hk) (ex_task _ _ _ _ _ Hx)).
  destruct (service_wait c Hcfg Hse Hhrt WordSize k SP i t o n Hk Hx Hl Hm Ho) as (k1 & E1 & Hk1 & Et1 & Hn1 & _); [lia|].
  assert (Ht1 : m_task_storage k1 !! i = Some (waiting_task c o n t))
    by (rewrite Et1; apply list_lookup_insert_eq; eapply lookup_lt_Some, Hx).
  set (u := with_wait (mkWait (Some o) n STATE_WAIT) t).
  destruct (slept_same c WAIT_INFINITE u) as ((Eu & _) & _ & _ & _ & _ & _ & Ep & _).
  destruct (force_switch c Hcfg Hse Hhrt k1 i _ Hk1 Hn1 Ht1) as (r & k2 & E2 & Hk2 & F & Hn2).
  { unfold waiting_task. fold u. rewrite Ep. change (IsSleeping u) with (IsSleeping t). by rewrite (ex_awake _ _ _ _ _ Hx). }
  assert (Etid : GetTid (waiting_task c o n t) = GetTid t) by (unfold GetTid, waiting_task; fold u; by rewrite Eu).
  rewrite Etid in E2.
  assert (Ets := fe_tasks _ _ _ _ _ _ F _ Ht1). rewrite Et1, list_insert_insert_eq in Ets.
  assert (Ht2 : m_task_storage k2 !! i = Some (settle (waiting_task c o n t)))
    by (rewrite Ets; apply list_lookup_insert_eq; eapply lookup_lt_Some, Hx).
  assert (Hall := waiter_ticks k2 i (settle (waiting_task c o n t)) o n Hk2 Hn2 Hm Hn).
  assert (Hs2 : slice_pre k2 n).
  { eapply (slice_pre_put k); [done|apply Hx|done|]. apply (slept_left WAIT_INFINITE u), (so_ts t Hself). }
  assert (Hw2 := settle_waiter o n t Hself Hb (ex_awake _ _ _ _ _ Hx)). specialize (Hall Hs2 Ht2 Hw2).
  assert (Hd := force_decision _ _ _ _ _ Hk2 F). exists k1, r, k2. split_and!; try done.
  - eapply asleep_off; [done..|]. unfold IsSleeping. by rewrite (wt_time _ _ _ Hw2).
  - intros m Hmn. destruct (Hall m) as (k3 & t3 & E3 & Hk3 & Ht3 & P3); [lia|]. rewrite decide_True in P3 by lia.
    destruct P3 as [Hb3 Ho3 Hs3 (F1 & _)]. exists k3.
    assert (Hwf : waits_for (m_task_storage k3) i = Some o) by (unfold waits_for; rewrite Ht3; cbn; by rewrite Ho3).
    split_and!; [done..|by apply wait_list_iff|]. rewrite (ready_iff_awake k3 i t3) by done. unfold IsSleeping. by rewrite Hs3.
  - destruct (Hall (Z.to_nat n)) as (k3 & t3 & E3 & Hk3 & Ht3 & P3); [lia|].
    rewrite decide_False in P3 by lia. destruct (wait_result_over k3 i t3 _ WAIT_RESULT_TIMEOUT Ht3 P3) as [k4 E4]; [by left|].
    destruct P3 as [Hb3 [Ho3 _] Hs3 (F1 & _)]. exists k3, k4.
    assert (Hwf : waits_for (m_task_storage k3) i = None) by (unfold waits_for; by rewrite Ht3).
    split_and!; try done.
    + rewrite (ready_iff_awake k3 i t3) by done. unfold IsSleeping. by rewrite Hs3.
    + intros o'. rewrite (wait_list_iff k3) by done. by rewrite Hwf.
Qed.
(** C5. The waiters of an object are served in the order in which they began to
    wait.  Whatever call the kernel executes, a wait list only grows by the
    caller of Wait, at its end, and otherwise keeps the order of the tasks that
    stay in it; Wake of one waiter removes exactly the first task, the others
    stay; after the next tick the task is ready and its call of Wait answers
    WAIT_RESULT_SIGNAL, unless a suspension of it was pending. *)
Theorem signal_wakes_first k o so i l t : kernel_inv c k → m_task_now k ≠ None → IsSyncMode c = true →
  m_sync k !! o = Some so → so_wait_list so = i :: l →
  m_task_storage k !! i = Some t → has t STATE_SUSPEND_PENDING = false → slice_pre k 1 →
  (∀ op kb ka, exec ops c STK_TICKLESS_TICKS_MAX WordSize op kb = Ok ka →
    (∀ o', wait_list ka o' `sublist_of` wait_list kb o') ∨
    ∃ SP o' n j, op = OpWait SP o' n ∧ caller c WordSize SP kb = Ok j ∧ wait_list ka o' = wait_list kb o' ++ [j] ∧
      ∀ o'', o'' ≠ o' → wait_list ka o'' = wait_list kb o'') ∧
  ∃ k1 r n k2 k3, Service_Wake c o false k = Ok k1 ∧ wait_list k1 o = l ∧
    (∀ o', o' ≠ o → wait_list k1 o' = wait_list k o') ∧
    (∀ j, j ∈ l → waits_for (m_task_storage k1) j = Some o) ∧
    OnTick ops c STK_TICKLESS_TICKS_MAX 1 k1 = Ok (r, n, k2) ∧ i ∈ st_ready (m_strategy k2) ∧
    (∀ o', i ∉ wait_list k2 o') ∧ OnTaskWait_end i k2 = Ok (WAIT_RESULT_SIGNAL, k3).
Proof.
  intros Hk Hn Hm Ho El Ht Hsp Hs. split; [intros op kb ka; by apply exec_fifo|]. destruct (wake_first c Hcfg Hse Hhrt k o so i l Hk Ho El) as
    (t0 & k1 & Ht0 & Hw & E1 & Hk1 & Et1 & Ho1 & El1 & _ & En1 & Hfr). rewrite Ht in Ht0. injection Ht0 as <-.
  assert (Hself := ci_self c k i t (kernel_core c k Hk) Ht).
  destruct (waiting_free t Hself) as (Hsl & Hb & F1 & F2); [unfold IsWaiting; by rewrite Hw|].
  assert (Ht1 : m_task_storage k1 !! i = Some (wait_woken STATE_SIGNALED t))
    by (rewrite Et1; apply list_lookup_insert_eq; by eapply lookup_lt_Some).
  set (u := end_of_wait STATE_SIGNALED NO_WAIT t). destruct (woken_same u) as (_ & _ & Ebw & Eow & Efw).
  destruct (tick_one k1 0 i (wait_woken STATE_SIGNALED t)) as (r & n & k2 & E2 & Hk2 & _ & _ & _ & t2 & Ht2 & sl & ->); try done.
  - by rewrite En1.
  - eapply (slice_pre_put k); [done|done|done|]. unfold wait_woken, woken. destruct (has (end_of_wait _ _ t) STATE_SLEEP_PENDING); cbn; lia.
  - unfold wait_woken. fold u. by rewrite Ebw.
  - unfold wait_woken, IsPendingRemoval. fold u. by rewrite Efw.
  - destruct (woken_tick u) as (G1 & G2 & G3 & G4 & G5 & G6); try done.
    assert (Eft : full_tick c 1 (wait_woken STATE_SIGNALED t) = tick_task c 1 (woken u)).
    { unfold full_tick, wait_woken. fold u. rewrite Eow. cbn. by rewrite andb_false_r. }
    rewrite Eft in Ht2. assert (Hover : wait_over STATE_SIGNALED (with_ts sl (tick_task c 1 (woken u)))).
    { split; try done. cbn [m_wait_obj with_ts]. by rewrite G3. }
    destruct (wait_result_over k2 i _ _ WAIT_RESULT_SIGNAL Ht2 Hover) as [k3 E3]; [by right; left|].
    exists k1, r, n, k2, k3. split_and!; try done.
    + unfold Service_Wake, WakeOne. rewrite Hm. cbn [stk_assert]. rewrite Ho. cbn [deref mbind res_bind]. by rewrite El.
    + unfold wait_list. rewrite Ho1. exact El1.
    + intros o' Hne. unfold wait_list. by rewrite Hfr.
    + intros j Hj. apply (sy_list _ _ _ _ (ki_sync c k1 Hk1) o _ Ho1). by rewrite El1.
    + eapply awake_ready; [done..|]. unfold IsSleeping. cbn [m_time_sleep with_ts]. by rewrite G1.
    + intros o'. rewrite (wait_list_iff k2) by done. unfold waits_for. rewrite Ht2. cbn. by rewrite G3.
Qed.

(** ** Suspension *)

(** The task sleeps until it is resumed. *)
Record suspended (t : KernelTask) : Prop := {
  su_busy : IsBusy t = true;
  su_time : m_time_sleep t = - WAIT_INFINITE;
  su_flags : has t STATE_SLEEP_PENDING = false ∧ has t STATE_SUSPENDED = true ∧ has t STATE_SUSPEND_PENDING = false ∧
    IsPendingRemoval t = false;
  su_wait : IsWaiting (m_wait_obj t) = false;
}.

Lemma suspended_tick t : suspended t → suspended (full_tick c 1 t).
Proof.
  intros [Hb Ht (F1 & F2 & F3 & F4) Hw]. destruct (unyield_same c t) as (_ & Es & Ew & Eb & _ & Ef).
  unfold full_tick. rewrite Hw, andb_false_r. unfold tick_task.
  assert (Hsl : IsSleeping t = true) by (unfold IsSleeping; by rewrite Ht). rewrite Hsl.
  unfold tick_sleeping. rewrite Ef by done. rewrite F1. unfold count_down.
  assert (Hni : IsSleepInfinite (unyield c t) = true) by (unfold IsSleepInfinite; by rewrite Es, Ht).
  rewrite Hni. split; rewrite ?Es, ?Ew, ?Eb; try done. unfold IsPendingRemoval. rewrite !Ef by done. done.
Qed.

Lemma settle_suspended t : self_ok t → IsBusy t = true → IsSleeping t = false →
  suspended (settle (parked c STATE_SUSPENDED t)).
Proof.
  intros Hs Hb Ha. destruct (awake_flags t Hs Ha) as (Hw & _ & F2 & F3).
  destruct (slept_same c WAIT_INFINITE t) as ((Eu & _) & Es & Ew & _ & _ & _ & _ & Ef). split.
  - unfold IsBusy in *. cbn. by rewrite Eu.
  - done.
  - unfold settle, parked, IsPendingRemoval. rewrite !has_lower, !has_raise. flag_eval. cbn [negb andb orb]. rewrite !Ef by done. done.
  - cbn. by rewrite Ew.
Qed.

(** Resuming a suspended task. *)
Lemma resume_suspended k u i t : kernel_inv c k → m_task_now k ≠ None → u ≠ 0 → FindTaskByUserTask u k = Some i →
  m_task_storage k !! i = Some t → suspended t → slice_pre k (0 + 1) →
  ∃ k1 r n k2, ResumeTask u k = Ok (RESUME_DONE, k1) ∧ OnTick ops c STK_TICKLESS_TICKS_MAX 1 k1 = Ok (r, n, k2) ∧
    i ∈ st_ready (m_strategy k2).
Proof.
  intros Hk Hn Hu Hi Ht [Hb Hsl (F1 & F2 & F3 & F4) Hw] Hs. destruct (resume_task c k u Hk Hu) as (x & k1 & E1 & Hk1).
  assert (E1' := E1). unfold ResumeTask in E1. rewrite (proj2 (Z.eqb_neq u 0)), Hi in E1 by done. cbn [negb stk_assert] in E1.
  assert (Hsl' : IsSleeping t = true) by (unfold IsSleeping; by rewrite Hsl).
  rewrite (task_at_ok k i t Ht) in E1. cbn [mbind res_bind] in E1. rewrite F4, F2, Hsl' in E1.
  rewrite (mod_task_ok k i t) in E1 by done. cbn [mbind res_bind] in E1. set (t1 := lower STATE_SUSPENDED t) in *.
  rewrite (upd_task_ok _ i t1 (woken t1)) in E1; [|by apply (put_task_at k i t)|by apply Wake_ok].
  cbn [mbind res_bind] in E1. injection E1 as <- <-. rewrite put_task_put in E1', Hk1.
  destruct (woken_same t1) as (_ & _ & Ebw & Eow & Efw).
  destruct (tick_one (put_task i (woken t1) k) 0 i (woken t1)) as (r & n & k2 & E2 & Hk2 & _ & _ & _ & t2 & Ht2 & sl & ->); try done.
  - eapply (slice_pre_put k); [done|done|done|]. unfold woken. destruct (has t1 STATE_SLEEP_PENDING); cbn; lia.
  - by apply (put_task_at k i t).
  - by rewrite Ebw.
  - unfold IsPendingRemoval. rewrite Efw by done. unfold t1. by ktask.
  - destruct (woken_tick t1) as (G1 & G2 & _); [done|unfold t1; by ktask..|].
    eexists _, r, n, k2. split_and!; [exact E1'|done|].
    assert (Eft : full_tick c 1 (woken t1) = tick_task c 1 (woken t1)).
    { unfold full_tick. rewrite Eow. unfold t1. cbn [m_wait_obj lower with_state]. by rewrite Hw, andb_false_r. }
    rewrite Eft in Ht2. eapply awake_ready; [done..|]. unfold IsSleeping. cbn [m_time_sleep with_ts]. by rewrite G1.
Qed.

(** A task suspended by another one does not become ready, however many ticks
    pass, until it is resumed; ResumeTask then answers RESUME_DONE and the task
    is ready after the next tick. *)
Theorem suspend_until_resumed k u i t m : kernel_inv c k → u ≠ 0 → FindTaskByUserTask u k = Some i →
  m_task_storage k !! i = Some t → IsSleeping t = false →
  m_task_now k ≠ None → m_task_now k ≠ Some i → Z.of_nat m < INT32_MAX → slice_pre k (Z.of_nat m + 1) →
  ∃ k1 k2 k3 r n k4, SuspendTask ops c false u k = Ok (SUSPEND_DONE, None, k1) ∧
    tick_n m k1 = Ok k2 ∧ (i ∉ st_ready (m_strategy k2)) ∧ ResumeTask u k2 = Ok (RESUME_DONE, k3) ∧
    OnTick ops c STK_TICKLESS_TICKS_MAX 1 k3 = Ok (r, n, k4) ∧ i ∈ st_ready (m_strategy k4).
Proof.
  intros Hk Hu Hi Ht Ha Hn Hne Hm Hs.
  destruct (suspend_other c Hcfg Hse Hhrt k u i t false Hk Hu Hi Ht Ha Hn Hne) as (k1 & E1 & Hk1 & Et1 & En1).
  destruct (find_task u k i Hi Hu) as (t0 & Ht0 & Htid & Hb). rewrite Ht in Ht0. injection Ht0 as <-.
  assert (Hself := ci_self c k i t (kernel_core c k Hk) Ht).
  assert (Ht1 : m_task_storage k1 !! i = Some (settle (parked c STATE_SUSPENDED t)))
    by (rewrite Et1; apply list_lookup_insert_eq; by eapply lookup_lt_Some).
  assert (Hu1 : m_user (settle (parked c STATE_SUSPENDED t)) = m_user t)
    by (by destruct (slept_same c WAIT_INFINITE t) as ((? & _) & _)).
  destruct (tick_n_task (λ _ v, suspended v ∧ m_user v = m_user t) k1 i (Z.of_nat m + 1)) with (m := m)
    as (k2 & t2 & E2 & Hk2 & Hn2 & Hs2 & Htids & Ht2 & Hsu2 & Hus2).
  - intros q v sl [[] ?]. by split; [split|].
  - intros q v [[? ? (? & ? & ? & ?) ?] _] _. done.
  - intros q v _ [? Hv] _. split; [by apply suspended_tick|]. by rewrite full_tick_user.
  - done.
  - by rewrite En1.
  - eapply (slice_pre_put k); [done|done|done|]. by apply slept_left, so_ts.
  - lia.
  - exists (settle (parked c STATE_SUSPENDED t)). split; [done|]. split; [by apply settle_suspended|done].
  - lia.
  - replace (Z.of_nat m + 1 - Z.of_nat m) with (0 + 1) in Hs2 by lia.
    destruct (resume_suspended k2 u i t2) as (k3 & r & n & k4 & E3 & E4 & Hr4); try done.
    + eapply (tids_kept_find k); [done| |done|done|unfold GetTid in *; by rewrite Hus2].
      eapply tids_kept_trans; [|done]. intros j v Hj. rewrite Et1 in Hj. destruct (decide (j = i)) as [->|Hji].
      * exists t. rewrite list_lookup_insert_eq in Hj by (by eapply lookup_lt_Some). injection Hj as <-.
        split; [done|]. left. unfold GetTid. by rewrite Hu1.
      * rewrite list_lookup_insert_ne in Hj by done. eauto.
    + exists k1, k2, k3, r, n, k4. split_and!; try done.
      destruct Hsu2 as [Hb2 Es2 (F & _) _]. rewrite (ready_iff_awake k2 i t2) by done. unfold IsSleeping. by rewrite Es2.
Qed.
(** ** Removal, addition, lock *)

Lemma bool_and4 (a b x : bool) : a = true → b = true → x = true → a && b && x && true = true.
Proof. by intros -> -> ->. Qed.

(** Removing another task takes effect in the next tick: its slot is free
    again and the strategy no longer knows it. *)
Theorem removal_completes k u i t : kernel_inv c k → IsDynamicMode c = true → u ≠ 0 → FindTaskByUserTask u k = Some i →
  m_task_storage k !! i = Some t → m_task_now k ≠ None → m_task_now k ≠ Some i → slice_pre k 1 →
  ∃ k1 r n k2 t2, ScheduleTaskRemoval ops c u k = Ok k1 ∧ OnTick ops c STK_TICKLESS_TICKS_MAX 1 k1 = Ok (r, n, k2) ∧
    kernel_inv c k2 ∧ m_task_storage k2 !! i = Some t2 ∧ IsBusy t2 = false ∧ i ∉ members (m_strategy k2).
Proof.
  intros Hk Hd Hu Hi Ht Hn Hne Hs. destruct (find_task u k i Hi Hu) as (t0 & Ht0 & _ & Hb). rewrite Ht in Ht0. injection Ht0 as <-.
  destruct (schedule_removal c Hcfg Hse Hhrt k i t Hk Ht Hb Hn) as (k1 & t1 & E1 & Hk1 & Et1 & En1 & Hp1 & Hsl1 & Hl1).
  assert (Ht1 : m_task_storage k1 !! i = Some t1) by (rewrite Et1; apply list_lookup_insert_eq; by eapply lookup_lt_Some).
  destruct (now_Some k Hn) as [a Ha].
  destruct (on_tick c Hcfg Hse Hhrt STK_TICKLESS_TICKS_MAX k1 a 1) as (r & n & k2 & E2 & Hk2 & T);
    [done|by rewrite En1|split; [unfold INT32_MAX; lia|done]|by eapply slice_pre_put|].
  destruct (te_slot _ _ _ _ _ _ _ T i t1 Ht1) as (b & t' & Et' & Ht' & Hb' & _).
  rewrite Hb', bool_and4 in Et' by (done || by rewrite En1).
  assert (Hx : ∃ t2, m_task_storage k2 !! i = Some t2 ∧ IsBusy t2 = false).
  { assert (Hf : IsBusy t' = false) by (rewrite Et'; apply freed_free).
    destruct Ht' as [Ht'|(sl & Ht' & _)]; eexists; (split; [exact Ht'|exact Hf]). }
  destruct Hx as (t2 & Ht2 & Hb2). exists k1, r, n, k2, t2. split_and!; try done.
  - unfold ScheduleTaskRemoval, IsStarted. rewrite Hd, (proj2 (Z.eqb_neq u 0)), bool_decide_eq_false_2 by done.
    cbn [negb stk_assert]. by rewrite Hi.
  - unfold members. rewrite elem_of_app, <- (tk_busy _ _ _ _ _ (si_task c _ _ _ (ki_sched c k2 Hk2) i t2 Ht2)), Hb2. done.
Qed.

(** C17. Adding a task to a dynamic kernel: a task whose address or stack is in use
    is refused as a duplicate and one for which there is no slot is refused
    because the pool is full, both without any effect; otherwise the task gets
    a free slot and is ready. *)
Theorem add_task_result k u : kernel_inv c k → user_ok c u → IsInitialized k = true →
  IsDynamicMode c = true → IsStaticMode c = false →
  ∃ r k', AddTask ops c (Some u) k = Ok (r, k') ∧
    (r = ADD_FAIL_DUPLICATE ∧ k' = k ∧ existsb (collides u) (m_task_storage k) = true ∨
     r = ADD_FAIL_POOL_FULL ∧ k' = k ∧ existsb (collides u) (m_task_storage k) = false ∧
       (∀ i t, m_task_storage k !! i = Some t → IsBusy t = true) ∨
     r = ADD_OK ∧ has_room k u ∧ ∃ i t t', m_task_storage k !! i = Some t ∧ IsBusy t = false ∧
       m_task_storage k' = <[i := t']> (m_task_storage k) ∧ m_user t' = Some u ∧ IsSleeping t' = false ∧
       i ∈ st_ready (m_strategy k')).
Proof.
  intros Hk Hu Hin Hd Hst. unfold AddTask. rewrite Hhrt, Hst, Hd, Hin. cbn [negb andb orb].
  unfold TryAllocateNewTask. fold (collides u). destruct (existsb (collides u) (m_task_storage k)) eqn:Ec; cbn [mbind res_bind].
  { eexists _, k. split; [done|]. by left. }
  destruct (list_find (λ t, IsBusy t = false) (m_task_storage k)) as [[i t]|] eqn:Ef; cbn [fmap option_fmap option_map fst mbind res_bind].
  - apply list_find_Some in Ef as (Ht & Hb & _).
    destruct (add_core c Hcfg Hse Hhrt k i t u (kernel_core c k Hk) Ht Hb Hu) as (t' & s' & E & Ea & Hc' & Eu & Ha & HR & HA).
    rewrite (upd_task_ok k i t t') by done. cbn [mbind res_bind]. rewrite Ea. cbn [mbind res_bind].
    eexists _, _. split; [done|]. right; right. split; [done|]. split; [split; [done|eauto]|].
    exists i, t, t'. split_and!; try done. cbn. rewrite HR. set_solver.
  - eexists _, k. split; [done|]. right; left. split_and!; try done. intros i t Ht.
    apply list_find_None in Ef. rewrite Forall_lookup in Ef. specialize (Ef i t Ht). by destruct (IsBusy t).
Qed.

(** Scheduler locks nest: locking answers whether the scheduler was locked
    before, and restoring that answer brings the kernel back to where it was,
    however the lock is used in between. *)
Theorem lock_nesting k k2 b : m_kstate k = KSTATE_RUNNING ∨ m_kstate k = KSTATE_LOCKED →
  let '(r, k1) := LockScheduler c false k in
  IsLocked k1 = true ∧ (r = LOCK_WAS_LOCKED ↔ IsLocked k = true) ∧ (r = LOCK_WAS_UNLOCKED ↔ IsLocked k = false) ∧
  (k2 = snd (SetSchedulerLock c false b k1) →
   RestoreSchedulerLock c false (IsLocked k) k2 = (if IsLocked k then LOCK_WAS_LOCKED else LOCK_WAS_UNLOCKED, k)).
Proof.
  intros Hks. unfold LockScheduler, RestoreSchedulerLock, SetSchedulerLock, IsLocked. rewrite Hhrt. cbn [negb].
  destruct k as [ts s now f ks n sl sy]; cbn in *. destruct Hks as [-> | ->]; cbn; (split_and!; [done|done|done|]); intros ->;
    destruct b; done.
Qed.
(** ** Deferred suspension *)

Record deferred (q : Z) (t : KernelTask) : Prop := {
  df_busy : IsBusy t = true;
  df_time : m_time_sleep t = - q;
  df_flags : has t STATE_SLEEP_PENDING = false ∧ has t STATE_SUSPEND_PENDING = true ∧ IsPendingRemoval t = false;
  df_wait : IsWaiting (m_wait_obj t) = false;
}.

Lemma deferred_tick q t : 0 < q < WAIT_INFINITE → deferred q t →
  if decide (0 < q - 1) then deferred (q - 1) (full_tick c 1 t) else suspended (full_tick c 1 t).
Proof.
  intros Hq [Hb Ht (F1 & F2 & F3) Hw]. destruct (unyield_same c t) as (_ & Es & Ew & Eb & _ & Ef).
  unfold full_tick. rewrite Hw, andb_false_r. unfold tick_task.
  assert (Hsl : IsSleeping t = true) by (unfold IsSleeping; rewrite Ht; lia). rewrite Hsl.
  unfold tick_sleeping. rewrite Ef by done. rewrite F1. unfold count_down.
  assert (Hni : IsSleepInfinite (unyield c t) = false) by (unfold IsSleepInfinite; rewrite Es, Ht; lia).
  rewrite Hni, Ef, F2, Es, Ht by done. cbn [andb]. set (v := unyield c t) in *. case_decide as Hd.
  - rewrite (proj2 (Z.leb_gt 0 (- q + 1))) by lia. split; try done.
    + by rewrite <- Eb in Hb.
    + cbn. lia.
    + unfold IsPendingRemoval. change (has (with_sleep (- q + 1) v)) with (has v). rewrite !Ef by done. done.
    + cbn. by rewrite Ew.
  - rewrite (proj2 (Z.leb_le 0 (- q + 1))) by lia. split; try done.
    + by rewrite <- Eb in Hb.
    + assert (G1 : has v STATE_SLEEP_PENDING = false) by (by rewrite Ef).
      assert (G3 : IsPendingRemoval v = false) by (unfold IsPendingRemoval; by rewrite Ef).
      ktask. done.
    + cbn. by rewrite Ew.
Qed.

Lemma deferred_ticks k i t q : kernel_inv c k → m_task_now k ≠ None → 0 < q < WAIT_INFINITE → slice_pre k q →
  m_task_storage k !! i = Some t → deferred q t →
  ∀ m, Z.of_nat m ≤ q → ∃ k' t', tick_n m k = Ok k' ∧ kernel_inv c k' ∧ m_task_storage k' !! i = Some t' ∧
    if decide (0 < q - Z.of_nat m) then deferred (q - Z.of_nat m) t' else suspended t'.
Proof.
  intros Hk Hn Hq Hs Ht Hd m Hm.
  destruct (tick_n_task (λ x v, if decide (0 < x) then deferred x v else suspended v) k i q)
    with (m := m) as (k2 & t2 & E2 & Hk2 & _ & _ & _ & Ht2 & P2); try done.
  - intros x v sl. case_decide; intros []; by split.
  - intros x v. case_decide; [intros [? ? (? & ? & ?) ?] _; done|intros [? ? (? & ? & ? & ?) ?] _; done].
  - intros x v Hx Hv _. rewrite decide_True in Hv by lia. apply deferred_tick; [lia|done].
  - unfold WAIT_INFINITE in *. lia.
  - exists t. rewrite decide_True by lia. done.
  - eauto 10.
Qed.

(** Suspending a task that sleeps is deferred: the task goes on sleeping, and
    at the moment its sleep ends it becomes suspended instead of ready. *)
Theorem deferred_suspension k u i t q : kernel_inv c k → u ≠ 0 → FindTaskByUserTask u k = Some i →
  m_task_storage k !! i = Some t → sleeper q t → has t STATE_SUSPENDED = false → 0 < q < WAIT_INFINITE →
  m_task_now k ≠ None → slice_pre k q →
  ∃ k1, SuspendTask ops c false u k = Ok (SUSPEND_DEFERRED, None, k1) ∧
    (∀ m, Z.of_nat m ≤ q → ∃ k2, tick_n m k1 = Ok k2 ∧ i ∉ st_ready (m_strategy k2)) ∧
    ∃ k2 t2, tick_n (Z.to_nat q) k1 = Ok k2 ∧ m_task_storage k2 !! i = Some t2 ∧ suspended t2.
Proof.
  intros Hk Hu Hi Ht [Hb Hsl (F1 & F2 & F3) Hw] F4 Hq Hn Hs. set (t1 := raise STATE_SUSPEND_PENDING t).
  assert (Hsl' : IsSleeping t = true) by (unfold IsSleeping; rewrite Hsl; lia).
  assert (E1 : SuspendTask ops c false u k = Ok (SUSPEND_DEFERRED, None, put_task i t1 k)).
  { unfold SuspendTask. rewrite (proj2 (Z.eqb_neq u 0)), Hi by done. cbn [negb stk_assert].
    rewrite (task_at_ok k i t Ht). cbn [mbind res_bind]. rewrite F3, F4, F2, Hsl'. cbn [orb].
    by rewrite (mod_task_ok k i t). }
  assert (Hk1 : kernel_inv c (put_task i t1 k)).
  { apply (kernel_inv_neutral c k i t); try done; [|unfold t1; by ktask].
    destruct (ci_self c k i t (kernel_core c k Hk) Ht); split; unfold t1; ktask; try done; intros; congruence. }
  exists (put_task i t1 k). split; [done|].
  assert (Ht1 := put_task_at k i t t1 Ht).
  assert (Hs1 : slice_pre (put_task i t1 k) q) by (by eapply (slice_pre_put k _ i t t1)).
  assert (Hd1 : deferred q t1) by (split; try done; unfold t1; by ktask).
  assert (Hall := deferred_ticks (put_task i t1 k) i t1 q Hk1 Hn Hq Hs1 Ht1 Hd1).
  split.
  - intros m Hm. destruct (Hall m Hm) as (k2 & t2 & E2 & Hk2 & Ht2 & P2). exists k2. split; [done|]. case_decide.
    + destruct P2 as [? Es2 (G & _) _]. rewrite (ready_iff_awake k2 i t2) by done. unfold IsSleeping. rewrite Es2. lia.
    + destruct P2 as [? Es2 (G & _) _]. rewrite (ready_iff_awake k2 i t2) by done. unfold IsSleeping. by rewrite Es2.
  - destruct (Hall (Z.to_nat q)) as (k2 & t2 & E2 & Hk2 & Ht2 & P2); [lia|]. rewrite decide_False in P2 by lia. eauto.
Qed.
(** ** Priority inheritance *)

Context (Hsc : cfg_strategy c = st_config ops).

Lemma find_by_tid u k : FindTaskByUserTask u k = fst <$> list_find (λ x, x = u) (GetTid <$> m_task_storage k).
Proof. unfold FindTaskByUserTask. rewrite list_find_fmap. by destruct (list_find _ _) as [[? ?]|]. Qed.

Lemma find_same k k' u : GetTid <$> m_task_storage k' = GetTid <$> m_task_storage k →
  FindTaskByUserTask u k' = FindTaskByUserTask u k.
Proof. intros E. by rewrite !find_by_tid, E. Qed.

Lemma tids_put (ts : list KernelTask) i t t' : ts !! i = Some t → GetTid t' = GetTid t → GetTid <$> <[i := t']> ts = GetTid <$> ts.
Proof. intros Ht E. rewrite list_fmap_insert, E. apply list_insert_id. by rewrite list_lookup_fmap, Ht. Qed.

(** No waiter of [x] has a weight above [w]. *)
Definition no_waiter_above k (x : nat) (w : Z) : Prop :=
  is_Some (m_sync k !! x) ∧
  ∀ j u v, j ∈ wait_list k x → m_task_storage k !! j = Some u → m_user u = Some v → u_weight v ≤ w.

Lemma no_higher_waiter k x w : kernel_inv c k → no_waiter_above k x w → FindWeightHigherThan x w k = Ok NO_WEIGHT.
Proof.
  intros Hk [[so Hso] Hle]. unfold FindWeightHigherThan. rewrite Hso. cbn [deref mbind res_bind].
  destruct (max_waiter_ok c Hcfg Hse Hhrt Hsc k (so_wait_list so) NO_WEIGHT) as (m & -> & Hm); [intros j; by apply (waiter_user c k x so)|].
  cbn [mbind res_bind]. destruct (Z.gtb_spec m w); [|done]. f_equal.
  destruct Hm as [?|(j & u & v & Hj & Hu & Hv & ->)]; [done|]. assert (u_weight v ≤ w); [|lia].
  apply (Hle j u v); try done. unfold wait_list. by rewrite Hso.
Qed.

Lemma no_waiter_same k k' x w i t t' : m_sync k' = m_sync k → m_task_storage k !! i = Some t → m_user t' = m_user t →
  m_task_storage k' = <[i := t']> (m_task_storage k) → no_waiter_above k x w → no_waiter_above k' x w.
Proof.
  intros Es Ht Eu Ets [Hx Hle]. unfold no_waiter_above, wait_list in *. rewrite Es, Ets. split; [done|].
  intros j u v Hj Hu Hv. destruct (decide (j = i)) as [->|Hne].
  - rewrite list_lookup_insert_eq in Hu by (by eapply lookup_lt_Some). injection Hu as <-. rewrite Eu in Hv. by eapply Hle.
  - rewrite list_lookup_insert_ne in Hu by done. by eapply Hle.
Qed.

Lemma strat_sync f k k' : strat f k = Ok k' → m_sync k' = m_sync k.
Proof. unfold strat. intros H. by inv_res. Qed.


(** ** Telemetry *)

(** Equivalences whose sides are decided by computation. *)
Local Ltac iffs := try done; try (split; [|intros ?]); try done; try (intros ?; done); try (intros ?; split; try done);
  try match goal with H : is_Some None |- _ => by destruct H | H : _ ∧ _ |- _ => by destruct H end.

(** The reported state of a task is its state: ready exactly if it is awake,
    waiting exactly if a synchronization object holds it (and then for which
    object and how long), suspended, exiting, or sleeping for the reported
    time. *)
Theorem telemetry_faithful k u i t : kernel_inv c k → IsTelemetryMode c = true → IsSyncMode c = true →
  FindTaskByUserTask u k = Some i → m_task_storage k !! i = Some t →
  ∃ info, GetTaskState c (Some u) k = Ok (Some info) ∧
    (info_state info = TASK_STATE_READY ↔ IsSleeping t = false) ∧
    (info_state info = TASK_STATE_WAITING ↔ is_Some (waits_for (m_task_storage k) i)) ∧
    (info_state info = TASK_STATE_WAITING →
      info_wait_obj info = waits_for (m_task_storage k) i ∧ info_remaining info = m_time_wait (m_wait_obj t)) ∧
    (info_state info = TASK_STATE_EXITING ↔ IsPendingRemoval t = true) ∧
    (info_state info = TASK_STATE_SUSPENDED ↔ has t STATE_SUSPENDED = true ∧ IsPendingRemoval t = false) ∧
    (info_state info = TASK_STATE_SLEEPING → info_remaining info = - m_time_sleep t ∧ 0 < info_remaining info).
Proof.
  intros Hk Hm Hsy Hi Ht. assert (Hself := ci_self c k i t (kernel_core c k Hk) Ht).
  assert (Hp := so_parked t Hself). assert (Hrng := so_sleep t Hself). assert (Hwt := so_wait t Hself).
  unfold GetTaskState, waits_for. rewrite Hm, Hi, Ht. cbn [mbind option_bind]. rewrite (task_at_ok k i t Ht). cbn [mbind res_bind].
  unfold IsPendingRemoval, IsSleeping, IsWaiting in *. rewrite Hsy. cbn [andb].
  destruct (has t STATE_REMOVE_PENDING) eqn:F1; [|destruct (has t STATE_SUSPENDED) eqn:F2].
  - destruct Hp as [Es Hw]; [auto|]. rewrite Es. destruct (m_sync_obj (m_wait_obj t)); [done|].
    eexists. split; [done|]. cbn. split_and!; iffs.
  - destruct Hp as [Es Hw]; [auto|]. rewrite Es. destruct (m_sync_obj (m_wait_obj t)); [done|].
    eexists. split; [done|]. cbn. split_and!; iffs.
  - destruct (m_sync_obj (m_wait_obj t)) as [o|] eqn:Eo.
    + destruct (Hwt eq_refl) as (Es & _). rewrite Es. eexists. split; [done|]. cbn. split_and!; iffs.
    + destruct (m_time_sleep t <? 0) eqn:Es.
      * unfold i32. rewrite bool_decide_eq_true_2 by (unfold in_i32, INT32_MIN, INT32_MAX in *; lia). cbn [mbind res_bind].
        eexists. split; [done|]. cbn. split_and!; iffs. lia.
      * eexists. split; [done|]. cbn. split_and!; iffs.
Qed.
End behaviour.

End KernelBehaviour.
