(* ===== verification/KernelExamples.v ===== *)
(** * Example systems

    The theorems of [KernelBehaviour.v] applied to concrete kernels: the round
    robin system of [KernelRun.v] and a fixed-priority system with priority
    inheritance.  The last section records what the model showed about corner
    cases of the code, as evaluations of the operations on concrete states. *)

From S2P Require Import Prelude PriorityBitmap KernelTask Strategy RoundRobin FixedPriority Kernel KernelInv KernelSync KernelTick KernelSafe KernelRun KernelOrder KernelBehaviour.
Import KTask Strat Kernel KernelInv KernelSync KernelTick KernelSafe KernelRun KernelOrder KernelBehaviour.
Local Open Scope Z_scope.

Module KernelExamples.

(** ** The round-robin system *)

Notation rr_spec := (RoundRobin.RROps_spec true).
Notation ex_inv := (kernel_inv (ops := ex_ops) (HS := rr_spec) ex_cfg).

Lemma ex_inv_of k : reachable (HS := rr_spec) ex_ops ex_cfg 1000 4 3 k → ex_inv k.
Proof. by apply reachable_inv. Qed.

Lemma ex_inv4 : ex_inv ex_k4.
Proof. apply ex_inv_of, ex_reach. Qed.

(** A step of a run whose precondition holds keeps the invariant. *)
Lemma ex_step op k : ex_inv k → permitted (HS := rr_spec) ex_ops ex_cfg 4 op k → ex_inv (run_or_stay op k).
Proof.
  intros Hk Hp. destruct (exec_safe (HS := rr_spec) ex_ops ex_cfg 1000 4 I eq_refl eq_refl eq_refl op k Hk Hp) as (k' & E & ?).
  unfold run_or_stay, ex_exec. by rewrite E.
Qed.

(** No task has a time slice. *)
Lemma ex_slice (k : Kernel RoundRobin.RR) n : forallb (λ t, left_ (m_ts t) =? 0) (m_task_storage k) = true →
  n ≤ INT32_MAX → slice_pre k n.
Proof.
  intros H Hn i t Ht. apply list_elem_of_lookup_2, list_elem_of_In in Ht.
  apply (proj1 (forallb_forall _ _) H), Z.eqb_eq in Ht as ->. unfold INT32_MIN, INT32_MAX in *. lia.
Qed.

Definition ex_t0 : KernelTask := match m_task_storage ex_k4 with t :: _ => t | [] => KernelTask_ctor end.
Lemma ex_runs : executes 4 ex_k4 1000 0 ex_t0.
Proof. by split. Qed.
(** Closes an equation between closed terms by evaluating both sides. *)
Ltac eval_eq := solve [vm_compute; reflexivity | vm_compute; discriminate].
Lemma ex_tick_pre (k : Kernel RoundRobin.RR) : tick_pre k 1.
Proof. split; [unfold INT32_MAX; lia|done]. Qed.

(** The round robin hands the processor from the first task to the second. *)
Lemma tick_dispatches_witness : ∃ n k1 k2 r k',
  UpdateTasks ex_ops ex_cfg 1000 1 (set_ticks (m_ticks ex_k4 + 1) ex_k4) = Ok (n, k1) ∧
  (if IsTimesliceMode ex_cfg then UpdateTimeslice ex_ops ex_cfg 1 k1 else Ok k1) = Ok k2 ∧
  st_GetNext ex_ops ex_cfg (m_task_storage k2, m_strategy k2) = Ok (running k', (m_task_storage k', m_strategy k')) ∧
  OnTick ex_ops ex_cfg 1000 1 ex_k4 = Ok (r, n, k') ∧ decision k' ∧
  r = switch_spec (m_fsm_state ex_k4) 0 k' ∧ m_ticks k' = m_ticks ex_k4 + 1.
Proof.
  apply (tick_dispatches (HS := rr_spec) ex_ops ex_cfg 1000 I eq_refl eq_refl ex_k4 0 1 ex_inv4 eq_refl eq_refl (ex_tick_pre _)).
  by apply ex_slice.
Defined.

Lemma tickless_bound_witness : ∃ r n k',
  OnTick ex_ops ex_cfg 1000 1 ex_k4 = Ok (r, n, k') ∧ 1 ≤ n ≤ 1000 ∧
  ∀ j t, m_task_storage k' !! j = Some t → IsBusy t = true → n = 1 ∨ n ≤ idle_limit ex_cfg t.
Proof.
  apply (tickless_bound (HS := rr_spec) ex_ops ex_cfg 1000 I eq_refl eq_refl ex_k4 0 1 ex_inv4 eq_refl eq_refl ltac:(lia) (ex_tick_pre _)).
  by apply ex_slice.
Defined.

(** The first task holds the scheduler lock. *)
Definition ex_locked := run_or_stay (OpSchedulerLock false true) ex_k4.
Lemma ex_locked_inv : ex_inv ex_locked.
Proof. apply ex_step; [apply ex_inv4|done]. Qed.

Lemma locked_tick_keeps_task_witness : ∃ n k',
  OnTick ex_ops ex_cfg 1000 1 ex_locked = Ok (no_switch, n, k') ∧ ex_inv k' ∧ m_task_now k' = Some 0%nat ∧
  m_fsm_state k' = m_fsm_state ex_locked ∧ m_ticks k' = m_ticks ex_locked + 1 ∧ IsLocked k' = true.
Proof.
  apply (locked_tick_keeps_task (HS := rr_spec) ex_ops ex_cfg 1000 I eq_refl eq_refl ex_locked 0 1 ex_locked_inv eq_refl eq_refl (ex_tick_pre _)).
  by apply ex_slice.
Defined.

Lemma sleep_lasts_n_ticks_witness : ∃ k1 r k2,
  Service_Sleep ex_cfg 4 false 1000 5 ex_k4 = Ok (true, k1) ∧
  OnForceContextSwitch ex_ops ex_cfg (GetTid ex_t0) k1 = Ok (r, k2) ∧ decision k2 ∧ running k2 ≠ Some 0%nat ∧
  r = switch_spec (m_fsm_state ex_k4) 0 k2 ∧
  ∀ m, Z.of_nat m ≤ 5 → ∃ k3, tick_n ex_ops ex_cfg 1000 m k2 = Ok k3 ∧ ex_inv k3 ∧
    (0%nat ∈ RoundRobin.m_tasks (m_strategy k3) ↔ Z.of_nat m = 5).
Proof.
  apply (sleep_lasts_n_ticks (HS := rr_spec) ex_ops ex_cfg 1000 4 I eq_refl eq_refl ex_k4 1000 0 ex_t0 5 ex_inv4 ex_runs eq_refl).
  - unfold WAIT_INFINITE, INT32_MAX. lia.
  - by apply ex_slice.
Defined.

Lemma wait_times_out_witness : ∃ k1 r k2, Service_Wait ex_cfg 4 1000 0 5 ex_k4 = Ok (0%nat, k1) ∧
  OnForceContextSwitch ex_ops ex_cfg (GetTid ex_t0) k1 = Ok (r, k2) ∧ decision k2 ∧ running k2 ≠ Some 0%nat ∧
  (∀ m, Z.of_nat m < 5 → ∃ k3, tick_n ex_ops ex_cfg 1000 m k2 = Ok k3 ∧ waits_for (m_task_storage k3) 0 = Some 0%nat ∧
    0%nat ∈ wait_list k3 0 ∧ 0%nat ∉ RoundRobin.m_tasks (m_strategy k3)) ∧
  ∃ k3 k4, tick_n ex_ops ex_cfg 1000 (Z.to_nat 5) k2 = Ok k3 ∧ 0%nat ∈ RoundRobin.m_tasks (m_strategy k3) ∧
    waits_for (m_task_storage k3) 0 = None ∧ (∀ o', 0%nat ∉ wait_list k3 o') ∧ OnTaskWait_end 0 k3 = Ok (WAIT_RESULT_TIMEOUT, k4).
Proof.
  apply (wait_times_out (HS := rr_spec) ex_ops ex_cfg 1000 4 I eq_refl eq_refl ex_k4 1000 0 ex_t0 0 5 ex_inv4 ex_runs eq_refl eq_refl).
  - by eexists.
  - unfold WAIT_INFINITE, INT32_MAX. lia.
  - by apply ex_slice.
Defined.

(** The first task waits for object 0, then the second; the kernel sleeps. *)
Definition ex_waiting1 := run_or_stay (OpForceContextSwitch 100) (run_or_stay (OpWait 1000 0 50) ex_k4).
Definition ex_waiting := run_or_stay (OpForceContextSwitch 200) (run_or_stay (OpWait 2000 0 50) ex_waiting1).
Lemma ex_waiting1_inv : ex_inv ex_waiting1.
Proof.
  apply ex_step; [|done]. apply ex_step; [apply ex_inv4|]. split_and!; [done| |by eexists|unfold WAIT_INFINITE, INT32_MAX; lia..].
  split; [|done]. exists 0%nat, ex_t0. apply ex_runs.
Qed.
Lemma ex_waiting_inv : ex_inv ex_waiting.
Proof.
  apply ex_step; [|eval_eq]. apply ex_step; [apply ex_waiting1_inv|]. split_and!; [done| |decided|unfold WAIT_INFINITE, INT32_MAX; lia..].
  split; [|eval_eq]. exists 1%nat. eexists. split; eval_eq.
Qed.
Definition ex_waiter : KernelTask := match m_task_storage ex_waiting with t :: _ => t | [] => KernelTask_ctor end.

Lemma signal_wakes_first_witness : wait_list ex_waiting 0 = [0%nat; 1%nat] ∧
  ∃ k1 r n k2 k3, Service_Wake ex_cfg 0 false ex_waiting = Ok k1 ∧
  wait_list k1 0 = [1%nat] ∧ (∀ o', o' ≠ 0%nat → wait_list k1 o' = wait_list ex_waiting o') ∧
  (∀ j, j ∈ [1%nat] → waits_for (m_task_storage k1) j = Some 0%nat) ∧
  OnTick ex_ops ex_cfg 1000 1 k1 = Ok (r, n, k2) ∧ 0%nat ∈ RoundRobin.m_tasks (m_strategy k2) ∧
  (∀ o', 0%nat ∉ wait_list k2 o') ∧ OnTaskWait_end 0 k2 = Ok (WAIT_RESULT_SIGNAL, k3).
Proof.
  split; [eval_eq|].
  apply (signal_wakes_first (HS := rr_spec) ex_ops ex_cfg 1000 4 I eq_refl eq_refl ex_waiting 0 (mkSync [0%nat; 1%nat] None) 0 [1%nat] ex_waiter ex_waiting_inv);
    [eval_eq..|]. apply ex_slice; eval_eq.
Defined.

Definition ex_t1 : KernelTask := match m_task_storage ex_k4 with _ :: t :: _ => t | _ => KernelTask_ctor end.
Lemma suspend_until_resumed_witness : ∃ k1 k2 k3 r n k4,
  SuspendTask ex_ops ex_cfg false 200 ex_k4 = Ok (SUSPEND_DONE, None, k1) ∧ tick_n ex_ops ex_cfg 1000 7 k1 = Ok k2 ∧
  (1%nat ∉ RoundRobin.m_tasks (m_strategy k2)) ∧ ResumeTask 200 k2 = Ok (RESUME_DONE, k3) ∧
  OnTick ex_ops ex_cfg 1000 1 k3 = Ok (r, n, k4) ∧ 1%nat ∈ RoundRobin.m_tasks (m_strategy k4).
Proof.
  apply (suspend_until_resumed (HS := rr_spec) ex_ops ex_cfg 1000 I eq_refl eq_refl ex_k4 200 1 ex_t1 7 ex_inv4);
    try eval_eq; apply ex_slice; eval_eq.
Defined.

Lemma removal_completes_witness : ∃ k1 r n k2 t2, ScheduleTaskRemoval ex_ops ex_cfg 200 ex_k4 = Ok k1 ∧
  OnTick ex_ops ex_cfg 1000 1 k1 = Ok (r, n, k2) ∧ ex_inv k2 ∧ m_task_storage k2 !! 1%nat = Some t2 ∧ IsBusy t2 = false ∧
  1%nat ∉ members (ops := ex_ops) (m_strategy k2).
Proof.
  apply (removal_completes (HS := rr_spec) ex_ops ex_cfg 1000 I eq_refl eq_refl ex_k4 200 1 ex_t1 ex_inv4);
    try eval_eq; apply ex_slice; eval_eq.
Defined.

Definition ex_u3 : ITask := mkITask 300 3000 16 1 0.
Lemma add_task_result_witness : ∃ r k', AddTask ex_ops ex_cfg (Some ex_u3) ex_k4 = Ok (r, k') ∧
  (r = ADD_FAIL_DUPLICATE ∧ k' = ex_k4 ∧ existsb (collides ex_u3) (m_task_storage ex_k4) = true ∨
   r = ADD_FAIL_POOL_FULL ∧ k' = ex_k4 ∧ existsb (collides ex_u3) (m_task_storage ex_k4) = false ∧
     (∀ i t, m_task_storage ex_k4 !! i = Some t → IsBusy t = true) ∨
   r = ADD_OK ∧ has_room ex_k4 ex_u3 ∧ ∃ i t t', m_task_storage ex_k4 !! i = Some t ∧ IsBusy t = false ∧
     m_task_storage k' = <[i := t']> (m_task_storage ex_k4) ∧ m_user t' = Some ex_u3 ∧ IsSleeping t' = false ∧
     i ∈ RoundRobin.m_tasks (m_strategy k')).
Proof.
  apply (add_task_result (HS := rr_spec) ex_ops ex_cfg I eq_refl eq_refl ex_k4 ex_u3 ex_inv4); try eval_eq.
  by apply ex_user_ok.
Defined.

Lemma lock_nesting_witness : let '(r, k1) := LockScheduler ex_cfg false ex_k4 in
  IsLocked k1 = true ∧ (r = LOCK_WAS_LOCKED ↔ IsLocked ex_k4 = true) ∧ (r = LOCK_WAS_UNLOCKED ↔ IsLocked ex_k4 = false) ∧
  (ex_k4 = snd (SetSchedulerLock ex_cfg false false k1) →
   RestoreSchedulerLock ex_cfg false (IsLocked ex_k4) ex_k4 =
     (if IsLocked ex_k4 then LOCK_WAS_LOCKED else LOCK_WAS_UNLOCKED, ex_k4)).
Proof. apply (lock_nesting ex_cfg eq_refl ex_k4 ex_k4 false). by left. Defined.

(** The first task sleeps for five ticks and the second one runs. *)
Definition ex_sleeping := run_or_stay (OpForceContextSwitch 100) (run_or_stay (OpSleep 1000 5) ex_k4).
Lemma ex_sleeping_inv : ex_inv ex_sleeping.
Proof.
  apply ex_step; [|done]. apply ex_step; [apply ex_inv4|]. split; [|unfold INT32_MAX; lia].
  split; [|done]. exists 0%nat, ex_t0. apply ex_runs.
Qed.
Definition ex_sleeper : KernelTask := match m_task_storage ex_sleeping with t :: _ => t | [] => KernelTask_ctor end.

Lemma deferred_suspension_witness : ∃ k1, SuspendTask ex_ops ex_cfg false 100 ex_sleeping = Ok (SUSPEND_DEFERRED, None, k1) ∧
  (∀ m, Z.of_nat m ≤ 5 → ∃ k2, tick_n ex_ops ex_cfg 1000 m k1 = Ok k2 ∧ 0%nat ∉ RoundRobin.m_tasks (m_strategy k2)) ∧
  ∃ k2 t2, tick_n ex_ops ex_cfg 1000 (Z.to_nat 5) k1 = Ok k2 ∧ m_task_storage k2 !! 0%nat = Some t2 ∧ suspended t2.
Proof.
  apply (deferred_suspension (HS := rr_spec) ex_ops ex_cfg 1000 I eq_refl eq_refl ex_sleeping 100 0 ex_sleeper 5 ex_sleeping_inv);
    try eval_eq; [by split|by split|apply ex_slice; eval_eq].
Defined.

Lemma telemetry_faithful_witness : ∃ info, GetTaskState ex_cfg (Some 100) ex_waiting = Ok (Some info) ∧
  (info_state info = TASK_STATE_READY ↔ IsSleeping ex_waiter = false) ∧
  (info_state info = TASK_STATE_WAITING ↔ is_Some (waits_for (m_task_storage ex_waiting) 0)) ∧
  (info_state info = TASK_STATE_WAITING →
    info_wait_obj info = waits_for (m_task_storage ex_waiting) 0 ∧ info_remaining info = m_time_wait (m_wait_obj ex_waiter)) ∧
  (info_state info = TASK_STATE_EXITING ↔ IsPendingRemoval ex_waiter = true) ∧
  (info_state info = TASK_STATE_SUSPENDED ↔ has ex_waiter STATE_SUSPENDED = true ∧ IsPendingRemoval ex_waiter = false) ∧
  (info_state info = TASK_STATE_SLEEPING → info_remaining info = - m_time_sleep ex_waiter ∧ 0 < info_remaining info).
Proof. apply (telemetry_faithful (HS := rr_spec) ex_ops ex_cfg ex_waiting 100 0 ex_waiter ex_waiting_inv); eval_eq. Defined.
(** ** A fixed-priority system *)

Notation fp_ops := (FixedPriority.FPOps PBitmap.U32Bitmap 8 true).
Definition fp_cfg : KernelCfg := mkCfg (KERNEL_DYNAMIC + KERNEL_SYNC) (FixedPriority.EConfig true).
Lemma fp_levels_fit : 1 ≤ 8 ≤ PBitmap.CAPACITY PBitmap.U32Bitmap.
Proof. by split. Qed.
Notation fp_spec := (FixedPriority.FPOps_spec PBitmap.U32Bitmap 8 true fp_levels_fit ltac:(lia)).
Notation FPKernel := (Kernel (FixedPriority.FP Z)).
Definition fp_run (op : kop) (k : FPKernel) : FPKernel :=
  match exec fp_ops fp_cfg 1000 4 op k with Ok k' => k' | Panic _ => k end.

(** An owner of priority 1 and two tasks of priorities 5 and 3. *)
Definition fp_owner : ITask := mkITask 100 1000 16 1 0.
Definition fp_high : ITask := mkITask 200 2000 16 5 0.
Definition fp_mid : ITask := mkITask 300 3000 16 3 0.
Definition fp_k0 : FPKernel := Kernel_ctor fp_ops 3 {[ 0%nat := mkSync [] None ]}.

Lemma fp_user_ok a b w : a ≠ TID_NONE → 0 ≤ w < 8 → user_ok (HS := fp_spec) fp_cfg (mkITask a b 16 w 0).
Proof.
  intros Ha Hw. split; [done|done|]. intros t t' E. injection E as <-. exists w. split; [|done].
  unfold GetWeight. cbn -[NO_WEIGHT]. done.
Qed.

(** A permitted call keeps the invariant. *)
Notation fp_inv := (kernel_inv (HS := fp_spec) fp_cfg).
Lemma fp_step op k : fp_inv k → permitted (HS := fp_spec) fp_ops fp_cfg 4 op k → fp_inv (fp_run op k).
Proof.
  intros Hk Hp. destruct (exec_safe (HS := fp_spec) fp_ops fp_cfg 1000 4 I eq_refl eq_refl eq_refl op k Hk Hp) as (k' & E & ?).
  unfold fp_run. by rewrite E.
Qed.

Definition fp_ready : FPKernel :=
  fp_run (OpAddTask fp_mid) (fp_run (OpAddTask fp_high) (fp_run (OpAddTask fp_owner) (fp_run OpInitialize fp_k0))).
Lemma fp_ready_inv : fp_inv fp_ready.
Proof.
  assert (H0 : fp_inv fp_k0) by (apply (reachable_inv (HS := fp_spec) fp_ops fp_cfg 1000 4 I eq_refl eq_refl eq_refl 3), reach_ctor; decided).
  do 3 (apply fp_step; [|split; [by apply fp_user_ok|done]]). by apply fp_step.
Qed.
(** The task of priority 5 waits for object 0, the owner inherits 5 and restores
    its weight with the waiter still on the list. *)
Definition fp_waits : FPKernel := fp_run (OpForceContextSwitch 200) (fp_run (OpWait 2000 0 50) (fp_run OpStart fp_ready)).
Lemma fp_waits_inv : fp_inv fp_waits.
Proof.
  apply fp_step; [|eval_eq]. apply fp_step; [apply fp_step; [apply fp_ready_inv|split; [done|eval_eq]]|].
  split_and!; [done| |decided|unfold WAIT_INFINITE, INT32_MAX; lia..].
  split; [|eval_eq]. exists 1%nat. eexists. split; eval_eq.
Qed.
Definition fp_t0 : KernelTask := match m_task_storage fp_waits with t :: _ => t | [] => KernelTask_ctor end.

Lemma fp_waits_list : wait_list fp_waits 0 = [1%nat].
Proof. eval_eq. Qed.
Lemma fp_waits_none_above : no_waiter_above fp_waits 0 5.
Proof.
  split; [decided|]. rewrite fp_waits_list. intros j u v ->%list_elem_of_singleton.
  vm_compute. intros [= <-] [= <-]. done.
Qed.


(** ** Corner cases of the code

    Runs of calls on the two systems, evaluated. *)

Definition exec_all {S} (ops : StrategyOps S) (c : KernelCfg) : list kop → Kernel S → res (Kernel S) :=
  fix go l k := match l with [] => Ok k | op :: l => k ← exec ops c 1000 4 op k; go l k end.
Definition slot {S} (i : nat) (k : res (Kernel S)) : option KernelTask :=
  match k with Ok k => m_task_storage k !! i | Panic _ => None end.
Definition sleep_time {S} (i : nat) (k : res (Kernel S)) : option Z := m_time_sleep <$> slot i k.
Definition pending_removal {S} (i : nat) (k : res (Kernel S)) : option bool := IsPendingRemoval <$> slot i k.

(** A task in a plain Sleep is woken by CancelTaskWait, which the interface
    documents as a no-op for such a task. *)
Example cancel_wakes_plain_sleeper :
  sleep_time 0 (exec_all ex_ops ex_cfg [OpSleep 1000 50; OpForceContextSwitch 100; OpTick 1] ex_k4) = Some (-49) ∧
  sleep_time 0 (exec_all ex_ops ex_cfg [OpSleep 1000 50; OpForceContextSwitch 100; OpCancelTaskWait 100; OpTick 1] ex_k4) = Some 0.
Proof. split; vm_compute; reflexivity. Qed.

(** CancelTaskWait on an exiting task that is still the current one: the task is
    awake again, and its removal stays pending for as long as it runs. *)
Example cancel_revives_exiting_task :
  pending_removal 0 (exec_all ex_ops ex_cfg (OpExitTask 1000 :: replicate 2 (OpTick 1)) ex_k4) = Some false ∧
  (let k := exec_all ex_ops ex_cfg ([OpExitTask 1000; OpCancelTaskWait 100] ++ replicate 20 (OpTick 1)) ex_k4 in
   pending_removal 0 k = Some true ∧ sleep_time 0 k = Some 0).
Proof. split; [|split]; vm_compute; reflexivity. Qed.

(** A task suspended and resumed before the scheduler starts keeps a stale
    STATE_WAKE_PENDING: its first sleep of three ticks counts the tick in which it
    is entered and is one tick short. *)
Example stale_wake_shortens_sleep :
  let run := [OpStart; OpTick 1; OpTick 1; OpSleep 1000 3; OpTick 1; OpTick 1] in
  sleep_time 0 (exec_all ex_ops ex_cfg run ex_k3) = Some (-2) ∧
  sleep_time 0 (exec_all ex_ops ex_cfg ([OpSuspendTask false 100; OpResumeTask 100] ++ run) ex_k3) = Some (-1).
Proof. split; vm_compute; reflexivity. Qed.

(** The owner (priority 1) inherited priority 5 from a waiter that then timed out,
    a waiter of priority 3 still waits: the restored weight is the owner's own
    (no inherited weight), not the 3 of the remaining waiter. *)
Example restore_ignores_lower_waiter :
  let run := [OpStart; OpWait 2000 0 5; OpForceContextSwitch 200; OpWait 3000 0 WAIT_INFINITE; OpForceContextSwitch 300;
              OpInheritWeight 100 5] ++ replicate 6 (OpTick 1) in
  m_rt_weight <$> slot 0 (exec_all fp_ops fp_cfg run fp_ready) = Some 5 ∧
  (let k := exec_all fp_ops fp_cfg (run ++ [OpRestoreWeight 100 (Some 0%nat)]) fp_ready in
   m_rt_weight <$> slot 0 k = Some NO_WEIGHT ∧ match k with Ok k => m_sync k !! 0%nat = Some (mkSync [2%nat] None) | Panic _ => False end).
Proof. split; [|split]; vm_compute; reflexivity. Qed.

End KernelExamples.
