(* ===== verification/HrtPolicy.v ===== *)
(** * What hard real-time mode needs of a strategy

    A strategy may keep the sleeping tasks apart and be told when a task sleeps
    and wakes ([SLEEP_EVENT_API]: round robin, fixed priority, EDF), or keep one
    list and skip the sleepers when it picks a task (the monotonic strategies).
    [HrtPolicy] states what both kinds promise to a kernel in hard real-time
    mode, in terms of the tasks: a task is listed when it is awake or its sleep
    has not been processed yet; the strategy picks a listed task whenever there
    is one.  Every [StrategySpec] with sleep events is an instance, and so are
    the monotonic strategies. *)

From S2P Require Import Prelude KernelTask Strategy Monotonic Kernel KernelInv.
Import KTask Strat KernelInv.
Local Open Scope Z_scope.

Module HrtPolicy.

(** What a strategy may have sorted its tasks by. *)
Definition same_params (t t' : KernelTask) : Prop :=
  same_weight t t' ∧ periodicity (m_hrt t') = periodicity (m_hrt t) ∧ deadline (m_hrt t') = deadline (m_hrt t).

(** The task counts as ready: it is awake, or about to leave the ready tasks. *)
Definition listed (t : KernelTask) : bool := negb (IsSleeping t) || has t STATE_SLEEP_PENDING.

(** The calls the kernel makes when a task sleeps or wakes. *)
Definition on_sleep {S} (ops : StrategyOps S) (c : KernelCfg) (i : nat) (st : list KernelTask * S) : res (list KernelTask * S) :=
  if SLEEP_EVENT_API (cfg_strategy c) then st_OnTaskSleep ops c i st else Ok st.
Definition on_wake {S} (ops : StrategyOps S) (c : KernelCfg) (i : nat) (st : list KernelTask * S) : res (list KernelTask * S) :=
  if SLEEP_EVENT_API (cfg_strategy c) then st_OnTaskWake ops c i st else Ok st.

Class HrtPolicy {S : Type} (ops : StrategyOps S) (c : KernelCfg) := {
  hp_ok : list KernelTask → S → Prop;
  hp_members : S → list nat;
  hp_admissible : KernelTask → Prop;

  hp_range ts s i : hp_ok ts s → i ∈ hp_members s → (i < length ts)%nat;
  hp_put ts s i t t' : hp_ok ts s → ts !! i = Some t → same_params t t' → listed t' = listed t → hp_ok (<[i := t']> ts) s;
  hp_sleep ts s i t t' : hp_ok ts s → ts !! i = Some t → i ∈ hp_members s → same_params t t' →
    listed t = true → listed t' = false →
    ∃ s', on_sleep ops c i (<[i := t']> ts, s) = Ok (<[i := t']> ts, s') ∧ hp_ok (<[i := t']> ts) s' ∧ hp_members s' ≡ₚ hp_members s;
  hp_wake ts s i t t' : hp_ok ts s → ts !! i = Some t → i ∈ hp_members s → same_params t t' →
    listed t = false → IsSleeping t' = false →
    ∃ s', on_wake ops c i (<[i := t']> ts, s) = Ok (<[i := t']> ts, s') ∧ hp_ok (<[i := t']> ts) s' ∧ hp_members s' ≡ₚ hp_members s;
  hp_next ts s : hp_ok ts s → (∀ i t, i ∈ hp_members s → ts !! i = Some t → listed t = true → runnable ts i) →
    ∃ r s', st_GetNext ops c (ts, s) = Ok (r, (ts, s')) ∧ hp_ok ts s' ∧ hp_members s' ≡ₚ hp_members s ∧
      match r with
      | Some i => i ∈ hp_members s ∧ ∃ t, ts !! i = Some t ∧ listed t = true
      | None => ∀ i t, i ∈ hp_members s → ts !! i = Some t → listed t = false
      end;
  hp_first ts s : hp_ok ts s → hp_members s ≠ [] → ∃ i, st_GetFirst ops c (ts, s) = Ok (Some i) ∧ i ∈ hp_members s;
  hp_size ts s : hp_ok ts s → st_GetSize ops s = Z.of_nat (length (hp_members s));
  hp_ctor ts : hp_ok ts (st_ctor ops) ∧ hp_members (st_ctor ops) = [];
  hp_add ts s i t t' : hp_ok ts s → ts !! i = Some t → (i ∉ hp_members s) → hp_admissible t' → listed t' = true →
    ∃ s', st_AddTask ops c i (<[i := t']> ts, s) = Ok (<[i := t']> ts, s') ∧ hp_ok (<[i := t']> ts) s' ∧
      hp_members s' ≡ₚ i :: hp_members s;
  hp_admissible_frame t t' : hp_admissible t → same_weight t t' → hp_admissible t';
}.

Lemma listed_awake t : IsSleeping t = false → listed t = true.
Proof. unfold listed. by intros ->. Qed.

Lemma lookup_put (ts : list KernelTask) (i : nat) (t t' u : KernelTask) j : ts !! i = Some t → <[i := t']> ts !! j = Some u →
  j = i ∧ u = t' ∨ j ≠ i ∧ ts !! j = Some u.
Proof.
  intros Hi. destruct (decide (j = i)) as [->|Hne].
  - rewrite list_lookup_insert_eq by (by eapply lookup_lt_Some). intros [= <-]. by left.
  - rewrite list_lookup_insert_ne by done. by right.
Qed.

(** ** Strategies with sleep events *)

Section events.
Context {S : Type} (ops : StrategyOps S) {HS : StrategySpec ops} (c : KernelCfg).
Context (Hcfg : st_cfg_ok c) (Hse : SLEEP_EVENT_API (cfg_strategy c) = true).

(** The strategy's ready tasks are the listed ones. *)
Record events_ok (ts : list KernelTask) (s : S) : Prop := {
  ev_inv : st_inv c ts s;
  ev_range i : i ∈ st_ready s ++ st_asleep s → (i < length ts)%nat;
  ev_listed i t : i ∈ st_ready s ++ st_asleep s → ts !! i = Some t → (i ∈ st_ready s ↔ listed t = true);
}.

Lemma events_get ts s i : events_ok ts s → i ∈ st_ready s ++ st_asleep s → ∃ t, ts !! i = Some t.
Proof. intros H Hi. apply (ev_range ts s H), lookup_lt_is_Some in Hi as [t Ht]. by exists t. Qed.

Lemma events_asleep ts s i t : events_ok ts s → i ∈ st_ready s ++ st_asleep s → ts !! i = Some t → listed t = false →
  i ∈ st_asleep s.
Proof.
  intros H Hi Ht Hl. destruct (ev_listed ts s H i t Hi Ht) as [H1 _]. apply elem_of_app in Hi as [Hi|]; [|done].
  specialize (H1 Hi). congruence.
Qed.

(** The strategy moved task [i], now [t'], and no other one. *)
Lemma events_move ts s s' i t t' : events_ok ts s → ts !! i = Some t → st_inv c (<[i := t']> ts) s' →
  (∀ j, j ∈ st_ready s' ++ st_asleep s' ↔ j ∈ st_ready s ++ st_asleep s) →
  (∀ j, j ≠ i → (j ∈ st_ready s' ↔ j ∈ st_ready s)) → (i ∈ st_ready s' ↔ listed t' = true) →
  events_ok (<[i := t']> ts) s'.
Proof.
  intros [_ Hr Hl] Hi Hs' Hm Ho Hi'. split; [done| |].
  - intros j. rewrite length_insert, Hm. apply Hr.
  - intros j u Hj Hu. destruct (lookup_put _ _ _ _ _ _ Hi Hu) as [[-> ->]|[Hne Hu']]; [done|].
    rewrite Ho by done. apply Hl; [by apply Hm|done].
Qed.

Lemma events_put ts s i t t' : events_ok ts s → ts !! i = Some t → same_params t t' → listed t' = listed t →
  events_ok (<[i := t']> ts) s.
Proof.
  intros H Hi (Hw & _) Hl. split; [by eapply st_frame_put; [apply H|..]|intros j; rewrite length_insert; apply H|].
  intros j u Hj Hu. destruct (lookup_put _ _ _ _ _ _ Hi Hu) as [[-> ->]|[Hne Hu']]; [rewrite Hl|]; by apply H.
Qed.

Lemma events_sleep ts s i t t' : events_ok ts s → ts !! i = Some t → i ∈ st_ready s ++ st_asleep s → same_params t t' →
  listed t = true → listed t' = false →
  ∃ s', on_sleep ops c i (<[i := t']> ts, s) = Ok (<[i := t']> ts, s') ∧ events_ok (<[i := t']> ts) s' ∧
    st_ready s' ++ st_asleep s' ≡ₚ st_ready s ++ st_asleep s.
Proof.
  intros H Hi Hm (Hw & _) Hl Hl'. unfold on_sleep. rewrite Hse.
  assert (Hr : i ∈ st_ready s) by (by apply (ev_listed ts s H i t)).
  assert (Hnd := st_nodup c ts s (ev_inv ts s H)). apply NoDup_app in Hnd as (Hnd & _).
  destruct (st_OnTaskSleep_spec c (<[i := t']> ts) s i t') as (s' & E & Hs' & HR & HA);
    [done|by eapply st_frame_put; [apply H|..]|by apply list_lookup_insert_eq; eapply lookup_lt_Some| |done|].
  { unfold listed in Hl'. apply orb_false_iff in Hl' as [Hl' _]. by apply negb_false_iff in Hl'. }
  exists s'. assert (Hp : st_ready s' ++ st_asleep s' ≡ₚ st_ready s ++ st_asleep s).
  { rewrite HR, HA, <- Permutation_middle, app_comm_cons. symmetry. by apply Permutation_app_tail, remove1_perm. }
  split_and!; [done| |done]. apply (events_move ts s s' i t); [done..|by intros j; rewrite Hp| |].
  - intros j Hj. rewrite HR, elem_of_remove1. tauto.
  - rewrite HR, elem_of_remove1, Hl'. naive_solver.
Qed.

Lemma events_wake ts s i t t' : events_ok ts s → ts !! i = Some t → i ∈ st_ready s ++ st_asleep s → same_params t t' →
  listed t = false → IsSleeping t' = false →
  ∃ s', on_wake ops c i (<[i := t']> ts, s) = Ok (<[i := t']> ts, s') ∧ events_ok (<[i := t']> ts) s' ∧
    st_ready s' ++ st_asleep s' ≡ₚ st_ready s ++ st_asleep s.
Proof.
  intros H Hi Hm (Hw & _) Hl Hl'. unfold on_wake. rewrite Hse.
  assert (Hr := events_asleep ts s i t H Hm Hi Hl).
  assert (Hnd := st_nodup c ts s (ev_inv ts s H)). apply NoDup_app in Hnd as (_ & _ & Hnd).
  destruct (st_OnTaskWake_spec c (<[i := t']> ts) s i t') as (s' & E & Hs' & HR & HA);
    [done|by eapply st_frame_put; [apply H|..]|by apply list_lookup_insert_eq; eapply lookup_lt_Some|done|done|].
  exists s'. assert (Hp : st_ready s' ++ st_asleep s' ≡ₚ st_ready s ++ st_asleep s).
  { rewrite HR, HA, <- app_comm_cons, Permutation_middle. symmetry. by apply Permutation_app_head, remove1_perm. }
  split_and!; [done| |done]. apply (events_move ts s s' i t); [done..|by intros j; rewrite Hp| |].
  - intros j Hj. rewrite HR. set_solver.
  - rewrite HR, (listed_awake t' Hl'). set_solver.
Qed.

Lemma events_perm ts s s' : events_ok ts s → st_inv c ts s' → st_ready s' ≡ₚ st_ready s → st_asleep s' ≡ₚ st_asleep s →
  events_ok ts s'.
Proof.
  intros [_ Hr Hl] Hs HR HA. split; [done| |].
  - intros i. rewrite HR, HA. apply Hr.
  - intros i t. rewrite HR, HA. apply Hl.
Qed.

Lemma events_next ts s : events_ok ts s →
  (∀ i t, i ∈ st_ready s ++ st_asleep s → ts !! i = Some t → listed t = true → runnable ts i) →
  ∃ r s', st_GetNext ops c (ts, s) = Ok (r, (ts, s')) ∧ events_ok ts s' ∧
    st_ready s' ++ st_asleep s' ≡ₚ st_ready s ++ st_asleep s ∧
    match r with
    | Some i => i ∈ st_ready s ++ st_asleep s ∧ ∃ t, ts !! i = Some t ∧ listed t = true
    | None => ∀ i t, i ∈ st_ready s ++ st_asleep s → ts !! i = Some t → listed t = false
    end.
Proof.
  intros H Hrun.
  assert (Hl : ∀ i, i ∈ st_ready s → i ∈ st_ready s ++ st_asleep s ∧ ∃ t, ts !! i = Some t ∧ listed t = true).
  { intros i Hi. assert (Hm : i ∈ st_ready s ++ st_asleep s) by set_solver. split; [done|].
    destruct (events_get ts s i H Hm) as [t Ht]. exists t. split; [done|]. by apply (ev_listed ts s H i t). }
  destruct (st_GetNext_spec c ts s) as (r & s' & E & Hs' & HR & HA & Hx); [done|apply H| |].
  { apply Forall_forall. intros i Hi. destruct (Hl i Hi) as (Hm & t & Ht & Hlt). by apply (Hrun i t). }
  exists r, s'. split_and!; [done|by eapply events_perm|by rewrite HR, HA|]. destruct r as [i|]; [by apply Hl|].
  intros i t Hm Ht. apply not_true_is_false. intros Hlt. apply (ev_listed ts s H i t Hm Ht) in Hlt. rewrite Hx in Hlt. set_solver.
Qed.

Lemma events_add ts s i t t' : events_ok ts s → ts !! i = Some t → (i ∉ st_ready s ++ st_asleep s) → st_admissible c t' →
  listed t' = true →
  ∃ s', st_AddTask ops c i (<[i := t']> ts, s) = Ok (<[i := t']> ts, s') ∧ events_ok (<[i := t']> ts) s' ∧
    st_ready s' ++ st_asleep s' ≡ₚ i :: st_ready s ++ st_asleep s.
Proof.
  intros H Hi Hm Ha Hl. destruct (st_AddTask_spec c (<[i := t']> ts) s i t') as (s' & E & Hs' & HR & HA); [done| | |done|done|].
  { apply (st_frame c ts); [apply H|]. intros j u Hj Hu. exists u. split; [|done]. rewrite list_lookup_insert_ne; [done|]. by intros <-. }
  { apply list_lookup_insert_eq. by eapply lookup_lt_Some. }
  exists s'. split_and!; [done| |by rewrite HR, HA]. split; [done| |].
  - intros j. rewrite length_insert, HR, HA. intros [->|Hj]%elem_of_cons; [by eapply lookup_lt_Some|by apply H].
  - intros j u. rewrite HR, HA. intros Hj Hu. destruct (lookup_put _ _ _ _ _ _ Hi Hu) as [[-> ->]|[Hne Hu']]; [set_solver|].
    rewrite elem_of_cons. assert (Hj' : j ∈ st_ready s ++ st_asleep s) by set_solver.
    rewrite <- (ev_listed ts s H j u Hj' Hu'). naive_solver.
Qed.

Definition events_policy : HrtPolicy ops c.
Proof.
  refine {| hp_ok := events_ok; hp_members s := st_ready s ++ st_asleep s; hp_admissible := st_admissible c;
            hp_put := events_put; hp_sleep := events_sleep; hp_wake := events_wake; hp_next := events_next; hp_add := events_add |}.
  - intros ts s i H. apply H.
  - intros ts s H Hne. apply (st_GetFirst_spec c); [done|apply H|done].
  - intros ts s H. apply (st_GetSize_spec c ts), H.
  - intros ts. destruct (st_ctor_spec c ts Hcfg) as (Hs & HR & HA). rewrite HR, HA. split; [|done].
    split; [done|rewrite HR, HA; set_solver..].
  - intros t t'. apply st_admissible_frame.
Defined.
End events.

(** ** The monotonic strategies *)

Section mono.
Context (ty : Monotonic.EMonotonicSwitchStrategyType) (c : KernelCfg).
Context (Hhrt : IsHrtMode c = true) (Hse : SLEEP_EVENT_API (cfg_strategy c) = false).
Import Monotonic.

Lemma mono_inv_ext ts ts' s : mono_inv ty ts s →
  (∀ j, j ∈ m_tasks s → is_Some (ts' !! j) ∧ key ty ts' j = key ty ts j) → mono_inv ty ts' s.
Proof.
  intros [Hn Hv Hs] H. split; [done|apply Forall_forall; intros j Hj; by apply H|].
  revert H. clear Hn Hv. induction Hs as [|x l Hs IH Hx]; intros H; constructor.
  - apply IH. intros j Hj. apply H. by right.
  - rewrite Forall_forall in Hx |- *. intros y Hy. destruct (H x) as [_ ->]; [left|]. destruct (H y) as [_ ->]; [by right|]. auto.
Qed.

Lemma mono_inv_put ts s i (t t' : KernelTask) : mono_inv ty ts s → ts !! i = Some t → same_params t t' →
  mono_inv ty (<[i := t']> ts) s.
Proof.
  intros H Hi (_ & Hp & Hd). apply (mono_inv_ext ts); [done|]. intros j Hj. unfold key. destruct (decide (j = i)) as [->|Hne].
  - rewrite list_lookup_insert_eq, Hi by (by eapply lookup_lt_Some). split; [by eexists|by destruct ty].
  - rewrite list_lookup_insert_ne by done. split; [|done]. by apply (proj1 (Forall_forall _ _) (mono_valid ty ts s H)).
Qed.

Lemma mono_next ts s : mono_inv ty ts s →
  (∀ i t, i ∈ m_tasks s → ts !! i = Some t → listed t = true → runnable ts i) →
  ∃ r s', GetNext c (ts, s) = Ok (r, (ts, s')) ∧ mono_inv ty ts s' ∧ m_tasks s' ≡ₚ m_tasks s ∧
    match r with
    | Some i => i ∈ m_tasks s ∧ ∃ t, ts !! i = Some t ∧ listed t = true
    | None => ∀ i t, i ∈ m_tasks s → ts !! i = Some t → listed t = false
    end.
Proof.
  intros H Hrun. destruct (mono_next_highest ty c ts s H) as (r & E & Hr). exists r, s. split_and!; [done..|].
  destruct r as [x|].
  - destruct Hr as (t & l1 & l2 & -> & Ht & Hsl & _). split; [set_solver|]. exists t. split; [done|]. by apply listed_awake.
  - intros i t Hi Ht. apply not_true_is_false. intros Hl. destruct (Hrun i t Hi Ht Hl) as (u & Hu & Hsl & _).
    rewrite Forall_forall in Hr. destruct (Hr i Hi) as (v & Hv & Hsv). congruence.
Qed.

Lemma mono_add ts s i (t t' : KernelTask) : mono_inv ty ts s → ts !! i = Some t → (i ∉ m_tasks s) →
  ∃ s', AddTask ty c i (<[i := t']> ts, s) = Ok (<[i := t']> ts, s') ∧ mono_inv ty (<[i := t']> ts) s' ∧
    m_tasks s' ≡ₚ i :: m_tasks s.
Proof.
  intros H Hi Hm. assert (Hlt : (i < length ts)%nat) by (by eapply lookup_lt_Some).
  destruct (mono_AddTask ty c (<[i := t']> ts) s i t') as (l1 & l2 & E & El & _ & _ & H'); [done| |by apply list_lookup_insert_eq|done|].
  { apply (mono_inv_ext ts); [done|]. intros j Hj. assert (j ≠ i) by (by intros ->). unfold key.
    rewrite list_lookup_insert_ne by done. split; [|done]. by apply (proj1 (Forall_forall _ _) (mono_valid ty ts s H)). }
  eexists. split_and!; [done..|]. cbn. rewrite El. by rewrite Permutation_middle.
Qed.

Definition mono_policy : HrtPolicy (MonoOps ty) c.
Proof.
  refine {| hp_ok := mono_inv ty : list KernelTask → Mono → Prop; hp_members s := m_tasks s; hp_admissible _ := True |};
    cbn [st_GetNext st_GetFirst st_GetSize st_ctor st_AddTask MonoOps];
    unfold on_sleep, on_wake; rewrite ?Hse; try done.
  - intros ts s i H Hi. apply lookup_lt_is_Some. by apply (proj1 (Forall_forall _ _) (mono_valid ty ts s H)).
  - intros ts s i t t' H Hi Hp _. by apply (mono_inv_put ts s i t).
  - intros ts s i t t' H Hi _ Hp _ _. exists s. split_and!; [done|by apply (mono_inv_put ts s i t)|done].
  - intros ts s i t t' H Hi _ Hp _ _. exists s. split_and!; [done|by apply (mono_inv_put ts s i t)|done].
  - exact mono_next.
  - intros ts s _ Hne. unfold GetFirst, Size. destruct (m_tasks s) as [|x l]; [done|]. exists x. split; [done|left].
  - intros ts. split; [|done]. split; constructor.
  - intros ts s i t t' H Hi Hm _ _. by apply (mono_add ts s i t).
Defined.
End mono.

End HrtPolicy.
