(* ===== verification/KernelHrt.v ===== *)
(** * The kernel in hard real-time mode: a system of periodic tasks

    The specification of hard real-time mode is a set of periodic tasks: a job
    of a task is waiting for its release or active, a tick releases the jobs
    that are due and fails when an active job is past its deadline, and the
    completion of a job makes the next one wait for its release.  The kernel
    ([OnTick], [Yield] with its forced context switch, [AddTask] with timing
    parameters, [OnStart]) is shown to implement this specification step by
    step, for every strategy that implements [HrtPolicy].

    Hard real-time mode excludes tickless operation and time slices
    ([TICKLESS_HRT_CONFLICT] and [TIMESLICE_HRT_CONFLICT] of [stk.h]), and the
    file assumes that no task waits, is suspended or removed.  A tick may come
    between the critical section of [Yield] and the forced context switch it
    requests: [Specification] has an event of its own for this case. *)

From S2P Require Import Prelude KernelTask Strategy Kernel KernelInv KernelSafe HrtPolicy.
Import KTask Strat Kernel KernelInv HrtPolicy.
Local Open Scope Z_scope.

Module KernelHrt.

(** ** Specification *)

(** The current job of a task: when it will be, or when it was released. *)
Inductive Job : Set := Waiting (release : Z) | Active (release : Z).
Record Periodic := mkPeriodic { pt_period : Z; pt_deadline : Z; pt_job : Job }.
(** The time, and the task of each slot of the kernel. *)
Definition System : Type := Z * list (option Periodic).

#[global] Instance Job_eq_dec : EqDecision Job.
Proof. solve_decision. Defined.
#[global] Instance Periodic_eq_dec : EqDecision Periodic.
Proof. solve_decision. Defined.

Definition with_job (j : Job) (p : Periodic) : Periodic := mkPeriodic (pt_period p) (pt_deadline p) j.
Definition release (j : Job) : Z := match j with Waiting r | Active r => r end.
Definition is_active (p : Periodic) : bool := match pt_job p with Active _ => true | Waiting _ => false end.
Definition absolute_deadline (p : Periodic) : Z := release (pt_job p) + pt_deadline p.

(** At time [now] the active job is past its deadline. *)
Definition overdue (now : Z) (p : Periodic) : bool := is_active p && (absolute_deadline p <? now).
(** A waiting job whose time has come is released. *)
Definition release_due (now : Z) (p : Periodic) : Periodic :=
  match pt_job p with
  | Waiting r => if r =? now then with_job (Active r) p else p
  | Active _ => p
  end.
(** The job completes: the next one is released a period after this one was,
    at the earliest at [next]. *)
Definition completed (next : Z) (p : Periodic) : Periodic :=
  with_job (Waiting (Z.max next (release (pt_job p) + pt_period p))) p.
(** The same, the completion being noticed by the kernel a tick late. *)
Definition completed_late (next : Z) (p : Periodic) : Periodic :=
  with_job (Waiting (Z.max next (release (pt_job p) + pt_period p + 1))) p.

(** A tick on all tasks but [but]; [None]: a deadline is missed. *)
Definition exempt (but : option nat) (i : nat) : bool := bool_decide (but = Some i).
Definition missed (now : Z) (but : option nat) (l : list (option Periodic)) : bool :=
  existsb (λ x : nat * option Periodic,
    match x.2 with Some p => negb (exempt but x.1) && overdue now p | None => false end) (imap pair l).
Definition sys_tick (but : option nat) (s : System) : option System :=
  let now := s.1 + 1 in
  if missed now but s.2 then None
  else Some (now, imap (λ i o, if exempt but i then o else release_due now <$> o) s.2).

Definition sys_complete (i : nat) (s : System) : System :=
  (s.1, alter (fmap (completed (s.1 + 1))) i s.2).
Definition sys_complete_late (i : nat) (s : System) : option System :=
  s ← sys_tick (Some i) s;
  Some (s.1, alter (fmap (completed_late (s.1 + 1))) i s.2).

(** The events of a run: [EvStaleSwitch] is a request for a context switch that
    a tick has overtaken. *)
Inductive Event : Set :=
| EvTick | EvComplete (SP : Z) | EvCompleteLate (SP : Z) | EvStaleSwitch (id : Z).

(** The step of the specification, [now] being the running task. *)
Definition sys_step (ev : Event) (now : option nat) (s : System) : option System :=
  match ev, now with
  | EvTick, _ => sys_tick None s
  | EvComplete _, Some i => Some (sys_complete i s)
  | EvCompleteLate _, Some i => sys_complete_late i s
  | EvStaleSwitch _, _ => Some s
  | _, None => None
  end.

(** ** The kernel's view *)

Definition job_of (now : Z) (t : KernelTask) : Job :=
  if IsSleeping t then Waiting (now - m_time_sleep t) else Active (now - duration (m_hrt t)).
Definition periodic_of (now : Z) (t : KernelTask) : option Periodic :=
  if IsBusy t then Some (mkPeriodic (periodicity (m_hrt t)) (deadline (m_hrt t)) (job_of now t)) else None.
Definition view {S} (k : Kernel S) : System := (m_ticks k, periodic_of (m_ticks k) <$> m_task_storage k).

(** ** The invariant *)

(** Between two events every job is waiting or active; inside of an event one
    task may have announced its completion ([Completing]) or left the ready
    tasks without its next release being planned ([Leaving]); before the start
    the tasks with a start delay are still among the ready tasks ([Boot]). *)
Inductive Phase : Set := Quiet | Boot | Completing (i : nat) | Leaving (i : nat).
#[global] Instance Phase_eq_dec : EqDecision Phase.
Proof. solve_decision. Defined.

Definition timed (t : KernelTask) : Prop :=
  IsBusy t = true ∧ 0 < periodicity (m_hrt t) < INT32_MAX ∧ 0 < deadline (m_hrt t) < INT32_MAX.
Definition running_job (t : KernelTask) : Prop := 0 ≤ duration (m_hrt t) ≤ deadline (m_hrt t).
Definition countdown (t : KernelTask) : Prop := - INT32_MAX < m_time_sleep t < 0.

(** [M] are the tasks the strategy holds. *)
Inductive slot_ok (M : list nat) (ph : Phase) (i : nat) (t : KernelTask) : Prop :=
| slot_free : IsBusy t = false → m_state t = 0 → m_time_sleep t = 0 → i ∉ M →
    ph ≠ Completing i → ph ≠ Leaving i → slot_ok M ph i t
| slot_active : timed t → m_state t = 0 → m_time_sleep t = 0 → running_job t → done (m_hrt t) = false →
    i ∈ M → ph ≠ Completing i → ph ≠ Leaving i → slot_ok M ph i t
| slot_asleep : timed t → m_state t = 0 → countdown t → duration (m_hrt t) = 0 → done (m_hrt t) = false →
    i ∈ M → ph ≠ Completing i → ph ≠ Leaving i → slot_ok M ph i t
| slot_delayed : timed t → m_state t = flag_mask STATE_SLEEP_PENDING → countdown t → duration (m_hrt t) = 0 →
    done (m_hrt t) = false → i ∈ M → ph = Boot → slot_ok M ph i t
| slot_completing : timed t → m_state t = flag_mask STATE_SLEEP_PENDING → m_time_sleep t = -1 → running_job t →
    done (m_hrt t) = true → i ∈ M → ph = Completing i → slot_ok M ph i t
| slot_leaving : timed t → m_state t = 0 → m_time_sleep t = -1 → running_job t →
    done (m_hrt t) = true → i ∈ M → ph = Leaving i → slot_ok M ph i t.

Lemma slot_sub M ph M' ph' i t : (i ∈ M' ↔ i ∈ M) →
  (ph' = Completing i ↔ ph = Completing i) → (ph' = Leaving i ↔ ph = Leaving i) → (ph = Boot → ph' = Boot) →
  slot_ok M ph i t → slot_ok M' ph' i t.
Proof.
  intros HM H1 H2 H3 Ht. inversion Ht;
    [apply slot_free|apply slot_active|apply slot_asleep|apply slot_delayed|apply slot_completing|apply slot_leaving];
    rewrite ?HM, ?H1, ?H2; auto.
Qed.

(** ** The tick of one task, as a function of the task *)

Definition misses (t : KernelTask) : bool :=
  IsBusy t && negb (IsSleeping t) && (deadline (m_hrt t) <? duration (m_hrt t) + 1).
Definition charge (t : KernelTask) : KernelTask :=
  let h := m_hrt t in with_hrt (mkHrt (periodicity h) (deadline h) (duration h + 1) (done h)) t.
Definition tick_slot (t : KernelTask) : KernelTask :=
  if negb (IsBusy t) then t
  else if IsSleeping t then
    if has t STATE_SLEEP_PENDING then settle t else with_sleep (m_time_sleep t + 1) t
  else charge t.
(** The announced completion of task [i] takes effect. *)
Definition settled (i : nat) (ph : Phase) : Phase := if bool_decide (ph = Completing i) then Leaving i else ph.

Lemma quiet_flags t f : m_state t = 0 → has t f = false.
Proof. intros E. unfold has. rewrite E, has_flag_testbit. apply Z.bits_0. Qed.
Lemma pending_flags t f : m_state t = flag_mask STATE_SLEEP_PENDING →
  has t f = bool_decide (f = STATE_SLEEP_PENDING).
Proof. intros E. unfold has. rewrite E. by destruct f. Qed.
Lemma settle_state t : m_state t = flag_mask STATE_SLEEP_PENDING → m_state (settle t) = 0.
Proof. intros E. unfold settle, lower, with_state. cbn. by rewrite E. Qed.
Lemma lower_quiet f t : m_state t = 0 → lower f t = t.
Proof. intros E. unfold lower, with_state, clear_flag. rewrite E, Z.land_0_l. destruct t. cbn in *. by rewrite E. Qed.
Lemma lower_yield t : m_state t = flag_mask STATE_SLEEP_PENDING → lower STATE_YIELD_PENDING t = t.
Proof. intros E. unfold lower, with_state. rewrite E. destruct t. cbn in *. by rewrite E. Qed.
Lemma slot_yield M ph i t : slot_ok M ph i t → lower STATE_YIELD_PENDING t = t.
Proof. intros []; first [by apply lower_quiet|by apply lower_yield]. Qed.
Lemma i32_ok x : INT32_MIN ≤ x ≤ INT32_MAX → i32 x = Ok x.
Proof. intros Hx. unfold i32. by rewrite bool_decide_eq_true_2. Qed.
Lemma awake_zero t : m_time_sleep t = 0 → IsSleeping t = false.
Proof. intros E. unfold IsSleeping. by rewrite E. Qed.
Lemma asleep_neg t : m_time_sleep t < 0 → IsSleeping t = true.
Proof. intros E. unfold IsSleeping. by apply Z.ltb_lt. Qed.

(** A task in its quiet or pending state as the strategy sees it. *)
Lemma quiet_listed t : m_state t = 0 → listed t = negb (IsSleeping t).
Proof. intros E. unfold listed. by rewrite quiet_flags, orb_false_r. Qed.
Lemma pending_listed t : m_state t = flag_mask STATE_SLEEP_PENDING → listed t = true.
Proof. intros E. unfold listed. by rewrite pending_flags, orb_true_r. Qed.

Section hrt.
Context {S : Type} {ops : StrategyOps S} (c : KernelCfg) {HP : HrtPolicy ops c}.
Context (STK_TICKLESS_TICKS_MAX WordSize : Z).
Implicit Types (k : Kernel S) (ts : list KernelTask) (s : S).

Record sched_ok (ph : Phase) ts s : Prop := {
  sk_strat : hp_ok ts s;
  sk_slot i t : ts !! i = Some t → slot_ok (hp_members s) ph i t;
}.

Lemma sk_range ph ts s i : sched_ok ph ts s → i ∈ hp_members s → (i < length ts)%nat.
Proof. intros [Hs _]. by apply hp_range. Qed.

Lemma sk_get ph ts s i : sched_ok ph ts s → i ∈ hp_members s →
  ∃ t, ts !! i = Some t ∧ timed t ∧ slot_ok (hp_members s) ph i t.
Proof.
  intros Hs Hi. destruct (lookup_lt_is_Some_2 ts i (sk_range _ _ _ i Hs Hi)) as [t Ht]. exists t.
  assert (Ho := sk_slot _ _ _ Hs i t Ht). split_and!; try done. by destruct Ho.
Qed.

(** *** Moving one task *)

Definition same_phase (i : nat) (ph ph' : Phase) : Prop :=
  ∀ j, j ≠ i → (ph' = Completing j ↔ ph = Completing j) ∧ (ph' = Leaving j ↔ ph = Leaving j) ∧ (ph = Boot → ph' = Boot).

Lemma same_phase_refl i ph : same_phase i ph ph.
Proof. done. Qed.
Lemma same_phase_settled i ph : same_phase i ph (settled i ph).
Proof. intros j Hj. unfold settled. case_bool_decide; subst; naive_solver. Qed.

Lemma sched_move ph ph' ts s s' i t t' : sched_ok ph ts s → ts !! i = Some t → hp_ok (<[i := t']> ts) s' →
  (∀ j, j ≠ i → (j ∈ hp_members s' ↔ j ∈ hp_members s)) → same_phase i ph ph' →
  slot_ok (hp_members s') ph' i t' → sched_ok ph' (<[i := t']> ts) s'.
Proof.
  intros [Hs Ht] Hi Hs' Ho Hp Hok. split; [done|]. intros j u Hu.
  destruct (lookup_put _ _ _ _ _ _ Hi Hu) as [[-> ->]|[Hne Hu']]; [done|]. destruct (Hp j Hne) as (? & ? & ?).
  by apply (slot_sub (hp_members s) ph); [apply Ho|..|apply Ht].
Qed.

(** The strategy does not notice the change. *)
Lemma sched_stay ph ph' ts s i t t' : sched_ok ph ts s → ts !! i = Some t → same_params t t' → listed t' = listed t →
  same_phase i ph ph' → slot_ok (hp_members s) ph' i t' → sched_ok ph' (<[i := t']> ts) s.
Proof. intros Hs Ht Hw Hl Hp Hok. apply (sched_move ph ph' ts s s i t); try done. eapply hp_put; try done. apply Hs. Qed.

Lemma strat_sleep k i s' : on_sleep ops c i (m_task_storage k, m_strategy k) = Ok (m_task_storage k, s') →
  (if SLEEP_EVENT_API (cfg_strategy c) then strat (st_OnTaskSleep ops c i) k else Ok k) = Ok (set_strategy s' k).
Proof.
  unfold on_sleep. destruct (SLEEP_EVENT_API _); [apply strat_ok|]. intros [= <-]. by destruct k.
Qed.
Lemma strat_wake k i s' : on_wake ops c i (m_task_storage k, m_strategy k) = Ok (m_task_storage k, s') →
  (if SLEEP_EVENT_API (cfg_strategy c) then strat (st_OnTaskWake ops c i) k else Ok k) = Ok (set_strategy s' k).
Proof.
  unfold on_wake. destruct (SLEEP_EVENT_API _); [apply strat_ok|]. intros [= <-]. by destruct k.
Qed.

(** A task that sleeps but is still among the ready ones leaves them. *)
Lemma leave_ready ph k i t : sched_ok ph (m_task_storage k) (m_strategy k) → m_task_storage k !! i = Some t →
  m_state t = flag_mask STATE_SLEEP_PENDING → IsSleeping t = true → i ∈ hp_members (m_strategy k) →
  ∃ s', ProcessTaskPendingSleep ops c i k = Ok (set_strategy s' (put_task i (settle t) k)) ∧
    sched_ok (settled i ph) (<[i := settle t]> (m_task_storage k)) s'.
Proof.
  intros Hs Ht Hm Hsl Hr. assert (Hm' := settle_state t Hm).
  destruct (hp_sleep (m_task_storage k) (m_strategy k) i t (settle t)) as (s' & Es & Hs' & HM);
    [apply Hs|done..|by apply pending_listed|rewrite quiet_listed by done; change (IsSleeping (settle t)) with (IsSleeping t); by rewrite Hsl|].
  exists s'. split.
  - unfold ProcessTaskPendingSleep. rewrite (mod_task_ok k i t) by done. cbn [mbind res_bind]. by apply strat_sleep.
  - apply (sched_move ph _ _ (m_strategy k) _ i t); [done..|by intros; rewrite HM|by apply same_phase_settled|].
    assert (Hok := sk_slot _ _ _ Hs i t Ht). rewrite <- HM in Hr.
    assert (Hne : flag_mask STATE_SLEEP_PENDING ≠ 0) by done.
    unfold settled. inversion Hok; try congruence.
    + subst ph. rewrite bool_decide_eq_false_2 by done. by apply slot_asleep.
    + subst ph. rewrite bool_decide_eq_true_2 by done. by apply slot_leaving.
Qed.

(** A task with an active job. *)
Definition ready ts (i : nat) : Prop := ∃ t, ts !! i = Some t ∧ IsBusy t = true ∧ IsSleeping t = false.

(** No listed task sleeps. *)
Definition awake_phase (ph : Phase) : Prop := ph = Quiet ∨ ∃ a, ph = Leaving a.

Lemma ready_active ph ts s i : sched_ok ph ts s → ready ts i →
  i ∈ hp_members s ∧
  ∃ t, ts !! i = Some t ∧ timed t ∧ m_state t = 0 ∧ m_time_sleep t = 0 ∧ running_job t ∧ done (m_hrt t) = false.
Proof.
  intros Hs (t & Ht & Hb & Hsl). assert (Hok := sk_slot _ _ _ Hs i t Ht). unfold IsSleeping in Hsl. apply Z.ltb_ge in Hsl.
  destruct Hok as [| | |? ? Hcd|? ? Hz|? ? Hz]; try congruence; unfold countdown in *; try lia. split; [done|]. by exists t.
Qed.

Lemma listed_ready ph ts s i t : awake_phase ph → sched_ok ph ts s → i ∈ hp_members s → ts !! i = Some t → listed t = true →
  ready ts i.
Proof.
  intros Hph Hs Hi Ht Hl. assert (Hok := sk_slot _ _ _ Hs i t Ht). exists t.
  assert (Hq : m_state t = 0 ∧ IsBusy t = true).
  { destruct Hok as [| [? _] | [? _] | [? _] | [? _] | [? _] ]; try done; destruct Hph as [-> |[a ->]]; done. }
  destruct Hq as [Hq Hb]. rewrite quiet_listed in Hl by done. split_and!; [done..|]. by apply negb_true_iff.
Qed.

Lemma ready_runnable ph ts s i : sched_ok ph ts s → ready ts i → runnable ts i.
Proof.
  intros Hs Hi. destruct (ready_active ph ts s i Hs Hi) as (_ & t & Ht & (_ & _ & Hd) & _ & Hz & Hr & _).
  exists t. unfold running_job in Hr. split_and!; [done|by apply awake_zero|lia..].
Qed.

(** The strategy's choice. *)
Lemma next_ready ph ts s : awake_phase ph → sched_ok ph ts s →
  ∃ r s', st_GetNext ops c (ts, s) = Ok (r, (ts, s')) ∧ hp_ok ts s' ∧ hp_members s' ≡ₚ hp_members s ∧
    match r with Some i => ready ts i | None => ∀ i, ¬ ready ts i end.
Proof.
  intros Hph Hs. destruct (hp_next ts s) as (r & s' & E & Hs' & HM & Hr); [apply Hs| |].
  { intros i t Hi Ht Hl. by eapply ready_runnable, listed_ready. }
  exists r, s'. split_and!; [done..|]. destruct r as [i|].
  - destruct Hr as (Hi & t & Ht & Hl). by eapply listed_ready.
  - intros i Hi. destruct (ready_active ph ts s i Hs Hi) as (Hm & _). destruct Hi as (t & Ht & _ & Hsl).
    specialize (Hr i t Hm Ht). by rewrite (listed_awake t Hsl) in Hr.
Qed.

Context (Hdm : DEADLINE_MISSED_API (cfg_strategy c) = false).
Context (Hhrt : IsHrtMode c = true) (Htl : IsTicklessMode c = false) (Hts : IsTimesliceMode c = false).

(** *** The tick of one task *)

Lemma put_task_same k i t : m_task_storage k !! i = Some t → put_task i t k = k.
Proof. intros Ht. unfold put_task, set_tasks. rewrite list_insert_id by done. by destruct k. Qed.

Lemma slot_stays ph M i t : slot_ok M ph i t → IsPendingRemoval t = false.
Proof. intros []; unfold IsPendingRemoval; first [by rewrite quiet_flags|by rewrite pending_flags]. Qed.

(** Neither the yield flag nor a pending removal matters. *)
Lemma update_task_eq ph k i t n : sched_ok ph (m_task_storage k) (m_strategy k) → m_task_storage k !! i = Some t →
  UpdateTask ops c 1 i n k =
    (k ← (if IsSleeping t then UpdateSleepingTask ops c 1 i k else UpdateAwakeTask ops c 1 i k);
     _ ← task_at k i; Ok (n, k)).
Proof.
  intros Hs Ht. assert (Hok := sk_slot _ _ _ Hs i t Ht). unfold UpdateTask.
  assert (E : (if NOSLEEP_YIELD_API (cfg_strategy c) then mod_task i (lower STATE_YIELD_PENDING) k else Ok k) = Ok k).
  { destruct (NOSLEEP_YIELD_API _); [|done]. rewrite (mod_task_ok k i t), (slot_yield _ _ _ _ Hok), put_task_same; done. }
  rewrite E. cbn [mbind res_bind]. rewrite (task_at_ok k i t Ht). cbn [mbind res_bind].
  rewrite (slot_stays _ _ _ _ Hok), andb_false_r. cbn [andb]. by rewrite Htl.
Qed.

(** An active job: the tick is charged, and the deadline checked. *)
Lemma tick_active ph k i t : sched_ok ph (m_task_storage k) (m_strategy k) → m_task_storage k !! i = Some t →
  timed t → m_time_sleep t = 0 → running_job t → m_state t = 0 → done (m_hrt t) = false →
  ph ≠ Completing i → ph ≠ Leaving i →
  if misses t then UpdateAwakeTask ops c 1 i k = Panic PANIC_KERNEL
  else UpdateAwakeTask ops c 1 i k = Ok (put_task i (charge t) k) ∧
    sched_ok ph (<[i := charge t]> (m_task_storage k)) (m_strategy k).
Proof.
  intros Hs Ht (Hb & Hp & Hd) Hz Hr Hm Hdn Hc1 Hc2. unfold misses, UpdateAwakeTask. rewrite Hb, (awake_zero t Hz).
  rewrite (task_at_ok k i t Ht). cbn [mbind res_bind negb andb]. rewrite Hhrt, Hb, Hdm. cbn [andb].
  unfold running_job, INT32_MAX in *. rewrite i32_ok by (unfold INT32_MIN, INT32_MAX; lia). cbn [mbind res_bind].
  fold (charge t). unfold HrtIsDeadlineMissed. rewrite Z.gtb_ltb. change (deadline (m_hrt (charge t))) with (deadline (m_hrt t)).
  destruct (Z.ltb_spec (deadline (m_hrt t)) (duration (m_hrt t) + 1)) as [Hl|Hl].
  - unfold HrtHardFailDeadline. rewrite (task_at_ok _ i (charge t)) by (by eapply put_task_at). cbn [mbind res_bind].
    cbn [charge with_hrt m_hrt duration]. rewrite bool_decide_eq_true_2 by lia. cbn [stk_assert].
    unfold HrtIsDeadlineMissed. rewrite Z.gtb_ltb. change (deadline (m_hrt (charge t))) with (deadline (m_hrt t)).
    by rewrite (proj2 (Z.ltb_lt _ _) Hl).
  - split; [done|]. apply (sched_stay ph ph _ _ i t); try done.
    assert (Hok := sk_slot _ _ _ Hs i t Ht). inversion Hok; try congruence; try (unfold countdown in *; lia).
    apply slot_active; try done. unfold running_job. cbn. lia.
Qed.

(** A sleeping task: one tick less to sleep, or the release of its next job. *)
Lemma tick_asleep ph k i t : sched_ok ph (m_task_storage k) (m_strategy k) → m_task_storage k !! i = Some t →
  timed t → m_state t = 0 → countdown t → duration (m_hrt t) = 0 → done (m_hrt t) = false →
  i ∈ hp_members (m_strategy k) → ph ≠ Completing i → ph ≠ Leaving i →
  ∃ s', UpdateSleepingTask ops c 1 i k = Ok (set_strategy s' (put_task i (with_sleep (m_time_sleep t + 1) t) k)) ∧
    sched_ok ph (<[i := with_sleep (m_time_sleep t + 1) t]> (m_task_storage k)) s'.
Proof.
  intros Hs Ht Htm Hm Hcd Hdu Hdn Ha Hc1 Hc2. unfold UpdateSleepingTask, UpdateSleepTime, countdown in *.
  rewrite (task_at_ok k i t Ht). cbn [mbind res_bind]. rewrite !(quiet_flags t) by done.
  cbn [mbind res_bind negb]. rewrite (task_at_ok k i t Ht). cbn [mbind res_bind andb].
  assert (Ei : IsSleepInfinite t = false) by (unfold IsSleepInfinite, WAIT_INFINITE; apply Z.eqb_neq; lia).
  rewrite Ei, i32_ok by (unfold INT32_MIN, INT32_MAX in *; lia). cbn [mbind res_bind negb].
  rewrite quiet_flags by done. cbn [andb].
  set (t' := with_sleep (m_time_sleep t + 1) t).
  destruct (Z.eq_dec (m_time_sleep t) (-1)) as [E|E].
  - assert (Haw : IsSleeping t' = false) by (apply awake_zero; cbn; lia). rewrite Haw. cbn [negb].
    destruct (hp_wake (m_task_storage k) (m_strategy k) i t t') as (s' & Es & Hs' & HM);
      [apply Hs|done..|rewrite quiet_listed, asleep_neg by (done || lia); done|done|].
    exists s'. split; [by apply strat_wake|]. apply (sched_move ph ph _ (m_strategy k) _ i t); try done; [by intros; rewrite HM|].
    apply slot_active; try done; [cbn; lia| |by rewrite HM]. unfold running_job. cbn. rewrite Hdu. destruct Htm as (_ & _ & ?). lia.
  - assert (Haw : IsSleeping t' = true) by (apply asleep_neg; cbn; lia). rewrite Haw. cbn [negb].
    exists (m_strategy k). split; [destruct (SLEEP_EVENT_API _); by destruct k|]. apply (sched_stay ph ph _ _ i t); try done.
    + rewrite !quiet_listed, Haw, (asleep_neg t) by (done || lia). done.
    + apply slot_asleep; try done. unfold countdown. cbn. lia.
Qed.

Lemma hrt_tick_one ph k i t n : sched_ok ph (m_task_storage k) (m_strategy k) → m_task_storage k !! i = Some t →
  ph ≠ Leaving i → ph ≠ Boot →
  if misses t then UpdateTask ops c 1 i n k = Panic PANIC_KERNEL
  else ∃ s', UpdateTask ops c 1 i n k = Ok (n, set_strategy s' (put_task i (tick_slot t) k)) ∧
    sched_ok (settled i ph) (<[i := tick_slot t]> (m_task_storage k)) s'.
Proof.
  intros Hs Ht Hl Hbt. assert (Hok := sk_slot _ _ _ Hs i t Ht). rewrite (update_task_eq ph k i t) by done.
  assert (Hfin : ∀ t' s', (_ ← task_at (set_strategy s' (put_task i t' k)) i;
      Ok (n, set_strategy s' (put_task i t' k))) = Ok (n, set_strategy s' (put_task i t' k))).
  { intros t' s'. by rewrite (task_at_ok _ i t') by (by eapply (put_task_at k)). }
  assert (Hns : ph ≠ Completing i → settled i ph = ph) by (intros; unfold settled; by rewrite bool_decide_eq_false_2).
  unfold tick_slot. inversion Hok as [Hb Hm Hz _ Hc|Htm Hm Hz Hr Hd HR Hc|Htm Hm Hcd Hdu Hd HR Hc|Htm|Htm Hm Hz Hr Hd HR|]; try done.
  - unfold misses. rewrite Hb, (awake_zero t), Hns by done. cbn [negb andb].
    exists (m_strategy k). unfold UpdateAwakeTask. rewrite (task_at_ok k i t Ht). cbn [mbind res_bind].
    rewrite Hb, andb_false_r. cbn [mbind res_bind]. rewrite (task_at_ok k i t Ht), put_task_same, list_insert_id by done. split; [by destruct k|done].
  - assert (Ha := tick_active ph k i t Hs Ht Htm Hz Hr Hm Hd Hc Hl). rewrite (awake_zero t Hz).
    destruct (misses t); [by rewrite Ha|]. destruct Ha as (-> & Ha), Htm as (-> & _). cbn [negb mbind res_bind].
    exists (m_strategy k). rewrite Hns by done. split; [|done]. etransitivity; [|apply Hfin]. by destruct k.
  - destruct (tick_asleep ph k i t) as (s' & E & Hs'); [done..|]. unfold misses. destruct Htm as (-> & _).
    unfold countdown in Hcd. rewrite (asleep_neg t), E, quiet_flags, Hns by (done || lia). cbn [negb andb mbind res_bind].
    exists s'. by rewrite Hfin.
  - destruct (leave_ready ph k i t) as (s' & E & Hs'); [done..|by apply asleep_neg; lia|done|].
    unfold misses. destruct Htm as (-> & _). rewrite (asleep_neg t) by lia. cbn [negb andb].
    unfold UpdateSleepingTask. rewrite (task_at_ok k i t Ht). cbn [mbind res_bind]. rewrite !(pending_flags t) by done.
    flag_eval. rewrite (bool_decide_eq_true_2 (1 = 1)), orb_true_r by done. rewrite E. cbn [mbind res_bind negb stk_assert].
    exists s'. by rewrite Hfin.
Qed.
(** *** The pass over the tasks *)

Definition settle_all (l : list nat) (ph : Phase) : Phase :=
  match ph with Completing a => if bool_decide (a ∈ l) then Leaving a else ph | _ => ph end.
Definition misses_at ts (i : nat) : bool := match ts !! i with Some t => misses t | None => false end.

Lemma settle_all_cons i l ph : settle_all l (settled i ph) = settle_all (i :: l) ph.
Proof.
  destruct ph as [| |a|a]; try done. unfold settled. cbn. destruct (decide (a = i)) as [->|Hne].
  - rewrite !bool_decide_eq_true_2 by (done || left). done.
  - rewrite (bool_decide_eq_false_2 (Completing a = _)) by congruence. cbn.
    erewrite (bool_decide_ext (a ∈ i :: l) (a ∈ l)); [done|]. rewrite elem_of_cons. tauto.
Qed.

Lemma pass l : ∀ ph k n, sched_ok ph (m_task_storage k) (m_strategy k) → NoDup l →
  (∀ i, i ∈ l → is_Some (m_task_storage k !! i) ∧ ph ≠ Leaving i) → ph ≠ Boot →
  if existsb (misses_at (m_task_storage k)) l then UpdateTaskState_loop ops c 1 l n k = Panic PANIC_KERNEL
  else ∃ ts' s', UpdateTaskState_loop ops c 1 l n k = Ok (n, set_strategy s' (set_tasks ts' k)) ∧
    sched_ok (settle_all l ph) ts' s' ∧
    ∀ j, ts' !! j = (if bool_decide (j ∈ l) then tick_slot else id) <$> m_task_storage k !! j.
Proof.
  induction l as [|i l IH]; intros ph k n Hs Hn Hl Hb.
  { exists (m_task_storage k), (m_strategy k). split_and!; [by destruct k|by destruct ph|].
    intros j. cbn. by destruct (_ !! j). }
  apply NoDup_cons in Hn as [Hi Hn]. destruct (Hl i) as [[t Ht] Hli]; [left|].
  assert (Ho := hrt_tick_one ph k i t n Hs Ht Hli Hb). cbn [existsb UpdateTaskState_loop].
  unfold misses_at at 1. rewrite Ht. destruct (misses t); cbn [orb]; [by rewrite Ho|].
  destruct Ho as (s' & -> & Hs'). cbn [mbind res_bind].
  set (k1 := set_strategy s' (put_task i (tick_slot t) k)) in *.
  assert (Hk1 : ∀ j, j ∈ l → m_task_storage k1 !! j = m_task_storage k !! j).
  { intros j Hj. apply put_task_ne. by intros ->. }
  assert (Hm : existsb (misses_at (m_task_storage k1)) l = existsb (misses_at (m_task_storage k)) l).
  { clear -Hk1. induction l as [|j l IH]; [done|]. cbn. unfold misses_at at 1 3. rewrite Hk1 by left. f_equal.
    apply IH. intros x Hx. apply Hk1. by right. }
  assert (Hl1 : ∀ j, j ∈ l → is_Some (m_task_storage k1 !! j) ∧ settled i ph ≠ Leaving j).
  { intros j Hj. rewrite Hk1 by done. destruct (Hl j) as [? ?]; [by right|]. split; [done|].
    unfold settled. case_bool_decide; [|done]. by intros [= ->]. }
  assert (Hb1 : settled i ph ≠ Boot) by (unfold settled; by case_bool_decide).
  specialize (IH (settled i ph) k1 n Hs' Hn Hl1 Hb1). rewrite Hm in IH.
  destruct (existsb _ l); [done|]. destruct IH as (ts' & s2 & E & Hs2 & Hj).
  exists ts', s2. rewrite E, <- settle_all_cons. split_and!; [by destruct k|done|].
  intros j. rewrite Hj. destruct (decide (j = i)) as [->|Hne].
  - rewrite (bool_decide_eq_false_2 (i ∈ l)), bool_decide_eq_true_2 by (done || left).
    unfold k1. cbn [m_task_storage set_strategy]. rewrite (put_task_at k i t), Ht by done. done.
  - unfold k1. cbn [m_task_storage set_strategy]. rewrite put_task_ne by done.
    erewrite (bool_decide_ext (j ∈ i :: l) (j ∈ l)); [done|]. rewrite elem_of_cons. tauto.
Qed.

Lemma existsb_seq ts : existsb (misses_at ts) (seq 0 (length ts)) = existsb misses ts.
Proof.
  apply eq_true_iff_eq. rewrite !existsb_exists. split.
  - intros (i & _ & Hi). unfold misses_at in Hi. destruct (ts !! i) as [t|] eqn:Ht; [|done]. exists t.
    split; [|done]. by eapply list_elem_of_In, list_elem_of_lookup_2.
  - intros (t & Hin & Ht). apply list_elem_of_In, list_elem_of_lookup_1 in Hin as [i Hi]. exists i.
    unfold misses_at. rewrite Hi. split; [|done]. apply in_seq. apply lookup_lt_Some in Hi. lia.
Qed.

Lemma hrt_update_task_state ph k : sched_ok ph (m_task_storage k) (m_strategy k) → ph = Quiet ∨ (∃ a, ph = Completing a) →
  if existsb misses (m_task_storage k)
  then UpdateTaskState ops c STK_TICKLESS_TICKS_MAX 1 k = Panic PANIC_KERNEL
  else ∃ s', UpdateTaskState ops c STK_TICKLESS_TICKS_MAX 1 k =
      Ok (1, set_strategy s' (set_tasks (tick_slot <$> m_task_storage k) k)) ∧
    sched_ok (settle_all (seq 0 (length (m_task_storage k))) ph) (tick_slot <$> m_task_storage k) s'.
Proof.
  intros Hs Hph. unfold UpdateTaskState. rewrite Htl.
  assert (Hl : ∀ i, i ∈ seq 0 (length (m_task_storage k)) → is_Some (m_task_storage k !! i) ∧ ph ≠ Leaving i).
  { intros i Hi%elem_of_seq. split; [apply lookup_lt_is_Some; lia|]. by destruct Hph as [-> |[a ->]]. }
  assert (Hb : ph ≠ Boot) by (by destruct Hph as [-> |[a ->]]).
  assert (Hpas := pass _ ph k 1 Hs (NoDup_seq _ _) Hl Hb). rewrite existsb_seq in Hpas.
  destruct (existsb misses _); [done|]. destruct Hpas as (ts' & s' & E & Hs' & Hj).
  assert (Ets : ts' = tick_slot <$> m_task_storage k).
  { apply list_eq. intros j. rewrite Hj, list_lookup_fmap. case_bool_decide as Hin; [done|].
    destruct (m_task_storage k !! j) eqn:E1; [|done]. apply lookup_lt_Some in E1. destruct Hin. apply elem_of_seq. lia. }
  subst ts'. by exists s'.
Qed.
(** *** The state machine *)

(** The next release is planned. *)
Definition planned (t : KernelTask) : KernelTask :=
  let h := m_hrt t in
  let n := periodicity h - duration h in
  with_hrt (mkHrt (periodicity h) (deadline h) 0 false) (if bool_decide (0 < n) then with_sleep (- n) t else t).

Lemma switched_out t : timed t → IsSleeping t = true → running_job t → HrtOnSwitchedOut c t = Ok (planned t).
Proof.
  intros (_ & Hp & Hd) Hsl Hr. unfold HrtOnSwitchedOut, planned, running_job, INT32_MAX in *.
  rewrite bool_decide_eq_true_2 by lia. cbn [stk_assert].
  rewrite i32_ok by (unfold INT32_MIN, INT32_MAX; lia). cbn [mbind res_bind].
  case_bool_decide; [|done]. unfold ScheduleSleep. rewrite bool_decide_eq_true_2, Hsl, Hts by done. done.
Qed.

(** The released task plans its next job and the system is quiet again. *)
Lemma plan_next a k t : sched_ok (Leaving a) (m_task_storage k) (m_strategy k) → m_task_storage k !! a = Some t →
  upd_task a (HrtOnSwitchedOut c) k = Ok (put_task a (planned t) k) ∧
  sched_ok Quiet (<[a := planned t]> (m_task_storage k)) (m_strategy k) ∧ done (m_hrt t) = true ∧
  ¬ ready (m_task_storage k) a ∧ IsPendingRemoval t = false.
Proof.
  intros Hs Ht. assert (Hok := sk_slot _ _ _ Hs a t Ht). assert (Hpr := slot_stays _ _ _ _ Hok).
  inversion Hok as [| | | | |Htm Hm Hz Hr Hd HR Hph]; try done.
  assert (Hsl : IsSleeping t = true) by (apply asleep_neg; lia).
  split_and!; try done; [by apply (upd_task_ok k a t); [|apply switched_out]| |intros (u & Hu & _ & Hau); congruence].
  apply (sched_stay (Leaving a) Quiet _ _ a t); try done.
  - unfold planned. by case_bool_decide.
  - rewrite (quiet_listed t), (quiet_listed (planned t)), Hsl by (done || unfold planned; by case_bool_decide).
    rewrite asleep_neg; [done|]. unfold planned. case_bool_decide; cbn; lia.
  - intros j Hj. split_and!; [done| |done]. split; [done|]. by intros [= ->].
  - destruct Htm as (Hb & Hp & Hdl). unfold planned, running_job, INT32_MAX in *.
    apply slot_asleep; try done; case_bool_decide; try done; unfold countdown, INT32_MAX; cbn; lia.
Qed.

(** The ready tasks do not change when the released one plans its next job. *)
Lemma ready_put ts i t t' j : ts !! i = Some t → IsSleeping t' = IsSleeping t → IsBusy t' = IsBusy t →
  ready (<[i := t']> ts) j ↔ ready ts j.
Proof.
  intros Hi Hs Hb. unfold ready. split; intros (u & Hu & H1 & H2).
  - destruct (lookup_put _ _ _ _ _ _ Hi Hu) as [[-> ->]|[Hne Hu']]; [exists t|exists u]; split_and!; congruence.
  - destruct (decide (j = i)) as [->|Hne]; [exists t'|exists u].
    + rewrite list_lookup_insert_eq by (by eapply lookup_lt_Some). split_and!; congruence.
    + by rewrite list_lookup_insert_ne.
Qed.

Lemma ready_planned a k t j : sched_ok (Leaving a) (m_task_storage k) (m_strategy k) → m_task_storage k !! a = Some t →
  ready (<[a := planned t]> (m_task_storage k)) j ↔ ready (m_task_storage k) j.
Proof.
  intros Hs Ht. assert (Hok := sk_slot _ _ _ Hs a t Ht). inversion Hok as [| | | | |Htm Hm Hz]; try done.
  apply (ready_put _ a t); [done| |unfold planned; by case_bool_decide]. rewrite (asleep_neg t) by lia.
  apply asleep_neg. unfold planned. case_bool_decide; cbn; lia.
Qed.

(** [a] is the task the state machine leaves. *)
Record at_switch (ph : Phase) (a : nat) k : Prop := {
  as_sched : sched_ok ph (m_task_storage k) (m_strategy k);
  as_now : m_task_now k = Some a;
  as_member : a ∈ hp_members (m_strategy k);
  as_run : running_state (m_fsm_state k);
  as_phase : ph = Quiet ∧ (m_fsm_state k ≠ FSM_STATE_SLEEPING → ready (m_task_storage k) a) ∨
             ph = Leaving a ∧ m_fsm_state k ≠ FSM_STATE_SLEEPING;
}.

(** The running task is one of the ready ones; without any the kernel sleeps. *)
Definition dispatch k : Prop :=
  ∃ a, m_task_now k = Some a ∧ a ∈ hp_members (m_strategy k) ∧ running_state (m_fsm_state k) ∧
    if bool_decide (m_fsm_state k = FSM_STATE_SLEEPING) then (∀ i, ¬ ready (m_task_storage k) i) else ready (m_task_storage k) a.
(** The task the strategy chose. *)
Definition chosen k : option nat := if bool_decide (m_fsm_state k = FSM_STATE_SLEEPING) then None else m_task_now k.

Lemma sched_perm ph ts s s' : sched_ok ph ts s → hp_ok ts s' → hp_members s' ≡ₚ hp_members s → sched_ok ph ts s'.
Proof.
  intros [_ Ht] Hs HM. split; [done|]. intros i t Hi. apply (slot_sub (hp_members s) ph); try done; [by rewrite HM|by apply Ht].
Qed.

Definition after_switch (ph : Phase) (a : nat) ts : list KernelTask :=
  if bool_decide (ph = Leaving a) then alter planned a ts else ts.

Record switched (ph : Phase) (a : nat) k k' : Prop := {
  sw_sched : sched_ok Quiet (m_task_storage k') (m_strategy k');
  sw_dispatch : dispatch k';
  sw_tasks : m_task_storage k' = after_switch ph a (m_task_storage k);
  sw_frame : m_kstate k' = m_kstate k ∧ m_ticks k' = m_ticks k ∧ m_sync_list k' = m_sync_list k;
}.

(** The state machine after the strategy's choice. *)
Lemma transition_to ph a k b : at_switch ph a k → ready (m_task_storage k) b →
  ∃ r k', Transition ops c (Some a)
      (m_fsm (m_fsm_state k) (if bool_decide (m_fsm_state k = FSM_STATE_SLEEPING) then FSM_EVENT_WAKE else FSM_EVENT_SWITCH))
      (Some b) k = Ok (r, k') ∧ switched ph a k k' ∧ chosen k' = Some b.
Proof.
  intros [Hs Hn Hm Hr Hph] Hb. destruct (sk_get _ _ _ a Hs Hm) as (t & Ht & Htm & Hok).
  assert (Hmb : b ∈ hp_members (m_strategy k)) by (by eapply ready_active).
  destruct (decide (m_fsm_state k = FSM_STATE_SLEEPING)) as [Ef|Ef].
  - destruct Hph as [[-> _]|[_ ?]]; [|done]. rewrite (bool_decide_eq_true_2 _ Ef), Ef.
    cbn [m_fsm Transition StateWake mbind res_bind]. eexists _, _. split; [done|]. split; [|done].
    split; try done. exists b. split_and!; try done. by right; right.
  - assert (Efs : m_fsm (m_fsm_state k) FSM_EVENT_SWITCH = FSM_STATE_SWITCHING) by (by destruct Hr as [-> | [? | ->]]).
    rewrite (bool_decide_eq_false_2 _ Ef), Efs. cbn [Transition StateSwitch].
    destruct Hph as [[-> Ha]|[-> _]].
    + specialize (Ha Ef). assert (Hd : done (m_hrt t) = false).
      { destruct (ready_active Quiet _ _ a Hs Ha) as (_ & t' & ? & ?). naive_solver. }
      exists (if bool_decide (b = a) then no_switch else mkSwitch true (StackTask a) (StackTask b)),
        (set_fsm FSM_STATE_SWITCHING (set_now (Some b) k)).
      split.
      * destruct (decide (b = a)) as [->|Hne].
        -- rewrite bool_decide_eq_true_2 by done. cbn. rewrite <- Hn. by destruct k.
        -- rewrite bool_decide_eq_false_2 by done. cbn [negb]. rewrite (task_at_ok _ a t) by done.
           cbn [mbind res_bind]. by rewrite Hd, andb_false_r.
      * split; [|done]. split; try done. exists b. split_and!; try done. by left.
    + destruct (plan_next a (set_now (Some b) k) t) as (E & Hq & Hd & Ha & _); [done..|].
      assert (Hne : b ≠ a).
      { by intros ->. }
      rewrite bool_decide_eq_false_2 by done. cbn [negb]. rewrite (task_at_ok _ a t) by done. cbn [mbind res_bind].
      rewrite Hhrt, Hd. cbn [andb]. rewrite E. cbn [mbind res_bind]. eexists _, _. split; [done|].
      split; [|done]. split; try done.
      { exists b. split_and!; try done; [by left|]. rewrite bool_decide_eq_false_2 by done. cbn. by apply (ready_planned a _ t). }
      unfold after_switch. rewrite bool_decide_eq_true_2 by done. cbn. by rewrite (list_alter_insert _ _ _ t).
Qed.

Lemma transition_idle ph a k : at_switch ph a k → (∀ i, ¬ ready (m_task_storage k) i) →
  ∃ r k', Transition ops c (Some a) (m_fsm (m_fsm_state k) FSM_EVENT_SLEEP) None k = Ok (r, k') ∧
    switched ph a k k' ∧ chosen k' = None.
Proof.
  intros [Hs Hn Hm Hr Hph] Hnil. destruct (sk_get _ _ _ a Hs Hm) as (t & Ht & _).
  destruct (decide (m_fsm_state k = FSM_STATE_SLEEPING)) as [Ef|Ef].
  - destruct Hph as [[-> _]|[_ ?]]; [|done]. rewrite Ef. cbn [m_fsm Transition]. eexists _, _. split; [done|].
    unfold chosen. rewrite bool_decide_eq_true_2 by done. split; [|done]. split; try done.
    exists a. rewrite bool_decide_eq_true_2 by done. done.
  - destruct Hph as [[_ Ha]|[-> _]]; [by destruct (Hnil a (Ha Ef))|].
    assert (Efs : m_fsm (m_fsm_state k) FSM_EVENT_SLEEP = FSM_STATE_SLEEPING) by (by destruct Hr as [-> | [? | ->]]).
    rewrite Efs. cbn [Transition StateSleep].
    destruct (hp_first (m_task_storage k) (m_strategy k)) as (b & Eb & Hb); [apply Hs|by intros E; rewrite E in Hm; set_solver|].
    rewrite Eb. cbn [mbind res_bind]. rewrite (task_at_ok _ a t) by done. cbn [mbind res_bind].
    destruct (plan_next a (set_now (Some b) k) t) as (E & Hq & _ & Ha & Hpr); [done..|].
    rewrite Hhrt, Hpr. cbn [andb negb]. rewrite E. cbn [mbind res_bind]. eexists _, _. split; [done|].
    split; [|done]. split; try done.
    { exists b. split_and!; try done; [by right; left|]. rewrite bool_decide_eq_true_2 by done. cbn. intros i.
      rewrite (ready_planned a _ t) by done. apply Hnil. }
    unfold after_switch. rewrite bool_decide_eq_true_2 by done. cbn. by rewrite (list_alter_insert _ _ _ t).
Qed.

Lemma switch_perm ph a k s' k' : switched ph a (set_strategy s' k) k' → switched ph a k k'.
Proof. by intros []. Qed.

Lemma hrt_fsm_step ph a k : at_switch ph a k →
  ∃ r k' s', UpdateFsmState ops c k = Ok (r, k') ∧ switched ph a k k' ∧
    st_GetNext ops c (m_task_storage k, m_strategy k) = Ok (chosen k', (m_task_storage k, s')).
Proof.
  intros Hat. destruct Hat as [Hs Hn Hm Hr Hph] eqn:Eat. clear Eat.
  assert (Haw : awake_phase ph) by (destruct Hph as [[-> _]|[-> _]]; [by left|by right; eexists]).
  destruct (next_ready ph (m_task_storage k) (m_strategy k) Haw Hs) as (next & s' & E & Hs' & HM & Hx).
  assert (Hval : IsValidFsmState (m_fsm_state k) = true) by (by destruct Hr as [-> | [-> | ->]]).
  unfold UpdateFsmState, GetNewFsmState, FetchNextEvent. rewrite Hval. cbn [stk_assert].
  rewrite (strat_ask_ok k _ next s') by done. cbn [mbind res_bind]. rewrite Hn. set (k1 := set_strategy s' k).
  assert (Hat1 : at_switch ph a k1).
  { split; try done; cbn; [by eapply sched_perm|by rewrite HM]. }
  destruct next as [b|].
  - destruct (ready_active ph _ _ b Hs Hx) as (_ & t & Ht & _ & _ & Hz & _).
    rewrite (task_at_ok _ b t) by done. cbn [mbind res_bind]. rewrite (awake_zero t Hz). cbn [negb stk_assert mbind res_bind].
    destruct (transition_to ph a k1 b Hat1 Hx) as (r & k' & E' & Hsw & Hch).
    exists r, k', s'. rewrite Hch. split_and!; [exact E'|by eapply switch_perm|done].
  - assert (Hsz : bool_decide (st_GetSize ops (m_strategy k1) = 0) = false).
    { apply bool_decide_eq_false_2. rewrite (hp_size (m_task_storage k)) by done. cbn. rewrite HM.
      destruct (hp_members (m_strategy k)); [set_solver|cbn; lia]. }
    rewrite Hsz, andb_false_r. cbn [mbind res_bind].
    destruct (transition_idle ph a k1 Hat1 Hx) as (r & k' & E' & Hsw & Hch).
    exists r, k', s'. rewrite Hch. split_and!; [exact E'|by eapply switch_perm|done].
Qed.

(** *** The invariant between two events *)

Record hrt_inv k : Prop := {
  hi_sched : sched_ok Quiet (m_task_storage k) (m_strategy k);
  hi_dispatch : dispatch k;
  hi_state : m_kstate k = KSTATE_RUNNING;
  hi_sync : m_sync_list k = [];
}.

Lemma inv_at_switch k : hrt_inv k → ∃ a, at_switch Quiet a k.
Proof.
  intros [Hs (a & Hn & Hm & Hr & Hd) _ _]. exists a. split; try done. left. split; [done|].
  intros Hf. by rewrite bool_decide_eq_false_2 in Hd.
Qed.

Lemma switched_inv ph a k k' : switched ph a k k' → m_kstate k = KSTATE_RUNNING → m_sync_list k = [] → hrt_inv k'.
Proof. intros [Hs Hd _ (E1 & _ & E2)] H1 H2. split; congruence. Qed.

Lemma no_sync k e : m_sync_list k = [] → (if IsSyncMode c then UpdateSyncObjects e k else Ok k) = Ok k.
Proof. intros E. unfold UpdateSyncObjects. rewrite E. by destruct (IsSyncMode c). Qed.
(** ** The tick *)

(** A tick may find the running task completing. *)
Record tick_ready (ph : Phase) (a : nat) k : Prop := {
  tr_sched : sched_ok ph (m_task_storage k) (m_strategy k);
  tr_now : m_task_now k = Some a;
  tr_member : a ∈ hp_members (m_strategy k);
  tr_run : running_state (m_fsm_state k);
  tr_phase : ph = Quiet ∧ (m_fsm_state k ≠ FSM_STATE_SLEEPING → ready (m_task_storage k) a) ∨
             ph = Completing a ∧ m_fsm_state k ≠ FSM_STATE_SLEEPING;
  tr_state : m_kstate k = KSTATE_RUNNING;
  tr_sync : m_sync_list k = [];
}.

Definition phase_ticked (a : nat) (ph : Phase) : Phase := match ph with Completing _ => Leaving a | _ => ph end.

(** How the running task was chosen: by the strategy, from the tasks [ts]. *)
Definition picked_from (ph : Phase) (a : nat) ts k' : Prop :=
  m_task_storage k' = after_switch ph a ts ∧ awake_phase ph ∧
  ∃ s s', sched_ok ph ts s ∧ st_GetNext ops c (ts, s) = Ok (chosen k', (ts, s')).

Lemma tick_slot_busy t : IsBusy (tick_slot t) = IsBusy t.
Proof. unfold tick_slot. destruct (IsBusy t) eqn:E; cbn [negb]; [|done]. by repeat case_match. Qed.

Lemma slot_member M ph i t : slot_ok M ph i t → IsBusy t = true → i ∈ M.
Proof. intros [] Hb; try done. congruence. Qed.

Lemma phase_settled a ph k : tick_ready ph a k → settle_all (seq 0 (length (m_task_storage k))) ph = phase_ticked a ph.
Proof.
  intros [Hs _ Hm _ [[-> _]|[-> _]] _ _]; [done|]. cbn. rewrite bool_decide_eq_true_2; [done|].
  apply elem_of_seq. apply (sk_range _ _ _ _ Hs) in Hm. lia.
Qed.

Lemma hrt_on_tick ph a k : tick_ready ph a k →
  if existsb misses (m_task_storage k) then OnTick ops c STK_TICKLESS_TICKS_MAX 1 k = Panic PANIC_KERNEL
  else ∃ r n k', OnTick ops c STK_TICKLESS_TICKS_MAX 1 k = Ok (r, n, k') ∧ hrt_inv k' ∧ m_ticks k' = m_ticks k + 1 ∧
    picked_from (phase_ticked a ph) a (tick_slot <$> m_task_storage k) k'.
Proof.
  intros Htr. assert (Eph := phase_settled a ph k Htr). destruct Htr as [Hs Hn Hm Hr Hph Hks Hsy].
  unfold OnTick, UpdateTasks. rewrite no_sync by done. cbn [mbind res_bind]. set (k0 := set_ticks (m_ticks k + 1) k).
  assert (HU := hrt_update_task_state ph k0 Hs). cbn [k0 m_task_storage set_ticks] in HU.
  destruct (existsb misses _).
  { fold k0 in HU |- *. rewrite HU; [done|]. destruct Hph as [[-> _]|[-> _]]; [by left|by right; eexists]. }
  destruct HU as (s' & E & Hs'); [destruct Hph as [[-> _]|[-> _]]; [by left|by right; eexists]|].
  rewrite Eph in Hs'. fold k0 in E. rewrite E. cbn [mbind res_bind]. rewrite Hts. cbn [mbind res_bind].
  set (k1 := set_strategy s' (set_tasks (tick_slot <$> m_task_storage k) k0)) in *.
  assert (Hlk : IsLocked k1 = false) by (unfold IsLocked; cbn; by rewrite Hks). rewrite Hlk. cbn [negb].
  destruct (sk_get _ _ _ a Hs Hm) as (t & Ht & (Hb & _) & _).
  assert (Ht1 : m_task_storage k1 !! a = Some (tick_slot t)) by (cbn; by rewrite list_lookup_fmap, Ht).
  assert (Hat : at_switch (phase_ticked a ph) a k1).
  { split; try done.
    - eapply slot_member; [by apply (sk_slot _ _ _ Hs' a)|]. by rewrite tick_slot_busy.
    - destruct Hph as [[-> Ha]|[-> Hf]]; [left|by right]. split; [done|]. intros Hf.
      destruct (ready_active Quiet _ _ a Hs (Ha Hf)) as (_ & t' & Ht' & _ & _ & Hz & _).
      simplify_eq. exists (tick_slot t). split_and!; [done|by rewrite tick_slot_busy|].
      unfold tick_slot. rewrite Hb, (awake_zero t Hz). cbn. by apply awake_zero. }
  destruct (hrt_fsm_step _ a k1 Hat) as (r & k' & s2 & E2 & Hsw & Hg). rewrite E2. cbn [mbind res_bind].
  eexists r, _, k'. split; [done|]. destruct (sw_frame _ _ _ _ Hsw) as (_ & Et & _). split_and!; [|done|].
  - by eapply switched_inv.
  - split; [apply (sw_tasks _ _ _ _ Hsw)|]. split; [destruct Hph as [[-> _]|[-> _]]; [by left|by right; eexists]|].
    by exists s', s2.
Qed.

(** ** The completion of a job *)

(** What the critical section of [Yield] does to the running task. *)
Definition announced (t : KernelTask) : KernelTask := with_sleep (-1) (raise STATE_SLEEP_PENDING (HrtOnWorkCompleted t)).

(** [Yield()] up to [BusyWaitWhileSleeping], then the context switch it forces. *)
Definition Complete (SP : Z) k : res (Kernel S) :=
  i ← caller c WordSize SP k;
  t ← task_at k i;
  k ← Service_SwitchToNext ops c WordSize false SP k;
  '(_, k) ← OnForceContextSwitch ops c (GetTid t) k;
  Ok k.
(** The same when a tick comes first. *)
Definition CompleteLate (SP : Z) k : res (Kernel S) :=
  i ← caller c WordSize SP k;
  t ← task_at k i;
  k ← Service_SwitchToNext ops c WordSize false SP k;
  '(_, _, k) ← OnTick ops c STK_TICKLESS_TICKS_MAX 1 k;
  '(_, k) ← OnForceContextSwitch ops c (GetTid t) k;
  Ok k.
(** The running task, when the kernel is not idle. *)
Lemma runs_job k SP a t : hrt_inv k → KernelSafe.executes WordSize k SP a t →
  at_switch Quiet a k ∧ m_fsm_state k ≠ FSM_STATE_SLEEPING ∧ ready (m_task_storage k) a ∧ IsBusy t = true.
Proof.
  intros Hk [Hn Ht Hsp Haw]. destruct (inv_at_switch k Hk) as (a' & Hat). assert (Hn' := as_now _ _ _ Hat).
  rewrite Hn in Hn'. injection Hn' as <-. assert (Hb : IsBusy t = true).
  { unfold IsMemoryOfSP in Hsp. unfold IsBusy. by destruct (m_user t). }
  assert (Hr : ready (m_task_storage k) a) by (by exists t).
  split_and!; try done. intros Hf. destruct (hi_dispatch k Hk) as (? & _ & _ & _ & Hd).
  rewrite bool_decide_eq_true_2 in Hd by done. by apply (Hd a).
Qed.

Lemma announce k SP a t : hrt_inv k → KernelSafe.executes WordSize k SP a t →
  Service_SwitchToNext ops c WordSize false SP k = Ok (put_task a (announced t) k) ∧
  tick_ready (Completing a) a (put_task a (announced t) k).
Proof.
  intros Hk He. destruct (runs_job k SP a t Hk He) as (Hat & Hf & Hr & Hb). destruct Hk as [Hs _ Hks Hsy].
  assert (Ht := KernelSafe.ex_task _ _ _ _ _ He). assert (Hlt : (a < length (m_task_storage k))%nat) by (by eapply lookup_lt_Some).
  destruct (ready_active Quiet _ _ a Hs Hr) as (Hmem & t' & Ht' & Htm & Hm & Hz & Hrj & Hd). simplify_eq.
  split.
  - unfold Service_SwitchToNext, OnTaskSwitch, OnTaskSleep, OnTaskSleepImpl, IsLocked. rewrite Hks.
    rewrite (bool_decide_eq_false_2 (KSTATE_RUNNING = _)) by done. cbn [negb stk_assert].
    rewrite Hhrt, andb_false_r, (KernelSafe.caller_ok c WordSize k SP a t He). cbn [mbind res_bind].
    rewrite (mod_task_ok k a t) by done. cbn [mbind res_bind]. rewrite (bool_decide_eq_true_2 (0 < YIELD_TICKS)) by done.
    rewrite (upd_task_ok _ a (HrtOnWorkCompleted t) (announced t)).
    + cbn [mbind res_bind]. by rewrite put_task_put.
    + by eapply put_task_at.
    + unfold ScheduleSleep. rewrite bool_decide_eq_true_2 by done. cbn [stk_assert].
      rewrite Hts. replace (IsSleeping (HrtOnWorkCompleted t)) with false by (symmetry; by apply awake_zero). done.
  - split; cbn; try done; [|apply Hat..|by right].
    assert (Hma : m_state (announced t) = flag_mask STATE_SLEEP_PENDING) by (unfold announced, HrtOnWorkCompleted; cbn; by rewrite Hm).
    apply (sched_stay Quiet (Completing a) _ _ a t); try done.
    + by rewrite pending_listed, listed_awake by (done || by apply awake_zero).
    + intros j Hj. split_and!; [|done..]. split; [by intros [= ->]|done].
    + by apply slot_completing.
Qed.

(** A request for a context switch that is no longer due. *)
Lemma stale_switch k id : hrt_inv k → OnForceContextSwitch ops c id k = Ok (no_switch, k).
Proof.
  intros [Hs (a & Hn & Hm & _) _ _]. unfold OnForceContextSwitch. rewrite Hn.
  destruct (sk_get _ _ _ a Hs Hm) as (t & Ht & _ & Hok). rewrite (task_at_ok k a t Ht). cbn [mbind res_bind].
  assert (Hf : ∀ f, has t f = false) by (intros f; inversion Hok; try done; by apply quiet_flags).
  rewrite !Hf, andb_false_r. by repeat case_match.
Qed.

(** The task leaves the ready tasks and the next one runs. *)
Lemma hrt_force_switch a k t : tick_ready (Completing a) a k → m_task_storage k !! a = Some t →
  ∃ r k', OnForceContextSwitch ops c (GetTid t) k = Ok (r, k') ∧ hrt_inv k' ∧ m_ticks k' = m_ticks k ∧
    picked_from (Leaving a) a (<[a := settle t]> (m_task_storage k)) k'.
Proof.
  intros [Hs Hn Hm Hr Hph Hks Hsy] Ht. assert (Hok := sk_slot _ _ _ Hs a t Ht).
  inversion Hok as [| | | |Htm Hms Hz Hrj Hd HR _|]; try done.
  destruct Hph as [[? _]|[_ Hf]]; [done|]. assert (Hsl : IsSleeping t = true) by (apply asleep_neg; lia).
  unfold OnForceContextSwitch. rewrite Hn, (task_at_ok k a t Ht). cbn [mbind res_bind].
  rewrite bool_decide_eq_true_2, Hsl, pending_flags, Hks by done. flag_eval. cbv beta iota.
  rewrite (bool_decide_eq_false_2 (KSTATE_RUNNING = _)) by done.
  destruct (leave_ready (Completing a) k a t) as (s' & E & Hs'); [done..|]. rewrite E. cbn [mbind res_bind].
  unfold settled in Hs'. rewrite bool_decide_eq_true_2 in Hs' by done.
  set (k1 := set_strategy s' (put_task a (settle t) k)) in *.
  assert (Ht1 : m_task_storage k1 !! a = Some (settle t)) by (by eapply (put_task_at k)).
  assert (Hat : at_switch (Leaving a) a k1).
  { split; try done; [|by right]. eapply slot_member; [by apply (sk_slot _ _ _ Hs' a)|]. by destruct Htm. }
  destruct (hrt_fsm_step _ a k1 Hat) as (r & k' & s2 & E2 & Hsw & Hg). exists r, k'. split; [done|].
  destruct (sw_frame _ _ _ _ Hsw) as (_ & Et & _). split_and!; [by eapply switched_inv|done|].
  split; [apply (sw_tasks _ _ _ _ Hsw)|]. split; [by right; eexists|]. by exists s', s2.
Qed.
(** ** The kernel's view of a step *)

Lemma view_tick M i now t : slot_ok M Quiet i t →
  periodic_of (now + 1) (tick_slot t) = release_due (now + 1) <$> periodic_of now t.
Proof.
  intros Hok. unfold periodic_of, tick_slot. destruct (IsBusy t) eqn:Hb; cbn [negb]; [|by rewrite Hb].
  inversion Hok as [|Htm Hm Hz Hr Hd HR|Htm Hm Hcd Hdu Hd HR| | |]; try done; [congruence|..].
  - rewrite (awake_zero t Hz). replace (IsBusy (charge t)) with true by done. cbn. f_equal.
    unfold job_of. replace (IsSleeping (charge t)) with false by (symmetry; by apply awake_zero).
    rewrite (awake_zero t Hz). cbn. do 2 f_equal. lia.
  - unfold countdown in Hcd. rewrite (asleep_neg t), quiet_flags by (done || lia).
    set (t' := with_sleep (m_time_sleep t + 1) t). replace (IsBusy t') with true by done. cbn [fmap option_fmap option_map].
    f_equal. unfold release_due, job_of. cbn [pt_job]. rewrite (asleep_neg t) by lia.
    destruct (Z.eqb_spec (now - m_time_sleep t) (now + 1)) as [E|E].
    + rewrite (awake_zero t') by (cbn; lia). unfold with_job. cbn. rewrite Hdu. do 2 f_equal. lia.
    + rewrite (asleep_neg t') by (cbn; lia). cbn. do 2 f_equal. lia.
Qed.

Lemma misses_overdue now t :
  misses t = match periodic_of now t with Some p => overdue (now + 1) p | None => false end.
Proof.
  unfold misses, periodic_of, overdue, is_active, job_of, absolute_deadline. destruct (IsBusy t); [|done].
  destruct (IsSleeping t); [done|]. cbn. apply eq_true_iff_eq. rewrite !Z.ltb_lt. lia.
Qed.

Lemma announced_fields t : m_hrt (announced t) = mkHrt (periodicity (m_hrt t)) (deadline (m_hrt t)) (duration (m_hrt t)) true ∧
  IsBusy (announced t) = IsBusy t ∧ m_time_sleep (announced t) = -1.
Proof. done. Qed.

Lemma view_planned now late t : timed t → m_time_sleep t = 0 → running_job t →
  periodic_of (now + late) (planned (settle (announced t))) =
  (λ p, with_job (Waiting (Z.max (now + late + 1) (release (pt_job p) + pt_period p + late))) p) <$> periodic_of now t.
Proof.
  intros (Hb & _) Hz Hr. unfold periodic_of, planned.
  change (m_hrt (settle (announced t))) with (m_hrt (announced t)). destruct (announced_fields t) as (-> & _). cbn [periodicity duration deadline].
  rewrite Hb. cbn [fmap option_fmap option_map].
  set (t' := with_hrt _ _). assert (Hb' : IsBusy t' = true) by (unfold t'; by case_bool_decide).
  rewrite Hb'. f_equal. unfold with_job. cbn [pt_period pt_deadline pt_job]. unfold job_of at 2. rewrite (awake_zero t Hz). cbn [release].
  replace (periodicity (m_hrt t')) with (periodicity (m_hrt t)) by done.
  replace (deadline (m_hrt t')) with (deadline (m_hrt t)) by done. f_equal.
  assert (Hs : m_time_sleep t' = if bool_decide (0 < periodicity (m_hrt t) - duration (m_hrt t))
    then - (periodicity (m_hrt t) - duration (m_hrt t)) else -1) by (unfold t'; by case_bool_decide).
  unfold job_of. rewrite (asleep_neg t') by (rewrite Hs; case_bool_decide; lia). rewrite Hs. f_equal.
  case_bool_decide; lia.
Qed.

Lemma missed_true now but l : missed now but l = true ↔
  ∃ i p, l !! i = Some (Some p) ∧ but ≠ Some i ∧ overdue now p = true.
Proof.
  unfold missed, exempt. rewrite existsb_exists. split.
  - intros ([i o] & Hin & H). apply list_elem_of_In, list_elem_of_lookup_1 in Hin as [j Hj].
    rewrite list_lookup_imap in Hj. destruct (l !! j) as [o'|] eqn:Hl; [|done]. cbn in Hj. simplify_eq. cbn in H.
    destruct o as [p|]; [|done]. apply andb_true_iff in H as [H1 H2]. apply negb_true_iff, bool_decide_eq_false in H1.
    by exists i, p.
  - intros (i & p & Hl & Hb & Ho). exists (i, Some p). cbn. rewrite bool_decide_eq_false_2 by done. split; [|done].
    apply list_elem_of_In, (list_elem_of_lookup_2 _ i). by rewrite list_lookup_imap, Hl.
Qed.
(** The tasks of the kernel tick as those of the specification; [but] has just
    completed. *)
Lemma view_tick_but k a t but : sched_ok Quiet (m_task_storage k) (m_strategy k) → m_task_storage k !! a = Some t →
  (but = None ∨ but = Some a) →
  let ts := match but with Some _ => <[a := announced t]> (m_task_storage k) | None => m_task_storage k end in
  missed (m_ticks k + 1) but (view k).2 = existsb misses ts ∧
  ∀ i, but ≠ Some i → (periodic_of (m_ticks k + 1) <$> (tick_slot <$> ts)) !! i =
    (λ o, release_due (m_ticks k + 1) <$> o) <$> (view k).2 !! i.
Proof.
  intros Hs Ht Hbut ts. assert (Hlt : (a < length (m_task_storage k))%nat) by (by eapply lookup_lt_Some).
  assert (Hne : ∀ i, but ≠ Some i → ts !! i = m_task_storage k !! i).
  { intros i Hi. unfold ts. destruct Hbut as [-> | ->]; [done|]. apply list_lookup_insert_ne. congruence. }
  assert (Hnm : ∀ i t', ts !! i = Some t' → misses t' = true → but ≠ Some i).
  { intros i t' Hi Hm ->. destruct Hbut as [|[= ->]]; [done|]. unfold ts in Hi. rewrite list_lookup_insert_eq in Hi by done.
    injection Hi as <-. unfold misses in Hm. by rewrite (asleep_neg (announced t)), andb_false_r in Hm. }
  split.
  - apply eq_true_iff_eq. rewrite missed_true, existsb_exists. cbn [view snd]. split.
    + intros (i & p & Hi & Hb & Ho). rewrite list_lookup_fmap in Hi.
      destruct (m_task_storage k !! i) as [t'|] eqn:Ht'; [|done]. cbn in Hi. injection Hi as Hi. exists t'.
      rewrite (misses_overdue (m_ticks k)), Hi. split; [|done].
      apply list_elem_of_In, (list_elem_of_lookup_2 _ i). by rewrite Hne.
    + intros (t' & Hin & Hm). apply list_elem_of_In, list_elem_of_lookup_1 in Hin as [i Hi].
      assert (Hb := Hnm i t' Hi Hm). rewrite Hne in Hi by done. rewrite (misses_overdue (m_ticks k)) in Hm.
      destruct (periodic_of (m_ticks k) t') as [p|] eqn:Hp; [|done]. exists i, p.
      split_and!; [|done..]. by rewrite list_lookup_fmap, Hi, <- Hp.
  - intros i Hi. cbn [view snd]. rewrite !list_lookup_fmap, Hne by done.
    destruct (m_task_storage k !! i) as [t'|] eqn:Ht'; [|done]. cbn. f_equal.
    eapply view_tick. by apply (sk_slot _ _ _ Hs i).
Qed.

(** *** One event *)

Definition exec (ev : Event) k : res (Kernel S) :=
  match ev with
  | EvTick => '(_, _, k) ← OnTick ops c STK_TICKLESS_TICKS_MAX 1 k; Ok k
  | EvComplete SP => Complete SP k
  | EvCompleteLate SP => CompleteLate SP k
  | EvStaleSwitch id => '(_, k) ← OnForceContextSwitch ops c id k; Ok k
  end.
(** Only the running task completes a job. *)
Definition permitted (ev : Event) k : Prop :=
  match ev with
  | EvComplete SP | EvCompleteLate SP => ∃ i t, KernelSafe.executes WordSize k SP i t
  | EvTick | EvStaleSwitch _ => True
  end.
(** The strategy has chosen the running task. *)
Definition picked k : Prop := ∃ ph a ts, picked_from ph a ts k.

Definition implements k k' (v : System) : Prop := hrt_inv k' ∧ view k' = v ∧ (picked k → picked k').

Lemma exec_tick k : hrt_inv k →
  match sys_tick None (view k) with
  | Some v => ∃ k', exec EvTick k = Ok k' ∧ implements k k' v
  | None => exec EvTick k = Panic PANIC_KERNEL
  end.
Proof.
  intros Hk. destruct (inv_at_switch k Hk) as (a & Hat). assert (Hk' := Hk). destruct Hk' as [Hs _ Hks Hsy].
  destruct (sk_get _ _ _ a Hs (as_member _ _ _ Hat)) as (t & Ht & _).
  destruct (view_tick_but k a t None Hs Ht) as (Hm & Hv); [by left|]. cbn beta iota zeta in Hm, Hv.
  assert (Htr : tick_ready Quiet a k) by (destruct Hat as [? ? ? ? [?|[? _]]]; [split; auto|done]).
  assert (HT := hrt_on_tick Quiet a k Htr). unfold sys_tick. cbn [view fst snd] in Hm |- *. rewrite Hm. cbn [exec].
  destruct (existsb misses _); [by rewrite HT|]. destruct HT as (r & n & k' & E & Hk' & Et & Hp). exists k'. rewrite E.
  split; [done|]. split_and!; [done| |intros _; by exists Quiet, a, (tick_slot <$> m_task_storage k)].
  destruct Hp as (Ets & _). unfold view. rewrite Ets, Et. unfold after_switch. rewrite bool_decide_eq_false_2 by done.
  f_equal. apply list_eq. intros i. rewrite Hv by done. by rewrite list_lookup_imap.
Qed.

Lemma lookup_alter_view now f g ts a t i : ts !! a = Some t → periodic_of now (f t) = g <$> periodic_of now t →
  (periodic_of now <$> alter f a ts) !! i = (alter (fmap g) a (periodic_of now <$> ts)) !! i.
Proof.
  intros Ht E. destruct (decide (i = a)) as [->|Hne].
  - rewrite list_lookup_fmap, !list_lookup_alter_eq, list_lookup_fmap, Ht. cbn. by rewrite E.
  - by rewrite list_lookup_fmap, !list_lookup_alter_ne, list_lookup_fmap.
Qed.
Lemma exec_complete k SP a t : hrt_inv k → KernelSafe.executes WordSize k SP a t →
  ∃ k', exec (EvComplete SP) k = Ok k' ∧ implements k k' (sys_complete a (view k)).
Proof.
  intros Hk He. destruct (announce k SP a t Hk He) as (Es & Htr). assert (Ht := KernelSafe.ex_task _ _ _ _ _ He).
  destruct (runs_job k SP a t Hk He) as (Hat & _ & Hr & _).
  destruct (ready_active Quiet _ _ a (as_sched _ _ _ Hat) Hr) as (_ & t' & Ht' & Htm & _ & Hz & Hrj & _). simplify_eq.
  destruct (hrt_force_switch a _ (announced t) Htr) as (r & k' & E & Hk' & Et & Hp); [by eapply put_task_at|].
  exists k'. split.
  - cbn [exec]. unfold Complete. rewrite (KernelSafe.caller_ok c WordSize k SP a t He). cbn [mbind res_bind].
    rewrite (task_at_ok k a t Ht). cbn [mbind res_bind]. rewrite Es. cbn [mbind res_bind]. change (GetTid t) with (GetTid (announced t)).
    by rewrite E.
  - split_and!; [done| |by intros _; eexists _, _, _]. destruct Hp as (Ets & _). unfold view, sys_complete. rewrite Ets, Et.
    cbn [fst snd put_task set_tasks m_ticks m_task_storage]. f_equal. unfold after_switch. rewrite bool_decide_eq_true_2 by done.
    assert (Hlt : (a < length (m_task_storage k))%nat) by (by eapply lookup_lt_Some).
    rewrite (list_alter_insert planned _ _ (settle (announced t)))
      by (apply list_lookup_insert_eq; by rewrite length_insert).
    rewrite !list_insert_insert_eq, <- (list_alter_insert (λ t, planned (settle (announced t))) _ _ t) by done.
    apply list_eq. intros i. apply (lookup_alter_view _ _ _ _ a t); [done|].
    assert (Hv := view_planned (m_ticks k) 0 t Htm Hz Hrj). rewrite Z.add_0_r in Hv. rewrite Hv. unfold completed.
    destruct (periodic_of (m_ticks k) t); cbn; [|done]. by rewrite Z.add_0_r.
Qed.

Lemma exec_complete_late k SP a t : hrt_inv k → KernelSafe.executes WordSize k SP a t →
  match sys_complete_late a (view k) with
  | Some v => ∃ k', exec (EvCompleteLate SP) k = Ok k' ∧ implements k k' v
  | None => exec (EvCompleteLate SP) k = Panic PANIC_KERNEL
  end.
Proof.
  intros Hk He. destruct (announce k SP a t Hk He) as (Es & Htr). assert (Ht := KernelSafe.ex_task _ _ _ _ _ He).
  destruct (runs_job k SP a t Hk He) as (Hat & _ & Hr & _). assert (Hs := as_sched _ _ _ Hat).
  destruct (ready_active Quiet _ _ a Hs Hr) as (Hmem & t' & Ht' & Htm & Hm0 & Hz & Hrj & _). simplify_eq.
  destruct (view_tick_but k a t (Some a) Hs Ht) as (Hm & Hv); [by right|]. cbn beta iota zeta in Hm, Hv.
  assert (HT := hrt_on_tick _ a _ Htr). unfold sys_complete_late, sys_tick. cbn [view fst snd put_task set_tasks m_task_storage m_ticks] in Hm, HT |- *.
  rewrite Hm. cbn [exec]. unfold CompleteLate. rewrite (KernelSafe.caller_ok c WordSize k SP a t He). cbn [mbind res_bind].
  rewrite (task_at_ok k a t Ht). cbn [mbind res_bind]. rewrite Es. cbn [mbind res_bind].
  destruct (existsb misses _); [by rewrite HT|]. destruct HT as (r & n & k' & E & Hk' & Et & Hp). rewrite E.
  cbn [mbind res_bind option_bind]. rewrite (stale_switch k' _ Hk'). exists k'. split; [done|].
  split_and!; [done| |by intros _; eexists _, _, _]. destruct Hp as (Ets & _). unfold view. rewrite Ets, Et.
  cbn [fst snd phase_ticked]. f_equal. unfold after_switch. rewrite bool_decide_eq_true_2 by done. apply list_eq. intros i.
  rewrite list_lookup_fmap. destruct (decide (i = a)) as [->|Hne].
  - assert (Hlt : (a < length (m_task_storage k))%nat) by (by eapply lookup_lt_Some).
    rewrite !list_lookup_alter_eq, list_lookup_fmap, list_lookup_insert_eq, list_lookup_imap, list_lookup_fmap, Ht by done.
    cbn [fmap option_fmap option_map]. unfold exempt. rewrite bool_decide_eq_true_2 by done. f_equal.
    assert (Hts' : tick_slot (announced t) = settle (announced t)).
    { unfold tick_slot. destruct Htm as (Hb & _). change (IsBusy (announced t)) with (IsBusy t). rewrite Hb.
      rewrite (asleep_neg (announced t)) by (cbn; lia). rewrite pending_flags; [done|]. unfold announced, raise, HrtOnWorkCompleted. cbn. by rewrite Hm0. }
    rewrite Hts', view_planned by done. unfold completed_late. by rewrite Z.add_1_r.
  - rewrite !list_lookup_alter_ne by done. assert (Hvi := Hv i ltac:(congruence)). rewrite list_lookup_fmap in Hvi. rewrite Hvi.
    rewrite list_lookup_imap. unfold exempt. by rewrite bool_decide_eq_false_2 by congruence.
Qed.
End hrt.

End KernelHrt.
