(* ===== verification/KernelHrtBoot.v ===== *)
(** * Starting the kernel in hard real-time mode

    [Initialize], [AddTask] with timing parameters for each task and [OnStart]
    lead to a kernel that satisfies the invariant of [KernelHrt.v] and whose
    view is the initial state of the periodic task system: a task without a
    start delay has its first job released at time 0, any other one waits for
    its delay. *)

From S2P Require Import Prelude KernelTask Strategy Kernel KernelInv HrtPolicy KernelHrt.
Import KTask Strat Kernel KernelInv HrtPolicy KernelHrt.
Local Open Scope Z_scope.

Module KernelHrtBoot.

(** A task and the timing parameters it is added with. *)
Record TaskSpec := mkSpec { ts_user : ITask; ts_period : Z; ts_deadline : Z; ts_delay : Z }.

Section boot.
Context {S : Type} {ops : StrategyOps S} (c : KernelCfg) {HP : HrtPolicy ops c}.
Context (Hhrt : IsHrtMode c = true) (Hts : IsTimesliceMode c = false).
Implicit Types (k : Kernel S) (ts : list KernelTask) (s : S).

Definition spec_ok (x : TaskSpec) : Prop :=
  0 < ts_period x < INT32_MAX ∧ 0 < ts_deadline x < INT32_MAX ∧ 0 ≤ ts_delay x < INT32_MAX ∧
  ∀ t, Bind c (ts_user x) KernelTask_ctor = Ok t → hp_admissible t.
Definition specs_ok (l : list TaskSpec) : Prop :=
  Forall spec_ok l ∧ NoDup (u_addr ∘ ts_user <$> l) ∧ NoDup (u_stack ∘ ts_user <$> l).

Fixpoint add_all (l : list TaskSpec) k : res (Kernel S) :=
  match l with
  | [] => Ok k
  | x :: l =>
      '(_, k) ← AddTaskHrt ops c (Some (ts_user x)) (ts_period x) (ts_deadline x) (ts_delay x) k;
      add_all l k
  end.
(** What an application does: [Initialize], [AddTask] for each task, [Start]. *)
Definition boot (TSize : nat) (l : list TaskSpec) : res (Kernel S) :=
  k ← Initialize (Kernel_ctor ops TSize ∅);
  k ← add_all l k;
  '(_, k) ← OnStart ops c k;
  Ok k.

Definition bound (u : ITask) : KernelTask :=
  let t := with_user (Some u) KernelTask_ctor in
  let t := if PRIORITY_INHERITANCE_API (cfg_strategy c) then SetCurrentWeight c NO_WEIGHT t else t in
  if WEIGHT_API (cfg_strategy c) then with_base_weight NO_WEIGHT t else t.
(** A task that was added, before the start ([pending]) and after it. *)
Definition added (pending : bool) (x : TaskSpec) : KernelTask :=
  let t := with_hrt (mkHrt (ts_period x) (ts_deadline x) 0 false) (bound (ts_user x)) in
  if bool_decide (0 < ts_delay x)
  then with_sleep (- ts_delay x) (if pending then raise STATE_SLEEP_PENDING t else t) else t.
Definition slots (pending : bool) (m : nat) (l : list TaskSpec) : list KernelTask :=
  (added pending <$> l) ++ replicate m KernelTask_ctor.

Lemma bound_fields u : m_user (bound u) = Some u ∧ m_state (bound u) = 0 ∧ m_time_sleep (bound u) = 0 ∧ m_hrt (bound u) = HrtInfo_ctor.
Proof. unfold bound, SetCurrentWeight. by destruct (PRIORITY_INHERITANCE_API _), (WEIGHT_API _). Qed.
Lemma bind_bound u : Bind c u KernelTask_ctor = Ok (bound u).
Proof. unfold Bind. rewrite Hts. done. Qed.
Lemma added_fields b x : m_user (added b x) = Some (ts_user x) ∧ m_hrt (added b x) = mkHrt (ts_period x) (ts_deadline x) 0 false ∧
  same_weight (bound (ts_user x)) (added b x) ∧
  m_time_sleep (added b x) = (if bool_decide (0 < ts_delay x) then - ts_delay x else 0) ∧
  m_state (added b x) = (if b && bool_decide (0 < ts_delay x) then flag_mask STATE_SLEEP_PENDING else 0).
Proof.
  unfold added, raise, same_weight. destruct (bound_fields (ts_user x)) as (Eu & Es & Et & Eh).
  case_bool_decide; destruct b; cbn; rewrite ?Eu, ?Es, ?Et; done.
Qed.

(** The kernel before the start. *)
Record booting (m : nat) (l : list TaskSpec) k : Prop := {
  bo_sched : sched_ok c Boot (m_task_storage k) (m_strategy k);
  bo_tasks : m_task_storage k = slots true m l;
  bo_now : m_task_now k = None;
  bo_state : m_kstate k = KSTATE_READY;
  bo_ticks : m_ticks k = 0;
  bo_sync : m_sync_list k = [];
}.

Lemma slots_free b l m : slots b (Datatypes.S m) l !! length l = Some KernelTask_ctor.
Proof. unfold slots. rewrite lookup_app_r by (by rewrite length_fmap). by rewrite length_fmap, Nat.sub_diag. Qed.
Lemma slots_used b l m i t : slots b m l !! i = Some t → (i < length l)%nat → ∃ x, l !! i = Some x ∧ t = added b x.
Proof.
  unfold slots. intros Ht Hi. rewrite lookup_app_l, list_lookup_fmap in Ht by (by rewrite length_fmap).
  destruct (l !! i) as [x|]; [|done]. cbn in Ht. simplify_eq. by exists x.
Qed.
Lemma slots_add b l m x : <[length l := added b x]> (slots b (Datatypes.S m) l) = slots b m (l ++ [x]).
Proof.
  unfold slots. rewrite insert_app_r_alt by (by rewrite length_fmap). rewrite length_fmap, Nat.sub_diag, fmap_app, <- app_assoc. done.
Qed.

Lemma boot_init n : ∃ k, Initialize (Kernel_ctor ops n ∅) = Ok k ∧ booting n [] k.
Proof.
  eexists. split; [done|]. destruct (hp_ctor (replicate n KernelTask_ctor)) as (Hs & HM).
  split; try done. cbn. split; [done|]. intros i t [-> _]%lookup_replicate_1. rewrite HM.
  apply slot_free; done || set_solver.
Qed.

(** *** Adding a task *)

Lemma hrt_init x : spec_ok x →
  HrtInit c (ts_period x) (ts_deadline x) (ts_delay x) (bound (ts_user x)) = Ok (added true x).
Proof.
  intros (Hp & Hd & Hdl & _). destruct (bound_fields (ts_user x)) as (Eu & Es & Et & Eh).
  unfold HrtInit, added. rewrite !bool_decide_eq_true_2 by lia. cbn [stk_assert]. rewrite Eh. cbn [duration done HrtInfo_ctor].
  case_bool_decide; [|done]. unfold ScheduleSleep. rewrite bool_decide_eq_true_2 by done. cbn [stk_assert]. rewrite Hts.
  set (t := with_hrt _ _). replace (IsSleeping t) with false by (symmetry; by apply awake_zero). done.
Qed.

Lemma added_slot M i x : spec_ok x → i ∈ M → slot_ok M Boot i (added true x).
Proof.
  intros (Hp & Hd & Hdl & _) HM. destruct (added_fields true x) as (Eu & Eh & _ & Et & Em).
  assert (Htm : timed (added true x)) by (unfold timed, IsBusy; rewrite Eu, Eh; done).
  cbn [andb] in Em. case_bool_decide.
  - apply slot_delayed; rewrite ?Eh; try done. unfold countdown. lia.
  - apply slot_active; rewrite ?Eh; try done. unfold running_job. rewrite Eh. cbn. lia.
Qed.

Lemma added_listed x : listed (added true x) = true.
Proof.
  destruct (added_fields true x) as (_ & _ & _ & Et & Em). cbn [andb] in Em. case_bool_decide.
  - by apply pending_listed.
  - by apply listed_awake, awake_zero.
Qed.

Lemma no_collision b l x m : NoDup (u_addr ∘ ts_user <$> l ++ [x]) → NoDup (u_stack ∘ ts_user <$> l ++ [x]) →
  existsb (λ t, match m_user t with
                | Some v => (u_addr v =? u_addr (ts_user x)) || (u_stack v =? u_stack (ts_user x))
                | None => false
                end) (slots b m l) = false.
Proof.
  rewrite !fmap_app, !NoDup_app. intros (_ & H1 & _) (_ & H2 & _). apply not_true_is_false. intros (t & Hin & Ht)%existsb_exists.
  apply list_elem_of_In, elem_of_app in Hin as [Hin|Hin].
  - apply list_elem_of_fmap in Hin as (y & -> & Hy). destruct (added_fields b y) as (E & _). rewrite E in Ht.
    apply orb_true_iff in Ht as [Ht|Ht]; apply Z.eqb_eq in Ht.
    + apply (H1 (u_addr (ts_user x))); [|left]. apply list_elem_of_fmap. by exists y.
    + apply (H2 (u_stack (ts_user x))); [|left]. apply list_elem_of_fmap. by exists y.
  - apply elem_of_replicate in Hin as [-> _]. done.
Qed.

Lemma first_free l m : fst <$> list_find (λ t, IsBusy t = false) (slots true (Datatypes.S m) l) = Some (length l).
Proof.
  assert (E : list_find (λ t, IsBusy t = false) (slots true (Datatypes.S m) l) = Some (length l, KernelTask_ctor)); [|by rewrite E].
  apply list_find_Some. split_and!; [apply slots_free|done|]. intros j y Hj Hlt Hb.
  destruct (slots_used _ _ _ _ _ Hj Hlt) as (x & _ & ->). destruct (added_fields true x) as (E & _). unfold IsBusy in Hb. by rewrite E in Hb.
Qed.

Lemma add_one m l x k : booting (Datatypes.S m) l k → spec_ok x →
  NoDup (u_addr ∘ ts_user <$> l ++ [x]) → NoDup (u_stack ∘ ts_user <$> l ++ [x]) →
  ∃ k', AddTaskHrt ops c (Some (ts_user x)) (ts_period x) (ts_deadline x) (ts_delay x) k = Ok (ADD_OK, k') ∧
    booting m (l ++ [x]) k'.
Proof.
  intros [Hs Et Hn Hk Htk Hsy] Hx Ha Hst. assert (Hx' := Hx). destruct Hx' as (Hp & Hd & Hdl & Hadm).
  unfold AddTaskHrt. rewrite Hhrt. cbn [stk_assert].
  replace (_ && _ && _ && _ && _) with true by (symmetry; rewrite !andb_true_iff, !Z.ltb_lt, Z.leb_le; lia).
  unfold IsInitialized, IsStarted. rewrite Hk, Hn.
  rewrite (bool_decide_eq_false_2 (KSTATE_READY = _)), bool_decide_eq_true_2 by done. cbn [negb andb].
  unfold TryAllocateNewTask. rewrite Et, no_collision, first_free by done. set (i := length l).
  assert (Ht : m_task_storage k !! i = Some KernelTask_ctor) by (rewrite Et; apply slots_free).
  rewrite (upd_task_ok k i KernelTask_ctor (bound (ts_user x)) _ Ht (bind_bound _)). cbn [mbind res_bind].
  rewrite (upd_task_ok _ i (bound (ts_user x)) (added true x)); [|by eapply put_task_at|by apply hrt_init].
  cbn [mbind res_bind]. rewrite put_task_put.
  assert (Hni : i ∉ hp_members (m_strategy k)).
  { assert (Hok := sk_slot c _ _ _ Hs i _ Ht). destruct Hok as [| [Hb _] | [Hb _] | [Hb _] | [Hb _] | [Hb _]]; done. }
  destruct (hp_add (m_task_storage k) (m_strategy k) i KernelTask_ctor (added true x)) as (s' & E & Hs' & HM);
    [apply Hs|done..|eapply hp_admissible_frame; [apply Hadm, bind_bound|apply added_fields]|by apply added_listed|].
  unfold AddKernelTask. rewrite (strat_ok _ _ s') by done. cbn [mbind res_bind].
  eexists. split; [destruct (IsStaticMode c); done|]. split; try done; cbn.
  - apply (sched_move c Boot Boot _ (m_strategy k) _ i KernelTask_ctor); try done.
    + intros j Hj. rewrite HM. set_solver.
    + apply added_slot; [done|rewrite HM; left].
  - rewrite Et. apply slots_add.
Qed.

Lemma add_all_ok l2 : ∀ l1 m k, booting (length l2 + m) l1 k → specs_ok (l1 ++ l2) →
  ∃ k', add_all l2 k = Ok k' ∧ booting m (l1 ++ l2) k'.
Proof.
  induction l2 as [|x l2 IH]; intros l1 m k Hk (Hf & Ha & Hs).
  { exists k. rewrite app_nil_r. done. }
  assert (El : l1 ++ x :: l2 = (l1 ++ [x]) ++ l2) by (by rewrite <- app_assoc). rewrite El in *.
  assert (Hf' := Hf). apply Forall_app in Hf' as [(_ & Hx)%Forall_app _]. rewrite Forall_singleton in Hx.
  destruct (add_one (length l2 + m) l1 x k) as (k1 & E & Hk1); [done..| | |].
  { rewrite fmap_app in Ha. by apply NoDup_app in Ha as (? & _). }
  { rewrite fmap_app in Hs. by apply NoDup_app in Hs as (? & _). }
  destruct (IH (l1 ++ [x]) m k1 Hk1) as (k2 & E2 & ?); [by split|]. exists k2. split; [|done].
  cbn [add_all]. rewrite E. cbn [mbind res_bind]. done.
Qed.

(** *** [OnStart] *)

Definition start_slot (t : KernelTask) : KernelTask := if has t STATE_SLEEP_PENDING then settle t else t.

Lemma start_added x : start_slot (added true x) = added false x.
Proof.
  destruct (bound_fields (ts_user x)) as (Eu & Es & Et & Eh). destruct (added_fields true x) as (_ & _ & _ & _ & Em).
  unfold start_slot. cbn [andb] in Em. unfold added in *. case_bool_decide.
  - rewrite pending_flags by done. rewrite bool_decide_eq_true_2 by done.
    unfold settle, lower, raise, with_sleep, with_state, with_hrt. cbn. rewrite Es. done.
  - by rewrite quiet_flags.
Qed.

Lemma hrt_start_loop l : ∀ k, sched_ok c Boot (m_task_storage k) (m_strategy k) →
  NoDup l → (∀ i, i ∈ l → is_Some (m_task_storage k !! i)) →
  ∃ ts' s', OnStart_loop ops c l k = Ok (set_strategy s' (set_tasks ts' k)) ∧ sched_ok c Boot ts' s' ∧
    ∀ j, ts' !! j = (if bool_decide (j ∈ l) then start_slot else id) <$> m_task_storage k !! j.
Proof.
  induction l as [|i l IH]; intros k Hs Hn Hl.
  { exists (m_task_storage k), (m_strategy k). split_and!; [by destruct k|done|]. intros j. cbn. by destruct (_ !! j). }
  apply NoDup_cons in Hn as [Hi Hn]. destruct (Hl i) as [t Ht]; [left|]. assert (Hok := sk_slot c _ _ _ Hs i t Ht).
  assert (H1 : ∃ k1, (if has t STATE_SLEEP_PENDING then
       assert! IsSleeping t;
       k ← mod_task i (lower STATE_SLEEP_PENDING) k;
       if SLEEP_EVENT_API (cfg_strategy c) then strat (st_OnTaskSleep ops c i) k else Ok k
     else Ok k) = Ok k1 ∧ sched_ok c Boot (m_task_storage k1) (m_strategy k1) ∧
     k1 = set_strategy (m_strategy k1) (put_task i (start_slot t) k)).
  { unfold start_slot. inversion Hok as [? Hm|? Hm|? Hm|? Hm Hcd|? Hm|? Hm]; try done;
      [rewrite quiet_flags by done; exists k; split_and!; [done..|]; unfold put_task, set_tasks; rewrite list_insert_id by done; by destruct k..|].
    unfold countdown in Hcd. rewrite pending_flags, (asleep_neg t) by (done || lia). rewrite bool_decide_eq_true_2 by done. cbn [stk_assert].
    destruct (leave_ready c Boot k i t) as (s' & E & Hs'); [done..|by apply asleep_neg; lia|done|].
    exists (set_strategy s' (put_task i (settle t) k)). split_and!; [|done..]. rewrite <- E. unfold ProcessTaskPendingSleep.
    rewrite !(mod_task_ok k i t) by done. cbn [mbind res_bind]. replace (lower STATE_WAKE_PENDING (lower STATE_SLEEP_PENDING t))
      with (lower STATE_SLEEP_PENDING t); [done|]. symmetry. apply lower_quiet. unfold lower, with_state. cbn. by rewrite Hm. }
  destruct H1 as (k1 & E1 & Hs1 & Ek1). cbn [OnStart_loop]. rewrite (task_at_ok k i t Ht). cbn [mbind res_bind]. rewrite E1. cbn [mbind res_bind].
  assert (Hts1 : m_task_storage k1 = <[i := start_slot t]> (m_task_storage k)) by (rewrite Ek1; done).
  destruct (IH k1 Hs1 Hn) as (ts' & s' & E & Hs' & Hj).
  { intros j Hj. rewrite Hts1, list_lookup_insert_ne; [apply Hl; by right|]. by intros <-. }
  exists ts', s'. split_and!; [rewrite E, Ek1; by destruct k|done|]. intros j. rewrite Hj, Hts1.
  destruct (decide (j = i)) as [->|Hne].
  - rewrite (bool_decide_eq_false_2 (i ∈ l)), bool_decide_eq_true_2 by (done || left).
    rewrite list_lookup_insert_eq, Ht by (by eapply lookup_lt_Some). done.
  - rewrite list_lookup_insert_ne by done. erewrite (bool_decide_ext (j ∈ i :: l) (j ∈ l)); [done|]. rewrite elem_of_cons. tauto.
Qed.
Lemma start_slots m l : start_slot <$> slots true m l = slots false m l.
Proof.
  unfold slots. rewrite fmap_app, <- list_fmap_compose. f_equal; [|by rewrite fmap_replicate].
  apply list_fmap_ext. intros i x _. apply start_added.
Qed.

(** The specification's initial state. *)
Definition first_job (x : TaskSpec) : Periodic :=
  mkPeriodic (ts_period x) (ts_deadline x) (if bool_decide (0 < ts_delay x) then Waiting (ts_delay x) else Active 0).
Definition initial (m : nat) (l : list TaskSpec) : System := (0, (Some ∘ first_job <$> l) ++ replicate m None).

Lemma view_added x : periodic_of 0 (added false x) = Some (first_job x).
Proof.
  destruct (added_fields false x) as (Eu & Eh & _ & Et & _). unfold periodic_of, IsBusy, job_of, IsSleeping, first_job. rewrite Eu, Eh, Et.
  case_bool_decide; [|done]. cbn. rewrite (proj2 (Z.ltb_lt _ _)) by lia. do 3 f_equal. lia.
Qed.

Lemma view_slots m l : periodic_of 0 <$> slots false m l = (initial m l).2.
Proof.
  unfold slots, initial. rewrite fmap_app, fmap_replicate, <- list_fmap_compose. cbn [snd]. f_equal.
  apply list_fmap_ext. intros i x _. apply view_added.
Qed.

Lemma slots_quiet m l s : sched_ok c Boot (slots false m l) s → sched_ok c Quiet (slots false m l) s.
Proof.
  intros [Hs Ht]. split; [done|]. intros i t Hi. assert (Hok := Ht i t Hi).
  assert (Hm : m_state t = 0).
  { apply list_elem_of_lookup_2, elem_of_app in Hi as [Hi|Hi].
    - apply list_elem_of_fmap in Hi as (x & -> & _). apply (added_fields false x).
    - apply elem_of_replicate in Hi as [-> _]. done. }
  inversion Hok as [| | |? Hm'|? Hm'|]; try done; [by apply slot_free|by apply slot_active|by apply slot_asleep|].
  rewrite Hm in Hm'. done.
Qed.

Lemma hrt_on_start m l k : booting m l k → l ≠ [] →
  ∃ active k', OnStart ops c k = Ok (active, k') ∧ hrt_inv c k' ∧ picked c k' ∧ view k' = initial m l.
Proof.
  intros [Hs Et Hn Hk Htk Hsy] Hne.
  assert (Hmem : ∀ ph ts s, sched_ok c ph ts s → (∃ t, ts !! 0%nat = Some t ∧ IsBusy t = true) →
    0%nat ∈ hp_members s).
  { intros ph ts s Hso (t & Ht & Hb). eapply slot_member; [by apply (sk_slot c _ _ _ Hso)|done]. }
  assert (H0 : ∀ b, ∃ t, slots b m l !! 0%nat = Some t ∧ IsBusy t = true).
  { intros b. destruct l as [|x l]; [done|]. exists (added b x). split; [done|]. unfold IsBusy. by destruct (added_fields b x) as (-> & _). }
  destruct (hrt_start_loop (seq 0 (length (m_task_storage k))) k Hs (NoDup_seq _ _)) as (ts' & s' & E & Hs' & Hj).
  { intros i Hi%elem_of_seq. apply lookup_lt_is_Some. lia. }
  assert (Ets : ts' = slots false m l).
  { rewrite <- start_slots, <- Et. apply list_eq. intros j. rewrite Hj, list_lookup_fmap. case_bool_decide as Hin; [done|].
    destruct (m_task_storage k !! j) eqn:E1; [|done]. apply lookup_lt_Some in E1. destruct Hin. apply elem_of_seq. lia. }
  subst ts'. apply slots_quiet in Hs'. assert (Hsz : st_GetSize ops (m_strategy k) ≠ 0).
  { rewrite (hp_size (m_task_storage k)) by apply Hs. assert (Hi := Hmem _ _ _ Hs). rewrite Et in Hi. specialize (Hi (H0 true)).
    destruct (hp_members (m_strategy k)); [set_solver|cbn; lia]. }
  unfold OnStart. rewrite bool_decide_eq_false_2 by done. cbn [negb stk_assert]. rewrite E. cbn [mbind res_bind].
  unfold GetNewFsmState, FetchNextEvent. cbn [m_fsm_state set_fsm IsValidFsmState stk_assert].
  set (ts := slots false m l) in *. assert (Hm := Hmem _ _ _ Hs' (H0 false)).
  destruct (next_ready c Quiet ts s' (or_introl eq_refl) Hs') as (next & s2 & E2 & Hs2 & HM & Hx).
  assert (Hq : sched_ok c Quiet ts s2) by (by eapply sched_perm).
  unfold strat_ask. cbn [m_task_storage m_strategy set_fsm set_strategy set_tasks]. rewrite E2. cbn [mbind res_bind].
  destruct next as [b|].
  - destruct (ready_active c Quiet ts s' b Hs' Hx) as (Hbm & t & Ht & _ & _ & Hz & _).
    rewrite (task_at_ok _ b t) by done. cbn [mbind res_bind]. rewrite (awake_zero t Hz). cbn [negb stk_assert mbind res_bind].
    cbn [m_fsm_state set_strategy set_tasks set_fsm]. rewrite bool_decide_eq_false_2 by done. cbn [m_fsm mbind res_bind].
    eexists _, _. split; [done|]. split_and!.
    + split; try done. exists b. split_and!; try done; [cbn; by rewrite HM|by left].
    + exists Quiet, 0%nat, ts. split_and!; [done|by left|]. by exists s', s2.
    + unfold view, initial. cbn. rewrite Htk. f_equal. apply view_slots.
  - assert (Hsz2 : bool_decide (st_GetSize ops s2 = 0) = false).
    { apply bool_decide_eq_false_2. rewrite (hp_size ts) by done. rewrite HM.
      destruct (hp_members s'); [set_solver|cbn; lia]. }
    cbn [m_strategy set_strategy]. rewrite Hsz2, andb_false_r. cbn [mbind res_bind m_fsm_state set_strategy set_tasks set_fsm m_fsm].
    cbn [m_task_storage m_strategy set_strategy set_tasks].
    destruct (hp_first ts s2) as (b & Eb & Hb); [done..|intros En; assert (Hm2 := Hmem _ _ _ Hq (H0 false)); rewrite En in Hm2; set_solver|].
    rewrite Eb. cbn [mbind res_bind]. eexists _, _. split; [done|]. split_and!.
    + split; try done. exists b. split_and!; try done. by right; left.
    + exists Quiet, 0%nat, ts. split_and!; [done|by left|]. by exists s', s2.
    + unfold view, initial. cbn. rewrite Htk. f_equal. apply view_slots.
Qed.

Lemma hrt_boot_ok m l : l ≠ [] → specs_ok l →
  ∃ k, boot (length l + m) l = Ok k ∧ hrt_inv c k ∧ picked c k ∧ view k = initial m l.
Proof.
  intros Hne Hl. destruct (boot_init (length l + m)) as (k0 & E0 & H0).
  destruct (add_all_ok l [] m k0 H0 Hl) as (k1 & E1 & H1). destruct (hrt_on_start m l k1 H1 Hne) as (act & k2 & E2 & ? & ? & ?).
  exists k2. split; [|done]. unfold boot. rewrite E0. cbn [mbind res_bind]. rewrite E1. cbn [mbind res_bind]. by rewrite E2.
Qed.
End boot.

End KernelHrtBoot.
