(* ===== verification/KernelHrtRun.v ===== *)
(** * Runs of the kernel in hard real-time mode

    What follows from [KernelHrt.v] for whole runs: the kernel implements the
    periodic task system event by event, fails exactly when a deadline is
    missed, never idles while a job is active, and releases the jobs of every
    task on the grid given by its start delay and its period. *)

From S2P Require Import Prelude KernelTask Strategy Kernel KernelInv KernelSafe HrtPolicy KernelHrt KernelHrtBoot.
Import KTask Strat Kernel KernelInv HrtPolicy KernelHrt KernelHrtBoot.
Local Open Scope Z_scope.

Module KernelHrtRun.

(** ** What a step of the specification does to one task *)

(** The job of a task in the specification. *)
Definition task_of (s : System) (i : nat) : option Periodic := s.2 !! i ≫= id.

(** A job waits for a release that is still to come, or is active within its
    deadline. *)
Definition job_timed (now : Z) (p : Periodic) : Prop :=
  0 < pt_period p ∧ 0 < pt_deadline p ∧
  match pt_job p with Waiting r => now < r | Active r => r ≤ now ≤ r + pt_deadline p end.
Definition same_task (p p' : Periodic) : Prop := pt_period p' = pt_period p ∧ pt_deadline p' = pt_deadline p.

Lemma task_of_tick but s s' i : sys_tick but s = Some s' →
  task_of s' i = if exempt but i then task_of s i else release_due (s.1 + 1) <$> task_of s i.
Proof.
  unfold sys_tick, task_of. destruct (missed _ _ _); [done|]. intros [= <-]. cbn [snd]. rewrite list_lookup_imap.
  destruct (s.2 !! i) as [o|]; cbn; [|by destruct (exempt but i)]. by destruct (exempt but i).
Qed.

Lemma task_of_alter f i j n (l : list (option Periodic)) :
  task_of (n, alter (fmap f) i l) j = (if bool_decide (j = i) then fmap f else id) (task_of (n, l) j).
Proof.
  unfold task_of. cbn [snd]. case_bool_decide; subst.
  - rewrite list_lookup_alter_eq. by destruct (l !! i) as [[]|].
  - by rewrite list_lookup_alter_ne.
Qed.

(** The number of jobs task [i] completes with the event. *)
Definition completes (i : nat) (ev : Event) (now : option nat) : Z :=
  match ev with
  | EvComplete _ | EvCompleteLate _ => if bool_decide (now = Some i) then 1 else 0
  | EvTick | EvStaleSwitch _ => 0
  end.

(** The job completes before its next release is due, and in time for the
    kernel to notice. *)
Definition timely (ev : Event) (now : option nat) (s : System) : Prop :=
  match ev with
  | EvComplete _ => ∀ i p, now = Some i → task_of s i = Some p → s.1 < release (pt_job p) + pt_period p
  | EvCompleteLate _ => False
  | EvTick | EvStaleSwitch _ => True
  end.

Lemma task_of_lookup s i p : task_of s i = Some p ↔ s.2 !! i = Some (Some p).
Proof. unfold task_of. destruct (s.2 !! i) as [[]|]; cbn; naive_solver. Qed.

Lemma not_missed now but s i p : missed now but s.2 = false → but ≠ Some i → task_of s i = Some p → overdue now p = false.
Proof.
  intros Hm Hb Hp%task_of_lookup. apply not_true_is_false. intros Ho. revert Hm. apply not_false_iff_true, missed_true.
  by exists i, p.
Qed.

(** What a step keeps: the parameters of the task, and that its job is timed;
    [n] jobs are completed by it. *)
Record advance (n : Z) (exact : Prop) (s s' : System) (p p' : Periodic) : Prop := {
  ad_same : same_task p p';
  ad_timed : job_timed s'.1 p';
  ad_release : release (pt_job p) + n * pt_period p ≤ release (pt_job p');
  ad_exact : exact → release (pt_job p') = release (pt_job p) + n * pt_period p;
}.

Lemma tick_advances but s s' i p : sys_tick but s = Some s' → but ≠ Some i → task_of s i = Some p → job_timed s.1 p →
  ∃ p', task_of s' i = Some p' ∧ advance 0 True s s' p p'.
Proof.
  intros E Hb Hp (Hpp & Hpd & Ht). assert (Et := task_of_tick but s s' i E). unfold exempt in Et.
  rewrite bool_decide_eq_false_2, Hp in Et by done. unfold sys_tick in E.
  destruct (missed (s.1 + 1) but s.2) eqn:Em; [done|]. injection E as <-.
  exists (release_due (s.1 + 1) p). split; [done|].
  assert (Ho := not_missed _ _ s i p Em Hb Hp). unfold overdue, is_active, absolute_deadline in Ho.
  unfold release_due. destruct (pt_job p) as [r|r] eqn:Ej; cbn in Ho.
  - destruct (Z.eqb_spec r (s.1 + 1)); split; unfold same_task, job_timed; cbn; rewrite ?Ej; cbn; try done; try split_and!; try done; lia.
  - apply Z.ltb_ge in Ho. split; unfold same_task, job_timed; cbn; rewrite ?Ej; cbn; try done; try split_and!; try done; lia.
Qed.

Lemma step_advances ev now s s' i p : sys_step ev now s = Some s' → task_of s i = Some p → job_timed s.1 p →
  ∃ p', task_of s' i = Some p' ∧ advance (completes i ev now) (timely ev now s) s s' p p'.
Proof.
  intros E Hp Ht. assert (Hsame : advance 0 True s s p p) by (split; try done; [lia|intros _; lia]).
  assert (Hweak : ∀ n s' p' (P : Prop), n = 0 → advance 0 True s s' p p' → advance n P s s' p p')
    by (intros n x p' P -> []; split; auto).
  destruct ev as [|SP|SP|id], now as [a|]; cbn [sys_step] in E; try done; cbn [completes].
  1,2: destruct (tick_advances None s s' i p E) as (p' & ? & ?); [done..|]; exists p'; split; [done|by apply Hweak].
  3,4: injection E as <-; exists p; split; [done|by apply Hweak].
  - injection E as <-. unfold sys_complete. destruct (decide (a = i)) as [->|Hne].
    + rewrite bool_decide_eq_true_2 by done. exists (completed (s.1 + 1) p). rewrite task_of_alter, bool_decide_eq_true_2 by done.
      replace (task_of (s.1, s.2) i) with (Some p) by (by destruct s). split; [done|].
      destruct Ht as (? & ? & ?). split; unfold same_task, job_timed; cbn; try done; [split_and!; try done; lia|lia|].
      intros Htm. specialize (Htm i p eq_refl Hp). lia.
    + rewrite bool_decide_eq_false_2 by congruence. exists p. rewrite task_of_alter, bool_decide_eq_false_2 by congruence.
      replace (task_of (s.1, s.2) i) with (Some p) by (by destruct s). split; [done|].
      apply Hweak; [done|]. by destruct Hsame.
  - unfold sys_complete_late in E. destruct (sys_tick (Some a) s) as [s1|] eqn:E1; [|done]. cbn in E. injection E as <-.
    assert (Es : s1.1 = s.1 + 1) by (unfold sys_tick in E1; destruct (missed _ _ _); [done|by injection E1 as <-]).
    destruct (decide (a = i)) as [->|Hne].
    + rewrite bool_decide_eq_true_2 by done. exists (completed_late (s1.1 + 1) p).
      rewrite task_of_alter, bool_decide_eq_true_2 by done. replace (task_of (s1.1, s1.2) i) with (Some p).
      2: { assert (Et := task_of_tick _ _ _ i E1). unfold exempt in Et. rewrite bool_decide_eq_true_2, Hp in Et by done.
           by destruct s1. }
      split; [done|]. destruct Ht as (? & ? & ?). split; unfold same_task, job_timed; cbn; try done; [split_and!; try done; lia|lia].
    + rewrite bool_decide_eq_false_2 by congruence. destruct (tick_advances _ s s1 i p E1) as (p' & Hp' & Ha); [congruence|done..|].
      exists p'. rewrite task_of_alter, bool_decide_eq_false_2 by congruence.
      replace (task_of (s1.1, s1.2) i) with (Some p') by (by destruct s1). split; [done|].
      apply Hweak; [done|]. by destruct Ha.
Qed.

(** ** Runs *)

Section run.
Context {S : Type} {ops : StrategyOps S} (c : KernelCfg) {HP : HrtPolicy ops c}.
Context (STK_TICKLESS_TICKS_MAX WordSize : Z).
Context (Hdm : DEADLINE_MISSED_API (cfg_strategy c) = false).
Context (Hhrt : IsHrtMode c = true) (Htl : IsTicklessMode c = false) (Hts : IsTimesliceMode c = false).
Implicit Types (k : Kernel S).

Notation exec := (exec (ops := ops) c STK_TICKLESS_TICKS_MAX WordSize).

Lemma step_refines k ev : hrt_inv c k → permitted WordSize ev k →
  match sys_step ev (m_task_now k) (view k) with
  | Some v => ∃ k', exec ev k = Ok k' ∧ implements c k k' v
  | None => exec ev k = Panic PANIC_KERNEL
  end.
Proof.
  intros Hk Hp. destruct ev as [|SP|SP|id]; cbn [sys_step].
  - assert (H := exec_tick c STK_TICKLESS_TICKS_MAX WordSize Hdm Hhrt Htl Hts k Hk). by destruct (m_task_now k).
  - destruct Hp as (i & t & He). rewrite (KernelSafe.ex_now _ _ _ _ _ He).
    exact (exec_complete c STK_TICKLESS_TICKS_MAX WordSize Hdm Hhrt Htl Hts k SP i t Hk He).
  - destruct Hp as (i & t & He). rewrite (KernelSafe.ex_now _ _ _ _ _ He).
    exact (exec_complete_late c STK_TICKLESS_TICKS_MAX WordSize Hdm Hhrt Htl Hts k SP i t Hk He).
  - assert (H := stale_switch c k id Hk).
    destruct (m_task_now k); exists k; (split; [cbn [KernelHrt.exec]; by rewrite H|done]).
Qed.

(** The events of a run with the task that ran when they happened; [Q] says
    which events are considered. *)
Inductive hrt_run (Q : Event → option nat → System → Prop) (k0 : Kernel S) : list (Event * option nat) → Kernel S → Prop :=
| run_start : hrt_run Q k0 [] k0
| run_event l k ev k' : hrt_run Q k0 l k → permitted WordSize ev k → Q ev (m_task_now k) (view k) → exec ev k = Ok k' →
    hrt_run Q k0 (l ++ [(ev, m_task_now k)]) k'.

Definition any_event (ev : Event) (now : option nat) (s : System) : Prop := True.

(** The jobs task [i] completed. *)
Definition completions (i : nat) (l : list (Event * option nat)) : Z :=
  foldr (λ x n, completes i x.1 x.2 + n) 0 l.

Lemma completions_app i l1 l2 : completions i (l1 ++ l2) = completions i l1 + completions i l2.
Proof. unfold completions. induction l1 as [|x l1 IH]; [done|]. cbn [app foldr]. rewrite IH. lia. Qed.

(** One step, forwards. *)
Lemma exec_refines k ev k' : hrt_inv c k → permitted WordSize ev k → exec ev k = Ok k' →
  sys_step ev (m_task_now k) (view k) = Some (view k') ∧ hrt_inv c k' ∧ (picked c k → picked c k').
Proof.
  intros Hk Hp E. assert (H := step_refines k ev Hk Hp). destruct (sys_step _ _ _) as [v|].
  - destruct H as (k1 & E1 & Hi & Hv & Hpk). rewrite E in E1. injection E1 as <-. by subst v.
  - by rewrite H in E.
Qed.

Lemma run_inv Q k0 l k : hrt_inv c k0 → hrt_run Q k0 l k → hrt_inv c k ∧ (picked c k0 → picked c k).
Proof.
  intros H0. induction 1 as [|l k ev k' _ [IH1 IH2] Hp _ E]; [done|]. destruct (exec_refines k ev k' IH1 Hp E) as (_ & ? & ?). auto.
Qed.

(** What a run keeps of a task. *)
Record in_step (k0 : Kernel S) (n : Z) (exact : Prop) (p0 : Periodic) (k : Kernel S) (p : Periodic) : Prop := {
  is_same : same_task p0 p;
  is_timed : job_timed (m_ticks k) p;
  is_release : release (pt_job p0) + n * pt_period p0 ≤ release (pt_job p);
  is_exact : exact → release (pt_job p) = release (pt_job p0) + n * pt_period p0;
}.

Lemma run_advances (Q : Event → option nat → System → Prop) k0 l k i p0 : hrt_inv c k0 → task_of (view k0) i = Some p0 → job_timed (m_ticks k0) p0 →
  hrt_run Q k0 l k →
  ∃ p, task_of (view k) i = Some p ∧ in_step k0 (completions i l) (∀ ev now s, Q ev now s → timely ev now s) p0 k p.
Proof.
  intros H0 Hp0 Ht0 Hr. assert (Hr' := Hr). induction Hr as [|l k ev k' Hr IH Hp HQ E].
  { exists p0. split; [done|]. split; try done; cbn; lia. }
  destruct (run_inv Q k0 l k H0 Hr) as (Hk & _). destruct (IH Hr) as (p & Hpk & [Hs Ht Hrl Hex]).
  destruct (exec_refines k ev k' Hk Hp E) as (Est & _). destruct (step_advances ev (m_task_now k) (view k) _ i p Est Hpk Ht) as (p' & Hp' & [Hs' Ht' Hrl' Hex']).
  exists p'. split; [done|]. destruct Hs as [E1 E2], Hs' as [E3 E4]. rewrite completions_app. cbn [completions foldr fst snd]. rewrite Z.add_0_r.
  rewrite E1 in *. split; [split; congruence|done|lia|]. intros HQt. specialize (Hex HQt). rewrite Hex' by (by apply HQt). lia.
Qed.

Lemma inv_conserving k : hrt_inv c k →
  match chosen k with
  | Some i => ∃ p, task_of (view k) i = Some p ∧ is_active p = true
  | None => ∀ i p, task_of (view k) i = Some p → is_active p = false
  end.
Proof.
  intros [Hs (a & Hn & Hm & Hr & Hd) _ _]. unfold chosen. case_bool_decide.
  - intros i p Hp%task_of_lookup. cbn in Hp. rewrite list_lookup_fmap in Hp. destruct (m_task_storage k !! i) as [t|] eqn:Ht; [|done].
    cbn in Hp. unfold periodic_of in Hp. destruct (IsBusy t) eqn:Hb; [|done]. injection Hp as <-. unfold is_active, job_of. cbn.
    destruct (IsSleeping t) eqn:Hsl; [done|]. destruct (Hd i). by exists t.
  - rewrite Hn. destruct (ready_active c Quiet _ _ a Hs Hd) as (_ & t & Ht & (Hb & _) & _ & Hz & _).
    eexists. split; [apply task_of_lookup; cbn; rewrite list_lookup_fmap, Ht; cbn; unfold periodic_of; by rewrite Hb|].
    unfold is_active, job_of. cbn. by rewrite (awake_zero t Hz).
Qed.
Lemma boot_timed m l k0 i x : l ≠ [] → specs_ok (ops := ops) c l → l !! i = Some x →
  boot (ops := ops) c (length l + m) l = Ok k0 →
  hrt_inv c k0 ∧ picked c k0 ∧ m_ticks k0 = 0 ∧ task_of (view k0) i = Some (first_job x) ∧ job_timed 0 (first_job x) ∧
  release (pt_job (first_job x)) = ts_delay x.
Proof.
  intros Hne Hl Hx E. destruct (hrt_boot_ok c Hhrt Hts m l Hne Hl) as (k & E' & Hk & Hp & Hv). rewrite E in E'. injection E' as <-.
  split_and!; [done..| | | |].
  - by injection Hv.
  - apply task_of_lookup. rewrite Hv. cbn [initial snd]. apply lookup_app_l_Some. rewrite list_lookup_fmap, Hx. done.
  - destruct Hl as (Hf & _). rewrite Forall_lookup in Hf. destruct (Hf i x Hx) as (? & ? & ? & _).
    unfold job_timed, first_job. case_bool_decide; cbn; lia.
  - destruct Hl as (Hf & _). rewrite Forall_lookup in Hf. destruct (Hf i x Hx) as (? & ? & ? & _).
    unfold first_job. case_bool_decide; cbn; lia.
Qed.

(** Some job is still active when its deadline has come. *)
Definition deadline_reached (k : Kernel S) : Prop :=
  ∃ i p, task_of (view k) i = Some p ∧ is_active p = true ∧ absolute_deadline p ≤ m_ticks k.

Lemma deadline_missed k : deadline_reached k ↔ missed (m_ticks k + 1) None (view k).2 = true.
Proof.
  unfold deadline_reached. rewrite missed_true. unfold overdue. split.
  - intros (i & p & Hp%task_of_lookup & Ha & Hd). exists i, p. rewrite Ha. split_and!; [done..|]. apply Z.ltb_lt. lia.
  - intros (i & p & Hp & _ & (Ha & Hd%Z.ltb_lt)%andb_true_iff). exists i, p. rewrite task_of_lookup. split_and!; [done..|lia].
Qed.

(** C6. In hard real-time mode the kernel implements the periodic task system.
    From any state the invariant admits, a tick, the completion of the running
    task's job (on time or overtaken by a tick) and a stale context switch
    request have exactly the effect on time and on every task's job that the
    specification prescribes, the invariant holds again, and the kernel stops
    with a fault exactly when the specification has a missed deadline. *)
Theorem hrt_refines_periodic (k : Kernel S) (ev : Event) : hrt_inv c k → permitted WordSize ev k →
  match sys_step ev (m_task_now k) (view k) with
  | Some v => ∃ k', exec ev k = Ok k' ∧ hrt_inv c k' ∧ view k' = v
  | None => exec ev k = Panic PANIC_KERNEL
  end.
Proof.
  intros Hk Hp. assert (H := step_refines k ev Hk Hp). destruct (sys_step _ _ _) as [v|]; [|done].
  destruct H as (k' & E & Hi & Hv & _). by exists k'.
Qed.

(** C7. Periodic releases.  After the tasks [l] were added and the kernel was
    started, in every timely run (each job completes before its next release is
    due, and the context switch a completion forces is taken before the next
    tick), task [i] has at every time the job its parameters prescribe: after
    [n] completions the current job is the one released at start delay plus [n]
    periods, it waits exactly as long as this time has not come, and it is
    active for at most its deadline. *)
Theorem hrt_release_times (m : nat) (l : list TaskSpec) (k0 : Kernel S) evs k i x :
  l ≠ [] → specs_ok (ops := ops) c l → l !! i = Some x → boot (ops := ops) c (length l + m) l = Ok k0 →
  hrt_run timely k0 evs k →
  ∃ p, task_of (view k) i = Some p ∧ pt_period p = ts_period x ∧ pt_deadline p = ts_deadline x ∧
    let r := ts_delay x + completions i evs * ts_period x in
    pt_job p = Waiting r ∧ m_ticks k < r ∨ pt_job p = Active r ∧ r ≤ m_ticks k ≤ r + ts_deadline x.
Proof.
  intros Hne Hl Hx E Hr. destruct (boot_timed m l k0 i x Hne Hl Hx E) as (Hk0 & _ & Et & Hp0 & Ht0 & Er).
  rewrite <- Et in Ht0. destruct (run_advances timely k0 evs k i _ Hk0 Hp0 Ht0 Hr) as (p & Hp & [[E1 E2] (_ & _ & Ht) _ Hex]).
  exists p. specialize (Hex (λ _ _ _ H, H)). rewrite Er in Hex. cbn [first_job pt_period pt_deadline] in *.
  split_and!; [done..|]. cbn zeta. destruct (pt_job p) as [r|r]; cbn [release] in Hex; subst r; [by left|right]. by rewrite <- E2.
Qed.

(** C10. Deadlines are enforced and the processor is not wasted.  A tick stops
    the system with a fault exactly when some job is still active at its
    absolute deadline; any other tick succeeds, and leaves the kernel running a
    task with an active job, or idle with no active job at all. *)
Theorem hrt_tick_enforces_deadlines (k : Kernel S) : hrt_inv c k →
  (deadline_reached k → OnTick ops c STK_TICKLESS_TICKS_MAX 1 k = Panic PANIC_KERNEL) ∧
  (¬ deadline_reached k → ∃ r n k', OnTick ops c STK_TICKLESS_TICKS_MAX 1 k = Ok (r, n, k') ∧ m_ticks k' = m_ticks k + 1 ∧
    match chosen k' with
    | Some i => ∃ p, task_of (view k') i = Some p ∧ is_active p = true
    | None => ∀ i p, task_of (view k') i = Some p → is_active p = false
    end).
Proof.
  intros Hk. assert (H := step_refines k EvTick Hk I). assert (Es : sys_step EvTick (m_task_now k) (view k) = sys_tick None (view k))
    by (by destruct (m_task_now k)). rewrite Es in H. unfold sys_tick in H. cbn [KernelHrt.exec] in H.
  change (view k).1 with (m_ticks k) in H. destruct (missed (m_ticks k + 1) None (view k).2) eqn:Em; split; intros Hd.
  - destruct (OnTick ops c STK_TICKLESS_TICKS_MAX 1 k) as [[[r n] k']|]; cbn in H; congruence.
  - destruct Hd. by apply deadline_missed.
  - apply deadline_missed in Hd. congruence.
  - destruct (OnTick ops c STK_TICKLESS_TICKS_MAX 1 k) as [[[r n] k']|]; [|by destruct H as (? & ? & _)].
    destruct H as (k1 & [= <-] & Hi & Hv & _). exists r, n, k'. split; [done|]. split; [by injection Hv|]. by apply inv_conserving.
Qed.
(** The tasks the strategy chose from are those with an active job. *)
Lemma active_slot k ph a ts j q : picked_from c ph a ts k → task_of (view k) j = Some q → is_active q = true →
  ∃ t, ts !! j = Some t ∧ IsBusy t = true ∧ IsSleeping t = false ∧ periodic_of (m_ticks k) t = Some q.
Proof.
  intros (Et & Hph & s & s' & Hsk & _) Hq%task_of_lookup Ha. cbn [view snd] in Hq. rewrite list_lookup_fmap, Et in Hq.
  destruct (after_switch ph a ts !! j) as [t|] eqn:Ht; [|done]. cbn in Hq. injection Hq as Hq.
  assert (Hb : IsBusy t = true ∧ IsSleeping t = false).
  { unfold periodic_of in Hq. destruct (IsBusy t); [|done]. injection Hq as <-. unfold is_active, job_of in Ha. cbn in Ha.
    by destruct (IsSleeping t). }
  unfold after_switch in Ht. case_bool_decide as Hl; [|exists t; tauto]. subst ph. destruct (decide (j = a)) as [->|Hne].
  - rewrite list_lookup_alter_eq in Ht. destruct (ts !! a) as [u|] eqn:Hu; [|done]. cbn in Ht. injection Ht as <-. destruct Hb as [_ Hb].
    assert (Hok := sk_slot _ _ _ _ Hsk a u Hu). inversion Hok as [| | | | |? ? Hz]; try done.
    unfold planned, IsSleeping in Hb. case_bool_decide; cbn in Hb; apply Z.ltb_ge in Hb; lia.
  - rewrite list_lookup_alter_ne in Ht by done. exists t. tauto.
Qed.

(** The strategy's choice among the active jobs, for any order [le] of tasks
    that [GetNext] respects. *)
Lemma picked_best (le : list KernelTask → nat → nat → Prop) k i p :
  (∀ ph ts s i s', awake_phase ph → sched_ok c ph ts s → st_GetNext ops c (ts, s) = Ok (Some i, (ts, s')) →
     ∀ j, ready ts j → le ts i j) →
  picked c k → chosen k = Some i → task_of (view k) i = Some p → is_active p = true →
  ∀ j q, task_of (view k) j = Some q → is_active q = true →
    ∃ ts ti tj, ts !! i = Some ti ∧ ts !! j = Some tj ∧ periodic_of (m_ticks k) ti = Some p ∧
      periodic_of (m_ticks k) tj = Some q ∧ IsSleeping ti = false ∧ IsSleeping tj = false ∧ le ts i j.
Proof.
  intros Hle (ph & a & ts & Hpk) Hi Hp Ha j q Hq Hqa.
  destruct (active_slot k ph a ts j q Hpk Hq Hqa) as (t & Ht & Hb & Haw & Eq).
  destruct (active_slot k ph a ts i p Hpk Hp Ha) as (u & Hu & _ & Hau & Ep).
  destruct Hpk as (_ & Hph & s & s' & Hsk & Hg). rewrite Hi in Hg. exists ts, u, t. split_and!; try done.
  eapply Hle; [done..|]. by exists t.
Qed.
(** Whoever runs was picked by the strategy and has an active job. *)
Lemma run_picked m l k0 evs k i : l ≠ [] → specs_ok (ops := ops) c l → boot (ops := ops) c (length l + m) l = Ok k0 →
  hrt_run any_event k0 evs k → chosen k = Some i →
  ∃ p, task_of (view k) i = Some p ∧ is_active p = true ∧ picked c k.
Proof.
  intros Hne Hl E Hr Hi. destruct (hrt_boot_ok c Hhrt Hts m l Hne Hl) as (k' & E' & Hk & Hp & _). rewrite E in E'. injection E' as <-.
  destruct (run_inv any_event k0 evs k Hk Hr) as (Hk' & Hp'). assert (Hco := inv_conserving k Hk'). rewrite Hi in Hco.
  destruct Hco as (p & ? & ?). exists p. auto.
Qed.
End run.

End KernelHrtRun.
