(* ===== verification/KernelHrtExamples.v ===== *)
(** * Hard real-time systems under the strategies meant for them

    Under [SwitchStrategyEDF] the periodic task system runs the active job with
    the earliest absolute deadline; under the monotonic strategies it runs the
    one of the task with the shortest period or deadline.  A concrete system of
    two tasks gives the witnesses of the theorems on hard real-time mode, and the last section
    records corner cases of the code as evaluations of the operations. *)

From S2P Require Import Prelude KernelTask Strategy Edf Monotonic Kernel KernelInv KernelSafe HrtPolicy KernelHrt KernelHrtBoot KernelHrtRun.
Import KTask Strat Kernel KernelInv HrtPolicy KernelHrt KernelHrtBoot KernelHrtRun.
Local Open Scope Z_scope.

Module KernelHrtExamples.

(** ** Earliest deadline first *)

Section edf.
Context (c : KernelCfg) (STK_TICKLESS_TICKS_MAX WordSize : Z).
Context (Hs : cfg_strategy c = Edf.EConfig).
Context (Hhrt : IsHrtMode c = true) (Htl : IsTicklessMode c = false) (Hts : IsTimesliceMode c = false).

Definition edf_policy : HrtPolicy Edf.EDFOps c := events_policy Edf.EDFOps c Hhrt (f_equal SLEEP_EVENT_API Hs).
Let Hdm : DEADLINE_MISSED_API (cfg_strategy c) = false := f_equal DEADLINE_MISSED_API Hs.
Existing Instance edf_policy.

(** [GetNext] answers the ready task of the smallest relative deadline. *)
Lemma edf_picks ph ts s i s' : awake_phase ph → sched_ok c ph ts s → st_GetNext Edf.EDFOps c (ts, s) = Ok (Some i, (ts, s')) →
  ∀ j, ready ts j → Edf.rel ts i ≤ Edf.rel ts j.
Proof.
  intros Hph Hsk Hg j Hj. destruct (ready_active c ph ts s j Hsk Hj) as (Hm & _). destruct Hj as (t & Ht & _ & Hsl).
  assert (Hev : events_ok Edf.EDFOps c ts s) by apply Hsk. assert (Hin : j ∈ Edf.m_tasks s).
  { apply (ev_listed _ _ _ _ Hev j t Hm Ht). by apply listed_awake. }
  change (st_GetNext Edf.EDFOps c (ts, s)) with (Edf.GetNext c (ts, s)) in Hg.
  destruct (Edf.m_tasks s) as [|x0 l0] eqn:El; [set_solver|].
  destruct (Edf.edf_GetNext c ts s x0 l0 Hhrt) as (x & l1 & l2 & E & El' & H1 & H2);
    [apply (ev_inv _ _ _ _ Hev)| |done|].
  { apply Forall_forall. intros y Hy. apply (ready_runnable c ph ts s y Hsk).
    assert (Hym : y ∈ hp_members s) by (apply elem_of_app; by left). destruct (events_get _ _ _ _ _ Hev Hym) as [u Hu].
    apply (listed_ready c ph ts s y u Hph Hsk Hym Hu). by apply (ev_listed _ _ _ _ Hev y u Hym Hu). }
  rewrite E in Hg. injection Hg as -> _. rewrite <- El, El' in Hin.
  apply elem_of_app in Hin as [Hj|[->|Hj]%elem_of_cons]; [apply Z.lt_le_incl; auto|done|auto].
Qed.

(** C8. Under earliest deadline first, in every run of a hard real-time system
    from its start, whichever way the jobs complete, the running task has an
    active job and no other active job has an earlier absolute deadline. *)
Theorem edf_runs_earliest_deadline (m : nat) (l : list TaskSpec) (k0 : Kernel Edf.EDF) evs k i :
  l ≠ [] → specs_ok (ops := Edf.EDFOps) c l → boot (ops := Edf.EDFOps) c (length l + m) l = Ok k0 →
  hrt_run (ops := Edf.EDFOps) c STK_TICKLESS_TICKS_MAX WordSize any_event k0 evs k → chosen k = Some i →
  ∃ p, task_of (view k) i = Some p ∧ is_active p = true ∧
    ∀ j q, task_of (view k) j = Some q → is_active q = true → absolute_deadline p ≤ absolute_deadline q.
Proof.
  intros Hne Hl E Hr Hi. destruct (run_picked c STK_TICKLESS_TICKS_MAX WordSize Hdm Hhrt Htl Hts m l k0 evs k i) as (p & Hp & Ha & Hpk); [done..|].
  exists p. split_and!; [done..|]. intros j q Hq Hqa.
  destruct (picked_best c (λ ts i j, Edf.rel ts i ≤ Edf.rel ts j) k i p) with (j := j) (q := q)
    as (ts & u & t & Hu & Ht & Ep & Eq & Hau & Haw & Hle); [by apply edf_picks|done..|].
  unfold Edf.rel in Hle. rewrite Hu, Ht in Hle. unfold periodic_of, job_of in Ep, Eq. rewrite Hau in Ep. rewrite Haw in Eq.
  destruct (IsBusy u), (IsBusy t); try done. injection Ep as <-. injection Eq as <-. unfold absolute_deadline. cbn. lia.
Qed.
End edf.

(** ** Rate- and deadline-monotonic scheduling *)

Section mono.
Context (ty : Monotonic.EMonotonicSwitchStrategyType) (c : KernelCfg) (STK_TICKLESS_TICKS_MAX WordSize : Z).
Context (Hs : cfg_strategy c = Monotonic.EConfig).
Context (Hhrt : IsHrtMode c = true) (Htl : IsTicklessMode c = false) (Hts : IsTimesliceMode c = false).

Definition rm_policy : HrtPolicy (Monotonic.MonoOps ty) c := mono_policy ty c Hhrt (f_equal SLEEP_EVENT_API Hs).
Let Hdm : DEADLINE_MISSED_API (cfg_strategy c) = false := f_equal DEADLINE_MISSED_API Hs.
Existing Instance rm_policy.

(** What a monotonic strategy orders tasks by. *)
Definition mono_key (p : Periodic) : Z :=
  match ty with Monotonic.MSS_TYPE_RATE => pt_period p | Monotonic.MSS_TYPE_DEADLINE => pt_deadline p end.

Lemma mono_picks ph ts s i s' : awake_phase ph → sched_ok c ph ts s →
  st_GetNext (Monotonic.MonoOps ty) c (ts, s) = Ok (Some i, (ts, s')) →
  ∀ j, ready ts j → Monotonic.key ty ts i ≤ Monotonic.key ty ts j.
Proof.
  intros _ Hsk Hg j Hj. destruct (ready_active c ph ts s j Hsk Hj) as (Hm & _). destruct Hj as (t & Ht & _ & Hsl).
  destruct (Monotonic.mono_next_highest ty c ts s) as (r & E & Hr); [apply Hsk|].
  change (st_GetNext (Monotonic.MonoOps ty) c (ts, s)) with (Monotonic.GetNext c (ts, s)) in Hg.
  rewrite E in Hg. injection Hg as -> _. destruct Hr as (u & l1 & l2 & El & Hu & Hsu & H1 & H2).
  change (hp_members s) with (Monotonic.m_tasks s) in Hm. rewrite El in Hm. rewrite Forall_forall in H1, H2.
  apply elem_of_app in Hm as [Hm|[->|Hm]%elem_of_cons]; [|done|by apply H2].
  destruct (H1 j Hm) as (v & Hv & Hsv). congruence.
Qed.

(** C9. Under the rate-monotonic (deadline-monotonic) strategy, in every run of a
    hard real-time system from its start, the running task has an active job and
    no task with an active job has a shorter period (deadline). *)
Theorem mono_runs_shortest (m : nat) (l : list TaskSpec) (k0 : Kernel Monotonic.Mono) evs k i :
  l ≠ [] → specs_ok (ops := Monotonic.MonoOps ty) c l → boot (ops := Monotonic.MonoOps ty) c (length l + m) l = Ok k0 →
  hrt_run (ops := Monotonic.MonoOps ty) c STK_TICKLESS_TICKS_MAX WordSize any_event k0 evs k → chosen k = Some i →
  ∃ p, task_of (view k) i = Some p ∧ is_active p = true ∧
    ∀ j q, task_of (view k) j = Some q → is_active q = true → mono_key p ≤ mono_key q.
Proof.
  intros Hne Hl E Hr Hi. destruct (run_picked c STK_TICKLESS_TICKS_MAX WordSize Hdm Hhrt Htl Hts m l k0 evs k i) as (p & Hp & Ha & Hpk); [done..|].
  exists p. split_and!; [done..|]. intros j q Hq Hqa.
  destruct (picked_best c (λ ts i j, Monotonic.key ty ts i ≤ Monotonic.key ty ts j) k i p) with (j := j) (q := q)
    as (ts & u & t & Hu & Ht & Ep & Eq & Hau & Haw & Hle); [by apply mono_picks|done..|].
  unfold Monotonic.key in Hle. rewrite Hu, Ht in Hle. unfold periodic_of in Ep, Eq.
  destruct (IsBusy u), (IsBusy t); try done. injection Ep as <-. injection Eq as <-. unfold mono_key. clear -Hle. by destruct ty.
Qed.
End mono.

(** ** Runs as evaluations *)

Section evaluate.
Context {S : Type} (ops : StrategyOps S) (c : KernelCfg).
#[local] Notation h_exec := (exec (ops := ops) c 1000 4).
#[local] Notation h_run Q := (hrt_run (ops := ops) c 1000 4 Q).

Definition h_or (r : res (Kernel S)) : Kernel S := match r with Ok k => k | Panic _ => Kernel_ctor ops 0 ∅ end.
Fixpoint h_after (evs : list Event) (k : Kernel S) : Kernel S :=
  match evs with [] => k | ev :: evs => h_after evs (h_or (h_exec ev k)) end.
Fixpoint h_trace (evs : list Event) (k : Kernel S) : list (Event * option nat) :=
  match evs with [] => [] | ev :: evs => (ev, m_task_now k) :: h_trace evs (h_or (h_exec ev k)) end.
Definition completes_now (ev : Event) (k : Kernel S) : bool :=
  match ev with
  | EvComplete SP | EvCompleteLate SP =>
      match m_task_now k ≫= λ i, m_task_storage k !! i with
      | Some t => match IsMemoryOfSP 4 SP t with Ok b => b && negb (IsSleeping t) | Panic _ => false end
      | None => false
      end
  | EvTick | EvStaleSwitch _ => true
  end.
Fixpoint h_allowed (Q : Event → option nat → System → Prop) (evs : list Event) (k : Kernel S) : Prop :=
  match evs with
  | [] => True
  | ev :: evs => completes_now ev k = true ∧ Q ev (m_task_now k) (view k) ∧ h_exec ev k = Ok (h_or (h_exec ev k)) ∧
      h_allowed Q evs (h_or (h_exec ev k))
  end.

Lemma completes_permitted ev k : completes_now ev k = true → permitted 4 ev k.
Proof.
  assert (H : ∀ SP, completes_now (EvComplete SP) k = true → ∃ i t, KernelSafe.executes 4 k SP i t).
  { intros SP H. cbn in H. destruct (m_task_now k) as [i|] eqn:Hn; [|done]. cbn in H.
    destruct (m_task_storage k !! i) as [t|] eqn:Ht; [|done].
    destruct (IsMemoryOfSP 4 SP t) as [b|] eqn:Hm; [|done]. apply andb_true_iff in H as [-> Hs%negb_true_iff]. by exists i, t. }
  destruct ev; cbn [permitted]; auto.
Qed.

Lemma h_runs Q evs : ∀ k0 l k, h_run Q k0 l k → h_allowed Q evs k → h_run Q k0 (l ++ h_trace evs k) (h_after evs k).
Proof.
  induction evs as [|ev evs IH]; intros k0 l k Hr Ha; [by rewrite app_nil_r|]. destruct Ha as (Hp & HQ & E & Ha).
  cbn [h_trace h_after]. rewrite cons_middle, app_assoc. apply IH; [|done].
  eapply run_event; [done|by apply completes_permitted|done|done].
Qed.
End evaluate.

Ltac h_timely := vm_compute; intros ? ? [= <-] [= <-]; reflexivity.
Ltac h_check tac := repeat (apply conj; [vm_compute; reflexivity|apply conj; [tac|apply conj; [vm_compute; reflexivity|]]]); exact I.

(** ** Two tasks *)

Definition h_cfg : KernelCfg := mkCfg (KERNEL_STATIC + KERNEL_HRT) Edf.EConfig.
Definition h_policy : HrtPolicy Edf.EDFOps h_cfg := edf_policy h_cfg eq_refl eq_refl.
Definition h_specs : list TaskSpec :=
  [mkSpec (mkITask 100 1000 16 1 0) 10 10 0; mkSpec (mkITask 200 2000 16 1 0) 4 3 2].
Notation h_exec := (exec (ops := Edf.EDFOps) h_cfg 1000 4).
Notation h_run Q := (hrt_run (ops := Edf.EDFOps) h_cfg 1000 4 Q).
Notation e_after := (h_after Edf.EDFOps h_cfg).
Notation e_trace := (h_trace Edf.EDFOps h_cfg).
Definition h_k0 : Kernel Edf.EDF := h_or Edf.EDFOps (boot (ops := Edf.EDFOps) h_cfg 3 h_specs).

Lemma h_boot : boot (ops := Edf.EDFOps) h_cfg (length h_specs + 1) h_specs = Ok h_k0.
Proof. vm_compute. reflexivity. Qed.
Lemma h_specs_ok : specs_ok (HP := h_policy) h_cfg h_specs.
Proof.
  split; [|split; vm_compute; decided]. repeat constructor; cbn; unfold INT32_MAX; lia || done.
Qed.
Lemma h_inv0 : hrt_inv (HP := h_policy) h_cfg h_k0.
Proof.
  destruct (hrt_boot_ok (HP := h_policy) h_cfg eq_refl eq_refl 1 h_specs) as (k & E & Hk & _); [done|apply h_specs_ok|].
  assert (Ek := h_boot). rewrite E in Ek. by injection Ek as ->.
Qed.

(** The first task runs for two ticks, the second one preempts it, and both
    complete their jobs. *)
Definition h_events : list Event := [EvTick; EvTick; EvComplete 2000; EvTick; EvComplete 1000; EvTick; EvTick; EvTick].
Definition h_k : Kernel Edf.EDF := e_after h_events h_k0.

Example h_schedule :
  (λ n, chosen (e_after (take n h_events) h_k0)) <$> seq 0 9 =
  [Some 0%nat; Some 0%nat; Some 1%nat; Some 0%nat; Some 0%nat; None; None; None; Some 1%nat].
Proof. vm_compute. reflexivity. Qed.
Example h_jobs : view h_k = (6, [Some (mkPeriodic 10 10 (Waiting 10)); Some (mkPeriodic 4 3 (Active 6)); None]).
Proof. vm_compute. reflexivity. Qed.
Lemma h_timely_run : h_run timely h_k0 (e_trace h_events h_k0) h_k.
Proof.
  apply (h_runs Edf.EDFOps h_cfg timely h_events h_k0 []); [constructor|].
  cbv delta [h_events]. cbn [h_allowed]. h_check ltac:(first [h_timely|exact I]).
Qed.

(** The second task has completed one job and its next one is active. *)
Lemma hrt_release_times_witness : ∃ p, task_of (view h_k) 1 = Some p ∧ pt_period p = 4 ∧ pt_deadline p = 3 ∧
  let r := 2 + completions 1 (e_trace h_events h_k0) * 4 in
  pt_job p = Waiting r ∧ m_ticks h_k < r ∨ pt_job p = Active r ∧ r ≤ m_ticks h_k ≤ r + 3.
Proof.
  apply (hrt_release_times (HP := h_policy) h_cfg 1000 4 eq_refl eq_refl eq_refl eq_refl 1 h_specs h_k0
    (e_trace h_events h_k0) h_k 1 (mkSpec (mkITask 200 2000 16 1 0) 4 3 2)); [done|apply h_specs_ok|done|apply h_boot|apply h_timely_run].
Defined.

(** A completion before the start of the second task: the next job of the first
    one waits for time 10. *)
Lemma hrt_refines_periodic_witness :
  match sys_step (EvComplete 1000) (m_task_now h_k0) (view h_k0) with
  | Some v => ∃ k', h_exec (EvComplete 1000) h_k0 = Ok k' ∧ hrt_inv (HP := h_policy) h_cfg k' ∧ view k' = v
  | None => h_exec (EvComplete 1000) h_k0 = Panic PANIC_KERNEL
  end.
Proof.
  apply (hrt_refines_periodic (HP := h_policy) h_cfg 1000 4 eq_refl eq_refl eq_refl eq_refl h_k0 (EvComplete 1000));
    [apply h_inv0|]. apply completes_permitted. vm_compute. reflexivity.
Defined.

Lemma hrt_tick_enforces_deadlines_witness :
  (deadline_reached h_k0 → OnTick Edf.EDFOps h_cfg 1000 1 h_k0 = Panic PANIC_KERNEL) ∧
  (¬ deadline_reached h_k0 → ∃ r n k', OnTick Edf.EDFOps h_cfg 1000 1 h_k0 = Ok (r, n, k') ∧ m_ticks k' = m_ticks h_k0 + 1 ∧
    match chosen k' with
    | Some i => ∃ p, task_of (view k') i = Some p ∧ is_active p = true
    | None => ∀ i p, task_of (view k') i = Some p → is_active p = false
    end).
Proof.
  apply (hrt_tick_enforces_deadlines (HP := h_policy) h_cfg 1000 4 eq_refl eq_refl eq_refl eq_refl h_k0), h_inv0.
Defined.

Lemma edf_runs_earliest_deadline_witness : ∃ p, task_of (view h_k) 1 = Some p ∧ is_active p = true ∧
  ∀ j q, task_of (view h_k) j = Some q → is_active q = true → absolute_deadline p ≤ absolute_deadline q.
Proof.
  apply (edf_runs_earliest_deadline h_cfg 1000 4 eq_refl eq_refl eq_refl eq_refl 1 h_specs h_k0 (e_trace h_events h_k0) h_k 1);
    [done|apply h_specs_ok|apply h_boot| |vm_compute; reflexivity].
  apply (h_runs Edf.EDFOps h_cfg any_event h_events h_k0 []); [constructor|]. cbv delta [h_events]. cbn [h_allowed]. h_check ltac:(exact I).
Defined.

(** ** The same tasks under rate-monotonic scheduling *)

Definition r_cfg : KernelCfg := mkCfg (KERNEL_STATIC + KERNEL_HRT) Monotonic.EConfig.
Notation RMOps := (Monotonic.MonoOps Monotonic.MSS_TYPE_RATE).
Definition r_policy : HrtPolicy RMOps r_cfg := rm_policy Monotonic.MSS_TYPE_RATE r_cfg eq_refl eq_refl.
Definition r_k0 : Kernel Monotonic.Mono := h_or RMOps (boot (ops := RMOps) r_cfg 3 h_specs).
Definition r_events : list Event := [EvTick; EvTick; EvTick].
Definition r_k : Kernel Monotonic.Mono := h_after RMOps r_cfg r_events r_k0.

Lemma r_boot : boot (ops := RMOps) r_cfg (length h_specs + 1) h_specs = Ok r_k0.
Proof. vm_compute. reflexivity. Qed.
Lemma r_specs_ok : specs_ok (HP := r_policy) r_cfg h_specs.
Proof.
  split; [|split; vm_compute; decided]. repeat constructor; cbn; unfold INT32_MAX; lia || done.
Qed.

Lemma mono_runs_shortest_witness : ∃ p, task_of (view r_k) 1 = Some p ∧ is_active p = true ∧
  ∀ j q, task_of (view r_k) j = Some q → is_active q = true →
    mono_key Monotonic.MSS_TYPE_RATE p ≤ mono_key Monotonic.MSS_TYPE_RATE q.
Proof.
  apply (mono_runs_shortest Monotonic.MSS_TYPE_RATE r_cfg 1000 4 eq_refl eq_refl eq_refl eq_refl 1 h_specs r_k0
    (h_trace RMOps r_cfg r_events r_k0) r_k 1); [done|apply r_specs_ok|apply r_boot| |vm_compute; reflexivity].
  apply (h_runs RMOps r_cfg any_event r_events r_k0 []); [constructor|]. cbv delta [r_events]. cbn [h_allowed]. h_check ltac:(exact I).
Defined.

(** ** Corner cases *)

(** The first task does not complete: its deadline is enforced. *)
Example overrun_faults : h_exec EvTick (e_after (replicate 2 EvTick ++ [EvComplete 2000] ++ replicate 3 EvTick) h_k0) =
    Ok (e_after (replicate 2 EvTick ++ [EvComplete 2000] ++ replicate 4 EvTick) h_k0) ∧
  h_exec EvTick (e_after (replicate 2 EvTick ++ [EvComplete 2000] ++ replicate 4 EvTick ++ [EvComplete 2000] ++ replicate 4 EvTick) h_k0) =
    Panic PANIC_KERNEL.
Proof. split; vm_compute; reflexivity. Qed.

(** A tick between [Yield] and the context switch it forces is neither charged
    to the job nor counted as sleep: the next release, and all later ones, come
    one tick late (here at 11 instead of 10). *)
Example late_completion_drifts :
  (task_of (view (e_after [EvTick; EvComplete 1000] h_k0)) 0, task_of (view (e_after [EvTick; EvCompleteLate 1000] h_k0)) 0) =
  (Some (mkPeriodic 10 10 (Waiting 10)), Some (mkPeriodic 10 10 (Waiting 11))).
Proof. vm_compute. reflexivity. Qed.

(** A job that completes at its next release (allowed here, the deadline is the
    period) keeps the one-tick sleep of [Yield]: the next job is released at 11
    instead of 10. *)
Definition h_alone : Kernel Edf.EDF := h_or Edf.EDFOps (boot (ops := Edf.EDFOps) h_cfg 1 [mkSpec (mkITask 100 1000 16 1 0) 10 10 0]).
Example completion_at_release_drifts :
  task_of (view (e_after (replicate 9 EvTick ++ [EvComplete 1000]) h_alone)) 0 = Some (mkPeriodic 10 10 (Waiting 10)) ∧
  task_of (view (e_after (replicate 10 EvTick ++ [EvComplete 1000]) h_alone)) 0 = Some (mkPeriodic 10 10 (Waiting 11)).
Proof. split; vm_compute; reflexivity. Qed.
(** With [KERNEL_SYNC], a task that waits without a timeout while no other task
    is ready: [StateSleep] treats the wait like a completed job and replaces the
    unlimited sleep by the rest of the period.  The task runs again at its next
    release although nobody has woken it, and [OnTaskWait] fails its assertion
    that the wait is over. *)
Definition w_cfg : KernelCfg := mkCfg (KERNEL_STATIC + KERNEL_HRT + KERNEL_SYNC) Edf.EConfig.
Fixpoint w_ticks (n : nat) (k : Kernel Edf.EDF) : res (Kernel Edf.EDF) :=
  match n with O => Ok k | S n => '(_, _, k) ← OnTick Edf.EDFOps w_cfg 1000 1 k; w_ticks n k end.
Definition w_waiting : res (Kernel Edf.EDF) :=
  k ← Initialize (Kernel_ctor Edf.EDFOps 1 {[0%nat := mkSync [] None]});
  k ← add_all (ops := Edf.EDFOps) w_cfg [mkSpec (mkITask 100 1000 16 1 0) 10 10 0] k;
  '(_, k) ← OnStart Edf.EDFOps w_cfg k;
  '(_, k) ← Service_Wait w_cfg 4 1000 0 WAIT_INFINITE k;
  '(_, k) ← OnForceContextSwitch Edf.EDFOps w_cfg 100 k;
  Ok k.
Example wait_alone_is_cut_short :
  (k ← w_waiting; Ok (m_time_sleep <$> m_task_storage k)) = Ok [-10] ∧
  (k ← w_waiting; k ← w_ticks 10 k; Ok (chosen k, so_wait_list <$> m_sync k !! 0%nat)) = Ok (Some 0%nat, Some [0%nat]) ∧
  (k ← w_waiting; k ← w_ticks 10 k; OnTaskWait_end 0 k) = Panic PANIC_ASSERT.
Proof. split_and!; vm_compute; reflexivity. Qed.
End KernelHrtExamples.
