(* ===== verification/Buffer.v ===== *)
(** * Memory buffers

    A buffer is a list of bytes (or cells); this file holds what the message
    queue shares with other circular buffers: copying into a region of
    a buffer and the arithmetic of the ring indices. *)

From S2P Require Import Prelude.

(** [STK_MEMCPY(buf + k, src, length src)]. *)

Definition splice {A} (k : nat) (src buf : list A) : list A := take k buf ++ src ++ drop (k + length src) buf.

Lemma length_splice {A} k (src buf : list A) : k + length src ≤ length buf → length (splice k src buf) = length buf.
Proof. intros. unfold splice. rewrite !length_app, length_take, length_drop. lia. Qed.
Lemma lookup_splice {A} k (src buf : list A) x : k + length src ≤ length buf →
  splice k src buf !! x = if decide (k ≤ x < k + length src) then src !! (x - k) else buf !! x.
Proof.
  intros H. unfold splice. destruct (decide (x < k)).
  - rewrite decide_False by lia. rewrite lookup_app_l by (rewrite length_take; lia). by apply lookup_take_lt.
  - rewrite lookup_app_r by (rewrite length_take; lia). rewrite length_take, Nat.min_l by lia. case_decide.
    + by rewrite lookup_app_l by lia.
    + rewrite lookup_app_r by lia. rewrite lookup_drop. f_equal. lia.
Qed.
Lemma take_drop_ext {A} n k k' (l l' : list A) : (∀ x, x < n → l !! (k + x) = l' !! (k' + x)) →
  take n (drop k l) = take n (drop k' l').
Proof.
  intros H. apply list_eq. intros x. destruct (decide (x < n)).
  - rewrite !lookup_take_lt, !lookup_drop by done. by apply H.
  - rewrite !lookup_take_ge by lia. done.
Qed.

(** Indices of a circular buffer of [c] slots. *)
Lemma mod_ring a b c : a < c → b ≤ c → (a + b) `mod` c = if decide (a + b < c) then a + b else a + b - c.
Proof.
  intros. case_decide; [by apply Nat.mod_small|]. symmetry. apply (Nat.mod_unique _ _ 1); lia.
Qed.

(** ** Flat rings

    A circular buffer of [S] bytes: [n] bytes from position [T] on, and writing
    bytes from position [H] on, in one or two copies. *)
Definition ring_read {A} (S T n : nat) (buf : list A) : list A :=
  if decide (n ≤ S - T) then take n (drop T buf) else take (S - T) (drop T buf) ++ take (n - (S - T)) (drop 0 buf).
Definition ring_write {A} (S H : nat) (x buf : list A) : list A :=
  if decide (length x ≤ S - H) then splice H x buf
  else splice 0 (drop (S - H) x) (splice H (take (S - H) x) buf).

Lemma length_ring_read {A} S T n (buf : list A) : length buf = S → T < S → n ≤ S → length (ring_read S T n buf) = n.
Proof. intros E HT Hn. unfold ring_read. case_decide; rewrite ?length_app, ?length_take, ?length_drop; lia. Qed.
Lemma length_ring_write {A} S H (x buf : list A) : length buf = S → H < S → length x ≤ S → length (ring_write S H x buf) = S.
Proof.
  intros E HH Hx. unfold ring_write. case_decide; [rewrite length_splice; lia|].
  rewrite !length_splice; [done|rewrite length_take; lia|rewrite length_splice, length_drop; [lia|rewrite length_take; lia]].
Qed.
Lemma lookup_ring_read {A} S T n (buf : list A) i : length buf = S → T < S → n ≤ S → i < n →
  ring_read S T n buf !! i = buf !! ((T + i) `mod` S).
Proof.
  intros E HT Hn Hi. rewrite mod_ring by lia. unfold ring_read. case_decide.
  - rewrite lookup_take_lt, lookup_drop, decide_True by lia. done.
  - destruct (decide (T + i < S)).
    + rewrite lookup_app_l by (rewrite length_take, length_drop; lia). rewrite lookup_take_lt, lookup_drop by lia. done.
    + rewrite lookup_app_r by (rewrite length_take, length_drop; lia). rewrite length_take, length_drop.
      rewrite lookup_take_lt, lookup_drop by lia. f_equal. lia.
Qed.
Lemma lookup_ring_write {A} S H (x buf : list A) p : length buf = S → H < S → length x ≤ S → p < S →
  ring_write S H x buf !! p =
  if decide ((p + (S - H)) `mod` S < length x) then x !! ((p + (S - H)) `mod` S) else buf !! p.
Proof.
  intros E HH Hx Hp. rewrite mod_ring by lia. unfold ring_write. case_decide.
  - rewrite lookup_splice by lia. repeat case_decide; try lia; try done; f_equal; lia.
  - assert (Hs : length (splice H (take (S - H) x) buf) = S) by (rewrite length_splice; [done|rewrite length_take; lia]).
    rewrite lookup_splice by (rewrite Hs, length_drop; lia).
    rewrite lookup_splice by (rewrite length_take; lia). rewrite length_drop, length_take.
    repeat case_decide; try lia; try done; rewrite ?lookup_drop, ?lookup_take_lt by lia; try (f_equal; lia).
Qed.

(** What was written is read behind what was there. *)
Lemma ring_read_write {A} S T C (x buf : list A) : length buf = S → T < S → C + length x ≤ S →
  ring_read S T (C + length x) (ring_write S ((T + C) `mod` S) x buf) = ring_read S T C buf ++ x.
Proof.
  intros E HT HC. assert (HH : (T + C) `mod` S < S) by (apply Nat.mod_upper_bound; lia).
  assert (El : length (ring_write S ((T + C) `mod` S) x buf) = S) by (apply length_ring_write; lia).
  apply list_eq_same_length with (C + length x).
  - rewrite length_app, length_ring_read by lia. done.
  - by rewrite length_ring_read by lia.
  - intros i a b Hi. rewrite lookup_ring_read by lia. rewrite lookup_ring_write by (apply Nat.mod_upper_bound || lia; lia).
    rewrite (mod_ring T i), (mod_ring T C) by lia. destruct (decide (i < C)).
    + rewrite lookup_app_l, lookup_ring_read, (mod_ring T i) by (rewrite ?length_ring_read; lia).
      rewrite decide_False; [congruence|]. repeat case_decide; rewrite ?mod_ring by lia; repeat case_decide; lia.
    + rewrite lookup_app_r, length_ring_read by (rewrite ?length_ring_read; lia).
      assert (Ei : ((if decide (T + i < S) then T + i else T + i - S) + (S - (if decide (T + C < S) then T + C else T + C - S))) `mod` S = i - C).
      { repeat case_decide; rewrite mod_ring by lia; case_decide; lia. }
      rewrite Ei, decide_True by lia. congruence.
Qed.
Lemma ring_read_app {A} S T a b (buf : list A) : length buf = S → T < S → a + b ≤ S →
  ring_read S T (a + b) buf = ring_read S T a buf ++ ring_read S ((T + a) `mod` S) b buf.
Proof.
  intros E HT Hab. assert (HH : (T + a) `mod` S < S) by (apply Nat.mod_upper_bound; lia).
  apply list_eq_same_length with (a + b).
  - by rewrite length_app, !length_ring_read by lia.
  - by rewrite length_ring_read by lia.
  - intros i x y Hi. rewrite lookup_ring_read by lia. destruct (decide (i < a)).
    + rewrite lookup_app_l, lookup_ring_read by (rewrite ?length_ring_read; lia). congruence.
    + rewrite lookup_app_r, length_ring_read, lookup_ring_read by (rewrite ?length_ring_read; lia).
      rewrite (Nat.Div0.add_mod_idemp_l (T + a)). replace (T + a + (i - a)) with (T + i) by lia. congruence.
Qed.
