(* ===== verification/Monitor.v ===== *)
(** * Synchronization primitives as monitors ([SyncObjectBase] of [stk_helper.h])

    Every primitive of [sync/] is a set of fields and wait lists that is only
    touched inside the critical section.  A call runs one atomic segment up to
    the point where it returns or blocks on a wait list; a blocked call goes on,
    with the result of its wait, in a segment of its own after the kernel has
    taken its task off the list.  Between the two any number of other segments
    may run: a task that was signalled has to re-enter the critical section.

    This file gives the wait lists with the kernel's services on them, the form
    of a primitive ([Primitive]), the interleaved runs of its segments ([run])
    and what holds of the waiting tasks in every run ([wf]).  What the services
    mean in terms of the kernel is shown in [KernelBehaviour.v] (waits and
    signals) and, for the wait lists, in [KernelSync.v]. *)

From S2P Require Import Prelude KernelTask.
Import KTask.
Local Open Scope Z_scope.

Module Monitor.

(** ** Wait lists *)

(** The caller of a segment: its task id, the tick count and whether it is an
    interrupt handler. *)
Record ctx := mkCtx { c_tid : Z; c_now : Z; c_isr : bool }.

(** The other services a primitive calls, in order: [InheritWeight(tid, weight)]
    and [RestoreWeight(tid, sobj)], the latter with whether an object was given. *)
Inductive svc := SvcInheritWeight (tid weight : Z) | SvcRestoreWeight (tid : Z) (with_obj : bool).

(** The members of a primitive, the wait list of each of its synchronization
    objects, and the tasks that were taken off a list but have not yet returned
    from [Wait], with the result of their wait. *)
Record Mon (F : Type) := mkMon {
  fields : F;
  lists : gmap nat (list Z);
  woken : gmap Z EWaitResult;
  services : list svc;
}.
Global Arguments mkMon {F}.
Global Arguments fields {F}.
Global Arguments lists {F}.
Global Arguments woken {F}.
Global Arguments services {F}.

Section lists.
Context {F : Type}.
Implicit Types m : Mon F.

Definition init (f : F) : Mon F := mkMon f ∅ ∅ [].
Definition set_fields (f : F) m : Mon F := mkMon f (lists m) (woken m) (services m).
Definition service (s : svc) m : Mon F := mkMon (fields m) (lists m) (woken m) (services m ++ [s]).

Definition wait_list (cv : nat) m : list Z := default [] (lists m !! cv).
Definition IsEmpty (cv : nat) m : bool := match wait_list cv m with [] => true | _ => false end.

(** [ISyncObject::AddWaitObject]. *)
Definition AddWaitObject (cv : nat) (t : Z) m : Mon F :=
  mkMon (fields m) (<[cv := wait_list cv m ++ [t]]> (lists m)) (woken m) (services m).
(** A waiting task leaves its list with a result. *)
Definition RemoveWaitObject (cv : nat) (t : Z) (r : EWaitResult) m : Mon F :=
  mkMon (fields m) (<[cv := list_remove1 t (wait_list cv m)]> (lists m)) (<[t := r]> (woken m)) (services m).

(** [SyncObjectBase::WakeOne], [SyncObjectBase::WakeAll]. *)
Definition WakeOne (cv : nat) m : Mon F :=
  match wait_list cv m with
  | [] => m
  | t :: l => mkMon (fields m) (<[cv := l]> (lists m)) (<[t := WAIT_RESULT_SIGNAL]> (woken m)) (services m)
  end.
Definition WakeAll (cv : nat) m : Mon F := Nat.iter (length (wait_list cv m)) (WakeOne cv) m.

(** A task whose wait ended returns from [Wait]. *)
Definition take_woken (t : Z) m : Mon F := mkMon (fields m) (lists m) (delete t (woken m)) (services m).

(** The first waiter, whose task a mutex makes its owner. *)
Definition FirstWaiter (cv : nat) m : res Z := deref (head (wait_list cv m)).
End lists.

(** [ConditionVariable::NotifyOne_CS] and [NotifyAll_CS] are [WakeOne] and
    [WakeAll]; [ConditionVariable::WaitEx(mutex, timeout_ticks)] waits ([true])
    or gives up at once. *)
Definition CV_WaitEx (cx : ctx) (timeout_ticks : Z) : res bool :=
  if negb (timeout_ticks =? NO_WAIT) then assert! negb (c_isr cx); Ok true else Ok false.

(** [static_cast<Timeout>(x)]: to 32 bits, two's complement. *)
Definition to_Timeout (x : Z) : Z := (x + 2 ^ 31) `mod` 2 ^ 32 - 2 ^ 31.
Lemma to_Timeout_id x : in_i32 x → to_Timeout x = x.
Proof. unfold in_i32, INT32_MIN, INT32_MAX, to_Timeout. intros. rewrite Z.mod_small; lia. Qed.

Definition is_timed (timeout_ticks : Z) : bool := negb (timeout_ticks =? WAIT_INFINITE) && negb (timeout_ticks =? NO_WAIT).

(** Waiting in a loop until a deadline, as [MessageQueue] and [EventFlagsT] do: the
    deadline and what is left of it are 32-bit tick counts. *)
Definition deadline32 (cx : ctx) (timeout_ticks : Z) : Z :=
  if is_timed timeout_ticks then to_Timeout (c_now cx + timeout_ticks) else timeout_ticks.
Definition remaining32 (cx : ctx) (timeout_ticks deadline : Z) : res Z :=
  if is_timed timeout_ticks then
    let now := to_Timeout (c_now cx) in
    if now >=? deadline then Ok NO_WAIT else i32 (deadline - now)
  else Ok deadline.
(** One turn of such a loop: the wait is over with a result, or the task waits
    for some time. *)
Definition cv_wait32 (cx : ctx) (timeout_ticks deadline : Z) : res (EWaitResult + Z) :=
  rem ← remaining32 cx timeout_ticks deadline;
  wait ← CV_WaitEx cx rem;
  Ok (if (wait : bool) then inr rem else inl WAIT_RESULT_TIMEOUT).

(** The tick counts for which the 32-bit deadline arithmetic is exact. *)
Definition in_range (cx : ctx) : Prop := 0 ≤ c_now cx ≤ INT32_MAX.
Lemma deadline32_range cx to : in_i32 to → in_i32 (deadline32 cx to).
Proof.
  intros Ht. unfold deadline32. destruct (is_timed to); [|done]. unfold to_Timeout, in_i32, INT32_MIN, INT32_MAX.
  pose proof (Z.mod_pos_bound (c_now cx + to + 2 ^ 31) (2 ^ 32)). lia.
Qed.
Lemma remaining32_ok cx to d : in_range cx → in_i32 d → ∃ rem, remaining32 cx to d = Ok rem.
Proof.
  unfold remaining32, in_range, in_i32, INT32_MIN, INT32_MAX. intros. destruct (is_timed to); [|eauto]. cbv zeta.
  rewrite to_Timeout_id by (unfold in_i32, INT32_MIN, INT32_MAX; lia).
  destruct (_ >=? _) eqn:E; [eauto|]. unfold i32. rewrite bool_decide_eq_true_2; [eauto|]. unfold in_i32, INT32_MIN, INT32_MAX. lia.
Qed.
Lemma cv_wait32_ok cx to d : c_isr cx = false → in_range cx → in_i32 d → ∃ w, cv_wait32 cx to d = Ok w.
Proof.
  intros Hi Hr Hd. unfold cv_wait32. destruct (remaining32_ok cx to d Hr Hd) as [rem ->]. cbn [mbind res_bind].
  unfold CV_WaitEx. rewrite Hi. destruct (negb (_ =? _)); cbn; eauto.
Qed.
Lemma cv_wait32_cases cx to d w : cv_wait32 cx to d = Ok w → w = inl WAIT_RESULT_TIMEOUT ∨ c_isr cx = false ∧ ∃ rem, w = inr rem.
Proof.
  unfold cv_wait32, CV_WaitEx. destruct (remaining32 cx to d) as [rem|]; cbn; [|done].
  destruct (negb (_ =? _)); cbn; [destruct (c_isr cx); cbn; [done|]; intros [= <-]; right; eauto|intros [= <-]; by left].
Qed.

(** ** Primitives *)

(** How a segment ends: the call returns, or its task waits. *)
Inductive outcome (P R : Type) := Done (r : R) | Blocked (timeout : Z) (p : P).
Global Arguments Done {P R}.
Global Arguments Blocked {P R}.

Record Primitive := mkPrimitive {
  p_fields : Type;
  p_call : Type;                   (* calls with their arguments *)
  p_pc : Type;                     (* where a blocked call goes on *)
  p_ret : Type;
  p_cv : p_pc → nat;               (* the object it waits for *)
  p_enter : ctx → p_call → Mon p_fields → res (Mon p_fields * outcome p_pc p_ret);
  p_resume : ctx → p_pc → EWaitResult → Mon p_fields → res (Mon p_fields * outcome p_pc p_ret);
}.

Section runs.
Context (P : Primitive).
Notation M := (Mon (p_fields P)).
Implicit Types m : M.

(** A primitive and the calls that are blocked on it. *)
Record World := mkWorld { w_mon : M; w_susp : gmap Z (p_pc P) }.
Implicit Types w : World.

Inductive label :=
| LCall (t : Z) (c : p_call P) (o : option (p_ret P))
| LResume (t : Z) (p : p_pc P) (r : EWaitResult) (o : option (p_ret P))
| LAbort (t : Z) (r : EWaitResult).
Implicit Types tr : list label.

Definition returned (o : outcome (p_pc P) (p_ret P)) : option (p_ret P) :=
  match o with Done r => Some r | Blocked _ _ => None end.
Definition finish (t : Z) m (o : outcome (p_pc P) (p_ret P)) (susp : gmap Z (p_pc P)) : World :=
  match o with
  | Done _ => mkWorld m susp
  | Blocked _ p => mkWorld (AddWaitObject (p_cv P p) t m) (<[t := p]> susp)
  end.

(** One segment, or the end of a wait by timeout or cancellation.  [pre] says
    which calls the program makes, given the run so far. *)
Inductive step (pre : list label → ctx → p_call P → Prop) (tr : list label) : World → label → World → Prop :=
| step_call w cx c m o : pre tr cx c → (c_isr cx = false → w_susp w !! c_tid cx = None) →
    p_enter P cx c (w_mon w) = Ok (m, o) →
    step pre tr w (LCall (c_tid cx) c (returned o)) (finish (c_tid cx) m o (w_susp w))
| step_resume w cx p r m o : c_isr cx = false → w_susp w !! c_tid cx = Some p →
    woken (w_mon w) !! c_tid cx = Some r →
    p_resume P cx p r (take_woken (c_tid cx) (w_mon w)) = Ok (m, o) →
    step pre tr w (LResume (c_tid cx) p r (returned o)) (finish (c_tid cx) m o (delete (c_tid cx) (w_susp w)))
| step_abort w t p r : r = WAIT_RESULT_TIMEOUT ∨ r = WAIT_RESULT_CANCELED → w_susp w !! t = Some p →
    t ∈ wait_list (p_cv P p) (w_mon w) →
    step pre tr w (LAbort t r) (mkWorld (RemoveWaitObject (p_cv P p) t r (w_mon w)) (w_susp w)).

Lemma step_weaken (pre pre' : list label → ctx → p_call P → Prop) tr w l w' : (∀ cx c, pre tr cx c → pre' tr cx c) →
  step pre tr w l w' → step pre' tr w l w'.
Proof. intros H []; [apply step_call; auto|by apply step_resume|by apply step_abort]. Qed.

Inductive run (pre : list label → ctx → p_call P → Prop) (w0 : World) : list label → World → Prop :=
| run_nil : run pre w0 [] w0
| run_step tr w l w' : run pre w0 tr w → step pre tr w l w' → run pre w0 (tr ++ [l]) w'.
Lemma run_weaken (pre pre' : list label → ctx → p_call P → Prop) w0 tr w : (∀ tr cx c, pre tr cx c → pre' tr cx c) → run pre w0 tr w → run pre' w0 tr w.
Proof. intros H. induction 1 as [|tr w l w' H1 IH H2]; [constructor|]. eapply run_step; [exact IH|]. apply (step_weaken pre); [intros cx c; apply H|done]. Qed.
End runs.
Global Arguments mkWorld {P}.
Global Arguments w_mon {P}.
Global Arguments w_susp {P}.
Global Arguments LCall {P}.
Global Arguments LResume {P}.
Global Arguments LAbort {P}.
Global Arguments step {P}.
Global Arguments step_weaken {P}.
Global Arguments run {P}.
Global Arguments run_weaken {P}.
Global Arguments returned {P}.
Global Arguments finish {P}.

(** ** The wait lists change as the services say *)

Section list_lemmas.
Context {F : Type}.
Implicit Types m : Mon F.

Lemma wait_list_insert m f cv cv' l W sv :
  wait_list (F := F) cv' (mkMon f (<[cv := l]> (lists m)) W sv) = if decide (cv = cv') then l else wait_list cv' m.
Proof. unfold wait_list. cbn. case_decide; subst; [by rewrite lookup_insert_eq|by rewrite lookup_insert_ne]. Qed.

Lemma wait_list_Add m cv cv' t :
  wait_list cv' (AddWaitObject cv t m) = if decide (cv = cv') then wait_list cv m ++ [t] else wait_list cv' m.
Proof. apply wait_list_insert. Qed.
Lemma wait_list_Remove m cv cv' t r : wait_list cv' (RemoveWaitObject cv t r m) =
  if decide (cv = cv') then list_remove1 t (wait_list cv m) else wait_list cv' m.
Proof. apply wait_list_insert. Qed.
Lemma wait_list_WakeOne m cv cv' :
  wait_list cv' (WakeOne cv m) = if decide (cv = cv') then tail (wait_list cv m) else wait_list cv' m.
Proof.
  unfold WakeOne. destruct (wait_list cv m) as [|t l] eqn:E; [case_decide; [by subst|done]|]. apply wait_list_insert.
Qed.
Lemma woken_WakeOne m cv t : woken (WakeOne cv m) !! t =
  if decide (head (wait_list cv m) = Some t) then Some WAIT_RESULT_SIGNAL else woken m !! t.
Proof.
  unfold WakeOne. destruct (wait_list cv m) as [|u l] eqn:E; cbn; [done|].
  destruct (decide (u = t)) as [->|Hne]; [by rewrite lookup_insert_eq, decide_True|].
  rewrite lookup_insert_ne, decide_False by congruence. done.
Qed.
Lemma fields_WakeOne m cv : fields (WakeOne cv m) = fields m.
Proof. unfold WakeOne. by destruct (wait_list cv m). Qed.
Lemma services_WakeOne m cv : services (WakeOne cv m) = services m.
Proof. unfold WakeOne. by destruct (wait_list cv m). Qed.

Lemma WakeAll_nil m cv : wait_list cv m = [] → WakeAll cv m = m.
Proof. unfold WakeAll. by intros ->. Qed.
Lemma WakeAll_cons m cv t l : wait_list cv m = t :: l → WakeAll cv m = WakeAll cv (WakeOne cv m).
Proof.
  intros E. assert (E' : wait_list cv (WakeOne cv m) = l) by (rewrite wait_list_WakeOne, decide_True, E; done).
  unfold WakeAll. rewrite E, E'. cbn [length]. apply Nat.iter_succ_r.
Qed.

(** Induction over the waiters that [WakeAll] wakes. *)
Lemma WakeAll_ind cv (Q : Mon F → Mon F → Prop) :
  (∀ m, wait_list cv m = [] → Q m m) →
  (∀ m m' t l, wait_list cv m = t :: l → Q (WakeOne cv m) m' → Q m m') → ∀ m, Q m (WakeAll cv m).
Proof.
  intros H0 HS m. remember (wait_list cv m) as l eqn:E. symmetry in E. revert m E.
  induction l as [|t l IH]; intros m E; [rewrite WakeAll_nil by done; by apply H0|].
  rewrite (WakeAll_cons m cv t l E). eapply HS; [done|]. apply IH. by rewrite wait_list_WakeOne, decide_True, E.
Qed.

Lemma wait_list_WakeAll m cv cv' : wait_list cv' (WakeAll cv m) = if decide (cv = cv') then [] else wait_list cv' m.
Proof.
  apply (WakeAll_ind cv (λ m m', wait_list cv' m' = if decide (cv = cv') then [] else wait_list cv' m)); clear m.
  - intros m E. by case_decide; subst.
  - intros m m' t l E ->. case_decide; [done|]. by rewrite wait_list_WakeOne, decide_False.
Qed.
Lemma woken_WakeAll m cv t : woken (WakeAll cv m) !! t =
  if decide (t ∈ wait_list cv m) then Some WAIT_RESULT_SIGNAL else woken m !! t.
Proof.
  assert (H : (t ∈ wait_list cv m → woken (WakeAll cv m) !! t = Some WAIT_RESULT_SIGNAL) ∧
              (t ∉ wait_list cv m → woken (WakeAll cv m) !! t = woken m !! t)).
  { apply (WakeAll_ind cv (λ m m', (t ∈ wait_list cv m → woken m' !! t = Some WAIT_RESULT_SIGNAL) ∧
                                   (t ∉ wait_list cv m → woken m' !! t = woken m !! t))); clear m.
    - intros m E. rewrite E. split; [by intros ?%not_elem_of_nil|done].
    - intros m m' u l E. rewrite wait_list_WakeOne, woken_WakeOne, decide_True, E by done. cbn [tail head]. intros [H1 H2].
      split; [intros Hin|intros [Hu Hl]%not_elem_of_cons].
      + destruct (decide (t ∈ l)); [by apply H1|]. apply elem_of_cons in Hin as [->|?]; [|done].
        rewrite H2 by done. by rewrite decide_True.
      + rewrite H2 by done. by rewrite decide_False by congruence. }
  case_decide; by apply H.
Qed.
Lemma fields_WakeAll m cv : fields (WakeAll cv m) = fields m.
Proof. apply (WakeAll_ind cv (λ m m', fields m' = fields m)); [done|]. intros ???? _ ->. apply fields_WakeOne. Qed.
Lemma services_WakeAll m cv : services (WakeAll cv m) = services m.
Proof. apply (WakeAll_ind cv (λ m m', services m' = services m)); [done|]. intros ???? _ ->. apply services_WakeOne. Qed.

Lemma IsEmpty_spec cv m : IsEmpty cv m = true ↔ wait_list cv m = [].
Proof. unfold IsEmpty. by destruct (wait_list cv m). Qed.
End list_lemmas.

(** What a segment may do to the wait lists: wake waiters, in order. *)
Inductive evolves {F} : Mon F → Mon F → Prop :=
| evolves_same m m' : lists m' = lists m → woken m' = woken m → evolves m m'
| evolves_wake cv m m' : evolves (WakeOne cv m) m' → evolves m m'.

Lemma evolves_refl {F} (m : Mon F) : evolves m m.
Proof. by apply evolves_same. Qed.

(** The lists determine what [WakeOne] does to them. *)
Lemma wake_congr {F} cv (m1 m2 : Mon F) : lists m1 = lists m2 → woken m1 = woken m2 →
  lists (WakeOne cv m1) = lists (WakeOne cv m2) ∧ woken (WakeOne cv m1) = woken (WakeOne cv m2).
Proof.
  intros E1 E2. unfold WakeOne, wait_list. rewrite E1. destruct (default [] (lists m2 !! cv)); cbn; [by rewrite E1|].
  by rewrite E2.
Qed.
Lemma evolves_congr_l {F} (m1 m2 m' : Mon F) : lists m1 = lists m2 → woken m1 = woken m2 → evolves m1 m' → evolves m2 m'.
Proof.
  intros E1 E2 H. revert m2 E1 E2. induction H as [m m' H1 H2|cv m m' H IH]; intros m2 E1 E2.
  - apply evolves_same; congruence.
  - apply (evolves_wake cv). destruct (wake_congr cv m m2 E1 E2). by apply IH.
Qed.
Lemma evolves_trans {F} (m1 m2 m3 : Mon F) : evolves m1 m2 → evolves m2 m3 → evolves m1 m3.
Proof.
  induction 1 as [m m' H1 H2|cv m m' H IH]; intros H3; [by eapply evolves_congr_l|].
  apply (evolves_wake cv). by apply IH.
Qed.
(** The same wait lists with other members. *)
Lemma evolves_lift {F F'} (m x : Mon F) : ∀ (m1 x1 : Mon F'), lists m1 = lists m → woken m1 = woken m →
  lists x1 = lists x → woken x1 = woken x → evolves m x → evolves m1 x1.
Proof.
  intros m1 x1 E1 E2 E3 E4 H. revert m1 E1 E2. induction H as [m m' H1 H2|cv m m' H IH]; intros m1 E1 E2.
  - apply evolves_same; congruence.
  - apply (evolves_wake cv), IH; try done; unfold WakeOne, wait_list; rewrite E1; destruct (default [] (lists m !! cv)); cbn; congruence.
Qed.
Lemma evolves_One {F} cv (m : Mon F) : evolves m (WakeOne cv m).
Proof. apply (evolves_wake cv), evolves_refl. Qed.
Lemma evolves_All {F} cv (m : Mon F) : evolves m (WakeAll cv m).
Proof.
  apply (WakeAll_ind cv evolves); [intros; apply evolves_refl|]. intros m0 m' t l _. apply evolves_wake.
Qed.
Lemma evolves_fields {F} f (m m' : Mon F) : evolves m m' → evolves m (set_fields f m').
Proof. intros H. eapply evolves_trans; [exact H|]. by apply evolves_same. Qed.
Lemma evolves_service {F} s (m m' : Mon F) : evolves m m' → evolves m (service s m').
Proof. intros H. eapply evolves_trans; [exact H|]. by apply evolves_same. Qed.
#[export] Hint Resolve evolves_refl evolves_One evolves_All evolves_fields evolves_service : stk.

(** The laws of a primitive: a segment only wakes waiters, and a call made by an
    interrupt handler does not block. *)
Class Lawful (P : Primitive) := {
  enter_evolves cx c m m' o : p_enter P cx c m = Ok (m', o) → evolves m m';
  resume_evolves cx p r m m' o : p_resume P cx p r m = Ok (m', o) → evolves m m';
  enter_isr cx c m m' to p : c_isr cx = true → p_enter P cx c m ≠ Ok (m', Blocked to p);
}.

(** ** What holds of the waiting tasks in every run *)

Section wellformed.
Context {P : Primitive}.
Implicit Types w : World P.

(** A task that is blocked is either on the list of the object it waits for, or
    it was taken off and has a result; and only such tasks are on a list. *)
Record wf_parts (m : Mon (p_fields P)) (susp : gmap Z (p_pc P)) : Prop := {
  wf_nodup cv : NoDup (wait_list cv m);
  wf_listed cv t : t ∈ wait_list cv m → woken m !! t = None ∧ ∃ p, susp !! t = Some p ∧ p_cv P p = cv;
  wf_woken t : is_Some (woken m !! t) → is_Some (susp !! t);
  wf_blocked t p : susp !! t = Some p → is_Some (woken m !! t) ∨ t ∈ wait_list (p_cv P p) m;
}.
Definition wf w : Prop := wf_parts (w_mon w) (w_susp w).

(** A caller that is not blocked has no result waiting for it. *)
Lemma not_woken m (susp : gmap Z (p_pc P)) t : wf_parts m susp → susp !! t = None → woken m !! t = None.
Proof.
  intros H Hn. destruct (woken m !! t) eqn:E; [|done]. destruct (wf_woken m susp H t) as [? ?]; [by rewrite E|congruence].
Qed.

Lemma wf_init f : wf (mkWorld (init f) ∅).
Proof.
  split; cbn; unfold wait_list; cbn; try setoid_rewrite lookup_empty; cbn.
  - constructor.
  - intros ? ? []%not_elem_of_nil.
  - intros ? [? [=]].
  - done.
Qed.

Lemma wf_same m m' susp : wf_parts m susp → lists m' = lists m → woken m' = woken m → wf_parts m' susp.
Proof.
  intros [H1 H2 H3 H4] E1 E2. assert (Ew : ∀ cv, wait_list cv m' = wait_list cv m) by (intros; unfold wait_list; by rewrite E1).
  split; intros *; rewrite ?Ew, ?E2; auto.
Qed.

Lemma wf_WakeOne m susp cv : wf_parts m susp → wf_parts (WakeOne cv m) susp.
Proof.
  intros H. destruct (wait_list cv m) as [|u l] eqn:E; [unfold WakeOne; by rewrite E|].
  destruct H as [H1 H2 H3 H4]. pose proof (H1 cv) as Hn. rewrite E in Hn. apply NoDup_cons in Hn as [Hu Hn].
  assert (Hhd : u ∈ wait_list cv m) by (rewrite E; left). destruct (H2 cv u Hhd) as (Hw & p & Hp & Ep).
  split; intros *; rewrite ?wait_list_WakeOne, ?woken_WakeOne, ?E; cbn [head tail].
  - case_decide; [done|apply H1].
  - case_decide as Hcv; [subst cv0|].
    + intros Ht. rewrite decide_False by (intros [= ->]; done). apply H2. rewrite E. by right.
    + intros Ht. destruct (H2 cv0 t Ht) as (Hwt & q & Hq & Eq). split; [|eauto].
      rewrite decide_False; [done|]. intros [= ->]. rewrite Hp in Hq. injection Hq as <-. congruence.
  - case_decide as Hc; [injection Hc as ->; by rewrite Hp|]. apply H3.
  - intros Ht. case_decide as Hc; [by left|]. destruct (H4 t p0 Ht) as [?|Hl]; [by left|right].
    case_decide as Hcv; [|done]. rewrite <- Hcv, E in Hl. apply elem_of_cons in Hl as [->|?]; [done|done].
Qed.

Lemma wf_evolves m m' susp : wf_parts m susp → evolves m m' → wf_parts m' susp.
Proof.
  intros H E. induction E as [m m' E1 E2|cv m m' E IH]; [by eapply wf_same|]. apply IH, wf_WakeOne, H.
Qed.

Lemma wf_finish t m o susp : wf_parts m susp → susp !! t = None → wf (finish t m o susp).
Proof.
  intros [H1 H2 H3 H4] Hn. destruct o as [r|to p]; [by split|].
  assert (Hw : woken m !! t = None).
  { destruct (woken m !! t) eqn:E; [|done]. destruct (H3 t) as [? ?]; [by rewrite E|congruence]. }
  assert (Hnot : ∀ cv, t ∉ wait_list cv m) by (intros cv (_ & p' & ? & _)%H2; congruence).
  split; cbn [finish w_mon w_susp]; intros *; rewrite ?wait_list_Add.
  - case_decide; [|apply H1]. apply NoDup_app. split_and!; [apply H1| |apply NoDup_singleton].
    intros x Hx ->%list_elem_of_singleton. by apply (Hnot (p_cv P p)).
  - case_decide as Hcv.
    + subst cv. intros [Ht| ->%list_elem_of_singleton]%elem_of_app.
      * destruct (H2 _ _ Ht) as (? & q & ? & ?). split; [done|]. exists q. rewrite lookup_insert_ne by congruence. done.
      * split; [done|]. exists p. by rewrite lookup_insert_eq.
    + intros Ht. destruct (H2 _ _ Ht) as (? & q & ? & ?). split; [done|]. exists q. rewrite lookup_insert_ne by congruence. done.
  - cbn [woken AddWaitObject]. intros Hs. destruct (H3 _ Hs) as [q ?]. rewrite lookup_insert_ne by congruence. eauto.
  - cbn [woken AddWaitObject]. destruct (decide (t = t0)) as [<-|Hne].
    + rewrite lookup_insert_eq. intros [= <-]. right. rewrite decide_True by done. apply elem_of_app. right. by apply list_elem_of_singleton.
    + rewrite lookup_insert_ne by done. intros Ht. destruct (H4 _ _ Ht) as [?|Hl]; [by left|right].
      case_decide; [|done]. apply elem_of_app. left. congruence.
Qed.

Lemma wf_take t p m susp : wf_parts m susp → susp !! t = Some p → is_Some (woken m !! t) →
  wf_parts (take_woken t m) (delete t susp).
Proof.
  intros [H1 H2 H3 H4] Hp Hw.
  assert (Hnot : ∀ cv, t ∉ wait_list cv m) by (intros cv (E & _)%H2; rewrite E in Hw; by destruct Hw).
  split; cbn [take_woken woken]; intros *; change (wait_list ?cv (take_woken t m)) with (wait_list cv m).
  - apply H1.
  - intros Ht. assert (t ≠ t0) by (intros ->; by eapply Hnot). rewrite lookup_delete_ne, lookup_delete_ne by done. by apply H2.
  - destruct (decide (t = t0)) as [<-|Hne]; [rewrite lookup_delete_eq; by intros [? [=]]|].
    rewrite !lookup_delete_ne by done. apply H3.
  - destruct (decide (t = t0)) as [<-|Hne]; [by rewrite lookup_delete_eq|]. rewrite !lookup_delete_ne by done. apply H4.
Qed.

Lemma wf_abort t p r m susp : wf_parts m susp → susp !! t = Some p → t ∈ wait_list (p_cv P p) m →
  wf_parts (RemoveWaitObject (p_cv P p) t r m) susp.
Proof.
  intros [H1 H2 H3 H4] Hp Hl. split; intros *; rewrite ?wait_list_Remove; cbn [woken RemoveWaitObject].
  - case_decide; [apply NoDup_remove1|]; apply H1.
  - intros Ht. assert (Ht' : t0 ∈ wait_list cv m ∧ t0 ≠ t).
    { case_decide as Hcv; [subst; by apply elem_of_remove1 in Ht|]. split; [done|]. intros ->.
      destruct (H2 _ _ Ht) as (_ & q & ? & ?). congruence. }
    destruct Ht' as [Ht' Hne]. rewrite lookup_insert_ne by done. by apply H2.
  - destruct (decide (t = t0)) as [<-|]; [by rewrite Hp|]. rewrite lookup_insert_ne by done. apply H3.
  - intros Ht. destruct (decide (t = t0)) as [<-|Hne]; [left; by rewrite lookup_insert_eq|].
    rewrite lookup_insert_ne by done. destruct (H4 _ _ Ht) as [?|Hl']; [by left|right].
    case_decide as Hcv; [|done]. apply elem_of_remove1. split; [congruence|done].
Qed.

Lemma wf_step `{!Lawful P} pre tr w l w' : wf w → step pre tr w l w' → wf w'.
Proof.
  intros Hw H. destruct H as [w0 cx c m o _ Hn E|w0 cx p r m o Hi Hp Hr E|w0 t p r _ Hp Hl].
  - assert (Hw' : wf_parts m (w_susp w0)) by (eapply wf_evolves; [exact Hw|by eapply enter_evolves]).
    destruct o as [r|to p]; [done|]. destruct (c_isr cx) eqn:Ei; [by apply (enter_isr _ _ _ _ _ _ Ei) in E|].
    apply wf_finish; auto.
  - apply wf_finish; [|by rewrite lookup_delete_eq]. eapply wf_evolves; [|by eapply resume_evolves].
    by eapply wf_take.
  - by apply wf_abort.
Qed.

(** Induction over runs: an invariant of world and history. *)
Lemma run_ind_wf `{!Lawful P} pre f (Inv : list (label P) → World P → Prop) :
  Inv [] (mkWorld (init f) ∅) →
  (∀ tr w l w', wf w → wf w' → Inv tr w → step pre tr w l w' → Inv (tr ++ [l]) w') →
  ∀ tr w, run pre (mkWorld (init f) ∅) tr w → wf w ∧ Inv tr w.
Proof.
  intros H0 HS tr w H. induction H as [|tr w l w' H [IHw IH] Hs]; [split; [apply wf_init|done]|].
  assert (Hw' : wf w') by (by eapply wf_step). exact (conj Hw' (HS _ _ _ _ IHw Hw' IH Hs)).
Qed.
End wellformed.

(** ** Counting *)

(** The sum of [f] over a history. *)
Definition tally {A} (f : A → Z) (l : list A) : Z := foldr (λ x n, f x + n) 0 l.
Lemma tally_snoc {A} (f : A → Z) l x : tally f (l ++ [x]) = tally f l + f x.
Proof. induction l as [|y l IH]; cbn; [lia|]. unfold tally in *. rewrite IH. lia. Qed.

(** The tasks that were signalled and have not yet returned from their wait. *)
Definition in_flight {F} (m : Mon F) : Z := Z.of_nat (size (filter (λ p, p.2 = WAIT_RESULT_SIGNAL) (woken m))).

Definition granted_by (r : EWaitResult) : Z := match r with WAIT_RESULT_SIGNAL => 1 | _ => 0 end.
Lemma granted_by_eq r : granted_by r = if bool_decide (r = WAIT_RESULT_SIGNAL) then 1 else 0.
Proof. by destruct r. Qed.

Lemma in_flight_insert {F} (m : Mon F) W t r (f : F) L sv : woken m = W → W !! t = None →
  in_flight (mkMon f L (<[t := r]> W) sv) = in_flight m + granted_by r.
Proof.
  intros <- Hn. rewrite granted_by_eq. unfold in_flight. cbn [woken]. case_bool_decide as Hr.
  - rewrite map_filter_insert_True by done. rewrite map_size_insert_None; [lia|].
    apply map_lookup_filter_None. left. done.
  - rewrite map_filter_insert_False by done. rewrite delete_id by done. lia.
Qed.
Lemma in_flight_take {F} (m : Mon F) t r : woken m !! t = Some r →
  in_flight (take_woken t m) = in_flight m - granted_by r.
Proof.
  intros Hr. rewrite granted_by_eq. unfold in_flight. cbn [take_woken woken]. rewrite map_filter_delete. case_bool_decide as Hs.
  - assert (Hin : filter (λ p, p.2 = WAIT_RESULT_SIGNAL) (woken m) !! t = Some r) by (by apply map_lookup_filter_Some).
    rewrite map_size_delete, Hin. assert (size (filter (λ p, p.2 = WAIT_RESULT_SIGNAL) (woken m)) ≠ 0%nat).
    { intros Hz. apply map_size_empty_inv in Hz. by rewrite Hz in Hin. }
    lia.
  - rewrite delete_id; [lia|]. apply map_lookup_filter_None. right. intros ? Hx. rewrite Hr in Hx. by injection Hx as <-.
Qed.
Lemma in_flight_init {F} (f : F) : in_flight (init f) = 0.
Proof. reflexivity. Qed.
Lemma in_flight_ext {F} (m m' : Mon F) : woken m' = woken m → in_flight m' = in_flight m.
Proof. unfold in_flight. by intros ->. Qed.
Lemma in_flight_WakeOne {F} (m : Mon F) cv : (∀ t, t ∈ wait_list cv m → woken m !! t = None) →
  in_flight (WakeOne cv m) = in_flight m + (if bool_decide (wait_list cv m = []) then 0 else 1).
Proof.
  unfold WakeOne. destruct (wait_list cv m) as [|t l] eqn:E; intros H; [rewrite bool_decide_eq_true_2 by done; lia|].
  rewrite bool_decide_eq_false_2 by done. apply (in_flight_insert m _ t WAIT_RESULT_SIGNAL); [done|].
  apply H. left.
Qed.

(** The number of entries with a property. *)
Definition count_where {A} (f : Z → A → bool) (susp : gmap Z A) : Z :=
  Z.of_nat (size (filter (λ x, f x.1 x.2 = true) susp)).
Definition b2z (b : bool) : Z := if b then 1 else 0.

Lemma count_insert {A} f (susp : gmap Z A) t p : susp !! t = None →
  count_where f (<[t := p]> susp) = count_where f susp + b2z (f t p).
Proof.
  intros Hn. unfold count_where, b2z. destruct (f t p) eqn:Ef.
  - rewrite map_filter_insert_True by done. rewrite map_size_insert_None; [lia|]. apply map_lookup_filter_None. by left.
  - rewrite map_filter_insert_False by (cbn; congruence). rewrite delete_id by done. lia.
Qed.
Lemma count_delete {A} f (susp : gmap Z A) t p : susp !! t = Some p →
  count_where f (delete t susp) = count_where f susp - b2z (f t p).
Proof.
  intros Hp. assert (H := count_insert f (delete t susp) t p). rewrite insert_delete_id in H by done.
  rewrite H by apply lookup_delete_eq. lia.
Qed.
Lemma count_ext {A} f g (susp : gmap Z A) : (∀ t p, susp !! t = Some p → f t p = g t p) → count_where f susp = count_where g susp.
Proof.
  intros H. unfold count_where. do 2 f_equal. apply map_filter_ext. intros t p Hp. cbn. by rewrite (H t p Hp).
Qed.
(** The property changes at one entry. *)
Lemma count_update {A} f g (susp : gmap Z A) t p : susp !! t = Some p →
  (∀ u q, u ≠ t → susp !! u = Some q → f u q = g u q) →
  count_where g susp = count_where f susp - b2z (f t p) + b2z (g t p).
Proof.
  intros Hp H. assert (E : count_where f (delete t susp) = count_where g (delete t susp)).
  { apply count_ext. intros u q [? ?]%lookup_delete_Some. auto. }
  rewrite !(count_delete _ _ _ _ Hp) in E. lia.
Qed.
Lemma count_nonneg {A} f (susp : gmap Z A) : 0 ≤ count_where f susp.
Proof. unfold count_where. lia. Qed.
Lemma count_pos {A} f (susp : gmap Z A) t p : susp !! t = Some p → f t p = true → 0 < count_where f susp.
Proof.
  intros Hp Hf. pose proof (count_delete f susp t p Hp) as H. rewrite Hf in H. pose proof (count_nonneg f (delete t susp)). cbn in H. lia.
Qed.
Lemma count_pos_inv {A} f (susp : gmap Z A) : 0 < count_where f susp → ∃ t p, susp !! t = Some p ∧ f t p = true.
Proof.
  unfold count_where. intros H. destruct (map_choose (filter (λ x, f x.1 x.2 = true) susp)) as (t & p & Hp).
  { intros E. rewrite E, map_size_empty in H. lia. }
  apply map_lookup_filter_Some in Hp as [? ?]. eauto.
Qed.

(** The number of blocked calls of a kind. *)
Definition blocked_as {A} (f : A → bool) (susp : gmap Z A) : Z := count_where (λ _, f) susp.
Lemma blocked_insert {A} (f : A → bool) susp t p : susp !! t = None →
  blocked_as f (<[t := p]> susp) = blocked_as f susp + (if f p then 1 else 0).
Proof. apply (count_insert (λ _, f)). Qed.
Lemma blocked_delete {A} (f : A → bool) susp t p : susp !! t = Some p →
  blocked_as f (delete t susp) = blocked_as f susp - (if f p then 1 else 0).
Proof. apply (count_delete (λ _, f)). Qed.
Lemma blocked_nonneg {A} (f : A → bool) susp : 0 ≤ blocked_as f susp.
Proof. apply count_nonneg. Qed.
Lemma blocked_pos {A} (f : A → bool) susp t p : susp !! t = Some p → f p = true → 0 < blocked_as f susp.
Proof. apply (count_pos (λ _, f)). Qed.
Lemma blocked_pos_inv {A} (f : A → bool) susp : 0 < blocked_as f susp → ∃ t p, susp !! t = Some p ∧ f p = true.
Proof. apply (count_pos_inv (λ _, f)). Qed.

Lemma blocked_all {A} (f : A → bool) (susp : gmap Z A) : (∀ t p, susp !! t = Some p → f p = true) → blocked_as f susp = Z.of_nat (size susp).
Proof. intros H. unfold blocked_as, count_where. rewrite map_filter_id; [done|]. intros t p Hp. cbn. eauto. Qed.
Lemma blocked_split {A} (f g h : A → bool) susp : (∀ t p, susp !! t = Some p → b2z (f p) = b2z (g p) + b2z (h p)) →
  blocked_as f susp = blocked_as g susp + blocked_as h susp.
Proof.
  unfold blocked_as. induction susp as [|t p susp Hn IH] using map_ind; intros H; [done|].
  rewrite !count_insert, IH by (try done; intros u q Hq; apply (H u); rewrite lookup_insert_ne by congruence; done).
  rewrite (H t p) by apply lookup_insert_eq. lia.
Qed.

(** The number of calls that waited on [cv], were signalled and have not gone on. *)
Section flight.
Context {P : Primitive}.
Implicit Types (m : Mon (p_fields P)) (susp : gmap Z (p_pc P)).

Definition signalled_on (cv : nat) (W : gmap Z EWaitResult) (t : Z) (p : p_pc P) : bool :=
  bool_decide (p_cv P p = cv) && bool_decide (W !! t = Some WAIT_RESULT_SIGNAL).
Definition flight (cv : nat) m susp : Z := count_where (signalled_on cv (woken m)) susp.

Lemma flight_same cv m m' susp : woken m' = woken m → flight cv m' susp = flight cv m susp.
Proof. unfold flight. by intros ->. Qed.
Lemma flight_nonneg cv m susp : 0 ≤ flight cv m susp.
Proof. apply count_nonneg. Qed.
Lemma flight_put cv m m' susp t p r : susp !! t = Some p → woken m !! t = None → woken m' = <[t := r]> (woken m) →
  flight cv m' susp = flight cv m susp + b2z (bool_decide (p_cv P p = cv) && bool_decide (r = WAIT_RESULT_SIGNAL)).
Proof.
  intros Hp Hn E. unfold flight. rewrite (count_update (signalled_on cv (woken m)) (signalled_on cv (woken m')) _ _ _ Hp).
  - unfold signalled_on. rewrite E, Hn, lookup_insert_eq, (bool_decide_eq_false_2 (None = _)) by done. rewrite andb_false_r. cbn [b2z].
    rewrite (bool_decide_ext (Some r = Some WAIT_RESULT_SIGNAL) (r = WAIT_RESULT_SIGNAL)) by (split; congruence). lia.
  - intros u q Hu _. unfold signalled_on. by rewrite E, lookup_insert_ne.
Qed.
Lemma flight_WakeOne cv cv' m susp : wf_parts m susp → flight cv' (WakeOne cv m) susp =
  flight cv' m susp + b2z (bool_decide (cv = cv') && bool_decide (wait_list cv m ≠ [])).
Proof.
  intros Hwf. destruct (wait_list cv m) as [|t l] eqn:E.
  { unfold WakeOne. rewrite E, (bool_decide_eq_false_2 ([] ≠ [])) by (intros H; by apply H). rewrite andb_false_r. cbn. lia. }
  destruct (wf_listed m susp Hwf cv t) as (Hn & p & Hp & Ep); [rewrite E; left|].
  rewrite (flight_put cv' m _ susp t p WAIT_RESULT_SIGNAL Hp Hn) by (unfold WakeOne; by rewrite E).
  by rewrite Ep, (bool_decide_eq_true_2 (t :: l ≠ [])), (bool_decide_eq_true_2 (WAIT_RESULT_SIGNAL = WAIT_RESULT_SIGNAL)).
Qed.
Lemma flight_WakeAll cv cv' m susp : cv ≠ cv' → wf_parts m susp → flight cv' (WakeAll cv m) susp = flight cv' m susp.
Proof.
  intros Hne. apply (WakeAll_ind cv (λ m m', wf_parts m susp → flight cv' m' susp = flight cv' m susp)); [done|].
  intros m0 m' t l _ IH Hwf. rewrite IH by (by apply wf_WakeOne). rewrite flight_WakeOne by done.
  rewrite bool_decide_eq_false_2 by done. cbn. lia.
Qed.
Lemma flight_block cv m susp t p : wf_parts m susp → susp !! t = None →
  flight cv (AddWaitObject (p_cv P p) t m) (<[t := p]> susp) = flight cv m susp.
Proof.
  intros Hwf Hn. unfold flight. rewrite count_insert by done. cbn [woken AddWaitObject]. unfold signalled_on at 2.
  rewrite (not_woken m susp t Hwf Hn), (bool_decide_eq_false_2 (None = _)), andb_false_r by done. cbn. lia.
Qed.
Lemma flight_take cv m susp t p r : susp !! t = Some p → woken m !! t = Some r →
  flight cv (take_woken t m) (delete t susp) =
  flight cv m susp - b2z (bool_decide (p_cv P p = cv) && bool_decide (r = WAIT_RESULT_SIGNAL)).
Proof.
  intros Hp Hr. unfold flight. rewrite (count_ext _ (signalled_on cv (woken m))).
  - rewrite (count_delete _ _ _ _ Hp). unfold signalled_on at 2. rewrite Hr.
    by rewrite (bool_decide_ext (Some r = Some WAIT_RESULT_SIGNAL) (r = WAIT_RESULT_SIGNAL)) by (split; congruence).
  - intros u q [Hu _]%lookup_delete_Some. unfold signalled_on. cbn. by rewrite lookup_delete_ne.
Qed.
Lemma flight_pos cv m susp : 0 < flight cv m susp →
  ∃ t p, susp !! t = Some p ∧ p_cv P p = cv ∧ woken m !! t = Some WAIT_RESULT_SIGNAL.
Proof.
  intros (t & p & Hp & Hs)%count_pos_inv. apply andb_true_iff in Hs as [?%bool_decide_eq_true ?%bool_decide_eq_true]. eauto.
Qed.

(** As long as tasks wait for [cv], the [n] things they wait for all have a task
    that was woken for them. *)
Definition covered (cv : nat) (n : Z) m susp : Prop := wait_list cv m ≠ [] → n ≤ flight cv m susp.

Lemma covered_same cv n n' m m' susp : lists m' = lists m → woken m' = woken m → n' ≤ n → covered cv n m susp → covered cv n' m' susp.
Proof.
  intros E1 E2 Hn Hc. unfold covered, wait_list in *. rewrite E1, (flight_same cv m m') by done. intros Hne. specialize (Hc Hne). lia.
Qed.
Lemma covered_none cv n m susp : n ≤ 0 → covered cv n m susp.
Proof. intros Hn _. pose proof (flight_nonneg cv m susp). lia. Qed.
Lemma covered_WakeOne cv n m susp : wf_parts m susp → covered cv n m susp → covered cv (n + 1) (WakeOne cv m) susp.
Proof.
  intros Hwf Hc Hne. rewrite wait_list_WakeOne, decide_True in Hne by done. rewrite flight_WakeOne by done.
  rewrite bool_decide_eq_true_2 by done. rewrite bool_decide_eq_true_2 by (intros E; by rewrite E in Hne). cbn.
  assert (wait_list cv m ≠ []) as Hne' by (intros E; by rewrite E in Hne). specialize (Hc Hne'). lia.
Qed.
Lemma covered_WakeOne_ne cv cv' n m susp : cv ≠ cv' → wf_parts m susp → covered cv' n m susp → covered cv' n (WakeOne cv m) susp.
Proof.
  intros Hcv Hwf Hc Hne. rewrite wait_list_WakeOne, decide_False in Hne by done. rewrite flight_WakeOne by done.
  rewrite bool_decide_eq_false_2 by done. cbn. specialize (Hc Hne). lia.
Qed.
Lemma covered_WakeAll cv n m susp : covered cv n (WakeAll cv m) susp.
Proof. intros Hne. by rewrite wait_list_WakeAll, decide_True in Hne. Qed.
Lemma covered_WakeAll_ne cv cv' n m susp : cv ≠ cv' → wf_parts m susp → covered cv' n m susp → covered cv' n (WakeAll cv m) susp.
Proof.
  intros Hcv Hwf Hc Hne. rewrite wait_list_WakeAll, decide_False in Hne by done. rewrite flight_WakeAll by done. by apply Hc.
Qed.
Lemma covered_block cv n m susp t p : wf_parts m susp → susp !! t = None → (p_cv P p = cv → n ≤ 0) → covered cv n m susp →
  covered cv n (AddWaitObject (p_cv P p) t m) (<[t := p]> susp).
Proof.
  intros Hwf Hn Hz Hc. unfold covered. rewrite flight_block, wait_list_Add by done. case_decide as E; [|done].
  intros _. specialize (Hz E). pose proof (flight_nonneg cv m susp). lia.
Qed.
Lemma covered_take cv n m susp t p r : susp !! t = Some p → woken m !! t = Some r → covered cv n m susp →
  covered cv (n - b2z (bool_decide (p_cv P p = cv) && bool_decide (r = WAIT_RESULT_SIGNAL))) (take_woken t m) (delete t susp).
Proof. intros Hp Hr Hc Hne. rewrite (flight_take cv m susp t p r) by done. specialize (Hc Hne). lia. Qed.
Lemma covered_abort cv n m susp t p r : wf_parts m susp → susp !! t = Some p → t ∈ wait_list (p_cv P p) m → r ≠ WAIT_RESULT_SIGNAL →
  covered cv n m susp → covered cv n (RemoveWaitObject (p_cv P p) t r m) susp.
Proof.
  intros Hwf Hp Hl Hr Hc. unfold covered. destruct (wf_listed _ _ Hwf _ _ Hl) as (Hn & _).
  rewrite (flight_put cv m _ susp t p r Hp Hn), (bool_decide_eq_false_2 (r = _)), andb_false_r by done. cbn. rewrite Z.add_0_r.
  rewrite wait_list_Remove. case_decide as E; [|done]. intros _. apply Hc. subst cv. intros E. rewrite E in Hl. by apply not_elem_of_nil in Hl.
Qed.
End flight.

(** ** Running a primitive

    The runs of [run] as a function of the scheduling decisions, for concrete
    examples. *)

Section execute.
Context {P : Primitive}.

Inductive action := ACall (cx : ctx) (c : p_call P) | AResume (cx : ctx) | AAbort (t : Z) (r : EWaitResult).

Definition exec_action (preb : list (label P) → ctx → p_call P → bool) (tr : list (label P)) (w : World P) (a : action) :
    option (label P * World P) :=
  match a with
  | ACall cx c =>
      if preb tr cx c && (c_isr cx || match w_susp w !! c_tid cx with None => true | Some _ => false end) then
        match p_enter P cx c (w_mon w) with
        | Ok (m, o) => Some (LCall (c_tid cx) c (returned o), finish (c_tid cx) m o (w_susp w))
        | Panic _ => None
        end
      else None
  | AResume cx =>
      match c_isr cx, w_susp w !! c_tid cx, woken (w_mon w) !! c_tid cx with
      | false, Some p, Some r =>
          match p_resume P cx p r (take_woken (c_tid cx) (w_mon w)) with
          | Ok (m, o) => Some (LResume (c_tid cx) p r (returned o), finish (c_tid cx) m o (delete (c_tid cx) (w_susp w)))
          | Panic _ => None
          end
      | _, _, _ => None
      end
  | AAbort t r =>
      match w_susp w !! t with
      | Some p =>
          if bool_decide ((r = WAIT_RESULT_TIMEOUT ∨ r = WAIT_RESULT_CANCELED) ∧ t ∈ wait_list (p_cv P p) (w_mon w)) then
            Some (LAbort t r, mkWorld (RemoveWaitObject (p_cv P p) t r (w_mon w)) (w_susp w))
          else None
      | None => None
      end
  end.
Fixpoint exec_run (preb : list (label P) → ctx → p_call P → bool) (acts : list action) (tr : list (label P)) (w : World P) :
    option (list (label P) * World P) :=
  match acts with
  | [] => Some (tr, w)
  | a :: acts => '(l, w) ← exec_action preb tr w a; exec_run preb acts (tr ++ [l]) w
  end.

Lemma exec_action_step preb (pre : list (label P) → ctx → p_call P → Prop) tr w a l w' :
  (∀ tr cx c, preb tr cx c = true → pre tr cx c) → exec_action preb tr w a = Some (l, w') → step pre tr w l w'.
Proof.
  intros Hpre. destruct a as [cx c|cx|t r]; cbn [exec_action].
  - destruct (preb tr cx c) eqn:Ep; cbn [andb]; [|done]. destruct (_ || _) eqn:Es; [|done].
    destruct (p_enter P cx c (w_mon w)) as [[m o]|] eqn:E; [|done]. intros [= <- <-].
    apply step_call; [by apply Hpre| |done]. intros Hi. rewrite Hi in Es. cbn in Es. by destruct (w_susp w !! c_tid cx).
  - destruct (c_isr cx) eqn:Ei; [done|]. destruct (w_susp w !! c_tid cx) as [p|] eqn:Ep; [|done].
    destruct (woken (w_mon w) !! c_tid cx) as [r|] eqn:Er; [|done].
    destruct (p_resume P cx p r _) as [[m o]|] eqn:E; [|done]. intros [= <- <-]. by apply step_resume.
  - destruct (w_susp w !! t) as [p|] eqn:Ep; [|done]. case_bool_decide as H; [|done]. intros [= <- <-]. destruct H. by apply step_abort.
Qed.

Lemma exec_run_run preb (pre : list (label P) → ctx → p_call P → Prop) w0 acts : ∀ tr w tr' w',
  (∀ tr cx c, preb tr cx c = true → pre tr cx c) → run pre w0 tr w → exec_run preb acts tr w = Some (tr', w') →
  run pre w0 tr' w'.
Proof.
  induction acts as [|a acts IH]; intros tr w tr' w' Hpre Hr; cbn [exec_run]; [by intros [= <- <-]|].
  destruct (exec_action preb tr w a) as [[l w1]|] eqn:E; cbn; [|done]. apply IH; [done|].
  eapply run_step; [done|]. by eapply exec_action_step.
Qed.

(** The whole of a list of decisions from the start; nothing, if one of them is
    not possible. *)
Definition exec_all (preb : list (label P) → ctx → p_call P → bool) (acts : list action) (w0 : World P) : list (label P) * World P :=
  default ([], w0) (exec_run preb acts [] w0).
Lemma exec_all_run preb (pre : list (label P) → ctx → p_call P → Prop) acts w0 :
  (∀ tr cx c, preb tr cx c = true → pre tr cx c) → run pre w0 (exec_all preb acts w0).1 (exec_all preb acts w0).2.
Proof.
  intros Hpre. unfold exec_all. destruct (exec_run preb acts [] w0) as [[tr w]|] eqn:E; [|apply run_nil].
  by apply (exec_run_run preb pre w0 acts [] w0 tr w Hpre (run_nil _ _ _)).
Qed.
End execute.
Global Arguments action P : clear implicits.
End Monitor.
