(* ===== verification/Semaphore.v ===== *)
(** * Counting semaphore ([SemaphoreT<T>] of [stk_sync_semaphore.h])

    A permit is either in the counter or handed directly to the task that has
    waited longest: [Signal] increments the counter only when nobody waits.
    The theorem counts permits over a whole run. *)

From S2P Require Import Prelude KernelTask Monitor.
Import KTask Monitor.
Local Open Scope Z_scope.

Module Semaphore.

(** [W] is the number of bits of the counter type [T]. *)
Record SemaphoreT := mkSem { m_count : Z; m_count_max : Z }.

Section semaphore.
Context (W : Z).
Definition T_cast (x : Z) : Z := x `mod` 2 ^ W.

Inductive call := CWaitEx (timeout_ticks : Z) | CSignal | CTrySignal | CTrySignalCeiling (ceiling : Z).
Inductive ret := RWait (r : EWaitResult) | RBool (success : bool) | RVoid.
Inductive pc := InWait.
Notation M := (Mon SemaphoreT).

(** [SemaphoreT(initial_count, max_count)]. *)
Definition SemaphoreT_ctor (initial_count max_count : Z) : res SemaphoreT :=
  assert! bool_decide (initial_count ≤ max_count); Ok (mkSem initial_count max_count).

(** [WaitEx(timeout_ticks)], up to the wait. *)
Definition WaitEx (cx : ctx) (timeout_ticks : Z) (m : M) : res (M * outcome pc ret) :=
  let s := fields m in
  if negb (m_count s =? 0) then
    Ok (set_fields (mkSem (T_cast (m_count s - 1)) (m_count_max s)) m, Done (RWait WAIT_RESULT_SIGNAL))
  else if negb (timeout_ticks =? NO_WAIT) then
    assert! negb (c_isr cx);
    Ok (m, Blocked timeout_ticks InWait)
  else Ok (m, Done (RWait WAIT_RESULT_TIMEOUT)).

(** [TrySignalLimited(limit)] and the calls that use it. *)
Definition TrySignalLimited (limit : Z) (m : M) : bool * M :=
  let s := fields m in
  if IsEmpty 0 m then
    if m_count s >=? limit then (false, m)
    else (true, set_fields (mkSem (T_cast (m_count s + 1)) (m_count_max s)) m)
  else (true, WakeOne 0 m).
Definition TrySignal (m : M) : bool * M := TrySignalLimited (m_count_max (fields m)) m.
Definition TrySignalCeiling (ceiling : Z) (m : M) : bool * M :=
  TrySignalLimited (if ceiling <? m_count_max (fields m) then ceiling else m_count_max (fields m)) m.
Definition Signal (m : M) : res M :=
  let '(success, m) := TrySignal m in assert! success; Ok m.

Definition enter (cx : ctx) (c : call) (m : M) : res (M * outcome pc ret) :=
  match c with
  | CWaitEx timeout_ticks => WaitEx cx timeout_ticks m
  | CSignal => m ← Signal m; Ok (m, Done RVoid)
  | CTrySignal => let '(b, m) := TrySignal m in Ok (m, Done (RBool b))
  | CTrySignalCeiling x => let '(b, m) := TrySignalCeiling x m in Ok (m, Done (RBool b))
  end.
(** The wait returned: so does [WaitEx]. *)
Definition resume (cx : ctx) (p : pc) (r : EWaitResult) (m : M) : res (M * outcome pc ret) :=
  Ok (m, Done (RWait r)).

Definition prim : Primitive := mkPrimitive SemaphoreT call pc ret (λ _, 0%nat) enter resume.


Definition GetCount (m : M) : Z := m_count (fields m).

Lemma TrySignal_evolves limit m : evolves m (TrySignalLimited limit m).2.
Proof. unfold TrySignalLimited. destruct (IsEmpty 0 m); [case_match|]; cbn; eauto with stk. Qed.

#[export] Instance sem_lawful : Lawful prim.
Proof.
  split; cbn.
  - intros cx [to| | |ceil] m m' o; cbn [enter].
    + unfold WaitEx. destruct (negb _); [intros [= <- <-]; eauto with stk|]. destruct (negb _); [|intros [= <- <-]; eauto with stk].
      destruct (negb _); cbn; [intros [= <- <-]; eauto with stk|done].
    + unfold Signal. pose proof (TrySignal_evolves (m_count_max (fields m)) m) as H. unfold TrySignal.
      destruct (TrySignalLimited _ m) as [[] m1]; cbn; [intros [= <- <-]; apply H|done].
    + pose proof (TrySignal_evolves (m_count_max (fields m)) m) as H. unfold TrySignal.
      destruct (TrySignalLimited _ m) as [b m1]; cbn. intros [= <- <-]. apply H.
    + unfold TrySignalCeiling. match goal with |- context [TrySignalLimited ?x m] => pose proof (TrySignal_evolves x m) as H; destruct (TrySignalLimited x m) as [b m1] end.
      cbn. intros [= <- <-]. apply H.
  - intros cx p r m m' o [= <- <-]. eauto with stk.
  - intros cx [to| | |ceil] m m' to' p Hi; cbn [enter].
    + unfold WaitEx. rewrite Hi. destruct (negb _); [done|]. by destruct (negb _).
    + unfold Signal. by destruct (TrySignal m) as [[] ?].
    + by destruct (TrySignal m).
    + by destruct (TrySignalCeiling ceil m).
Qed.

(** ** Permits *)

(** Signals that were accepted, and waits that returned with a permit. *)
Definition result_of (l : label prim) : option ret :=
  match l with LCall _ _ o => o | LResume _ _ _ o => o | LAbort _ _ => None end.
Definition signalled (l : label prim) : Z :=
  match result_of l with Some (RBool true) | Some RVoid => 1 | _ => 0 end.
Definition granted (l : label prim) : Z :=
  match result_of l with Some (RWait WAIT_RESULT_SIGNAL) => 1 | _ => 0 end.

Record sem_inv (n0 max : Z) (tr : list (label prim)) (m : M) : Prop := {
  si_balance : n0 + tally signalled tr = m_count (fields m) + tally granted tr + in_flight m;
  si_max : m_count_max (fields m) = max;
  si_range : 0 ≤ m_count (fields m) ≤ max;
  si_empty : wait_list 0 m ≠ [] → m_count (fields m) = 0;
}.

Context (n0 max : Z) (Hmax : 0 ≤ n0 ≤ max) (Hfit : max < 2 ^ W).

Lemma T_cast_id x : 0 ≤ x ≤ max → T_cast x = x.
Proof using Hfit. intros. unfold T_cast. apply Z.mod_small. lia. Qed.

(** A signal adds one permit, to the counter or in flight, or is refused. *)
Lemma signal_balance limit tr m susp : sem_inv n0 max tr m → wf_parts (P := prim) m susp → limit ≤ max →
  let '(b, m') := TrySignalLimited limit m in
  m_count (fields m') + in_flight m' = m_count (fields m) + in_flight m + (if b then 1 else 0) ∧
  m_count_max (fields m') = max ∧ 0 ≤ m_count (fields m') ≤ max ∧ (wait_list 0 m' ≠ [] → m_count (fields m') = 0).
Proof using Hfit.
  intros [_ Em Hr He] Hwf Hl. unfold TrySignalLimited, IsEmpty. destruct (wait_list 0 m) as [|t l] eqn:E.
  - destruct (m_count (fields m) >=? limit) eqn:Eg; [split_and!; try done; lia|]. cbn -[T_cast].
    rewrite T_cast_id by lia. split_and!; try lia; [|by rewrite <- E].
    change (in_flight (set_fields ?f m)) with (in_flight m). lia.
  - pose proof (in_flight_WakeOne m 0 (λ t H, proj1 (wf_listed (P := prim) _ _ Hwf 0 t H))) as Hf. rewrite E, bool_decide_eq_false_2 in Hf by done.
    rewrite Hf, fields_WakeOne. specialize (He ltac:(done)). split_and!; try done; lia.
Qed.

Lemma sem_step tr (w w' : World prim) l : wf w → sem_inv n0 max tr (w_mon w) →
  step (λ _ _ _, True) tr w l w' → sem_inv n0 max (tr ++ [l]) (w_mon w').
Proof using Hfit.
  intros Hw Hi Hs. destruct Hs as [w cx c m o _ Hn E|w cx p r m o _ Hp Hr E|w t p r Hr Hp Hl];
    destruct w as [m0 susp]; cbn [p_fields p_call p_pc p_ret p_cv p_enter p_resume prim w_mon w_susp] in *.
  - assert (Hd : ∀ b limit, limit ≤ max → TrySignalLimited limit m0 = (b, m) →
      sem_inv n0 max (tr ++ [LCall (P := prim) (c_tid cx) c (Some (RBool b))]) m ∧
      (b = true → sem_inv n0 max (tr ++ [LCall (P := prim) (c_tid cx) c (Some RVoid)]) m)).
    { intros b limit Hlim Eb. pose proof (signal_balance limit tr m0 susp Hi Hw Hlim) as H. rewrite Eb in H.
      destruct H as (H1 & H2 & H3 & H4), Hi as [Hb Em Hra He]. split; [|intros ->]; (split; [|done..]); rewrite !tally_snoc; cbn;
        [destruct b|]; lia. }
    destruct c as [to| | |ceil]; cbn [enter] in E.
    + destruct Hi as [Hb Em Hra He]. unfold WaitEx in E. destruct (m_count (fields m0) =? 0) eqn:Ec; cbn [negb] in E.
      * destruct (negb (to =? NO_WAIT)).
        -- destruct (negb (c_isr cx)); [|done]. injection E as <- <-. split; cbn; rewrite ?tally_snoc; cbn; try done; try lia.
           change (in_flight (AddWaitObject _ _ _)) with (in_flight m0). lia.
        -- injection E as <- <-. split; rewrite ?tally_snoc; cbn; try done; lia.
      * injection E as <- <-. apply Z.eqb_neq in Ec. split; rewrite ?tally_snoc; cbn -[T_cast]; rewrite ?T_cast_id by lia; try done; try lia.
        -- change (in_flight (set_fields _ _)) with (in_flight m0). lia.
        -- intros ?. by rewrite He in Ec.
    + unfold Signal, TrySignal in E. destruct (TrySignalLimited _ _) as [[] m1] eqn:Eb; cbn in E; [|done]. injection E as -> <-.
      eapply (Hd true); [|exact Eb|done]. by rewrite (si_max _ _ _ _ Hi).
    + unfold TrySignal in E. destruct (TrySignalLimited _ _) as [b m1] eqn:Eb. injection E as -> <-.
      eapply (Hd b); [|exact Eb]. by rewrite (si_max _ _ _ _ Hi).
    + unfold TrySignalCeiling in E. destruct (TrySignalLimited _ _) as [b m1] eqn:Eb. injection E as -> <-.
      eapply (Hd b); [|exact Eb]. rewrite (si_max _ _ _ _ Hi). destruct (ceil <? max) eqn:?; lia.
  - injection E as <- <-. destruct Hi as [Hb Em Hra He]. split; rewrite ?tally_snoc; cbn; try done.
    rewrite (in_flight_take _ _ _ Hr). destruct r; cbn in *; lia.
  - destruct Hi as [Hb Em Hra He]. split; rewrite ?tally_snoc; cbn; try done.
    + unfold RemoveWaitObject. rewrite (in_flight_insert m0); [|done|apply (wf_listed _ _ Hw _ _ Hl)]. 
      destruct Hr as [-> | ->]; cbn in *; lia.
    + change (wait_list 0 (RemoveWaitObject 0 t r m0) ≠ [] → m_count (fields m0) = 0).
      rewrite wait_list_Remove, decide_True by done. intros _. apply He. intros E0. cbn in Hl. rewrite E0 in Hl. by apply not_elem_of_nil in Hl.
Qed.

(** Only a signal beyond the maximum and a blocking interrupt handler fail. *)
Lemma sem_progress (m : M) cx c : m_count_max (fields m) = max → c_isr cx = false →
  (c = CSignal → m_count (fields m) < max ∨ wait_list 0 m ≠ []) → ∃ m' o, enter cx c m = Ok (m', o).
Proof.
  intros Em Hi Hc. destruct c as [to| | |x]; cbn [enter].
  - unfold WaitEx. rewrite Hi. destruct (negb _); [eauto|]. destruct (negb _); cbn; eauto.
  - unfold Signal, TrySignal, TrySignalLimited, IsEmpty. rewrite Em. destruct (Hc eq_refl) as [?|?].
    + destruct (wait_list 0 m); cbn; [|eauto]. destruct (_ >=? max) eqn:E; [lia|cbn; eauto].
    + destruct (wait_list 0 m); [done|cbn; eauto].
  - destruct (TrySignal _). eauto.
  - destruct (TrySignalCeiling _ _). eauto.
Qed.

(** C20. Permits are conserved.  In every run of a semaphore that starts with n0
    permits, the accepted signals and the n0 initial permits are exactly the
    permits in the counter, those handed to waits that returned, and those on
    their way to a waiter; the counter stays between 0 and its maximum, nobody
    waits while it is positive, and apart from a Signal beyond the maximum and
    a blocking call by an interrupt handler every call returns or blocks. *)
Theorem semaphore_conserves s tr (w : World prim) : SemaphoreT_ctor n0 max = Ok s →
  run (λ _ _ _, True) (mkWorld (P := prim) (init s) ∅) tr w →
  let m := w_mon w in
  n0 + tally signalled tr = m_count (fields m) + tally granted tr + in_flight m ∧
  0 ≤ m_count (fields m) ≤ max ∧ (wait_list 0 m ≠ [] → m_count (fields m) = 0) ∧
  ∀ cx c, c_isr cx = false → (c = CSignal → m_count (fields m) < max ∨ wait_list 0 m ≠ []) →
    ∃ m' o, enter cx c m = Ok (m', o).
Proof using Hfit Hmax.
  intros Es Hrun. unfold SemaphoreT_ctor in Es. rewrite bool_decide_eq_true_2 in Es by lia. injection Es as <-.
  destruct (run_ind_wf (P := prim) (λ _ _ _, True) (mkSem n0 max) (λ tr w, sem_inv n0 max tr (w_mon w))) with (tr := tr) (w := w)
    as [Hw [Hb Em Hr He]]; [|intros ? ? ? ? H1 _ H3 H4; exact (sem_step _ _ _ _ H1 H3 H4)|done|].
  { split; cbn; try done; try lia. rewrite in_flight_init. lia. }
  intros m. split; [exact Hb|split; [exact Hr|split; [exact He|]]]. intros cx c. by apply sem_progress.
Qed.
End semaphore.

(** A 16-bit semaphore with one permit: the second wait blocks until a signal. *)
Definition ex_cx (t : Z) : ctx := mkCtx t 0 false.
Definition ex_world0 : World (prim 16) := mkWorld (P := prim 16) (init (mkSem 1 5)) ∅.
Definition ex_acts : list (action (prim 16)) :=
  [ACall (P := prim 16) (ex_cx 1) (CWaitEx 10); ACall (P := prim 16) (ex_cx 2) (CWaitEx 10); ACall (P := prim 16) (ex_cx 3) (CWaitEx 10);
   AAbort 3 WAIT_RESULT_TIMEOUT; ACall (P := prim 16) (ex_cx 1) CSignal; AResume (ex_cx 2); ACall (P := prim 16) (ex_cx 1) CTrySignal].
Definition ex_end : list (label (prim 16)) * World (prim 16) := exec_all (λ _ _ _, true) ex_acts ex_world0.

Lemma semaphore_conserves_witness : tally (signalled 16) ex_end.1 = 2 ∧ tally (granted 16) ex_end.1 = 2 ∧
  let m := w_mon ex_end.2 in
  1 + tally (signalled 16) ex_end.1 = m_count (fields m) + tally (granted 16) ex_end.1 + in_flight m ∧
  0 ≤ m_count (fields m) ≤ 5 ∧ (wait_list 0 m ≠ [] → m_count (fields m) = 0) ∧
  ∀ cx c, c_isr cx = false → (c = CSignal → m_count (fields m) < 5 ∨ wait_list 0 m ≠ []) →
    ∃ m' o, enter 16 cx c m = Ok (m', o).
Proof.
  split; [vm_compute; reflexivity|]. split; [vm_compute; reflexivity|].
  apply (semaphore_conserves 16 1 5 ltac:(lia) ltac:(lia) (mkSem 1 5) ex_end.1 ex_end.2 eq_refl).
  by apply exec_all_run.
Defined.
End Semaphore.
