(* ===== verification/Mutex.v ===== *)
(** * Recursive mutex ([Mutex] of [stk_sync_mutex.h])

    A locked mutex is handed over: [Unlock] makes the task that has waited
    longest the owner before it wakes it, so nobody can take the mutex in
    between.  [held] counts, over the history of a run, how often a task has
    locked the mutex and not unlocked it. *)

From S2P Require Import Prelude KernelTask Monitor.
Import KTask Monitor.
Local Open Scope Z_scope.

Module Mutex.

Record Mutex := mkMutex { m_owner_tid : Z; m_recursion_count : Z }.
Definition RECURSION_MAX : Z := 0xFFFE.
Definition Mutex_ctor : Mutex := mkMutex TID_NONE 0.

Inductive call := CTimedLockEx (timeout_ticks : Z) | CUnlock.
Inductive ret := RWait (r : EWaitResult) | RVoid.
(** A blocked [TimedLockEx] remembers the owner it has seen. *)
Inductive pc := InTimedLockEx (owner_tid : Z).

Section mutex.
(** [GetUserTaskFromTid(tid)->GetWeight()]. *)
Context (weight : Z → Z).
Notation M := (Mon Mutex).

(** [ISyncObject::FindWeightHigherThan(comp)] on the wait list. *)
Definition FindWeightHigherThan (comp : Z) (m : M) : Z :=
  let max_weight := foldl (λ a t, if weight t >? a then weight t else a) NO_WEIGHT (wait_list 0 m) in
  if max_weight >? comp then max_weight else NO_WEIGHT.

(** [TimedLockEx(timeout_ticks)], up to the wait. *)
Definition TimedLockEx (cx : ctx) (timeout_ticks : Z) (m : M) : res (M * outcome pc ret) :=
  let s := fields m in
  let current_tid := c_tid cx in
  let owner_tid := m_owner_tid s in
  assert! negb (current_tid =? TID_NONE);
  if negb (m_recursion_count s =? 0) && (owner_tid =? current_tid) then
    assert! (m_recursion_count s <? RECURSION_MAX);
    Ok (set_fields (mkMutex owner_tid (u16 (m_recursion_count s + 1))) m, Done (RWait WAIT_RESULT_SIGNAL))
  else if m_recursion_count s =? 0 then
    if negb (owner_tid =? TID_NONE) then Panic PANIC_KERNEL
    else Ok (set_fields (mkMutex current_tid 1) m, Done (RWait WAIT_RESULT_SIGNAL))
  else if negb (timeout_ticks =? NO_WAIT) then
    assert! negb (c_isr cx);
    Ok (service (SvcInheritWeight owner_tid (weight current_tid)) m, Blocked timeout_ticks (InTimedLockEx owner_tid))
  else Ok (m, Done (RWait WAIT_RESULT_TIMEOUT)).

(** [TimedLockEx], after the wait. *)
Definition TimedLockEx_end (cx : ctx) (owner_tid : Z) (result : EWaitResult) (m : M) : res (M * outcome pc ret) :=
  let s := fields m in
  if bool_decide (result ≠ WAIT_RESULT_SIGNAL) then
    assert! negb (m_owner_tid s =? c_tid cx);
    Ok (if owner_tid =? m_owner_tid s then service (SvcRestoreWeight owner_tid true) m else m, Done (RWait result))
  else if negb (m_owner_tid s =? c_tid cx) || negb (m_recursion_count s =? 1) then Panic PANIC_KERNEL
  else Ok (m, Done (RWait result)).

(** [Unlock()]: the part that gives the mutex to the first waiter. *)
Definition HandOver (m : M) : res M :=
  t ← FirstWaiter 0 m;
  let m := set_fields (mkMutex t 1) m in
  let m := WakeOne 0 m in
  Ok (if negb (IsEmpty 0 m) then service (SvcInheritWeight t (FindWeightHigherThan (weight t) m)) m else m).

Definition Unlock (cx : ctx) (m : M) : res M :=
  let s := fields m in
  assert! (m_owner_tid s =? c_tid cx) && negb (m_owner_tid s =? TID_NONE);
  assert! negb (m_recursion_count s =? 0);
  let m := set_fields (mkMutex (m_owner_tid s) (u16 (m_recursion_count s - 1))) m in
  if m_recursion_count (fields m) =? 0 then
    let m := if negb (m_owner_tid s =? TID_NONE) then service (SvcRestoreWeight (m_owner_tid s) false) m else m in
    if negb (IsEmpty 0 m) then HandOver m
    else Ok (set_fields (mkMutex TID_NONE 0) m)
  else Ok m.

(** [Lock()]: what its loop does with the result of [TimedLockEx(WAIT_INFINITE)],
    try again ([None]) or return. *)
Definition Lock_again (result : EWaitResult) : res (option unit) :=
  match result with
  | WAIT_RESULT_CANCELED => Ok None
  | WAIT_RESULT_SIGNAL => Ok (Some ())
  | _ => Panic PANIC_KERNEL
  end.

Definition enter (cx : ctx) (c : call) (m : M) : res (M * outcome pc ret) :=
  match c with
  | CTimedLockEx timeout_ticks => TimedLockEx cx timeout_ticks m
  | CUnlock => m ← Unlock cx m; Ok (m, Done RVoid)
  end.
Definition resume (cx : ctx) (p : pc) (r : EWaitResult) (m : M) : res (M * outcome pc ret) :=
  match p with InTimedLockEx owner_tid => TimedLockEx_end cx owner_tid r m end.

Definition prim : Primitive := mkPrimitive Mutex call pc ret (λ _, 0%nat) enter resume.

Lemma HandOver_evolves m m' : HandOver m = Ok m' → evolves m m'.
Proof.
  unfold HandOver. intros H. destruct (FirstWaiter 0 m) as [t|]; cbn [mbind res_bind] in H; [|done]. injection H as <-.
  assert (evolves m (WakeOne 0 (set_fields (mkMutex t 1) m))) by (eapply evolves_trans; [|apply evolves_One]; eauto with stk).
  case_match; auto with stk.
Qed.
Lemma Unlock_evolves cx m m' : Unlock cx m = Ok m' → evolves m m'.
Proof.
  unfold Unlock. intros H. inv_res. case_match; [|simplify_eq; eauto with stk].
  assert (Hs : evolves m (if negb (m_owner_tid (fields m) =? TID_NONE)
    then service (SvcRestoreWeight (m_owner_tid (fields m)) false) (set_fields (mkMutex (m_owner_tid (fields m)) (u16 (m_recursion_count (fields m) - 1))) m)
    else set_fields (mkMutex (m_owner_tid (fields m)) (u16 (m_recursion_count (fields m) - 1))) m))
    by (destruct (negb _); eauto with stk).
  destruct (negb (IsEmpty _ _)); [|simplify_eq; eauto with stk]. eapply evolves_trans; [exact Hs|]. by eapply HandOver_evolves.
Qed.

#[export] Instance mutex_lawful : Lawful prim.
Proof.
  split; cbn.
  - intros cx [to|] m m' o; cbn [enter].
    + unfold TimedLockEx. intros H. inv_res. repeat case_match; inv_res; eauto with stk.
    + intros H. inv_res. by eapply Unlock_evolves.
  - intros cx [ow] r m m' o. cbn [resume]. unfold TimedLockEx_end. intros H. repeat case_match; inv_res; eauto with stk.
  - intros cx [to|] m m' to' p Hi; cbn [enter]; intros H.
    + unfold TimedLockEx in H. rewrite Hi in H. inv_res. repeat case_match; inv_res; done.
    + inv_res.
Qed.

(** ** Holding the mutex *)

Definition locks (t : Z) (l : label prim) : Z :=
  match l with
  | LCall u (CTimedLockEx _) (Some (RWait WAIT_RESULT_SIGNAL)) => if bool_decide (u = t) then 1 else 0
  | LResume u _ _ (Some (RWait WAIT_RESULT_SIGNAL)) => if bool_decide (u = t) then 1 else 0
  | LCall u CUnlock (Some _) => if bool_decide (u = t) then -1 else 0
  | _ => 0
  end.
Definition held (t : Z) (tr : list (label prim)) : Z := tally (locks t) tr.

(** Only the holder unlocks, and nobody locks more often than the counter can
    tell; interrupt handlers do not use the mutex. *)
Definition mutex_pre (tr : list (label prim)) (cx : ctx) (c : call) : Prop :=
  c_tid cx ≠ TID_NONE ∧ c_isr cx = false ∧
  match c with CTimedLockEx _ => held (c_tid cx) tr < RECURSION_MAX | CUnlock => 0 < held (c_tid cx) tr end.

(** The owner holds the mutex as often as the counter says, unless the mutex is
    on its way to it; nobody else holds it. *)
Record mutex_inv (tr : list (label prim)) (m : M) (susp : gmap Z pc) : Prop := {
  mi_free : m_recursion_count (fields m) = 0 → m_owner_tid (fields m) = TID_NONE ∧ wait_list 0 m = [];
  mi_rec : 0 ≤ m_recursion_count (fields m) ≤ RECURSION_MAX;
  mi_owner : m_recursion_count (fields m) ≠ 0 → m_owner_tid (fields m) ≠ TID_NONE;
  mi_held t : held t tr = if bool_decide (t = m_owner_tid (fields m) ∧ woken m !! t ≠ Some WAIT_RESULT_SIGNAL)
                          then m_recursion_count (fields m) else 0;
  mi_flight t : woken m !! t = Some WAIT_RESULT_SIGNAL → t = m_owner_tid (fields m) ∧ m_recursion_count (fields m) = 1;
  mi_susp t : is_Some (susp !! t) → t ≠ TID_NONE ∧ (t = m_owner_tid (fields m) → woken m !! t = Some WAIT_RESULT_SIGNAL);
}.

Lemma held_snoc t tr l : held t (tr ++ [l]) = held t tr + locks t l.
Proof. apply tally_snoc. Qed.

Lemma lock_inv tr (m m' : M) (susp : gmap Z pc) cx to o : wf_parts (P := prim) m susp → mutex_inv tr m susp → susp !! c_tid cx = None →
  mutex_pre tr cx (CTimedLockEx to) → TimedLockEx cx to m = Ok (m', o) →
  let w' := finish (P := prim) (c_tid cx) m' o susp in
  mutex_inv (tr ++ [LCall (P := prim) (c_tid cx) (CTimedLockEx to) (returned (P := prim) o)]) (w_mon w') (w_susp w').
Proof.
  intros Hwf [Hfree Hrec Hown Hheld Hfl Hsusp] Hn (Ht & Hisr & Hmax) E. set (t := c_tid cx) in *.
  assert (Hw : woken m !! t = None) by (by eapply (not_woken (P := prim))). unfold TimedLockEx in E. fold t in E.
  destruct (t =? TID_NONE) eqn:Et; [by apply Z.eqb_eq in Et|]. cbn [negb stk_assert] in E.
  destruct (m_recursion_count (fields m) =? 0) eqn:Er; cbn [negb andb] in E.
  - apply Z.eqb_eq in Er. destruct (Hfree Er) as [Eo El]. rewrite Eo in *. cbn in E. injection E as <- <-.
    split; cbn; try done; try (unfold RECURSION_MAX; lia).
    + intros u. rewrite held_snoc, Hheld. cbn. rewrite Er.
      destruct (decide (u = t)) as [->|Hne].
      * rewrite (bool_decide_eq_true_2 (t = t ∧ _)) by (by rewrite Hw). rewrite (bool_decide_eq_true_2 (t = t)) by done.
        by rewrite bool_decide_eq_false_2 by (intros [? ?]; congruence).
      * rewrite (bool_decide_eq_false_2 (u = t ∧ _)) by (by intros [? ?]). rewrite (bool_decide_eq_false_2 (t = u)) by done.
        by destruct (bool_decide _).
    + intros u Hu. exfalso. destruct (Hfl u Hu) as [? ?]. lia.
    + intros u [p Hu]. split; [apply Hsusp; eauto|]. intros ->. congruence.
  - apply Z.eqb_neq in Er. destruct (m_owner_tid (fields m) =? t) eqn:Eo.
    + apply Z.eqb_eq in Eo. assert (Hcur : t = m_owner_tid (fields m) ∧ woken m !! t ≠ Some WAIT_RESULT_SIGNAL) by (split; congruence).
      rewrite Hheld, bool_decide_eq_true_2 in Hmax by done.
      rewrite (proj2 (Z.ltb_lt _ _) Hmax) in E. cbn [stk_assert] in E. injection E as <- <-.
      assert (Eu : u16 (m_recursion_count (fields m) + 1) = m_recursion_count (fields m) + 1)
        by (unfold u16, RECURSION_MAX in *; apply Z.mod_small; lia).
      split; cbn [finish w_mon w_susp fields set_fields m_owner_tid m_recursion_count woken]; rewrite ?Eu; try lia; try done.
      * intros u. rewrite held_snoc, Hheld. cbn. destruct (decide (u = t)) as [->|Hne].
        -- rewrite !bool_decide_eq_true_2 by done. lia.
        -- rewrite (bool_decide_eq_false_2 (t = u)) by done. rewrite !bool_decide_eq_false_2 by (intros [? ?]; congruence). lia.
      * intros u Hu. exfalso. destruct (Hfl u Hu) as [-> ?]. congruence.
    + apply Z.eqb_neq in Eo. assert (Hkeep : ∀ o', locks t (LCall (P := prim) t (CTimedLockEx to) o') = 0 → ∀ u, held u (tr ++ [LCall (P := prim) t (CTimedLockEx to) o']) = held u tr).
      { intros o' Hz u. rewrite held_snoc. revert Hz. cbn. destruct o' as [[[]|]|]; try lia.
        rewrite bool_decide_eq_true_2 by done. lia. }
      destruct (negb (to =? NO_WAIT)).
      * rewrite Hisr in E. cbn [negb stk_assert] in E. injection E as <- <-.
        split; cbn [finish w_mon w_susp fields service AddWaitObject woken]; try done; try lia.
        -- intros u. rewrite Hkeep by done. apply Hheld.
        -- intros u. destruct (decide (t = u)) as [<-|Hne]; [split; [done|congruence]|]. rewrite lookup_insert_ne by done. apply Hsusp.
      * injection E as <- <-. split; cbn [finish w_mon w_susp]; try done. intros u. rewrite Hkeep by done. apply Hheld.
Qed.

(** What [Unlock] computes: one level less, and at the last one the mutex goes to
    the first waiter or is free. *)
Lemma Unlock_eq (m : M) cx : m_owner_tid (fields m) = c_tid cx → c_tid cx ≠ TID_NONE →
  0 < m_recursion_count (fields m) ≤ RECURSION_MAX →
  ∃ m', Unlock cx m = Ok m' ∧
    if m_recursion_count (fields m) =? 1 then
      match wait_list 0 m with
      | [] => fields m' = mkMutex TID_NONE 0 ∧ lists m' = lists m ∧ woken m' = woken m
      | t :: l => fields m' = mkMutex t 1 ∧ wait_list 0 m' = l ∧ woken m' = <[t := WAIT_RESULT_SIGNAL]> (woken m) ∧ lists m' = <[0%nat := l]> (lists m)
      end
    else fields m' = mkMutex (c_tid cx) (m_recursion_count (fields m) - 1) ∧ lists m' = lists m ∧ woken m' = woken m.
Proof.
  intros Eo Ht Hr. unfold Unlock. rewrite Eo, Z.eqb_refl, (proj2 (Z.eqb_neq _ _) Ht). cbn [negb andb stk_assert].
  rewrite (proj2 (Z.eqb_neq (m_recursion_count (fields m)) 0)) by lia. cbn [negb stk_assert fields set_fields m_recursion_count].
  assert (Eu : u16 (m_recursion_count (fields m) - 1) = m_recursion_count (fields m) - 1)
    by (unfold u16, RECURSION_MAX in *; apply Z.mod_small; lia). rewrite Eu.
  destruct (Z.eqb_spec (m_recursion_count (fields m)) 1) as [E1|E1].
  - rewrite (proj2 (Z.eqb_eq _ 0)) by lia. unfold IsEmpty, HandOver, FirstWaiter.
    change (wait_list 0 (service ?s (set_fields ?f m))) with (wait_list 0 m).
    destruct (wait_list 0 m) as [|t l] eqn:El; cbn [negb]; [by eexists|]. cbn [head deref mbind res_bind].
    set (m1 := set_fields (mkMutex t 1) _). assert (El1 : wait_list 0 m1 = t :: l) by exact El.
    assert (Ew : WakeOne 0 m1 = mkMon (mkMutex t 1) (<[0%nat := l]> (lists m)) (<[t := WAIT_RESULT_SIGNAL]> (woken m)) (services m1))
      by (unfold WakeOne; by rewrite El1).
    eexists. split; [done|]. rewrite Ew. case_match; cbn [fields service woken]; (split_and!; [done| |done|done]); unfold wait_list; cbn;
      by rewrite lookup_insert_eq.
  - rewrite (proj2 (Z.eqb_neq _ 0)) by lia. by eexists.
Qed.

Lemma unlock_inv tr (m : M) (susp : gmap Z pc) cx : wf_parts (P := prim) m susp → mutex_inv tr m susp →
  susp !! c_tid cx = None → mutex_pre tr cx CUnlock →
  ∃ m', Unlock cx m = Ok m' ∧ mutex_inv (tr ++ [LCall (P := prim) (c_tid cx) CUnlock (Some RVoid)]) m' susp.
Proof.
  intros Hwf [Hfree Hrec Hown Hheld Hfl Hsusp] Hn (Ht & Hisr & Hpos). set (t := c_tid cx) in *. rewrite Hheld in Hpos.
  case_bool_decide as Hcur; [|lia]. destruct Hcur as [Eo Hnw].
  assert (Hno : ∀ u, woken m !! u ≠ Some WAIT_RESULT_SIGNAL) by (intros u Hu; destruct (Hfl u Hu) as [-> ?]; congruence).
  destruct (Unlock_eq m cx) as (m' & E & Hm'); [done|done|lia|]. exists m'. split; [done|]. fold t in Hm'.
  assert (Hh : ∀ u, held u (tr ++ [LCall (P := prim) t CUnlock (Some RVoid)]) =
    if bool_decide (u = t) then m_recursion_count (fields m) - 1 else 0).
  { intros u. rewrite held_snoc, Hheld. cbn. destruct (decide (u = t)) as [->|Hne].
    - rewrite !bool_decide_eq_true_2 by done. lia.
    - rewrite (bool_decide_eq_false_2 (t = u)), (bool_decide_eq_false_2 (u = t)) by done.
      rewrite bool_decide_eq_false_2 by (intros [? ?]; congruence). lia. }
  destruct (Z.eqb_spec (m_recursion_count (fields m)) 1) as [E1|E1].
  - destruct (wait_list 0 m) as [|x l] eqn:El.
    + destruct Hm' as (Ef & EL & EW). assert (El' : wait_list 0 m' = []) by (unfold wait_list in *; by rewrite EL).
      split; rewrite ?Ef, ?EW; cbn; try done; try (unfold RECURSION_MAX; lia).
      * intros u. rewrite Hh, E1. by destruct (bool_decide _), (bool_decide _).
      * intros u Hu. by destruct (Hno u).
      * intros u Hu. destruct (Hsusp u Hu) as [? _]. split; [done|]. intros ->. done.
    + destruct Hm' as (Ef & El' & EW & _). assert (Hx : x ∈ wait_list 0 m) by (rewrite El; left).
      destruct (wf_listed _ _ Hwf 0 x Hx) as (Hxw & p & Hxp & _). change (p_pc prim) with pc in *; change (p_fields prim) with Mutex in *. destruct (Hsusp x) as [Hxn _]; [by eexists|].
      assert (Hxt : x ≠ t) by congruence.
      split; rewrite ?Ef, ?EW; cbn; try done; try (unfold RECURSION_MAX; lia).
      * intros u. rewrite Hh, E1. rewrite (bool_decide_eq_false_2 (u = x ∧ _)); [by destruct (bool_decide _)|].
        intros [-> Hu]. by rewrite lookup_insert_eq in Hu.
      * intros u. destruct (decide (x = u)) as [<-|Hne]; [done|]. rewrite lookup_insert_ne by done. intros Hu. by destruct (Hno u).
      * intros u Hu. split; [by apply Hsusp|]. intros ->. by rewrite lookup_insert_eq.
  - destruct Hm' as (Ef & EL & EW). split; rewrite ?Ef, ?EW; cbn; try done; try lia.
    + intros u. rewrite Hh. destruct (decide (u = t)) as [->|Hne]; [by rewrite !bool_decide_eq_true_2|].
      by rewrite !bool_decide_eq_false_2 by (try done; intros [? ?]; congruence).
    + intros u Hu. by destruct (Hno u).
    + intros u Hu. split; [by apply Hsusp|]. intros ->. exfalso. rewrite Hn in Hu. by destruct Hu.
Qed.

Lemma resume_inv tr (m : M) (susp : gmap Z pc) cx ow r : wf_parts (P := prim) m susp → mutex_inv tr m susp →
  susp !! c_tid cx = Some (InTimedLockEx ow) → woken m !! c_tid cx = Some r →
  ∃ m', resume cx (InTimedLockEx ow) r (take_woken (c_tid cx) m) = Ok (m', Done (RWait r)) ∧
    mutex_inv (tr ++ [LResume (P := prim) (c_tid cx) (InTimedLockEx ow) r (Some (RWait r))]) m' (delete (c_tid cx) susp).
Proof.
  intros Hwf [Hfree Hrec Hown Hheld Hfl Hsusp] Hp Hr. set (t := c_tid cx) in *. destruct (Hsusp t) as [Htn Hto]; [by rewrite Hp|].
  assert (Hd : ∀ u, u ≠ t → woken (take_woken t m) !! u = woken m !! u) by (intros; cbn; by rewrite lookup_delete_ne).
  assert (Ht' : woken (take_woken t m) !! t = None) by (cbn; by rewrite lookup_delete_eq).
  assert (Hsu : ∀ u, is_Some (delete t susp !! u) → u ≠ t ∧ is_Some (susp !! u)).
  { intros u Hu. destruct (decide (u = t)) as [->|]; [rewrite lookup_delete_eq in Hu; by destruct Hu|].
    rewrite lookup_delete_ne in Hu by done. done. }
  destruct (decide (r = WAIT_RESULT_SIGNAL)) as [->|Hne].
  - destruct (Hfl t Hr) as [Eo E1]. cbn [resume]. unfold TimedLockEx_end. rewrite bool_decide_eq_false_2 by (intros H; by apply H).
    fold t. cbn [fields take_woken]. rewrite <- Eo, E1, Z.eqb_refl. cbn. eexists. split; [done|].
    split; cbn [fields take_woken]; try done; try lia.
    + intros u. rewrite held_snoc, Hheld. cbn [locks]. destruct (decide (u = t)) as [->|Hut].
      * rewrite (bool_decide_eq_false_2 (t = _ ∧ woken m !! t ≠ _)) by (intros [? ?]; congruence).
        rewrite (bool_decide_eq_true_2 (t = t)) by done. rewrite bool_decide_eq_true_2 by (split; [done|by rewrite Ht']). lia.
      * rewrite (bool_decide_eq_false_2 (t = u)) by done. rewrite !bool_decide_eq_false_2 by (intros [? ?]; congruence). lia.
    + intros u Hu. destruct (decide (u = t)) as [->|]; [by rewrite Ht' in Hu|]. rewrite Hd in Hu by done. by apply Hfl.
    + intros u [Hut Hu]%Hsu. rewrite Hd by done. by apply Hsusp.
  - assert (Hno : t ≠ m_owner_tid (fields m)) by (intros E; specialize (Hto E); congruence).
    cbn [resume]. unfold TimedLockEx_end. rewrite bool_decide_eq_true_2 by done. fold t. cbn [fields take_woken].
    rewrite (proj2 (Z.eqb_neq _ t)) by done. cbn [negb stk_assert]. eexists. split; [done|].
    assert (Hk : mutex_inv (tr ++ [LResume (P := prim) t (InTimedLockEx ow) r (Some (RWait r))]) (take_woken t m) (delete t susp)).
    { split; cbn [fields take_woken]; try done.
      + intros u. rewrite held_snoc, Hheld. assert (locks u (LResume (P := prim) t (InTimedLockEx ow) r (Some (RWait r))) = 0) as -> by (by destruct r).
        destruct (decide (u = t)) as [->|Hut]; [by rewrite !bool_decide_eq_false_2 by (intros [? ?]; congruence)|].
        rewrite Hd by done. lia.
      + intros u Hu. destruct (decide (u = t)) as [->|]; [by rewrite Ht' in Hu|]. rewrite Hd in Hu by done. by apply Hfl.
      + intros u [Hut Hu]%Hsu. rewrite Hd by done. by apply Hsusp. }
    case_match; [|done]. destruct Hk as [K1 K2 K3 K4 K5 K6]. by split.
Qed.

Lemma abort_inv tr (m : M) (susp : gmap Z pc) t r : wf_parts (P := prim) m susp → mutex_inv tr m susp →
  t ∈ wait_list 0 m → r ≠ WAIT_RESULT_SIGNAL →
  mutex_inv (tr ++ [LAbort (P := prim) t r]) (RemoveWaitObject 0 t r m) susp.
Proof.
  intros Hwf [Hfree Hrec Hown Hheld Hfl Hsusp] Hl Hr. destruct (wf_listed _ _ Hwf 0 t Hl) as (Hw & p & Hp & _). change (p_pc prim) with pc in *; change (p_fields prim) with Mutex in *.
  assert (Hno : t ≠ m_owner_tid (fields m)).
  { intros E. destruct (Hsusp t) as [_ H]; [by eexists|]. specialize (H E). congruence. }
  split; cbn [fields RemoveWaitObject woken]; try done.
  - intros E0. destruct (Hfree E0) as [? E]. rewrite E in Hl. by apply not_elem_of_nil in Hl.
  - intros u. rewrite held_snoc, Hheld. cbn. destruct (decide (u = t)) as [->|Hut].
    + by rewrite !bool_decide_eq_false_2 by (intros [? ?]; congruence).
    + rewrite lookup_insert_ne by done. lia.
  - intros u. destruct (decide (t = u)) as [<-|]; [rewrite lookup_insert_eq; congruence|]. rewrite lookup_insert_ne by done. apply Hfl.
  - intros u Hu. destruct (Hsusp u Hu) as [? H]. split; [done|]. intros E. rewrite lookup_insert_ne by congruence. by apply H.
Qed.

Lemma lock_progress tr (m : M) (susp : gmap Z pc) cx to : wf_parts (P := prim) m susp → mutex_inv tr m susp →
  susp !! c_tid cx = None → mutex_pre tr cx (CTimedLockEx to) → ∃ m' o, TimedLockEx cx to m = Ok (m', o).
Proof.
  intros Hwf Hi Hn (Ht & Hisr & Hmax). unfold TimedLockEx. rewrite (proj2 (Z.eqb_neq _ _) Ht), Hisr. cbn [negb stk_assert].
  destruct (m_recursion_count (fields m) =? 0) eqn:Er; cbn [negb andb].
  - apply Z.eqb_eq in Er. destruct (mi_free _ _ _ Hi Er) as [-> _]. cbn. eauto.
  - destruct (m_owner_tid (fields m) =? c_tid cx) eqn:Eo; [|destruct (negb _); eauto]. apply Z.eqb_eq in Eo.
    rewrite (mi_held _ _ _ Hi), bool_decide_eq_true_2 in Hmax by (split; [done|by rewrite (not_woken (P := prim) m susp)]).
    rewrite (proj2 (Z.ltb_lt _ _) Hmax). cbn. eauto.
Qed.

Lemma mutex_step tr (w w' : World prim) l : wf w → mutex_inv tr (w_mon w) (w_susp w) → step mutex_pre tr w l w' →
  mutex_inv (tr ++ [l]) (w_mon w') (w_susp w').
Proof.
  intros Hw Hi Hs. destruct Hs as [w cx c m o Hpre Hn E|w cx p r m o Hisr Hp Hr E|w t p r Hr Hp Hl]; unfold wf in Hw;
    destruct w as [m0 susp]; cbn [p_fields p_call p_pc p_ret p_cv p_enter p_resume prim w_mon w_susp] in *.
  - assert (Hn' : susp !! c_tid cx = None) by (apply Hn, Hpre). destruct c as [to|]; cbn [enter] in E; [by eapply lock_inv|].
    destruct (unlock_inv tr m0 susp cx Hw Hi Hn' Hpre) as (m' & E' & Hi'). rewrite E' in E. injection E as <- <-. done.
  - destruct p as [ow]. destruct (resume_inv tr m0 susp cx ow r Hw Hi Hp Hr) as (m' & E' & Hi'). rewrite E' in E.
    injection E as <- <-. done.
  - apply abort_inv; [done|done|done|]. by destruct Hr as [-> | ->].
Qed.

(** C21. Mutual exclusion and hand-over.  In every run in which only the holder
    unlocks: at most one task holds the mutex, the holder is the recorded owner
    and the recursion counter is the number of its locks; no call and no return
    from a wait fails an assertion or a kernel check; and the last unlock with
    waiters makes the longest waiting task the owner. *)
Theorem mutex_exclusion tr (w : World prim) : run mutex_pre (mkWorld (P := prim) (init Mutex_ctor) ∅) tr w →
  let m : M := w_mon w in
  (∀ t u, 0 < held t tr → 0 < held u tr → t = u) ∧
  (∀ t, 0 < held t tr → m_owner_tid (fields m) = t ∧ m_recursion_count (fields m) = held t tr) ∧
  (∀ cx c, mutex_pre tr cx c → w_susp w !! c_tid cx = None → ∃ m' o, enter cx c m = Ok (m', o)) ∧
  (∀ cx p r, w_susp w !! c_tid cx = Some p → woken m !! c_tid cx = Some r →
     ∃ m', resume cx p r (take_woken (c_tid cx) m) = Ok (m', Done (RWait r))) ∧
  (∀ cx x l, held (c_tid cx) tr = 1 → c_tid cx ≠ TID_NONE → wait_list 0 m = x :: l →
     ∃ m', Unlock cx m = Ok m' ∧ m_owner_tid (fields m') = x ∧ wait_list 0 m' = l).
Proof.
  intros Hrun. destruct (run_ind_wf (P := prim) mutex_pre Mutex_ctor (λ tr w, mutex_inv tr (w_mon w) (w_susp w))) with (tr := tr) (w := w)
    as [Hw Hi]; [|intros ? ? ? ? H1 _ H3 H4; exact (mutex_step _ _ _ _ H1 H3 H4)|done|].
  { split; cbn; unfold RECURSION_MAX; try done; try lia.
    - intros t. by destruct (bool_decide _).
    - intros t [? [=]]. }
  intros m. destruct w as [m0 susp]; cbn [p_fields p_call p_pc p_ret p_cv p_enter p_resume prim w_mon w_susp] in *. subst m.
  assert (Ho : ∀ t, 0 < held t tr → m_owner_tid (fields m0) = t ∧ m_recursion_count (fields m0) = held t tr).
  { intros t Ht. rewrite (mi_held _ _ _ Hi) in Ht |- *. case_bool_decide as Hc; [|lia]. by destruct Hc as [-> _]. }
  split_and!; [|done|..].
  - intros t u [<- _]%Ho [<- _]%Ho. done.
  - intros cx [to|] Hpre Hn; cbn [enter]; [by eapply lock_progress|].
    destruct (unlock_inv tr m0 susp cx Hw Hi Hn Hpre) as (m' & -> & _). cbn. eauto.
  - intros cx [ow] r Hp Hr. destruct (resume_inv tr m0 susp cx ow r Hw Hi Hp Hr) as (m' & E & _). eauto.
  - intros cx x l Hh Ht El. destruct (Ho (c_tid cx)) as [Eo Er]; [lia|].
    destruct (Unlock_eq m0 cx) as (m' & E & Hm'); [done|done|pose proof (mi_rec _ _ _ Hi); lia|].
    rewrite Er, Hh, El in Hm'. cbn in Hm'. destruct Hm' as (Ef & El' & _). exists m'. rewrite Ef. done.
Qed.
End mutex.

(** Two tasks compete for the mutex; the first one locks it twice. *)
Definition ex_w (t : Z) : Z := t.
Definition ex_cx (t : Z) : ctx := mkCtx t 0 false.
Definition ex_world0 : World (prim ex_w) := mkWorld (P := prim ex_w) (init Mutex_ctor) ∅.
Definition ex_preb (tr : list (label (prim ex_w))) (cx : ctx) (c : call) : bool :=
  bool_decide (c_tid cx ≠ TID_NONE) && negb (c_isr cx) &&
  match c with CTimedLockEx _ => held ex_w (c_tid cx) tr <? RECURSION_MAX | CUnlock => 0 <? held ex_w (c_tid cx) tr end.
Definition ex_call (t : Z) (c : call) : action (prim ex_w) := ACall (P := prim ex_w) (ex_cx t) c.
Definition ex_acts : list (action (prim ex_w)) :=
  [ex_call 1 (CTimedLockEx 10); ex_call 1 (CTimedLockEx 10); ex_call 2 (CTimedLockEx 10); ex_call 3 (CTimedLockEx 10); ex_call 1 CUnlock].
Definition ex_end : list (label (prim ex_w)) * World (prim ex_w) := exec_all ex_preb ex_acts ex_world0.
Lemma ex_preb_pre tr cx c : ex_preb tr cx c = true → mutex_pre ex_w tr cx c.
Proof.
  unfold ex_preb, mutex_pre. rewrite !andb_true_iff, bool_decide_eq_true, negb_true_iff. intros [[? ?] Hc]. split_and!; try done.
  by destruct c; apply Z.ltb_lt.
Qed.

Lemma mutex_exclusion_witness : held ex_w 1 ex_end.1 = 1 ∧ ∃ m', Unlock ex_w (ex_cx 1) (w_mon ex_end.2) = Ok m' ∧
  m_owner_tid (fields m') = 2 ∧ wait_list 0 m' = [3].
Proof.
  split; [vm_compute; reflexivity|].
  apply (mutex_exclusion ex_w ex_end.1 ex_end.2); [apply exec_all_run; exact ex_preb_pre|vm_compute; reflexivity|done|vm_compute; reflexivity].
Defined.
End Mutex.
