(* ===== verification/FastMutex.v ===== *)
(** * Non-recursive mutex ([FastMutex] of [stk_sync_fastmutex.h])

    Like [Mutex] without the recursion counter: a task that locks it twice would
    deadlock with itself and panics instead.  The mutex is handed over to the
    first waiter, and weights are only restored when somebody waits. *)

From S2P Require Import Prelude KernelTask Monitor.
Import KTask Monitor.
Local Open Scope Z_scope.

Module FastMutex.

Record FastMutex := mkFast { m_owner_tid : Z }.
Definition FastMutex_ctor : FastMutex := mkFast TID_NONE.

Inductive call := CTimedLockEx (timeout_ticks : Z) | CUnlock.
Inductive ret := RWait (r : EWaitResult) | RVoid.
Inductive pc := InTimedLockEx (owner_tid : Z).

Section fastmutex.
(** [GetUserTaskFromTid(tid)->GetWeight()]. *)
Context (weight : Z → Z).
Notation M := (Mon FastMutex).

(** [ISyncObject::FindWeightHigherThan(comp)] on the wait list. *)
Definition FindWeightHigherThan (comp : Z) (m : M) : Z :=
  let max_weight := foldl (λ a t, if weight t >? a then weight t else a) NO_WEIGHT (wait_list 0 m) in
  if max_weight >? comp then max_weight else NO_WEIGHT.

(** [TimedLockEx(timeout_ticks)], up to the wait. *)
Definition TimedLockEx (cx : ctx) (timeout_ticks : Z) (m : M) : res (M * outcome pc ret) :=
  let current_tid := c_tid cx in
  let owner_tid := m_owner_tid (fields m) in
  assert! negb (current_tid =? TID_NONE);
  if owner_tid =? TID_NONE then Ok (set_fields (mkFast current_tid) m, Done (RWait WAIT_RESULT_SIGNAL))
  else if owner_tid =? current_tid then Panic PANIC_KERNEL
  else if negb (timeout_ticks =? NO_WAIT) then
    assert! negb (c_isr cx);
    Ok (service (SvcInheritWeight owner_tid (weight current_tid)) m, Blocked timeout_ticks (InTimedLockEx owner_tid))
  else Ok (m, Done (RWait WAIT_RESULT_TIMEOUT)).

(** [TimedLockEx], after the wait. *)
Definition TimedLockEx_end (cx : ctx) (owner_tid : Z) (result : EWaitResult) (m : M) : res (M * outcome pc ret) :=
  let s := fields m in
  if bool_decide (result ≠ WAIT_RESULT_SIGNAL) then
    assert! negb (m_owner_tid s =? c_tid cx);
    Ok (if owner_tid =? m_owner_tid s then service (SvcRestoreWeight owner_tid true) m else m, Done (RWait result))
  else if negb (m_owner_tid s =? c_tid cx) then Panic PANIC_KERNEL
  else Ok (m, Done (RWait result)).

Definition Unlock (cx : ctx) (m : M) : res M :=
  let owner_tid := m_owner_tid (fields m) in
  assert! (owner_tid =? c_tid cx) && negb (owner_tid =? TID_NONE);
  if negb (IsEmpty 0 m) then
    let m := if negb (owner_tid =? TID_NONE) then service (SvcRestoreWeight owner_tid false) m else m in
    t ← FirstWaiter 0 m;
    let m := set_fields (mkFast t) m in
    let m := WakeOne 0 m in
    Ok (if negb (IsEmpty 0 m) then service (SvcInheritWeight t (FindWeightHigherThan (weight t) m)) m else m)
  else Ok (set_fields (mkFast TID_NONE) m).

(** [Lock()]: what its loop does with the result of [TimedLockEx(WAIT_INFINITE)]. *)
Definition Lock_again (result : EWaitResult) : res (option unit) :=
  match result with
  | WAIT_RESULT_CANCELED => Ok None
  | WAIT_RESULT_SIGNAL => Ok (Some ())
  | _ => Panic PANIC_KERNEL
  end.

Definition enter (cx : ctx) (c : call) (m : M) : res (M * outcome pc ret) :=
  match c with
  | CTimedLockEx timeout_ticks => TimedLockEx cx timeout_ticks m
  | CUnlock => m ← Unlock cx m; Ok (m, Done RVoid)
  end.
Definition resume (cx : ctx) (p : pc) (r : EWaitResult) (m : M) : res (M * outcome pc ret) :=
  match p with InTimedLockEx owner_tid => TimedLockEx_end cx owner_tid r m end.

Definition prim : Primitive := mkPrimitive FastMutex call pc ret (λ _, 0%nat) enter resume.

(** What [Unlock] computes. *)
Lemma fast_Unlock_eq (m : M) cx : m_owner_tid (fields m) = c_tid cx → c_tid cx ≠ TID_NONE →
  ∃ m', Unlock cx m = Ok m' ∧ evolves m m' ∧
    match wait_list 0 m with
    | [] => fields m' = mkFast TID_NONE ∧ lists m' = lists m ∧ woken m' = woken m
    | t :: l => fields m' = mkFast t ∧ wait_list 0 m' = l ∧ woken m' = <[t := WAIT_RESULT_SIGNAL]> (woken m)
    end.
Proof.
  intros Eo Ht. unfold Unlock. rewrite Eo, Z.eqb_refl, (proj2 (Z.eqb_neq _ _) Ht). cbn [negb andb stk_assert].
  unfold IsEmpty at 1. destruct (wait_list 0 m) as [|t l] eqn:El; cbn [negb].
  { eexists. split; [done|]. split; [eauto with stk|done]. }
  unfold FirstWaiter. change (wait_list 0 (service ?s m)) with (wait_list 0 m). rewrite El. cbn [head deref mbind res_bind].
  set (m1 := set_fields (mkFast t) _). assert (El1 : wait_list 0 m1 = t :: l) by exact El.
  assert (Hev : evolves m (WakeOne 0 m1)) by (eapply evolves_trans; [|apply evolves_One]; by apply evolves_same).
  assert (Ew : WakeOne 0 m1 = mkMon (mkFast t) (<[0%nat := l]> (lists m)) (<[t := WAIT_RESULT_SIGNAL]> (woken m)) (services m1))
    by (unfold WakeOne; by rewrite El1).
  eexists. split; [done|]. split; [case_match; eauto with stk|]. rewrite Ew.
  case_match; cbn [fields service woken]; (split_and!; [done| |done]); unfold wait_list; cbn; by rewrite lookup_insert_eq.
Qed.

#[export] Instance fast_lawful : Lawful prim.
Proof.
  split; cbn.
  - intros cx [to|] m m' o; cbn [enter].
    + unfold TimedLockEx. intros H. inv_res. repeat case_match; inv_res; eauto with stk.
    + intros H. inv_res. pose proof E as E'. unfold Unlock in E'. destruct (_ && _) eqn:Ec in E'; cbn [stk_assert] in E'; [|done].
      apply andb_true_iff in Ec as [Ec1 Ec2]. apply Z.eqb_eq in Ec1. apply negb_true_iff, Z.eqb_neq in Ec2.
      destruct (fast_Unlock_eq m cx) as (m2 & E2 & H2 & _); [done|congruence|]. rewrite E in E2. by injection E2 as <-.
  - intros cx [ow] r m m' o. cbn [resume]. unfold TimedLockEx_end. intros H. repeat case_match; inv_res; eauto with stk.
  - intros cx [to|] m m' to' p Hi; cbn [enter]; intros H.
    + unfold TimedLockEx in H. rewrite Hi in H. inv_res. repeat case_match; inv_res; done.
    + inv_res.
Qed.

(** ** Holding the mutex *)

Definition locks (t : Z) (l : label prim) : Z :=
  match l with
  | LCall u (CTimedLockEx _) (Some (RWait WAIT_RESULT_SIGNAL)) => if bool_decide (u = t) then 1 else 0
  | LResume u _ _ (Some (RWait WAIT_RESULT_SIGNAL)) => if bool_decide (u = t) then 1 else 0
  | LCall u CUnlock (Some _) => if bool_decide (u = t) then -1 else 0
  | _ => 0
  end.
Definition held (t : Z) (tr : list (label prim)) : Z := tally (locks t) tr.

(** Only the holder unlocks, and it does not lock again. *)
Definition fast_pre (tr : list (label prim)) (cx : ctx) (c : call) : Prop :=
  c_tid cx ≠ TID_NONE ∧ c_isr cx = false ∧
  match c with CTimedLockEx _ => held (c_tid cx) tr = 0 | CUnlock => 0 < held (c_tid cx) tr end.

(** A task holds the mutex exactly if it is the owner and has returned from its
    wait. *)
Definition holds (m : M) (t : Z) : Prop :=
  t = m_owner_tid (fields m) ∧ t ≠ TID_NONE ∧ woken m !! t ≠ Some WAIT_RESULT_SIGNAL.
#[local] Instance holds_dec m t : Decision (holds m t).
Proof. unfold holds. apply _. Defined.
Record fast_inv (tr : list (label prim)) (m : M) (susp : gmap Z pc) : Prop := {
  fi_free : m_owner_tid (fields m) = TID_NONE → wait_list 0 m = [];
  fi_held t : held t tr = if bool_decide (holds m t) then 1 else 0;
  fi_flight t : woken m !! t = Some WAIT_RESULT_SIGNAL → t = m_owner_tid (fields m);
  fi_susp t : is_Some (susp !! t) → t ≠ TID_NONE ∧ (t = m_owner_tid (fields m) → woken m !! t = Some WAIT_RESULT_SIGNAL);
}.

Lemma fast_held_snoc t tr l : held t (tr ++ [l]) = held t tr + locks t l.
Proof. apply tally_snoc. Qed.

(** The count of each task changes with whether it holds the mutex. *)
Lemma held_change tr (m m' : M) l : (∀ t, held t tr = if bool_decide (holds m t) then 1 else 0) →
  (∀ t, locks t l = (if bool_decide (holds m' t) then 1 else 0) - (if bool_decide (holds m t) then 1 else 0)) →
  ∀ t, held t (tr ++ [l]) = if bool_decide (holds m' t) then 1 else 0.
Proof. intros H1 H2 t. rewrite fast_held_snoc, H1, H2. lia. Qed.

Lemma fast_lock_inv tr (m : M) (susp : gmap Z pc) cx to : wf_parts (P := prim) m susp → fast_inv tr m susp →
  susp !! c_tid cx = None → fast_pre tr cx (CTimedLockEx to) →
  ∃ m' o, TimedLockEx cx to m = Ok (m', o) ∧ let w' := finish (P := prim) (c_tid cx) m' o susp in
    fast_inv (tr ++ [LCall (P := prim) (c_tid cx) (CTimedLockEx to) (returned (P := prim) o)]) (w_mon w') (w_susp w').
Proof.
  intros Hwf [Hfree Hheld Hfl Hsusp] Hn (Ht & Hisr & Hz). set (t := c_tid cx) in *.
  assert (Hw : woken m !! t = None) by (by eapply (not_woken (P := prim))).
  assert (Hnt : t ≠ m_owner_tid (fields m)).
  { intros E. rewrite Hheld, bool_decide_eq_true_2 in Hz; [done|]. split_and!; congruence. }
  unfold TimedLockEx. fold t. rewrite (proj2 (Z.eqb_neq _ _) Ht). cbn [negb stk_assert].
  destruct (Z.eqb_spec (m_owner_tid (fields m)) TID_NONE) as [Eo|Eo].
  - eexists _, _. split; [done|]. split; cbn [finish w_mon w_susp fields set_fields m_owner_tid woken]; try done.
    + apply (held_change tr m); [done|]. intros u. cbn. rewrite (bool_decide_eq_false_2 (holds m u)) by (intros (? & ? & _); congruence).
      destruct (decide (t = u)) as [<-|Hne].
      * rewrite !bool_decide_eq_true_2; [done| |done]. split_and!; cbn; [done|done|congruence].
      * rewrite !bool_decide_eq_false_2; [done| |done]. intros (? & _). cbn in *. congruence.
    + intros u Hu. exfalso. pose proof (Hfl u Hu). destruct (wf_woken (P := prim) m susp Hwf u) as [p Hp]; [by eexists; apply Hu|].
      destruct (Hsusp u) as [? _]; [by eexists|]. congruence.
    + intros u [p Hu]. split; [apply Hsusp; by eexists|]. intros ->. congruence.
  - rewrite (proj2 (Z.eqb_neq _ t)) by done.
    assert (Hkeep : ∀ o' m', locks t (LCall (P := prim) t (CTimedLockEx to) o') = 0 → (∀ u, holds m' u ↔ holds m u) →
      ∀ u, held u (tr ++ [LCall (P := prim) t (CTimedLockEx to) o']) = if bool_decide (holds m' u) then 1 else 0).
    { intros o' m' Hz' Hhh. apply (held_change tr m); [done|]. intros u. rewrite (bool_decide_ext _ _ (Hhh u)).
      revert Hz'. cbn. destruct o' as [[[]|]|]; try lia. rewrite bool_decide_eq_true_2 by done. lia. }
    destruct (negb (to =? NO_WAIT)).
    + rewrite Hisr. cbn [negb stk_assert]. eexists _, _. split; [done|].
      split; cbn [finish w_mon w_susp fields service AddWaitObject woken]; try done.
      * by apply Hkeep.
      * intros u. destruct (decide (t = u)) as [<-|Hne]; [split; [done|congruence]|]. rewrite lookup_insert_ne by done. apply Hsusp.
    + eexists _, _. split; [done|]. split; cbn [finish w_mon w_susp]; try done. by apply Hkeep.
Qed.

Lemma fast_unlock_inv tr (m : M) (susp : gmap Z pc) cx : wf_parts (P := prim) m susp → fast_inv tr m susp →
  susp !! c_tid cx = None → fast_pre tr cx CUnlock →
  ∃ m', Unlock cx m = Ok m' ∧ fast_inv (tr ++ [LCall (P := prim) (c_tid cx) CUnlock (Some RVoid)]) m' susp.
Proof.
  intros Hwf [Hfree Hheld Hfl Hsusp] Hn (Ht & Hisr & Hpos). set (t := c_tid cx) in *. rewrite Hheld in Hpos.
  case_bool_decide as Hcur; [|lia]. pose proof Hcur as (Eo & _ & Hnw).
  assert (Hno : ∀ u, woken m !! u ≠ Some WAIT_RESULT_SIGNAL) by (intros u Hu; pose proof (Hfl u Hu); congruence).
  destruct (fast_Unlock_eq m cx) as (m' & E & _ & Hm'); [done|done|]. exists m'. split; [done|]. fold t in Hm'.
  assert (Hh : (∀ u, ~ holds m' u) → ∀ u, held u (tr ++ [LCall (P := prim) t CUnlock (Some RVoid)]) = if bool_decide (holds m' u) then 1 else 0).
  { intros Hnone. apply (held_change tr m); [done|]. intros u. rewrite (bool_decide_eq_false_2 (holds m' u)) by done. cbn.
    destruct (decide (t = u)) as [<-|Hne]; [by rewrite !bool_decide_eq_true_2|].
    rewrite !bool_decide_eq_false_2; [done| |done]. intros (? & _). congruence. }
  destruct (wait_list 0 m) as [|x l] eqn:El.
  - destruct Hm' as (Ef & EL & EW). assert (El' : wait_list 0 m' = []) by (unfold wait_list in *; by rewrite EL).
    split; rewrite ?Ef, ?EW; cbn; try done.
    + apply Hh. intros u (H1 & H2 & _). rewrite Ef in H1. done.
    + intros u Hu. by destruct (Hno u).
    + intros u Hu. destruct (Hsusp u Hu) as [? _]. split; [done|]. intros ->. done.
  - destruct Hm' as (Ef & El' & EW). assert (Hx : x ∈ wait_list 0 m) by (rewrite El; left).
    destruct (wf_listed _ _ Hwf 0 x Hx) as (Hxw & p & Hxp & _).
    change (p_pc prim) with pc in *; change (p_fields prim) with FastMutex in *. destruct (Hsusp x) as [Hxn _]; [by eexists|].
    split; rewrite ?Ef, ?EW; cbn; try done.
    + apply Hh. intros u (H1 & _ & H3). rewrite Ef in H1. cbn in H1. subst u. rewrite EW, lookup_insert_eq in H3. done.
    + intros u. destruct (decide (x = u)) as [<-|Hne]; [done|]. rewrite lookup_insert_ne by done. intros Hu. by destruct (Hno u).
    + intros u Hu. split; [by apply Hsusp|]. intros ->. by rewrite lookup_insert_eq.
Qed.

Lemma fast_resume_inv tr (m : M) (susp : gmap Z pc) cx ow r : wf_parts (P := prim) m susp → fast_inv tr m susp →
  susp !! c_tid cx = Some (InTimedLockEx ow) → woken m !! c_tid cx = Some r →
  ∃ m', resume cx (InTimedLockEx ow) r (take_woken (c_tid cx) m) = Ok (m', Done (RWait r)) ∧
    fast_inv (tr ++ [LResume (P := prim) (c_tid cx) (InTimedLockEx ow) r (Some (RWait r))]) m' (delete (c_tid cx) susp).
Proof.
  intros Hwf [Hfree Hheld Hfl Hsusp] Hp Hr. set (t := c_tid cx) in *. destruct (Hsusp t) as [Htn Hto]; [by rewrite Hp|].
  assert (Hd : ∀ u, u ≠ t → woken (take_woken t m) !! u = woken m !! u) by (intros; cbn; by rewrite lookup_delete_ne).
  assert (Ht' : woken (take_woken t m) !! t = None) by (cbn; by rewrite lookup_delete_eq).
  assert (Hst : m_owner_tid (fields m) = t ↔ r = WAIT_RESULT_SIGNAL).
  { split; [intros E; specialize (Hto (eq_sym E)); congruence|]. intros ->. symmetry. by apply Hfl. }
  assert (Hk : fast_inv (tr ++ [LResume (P := prim) t (InTimedLockEx ow) r (Some (RWait r))]) (take_woken t m) (delete t susp)).
  { split; cbn [fields take_woken]; try done.
    - apply (held_change tr m); [done|]. intros u. assert (Hu : u ≠ t → holds (take_woken t m) u ↔ holds m u).
      { intros Hne. unfold holds. by rewrite Hd. }
      destruct (decide (u = t)) as [->|Hne].
      + rewrite (bool_decide_eq_false_2 (holds m t)) by (intros (E & _ & H); specialize (Hto E); congruence).
        rewrite (bool_decide_ext (holds (take_woken t m) t) (r = WAIT_RESULT_SIGNAL)).
        * cbn. rewrite (bool_decide_eq_true_2 (t = t)) by done. by destruct r.
        * unfold holds. rewrite Ht', <- Hst. cbn. naive_solver.
      + rewrite (bool_decide_ext _ _ (Hu Hne)). cbn. rewrite (bool_decide_eq_false_2 (t = u)) by done. destruct r; lia.
    - intros u Hu. destruct (decide (u = t)) as [->|]; [by rewrite Ht' in Hu|]. rewrite Hd in Hu by done. by apply Hfl.
    - intros u Hu. destruct (decide (u = t)) as [->|Hne]; [rewrite lookup_delete_eq in Hu; by destruct Hu|].
      rewrite lookup_delete_ne in Hu by done. rewrite Hd by done. by apply Hsusp. }
  cbn [resume]. unfold TimedLockEx_end. fold t. cbn [fields take_woken]. case_bool_decide as Hrs.
  - rewrite (proj2 (Z.eqb_neq _ t)) by (rewrite Hst; done). cbn [negb stk_assert]. eexists. split; [done|].
    case_match; [|done]. destruct Hk as [K1 K2 K3 K4]. by split.
  - rewrite (proj2 (Z.eqb_eq _ t)) by (by apply Hst). cbn. eauto.
Qed.

Lemma fast_abort_inv tr (m : M) (susp : gmap Z pc) t r : wf_parts (P := prim) m susp → fast_inv tr m susp →
  t ∈ wait_list 0 m → r ≠ WAIT_RESULT_SIGNAL →
  fast_inv (tr ++ [LAbort (P := prim) t r]) (RemoveWaitObject 0 t r m) susp.
Proof.
  intros Hwf [Hfree Hheld Hfl Hsusp] Hl Hr. destruct (wf_listed _ _ Hwf 0 t Hl) as (Hw & p & Hp & _).
  change (p_pc prim) with pc in *; change (p_fields prim) with FastMutex in *.
  assert (Hno : t ≠ m_owner_tid (fields m)).
  { intros E. destruct (Hsusp t) as [_ H]; [by eexists|]. specialize (H E). congruence. }
  split; cbn [fields RemoveWaitObject woken]; try done.
  - intros E0. rewrite (Hfree E0) in Hl. by apply not_elem_of_nil in Hl.
  - apply (held_change tr m); [done|]. intros u. rewrite (bool_decide_ext (holds (RemoveWaitObject 0 t r m) u) (holds m u)); [cbn; lia|].
    unfold holds. cbn. destruct (decide (u = t)) as [->|]; [naive_solver|]. by rewrite lookup_insert_ne.
  - intros u. destruct (decide (t = u)) as [<-|]; [rewrite lookup_insert_eq; congruence|]. rewrite lookup_insert_ne by done. apply Hfl.
  - intros u Hu. destruct (Hsusp u Hu) as [? H]. split; [done|]. intros E. rewrite lookup_insert_ne by congruence. by apply H.
Qed.

Lemma fast_step tr (w w' : World prim) l : wf w → fast_inv tr (w_mon w) (w_susp w) → step fast_pre tr w l w' →
  fast_inv (tr ++ [l]) (w_mon w') (w_susp w').
Proof.
  intros Hw Hi Hs. destruct Hs as [w cx c m o Hpre Hn E|w cx p r m o Hisr Hp Hr E|w t p r Hr Hp Hl]; unfold wf in Hw;
    destruct w as [m0 susp]; cbn [p_fields p_call p_pc p_ret p_cv p_enter p_resume prim w_mon w_susp] in *.
  - assert (Hn' : susp !! c_tid cx = None) by (apply Hn, Hpre). destruct c as [to|]; cbn [enter] in E.
    + destruct (fast_lock_inv tr m0 susp cx to Hw Hi Hn' Hpre) as (m' & o' & E' & Hi'). rewrite E' in E. by injection E as <- <-.
    + destruct (fast_unlock_inv tr m0 susp cx Hw Hi Hn' Hpre) as (m' & E' & Hi'). rewrite E' in E. by injection E as <- <-.
  - destruct p as [ow]. destruct (fast_resume_inv tr m0 susp cx ow r Hw Hi Hp Hr) as (m' & E' & Hi'). rewrite E' in E.
    by injection E as <- <-.
  - apply fast_abort_inv; [done|done|done|]. by destruct Hr as [-> | ->].
Qed.

(** Mutual exclusion of the non-recursive mutex.  In every run in which only
    the holder unlocks and it does not lock again: at most one task holds the
    mutex and it is the recorded owner, no call and no return from a wait
    fails, and an unlock with waiters makes the longest waiting task the owner. *)
Theorem fast_mutex_exclusion tr (w : World prim) : run fast_pre (mkWorld (P := prim) (init FastMutex_ctor) ∅) tr w →
  let m : M := w_mon w in
  (∀ t u, 0 < held t tr → 0 < held u tr → t = u) ∧
  (∀ t, 0 < held t tr → m_owner_tid (fields m) = t ∧ held t tr = 1) ∧
  (∀ cx c, fast_pre tr cx c → w_susp w !! c_tid cx = None → ∃ m' o, enter cx c m = Ok (m', o)) ∧
  (∀ cx p r, w_susp w !! c_tid cx = Some p → woken m !! c_tid cx = Some r →
     ∃ m', resume cx p r (take_woken (c_tid cx) m) = Ok (m', Done (RWait r))) ∧
  (∀ cx x l, 0 < held (c_tid cx) tr → wait_list 0 m = x :: l →
     ∃ m', Unlock cx m = Ok m' ∧ m_owner_tid (fields m') = x ∧ wait_list 0 m' = l).
Proof.
  intros Hrun. destruct (run_ind_wf (P := prim) fast_pre FastMutex_ctor (λ tr w, fast_inv tr (w_mon w) (w_susp w))) with (tr := tr) (w := w)
    as [Hw Hi]; [|intros ? ? ? ? H1 _ H3 H4; exact (fast_step _ _ _ _ H1 H3 H4)|done|].
  { split; cbn; try done.
    - intros t. rewrite bool_decide_eq_false_2; [done|]. intros (? & ? & _). cbn in *. congruence.
    - intros t [? [=]]. }
  intros m. destruct w as [m0 susp]; cbn [p_fields p_call p_pc p_ret p_cv p_enter p_resume prim w_mon w_susp] in *. subst m.
  assert (Ho : ∀ t, 0 < held t tr → holds m0 t ∧ held t tr = 1).
  { intros t Ht. rewrite (fi_held _ _ _ Hi) in Ht |- *. by case_bool_decide. }
  split_and!.
  - intros t u [(-> & _) _]%Ho [(-> & _) _]%Ho. done.
  - intros t [(-> & _) H]%Ho. done.
  - intros cx [to|] Hpre Hn; cbn [enter].
    + destruct (fast_lock_inv tr m0 susp cx to Hw Hi Hn Hpre) as (m' & o & -> & _). eauto.
    + destruct (fast_unlock_inv tr m0 susp cx Hw Hi Hn Hpre) as (m' & -> & _). cbn. eauto.
  - intros cx [ow] r Hp Hr. destruct (fast_resume_inv tr m0 susp cx ow r Hw Hi Hp Hr) as (m' & E & _). eauto.
  - intros cx x l [(Eo & Ht & _) _]%Ho El. destruct (fast_Unlock_eq m0 cx) as (m' & E & _ & Hm'); [done|done|].
    rewrite El in Hm'. destruct Hm' as (Ef & El' & _). exists m'. rewrite Ef. done.
Qed.
End fastmutex.

(** Three tasks compete for the mutex. *)
Definition ex_w (t : Z) : Z := t.
Definition ex_cx (t : Z) : ctx := mkCtx t 0 false.
Definition ex_world0 : World (prim ex_w) := mkWorld (P := prim ex_w) (init FastMutex_ctor) ∅.
Definition ex_preb (tr : list (label (prim ex_w))) (cx : ctx) (c : call) : bool :=
  bool_decide (c_tid cx ≠ TID_NONE) && negb (c_isr cx) &&
  match c with CTimedLockEx _ => held ex_w (c_tid cx) tr =? 0 | CUnlock => 0 <? held ex_w (c_tid cx) tr end.
Definition ex_call (t : Z) (c : call) : action (prim ex_w) := ACall (P := prim ex_w) (ex_cx t) c.
Definition ex_acts : list (action (prim ex_w)) := [ex_call 1 (CTimedLockEx 10); ex_call 2 (CTimedLockEx 10); ex_call 3 (CTimedLockEx 10)].
Definition ex_end : list (label (prim ex_w)) * World (prim ex_w) := exec_all ex_preb ex_acts ex_world0.
Lemma fast_ex_pre tr cx c : ex_preb tr cx c = true → fast_pre ex_w tr cx c.
Proof.
  unfold ex_preb, fast_pre. rewrite !andb_true_iff, bool_decide_eq_true, negb_true_iff. intros [[? ?] Hc]. split_and!; try done.
  destruct c; [by apply Z.eqb_eq|by apply Z.ltb_lt].
Qed.

Lemma fast_mutex_exclusion_witness : 0 < held ex_w 1 ex_end.1 ∧ ∃ m', Unlock ex_w (ex_cx 1) (w_mon ex_end.2) = Ok m' ∧
  m_owner_tid (fields m') = 2 ∧ wait_list 0 m' = [3].
Proof.
  split; [vm_compute; reflexivity|].
  apply (fast_mutex_exclusion ex_w ex_end.1 ex_end.2); [apply exec_all_run; exact fast_ex_pre|vm_compute; reflexivity|vm_compute; reflexivity].
Defined.
End FastMutex.
