(* ===== verification/RWMutex.v ===== *)
(** * Reader-writer lock ([RWMutex] of [stk_sync_rwmutex.h])

    Readers share the lock, a writer has it alone, and a waiting writer keeps new
    readers out.  Unlocking wakes without handing over, so a woken task checks
    again and may have to wait again: the theorems show exclusion, and that no
    task is left waiting for a lock that is free. *)

From S2P Require Import Prelude KernelTask Monitor.
Import KTask Monitor.
Local Open Scope Z_scope.

Module RWMutex.

Record RWMutex := mkRW { m_readers : Z; m_writers_waiting : Z; m_writer_active : bool }.
Definition READERS_MAX : Z := 0xFFFE.
Definition WRITERS_MAX : Z := 0xFFFE.
Definition RWMutex_ctor : RWMutex := mkRW 0 0 false.

(** [m_cv_readers] and [m_cv_writers]. *)
Definition cv_readers : nat := 0.
Definition cv_writers : nat := 1.

Inductive call := CTimedReadLockEx (timeout_ticks : Z) | CReadUnlock | CTimedLockEx (timeout_ticks : Z) | CUnlock.
Inductive ret := RWait (r : EWaitResult) | RVoid.
(** A blocked call remembers its timeout and its deadline. *)
Inductive pc := InRead (timeout_ticks deadline : Z) | InWrite (timeout_ticks deadline : Z).
Notation M := (Mon RWMutex).

Definition set_readers (n : Z) (m : M) : M := set_fields (mkRW n (m_writers_waiting (fields m)) (m_writer_active (fields m))) m.
Definition set_waiting (n : Z) (m : M) : M := set_fields (mkRW (m_readers (fields m)) n (m_writer_active (fields m))) m.
Definition set_active (b : bool) (m : M) : M := set_fields (mkRW (m_readers (fields m)) (m_writers_waiting (fields m)) b) m.

(** The deadline, and the time that is left of it: 64-bit tick counts. *)
Definition deadline_of (cx : ctx) (timeout_ticks : Z) : Z := if is_timed timeout_ticks then c_now cx + timeout_ticks else 0.
Definition remaining (cx : ctx) (timeout_ticks deadline : Z) : Z :=
  if is_timed timeout_ticks then
    let left := deadline - c_now cx in
    if left >? 0 then to_Timeout left else NO_WAIT
  else timeout_ticks.

(** [TimedReadLockEx]: its loop and what follows. *)
Definition read_loop (cx : ctx) (timeout_ticks deadline : Z) (m : M) : res (M * outcome pc ret) :=
  if m_writer_active (fields m) || negb (m_writers_waiting (fields m) =? 0) then
    let rem := remaining cx timeout_ticks deadline in
    wait ← CV_WaitEx cx rem;
    if (wait : bool) then Ok (m, Blocked rem (InRead timeout_ticks deadline))
    else Ok (m, Done (RWait WAIT_RESULT_TIMEOUT))
  else
    assert! (m_readers (fields m) <? READERS_MAX);
    Ok (set_readers (u16 (m_readers (fields m) + 1)) m, Done (RWait WAIT_RESULT_SIGNAL)).
Definition TimedReadLockEx (cx : ctx) (timeout_ticks : Z) (m : M) : res (M * outcome pc ret) :=
  read_loop cx timeout_ticks (deadline_of cx timeout_ticks) m.

Definition ReadUnlock (m : M) : res M :=
  assert! negb (m_readers (fields m) =? 0);
  let m := set_readers (u16 (m_readers (fields m) - 1)) m in
  Ok (if m_readers (fields m) =? 0 then WakeOne cv_writers m else m).

(** [TimedLockEx]: the writer gives up. *)
Definition write_fails (result : EWaitResult) (m : M) : M * outcome pc ret :=
  let m := set_waiting (u16 (m_writers_waiting (fields m) - 1)) m in
  let m :=
    if negb (m_writer_active (fields m)) then
      if m_writers_waiting (fields m) =? 0 then WakeAll cv_readers m
      else if m_readers (fields m) =? 0 then WakeOne cv_writers m
      else m
    else m in
  (m, Done (RWait result)).
(** [TimedLockEx]: its loop and what follows. *)
Definition write_loop (cx : ctx) (timeout_ticks deadline : Z) (m : M) : res (M * outcome pc ret) :=
  if m_writer_active (fields m) || negb (m_readers (fields m) =? 0) then
    let rem := remaining cx timeout_ticks deadline in
    wait ← CV_WaitEx cx rem;
    if (wait : bool) then Ok (m, Blocked rem (InWrite timeout_ticks deadline))
    else Ok (write_fails WAIT_RESULT_TIMEOUT m)
  else
    let m := set_waiting (u16 (m_writers_waiting (fields m) - 1)) m in
    if negb (m_readers (fields m) =? 0) || m_writer_active (fields m) then Panic PANIC_KERNEL
    else Ok (set_active true m, Done (RWait WAIT_RESULT_SIGNAL)).
Definition TimedLockEx (cx : ctx) (timeout_ticks : Z) (m : M) : res (M * outcome pc ret) :=
  assert! (m_writers_waiting (fields m) <? WRITERS_MAX);
  let m := set_waiting (u16 (m_writers_waiting (fields m) + 1)) m in
  write_loop cx timeout_ticks (deadline_of cx timeout_ticks) m.

Definition Unlock (m : M) : res M :=
  assert! m_writer_active (fields m);
  let m := set_active false m in
  Ok (if negb (m_writers_waiting (fields m) =? 0) then WakeOne cv_writers m else WakeAll cv_readers m).

(** [ReadLock()], [Lock()]: what their loops do with the result of the timed call. *)
Definition Lock_again (result : EWaitResult) : res (option unit) :=
  match result with
  | WAIT_RESULT_CANCELED => Ok None
  | WAIT_RESULT_SIGNAL => Ok (Some ())
  | _ => Panic PANIC_KERNEL
  end.

Definition enter (cx : ctx) (c : call) (m : M) : res (M * outcome pc ret) :=
  match c with
  | CTimedReadLockEx timeout_ticks => TimedReadLockEx cx timeout_ticks m
  | CReadUnlock => m ← ReadUnlock m; Ok (m, Done RVoid)
  | CTimedLockEx timeout_ticks => TimedLockEx cx timeout_ticks m
  | CUnlock => m ← Unlock m; Ok (m, Done RVoid)
  end.
Definition resume (cx : ctx) (p : pc) (r : EWaitResult) (m : M) : res (M * outcome pc ret) :=
  match p with
  | InRead timeout_ticks deadline =>
      if bool_decide (r ≠ WAIT_RESULT_SIGNAL) then Ok (m, Done (RWait r)) else read_loop cx timeout_ticks deadline m
  | InWrite timeout_ticks deadline =>
      if bool_decide (r ≠ WAIT_RESULT_SIGNAL) then Ok (write_fails r m) else write_loop cx timeout_ticks deadline m
  end.
Definition pc_cv (p : pc) : nat := match p with InRead _ _ => cv_readers | InWrite _ _ => cv_writers end.

Definition prim : Primitive := mkPrimitive RWMutex call pc ret pc_cv enter resume.

Lemma write_fails_evolves r m : evolves m (write_fails r m).1.
Proof.
  unfold write_fails. cbv zeta. set (m1 := set_waiting _ m). cbn [fst].
  assert (H1 : evolves m m1) by (unfold m1, set_waiting; eauto with stk).
  destruct (negb _); [|done]. destruct (_ =? 0); [eapply evolves_trans; eauto with stk|].
  destruct (_ =? 0); [eapply evolves_trans; eauto with stk|done].
Qed.
Lemma read_loop_evolves cx to d m m' o : read_loop cx to d m = Ok (m', o) → evolves m m'.
Proof.
  unfold read_loop. destruct (_ || _).
  - destruct (CV_WaitEx _ _) as [[]|]; cbn; intros H; inv_res; eauto with stk.
  - intros H. inv_res. unfold set_readers. eauto with stk.
Qed.
Lemma write_loop_evolves cx to d m m' o : write_loop cx to d m = Ok (m', o) → evolves m m'.
Proof.
  unfold write_loop. destruct (_ || _).
  - destruct (CV_WaitEx _ _) as [[]|]; cbn [mbind res_bind]; [intros [= <- <-]; eauto with stk| |done].
    pose proof (write_fails_evolves WAIT_RESULT_TIMEOUT m) as Hf. destruct (write_fails _ m) as [m1 o1]. by intros [= <- <-].
  - cbv zeta. destruct (_ || _); [done|]. intros [= <- <-]. unfold set_active, set_waiting. eauto with stk.
Qed.

#[export] Instance rw_lawful : Lawful prim.
Proof.
  split; cbn.
  - intros cx [to| |to|] m m' o; cbn [enter].
    + apply read_loop_evolves.
    + unfold ReadUnlock. intros H. inv_res. case_match; [|unfold set_readers; eauto with stk].
      eapply evolves_trans; [|apply evolves_One]. unfold set_readers. eauto with stk.
    + unfold TimedLockEx. intros H. inv_res. eapply evolves_trans; [|by eapply write_loop_evolves]. unfold set_waiting. eauto with stk.
    + unfold Unlock. intros H. inv_res. assert (evolves m (set_active false m)) by (unfold set_active; eauto with stk).
      case_match; (eapply evolves_trans; [done|]); eauto with stk.
  - intros cx [to d|to d] r m m' o; cbn [resume]; case_match.
    + intros [= <- <-]. eauto with stk.
    + apply read_loop_evolves.
    + pose proof (write_fails_evolves r m) as Hf. destruct (write_fails r m). by intros [= <- <-].
    + apply write_loop_evolves.
  - intros cx [to| |to|] m m' to' p Hi; cbn [enter]; intros H.
    + unfold TimedReadLockEx, read_loop, CV_WaitEx in H. rewrite Hi in H. repeat case_match; inv_res; done.
    + inv_res.
    + unfold TimedLockEx, write_loop, CV_WaitEx, write_fails in H. rewrite Hi in H. inv_res. repeat case_match; inv_res; done.
    + inv_res.
Qed.

(** ** Exclusion and progress *)

(** How many read locks and write locks are held after a run. *)
Definition reads (l : label prim) : Z :=
  match l with
  | LCall _ (CTimedReadLockEx _) (Some (RWait WAIT_RESULT_SIGNAL)) => 1
  | LResume _ (InRead _ _) _ (Some (RWait WAIT_RESULT_SIGNAL)) => 1
  | LCall _ CReadUnlock (Some _) => -1
  | _ => 0
  end.
Definition writes (l : label prim) : Z :=
  match l with
  | LCall _ (CTimedLockEx _) (Some (RWait WAIT_RESULT_SIGNAL)) => 1
  | LResume _ (InWrite _ _) _ (Some (RWait WAIT_RESULT_SIGNAL)) => 1
  | LCall _ CUnlock (Some _) => -1
  | _ => 0
  end.
Definition is_writer (p : pc) : bool := match p with InWrite _ _ => true | InRead _ _ => false end.

(** Unlocking only what is locked. *)
Definition rw_pre (tr : list (label prim)) (cx : ctx) (c : call) : Prop :=
  match c with
  | CTimedReadLockEx _ | CTimedLockEx _ => c_isr cx = false
  | CReadUnlock => 0 < tally reads tr
  | CUnlock => 0 < tally writes tr
  end.

(** A writer that was woken by an unlock and has not looked at the lock yet. *)
Definition writer_in_flight (m : M) (susp : gmap Z pc) : Prop :=
  ∃ t p, susp !! t = Some p ∧ is_writer p = true ∧ woken m !! t = Some WAIT_RESULT_SIGNAL.

(** [k] is 1 inside the segment of a writer, which counts as waiting. *)
Record rw_inv (k R W : Z) (m : M) (susp : gmap Z pc) : Prop := {
  ri_readers : m_readers (fields m) = R ∧ 0 ≤ R ≤ READERS_MAX;
  ri_active : W = if m_writer_active (fields m) then 1 else 0;
  ri_excl : m_writer_active (fields m) = true → R = 0;
  ri_waiting : m_writers_waiting (fields m) = blocked_as is_writer susp + k ∧ m_writers_waiting (fields m) ≤ WRITERS_MAX;
  ri_rlist : wait_list cv_readers m ≠ [] → m_writer_active (fields m) = true ∨ m_writers_waiting (fields m) ≠ 0;
  ri_wlist : wait_list cv_writers m ≠ [] →
    m_writer_active (fields m) = true ∨ R ≠ 0 ∨ writer_in_flight m susp ∨ k = 1;
}.

Lemma u16_id x : 0 ≤ x ≤ 0xFFFF → u16 x = x.
Proof. intros. unfold u16. apply Z.mod_small. lia. Qed.

(** The head of the writers' list is a blocked writer; waking it puts one in
    flight. *)
Lemma listed_writer (m : M) (susp : gmap Z pc) t : wf_parts (P := prim) m susp → t ∈ wait_list cv_writers m →
  ∃ p, susp !! t = Some p ∧ is_writer p = true.
Proof. intros Hwf Ht. destruct (wf_listed _ _ Hwf _ _ Ht) as (_ & p & Hp & Ep). exists p. split; [done|]. by destruct p. Qed.

Lemma wake_writer (m : M) (susp : gmap Z pc) : wf_parts (P := prim) m susp → wait_list cv_writers m ≠ [] →
  writer_in_flight (WakeOne cv_writers m) susp.
Proof.
  intros Hwf Hne. destruct (wait_list cv_writers m) as [|t l] eqn:E; [done|].
  destruct (listed_writer m susp t Hwf) as (p & Hp & Hpw); [rewrite E; left|]. exists t, p. split_and!; [done|done|].
  rewrite woken_WakeOne, E, decide_True by done. done.
Qed.

(** Waking changes neither the fields nor the other list. *)
Lemma wl_wake (m : M) : wait_list cv_readers (WakeOne cv_writers m) = wait_list cv_readers m ∧
  wait_list cv_writers (WakeOne cv_writers m) = tail (wait_list cv_writers m) ∧
  wait_list cv_readers (WakeAll cv_readers m) = [] ∧ wait_list cv_writers (WakeAll cv_readers m) = wait_list cv_writers m.
Proof. rewrite !wait_list_WakeOne, !wait_list_WakeAll. done. Qed.

Lemma tail_nonnil {A} (l : list A) : tail l ≠ [] → l ≠ [].
Proof. by destruct l. Qed.

(** Waking readers leaves writers in flight alone. *)
Lemma flight_readers (m : M) (susp : gmap Z pc) : wf_parts (P := prim) m susp → writer_in_flight m susp →
  writer_in_flight (WakeAll cv_readers m) susp.
Proof.
  intros Hwf (t & p & Hp & Hw & Hs). exists t, p. split_and!; [done..|]. rewrite woken_WakeAll. by case_decide.
Qed.

(** A writer gives up its place. *)
Lemma write_fails_inv R W (m : M) (susp : gmap Z pc) r : wf_parts (P := prim) m susp → rw_inv 1 R W m susp → r ≠ WAIT_RESULT_SIGNAL →
  ∃ m', write_fails r m = (m', Done (RWait r)) ∧ rw_inv 0 R W m' susp.
Proof.
  intros Hwf [[Hr HR] Hact Hex [Hww Hmax] Hrl Hwl] _. unfold write_fails. cbv zeta.
  pose proof (blocked_nonneg is_writer susp) as Hnn. unfold WRITERS_MAX in *. rewrite u16_id by lia.
  set (m1 := set_waiting _ m). eexists. split; [done|].
  assert (Hwf1 : wf_parts (P := prim) m1 susp) by (by apply (wf_same (P := prim) m)).
  change (m_writer_active (fields m1)) with (m_writer_active (fields m)).
  change (m_writers_waiting (fields m1)) with (m_writers_waiting (fields m) - 1).
  change (m_readers (fields m1)) with (m_readers (fields m)). destruct (wl_wake m1) as (Wl1 & Wl2 & Wl3 & Wl4).
  destruct (m_writer_active (fields m)) eqn:Ea; cbn [negb].
  { split; cbn; rewrite ?Ea; try done; unfold WRITERS_MAX; auto; try lia. }
  assert (Hlist : wait_list cv_writers m ≠ [] → 0 < blocked_as is_writer susp).
  { intros Hne. destruct (wait_list cv_writers m) as [|t l] eqn:E; [done|].
    destruct (listed_writer m susp t Hwf) as (p & Hp & Hpw); [rewrite E; left|]. by eapply blocked_pos. }
  destruct (Z.eqb_spec (m_writers_waiting (fields m) - 1) 0) as [E0|E0].
  - split; rewrite ?fields_WakeAll, ?Wl3, ?Wl4; cbn; rewrite ?Ea; try done; unfold WRITERS_MAX; try lia.
    intros Hne. specialize (Hlist Hne). lia.
  - destruct (Z.eqb_spec (m_readers (fields m)) 0) as [Er|Er].
    + split; rewrite ?fields_WakeOne, ?Wl1, ?Wl2; cbn; rewrite ?Ea; try done; unfold WRITERS_MAX; try lia.
      intros Hne. right. right. left. apply wake_writer; [done|]. by apply tail_nonnil.
    + split; cbn; rewrite ?Ea; try done; unfold WRITERS_MAX; lia.
Qed.

(** What a segment leaves behind for a task [t] that was not blocked before. *)
Definition rw_after (R W : Z) (t : Z) (m : M) (susp : gmap Z pc) (read : bool) (o : outcome pc ret) : Prop :=
  match o with
  | Done (RWait WAIT_RESULT_SIGNAL) => if read then rw_inv 0 (R + 1) W m susp else rw_inv 0 R (W + 1) m susp
  | Done _ => rw_inv 0 R W m susp
  | Blocked _ p => is_writer p = negb read ∧ rw_inv 0 R W (AddWaitObject (pc_cv p) t m) (<[t := p]> susp)
  end.

Lemma flight_blocked (m : M) (susp : gmap Z pc) cv t p : susp !! t = None → writer_in_flight m susp →
  writer_in_flight (AddWaitObject cv t m) (<[t := p]> susp).
Proof.
  intros Hn (u & q & Hq & Hw & Hs). exists u, q. split_and!; [|done|done]. rewrite lookup_insert_ne by congruence. done.
Qed.

Lemma write_loop_inv R W (m : M) (susp : gmap Z pc) cx to d : wf_parts (P := prim) m susp → rw_inv 1 R W m susp →
  susp !! c_tid cx = None → c_isr cx = false →
  ∃ m' o, write_loop cx to d m = Ok (m', o) ∧ rw_after R W (c_tid cx) m' susp false o.
Proof.
  intros Hwf Hi Hn Hisr. pose proof Hi as [[Hr HR] Hact Hex [Hww Hmax] Hrl Hwl]. unfold write_loop.
  pose proof (blocked_nonneg is_writer susp) as Hnn. destruct (m_writer_active (fields m) || _) eqn:Ec.
  - assert (Hbusy : m_writer_active (fields m) = true ∨ R ≠ 0).
    { apply orb_true_iff in Ec as [?|Ec]; [by left|right]. apply negb_true_iff, Z.eqb_neq in Ec. congruence. }
    unfold CV_WaitEx. rewrite Hisr. destruct (negb (remaining cx to d =? NO_WAIT)); cbn [negb stk_assert mbind res_bind].
    + eexists _, _. split; [done|]. split; [done|]. rewrite <- (Z.add_0_r (blocked_as is_writer susp + 1)) in Hww.
      split; cbn [fields AddWaitObject]; try done; rewrite ?(blocked_insert is_writer _ _ _ Hn); cbn [is_writer]; try lia.
      intros _. destruct Hbusy; [by left|]. right. by left.
    + destruct (write_fails_inv R W m susp WAIT_RESULT_TIMEOUT Hwf Hi) as (m' & E & Hi'); [done|]. rewrite E. eauto.
  - apply orb_false_iff in Ec as [Ea Er]. apply negb_false_iff, Z.eqb_eq in Er. unfold WRITERS_MAX in *.
    cbv zeta. rewrite u16_id by lia. cbn [fields set_waiting set_fields m_readers m_writer_active]. rewrite Er, Ea. cbn.
    eexists _, _. split; [done|]. cbn. rewrite Ea in Hact. split; cbn; try done; try (unfold WRITERS_MAX; lia); by left.
Qed.

(** A reader that would enter still fits into the counter. *)
Definition readers_fit (m : M) : Prop := m_writer_active (fields m) = false →
  negb (m_writers_waiting (fields m) =? 0) = false → m_readers (fields m) < READERS_MAX.

Lemma read_loop_inv R W (m : M) (susp : gmap Z pc) cx to d : wf_parts (P := prim) m susp → rw_inv 0 R W m susp →
  susp !! c_tid cx = None → c_isr cx = false → readers_fit m →
  ∃ m' o, read_loop cx to d m = Ok (m', o) ∧ rw_after R W (c_tid cx) m' susp true o.
Proof.
  intros Hwf Hi Hn Hisr Hlt. pose proof Hi as [[Hr HR] Hact Hex [Hww Hmax] Hrl Hwl]. unfold read_loop.
  destruct (m_writer_active (fields m) || _) eqn:Ec.
  - assert (Hbusy : m_writer_active (fields m) = true ∨ m_writers_waiting (fields m) ≠ 0).
    { apply orb_true_iff in Ec as [?|Ec]; [by left|right]. by apply negb_true_iff, Z.eqb_neq in Ec. }
    unfold CV_WaitEx. rewrite Hisr. destruct (negb (remaining cx to d =? NO_WAIT)); cbn [negb stk_assert mbind res_bind].
    + eexists _, _. split; [done|]. split; [done|].
      split; cbn [fields AddWaitObject]; try done; rewrite ?(blocked_insert is_writer _ _ _ Hn); cbn [is_writer]; try lia.
      rewrite wait_list_Add, decide_False by done. intros Hne. destruct (Hwl Hne) as [?|[?|[?|?]]]; [by left|by right; left| |lia].
      right; right; left. by apply flight_blocked.
    + eexists _, _. split; [done|]. exact Hi.
  - apply orb_false_iff in Ec as [Ea Ew]. specialize (Hlt Ea Ew). rewrite (proj2 (Z.ltb_lt _ _) Hlt). cbn [stk_assert]. unfold READERS_MAX in *.
    rewrite u16_id by lia. eexists _, _. split; [done|]. cbn. split; cbn; try done; try (unfold READERS_MAX; lia).
    intros Ha. congruence.
Qed.

(** A task returns from its wait. *)
Lemma take_inv R W (m : M) (susp : gmap Z pc) t p r : wf_parts (P := prim) m susp → rw_inv 0 R W m susp →
  susp !! t = Some p → woken m !! t = Some r →
  rw_inv (if is_writer p then 1 else 0) R W (take_woken t m) (delete t susp).
Proof.
  intros Hwf [[Hr HR] Hact Hex [Hww Hmax] Hrl Hwl] Hp Hr'. split; cbn [fields take_woken]; try done.
  - split; [|done]. rewrite (blocked_delete is_writer _ _ _ Hp). destruct (is_writer p); lia.
  - change (wait_list ?cv (take_woken t m)) with (wait_list cv m). intros Hne.
    destruct (Hwl Hne) as [?|[?|[(u & q & Hq & Hw & Hs)|?]]]; [by left|by right; left| |lia].
    right; right. destruct (decide (u = t)) as [->|Hut].
    + right. rewrite Hp in Hq. injection Hq as <-. by rewrite Hw.
    + left. exists u, q. cbn. rewrite !lookup_delete_ne by done. done.
Qed.

Lemma abort_rw_inv R W (m : M) (susp : gmap Z pc) t p r : wf_parts (P := prim) m susp → rw_inv 0 R W m susp →
  susp !! t = Some p → t ∈ wait_list (pc_cv p) m → rw_inv 0 R W (RemoveWaitObject (pc_cv p) t r m) susp.
Proof.
  intros Hwf [[Hr HR] Hact Hex [Hww Hmax] Hrl Hwl] Hp Hl. destruct (wf_listed _ _ Hwf _ _ Hl) as (Hw0 & _).
  assert (Hsub : ∀ cv, wait_list cv (RemoveWaitObject (pc_cv p) t r m) ≠ [] → wait_list cv m ≠ []).
  { intros cv Hne E. rewrite wait_list_Remove in Hne. case_decide as Hc; [|done]. subst cv. rewrite E in Hne. done. }
  split; cbn [fields RemoveWaitObject]; try done.
  - intros Hne. apply Hrl, Hsub, Hne.
  - intros Hne. destruct (Hwl (Hsub _ Hne)) as [?|[?|[(u & q & Hq & Hw & Hs)|?]]]; [by left|by right; left| |lia].
    right; right; left. exists u, q. split_and!; [done|done|]. cbn. rewrite lookup_insert_ne; [done|]. intros ->.
    change (woken m !! u = None) in Hw0. congruence.
Qed.

Lemma read_unlock_inv R W (m : M) (susp : gmap Z pc) : wf_parts (P := prim) m susp → rw_inv 0 R W m susp → 0 < R →
  ∃ m', ReadUnlock m = Ok m' ∧ rw_inv 0 (R - 1) W m' susp.
Proof.
  intros Hwf [[Hr HR] Hact Hex [Hww Hmax] Hrl Hwl] Hpos. unfold ReadUnlock, READERS_MAX in *.
  rewrite (proj2 (Z.eqb_neq _ 0)) by lia. cbn [negb stk_assert]. rewrite u16_id by lia. set (m1 := set_readers _ m).
  assert (Hwf1 : wf_parts (P := prim) m1 susp) by (by apply (wf_same (P := prim) m)). eexists. split; [done|].
  assert (Ha : m_writer_active (fields m) = false) by (destruct (m_writer_active (fields m)); [specialize (Hex eq_refl); lia|done]).
  change (m_readers (fields m1)) with (m_readers (fields m) - 1). destruct (wl_wake m1) as (Wl1 & Wl2 & _ & _).
  destruct (Z.eqb_spec (m_readers (fields m) - 1) 0) as [E0|E0].
  - split; rewrite ?fields_WakeOne, ?Wl1, ?Wl2; cbn; rewrite ?Ha in *; try done; try (unfold READERS_MAX; lia).
    intros Hne. right; right; left. apply wake_writer; [done|]. by apply tail_nonnil.
  - split; cbn; rewrite ?Ha in *; try done; try (unfold READERS_MAX; lia).
Qed.

Lemma unlock_rw_inv R (m : M) (susp : gmap Z pc) : wf_parts (P := prim) m susp → rw_inv 0 R 1 m susp →
  ∃ m', Unlock m = Ok m' ∧ rw_inv 0 R 0 m' susp.
Proof.
  intros Hwf [[Hr HR] Hact Hex [Hww Hmax] Hrl Hwl]. unfold Unlock.
  destruct (m_writer_active (fields m)) eqn:Ea; [|done]. cbn [stk_assert]. set (m1 := set_active false m).
  assert (Hwf1 : wf_parts (P := prim) m1 susp) by (by apply (wf_same (P := prim) m)). eexists. split; [done|].
  change (m_writers_waiting (fields m1)) with (m_writers_waiting (fields m)). destruct (wl_wake m1) as (Wl1 & Wl2 & Wl3 & Wl4).
  destruct (Z.eqb_spec (m_writers_waiting (fields m)) 0) as [E0|E0]; cbn [negb].
  - split; rewrite ?fields_WakeAll, ?Wl3, ?Wl4; cbn; try done. intros Hne.
    destruct (wait_list cv_writers m1) as [|t l] eqn:E; [done|]. exfalso.
    destruct (listed_writer m1 susp t Hwf1) as (p & Hp & Hpw); [rewrite E; left|].
    pose proof (blocked_pos is_writer susp t p Hp Hpw). lia.
  - split; rewrite ?fields_WakeOne, ?Wl1, ?Wl2; cbn; try done.
    + intros _. by right.
    + intros Hne. right; right; left. apply wake_writer; [done|]. by apply tail_nonnil.
Qed.

(** Returning from a wait: the rest of the call. *)
Lemma resume_rw_inv R W (m : M) (susp : gmap Z pc) cx p r : wf_parts (P := prim) m susp → rw_inv 0 R W m susp →
  susp !! c_tid cx = Some p → woken m !! c_tid cx = Some r → c_isr cx = false → (is_writer p = false → r = WAIT_RESULT_SIGNAL → readers_fit m) →
  ∃ m' o, resume cx p r (take_woken (c_tid cx) m) = Ok (m', o) ∧
    rw_after R W (c_tid cx) m' (delete (c_tid cx) susp) (negb (is_writer p)) o.
Proof.
  intros Hwf Hi Hp Hr Hisr Hlt. pose proof (take_inv R W m susp _ p r Hwf Hi Hp Hr) as Hi'.
  assert (Hwf' : wf_parts (P := prim) (take_woken (c_tid cx) m) (delete (c_tid cx) susp)) by (eapply (wf_take (P := prim)); [done|done|by eexists]).
  assert (Hn : delete (c_tid cx) susp !! c_tid cx = None) by apply lookup_delete_eq.
  destruct p as [to d|to d]; cbn [resume is_writer negb] in *; case_bool_decide as Hs.
  - eexists _, _. split; [done|]. cbn. by destruct r.
  - apply read_loop_inv; auto.
  - destruct (write_fails_inv R W _ _ r Hwf' Hi' Hs) as (m' & E & Hi''). rewrite E. eexists _, _. split; [done|]. cbn. by destruct r.
  - by apply write_loop_inv.
Qed.

Lemma enter_rw_inv (m : M) (susp : gmap Z pc) cx to read R W : wf_parts (P := prim) m susp → rw_inv 0 R W m susp →
  susp !! c_tid cx = None → c_isr cx = false →
  (if (read : bool) then readers_fit m else m_writers_waiting (fields m) < WRITERS_MAX) →
  ∃ m' o, (if read then TimedReadLockEx cx to m else TimedLockEx cx to m) = Ok (m', o) ∧
    rw_after R W (c_tid cx) m' susp read o.
Proof.
  intros Hwf Hi Hn Hisr Hlt. destruct read; [by apply read_loop_inv|]. unfold TimedLockEx.
  rewrite (proj2 (Z.ltb_lt _ _) Hlt). cbn [stk_assert]. destruct Hi as [[Hr HR] Hact Hex [Hww Hmax] Hrl Hwl].
  pose proof (blocked_nonneg is_writer susp). unfold WRITERS_MAX in *. rewrite u16_id by lia.
  apply write_loop_inv; [by apply (wf_same (P := prim) m)| |done|done]. split; cbn; try done; try (unfold WRITERS_MAX; lia).
Qed.

(** What the steps do to the counts. *)
Lemma rw_after_read (R W : Z) t m susp o tr lab : reads lab = (match o with Done (RWait WAIT_RESULT_SIGNAL) => 1 | _ => 0 end) →
  writes lab = 0 → R = tally reads tr → W = tally writes tr → rw_after R W t m susp true o →
  let w' := finish (P := prim) t m o susp in
  rw_inv 0 (tally reads (tr ++ [lab])) (tally writes (tr ++ [lab])) (w_mon w') (w_susp w').
Proof.
  intros Er Ew -> -> H. rewrite !tally_snoc, Er, Ew, Z.add_0_r. destruct o as [[[]|]|to p]; cbn in *; rewrite ?Z.add_0_r; try done. apply H.
Qed.
Lemma rw_after_write (R W : Z) t m susp o tr lab : writes lab = (match o with Done (RWait WAIT_RESULT_SIGNAL) => 1 | _ => 0 end) →
  reads lab = 0 → R = tally reads tr → W = tally writes tr → rw_after R W t m susp false o →
  let w' := finish (P := prim) t m o susp in
  rw_inv 0 (tally reads (tr ++ [lab])) (tally writes (tr ++ [lab])) (w_mon w') (w_susp w').
Proof.
  intros Er Ew -> -> H. rewrite !tally_snoc, Er, Ew, Z.add_0_r. destruct o as [[[]|]|to p]; cbn in *; rewrite ?Z.add_0_r; try done. apply H.
Qed.

(** The assertion of the code: a reader that entered did fit. *)
Lemma read_loop_fits cx to d (m m' : M) o : read_loop cx to d m = Ok (m', o) → readers_fit m.
Proof. unfold read_loop. intros H Ha Hw. rewrite Ha, Hw in H. cbn in H. inv_res. by apply Z.ltb_lt. Qed.

Lemma rw_step tr (w w' : World prim) l : wf w → rw_inv 0 (tally reads tr) (tally writes tr) (w_mon w) (w_susp w) →
  step rw_pre tr w l w' → rw_inv 0 (tally reads (tr ++ [l])) (tally writes (tr ++ [l])) (w_mon w') (w_susp w').
Proof.
  intros Hw Hi Hs. destruct Hs as [w cx c m o Hpre Hn E|w cx p r m o Hisr Hp Hr E|w t p r Hr Hp Hl]; unfold wf in Hw;
    destruct w as [m0 susp]; cbn [p_fields p_call p_pc p_ret p_cv p_enter p_resume prim w_mon w_susp] in *.
  - destruct c as [to| |to|]; cbn [enter rw_pre] in E, Hpre.
    + destruct (enter_rw_inv m0 susp cx to true _ _ Hw Hi (Hn Hpre) Hpre) as (m' & o' & E' & Ha);
        [by eapply read_loop_fits|]. cbn in E'. rewrite E' in E. injection E as <- <-.
      eapply rw_after_read; [|done..]. by destruct o' as [[[]|]|].
    + destruct (read_unlock_inv _ _ m0 susp Hw Hi Hpre) as (m' & E' & Ha). rewrite E' in E. injection E as <- <-.
      rewrite !tally_snoc. cbn. by rewrite Z.add_0_r.
    + destruct (enter_rw_inv m0 susp cx to false _ _ Hw Hi (Hn Hpre) Hpre) as (m' & o' & E' & Ha).
      { unfold TimedLockEx in E. inv_res. by apply Z.ltb_lt. }
      cbn in E'. rewrite E' in E. injection E as <- <-. eapply rw_after_write; [|done..]. by destruct o' as [[[]|]|].
    + assert (EW : tally writes tr = 1) by (rewrite (ri_active _ _ _ _ _ Hi) in Hpre |- *; by destruct (m_writer_active (fields m0))).
      rewrite EW in Hi. destruct (unlock_rw_inv _ m0 susp Hw Hi) as (m' & E' & Ha). rewrite E' in E. injection E as <- <-.
      rewrite !tally_snoc, EW. cbn. by rewrite Z.add_0_r.
  - destruct (resume_rw_inv _ _ m0 susp cx p r Hw Hi Hp Hr Hisr) as (m' & o' & E' & Ha).
    { destruct p as [to d|to d]; [|done]. intros _ ->. cbn [resume] in E. rewrite bool_decide_eq_false_2 in E by (intros H; by apply H).
      by apply read_loop_fits in E. }
    rewrite E' in E. injection E as <- <-. destruct p as [to d|to d]; cbn [is_writer negb] in Ha.
    + eapply rw_after_read; [|done..]. by destruct o' as [[[]|]|].
    + eapply rw_after_write; [|done..]. by destruct o' as [[[]|]|].
  - rewrite !tally_snoc. cbn [reads writes]. rewrite !Z.add_0_r. by apply abort_rw_inv.
Qed.

Lemma rw_init : rw_inv 0 0 0 (init RWMutex_ctor) ∅.
Proof. split; cbn; unfold READERS_MAX, WRITERS_MAX, blocked_as; try done; rewrite ?map_filter_empty, ?map_size_empty; try done; lia. Qed.

Lemma rw_run_inv tr (w : World prim) : run rw_pre (mkWorld (P := prim) (init RWMutex_ctor) ∅) tr w →
  wf w ∧ rw_inv 0 (tally reads tr) (tally writes tr) (w_mon w) (w_susp w).
Proof.
  apply (run_ind_wf (P := prim) rw_pre RWMutex_ctor (λ tr w, rw_inv 0 (tally reads tr) (tally writes tr) (w_mon w) (w_susp w)));
    [apply rw_init|]. intros ? ? ? ? H1 _ H3 H4. exact (rw_step _ _ _ _ H1 H3 H4).
Qed.

(** C22. Exclusion of the reader-writer lock.  In every run in which only held
    locks are released: there is at most one writer, and none while there are
    readers; the counter is the number of readers; and as long as the counters
    are below their 16-bit limits, no call and no return from a wait fails an
    assertion or a kernel check. *)
Theorem rw_exclusion tr (w : World prim) : run rw_pre (mkWorld (P := prim) (init RWMutex_ctor) ∅) tr w →
  let m : M := w_mon w in
  0 ≤ tally writes tr ≤ 1 ∧ 0 ≤ tally reads tr ∧ (tally writes tr = 1 → tally reads tr = 0) ∧
  m_readers (fields m) = tally reads tr ∧ (m_writer_active (fields m) = true ↔ tally writes tr = 1) ∧
  (m_readers (fields m) < READERS_MAX → m_writers_waiting (fields m) < WRITERS_MAX →
    (∀ cx c, rw_pre tr cx c → w_susp w !! c_tid cx = None → ∃ m' o, enter cx c m = Ok (m', o)) ∧
    (∀ cx p r, c_isr cx = false → w_susp w !! c_tid cx = Some p → woken m !! c_tid cx = Some r →
       ∃ m' o, resume cx p r (take_woken (c_tid cx) m) = Ok (m', o))).
Proof.
  intros Hrun. apply rw_run_inv in Hrun as [Hw Hi]. intros m. destruct w as [m0 susp].
  cbn [p_fields p_call p_pc p_ret p_cv p_enter p_resume prim w_mon w_susp] in *. subst m.
  pose proof Hi as [[Hr HR] Hact Hex [Hww Hmax] _ _]. split_and!; try (destruct (m_writer_active (fields m0)); lia); try lia.
  intros Hl1 Hl2. assert (Hf : readers_fit m0) by (by intros _ _). split.
  - intros cx c Hpre Hn. destruct c as [to| |to|]; cbn [enter rw_pre] in *.
    + destruct (enter_rw_inv m0 susp cx to true _ _ Hw Hi Hn Hpre Hf) as (m' & o' & E' & _). eauto.
    + destruct (read_unlock_inv _ _ m0 susp Hw Hi Hpre) as (m' & -> & _). cbn. eauto.
    + destruct (enter_rw_inv m0 susp cx to false _ _ Hw Hi Hn Hpre Hl2) as (m' & o' & E' & _). eauto.
    + unfold Unlock. destruct (m_writer_active (fields m0)); [cbn; eauto|lia].
  - intros cx p r Hisr Hp Hr'. destruct (resume_rw_inv _ _ m0 susp cx p r Hw Hi Hp Hr' Hisr) as (m' & o & ? & _); eauto.
Qed.

(** C23. No task is left waiting for a free lock.  Whenever neither a reader nor a
    writer has the lock and some task is on one of the two wait lists, a writer
    has been taken off its list and is about to look at the lock; a listed
    writer even implies one that was woken by a signal. *)
Theorem rw_no_stranded_waiter tr (w : World prim) : run rw_pre (mkWorld (P := prim) (init RWMutex_ctor) ∅) tr w →
  let m : M := w_mon w in
  tally reads tr = 0 → tally writes tr = 0 →
  (wait_list cv_writers m ≠ [] → writer_in_flight m (w_susp w)) ∧
  (wait_list cv_readers m ≠ [] → ∃ t p, w_susp w !! t = Some p ∧ is_writer p = true ∧ is_Some (woken m !! t)).
Proof.
  intros Hrun. apply rw_run_inv in Hrun as [Hw Hi]. intros m ER EW. destruct w as [m0 susp].
  cbn [p_fields p_call p_pc p_ret p_cv p_enter p_resume prim w_mon w_susp] in *. subst m. rewrite ER, EW in Hi.
  destruct Hi as [[Hr HR] Hact Hex [Hww Hmax] Hrl Hwl].
  assert (Ea : m_writer_active (fields m0) = false) by (by destruct (m_writer_active (fields m0))). rewrite Ea in *.
  assert (Hfl : wait_list cv_writers m0 ≠ [] → writer_in_flight m0 susp) by (intros Hne; destruct (Hwl Hne) as [?|[?|[?|?]]]; done || lia).
  split; [done|]. intros Hne. destruct (Hrl Hne) as [?|Hnz]; [done|]. pose proof (blocked_nonneg is_writer susp).
  destruct (blocked_pos_inv is_writer susp) as (t & p & Hp & Hpw); [lia|].
  destruct (wf_blocked (P := prim) m0 susp Hw t p Hp) as [?|Hl]; [by exists t, p|].
  destruct Hfl as (u & q & ? & ? & Hu).
  { intros E. destruct p; [done|]. change (t ∈ wait_list cv_writers m0) in Hl. rewrite E in Hl. by apply not_elem_of_nil in Hl. }
  exists u, q. split_and!; [done|done|by rewrite Hu].
Qed.

(** A writer unlocks while a reader and two writers wait. *)
Definition ex_cx (t : Z) : ctx := mkCtx t 0 false.
Definition ex_world0 : World prim := mkWorld (P := prim) (init RWMutex_ctor) ∅.
Definition ex_preb (tr : list (label prim)) (cx : ctx) (c : call) : bool :=
  match c with
  | CTimedReadLockEx _ | CTimedLockEx _ => negb (c_isr cx)
  | CReadUnlock => 0 <? tally reads tr
  | CUnlock => 0 <? tally writes tr
  end.
Definition ex_call (t : Z) (c : call) : action prim := ACall (P := prim) (ex_cx t) c.
Definition ex_acts : list (action prim) :=
  [ex_call 1 (CTimedLockEx 10); ex_call 2 (CTimedReadLockEx 10); ex_call 3 (CTimedLockEx 10); ex_call 4 (CTimedLockEx 10); ex_call 1 CUnlock].
Definition ex_end : list (label prim) * World prim := exec_all ex_preb ex_acts ex_world0.
Lemma rw_ex_run : run rw_pre ex_world0 ex_end.1 ex_end.2.
Proof.
  apply exec_all_run. intros tr cx c. unfold ex_preb, rw_pre.
  destruct c; rewrite ?negb_true_iff, ?Z.ltb_lt; done.
Qed.

Lemma rw_exclusion_witness : tally writes ex_end.1 = 0 ∧ m_readers (fields (w_mon ex_end.2)) = tally reads ex_end.1.
Proof. split; [vm_compute; reflexivity|]. apply (rw_exclusion ex_end.1 ex_end.2 rw_ex_run). Defined.

Lemma rw_no_stranded_waiter_witness : wait_list cv_readers (w_mon ex_end.2) = [2] ∧ wait_list cv_writers (w_mon ex_end.2) = [4] ∧
  writer_in_flight (w_mon ex_end.2) (w_susp ex_end.2).
Proof.
  split; [vm_compute; reflexivity|]. split; [vm_compute; reflexivity|].
  apply (rw_no_stranded_waiter ex_end.1 ex_end.2 rw_ex_run); vm_compute; [reflexivity|reflexivity|discriminate].
Defined.
End RWMutex.
