(* ===== verification/MessageQueue.v ===== *)
(** * Message queue ([MessageQueue] of [stk_sync_msgqueue.h])

    A circular buffer of [m_capacity] slots of [m_msg_size] bytes, with one
    condition variable for producers and one for consumers.  The theorems show
    that it is a bounded queue of messages ([spec_step]), and that no producer
    waits beside free slots nor a consumer beside messages that nobody was woken
    for.  Indices and counts are natural numbers: they stay below
    [CAPACITY_MAX], far inside [size_t]. *)

From S2P Require Import Prelude KernelTask Buffer Monitor.
Import KTask Monitor.
Local Open Scope nat_scope.

Module MessageQueue.
Notation msg := (list Z).

Record MessageQueue := mkMQ {
  m_buffer : list Z; m_capacity : nat; m_msg_size : nat; m_count : nat; m_head : nat; m_tail : nat }.
Notation M := (Mon MessageQueue).

(** [m_cv_not_empty] and [m_cv_not_full]. *)
Definition cv_not_empty : nat := 0.
Definition cv_not_full : nat := 1.
Definition CAPACITY_MAX : Z := 0xFFFE.

(** The constructor. *)
Definition MessageQueue_ctor (buf : list Z) (capacity msg_size : nat) : res MessageQueue :=
  assert! (1 <=? capacity);
  assert! (Z.of_nat capacity <=? CAPACITY_MAX)%Z;
  assert! (1 <=? msg_size);
  Ok (mkMQ buf capacity msg_size 0 0 0).

(** The storage: a slot, and the slots beside it. *)
Definition Slot (q : MessageQueue) (idx : nat) : msg := take (m_msg_size q) (drop (idx * m_msg_size q) (m_buffer q)).
Definition Next (q : MessageQueue) (idx : nat) : nat := (idx + 1) `mod` m_capacity q.
Definition Prev (q : MessageQueue) (idx : nat) : nat := if idx =? 0 then m_capacity q - 1 else idx - 1.
(** [STK_MEMCPY(Slot(idx), msg_ptr, m_msg_size)]. *)
Definition write_slot (q : MessageQueue) (idx : nat) (x : msg) : list Z :=
  splice (idx * m_msg_size q) (take (m_msg_size q) x) (m_buffer q).

(** Operations that may wait, with their arguments, and the other ones. *)
Inductive op := PutEx (x : msg) | PutFrontEx (x : msg) | GetEx | PeekEx | PeekFrontEx.
Inductive call := COp (o : op) (timeout_ticks : Z) | CReset.
Inductive ret := RWait (r : EWaitResult) (out : option msg) | RVoid.
(** A blocked call remembers its operation, its timeout and its deadline. *)
Record pc := mkPc { pc_op : op; pc_timeout : Z; pc_deadline : Z }.

(** [WaitNotFull], [WaitNotEmpty]: one turn of the loop. *)
Definition WaitNotFull (cx : ctx) (timeout_ticks deadline : Z) (q : MessageQueue) : res (EWaitResult + Z) :=
  if m_count q =? m_capacity q then cv_wait32 cx timeout_ticks deadline else Ok (inl WAIT_RESULT_SIGNAL).
Definition WaitNotEmpty (cx : ctx) (timeout_ticks deadline : Z) (q : MessageQueue) : res (EWaitResult + Z) :=
  if m_count q =? 0 then cv_wait32 cx timeout_ticks deadline else Ok (inl WAIT_RESULT_SIGNAL).

(** What each operation does once it need not wait. *)
Definition PutEx_store (x : msg) (q : MessageQueue) : MessageQueue :=
  mkMQ (write_slot q (m_head q) x) (m_capacity q) (m_msg_size q) (m_count q + 1) (Next q (m_head q)) (m_tail q).
Definition PutFrontEx_store (x : msg) (q : MessageQueue) : MessageQueue :=
  let tail := Prev q (m_tail q) in
  mkMQ (write_slot q tail x) (m_capacity q) (m_msg_size q) (m_count q + 1) (m_head q) tail.
Definition GetEx_take (q : MessageQueue) : MessageQueue :=
  mkMQ (m_buffer q) (m_capacity q) (m_msg_size q) (m_count q - 1) (m_head q) (Next q (m_tail q)).
Definition commit (o : op) (m : M) : M * option msg :=
  let q := fields m in
  match o with
  | PutEx x => (WakeOne cv_not_empty (set_fields (PutEx_store x q) m), None)
  | PutFrontEx x => (WakeOne cv_not_empty (set_fields (PutFrontEx_store x q) m), None)
  | GetEx => (WakeOne cv_not_full (set_fields (GetEx_take q) m), Some (Slot q (m_tail q)))
  | PeekEx | PeekFrontEx => (WakeOne cv_not_empty m, Some (Slot q (m_tail q)))
  end.

Definition is_put (o : op) : bool := match o with PutEx _ | PutFrontEx _ => true | _ => false end.

(** From the head of the loop to the end of the call, or to the wait. *)
Definition attempt (cx : ctx) (o : op) (timeout_ticks deadline : Z) (m : M) : res (M * outcome pc ret) :=
  w ← (if is_put o then WaitNotFull else WaitNotEmpty) cx timeout_ticks deadline (fields m);
  match w with
  | inr rem => Ok (m, Blocked rem (mkPc o timeout_ticks deadline))
  | inl WAIT_RESULT_SIGNAL => let '(m, out) := commit o m in Ok (m, Done (RWait WAIT_RESULT_SIGNAL out))
  | inl r => Ok (m, Done (RWait r None))
  end.
(** The calls [PutEx] .. [PeekFrontEx]. *)
Definition start (cx : ctx) (o : op) (timeout_ticks : Z) (m : M) : res (M * outcome pc ret) :=
  assert! negb (is_put o) || (Z.of_nat (m_count (fields m)) <=? CAPACITY_MAX - 1)%Z;
  attempt cx o timeout_ticks (deadline32 cx timeout_ticks) m.
Definition Reset (m : M) : M :=
  let q := fields m in
  WakeAll cv_not_full (set_fields (mkMQ (m_buffer q) (m_capacity q) (m_msg_size q) 0 0 0) m).

Definition enter (cx : ctx) (c : call) (m : M) : res (M * outcome pc ret) :=
  match c with
  | COp o timeout_ticks => start cx o timeout_ticks m
  | CReset => Ok (Reset m, Done RVoid)
  end.
Definition resume (cx : ctx) (p : pc) (r : EWaitResult) (m : M) : res (M * outcome pc ret) :=
  if bool_decide (r ≠ WAIT_RESULT_SIGNAL) then Ok (m, Done (RWait r None))
  else attempt cx (pc_op p) (pc_timeout p) (pc_deadline p) m.
Definition pc_cv (p : pc) : nat := if is_put (pc_op p) then cv_not_full else cv_not_empty.

Definition prim : Primitive := mkPrimitive MessageQueue call pc ret pc_cv enter resume.

Lemma commit_evolves o m : evolves m (commit o m).1.
Proof. destruct o; cbn [commit fst]; try apply evolves_One; (eapply evolves_trans; [|apply evolves_One]); eauto with stk. Qed.

(** How an attempt ends. *)
Lemma attempt_cases cx o to d m m' out : attempt cx o to d m = Ok (m', out) →
  (m_count (fields m) = (if is_put o then m_capacity (fields m) else 0) ∧ m' = m ∧
     (out = Done (RWait WAIT_RESULT_TIMEOUT None) ∨ c_isr cx = false ∧ ∃ rem, out = Blocked rem (mkPc o to d))) ∨
  (m_count (fields m) ≠ (if is_put o then m_capacity (fields m) else 0) ∧
     m' = (commit o m).1 ∧ out = Done (RWait WAIT_RESULT_SIGNAL (commit o m).2)).
Proof.
  unfold attempt. pose proof (cv_wait32_cases cx to d) as Hw.
  assert (Hgo : ∀ x, (if is_put o then WaitNotFull else WaitNotEmpty) cx to d (fields m) = x →
    (m_count (fields m) = (if is_put o then m_capacity (fields m) else 0) ∧ x = cv_wait32 cx to d) ∨
    (m_count (fields m) ≠ (if is_put o then m_capacity (fields m) else 0) ∧ x = Ok (inl WAIT_RESULT_SIGNAL))).
  { intros x <-. unfold WaitNotFull, WaitNotEmpty. destruct (is_put o);
      [destruct (Nat.eqb_spec (m_count (fields m)) (m_capacity (fields m)))|destruct (Nat.eqb_spec (m_count (fields m)) 0)]; auto. }
  destruct (Hgo _ eq_refl) as [[Hc E]|[Hc E]]; rewrite E.
  - destruct (cv_wait32 cx to d) as [w|] eqn:Ew; cbn [mbind res_bind]; [|done].
    destruct (Hw w eq_refl) as [->|(Hi & rem & ->)]; intros [= <- <-]; left; split; eauto 6.
  - cbn [mbind res_bind]. destruct (commit o m) as [m1 x]. intros [= <- <-]. right. auto.
Qed.

#[export] Instance mq_lawful : Lawful prim.
Proof.
  assert (Ha : ∀ cx o to d m m' out, attempt cx o to d m = Ok (m', out) → evolves m m').
  { intros * [(_ & -> & _)|(_ & -> & _)]%attempt_cases; [eauto with stk|apply commit_evolves]. }
  split; cbn.
  - intros cx [o to|] m m' out; cbn [enter]; [unfold start; intros H; inv_res; eauto|intros [= <- <-]].
    unfold Reset. eapply evolves_trans; [|apply evolves_All]. eauto with stk.
  - intros cx p r m m' out. unfold resume. case_match; [intros [= <- <-]; eauto with stk|apply Ha].
  - intros cx [o to|] m m' rem p Hi; cbn [enter]; [|done]. unfold start. intros H. inv_res.
    match goal with H : attempt _ _ _ _ _ = _ |- _ => apply attempt_cases in H as [(_ & _ & [?|[? _]])|(_ & _ & ?)]; [done|congruence|done] end.
Qed.

(** ** A circular buffer holds a sequence of messages *)

Record ring_inv (cap n : nat) (q : MessageQueue) : Prop := {
  qi_cap : m_capacity q = cap;
  qi_size : m_msg_size q = n;
  qi_length : length (m_buffer q) = cap * n;
  qi_count : m_count q ≤ cap;
  qi_tail : m_tail q < cap;
  qi_head : m_head q = (m_tail q + m_count q) `mod` cap;
}.
Definition contents (q : MessageQueue) : list msg := (λ k, Slot q ((m_tail q + k) `mod` m_capacity q)) <$> seq 0 (m_count q).
Global Arguments Slot : simpl never.
Global Arguments Next : simpl never.
Global Arguments Prev : simpl never.

Lemma length_contents q : length (contents q) = m_count q.
Proof. unfold contents. by rewrite length_fmap, length_seq. Qed.

Lemma slot_fits cap n i : i < cap → i * n + n ≤ cap * n.
Proof. nia. Qed.
Lemma slot_apart n i j x : i ≠ j → x < n → ¬ (i * n ≤ j * n + x < i * n + n).
Proof. intros. destruct (Nat.lt_total i j) as [?|[?|?]]; nia. Qed.

(** Writing a slot changes that slot and no other. *)
Lemma Slot_write cap n q q' i j x : ring_inv cap n q → length x = n → i < cap → j < cap →
  m_buffer q' = write_slot q i x → m_msg_size q' = n → Slot q' j = if decide (i = j) then x else Slot q j.
Proof.
  intros [_ En El _ _ _] Hx Hi Hj Eb En'. unfold Slot, write_slot in *. rewrite En', Eb, En, (take_ge x n) by lia.
  pose proof (slot_fits cap n i Hi) as Hf. case_decide as Hij.
  - subst j. rewrite <- (take_ge x n) at 2 by lia. rewrite <- (drop_0 x) at 2. apply take_drop_ext. intros k Hk.
    rewrite lookup_splice, decide_True by lia. f_equal. lia.
  - apply take_drop_ext. intros k Hk. rewrite lookup_splice by lia. rewrite decide_False; [done|]. rewrite Hx. by apply slot_apart.
Qed.

Lemma map_seq_ext {A} (f g : nat → A) a b n : (∀ k, k < n → f (a + k) = g (b + k)) → f <$> seq a n = g <$> seq b n.
Proof.
  revert a b. induction n as [|n IH]; intros a b H; [done|]. cbn. f_equal; [specialize (H 0); rewrite !Nat.add_0_r in H; apply H; lia|].
  apply IH. intros k Hk. rewrite !Nat.add_succ_comm. apply H. lia.
Qed.

Ltac ring_lia := first [lia|rewrite !mod_ring by lia; repeat case_decide; lia].

Lemma put_store cap n q x : ring_inv cap n q → length x = n → m_count q < cap →
  ring_inv cap n (PutEx_store x q) ∧ contents (PutEx_store x q) = contents q ++ [x].
Proof.
  intros Hq Hx Hc. pose proof Hq as [Ec En El _ Ht Eh].
  assert (Hh : m_head q < cap) by (rewrite Eh; ring_lia). split.
  - split; cbn [PutEx_store m_capacity m_msg_size m_buffer m_count m_tail m_head]; try done; try lia.
    + unfold write_slot. rewrite length_splice; [done|]. rewrite length_take, En. pose proof (slot_fits cap n _ Hh). lia.
    + unfold Next. by rewrite Ec, Eh, Nat.Div0.add_mod_idemp_l, Nat.add_assoc.
  - unfold contents at 1. cbn [PutEx_store m_count m_tail m_capacity]. rewrite seq_app, fmap_app. cbn. f_equal.
    + apply map_seq_ext. intros k Hk. cbn [Nat.add]. rewrite (Slot_write cap n q (PutEx_store x q) (m_head q) _ x) by (rewrite ?Ec; done || ring_lia).
      rewrite decide_False; [done|]. rewrite Eh, Ec. rewrite !mod_ring by lia. repeat case_decide; lia.
    + rewrite (Slot_write cap n q (PutEx_store x q) (m_head q) _ x) by (rewrite ?Ec; done || ring_lia). by rewrite Ec, Eh, decide_True.
Qed.

Lemma put_front_store cap n q x : ring_inv cap n q → length x = n → m_count q < cap →
  ring_inv cap n (PutFrontEx_store x q) ∧ contents (PutFrontEx_store x q) = x :: contents q.
Proof.
  intros Hq Hx Hc. pose proof Hq as [Ec En El _ Ht Eh]. assert (Hp : Prev q (m_tail q) = if m_tail q =? 0 then cap - 1 else m_tail q - 1).
  { unfold Prev. by rewrite Ec. }
  assert (Hp' : Prev q (m_tail q) < cap) by (rewrite Hp; destruct (Nat.eqb_spec (m_tail q) 0); lia).
  assert (Hn : ∀ k, k < cap → (Prev q (m_tail q) + S k) `mod` cap = (m_tail q + k) `mod` cap).
  { intros k Hk. rewrite Hp. destruct (Nat.eqb_spec (m_tail q) 0); ring_lia. } split.
  - split; cbn [PutFrontEx_store m_capacity m_msg_size m_buffer m_count m_tail m_head]; try done; try lia.
    + unfold write_slot. rewrite length_splice; [done|]. rewrite length_take, En. pose proof (slot_fits cap n _ Hp'). lia.
    + rewrite Eh, Nat.add_1_r. symmetry. by apply Hn.
  - unfold contents at 1. cbn [PutFrontEx_store m_count m_tail m_capacity]. rewrite Nat.add_1_r. cbn. f_equal.
    + rewrite (Slot_write cap n q (PutFrontEx_store x q) (Prev q (m_tail q)) _ x) by (rewrite ?Ec; done || ring_lia).
      rewrite decide_True; [done|]. rewrite Ec. ring_lia.
    + apply map_seq_ext. intros k Hk. rewrite Ec. change (1 + k) with (S k). rewrite Hn by lia.
      rewrite (Slot_write cap n q (PutFrontEx_store x q) (Prev q (m_tail q)) _ x) by (rewrite ?Ec; done || ring_lia). rewrite decide_False; [done|].
      rewrite <- Hn by lia. rewrite mod_ring by lia. case_decide; lia.
Qed.

Lemma get_take cap n q : ring_inv cap n q → 0 < m_count q →
  ring_inv cap n (GetEx_take q) ∧ contents q = Slot q (m_tail q) :: contents (GetEx_take q).
Proof.
  intros Hq Hc. pose proof Hq as [Ec En El Hm Ht Eh].
  assert (Hn : ∀ k, k < cap → (Next q (m_tail q) + k) `mod` cap = (m_tail q + S k) `mod` cap).
  { intros k Hk. unfold Next. rewrite Ec. rewrite (mod_ring (m_tail q) 1) by lia. case_decide; ring_lia. } split.
  - split; cbn [GetEx_take m_capacity m_msg_size m_buffer m_count m_tail m_head]; try done; try lia.
    + unfold Next. rewrite Ec. ring_lia.
    + rewrite Hn by lia. rewrite Eh. f_equal. lia.
  - unfold contents. cbn [GetEx_take m_count m_tail m_capacity]. destruct (m_count q) as [|c] eqn:E; [lia|].
    rewrite Nat.sub_succ, Nat.sub_0_r. cbn. f_equal.
    + rewrite Nat.add_0_r, Ec, Nat.mod_small by lia. done.
    + apply map_seq_ext. intros k Hk. rewrite Ec. cbn [Nat.add]. rewrite Hn by lia. done.
Qed.

(** ** The queue as a bounded sequence of messages *)

Definition full_or_empty (cap : nat) (o : op) (l : list msg) : Prop := length l = if is_put o then cap else 0.
#[global] Instance full_or_empty_dec cap o l : Decision (full_or_empty cap o l).
Proof. unfold full_or_empty. apply _. Defined.

(** An operation that succeeds, with the message it delivers. *)
Definition spec_op (cap : nat) (o : op) (out : option msg) (l : list msg) : option (list msg) :=
  match o, out with
  | PutEx x, None => if length l <? cap then Some (l ++ [x]) else None
  | PutFrontEx x, None => if length l <? cap then Some (x :: l) else None
  | GetEx, Some y => match l with x :: l => if bool_decide (x = y) then Some l else None | [] => None end
  | PeekEx, Some y | PeekFrontEx, Some y => match l with x :: _ => if bool_decide (x = y) then Some l else None | [] => None end
  | _, _ => None
  end.
(** A call or a signalled task that looks at the queue: it succeeds, or the queue
    is full (empty) and it times out or waits. *)
Definition spec_try (cap : nat) (o : op) (result : option ret) (l : list msg) : option (list msg) :=
  match result with
  | Some (RWait WAIT_RESULT_SIGNAL out) => spec_op cap o out l
  | Some (RWait WAIT_RESULT_TIMEOUT None) | None => if decide (full_or_empty cap o l) then Some l else None
  | _ => None
  end.
Definition spec_step (cap : nat) (lab : label prim) (l : list msg) : option (list msg) :=
  match lab with
  | LCall _ (COp o _) result => spec_try cap o result l
  | LCall _ CReset (Some RVoid) => Some []
  | LCall _ CReset _ => None
  | LResume _ p WAIT_RESULT_SIGNAL result => spec_try cap (pc_op p) result l
  | LResume _ p r (Some (RWait r' None)) => if bool_decide (r = r') then Some l else None
  | LResume _ p r _ => None
  | LAbort _ _ => Some l
  end.
Definition replay (cap : nat) (tr : list (label prim)) : option (list msg) :=
  foldl (λ l lab, l ≫= spec_step cap lab) (Some []) tr.

Lemma replay_snoc cap tr lab l : replay cap tr = Some l → replay cap (tr ++ [lab]) = spec_step cap lab l.
Proof. unfold replay. rewrite foldl_app. by intros ->. Qed.

(** Messages have the size of a slot, timeouts 32 bits. *)
Definition op_ok (n : nat) (o : op) : Prop := match o with PutEx x | PutFrontEx x => length x = n | _ => True end.
Definition mq_pre (n : nat) (tr : list (label prim)) (cx : ctx) (c : call) : Prop :=
  match c with COp o to => op_ok n o ∧ in_i32 to | CReset => True end.
Definition pc_ok (n : nat) (p : pc) : Prop := op_ok n (pc_op p) ∧ in_i32 (pc_deadline p).

(** As long as tasks wait for a message, every message has a task that was woken
    for it, and likewise for free slots; [ke] and [kf] count the
    task that is running. *)
Record wake_inv (ke kf : Z) (m : M) (susp : gmap Z pc) : Prop := {
  wi_empty : wait_list cv_not_empty m ≠ [] → (Z.of_nat (m_count (fields m)) ≤ flight (P := prim) cv_not_empty m susp + ke)%Z;
  wi_full : wait_list cv_not_full m ≠ [] →
    (Z.of_nat (m_capacity (fields m)) - Z.of_nat (m_count (fields m)) ≤ flight (P := prim) cv_not_full m susp + kf)%Z;
}.
Record mq_inv (cap n : nat) (l : list msg) (m : M) (susp : gmap Z pc) : Prop := {
  mi_ring : ring_inv cap n (fields m);
  mi_contents : contents (fields m) = l;
  mi_wake : wake_inv 0 0 m susp;
  mi_ops t p : susp !! t = Some p → pc_ok n p;
}.

Lemma tail_cons_ne {A} (l : list A) : tail l ≠ [] → l ≠ [].
Proof. by destruct l. Qed.

(** Waking a consumer or a producer. *)
Lemma wake_one_inv (m0 m1 : M) (susp : gmap Z pc) cv : wf_parts (P := prim) m0 susp → lists m1 = lists m0 → woken m1 = woken m0 →
  wait_list cv (WakeOne cv m1) ≠ [] → (flight (P := prim) cv (WakeOne cv m1) susp = flight (P := prim) cv m0 susp + 1)%Z ∧ wait_list cv m0 ≠ [].
Proof.
  intros Hwf E1 E2. assert (Hwf1 : wf_parts (P := prim) m1 susp) by (by eapply (wf_same (P := prim))).
  assert (Ew : wait_list cv m1 = wait_list cv m0) by (unfold wait_list; by rewrite E1).
  rewrite wait_list_WakeOne, decide_True, Ew by done. intros Hne%tail_cons_ne. split; [|done].
  etransitivity; [exact (flight_WakeOne (P := prim) cv cv m1 susp Hwf1)|]. rewrite (bool_decide_eq_true_2 (cv = cv)), (bool_decide_eq_true_2 (_ ≠ [])) by (done || (change (wait_list cv m1 ≠ []); congruence)). cbn [andb b2z]. f_equal. by apply (flight_same (P := prim)).
Qed.
Lemma wake_other (m0 m1 : M) (susp : gmap Z pc) cv cv' : wf_parts (P := prim) m0 susp → lists m1 = lists m0 → woken m1 = woken m0 → cv ≠ cv' →
  wait_list cv' (WakeOne cv m1) = wait_list cv' m0 ∧ flight (P := prim) cv' (WakeOne cv m1) susp = flight (P := prim) cv' m0 susp.
Proof.
  intros Hwf E1 E2 Hne. assert (Hwf1 : wf_parts (P := prim) m1 susp) by (by eapply (wf_same (P := prim))).
  rewrite wait_list_WakeOne, decide_False by done. split; [unfold wait_list; by rewrite E1|].
  etransitivity; [exact (flight_WakeOne (P := prim) cv cv' m1 susp Hwf1)|]. rewrite (bool_decide_eq_false_2 (cv = cv')) by done. cbn [andb b2z]. rewrite Z.add_0_r. by apply (flight_same (P := prim)).
Qed.

(** An operation that goes ahead. *)
Lemma commit_inv cap n (m : M) (susp : gmap Z pc) o : wf_parts (P := prim) m susp → ring_inv cap n (fields m) → op_ok n o →
  wake_inv (if is_put o then 0 else 1) (if is_put o then 1 else 0) m susp →
  m_count (fields m) ≠ (if is_put o then m_capacity (fields m) else 0) →
  ring_inv cap n (fields (commit o m).1) ∧ wake_inv 0 0 (commit o m).1 susp ∧
  spec_op cap o (commit o m).2 (contents (fields m)) = Some (contents (fields (commit o m).1)).
Proof.
  intros Hwf Hq Ho [We Wf] Hc. pose proof (qi_count _ _ _ Hq). pose proof (qi_cap _ _ _ Hq) as Ec.
  assert (Hput : ∀ q', (m_count q' = m_count (fields m) + 1)%nat → m_capacity q' = m_capacity (fields m) → is_put o = true →
    wake_inv 0 0 (WakeOne cv_not_empty (set_fields q' m)) susp).
  { intros q' Eq Eq' Hp. rewrite Hp in *. destruct (wake_other m (set_fields q' m) susp cv_not_empty cv_not_full Hwf) as [W1 W2]; try done.
    split; rewrite fields_WakeOne; cbn [fields set_fields]; rewrite Eq, ?Eq', ?W1, ?W2.
    - intros Hne. destruct (wake_one_inv m (set_fields q' m) susp cv_not_empty Hwf eq_refl eq_refl Hne) as [-> Hne']. specialize (We Hne'). lia.
    - intros Hne. specialize (Wf Hne). lia. }
  assert (Hpeek : is_put o = false → wake_inv 0 0 (WakeOne cv_not_empty m) susp).
  { intros Hp. rewrite Hp in *. destruct (wake_other m m susp cv_not_empty cv_not_full Hwf) as [W1 W2]; try done.
    split; rewrite fields_WakeOne, ?W1, ?W2.
    - intros Hne. destruct (wake_one_inv m m susp cv_not_empty Hwf eq_refl eq_refl Hne) as [-> Hne']. specialize (We Hne'). lia.
    - intros Hne. specialize (Wf Hne). lia. }
  destruct o as [x|x| | |]; cbn [commit fst snd is_put op_ok spec_op] in *; rewrite ?fields_WakeOne; cbn [fields set_fields].
  - destruct (put_store cap n (fields m) x Hq Ho) as [Hq' E]; [lia|]. rewrite length_contents, (proj2 (Nat.ltb_lt _ _)), E by lia. auto.
  - destruct (put_front_store cap n (fields m) x Hq Ho) as [Hq' E]; [lia|]. rewrite length_contents, (proj2 (Nat.ltb_lt _ _)), E by lia. auto.
  - destruct (get_take cap n (fields m) Hq) as [Hq' E]; [lia|]. rewrite E, bool_decide_eq_true_2 by done. split_and!; [done| |done].
    destruct (wake_other m (set_fields (GetEx_take (fields m)) m) susp cv_not_full cv_not_empty Hwf) as [W1 W2]; try done.
    split; rewrite fields_WakeOne; cbn [fields set_fields GetEx_take m_count m_capacity]; rewrite ?W1, ?W2.
    + intros Hne. specialize (We Hne). lia.
    + intros Hne. destruct (wake_one_inv m (set_fields (GetEx_take (fields m)) m) susp cv_not_full Hwf eq_refl eq_refl Hne) as [-> Hne']. specialize (Wf Hne'). lia.
  - destruct (get_take cap n (fields m) Hq) as [_ E]; [lia|]. rewrite E, bool_decide_eq_true_2 by done. auto.
  - destruct (get_take cap n (fields m) Hq) as [_ E]; [lia|]. rewrite E, bool_decide_eq_true_2 by done. auto.
Qed.

(** A look at a queue that is full (empty): nothing is available, so the running
    task is not needed. *)
Lemma refused_wake (m : M) (susp : gmap Z pc) o :
  wake_inv (if is_put o then 0 else 1) (if is_put o then 1 else 0) m susp →
  m_count (fields m) = (if is_put o then m_capacity (fields m) else 0) → wake_inv 0 0 m susp.
Proof.
  intros [We Wf] Hc. pose proof (flight_nonneg (P := prim) cv_not_empty m susp). pose proof (flight_nonneg (P := prim) cv_not_full m susp).
  split; intros Hne; [specialize (We Hne)|specialize (Wf Hne)]; destruct (is_put o); lia.
Qed.
Lemma block_wake (m : M) (susp : gmap Z pc) t p : wf_parts (P := prim) m susp → susp !! t = None → wake_inv 0 0 m susp →
  m_count (fields m) = (if is_put (pc_op p) then m_capacity (fields m) else 0) →
  wake_inv 0 0 (AddWaitObject (pc_cv p) t m) (<[t := p]> susp).
Proof.
  intros Hwf Hn [We Wf] Hc. pose proof (flight_nonneg (P := prim) cv_not_empty m susp). pose proof (flight_nonneg (P := prim) cv_not_full m susp).
  pose proof (λ cv, flight_block (P := prim) cv m susp t p Hwf Hn) as Hf. change (p_cv prim p) with (pc_cv p) in Hf.
  change (p_fields prim) with MessageQueue in Hf.
  split; rewrite wait_list_Add; cbn [fields AddWaitObject]; (etransitivity; [|apply Z.add_le_mono_r, Z.eq_le_incl; symmetry; apply Hf]);
    unfold pc_cv in *; destruct (is_put (pc_op p)); case_decide as Hcv; try done; try lia; auto.
Qed.

Lemma attempt_inv cap n (m : M) (susp : gmap Z pc) cx o to d m' out : wf_parts (P := prim) m susp → (c_isr cx = false → susp !! c_tid cx = None) →
  ring_inv cap n (fields m) → op_ok n o → in_i32 d → (∀ t p, susp !! t = Some p → pc_ok n p) →
  wake_inv (if is_put o then 0 else 1) (if is_put o then 1 else 0) m susp → attempt cx o to d m = Ok (m', out) →
  ∃ l', spec_try cap o (returned (P := prim) out) (contents (fields m)) = Some l' ∧
    let w' := finish (P := prim) (c_tid cx) m' out susp in mq_inv cap n l' (w_mon w') (w_susp w').
Proof.
  intros Hwf Hn Hq Ho Hd Hops Hk [(Hc & -> & Hout)|(Hc & -> & ->)]%attempt_cases.
  - assert (Hfe : full_or_empty cap o (contents (fields m))).
    { unfold full_or_empty. rewrite length_contents, Hc, (qi_cap _ _ _ Hq). done. }
    pose proof (refused_wake m susp o Hk Hc) as Hk0. exists (contents (fields m)).
    destruct Hout as [->|(Hi & rem & ->)]; cbn [returned spec_try]; rewrite decide_True by done; (split; [done|]).
    + by split.
    + split; [done|done| |].
      * by apply (block_wake m susp (c_tid cx) (mkPc o to d)); auto.
      * cbn [finish w_susp]. intros t p. destruct (decide (c_tid cx = t)) as [<-|?];
          [rewrite lookup_insert_eq; by intros [= <-]|rewrite lookup_insert_ne by done; apply Hops].
  - destruct (commit_inv cap n m susp o Hwf Hq Ho Hk Hc) as (Hq' & Hk' & E). cbn [returned spec_try]. eexists. split; [exact E|]. by split.
Qed.

(** A task that returns from its wait; the one that was signalled is running. *)
Lemma take_wake (m : M) (susp : gmap Z pc) t p r : wake_inv 0 0 m susp → susp !! t = Some p → woken m !! t = Some r →
  let k := if bool_decide (r = WAIT_RESULT_SIGNAL) then 1%Z else 0%Z in
  wake_inv (if is_put (pc_op p) then 0 else k) (if is_put (pc_op p) then k else 0) (take_woken t m) (delete t susp).
Proof.
  intros [We Wf] Hp Hr k. pose proof (λ cv, flight_take (P := prim) cv m susp t p r Hp Hr) as Hf.
  change (p_fields prim) with MessageQueue in Hf. change (p_cv prim p) with (pc_cv p) in Hf.
  split; change (wait_list ?cv (take_woken t m)) with (wait_list cv m); cbn [fields take_woken]; intros Hne.
  - specialize (We Hne). etransitivity; [|apply Z.add_le_mono_r, Z.eq_le_incl; symmetry; apply Hf]. unfold pc_cv, k.
    destruct (is_put (pc_op p)), (bool_decide (r = _)); case_bool_decide; cbn [andb b2z]; done || lia.
  - specialize (Wf Hne). etransitivity; [|apply Z.add_le_mono_r, Z.eq_le_incl; symmetry; apply Hf]. unfold pc_cv, k.
    destruct (is_put (pc_op p)), (bool_decide (r = _)); case_bool_decide; cbn [andb b2z]; done || lia.
Qed.
Lemma abort_wake (m : M) (susp : gmap Z pc) t p r : wf_parts (P := prim) m susp → wake_inv 0 0 m susp → susp !! t = Some p →
  t ∈ wait_list (pc_cv p) m → r ≠ WAIT_RESULT_SIGNAL → wake_inv 0 0 (RemoveWaitObject (pc_cv p) t r m) susp.
Proof.
  intros Hwf [We Wf] Hp Hl Hr. destruct (wf_listed _ _ Hwf _ _ Hl) as (Hw & _).
  assert (Hf : ∀ cv, flight (P := prim) cv (RemoveWaitObject (pc_cv p) t r m) susp = flight (P := prim) cv m susp).
  { intros cv. etransitivity; [exact (flight_put (P := prim) cv m (RemoveWaitObject (pc_cv p) t r m) susp t p r Hp Hw eq_refl)|].
    rewrite (bool_decide_eq_false_2 (r = _)), andb_false_r by done. cbn. lia. }
  assert (Hsub : ∀ cv, wait_list cv (RemoveWaitObject (pc_cv p) t r m) ≠ [] → wait_list cv m ≠ []).
  { intros cv Hne E. rewrite wait_list_Remove in Hne. case_decide as Hc; [|done]. subst cv. by rewrite E in Hne. }
  split; cbn [fields RemoveWaitObject]; rewrite Hf; intros Hne; auto.
Qed.

Lemma reset_inv cap n (m : M) (susp : gmap Z pc) : 0 < cap → wf_parts (P := prim) m susp → ring_inv cap n (fields m) →
  ring_inv cap n (fields (Reset m)) ∧ contents (fields (Reset m)) = [] ∧ wake_inv 0 0 (Reset m) susp.
Proof.
  intros Hc Hwf [Ec En El _ _ _]. unfold Reset. set (m1 := set_fields _ m). rewrite fields_WakeAll.
  assert (Hwf1 : wf_parts (P := prim) m1 susp) by (by apply (wf_same (P := prim) m)). split_and!; [|done|].
  - split; cbn; try done; try lia. by rewrite Nat.Div0.mod_0_l.
  - split; rewrite fields_WakeAll, wait_list_WakeAll; [|by rewrite decide_True].
    intros _. cbn. pose proof (flight_nonneg (P := prim) cv_not_empty (WakeAll cv_not_full m1) susp). lia.
Qed.


Lemma mq_step cap n tr (w w' : World prim) lab l : 0 < cap → wf w → replay cap tr = Some l → mq_inv cap n l (w_mon w) (w_susp w) →
  step (mq_pre n) tr w lab w' → ∃ l', replay cap (tr ++ [lab]) = Some l' ∧ mq_inv cap n l' (w_mon w') (w_susp w').
Proof.
  intros Hc Hw El Hi Hs. rewrite (replay_snoc _ _ _ _ El).
  destruct Hs as [w cx c m o Hpre Hn E|w cx p r m o Hisr Hp Hr E|w t p r Hr Hp Hl]; unfold wf in Hw;
    destruct w as [m0 susp]; cbn [p_fields p_call p_pc p_ret p_cv p_enter p_resume prim w_mon w_susp] in *;
    destruct Hi as [Hq <- Hk Hops].
  - destruct c as [op to|]; cbn [enter spec_step mq_pre] in *.
    + unfold start in E. inv_res. assert (Hk' : wake_inv (if is_put op then 0 else 1) (if is_put op then 1 else 0) m0 susp).
      { destruct Hk. split; destruct (is_put op); intros Hne; etransitivity; eauto; lia. }
      destruct Hpre as [Ho Hto%(deadline32_range cx)]. by eapply attempt_inv.
    + injection E as <- <-. destruct (reset_inv cap n m0 susp Hc Hw Hq) as (H1 & H2 & H3). exists []. split; [done|]. by split.
  - pose proof (take_wake m0 susp _ p r Hk Hp Hr) as Hk'.
    assert (Hw' : wf_parts (P := prim) (take_woken (c_tid cx) m0) (delete (c_tid cx) susp)) by (eapply (wf_take (P := prim)); [done|done|by eexists]).
    assert (Hops' : ∀ t q, delete (c_tid cx) susp !! t = Some q → pc_ok n q) by (intros t q [_ ?]%lookup_delete_Some; eauto).
    unfold resume in E. destruct (decide (r = WAIT_RESULT_SIGNAL)) as [->|Hs].
    + rewrite bool_decide_eq_false_2 in E by (intros H; by apply H). rewrite bool_decide_eq_true_2 in Hk' by done.
      apply (attempt_inv cap n (take_woken (c_tid cx) m0) _ cx (pc_op p) (pc_timeout p) (pc_deadline p) m o Hw'); try done; [intros _; apply lookup_delete_eq|by eapply Hops..].
    + rewrite bool_decide_eq_true_2 in E by done. injection E as <- <-. exists (contents (fields m0)).
      rewrite bool_decide_eq_false_2 in Hk' by done. split; [|split; try done; by destruct (is_put (pc_op p))].
      cbn. destruct r; by rewrite ?bool_decide_eq_true_2.
  - exists (contents (fields m0)). split; [done|]. split; [done|done| |done]. apply abort_wake; try done. by destruct Hr as [-> | ->].
Qed.

(** Every call of a program goes through, as long as the tick count fits the
    deadline arithmetic and a full queue passes the assertion on its count. *)
Lemma attempt_ok cx o to d m : c_isr cx = false → in_range cx → in_i32 d → ∃ m' out, attempt cx o to d m = Ok (m', out).
Proof.
  intros Hi Hr Hd. pose proof (cv_wait32_ok cx to d Hi Hr Hd) as Hw.
  unfold attempt. assert (Hx : ∃ w, (if is_put o then WaitNotFull else WaitNotEmpty) cx to d (fields m) = Ok w).
  { unfold WaitNotFull, WaitNotEmpty. destruct (is_put o); case_match; eauto. }
  destruct Hx as [w ->]. cbn [mbind res_bind]. destruct w as [[]|]; try destruct (commit o m); eauto.
Qed.

Lemma mq_run cap n buf q0 tr (w : World prim) : MessageQueue_ctor buf cap n = Ok q0 → length buf = cap * n →
  run (mq_pre n) (mkWorld (P := prim) (init q0) ∅) tr w →
  wf w ∧ ∃ l, replay cap tr = Some l ∧ mq_inv cap n l (w_mon w) (w_susp w).
Proof.
  intros E Hb. unfold MessageQueue_ctor in E. destruct (Nat.leb_spec 1 cap) as [Hc|]; [|done]. inv_res.
  apply (run_ind_wf (P := prim) (mq_pre n) (mkMQ buf cap n 0 0 0) (λ tr w, ∃ l, replay cap tr = Some l ∧ mq_inv cap n l (w_mon w) (w_susp w))).
  - exists []. split; [done|]. split; [|done| |done].
    + split; cbn; try done; try lia. by rewrite Nat.Div0.mod_0_l.
    + split; by cbn.
  - intros tr' w' lab w2 H1 _ (l & El & Hi) H4. exact (mq_step cap n tr' w' w2 lab l Hc H1 El Hi H4).
Qed.

(** C24. The message queue is a bounded FIFO of messages.  For every history of
    calls, waits, timeouts and cancellations on a queue of cap slots, the
    history is one of the abstract queue: every put appended its message behind
    (in front of) the others, every get and peek delivered the first message
    unchanged, calls timed out or waited only when the queue was full (empty),
    and the messages in the circular buffer are those of the abstract queue.
    No call of a task and no return of a task from a wait fails while the tick
    count is below 2^31 and the capacity below its maximum. *)
Theorem msgqueue_refinement cap n buf q0 tr (w : World prim) :
  MessageQueue_ctor buf cap n = Ok q0 → length buf = cap * n →
  run (mq_pre n) (mkWorld (P := prim) (init q0) ∅) tr w →
  let m : M := w_mon w in
  replay cap tr = Some (contents (fields m)) ∧ length (contents (fields m)) ≤ cap ∧
  (∀ cx c, c_isr cx = false → in_range cx → mq_pre n tr cx c → (Z.of_nat cap < CAPACITY_MAX)%Z →
     ∃ m' out, enter cx c m = Ok (m', out)) ∧
  (∀ cx p r, c_isr cx = false → in_range cx → w_susp w !! c_tid cx = Some p → ∃ m' out, resume cx p r (take_woken (c_tid cx) m) = Ok (m', out)).
Proof.
  intros E Hb Hrun. destruct (mq_run cap n buf q0 tr w E Hb Hrun) as (_ & l & El & [Hq <- _ Hops]). intros m.
  rewrite length_contents. split_and!; [done|apply Hq| |].
  - intros cx [o to|] Hi Hr Hto Hmax; cbn [enter]; [|eauto]. unfold start.
    pose proof (qi_count _ _ _ Hq) as Hc. change (m_count (fields m) ≤ cap) in Hc. rewrite (proj2 (Z.leb_le _ _)), orb_true_r by lia.
    apply attempt_ok; [done|done|]. apply deadline32_range, Hto.
  - intros cx p r Hi Hr Hp. unfold resume. case_bool_decide; [eauto|]. apply attempt_ok; [done|done|]. by apply (Hops _ _ Hp).
Qed.

(** C25. No wake-up is lost.  Whenever tasks wait for a message, there are at most
    as many messages as consumers that were woken and are about to look; whenever
    tasks wait for a slot, there are at most as many free slots as woken
    producers.  So no task sleeps beside a message or a slot that nobody is on
    the way to take. *)
Theorem msgqueue_no_lost_wakeup cap n buf q0 tr (w : World prim) :
  MessageQueue_ctor buf cap n = Ok q0 → length buf = cap * n →
  run (mq_pre n) (mkWorld (P := prim) (init q0) ∅) tr w →
  let m : M := w_mon w in
  (wait_list cv_not_empty m ≠ [] → (Z.of_nat (m_count (fields m)) ≤ flight (P := prim) cv_not_empty m (w_susp w))%Z) ∧
  (wait_list cv_not_full m ≠ [] → (Z.of_nat cap - Z.of_nat (m_count (fields m)) ≤ flight (P := prim) cv_not_full m (w_susp w))%Z).
Proof.
  intros E Hb Hrun. destruct (mq_run cap n buf q0 tr w E Hb Hrun) as (_ & l & _ & [Hq _ [We Wf] _]). intros m.
  rewrite (qi_cap _ _ _ Hq) in Wf. split; intros Hne; [specialize (We Hne)|specialize (Wf Hne)]; subst m; lia.
Qed.

(** Two slots of two bytes: a consumer waits, is woken by a put, and meanwhile a
    producer fills the queue; the next producer waits. *)
Definition ex_cx (t : Z) : ctx := mkCtx t 5 false.
Definition ex_q0 : MessageQueue := mkMQ [0; 0; 0; 0]%Z 2 2 0 0 0.
Definition ex_world0 : World prim := mkWorld (P := prim) (init ex_q0) ∅.
Definition ex_preb (tr : list (label prim)) (cx : ctx) (c : call) : bool :=
  match c with
  | COp (PutEx x) to | COp (PutFrontEx x) to => (length x =? 2) && bool_decide (in_i32 to)
  | COp _ to => bool_decide (in_i32 to)
  | CReset => true
  end.
Definition ex_call (t : Z) (c : call) : action prim := ACall (P := prim) (ex_cx t) c.
Definition ex_acts : list (action prim) :=
  [ex_call 1 (COp GetEx 10); ex_call 2 (COp (PutEx [1; 2]%Z) 10); ex_call 3 (COp (PutFrontEx [3; 4]%Z) 10);
   ex_call 4 (COp (PutEx [5; 6]%Z) 10); ex_call 5 (COp (PutEx [7; 8]%Z) NO_WAIT); AResume (ex_cx 1)].
Definition ex_end : list (label prim) * World prim := exec_all ex_preb ex_acts ex_world0.
Lemma mq_ex_pre tr cx c : ex_preb tr cx c = true → mq_pre 2 tr cx c.
Proof.
  unfold ex_preb, mq_pre. destruct c as [[x|x| | |] to|]; cbn [op_ok]; rewrite ?andb_true_iff, ?Nat.eqb_eq;
    try intros [? ?%bool_decide_eq_true]; try intros ?%bool_decide_eq_true; done.
Qed.
Lemma mq_ex_run : run (mq_pre 2) ex_world0 ex_end.1 ex_end.2.
Proof. apply exec_all_run, mq_ex_pre. Qed.
Lemma msgqueue_refinement_witness : replay 2 ex_end.1 = Some (contents (fields (w_mon ex_end.2))) ∧
  contents (fields (w_mon ex_end.2)) = [[1; 2]%Z].
Proof. split; [apply (msgqueue_refinement 2 2 [0; 0; 0; 0]%Z ex_q0 _ ex_end.2 eq_refl eq_refl mq_ex_run)|vm_compute; reflexivity]. Defined.
(** Before the consumer goes on. *)
Definition ex_mid : list (label prim) * World prim := exec_all ex_preb (take 5 ex_acts) ex_world0.
Lemma mq_ex_run_mid : run (mq_pre 2) ex_world0 ex_mid.1 ex_mid.2.
Proof. apply exec_all_run, mq_ex_pre. Qed.
Lemma msgqueue_no_lost_wakeup_witness : wait_list cv_not_full (w_mon ex_mid.2) = [4]%Z ∧
  (2 - Z.of_nat (m_count (fields (w_mon ex_mid.2))) ≤ flight (P := prim) cv_not_full (w_mon ex_mid.2) (w_susp ex_mid.2))%Z.
Proof.
  split; [vm_compute; reflexivity|].
  apply (msgqueue_no_lost_wakeup 2 2 [0; 0; 0; 0]%Z ex_q0 _ ex_mid.2 eq_refl eq_refl mq_ex_run_mid). vm_compute. discriminate.
Defined.

(** The deadline is kept in 32 bits: ten ticks before the tick count reaches 2^31
    a wait of 20 ticks on an empty queue gives up at once. *)
Example wait_gives_up_early :
  start (mkCtx 1 (2 ^ 31 - 10) false) GetEx 20 (init ex_q0) = Ok (init ex_q0, Done (RWait WAIT_RESULT_TIMEOUT None)).
Proof. vm_compute. reflexivity. Qed.
(** A queue of the largest capacity that is full fails the assertion of a put,
    which should wait. *)
Example full_queue_of_max_capacity_asserts :
  let q := mkMQ [] (Z.to_nat CAPACITY_MAX) 1 (Z.to_nat CAPACITY_MAX) 0 0 in
  start (mkCtx 1 0 false) (PutEx [7]%Z) 20 (init q) = Panic PANIC_ASSERT.
Proof. vm_compute. reflexivity. Qed.
End MessageQueue.
