(* ===== verification/Pipe.v ===== *)
(** * Pipe ([Pipe] of [stk_sync_pipe.h])

    A circular buffer of elements of [m_element_size] bytes that is written and
    read one element or many at a time.  A bulk transfer may wait several times
    and move a part of its elements each time.  The theorems show that the pipe
    is a byte stream: whatever is read was written, in order, once; and that no
    wake-up is lost between readers and writers. *)

From S2P Require Import Prelude KernelTask Buffer Monitor.
Import KTask Monitor.
Local Open Scope nat_scope.

Module Pipe.

Record Pipe := mkPipe {
  m_buffer : list Z; m_capacity : nat; m_element_size : nat; m_count : nat; m_head : nat; m_tail : nat }.
Notation M := (Mon Pipe).
Definition cv_not_empty : nat := 0.
Definition cv_not_full : nat := 1.
Definition CAPACITY_MAX : Z := 0xFFFE.

(** The constructor. *)
Definition Pipe_ctor (buf : list Z) (capacity element_size : nat) : res Pipe :=
  assert! (1 <=? capacity);
  assert! (Z.of_nat capacity <=? CAPACITY_MAX)%Z;
  assert! (1 <=? element_size);
  Ok (mkPipe buf capacity element_size 0 0 0).

(** Calls.  The bulk calls accept a null pointer, for the source [None], for the
    destination [false]; the others assert that theirs is not null. *)
Inductive call :=
| CWriteEx (data : list Z) (timeout_ticks : Z)
| CWriteBulkEx (src : option (list Z)) (count : nat) (timeout_ticks : Z)
| CReadEx (timeout_ticks : Z)
| CReadBulkEx (dst : bool) (count : nat) (timeout_ticks : Z)
| CReadBulkTriggeredEx (dst : bool) (trigger max_count : nat) (timeout_ticks : Z)
| CReset.
(** Results: the elements written, the bytes read. *)
Inductive ret := RWait (r : EWaitResult) | RWrite (r : EWaitResult) (written : nat) | RRead (r : EWaitResult) (data : list Z) | RVoid.
(** A blocked call remembers its arguments, its deadline and how far it got. *)
Inductive pc :=
| InWriteEx (data : list Z) (timeout_ticks deadline : Z)
| InWriteBulk (src : list Z) (count written : nat) (timeout_ticks deadline : Z)
| InReadEx (timeout_ticks deadline : Z)
| InReadBulk (count read_count : nat) (data : list Z) (timeout_ticks deadline : Z)
| InReadTriggered (trigger max_count : nat) (timeout_ticks deadline : Z).

Definition Slot (q : Pipe) (idx : nat) : nat := idx * m_element_size q.
Definition Next (q : Pipe) (idx : nat) : nat := (idx + 1) `mod` m_capacity q.

(** [WriteEx]: the copy. *)
Definition store_one (data : list Z) (q : Pipe) : Pipe :=
  mkPipe (splice (Slot q (m_head q)) (take (m_element_size q) data) (m_buffer q)) (m_capacity q) (m_element_size q)
    (m_count q + 1) (Next q (m_head q)) (m_tail q).
Definition WriteEx_try (cx : ctx) (data : list Z) (timeout_ticks deadline : Z) (m : M) : res (M * outcome pc ret) :=
  let q := fields m in
  if m_count q =? m_capacity q then
    w ← cv_wait32 cx timeout_ticks deadline;
    Ok (m, match w with inr rem => Blocked rem (InWriteEx data timeout_ticks deadline) | inl r => Done (RWait r) end)
  else Ok (WakeOne cv_not_empty (set_fields (store_one data q) m), Done (RWait WAIT_RESULT_SIGNAL)).
Definition WriteEx (cx : ctx) (data : list Z) (timeout_ticks : Z) (m : M) : res (M * outcome pc ret) :=
  assert! (Z.of_nat (m_count (fields m)) <=? CAPACITY_MAX - 1)%Z;
  WriteEx_try cx data timeout_ticks (deadline32 cx timeout_ticks) m.

(** [WriteBulkEx]: the part of the elements that fits, in one or two copies. *)
Definition to_write (q : Pipe) (count written : nat) : nat :=
  let available := m_capacity q - m_count q in
  if (count - written) <? available then count - written else available.
Definition store_part (src : list Z) (count written : nat) (q : Pipe) : Pipe :=
  let es := m_element_size q in
  let n := to_write q count written in
  let first_part := m_capacity q - m_head q in
  let buffer :=
    if n <=? first_part then splice (Slot q (m_head q)) (take (n * es) (drop (written * es) src)) (m_buffer q)
    else splice (Slot q 0) (take ((n - first_part) * es) (drop ((written + first_part) * es) src))
           (splice (Slot q (m_head q)) (take (first_part * es) (drop (written * es) src)) (m_buffer q)) in
  mkPipe buffer (m_capacity q) es (m_count q + n) ((m_head q + n) `mod` m_capacity q) (m_tail q).
(** Its loops, from one wait to the next. *)
Fixpoint WriteBulkEx_loop (fuel : nat) (cx : ctx) (src : list Z) (count written : nat) (timeout_ticks deadline : Z) (m : M) :
    res (M * outcome pc ret) :=
  match fuel with
  | O => Panic PANIC_FUEL
  | S fuel =>
      let q := fields m in
      if written <? count then
        if m_count q =? m_capacity q then
          w ← cv_wait32 cx timeout_ticks deadline;
          Ok (m, match w with
                 | inr rem => Blocked rem (InWriteBulk src count written timeout_ticks deadline)
                 | inl r => Done (RWrite r written)
                 end)
        else
          let n := to_write q count written in
          WriteBulkEx_loop fuel cx src count (written + n) timeout_ticks deadline
            (WakeAll cv_not_empty (set_fields (store_part src count written q) m))
      else Ok (m, Done (RWrite WAIT_RESULT_SIGNAL written))
  end.
Definition WriteBulkEx (cx : ctx) (src : option (list Z)) (count : nat) (timeout_ticks : Z) (m : M) : res (M * outcome pc ret) :=
  match src with
  | None => Ok (m, Done (RWrite WAIT_RESULT_FAIL 0))
  | Some src => WriteBulkEx_loop (S count) cx src count 0 timeout_ticks (deadline32 cx timeout_ticks) m
  end.

(** [ReadEx]. *)
Definition take_one (q : Pipe) : list Z * Pipe :=
  (take (m_element_size q) (drop (Slot q (m_tail q)) (m_buffer q)),
   mkPipe (m_buffer q) (m_capacity q) (m_element_size q) (m_count q - 1) (m_head q) (Next q (m_tail q))).
Definition ReadEx_try (cx : ctx) (timeout_ticks deadline : Z) (m : M) : res (M * outcome pc ret) :=
  let q := fields m in
  if m_count q =? 0 then
    w ← cv_wait32 cx timeout_ticks deadline;
    Ok (m, match w with inr rem => Blocked rem (InReadEx timeout_ticks deadline) | inl r => Done (RRead r []) end)
  else
    let '(data, q) := take_one q in
    Ok (WakeOne cv_not_full (set_fields q m), Done (RRead WAIT_RESULT_SIGNAL data)).
Definition ReadEx (cx : ctx) (timeout_ticks : Z) (m : M) : res (M * outcome pc ret) :=
  ReadEx_try cx timeout_ticks (deadline32 cx timeout_ticks) m.

(** [DrainLocked]: what is there, up to [count] elements, in one or two copies. *)
Definition DrainLocked (count : nat) (m : M) : nat * list Z * M :=
  let q := fields m in
  let es := m_element_size q in
  let to_read := Nat.min count (m_count q) in
  let first_part := m_capacity q - m_tail q in
  let data :=
    if to_read <=? first_part then take (to_read * es) (drop (Slot q (m_tail q)) (m_buffer q))
    else take (first_part * es) (drop (Slot q (m_tail q)) (m_buffer q)) ++ take ((to_read - first_part) * es) (drop (Slot q 0) (m_buffer q)) in
  let q := mkPipe (m_buffer q) (m_capacity q) es (m_count q - to_read) (m_head q) ((m_tail q + to_read) `mod` m_capacity q) in
  (to_read, data, WakeAll cv_not_full (set_fields q m)).
Fixpoint ReadBulkEx_loop (fuel : nat) (cx : ctx) (count read_count : nat) (data : list Z) (timeout_ticks deadline : Z) (m : M) :
    res (M * outcome pc ret) :=
  match fuel with
  | O => Panic PANIC_FUEL
  | S fuel =>
      if read_count <? count then
        if m_count (fields m) =? 0 then
          w ← cv_wait32 cx timeout_ticks deadline;
          Ok (m, match w with
                 | inr rem => Blocked rem (InReadBulk count read_count data timeout_ticks deadline)
                 | inl r => Done (RRead r data)
                 end)
        else
          let '(n, x, m) := DrainLocked (count - read_count) m in
          ReadBulkEx_loop fuel cx count (read_count + n) (data ++ x) timeout_ticks deadline m
      else Ok (m, Done (RRead WAIT_RESULT_SIGNAL data))
  end.
Definition ReadBulkEx (cx : ctx) (dst : bool) (count : nat) (timeout_ticks : Z) (m : M) : res (M * outcome pc ret) :=
  if dst then ReadBulkEx_loop (S count) cx count 0 [] timeout_ticks (deadline32 cx timeout_ticks) m
  else Ok (m, Done (RRead WAIT_RESULT_FAIL [])).

(** [ReadBulkTriggeredEx]: waits for [trigger] elements and takes what is there. *)
Definition ReadTriggered_end (max_count : nat) (result : EWaitResult) (m : M) : M * outcome pc ret :=
  let '(_, x, m) := DrainLocked max_count m in (m, Done (RRead result x)).
Definition ReadTriggered_try (cx : ctx) (trigger max_count : nat) (timeout_ticks deadline : Z) (m : M) : res (M * outcome pc ret) :=
  if m_count (fields m) <? trigger then
    w ← cv_wait32 cx timeout_ticks deadline;
    match w with
    | inr rem => Ok (m, Blocked rem (InReadTriggered trigger max_count timeout_ticks deadline))
    | inl r => Ok (ReadTriggered_end max_count r m)
    end
  else Ok (ReadTriggered_end max_count WAIT_RESULT_SIGNAL m).
Definition ReadBulkTriggeredEx (cx : ctx) (dst : bool) (trigger max_count : nat) (timeout_ticks : Z) (m : M) : res (M * outcome pc ret) :=
  if dst then
    if max_count =? 0 then Ok (m, Done (RRead WAIT_RESULT_SIGNAL []))
    else
      let trigger := if trigger =? 0 then 1 else trigger in
      let trigger := if max_count <? trigger then max_count else trigger in
      ReadTriggered_try cx trigger max_count timeout_ticks (deadline32 cx timeout_ticks) m
  else Ok (m, Done (RRead WAIT_RESULT_FAIL [])).

Definition Reset (m : M) : M :=
  let q := fields m in
  WakeAll cv_not_full (set_fields (mkPipe (m_buffer q) (m_capacity q) (m_element_size q) 0 0 0) m).

Definition enter (cx : ctx) (c : call) (m : M) : res (M * outcome pc ret) :=
  match c with
  | CWriteEx data to => WriteEx cx data to m
  | CWriteBulkEx src count to => WriteBulkEx cx src count to m
  | CReadEx to => ReadEx cx to m
  | CReadBulkEx dst count to => ReadBulkEx cx dst count to m
  | CReadBulkTriggeredEx dst trigger max_count to => ReadBulkTriggeredEx cx dst trigger max_count to m
  | CReset => Ok (Reset m, Done RVoid)
  end.
(** A wait ended without a signal. *)
Definition wait_failed (p : pc) (r : EWaitResult) (m : M) : M * outcome pc ret :=
  match p with
  | InWriteEx _ _ _ => (m, Done (RWait r))
  | InWriteBulk _ _ written _ _ => (m, Done (RWrite r written))
  | InReadEx _ _ => (m, Done (RRead r []))
  | InReadBulk _ _ data _ _ => (m, Done (RRead r data))
  | InReadTriggered _ max_count _ _ => ReadTriggered_end max_count r m
  end.
Definition retry (cx : ctx) (p : pc) (m : M) : res (M * outcome pc ret) :=
  match p with
  | InWriteEx data to d => WriteEx_try cx data to d m
  | InWriteBulk src count written to d => WriteBulkEx_loop (S (count - written)) cx src count written to d m
  | InReadEx to d => ReadEx_try cx to d m
  | InReadBulk count read_count data to d => ReadBulkEx_loop (S (count - read_count)) cx count read_count data to d m
  | InReadTriggered trigger max_count to d => ReadTriggered_try cx trigger max_count to d m
  end.
Definition resume (cx : ctx) (p : pc) (r : EWaitResult) (m : M) : res (M * outcome pc ret) :=
  if bool_decide (r ≠ WAIT_RESULT_SIGNAL) then Ok (wait_failed p r m) else retry cx p m.
Definition is_write (p : pc) : bool := match p with InWriteEx _ _ _ | InWriteBulk _ _ _ _ _ => true | _ => false end.
Definition pc_cv (p : pc) : nat := if is_write p then cv_not_full else cv_not_empty.

Definition prim : Primitive := mkPrimitive Pipe call pc ret pc_cv enter resume.

(** ** The ring holds a stream of bytes *)

Record pipe_ok (cap es : nat) (q : Pipe) : Prop := {
  po_cap : m_capacity q = cap;
  po_es : m_element_size q = es;
  po_pos : 0 < es;
  po_length : length (m_buffer q) = cap * es;
  po_count : m_count q ≤ cap;
  po_tail : m_tail q < cap;
  po_head : m_head q = (m_tail q + m_count q) `mod` cap;
}.
Definition stream (q : Pipe) : list Z :=
  ring_read (m_capacity q * m_element_size q) (m_tail q * m_element_size q) (m_count q * m_element_size q) (m_buffer q).

(** A part of a call took [rd] from the front of the stream and put [wr] behind it. *)
Record moves (cap es : nat) (wr rd : list Z) (q q' : Pipe) : Prop := {
  mv_ok : pipe_ok cap es q';
  mv_stream : stream q ++ wr = rd ++ stream q';
}.
Lemma moves_none cap es q : pipe_ok cap es q → moves cap es [] [] q q.
Proof. intros H. split; [done|]. by rewrite app_nil_r. Qed.
Lemma moves_trans cap es wr rd wr' rd' q q' q'' : moves cap es wr rd q q' → moves cap es wr' rd' q' q'' → moves cap es (wr ++ wr') (rd ++ rd') q q''.
Proof. intros [_ E1] [H2 E2]. split; [done|]. by rewrite app_assoc, E1, <- !app_assoc, E2. Qed.

Lemma length_stream cap es q : pipe_ok cap es q → length (stream q) = m_count q * es.
Proof. intros [Ec Ee Hp El Hc Ht _]. unfold stream. rewrite Ec, Ee. apply length_ring_read; [done|nia|nia]. Qed.
Lemma head_lt cap es q : pipe_ok cap es q → m_head q < cap.
Proof. intros [_ _ _ _ _ Ht ->]. apply Nat.mod_upper_bound. lia. Qed.

(** Writing [n] elements behind the others, and taking [n] elements. *)
Lemma put_ring cap es q n x : pipe_ok cap es q → length x = n * es → m_count q + n ≤ cap →
  moves cap es x [] q (mkPipe (ring_write (cap * es) (m_head q * es) x (m_buffer q)) cap es (m_count q + n) ((m_head q + n) `mod` cap) (m_tail q)).
Proof.
  intros Hq Hx Hn. pose proof (head_lt _ _ _ Hq) as Hh. pose proof Hq as [Ec Ee Hp El Hc Ht Eh]. split.
  - split; cbn; try done; try lia.
    + apply length_ring_write; [done|nia|nia].
    + by rewrite Eh, Nat.Div0.add_mod_idemp_l, Nat.add_assoc.
  - unfold stream; cbn. rewrite Ec, Ee, Eh, <- Nat.Div0.mul_mod_distr_r, !Nat.mul_add_distr_r, <- Hx. symmetry.
    apply ring_read_write; [done|nia|nia].
Qed.
Lemma take_ring cap es q n : pipe_ok cap es q → n ≤ m_count q →
  moves cap es [] (ring_read (cap * es) (m_tail q * es) (n * es) (m_buffer q)) q
    (mkPipe (m_buffer q) cap es (m_count q - n) (m_head q) ((m_tail q + n) `mod` cap)).
Proof.
  intros Hq Hn. pose proof Hq as [Ec Ee Hp El Hc Ht Eh]. split.
  - split; cbn; try done; try lia.
    + apply Nat.mod_upper_bound. lia.
    + rewrite Nat.Div0.add_mod_idemp_l, Eh. f_equal. lia.
  - rewrite app_nil_r. unfold stream; cbn. rewrite Ec, Ee.
    replace (m_count q * es) with (n * es + (m_count q - n) * es) by nia.
    rewrite ring_read_app; [|done|nia|nia]. by rewrite <- Nat.Div0.mul_mod_distr_r, Nat.mul_add_distr_r.
Qed.

(** The copies of the code are those of the ring. *)
Lemma store_one_moves cap es q data : pipe_ok cap es q → es ≤ length data → m_count q < cap →
  moves cap es (take es data) [] q (store_one data q).
Proof.
  intros Hq Hd Hc. pose proof (head_lt _ _ _ Hq) as Hh. pose proof Hq as [Ec Ee Hp El _ Ht Eh].
  assert (Hx : length (take es data) = 1 * es) by (rewrite length_take; lia).
  pose proof (put_ring cap es q 1 _ Hq Hx ltac:(lia)) as H. unfold store_one, Slot, Next. rewrite Ec, Ee.
  unfold ring_write in H. rewrite decide_True in H by (rewrite Hx; nia). exact H.
Qed.
Lemma to_write_le q count written : to_write q count written ≤ m_capacity q - m_count q ∧ to_write q count written ≤ count - written.
Proof. unfold to_write. cbv zeta. destruct (Nat.ltb_spec (count - written) (m_capacity q - m_count q)); lia. Qed.
Lemma to_write_pos q count written : written < count → m_count q < m_capacity q → 0 < to_write q count written.
Proof. unfold to_write. cbv zeta. destruct (Nat.ltb_spec (count - written) (m_capacity q - m_count q)); lia. Qed.
Lemma store_part_moves cap es q src count written : pipe_ok cap es q → count * es ≤ length src → written < count →
  moves cap es (take (to_write q count written * es) (drop (written * es) src)) [] q (store_part src count written q).
Proof.
  intros Hq Hs Hw. pose proof (head_lt _ _ _ Hq) as Hh. pose proof Hq as [Ec Ee Hp El Hc Ht Eh].
  destruct (to_write_le q count written) as [Hn1 Hn2]. rewrite Ec in Hn1. unfold store_part. rewrite Ec, Ee.
  generalize dependent (to_write q count written). intros n Hn1 Hn2.
  assert (Hx : length (take (n * es) (drop (written * es) src)) = n * es) by (rewrite length_take, length_drop; nia).
  pose proof (put_ring cap es q n _ Hq Hx ltac:(lia)) as H. replace (if n <=? cap - m_head q then _ else _) with
    (ring_write (cap * es) (m_head q * es) (take (n * es) (drop (written * es) src)) (m_buffer q)); [exact H|].
  unfold ring_write, Slot. rewrite Hx, Ee. destruct (Nat.leb_spec n (cap - m_head q)) as [Hf|Hf].
  - by rewrite decide_True by nia.
  - rewrite decide_False by nia. rewrite <- Nat.mul_sub_distr_r, take_take, Nat.min_l by nia. f_equal.
    replace (n * es) with ((cap - m_head q) * es + (n - (cap - m_head q)) * es) by nia.
    by rewrite <- take_drop_commute, drop_drop, <- Nat.mul_add_distr_r.
Qed.
Lemma take_one_moves cap es q : pipe_ok cap es q → 0 < m_count q → moves cap es [] (take_one q).1 q (take_one q).2.
Proof.
  intros Hq Hc. pose proof Hq as [Ec Ee Hp El _ Ht Eh]. pose proof (take_ring cap es q 1 Hq ltac:(lia)) as H.
  unfold take_one, Slot, Next. cbn. rewrite Ec, Ee. unfold ring_read in H. rewrite decide_True, Nat.mul_1_l in H by nia. exact H.
Qed.
Lemma drain_moves cap es (m : M) count : pipe_ok cap es (fields m) →
  moves cap es [] (DrainLocked count m).1.2 (fields m) (fields (DrainLocked count m).2).
Proof.
  intros Hq. pose proof Hq as [Ec Ee Hp El Hc Ht Eh]. set (n := Nat.min count (m_count (fields m))).
  pose proof (take_ring cap es (fields m) n Hq ltac:(lia)) as H. unfold DrainLocked, Slot. cbn [fst snd]. rewrite fields_WakeAll.
  cbn [fields set_fields]. fold n. rewrite Ec, Ee. unfold ring_read in H. rewrite <- Nat.mul_sub_distr_r in H.
  destruct (Nat.leb_spec n (cap - m_tail (fields m))) as [Hf|Hf]; [rewrite decide_True in H by nia; exact H|].
  rewrite decide_False in H by nia. by rewrite <- Nat.mul_sub_distr_r in H.
Qed.
Lemma length_drain cap es (m : M) count : pipe_ok cap es (fields m) → length (DrainLocked count m).1.2 = Nat.min count (m_count (fields m)) * es.
Proof.
  intros Hq. pose proof (drain_moves cap es m count Hq) as [Hq' E]. apply (f_equal length) in E. rewrite app_nil_r, length_app in E.
  rewrite (length_stream cap es _ Hq), (length_stream cap es _ Hq') in E. unfold DrainLocked in E at 2. cbn [snd] in E. rewrite fields_WakeAll in E.
  cbn [fields set_fields m_count] in E. pose proof (Nat.le_min_r count (m_count (fields m))).
  rewrite Nat.mul_sub_distr_r in E. nia.
Qed.

(** ** What a call asks for and what its result says *)

Inductive job :=
| JWrite (data : list Z) | JWriteBulk (src : list Z) (count : nat) | JRead | JReadBulk (count : nat)
| JReadTriggered (trigger max_count : nat) | JFail | JReset.
Definition job_of_pc (p : pc) : job :=
  match p with
  | InWriteEx data _ _ => JWrite data
  | InWriteBulk src count _ _ _ => JWriteBulk src count
  | InReadEx _ _ => JRead
  | InReadBulk count _ _ _ _ => JReadBulk count
  | InReadTriggered trigger max_count _ _ => JReadTriggered trigger max_count
  end.
Definition job_of_call (c : call) : job :=
  match c with
  | CWriteEx data _ => JWrite data
  | CWriteBulkEx (Some src) count _ => JWriteBulk src count
  | CReadEx _ => JRead
  | CReadBulkEx true count _ => JReadBulk count
  | CReadBulkTriggeredEx true trigger max_count _ => JReadTriggered (Nat.min max_count (Nat.max 1 trigger)) max_count
  | CWriteBulkEx None _ _ | CReadBulkEx false _ _ | CReadBulkTriggeredEx false _ _ _ => JFail
  | CReset => JReset
  end.

(** The bytes a finished call has put into the pipe, and those it has taken. *)
Definition sent (es : nat) (j : job) (r : ret) : list Z :=
  match j, r with
  | JWrite data, RWait WAIT_RESULT_SIGNAL => take es data
  | JWriteBulk src _, RWrite _ written => take (written * es) src
  | _, _ => []
  end.
Definition received (r : ret) : list Z := match r with RRead _ data => data | _ => [] end.
(** Success means that everything was moved; otherwise the call says how much was. *)
Definition result_ok (es : nat) (j : job) (r : ret) : Prop :=
  match j, r with
  | JWrite _, RWait _ => True
  | JWriteBulk _ count, RWrite r written => written ≤ count ∧ (r = WAIT_RESULT_SIGNAL ↔ written = count)
  | JRead, RRead r data => length data = if decide (r = WAIT_RESULT_SIGNAL) then es else 0
  | JReadBulk count, RRead r data => ∃ n, n ≤ count ∧ length data = n * es ∧ (r = WAIT_RESULT_SIGNAL ↔ n = count)
  | JReadTriggered trigger max_count, RRead r data =>
      ∃ n, n ≤ max_count ∧ length data = n * es ∧ (r = WAIT_RESULT_SIGNAL → trigger ≤ n)
  | JFail, RWrite r written => r = WAIT_RESULT_FAIL ∧ written = 0
  | JFail, RRead r data => r = WAIT_RESULT_FAIL ∧ data = []
  | JReset, RVoid => True
  | _, _ => False
  end.

(** What a blocked call has moved so far. *)
Definition pending (es : nat) (p : pc) : list Z := match p with InWriteBulk src _ written _ _ => take (written * es) src | _ => [] end.
Definition got (p : pc) : list Z := match p with InReadBulk _ _ data _ _ => data | _ => [] end.
Definition deadline_of (p : pc) : Z :=
  match p with InWriteEx _ _ d | InWriteBulk _ _ _ _ d | InReadEx _ d | InReadBulk _ _ _ _ d | InReadTriggered _ _ _ d => d end.
Definition pc_ok (es : nat) (p : pc) : Prop :=
  in_i32 (deadline_of p) ∧
  match p with
  | InWriteEx data _ _ => es ≤ length data
  | InWriteBulk src count written _ _ => count * es ≤ length src ∧ written ≤ count
  | InReadBulk count n data _ _ => n ≤ count ∧ length data = n * es
  | InReadTriggered trigger max_count _ _ => trigger ≤ max_count
  | InReadEx _ _ => True
  end.
Definition unfinished (p : pc) : Prop :=
  match p with InWriteBulk _ count written _ _ => written < count | InReadBulk count n _ _ _ => n < count | _ => True end.

(** A segment of the call [p] moved [wr] and [rd]. *)
Definition seg_ok (es : nat) (p : pc) (wr rd : list Z) (o : outcome pc ret) : Prop :=
  match o with
  | Done r => sent es (job_of_pc p) r = pending es p ++ wr ∧ received r = got p ++ rd ∧ result_ok es (job_of_pc p) r
  | Blocked _ p' => pending es p' = pending es p ++ wr ∧ got p' = got p ++ rd ∧ job_of_pc p' = job_of_pc p ∧ pc_ok es p' ∧ unfinished p'
  end.
Lemma seg_ok_trans es p p1 wr rd wr' rd' o : pending es p1 = pending es p ++ wr → got p1 = got p ++ rd → job_of_pc p1 = job_of_pc p →
  seg_ok es p1 wr' rd' o → seg_ok es p (wr ++ wr') (rd ++ rd') o.
Proof. intros E1 E2 E3. destruct o; cbn; rewrite E1, E2, E3, <- !app_assoc; tauto. Qed.
Lemma seg_ok_none es p rem : pc_ok es p → unfinished p → seg_ok es p [] [] (Blocked rem p).
Proof. cbn. rewrite !app_nil_r. auto. Qed.
Lemma timeout_not_signal : WAIT_RESULT_TIMEOUT ≠ WAIT_RESULT_SIGNAL.
Proof. done. Qed.
Lemma wait_failed_no_move es p r : pc_ok es p → unfinished p → r ≠ WAIT_RESULT_SIGNAL →
  match p with
  | InWriteEx _ _ _ => seg_ok es p [] [] (Done (RWait r))
  | InWriteBulk _ _ written _ _ => seg_ok es p [] [] (Done (RWrite r written))
  | InReadEx _ _ => seg_ok es p [] [] (Done (RRead r []))
  | InReadBulk _ _ data _ _ => seg_ok es p [] [] (Done (RRead r data))
  | InReadTriggered _ _ _ _ => True
  end.
Proof.
  intros [_ Hp] Hu Hr. destruct p as [data to d|src count written to d|to d|count n data to d|]; cbn in *; rewrite ?app_nil_r.
  - split_and!; try done. by destruct r.
  - split_and!; [done..|lia|split; [done|lia]].
  - rewrite decide_False by done. auto.
  - split_and!; try done. exists n. destruct Hp. split_and!; [lia|done|split; [done|lia]].
  - done.
Qed.

(** ** Every segment moves what it says *)

Lemma write_try_seg cap es cx data to d (m m' : M) o : pipe_ok cap es (fields m) → pc_ok es (InWriteEx data to d) →
  WriteEx_try cx data to d m = Ok (m', o) → ∃ wr, moves cap es wr [] (fields m) (fields m') ∧ seg_ok es (InWriteEx data to d) wr [] o.
Proof.
  intros Hq Hp E. unfold WriteEx_try in E. destruct (Nat.eqb_spec (m_count (fields m)) (m_capacity (fields m))) as [Hf|Hf].
  - destruct (cv_wait32 cx to d) as [w|] eqn:Ew; cbn in E; [|done]. injection E as <- <-. exists []. split; [by apply moves_none|].
    destruct (cv_wait32_cases _ _ _ _ Ew) as [->|(_ & rem & ->)]; [by apply (wait_failed_no_move es (InWriteEx data to d))|by apply seg_ok_none].
  - injection E as <- <-. rewrite fields_WakeOne. exists (take es data). split; [|cbn; auto]. apply store_one_moves; [done|apply Hp|].
    pose proof (po_count _ _ _ Hq). rewrite (po_cap _ _ _ Hq) in Hf. cbn [fields set_fields]. lia.
Qed.
Lemma read_try_seg cap es cx to d (m m' : M) o : pipe_ok cap es (fields m) → pc_ok es (InReadEx to d) →
  ReadEx_try cx to d m = Ok (m', o) → ∃ rd, moves cap es [] rd (fields m) (fields m') ∧ seg_ok es (InReadEx to d) [] rd o.
Proof.
  intros Hq Hp E. unfold ReadEx_try in E. destruct (Nat.eqb_spec (m_count (fields m)) 0) as [Hf|Hf].
  - destruct (cv_wait32 cx to d) as [w|] eqn:Ew; cbn in E; [|done]. injection E as <- <-. exists []. split; [by apply moves_none|].
    destruct (cv_wait32_cases _ _ _ _ Ew) as [->|(_ & rem & ->)]; [by apply (wait_failed_no_move es (InReadEx to d))|by apply seg_ok_none].
  - pose proof (take_one_moves cap es (fields m) Hq ltac:(lia)) as Hm. destruct (take_one (fields m)) as [x q'] eqn:Et. injection E as <- <-.
    rewrite fields_WakeOne. exists x. split; [done|]. cbn. split_and!; [done..|]. injection Et as <- _. pose proof Hq as [Ec Ee ? El ? ? _].
    rewrite decide_True by done. rewrite length_take, length_drop. unfold Slot. rewrite Ee, El. nia.
Qed.
Lemma write_loop_seg cap es cx src count to d fuel : ∀ written (m m' : M) o, pipe_ok cap es (fields m) → pc_ok es (InWriteBulk src count written to d) →
  WriteBulkEx_loop fuel cx src count written to d m = Ok (m', o) →
  ∃ wr, moves cap es wr [] (fields m) (fields m') ∧ seg_ok es (InWriteBulk src count written to d) wr [] o.
Proof.
  induction fuel as [|fuel IH]; intros written m m' o Hq Hp E; cbn [WriteBulkEx_loop] in E; [done|].
  pose proof Hp as [Hd [Hs Hwc]]. destruct (Nat.ltb_spec written count) as [Hw|Hw].
  - destruct (Nat.eqb_spec (m_count (fields m)) (m_capacity (fields m))) as [Hf|Hf].
    + destruct (cv_wait32 cx to d) as [w|] eqn:Ew; cbn in E; [|done]. injection E as <- <-. exists []. split; [by apply moves_none|].
      destruct (cv_wait32_cases _ _ _ _ Ew) as [->|(_ & rem & ->)];
        [by apply (wait_failed_no_move es (InWriteBulk src count written to d))|by apply seg_ok_none].
    + pose proof (store_part_moves cap es (fields m) src count written Hq Hs Hw) as Hm.
      destruct (to_write_le (fields m) count written) as [_ Hn]. set (n := to_write (fields m) count written) in *.
      apply IH in E as (wr & Hm' & Hs').
      * rewrite fields_WakeAll in Hm'. cbn [fields set_fields] in Hm'. eexists. split; [exact (moves_trans _ _ _ _ _ _ _ _ _ Hm Hm')|].
        apply (seg_ok_trans es _ (InWriteBulk src count (written + n) to d) _ [] wr [] o); [|done..|exact Hs']. cbn.
        by rewrite Nat.mul_add_distr_r, take_take_drop.
      * rewrite fields_WakeAll. apply Hm.
      * split; [done|]. split; [done|lia].
  - injection E as <- <-. exists []. split; [by apply moves_none|]. cbn. rewrite app_nil_r. split_and!; try done. split; [lia|done].
Qed.
Lemma read_loop_seg cap es cx count to d fuel : ∀ n data (m m' : M) o, pipe_ok cap es (fields m) → pc_ok es (InReadBulk count n data to d) →
  ReadBulkEx_loop fuel cx count n data to d m = Ok (m', o) →
  ∃ rd, moves cap es [] rd (fields m) (fields m') ∧ seg_ok es (InReadBulk count n data to d) [] rd o.
Proof.
  induction fuel as [|fuel IH]; intros n data m m' o Hq Hp E; cbn [ReadBulkEx_loop] in E; [done|].
  pose proof Hp as [Hd [Hn Hl]]. destruct (Nat.ltb_spec n count) as [Hw|Hw].
  - destruct (Nat.eqb_spec (m_count (fields m)) 0) as [Hf|Hf].
    + destruct (cv_wait32 cx to d) as [w|] eqn:Ew; cbn in E; [|done]. injection E as <- <-. exists []. split; [by apply moves_none|].
      destruct (cv_wait32_cases _ _ _ _ Ew) as [->|(_ & rem & ->)];
        [by apply (wait_failed_no_move es (InReadBulk count n data to d))|by apply seg_ok_none].
    + pose proof (drain_moves cap es m (count - n) Hq) as Hm. pose proof (length_drain cap es m (count - n) Hq) as Hlen.
      destruct (DrainLocked (count - n) m) as [[k x] m1] eqn:Ed. cbn [fst snd] in *. assert (Hk : k = Nat.min (count - n) (m_count (fields m))) by (by injection Ed).
      apply IH in E as (rd & Hm' & Hs').
      * eexists. split; [exact (moves_trans _ _ _ _ _ _ _ _ _ Hm Hm')|]. by apply (seg_ok_trans es _ (InReadBulk count (n + k) (data ++ x) to d) [] x []).
      * apply Hm.
      * split; [done|]. rewrite length_app, Hl, Hlen. split; [lia|nia].
  - injection E as <- <-. exists []. split; [by apply moves_none|]. cbn. rewrite app_nil_r. split_and!; [done..|]. exists n.
    split_and!; [done|done|]. split; [lia|done].
Qed.
Lemma triggered_end_seg cap es (m : M) trigger max_count to d r : pipe_ok cap es (fields m) → trigger ≤ max_count →
  (r = WAIT_RESULT_SIGNAL → trigger ≤ m_count (fields m)) →
  ∃ rd, moves cap es [] rd (fields m) (fields (ReadTriggered_end max_count r m).1) ∧
    seg_ok es (InReadTriggered trigger max_count to d) [] rd (ReadTriggered_end max_count r m).2.
Proof.
  intros Hq Ht Hr. pose proof (drain_moves cap es m max_count Hq) as Hm. pose proof (length_drain cap es m max_count Hq) as Hlen.
  unfold ReadTriggered_end. destruct (DrainLocked max_count m) as [[k x] m1]. cbn [fst snd] in *. exists x. split; [done|].
  cbn. split_and!; [done..|]. eexists. split_and!; [|exact Hlen|]; [lia|]. intros ?%Hr. lia.
Qed.
Lemma triggered_try_seg cap es cx trigger max_count to d (m m' : M) o : pipe_ok cap es (fields m) → pc_ok es (InReadTriggered trigger max_count to d) →
  ReadTriggered_try cx trigger max_count to d m = Ok (m', o) →
  ∃ rd, moves cap es [] rd (fields m) (fields m') ∧ seg_ok es (InReadTriggered trigger max_count to d) [] rd o.
Proof.
  intros Hq Hp E. pose proof Hp as [_ Ht]. unfold ReadTriggered_try in E. destruct (Nat.ltb_spec (m_count (fields m)) trigger) as [Hf|Hf].
  - destruct (cv_wait32 cx to d) as [w|] eqn:Ew; cbn [mbind res_bind] in E; [|done]. destruct (cv_wait32_cases _ _ _ _ Ew) as [->|(_ & rem & ->)].
    + pose proof (triggered_end_seg cap es m trigger max_count to d WAIT_RESULT_TIMEOUT Hq Ht ltac:(done)) as H.
      replace (ReadTriggered_end _ _ _) with (m', o) in H by congruence. exact H.
    + injection E as <- <-. exists []. split; [by apply moves_none|]. by apply seg_ok_none.
  - pose proof (triggered_end_seg cap es m trigger max_count to d WAIT_RESULT_SIGNAL Hq Ht ltac:(done)) as H.
    replace (ReadTriggered_end _ _ _) with (m', o) in H by congruence. exact H.
Qed.

Lemma retry_seg cap es cx p (m m' : M) o : pipe_ok cap es (fields m) → pc_ok es p → retry cx p m = Ok (m', o) →
  ∃ wr rd, moves cap es wr rd (fields m) (fields m') ∧ seg_ok es p wr rd o.
Proof.
  intros Hq Hp E. destruct p as [data to d|src count written to d|to d|count n data to d|tg mx to d]; cbn [retry] in E.
  - destruct (write_try_seg _ _ _ _ _ _ _ _ _ Hq Hp E) as (wr & H). eauto.
  - destruct (write_loop_seg _ _ _ _ _ _ _ _ _ _ _ _ Hq Hp E) as (wr & H). eauto.
  - destruct (read_try_seg _ _ _ _ _ _ _ _ Hq Hp E) as (rd & H). eauto.
  - destruct (read_loop_seg _ _ _ _ _ _ _ _ _ _ _ _ Hq Hp E) as (rd & H). eauto.
  - destruct (triggered_try_seg _ _ _ _ _ _ _ _ _ _ Hq Hp E) as (rd & H). eauto.
Qed.
Lemma pipe_resume_seg cap es cx p r (m m' : M) o : pipe_ok cap es (fields m) → pc_ok es p → unfinished p → resume cx p r m = Ok (m', o) →
  ∃ wr rd, moves cap es wr rd (fields m) (fields m') ∧ seg_ok es p wr rd o.
Proof.
  intros Hq Hp Hu E. unfold resume in E. destruct (decide (r = WAIT_RESULT_SIGNAL)) as [->|Hr];
    [rewrite bool_decide_eq_false_2 in E by (intros H; by apply H); by eapply retry_seg|].
  rewrite bool_decide_eq_true_2 in E by done. assert (E' : wait_failed p r m = (m', o)) by congruence. clear E. pose proof (wait_failed_no_move es p r Hp Hu Hr) as H.
  destruct p as [data to d|src count written to d|to d|count n data to d|tg mx to d]; cbn [wait_failed] in E'; cbv iota beta in H;
    [injection E' as <- <-; exists [], []; split; [by apply moves_none|done]..|].
  pose proof (triggered_end_seg cap es m tg mx to d r Hq (proj2 Hp) ltac:(done)) as (rd & H'). rewrite E' in H'. eauto.
Qed.

(** A call is a blocked call that has moved nothing yet, but for those that end at
    once. *)
Definition start_pc (cx : ctx) (c : call) : option pc :=
  match c with
  | CWriteEx data to => Some (InWriteEx data to (deadline32 cx to))
  | CWriteBulkEx (Some src) count to => Some (InWriteBulk src count 0 to (deadline32 cx to))
  | CReadEx to => Some (InReadEx to (deadline32 cx to))
  | CReadBulkEx true count to => Some (InReadBulk count 0 [] to (deadline32 cx to))
  | CReadBulkTriggeredEx true trigger max_count to =>
      if max_count =? 0 then None else Some (InReadTriggered (Nat.min max_count (Nat.max 1 trigger)) max_count to (deadline32 cx to))
  | _ => None
  end.
Definition ends_at_once (es : nat) (c : call) (m m' : M) (o : outcome pc ret) : Prop :=
  ∃ r, o = Done r ∧ (c = CReset ∧ m' = Reset m ∨ m' = m) ∧ result_ok es (job_of_call c) r ∧ sent es (job_of_call c) r = [] ∧ received r = [].
Lemma enter_cases es cx c (m m' : M) o : enter cx c m = Ok (m', o) →
  match start_pc cx c with Some p => retry cx p m = Ok (m', o) | None => ends_at_once es c m m' o end.
Proof.
  destruct c as [data to|[src|] count to|to|[] count to|[] tg mx to|]; cbn [enter start_pc WriteBulkEx ReadBulkEx ReadBulkTriggeredEx retry]; rewrite ?Nat.sub_0_r; try done.
  - unfold WriteEx. intros E. by inv_res.
  - intros [= <- <-]. eexists. cbn. eauto 8.
  - intros [= <- <-]. eexists. cbn. eauto 8.
  - destruct (Nat.eqb_spec mx 0) as [->|Hm]; [intros [= <- <-]; eexists; cbn; split_and!; [done|by right|by exists 0|done|done]|]. cbn [retry].
    replace (if mx <? _ then _ else _) with (Nat.min mx (Nat.max 1 tg)); [done|].
    destruct (Nat.eqb_spec tg 0); case_match eqn:E; rewrite ?Nat.ltb_lt, ?Nat.ltb_ge in E; lia.
  - intros [= <- <-]. eexists. cbn. eauto 8.
  - intros [= <- <-]. eexists. cbn. eauto 8.
Qed.

(** Segments wake waiters and do nothing else to the wait lists, and an interrupt
    handler never waits. *)
Definition tame (cx : ctx) (m m' : M) (o : outcome pc ret) : Prop := evolves m m' ∧ ∀ rem p, o = Blocked rem p → c_isr cx = false.
Lemma tame_wait cx (to d : Z) w (m : M) (f : EWaitResult + Z → outcome pc ret) : cv_wait32 cx to d = Ok w → (∀ r, ∃ x, f (inl r) = Done x) → tame cx m m (f w).
Proof.
  intros Ew Hf. split; [eauto with stk|]. intros rem p E. destruct (cv_wait32_cases _ _ _ _ Ew) as [->|(? & _)]; [|done].
  destruct (Hf WAIT_RESULT_TIMEOUT) as [x Ex]. congruence.
Qed.
Lemma tame_done cx (m m' : M) r : evolves m m' → tame cx m m' (Done r).
Proof. by split. Qed.
Lemma tame_step cx (m m1 m' : M) o : evolves m m1 → tame cx m1 m' o → tame cx m m' o.
Proof. intros H [? ?]. split; [by eapply evolves_trans|done]. Qed.
Lemma drain_evolves count (m : M) : evolves m (DrainLocked count m).2.
Proof. unfold DrainLocked. cbn. eapply evolves_trans; [|apply evolves_All]. eauto with stk. Qed.
Lemma triggered_end_tame cx mx r (m : M) : tame cx m (ReadTriggered_end mx r m).1 (ReadTriggered_end mx r m).2.
Proof.
  unfold ReadTriggered_end. pose proof (drain_evolves mx m) as H. destruct (DrainLocked mx m) as [[? ?] m1]. by apply tame_done.
Qed.
Lemma pipe_wake_all q cv (m : M) : evolves m (WakeAll cv (set_fields q m)).
Proof. eapply evolves_trans; [|apply evolves_All]. eauto with stk. Qed.
Lemma pipe_wake_one q cv (m : M) : evolves m (WakeOne cv (set_fields q m)).
Proof. eapply evolves_trans; [|apply evolves_One]. eauto with stk. Qed.
Lemma write_loop_tame cx src count to d fuel : ∀ written (m m' : M) o,
  WriteBulkEx_loop fuel cx src count written to d m = Ok (m', o) → tame cx m m' o.
Proof.
  induction fuel as [|fuel IH]; intros written m m' o E; cbn [WriteBulkEx_loop] in E; [done|].
  destruct (written <? count); [|injection E as <- <-; apply tame_done; eauto with stk]. destruct (_ =? _) in E.
  - destruct (cv_wait32 cx to d) as [w|] eqn:Ew; cbn in E; [|done]. injection E as <- <-.
    apply (tame_wait cx to d w m (λ w, match w with inr rem => _ | inl r => _ end) Ew). eauto.
  - eapply tame_step; [apply pipe_wake_all|]. by eapply IH.
Qed.
Lemma read_loop_tame cx count to d fuel : ∀ n data (m m' : M) o,
  ReadBulkEx_loop fuel cx count n data to d m = Ok (m', o) → tame cx m m' o.
Proof.
  induction fuel as [|fuel IH]; intros n data m m' o E; cbn [ReadBulkEx_loop] in E; [done|].
  destruct (n <? count); [|injection E as <- <-; apply tame_done; eauto with stk]. destruct (_ =? _) in E.
  - destruct (cv_wait32 cx to d) as [w|] eqn:Ew; cbn in E; [|done]. injection E as <- <-.
    apply (tame_wait cx to d w m (λ w, match w with inr rem => _ | inl r => _ end) Ew). eauto.
  - pose proof (drain_evolves (count - n) m) as H. destruct (DrainLocked (count - n) m) as [[? ?] m1]. eapply tame_step; [exact H|]. by eapply IH.
Qed.
Lemma retry_tame cx p (m m' : M) o : retry cx p m = Ok (m', o) → tame cx m m' o.
Proof.
  destruct p as [data to d|src count written to d|to d|count n data to d|tg mx to d]; cbn [retry]; [|apply write_loop_tame| |apply read_loop_tame|].
  - unfold WriteEx_try. destruct (_ =? _); [|intros [= <- <-]; apply tame_done, pipe_wake_one].
    destruct (cv_wait32 cx to d) as [w|] eqn:Ew; cbn; [|done]. intros [= <- <-].
    apply (tame_wait cx to d w m (λ w, match w with inr rem => _ | inl r => _ end) Ew). eauto.
  - unfold ReadEx_try. destruct (_ =? _); [|destruct (take_one _); intros [= <- <-]; apply tame_done, pipe_wake_one].
    destruct (cv_wait32 cx to d) as [w|] eqn:Ew; cbn; [|done]. intros [= <- <-].
    apply (tame_wait cx to d w m (λ w, match w with inr rem => _ | inl r => _ end) Ew). eauto.
  - pose proof (λ r, triggered_end_tame cx mx r m) as H. unfold ReadTriggered_try. destruct (_ <? _).
    + destruct (cv_wait32 cx to d) as [w|] eqn:Ew; cbn [mbind res_bind]; [|done].
      destruct (cv_wait32_cases _ _ _ _ Ew) as [->|(Hi & rem & ->)]; intros E; [|injection E as <- <-; split; eauto with stk].
      specialize (H WAIT_RESULT_TIMEOUT). replace (ReadTriggered_end _ _ _) with (m', o) in H by congruence. exact H.
    + intros E. specialize (H WAIT_RESULT_SIGNAL). replace (ReadTriggered_end _ _ _) with (m', o) in H by congruence. exact H.
Qed.
Lemma wait_failed_tame cx p r (m : M) : tame cx m (wait_failed p r m).1 (wait_failed p r m).2.
Proof. destruct p; [apply tame_done; eauto with stk..|apply triggered_end_tame]. Qed.
#[export] Instance pipe_lawful : Lawful prim.
Proof.
  assert (He : ∀ cx c (m m' : M) o, enter cx c m = Ok (m', o) → tame cx m m' o).
  { intros cx c m m' o H%(enter_cases 1). destruct (start_pc cx c); [by eapply retry_tame|]. destruct H as (r & -> & [[_ ->]| ->] & _);
      [apply tame_done, pipe_wake_all|apply tame_done; eauto with stk]. }
  split; cbn.
  - intros * [H _]%He. exact H.
  - intros cx p r m m' out E. unfold resume in E. destruct (bool_decide _); [|by apply (retry_tame cx p m m' out)].
    pose proof (wait_failed_tame cx p r m) as [H _]. replace (wait_failed _ _ _) with (m', out) in H by congruence. exact H.
  - intros cx c m m' rem p Hi E%He. destruct E as [_ E]. by rewrite (E _ _ eq_refl) in Hi.
Qed.

(** ** The pipe is a stream

    Two logs say who wrote and who read which bytes, in the order in which it
    happened; what [Reset] throws away is logged as read by nobody. *)

Notation log := (list (option Z * list Z)).
Definition bytes (g : log) : list Z := concat (snd <$> g).
Definition bytes_of (k : option Z) (g : log) : list Z := bytes (filter (λ e, e.1 = k) g).
(** What the finished calls of a task have sent and received, by their results. *)
Definition label_sent (es : nat) (t : Z) (lab : label prim) : list Z :=
  match lab with
  | LCall u c (Some r) => if decide (u = t) then sent es (job_of_call c) r else []
  | LResume u p _ (Some r) => if decide (u = t) then sent es (job_of_pc p) r else []
  | _ => []
  end.
Definition label_received (t : Z) (lab : label prim) : list Z :=
  match lab with
  | LCall u _ (Some r) | LResume u _ _ (Some r) => if decide (u = t) then received r else []
  | _ => []
  end.
Definition label_ok (es : nat) (lab : label prim) : Prop :=
  match lab with
  | LCall _ c (Some r) => result_ok es (job_of_call c) r
  | LResume _ p _ (Some r) => result_ok es (job_of_pc p) r
  | _ => True
  end.
Definition is_reset (lab : label prim) : bool := match lab with LCall _ CReset _ => true | _ => false end.
Definition sent_by (es : nat) (t : Z) (tr : list (label prim)) : list Z := concat (label_sent es t <$> tr).
Definition received_by (t : Z) (tr : list (label prim)) : list Z := concat (label_received t <$> tr).
(** What its blocked call, if any, has moved so far. *)
Definition pending_of (es : nat) (t : Z) (susp : gmap Z pc) : list Z := from_option (pending es) [] (susp !! t).
Definition got_of (t : Z) (susp : gmap Z pc) : list Z := from_option got [] (susp !! t).

Record logs (es : nat) (tr : list (label prim)) (q : Pipe) (susp : gmap Z pc) (li lo : log) : Prop := {
  lg_stream : bytes li = bytes lo ++ stream q;
  lg_in t : bytes_of (Some t) li = sent_by es t tr ++ pending_of es t susp;
  lg_out t : bytes_of (Some t) lo = received_by t tr ++ got_of t susp;
  lg_in_known : Forall (λ e, e.1 ≠ None) li;
  lg_out_known : existsb is_reset tr = false → Forall (λ e, e.1 ≠ None) lo;
}.

Lemma bytes_snoc g k x : bytes (g ++ [(k, x)]) = bytes g ++ x.
Proof. unfold bytes. rewrite fmap_app, concat_app. cbn. by rewrite app_nil_r. Qed.
Lemma bytes_of_snoc g k k' x : bytes_of k (g ++ [(k', x)]) = bytes_of k g ++ if decide (k' = k) then x else [].
Proof.
  unfold bytes_of. rewrite filter_app. destruct (decide (k' = k)) as [E|E].
  - rewrite (filter_cons_True _ (k', x)) by done. apply bytes_snoc.
  - rewrite (filter_cons_False _ (k', x)) by done. by rewrite !app_nil_r.
Qed.
Lemma sent_by_snoc es t tr lab : sent_by es t (tr ++ [lab]) = sent_by es t tr ++ label_sent es t lab.
Proof. unfold sent_by. rewrite fmap_app, concat_app. cbn. by rewrite app_nil_r. Qed.
Lemma received_by_snoc t tr lab : received_by t (tr ++ [lab]) = received_by t tr ++ label_received t lab.
Proof. unfold received_by. rewrite fmap_app, concat_app. cbn. by rewrite app_nil_r. Qed.

(** One segment of the task [t]. *)
Lemma logs_move cap es tr lab q q' susp susp' li lo t wr rd : logs es tr q susp li lo → moves cap es wr rd q q' → is_reset lab = false →
  label_sent es t lab ++ pending_of es t susp' = pending_of es t susp ++ wr →
  label_received t lab ++ got_of t susp' = got_of t susp ++ rd →
  (∀ u, u ≠ t → susp' !! u = susp !! u ∧ label_sent es u lab = [] ∧ label_received u lab = []) →
  logs es (tr ++ [lab]) q' susp' (li ++ [(Some t, wr)]) (lo ++ [(Some t, rd)]).
Proof.
  intros [E1 E2 E3 E4 E5] [Hq Em] Hr Hs Hg Hu. split.
  - by rewrite !bytes_snoc, E1, <- !app_assoc, Em.
  - intros u. rewrite bytes_of_snoc, sent_by_snoc, E2, <- !app_assoc. f_equal. destruct (decide (u = t)) as [->|Hne].
    + by rewrite decide_True.
    + rewrite decide_False by congruence. destruct (Hu u Hne) as (Es & -> & _). unfold pending_of. by rewrite Es, app_nil_r.
  - intros u. rewrite bytes_of_snoc, received_by_snoc, E3, <- !app_assoc. f_equal. destruct (decide (u = t)) as [->|Hne].
    + by rewrite decide_True.
    + rewrite decide_False by congruence. destruct (Hu u Hne) as (Es & _ & ->). unfold got_of. by rewrite Es, app_nil_r.
  - apply Forall_app. split; [done|]. by apply Forall_singleton.
  - rewrite existsb_app. intros [H _]%orb_false_iff. apply Forall_app. split; [by apply E5|]. by apply Forall_singleton.
Qed.
(** A label that moves nothing. *)
Lemma logs_keep es tr lab q susp li lo : logs es tr q susp li lo → (∀ u, label_sent es u lab = [] ∧ label_received u lab = []) →
  logs es (tr ++ [lab]) q susp li lo.
Proof.
  intros [E1 E2 E3 E4 E5] Hu. split; try done.
  - intros u. by rewrite sent_by_snoc, (proj1 (Hu u)), app_nil_r.
  - intros u. by rewrite received_by_snoc, (proj2 (Hu u)), app_nil_r.
  - rewrite existsb_app. intros [H _]%orb_false_iff. by apply E5.
Qed.
Lemma logs_reset es tr t r q q' susp li lo : logs es tr q susp li lo → stream q' = [] → sent es JReset r = [] → received r = [] →
  logs es (tr ++ [LCall (P := prim) t CReset (Some r)]) q' susp li (lo ++ [(None, stream q)]).
Proof.
  intros [E1 E2 E3 E4 E5] Eq Es Er. split.
  - by rewrite bytes_snoc, Eq, app_nil_r.
  - intros u. rewrite sent_by_snoc. cbn [label_sent job_of_call]. rewrite Es. case_decide; by rewrite app_nil_r.
  - intros u. rewrite bytes_of_snoc, received_by_snoc, decide_False, app_nil_r by done. cbn [label_received]. rewrite Er.
    case_decide; by rewrite app_nil_r.
  - done.
  - rewrite existsb_app. cbn. by rewrite andb_false_r || by rewrite orb_true_r.
Qed.

(** Sources hold what the call says, timeouts have 32 bits; tasks have
    non-negative ids, interrupt handlers are told apart from them. *)
Definition call_ok (es : nat) (c : call) : Prop :=
  match c with
  | CWriteEx data to => es ≤ length data ∧ in_i32 to
  | CWriteBulkEx src count to => (∀ s, src = Some s → count * es ≤ length s) ∧ in_i32 to
  | CReadEx to | CReadBulkEx _ _ to | CReadBulkTriggeredEx _ _ _ to => in_i32 to
  | CReset => True
  end.
Definition pipe_pre (es : nat) (tr : list (label prim)) (cx : ctx) (c : call) : Prop :=
  (if c_isr cx then c_tid cx < 0 else 0 ≤ c_tid cx)%Z ∧ call_ok es c.

Lemma start_pc_ok es cx c p : start_pc cx c = Some p → call_ok es c →
  pc_ok es p ∧ job_of_pc p = job_of_call c ∧ pending es p = [] ∧ got p = [].
Proof.
  destruct c as [data to|[src|] count to|to|[] count to|[] tg mx to|]; cbn [start_pc call_ok]; try done; try (destruct (mx =? 0); [done|]);
    intros [= <-] Hc; unfold pc_ok; cbn [deadline_of job_of_pc job_of_call pending got]; repeat split; try (apply deadline32_range); try tauto; try lia.
  apply Hc. done.
Qed.

Record pipe_inv (cap es : nat) (tr : list (label prim)) (m : M) (susp : gmap Z pc) : Prop := {
  pi_ok : pipe_ok cap es (fields m);
  pi_logs : ∃ li lo, logs es tr (fields m) susp li lo;
  pi_labels : Forall (label_ok es) tr;
  pi_blocked t p : susp !! t = Some p → (0 ≤ t)%Z ∧ pc_ok es p ∧ unfinished p;
}.

(** A segment of the call [p] of the task [t], whose blocked part is out of the way. *)
Lemma segment_inv cap es tr (m m' : M) (susp susp1 : gmap Z pc) t p o wr rd lab : pipe_inv cap es tr m susp →
  moves cap es wr rd (fields m) (fields m') → seg_ok es p wr rd o →
  susp1 = delete t susp → pending_of es t susp = pending es p → got_of t susp = got p →
  (∀ rem p', o = Blocked rem p' → (0 ≤ t)%Z) → is_reset lab = false →
  (∀ u, label_sent es u lab = from_option (λ r, if decide (t = u) then sent es (job_of_pc p) r else []) [] (returned (P := prim) o)) →
  (∀ u, label_received u lab = from_option (λ r, if decide (t = u) then received r else []) [] (returned (P := prim) o)) →
  (label_ok es lab ↔ from_option (result_ok es (job_of_pc p)) True (returned (P := prim) o)) →
  let w := finish (P := prim) t m' o susp1 in pipe_inv cap es (tr ++ [lab]) (w_mon w) (w_susp w).
Proof.
  intros [Hq (li & lo & Hl) Hlab Hb] Hm Hs -> Ep Eg Ht Hr El1 El2 El3. cbv zeta.
  assert (Hother : ∀ u, u ≠ t → label_sent es u lab = [] ∧ label_received u lab = []).
  { intros u Hu. rewrite El1, El2. destruct (returned (P := prim) o); cbn; [|done]. by rewrite !decide_False by done. }
  split; destruct o as [r|rem p']; cbn [finish w_mon w_susp fields AddWaitObject returned from_option] in *.
  - apply Hm.
  - apply Hm.
  - do 2 eexists. apply (logs_move cap es tr lab _ _ _ _ _ _ t _ _ Hl Hm Hr).
    + rewrite El1, decide_True, Ep by done. unfold pending_of. rewrite lookup_delete_eq, app_nil_r. apply Hs.
    + rewrite El2, decide_True, Eg by done. unfold got_of. rewrite lookup_delete_eq, app_nil_r. apply Hs.
    + intros u Hu. rewrite lookup_delete_ne by done. split; [done|]. by apply Hother.
  - do 2 eexists. apply (logs_move cap es tr lab _ _ _ _ _ _ t _ _ Hl Hm Hr).
    + rewrite El1, Ep. unfold pending_of. rewrite lookup_insert_eq. apply Hs.
    + rewrite El2, Eg. unfold got_of. rewrite lookup_insert_eq. apply Hs.
    + intros u Hu. rewrite lookup_insert_ne, lookup_delete_ne by done. split; [done|]. by apply Hother.
  - apply Forall_app. split; [done|]. apply Forall_singleton, El3, Hs.
  - apply Forall_app. split; [done|]. apply Forall_singleton, El3. done.
  - intros u q [_ Hu]%lookup_delete_Some. by apply Hb.
  - intros u q. destruct (decide (t = u)) as [<-|Hne].
    + rewrite lookup_insert_eq. intros [= <-]. split; [by eapply Ht|]. apply Hs.
    + rewrite lookup_insert_ne by done. intros [_ Hu]%lookup_delete_Some. by apply Hb.
Qed.

Lemma reset_ok cap es q : pipe_ok cap es q → pipe_ok cap es (mkPipe (m_buffer q) (m_capacity q) (m_element_size q) 0 0 0) ∧
  stream (mkPipe (m_buffer q) (m_capacity q) (m_element_size q) 0 0 0) = [].
Proof.
  intros [Ec Ee Hp El Hc Ht Eh]. split; [split; cbn; try done; try lia; by rewrite Nat.Div0.mod_0_l|].
  unfold stream, ring_read. cbn. by rewrite decide_True by lia.
Qed.

Lemma pipe_step cap es tr (w w' : World prim) lab : pipe_inv cap es tr (w_mon w) (w_susp w) → step (pipe_pre es) tr w lab w' →
  pipe_inv cap es (tr ++ [lab]) (w_mon w') (w_susp w').
Proof.
  intros Hi Hs. destruct Hs as [w cx c m o Hpre Hn E|w cx p r m o Hisr Hp Hr E|w t p r Hr Hp Hl];
    destruct w as [m0 susp]; cbn [p_fields p_call p_pc p_ret p_cv p_enter p_resume prim w_mon w_susp] in *.
  - destruct Hpre as [Ht Hc]. assert (Hn' : susp !! c_tid cx = None).
    { destruct (susp !! c_tid cx) as [p|] eqn:Ep; [|done]. destruct (pi_blocked _ _ _ _ _ Hi _ _ Ep) as [? _]. destruct (c_isr cx); [lia|by apply Hn]. }
    apply (enter_cases es) in E. destruct (start_pc cx c) as [p|] eqn:Es.
    + destruct (start_pc_ok es cx c p Es Hc) as (Hp & Ej & Epend & Egot). destruct (retry_seg cap es cx p m0 m o (pi_ok _ _ _ _ _ Hi) Hp E) as (wr & rd & Hm & Hseg).
      eapply (segment_inv cap es tr m0 m susp _ (c_tid cx) p o wr rd _ Hi Hm Hseg); try done.
      * by rewrite delete_id.
      * unfold pending_of. by rewrite Hn'.
      * unfold got_of. by rewrite Hn'.
      * intros rem p' ->. destruct (retry_tame _ _ _ _ _ E) as [_ Hb]. rewrite (Hb _ _ eq_refl) in Ht. done.
      * by destruct c.
      * intros u. cbn. rewrite Ej. by destruct o.
      * cbn. rewrite Ej. by destruct o.
    + destruct E as (r & -> & Hm & Hres & Hsent & Hrec). cbn [finish w_mon w_susp returned]. destruct Hi as [Hq (li & lo & Hl) Hlab Hb].
      assert (Hlab' : Forall (label_ok es) (tr ++ [LCall (P := prim) (c_tid cx) c (Some r)])) by (apply Forall_app; split; [done|by apply Forall_singleton]).
      destruct Hm as [[-> ->]| ->].
      * destruct (reset_ok cap es _ Hq) as [Hq' Eq']. unfold Reset. split; rewrite ?fields_WakeAll; try done. do 2 eexists. by eapply logs_reset.
      * split; try done. do 2 eexists. apply logs_keep; [done|]. intros u. cbn. rewrite Hsent, Hrec. by case_decide.
  - destruct (pi_blocked _ _ _ _ _ Hi _ _ Hp) as (Ht & Hpo & Hu).
    destruct (pipe_resume_seg cap es cx p r (take_woken (c_tid cx) m0) m o (pi_ok _ _ _ _ _ Hi) Hpo Hu E) as (wr & rd & Hm & Hseg).
    eapply (segment_inv cap es tr m0 m susp _ (c_tid cx) p o wr rd _ Hi Hm Hseg); try done.
    + unfold pending_of. by rewrite Hp.
    + unfold got_of. by rewrite Hp.
  - destruct Hi as [Hq (li & lo & Hlg) Hlab Hb]. split; try done.
    + do 2 eexists. by apply logs_keep.
    + apply Forall_app; split; [done|by apply Forall_singleton].
Qed.

(** Every call of a task goes through: the loops end and nothing is refused, as
    long as the tick count fits the deadline arithmetic. *)
Lemma write_loop_ok cap es cx src count to d fuel : ∀ written (m : M), c_isr cx = false → in_range cx → pipe_ok cap es (fields m) →
  pc_ok es (InWriteBulk src count written to d) → count - written < fuel → ∃ m' o, WriteBulkEx_loop fuel cx src count written to d m = Ok (m', o).
Proof.
  induction fuel as [|fuel IH]; intros written m Hi Hr Hq Hp Hf; [lia|]. cbn [WriteBulkEx_loop]. pose proof Hp as [Hd [Hs Hwc]].
  destruct (Nat.ltb_spec written count) as [Hw|Hw]; [|eauto]. destruct (Nat.eqb_spec (m_count (fields m)) (m_capacity (fields m))) as [Hc|Hc].
  - destruct (cv_wait32_ok cx to d Hi Hr Hd) as [w ->]. cbn. eauto.
  - pose proof (store_part_moves cap es (fields m) src count written Hq Hs Hw) as [Hq' _]. destruct (to_write_le (fields m) count written).
    pose proof (to_write_pos (fields m) count written Hw) as Hpos. pose proof (po_count _ _ _ Hq). rewrite (po_cap _ _ _ Hq) in *.
    apply IH; [done|done|by rewrite fields_WakeAll|split; [done|split; [done|lia]]|lia].
Qed.
Lemma read_loop_ok cap es cx count to d fuel : ∀ n data (m : M), c_isr cx = false → in_range cx → pipe_ok cap es (fields m) →
  in_i32 d → count - n < fuel → ∃ m' o, ReadBulkEx_loop fuel cx count n data to d m = Ok (m', o).
Proof.
  induction fuel as [|fuel IH]; intros n data m Hi Hr Hq Hd Hf; [lia|]. cbn [ReadBulkEx_loop].
  destruct (Nat.ltb_spec n count) as [Hw|Hw]; [|eauto]. destruct (Nat.eqb_spec (m_count (fields m)) 0) as [Hc|Hc].
  - destruct (cv_wait32_ok cx to d Hi Hr Hd) as [w ->]. cbn. eauto.
  - pose proof (drain_moves cap es m (count - n) Hq) as [Hq' _]. destruct (DrainLocked (count - n) m) as [[k x] m1] eqn:Ed.
    assert (k = Nat.min (count - n) (m_count (fields m))) by (by injection Ed). apply IH; [done..|lia].
Qed.
Lemma retry_ok cap es cx p (m : M) : c_isr cx = false → in_range cx → pipe_ok cap es (fields m) → pc_ok es p → ∃ m' o, retry cx p m = Ok (m', o).
Proof.
  intros Hi Hr Hq Hp. pose proof (λ to d, cv_wait32_ok cx to d Hi Hr) as Hw. pose proof Hp as [Hd _].
  destruct p as [data to d|src count written to d|to d|count n data to d|tg mx to d]; cbn [retry deadline_of] in *.
  - unfold WriteEx_try. destruct (_ =? _); [|eauto]. destruct (Hw to d Hd) as [w ->]. cbn. eauto.
  - by apply (write_loop_ok cap es); try lia.
  - unfold ReadEx_try. destruct (_ =? _); [|destruct (take_one _); eauto]. destruct (Hw to d Hd) as [w ->]. cbn. eauto.
  - by apply (read_loop_ok cap es); try lia.
  - unfold ReadTriggered_try. destruct (ReadTriggered_end mx WAIT_RESULT_SIGNAL m) as [? ?]. destruct (_ <? _); [|eauto].
    destruct (Hw to d Hd) as [w ->]. cbn [mbind res_bind]. destruct w as [r|]; [destruct (ReadTriggered_end mx r m)|]; eauto.
Qed.
Lemma enter_ok cap es cx c (m : M) : c_isr cx = false → in_range cx → pipe_ok cap es (fields m) → call_ok es c → (Z.of_nat cap < CAPACITY_MAX)%Z →
  ∃ m' o, enter cx c m = Ok (m', o).
Proof.
  intros Hi Hr Hq Hc Hmax. pose proof (λ p H, retry_ok cap es cx p m Hi Hr Hq (proj1 (start_pc_ok es cx c p H Hc))) as Hp.
  destruct c as [data to|[src|] count to|to|[] count to|[] tg mx to|]; cbn [enter start_pc WriteBulkEx ReadBulkEx ReadBulkTriggeredEx] in *; eauto.
  - unfold WriteEx. pose proof (po_count _ _ _ Hq). rewrite (proj2 (Z.leb_le _ _)) by lia. by apply (Hp _ eq_refl).
  - destruct (Hp _ eq_refl) as (m' & o & E). cbn [retry] in E. rewrite Nat.sub_0_r in E. eauto.
  - by apply (Hp _ eq_refl).
  - destruct (Hp _ eq_refl) as (m' & o & E). cbn [retry] in E. rewrite Nat.sub_0_r in E. eauto.
  - destruct (Nat.eqb_spec mx 0); [eauto|]. destruct (Hp _ eq_refl) as (m' & o & E). cbn [retry] in E.
    replace (if mx <? _ then _ else _) with (Nat.min mx (Nat.max 1 tg)); [eauto|].
    destruct (Nat.eqb_spec tg 0); case_match eqn:E'; rewrite ?Nat.ltb_lt, ?Nat.ltb_ge in E'; lia.
Qed.

Lemma pipe_run cap es buf q0 tr (w : World prim) : Pipe_ctor buf cap es = Ok q0 → length buf = cap * es →
  run (pipe_pre es) (mkWorld (P := prim) (init q0) ∅) tr w → wf w ∧ pipe_inv cap es tr (w_mon w) (w_susp w).
Proof.
  intros E Hb. unfold Pipe_ctor in E. destruct (Nat.leb_spec 1 cap) as [Hc|]; [|done].
  destruct (Nat.leb_spec 1 es) as [He|]; [|by inv_res]. inv_res.
  apply (run_ind_wf (P := prim) (pipe_pre es) (mkPipe buf cap es 0 0 0) (λ tr w, pipe_inv cap es tr (w_mon w) (w_susp w))).
  - assert (Hq : pipe_ok cap es (mkPipe buf cap es 0 0 0)) by (split; cbn; try done; try lia; by rewrite Nat.Div0.mod_0_l).
    split; [done| |done|done]. exists [], []. by split.
  - intros tr' w' lab w2 _ _ H3 H4. exact (pipe_step cap es tr' w' w2 lab H3 H4).
Qed.

(** C27. The pipe is a byte stream.  For every history of calls, waits, timeouts,
    cancellations and interrupts on a pipe of cap elements of es bytes: what was
    ever written is what was ever read followed by what the ring holds, in
    order, nothing lost, doubled or invented; each task's own share of the
    writes is what its results say it wrote, followed by the part its blocked
    call has moved, in its order, and likewise for reads.  Only Reset takes
    bytes away unread.  Every result is right: success means that all of the
    elements asked for (at least the trigger) were moved, and a timeout reports
    how many were.  While the tick count is below 2^31 and the capacity below
    its maximum, no part of a call of a task, from its start or from its return
    from a wait to its end or its next wait, fails or runs forever; whether a
    task that waits is woken is a different matter. *)
Theorem pipe_stream cap es buf q0 tr (w : World prim) :
  Pipe_ctor buf cap es = Ok q0 → length buf = cap * es →
  run (pipe_pre es) (mkWorld (P := prim) (init q0) ∅) tr w →
  let m : M := w_mon w in
  (∃ li lo, bytes li = bytes lo ++ stream (fields m) ∧
     (∀ t, bytes_of (Some t) li = sent_by es t tr ++ pending_of es t (w_susp w)) ∧
     (∀ t, bytes_of (Some t) lo = received_by t tr ++ got_of t (w_susp w)) ∧
     Forall (λ e, e.1 ≠ None) li ∧ (existsb is_reset tr = false → Forall (λ e, e.1 ≠ None) lo)) ∧
  length (stream (fields m)) = m_count (fields m) * es ∧ m_count (fields m) ≤ cap ∧
  Forall (label_ok es) tr ∧
  (∀ cx c, c_isr cx = false → in_range cx → pipe_pre es tr cx c → (Z.of_nat cap < CAPACITY_MAX)%Z → ∃ m' o, enter cx c m = Ok (m', o)) ∧
  (∀ cx p r, c_isr cx = false → in_range cx → w_susp w !! c_tid cx = Some p → ∃ m' o, resume cx p r (take_woken (c_tid cx) m) = Ok (m', o)).
Proof.
  intros E Hb Hrun. destruct (pipe_run cap es buf q0 tr w E Hb Hrun) as (_ & [Hq (li & lo & [L1 L2 L3 L4 L5]) Hlab Hbl]). intros m.
  split_and!; [by exists li, lo|by apply (length_stream cap)|apply Hq|done| |].
  - intros cx c Hi Hr [_ Hc]. by apply (enter_ok cap es).
  - intros cx p r Hi Hr Hp. destruct (Hbl _ _ Hp) as (_ & Hpo & _). unfold resume.
    destruct (bool_decide _); [destruct (wait_failed p r _); eauto|]. by apply (retry_ok cap es).
Qed.

(** ** No wake-up is lost *)

(** [ke] and [kf] count the running task, when it was woken for an element or a
    free slot. *)
Record wakes (cap : nat) (ke kf : Z) (m : M) (susp : gmap Z pc) : Prop := {
  wk_empty : covered (P := prim) cv_not_empty (Z.of_nat (m_count (fields m)) - ke) m susp;
  wk_full : covered (P := prim) cv_not_full (Z.of_nat cap - Z.of_nat (m_count (fields m)) - kf) m susp;
}.
Definition plain (p : pc) : Prop := match p with InReadTriggered _ _ _ _ => False | _ => True end.
(** A segment that blocks found the pipe full (empty). *)
Definition block_ok (cap : nat) (p : pc) (m : M) (o : outcome pc ret) : Prop :=
  match o with
  | Blocked _ p' => is_write p' = is_write p ∧ plain p' ∧ m_count (fields m) = if is_write p then cap else 0
  | Done _ => True
  end.

Lemma wakes_weaken cap ke kf ke' kf' (m : M) susp : (ke ≤ ke')%Z → (kf ≤ kf')%Z → wakes cap ke kf m susp → wakes cap ke' kf' m susp.
Proof. intros H1 H2 [W1 W2]. split; [eapply (covered_same (P := prim)); [| | |exact W1]|eapply (covered_same (P := prim)); [| | |exact W2]]; done || lia. Qed.
(** Elements were added, or taken, and the other side was woken. *)
Lemma wakes_put_one cap kf (m : M) susp q : wf_parts (P := prim) m susp → wakes cap 0 kf m susp → (kf ≤ 1)%Z → m_count q = m_count (fields m) + 1 →
  wakes cap 0 0 (WakeOne cv_not_empty (set_fields q m)) susp.
Proof.
  intros Hwf [W1 W2] Hk Eq. assert (Hwf1 : wf_parts (P := prim) (set_fields q m) susp) by (by apply (wf_same (P := prim) m)).
  split; rewrite fields_WakeOne; cbn [fields set_fields]; rewrite Eq.
  - replace (_ - _)%Z with (Z.of_nat (m_count (fields m)) + 1)%Z by lia. apply (covered_WakeOne (P := prim)); [done|].
    eapply (covered_same (P := prim)); [| | |exact W1]; try done. lia.
  - apply (covered_WakeOne_ne (P := prim)); [done..|]. eapply (covered_same (P := prim)); [| | |exact W2]; try done. lia.
Qed.
Lemma wakes_take_one cap ke (m : M) susp q : wf_parts (P := prim) m susp → wakes cap ke 0 m susp → (ke ≤ 1)%Z → 0 < m_count (fields m) →
  m_count q = m_count (fields m) - 1 → wakes cap 0 0 (WakeOne cv_not_full (set_fields q m)) susp.
Proof.
  intros Hwf [W1 W2] Hk Hp Eq. assert (Hwf1 : wf_parts (P := prim) (set_fields q m) susp) by (by apply (wf_same (P := prim) m)).
  split; rewrite fields_WakeOne; cbn [fields set_fields]; rewrite Eq.
  - apply (covered_WakeOne_ne (P := prim)); [done..|]. eapply (covered_same (P := prim)); [| | |exact W1]; try done. lia.
  - replace (_ - 0)%Z with (Z.of_nat cap - Z.of_nat (m_count (fields m)) + 1)%Z by lia. apply (covered_WakeOne (P := prim)); [done|].
    eapply (covered_same (P := prim)); [| | |exact W2]; try done. lia.
Qed.
Lemma wakes_put_all cap kf (m : M) susp q : wf_parts (P := prim) m susp → wakes cap 0 kf m susp →
  (Z.of_nat (m_count (fields m)) + kf ≤ Z.of_nat (m_count q))%Z → wakes cap 0 0 (WakeAll cv_not_empty (set_fields q m)) susp.
Proof.
  intros Hwf [W1 W2] Hk. assert (Hwf1 : wf_parts (P := prim) (set_fields q m) susp) by (by apply (wf_same (P := prim) m)).
  split; [apply (covered_WakeAll (P := prim))|]. rewrite fields_WakeAll. cbn [fields set_fields]. apply (covered_WakeAll_ne (P := prim)); [done..|].
  eapply (covered_same (P := prim)); [| | |exact W2]; try done. lia.
Qed.
Lemma wakes_take_all cap ke (m : M) susp q : wf_parts (P := prim) m susp → wakes cap ke 0 m susp →
  (Z.of_nat (m_count q) + ke ≤ Z.of_nat (m_count (fields m)))%Z → wakes cap 0 0 (WakeAll cv_not_full (set_fields q m)) susp.
Proof.
  intros Hwf [W1 W2] Hk. assert (Hwf1 : wf_parts (P := prim) (set_fields q m) susp) by (by apply (wf_same (P := prim) m)).
  split; [|apply (covered_WakeAll (P := prim))]. rewrite fields_WakeAll. cbn [fields set_fields]. apply (covered_WakeAll_ne (P := prim)); [done..|].
  eapply (covered_same (P := prim)); [| | |exact W1]; try done. lia.
Qed.
(** The running task found nothing and is not needed. *)
Lemma wakes_full cap kf (m : M) susp : wakes cap 0 kf m susp → m_count (fields m) = cap → (0 ≤ kf)%Z → wakes cap 0 0 m susp.
Proof. intros [W1 W2] E Hk. split; [done|]. apply (covered_none (P := prim)). lia. Qed.
Lemma wakes_empty cap ke (m : M) susp : wakes cap ke 0 m susp → m_count (fields m) = 0 → (0 ≤ ke)%Z → wakes cap 0 0 m susp.
Proof. intros [W1 W2] E Hk. split; [|done]. apply (covered_none (P := prim)). lia. Qed.
Lemma wf_all (m : M) susp cv q : wf_parts (P := prim) m susp → wf_parts (P := prim) (WakeAll cv (set_fields q m)) susp.
Proof. intros H. eapply (wf_evolves (P := prim)); [exact H|]. apply pipe_wake_all. Qed.

Lemma write_loop_wakes cap es cx src count to d fuel : ∀ written kf (m m' : M) susp o, wf_parts (P := prim) m susp → pipe_ok cap es (fields m) →
  pc_ok es (InWriteBulk src count written to d) → (0 ≤ kf ≤ 1)%Z → (written = count → kf = 0%Z) → wakes cap 0 kf m susp →
  WriteBulkEx_loop fuel cx src count written to d m = Ok (m', o) → wakes cap 0 0 m' susp ∧ block_ok cap (InWriteBulk src count written to d) m' o.
Proof.
  induction fuel as [|fuel IH]; intros written kf m m' susp o Hwf Hq Hp Hk Hz Hw E; cbn [WriteBulkEx_loop] in E; [done|].
  pose proof Hp as [Hd [Hs Hwc]]. pose proof (po_cap _ _ _ Hq) as Ec. destruct (Nat.ltb_spec written count) as [Hlt|Hlt].
  - destruct (Nat.eqb_spec (m_count (fields m)) (m_capacity (fields m))) as [Hf|Hf].
    + destruct (cv_wait32 cx to d) as [w|] eqn:Ew; cbn in E; [|done]. injection E as <- <-. split; [eapply wakes_full; [done|congruence|lia]|].
      destruct w; cbn; [done|]. split_and!; [done|done|congruence].
    + pose proof (store_part_moves cap es (fields m) src count written Hq Hs Hlt) as [Hq' _]. pose proof (to_write_le (fields m) count written) as [_ Hn].
      pose proof (po_count _ _ _ Hq). pose proof (to_write_pos (fields m) count written Hlt ltac:(lia)) as Hpos.
      eapply (IH (written + to_write (fields m) count written) 0%Z _ _ susp _) in E; [exact E|by apply wf_all|by rewrite fields_WakeAll| |lia|done|].
      * split; [done|]. split; [done|lia].
      * eapply wakes_put_all; [done|done|]. cbn [m_count store_part]. lia.
  - injection E as <- <-. split; [|done]. rewrite (Hz ltac:(lia)) in Hw. done.
Qed.
Lemma read_loop_wakes cap es cx count to d fuel : ∀ n data ke (m m' : M) susp o, wf_parts (P := prim) m susp → pipe_ok cap es (fields m) →
  n ≤ count → (0 ≤ ke ≤ 1)%Z → (n = count → ke = 0%Z) → wakes cap ke 0 m susp →
  ReadBulkEx_loop fuel cx count n data to d m = Ok (m', o) → wakes cap 0 0 m' susp ∧ block_ok cap (InReadBulk count n data to d) m' o.
Proof.
  induction fuel as [|fuel IH]; intros n data ke m m' susp o Hwf Hq Hn Hk Hz Hw E; cbn [ReadBulkEx_loop] in E; [done|].
  destruct (Nat.ltb_spec n count) as [Hlt|Hlt].
  - destruct (Nat.eqb_spec (m_count (fields m)) 0) as [Hf|Hf].
    + destruct (cv_wait32 cx to d) as [w|] eqn:Ew; cbn in E; [|done]. injection E as <- <-. split; [eapply wakes_empty; [done|done|lia]|].
      by destruct w.
    + pose proof (drain_moves cap es m (count - n) Hq) as [Hq' _]. cbn [DrainLocked] in E. unfold DrainLocked in Hq'; cbn [snd] in Hq'.
      eapply (IH _ _ 0%Z _ _ susp _) in E; [exact E|by apply wf_all|exact Hq'|lia|lia|done|].
      eapply wakes_take_all; [done|done|]. cbn [m_count]. lia.
  - injection E as <- <-. split; [|done]. rewrite (Hz ltac:(lia)) in Hw. done.
Qed.
Lemma retry_wakes cap es cx p k (m m' : M) susp o : wf_parts (P := prim) m susp → pipe_ok cap es (fields m) → pc_ok es p → plain p →
  (0 ≤ k ≤ 1)%Z → (k = 0%Z ∨ unfinished p) → wakes cap (if is_write p then 0 else k) (if is_write p then k else 0) m susp →
  retry cx p m = Ok (m', o) → wakes cap 0 0 m' susp ∧ block_ok cap p m' o.
Proof.
  intros Hwf Hq Hp Hpl Hk Hu Hw E. pose proof (po_cap _ _ _ Hq) as Ec. pose proof (po_count _ _ _ Hq).
  destruct p as [data to d|src count written to d|to d|count n data to d|tg mx to d]; cbn [retry is_write] in *; [| | | |done].
  - unfold WriteEx_try in E. destruct (Nat.eqb_spec (m_count (fields m)) (m_capacity (fields m))) as [Hf|Hf].
    + destruct (cv_wait32 cx to d) as [w|] eqn:Ew; cbn in E; [|done]. injection E as <- <-. split; [eapply wakes_full; [done|congruence|lia]|].
      destruct w; cbn; [done|]. split_and!; [done|done|congruence].
    + injection E as <- <-. split; [|done]. eapply wakes_put_one; [done|done|lia|done].
  - eapply write_loop_wakes; [done|done|done| | |done|done]; [lia|]. cbn in Hu. intros. destruct Hu; [done|lia].
  - unfold ReadEx_try in E. destruct (Nat.eqb_spec (m_count (fields m)) 0) as [Hf|Hf].
    + destruct (cv_wait32 cx to d) as [w|] eqn:Ew; cbn in E; [|done]. injection E as <- <-. split; [eapply wakes_empty; [done|done|lia]|].
      by destruct w.
    + injection E as <- <-. split; [|done]. eapply wakes_take_one; [done|done|lia|lia|done].
  - eapply read_loop_wakes; [done|done|apply Hp| | |done|done]; [lia|]. cbn in Hu. intros. destruct Hu; [done|lia].
Qed.

(** The end of a segment. *)
Lemma finish_wakes cap t p (m : M) (susp : gmap Z pc) o : wf_parts (P := prim) m susp → susp !! t = None → wakes cap 0 0 m susp → block_ok cap p m o →
  let w := finish (P := prim) t m o susp in wakes cap 0 0 (w_mon w) (w_susp w).
Proof.
  intros Hwf Hn [W1 W2] Hb. destruct o as [r|rem p']; [done|]. destruct Hb as (Ew & _ & Hc). cbn [finish w_mon w_susp].
  split; apply (covered_block (P := prim) _ _ m susp t p'); try done; cbn [fields AddWaitObject]; change (p_cv prim p') with (pc_cv p');
    change (p_fields prim) with Pipe; unfold pc_cv; rewrite Ew, Hc; destruct (is_write p); intros; lia || done.
Qed.
Lemma take_wakes cap t p r (m : M) (susp : gmap Z pc) : wakes cap 0 0 m susp → susp !! t = Some p → woken m !! t = Some r →
  let k := b2z (bool_decide (r = WAIT_RESULT_SIGNAL)) in
  wakes cap (if is_write p then 0 else k) (if is_write p then k else 0) (take_woken t m) (delete t susp).
Proof.
  intros [W1 W2] Hp Hr k. pose proof (covered_take (P := prim) _ _ m susp t p r Hp Hr W1) as H1.
  pose proof (covered_take (P := prim) _ _ m susp t p r Hp Hr W2) as H2. change (p_cv prim p) with (pc_cv p) in *.
  assert (Hk : (0 ≤ k)%Z) by (unfold k, b2z; by destruct (bool_decide _)). cbn [fields take_woken].
  split; [eapply (covered_same (P := prim)); [| | |exact H1]|eapply (covered_same (P := prim)); [| | |exact H2]]; try done;
    cbn [fields take_woken]; change (p_fields prim) with Pipe; unfold pc_cv; destruct (is_write p);
    first [rewrite bool_decide_eq_true_2 by done|rewrite bool_decide_eq_false_2 by done]; cbn [andb]; fold k; cbn [b2z]; lia.
Qed.
Lemma abort_wakes cap t p r (m : M) (susp : gmap Z pc) : wf_parts (P := prim) m susp → wakes cap 0 0 m susp → susp !! t = Some p →
  t ∈ wait_list (pc_cv p) m → r ≠ WAIT_RESULT_SIGNAL → wakes cap 0 0 (RemoveWaitObject (pc_cv p) t r m) susp.
Proof. intros Hwf [W1 W2] Hp Hl Hr. split; by apply (covered_abort (P := prim)). Qed.

Definition plain_pre (es : nat) (tr : list (label prim)) (cx : ctx) (c : call) : Prop :=
  pipe_pre es tr cx c ∧ match c with CReadBulkTriggeredEx _ _ _ _ => False | _ => True end.
Definition plain_inv (cap : nat) (m : M) (susp : gmap Z pc) : Prop := wakes cap 0 0 m susp ∧ ∀ t p, susp !! t = Some p → plain p.

Lemma finish_plain cap t p (m : M) (susp : gmap Z pc) o : wf_parts (P := prim) m susp → susp !! t = None → wakes cap 0 0 m susp → block_ok cap p m o →
  (∀ u q, susp !! u = Some q → plain q) → let w := finish (P := prim) t m o susp in plain_inv cap (w_mon w) (w_susp w).
Proof.
  intros Hwf Hn Hw Hb Hpl. split; [by eapply finish_wakes|]. destruct o as [r|rem p']; [done|]. intros u q. cbn [finish w_susp].
  rewrite lookup_insert_Some. intros [[_ <-]|[_ Hu]]; [apply Hb|by eapply Hpl].
Qed.
Lemma plain_step cap es tr (w w' : World prim) lab : wf w → pipe_inv cap es tr (w_mon w) (w_susp w) → plain_inv cap (w_mon w) (w_susp w) →
  step (plain_pre es) tr w lab w' → plain_inv cap (w_mon w') (w_susp w').
Proof.
  intros Hwf Hi [Hw Hpl] Hs. destruct Hs as [w cx c m o Hpre Hn E|w cx p r m o Hisr Hp Hr E|w t p r Hr Hp Hl]; unfold wf in Hwf;
    destruct w as [m0 susp]; cbn [p_fields p_call p_pc p_ret p_cv p_enter p_resume prim w_mon w_susp] in *.
  - destruct Hpre as [[Ht Hc] Hnt]. apply (enter_cases es) in E. destruct (start_pc cx c) as [p|] eqn:Es.
    + destruct (start_pc_ok es cx c p Es Hc) as (Hp & Ej & _ & _). assert (Hpp : plain p) by (destruct c as [|[]| |[]|[]|], p; done).
      destruct (retry_tame _ _ _ _ _ E) as [Hev Hblk].
      destruct (retry_wakes cap es cx p 0 m0 m susp o Hwf (pi_ok _ _ _ _ _ Hi) Hp Hpp ltac:(lia) ltac:(by left)) as [Hw' Hb]; [by destruct (is_write p)|done|].
      destruct o as [r|rem p']; [by split|]. eapply finish_plain; [by eapply (wf_evolves (P := prim))|by eapply Hn, Hblk|done..].
    + destruct E as (r & -> & [[_ ->]| ->] & _); [|by split]. split; [|done]. cbn [finish w_mon w_susp]. unfold Reset.
      split; [apply (covered_none (P := prim)); rewrite fields_WakeAll; cbn; lia|apply (covered_WakeAll (P := prim))].
  - destruct (pi_blocked _ _ _ _ _ Hi _ _ Hp) as (_ & Hpo & Hu). pose proof (take_wakes cap _ p r m0 susp Hw Hp Hr) as Hw'.
    assert (Hwf' : wf_parts (P := prim) (take_woken (c_tid cx) m0) (delete (c_tid cx) susp)) by (eapply (wf_take (P := prim)); [done|done|by eexists]).
    assert (Hpl' : ∀ u q, delete (c_tid cx) susp !! u = Some q → plain q) by (intros u q [_ ?]%lookup_delete_Some; eauto).
    unfold resume in E. destruct (decide (r = WAIT_RESULT_SIGNAL)) as [->|Hns].
    + rewrite bool_decide_eq_false_2 in E by (intros H; by apply H). rewrite bool_decide_eq_true_2 in Hw' by done. cbn [b2z] in Hw'.
      destruct (retry_tame _ _ _ _ _ E) as [Hev _].
      destruct (retry_wakes cap es cx p 1 _ m _ o Hwf' (pi_ok _ _ _ _ _ Hi) Hpo (Hpl _ _ Hp) ltac:(lia) ltac:(by right) Hw' E) as [Hw2 Hb].
      eapply finish_plain; [by eapply (wf_evolves (P := prim))|apply lookup_delete_eq|done..].
    + rewrite bool_decide_eq_true_2 in E by done. rewrite bool_decide_eq_false_2 in Hw' by done. cbn [b2z] in Hw'.
      assert (Hw2 : wakes cap 0 0 (take_woken (c_tid cx) m0) (delete (c_tid cx) susp)) by (by destruct (is_write p)).
      pose proof (Hpl _ _ Hp). destruct p; [injection E as <- <-; by split..|done].
  - split; [|done]. eapply abort_wakes; try done. by destruct Hr as [-> | ->].
Qed.

(** No wake-up is lost.  In every run without triggered reads: whenever tasks
    wait to read, at most as many elements are there as readers that were woken
    and are about to look; whenever tasks wait to write, at most as many slots
    are free as woken writers.  So no task sleeps beside an element or a slot
    that nobody is on the way to take. *)
Theorem pipe_no_lost_wakeup cap es buf q0 tr (w : World prim) :
  Pipe_ctor buf cap es = Ok q0 → length buf = cap * es →
  run (plain_pre es) (mkWorld (P := prim) (init q0) ∅) tr w →
  let m : M := w_mon w in
  (wait_list cv_not_empty m ≠ [] → (Z.of_nat (m_count (fields m)) ≤ flight (P := prim) cv_not_empty m (w_susp w))%Z) ∧
  (wait_list cv_not_full m ≠ [] → (Z.of_nat cap - Z.of_nat (m_count (fields m)) ≤ flight (P := prim) cv_not_full m (w_susp w))%Z).
Proof.
  intros E Hb Hrun. pose proof (pipe_run cap es buf q0 [] _ E Hb (run_nil _ _ _)) as [_ H0].
  destruct (run_ind_wf (P := prim) (plain_pre es) q0 (λ tr w, pipe_inv cap es tr (w_mon w) (w_susp w) ∧ plain_inv cap (w_mon w) (w_susp w)))
    with (tr := tr) (w := w) as [_ [_ [[W1 W2] _]]]; [| |done|].
  - split; [done|]. split; [|done]. split; by intros [].
  - intros tr' w' lab w2 H1 _ [H3 H4] H5. split; [|exact (plain_step cap es tr' w' w2 lab H1 H3 H4 H5)].
    apply (pipe_step cap es tr' w' w2 lab H3). by apply (step_weaken (P := prim) (plain_pre es)); [intros ? ? []|].
  - intros m. rewrite Z.sub_0_r in W1, W2. done.
Qed.

(** Two elements of two bytes: a bulk write of three elements waits after two, a
    read makes room, the write goes on around the end of the ring. *)
Definition ex_cx (t : Z) : ctx := mkCtx t 5 false.
Definition ex_q0 : Pipe := mkPipe [0; 0; 0; 0]%Z 2 2 0 0 0.
Definition ex_world0 : World prim := mkWorld (P := prim) (init ex_q0) ∅.
Definition ex_preb (tr : list (label prim)) (cx : ctx) (c : call) : bool :=
  (if c_isr cx then (c_tid cx <? 0)%Z else (0 <=? c_tid cx)%Z) &&
  match c with
  | CWriteEx data to => (2 <=? length data) && bool_decide (in_i32 to)
  | CWriteBulkEx (Some s) count to => (count * 2 <=? length s) && bool_decide (in_i32 to)
  | CReadEx to | CReadBulkEx _ _ to => bool_decide (in_i32 to)
  | _ => false
  end.
Lemma pipe_ex_pre tr cx c : ex_preb tr cx c = true → plain_pre 2 tr cx c.
Proof.
  unfold ex_preb, plain_pre, pipe_pre. intros [Ht Hc]%andb_true_iff. split.
  - split; [destruct (c_isr cx); lia|]. destruct c as [data to|[src|] count to|to|d count to|d tg mx to|]; cbn [call_ok]; try done;
      rewrite ?andb_true_iff, ?bool_decide_eq_true, ?Nat.leb_le in Hc; try done. split; [|apply Hc]. intros s' [= <-]. apply Hc.
  - by destruct c.
Qed.
Definition ex_call (t : Z) (c : call) : action prim := ACall (P := prim) (ex_cx t) c.
Definition ex_acts : list (action prim) :=
  [ex_call 1 (CWriteBulkEx (Some [1; 2; 3; 4; 5; 6]%Z) 3 10); ex_call 2 (CReadEx 10); AResume (ex_cx 1); ex_call 2 (CReadBulkEx true 1 10)].
Definition ex_end : list (label prim) * World prim := exec_all ex_preb ex_acts ex_world0.
Lemma pipe_stream_witness :
  sent_by 2 1 ex_end.1 = [1; 2; 3; 4; 5; 6]%Z ∧ received_by 2 ex_end.1 = [1; 2; 3; 4]%Z ∧ stream (fields (w_mon ex_end.2)) = [5; 6]%Z ∧
  Forall (label_ok 2) ex_end.1.
Proof.
  do 3 (split; [vm_compute; reflexivity|]).
  apply (pipe_stream 2 2 [0; 0; 0; 0]%Z ex_q0 ex_end.1 ex_end.2 eq_refl eq_refl). apply exec_all_run. intros tr cx c H. apply (pipe_ex_pre tr cx c H).
Defined.
(** While the bulk write waits, a second writer waits behind it. *)
Definition ex_mid : list (label prim) * World prim :=
  exec_all ex_preb [ex_call 1 (CWriteBulkEx (Some [1; 2; 3; 4; 5; 6]%Z) 3 10); ex_call 3 (CWriteEx [7; 8]%Z 10); ex_call 2 (CReadEx 10)] ex_world0.
Lemma pipe_no_lost_wakeup_witness : wait_list cv_not_full (w_mon ex_mid.2) = [3]%Z ∧
  (2 - Z.of_nat (m_count (fields (w_mon ex_mid.2))) ≤ flight (P := prim) cv_not_full (w_mon ex_mid.2) (w_susp ex_mid.2))%Z.
Proof.
  split; [vm_compute; reflexivity|].
  apply (pipe_no_lost_wakeup 2 2 [0; 0; 0; 0]%Z ex_q0 ex_mid.1 ex_mid.2 eq_refl eq_refl); [apply exec_all_run, pipe_ex_pre|vm_compute; discriminate].
Defined.

(** With triggered reads a wake-up can be lost: the write of one element wakes the
    reader that waits for two, which waits again; the reader that waits for one
    stays where it is, beside the element, and nobody is on the way to it. *)
Definition ex_lost : list (label prim) * World prim :=
  exec_all (λ _ _ _, true)
    [ex_call 1 (CReadBulkTriggeredEx true 2 2 WAIT_INFINITE); ex_call 2 (CReadEx WAIT_INFINITE); ex_call 3 (CWriteEx [7; 8]%Z NO_WAIT); AResume (ex_cx 1)]
    ex_world0.
Example triggered_read_swallows_wakeup :
  length ex_lost.1 = 4 ∧ wait_list cv_not_empty (w_mon ex_lost.2) = [2; 1]%Z ∧ m_count (fields (w_mon ex_lost.2)) = 1 ∧ map_to_list (woken (w_mon ex_lost.2)) = [].
Proof. vm_compute. split_and!; reflexivity. Qed.
(** A full pipe of the largest capacity fails the assertion of a write, which
    should wait. *)
Example full_pipe_of_max_capacity_asserts :
  let q := mkPipe [] (Z.to_nat CAPACITY_MAX) 1 (Z.to_nat CAPACITY_MAX) 0 0 in
  WriteEx (mkCtx 1 0 false) [7]%Z 20 (init q) = Panic PANIC_ASSERT.
Proof. vm_compute. reflexivity. Qed.
End Pipe.
