(* ===== verification/PipeT.v ===== *)
(** * Typed pipe ([PipeT<T, N>] of [stk_sync_pipe.h])

    The template has the algorithm of [Pipe] over an array of [N] elements of a type
    [T].  A bulk transfer copies element by element, unless [T] is a scalar and [N] is
    at least 8, when it copies blocks.  The file shows that both are the bulk
    transfers of a [Pipe] with elements of one cell, and that every run of a typed
    pipe is a run of such a [Pipe], so that what [Pipe.v] proves holds of it. *)

From S2P Require Import Prelude KernelTask Buffer Monitor Pipe.
Import KTask Monitor.
Local Open Scope nat_scope.

Module PipeT.
Export Pipe.

(** A value of the type [T] is a number. *)
Record PipeT := mkPipeT { t_buffer : list Z; t_head : nat; t_tail : nat; t_count : nat }.
Notation MT := (Mon PipeT).

Inductive tcall :=
| TWriteEx (data : Z) (timeout_ticks : Z)
| TWriteBulkEx (src : option (list Z)) (count : nat) (timeout_ticks : Z)
| TReadEx (timeout_ticks : Z)
| TReadBulkEx (dst : bool) (count : nat) (timeout_ticks : Z)
| TReset.
Inductive tpc :=
| AtWriteEx (data : Z) (timeout_ticks deadline : Z)
| AtWriteBulk (src : list Z) (count written : nat) (timeout_ticks deadline : Z)
| AtReadEx (timeout_ticks deadline : Z)
| AtReadBulk (count read_count : nat) (data : list Z) (timeout_ticks deadline : Z).

Section typed.
(** The template arguments: [N], and [std::is_scalar<T>::value]. *)
Context (N : nat) (scalar : bool).

Definition PipeT_ctor (buffer : list Z) : PipeT := mkPipeT buffer 0 0 0.

(** One element at the head, one from the tail. *)
Definition t_put (v : Z) (q : PipeT) : PipeT := mkPipeT (<[t_head q := v]> (t_buffer q)) ((t_head q + 1) `mod` N) (t_tail q) (t_count q + 1).
Definition t_get (q : PipeT) : Z * PipeT :=
  (default 0%Z (t_buffer q !! t_tail q), mkPipeT (t_buffer q) (t_head q) ((t_tail q + 1) `mod` N) (t_count q - 1)).

Definition t_WriteEx_try (cx : ctx) (data : Z) (timeout_ticks deadline : Z) (m : MT) : res (MT * outcome tpc ret) :=
  let q := fields m in
  if t_count q =? N then
    w ← cv_wait32 cx timeout_ticks deadline;
    Ok (m, match w with inr rem => Blocked rem (AtWriteEx data timeout_ticks deadline) | inl r => Done (RWait r) end)
  else Ok (WakeOne cv_not_empty (set_fields (t_put data q) m), Done (RWait WAIT_RESULT_SIGNAL)).

(** The copies of [WriteBulkEx]. *)
Fixpoint put_each (n : nat) (src : list Z) (written : nat) (q : PipeT) : PipeT :=
  match n with O => q | S n => put_each n src (written + 1) (t_put (default 0%Z (src !! written)) q) end.
Definition put_block (n : nat) (src : list Z) (written : nat) (q : PipeT) : PipeT :=
  let first_part := N - t_head q in
  let buffer :=
    if n <=? first_part then splice (t_head q) (take n (drop written src)) (t_buffer q)
    else splice 0 (take (n - first_part) (drop (written + first_part) src)) (splice (t_head q) (take first_part (drop written src)) (t_buffer q)) in
  mkPipeT buffer ((t_head q + n) `mod` N) (t_tail q) (t_count q + n).
Definition t_store (n : nat) (src : list Z) (written : nat) (q : PipeT) : PipeT :=
  if negb scalar || (N <? 8) then put_each n src written q else put_block n src written q.
Definition t_to_write (q : PipeT) (count written : nat) : nat :=
  let available := N - t_count q in if (count - written) <? available then count - written else available.
Fixpoint t_WriteBulk_loop (fuel : nat) (cx : ctx) (src : list Z) (count written : nat) (timeout_ticks deadline : Z) (m : MT) : res (MT * outcome tpc ret) :=
  match fuel with
  | O => Panic PANIC_FUEL
  | S fuel =>
      let q := fields m in
      if written <? count then
        if t_count q =? N then
          w ← cv_wait32 cx timeout_ticks deadline;
          Ok (m, match w with
                 | inr rem => Blocked rem (AtWriteBulk src count written timeout_ticks deadline)
                 | inl r => Done (RWrite r written)
                 end)
        else
          let n := t_to_write q count written in
          t_WriteBulk_loop fuel cx src count (written + n) timeout_ticks deadline (WakeAll cv_not_empty (set_fields (t_store n src written q) m))
      else Ok (m, Done (RWrite WAIT_RESULT_SIGNAL written))
  end.
Definition t_WriteBulkEx (cx : ctx) (src : option (list Z)) (count : nat) (timeout_ticks : Z) (m : MT) : res (MT * outcome tpc ret) :=
  match src with
  | None => Ok (m, Done (RWrite WAIT_RESULT_FAIL 0))
  | Some src => t_WriteBulk_loop (S count) cx src count 0 timeout_ticks (deadline32 cx timeout_ticks) m
  end.

Definition t_ReadEx_try (cx : ctx) (timeout_ticks deadline : Z) (m : MT) : res (MT * outcome tpc ret) :=
  let q := fields m in
  if t_count q =? 0 then
    w ← cv_wait32 cx timeout_ticks deadline;
    Ok (m, match w with inr rem => Blocked rem (AtReadEx timeout_ticks deadline) | inl r => Done (RRead r []) end)
  else
    let '(v, q) := t_get q in
    Ok (WakeOne cv_not_full (set_fields q m), Done (RRead WAIT_RESULT_SIGNAL [v])).

(** The copies of [ReadBulkEx]. *)
Fixpoint get_each (n : nat) (q : PipeT) : list Z * PipeT :=
  match n with O => ([], q) | S n => let '(v, q) := t_get q in let '(l, q) := get_each n q in (v :: l, q) end.
Definition get_block (n : nat) (q : PipeT) : list Z * PipeT :=
  let first_part := N - t_tail q in
  (if n <=? first_part then take n (drop (t_tail q) (t_buffer q))
   else take first_part (drop (t_tail q) (t_buffer q)) ++ take (n - first_part) (drop 0 (t_buffer q)),
   mkPipeT (t_buffer q) (t_head q) ((t_tail q + n) `mod` N) (t_count q - n)).
Definition t_load (n : nat) (q : PipeT) : list Z * PipeT :=
  if negb scalar || (N <? 8) then get_each n q else get_block n q.
Fixpoint t_ReadBulk_loop (fuel : nat) (cx : ctx) (count read_count : nat) (data : list Z) (timeout_ticks deadline : Z) (m : MT) : res (MT * outcome tpc ret) :=
  match fuel with
  | O => Panic PANIC_FUEL
  | S fuel =>
      let q := fields m in
      if read_count <? count then
        if t_count q =? 0 then
          w ← cv_wait32 cx timeout_ticks deadline;
          Ok (m, match w with
                 | inr rem => Blocked rem (AtReadBulk count read_count data timeout_ticks deadline)
                 | inl r => Done (RRead r data)
                 end)
        else
          let to_read := if (count - read_count) <? t_count q then count - read_count else t_count q in
          let '(x, q) := t_load to_read q in
          t_ReadBulk_loop fuel cx count (read_count + to_read) (data ++ x) timeout_ticks deadline (WakeAll cv_not_full (set_fields q m))
      else Ok (m, Done (RRead WAIT_RESULT_SIGNAL data))
  end.
Definition t_ReadBulkEx (cx : ctx) (dst : bool) (count : nat) (timeout_ticks : Z) (m : MT) : res (MT * outcome tpc ret) :=
  if dst then t_ReadBulk_loop (S count) cx count 0 [] timeout_ticks (deadline32 cx timeout_ticks) m
  else Ok (m, Done (RRead WAIT_RESULT_FAIL [])).

Definition t_Reset (m : MT) : MT := WakeAll cv_not_full (set_fields (mkPipeT (t_buffer (fields m)) 0 0 0) m).

Definition t_enter (cx : ctx) (c : tcall) (m : MT) : res (MT * outcome tpc ret) :=
  match c with
  | TWriteEx data to => t_WriteEx_try cx data to (deadline32 cx to) m
  | TWriteBulkEx src count to => t_WriteBulkEx cx src count to m
  | TReadEx to => t_ReadEx_try cx to (deadline32 cx to) m
  | TReadBulkEx dst count to => t_ReadBulkEx cx dst count to m
  | TReset => Ok (t_Reset m, Done RVoid)
  end.
Definition t_wait_failed (p : tpc) (r : EWaitResult) : outcome tpc ret :=
  match p with
  | AtWriteEx _ _ _ => Done (RWait r)
  | AtWriteBulk _ _ written _ _ => Done (RWrite r written)
  | AtReadEx _ _ => Done (RRead r [])
  | AtReadBulk _ _ data _ _ => Done (RRead r data)
  end.
Definition t_retry (cx : ctx) (p : tpc) (m : MT) : res (MT * outcome tpc ret) :=
  match p with
  | AtWriteEx data to d => t_WriteEx_try cx data to d m
  | AtWriteBulk src count written to d => t_WriteBulk_loop (S (count - written)) cx src count written to d m
  | AtReadEx to d => t_ReadEx_try cx to d m
  | AtReadBulk count read_count data to d => t_ReadBulk_loop (S (count - read_count)) cx count read_count data to d m
  end.
Definition t_resume (cx : ctx) (p : tpc) (r : EWaitResult) (m : MT) : res (MT * outcome tpc ret) :=
  if bool_decide (r ≠ WAIT_RESULT_SIGNAL) then Ok (m, t_wait_failed p r) else t_retry cx p m.

(** ** The pipe of one-cell elements that it is *)

Definition pc_of (p : tpc) : pc :=
  match p with
  | AtWriteEx data to d => InWriteEx [data] to d
  | AtWriteBulk src count written to d => InWriteBulk src count written to d
  | AtReadEx to d => InReadEx to d
  | AtReadBulk count n data to d => InReadBulk count n data to d
  end.
Definition call_of (c : tcall) : call :=
  match c with
  | TWriteEx data to => CWriteEx [data] to
  | TWriteBulkEx src count to => CWriteBulkEx src count to
  | TReadEx to => CReadEx to
  | TReadBulkEx dst count to => CReadBulkEx dst count to
  | TReset => CReset
  end.
Definition flat (q : PipeT) : Pipe := mkPipe (t_buffer q) N 1 (t_count q) (t_head q) (t_tail q).
Definition lift (m : MT) : M := mkMon (flat (fields m)) (lists m) (woken m) (services m).
Definition lift_out (o : outcome tpc ret) : outcome pc ret := match o with Done r => Done r | Blocked rem p => Blocked rem (pc_of p) end.
Definition lift_res (r : res (MT * outcome tpc ret)) : res (M * outcome pc ret) :=
  match r with Ok (m, o) => Ok (lift m, lift_out o) | Panic e => Panic e end.
Definition tprim : Primitive := mkPrimitive PipeT tcall tpc ret (λ p, pc_cv (pc_of p)) t_enter t_resume.

Lemma lift_WakeOne cv m : lift (WakeOne cv m) = WakeOne cv (lift m).
Proof. unfold WakeOne, wait_list. cbn. by destruct (default [] (lists m !! cv)). Qed.
Lemma lift_WakeAll cv m : lift (WakeAll cv m) = WakeAll cv (lift m).
Proof.
  unfold WakeAll. change (wait_list cv (lift m)) with (wait_list cv m). generalize (length (wait_list cv m)) as n. intros n.
  induction n as [|n IH]; [done|]. rewrite !Nat.iter_succ, lift_WakeOne. by f_equal.
Qed.
Lemma lift_set q m : lift (set_fields q m) = set_fields (flat q) (lift m).
Proof. done. Qed.

(** Element by element is the ring. *)
Lemma ring_write_cons {A} S H (a : A) x buf : length buf = S → H < S → length (a :: x) ≤ S →
  ring_write S H (a :: x) buf = ring_write S ((H + 1) `mod` S) x (<[H := a]> buf).
Proof.
  intros E HH Hx. cbn in Hx. assert (HH' : (H + 1) `mod` S < S) by (apply Nat.mod_upper_bound; lia).
  apply list_eq_same_length with S; [apply length_ring_write; rewrite ?length_insert; cbn; lia..|].
  intros p u v Hp Hu Hv. rewrite lookup_ring_write in Hu by (cbn; lia). rewrite lookup_ring_write in Hv by (rewrite ?length_insert; cbn; lia).
  enough (Some u = Some v) by congruence. rewrite <- Hu, <- Hv. clear Hu Hv. rewrite (mod_ring H 1) in * by lia. cbn [length].
  destruct (decide (p = H)) as [->|Hne]; [rewrite list_lookup_insert_eq by lia|rewrite list_lookup_insert_ne by done];
    destruct (decide (H + 1 < S)); rewrite !mod_ring by lia; repeat case_decide; try lia; try done;
    try (replace (H + (S - H) - S) with 0 by lia; done);
    match goal with |- (a :: x) !! ?i = _ => destruct i as [|j] eqn:Ei; [lia|]; cbn; f_equal; lia end.
Qed.

Definition ok (q : PipeT) : Prop := pipe_ok N 1 (flat q).

Lemma t_put_ok v q : ok q → t_count q < N → ok (t_put v q).
Proof.
  intros [E1 E2 E3 E4 E5 E6 E7] Hc. cbn in *. split; cbn; rewrite ?length_insert; try done; try lia.
  by rewrite E7, Nat.Div0.add_mod_idemp_l, Nat.add_assoc.
Qed.
Lemma t_get_ok q : ok q → 0 < t_count q → ok (t_get q).2.
Proof.
  intros [E1 E2 E3 E4 E5 E6 E7] Hc. cbn in *. split; cbn; try done; try lia; [apply Nat.mod_upper_bound; lia|].
  rewrite Nat.Div0.add_mod_idemp_l, E7. f_equal. lia.
Qed.
Lemma ok_lt q : ok q → t_tail q < N ∧ t_head q < N ∧ length (t_buffer q) = N.
Proof. intros H. pose proof (head_lt _ _ _ H). destruct H as [_ _ _ E4 _ E6 _]. cbn in *. lia. Qed.

Lemma put_each_eq src : ∀ n written q, ok q → t_count q + n ≤ N → written + n ≤ length src →
  put_each n src written q = mkPipeT (ring_write N (t_head q) (take n (drop written src)) (t_buffer q)) ((t_head q + n) `mod` N) (t_tail q) (t_count q + n).
Proof.
  induction n as [|n IH]; intros written q Hq Hn Hs; destruct (ok_lt q Hq) as (Ht & Hh & Hl).
  - cbn [put_each]. rewrite !Nat.add_0_r, Nat.mod_small, take_0 by done. unfold ring_write. rewrite decide_True by (cbn; lia). unfold splice. cbn [length app]. rewrite Nat.add_0_r, take_drop. by destruct q.
  - cbn [put_each]. destruct (lookup_lt_is_Some_2 src written) as [v Hv]; [lia|]. rewrite Hv. rewrite (drop_S _ _ _ Hv). cbn [take].
    rewrite IH; [|apply t_put_ok; [done|lia]|cbn; lia|lia]. cbn [t_put t_head t_tail t_count t_buffer]. change (default 0%Z (Some v)) with v. rewrite (Nat.add_1_r written).
    rewrite ring_write_cons; [|done|done|cbn; rewrite length_take, length_drop; lia]. f_equal; [rewrite Nat.Div0.add_mod_idemp_l; f_equal; lia|lia].
Qed.
Lemma put_block_eq src n written q : ok q → t_count q + n ≤ N → written + n ≤ length src →
  put_block n src written q = mkPipeT (ring_write N (t_head q) (take n (drop written src)) (t_buffer q)) ((t_head q + n) `mod` N) (t_tail q) (t_count q + n).
Proof.
  intros Hq Hn Hs. destruct (ok_lt q Hq) as (Ht & Hh & Hl). unfold put_block, ring_write. f_equal. rewrite length_take, length_drop.
  destruct (Nat.leb_spec n (N - t_head q)); [by rewrite decide_True by lia|]. rewrite decide_False by lia. rewrite take_take, Nat.min_l by lia.
  f_equal. replace n with ((N - t_head q) + (n - (N - t_head q))) at 2 by lia. by rewrite <- take_drop_commute, drop_drop.
Qed.
Lemma get_each_eq : ∀ n q, ok q → n ≤ t_count q →
  get_each n q = (ring_read N (t_tail q) n (t_buffer q), mkPipeT (t_buffer q) (t_head q) ((t_tail q + n) `mod` N) (t_count q - n)).
Proof.
  induction n as [|n IH]; intros q Hq Hn; destruct (ok_lt q Hq) as (Ht & Hh & Hl); pose proof (po_count _ _ _ Hq) as Hc; cbn in Hc.
  - cbn. rewrite Nat.add_0_r, Nat.sub_0_r, Nat.mod_small by done. unfold ring_read. rewrite decide_True by lia. by destruct q.
  - cbn [get_each]. rewrite (surjective_pairing (t_get q)), (IH _ (t_get_ok q Hq ltac:(lia))) by (cbn; lia). cbn [t_get fst snd t_buffer t_head t_tail t_count].
    destruct (lookup_lt_is_Some_2 (t_buffer q) (t_tail q)) as [v Hv]; [lia|]. rewrite Hv.
    change (default 0%Z (Some v)) with v. replace (S n) with (1 + n) by lia. rewrite ring_read_app by lia.
    assert (E1 : ring_read N (t_tail q) 1 (t_buffer q) = [v]) by (unfold ring_read; rewrite decide_True by lia; by rewrite (drop_S _ _ _ Hv)).
    rewrite E1. cbn [app]. f_equal. f_equal; [rewrite Nat.Div0.add_mod_idemp_l; f_equal; lia|lia].
Qed.

Lemma get_block_eq n q : get_block n q = (ring_read N (t_tail q) n (t_buffer q), mkPipeT (t_buffer q) (t_head q) ((t_tail q + n) `mod` N) (t_count q - n)).
Proof.
  unfold get_block, ring_read. cbv zeta. f_equal. destruct (Nat.leb_spec n (N - t_tail q)); [by rewrite decide_True by lia|by rewrite decide_False by lia].
Qed.

(** The two ways to copy are one, and that of [Pipe]. *)
Lemma t_store_eq src count written q : ok q → count ≤ length src → written < count →
  flat (t_store (t_to_write q count written) src written q) = store_part src count written (flat q).
Proof.
  intros Hq Hs Hw. destruct (ok_lt q Hq) as (Ht & Hh & Hl). destruct (to_write_le (flat q) count written) as [Hn1 Hn2].
  change (t_to_write q count written) with (to_write (flat q) count written). set (n := to_write (flat q) count written) in *. cbn in Hn1.
  pose proof (po_count _ _ _ Hq) as Hc. cbn in Hc.
  transitivity (flat (put_block n src written q)); [unfold t_store; case_match; [rewrite put_each_eq, put_block_eq by (done || lia)|]; done|].
  unfold store_part, put_block, flat, Slot. cbn. fold n. unfold flat in n. fold n. by rewrite !Nat.mul_1_r.
Qed.
Lemma t_load_eq n q : ok q → n ≤ t_count q → t_load n q = get_block n q.
Proof. intros Hq Hn. unfold t_load. case_match; [|done]. by rewrite get_each_eq, get_block_eq. Qed.
Lemma t_drain_eq count m : ok (fields m) → let n := Nat.min count (t_count (fields m)) in
  DrainLocked count (lift m) = (n, (t_load n (fields m)).1, lift (WakeAll cv_not_full (set_fields (t_load n (fields m)).2 m))).
Proof.
  intros Hq n. rewrite t_load_eq, lift_WakeAll, lift_set by (done || lia). unfold DrainLocked, get_block, flat, Slot. cbn. fold n. by rewrite !Nat.mul_1_r.
Qed.
Lemma t_drain_ok count m : ok (fields m) → ok (t_load (Nat.min count (t_count (fields m))) (fields m)).2.
Proof.
  intros Hq. pose proof (drain_moves N 1 (lift m) count Hq) as [H _]. rewrite t_drain_eq in H by done. cbn [snd] in H. cbn [fields lift] in H.
  rewrite fields_WakeAll in H. exact H.
Qed.

(** Segments of the one are segments of the other. *)
Lemma wait_sim cx to d (m : MT) (f : EWaitResult + Z → outcome tpc ret) (g : EWaitResult + Z → outcome pc ret) : (∀ w, lift_out (f w) = g w) →
  lift_res (w ← cv_wait32 cx to d; Ok (m, f w)) = (w ← cv_wait32 cx to d; Ok (lift m, g w)).
Proof. intros H. destruct (cv_wait32 cx to d); cbn; [by rewrite H|done]. Qed.
Lemma write_sim cx data to d m : ok (fields m) → lift_res (t_WriteEx_try cx data to d m) = WriteEx_try cx [data] to d (lift m).
Proof.
  intros Hq. destruct (ok_lt _ Hq) as (Ht & Hh & Hl). unfold t_WriteEx_try, WriteEx_try. cbn [fields lift flat m_count m_capacity]. destruct (_ =? _); [apply wait_sim; by intros []|].
  cbn [lift_res lift_out]. rewrite lift_WakeOne, lift_set. unfold store_one, t_put, flat, Slot, Next. cbn. rewrite Nat.mul_1_r. do 6 f_equal. unfold splice. cbn.
  by rewrite insert_take_drop, Nat.add_1_r by lia.
Qed.
Lemma read_sim cx to d m : ok (fields m) → lift_res (t_ReadEx_try cx to d m) = ReadEx_try cx to d (lift m).
Proof.
  intros Hq. destruct (ok_lt _ Hq) as (Ht & Hh & Hl). unfold t_ReadEx_try, ReadEx_try. cbn [fields lift flat m_count]. destruct (_ =? _); [apply wait_sim; by intros []|].
  destruct (lookup_lt_is_Some_2 (t_buffer (fields m)) (t_tail (fields m))) as [v Hv]; [lia|].
  unfold t_get, take_one, flat, Slot, Next. cbn. rewrite Hv, lift_WakeOne, lift_set, Nat.mul_1_r, (drop_S _ _ _ Hv). done.
Qed.
Lemma write_loop_sim cx src count to d : count ≤ length src → ∀ fuel written m, ok (fields m) →
  lift_res (t_WriteBulk_loop fuel cx src count written to d m) = WriteBulkEx_loop fuel cx src count written to d (lift m).
Proof.
  intros Hs. induction fuel as [|fuel IH]; intros written m Hq; [done|]. cbn [t_WriteBulk_loop WriteBulkEx_loop]. cbn [fields lift].
  change (m_count (flat (fields m))) with (t_count (fields m)). change (m_capacity (flat (fields m))) with N.
  destruct (Nat.ltb_spec written count) as [Hw|Hw]; [|done]. destruct (_ =? _); [apply wait_sim; by intros []|].
  pose proof (t_store_eq src count written (fields m) Hq Hs Hw) as E. rewrite IH.
  - rewrite lift_WakeAll, lift_set, E. done.
  - rewrite fields_WakeAll. cbn [fields set_fields]. unfold ok. rewrite E. by eapply store_part_moves; [done|lia|].
Qed.
Lemma read_loop_sim cx count to d : ∀ fuel n data m, ok (fields m) →
  lift_res (t_ReadBulk_loop fuel cx count n data to d m) = ReadBulkEx_loop fuel cx count n data to d (lift m).
Proof.
  induction fuel as [|fuel IH]; intros n data m Hq; [done|]. cbn [t_ReadBulk_loop ReadBulkEx_loop].
  change (m_count (fields (lift m))) with (t_count (fields m)).
  destruct (n <? count); [|done]. destruct (t_count (fields m) =? 0); [apply wait_sim; by intros []|].
  replace (if count - n <? t_count (fields m) then _ else _) with (Nat.min (count - n) (t_count (fields m))) by (destruct (Nat.ltb_spec (count - n) (t_count (fields m))); lia).
  rewrite t_drain_eq by done. pose proof (t_drain_ok (count - n) m Hq) as Hok. destruct (t_load _ _) as [x q]. cbn [fst snd] in *. rewrite IH; [done|]. by rewrite fields_WakeAll.
Qed.
Lemma retry_sim cx p m : ok (fields m) → pc_ok 1 (pc_of p) → lift_res (t_retry cx p m) = retry cx (pc_of p) (lift m).
Proof.
  intros Hq Hp. destruct p; cbn [t_retry pc_of retry]; [by apply write_sim|apply write_loop_sim; [|done]|by apply read_sim|by apply read_loop_sim].
  destruct Hp as [_ Hp]. cbn in Hp. lia.
Qed.
Lemma resume_sim cx p r m : ok (fields m) → pc_ok 1 (pc_of p) → lift_res (t_resume cx p r m) = resume cx (pc_of p) r (lift m).
Proof. intros Hq Hp. unfold t_resume, resume. case_bool_decide; [by destruct p|by apply retry_sim]. Qed.
Lemma enter_sim cx c m : ok (fields m) → (Z.of_nat N < CAPACITY_MAX)%Z → call_ok 1 (call_of c) → lift_res (t_enter cx c m) = enter cx (call_of c) (lift m).
Proof.
  intros Hq HN Hc. destruct c as [v to|[src|] count to|to|[] count to|]; cbn [t_enter call_of enter]; try done.
  - pose proof (po_count _ _ _ Hq) as Hcnt. cbn in Hcnt. rewrite write_sim by done. unfold WriteEx. cbn [fields lift flat m_count].
    rewrite (proj2 (Z.leb_le _ _)) by lia. done.
  - apply write_loop_sim; [|done]. destruct Hc as [Hc _]. specialize (Hc src eq_refl). lia.
  - by apply read_sim.
  - by apply read_loop_sim.
  - cbn [lift_res lift_out]. unfold t_Reset. by rewrite lift_WakeAll.
Qed.

(** ** Runs *)

Definition lift_label (l : label tprim) : label prim :=
  match l with
  | LCall t c o => LCall (P := prim) t (call_of c) o
  | LResume t p r o => LResume (P := prim) t (pc_of p) r o
  | LAbort t r => LAbort (P := prim) t r
  end.
Definition lift_world (w : World tprim) : World prim := mkWorld (P := prim) (lift (w_mon w)) (pc_of <$> w_susp w : gmap Z pc).
Definition typed_pre (tr : list (label tprim)) (cx : ctx) (c : tcall) : Prop :=
  (if c_isr cx then c_tid cx < 0 else 0 ≤ c_tid cx)%Z ∧ call_ok 1 (call_of c).

Lemma lift_finish t m o (susp : gmap Z tpc) : lift_world (finish (P := tprim) t m o susp) = finish (P := prim) t (lift m) (lift_out o) (pc_of <$> susp : gmap Z pc).
Proof. destruct o as [r|rem p]; [done|]. unfold lift_world. cbn. by rewrite fmap_insert. Qed.
Lemma returned_lift o : returned (P := prim) (lift_out o) = returned (P := tprim) o.
Proof. by destruct o. Qed.
Lemma lift_res_ok r m o : r = Ok (m, o) → lift_res r = Ok (lift m, lift_out o).
Proof. by intros ->. Qed.

Lemma typed_step tr (w : World tprim) l w' : (Z.of_nat N < CAPACITY_MAX)%Z → pipe_inv N 1 (lift_label <$> tr) (w_mon (lift_world w)) (w_susp (lift_world w)) →
  step typed_pre tr w l w' → step (plain_pre 1) (lift_label <$> tr) (lift_world w) (lift_label l) (lift_world w').
Proof.
  intros HN Hi Hs. pose proof (pi_ok _ _ _ _ _ Hi) as Hok. pose proof (pi_blocked _ _ _ _ _ Hi) as Hbl.
  destruct Hs as [w cx c m o [Ht Hc] Hn E|w cx p r m o Hisr Hp Hr E|w t p r Hr Hp Hl]; destruct w as [m0 susp]; cbn [w_mon w_susp lift_world lift_label] in *.
  - rewrite lift_finish, <- returned_lift. apply (step_call prim (plain_pre 1) _ (mkWorld (P := prim) (lift m0) _)).
    + split; [by split|]. by destruct c as [| | | |].
    + intros Hisr. cbn. rewrite lookup_fmap. change (p_pc tprim) with tpc in *. by rewrite (Hn Hisr).
    + cbn [p_enter prim w_mon]. rewrite <- enter_sim by done. by apply lift_res_ok.
  - rewrite lift_finish, <- returned_lift. change (p_pc tprim) with tpc in *. rewrite fmap_delete.
    apply (step_resume prim (plain_pre 1) _ (lift_world (mkWorld (P := tprim) m0 susp)) cx (pc_of p) r (lift m) (lift_out o)); try done.
    + cbn. by rewrite lookup_fmap, Hp.
    + change (resume cx (pc_of p) r (lift (take_woken (c_tid cx) m0)) = Ok (lift m, lift_out o)). rewrite <- resume_sim; [by apply lift_res_ok|done|].
      apply (Hbl (c_tid cx) (pc_of p)). by rewrite lookup_fmap, Hp.
  - change (p_pc tprim) with tpc in *. apply (step_abort prim (plain_pre 1) _ (lift_world (mkWorld (P := tprim) m0 susp)) t (pc_of p) r); try done. cbn. by rewrite lookup_fmap, Hp.
Qed.

Lemma ctor_eq buf : 1 ≤ N → (Z.of_nat N < CAPACITY_MAX)%Z → Pipe_ctor buf N 1 = Ok (mkPipe buf N 1 0 0 0).
Proof. intros H1 HN. unfold Pipe_ctor. rewrite (proj2 (Nat.leb_le _ _)), (proj2 (Z.leb_le _ _)) by lia. done. Qed.
Lemma typed_run buf tr (w : World tprim) : 1 ≤ N → (Z.of_nat N < CAPACITY_MAX)%Z → length buf = N →
  run typed_pre (mkWorld (P := tprim) (init (PipeT_ctor buf)) ∅) tr w →
  run (plain_pre 1) (mkWorld (P := prim) (init (mkPipe buf N 1 0 0 0)) ∅) (lift_label <$> tr) (lift_world w).
Proof.
  intros H1 HN Hb Hr. induction Hr as [|tr w l w' Hr IH Hs].
  - unfold lift_world. cbn. rewrite fmap_empty. apply run_nil.
  - rewrite fmap_app. apply (run_step _ _ _ _ (lift_world w)); [done|]. apply typed_step; try done.
    eapply (pipe_run N 1 buf); [by apply ctor_eq|lia|]. eapply run_weaken; [|exact IH]. by intros ? ? ? [].
Qed.

Lemma lift_res_inv r m o : lift_res r = Ok (m, o) → ∃ m' o', r = Ok (m', o').
Proof. destruct r as [[m' o']|]; cbn; [eauto|done]. Qed.

(** A typed pipe implements the byte pipe with elements of one cell.  For a type
    that is a scalar or not, and every history of calls, waits, timeouts, cancellations
    and interrupts: the history is one of [Pipe], in the same state; so the values ever
    written are those ever read, followed by those in the ring, in order, nothing lost
    or doubled; the writes and reads of each task are its results and what its blocked
    call has moved; and no call and no return from a wait fails.  ([N] below the capacity
    limit of [Pipe].) *)
Theorem typed_pipe_refines buf tr (w : World tprim) : 1 ≤ N → (Z.of_nat N < CAPACITY_MAX)%Z → length buf = N →
  run typed_pre (mkWorld (P := tprim) (init (PipeT_ctor buf)) ∅) tr w →
  let m : MT := w_mon w in let q := fields m in
  run (plain_pre 1) (mkWorld (P := prim) (init (mkPipe buf N 1 0 0 0)) ∅) (lift_label <$> tr) (lift_world w) ∧
  (∃ li lo, bytes li = bytes lo ++ ring_read N (t_tail q) (t_count q) (t_buffer q) ∧
     (∀ t, bytes_of (Some t) li = sent_by 1 t (lift_label <$> tr) ++ pending_of 1 t (pc_of <$> w_susp w)) ∧
     (∀ t, bytes_of (Some t) lo = received_by t (lift_label <$> tr) ++ got_of t (pc_of <$> w_susp w))) ∧
  t_count q ≤ N ∧
  (∀ cx c, c_isr cx = false → in_range cx → call_ok 1 (call_of c) → ∃ m' o, t_enter cx c m = Ok (m', o)) ∧
  (∀ cx p r, c_isr cx = false → in_range cx → w_susp w !! c_tid cx = Some p → ∃ m' o, t_resume cx p r (take_woken (c_tid cx) m) = Ok (m', o)).
Proof.
  intros H1 HN Hb Hr m q. pose proof (typed_run buf tr w H1 HN Hb Hr) as Hrun. split; [done|].
  assert (Hi : pipe_inv N 1 (lift_label <$> tr) (lift m) (pc_of <$> w_susp w)).
  { apply (pipe_run N 1 buf (mkPipe buf N 1 0 0 0) _ (lift_world w)); [by apply ctor_eq|lia|]. eapply run_weaken; [|exact Hrun]. by intros ? ? ? []. }
  destruct Hi as [Hok (li & lo & [L1 L2 L3 L4 L5]) _ Hbl]. split_and!.
  - exists li, lo. split_and!; try done. rewrite L1. unfold stream. cbn [fields lift flat m_capacity m_element_size m_tail m_count m_buffer]. by rewrite !Nat.mul_1_r.
  - apply (po_count _ _ _ Hok).
  - intros cx c Hisr Hrg Hc. destruct (enter_ok N 1 cx (call_of c) (lift m) Hisr Hrg Hok Hc HN) as (m' & o & E). rewrite <- enter_sim in E by done. by eapply lift_res_inv.
  - intros cx p r Hisr Hrg Hp. destruct (Hbl (c_tid cx) (pc_of p)) as (_ & Hpo & _); [rewrite lookup_fmap; exact (f_equal (fmap pc_of) Hp)|].
    unfold t_resume. destruct (bool_decide _); [eauto|]. destruct (retry_ok N 1 cx (pc_of p) (lift (take_woken (c_tid cx) m)) Hisr Hrg Hok Hpo) as (m' & o & E).
    rewrite <- retry_sim in E by done. by eapply lift_res_inv.
Qed.
End typed.

(** A queue of four values that are no scalars: a bulk write of three, a read, a bulk
    write around the end of the ring. *)
Definition tex_cx (t : Z) : ctx := mkCtx t 5 false.
Definition tex_preb (tr : list (label (tprim 4 false))) (cx : ctx) (c : tcall) : bool :=
  (if c_isr cx then (c_tid cx <? 0)%Z else (0 <=? c_tid cx)%Z) &&
  match c with
  | TWriteEx _ to | TReadEx to | TReadBulkEx _ _ to => bool_decide (in_i32 to)
  | TWriteBulkEx (Some s) count to => (count <=? length s) && bool_decide (in_i32 to)
  | _ => false
  end.
Lemma tex_pre tr cx c : tex_preb tr cx c = true → typed_pre 4 false tr cx c.
Proof.
  unfold tex_preb, typed_pre. intros [Ht Hc]%andb_true_iff. split; [destruct (c_isr cx); lia|].
  destruct c as [v to|[src|] count to|to|d count to|]; cbn [call_of call_ok]; try done; rewrite ?andb_true_iff, ?bool_decide_eq_true, ?Nat.leb_le in Hc; try done.
  split; [|apply Hc]. intros s' [= <-]. lia.
Qed.
Definition tex_call (t : Z) (c : tcall) : action (tprim 4 false) := ACall (P := tprim 4 false) (tex_cx t) c.
Definition tex_end : list (label (tprim 4 false)) * World (tprim 4 false) :=
  exec_all tex_preb [tex_call 1 (TWriteBulkEx (Some [1; 2; 3]%Z) 3 0); tex_call 2 (TReadEx 0); tex_call 1 (TWriteBulkEx (Some [4; 5; 6]%Z) 3 0); tex_call 2 (TReadBulkEx true 2 0)]
    (mkWorld (P := tprim 4 false) (init (PipeT_ctor [0; 0; 0; 0]%Z)) ∅).
Lemma typed_pipe_refines_witness : received_by 2 (lift_label 4 false <$> tex_end.1) = [1; 2; 3]%Z ∧
  t_buffer (fields (w_mon tex_end.2)) = [5; 2; 3; 4]%Z ∧ t_count (fields (w_mon tex_end.2)) ≤ 4.
Proof.
  split; [vm_compute; reflexivity|]. split; [vm_compute; reflexivity|].
  apply (typed_pipe_refines 4 false [0; 0; 0; 0]%Z tex_end.1 tex_end.2 ltac:(lia) eq_refl eq_refl). apply exec_all_run. intros tr cx c H. apply (tex_pre tr cx c H).
Defined.
End PipeT.
