(* ===== verification/Event.v ===== *)
(** * Event ([Event] of [stk_sync_event.h])

    A binary flag tasks wait for.  An auto-reset event releases one task per
    [Set]; the flag is taken back when the kernel removes the released waiter
    from the wait list ([Event::RemoveWaitObject]).  The theorem counts releases
    over a whole run and shows that nobody waits for an event that is set. *)

From S2P Require Import Prelude KernelTask Monitor.
Import KTask Monitor.
Local Open Scope Z_scope.

Module Event.

Record Event := mkEvent { m_manual_reset : bool; m_signaled : bool }.
Notation M := (Mon Event).
Inductive call := CSet | CReset | CPulse | CWaitEx (timeout_ticks : Z) | CTryWait.
Inductive ret := RWait (r : EWaitResult) | RBool (b : bool) | RVoid.
Inductive pc := InWait.

Definition Event_ctor (manual_reset initial_state : bool) : Event := mkEvent manual_reset initial_state.
Definition set_signaled (b : bool) (m : M) : M := set_fields (mkEvent (m_manual_reset (fields m)) b) m.

(** [RemoveWaitObject]: what it adds to the removal of a waiter whose wait ended
    with [r]; nothing, if the wait was not signalled. *)
Definition RemoveWaitObject_reset (r : EWaitResult) (m : M) : M :=
  if negb (m_manual_reset (fields m)) && m_signaled (fields m) then
    match r with WAIT_RESULT_SIGNAL => set_signaled false m | _ => m end
  else m.
(** [WakeOne], [WakeAll]: every waiter leaves through [RemoveWaitObject]. *)
Definition Event_WakeOne (m : M) : M :=
  if IsEmpty 0 m then m else RemoveWaitObject_reset WAIT_RESULT_SIGNAL (WakeOne 0 m).
Definition Event_WakeAll (m : M) : M := Nat.iter (length (wait_list 0 m)) Event_WakeOne m.
Definition wake (m : M) : M := if m_manual_reset (fields m) then Event_WakeAll m else Event_WakeOne m.

Definition Set_ (m : M) : bool * M :=
  if m_signaled (fields m) then (false, m) else (true, wake (set_signaled true m)).
Definition Reset (m : M) : bool * M := (m_signaled (fields m), set_signaled false m).
Definition Pulse (m : M) : M :=
  let m := set_signaled true m in
  let m := if negb (IsEmpty 0 m) then wake m else m in
  set_signaled false m.
(** A set event lets the caller pass. *)
Definition pass (m : M) : M := if negb (m_manual_reset (fields m)) then set_signaled false m else m.
Definition WaitEx (cx : ctx) (timeout_ticks : Z) (m : M) : res (M * outcome pc ret) :=
  if m_signaled (fields m) then Ok (pass m, Done (RWait WAIT_RESULT_SIGNAL))
  else if negb (timeout_ticks =? NO_WAIT) then
    assert! negb (c_isr cx);
    Ok (m, Blocked timeout_ticks InWait)
  else Ok (m, Done (RWait WAIT_RESULT_TIMEOUT)).
Definition TryWait (m : M) : bool * M := if m_signaled (fields m) then (true, pass m) else (false, m).

Definition enter (cx : ctx) (c : call) (m : M) : res (M * outcome pc ret) :=
  match c with
  | CSet => let '(b, m) := Set_ m in Ok (m, Done (RBool b))
  | CReset => let '(b, m) := Reset m in Ok (m, Done (RBool b))
  | CPulse => Ok (Pulse m, Done RVoid)
  | CWaitEx timeout_ticks => WaitEx cx timeout_ticks m
  | CTryWait => let '(b, m) := TryWait m in Ok (m, Done (RBool b))
  end.
Definition resume (cx : ctx) (p : pc) (r : EWaitResult) (m : M) : res (M * outcome pc ret) := Ok (m, Done (RWait r)).
Definition prim : Primitive := mkPrimitive Event call pc ret (λ _, 0%nat) enter resume.

(** ** Waking *)

Lemma reset_evolves r m m' : evolves m m' → evolves m (RemoveWaitObject_reset r m').
Proof. unfold RemoveWaitObject_reset. destruct (_ && _); [|done]. destruct r; unfold set_signaled; eauto with stk. Qed.
Lemma wake_one_evolves m : evolves m (Event_WakeOne m).
Proof. unfold Event_WakeOne. destruct (IsEmpty 0 m); [eauto with stk|]. apply reset_evolves. eauto with stk. Qed.
Lemma wake_evolves m : evolves m (wake m).
Proof.
  unfold wake. destruct (m_manual_reset (fields m)); [|apply wake_one_evolves]. unfold Event_WakeAll. generalize (length (wait_list 0 m)) as n.
  intros n. induction n as [|n IH]; cbn; [eauto with stk|]. eapply evolves_trans; [exact IH|apply wake_one_evolves].
Qed.
#[local] Hint Resolve wake_evolves : stk.

#[export] Instance event_lawful : Lawful prim.
Proof.
  split; cbn.
  - intros cx [| | |to|] m m' o; cbn [enter].
    + unfold Set_. destruct (m_signaled (fields m)); intros [= <- <-]; [eauto with stk|].
      eapply evolves_trans; [|apply wake_evolves]. unfold set_signaled. eauto with stk.
    + intros [= <- <-]. unfold set_signaled. eauto with stk.
    + intros [= <- <-]. unfold Pulse. cbv zeta. unfold set_signaled at 1. apply evolves_fields.
      assert (evolves m (set_signaled true m)) by (unfold set_signaled; eauto with stk).
      case_match; [eapply evolves_trans; [done|apply wake_evolves]|done].
    + unfold WaitEx, pass, set_signaled. intros H. repeat case_match; inv_res; eauto with stk.
    + unfold TryWait, pass, set_signaled. intros H. repeat case_match; inv_res; eauto with stk.
  - intros cx p r m m' o [= <- <-]. eauto with stk.
  - intros cx [| | |to|] m m' to' p Hi; cbn [enter].
    + by destruct (Set_ m).
    + done.
    + done.
    + unfold WaitEx. rewrite Hi. repeat case_match; intros; inv_res; done.
    + by destruct (TryWait m).
Qed.

Lemma manual_wake_one m : m_manual_reset (fields m) = true → Event_WakeOne m = WakeOne 0 m.
Proof.
  intros E. unfold Event_WakeOne, RemoveWaitObject_reset, IsEmpty. rewrite fields_WakeOne, E. cbn [negb andb]. unfold WakeOne. by destruct (wait_list 0 m).
Qed.
Lemma manual_wake m : m_manual_reset (fields m) = true → wake m = WakeAll 0 m.
Proof.
  intros E. unfold wake, Event_WakeAll, WakeAll. rewrite E. generalize (length (wait_list 0 m)) as n. intros n.
  assert (H : Nat.iter n Event_WakeOne m = Nat.iter n (WakeOne 0) m ∧ m_manual_reset (fields (Nat.iter n (WakeOne 0) m)) = true); [|apply H].
  induction n as [|n [IH1 IH2]]; [done|]. rewrite !Nat.iter_succ, IH1, manual_wake_one, fields_WakeOne by done. done.
Qed.

(** Waking from an auto-reset event that was just set: one task takes the flag, or
    nobody waits. *)
Lemma auto_wake m : m_manual_reset (fields m) = false → m_signaled (fields m) = true →
  (wait_list 0 m = [] ∧ wake m = m) ∨
  (wait_list 0 m ≠ [] ∧ wake m = set_signaled false (WakeOne 0 m)).
Proof.
  intros E1 E2. unfold wake, Event_WakeOne, RemoveWaitObject_reset. rewrite E1, fields_WakeOne, E1, E2. cbn [negb andb].
  unfold IsEmpty. destruct (wait_list 0 m) eqn:E; [by left|by right].
Qed.

(** ** Releases *)

(** Sets that took effect, resets that took the flag back, pulses, and waits that
    were let through. *)
Definition sets (l : label prim) : Z := match l with LCall _ CSet (Some (RBool true)) => 1 | _ => 0 end.
Definition resets (l : label prim) : Z := match l with LCall _ CReset (Some (RBool true)) => 1 | _ => 0 end.
Definition pulses (l : label prim) : Z := match l with LCall _ CPulse _ => 1 | _ => 0 end.
Definition passed (l : label prim) : Z :=
  match l with
  | LCall _ CTryWait (Some (RBool true)) => 1
  | LCall _ (CWaitEx _) (Some (RWait WAIT_RESULT_SIGNAL)) | LResume _ _ _ (Some (RWait WAIT_RESULT_SIGNAL)) => 1
  | _ => 0
  end.

(** Flags that are set, were taken back, were passed on or are on their way. *)
Definition used (tr : list (label prim)) (m : M) : Z :=
  b2z (m_signaled (fields m)) + tally passed tr + in_flight m + tally resets tr.

Record event_inv (manual init : bool) (tr : list (label prim)) (m : M) : Prop := {
  ei_manual : m_manual_reset (fields m) = manual;
  ei_waiters : m_signaled (fields m) = true → wait_list 0 m = [];
  ei_releases : manual = false → Z.abs (used tr m - (b2z init + tally sets tr)) ≤ tally pulses tr;
}.

(** A step that moves [d] flags and is no pulse, or is one. *)
Lemma releases_snoc init tr (l : label prim) (m m' : M) :
  Z.abs (used tr m - (b2z init + tally sets tr)) ≤ tally pulses tr →
  Z.abs (b2z (m_signaled (fields m')) - b2z (m_signaled (fields m)) + passed l + (in_flight m' - in_flight m) + resets l - sets l) ≤ pulses l →
  Z.abs (used (tr ++ [l]) m' - (b2z init + tally sets (tr ++ [l]))) ≤ tally pulses (tr ++ [l]).
Proof. unfold used. rewrite !tally_snoc. lia. Qed.

Lemma flight_wake (m m1 : M) (susp : gmap Z pc) : wf_parts (P := prim) m susp → lists m1 = lists m → woken m1 = woken m →
  wait_list 0 m ≠ [] → in_flight (WakeOne 0 m1) = in_flight m + 1.
Proof.
  intros Hwf E1 E2 Hne. assert (Ew : wait_list 0 m1 = wait_list 0 m) by (unfold wait_list; by rewrite E1).
  rewrite in_flight_WakeOne, Ew, bool_decide_eq_false_2 by (done || (intros t Ht; rewrite Ew in Ht; rewrite E2; apply (wf_listed _ _ Hwf 0%nat t Ht))).
  f_equal. by apply in_flight_ext.
Qed.

Lemma pass_fields m : m_signaled (fields (pass m)) = m_signaled (fields m) && m_manual_reset (fields m) ∧
  m_manual_reset (fields (pass m)) = m_manual_reset (fields m) ∧ wait_list 0 (pass m) = wait_list 0 m ∧ in_flight (pass m) = in_flight m.
Proof. unfold pass. destruct (m_manual_reset (fields m)) eqn:E; cbn; rewrite ?E, ?andb_true_r, ?andb_false_r; done. Qed.

(** Setting the flag and waking: what [Set] and [Pulse] have in common. *)
Lemma set_wake (m : M) (susp : gmap Z pc) : wf_parts (P := prim) m susp →
  let m' := wake (set_signaled true m) in
  m_manual_reset (fields m') = m_manual_reset (fields m) ∧ (m_signaled (fields m') = true → wait_list 0 m' = []) ∧
  (m_manual_reset (fields m) = false → b2z (m_signaled (fields m')) + (in_flight m' - in_flight m) = 1 ∧
     (wait_list 0 m ≠ [] → m_signaled (fields m') = false)).
Proof.
  intros Hwf m'. subst m'. destruct (m_manual_reset (fields m)) eqn:Em.
  - rewrite manual_wake by done. rewrite fields_WakeAll, wait_list_WakeAll. done.
  - destruct (auto_wake (set_signaled true m)) as [[E ->]|[E ->]]; [done..| |].
    + split_and!; [done|done|]. intros _. change (in_flight (set_signaled true m)) with (in_flight m). cbn. split; [lia|done].
    + change (wait_list 0 (set_signaled true m)) with (wait_list 0 m) in E. cbn [set_signaled fields set_fields m_manual_reset m_signaled].
      rewrite fields_WakeOne. split_and!; [done|done|]. intros _. split; [|done]. cbn [b2z].
      change (in_flight (set_signaled false ?x)) with (in_flight x). rewrite (flight_wake m _ susp) by done. lia.
Qed.

Lemma event_step manual init tr (w w' : World prim) l : wf w → event_inv manual init tr (w_mon w) →
  step (λ _ _ _, True) tr w l w' → event_inv manual init (tr ++ [l]) (w_mon w').
Proof.
  intros Hw Hi Hs. destruct Hs as [w cx c m o _ Hn E|w cx p r m o _ Hp Hr E|w t p r Hr Hp Hl]; unfold wf in Hw;
    destruct w as [m0 susp]; cbn [p_fields p_call p_pc p_ret p_cv p_enter p_resume prim w_mon w_susp] in *;
    pose proof Hi as [Em Hwt Hrel].
  - destruct c as [| | |to|]; cbn [enter] in E.
    + unfold Set_ in E. destruct (m_signaled (fields m0)) eqn:Es; injection E as <- <-; cbn [finish w_mon returned].
      * split; [done|intros ?; first [by apply Hwt|congruence]|]. intros Ha. eapply releases_snoc; [by apply Hrel|]. cbn. lia.
      * destruct (set_wake m0 susp Hw) as (H1 & H2 & H3). split; [congruence|done|]. intros Ha.
        eapply releases_snoc; [by apply Hrel|]. rewrite Es. cbn. destruct H3; [congruence|]. lia.
    + injection E as <- <-. cbn [finish w_mon returned]. split; [done|done|]. intros Ha. eapply releases_snoc; [by apply Hrel|].
      change (in_flight (set_signaled false m0)) with (in_flight m0). cbn. destruct (m_signaled (fields m0)); cbn; lia.
    + injection E as <- <-. cbn [finish w_mon returned]. unfold Pulse. cbv zeta.
      change (IsEmpty 0 (set_signaled true m0)) with (IsEmpty 0 m0). destruct (set_wake m0 susp Hw) as (H1 & H2 & H3).
      destruct (IsEmpty 0 m0) eqn:Ee; cbn [negb].
      * split; [done|done|]. intros Ha. eapply releases_snoc; [by apply Hrel|].
        change (in_flight (set_signaled false (set_signaled true m0))) with (in_flight m0). cbn. destruct (m_signaled (fields m0)); cbn; lia.
      * split; [cbn; congruence|done|]. intros Ha. eapply releases_snoc; [by apply Hrel|].
        assert (Hne : wait_list 0 m0 ≠ []) by (intros E0%IsEmpty_spec; congruence). destruct H3 as [H3 H4]; [congruence|].
        rewrite (H4 Hne) in H3. change (in_flight (set_signaled false ?x)) with (in_flight x). cbn in *.
        destruct (m_signaled (fields m0)) eqn:Es; [by rewrite Hwt in Hne|]. cbn. lia.
    + destruct (pass_fields m0) as (F1 & F2 & F3 & F4). unfold WaitEx in E. destruct (m_signaled (fields m0)) eqn:Es.
      * injection E as <- <-. cbn [finish w_mon returned]. split; [congruence|rewrite F3; auto|]. intros Ha.
        eapply releases_snoc; [by apply Hrel|]. rewrite F1, F4, Em, Ha, Es. cbn. lia.
      * destruct (negb (to =? NO_WAIT)); [destruct (negb (c_isr cx)); [|done]|]; injection E as <- <-; cbn [finish w_mon returned].
        -- split; [done|cbn; intros ?; first [by apply Hwt|congruence]|]. intros Ha. eapply releases_snoc; [by apply Hrel|].
           change (in_flight (AddWaitObject _ _ _)) with (in_flight m0). cbn. lia.
        -- split; [done|intros ?; first [by apply Hwt|congruence]|]. intros Ha. eapply releases_snoc; [by apply Hrel|]. cbn. lia.
    + destruct (pass_fields m0) as (F1 & F2 & F3 & F4). unfold TryWait in E. destruct (m_signaled (fields m0)) eqn:Es; injection E as <- <-; cbn [finish w_mon returned].
      * split; [congruence|rewrite F3; auto|]. intros Ha. eapply releases_snoc; [by apply Hrel|]. rewrite F1, F4, Em, Ha, Es. cbn. lia.
      * split; [done|intros ?; first [by apply Hwt|congruence]|]. intros Ha. eapply releases_snoc; [by apply Hrel|]. cbn. lia.
  - injection E as <- <-. cbn [finish w_mon returned]. split; [done|done|]. intros Ha. eapply releases_snoc; [by apply Hrel|].
    rewrite (in_flight_take _ _ _ Hr). cbn. destruct r; cbn in *; lia.
  - cbn [w_mon]. split; [done| |].
    + intros Es. rewrite wait_list_Remove, decide_True by done. by rewrite Hwt.
    + intros Ha. eapply releases_snoc; [by apply Hrel|]. unfold RemoveWaitObject.
      rewrite (in_flight_insert m0); [|done|apply (wf_listed _ _ Hw _ _ Hl)]. destruct Hr as [-> | ->]; cbn; lia.
Qed.

(** Releases of an event.  In every run nobody waits for an event that is
    set.  An auto-reset event lets exactly as many waits pass as flags were
    raised: without pulses, the initial flag and the sets that took effect are
    the flag that is up, the waits let through, the tasks on their way and the
    flags taken back by Reset; each pulse can change this balance by one at
    most.  Only a blocking interrupt handler fails. *)
Theorem event_releases manual init0 tr (w : World prim) :
  run (λ _ _ _, True) (mkWorld (P := prim) (init (Event_ctor manual init0)) ∅) tr w →
  let m : M := w_mon w in
  (m_signaled (fields m) = true → wait_list 0 m = []) ∧
  (manual = false → Z.abs (b2z (m_signaled (fields m)) + tally passed tr + in_flight m + tally resets tr
                           - (b2z init0 + tally sets tr)) ≤ tally pulses tr) ∧
  ∀ cx c, c_isr cx = false → ∃ m' o, enter cx c m = Ok (m', o).
Proof.
  intros Hrun.
  destruct (run_ind_wf (P := prim) (λ _ _ _, True) (Event_ctor manual init0) (λ tr w, event_inv manual init0 tr (w_mon w))) with (tr := tr) (w := w)
    as [Hw [Em Hwt Hrel]]; [|intros ? ? ? ? H1 _ H3 H4; exact (event_step _ _ _ _ _ _ H1 H3 H4)|done|].
  { split; cbn; try done. intros _. unfold used. cbn [w_mon]. rewrite in_flight_init. cbn. lia. }
  intros m. split_and!; [exact Hwt|exact Hrel|]. intros cx c Hi. destruct c; cbn [enter].
  - destruct (Set_ m). eauto.
  - eauto.
  - eauto.
  - unfold WaitEx. rewrite Hi. destruct (m_signaled (fields m)); [eauto|]. destruct (negb _); cbn; eauto.
  - destruct (TryWait m). eauto.
Qed.

(** Two tasks wait for an auto-reset event; one set releases the first. *)
Definition ex_cx (t : Z) : ctx := mkCtx t 0 false.
Definition ex_call (t : Z) (c : call) : action prim := ACall (P := prim) (ex_cx t) c.
Definition ex_acts : list (action prim) :=
  [ex_call 1 (CWaitEx 10); ex_call 2 (CWaitEx 10); ex_call 3 CSet; AResume (ex_cx 1)].
Definition ex_end : list (label prim) * World prim :=
  exec_all (λ _ _ _, true) ex_acts (mkWorld (P := prim) (init (Event_ctor false false)) ∅).
Lemma event_releases_witness : tally passed ex_end.1 = 1 ∧ wait_list 0 (w_mon ex_end.2) = [2] ∧
  Z.abs (b2z (m_signaled (fields (w_mon ex_end.2))) + tally passed ex_end.1 + in_flight (w_mon ex_end.2) + tally resets ex_end.1
         - (b2z false + tally sets ex_end.1)) ≤ tally pulses ex_end.1.
Proof.
  split; [vm_compute; reflexivity|]. split; [vm_compute; reflexivity|].
  apply (event_releases false false ex_end.1 ex_end.2); [by apply exec_all_run|reflexivity].
Defined.
End Event.
