(* ===== verification/EventFlags.v ===== *)
(** * Event flags ([EventFlagsT<T>] of [stk_sync_eventflags.h])

    A word of flags; tasks wait for any or for all of some flags and take them,
    or meet at a rendezvous ([Sync]).  The theorems show that no task waits for
    flags that are set, that a wait returns what it asked for or an error, and
    that no flag is delivered twice. *)

From S2P Require Import Prelude KernelTask Monitor.
Import KTask Monitor.
Local Open Scope Z_scope.

Module EventFlags.

(** A rendezvous context is an object of the caller, shared by the participants;
    the fields hold the flags and the contexts in use. *)
Record SyncContext := mkSync { m_gen : Z; m_snapshot : Z }.
Definition SyncContext_ctor : SyncContext := mkSync 0 0.
Record EventFlagsT := mkEF { m_flags : Z; contexts : gmap Z SyncContext }.
Notation M := (Mon EventFlagsT).

Definition OPT_WAIT_ANY : Z := 0.
Definition OPT_WAIT_ALL : Z := 1.
Definition OPT_NO_CLEAR : Z := 2.

Inductive call :=
| CSet (flags : Z) | CClear (flags : Z) | CAnd (mask : Z) | CGet
| CWait (flags options timeout_ticks : Z) | CWaitEx (flags options timeout_ticks : Z)
| CSync (ctx : Z) (set_flags wait_flags timeout_ticks : Z).
Inductive ret := RFlags (v : Z) | REx (r : EWaitResult) (actual : Z).
(** Where a blocked call is: in [WaitCore], called by [Wait] or [WaitEx], or in
    the loop of [Sync], with the generation it has read. *)
Inductive pc :=
| InWaitCore (ex : bool) (flags options timeout_ticks deadline : Z)
| InSync (ctx wait_flags gen timeout_ticks deadline : Z).

Section flags.
(** The number of bits of [T]. *)
Context (W : Z).

Definition FLAGS_MAX : Z := 2 ^ W - 1.
Definition T_not (x : Z) : Z := Z.land (Z.lnot x) FLAGS_MAX.
Definition ERROR_MASK : Z := T_not (Z.shiftr FLAGS_MAX 1).
Definition ERROR_PARAMETER : Z := Z.lor ERROR_MASK 0x01.
Definition ERROR_TIMEOUT : Z := Z.lor ERROR_MASK 0x02.
Definition ERROR_ISR : Z := Z.lor ERROR_MASK 0x04.
Definition ERROR_CANCELED : Z := Z.lor ERROR_MASK 0x08.
Definition ERROR_FAIL : Z := Z.lor ERROR_MASK 0x10.
Definition IsError (result : Z) : bool := negb (Z.land result ERROR_MASK =? 0).

(** The constructor. *)
Definition EventFlagsT_ctor (initial_flags : Z) : res EventFlagsT :=
  assert! (Z.land initial_flags ERROR_MASK =? 0); Ok (mkEF initial_flags ∅).

Definition set_flags_ (f : Z) (m : M) : M := set_fields (mkEF f (contexts (fields m))) m.
Definition get_ctx (c : Z) (m : M) : SyncContext := default SyncContext_ctor (contexts (fields m) !! c).
Definition put_ctx (c : Z) (s : SyncContext) (m : M) : M := set_fields (mkEF (m_flags (fields m)) (<[c := s]> (contexts (fields m)))) m.

Definition wait_all (options : Z) : bool := Z.land options OPT_WAIT_ALL =? OPT_WAIT_ALL.
(** [IsSatisfied(flags, options)] for the flags [cur]. *)
Definition IsSatisfied (cur flags options : Z) : bool :=
  if wait_all options then Z.land cur flags =? flags else negb (Z.land cur flags =? 0).
Definition bad_flags (flags : Z) : bool := (flags =? 0) || negb (Z.land flags ERROR_MASK =? 0).

Definition Set_ (flags : Z) (m : M) : Z * M :=
  if negb (flags =? 0) && (Z.land flags ERROR_MASK =? 0) then
    let m := set_flags_ (Z.lor (m_flags (fields m)) flags) m in
    (m_flags (fields m), WakeAll 0 m)
  else (ERROR_PARAMETER, m).
Definition Clear (flags : Z) (m : M) : Z * M :=
  if negb (flags =? 0) && (Z.land flags ERROR_MASK =? 0) then
    (m_flags (fields m), set_flags_ (Z.land (m_flags (fields m)) (T_not flags)) m)
  else (ERROR_PARAMETER, m).
Definition And (mask : Z) (m : M) : Z * M := (m_flags (fields m), set_flags_ (Z.land (m_flags (fields m)) mask) m).
Definition Get (m : M) : Z := m_flags (fields m).

(** [WaitCore]: after the loop with a result, the actual flags and the rest of the
    state. *)
Definition WaitCore_end (flags options : Z) (result : EWaitResult) (m : M) : EWaitResult * Z * M :=
  let actual := m_flags (fields m) in
  let m :=
    match result with
    | WAIT_RESULT_SIGNAL =>
        if Z.land options OPT_NO_CLEAR =? 0 then
          let matched := if wait_all options then flags else Z.land (m_flags (fields m)) flags in
          set_flags_ (Z.land (m_flags (fields m)) (T_not matched)) m
        else m
    | _ => m
    end in
  (result, actual, m).
(** What [Wait] makes of the result of [WaitCore]. *)
Definition Wait_result (flags options : Z) (wr : EWaitResult) (actual : Z) : Z :=
  match wr with
  | WAIT_RESULT_SIGNAL => if wait_all options then flags else Z.land actual flags
  | WAIT_RESULT_CANCELED => ERROR_CANCELED
  | WAIT_RESULT_FAIL => ERROR_FAIL
  | _ => ERROR_TIMEOUT
  end.
Definition Wait_return (ex : bool) (flags options : Z) (result : EWaitResult) (m : M) : M * outcome pc ret :=
  let '(wr, actual, m) := WaitCore_end flags options result m in
  (m, Done (if ex then REx wr actual else RFlags (Wait_result flags options wr actual))).
(** [WaitCore]: from the head of the loop to the end of the call, or to the wait. *)
Definition WaitCore (cx : ctx) (ex : bool) (flags options timeout_ticks deadline : Z) (m : M) : res (M * outcome pc ret) :=
  if negb (IsSatisfied (m_flags (fields m)) flags options) then
    w ← cv_wait32 cx timeout_ticks deadline;
    match w with
    | inr rem => Ok (m, Blocked rem (InWaitCore ex flags options timeout_ticks deadline))
    | inl r => Ok (Wait_return ex flags options r m)
    end
  else Ok (Wait_return ex flags options WAIT_RESULT_SIGNAL m).
Definition Wait (cx : ctx) (flags options timeout_ticks : Z) (m : M) : res (M * outcome pc ret) :=
  if bad_flags flags then Ok (m, Done (RFlags ERROR_PARAMETER))
  else if c_isr cx && negb (timeout_ticks =? NO_WAIT) then Ok (m, Done (RFlags ERROR_ISR))
  else WaitCore cx false flags options timeout_ticks (deadline32 cx timeout_ticks) m.
Definition WaitEx (cx : ctx) (flags options timeout_ticks : Z) (m : M) : res (M * outcome pc ret) :=
  if bad_flags flags || (c_isr cx && negb (timeout_ticks =? NO_WAIT)) then Ok (m, Done (REx WAIT_RESULT_FAIL (Get m)))
  else WaitCore cx true flags options timeout_ticks (deadline32 cx timeout_ticks) m.

(** [Sync]: the wait of a participant failed. *)
Definition Sync_fails (ctx gen : Z) (wr : EWaitResult) (m : M) : M * outcome pc ret :=
  if negb (m_gen (get_ctx ctx m) =? gen) then (m, Done (REx WAIT_RESULT_SIGNAL (m_snapshot (get_ctx ctx m))))
  else (m, Done (REx wr (m_flags (fields m)))).
(** [Sync]: one turn of its loop. *)
Definition Sync_loop (cx : Monitor.ctx) (ctx wait_flags gen timeout_ticks deadline : Z) (m : M) : res (M * outcome pc ret) :=
  if negb (m_gen (get_ctx ctx m) =? gen) then Ok (m, Done (REx WAIT_RESULT_SIGNAL (m_snapshot (get_ctx ctx m))))
  else if IsSatisfied (m_flags (fields m)) wait_flags OPT_WAIT_ALL then
    let snapshot := m_flags (fields m) in
    let m := set_flags_ (Z.land (m_flags (fields m)) (T_not wait_flags)) m in
    let m := put_ctx ctx (mkSync (u32 (gen + 1)) snapshot) m in
    Ok (WakeAll 0 m, Done (REx WAIT_RESULT_SIGNAL snapshot))
  else
    w ← cv_wait32 cx timeout_ticks deadline;
    match w with
    | inr rem => Ok (m, Blocked rem (InSync ctx wait_flags gen timeout_ticks deadline))
    | inl r => Ok (Sync_fails ctx gen r m)
    end.
Definition Sync (cx : Monitor.ctx) (ctx set_flags wait_flags timeout_ticks : Z) (m : M) : res (M * outcome pc ret) :=
  if bad_flags wait_flags || negb (Z.land set_flags ERROR_MASK =? 0) || (c_isr cx && negb (timeout_ticks =? NO_WAIT)) then
    Ok (m, Done (REx WAIT_RESULT_FAIL (Get m)))
  else
    let m := set_flags_ (Z.lor (m_flags (fields m)) set_flags) m in
    Sync_loop cx ctx wait_flags (m_gen (get_ctx ctx m)) timeout_ticks (deadline32 cx timeout_ticks) m.

Definition enter (cx : Monitor.ctx) (c : call) (m : M) : res (M * outcome pc ret) :=
  match c with
  | CSet flags => let '(v, m) := Set_ flags m in Ok (m, Done (RFlags v))
  | CClear flags => let '(v, m) := Clear flags m in Ok (m, Done (RFlags v))
  | CAnd mask => let '(v, m) := And mask m in Ok (m, Done (RFlags v))
  | CGet => Ok (m, Done (RFlags (Get m)))
  | CWait flags options timeout_ticks => Wait cx flags options timeout_ticks m
  | CWaitEx flags options timeout_ticks => WaitEx cx flags options timeout_ticks m
  | CSync ctx set_flags wait_flags timeout_ticks => Sync cx ctx set_flags wait_flags timeout_ticks m
  end.
Definition resume (cx : Monitor.ctx) (p : pc) (r : EWaitResult) (m : M) : res (M * outcome pc ret) :=
  match p with
  | InWaitCore ex flags options timeout_ticks deadline =>
      if bool_decide (r ≠ WAIT_RESULT_SIGNAL) then Ok (Wait_return ex flags options r m)
      else WaitCore cx ex flags options timeout_ticks deadline m
  | InSync ctx wait_flags gen timeout_ticks deadline =>
      if bool_decide (r ≠ WAIT_RESULT_SIGNAL) then Ok (Sync_fails ctx gen r m)
      else Sync_loop cx ctx wait_flags gen timeout_ticks deadline m
  end.
Definition prim : Primitive := mkPrimitive EventFlagsT call pc ret (λ _, 0%nat) enter resume.

(** ** How a call ends *)

(** A look of [WaitCore] at the flags. *)
Lemma WaitCore_cases cx ex f o to d m m' out : WaitCore cx ex f o to d m = Ok (m', out) →
  (IsSatisfied (m_flags (fields m)) f o = true ∧ (m', out) = Wait_return ex f o WAIT_RESULT_SIGNAL m) ∨
  (IsSatisfied (m_flags (fields m)) f o = false ∧ m' = m ∧
    (out = (Wait_return ex f o WAIT_RESULT_TIMEOUT m).2 ∨ c_isr cx = false ∧ ∃ rem, out = Blocked rem (InWaitCore ex f o to d))).
Proof.
  unfold WaitCore. destruct (IsSatisfied _ f o); cbn [negb]; [intros H; left; split; [done|congruence]|].
  destruct (cv_wait32 cx to d) as [w|] eqn:Ew; cbn [mbind res_bind]; [|done]. intros H. right. split; [done|].
  destruct (cv_wait32_cases cx to d w Ew) as [->|(Hi & rem & ->)]; [|injection H as <- <-; eauto].
  unfold Wait_return, WaitCore_end in *. injection H as <- <-. by split; [|left].
Qed.
Lemma Sync_loop_cases cx c wf g to d m m' out : Sync_loop cx c wf g to d m = Ok (m', out) →
  (m_gen (get_ctx c m) ≠ g ∧ m' = m ∧ out = Done (REx WAIT_RESULT_SIGNAL (m_snapshot (get_ctx c m)))) ∨
  (m_gen (get_ctx c m) = g ∧ IsSatisfied (m_flags (fields m)) wf OPT_WAIT_ALL = true ∧
    m' = WakeAll 0 (put_ctx c (mkSync (u32 (g + 1)) (m_flags (fields m))) (set_flags_ (Z.land (m_flags (fields m)) (T_not wf)) m)) ∧
    out = Done (REx WAIT_RESULT_SIGNAL (m_flags (fields m)))) ∨
  (m_gen (get_ctx c m) = g ∧ IsSatisfied (m_flags (fields m)) wf OPT_WAIT_ALL = false ∧ m' = m ∧
    (out = Done (REx WAIT_RESULT_TIMEOUT (m_flags (fields m))) ∨ c_isr cx = false ∧ ∃ rem, out = Blocked rem (InSync c wf g to d))).
Proof.
  unfold Sync_loop, Sync_fails. destruct (Z.eqb_spec (m_gen (get_ctx c m)) g) as [Eg|Eg]; cbn [negb]; [|intros [= <- <-]; by left].
  destruct (IsSatisfied _ wf _); [intros [= <- <-]; right; by left|].
  destruct (cv_wait32 cx to d) as [w|] eqn:Ew; cbn [mbind res_bind]; [|done]. intros H. right. right. split; [done|]. split; [done|].
  destruct (cv_wait32_cases cx to d w Ew) as [->|(Hi & rem & ->)]; injection H as <- <-; eauto.
Qed.

#[export] Instance ef_lawful : Lawful prim.
Proof.
  assert (Hwc : ∀ cx ex f o to d m m' out, WaitCore cx ex f o to d m = Ok (m', out) → evolves m m').
  { intros * [(_ & E)|(_ & -> & _)]%WaitCore_cases; [|eauto with stk]. unfold Wait_return, WaitCore_end in E. injection E as -> _.
    unfold set_flags_. case_match; eauto with stk. }
  assert (Hsl : ∀ cx c wf g to d m m' out, Sync_loop cx c wf g to d m = Ok (m', out) → evolves m m').
  { intros * [(_ & -> & _)|[(_ & _ & -> & _)|(_ & _ & -> & _)]]%Sync_loop_cases; [eauto with stk| |eauto with stk].
    eapply evolves_trans; [|apply evolves_All]. unfold put_ctx, set_flags_. eauto with stk. }
  assert (Hwi : ∀ cx ex f o to m m' rem p, c_isr cx = true → WaitCore cx ex f o to (deadline32 cx to) m ≠ Ok (m', Blocked rem p)).
  { intros * Hi [(_ & E)|(_ & _ & [E|[? _]])]%WaitCore_cases; [unfold Wait_return in E; by destruct (WaitCore_end _ _ _ _) as [[]]| |congruence].
    unfold Wait_return in E; by destruct (WaitCore_end _ _ _ _) as [[]]. }
  split; cbn.
  - intros cx [f|f|k| |f o to|f o to|c sf wf to] m m' out; cbn [enter].
    + unfold Set_. destruct (_ && _); intros [= <- <-]; [|eauto with stk]. eapply evolves_trans; [|apply evolves_All]. unfold set_flags_. eauto with stk.
    + unfold Clear. destruct (_ && _); intros [= <- <-]; unfold set_flags_; eauto with stk.
    + intros [= <- <-]. unfold set_flags_. eauto with stk.
    + intros [= <- <-]. eauto with stk.
    + unfold Wait. destruct (bad_flags f); [intros [= <- <-]; eauto with stk|]. case_match; [intros [= <- <-]; eauto with stk|apply Hwc].
    + unfold WaitEx. case_match; [intros [= <- <-]; eauto with stk|apply Hwc].
    + unfold Sync. case_match; [intros [= <- <-]; eauto with stk|]. intros E%Hsl. eapply evolves_trans; [|exact E]. unfold set_flags_. eauto with stk.
  - intros cx [ex f o to d|c wf g to d] r m m' out; cbn [resume]; case_match; eauto.
    + unfold Wait_return, WaitCore_end. intros [= <- <-]. unfold set_flags_. destruct r; try case_match; eauto with stk.
    + unfold Sync_fails. case_match; intros [= <- <-]; eauto with stk.
  - intros cx [f|f|k| |f o to|f o to|c sf wf to] m m' rem p Hi; cbn [enter].
    + by destruct (Set_ f m).
    + by destruct (Clear f m).
    + done.
    + done.
    + unfold Wait. repeat case_match; [done|done|by apply Hwi].
    + unfold WaitEx. case_match; [done|by apply Hwi].
    + unfold Sync. case_match; [done|].
      intros [(_ & _ & ?)|[(_ & _ & _ & ?)|(_ & _ & _ & [?|[? _]])]]%Sync_loop_cases; done || congruence.
Qed.

(** ** Facts about the bits *)

Lemma sat_mono cur x f o : IsSatisfied (Z.land cur x) f o = true → IsSatisfied cur f o = true.
Proof.
  unfold IsSatisfied. destruct (wait_all o).
  - rewrite !Z.eqb_eq. intros E. rewrite <- E at 2. rewrite <- E at 1. rewrite <- !Z.land_assoc, !Z.land_assoc, Z.land_diag. by rewrite <- !Z.land_assoc.
  - rewrite !negb_true_iff, !Z.eqb_neq. intros H E. apply H. by rewrite (Z.land_comm cur x), <- Z.land_assoc, E, Z.land_0_r.
Qed.
Lemma sat_fewer cur x f o : IsSatisfied cur f o = false → IsSatisfied (Z.land cur x) f o = false.
Proof. destruct (IsSatisfied (Z.land cur x) f o) eqn:E; [|done]. apply sat_mono in E. congruence. Qed.

Context (HW : 1 < W).
Lemma error_mask_bit : Z.testbit ERROR_MASK (W - 1) = true.
Proof using HW.
  unfold ERROR_MASK, T_not, FLAGS_MAX. replace (2 ^ W - 1) with (Z.ones W) by (rewrite Z.ones_equiv; lia).
  rewrite Z.land_spec, Z.lnot_spec, Z.shiftr_spec, !Z.testbit_ones_nonneg by lia.
  rewrite (proj2 (Z.ltb_ge _ _)), (proj2 (Z.ltb_lt _ _)) by lia. done.
Qed.
Lemma error_is_error x : IsError (Z.lor ERROR_MASK x) = true.
Proof using HW.
  unfold IsError. apply negb_true_iff, Z.eqb_neq. intros E. assert (H : Z.testbit (Z.land (Z.lor ERROR_MASK x) ERROR_MASK) (W - 1) = true).
  { by rewrite Z.land_spec, Z.lor_spec, error_mask_bit. }
  by rewrite E, Z.bits_0 in H.
Qed.
Lemma land_land_0 x y z : Z.land x z = 0 → Z.land (Z.land x y) z = 0.
Proof. intros E. by rewrite (Z.land_comm x y), <- Z.land_assoc, E, Z.land_0_r. Qed.
Lemma land_lor_0 x y z : Z.land x z = 0 → Z.land y z = 0 → Z.land (Z.lor x y) z = 0.
Proof. intros E1 E2. by rewrite Z.land_lor_distr_l, E1, E2. Qed.

(** ** What a call asks for and what it gets *)

Inductive req := RqWait (flags options : Z) | RqSync (wait_flags : Z).
Definition req_of_call (c : call) : option req :=
  match c with CWait f o _ | CWaitEx f o _ => Some (RqWait f o) | CSync _ _ wf _ => Some (RqSync wf) | _ => None end.
Definition req_of_pc (p : pc) : req :=
  match p with InWaitCore _ f o _ _ => RqWait f o | InSync _ wf _ _ _ => RqSync wf end.
Definition wanted (q : req) (cur : Z) : bool :=
  match q with RqWait f o => IsSatisfied cur f o | RqSync wf => IsSatisfied cur wf OPT_WAIT_ALL end.
(** The result is an error, or flags that satisfy the request. *)
Definition good_ret (q : req) (r : ret) : Prop :=
  match q, r with
  | RqWait f o, RFlags v => IsError v = true ∨ (Z.land v f = v ∧ IsSatisfied v f o = true)
  | _, REx wr actual => wr = WAIT_RESULT_SIGNAL → wanted q actual = true
  | _, _ => True
  end.
Definition bit (x b : Z) : Z := b2z (Z.testbit x b).
(** Flag [b] is handed to the caller, and taken away from the others. *)
Definition deliver (b : Z) (q : req) (r : ret) : Z :=
  match q with
  | RqWait f o =>
      if Z.land o OPT_NO_CLEAR =? 0 then
        match r with
        | RFlags v => if IsError v then 0 else bit v b
        | REx WAIT_RESULT_SIGNAL actual => bit (if wait_all o then f else Z.land actual f) b
        | REx _ _ => 0
        end
      else 0
  | RqSync _ => 0
  end.
Definition label_req (l : label prim) : option (req * ret) :=
  match l with
  | LCall _ c (Some r) => q ← req_of_call c; Some (q, r)
  | LResume _ p _ (Some r) => Some (req_of_pc p, r)
  | _ => None
  end.
Definition good_label (l : label prim) : Prop := match label_req l with Some (q, r) => good_ret q r | None => True end.
Definition delivered (b : Z) (l : label prim) : Z := match label_req l with Some (q, r) => deliver b q r | None => 0 end.
(** Flag [b] is raised. *)
Definition raised (b : Z) (l : label prim) : Z :=
  match l with
  | LCall _ (CSet f) (Some (RFlags v)) => if IsError v then 0 else bit f b
  | LCall _ (CSync _ sf _ _) (Some (REx WAIT_RESULT_FAIL _)) => 0
  | LCall _ (CSync _ sf _ _) _ => bit sf b
  | _ => 0
  end.

(** Either no rendezvous is used, or all participants wait for the same flags and
    nobody else waits. *)
Definition ef_pre (mode : option Z) (tr : list (label prim)) (cx : Monitor.ctx) (c : call) : Prop :=
  match c with
  | CWait _ _ to | CWaitEx _ _ to => mode = None ∧ in_i32 to
  | CSync _ _ wf to => mode = Some wf ∧ in_i32 to
  | _ => True
  end.
Definition pc_ok (mode : option Z) (p : pc) : Prop :=
  match p with
  | InWaitCore _ f _ _ d => mode = None ∧ bad_flags f = false ∧ in_i32 d
  | InSync _ wf _ _ d => mode = Some wf ∧ bad_flags wf = false ∧ in_i32 d
  end.
Definition snapshot_ok (wf c : Z) (m : M) (susp : gmap Z pc) : Prop :=
  Z.land (m_snapshot (get_ctx c m)) wf = wf ∨
  (get_ctx c m = SyncContext_ctor ∧ ∀ t wf' g to d, susp !! t = Some (InSync c wf' g to d) → g = 0).
Record ef_inv (mode : option Z) (m : M) (susp : gmap Z pc) : Prop := {
  fi_clean : Z.land (m_flags (fields m)) ERROR_MASK = 0;
  fi_unsat t p : t ∈ wait_list 0 m → susp !! t = Some p → wanted (req_of_pc p) (m_flags (fields m)) = false;
  fi_ok t p : susp !! t = Some p → pc_ok mode p;
  fi_snap wf c : mode = Some wf → snapshot_ok wf c m susp;
}.

(** A part of a call that ends in [m'] with [out]. *)
Record seg (mode : option Z) (q : req) (m m' : M) (susp : gmap Z pc) (t : Z) (out : outcome pc ret) : Prop := {
  sg_inv : let w := finish (P := prim) t m' out susp in ef_inv mode (w_mon w) (w_susp w);
  sg_good r : out = Done r → good_ret q r;
  sg_account b : 0 ≤ b → bit (m_flags (fields m')) b + (match out with Done r => deliver b q r | Blocked _ _ => 0 end) ≤ bit (m_flags (fields m)) b;
}.

(** Fewer flags. *)
Lemma inv_fewer mode (m : M) susp x : ef_inv mode m susp → ef_inv mode (set_flags_ (Z.land (m_flags (fields m)) x) m) susp.
Proof.
  intros [H1 H2 H3 H4]. split; [by apply land_land_0| |done|done].
  intros t p Ht Hp. specialize (H2 t p Ht Hp). destruct p; by apply sat_fewer.
Qed.
(** Nobody waits any more. *)
Lemma inv_WakeAll mode (m : M) susp : Z.land (m_flags (fields m)) ERROR_MASK = 0 → (∀ t p, susp !! t = Some p → pc_ok mode p) →
  (∀ wf c, mode = Some wf → snapshot_ok wf c m susp) → ef_inv mode (WakeAll 0 m) susp.
Proof.
  intros H1 H2 H3. split; rewrite ?fields_WakeAll; try done.
  - intros t p. rewrite wait_list_WakeAll, decide_True by done. by intros ?%not_elem_of_nil.
  - intros wf c Hm. unfold snapshot_ok, get_ctx. rewrite !fields_WakeAll. by apply H3.
Qed.
Lemma inv_block mode (m : M) susp t p : wf_parts (P := prim) m susp → susp !! t = None → ef_inv mode m susp → pc_ok mode p →
  wanted (req_of_pc p) (m_flags (fields m)) = false →
  (∀ c wf g to d, p = InSync c wf g to d → g = m_gen (get_ctx c m)) → ef_inv mode (AddWaitObject 0 t m) (<[t := p]> susp).
Proof.
  intros Hwf Hn [H1 H2 H3 H4] Hok Hwant Hgen. split; [done| | |].
  - intros u q. rewrite wait_list_Add, decide_True by done. cbn [fields AddWaitObject]. intros [Hu| ->%list_elem_of_singleton]%elem_of_app.
    + rewrite lookup_insert_ne by (intros ->; destruct (wf_listed _ _ Hwf _ _ Hu) as (_ & ? & ? & _); congruence). by apply H2.
    + rewrite lookup_insert_eq. by intros [= <-].
  - intros u q. destruct (decide (t = u)) as [<-|?]; [rewrite lookup_insert_eq; by intros [= <-]|rewrite lookup_insert_ne by done; apply H3].
  - intros wf c Hm. destruct (H4 wf c Hm) as [?|[Ec Hg]]; [by left|right]. split; [done|]. intros u wf' g to d.
    destruct (decide (t = u)) as [<-|?]; [|rewrite lookup_insert_ne by done; apply Hg].
    rewrite lookup_insert_eq. intros [= ->]. rewrite (Hgen _ _ _ _ _ eq_refl). by rewrite Ec.
Qed.
Lemma matched_sat cur f o : IsSatisfied cur f o = true →
  let x := if wait_all o then f else Z.land cur f in Z.land x f = x ∧ IsSatisfied x f o = true ∧ Z.land cur x = x.
Proof.
  unfold IsSatisfied. destruct (wait_all o); cbv zeta; [rewrite !Z.eqb_eq, Z.land_diag; done|]. intros H.
  by rewrite <- !Z.land_assoc, Z.land_diag, Z.land_assoc, Z.land_diag.
Qed.
Lemma take_bits cur x b : Z.land cur x = x → 0 ≤ b → bit (Z.land cur (T_not x)) b + bit x b ≤ bit cur b.
Proof.
  intros E Hb. unfold bit, T_not. rewrite <- E at 2. rewrite !Z.land_spec, Z.lnot_spec by done.
  destruct (Z.testbit cur b), (Z.testbit x b), (Z.testbit FLAGS_MAX b); cbn; lia.
Qed.

Lemma Wait_result_error f o r a : r ≠ WAIT_RESULT_SIGNAL → IsError (Wait_result f o r a) = true.
Proof using HW. destruct r; cbn; intros; try done; apply error_is_error. Qed.

(** [WaitCore] ends without success. *)
Lemma wait_fails_seg mode (m : M) susp t ex f o r : ef_inv mode m susp → r ≠ WAIT_RESULT_SIGNAL →
  seg mode (RqWait f o) m (Wait_return ex f o r m).1 susp t (Wait_return ex f o r m).2.
Proof using HW.
  intros Hi Hr. assert (E : Wait_return ex f o r m = (m, Done (if ex then REx r (m_flags (fields m)) else RFlags (Wait_result f o r (m_flags (fields m)))))).
  { unfold Wait_return, WaitCore_end. by destruct r. }
  rewrite E. cbn [fst snd]. pose proof (Wait_result_error f o r (m_flags (fields m)) Hr) as He. split; [done| |].
  - intros r' [= <-]. destruct ex; cbn; [done|by left].
  - intros b _. cbn [deliver]. destruct ex; [destruct r; try done; case_match; lia|]. rewrite He. case_match; lia.
Qed.
Lemma wait_ok_seg mode (m : M) susp t ex f o : ef_inv mode m susp → bad_flags f = false → IsSatisfied (m_flags (fields m)) f o = true →
  seg mode (RqWait f o) m (Wait_return ex f o WAIT_RESULT_SIGNAL m).1 susp t (Wait_return ex f o WAIT_RESULT_SIGNAL m).2.
Proof.
  intros Hi Hf Hs. destruct (matched_sat _ _ _ Hs) as (E1 & E2 & E3). unfold Wait_return, WaitCore_end, Wait_result. cbn [fst snd].
  set (x := if wait_all o then f else Z.land (m_flags (fields m)) f) in *. split.
  - destruct (_ =? 0); [|done]. by apply (inv_fewer mode m susp (T_not x)).
  - intros r [= <-]. destruct ex; cbn [good_ret]; [intros _; done|]. by right.
  - intros b Hb. cbn [deliver]. destruct (Z.land o OPT_NO_CLEAR =? 0).
    + cbn [set_flags_ fields set_fields m_flags]. pose proof (take_bits _ x b E3 Hb). destruct ex; [exact H|].
      assert (0 ≤ bit x b) by (unfold bit; by destruct (Z.testbit x b)). destruct (IsError x); lia.
    + lia.
Qed.
Lemma WaitCore_seg (m : M) susp cx ex f o to d m' out : wf_parts (P := prim) m susp → (c_isr cx = false → susp !! c_tid cx = None) →
  ef_inv None m susp → bad_flags f = false → in_i32 d → WaitCore cx ex f o to d m = Ok (m', out) →
  seg None (RqWait f o) m m' susp (c_tid cx) out.
Proof using HW.
  intros Hwf Hn Hi Hf Hd [(Hs & E)|(Hs & -> & [->|(Hisr & rem & ->)])]%WaitCore_cases.
  - pose proof (wait_ok_seg None m susp (c_tid cx) ex f o Hi Hf Hs) as H. by rewrite <- E in H.
  - pose proof (wait_fails_seg None m susp (c_tid cx) ex f o WAIT_RESULT_TIMEOUT Hi) as H. by apply H.
  - split; [|done|intros; lia]. apply (inv_block None m susp (c_tid cx)); auto; done.
Qed.

(** The rendezvous: all who wait, wait for the same flags. *)
Lemma sync_unsat wf (m : M) (susp : gmap Z pc) : (∀ t p, susp !! t = Some p → pc_ok (Some wf) p) →
  IsSatisfied (m_flags (fields m)) wf OPT_WAIT_ALL = false →
  ∀ t p, t ∈ wait_list 0 m → susp !! t = Some p → wanted (req_of_pc p) (m_flags (fields m)) = false.
Proof. intros H Hs t p _ Hp. specialize (H t p Hp). destruct p as [|c wf' g to d]; cbn in *; [by destruct H|]. destruct H as [[= <-] _]. done. Qed.
Lemma get_put c c' s (m : M) : get_ctx c' (put_ctx c s m) = if decide (c = c') then s else get_ctx c' m.
Proof. unfold get_ctx, put_ctx. cbn. case_decide; [subst; by rewrite lookup_insert_eq|by rewrite lookup_insert_ne]. Qed.
Lemma bit_lor x y b : bit (Z.lor x y) b ≤ bit x b + bit y b.
Proof. unfold bit. rewrite Z.lor_spec. destruct (Z.testbit x b), (Z.testbit y b); cbn; lia. Qed.
Lemma bit_land x y b : bit (Z.land x y) b ≤ bit x b.
Proof. unfold bit. rewrite Z.land_spec. destruct (Z.testbit x b), (Z.testbit y b); cbn; lia. Qed.

Lemma Sync_loop_seg wf (m : M) (susp : gmap Z pc) cx c g to d m' out : wf_parts (P := prim) m susp → (c_isr cx = false → susp !! c_tid cx = None) →
  Z.land (m_flags (fields m)) ERROR_MASK = 0 → (∀ t p, susp !! t = Some p → pc_ok (Some wf) p) → (∀ c, snapshot_ok wf c m susp) →
  (m_gen (get_ctx c m) ≠ g → ef_inv (Some wf) m susp ∧ Z.land (m_snapshot (get_ctx c m)) wf = wf) →
  bad_flags wf = false → in_i32 d → Sync_loop cx c wf g to d m = Ok (m', out) → seg (Some wf) (RqSync wf) m m' susp (c_tid cx) out.
Proof.
  intros Hwf Hn H1 H3 H4 Hg Hf Hd [(Eg & -> & ->)|[(Eg & Hs & -> & ->)|(Eg & Hs & -> & Ho)]]%Sync_loop_cases.
  - destruct (Hg Eg) as [Hi Hsn]. split; [done| |intros; cbn; lia]. intros r [= <-] _. change ((Z.land (m_snapshot (get_ctx c m)) wf =? wf) = true). rewrite Hsn. apply Z.eqb_refl.
  - split.
    + apply (inv_WakeAll (Some wf)); [by apply land_land_0|done|]. intros wf' c' [= <-]. unfold snapshot_ok. rewrite get_put.
      case_decide; [left; by apply Z.eqb_eq|apply H4].
    + intros r [= <-] _. done.
    + intros b _. rewrite fields_WakeAll. cbn. pose proof (bit_land (m_flags (fields m)) (T_not wf) b). lia.
  - assert (Hi : ef_inv (Some wf) m susp) by (split; [done|by apply (sync_unsat wf)|done|intros wf' c' [= <-]; apply H4]).
    destruct Ho as [->|(Hisr & rem & ->)]; (split; [|intros r [= <-]; done|intros; cbn; lia]); [done|].
    apply (inv_block (Some wf) m susp (c_tid cx)); auto; [done|]. by intros ? ? ? ? ? [= <- <- <- _ _].
Qed.
Lemma Sync_fails_seg wf (m : M) (susp : gmap Z pc) t c g r : ef_inv (Some wf) m susp → r ≠ WAIT_RESULT_SIGNAL →
  (m_gen (get_ctx c m) ≠ g → Z.land (m_snapshot (get_ctx c m)) wf = wf) →
  seg (Some wf) (RqSync wf) m (Sync_fails c g r m).1 susp t (Sync_fails c g r m).2.
Proof.
  intros Hi Hr Hg. unfold Sync_fails. destruct (Z.eqb_spec (m_gen (get_ctx c m)) g) as [E|E]; cbn [negb fst snd];
    (split; [done| |intros; cbn; lia]); intros r' [= <-] Hr'; [done|].
  change ((Z.land (m_snapshot (get_ctx c m)) wf =? wf) = true). rewrite Hg by done. apply Z.eqb_refl.
Qed.

(** A task returns from its wait, or gives up. *)
Lemma inv_take mode (m : M) (susp : gmap Z pc) t p r : wf_parts (P := prim) m susp → ef_inv mode m susp → susp !! t = Some p → woken m !! t = Some r →
  ef_inv mode (take_woken t m) (delete t susp).
Proof.
  intros Hwf [H1 H2 H3 H4] Hp Hr. split; [done| | |].
  - intros u q Hu [_ Hq]%lookup_delete_Some. by apply (H2 u q).
  - intros u q [_ Hq]%lookup_delete_Some. by eapply H3.
  - intros wf c Hm. destruct (H4 wf c Hm) as [?|[E Hg]]; [by left|right]. split; [done|].
    intros u wf' g to d [_ Hq]%lookup_delete_Some. by eapply Hg.
Qed.
Lemma inv_abort mode (m : M) (susp : gmap Z pc) t r : ef_inv mode m susp → ef_inv mode (RemoveWaitObject 0 t r m) susp.
Proof.
  intros [H1 H2 H3 H4]. split; [done| |done|done]. intros u q. rewrite wait_list_Remove, decide_True by done.
  intros [Hu _]%elem_of_remove1. by apply H2.
Qed.

Lemma resume_seg mode (m : M) (susp : gmap Z pc) cx p r m' out : wf_parts (P := prim) m susp → ef_inv mode m susp →
  susp !! c_tid cx = Some p → woken m !! c_tid cx = Some r → resume cx p r (take_woken (c_tid cx) m) = Ok (m', out) →
  seg mode (req_of_pc p) m m' (delete (c_tid cx) susp) (c_tid cx) out.
Proof using HW.
  intros Hwf Hi Hp Hr E. pose proof (inv_take mode m susp _ p r Hwf Hi Hp Hr) as Hi'.
  assert (Hwf' : wf_parts (P := prim) (take_woken (c_tid cx) m) (delete (c_tid cx) susp)) by (eapply (wf_take (P := prim)); [done|done|by eexists]).
  assert (Hn : c_isr cx = false → delete (c_tid cx) susp !! c_tid cx = None) by (intros _; apply lookup_delete_eq).
  assert (Hseg : ∀ q, seg mode q (take_woken (c_tid cx) m) m' (delete (c_tid cx) susp) (c_tid cx) out → seg mode q m m' (delete (c_tid cx) susp) (c_tid cx) out).
  { intros q [S1 S2 S3]. by split. }
  apply Hseg. pose proof (fi_ok _ _ _ Hi _ _ Hp) as Hok. destruct p as [ex f o to d|c wf g to d]; cbn [resume req_of_pc pc_ok] in *.
  - destruct Hok as (-> & Hf & Hd). case_bool_decide as Hs.
    + pose proof (wait_fails_seg None _ _ (c_tid cx) ex f o r Hi' Hs) as Hx. destruct (Wait_return _ _ _ _ _). by injection E as <- <-.
    + by eapply WaitCore_seg.
  - destruct Hok as (-> & Hf & Hd). assert (Hsn : m_gen (get_ctx c m) ≠ g → Z.land (m_snapshot (get_ctx c m)) wf = wf).
    { intros Hg. destruct (fi_snap _ _ _ Hi wf c eq_refl) as [?|[Ec Hz]]; [done|]. rewrite (Hz _ _ _ _ _ Hp), Ec in Hg. done. }
    case_bool_decide as Hs.
    + pose proof (Sync_fails_seg wf _ _ (c_tid cx) c g r Hi' Hs Hsn) as Hx. destruct (Sync_fails _ _ _ _). by injection E as <- <-.
    + pose proof Hi' as [H1 H2 H3 H4]. eapply Sync_loop_seg; eauto.
Qed.

(** What an entered call leaves behind. *)
Lemma enter_seg mode tr (m : M) (susp : gmap Z pc) cx c q m' out : wf_parts (P := prim) m susp → ef_inv mode m susp →
  (c_isr cx = false → susp !! c_tid cx = None) → ef_pre mode tr cx c → req_of_call c = Some q → enter cx c m = Ok (m', out) →
  let w := finish (P := prim) (c_tid cx) m' out susp in ef_inv mode (w_mon w) (w_susp w) ∧ (∀ r, out = Done r → good_ret q r) ∧
  ∀ b, 0 ≤ b → bit (m_flags (fields m')) b + (match out with Done r => deliver b q r | _ => 0 end) ≤
    bit (m_flags (fields m)) b + raised b (LCall (P := prim) (c_tid cx) c (returned (P := prim) out)).
Proof using HW.
  intros Hwf Hi Hn Hpre Hq E. assert (Hd : ∀ to, in_i32 to → in_i32 (deadline32 cx to)) by (intros; by apply deadline32_range).
  destruct c as [f|f|k| |f o to|f o to|c sf wf to]; try done; cbn [enter ef_pre req_of_call] in *; injection Hq as <-; destruct Hpre as [-> Hto].
  - unfold Wait in E. destruct (bad_flags f) eqn:Ef; [|destruct (c_isr cx && _)].
    1,2: injection E as <- <-; split_and!; [done|intros r [= <-]; left; apply error_is_error|].
    1,2: intros b _; cbn [deliver returned raised]; unfold ERROR_PARAMETER, ERROR_ISR; rewrite error_is_error; case_match; lia.
    destruct (WaitCore_seg m susp cx false f o to _ m' out Hwf Hn Hi Ef (Hd _ Hto) E) as [S1 S2 S3]. split_and!; [done|done|].
    intros b Hb. specialize (S3 b Hb). cbn [raised]. lia.
  - unfold WaitEx in E. destruct (bad_flags f) eqn:Ef; cbn [orb] in E; [|destruct (c_isr cx && _)].
    1,2: injection E as <- <-; split_and!; [done|intros r [= <-]; done|].
    1,2: intros b _; cbn [deliver returned raised]; case_match; lia.
    destruct (WaitCore_seg m susp cx true f o to _ m' out Hwf Hn Hi Ef (Hd _ Hto) E) as [S1 S2 S3]. split_and!; [done|done|].
    intros b Hb. specialize (S3 b Hb). cbn [raised]. lia.
  - unfold Sync in E. destruct (bad_flags wf || _ || _) eqn:Eb.
    { injection E as <- <-. split_and!; [done|by intros r [= <-]|]. intros b _. cbn. lia. }
    apply orb_false_iff in Eb as [[Ef Esf%negb_false_iff%Z.eqb_eq]%orb_false_iff _]. pose proof Hi as [H1 H2 H3 H4].
    assert (Hr : ∀ b, raised b (LCall (P := prim) (c_tid cx) (CSync c sf wf to) (returned (P := prim) out)) = bit sf b).
    { intros b. by apply Sync_loop_cases in E as [(_ & _ & ->)|[(_ & _ & _ & ->)|(_ & _ & _ & [->|(_ & rem & ->)])]]. }
    assert (Hwf1 : wf_parts (P := prim) (set_flags_ (Z.lor (m_flags (fields m)) sf) m) susp) by (by apply (wf_same (P := prim) m)).
    eapply (Sync_loop_seg wf (set_flags_ _ m) susp) in E as [S1 S2 S3]; eauto;
      [|by apply land_lor_0|done].
    split_and!; [done|done|]. intros b Hb. specialize (S3 b Hb). cbn [set_flags_ fields set_fields m_flags] in S3. rewrite Hr.
    pose proof (bit_lor (m_flags (fields m)) sf b). lia.
Qed.

Record run_inv (mode : option Z) (init0 : Z) (tr : list (label prim)) (m : M) (susp : gmap Z pc) : Prop := {
  ru_inv : ef_inv mode m susp;
  ru_good l : l ∈ tr → good_label l;
  ru_account b : 0 ≤ b → bit (m_flags (fields m)) b + tally (delivered b) tr ≤ bit init0 b + tally (raised b) tr;
}.
Lemma run_inv_snoc mode init0 tr l (m m' : M) (susp susp' : gmap Z pc) : run_inv mode init0 tr m susp → ef_inv mode m' susp' → good_label l →
  (∀ b, 0 ≤ b → bit (m_flags (fields m')) b + delivered b l ≤ bit (m_flags (fields m)) b + raised b l) →
  run_inv mode init0 (tr ++ [l]) m' susp'.
Proof.
  intros [H1 H2 H3] Hi Hg Ha. split; [done| |].
  - intros x [Hx| ->%list_elem_of_singleton]%elem_of_app; auto.
  - intros b Hb. rewrite !tally_snoc. specialize (H3 b Hb). specialize (Ha b Hb). lia.
Qed.

(** The calls that do not wait. *)
Lemma enter_now mode (m : M) (susp : gmap Z pc) cx c m' out : wf_parts (P := prim) m susp → ef_inv mode m susp →
  req_of_call c = None → enter cx c m = Ok (m', out) →
  (∃ v, out = Done (RFlags v)) ∧ ef_inv mode m' susp ∧
  ∀ b, 0 ≤ b → bit (m_flags (fields m')) b ≤ bit (m_flags (fields m)) b + raised b (LCall (P := prim) (c_tid cx) c (returned (P := prim) out)).
Proof.
  intros Hwf Hi Hq E. pose proof Hi as [H1 H2 H3 H4]. destruct c as [f|f|k| |f o to|f o to|c sf wf to]; try done; cbn [enter] in E.
  - unfold Set_ in E. destruct (negb (f =? 0) && _) eqn:Ef; injection E as <- <-.
    + apply andb_true_iff in Ef as [_ Ef%Z.eqb_eq]. assert (Hc : Z.land (Z.lor (m_flags (fields m)) f) ERROR_MASK = 0) by (by apply land_lor_0).
      split_and!; [eauto|by apply inv_WakeAll|]. intros b _. rewrite fields_WakeAll. cbn [returned raised set_flags_ fields set_fields m_flags].
      unfold IsError. rewrite Hc. cbn. apply bit_lor.
    + split_and!; [eauto|done|]. intros b _. cbn [returned raised]. unfold bit. case_match; [lia|]. destruct (Z.testbit f b); cbn; lia.
  - unfold Clear in E. destruct (_ && _); injection E as <- <-; (split_and!; [eauto| |]); [by apply inv_fewer| |done|intros; cbn; lia].
    intros b _. cbn [raised]. pose proof (bit_land (m_flags (fields m)) (T_not f) b). cbn. lia.
  - injection E as <- <-. split_and!; [eauto|by apply inv_fewer|]. intros b _. cbn [raised]. pose proof (bit_land (m_flags (fields m)) k b). cbn. lia.
  - injection E as <- <-. split_and!; [eauto|done|]. intros; cbn; lia.
Qed.

Lemma ef_step mode init0 tr (w w' : World prim) l : wf w → run_inv mode init0 tr (w_mon w) (w_susp w) →
  step (ef_pre mode) tr w l w' → run_inv mode init0 (tr ++ [l]) (w_mon w') (w_susp w').
Proof using HW.
  intros Hw Hi Hs. destruct Hs as [w cx c m o Hpre Hn E|w cx p r m o Hisr Hp Hr E|w t p r Hr Hp Hl]; unfold wf in Hw;
    destruct w as [m0 susp]; cbn [p_fields p_call p_pc p_ret p_cv p_enter p_resume prim w_mon w_susp] in *;
    pose proof (ru_inv _ _ _ _ _ Hi) as He.
  - destruct (req_of_call c) as [q|] eqn:Eq.
    + destruct (enter_seg mode tr m0 susp cx c q m o Hw He Hn Hpre Eq E) as (S1 & S2 & S3). eapply run_inv_snoc; [exact Hi|exact S1|..].
      * unfold good_label, label_req. destruct o as [r|]; [|done]. cbn. rewrite Eq. by apply S2.
      * intros b Hb. specialize (S3 b Hb). unfold delivered, label_req. destruct o as [r|]; cbn in *; rewrite ?Eq; cbn; lia.
    + destruct (enter_now mode m0 susp cx c m o Hw He Eq E) as ((v & ->) & S1 & S2). eapply run_inv_snoc; [exact Hi|exact S1|..].
      * unfold good_label, label_req. cbn. by rewrite Eq.
      * intros b Hb. specialize (S2 b Hb). unfold delivered, label_req. cbn in *. rewrite Eq. cbn. lia.
  - destruct (resume_seg mode m0 susp cx p r m o Hw He Hp Hr E) as [S1 S2 S3]. eapply run_inv_snoc; [exact Hi|exact S1|..].
    + destruct o as [r'|]; [|done]. by apply S2.
    + intros b Hb. specialize (S3 b Hb). destruct o as [r'|]; cbn in *; lia.
  - eapply run_inv_snoc; [exact Hi|by apply inv_abort|done|]. intros b Hb. cbn. lia.
Qed.

Lemma ef_run mode init0 e0 tr (w : World prim) : EventFlagsT_ctor init0 = Ok e0 →
  run (ef_pre mode) (mkWorld (P := prim) (init e0) ∅) tr w → wf w ∧ run_inv mode init0 tr (w_mon w) (w_susp w).
Proof using HW.
  intros E. unfold EventFlagsT_ctor in E. destruct (Z.eqb_spec (Z.land init0 ERROR_MASK) 0) as [E0|]; [|done]. injection E as <-.
  apply (run_ind_wf (P := prim) (ef_pre mode) (mkEF init0 ∅) (λ tr w, run_inv mode init0 tr (w_mon w) (w_susp w))).
  - split.
    + split; cbn; try done. intros wf c _. right. by split.
    + by intros l ?%not_elem_of_nil.
    + intros b _. cbn. lia.
  - intros ? ? ? ? H1 _ H3 H4. exact (ef_step _ _ _ _ _ _ H1 H3 H4).
Qed.

(** One look at the flags does not fail. *)
Lemma WaitCore_ok cx ex f o to d m : c_isr cx = false → in_range cx → in_i32 d → ∃ m' out, WaitCore cx ex f o to d m = Ok (m', out).
Proof.
  intros H1 H2 H3. unfold WaitCore. destruct (negb _); [|destruct (Wait_return _ _ _ _ _); eauto].
  destruct (cv_wait32_ok cx to d H1 H2 H3) as [[] ->]; cbn [mbind res_bind]; [|eauto]. destruct (Wait_return _ _ _ _ _); eauto.
Qed.
Lemma Sync_loop_ok cx c wf g to d m : c_isr cx = false → in_range cx → in_i32 d → ∃ m' out, Sync_loop cx c wf g to d m = Ok (m', out).
Proof.
  intros H1 H2 H3. unfold Sync_loop. destruct (negb _); [eauto|]. destruct (IsSatisfied _ _ _); [eauto|].
  destruct (cv_wait32_ok cx to d H1 H2 H3) as [[] ->]; cbn [mbind res_bind]; [|eauto]. destruct (Sync_fails _ _ _ _); eauto.
Qed.

(** C26. Nobody waits for flags that are set.  In every run that uses either plain
    waits or rendezvous of participants with a common set of flags, a task on
    the wait list waits for flags that are not there; a task whose flags are
    set has been woken.  No call of a task and no return from a wait fails
    while the tick count is below 2^31. *)
Theorem eventflags_no_stranded_waiter mode init0 e0 tr (w : World prim) : EventFlagsT_ctor init0 = Ok e0 →
  run (ef_pre mode) (mkWorld (P := prim) (init e0) ∅) tr w →
  let m : M := w_mon w in
  (∀ t p, w_susp w !! t = Some p → wanted (req_of_pc p) (m_flags (fields m)) = true → is_Some (woken m !! t)) ∧
  (∀ cx c, c_isr cx = false → in_range cx → ef_pre mode tr cx c → ∃ m' o, enter cx c m = Ok (m', o)) ∧
  (∀ cx p r, c_isr cx = false → in_range cx → w_susp w !! c_tid cx = Some p → ∃ m' o, resume cx p r (take_woken (c_tid cx) m) = Ok (m', o)).
Proof using HW.
  intros E Hrun. destruct (ef_run mode init0 e0 tr w E Hrun) as [Hw [Hi _ _]]. intros m. split_and!.
  - intros t p Hp Hs. destruct (wf_blocked _ _ Hw t p Hp) as [?|Hl]; [done|]. pose proof (fi_unsat _ _ _ Hi t p Hl Hp) as Hu. subst m. congruence.
  - intros cx [f|f|k| |f o to|f o to|c sf wf to] Hisr Hr Hpre; cbn [enter ef_pre] in *.
    + destruct (Set_ f m). eauto.
    + destruct (Clear f m). eauto.
    + eauto.
    + eauto.
    + unfold Wait. destruct (bad_flags f); [eauto|]. rewrite Hisr. cbn [andb]. apply WaitCore_ok; auto. apply deadline32_range, Hpre.
    + unfold WaitEx. destruct (_ || _); [eauto|]. apply WaitCore_ok; auto. apply deadline32_range, Hpre.
    + unfold Sync. destruct (_ || _ || _); [eauto|]. apply Sync_loop_ok; auto. apply deadline32_range, Hpre.
  - intros cx p r Hisr Hr Hp. pose proof (fi_ok _ _ _ Hi _ _ Hp) as Hok. destruct p; cbn [resume pc_ok] in *; case_bool_decide.
    + destruct (Wait_return _ _ _ _ _). eauto.
    + apply WaitCore_ok; [done|done|apply Hok].
    + destruct (Sync_fails _ _ _ _). eauto.
    + apply Sync_loop_ok; [done|done|apply Hok].
Qed.

(** Results of the waits.  In every such run, a wait returns an error value or
    flags it asked for that satisfy its request, also at a rendezvous that was
    completed while the task was on its way; and no flag is handed out twice:
    a flag is handed to a clearing wait at most as often as it was raised. *)
Theorem eventflags_results mode init0 e0 tr (w : World prim) : EventFlagsT_ctor init0 = Ok e0 →
  run (ef_pre mode) (mkWorld (P := prim) (init e0) ∅) tr w →
  (∀ l, l ∈ tr → good_label l) ∧
  (∀ b, 0 ≤ b → bit (m_flags (fields (w_mon w))) b + tally (delivered b) tr ≤ bit init0 b + tally (raised b) tr).
Proof using HW. intros E Hrun. destruct (ef_run mode init0 e0 tr w E Hrun) as [_ [_ Hg Ha]]. split; [exact Hg|exact Ha]. Qed.
End flags.

(** 32 flags: a task waits for two flags at once and gets them when both are set;
    a task that waits for the first alone gets nothing. *)
Definition ex_cx (t : Z) : ctx := mkCtx t 5 false.
Definition ex_call (t : Z) (c : call) : action (prim 32) := ACall (P := prim 32) (ex_cx t) c.
Definition ex_preb (tr : list (label (prim 32))) (cx : ctx) (c : call) : bool :=
  match c with CWait _ _ to | CWaitEx _ _ to => bool_decide (in_i32 to) | CSync _ _ _ _ => false | _ => true end.
Definition ex_world0 : World (prim 32) := mkWorld (P := prim 32) (init (mkEF 0 ∅)) ∅.
Definition ex_acts : list (action (prim 32)) :=
  [ex_call 1 (CWait 3 OPT_WAIT_ALL 10); ex_call 2 (CSet 1); AResume (ex_cx 1); ex_call 3 (CWaitEx 4 OPT_WAIT_ANY 10); ex_call 2 (CSet 2); AResume (ex_cx 1)].
Definition ex_end : list (label (prim 32)) * World (prim 32) := exec_all ex_preb ex_acts ex_world0.
Lemma ef_ex_run : run (ef_pre 32 None) ex_world0 ex_end.1 ex_end.2.
Proof. apply exec_all_run. intros tr cx c. unfold ex_preb, ef_pre. destruct c; try done; by intros ?%bool_decide_eq_true. Qed.

(** The same run just before task 1 looks: both of its flags are set, and it was
    woken. *)
Definition ex_set : list (label (prim 32)) * World (prim 32) := exec_all ex_preb (take 5 ex_acts) ex_world0.
Lemma ef_set_run : run (ef_pre 32 None) ex_world0 ex_set.1 ex_set.2.
Proof. apply exec_all_run. intros tr cx c. unfold ex_preb, ef_pre. destruct c; try done; by intros ?%bool_decide_eq_true. Qed.

Lemma eventflags_no_stranded_waiter_witness : m_flags (fields (w_mon ex_set.2)) = 3 ∧
  ∃ p, w_susp ex_set.2 !! 1 = Some p ∧ wanted (req_of_pc p) 3 = true ∧ is_Some (woken (w_mon ex_set.2) !! 1).
Proof.
  assert (E : ∃ p, w_susp ex_set.2 !! 1 = Some p ∧ wanted (req_of_pc p) (m_flags (fields (w_mon ex_set.2))) = true)
    by (eexists; split; vm_compute; reflexivity).
  destruct E as (p & Hp & Hw). split; [vm_compute; reflexivity|]. exists p. split; [done|].
  split; [exact Hw|]. revert Hw. revert Hp.
  apply (eventflags_no_stranded_waiter 32 ltac:(lia) None 0 (mkEF 0 ∅) ex_set.1 ex_set.2 eq_refl ef_set_run).
Defined.
Lemma eventflags_results_witness : tally (delivered 32 0) ex_end.1 = 1 ∧
  bit (m_flags (fields (w_mon ex_end.2))) 0 + tally (delivered 32 0) ex_end.1 ≤ bit 0 0 + tally (raised 32 0) ex_end.1.
Proof.
  split; [vm_compute; reflexivity|].
  apply (eventflags_results 32 ltac:(lia) None 0 (mkEF 0 ∅) ex_end.1 ex_end.2 eq_refl ef_ex_run). lia.
Defined.

(** A rendezvous that raises flags does not notify the plain waits: task 1 waits
    for flag 1, a participant of a rendezvous raises it and waits for flag 2, and
    task 1 is left on the wait list although its flag is set. *)
Definition mixed_acts : list (action (prim 32)) := [ex_call 1 (CWait 1 OPT_WAIT_ANY WAIT_INFINITE); ex_call 2 (CSync 7 1 2 WAIT_INFINITE)].
Example sync_leaves_satisfied_waiter :
  let w := (exec_all (λ _ _ _, true) mixed_acts ex_world0).2 in wait_list 0 (w_mon w) = [1; 2] ∧ m_flags (fields (w_mon w)) = 1.
Proof. vm_compute. done. Qed.
(** The 32-bit deadline: ten ticks before the tick count reaches 2^31 a wait of 20
    ticks gives up at once. *)
Example flags_wait_gives_up_early :
  Wait 32 (mkCtx 1 (2 ^ 31 - 10) false) 1 OPT_WAIT_ANY 20 (init (mkEF 0 ∅)) = Ok (init (mkEF 0 ∅), Done (RFlags (ERROR_TIMEOUT 32))).
Proof. vm_compute. reflexivity. Qed.
End EventFlags.
