(* ===== verification/Threads.v ===== *)
(** * Calls that are cut at every critical section

    The primitives of [Monitor.v] do their work in one critical section per
    segment.  Code that is built on top of them ([Barrier], [SpinLock], [FrtosNotify]) is a
    program whose critical sections are separate steps: between any two of
    them another task may run.  This file gives such programs ([Program]) and
    their interleaved runs.  A task that waits puts itself on a wait list, goes
    on running until it reaches the loop in which it waits for its wake-up
    ([BusyWaitWhileSleeping] of [stk.h]), and may be switched out by the kernel
    anywhere in between, because its sleep is already scheduled ([run_off]).

    The waiting discipline is that of [Monitor.v] ([threads_wf]), for the tasks
    that are between the two points. *)

From S2P Require Import Prelude KernelTask Monitor.
Import KTask Monitor.
Local Open Scope Z_scope.

Module Threads.

(** What a step leads to: another point of the program, a point of the program
    with the task put on a wait list, or the end of the call. *)
Inductive next (P R : Type) := Goto (p : P) | WaitOn (cv : nat) (p : P) | Return (r : R).
Global Arguments Goto {P R}.
Global Arguments WaitOn {P R}.
Global Arguments Return {P R}.

Record Program := mkProgram {
  g_fields : Type;
  g_call : Type;
  g_pc : Type;
  g_ret : Type;
  g_start : g_call → g_pc;
  g_cv : g_pc → option nat;                          (* the object it was put on the list of *)
  g_resume : g_pc → option (EWaitResult → g_pc);     (* the loop that waits for the wake-up *)
  g_timed : g_pc → bool;                             (* the wait has a timeout *)
  g_run : ctx → g_pc → Mon g_fields → res (Mon g_fields * next g_pc g_ret);
}.

Section runs.
Context (G : Program).
Notation M := (Mon (g_fields G)).

(** [w_pcs]: where the calls in progress are; [w_off]: the tasks the kernel has
    taken off the processor because their sleep was scheduled. *)
Record Threads := mkThreads { t_mon : M; t_pcs : gmap Z (g_pc G); t_off : gset Z }.
Implicit Types w : Threads.

Definition asleep w (t : Z) : Prop := t ∈ t_off w ∧ woken (t_mon w) !! t = None.
#[global] Instance asleep_dec w t : Decision (asleep w t).
Proof. unfold asleep. apply _. Defined.

Inductive event :=
| EvCall (t : Z) (c : g_call G)
| EvRun (t : Z) (p : g_pc G) (o : option (g_ret G))
| EvWake (t : Z) (p : g_pc G) (r : EWaitResult)
| EvCancel (t : Z)
| EvTimeout (t : Z)
| EvOff (t : Z).
Implicit Types tr : list event.

Definition result_of (n : next (g_pc G) (g_ret G)) : option (g_ret G) :=
  match n with Return r => Some r | _ => None end.
Definition proceed (t : Z) (m : M) (n : next (g_pc G) (g_ret G)) w : Threads :=
  match n with
  | Goto p => mkThreads m (<[t := p]> (t_pcs w)) (t_off w)
  | WaitOn cv p => mkThreads (AddWaitObject cv t m) (<[t := p]> (t_pcs w)) (t_off w)
  | Return _ => mkThreads m (delete t (t_pcs w)) (t_off w)
  end.

(** One step, one call or one event of the kernel; [pre] says which calls the
    program makes, given the run so far.  A wait ends by a signal, by a cancellation
    or, if it has one, by its timeout. *)
Inductive move (pre : list event → ctx → g_call G → Prop) (tr : list event) : Threads → event → Threads → Prop :=
| run_call w cx c : pre tr cx c → t_pcs w !! c_tid cx = None →
    move pre tr w (EvCall (c_tid cx) c) (mkThreads (t_mon w) (<[c_tid cx := g_start G c]> (t_pcs w)) (t_off w))
| run_run w cx p m n : c_isr cx = false → t_pcs w !! c_tid cx = Some p → g_resume G p = None → ¬ asleep w (c_tid cx) →
    g_run G cx p (t_mon w) = Ok (m, n) →
    move pre tr w (EvRun (c_tid cx) p (result_of n)) (proceed (c_tid cx) m n w)
| run_wake w t p k r : t_pcs w !! t = Some p → g_resume G p = Some k → woken (t_mon w) !! t = Some r →
    move pre tr w (EvWake t p r) (mkThreads (take_woken t (t_mon w)) (<[t := k r]> (t_pcs w)) (t_off w ∖ {[t]}))
| run_cancel w t p cv : t_pcs w !! t = Some p → g_cv G p = Some cv → t ∈ wait_list cv (t_mon w) →
    move pre tr w (EvCancel t) (mkThreads (RemoveWaitObject cv t WAIT_RESULT_CANCELED (t_mon w)) (t_pcs w) (t_off w))
| run_timeout w t p cv : t_pcs w !! t = Some p → g_cv G p = Some cv → t ∈ wait_list cv (t_mon w) → g_timed G p = true →
    move pre tr w (EvTimeout t) (mkThreads (RemoveWaitObject cv t WAIT_RESULT_TIMEOUT (t_mon w)) (t_pcs w) (t_off w))
| run_off w t p cv : t_pcs w !! t = Some p → g_cv G p = Some cv → t ∈ wait_list cv (t_mon w) →
    move pre tr w (EvOff t) (mkThreads (t_mon w) (t_pcs w) (t_off w ∪ {[t]})).

Inductive moves (pre : list event → ctx → g_call G → Prop) (w0 : Threads) : list event → Threads → Prop :=
| moves_nil : moves pre w0 [] w0
| moves_step tr w l w' : moves pre w0 tr w → move pre tr w l w' → moves pre w0 (tr ++ [l]) w'.
End runs.
Global Arguments mkThreads {G}.
Global Arguments t_mon {G}.
Global Arguments t_pcs {G}.
Global Arguments t_off {G}.
Global Arguments asleep {G}.
Global Arguments EvCall {G}.
Global Arguments EvRun {G}.
Global Arguments EvWake {G}.
Global Arguments EvCancel {G}.
Global Arguments EvTimeout {G}.
Global Arguments EvOff {G}.
Global Arguments result_of {G}.
Global Arguments proceed {G}.
Global Arguments move {G}.
Global Arguments moves {G}.

(** ** The waiting discipline *)

(** The laws of a program: a step only wakes waiters; a task is on no list when it
    starts, puts itself on the list that [g_cv] names, stays there, and is not on
    a list any more when its wait is over. *)
Class Disciplined (G : Program) := {
  run_evolves cx p m m' n : g_run G cx p m = Ok (m', n) → evolves m m';
  run_goto cx p m m' p' : g_run G cx p m = Ok (m', Goto p') → g_cv G p' = g_cv G p;
  run_wait cx p m m' cv p' : g_run G cx p m = Ok (m', WaitOn cv p') → g_cv G p = None ∧ g_cv G p' = Some cv;
  run_return cx p m m' r : g_run G cx p m = Ok (m', Return r) → g_cv G p = None;
  start_free c : g_cv G (g_start G c) = None;
  resume_cv p k r : g_resume G p = Some k → is_Some (g_cv G p) ∧ g_cv G (k r) = None;
}.

(** The primitive of [Monitor.v] with the same wait lists, whose blocked calls are
    known by the object they wait for. *)
Definition waits (F : Type) : Primitive :=
  mkPrimitive F Empty_set nat Empty_set id (λ _ c, match c with end) (λ _ _ _ _, Panic PANIC_FUEL).

Section wellformed.
Context {G : Program} `{!Disciplined G}.
Implicit Types w : Threads G.

Definition waiting w : gmap Z nat := omap (g_cv G) (t_pcs w).
Definition threads_wf w : Prop := wf_parts (P := waits (g_fields G)) (t_mon w) (waiting w).

Lemma waiting_lookup w t p : t_pcs w !! t = Some p → waiting w !! t = g_cv G p.
Proof. unfold waiting. rewrite lookup_omap. by intros ->. Qed.
Lemma waiting_none w t : t_pcs w !! t = None → waiting w !! t = None.
Proof. unfold waiting. rewrite lookup_omap. by intros ->. Qed.
Lemma waiting_insert (pcs : gmap Z (g_pc G)) t p : omap (g_cv G) (<[t := p]> pcs) =
  match g_cv G p with Some cv => <[t := cv]> (omap (g_cv G) pcs) | None => delete t (omap (g_cv G) pcs) end.
Proof. destruct (g_cv G p) eqn:E; [by apply omap_insert_Some|by apply omap_insert_None]. Qed.

(** Listed tasks, signalled tasks and tasks at a waiting point. *)
Lemma wf_list w cv t : threads_wf w → t ∈ wait_list cv (t_mon w) →
  woken (t_mon w) !! t = None ∧ ∃ p, t_pcs w !! t = Some p ∧ g_cv G p = Some cv.
Proof.
  intros Hw Hl. destruct (wf_listed _ _ Hw cv t Hl) as (Hn & cv' & Hp & E). split; [done|]. cbn in E. subst cv'.
  unfold waiting in Hp. rewrite lookup_omap in Hp. destruct (t_pcs w !! t) as [p|]; [|done]. by exists p.
Qed.
Lemma wf_signal w t r : threads_wf w → woken (t_mon w) !! t = Some r → ∃ p cv, t_pcs w !! t = Some p ∧ g_cv G p = Some cv.
Proof.
  intros Hw Hr. destruct (wf_woken _ _ Hw t) as [cv Hp]; [by eexists|]. unfold waiting in Hp. rewrite lookup_omap in Hp.
  destruct (t_pcs w !! t) as [p|]; [|done]. by exists p, cv.
Qed.
Lemma wf_at w t p cv : threads_wf w → t_pcs w !! t = Some p → g_cv G p = Some cv →
  is_Some (woken (t_mon w) !! t) ∨ t ∈ wait_list cv (t_mon w).
Proof. intros Hw Hp E. apply (wf_blocked _ _ Hw t cv). transitivity (g_cv G p); [by apply waiting_lookup|done]. Qed.
Lemma wf_not_waiting w t p : threads_wf w → t_pcs w !! t = Some p → g_cv G p = None →
  woken (t_mon w) !! t = None ∧ ∀ cv, t ∉ wait_list cv (t_mon w).
Proof.
  intros Hw Hp E. split.
  - destruct (woken (t_mon w) !! t) as [r|] eqn:Er; [|done]. destruct (wf_signal w t r Hw Er) as (q & cv & ? & ?). congruence.
  - intros cv (_ & q & ? & ?)%wf_list; congruence.
Qed.

Lemma wf_proceed w cx p m n : threads_wf w → t_pcs w !! c_tid cx = Some p → g_run G cx p (t_mon w) = Ok (m, n) →
  threads_wf (proceed (c_tid cx) m n w).
Proof.
  intros Hw Hp E. set (t := c_tid cx) in *. assert (Hm : wf_parts (P := waits _) m (waiting w)) by (eapply wf_evolves; [exact Hw|by eapply run_evolves]).
  assert (Hl := waiting_lookup w t p Hp). unfold threads_wf, waiting in *. destruct n as [p'|cv p'|r]; cbn [proceed t_mon t_pcs].
  - rewrite waiting_insert, (run_goto _ _ _ _ _ E). destruct (g_cv G p); [by rewrite insert_id|by rewrite delete_id].
  - destruct (run_wait _ _ _ _ _ _ E) as [E1 E2]. rewrite waiting_insert, E2. rewrite E1 in Hl.
    exact (wf_finish (P := waits (g_fields G)) t m (Blocked 1 cv) _ Hm Hl).
  - rewrite (run_return _ _ _ _ _ E) in Hl. rewrite omap_delete. by rewrite delete_id.
Qed.

Lemma wf_end w t p cv r : threads_wf w → t_pcs w !! t = Some p → g_cv G p = Some cv → t ∈ wait_list cv (t_mon w) →
  threads_wf (mkThreads (RemoveWaitObject cv t r (t_mon w)) (t_pcs w) (t_off w)).
Proof.
  intros Hw Hp Hcv Hl. unfold threads_wf in *. cbn [t_mon]. change (waiting _) with (waiting w).
  apply (wf_abort (P := waits (g_fields G)) t cv r (t_mon w) (waiting w)); [done| |done].
  transitivity (g_cv G p); [by apply waiting_lookup|done].
Qed.
Lemma wf_move pre tr w l w' : threads_wf w → move pre tr w l w' → threads_wf w'.
Proof.
  intros Hw H. destruct H as [w cx c _ Hn|w cx p m n _ Hp _ _ E|w t p k r Hp Hk Hr|w t p cv Hp Hcv Hl|w t p cv Hp Hcv Hl _|w t p cv Hp Hcv Hl].
  - unfold threads_wf, waiting in *. cbn. rewrite waiting_insert, start_free, delete_id; [done|]. by apply waiting_none.
  - by eapply wf_proceed.
  - unfold threads_wf, waiting in *. cbn. destruct (resume_cv p k r Hk) as [[cv Ecv] E0]. rewrite waiting_insert, E0.
    apply (wf_take (P := waits _) t cv); [done| |by eexists]. transitivity (g_cv G p); [by apply (waiting_lookup w)|done].
  - by eapply wf_end.
  - by eapply wf_end.
  - done.
Qed.

Definition fresh (f : g_fields G) : Threads G := mkThreads (init f) ∅ ∅.
Lemma fresh_wf f : threads_wf (fresh f).
Proof. unfold threads_wf, waiting. cbn. rewrite omap_empty. exact (wf_init (P := waits (g_fields G)) f). Qed.

(** Induction over the runs. *)
Lemma moves_ind_wf pre f (Inv : list (event G) → Threads G → Prop) : Inv [] (fresh f) →
  (∀ tr w l w', moves pre (fresh f) (tr ++ [l]) w' → threads_wf w → threads_wf w' → Inv tr w → move pre tr w l w' → Inv (tr ++ [l]) w') →
  ∀ tr w, moves pre (fresh f) tr w → threads_wf w ∧ Inv tr w.
Proof.
  intros H0 HS tr w H. induction H as [|tr w l w' H [IHw IH] Hs]; [split; [apply fresh_wf|done]|].
  assert (Hw' : threads_wf w') by (by eapply wf_move). split; [done|]. apply (HS tr w); [by eapply moves_step|done..].
Qed.
End wellformed.

(** The task [t] goes on at [po], or has returned. *)
Definition put {A} (t : Z) (po : option A) (pcs : gmap Z A) : gmap Z A :=
  match po with Some p => <[t := p]> pcs | None => delete t pcs end.
Lemma pcs_put_lookup {A} t (po : option A) pcs u : put t po pcs !! u = if decide (t = u) then po else pcs !! u.
Proof.
  destruct po; cbn; case_decide; subst; [by rewrite lookup_insert_eq|by rewrite lookup_insert_ne|by rewrite lookup_delete_eq|by rewrite lookup_delete_ne].
Qed.
Definition next_pc {P R} (n : next P R) : option P := match n with Goto p | WaitOn _ p => Some p | Return _ => None end.
Lemma proceed_pcs {G} t m n (w : Threads G) : t_pcs (proceed t m n w) = put t (next_pc n) (t_pcs w).
Proof. by destruct n. Qed.

(** Counting the tasks at some points. *)
Definition at_point {A} (f : A → bool) (po : option A) : Z := match po with Some p => b2z (f p) | None => 0 end.
Lemma blocked_put {A} (f : A → bool) pcs t p po : pcs !! t = Some p →
  blocked_as f (put t po pcs) = blocked_as f pcs - b2z (f p) + at_point f po.
Proof.
  intros Hp. assert (Hd := blocked_delete f pcs t p Hp). unfold b2z, at_point. destruct po as [p'|]; cbn [put].
  - rewrite <- insert_delete_eq, blocked_insert, Hd by apply lookup_delete_eq. unfold b2z. lia.
  - rewrite Hd. lia.
Qed.

(** ** Running a program *)

Section execute.
Context {G : Program}.

Inductive choice := ChCall (cx : ctx) (c : g_call G) | ChRun (cx : ctx) | ChWake (t : Z) | ChCancel (t : Z) | ChTimeout (t : Z) | ChOff (t : Z).

(** The object on whose list the task is. *)
Definition listed (w : Threads G) (t : Z) : option nat :=
  cv ← (t_pcs w !! t) ≫= g_cv G; if bool_decide (t ∈ wait_list cv (t_mon w)) then Some cv else None.

Definition exec_choice (preb : list (event G) → ctx → g_call G → bool) (tr : list (event G)) (w : Threads G) (a : choice) : option (event G * Threads G) :=
  match a with
  | ChCall cx c =>
      if preb tr cx c && match t_pcs w !! c_tid cx with None => true | Some _ => false end then
        Some (EvCall (c_tid cx) c, mkThreads (t_mon w) (<[c_tid cx := g_start G c]> (t_pcs w)) (t_off w))
      else None
  | ChRun cx =>
      p ← t_pcs w !! c_tid cx;
      match c_isr cx, g_resume G p, bool_decide (asleep w (c_tid cx)), g_run G cx p (t_mon w) with
      | false, None, false, Ok (m, n) => Some (EvRun (c_tid cx) p (result_of n), proceed (c_tid cx) m n w)
      | _, _, _, _ => None
      end
  | ChWake t =>
      p ← t_pcs w !! t; k ← g_resume G p; r ← woken (t_mon w) !! t;
      Some (EvWake t p r, mkThreads (take_woken t (t_mon w)) (<[t := k r]> (t_pcs w)) (t_off w ∖ {[t]}))
  | ChCancel t =>
      cv ← listed w t;
      Some (EvCancel t, mkThreads (RemoveWaitObject cv t WAIT_RESULT_CANCELED (t_mon w)) (t_pcs w) (t_off w))
  | ChTimeout t =>
      p ← t_pcs w !! t; cv ← listed w t;
      if g_timed G p then Some (EvTimeout t, mkThreads (RemoveWaitObject cv t WAIT_RESULT_TIMEOUT (t_mon w)) (t_pcs w) (t_off w)) else None
  | ChOff t => _ ← listed w t; Some (EvOff t, mkThreads (t_mon w) (t_pcs w) (t_off w ∪ {[t]}))
  end.
Fixpoint exec_choices (preb : list (event G) → ctx → g_call G → bool) (acts : list choice) (tr : list (event G)) (w : Threads G) :
    option (list (event G) * Threads G) :=
  match acts with
  | [] => Some (tr, w)
  | a :: acts => '(l, w) ← exec_choice preb tr w a; exec_choices preb acts (tr ++ [l]) w
  end.

Lemma listed_Some w t cv : listed w t = Some cv → ∃ p, t_pcs w !! t = Some p ∧ g_cv G p = Some cv ∧ t ∈ wait_list cv (t_mon w).
Proof.
  unfold listed. destruct (t_pcs w !! t) as [p|]; cbn; [|done]. destruct (g_cv G p) as [cv'|] eqn:E; cbn; [|done].
  case_bool_decide; [|done]. intros [= <-]. eauto.
Qed.
Lemma exec_choice_move preb (pre : list (event G) → ctx → g_call G → Prop) tr w a l w' : (∀ tr cx c, preb tr cx c = true → pre tr cx c) →
  exec_choice preb tr w a = Some (l, w') → move pre tr w l w'.
Proof.
  intros Hpre. destruct a as [cx c|cx|t|t|t|t]; cbn [exec_choice].
  - destruct (preb tr cx c) eqn:Ep; cbn [andb]; [|done]. destruct (t_pcs w !! c_tid cx) eqn:E; [done|]. intros [= <- <-].
    apply run_call; auto.
  - destruct (t_pcs w !! c_tid cx) as [p|] eqn:Ep; cbn; [|done]. destruct (c_isr cx) eqn:Ei; [done|].
    destruct (g_resume G p) eqn:Er; [done|]. case_bool_decide as Ha; [done|]. destruct (g_run G cx p (t_mon w)) as [[m n]|] eqn:E; [|done].
    intros [= <- <-]. by apply run_run.
  - destruct (t_pcs w !! t) as [p|] eqn:Ep; cbn; [|done]. destruct (g_resume G p) as [k|] eqn:Ek; cbn; [|done].
    destruct (woken (t_mon w) !! t) as [r|] eqn:Er; cbn; [|done]. intros [= <- <-]. by eapply run_wake.
  - destruct (listed w t) as [cv|] eqn:E; cbn; [|done]. intros [= <- <-]. apply listed_Some in E as (p & ? & ? & ?). by eapply run_cancel.
  - destruct (t_pcs w !! t) as [p|] eqn:Ep; cbn; [|done]. destruct (listed w t) as [cv|] eqn:E; cbn; [|done].
    destruct (g_timed G p) eqn:Et; [|done]. intros [= <- <-]. apply listed_Some in E as (q & Hq & ? & ?). rewrite Ep in Hq. injection Hq as <-.
    by eapply run_timeout.
  - destruct (listed w t) as [cv|] eqn:E; cbn; [|done]. intros [= <- <-]. apply listed_Some in E as (p & ? & ? & ?). by eapply run_off.
Qed.
Lemma exec_choices_moves preb (pre : list (event G) → ctx → g_call G → Prop) w0 acts : ∀ tr w tr' w', (∀ tr cx c, preb tr cx c = true → pre tr cx c) →
  moves pre w0 tr w → exec_choices preb acts tr w = Some (tr', w') → moves pre w0 tr' w'.
Proof.
  induction acts as [|a acts IH]; intros tr w tr' w' Hpre Hr; cbn [exec_choices]; [by intros [= <- <-]|].
  destruct (exec_choice preb tr w a) as [[l w1]|] eqn:E; cbn; [|done]. apply IH; [done|]. eapply moves_step; [done|]. by eapply exec_choice_move.
Qed.
Definition exec_program (preb : list (event G) → ctx → g_call G → bool) (acts : list choice) (w0 : Threads G) : list (event G) * Threads G :=
  default ([], w0) (exec_choices preb acts [] w0).
Lemma exec_program_moves preb (pre : list (event G) → ctx → g_call G → Prop) acts w0 : (∀ tr cx c, preb tr cx c = true → pre tr cx c) →
  moves pre w0 (exec_program preb acts w0).1 (exec_program preb acts w0).2.
Proof.
  intros Hpre. unfold exec_program. destruct (exec_choices preb acts [] w0) as [[tr w]|] eqn:E; [|apply moves_nil].
  by apply (exec_choices_moves preb pre w0 acts [] w0 tr w Hpre (moves_nil _ _ _)).
Qed.
End execute.
Global Arguments choice G : clear implicits.
End Threads.
