(* ===== verification/Barrier.v ===== *)
(** * Barrier ([Barrier] of [stk_sync_barrier.h]) with [ConditionVariable] over [Mutex]

    The barrier is the one primitive that waits on a condition variable with a
    real mutex, so it composes three parts: the operations of [Mutex.v] (wait list
    0), the condition variable (wait list 1) and the way [OnTaskWait] of [stk.h]
    releases and takes the mutex around a wait.  Every critical section is a
    step of its own, and the kernel may switch a task out from the moment its
    sleep is scheduled. *)

From S2P Require Import Prelude KernelTask Monitor Mutex Threads.
Import KTask Monitor Threads.
Local Open Scope Z_scope.

Module Barrier.

Inductive EResult := BARRIER_RELEASED | BARRIER_LAST_ARRIVAL | BARRIER_CANCELED | BARRIER_FAILED.
#[global] Instance EResult_eq_dec : EqDecision EResult.
Proof. solve_decision. Defined.

Record Barrier := mkBarrier { m_mutex : Mutex.Mutex; m_count : Z; m_generation : Z }.

Inductive call := CWaitEx.
(** What follows a [Lock()]: the body of the call, or the end of
    [ConditionVariable::WaitEx] with the result of the wait. *)
Inductive after := KBegin | KWaited (gen : Z) (wr : EWaitResult).
Inductive pc :=
| PBegin
| PLock (k : after)                                   (* Lock(), up to the wait *)
| PLockWait (owner_tid : Z) (k : after)               (* waits for the mutex *)
| PLockEnd (owner_tid : Z) (k : after) (r : EWaitResult)
| PBody                                               (* the arrival is counted *)
| PNotify                                             (* the last one wakes the others *)
| PLoop (gen : Z)                                     (* the test of the loop, and OnTaskWait up to ScheduleSleep *)
| PCvUnlock (gen : Z)                                 (* OnTaskWait unlocks the mutex *)
| PCvWait (gen : Z)                                   (* waits for the others *)
| PTest (gen : Z) (wr : EWaitResult)                  (* WaitEx has returned *)
| PUnlock (result : EResult).

Section barrier.
(** [m_threshold], and [GetUserTaskFromTid(tid)->GetWeight()]. *)
Context (m_threshold : Z) (weight : Z → Z).
Notation M := (Mon Barrier).
Notation nxt := (next pc EResult).

Definition Barrier_ctor : res Barrier :=
  assert! negb (m_threshold =? 0); Ok (mkBarrier Mutex.Mutex_ctor m_threshold 0).
Definition GetThreshold : Z := m_threshold.

(** The mutex among the members. *)
Definition mutex_of (m : M) : Mon Mutex.Mutex := mkMon (m_mutex (fields m)) (lists m) (woken m) (services m).
Definition put_mutex (m : M) (x : Mon Mutex.Mutex) : M :=
  mkMon (mkBarrier (fields x) (m_count (fields m)) (m_generation (fields m))) (lists x) (woken x) (services x).

Definition locked (k : after) : pc := match k with KBegin => PBody | KWaited gen wr => PTest gen wr end.
(** [Mutex::Lock()] with a segment of [TimedLockEx(WAIT_INFINITE)]. *)
Definition Lock_segment (k : after) (m : M) (seg : res (Mon Mutex.Mutex * outcome Mutex.pc Mutex.ret)) : res (M * nxt) :=
  '(x, o) ← seg;
  match o with
  | Blocked _ (Mutex.InTimedLockEx owner_tid) => Ok (put_mutex m x, WaitOn 0 (PLockWait owner_tid k))
  | Done (Mutex.RWait r) =>
      again ← Mutex.Lock_again r;
      Ok (put_mutex m x, Goto (match again with None => PLock k | Some _ => locked k end))
  | Done Mutex.RVoid => Panic PANIC_KERNEL
  end.

(** The body of [WaitEx] after [m_mutex.Lock()]. *)
Definition WaitEx_body (m : M) : M * nxt :=
  let s := fields m in
  let gen := m_generation s in
  let count := u32 (m_count s - 1) in
  if count =? 0 then (set_fields (mkBarrier (m_mutex s) m_threshold (u32 (m_generation s + 1))) m, Goto PNotify)
  else (set_fields (mkBarrier (m_mutex s) count gen) m, Goto (PLoop gen)).
(** The test of the loop; the wait of [m_cond.WaitEx(m_mutex, WAIT_INFINITE)] begins
    on the list of the condition variable. *)
Definition WaitEx_loop (cx : ctx) (gen : Z) (m : M) : res (M * nxt) :=
  if gen =? m_generation (fields m) then
    wait ← CV_WaitEx cx WAIT_INFINITE;
    Ok (m, if (wait : bool) then WaitOn 1 (PCvUnlock gen) else Goto (PTest gen WAIT_RESULT_TIMEOUT))
  else Ok (m, Goto (PUnlock BARRIER_RELEASED)).
(** What the loop does with the result of the wait. *)
Definition WaitEx_result (gen : Z) (wr : EWaitResult) (m : M) : M * nxt :=
  let s := fields m in
  if bool_decide (wr ≠ WAIT_RESULT_SIGNAL) then
    if gen =? m_generation s then
      (set_fields (mkBarrier (m_mutex s) (u32 (m_count s + 1)) (m_generation s)) m,
       Goto (PUnlock (if bool_decide (wr = WAIT_RESULT_CANCELED) then BARRIER_CANCELED else BARRIER_FAILED)))
    else (m, Goto (PUnlock BARRIER_RELEASED))
  else (m, Goto (PLoop gen)).

Definition exec_pc (cx : ctx) (p : pc) (m : M) : res (M * nxt) :=
  match p with
  | PBegin => assert! negb (c_isr cx); Ok (m, Goto (PLock KBegin))
  | PLock k => Lock_segment k m (Mutex.TimedLockEx weight cx WAIT_INFINITE (mutex_of m))
  | PLockEnd owner_tid k r => Lock_segment k m (Mutex.TimedLockEx_end cx owner_tid r (mutex_of m))
  | PBody => Ok (WaitEx_body m)
  | PNotify => Ok (WakeAll 1 m, Goto (PUnlock BARRIER_LAST_ARRIVAL))
  | PLoop gen => WaitEx_loop cx gen m
  | PCvUnlock gen => x ← Mutex.Unlock weight cx (mutex_of m); Ok (put_mutex m x, Goto (PCvWait gen))
  | PTest gen wr => Ok (WaitEx_result gen wr m)
  | PUnlock result => x ← Mutex.Unlock weight cx (mutex_of m); Ok (put_mutex m x, Return result)
  | PLockWait _ _ | PCvWait _ => Panic PANIC_KERNEL
  end.
(** The two loops that wait for a wake-up ([BusyWaitWhileSleeping]). *)
Definition resume_pc (p : pc) : option (EWaitResult → pc) :=
  match p with
  | PLockWait owner_tid k => Some (PLockEnd owner_tid k)
  | PCvWait gen => Some (λ wr, PLock (KWaited gen wr))
  | _ => None
  end.
Definition cv_pc (p : pc) : option nat :=
  match p with PLockWait _ _ => Some 0%nat | PCvUnlock _ | PCvWait _ => Some 1%nat | _ => None end.

Definition prog : Program := mkProgram Barrier call pc EResult (λ _, PBegin) cv_pc resume_pc (λ _, false) exec_pc.

(** [Wait()]: whether the caller was the last one. *)
Definition Wait_result (r : EResult) : bool := bool_decide (r = BARRIER_LAST_ARRIVAL).

(** ** The program keeps to the waiting discipline *)

Lemma evolves_mutex (m : M) x : evolves (mutex_of m) x → evolves m (put_mutex m x).
Proof. intros H. by apply (evolves_lift (mutex_of m) x). Qed.
(** What a step may do to the list its task is on. *)
Definition cv_law (p : pc) (n : nxt) : Prop :=
  match n with
  | Goto p' => cv_pc p' = cv_pc p
  | WaitOn cv p' => cv_pc p = None ∧ cv_pc p' = Some cv
  | Return _ => cv_pc p = None
  end.
Lemma segment_law p k (m m' : M) seg n : cv_pc p = None → (∀ x o, seg = Ok (x, o) → evolves (mutex_of m) x) →
  Lock_segment k m seg = Ok (m', n) → evolves m m' ∧ cv_law p n.
Proof.
  intros Hp Hs. unfold Lock_segment. destruct seg as [[x o]|]; cbn [mbind res_bind]; [|done]. specialize (Hs x o eq_refl).
  apply evolves_mutex in Hs. destruct o as [[r|]|to [ow]]; [|done|by intros [= <- <-]].
  destruct (Mutex.Lock_again r) as [[[]|]|]; cbn; [| |done]; intros [= <- <-]; (split; [done|]); cbn; rewrite Hp; [by destruct k|done].
Qed.
Lemma exec_pc_law cx p (m m' : M) n : exec_pc cx p m = Ok (m', n) → evolves m m' ∧ cv_law p n.
Proof.
  assert (HU : ∀ x, Mutex.Unlock weight cx (mutex_of m) = Ok x → evolves m (put_mutex m x)).
  { intros x ?%Mutex.Unlock_evolves. by apply evolves_mutex. }
  destruct p as [|k|ow k|ow k r| | |gen|gen|gen|gen wr|result]; cbn [exec_pc]; try done.
  - intros H. inv_res. split; [eauto with stk|done].
  - apply segment_law; [done|]. intros x o. exact (@enter_evolves _ (Mutex.mutex_lawful weight) cx (Mutex.CTimedLockEx WAIT_INFINITE) _ x o).
  - apply segment_law; [done|]. intros x o. exact (@resume_evolves _ (Mutex.mutex_lawful weight) cx (Mutex.InTimedLockEx ow) r _ x o).
  - unfold WaitEx_body. case_match; intros [= <- <-]; (split; [eauto with stk|done]).
  - intros [= <- <-]. split; [eauto with stk|done].
  - unfold WaitEx_loop, CV_WaitEx. case_match; cbn; [destruct (c_isr cx); cbn; [done|]|]; intros [= <- <-]; (split; [apply evolves_refl|done]).
  - destruct (Mutex.Unlock _ _ _) as [x|] eqn:E; cbn; [|done]. intros [= <- <-]. split; [by apply HU|done].
  - unfold WaitEx_result. intros H. repeat case_match; inv_res; (split; [eauto with stk|done]).
  - destruct (Mutex.Unlock _ _ _) as [x|] eqn:E; cbn; [|done]. intros [= <- <-]. split; [by apply HU|done].
Qed.

#[export] Instance barrier_disciplined : Disciplined prog.
Proof.
  split; cbn; try (intros *; intros [He Hl]%exec_pc_law; (exact He || exact Hl)); [done|].
  intros p k r. destruct p; cbn; intros [= <-]; cbn; eauto.
Qed.

(** ** The mutex *)

(** The points at which a task holds the mutex; it may hold it before it knows. *)
Definition owns (W : gmap Z EWaitResult) (t : Z) (p : pc) : bool :=
  match p with
  | PLockWait _ _ => bool_decide (W !! t = Some WAIT_RESULT_SIGNAL)
  | PLockEnd _ _ r => bool_decide (r = WAIT_RESULT_SIGNAL)
  | PBegin | PLock _ | PCvWait _ => false
  | PBody | PNotify | PLoop _ | PCvUnlock _ | PTest _ _ | PUnlock _ => true
  end.
Notation owner m := (Mutex.m_owner_tid (m_mutex (fields m))).
Notation depth m := (Mutex.m_recursion_count (m_mutex (fields m))).

Record mutex_ok (m : M) (pcs : gmap Z pc) : Prop := {
  mo_depth : depth m = if bool_decide (owner m = TID_NONE) then 0 else 1;
  mo_free : owner m = TID_NONE → wait_list 0 m = [];
  mo_owner : owner m ≠ TID_NONE → ∃ p, pcs !! owner m = Some p ∧ owns (woken m) (owner m) p = true;
  mo_owns t p : pcs !! t = Some p → owns (woken m) t p = true → t = owner m;
  mo_tid t p : pcs !! t = Some p → t ≠ TID_NONE;
}.

(** A wait ends by a signal or by a cancellation. *)
Definition ended (r : EWaitResult) : Prop := r = WAIT_RESULT_SIGNAL ∨ r = WAIT_RESULT_CANCELED.

(** The two outcomes of [Lock()] before its wait. *)
Lemma lock_segment cx k (m : M) pcs : mutex_ok m pcs → pcs !! c_tid cx = Some (PLock k) → c_isr cx = false →
  ∃ x, exec_pc cx (PLock k) m = Ok (put_mutex m x, if bool_decide (owner m = TID_NONE) then Goto (locked k) else WaitOn 0 (PLockWait (owner m) k)) ∧
    fields x = (if bool_decide (owner m = TID_NONE) then Mutex.mkMutex (c_tid cx) 1 else m_mutex (fields m)) ∧ lists x = lists m ∧ woken x = woken m.
Proof.
  intros [Hd Hf Ho Hw Ht] Hp Hi. cbn [exec_pc]. unfold Mutex.TimedLockEx. cbn [fields mutex_of].
  rewrite (proj2 (Z.eqb_neq (c_tid cx) TID_NONE)) by (by eapply Ht). cbn [negb stk_assert]. rewrite Hd, Hi.
  destruct (decide (owner m = TID_NONE)) as [E|E].
  - rewrite bool_decide_eq_true_2 by done. cbn. rewrite E. cbn. by eexists.
  - rewrite bool_decide_eq_false_2 by done. cbn. destruct (owner m =? c_tid cx) eqn:Eo; [|cbn; by eexists].
    apply Z.eqb_eq in Eo. destruct (Ho E) as (p & Hp' & Hown). rewrite Eo in Hp'. rewrite Hp in Hp'. injection Hp' as <-. done.
Qed.
Lemma lock_end_segment cx ow k r (m : M) pcs : mutex_ok m pcs → pcs !! c_tid cx = Some (PLockEnd ow k r) → ended r →
  ∃ x, exec_pc cx (PLockEnd ow k r) m = Ok (put_mutex m x, Goto (if bool_decide (r = WAIT_RESULT_SIGNAL) then locked k else PLock k)) ∧
    fields x = m_mutex (fields m) ∧ lists x = lists m ∧ woken x = woken m.
Proof.
  intros [Hd Hf Ho Hw Ht] Hp Hr. cbn [exec_pc]. unfold Mutex.TimedLockEx_end. cbn [fields mutex_of]. destruct Hr as [-> | ->].
  - change (bool_decide (WAIT_RESULT_SIGNAL ≠ WAIT_RESULT_SIGNAL)) with false. change (bool_decide (WAIT_RESULT_SIGNAL = _)) with true.
    assert (E : c_tid cx = owner m) by (by eapply Hw). rewrite bool_decide_eq_false_2 in Hd by (rewrite <- E; by eapply Ht).
    rewrite <- E, Z.eqb_refl, Hd. cbn. by eexists.
  - assert (E : owner m ≠ c_tid cx).
    { intros E. assert (Hn : owner m ≠ TID_NONE) by (rewrite E; by eapply Ht). destruct (Ho Hn) as (p & Hp' & Hown).
      rewrite E, Hp in Hp'. injection Hp' as <-. done. }
    change (bool_decide (WAIT_RESULT_CANCELED ≠ WAIT_RESULT_SIGNAL)) with true. change (bool_decide (WAIT_RESULT_CANCELED = _)) with false.
    rewrite (proj2 (Z.eqb_neq _ _) E). cbn. eexists. split; [done|]. by destruct (ow =? owner m).
Qed.
(** What [Unlock()] does: the first waiter owns the mutex and is woken. *)
Lemma unlock_segment cx p (m : M) pcs : mutex_ok m pcs → pcs !! c_tid cx = Some p → owns (woken m) (c_tid cx) p = true →
  ∃ x, Mutex.Unlock weight cx (mutex_of m) = Ok x ∧ 
    match wait_list 0 m with
    | [] => fields x = Mutex.mkMutex TID_NONE 0 ∧ lists x = lists m ∧ woken x = woken m
    | u :: l => fields x = Mutex.mkMutex u 1 ∧ lists x = <[0%nat := l]> (lists m) ∧ woken x = <[u := WAIT_RESULT_SIGNAL]> (woken m)
    end.
Proof.
  intros [Hd Hf Ho Hw Ht] Hp Hown. assert (E : c_tid cx = owner m) by (by eapply Hw). assert (Hn : c_tid cx ≠ TID_NONE) by (by eapply Ht).
  rewrite bool_decide_eq_false_2 in Hd by congruence.
  destruct (Mutex.Unlock_eq weight (mutex_of m) cx) as (x & Hx & H); [done|done|cbn [fields mutex_of]; rewrite Hd; unfold Mutex.RECURSION_MAX; lia|].
  exists x. split; [done|]. cbn [fields mutex_of] in H. rewrite Hd in H. cbn [Z.eqb] in H. change (wait_list 0 (mutex_of m)) with (wait_list 0 m) in H.
  destruct (wait_list 0 m); [done|]. by destruct H as (? & _ & ? & ?).
Qed.

(** The mutex stays in order when its owner moves on, when it is taken, when it
    is given up, and when waiters are woken for other reasons. *)
Lemma mutex_ok_move (m m' : M) pcs t p p' : mutex_ok m pcs → pcs !! t = Some p → owns (woken m) t p = owns (woken m) t p' →
  m_mutex (fields m') = m_mutex (fields m) → (owner m = TID_NONE → wait_list 0 m' = []) →
  (∀ u q, <[t := p']> pcs !! u = Some q → owns (woken m') u q = owns (woken m) u q) →
  mutex_ok m' (<[t := p']> pcs).
Proof.
  intros [Hd Hf Ho Hw Ht] Hp E Ef El HW. split; rewrite ?Ef; try done.
  - intros Hn. destruct (Ho Hn) as (q & Hq & Hown). destruct (decide (t = owner m)) as [->|Hne].
    + exists p'. rewrite lookup_insert_eq. split; [done|]. rewrite HW by (by rewrite lookup_insert_eq). rewrite Hp in Hq. injection Hq as ->. congruence.
    + exists q. rewrite lookup_insert_ne by done. split; [done|]. by rewrite HW by (by rewrite lookup_insert_ne).
  - intros u q Hq. rewrite (HW u q Hq). destruct (decide (t = u)) as [<-|Hne].
    + rewrite lookup_insert_eq in Hq. injection Hq as ->. rewrite <- E. by apply Hw.
    + rewrite lookup_insert_ne in Hq by done. by apply Hw.
  - intros u q. destruct (decide (t = u)) as [<-|Hne]; [intros _; by eapply Ht|]. rewrite lookup_insert_ne by done. apply Ht.
Qed.
Lemma mutex_ok_take (m m' : M) pcs t p p' : mutex_ok m pcs → pcs !! t = Some p → owner m = TID_NONE → 
  m_mutex (fields m') = Mutex.mkMutex t 1 → woken m' = woken m → owns (woken m) t p' = true → mutex_ok m' (<[t := p']> pcs).
Proof.
  intros [Hd Hf Ho Hw Ht] Hp E Ef EW Hown. assert (Hn : t ≠ TID_NONE) by (by eapply Ht). split; rewrite ?Ef, ?EW; cbn.
  - by rewrite bool_decide_eq_false_2.
  - done.
  - intros _. exists p'. by rewrite lookup_insert_eq.
  - intros u q. destruct (decide (t = u)) as [<-|Hne]; [done|]. rewrite lookup_insert_ne by done. intros Hq Hu.
    exfalso. eapply Ht; [exact Hq|]. rewrite (Hw u q Hq Hu). done.
  - intros u q. destruct (decide (t = u)) as [<-|Hne]; [done|]. rewrite lookup_insert_ne by done. apply Ht.
Qed.

(** ** Who takes part in which generation *)

Definition gen_of (p : pc) : option Z :=
  match p with
  | PLock (KWaited gen _) | PLockWait _ (KWaited gen _) | PLockEnd _ (KWaited gen _) _
  | PLoop gen | PCvUnlock gen | PCvWait gen | PTest gen _ => Some gen
  | _ => None
  end.
(** The tasks that have arrived and wait for generation [cur] to be complete; those
    that were let through, and have not returned yet; the last arrival of one. *)
Definition member (cur : Z) (p : pc) : bool := bool_decide (gen_of p = Some cur).
Definition leaving (cur : Z) (p : pc) : bool :=
  match p with
  | PNotify | PUnlock BARRIER_RELEASED | PUnlock BARRIER_LAST_ARRIVAL => true
  | _ => match gen_of p with Some gen => negb (gen =? cur) | None => false end
  end.
Definition last (p : pc) : bool := match p with PNotify | PUnlock BARRIER_LAST_ARRIVAL => true | _ => false end.
Definition notifying (p : pc) : bool := match p with PNotify => true | _ => false end.

(** The calls that returned [r], and the number of times the barrier was opened. *)
Definition returned (r : EResult) (e : event prog) : Z :=
  match e with EvRun _ _ (Some r') => if bool_decide (r' = r) then 1 else 0 | _ => 0 end.
Definition notified (e : event prog) : Z := match e with EvRun _ PNotify _ => 1 | _ => 0 end.
Definition returns (r : EResult) (tr : list (event prog)) : Z := tally (returned r) tr.
Definition openings (tr : list (event prog)) : Z := tally notified tr.

Lemma returns_nonneg r tr : 0 ≤ returns r tr.
Proof.
  unfold returns. induction tr as [|e tr IH] using rev_ind; [done|]. rewrite tally_snoc.
  destruct e as [| ? ? [r'|]| | | |]; cbn; try lia. case_bool_decide; lia.
Qed.

Definition results_ok (m : M) (pcs : gmap Z pc) : Prop :=
  (∀ t r, woken m !! t = Some r → ended r) ∧
  (∀ t ow k r, pcs !! t = Some (PLockEnd ow k r) → ended r).

Record count_ok (tr : list (event prog)) (m : M) (pcs : gmap Z pc) : Prop := {
  co_count : 1 ≤ m_count (fields m) ≤ m_threshold;
  co_members : m_count (fields m) + blocked_as (member (m_generation (fields m))) pcs = m_threshold;
  co_gens t p g : pcs !! t = Some p → gen_of p = Some g → 0 ≤ g ≤ m_generation (fields m);
  co_through : m_threshold * m_generation (fields m) =
    returns BARRIER_RELEASED tr + returns BARRIER_LAST_ARRIVAL tr + blocked_as (leaving (m_generation (fields m))) pcs;
  co_lasts : m_generation (fields m) = returns BARRIER_LAST_ARRIVAL tr + blocked_as last pcs;
  co_open : m_generation (fields m) = openings tr + blocked_as notifying pcs;
  co_listed t : t ∈ wait_list 1 m → (∃ p, pcs !! t = Some p ∧ gen_of p = Some (m_generation (fields m))) ∨ ∃ u, pcs !! u = Some PNotify;
}.

Lemma mutex_ok_unlock (m m' : M) pcs t p po : mutex_ok m pcs → pcs !! t = Some p → owns (woken m) t p = true → cv_pc p ≠ Some 0%nat →
  (∀ p', po = Some p' → owns (woken m') t p' = false) →
  (∀ u, u ∈ wait_list 0 m → ∃ ow k, pcs !! u = Some (PLockWait ow k)) →
  match wait_list 0 m with
  | [] => m_mutex (fields m') = Mutex.mkMutex TID_NONE 0 ∧ lists m' = lists m ∧ woken m' = woken m
  | u :: l => m_mutex (fields m') = Mutex.mkMutex u 1 ∧ lists m' = <[0%nat := l]> (lists m) ∧ woken m' = <[u := WAIT_RESULT_SIGNAL]> (woken m)
  end → mutex_ok m' (put t po pcs).
Proof.
  intros [Hd Hf Ho Hw Ht] Hp Hown Hcv Hpo Hl H. assert (Et : t = owner m) by (by eapply Hw).
  assert (Hno : ∀ u q, u ≠ t → pcs !! u = Some q → owns (woken m) u q = false).
  { intros u q Hu Hq. destruct (owns (woken m) u q) eqn:E; [|done]. specialize (Hw u q Hq E). congruence. }
  assert (Hid : ∀ u q, put t po pcs !! u = Some q → u ≠ TID_NONE).
  { intros u q. rewrite pcs_put_lookup. destruct (decide (t = u)) as [<-|Htu]; [intros _; by eapply Ht|apply Ht]. }
  destruct (wait_list 0 m) as [|x l] eqn:El; destruct H as (Ef & EL & EW); split; rewrite ?Ef, ?EW; cbn; try done.
  - intros _. unfold wait_list in *. by rewrite EL.
  - intros u q. rewrite pcs_put_lookup. destruct (decide (t = u)) as [<-|Htu]; [intros Hq; rewrite <- EW, (Hpo q Hq); done|].
    intros Hq. by rewrite Hno.
  - rewrite bool_decide_eq_false_2; [done|]. destruct (Hl x) as (ow & k & Hx); [left|]. by eapply Ht.
  - intros ->. destruct (Hl TID_NONE) as (ow & k & Hx); [left|]. by destruct (Ht _ _ Hx).
  - intros _. destruct (Hl x) as (ow & k & Hx); [left|]. exists (PLockWait ow k). rewrite pcs_put_lookup.
    rewrite decide_False by (intros <-; rewrite Hp in Hx; injection Hx as ->; by apply Hcv). split; [done|]. cbn. by rewrite lookup_insert_eq.
  - intros u q. rewrite pcs_put_lookup. destruct (decide (t = u)) as [<-|Htu]; [intros Hq; rewrite <- EW, (Hpo q Hq); done|].
    intros Hq. destruct (decide (x = u)) as [->|Hxu]; [done|].
    assert (E : owns (<[x := WAIT_RESULT_SIGNAL]> (woken m)) u q = owns (woken m) u q) by (destruct q; cbn; by rewrite ?lookup_insert_ne).
    rewrite E, Hno; done.
Qed.

(** A step that opens nothing keeps the counts in order. *)
Lemma count_step tr (m m' : M) pcs t p po e : count_ok tr m pcs → pcs !! t = Some p →
  let cur := m_generation (fields m) in
  m_generation (fields m') = cur →
  m_count (fields m') = m_count (fields m) + b2z (member cur p) - at_point (member cur) po → 1 ≤ m_count (fields m') ≤ m_threshold →
  (∀ p' g, po = Some p' → gen_of p' = Some g → 0 ≤ g ≤ cur) →
  returned BARRIER_RELEASED e + returned BARRIER_LAST_ARRIVAL e = b2z (leaving cur p) - at_point (leaving cur) po →
  returned BARRIER_LAST_ARRIVAL e = b2z (last p) - at_point last po →
  notified e = b2z (notifying p) - at_point notifying po →
  (∀ u, u ∈ wait_list 1 m' → p ≠ PNotify ∧ (u ∈ wait_list 1 m ∧ (u = t → ∃ p', po = Some p' ∧ gen_of p' = gen_of p) ∨
     u = t ∧ ∃ p', po = Some p' ∧ gen_of p' = Some cur)) →
  count_ok (tr ++ [e]) m' (put t po pcs).
Proof.
  intros [H1 H2 H3 H4 H5 H6 H7] Hp cur Eg Ec Hb Hg Hr Hl Hn Hlist. fold cur in H2, H3, H4, H5, H6, H7.
  split; unfold returns, openings; rewrite ?tally_snoc, ?Eg, ?(blocked_put _ _ _ _ po Hp); fold cur; unfold returns, openings in *; try lia.
  - intros u q g. rewrite pcs_put_lookup. case_decide; [intros ->; eauto|apply H3].
  - intros u Hu. destruct (Hlist u Hu) as (Hnp & Hc). setoid_rewrite pcs_put_lookup.
    destruct Hc as [[Hin Ht]|(-> & p' & -> & Hp')]; [|left; exists p'; by rewrite decide_True].
    destruct (H7 u Hin) as [(q & Hq & Hgq)|(v & Hv)].
    + left. destruct (decide (t = u)) as [<-|Hne]; [|by exists q]. destruct (Ht eq_refl) as (p' & -> & E). exists p'.
      split; [done|]. rewrite E. congruence.
    + right. exists v. rewrite decide_False; [done|]. intros <-. congruence.
Qed.

(** The last arrival opens the barrier: everybody who waits may go. *)
Lemma count_open tr (m m' : M) pcs t e : count_ok tr m pcs → pcs !! t = Some PBody → m_count (fields m) = 1 →
  m_generation (fields m') = m_generation (fields m) + 1 → m_count (fields m') = m_threshold →
  returned BARRIER_RELEASED e = 0 → returned BARRIER_LAST_ARRIVAL e = 0 → notified e = 0 →
  count_ok (tr ++ [e]) m' (put t (Some PNotify) pcs).
Proof.
  intros [H1 H2 H3 H4 H5 H6 H7] Hp E1 Eg Ec Hr Hl Hn. set (cur := m_generation (fields m)) in *.
  assert (Hz : blocked_as (member (cur + 1)) pcs = 0).
  { destruct (Z.lt_total 0 (blocked_as (member (cur + 1)) pcs)) as [Hlt|[?|?]]; [|done|pose proof (blocked_nonneg (member (cur + 1)) pcs); lia].
    apply blocked_pos_inv in Hlt as (u & q & Hq & Hm%bool_decide_eq_true). specialize (H3 u q _ Hq Hm). lia. }
  assert (Hs : blocked_as (leaving (cur + 1)) pcs = blocked_as (leaving cur) pcs + blocked_as (member cur) pcs).
  { apply blocked_split. intros u q Hq. unfold leaving, member. destruct (gen_of q) as [g|] eqn:E.
    - assert (0 ≤ g ≤ cur) by (by eapply H3). rewrite (proj2 (Z.eqb_neq g (cur + 1))) by lia.
      destruct (Z.eqb_spec g cur) as [->|Hne].
      + rewrite bool_decide_eq_true_2 by done. destruct q as [| | | | | | | | | |[]]; done.
      + rewrite bool_decide_eq_false_2 by congruence. destruct q as [| | | | | | | | | |[]]; done.
    - rewrite bool_decide_eq_false_2 by done. by destruct q as [| | | | | | | | | |[]]. }
  assert (Hp' := Hp). split; unfold returns, openings in *; rewrite ?tally_snoc, ?Eg, ?(blocked_put _ _ _ _ (Some PNotify) Hp), ?Hz, ?Hs;
    cbn [b2z at_point leaving member gen_of last notifying]; try lia.
  - unfold member. cbn [gen_of]. rewrite !bool_decide_eq_false_2 by done. cbn. lia.
  - intros u q g. rewrite pcs_put_lookup. case_decide; [intros [= <-]; done|]. intros Hq Hg. specialize (H3 u q g Hq Hg). lia.
  - intros u _. right. exists t. by rewrite pcs_put_lookup, decide_True.
Qed.

(** A step at which the task neither arrives nor leaves. *)
Lemma count_keep tr (m m' : M) pcs t p p' e : count_ok tr m pcs → pcs !! t = Some p →
  m_generation (fields m') = m_generation (fields m) → m_count (fields m') = m_count (fields m) →
  gen_of p' = gen_of p → (∀ cur, leaving cur p' = leaving cur p) → last p' = last p → notifying p = false → notifying p' = false →
  returned BARRIER_RELEASED e = 0 → returned BARRIER_LAST_ARRIVAL e = 0 → notified e = 0 →
  (∀ u, u ∈ wait_list 1 m' → u ∈ wait_list 1 m) → count_ok (tr ++ [e]) m' (<[t := p']> pcs).
Proof.
  intros Hc Hp Eg Ec E1 E2 E3 E4 E5 R1 R2 R3 Hl. apply (count_step tr m m' pcs t p (Some p') e); try done.
  - cbn. unfold member. rewrite E1. lia.
  - rewrite Ec. apply (co_count _ _ _ Hc).
  - intros q g [= <-]. rewrite E1. by eapply co_gens.
  - cbn. rewrite E2. lia.
  - cbn. rewrite E3. lia.
  - cbn. rewrite E4, E5. cbn. lia.
  - intros u Hu. split; [by intros ->|]. left. split; [auto|]. intros ->. eauto.
Qed.

Record barrier_inv (tr : list (event prog)) (m : M) (pcs : gmap Z pc) : Prop := {
  bi_results : results_ok m pcs;
  bi_mutex : mutex_ok m pcs;
  bi_count : count_ok tr m pcs;
}.

Definition u32_threshold : Prop := 1 ≤ m_threshold < 2 ^ 32.

Lemma results_put (m m' : M) pcs t po : results_ok m pcs → (∀ u r, woken m' !! u = Some r → woken m !! u = Some r ∨ r = WAIT_RESULT_SIGNAL) →
  (∀ ow k r, po = Some (PLockEnd ow k r) → ended r) → results_ok m' (put t po pcs).
Proof.
  intros [H1 H2] HW Hpo. split.
  - intros u r Hr. destruct (HW u r Hr) as [?| ->]; [eauto|by left].
  - intros u ow k r. rewrite pcs_put_lookup. case_decide; [apply Hpo|apply H2].
Qed.

Section steps.
Context (tr : list (event prog)) (m : M) (pcs : gmap Z pc) (off : gset Z) (cx : ctx).
Notation w := (mkThreads (G := prog) m pcs off).
Notation t := (c_tid cx).
Context (Hwf : threads_wf w) (Hi : barrier_inv tr m pcs) (Hisr : c_isr cx = false).

Lemma at_quiet p : pcs !! t = Some p → cv_pc p = None → woken m !! t = None ∧ ∀ cv, t ∉ wait_list cv m.
Proof. exact (wf_not_waiting w t p Hwf). Qed.
Lemma at_list cv u : u ∈ wait_list cv m → woken m !! u = None ∧ ∃ p, pcs !! u = Some p ∧ cv_pc p = Some cv.
Proof. exact (wf_list w cv u Hwf). Qed.

(** The task [t] executes the step at [p]. *)
Definition step_post (p : pc) : Prop :=
  ∃ m' n, exec_pc cx p m = Ok (m', n) ∧
    let w' := proceed (G := prog) t m' n w in
    barrier_inv (tr ++ [EvRun (G := prog) t p (result_of (G := prog) n)]) (t_mon w') (t_pcs w').

(** Nothing but the position of the task changes. *)
Lemma step_quiet p p' : pcs !! t = Some p → exec_pc cx p m = Ok (m, Goto p') → owns (woken m) t p = owns (woken m) t p' →
  gen_of p' = gen_of p → (∀ cur, leaving cur p' = leaving cur p) → last p' = last p → notifying p = false → notifying p' = false →
  (∀ ow k r, p' ≠ PLockEnd ow k r) → step_post p.
Proof.
  intros Hp E Eo E1 E2 E3 E4 E5 Hne. destruct Hi as [Hr Hm Hc]. exists m, (Goto p'). split; [done|]. cbn. split.
  - apply (results_put m m pcs t (Some p')); [done|auto|]. intros ow k r [= ->]. by destruct (Hne ow k r).
  - apply (mutex_ok_move m m pcs t p p'); try done. by apply (mo_free _ _ Hm).
  - apply (count_keep tr m m pcs t p p'); try done. by destruct p.
Qed.

Lemma step_begin : pcs !! t = Some PBegin → step_post PBegin.
Proof. intros Hp. apply (step_quiet PBegin (PLock KBegin)); try done. cbn. by rewrite Hisr. Qed.

Lemma step_lock k : pcs !! t = Some (PLock k) → step_post (PLock k).
Proof.
  intros Hp. destruct Hi as [Hr Hm Hc]. destruct (lock_segment cx k m pcs Hm Hp Hisr) as (x & E & Ef & El & EW).
  eexists _, _. split; [exact E|]. case_bool_decide as Ho; cbn.
  - split.
    + apply (results_put m _ pcs t (Some (locked k))); [done| |destruct k; done]. cbn. rewrite EW. auto.
    + apply (mutex_ok_take m _ pcs t (PLock k)); try done. by destruct k.
    + apply (count_keep tr m _ pcs t (PLock k)); try done; try (by destruct k). unfold wait_list. cbn. by rewrite El.
  - split.
    + apply (results_put m _ pcs t (Some (PLockWait _ k))); [done| |done]. cbn. rewrite EW. auto.
    + apply (mutex_ok_move m _ pcs t (PLock k)); try done; cbn; rewrite ?EW; try done.
      cbn. destruct (at_quiet _ Hp eq_refl) as [Hn _]. by rewrite Hn.
    + apply (count_keep tr m _ pcs t (PLock k)); try done; try (by destruct k).
      intros u. rewrite wait_list_Add, decide_False by done. unfold wait_list. cbn. by rewrite El.
Qed.

Lemma step_lock_end ow k r : pcs !! t = Some (PLockEnd ow k r) → step_post (PLockEnd ow k r).
Proof.
  intros Hp. destruct Hi as [Hr Hm Hc]. destruct (lock_end_segment cx ow k r m pcs Hm Hp) as (x & E & Ef & El & EW); [by eapply Hr|].
  eexists _, _. split; [exact E|]. cbn. set (p' := if bool_decide _ then _ else _).
  assert (Hk : gen_of p' = gen_of (PLockEnd ow k r) ∧ (∀ cur, leaving cur p' = leaving cur (PLockEnd ow k r)) ∧ last p' = false ∧ notifying p' = false ∧
    (∀ W, owns W t p' = owns W t (PLockEnd ow k r)) ∧ ∀ a b c, p' ≠ PLockEnd a b c).
  { subst p'. cbn [owns]. case_bool_decide; destruct k; done. }
  destruct Hk as (K1 & K2 & K3 & K4 & K5 & K6). split.
  - apply (results_put m _ pcs t (Some p')); [done|cbn; rewrite EW; auto|]. intros a b c [= ->]. by destruct (K6 a b c).
  - apply (mutex_ok_move m _ pcs t (PLockEnd ow k r)); try done; cbn; rewrite ?EW; try done.
    intros Ho. unfold wait_list. cbn. rewrite El. by apply (mo_free _ _ Hm).
  - apply (count_keep tr m _ pcs t (PLockEnd ow k r)); try done. unfold wait_list. cbn. by rewrite El.
Qed.

(** The body: the arrival is counted, and the last one opens the barrier. *)
Lemma step_body : u32_threshold → openings tr < 2 ^ 32 - 1 → pcs !! t = Some PBody → step_post PBody.
Proof.
  intros Hth Hop Hp. destruct Hi as [Hr Hm Hc]. unfold step_post. cbn [exec_pc]. unfold WaitEx_body. pose proof (co_count _ _ _ Hc) as Hcnt.
  assert (Hown : ∀ u, pcs !! u = Some PNotify → u = t).
  { intros u Hu. rewrite (mo_owns _ _ Hm u _ Hu eq_refl). symmetry. by apply (mo_owns _ _ Hm t PBody). }
  assert (Hz : blocked_as notifying pcs = 0).
  { destruct (Z.lt_total 0 (blocked_as notifying pcs)) as [Hlt|[?|?]]; [|done|pose proof (blocked_nonneg notifying pcs); lia].
    apply blocked_pos_inv in Hlt as (u & q & Hq & Hn). destruct q; try done. rewrite (Hown u Hq) in Hq. congruence. }
  assert (Hg := co_open _ _ _ Hc). rewrite Hz in Hg.
  assert (Eu : u32 (m_count (fields m) - 1) = m_count (fields m) - 1) by (unfold u32, u32_threshold in *; apply Z.mod_small; lia).
  assert (Hg0 : 0 ≤ m_generation (fields m)) by (rewrite (co_lasts _ _ _ Hc); pose proof (blocked_nonneg last pcs); pose proof (returns_nonneg BARRIER_LAST_ARRIVAL tr); lia).
  assert (Eg : u32 (m_generation (fields m) + 1) = m_generation (fields m) + 1) by (unfold u32; apply Z.mod_small; lia).
  rewrite Eu, Eg. destruct (m_count (fields m) - 1 =? 0) eqn:E; (eexists _, _; split; [reflexivity|]); cbn; split.
  - by apply (results_put m _ pcs t (Some PNotify)); [done|auto|].
  - apply (mutex_ok_move m _ pcs t PBody); try done. by apply (mo_free _ _ Hm).
  - apply (count_open tr m _ pcs t); try done. apply Z.eqb_eq in E. lia.
  - by apply (results_put m _ pcs t (Some (PLoop _))); [done|auto|].
  - apply (mutex_ok_move m _ pcs t PBody); try done. by apply (mo_free _ _ Hm).
  - apply Z.eqb_neq in E. apply (count_step tr m _ pcs t PBody (Some (PLoop (m_generation (fields m))))); try done; cbn; rewrite ?Z.eqb_refl; try done.
    + unfold member. cbn. rewrite (bool_decide_eq_false_2 (None = _)), bool_decide_eq_true_2 by done. cbn. lia.
    + lia.
    + intros p' g [= <-] [= <-]. lia.
    + intros u Hu. split; [done|]. left. split; [done|]. intros ->. by destruct (proj2 (at_quiet _ Hp eq_refl) 1%nat).
Qed.

Lemma step_notify : pcs !! t = Some PNotify → step_post PNotify.
Proof.
  intros Hp. destruct Hi as [Hr Hm Hc]. eexists _, _. cbn [exec_pc]. split; [reflexivity|]. cbn. split.
  - apply (results_put m _ pcs t (Some _)); [done| |done]. intros u r. rewrite woken_WakeAll. case_decide; [intros [= <-]; by right|by left].
  - apply (mutex_ok_move m _ pcs t PNotify); try done; rewrite ?fields_WakeAll; try done.
    + intros Ho. rewrite wait_list_WakeAll. cbn. by apply (mo_free _ _ Hm).
    + intros u q Hq. destruct q; try done. cbn. rewrite woken_WakeAll. case_decide as Hu; [|done]. apply at_list in Hu as (_ & q & Hq' & Hcv).
      rewrite lookup_insert_ne in Hq by (intros <-; rewrite Hp in Hq'; injection Hq' as <-; done). rewrite Hq in Hq'. injection Hq' as <-. done.
  - apply (count_step tr m _ pcs t PNotify (Some (PUnlock BARRIER_LAST_ARRIVAL))); try done; rewrite ?fields_WakeAll; try done.
    + unfold member. cbn. lia.
    + apply (co_count _ _ _ Hc).
    + by intros p' g [= <-].
    + intros u. rewrite wait_list_WakeAll. cbn. by intros ?%not_elem_of_nil.
Qed.

(** A task finds that its generation is over. *)
Lemma step_released p g : pcs !! t = Some p → gen_of p = Some g → g ≠ m_generation (fields m) → owns (woken m) t p = true → cv_pc p = None →
  exec_pc cx p m = Ok (m, Goto (PUnlock BARRIER_RELEASED)) → step_post p.
Proof.
  intros Hp Hg Hne Hown Hcv E. destruct Hi as [Hr Hm Hc]. exists m, (Goto (PUnlock BARRIER_RELEASED)). split; [done|]. cbn.
  assert (Hnp : notifying p = false) by (by destruct p).
  split.
  - by apply (results_put m _ pcs t (Some (PUnlock _))); [done|auto|].
  - apply (mutex_ok_move m _ pcs t p); try done. by apply (mo_free _ _ Hm).
  - apply (count_step tr m _ pcs t p (Some (PUnlock BARRIER_RELEASED))); try done; cbn.
    + unfold member. rewrite Hg, bool_decide_eq_false_2 by congruence. cbn. rewrite bool_decide_eq_false_2 by done. cbn. lia.
    + apply (co_count _ _ _ Hc).
    + intros p' g' [= <-]. done.
    + destruct p as [|k|ow k|ow k r| | |gen|gen|gen|gen wr|[]]; try done; cbn in *; try injection Hg as ->;
        try (destruct k; [done|]; injection Hg as ->); rewrite (proj2 (Z.eqb_neq _ _) Hne); done.
    + by destruct p as [| | | | | | | | | |[]].
    + by destruct p.
    + intros u Hu. split; [by intros ->|]. left. split; [done|]. intros ->. by destruct (proj2 (at_quiet _ Hp Hcv) 1%nat).
Qed.

Lemma step_loop gen : pcs !! t = Some (PLoop gen) → step_post (PLoop gen).
Proof.
  intros Hp. destruct (gen =? m_generation (fields m)) eqn:E.
  - apply Z.eqb_eq in E. destruct Hi as [Hr Hm Hc]. destruct (at_quiet _ Hp eq_refl) as [Hn Hl]. eexists _, _. cbn [exec_pc]. unfold WaitEx_loop, CV_WaitEx.
    rewrite E, Z.eqb_refl, Hisr. split; [reflexivity|]. cbn. split.
    + by apply (results_put m _ pcs t (Some (PCvUnlock _))); [done|auto|].
    + apply (mutex_ok_move m _ pcs t (PLoop gen)); try done. rewrite wait_list_Add. by apply (mo_free _ _ Hm).
    + apply (count_step tr m _ pcs t (PLoop gen) (Some (PCvUnlock (m_generation (fields m))))); try done; cbn; rewrite ?E, ?Z.eqb_refl; try done.
      * unfold member. cbn. lia.
      * apply (co_count _ _ _ Hc).
      * intros p' g [= <-] [= <-]. pose proof (co_gens _ _ _ Hc t _ gen Hp eq_refl). lia.
      * intros u. rewrite wait_list_Add. cbn. intros [Hu| ->%list_elem_of_singleton]%elem_of_app; (split; [done|]); [|right; eauto].
        left. split; [done|]. intros ->. by destruct (Hl 1%nat).
  - apply (step_released _ gen); try done; [by apply Z.eqb_neq|]. cbn. unfold WaitEx_loop. by rewrite E.
Qed.

Lemma step_test gen wr : u32_threshold → pcs !! t = Some (PTest gen wr) → step_post (PTest gen wr).
Proof.
  intros Hth Hp. destruct (decide (wr = WAIT_RESULT_SIGNAL)) as [->|Hne].
  { by apply (step_quiet _ (PLoop gen)). }
  destruct (gen =? m_generation (fields m)) eqn:E.
  - assert (Eg := E). apply Z.eqb_eq in Eg. destruct Hi as [Hr Hm Hc]. unfold step_post. cbn [exec_pc]. unfold WaitEx_result.
    rewrite bool_decide_eq_true_2, E by done. eexists _, _. split; [reflexivity|]. cbn.
    set (res := if bool_decide _ then _ else _). assert (Hres : res = BARRIER_CANCELED ∨ res = BARRIER_FAILED) by (subst res; case_bool_decide; auto).
    assert (Hpos : 0 < blocked_as (member (m_generation (fields m))) pcs) by (eapply blocked_pos; [exact Hp|]; cbn; rewrite Eg; by apply bool_decide_eq_true).
    pose proof (co_count _ _ _ Hc). pose proof (co_members _ _ _ Hc).
    assert (Eu : u32 (m_count (fields m) + 1) = m_count (fields m) + 1) by (unfold u32, u32_threshold in *; apply Z.mod_small; lia).
    split.
    + by apply (results_put m _ pcs t (Some (PUnlock _))); [done|auto|].
    + apply (mutex_ok_move m _ pcs t (PTest gen wr)); try done. by apply (mo_free _ _ Hm).
    + apply (count_step tr m _ pcs t (PTest gen wr) (Some (PUnlock res))); try done; cbn; rewrite ?Eu, ?E; try done.
      * unfold member. cbn. rewrite Eg, bool_decide_eq_true_2, bool_decide_eq_false_2 by done. cbn. lia.
      * lia.
      * intros p' g [= <-]. done.
      * by destruct Hres as [-> | ->].
      * by destruct Hres as [-> | ->].
      * intros u Hu. split; [done|]. left. split; [done|]. intros ->. by destruct (proj2 (at_quiet _ Hp eq_refl) 1%nat).
  - apply (step_released _ gen); try done; [by apply Z.eqb_neq|]. cbn. unfold WaitEx_result. by rewrite bool_decide_eq_true_2, E.
Qed.

(** The task gives up the mutex, to wait or to return. *)
Lemma unlock_parts p po : pcs !! t = Some p → owns (woken m) t p = true → cv_pc p ≠ Some 0%nat →
  (∀ p', po = Some p' → cv_pc p' = Some 1%nat ∧ owns ∅ t p' = false) →
  ∃ x, Mutex.Unlock weight cx (mutex_of m) = Ok x ∧ results_ok (put_mutex m x) (put t po pcs) ∧ mutex_ok (put_mutex m x) (put t po pcs) ∧
    wait_list 1 (put_mutex m x) = wait_list 1 m.
Proof.
  intros Hp Hown Hcv Hpo. destruct Hi as [Hr Hm Hc]. destruct (unlock_segment cx p m pcs Hm Hp Hown) as (x & E & Hx).
  exists x. split; [done|]. split_and!.
  - apply (results_put m _ pcs t po); [done| |intros ow k r Hq; by destruct (Hpo _ Hq)]. cbn. intros u r.
    destruct (wait_list 0 m); destruct Hx as (_ & _ & ->); [by left|]. destruct (decide (z = u)) as [<-|]; [rewrite lookup_insert_eq; intros [= <-]; by right|].
    rewrite lookup_insert_ne by done. by left.
  - apply (mutex_ok_unlock m _ pcs t p po); try done.
    + intros p' Hq. destruct (Hpo p' Hq). by destruct p'.
    + intros u (_ & q & Hq & Hcq)%at_list. destruct q; try done. eauto.
  - unfold wait_list at 1. cbn. destruct (wait_list 0 m); destruct Hx as (_ & -> & _); [done|]. by rewrite lookup_insert_ne.
Qed.
Lemma step_cv_unlock gen : pcs !! t = Some (PCvUnlock gen) → step_post (PCvUnlock gen).
Proof.
  intros Hp. destruct (unlock_parts (PCvUnlock gen) (Some (PCvWait gen)) Hp) as (x & E & H1 & H2 & H3); try done; [by intros p' [= <-]|].
  eexists _, _. cbn [exec_pc]. rewrite E. split; [reflexivity|]. cbn. split; [done|done|].
  apply (count_keep tr m _ pcs t (PCvUnlock gen)); try done; [apply Hi|]. by rewrite H3.
Qed.
Lemma step_unlock r : pcs !! t = Some (PUnlock r) → step_post (PUnlock r).
Proof.
  intros Hp. destruct (unlock_parts (PUnlock r) None Hp) as (x & E & H1 & H2 & H3); try done.
  eexists _, _. cbn [exec_pc]. rewrite E. split; [reflexivity|]. cbn. split; [done|done|].
  apply (count_step tr m _ pcs t (PUnlock r) None); try done; try (by destruct r); try apply Hi.
  - unfold member. cbn. rewrite bool_decide_eq_false_2 by done. cbn. lia.
  - rewrite H3. intros u Hu. split; [done|]. left. split; [done|]. intros ->. by destruct (proj2 (at_quiet _ Hp eq_refl) 1%nat).
Qed.

(** No step fails, and every step keeps the invariant. *)
Lemma barrier_step_ok p : u32_threshold → openings tr < 2 ^ 32 - 1 → pcs !! t = Some p → resume_pc p = None → step_post p.
Proof.
  intros Hth Hop Hp Hres. destruct p; try done; auto using step_begin, step_lock, step_lock_end, step_body, step_notify, step_loop, step_cv_unlock, step_test, step_unlock.
Qed.
End steps.

(** ** The other moves *)

Section moves.
Context (tr : list (event prog)) (m : M) (pcs : gmap Z pc) (off : gset Z).
Notation w := (mkThreads (G := prog) m pcs off).
Context (Hwf : threads_wf w) (Hi : barrier_inv tr m pcs).

Lemma call_ok t : t ≠ TID_NONE → pcs !! t = None → barrier_inv (tr ++ [EvCall (G := prog) t CWaitEx]) m (<[t := PBegin]> pcs).
Proof.
  intros Ht Hn. destruct Hi as [[R1 R2] [Hd Hf Ho Hw Hid] [H1 H2 H3 H4 H5 H6 H7]].
  assert (Hl : ∀ u q, <[t := PBegin]> pcs !! u = Some q → (u = t ∧ q = PBegin) ∨ pcs !! u = Some q).
  { intros u q. destruct (decide (t = u)) as [<-|]; [rewrite lookup_insert_eq; intros [= <-]; by left|rewrite lookup_insert_ne by done; by right]. }
  assert (Hk : ∀ u q, pcs !! u = Some q → <[t := PBegin]> pcs !! u = Some q) by (intros; by rewrite lookup_insert_ne by congruence).
  split; [split|split|split]; unfold returns, openings; rewrite ?tally_snoc, ?(blocked_insert _ pcs t PBegin Hn); cbn; try done; try (fold (returns BARRIER_RELEASED tr); fold (returns BARRIER_LAST_ARRIVAL tr); fold (openings tr); lia).
  - intros u ow k r [[_ [=]]|Hu]%Hl. by eapply R2.
  - intros E. destruct (Ho E) as (q & Hq & ?). eauto.
  - intros u q [[_ ->]|Hu]%Hl; [done|eauto].
  - intros u q [[-> _]|Hu]%Hl; [done|eauto].
  - unfold member. cbn. rewrite bool_decide_eq_false_2 by done. fold (member (m_generation (fields m))). lia.
  - intros u q g [[_ ->]|Hu]%Hl; [done|eauto].
  - intros u Hu. destruct (H7 u Hu) as [(q & Hq & ?)|(v & Hv)]; eauto.
Qed.

Lemma wake_ok t p k r : pcs !! t = Some p → resume_pc p = Some k → woken m !! t = Some r →
  barrier_inv (tr ++ [EvWake (G := prog) t p r]) (take_woken t m) (<[t := k r]> pcs).
Proof.
  intros Hp Hk Hr. destruct Hi as [HR Hm Hc]. assert (Hlist : ∀ u, u ∈ wait_list 1 (take_woken t m) → u ∈ wait_list 1 m) by done.
  assert (HW : ∀ u, u ≠ t → woken (take_woken t m) !! u = woken m !! u) by (intros; cbn; by rewrite lookup_delete_ne).
  assert (Hown : ∀ u q, <[t := k r]> pcs !! u = Some q → (∀ ow k', k r ≠ PLockWait ow k') → owns (woken (take_woken t m)) u q = owns (woken m) u q).
  { intros u q Hq Hne. destruct q; try done. cbn [owns]. rewrite HW; [done|]. intros ->. rewrite lookup_insert_eq in Hq. injection Hq as Hq. by eapply Hne. }
  assert (HR' : ∀ p', (∀ ow k' r', p' = PLockEnd ow k' r' → r' = r) → results_ok (take_woken t m) (put t (Some p') pcs)).
  { intros p' Hp'. apply (results_put m _ pcs t (Some p')); [done| |].
    - intros u x Hx. left. cbn in Hx. apply lookup_delete_Some in Hx as [_ ?]. done.
    - intros ow k' r' [= E]. rewrite (Hp' _ _ _ E). exact (proj1 HR t r Hr). }
  destruct p as [|k0|ow k0|ow k0 r0| | |gen|gen|gen|gen wr|result]; try done; cbn in Hk; injection Hk as <-; split.
  - apply HR'. by intros ? ? ? [= <- <- <-].
  - apply (mutex_ok_move m _ pcs t (PLockWait ow k0)); try done; [|apply (mo_free _ _ Hm)|intros u q Hq; by apply Hown].
    cbn. rewrite Hr. apply bool_decide_ext. split; congruence.
  - by apply (count_keep tr m _ pcs t (PLockWait ow k0)).
  - by apply HR'.
  - apply (mutex_ok_move m _ pcs t (PCvWait gen)); try done; [apply (mo_free _ _ Hm)|intros u q Hq; by apply Hown].
  - by apply (count_keep tr m _ pcs t (PCvWait gen)).
Qed.

Lemma cancel_ok t p cv : pcs !! t = Some p → cv_pc p = Some cv → t ∈ wait_list cv m →
  barrier_inv (tr ++ [EvCancel (G := prog) t]) (RemoveWaitObject cv t WAIT_RESULT_CANCELED m) pcs.
Proof.
  intros Hp Hcv Hl. destruct Hi as [HR Hm Hc]. destruct (wf_list w cv t Hwf Hl) as [Hn _]. cbn in Hn. rewrite <- (insert_id pcs t p) by done. split.
  - split; [|rewrite insert_id by done; apply HR]. intros u r. cbn. destruct (decide (t = u)) as [<-|]; [rewrite lookup_insert_eq; intros [= <-]; by right|].
    rewrite lookup_insert_ne by done. apply HR.
  - apply (mutex_ok_move m _ pcs t p); try done.
    + intros Ho. rewrite wait_list_Remove. rewrite (mo_free _ _ Hm Ho). case_decide; [|done]. subst cv. rewrite (mo_free _ _ Hm Ho) in Hl. by apply not_elem_of_nil in Hl.
    + intros u q _. destruct q; try done. cbn. destruct (decide (t = u)) as [<-|]; [|by rewrite lookup_insert_ne]. by rewrite lookup_insert_eq, Hn.
  - apply (count_keep tr m _ pcs t p); try done; try (by destruct p). intros u. rewrite wait_list_Remove. case_decide; [|done]. subst cv. by intros [? _]%elem_of_remove1.
Qed.
End moves.

(** Tasks call the barrier, interrupt handlers do not. *)
Definition barrier_pre (tr : list (event prog)) (cx : ctx) (c : call) : Prop := c_tid cx ≠ TID_NONE ∧ c_isr cx = false.

Definition start : Threads prog := fresh (G := prog) (mkBarrier Mutex.Mutex_ctor m_threshold 0).

Lemma openings_snoc tr e : openings tr ≤ openings (tr ++ [e]).
Proof. unfold openings. rewrite tally_snoc. destruct e as [|? [] ?| | | |]; cbn; lia. Qed.

Lemma barrier_moves tr w : u32_threshold → moves (G := prog) barrier_pre start tr w → openings tr < 2 ^ 32 - 1 →
  threads_wf w ∧ barrier_inv tr (t_mon w) (t_pcs w).
Proof.
  intros Hth Hrun. revert tr w Hrun. 
  assert (H : ∀ tr w, moves (G := prog) barrier_pre start tr w → threads_wf w ∧ (openings tr < 2 ^ 32 - 1 → barrier_inv tr (t_mon w) (t_pcs w))).
  2: { intros tr w Hr Ho. destruct (H tr w Hr) as [? ?]. auto. }
  apply (moves_ind_wf (G := prog) barrier_pre _ (λ tr w, openings tr < 2 ^ 32 - 1 → barrier_inv tr (t_mon w) (t_pcs w))).
  - intros _. split; [split|split|split]; cbn; try done.
    + unfold u32_threshold in Hth. lia.
    + change (m_threshold + 0 = m_threshold). lia.
    + change (m_threshold * 0 = 0). lia.
    + intros t Ht. by apply not_elem_of_nil in Ht.
  - intros tr w l w' _ Hw Hw' IH Hm Ho. assert (Ho' : openings tr < 2 ^ 32 - 1) by (pose proof (openings_snoc tr l); lia). specialize (IH Ho').
    destruct Hm as [w cx c [Ht _] Hn|w cx p m n Hisr Hp Hres _ E|w t p k r Hp Hk Hr|w t p cv Hp Hcv Hl|w t p cv _ _ _ Hcv|w t p cv Hp Hcv Hl];
      destruct w as [m0 pcs off]; cbn [t_mon t_pcs t_off] in *.
    + destruct c. by apply call_ok.
    + destruct (barrier_step_ok tr m0 pcs off cx Hw IH Hisr p Hth Ho' Hp Hres) as (m' & n' & E' & H). cbn in E. rewrite E' in E. injection E as <- <-. exact H.
    + by apply (wake_ok tr m0 pcs IH).
    + by apply (cancel_ok tr m0 pcs off Hw IH t p).
    + done.
    + destruct IH as [? ? [? ? ? ? ? ? ?]]. split; [done|done|]. split; unfold returns, openings; rewrite ?tally_snoc; cbn; rewrite ?Z.add_0_r; done.
Qed.

(** ** What the barrier guarantees *)

(** C32. The barrier lets tasks through in groups of the threshold, in every
    interleaving of the critical sections of mutex, condition variable and
    barrier, with cancellations and with tasks switched out anywhere.  With [g]
    the number of generations that are complete: exactly [threshold * g] calls
    were let through (they returned or are on their way out), exactly one of each
    generation as the last arrival; fewer than the threshold wait for the current
    one; nobody is left on the wait list of a complete generation, except while
    its last arrival is about to wake them; at most one task holds the mutex; and
    no assertion and no kernel check fails. *)
Theorem barrier_safe tr (w : Threads prog) : u32_threshold → moves (G := prog) barrier_pre start tr w → openings tr < 2 ^ 32 - 1 →
  let m : M := t_mon w in let pcs : gmap Z pc := t_pcs w in
  let g := m_generation (fields m) in
  m_threshold * g = returns BARRIER_RELEASED tr + returns BARRIER_LAST_ARRIVAL tr + blocked_as (leaving g) pcs ∧
  g = returns BARRIER_LAST_ARRIVAL tr + blocked_as last pcs ∧
  0 ≤ blocked_as (member g) pcs < m_threshold ∧
  (∀ t, t ∈ wait_list 1 m → (∃ p, pcs !! t = Some p ∧ gen_of p = Some g) ∨ ∃ u, pcs !! u = Some PNotify) ∧
  (∀ t u p q, pcs !! t = Some p → pcs !! u = Some q → owns (woken m) t p = true → owns (woken m) u q = true → t = u) ∧
  (∀ cx p, c_isr cx = false → pcs !! c_tid cx = Some p → resume_pc p = None → ∃ m' n, exec_pc cx p m = Ok (m', n)).
Proof.
  intros Hth Hrun Ho. destruct (barrier_moves tr w Hth Hrun Ho) as [Hw Hi]. destruct w as [m pcs off]. cbn [t_mon t_pcs] in *.
  pose proof (bi_count _ _ _ Hi) as Hc. split_and!.
  - apply Hc.
  - apply Hc.
  - apply blocked_nonneg.
  - pose proof (co_count _ _ _ Hc). pose proof (co_members _ _ _ Hc). change (g_pc prog) with pc in *. lia.
  - apply Hc.
  - intros t u p q Hp Hq Ht Hu. rewrite (mo_owns _ _ (bi_mutex _ _ _ Hi) t p Hp Ht). symmetry. by apply (mo_owns _ _ (bi_mutex _ _ _ Hi) u q).
  - intros cx p Hisr Hp Hres. destruct (barrier_step_ok tr m pcs off cx Hw Hi Hisr p Hth Ho Hp Hres) as (m' & n & E & _). eauto.
Qed.

(** A call that is not at a waiting loop, or whose wait is over, can go on. *)
Lemma enabled tr (w : Threads prog) t p : u32_threshold → openings tr < 2 ^ 32 - 1 → threads_wf w → barrier_inv tr (t_mon w) (t_pcs w) →
  t_pcs w !! t = Some p → (asleep w t → is_Some (resume_pc p)) → ¬ (is_Some (resume_pc p) ∧ woken (t_mon w) !! t = None) →
  ∃ w', (∃ o, move (G := prog) barrier_pre tr w (EvRun (G := prog) t p o) w') ∨ (∃ r, move (G := prog) barrier_pre tr w (EvWake (G := prog) t p r) w').
Proof.
  intros Hth Ho Hw Hi Hp Hasl Hen. destruct w as [m pcs off]. cbn [t_mon t_pcs] in *. destruct (resume_pc p) as [k|] eqn:Ek.
  - destruct (woken m !! t) as [r|] eqn:Er; [|exfalso; eauto]. eexists. right. exists r.
    by apply (run_wake prog barrier_pre tr (mkThreads m pcs off) t p k r).
  - destruct (barrier_step_ok tr m pcs off (mkCtx t 0 false) Hw Hi eq_refl p Hth Ho Hp Ek) as (m' & n & E & _). eexists. left. eexists.
    apply (run_run prog barrier_pre tr (mkThreads m pcs off) (mkCtx t 0 false)); try done. intros Ha. destruct (Hasl Ha) as [? [=]].
Qed.

(** If no call can go on, all wait for arrivals. *)
Lemma all_stuck tr (m : M) (pcs : gmap Z pc) off : threads_wf (mkThreads (G := prog) m pcs off) → barrier_inv tr m pcs →
  (∀ t p, pcs !! t = Some p → is_Some (resume_pc p) ∧ woken m !! t = None) →
  ∀ t p, pcs !! t = Some p → p = PCvWait (m_generation (fields m)).
Proof.
  intros Hw [_ [Hd Hf Hown _ _] Hc] Hall t p Hp. destruct (Hall t p Hp) as [Hres Hn].
  assert (Eo : owner m = TID_NONE).
  { destruct (decide (owner m = TID_NONE)) as [|Hne]; [done|]. exfalso.
    destruct (Hown Hne) as (q & Hq & Hqo). destruct (Hall _ q Hq) as [[k Hk] Hqn]. destruct q; try done. cbn in Hqo. apply bool_decide_eq_true in Hqo. congruence. }
  assert (Hl : ∀ cv, cv_pc p = Some cv → t ∈ wait_list cv m).
  { intros cv Hcv. destruct (wf_at (G := prog) _ t p cv Hw Hp Hcv) as [[r Hr]|?]; [|done]. discriminate (eq_trans (eq_sym Hr) Hn). }
  destruct p; try by destruct Hres.
  - specialize (Hl 0%nat eq_refl). rewrite (Hf Eo) in Hl. by apply not_elem_of_nil in Hl.
  - specialize (Hl 1%nat eq_refl). destruct (co_listed _ _ _ Hc t Hl) as [(q & Hq & Hg)|(u & Hu)].
    + rewrite Hp in Hq. injection Hq as <-. by injection Hg as ->.
    + by destruct (Hall u PNotify Hu) as [[? [=]] _].
Qed.

(** C33. No deadlock.  As long as the kernel switches a waiting task out only in the
    loop in which it waits for its wake-up, some call can go on, or all calls in
    progress wait for more arrivals in the current generation and are fewer than
    the threshold. *)
Theorem barrier_no_deadlock tr (w : Threads prog) : u32_threshold → moves (G := prog) barrier_pre start tr w → openings tr < 2 ^ 32 - 1 →
  (∀ t p, t_pcs w !! t = Some p → asleep w t → is_Some (resume_pc p)) →
  (∃ t p w', (∃ o, move (G := prog) barrier_pre tr w (EvRun (G := prog) t p o) w') ∨ (∃ r, move (G := prog) barrier_pre tr w (EvWake (G := prog) t p r) w')) ∨
  (∀ t p, t_pcs w !! t = Some p → p = PCvWait (m_generation (fields (t_mon w)))) ∧
  Z.of_nat (size (t_pcs w)) < m_threshold.
Proof.
  intros Hth Hrun Ho Hasl. destruct (barrier_moves tr w Hth Hrun Ho) as [Hw Hi].
  destruct (decide (map_Forall (λ t p, is_Some (resume_pc p) ∧ woken (t_mon w) !! t = None) (t_pcs w))) as [Hall|Hex].
  - right. assert (Hst : ∀ t p, t_pcs w !! t = Some p → p = PCvWait (m_generation (fields (t_mon w)))) by (destruct w; by eapply all_stuck). split; [done|]. pose proof (co_count _ _ _ (bi_count _ _ _ Hi)). pose proof (co_members _ _ _ (bi_count _ _ _ Hi)) as Hm.
    rewrite blocked_all in Hm; [change (g_pc prog) with pc in *; lia|]. intros t p Hp. rewrite (Hst t p Hp). by apply bool_decide_eq_true.
  - left. apply map_not_Forall in Hex as (t & p & Hp & Hn); [|intros; apply _]. exists t, p. eapply enabled; eauto.
Qed.

(** The two outcomes of [barrier_no_deadlock] need its condition: the kernel can
    switch a task out between the point where [OnTaskWait] schedules its sleep and
    the point where it unlocks the mutex.  [OnTaskWait] is safe when the mutex it is
    given is the critical section, as in the other primitives, but not with a real
    one. *)
End barrier.

Definition ex_prog : Program := prog 2 (λ _, 1).
Definition ex_preb (tr : list (event ex_prog)) (cx : ctx) (c : call) : bool := bool_decide (c_tid cx ≠ TID_NONE) && negb (c_isr cx).
Lemma barrier_ex_pre tr cx c : ex_preb tr cx c = true → barrier_pre 2 (λ _, 1) tr cx c.
Proof. unfold ex_preb, barrier_pre. by rewrite andb_true_iff, bool_decide_eq_true, negb_true_iff. Qed.
Definition ex_cx (t : Z) : ctx := mkCtx t 0 false.
Definition ex_call (t : Z) : choice ex_prog := ChCall (G := ex_prog) (ex_cx t) CWaitEx.
Definition ex_steps (n : nat) (t : Z) : list (choice ex_prog) := replicate n (ChRun (G := ex_prog) (ex_cx t)).
Definition ex_start : Threads ex_prog := start 2 (λ _, 1).

(** Task 1 waits; task 2 arrives last, lets it through and returns; task 1 returns;
    task 1 arrives again and waits. *)
Definition ex_acts : list (choice ex_prog) :=
  [ex_call 1] ++ ex_steps 5 1 ++ [ChOff 1; ex_call 2] ++ ex_steps 5 2 ++ [ChWake 1] ++ ex_steps 4 1 ++ [ex_call 1] ++ ex_steps 5 1.
Definition ex_end := exec_program (G := ex_prog) ex_preb ex_acts ex_start.

Lemma barrier_safe_witness : returns 2 (λ _, 1) BARRIER_RELEASED ex_end.1 = 1 ∧ returns 2 (λ _, 1) BARRIER_LAST_ARRIVAL ex_end.1 = 1 ∧
  m_generation (fields (t_mon ex_end.2)) = 1 ∧
  0 ≤ blocked_as (member (m_generation (fields (t_mon ex_end.2)))) (t_pcs ex_end.2) < 2.
Proof.
  split; [vm_compute; reflexivity|]. split; [vm_compute; reflexivity|]. split; [vm_compute; reflexivity|].
  destruct (barrier_safe 2 (λ _, 1) ex_end.1 ex_end.2) as (_ & _ & H & _); [| | |exact H].
  - unfold u32_threshold. lia.
  - apply (exec_program_moves (G := ex_prog)). exact barrier_ex_pre.
  - vm_compute. reflexivity.
Defined.

(** At the end of the same run task 1 waits for a second arrival. *)
Lemma barrier_no_deadlock_witness : let w := ex_end.2 in
  (∃ t p w', (∃ o, move (G := ex_prog) (barrier_pre 2 (λ _, 1)) ex_end.1 w (EvRun (G := ex_prog) t p o) w') ∨ (∃ r, move (G := ex_prog) (barrier_pre 2 (λ _, 1)) ex_end.1 w (EvWake (G := ex_prog) t p r) w')) ∨
  (∀ t p, t_pcs w !! t = Some p → p = PCvWait (m_generation (fields (t_mon w)))) ∧ Z.of_nat (size (t_pcs w)) < 2.
Proof.
  apply (barrier_no_deadlock 2 (λ _, 1) ex_end.1 ex_end.2).
  - by unfold u32_threshold; lia.
  - apply (exec_program_moves (G := ex_prog)); exact barrier_ex_pre.
  - vm_compute; reflexivity.
  - assert (E : t_off ex_end.2 = ∅) by (vm_compute; reflexivity). intros t p _ [Hoff _]. exfalso. apply (not_elem_of_empty (C := gset Z) t). rewrite <- E. exact Hoff.
Defined.

(** Task 1 is switched out after its sleep was scheduled and before it has unlocked
    the mutex: it sleeps on the list of the condition variable and owns the mutex
    that task 2 needs to arrive.  Neither can go on, although the threshold is 2. *)
Definition deadlock_acts : list (choice ex_prog) := [ex_call 1] ++ ex_steps 4 1 ++ [ChOff 1; ex_call 2] ++ ex_steps 2 2.
Definition deadlock_end := exec_program (G := ex_prog) ex_preb deadlock_acts ex_start.
Definition stuck (w : Threads ex_prog) (t : Z) : bool :=
  match exec_choice (G := ex_prog) ex_preb [] w (ChRun (ex_cx t)), exec_choice (G := ex_prog) ex_preb [] w (ChWake t) with None, None => true | _, _ => false end.
Example switched_out_with_mutex_deadlocks :
  t_pcs deadlock_end.2 !! 1 = Some (PCvUnlock 0) ∧ t_pcs deadlock_end.2 !! 2 = Some (PLockWait 1 KBegin) ∧
  Mutex.m_owner_tid (m_mutex (fields (t_mon deadlock_end.2))) = 1 ∧ wait_list 0 (t_mon deadlock_end.2) = [2] ∧
  wait_list 1 (t_mon deadlock_end.2) = [1] ∧ forallb (stuck deadlock_end.2) [1; 2] = true.
Proof. vm_compute. tauto. Qed.
End Barrier.
