(* ===== verification/SpinLock.v ===== *)
(** * Recursive spin lock ([SpinLock] of [stk_sync_spinlock.h] over [hw::SpinLock])

    The spin lock does not use the critical section: tasks, on one core or on
    several, run its code concurrently, and the members are read without a lock
    before it is taken.  Every access to a member is a step of its own.  The
    hardware lock is the one of the RISC-V driver, an atomic test-and-set in a
    loop with a limited number of tries. *)

From S2P Require Import Prelude KernelTask Monitor Threads.
Import KTask Monitor Threads.
Local Open Scope Z_scope.

Module SpinLock.

Record SpinLock := mkSpinLock { m_owner_tid : Z; m_recursion_count : Z; m_lock : bool }.
Definition RECURSION_MAX : Z := 0xFFFE.
Definition SpinLock_ctor : SpinLock := mkSpinLock TID_NONE 0 false.

Inductive call := CLock | CTryLock | CUnlock.

(** The members a step reads or writes are in the comments. *)
Inductive pc :=
| POwner (try : bool)                        (* LockRecursively: m_owner_tid == locking_tid *)
| PCount (try : bool)                        (* m_recursion_count != 0U, and the assertion *)
| PIncrement (count : Z)                     (* ++m_recursion_count *)
| PAcquire (try : bool) (timeout : Z)        (* one test-and-set of m_lock *)
| PMakeOwner                                 (* MakeLocked: m_owner_tid != TID_NONE *)
| PMakeCount                                 (* m_recursion_count != 0U *)
| PSetOwner                                  (* m_owner_tid = locking_tid *)
| PSetCount                                  (* m_recursion_count = 1U *)
| PUnOwner                                   (* Unlock: m_owner_tid == GetTid() *)
| PUnCount                                   (* m_recursion_count != 0U *)
| PDecrement                                 (* --m_recursion_count *)
| PClearOwner                                (* m_owner_tid = TID_NONE *)
| PHwCheck                                   (* HW_SpinLockUnlock: !lock *)
| PHwClear.                                  (* m_lock = false *)

Section spinlock.
(** [s_StkSpinlockTimeoutIters]: how often the hardware lock is tried. *)
Context (timeout_iters : Z).
Notation M := (Mon SpinLock).
Notation nxt := (next pc bool).

Definition set_owner (t : Z) (m : M) : M := set_fields (mkSpinLock t (m_recursion_count (fields m)) (m_lock (fields m))) m.
Definition set_count (n : Z) (m : M) : M := set_fields (mkSpinLock (m_owner_tid (fields m)) n (m_lock (fields m))) m.
Definition set_lock (b : bool) (m : M) : M := set_fields (mkSpinLock (m_owner_tid (fields m)) (m_recursion_count (fields m)) b) m.

(** [Lock()], [TryLock()] and [LockRecursively(locking_tid)]. *)
Definition exec_lock (cx : ctx) (p : pc) (m : M) : res (M * nxt) :=
  let s := fields m in
  match p with
  | POwner try => Ok (m, Goto (if m_owner_tid s =? c_tid cx then PCount try else PAcquire try timeout_iters))
  | PCount try =>
      if negb (m_recursion_count s =? 0) then
        assert! (m_recursion_count s <? RECURSION_MAX); Ok (m, Goto (PIncrement (m_recursion_count s)))
      else Ok (m, Goto (PAcquire try timeout_iters))
  | PIncrement count => Ok (set_count (u16 (count + 1)) m, Return true)
  | _ => Panic PANIC_KERNEL
  end.
(** [HW_SpinLockTryLock(lock)] and a turn of [HW_SpinLockLock(lock)]. *)
Definition exec_acquire (try : bool) (timeout : Z) (m : M) : res (M * nxt) :=
  if m_lock (fields m) then
    if try then Ok (m, Return false)
    else let timeout := u32 (timeout - 1) in
      if timeout =? 0 then Panic PANIC_KERNEL else Ok (m, Goto (PAcquire try timeout))
  else Ok (set_lock true m, Goto PMakeOwner).
(** [MakeLocked(locking_tid)]. *)
Definition exec_make (cx : ctx) (p : pc) (m : M) : res (M * nxt) :=
  let s := fields m in
  match p with
  | PMakeOwner => if negb (m_owner_tid s =? TID_NONE) then Panic PANIC_KERNEL else Ok (m, Goto PMakeCount)
  | PMakeCount => if negb (m_recursion_count s =? 0) then Panic PANIC_KERNEL else Ok (m, Goto PSetOwner)
  | PSetOwner => Ok (set_owner (c_tid cx) m, Goto PSetCount)
  | PSetCount => Ok (set_count 1 m, Return true)
  | _ => Panic PANIC_KERNEL
  end.
(** [Unlock()] and [HW_SpinLockUnlock(lock)]. *)
Definition exec_unlock (cx : ctx) (p : pc) (m : M) : res (M * nxt) :=
  let s := fields m in
  match p with
  | PUnOwner => assert! negb (c_isr cx); assert! (m_owner_tid s =? c_tid cx); Ok (m, Goto PUnCount)
  | PUnCount => assert! negb (m_recursion_count s =? 0); Ok (m, Goto PDecrement)
  | PDecrement =>
      let n := u16 (m_recursion_count s - 1) in
      Ok (set_count n m, if n =? 0 then Goto PClearOwner else Return true)
  | PClearOwner => Ok (set_owner TID_NONE m, Goto PHwCheck)
  | PHwCheck => if negb (m_lock s) then Panic PANIC_KERNEL else Ok (m, Goto PHwClear)
  | PHwClear => Ok (set_lock false m, Return true)
  | _ => Panic PANIC_KERNEL
  end.
Definition exec_pc (cx : ctx) (p : pc) (m : M) : res (M * nxt) :=
  match p with
  | POwner _ | PCount _ | PIncrement _ => exec_lock cx p m
  | PAcquire try timeout => exec_acquire try timeout m
  | PMakeOwner | PMakeCount | PSetOwner | PSetCount => exec_make cx p m
  | PUnOwner | PUnCount | PDecrement | PClearOwner | PHwCheck | PHwClear => exec_unlock cx p m
  end.
Definition start_pc (c : call) : pc :=
  match c with CLock => POwner false | CTryLock => POwner true | CUnlock => PUnOwner end.

Definition prog : Program := mkProgram SpinLock call pc bool start_pc (λ _, None) (λ _, None) (λ _, false) exec_pc.

#[export] Instance spinlock_disciplined : Disciplined prog.
Proof.
  split; cbn; try done.
  - intros cx p m m' n. destruct p; cbn; unfold exec_acquire, set_owner, set_count, set_lock; intros H; repeat case_match; inv_res; eauto with stk.
  - intros cx p m m' cv p'. destruct p; cbn; unfold exec_acquire; intros H; repeat case_match; inv_res; simplify_eq; repeat case_match; done.
Qed.

(** ** Holding the lock *)

(** [Lock()] and a successful [TryLock()] take the lock, [Unlock()] gives it back. *)
Definition locks (t : Z) (e : event prog) : Z :=
  match e with
  | EvRun u (PIncrement _ | PSetCount) (Some _) => if bool_decide (u = t) then 1 else 0
  | EvRun u (PDecrement | PHwClear) (Some _) => if bool_decide (u = t) then -1 else 0
  | _ => 0
  end.
Definition held (t : Z) (tr : list (event prog)) : Z := tally (locks t) tr.

(** Tasks call the lock; only the holder unlocks it; nobody locks more often than
    the counter can tell. *)
Definition spin_pre (tr : list (event prog)) (cx : ctx) (c : call) : Prop :=
  c_tid cx ≠ TID_NONE ∧ c_isr cx = false ∧
  match c with CUnlock => 0 < held (c_tid cx) tr | _ => held (c_tid cx) tr < RECURSION_MAX end.

(** What a step relies on, for the task [t] that holds the hardware lock: the
    owner, the counter and the number of locks it holds. *)
Definition holder_ok (t : Z) (po : option pc) (own count h : Z) : Prop :=
  match po with
  | None | Some (PUnOwner | PUnCount | PDecrement) => own = t ∧ count = h ∧ 0 < h
  | Some (POwner _ | PCount _) => own = t ∧ count = h ∧ 0 < h < RECURSION_MAX
  | Some (PIncrement n) => own = t ∧ count = n ∧ h = n ∧ 0 < n < RECURSION_MAX
  | Some (PAcquire _ _) => False
  | Some (PMakeOwner | PMakeCount | PSetOwner) => own = TID_NONE ∧ count = 0 ∧ h = 0
  | Some PSetCount => own = t ∧ count = 0 ∧ h = 0
  | Some PClearOwner => own = t ∧ count = 0 ∧ h = 1
  | Some (PHwCheck | PHwClear) => own = TID_NONE ∧ count = 0 ∧ h = 1
  end.
(** A task that does not hold it is about to try. *)
Definition outside (p : pc) : bool := match p with POwner _ | PAcquire _ _ => true | _ => false end.
(** A task that has not come to the counter yet knows that it is not the owner. *)
Record spin_inv_at (holder : option Z) (tr : list (event prog)) (m : M) (pcs : gmap Z pc) : Prop := {
  si_tid t p : pcs !! t = Some p → t ≠ TID_NONE;
  si_lock : m_lock (fields m) = match holder with Some _ => true | None => false end;
  si_free : holder = None → m_owner_tid (fields m) = TID_NONE ∧ m_recursion_count (fields m) = 0;
  si_holder t : holder = Some t → t ≠ TID_NONE ∧ m_recursion_count (fields m) ≤ RECURSION_MAX ∧
    holder_ok t (pcs !! t) (m_owner_tid (fields m)) (m_recursion_count (fields m)) (held t tr);
  si_others t : holder ≠ Some t → held t tr = 0 ∧ ∀ p, pcs !! t = Some p → outside p = true;
}.
Definition spin_inv (tr : list (event prog)) (m : M) (pcs : gmap Z pc) : Prop := ∃ holder, spin_inv_at holder tr m pcs.

Lemma held_snoc_spin t tr e : held t (tr ++ [e]) = held t tr + locks t e.
Proof. apply tally_snoc. Qed.

(** The holder makes a step and keeps the hardware lock. *)
Lemma holder_step tr (m m' : M) pcs t po e : spin_inv_at (Some t) tr m pcs → m_lock (fields m') = true → m_recursion_count (fields m') ≤ RECURSION_MAX →
  holder_ok t po (m_owner_tid (fields m')) (m_recursion_count (fields m')) (held t tr + locks t e) → (∀ u, u ≠ t → locks u e = 0) →
  spin_inv (tr ++ [e]) m' (put t po pcs).
Proof.
  intros [H1 H2 _ H4 H5] Hl Hc Hok He. exists (Some t). destruct (H4 t eq_refl) as (Ht & _ & _). split; try done.
  - intros u p. rewrite pcs_put_lookup. case_decide; [by subst|apply H1].
  - intros u [= <-]. rewrite held_snoc_spin, pcs_put_lookup, decide_True by done. done.
  - intros u Hu. rewrite held_snoc_spin, pcs_put_lookup, decide_False, He by congruence. destruct (H5 u Hu). split; [lia|done].
Qed.
(** A task that does not hold the lock makes a step. *)
Lemma outside_step holder tr (m m' : M) pcs t po e : spin_inv_at holder tr m pcs → holder ≠ Some t → t ≠ TID_NONE → fields m' = fields m →
  (∀ p, po = Some p → outside p = true) → (∀ u, locks u e = 0) → spin_inv (tr ++ [e]) m' (put t po pcs).
Proof.
  intros [H1 H2 H3 H4 H5] Hh Ht Ef Hpo He. exists holder. split; rewrite ?Ef; try done.
  - intros u p. rewrite pcs_put_lookup. case_decide; [by subst|apply H1].
  - intros u Hu. rewrite held_snoc_spin, pcs_put_lookup, decide_False, He, Z.add_0_r by congruence. by apply H4.
  - intros u Hu. rewrite held_snoc_spin, He, pcs_put_lookup, Z.add_0_r. split; [by apply H5|]. case_decide; [done|by apply H5].
Qed.

Section steps.
Context (tr : list (event prog)) (m : M) (pcs : gmap Z pc) (cx : ctx).
Notation t := (c_tid cx).
Context (Hi : spin_inv tr m pcs) (Hisr : c_isr cx = false).

(** The step fails only if the hardware lock was tried too often; otherwise the
    invariant is kept. *)
Definition step_post (p : pc) : Prop :=
  (∃ n, p = PAcquire false n ∧ m_lock (fields m) = true ∧ u32 (n - 1) = 0) ∨
  ∃ m' n, exec_pc cx p m = Ok (m', n) ∧ spin_inv (tr ++ [EvRun (G := prog) t p (result_of (G := prog) n)]) m' (put t (next_pc n) pcs).

Lemma step_outside holder p : spin_inv_at holder tr m pcs → holder ≠ Some t → pcs !! t = Some p → step_post p.
Proof.
  intros H Hh Hp. destruct (si_others _ _ _ _ H t Hh) as [Hheld Hout]. assert (Ht : t ≠ TID_NONE) by (by eapply si_tid).
  specialize (Hout p Hp). destruct p as [try| | |try n| | | | | | | | | |]; try done.
  - right. eexists _, _. cbn. split; [reflexivity|]. assert (E : m_owner_tid (fields m) =? t = false).
    { apply Z.eqb_neq. destruct holder as [u|]; [|rewrite (proj1 (si_free _ _ _ _ H eq_refl)); congruence].
      destruct (si_holder _ _ _ _ H u eq_refl) as (Hu & _ & Hok). assert (u ≠ t) by congruence.
      destruct (pcs !! u) as [[]|]; cbn in Hok; try done; destruct_and?; congruence. }
    rewrite E. apply (outside_step holder tr m); try done. by intros p [= <-].
  - destruct holder as [u|].
    + unfold step_post. cbn [exec_pc]. unfold exec_acquire. rewrite (si_lock _ _ _ _ H). destruct try.
      * right. eexists _, _. split; [reflexivity|]. by apply (outside_step (Some u) tr m).
      * destruct (u32 (n - 1) =? 0) eqn:E; [left; apply Z.eqb_eq in E; eauto|]. right. eexists _, _. split; [reflexivity|].
        apply (outside_step (Some u) tr m); try done. by intros p [= <-].
    + right. destruct (si_free _ _ _ _ H eq_refl) as [Eo Ec]. cbn. unfold exec_acquire. rewrite (si_lock _ _ _ _ H). eexists _, _. split; [reflexivity|].
      destruct H as [H1 H2 H3 H4 H5]. exists (Some t). split; cbn; try done.
      * intros u p. destruct (decide (t = u)) as [<-|]; [done|]. rewrite lookup_insert_ne by done. apply H1.
      * intros u [= <-]. rewrite held_snoc_spin, lookup_insert_eq. cbn. unfold RECURSION_MAX. split_and!; try done; lia.
      * intros u Hu. assert (t ≠ u) by congruence. rewrite held_snoc_spin, lookup_insert_ne by done. cbn. destruct (H5 u) as [-> ?]; done.
Qed.

Lemma step_holder p : spin_inv_at (Some t) tr m pcs → pcs !! t = Some p → step_post p.
Proof.
  intros H Hp. right. destruct (si_holder _ _ _ _ H t eq_refl) as (Ht & Hmax & Hok). rewrite Hp in Hok.
  assert (Hl := si_lock _ _ _ _ H).
  assert (Hu16 : ∀ n, 0 ≤ n ≤ RECURSION_MAX → u16 n = n) by (unfold u16, RECURSION_MAX; intros; apply Z.mod_small; lia).
  assert (Hself : ∀ u e, u ≠ t → (∃ p o, e = EvRun (G := prog) t p o) → locks u e = 0).
  { intros u e Hu (q & o & ->). destruct q, o; try done; cbn; by rewrite bool_decide_eq_false_2. }
  assert (Hgo : ∀ m' n, exec_pc cx p m = Ok (m', n) → m_lock (fields m') = true → m_recursion_count (fields m') ≤ RECURSION_MAX →
    holder_ok t (next_pc n) (m_owner_tid (fields m')) (m_recursion_count (fields m')) (held t tr + locks t (EvRun (G := prog) t p (result_of (G := prog) n))) →
    ∃ m' n, exec_pc cx p m = Ok (m', n) ∧ spin_inv (tr ++ [EvRun (G := prog) t p (result_of (G := prog) n)]) m' (put t (next_pc n) pcs)).
  { intros m' n E El Ec Ho. exists m', n. split; [done|]. apply (holder_step tr m); try done. intros u Hu. apply Hself; eauto. }
  destruct p; cbn in Hok; try done; destruct Hok as (Eo & Ec & Hh); cbn [exec_pc exec_lock exec_make exec_unlock] in *;
    rewrite ?Eo, ?Ec, ?Z.eqb_refl, ?Hl, ?Hisr in Hgo |- *; cbn [negb stk_assert] in *.
  - eapply Hgo; [reflexivity|done|lia|]. cbn. lia.
  - rewrite (proj2 (Z.eqb_neq (held t tr) 0)), (proj2 (Z.ltb_lt (held t tr) _)) in Hgo |- * by lia. cbn [negb stk_assert] in *.
    eapply Hgo; [reflexivity|done|lia|]. cbn. lia.
  - rewrite Hu16 in Hgo |- * by lia. eapply Hgo; [reflexivity|done|cbn; lia|]. cbn. rewrite bool_decide_eq_true_2 by done. lia.
  - eapply Hgo; [reflexivity|done|lia|]. cbn. lia.
  - eapply Hgo; [reflexivity|done|lia|]. cbn. lia.
  - eapply Hgo; [reflexivity|done|cbn; lia|]. cbn. lia.
  - eapply Hgo; [reflexivity|done|cbn; unfold RECURSION_MAX; lia|]. cbn. rewrite bool_decide_eq_true_2 by done. lia.
  - eapply Hgo; [reflexivity|done|lia|]. cbn. lia.
  - rewrite (proj2 (Z.eqb_neq (held t tr) 0)) in Hgo |- * by lia. eapply Hgo; [reflexivity|done|lia|]. cbn. lia.
  - rewrite Hu16 in Hgo |- * by lia. destruct (Z.eqb_spec (held t tr - 1) 0); (eapply Hgo; [reflexivity|done|cbn; lia|]); cbn; rewrite ?bool_decide_eq_true_2 by done; lia.
  - eapply Hgo; [reflexivity|done|cbn; lia|]. cbn. lia.
  - eapply Hgo; [reflexivity|done|lia|]. cbn. lia.
  - destruct H as [H1 H2 H3 H4 H5]. eexists _, _. split; [reflexivity|]. cbn. exists None. split; cbn; try done.
    + intros u p [_ Hu]%lookup_delete_Some. by eapply H1.
    + intros u _. rewrite held_snoc_spin. destruct (decide (t = u)) as [<-|Hne].
      * rewrite lookup_delete_eq. cbn. rewrite bool_decide_eq_true_2 by done. split; [lia|done].
      * rewrite lookup_delete_ne by done. cbn. rewrite bool_decide_eq_false_2 by done. destruct (H5 u) as [-> ?]; [congruence|done].
Qed.

Lemma spin_step_ok p : pcs !! t = Some p → step_post p.
Proof.
  intros Hp. destruct Hi as [holder H]. destruct (decide (holder = Some t)) as [->|Hne]; [by apply step_holder|by eapply step_outside].
Qed.
End steps.

Lemma spin_call_ok tr (m : M) pcs cx c : spin_inv tr m pcs → spin_pre tr cx c → pcs !! c_tid cx = None →
  spin_inv (tr ++ [EvCall (G := prog) (c_tid cx) c]) m (<[c_tid cx := start_pc c]> pcs).
Proof.
  intros [holder H] (Ht & _ & Hpre) Hn. destruct (decide (holder = Some (c_tid cx))) as [->|Hne].
  - destruct (si_holder _ _ _ _ H _ eq_refl) as (_ & Hmax & Hok). rewrite Hn in Hok. cbn in Hok.
    apply (holder_step tr m m pcs (c_tid cx) (Some (start_pc c))); try done; [apply (si_lock _ _ _ _ H)|].
    destruct c; cbn; rewrite Z.add_0_r; lia.
  - apply (outside_step holder tr m m pcs (c_tid cx) (Some (start_pc c))); try done. intros p [= <-].
    destruct (si_others _ _ _ _ H _ Hne) as [Hz _]. destruct c; try done. cbn in Hpre. lia.
Qed.

Definition start : Threads prog := fresh (G := prog) SpinLock_ctor.

Lemma spin_moves tr w : moves (G := prog) spin_pre start tr w → spin_inv tr (t_mon w) (t_pcs w).
Proof.
  intros Hrun. apply (moves_ind_wf (G := prog) spin_pre SpinLock_ctor (λ tr w, spin_inv tr (t_mon w) (t_pcs w))) in Hrun as [_ H]; [done| |]; clear.
  - exists None. by split.
  - intros tr w l w' _ Hw _ IH Hm.
    destruct Hm as [w cx c Hpre Hn|w cx p m n Hisr Hp _ _ E|w t p k r _ Hk|w t p cv _ Hcv|w t p cv _ Hcv|w t p cv _ Hcv]; try done.
    + by apply spin_call_ok.
    + destruct w as [m0 pcs off]. cbn [t_mon t_pcs] in *. rewrite proceed_pcs. cbn [t_pcs].
      destruct (spin_step_ok tr m0 pcs cx IH Hisr p Hp) as [(k & -> & Hl & Hz)|(m' & n' & E' & H)].
      * cbn in E. unfold exec_acquire in E. rewrite Hl, Hz in E. done.
      * cbn in E. rewrite E' in E. injection E as <- <-. destruct n'; [done| |done]. destruct (run_wait (G := prog) _ _ _ _ _ _ E') as [_ [=]].
Qed.

(** C34. The spin lock excludes, for any number of cores and any interleaving of the
    single accesses to its members: at most one task holds it, a holder that is
    not in a call is the recorded owner and the counter is the number of its
    locks, the hardware lock is free only if nobody holds the lock, and no step
    fails except that the hardware lock may run out of tries while it is taken. *)
Theorem spin_exclusion tr (w : Threads prog) : moves (G := prog) spin_pre start tr w →
  let m : M := t_mon w in let pcs : gmap Z pc := t_pcs w in
  (∀ t u, 0 < held t tr → 0 < held u tr → t = u) ∧
  (∀ t, 0 < held t tr → pcs !! t = None → m_owner_tid (fields m) = t ∧ m_recursion_count (fields m) = held t tr) ∧
  (∀ t, 0 < held t tr → m_lock (fields m) = true) ∧
  (∀ cx p, c_isr cx = false → pcs !! c_tid cx = Some p →
     (∃ m' n, exec_pc cx p m = Ok (m', n)) ∨ (∃ n, p = PAcquire false n ∧ m_lock (fields m) = true ∧ u32 (n - 1) = 0)).
Proof.
  intros Hrun m pcs. assert (Hi : spin_inv tr m pcs) by (by apply spin_moves). pose proof Hi as [holder H].
  assert (Hh : ∀ t, 0 < held t tr → holder = Some t).
  { intros t Ht. destruct (decide (holder = Some t)) as [|Hne]; [done|]. destruct (si_others _ _ _ _ H t Hne). lia. }
  split_and!.
  - intros t u Ht%Hh Hu%Hh. congruence.
  - intros t Ht%Hh Hn. destruct (si_holder _ _ _ _ H t Ht) as (_ & _ & Hok). rewrite Hn in Hok. by destruct Hok as (? & ? & _).
  - intros t Ht%Hh. by rewrite (si_lock _ _ _ _ H), Ht.
  - intros cx p Hisr Hp. destruct (spin_step_ok tr m pcs cx Hi Hisr p Hp) as [?|(m' & n & E & _)]; eauto.
Qed.
End spinlock.

(** Task 1 takes the lock twice, task 2 tries in vain, task 1 gives it back once. *)
Definition ex_prog : Program := prog 10.
Definition ex_cx (t : Z) : ctx := mkCtx t 0 false.
Definition ex_preb (tr : list (event ex_prog)) (cx : ctx) (c : call) : bool :=
  bool_decide (c_tid cx ≠ TID_NONE) && negb (c_isr cx) &&
  match c with CUnlock => 0 <? held 10 (c_tid cx) tr | _ => held 10 (c_tid cx) tr <? RECURSION_MAX end.
Lemma ex_spin_pre tr cx c : ex_preb tr cx c = true → spin_pre 10 tr cx c.
Proof.
  unfold ex_preb, spin_pre. rewrite !andb_true_iff, bool_decide_eq_true, negb_true_iff. intros [[? ?] Hc]. split_and!; try done.
  by destruct c; apply Z.ltb_lt.
Qed.
Definition ex_do (t : Z) (c : call) (n : nat) : list (choice ex_prog) := ChCall (G := ex_prog) (ex_cx t) c :: replicate n (ChRun (G := ex_prog) (ex_cx t)).
Definition ex_end := exec_program (G := ex_prog) ex_preb (ex_do 1 CLock 6 ++ ex_do 2 CTryLock 2 ++ ex_do 1 CLock 3 ++ ex_do 1 CUnlock 3 ++ ex_do 2 CLock 3) (start 10).
Lemma spin_exclusion_witness : held 10 1 ex_end.1 = 1 ∧ t_pcs ex_end.2 !! 2 = Some (PAcquire false 8) ∧
  m_owner_tid (fields (t_mon ex_end.2)) = 1 ∧ m_recursion_count (fields (t_mon ex_end.2)) = 1.
Proof.
  split; [vm_compute; reflexivity|]. split; [vm_compute; reflexivity|].
  destruct (spin_exclusion 10 ex_end.1 ex_end.2) as (_ & H & _); [apply (exec_program_moves (G := ex_prog)); exact ex_spin_pre|].
  assert (E : held 10 1 ex_end.1 = 1) by (vm_compute; reflexivity). destruct (H 1) as [H1 H2]; [rewrite E; lia|vm_compute; reflexivity|].
  split; [exact H1|]. etransitivity; [exact H2|exact E].
Defined.
End SpinLock.
