(* ===== verification/FrtosNotify.v ===== *)
(** * Direct-to-task notifications of the FreeRTOS layer ([freertos_stk.cpp])

    A notification slot of a task is a 32-bit value, a flag that guards it against
    being overwritten, and a binary semaphore that wakes its task.  The calls do
    their work in several critical sections, those of the semaphore ([Semaphore.v])
    among them, so they are programs of [Threads.v]: each critical section is one
    step.  A slot is touched by calls for its own index only; the model follows
    one slot of one task, which any task or interrupt handler may notify.  A
    handler runs its steps in a row, which is one of the interleavings. *)

From S2P Require Import Prelude KernelTask Monitor Semaphore Threads.
Import KTask Monitor Threads.
Local Open Scope Z_scope.

Module FrtosNotify.

Definition pdTRUE : Z := 1.
Definition pdFALSE : Z := 0.
Definition pdPASS : Z := pdTRUE.
Definition pdFAIL : Z := pdFALSE.
Definition portMAX_DELAY : Z := 2 ^ 32 - 1.

Inductive eNotifyAction := eNoAction | eSetBits | eIncrement | eSetValueWithOverwrite | eSetValueWithoutOverwrite.

(** [FrtosTimeoutToStk]. *)
Definition FrtosTimeoutToStk (t : Z) : Z :=
  if t =? portMAX_DELAY then WAIT_INFINITE else if t =? 0 then NO_WAIT else to_Timeout t.

(** [FrtosPrioToStkWeight] and [StkWeightToFrtosPrio]. *)
Definition FrtosPrioToStkWeight (configMAX_PRIORITIES p : Z) : Z :=
  if p >=? configMAX_PRIORITIES then configMAX_PRIORITIES - 1 else p.
Definition StkWeightToFrtosPrio (configMAX_PRIORITIES w : Z) : Z :=
  if w <? 0 then 0 else if w >=? configMAX_PRIORITIES then configMAX_PRIORITIES - 1 else w.

(** [FrtosTask::NotifySlot]; [stk::sync::Semaphore] counts in 16 bits. *)
Record NotifySlot := mkSlot { value : Z; pending : bool; sem : Semaphore.SemaphoreT }.
Definition NotifySlot_ctor : NotifySlot := mkSlot 0 false (Semaphore.mkSem 0 1).
Definition set_value (v : Z) (s : NotifySlot) : NotifySlot := mkSlot v (pending s) (sem s).
Definition set_pending (b : bool) (s : NotifySlot) : NotifySlot := mkSlot (value s) b (sem s).
Definition not32 (x : Z) : Z := Z.land (Z.lnot x) (2 ^ 32 - 1).

(** [NotifyApplyAction]: the slot, and whether the action was taken. *)
Definition NotifyApplyAction (slot : NotifySlot) (ulValue : Z) (eAction : eNotifyAction) : NotifySlot * bool :=
  match eAction with
  | eNoAction => (slot, true)
  | eSetBits => (set_value (Z.lor (value slot) ulValue) slot, true)
  | eIncrement => (set_value (u32 (value slot + 1)) slot, true)
  | eSetValueWithOverwrite => (set_value ulValue slot, true)
  | eSetValueWithoutOverwrite => if pending slot then (slot, false) else (set_pending true (set_value ulValue slot), true)
  end.

(** The calls: a task handle may be null, which is the caller; [want] says whether
    a pointer for the result was given. *)
Inductive call :=
| CGive (xTask : option Z)
| CTake (ulClearCountOnExit xTicksToWait : Z)
| CNotify (xTask : option Z) (ulValue : Z) (eAction : eNotifyAction) (want : bool)
| CNotifyWait (ulBitsToClearOnEntry ulBitsToClearOnExit : Z) (want : bool) (xTicksToWait : Z)
| CStateClear (xTask : option Z)
| CValueClear (xTask : option Z) (ulBitsToClear : Z).
(** A status with what was written through the pointer, or a value. *)
Inductive ret := RBase (r : Z) (out : option Z) | RValue (v : Z).

(** What follows the wait for the semaphore. *)
Inductive after := KTake (ulClearCountOnExit : Z) | KNotifyWait (ulBitsToClearOnExit : Z) (want : bool).
Inductive pc :=
| PBegin (c : call)                         (* checks, and the slot *)
| PGive
| PApply (ulValue : Z) (eAction : eNotifyAction) (want : bool)
| PSignal (prev : option Z)                 (* the wake-up, after the action *)
| PEntry (ulBitsToClearOnEntry xTicksToWait : Z) (k : after)
| PWait (xTicksToWait : Z) (k : after)      (* sem.Wait(), up to the wait *)
| PWaiting (xTicksToWait : Z) (k : after)
| PWoken (k : after) (r : EWaitResult)      (* the rest of sem.Wait() *)
| PEnd (k : after)
| PStateClear
| PValueClear (ulBitsToClear : Z).

Section slot.
(** The task whose slot it is, its index, and the number of slots per task. *)
Context (owner uxIndex configTASK_NOTIFICATION_ARRAY_ENTRIES : Z).
Notation M := (Mon NotifySlot).
Notation nxt := (next pc ret).

(** [ResolveNotifyTarget]. *)
Definition ResolveNotifyTarget (cx : ctx) (xTask : option Z) : res Z :=
  assert! (uxIndex <? configTASK_NOTIFICATION_ARRAY_ENTRIES);
  Ok (match xTask with None => c_tid cx | Some t => t end).

Definition handle (c : call) : option Z :=
  match c with CGive x | CNotify x _ _ _ | CStateClear x | CValueClear x _ => x | CTake _ _ | CNotifyWait _ _ _ _ => None end.
(** Where the calls begin, and what the blocking ones return in an interrupt. *)
Definition first (c : call) : pc :=
  match c with
  | CGive _ => PGive
  | CTake clr ticks => PWait ticks (KTake clr)
  | CNotify _ v a want => PApply v a want
  | CNotifyWait entry exit want ticks => PEntry entry ticks (KNotifyWait exit want)
  | CStateClear _ => PStateClear
  | CValueClear _ bits => PValueClear bits
  end.
Definition no_result (k : after) : ret := match k with KTake _ => RValue 0 | KNotifyWait _ _ => RBase pdFAIL None end.
Definition blocking (c : call) : option ret :=
  match c with CTake _ _ => Some (RValue 0) | CNotifyWait _ _ _ _ => Some (RBase pdFAIL None) | _ => None end.
Definition Begin (cx : ctx) (c : call) (m : M) : res (M * nxt) :=
  match (if c_isr cx then blocking c else None) with
  | Some r => Ok (m, Return r)
  | None => _ ← ResolveNotifyTarget cx (handle c); Ok (m, Goto (first c))
  end.

(** The semaphore among the members. *)
Definition sem_of (m : M) : Mon Semaphore.SemaphoreT := mkMon (sem (fields m)) (lists m) (woken m) (services m).
Definition put_sem (m : M) (x : Mon Semaphore.SemaphoreT) : M :=
  mkMon (mkSlot (value (fields m)) (pending (fields m)) (fields x)) (lists x) (woken x) (services x).
Definition TrySignal (m : M) : M := put_sem m (Semaphore.TrySignal 16 (sem_of m)).2.

(** [slot.sem.Wait(...)] with a segment of [WaitEx]. *)
Definition Wait_segment (ticks : Z) (k : after) (m : M) (seg : res (Mon Semaphore.SemaphoreT * outcome Semaphore.pc Semaphore.ret)) : res (M * nxt) :=
  '(x, o) ← seg;
  match o with
  | Blocked _ _ => Ok (put_sem m x, WaitOn 0 (PWaiting ticks k))
  | Done (Semaphore.RWait r) => Ok (put_sem m x, if bool_decide (r = WAIT_RESULT_SIGNAL) then Goto (PEnd k) else Return (no_result k))
  | Done _ => Panic PANIC_KERNEL
  end.

Definition xTaskNotifyGiveIndexed (m : M) : M := TrySignal (set_fields (set_value (u32 (value (fields m) + 1)) (fields m)) m).

(** The critical section of [ulTaskNotifyTakeIndexed] after the wait. *)
Definition ulTaskNotifyTakeIndexed (ulClearCountOnExit : Z) (m : M) : Z * M :=
  let val := value (fields m) in
  let s := set_pending false (fields m) in
  let s := if ulClearCountOnExit =? pdTRUE then set_value 0 s else if value s >? 0 then set_value (value s - 1) s else s in
  let m := set_fields s m in
  (val, if value s >? 0 then TrySignal m else m).

(** The critical section of [xTaskNotifyIndexed] and [xTaskNotifyAndQueryIndexed]. *)
Definition xTaskNotifyAndQueryIndexed (ulValue : Z) (eAction : eNotifyAction) (want : bool) (m : M) : M * nxt :=
  let prev := if want then Some (value (fields m)) else None in
  let '(s, result) := NotifyApplyAction (fields m) ulValue eAction in
  (set_fields s m, if (result : bool) then Goto (PSignal prev) else Return (RBase pdFAIL prev)).

(** The two critical sections of [xTaskNotifyWaitIndexed]. *)
Definition xTaskNotifyWaitIndexed_entry (ulBitsToClearOnEntry : Z) (m : M) : M :=
  set_fields (set_value (Z.land (value (fields m)) (not32 ulBitsToClearOnEntry)) (fields m)) m.
Definition xTaskNotifyWaitIndexed_exit (ulBitsToClearOnExit : Z) (want : bool) (m : M) : option Z * M :=
  let out := if want then Some (value (fields m)) else None in
  (out, set_fields (set_pending false (set_value (Z.land (value (fields m)) (not32 ulBitsToClearOnExit)) (fields m))) m).

Definition xTaskNotifyStateClearIndexed (cx : ctx) (m : M) : res (bool * M) :=
  let was_pending := negb (Semaphore.GetCount (sem_of m) =? 0) || pending (fields m) in
  if was_pending then
    '(x, _) ← Semaphore.WaitEx 16 cx NO_WAIT (sem_of m);
    let m := put_sem m x in Ok (was_pending, set_fields (set_pending false (fields m)) m)
  else Ok (was_pending, m).

Definition ulTaskNotifyValueClearIndexed (ulBitsToClear : Z) (m : M) : Z * M :=
  let prev := value (fields m) in (prev, set_fields (set_value (Z.land prev (not32 ulBitsToClear)) (fields m)) m).

Definition exec_pc (cx : ctx) (p : pc) (m : M) : res (M * nxt) :=
  match p with
  | PBegin c => Begin cx c m
  | PGive => Ok (xTaskNotifyGiveIndexed m, Return (RBase pdPASS None))
  | PApply v a want => Ok (xTaskNotifyAndQueryIndexed v a want m)
  | PSignal prev => Ok (TrySignal m, Return (RBase pdPASS prev))
  | PEntry bits ticks k => Ok (xTaskNotifyWaitIndexed_entry bits m, Goto (PWait ticks k))
  | PWait ticks k => Wait_segment ticks k m (Semaphore.WaitEx 16 cx (FrtosTimeoutToStk ticks) (sem_of m))
  | PWoken k r => Wait_segment 0 k m (Semaphore.resume cx Semaphore.InWait r (sem_of m))
  | PEnd (KTake clr) => let '(v, m) := ulTaskNotifyTakeIndexed clr m in Ok (m, Return (RValue v))
  | PEnd (KNotifyWait exit want) =>
      let '(out, m) := xTaskNotifyWaitIndexed_exit exit want m in Ok (m, Return (RBase pdPASS out))
  | PStateClear => '(b, m) ← xTaskNotifyStateClearIndexed cx m; Ok (m, Return (RBase (if (b : bool) then pdTRUE else pdFALSE) None))
  | PValueClear bits => let '(v, m) := ulTaskNotifyValueClearIndexed bits m in Ok (m, Return (RValue v))
  | PWaiting _ _ => Panic PANIC_KERNEL
  end.
Definition resume_pc (p : pc) : option (EWaitResult → pc) := match p with PWaiting _ k => Some (PWoken k) | _ => None end.
Definition cv_pc (p : pc) : option nat := match p with PWaiting _ _ => Some 0%nat | _ => None end.
Definition timed_pc (p : pc) : bool :=
  match p with PWaiting ticks _ => negb (FrtosTimeoutToStk ticks =? WAIT_INFINITE) | _ => false end.

Definition prog : Program := mkProgram NotifySlot call pc ret PBegin cv_pc resume_pc timed_pc exec_pc.

(** ** The program keeps to the waiting discipline *)

Lemma evolves_sem (m : M) x : evolves (sem_of m) x → evolves m (put_sem m x).
Proof. intros H. by apply (evolves_lift (sem_of m) x). Qed.
Lemma notify_signal_evolves (m : M) : evolves m (TrySignal m).
Proof. apply evolves_sem, Semaphore.TrySignal_evolves. Qed.
Lemma evolves_after_fields f (m m' : M) : evolves (set_fields f m) m' → evolves m m'.
Proof. apply evolves_trans. eauto with stk. Qed.
#[local] Hint Resolve notify_signal_evolves evolves_after_fields : stk.

Definition cv_law (p : pc) (n : nxt) : Prop :=
  match n with
  | Goto p' => cv_pc p' = cv_pc p
  | WaitOn cv p' => cv_pc p = None ∧ cv_pc p' = Some cv
  | Return _ => cv_pc p = None
  end.
Lemma wait_segment_law p ticks k (m m' : M) seg n : cv_pc p = None → (∀ x o, seg = Ok (x, o) → evolves (sem_of m) x) →
  Wait_segment ticks k m seg = Ok (m', n) → evolves m m' ∧ cv_law p n.
Proof.
  intros Hp Hs. unfold Wait_segment. destruct seg as [[x o]|]; cbn [mbind res_bind]; [|done]. specialize (Hs x o eq_refl).
  apply evolves_sem in Hs. destruct o as [[r| |]|to ?]; try done; [case_bool_decide|]; by intros [= <- <-].
Qed.
Lemma notify_exec_law cx p (m m' : M) n : exec_pc cx p m = Ok (m', n) → evolves m m' ∧ cv_law p n.
Proof.
  destruct p as [c| |v a want|prev|bits ticks k|ticks k|ticks k|k r|[clr|exit want]| |bits]; cbn [exec_pc]; try done.
  - unfold Begin. case_match; [|destruct (ResolveNotifyTarget _ _); cbn; [|done]]; intros [= <- <-]; (split; [apply evolves_refl|by destruct c]).
  - intros [= <- <-]. split; [unfold xTaskNotifyGiveIndexed; eauto with stk|done].
  - unfold xTaskNotifyAndQueryIndexed. destruct (NotifyApplyAction _ _ _) as [s []]; intros [= <- <-]; (split; [eauto with stk|done]).
  - intros [= <- <-]. split; [eauto with stk|done].
  - intros [= <- <-]. split; [unfold xTaskNotifyWaitIndexed_entry; eauto with stk|done].
  - apply wait_segment_law; [done|]. intros x o. exact (@enter_evolves _ (Semaphore.sem_lawful 16) cx (Semaphore.CWaitEx _) _ x o).
  - apply wait_segment_law; [done|]. intros x o [= <- <-]. apply evolves_refl.
  - unfold ulTaskNotifyTakeIndexed. destruct (_ >? 0); intros [= <- <-]; (split; [eauto with stk|done]).
  - intros [= <- <-]. split; [eauto with stk|done].
  - unfold xTaskNotifyStateClearIndexed. destruct (_ || _); cbn [mbind res_bind]; [|intros [= <- <-]; split; [apply evolves_refl|done]].
    destruct (Semaphore.WaitEx _ _ _ _) as [[x o]|] eqn:E; cbn; [|done]. intros [= <- <-]. split; [|done].
    apply evolves_fields, evolves_sem. exact (@enter_evolves _ (Semaphore.sem_lawful 16) cx (Semaphore.CWaitEx _) _ x o E).
  - intros [= <- <-]. split; [eauto with stk|done].
Qed.
#[export] Instance notify_disciplined : Disciplined prog.
Proof.
  split; cbn; try (intros *; intros [He Hl]%notify_exec_law; (exact He || exact Hl)); [done|].
  intros p k r. destruct p; cbn; intros [= <-]; cbn; eauto.
Qed.

(** ** A slot without its semaphore *)

(** Where the owner of the slot is: not waiting, on the wait list, or past it with
    the wake-up in hand. *)
Inductive WaitState := Free | Listed | Granted.
#[global] Instance WaitState_eq_dec : EqDecision WaitState.
Proof. solve_decision. Defined.
Record Slot := mkA { a_value : Z; a_pending : bool; a_flag : bool; a_wait : WaitState }.

Definition a_signal (a : Slot) : Slot :=
  match a_wait a with
  | Listed => mkA (a_value a) (a_pending a) (a_flag a) Granted
  | w => mkA (a_value a) (a_pending a) true w
  end.
Definition a_set (v : Z) (b : bool) (a : Slot) : Slot := mkA v b (a_flag a) (a_wait a).
Definition a_waits (w : WaitState) (a : Slot) : Slot := mkA (a_value a) (a_pending a) (a_flag a) w.

Definition a_apply (v : Z) (act : eNotifyAction) (a : Slot) : Slot :=
  let s := (NotifyApplyAction (mkSlot (a_value a) (a_pending a) (Semaphore.mkSem 0 1)) v act).1 in a_set (value s) (pending s) a.
Definition a_take (clr : Z) (a : Slot) : Slot :=
  let v := if clr =? pdTRUE then 0 else if a_value a >? 0 then a_value a - 1 else a_value a in
  let a := a_waits Free (a_set v false a) in if v >? 0 then a_signal a else a.

(** What each step does to a slot. *)
Definition a_step (p : pc) (a : Slot) : Slot :=
  match p with
  | PGive => a_signal (a_set (u32 (a_value a + 1)) (a_pending a) a)
  | PApply v act _ => a_apply v act a
  | PSignal _ => a_signal a
  | PEntry bits _ _ | PValueClear bits => a_set (Z.land (a_value a) (not32 bits)) (a_pending a) a
  | PWait ticks _ =>
      if a_flag a then mkA (a_value a) (a_pending a) false Granted
      else if FrtosTimeoutToStk ticks =? NO_WAIT then a else a_waits Listed a
  | PEnd (KTake clr) => a_take clr a
  | PEnd (KNotifyWait exit _) => a_waits Free (a_set (Z.land (a_value a) (not32 exit)) false a)
  | PStateClear => mkA (a_value a) false false (a_wait a)
  | PBegin _ | PWaiting _ _ | PWoken _ _ => a
  end.
Definition a_event (l : event prog) (a : Slot) : Slot :=
  match l with
  | EvRun _ p _ => a_step p a
  | EvCancel _ | EvTimeout _ => a_waits Free a
  | EvCall _ _ | EvWake _ _ _ | EvOff _ => a
  end.

Definition wait_state (W : option EWaitResult) (po : option pc) : WaitState :=
  match po with
  | Some (PEnd _) => Granted
  | Some (PWoken _ r) => if bool_decide (r = WAIT_RESULT_SIGNAL) then Granted else Free
  | Some (PWaiting _ _) => match W with Some r => if bool_decide (r = WAIT_RESULT_SIGNAL) then Granted else Free | None => Listed end
  | _ => Free
  end.
Definition abs (m : M) (pcs : gmap Z pc) : Slot :=
  mkA (value (fields m)) (pending (fields m)) (negb (Semaphore.m_count (sem (fields m)) =? 0)) (wait_state (woken m !! owner) (pcs !! owner)).

(** ** Every run acts on the slot as described *)

(** The program: the calls are for this slot, whose index is valid; a task that
    takes or waits does so on its own slot. *)
Definition notify_pre (tr : list (event prog)) (cx : ctx) (c : call) : Prop :=
  c_isr cx = false ∧ ResolveNotifyTarget cx (handle c) = Ok owner.

Definition owner_point (p : pc) : bool :=
  match p with
  | PBegin (CTake _ _) | PBegin (CNotifyWait _ _ _ _) | PEntry _ _ _ | PWait _ _ | PWaiting _ _ | PWoken _ _ | PEnd _ => true
  | _ => false
  end.
Record sem_ok (m : M) : Prop := {
  so_max : Semaphore.m_count_max (sem (fields m)) = 1;
  so_count : 0 ≤ Semaphore.m_count (sem (fields m)) ≤ 1;
  so_empty : wait_list 0 m ≠ [] → Semaphore.m_count (sem (fields m)) = 0;
}.
Definition owner_ok (pcs : gmap Z pc) : Prop := ∀ t p, pcs !! t = Some p → owner_point p = true → t = owner.
(** The wait list has the owner, or nobody. *)
Definition list_ok (m : M) (pcs : gmap Z pc) : Prop := ∀ t, t ∈ wait_list 0 m ↔ t = owner ∧ a_wait (abs m pcs) = Listed.

Lemma wf_list_ok (m : M) (pcs : gmap Z pc) off : threads_wf (mkThreads (G := prog) m pcs off) → owner_ok pcs → list_ok m pcs.
Proof.
  intros Hw Ho t. cbn [a_wait abs]. split.
  - intros Hl. destruct (wf_list (G := prog) _ 0 t Hw Hl) as (Hn & p & Hp & Hcv). cbn in Hn, Hp, Hcv, p. destruct p; try done.
    assert (t = owner) as -> by (by apply (Ho t _ Hp)). split; [done|]. by rewrite Hp, Hn.
  - intros [-> Hs]. revert Hs. destruct (pcs !! owner) as [p|] eqn:Hp; [|done]. destruct p as [| | | | | |ticks k|k r| | |]; try done; cbn.
    + destruct (woken m !! owner) as [r|] eqn:Hr; [by case_bool_decide|]. intros _.
      destruct (wf_at (G := prog) _ owner (PWaiting ticks k) 0 Hw Hp eq_refl) as [[r Hr']|]; [|done]. discriminate (eq_trans (eq_sym Hr) Hr').
    + by case_bool_decide.
Qed.

(** A signal wakes the owner or raises the flag. *)
Lemma signal_ok (m : M) pcs : sem_ok m → list_ok m pcs → sem_ok (TrySignal m) ∧ abs (TrySignal m) pcs = a_signal (abs m pcs).
Proof.
  intros [Hm Hc He] Hl. unfold TrySignal, Semaphore.TrySignal, Semaphore.TrySignalLimited, IsEmpty.
  change (wait_list 0 (sem_of m)) with (wait_list 0 m). cbn [fields sem_of]. rewrite Hm. destruct (wait_list 0 m) as [|t l] eqn:E.
  - assert (Hw : a_wait (abs m pcs) ≠ Listed). { intros Hw. apply (not_elem_of_nil owner). rewrite <- E. by apply Hl. }
    unfold a_signal. destruct (_ >=? 1) eqn:Eg; cbn [snd].
    + assert (E1 : Semaphore.m_count (sem (fields m)) = 1) by lia. split; [done|]. unfold abs in *. cbn in *. rewrite E1.
      by destruct (wait_state _ _).
    + assert (E0 : Semaphore.m_count (sem (fields m)) = 0) by lia. unfold abs in *. cbn in *. rewrite E0. split; [split|]; cbn; try done.
      by destruct (wait_state _ _).
  - assert (E0 : Semaphore.m_count (sem (fields m)) = 0) by (by apply He).
    assert (Ht : t ∈ wait_list 0 m) by (rewrite E; left). apply Hl in Ht as [-> Hw]. cbn [snd]. unfold a_signal. rewrite Hw.
    unfold WakeOne. change (wait_list 0 (sem_of m)) with (wait_list 0 m). rewrite E. split; [split|]; cbn.
    + done.
    + lia.
    + done.
    + unfold abs in *. cbn in *. rewrite lookup_insert_eq. f_equal. revert Hw.
      destruct (pcs !! owner) as [p|]; [|done]. destruct p; try done. cbn. by case_bool_decide.
Qed.

Lemma wait_put W t p po pcs : pcs !! t = Some p → wait_state W po = wait_state W (Some p) →
  wait_state W (put t po pcs !! owner) = wait_state W (pcs !! owner).
Proof. intros Hp E. rewrite pcs_put_lookup. case_decide; subst; [by rewrite E, Hp|done]. Qed.
Lemma abs_put (m : M) t p po pcs : pcs !! t = Some p →
  wait_state (woken m !! owner) po = wait_state (woken m !! owner) (Some p) → abs m (put t po pcs) = abs m pcs.
Proof. intros Hp E. unfold abs. by rewrite (wait_put _ t p). Qed.
Lemma list_put (m : M) pcs pcs' : list_ok m pcs → abs m pcs' = abs m pcs → list_ok m pcs'.
Proof. intros H E t. rewrite E. apply H. Qed.

Section step.
Context (m : M) (pcs : gmap Z pc) (off : gset Z) (cx : ctx).
Context (Hw : threads_wf (mkThreads (G := prog) m pcs off)) (Hs : sem_ok m) (Ho : owner_ok pcs) (Hisr : c_isr cx = false).
Notation t := (c_tid cx).

Lemma sem_fields v b : sem_ok (set_fields (mkSlot v b (sem (fields m))) m).
Proof using Hs. by destruct Hs. Qed.

(** A signal by a task that does not wait, after a change of the value. *)
Lemma signal_put v b p po : pcs !! t = Some p → wait_state (woken m !! owner) po = wait_state (woken m !! owner) (Some p) →
  let m1 := set_fields (mkSlot v b (sem (fields m))) m in
  sem_ok (TrySignal m1) ∧ abs (TrySignal m1) (put t po pcs) = a_signal (a_set v b (abs m pcs)).
Proof using Hw Hs Ho.
  intros Hp E m1. destruct (signal_ok m1 (put t po pcs)) as [H1 H2]; [apply sem_fields| |].
  - intros u. rewrite (wf_list_ok m pcs off Hw Ho u : u ∈ wait_list 0 m1 ↔ _). by unfold abs; cbn; rewrite (wait_put _ t p).
  - split; [done|]. rewrite H2. f_equal. unfold abs, a_set. cbn. by rewrite (wait_put _ t p).
Qed.

Lemma wait_segment_ok ticks k m' n : pcs !! t = Some (PWait ticks k) →
  Wait_segment ticks k m (Semaphore.WaitEx 16 cx (FrtosTimeoutToStk ticks) (sem_of m)) = Ok (m', n) →
  let w' := proceed (G := prog) t m' n (mkThreads (G := prog) m pcs off) in
  sem_ok (t_mon w') ∧ abs (t_mon w') (t_pcs w') = a_step (PWait ticks k) (abs m pcs).
Proof using Hw Hs Ho Hisr.
  intros Hp. assert (Et := Ho t _ Hp eq_refl). destruct (wf_not_waiting (G := prog) _ t _ Hw Hp eq_refl) as [Hn _]. cbn in Hn.
  unfold Semaphore.WaitEx. cbn [fields sem_of]. destruct Hs as [Hm Hc He]. rewrite Hisr.
  destruct (Semaphore.m_count (sem (fields m)) =? 0) eqn:E; cbn [negb stk_assert].
  - destruct (FrtosTimeoutToStk ticks =? NO_WAIT) eqn:En; cbn; intros [= <- <-]; cbn.
    + split; [done|]. unfold abs. cbn. rewrite E, En. cbn. by rewrite <- Et, lookup_delete_eq, Hp.
    + split; [split; cbn; [done|done|lia]|]. unfold abs. cbn. rewrite E, En. cbn. by rewrite <- Et, lookup_insert_eq, Hn.
  - intros [= <- <-]. assert (E1 : Semaphore.m_count (sem (fields m)) = 1) by lia. rewrite E1. split; [split; cbn; try done; lia|].
    unfold abs. cbn. rewrite E. cbn. by rewrite <- Et, lookup_insert_eq.
Qed.
(** A step that leaves the semaphore and the wait list alone. *)
Lemma fields_put v b p po : pcs !! t = Some p → wait_state (woken m !! owner) po = wait_state (woken m !! owner) (Some p) →
  let m1 := set_fields (mkSlot v b (sem (fields m))) m in
  sem_ok m1 ∧ abs m1 (put t po pcs) = a_set v b (abs m pcs).
Proof using Hs. intros Hp E m1. split; [apply sem_fields|]. unfold abs, a_set. cbn. by rewrite (wait_put _ t p). Qed.
Lemma same_put (p : pc) po : pcs !! t = Some p → wait_state (woken m !! owner) po = wait_state (woken m !! owner) (Some p) →
  sem_ok m ∧ abs m (put t po pcs) = abs m pcs.
Proof using Hs. intros Hp E. split; [done|]. by apply (abs_put m t p). Qed.

Lemma take_ok clr : pcs !! t = Some (PEnd (KTake clr)) →
  let '(_, m') := ulTaskNotifyTakeIndexed clr m in
  sem_ok m' ∧ abs m' (put t None pcs) = a_take clr (abs m pcs).
Proof using Hw Hs Ho.
  intros Hp. assert (Et := Ho t _ Hp eq_refl). unfold ulTaskNotifyTakeIndexed, a_take. cbn [a_value abs].
  set (v := if clr =? pdTRUE then 0 else if value (fields m) >? 0 then value (fields m) - 1 else value (fields m)).
  replace (if clr =? pdTRUE then set_value 0 (set_pending false (fields m)) else _) with (mkSlot v false (sem (fields m)))
    by (unfold v; cbn; by repeat case_match).
  set (m1 := set_fields _ m). assert (Ea : abs m1 (put t None pcs) = a_waits Free (a_set v false (abs m pcs))).
  { unfold abs, a_waits. cbn. by rewrite <- Et, lookup_delete_eq. }
  cbn [value]. destruct (v >? 0); [|split; [apply sem_fields|done]].
  destruct (signal_ok m1 (put t None pcs)) as [H1 H2]; [apply sem_fields| |by rewrite H2, Ea].
  intros u. rewrite (wf_list_ok m pcs off Hw Ho u : u ∈ wait_list 0 m1 ↔ _), Ea. cbn. rewrite <- Et, Hp. cbn. naive_solver.
Qed.

Lemma state_clear_ok b m' : pcs !! t = Some PStateClear → xTaskNotifyStateClearIndexed cx m = Ok (b, m') →
  sem_ok m' ∧ abs m' (put t None pcs) = a_step PStateClear (abs m pcs).
Proof using Hs.
  intros Hp. unfold xTaskNotifyStateClearIndexed, Semaphore.WaitEx, Semaphore.GetCount. cbn [fields sem_of]. destruct Hs as [Hm Hc He].
  assert (Ew := wait_put (woken m !! owner) t PStateClear None pcs Hp eq_refl). cbn [put] in Ew.
  destruct (Semaphore.m_count (sem (fields m)) =? 0) eqn:E; cbn [negb orb].
  - destruct (pending (fields m)) eqn:Ep; cbn; intros [= <- <-]; (split; [done|]); unfold abs; cbn; by rewrite ?E, ?Ep, Ew.
  - cbn. intros [= <- <-]. assert (E1 : Semaphore.m_count (sem (fields m)) = 1) by lia. rewrite E1.
    split; [split; cbn; try done; lia|]. unfold abs. cbn. by rewrite Ew.
Qed.

Lemma run_abs p m' n : pcs !! t = Some p → resume_pc p = None → exec_pc cx p m = Ok (m', n) →
  let w' := proceed (G := prog) t m' n (mkThreads (G := prog) m pcs off) in
  sem_ok (t_mon w') ∧ abs (t_mon w') (t_pcs w') = a_step p (abs m pcs).
Proof using Hw Hs Ho Hisr.
  intros Hp Hr. destruct p as [c| |v a want|prev|bits ticks k|ticks k|ticks k|k r|[clr|exit want]| |bits]; cbn [exec_pc].
  - unfold Begin. rewrite Hisr. destruct (ResolveNotifyTarget _ _); cbn; [|done]. intros [= <- <-].
    apply (same_put (PBegin c) (Some (first c))); [done|]. by destruct c.
  - intros [= <- <-]. by apply (signal_put (u32 (value (fields m) + 1)) (pending (fields m)) PGive None).
  - intros H. set (w' := proceed (G := prog) t m' n _).
    assert (E : ∃ po, t_pcs w' = put t po pcs ∧ wait_state (woken m !! owner) po = Free ∧ t_mon w' = m').
    { unfold w'. unfold xTaskNotifyAndQueryIndexed in H. destruct (NotifyApplyAction _ _ _) as [? []]; injection H as <- <-;
        [by eexists (Some _)|by exists None]. }
    destruct E as (po & -> & Ew & ->).
    assert (E : m' = set_fields (mkSlot (a_value (a_apply v a (abs m pcs))) (a_pending (a_apply v a (abs m pcs))) (sem (fields m))) m).
    { unfold xTaskNotifyAndQueryIndexed in H. destruct (fields m) as [fv fp fs] eqn:Ef.
      unfold a_apply, abs. cbn [a_value a_pending a_set]. rewrite Ef. destruct a; cbn in H |- *; [..|destruct fp; cbn in H |- *];
        injection H as <- _; rewrite ?Ef; done. }
    rewrite E. by apply (fields_put _ _ (PApply v a want) po).
  - intros [= <- <-]. destruct (signal_put (value (fields m)) (pending (fields m)) (PSignal prev) None Hp eq_refl) as [H1 H2]. by destruct m as [[] ? ? ?].
  - intros [= <- <-]. by apply (fields_put _ _ (PEntry bits ticks k) (Some (PWait ticks k))).
  - by apply wait_segment_ok.
  - done.
  - cbn. intros H. assert (E := Ho t _ Hp eq_refl). case_bool_decide as Er; injection H as <- <-; cbn; (split; [by destruct Hs|]); unfold abs; cbn.
    + rewrite <- E, lookup_insert_eq, Hp. cbn. by rewrite bool_decide_eq_true_2.
    + rewrite <- E, lookup_delete_eq, Hp. cbn. by rewrite bool_decide_eq_false_2.
  - assert (H := take_ok clr Hp). destruct (ulTaskNotifyTakeIndexed clr m) as [v m1]. by intros [= <- <-].
  - intros [= <- <-]. cbn. assert (E := Ho t _ Hp eq_refl). split; [apply sem_fields|]. unfold abs. cbn. by rewrite <- E, lookup_delete_eq.
  - destruct (xTaskNotifyStateClearIndexed cx m) as [[b m1]|] eqn:E; cbn; [|done]. intros [= <- <-]. by apply (state_clear_ok b).
  - intros [= <- <-]. by apply (fields_put _ _ (PValueClear bits) None).
Qed.
End step.

(** The next point of a call. *)
Definition succ (p p' : pc) : Prop :=
  match p with
  | PBegin c => p' = first c
  | PApply _ _ _ => ∃ prev, p' = PSignal prev
  | PEntry _ ticks k => p' = PWait ticks k
  | PWait ticks k => p' = PEnd k ∨ p' = PWaiting ticks k
  | PWoken k r => r = WAIT_RESULT_SIGNAL ∧ p' = PEnd k
  | PGive | PSignal _ | PWaiting _ _ | PEnd _ | PStateClear | PValueClear _ => False
  end.
Lemma exec_succ cx p (m m' : M) n p' : exec_pc cx p m = Ok (m', n) → next_pc n = Some p' → succ p p'.
Proof.
  destruct p as [c| |v a want|prev|bits ticks k|ticks k|ticks k|k r|[clr|exit want]| |bits]; cbn [exec_pc succ]; try done.
  - unfold Begin. destruct (if c_isr cx then _ else _); [by intros [= <- <-]|]. destruct (ResolveNotifyTarget _ _); cbn; [|done].
    intros [= <- <-]. by intros [= <-].
  - by intros [= <- <-].
  - unfold xTaskNotifyAndQueryIndexed. destruct (NotifyApplyAction _ _ _) as [? []]; intros [= <- <-]; [|done]. intros [= <-]. eauto.
  - by intros [= <- <-].
  - intros [= <- <-]. by intros [= <-].
  - unfold Wait_segment. destruct (Semaphore.WaitEx _ _ _ _) as [[x [[r| |]|]]|]; cbn; try done; [case_bool_decide|]; intros [= <- <-]; try done;
      intros [= <-]; auto.
  - cbn. case_bool_decide; intros [= <- <-]; [|done]. by intros [= <-].
  - destruct (ulTaskNotifyTakeIndexed clr m) as [v m1]. by intros [= <- <-].
  - by intros [= <- <-].
  - destruct (xTaskNotifyStateClearIndexed cx m) as [[b m1]|]; cbn; [|done]. by intros [= <- <-].
  - by intros [= <- <-].
Qed.
Lemma owner_succ p p' : succ p p' → owner_point p' = true → owner_point p = true.
Proof. destruct p as [c| | | | | | | | | |]; cbn; try done; [intros ->; by destruct c|by intros [prev ->]]. Qed.
Lemma owner_put t po pcs : owner_ok pcs → (∀ p, po = Some p → owner_point p = true → t = owner) → owner_ok (put t po pcs).
Proof. intros Ho Hp u p. rewrite pcs_put_lookup. case_decide; subst; [apply Hp|apply Ho]. Qed.

(** A wait of the owner that ends without a signal. *)
Lemma end_abs (m : M) pcs off t r : threads_wf (mkThreads (G := prog) m pcs off) → sem_ok m → owner_ok pcs → t ∈ wait_list 0 m →
  r ≠ WAIT_RESULT_SIGNAL →
  sem_ok (RemoveWaitObject 0 t r m) ∧ abs (RemoveWaitObject 0 t r m) pcs = a_waits Free (abs m pcs).
Proof.
  intros Hw [Hm Hc He] Ho Hl Hr. split; [split; cbn; try done|].
  - intros _. apply He. intros E. rewrite E in Hl. set_solver.
  - apply (wf_list_ok m pcs off Hw Ho) in Hl as [-> Hl]. unfold abs, a_waits in *. cbn in *. rewrite lookup_insert_eq. f_equal. revert Hl.
    destruct (pcs !! owner) as [p|]; [|done]. destruct p; try done; cbn; [by rewrite bool_decide_eq_false_2|by case_bool_decide].
Qed.

Lemma move_abs tr (w : Threads prog) l w' : threads_wf w → sem_ok (t_mon w) → owner_ok (t_pcs w) → move notify_pre tr w l w' →
  sem_ok (t_mon w') ∧ owner_ok (t_pcs w') ∧ abs (t_mon w') (t_pcs w') = a_event l (abs (t_mon w) (t_pcs w)).
Proof.
  intros Hw Hs Ho Hm.
  destruct Hm as [w cx c [Hi Hr] Hn|w cx p m n Hisr Hp Hres _ E|w t p k r Hp Hk Hr|w t p cv Hp Hcv Hl|w t p cv Hp Hcv Hl _|w t p cv Hp Hcv Hl];
    destruct w as [m0 pcs off]; cbn [t_mon t_pcs t_off] in *.
  - split_and!; [done| |].
    + apply (owner_put _ (Some (PBegin c))); [done|]. intros p [= <-] Hp. unfold ResolveNotifyTarget in Hr. inv_res.
      destruct c; try done; cbn in *; congruence.
    + unfold abs. cbn in Hn |- *. destruct (decide (c_tid cx = owner)) as [E|E].
      * rewrite E in *. by rewrite lookup_insert_eq, Hn.
      * by rewrite lookup_insert_ne.
  - destruct (run_abs m0 pcs off cx Hw Hs Ho Hisr p m n Hp Hres E) as [H1 H2]. split_and!; [done| |done].
    rewrite proceed_pcs. apply owner_put; [done|]. intros p' En Hp'. apply (Ho _ p Hp). eapply owner_succ; [by eapply exec_succ|done].
  - destruct p as [| | | | | |ticks k'| | | |]; try done. injection Hk as <-. assert (t = owner) as -> by (by apply (Ho t _ Hp)).
    split_and!; [by destruct Hs|by apply (owner_put owner (Some (PWoken k' r)))|].
    unfold abs. cbn. cbn in Hp, Hr. by rewrite lookup_insert_eq, Hp, Hr.
  - destruct p; try done. injection Hcv as <-. destruct (end_abs m0 pcs off t WAIT_RESULT_CANCELED Hw Hs Ho Hl) as [H1 H2]; done.
  - destruct p; try done. injection Hcv as <-. destruct (end_abs m0 pcs off t WAIT_RESULT_TIMEOUT Hw Hs Ho Hl) as [H1 H2]; done.
  - done.
Qed.

(** What a step finds, and what it returns. *)
Definition fits (l : event prog) (a : Slot) : Prop :=
  match l with
  | EvRun _ (PApply v act want) o =>
      let s := mkSlot (a_value a) (a_pending a) (Semaphore.mkSem 0 1) in
      o = if (NotifyApplyAction s v act).2 then None else Some (RBase pdFAIL (if want then Some (a_value a) else None))
  | EvRun _ (PWait _ _) _ => a_wait a = Free
  | EvRun _ (PEnd (KTake _)) o => a_wait a = Granted ∧ o = Some (RValue (a_value a))
  | EvRun _ (PEnd (KNotifyWait _ want)) o => a_wait a = Granted ∧ o = Some (RBase pdPASS (if want then Some (a_value a) else None))
  | EvRun _ PStateClear o => o = Some (RBase (if a_flag a || a_pending a then pdTRUE else pdFALSE) None)
  | EvCancel _ | EvTimeout _ => a_wait a = Listed
  | _ => True
  end.
Lemma run_fits cx p (m m' : M) n pcs : owner_ok pcs → pcs !! c_tid cx = Some p → exec_pc cx p m = Ok (m', n) →
  fits (EvRun (G := prog) (c_tid cx) p (result_of (G := prog) n)) (abs m pcs).
Proof.
  intros Ho Hp. assert (Hw : owner_point p = true → a_wait (abs m pcs) = wait_state (woken m !! owner) (Some p)).
  { intros Hop. cbn. by rewrite <- (Ho _ _ Hp Hop), Hp. }
  destruct p as [c| |v a want|prev|bits ticks k|ticks k|ticks k|k r|[clr|exit want]| |bits]; cbn [exec_pc fits]; try done.
  - unfold xTaskNotifyAndQueryIndexed. intros H. destruct (fields m) as [fv fp fs] eqn:Ef. unfold abs. cbn [a_value a_pending]. rewrite Ef.
    destruct a; cbn in H |- *; [..|destruct fp; cbn in H |- *]; by injection H as <- <-.
  - intros _. by apply Hw.
  - unfold ulTaskNotifyTakeIndexed. intros [= <- <-]. by split; [apply Hw|].
  - intros [= <- <-]. by split; [apply Hw|].
  - unfold xTaskNotifyStateClearIndexed. cbn [a_flag a_pending abs]. change (Semaphore.GetCount (sem_of m)) with (Semaphore.m_count (sem (fields m))).
    destruct (_ || _); cbn [mbind res_bind]; [|by intros [= <- <-]]. destruct (Semaphore.WaitEx _ _ _ _) as [[x o]|]; cbn; [|done]. by intros [= <- <-].
Qed.
Lemma move_fits pre tr (w : Threads prog) l w' : threads_wf w → owner_ok (t_pcs w) → move pre tr w l w' → fits l (abs (t_mon w) (t_pcs w)).
Proof.
  intros Hw Ho Hm. destruct Hm as [w cx c _ Hn|w cx p m n Hisr Hp Hres _ E|w t p k r Hp Hk Hr|w t p cv Hp Hcv Hl|w t p cv Hp Hcv Hl _|w t p cv Hp Hcv Hl];
    destruct w as [m0 pcs off]; cbn [t_mon t_pcs t_off] in *; try done.
  - by eapply run_fits.
  - destruct p; try done. injection Hcv as <-. by apply (wf_list_ok m0 pcs off Hw Ho) in Hl as [_ ?].
  - destruct p; try done. injection Hcv as <-. by apply (wf_list_ok m0 pcs off Hw Ho) in Hl as [_ ?].
Qed.

Definition start : Threads prog := fresh (G := prog) NotifySlot_ctor.
Definition a_start : Slot := mkA 0 false false Free.

(** Induction over the runs, in terms of the slot and the points of the tasks. *)
Lemma notify_ind pre (Inv : list (event prog) → Slot → gmap Z pc → Prop) : (∀ tr cx c, pre tr cx c → notify_pre tr cx c) →
  Inv [] a_start ∅ →
  (∀ tr w l w', move (G := prog) pre tr w l w' → fits l (abs (t_mon w) (t_pcs w)) → Inv tr (abs (t_mon w) (t_pcs w)) (t_pcs w) →
    Inv (tr ++ [l]) (a_event l (abs (t_mon w) (t_pcs w))) (t_pcs w')) →
  ∀ tr w, moves (G := prog) pre start tr w →
    (owner ∈ wait_list 0 (t_mon w) → a_wait (abs (t_mon w) (t_pcs w)) = Listed ∧ a_flag (abs (t_mon w) (t_pcs w)) = false) ∧
    Inv tr (abs (t_mon w) (t_pcs w)) (t_pcs w).
Proof.
  intros Hpre H0 HS tr w H.
  destruct (moves_ind_wf pre NotifySlot_ctor (λ tr w, (sem_ok (t_mon w) ∧ owner_ok (t_pcs w)) ∧ Inv tr (abs (t_mon w) (t_pcs w)) (t_pcs w)))
    with (tr := tr) (w := w) as (Hw & (Hs & Ho) & Hi); [| |done|].
  - split; [|done]. split; [split; cbn; [done|lia|done]|]. by intros t p.
  - clear tr w H. intros tr w l w' _ Hw _ ((Hs & Ho) & Hi) Hm. assert (Hm' : move notify_pre tr w l w').
    { destruct Hm; econstructor; eauto. }
    destruct (move_abs tr w l w' Hw Hs Ho Hm') as (H1 & H2 & H3). split; [done|]. rewrite H3. apply (HS tr w l w'); [done| |done]. by eapply move_fits.
  - split; [|done]. destruct w as [m pcs off]. cbn [t_mon t_pcs] in *. intros Hl. split; [apply (wf_list_ok m pcs off Hw Ho owner), Hl|].
    cbn. rewrite (so_empty m Hs); [done|]. intros E. apply (not_elem_of_nil owner). by rewrite <- E.
Qed.

(** ** What the points and the notifiers do *)

(** A property of the points that the calls keep to. *)
Lemma points_move (ok : pc → bool) (pre : list (event prog) → ctx → call → Prop) tr (w : Threads prog) l w' :
  (∀ cx c, pre tr cx c → ok (PBegin c) = true) → (∀ p p', ok p = true → succ p p' → ok p' = true) →
  (∀ ticks k r, ok (PWaiting ticks k) = true → ok (PWoken k r) = true) →
  (∀ t p, t_pcs w !! t = Some p → ok p = true) → move pre tr w l w' → ∀ t p, t_pcs w' !! t = Some p → ok p = true.
Proof.
  intros Hc Hs Hr H Hm. assert (HP : ∀ u po, (∀ p, po = Some p → ok p = true) → ∀ t p, put u po (t_pcs w) !! t = Some p → ok p = true).
  { intros u po Hpo t p. rewrite pcs_put_lookup. case_decide; [apply Hpo|apply H]. }
  destruct Hm as [w cx c Hpre _|w cx p m n _ Hp _ _ E|w t p k r Hp Hk _|w t p cv _ _ _|w t p cv _ _ _ _|w t p cv _ _ _]; try done.
  - apply (HP _ (Some (PBegin c))). intros p [= <-]. by eapply Hc.
  - rewrite proceed_pcs. apply HP. intros p' En. apply (Hs p); [by apply (H _ _ Hp)|by eapply exec_succ].
  - destruct p as [| | | | | |ticks k'| | | |]; try done. injection Hk as <-. apply (HP _ (Some (PWoken k' r))). intros p [= <-].
    apply (Hr ticks). by apply (H _ _ Hp).
Qed.

(** The notifiers between the action and the wake-up. *)
Definition signalling (p : pc) : bool := match p with PSignal _ => true | _ => false end.
Definition signals (l : event prog) : Z :=
  match l with EvRun _ (PApply _ _ _) None => 1 | EvRun _ (PSignal _) _ => -1 | _ => 0 end.
Lemma run_signals cx p (m m' : M) n : exec_pc cx p m = Ok (m', n) →
  at_point signalling (next_pc n) - b2z (signalling p) = signals (EvRun (G := prog) (c_tid cx) p (result_of (G := prog) n)).
Proof.
  intros E. destruct (next_pc n) as [p'|] eqn:En.
  - assert (Hs := exec_succ _ _ _ _ _ _ E En). destruct p as [c| |v a want|prev| |ticks k| |k r| | |]; cbn in Hs; try done; try (by subst p').
    + subst p'. by destruct c.
    + destruct Hs as [prev ->]. by destruct n.
    + by destruct Hs as [-> | ->].
    + by destruct Hs as [_ ->].
  - destruct n; try done. destruct p; try done.
Qed.
Lemma signalling_move pre tr (w : Threads prog) l w' : move pre tr w l w' →
  blocked_as signalling (t_pcs w') = blocked_as signalling (t_pcs w) + signals l.
Proof.
  intros Hm. destruct Hm as [w cx c _ Hn|w cx p m n _ Hp _ _ E|w t p k r Hp Hk _|w t p cv _ _ _|w t p cv _ _ _ _|w t p cv _ _ _]; cbn [t_pcs signals]; try lia.
  - rewrite (blocked_insert signalling) by exact Hn. done.
  - rewrite proceed_pcs, (blocked_put _ _ _ p) by exact Hp. transitivity (blocked_as signalling (t_pcs w) + (at_point signalling (next_pc n) - b2z (signalling p))); [cbn; lia|].
    f_equal. exact (run_signals _ _ _ _ _ E).
  - destruct p as [| | | | | |ticks k'| | | |]; try done. injection Hk as <-.
    assert (H := blocked_put signalling _ t _ (Some (PWoken k' r)) Hp). cbn in H |- *. lia.
Qed.

(** ** No wake-up is lost *)

(** A notification has come in since the owner last took or read one. *)
Definition owe (b : bool) (l : event prog) : bool :=
  match l with
  | EvRun _ PGive _ | EvRun _ (PSignal _) _ => true
  | EvRun _ (PEnd _) _ => false
  | EvRun _ PStateClear (Some (RBase r _)) => if r =? pdTRUE then false else b
  | _ => b
  end.
Definition owed (tr : list (event prog)) : bool := foldl owe false tr.

(** Whatever calls are made, with whatever actions: as long as a notification has
    come in that the owner has neither taken nor read, and that nobody has
    cleared, the owner is not left on the wait list. *)
Theorem notify_no_lost_wakeup tr (w : Threads prog) : moves (G := prog) notify_pre start tr w → owed tr = true →
  owner ∉ wait_list 0 (t_mon w).
Proof.
  intros Hr Ho. destruct (notify_ind notify_pre (λ tr a _, owed tr = true → a_flag a = true ∨ a_wait a = Granted) ltac:(done))
    with (tr := tr) (w := w) as [Hl Hi]; [done| |done|].
  - clear tr w Hr Ho. intros tr w l w' _ Hf IH. set (a := abs _ _) in *. clearbody a. unfold owed in *. rewrite foldl_snoc.
    destruct l as [|t p o| | | |]; cbn [owe a_event]; try done; [|cbn in Hf; rewrite Hf in IH; cbn; naive_solver..].
    assert (HS : ∀ b, a_flag (a_signal b) = true ∨ a_wait (a_signal b) = Granted).
    { intros b. unfold a_signal. destruct (a_wait b); cbn; auto. }
    destruct p as [c| |v act want|prev|bits ticks k|ticks k|ticks k|k r|[clr|exit want]| |bits]; cbn [a_step owe]; auto; try done.
    + cbn in Hf. destruct (a_flag a) eqn:Ef; cbn; [by right|]. rewrite Hf in IH. destruct (_ =? _); cbn; rewrite ?Ef; naive_solver.
    + cbn in Hf. subst o. destruct (a_flag a) eqn:Ef; cbn; [done|]. destruct (a_pending a); cbn; [done|]. naive_solver.
  - intros Hin. apply Hl in Hin as [Hw Hf]. specialize (Hi Ho). destruct Hi; congruence.
Qed.

(** ** Give and take are a counting semaphore *)

Definition sem_pre (tr : list (event prog)) (cx : ctx) (c : call) : Prop :=
  notify_pre tr cx c ∧ match c with CGive _ => True | CTake clr _ => clr ≠ pdTRUE | _ => False end.
Definition sem_point (p : pc) : bool :=
  match p with
  | PBegin (CGive _) | PGive => true
  | PBegin (CTake clr _) | PWait _ (KTake clr) | PWaiting _ (KTake clr) | PWoken (KTake clr) _ | PEnd (KTake clr) => negb (clr =? pdTRUE)
  | _ => false
  end.
Definition gave (l : event prog) : Z := match l with EvRun _ PGive _ => 1 | _ => 0 end.
Definition took (l : event prog) : Z := match l with EvRun _ (PEnd (KTake _)) _ => 1 | _ => 0 end.
(** The wake-ups there are: raised, or in the hands of the owner. *)
Definition tokens (a : Slot) : Z := b2z (a_flag a) + b2z (bool_decide (a_wait a = Granted)).

Lemma sem_point_succ p p' : sem_point p = true → succ p p' → sem_point p' = true.
Proof.
  destruct p as [c| |v act want|prev|bits ticks k|ticks k|ticks k|k r|k| |bits]; cbn; try done.
  - intros H ->. by destruct c.
  - destruct k; [|done]. by intros H [-> | ->].
  - destruct k; [|done]. by intros H [_ ->].
Qed.
Lemma sem_points tr (w : Threads prog) l w' : (∀ t p, t_pcs w !! t = Some p → sem_point p = true) → move sem_pre tr w l w' →
  ∀ t p, t_pcs w' !! t = Some p → sem_point p = true.
Proof.
  apply points_move; [|apply sem_point_succ|by intros ? []].
  intros cx c [_ H]. destruct c; try done. cbn. by apply negb_true_iff, Z.eqb_neq.
Qed.

(** The value is the number of gives that were not taken; there is a wake-up iff it is
    positive, and never more of them than it says. *)
Record counts (tr : list (event prog)) (a : Slot) : Prop := {
  cn_value : a_value a = tally gave tr - tally took tr;
  cn_tokens : tokens a ≤ a_value a;
  cn_wake : 0 < a_value a → 0 < tokens a;
  cn_took t clr o : EvRun (G := prog) t (PEnd (KTake clr)) o ∈ tr → ∃ v, o = Some (RValue v) ∧ 1 ≤ v;
}.
Lemma tokens_nonneg a : 0 ≤ tokens a ≤ 2.
Proof. unfold tokens, b2z. destruct (a_flag a), (bool_decide _); lia. Qed.
Lemma counts_start : counts [] a_start.
Proof. split; [done|done|done|]. intros t clr o H. by apply not_elem_of_nil in H. Qed.
Lemma took_snoc tr l t clr o : EvRun (G := prog) t (PEnd (KTake clr)) o ∈ tr ++ [l] → took l = 0 → EvRun (G := prog) t (PEnd (KTake clr)) o ∈ tr.
Proof. intros [H|H]%elem_of_app Hl; [done|]. apply list_elem_of_singleton in H as <-. done. Qed.
Lemma counts_same tr a l a' : counts tr a → gave l = 0 → took l = 0 → a_value a' = a_value a → tokens a' = tokens a → counts (tr ++ [l]) a'.
Proof.
  intros [Hv Ht Hw Hr] Hg Hk Ev Et. split; rewrite ?tally_snoc, ?Hg, ?Hk, ?Ev, ?Et; [lia|lia|done|].
  intros t clr o H. by eapply Hr, took_snoc.
Qed.
Lemma tokens_signal a : (if bool_decide (a_wait a = Listed) then tokens (a_signal a) = tokens a + 1 else 1 ≤ tokens (a_signal a) ≤ tokens a + 1) ∧
  a_value (a_signal a) = a_value a.
Proof. unfold tokens, a_signal. destruct a as [v p [] []]; cbn; repeat case_bool_decide; cbn; try done; split; (lia || done). Qed.

Lemma counts_run tr a t p o : counts tr a → fits (EvRun (G := prog) t p o) a → sem_point p = true →
  tally gave (tr ++ [EvRun (G := prog) t p o]) < 2 ^ 32 → 0 ≤ tally took tr → counts (tr ++ [EvRun (G := prog) t p o]) (a_step p a).
Proof.
  intros Hc Hf Hp Hg Hk. rewrite tally_snoc in Hg.
  destruct p as [c| |v act want|prev|bits ticks [clr|]|ticks [clr|]|ticks [clr|]|[clr|] r|[clr|]| |bits]; try done; try (by apply (counts_same tr a)).
  - destruct Hc as [Hv Ht Hw Hr]. cbn in Hg. cbn [a_step]. pose proof (tokens_nonneg a).
    assert (Eu : u32 (a_value a + 1) = a_value a + 1) by (unfold u32; apply Z.mod_small; lia). rewrite Eu.
    destruct (tokens_signal (a_set (a_value a + 1) (a_pending a) a)) as [Hs Es]. change (tokens (a_set _ _ a)) with (tokens a) in Hs.
    split; rewrite ?tally_snoc, ?Es; cbn [gave took a_value a_set]; [lia|case_bool_decide; lia|case_bool_decide; lia|].
    intros u clr o' Hin. by eapply Hr, took_snoc.
  - apply (counts_same tr a); [done..| |]; cbn [a_step]; cbn in Hf; unfold tokens; destruct (a_flag a) eqn:Ef; cbn; rewrite ?Hf; try done;
      destruct (_ =? _); cbn; rewrite ?Hf, ?Ef; done.
  - cbn in Hf. destruct Hf as [Hf ->], Hc as [Hv Ht Hw Hr]. cbn [a_step]. unfold a_take. cbn in Hp. apply negb_true_iff in Hp. rewrite Hp.
    assert (H1 : 1 + b2z (a_flag a) ≤ a_value a) by (unfold tokens in Ht; rewrite bool_decide_eq_true_2 in Ht by done; cbn in Ht; lia).
    destruct (a_value a >? 0) eqn:E0; [|unfold b2z in *; destruct (a_flag a); lia]. set (a1 := a_waits Free _).
    assert (E1 : tokens a1 = b2z (a_flag a)) by (unfold tokens; cbn; rewrite bool_decide_eq_false_2 by done; cbn; lia).
    assert (Hs : tokens (a_signal a1) = 1) by done. destruct (tokens_signal a1) as [_ Es]. change (a_value a1) with (a_value a - 1) in Es.
    set (a2 := if a_value a - 1 >? 0 then a_signal a1 else a1).
    assert (H2 : a_value a2 = a_value a - 1 ∧ tokens a2 ≤ a_value a2 ∧ (0 < a_value a2 → 0 < tokens a2)).
    { unfold a2. destruct (a_value a - 1 >? 0) eqn:E2; rewrite ?Es, ?Hs; [|change (a_value a1) with (a_value a - 1)];
        unfold b2z in *; destruct (a_flag a); lia. }
    destruct H2 as (Ev & Ht2 & Hw2). split; rewrite ?tally_snoc; cbn [gave took]; [lia|done|done|].
    intros u c o [?|Hin]%elem_of_app; [by apply (Hr u c)|]. apply list_elem_of_singleton in Hin. injection Hin as -> -> ->.
    eexists. split; [done|]. unfold b2z in H1. destruct (a_flag a); lia.
Qed.

Lemma took_nonneg tr : 0 ≤ tally took tr.
Proof.
  induction tr as [|l tr IH] using rev_ind; [done|]. rewrite tally_snoc.
  assert (0 ≤ took l) by (unfold took; repeat case_match; lia). lia.
Qed.
Lemma gave_snoc tr l : tally gave tr ≤ tally gave (tr ++ [l]).
Proof. rewrite tally_snoc. assert (0 ≤ gave l) by (unfold gave; repeat case_match; lia). lia. Qed.

Lemma run_counts tr (w : Threads prog) : moves (G := prog) sem_pre start tr w → tally gave tr < 2 ^ 32 →
  (owner ∈ wait_list 0 (t_mon w) → tokens (abs (t_mon w) (t_pcs w)) = 0) ∧ counts tr (abs (t_mon w) (t_pcs w)).
Proof.
  intros Hr Hg. destruct (notify_ind sem_pre (λ tr a pcs, (∀ t p, pcs !! t = Some p → sem_point p = true) ∧ (tally gave tr < 2 ^ 32 → counts tr a)))
    with (tr := tr) (w := w) as [Hl [_ Hi]]; [by intros ??? []| | |done|].
  - split; [by intros t p|intros _; apply counts_start].
  - clear tr w Hr Hg. intros tr w l w' Hm Hf [Hp IH]. split; [by eapply sem_points|]. intros Hg.
    assert (Hg' := gave_snoc tr l). specialize (IH ltac:(lia)). set (a := abs _ _) in *.
    assert (Hrun : ∀ t p o, l = EvRun t p o → sem_point p = true) by (intros t p o ->; inversion Hm; subst; by eapply Hp).
    clearbody a. destruct l as [t c|t p o|t p r|t|t|t]; cbn [a_event]; try (by apply (counts_same tr a)).
    + apply counts_run; [done|done|by eapply Hrun|done|apply took_nonneg].
    + cbn in Hf. apply (counts_same tr a); [done..|]. unfold tokens. cbn. by rewrite Hf.
    + cbn in Hf. apply (counts_same tr a); [done..|]. unfold tokens. cbn. by rewrite Hf.
  - split; [|by apply Hi]. intros [Hw Hf]%Hl. unfold tokens. by rewrite Hw, Hf.
Qed.

(** C35. Give and take make a slot a counting semaphore, although the kernel object
    behind it is only binary.  In every interleaving of the critical sections of
    any number of notifiers with those of the owner, who takes without clearing,
    with timeouts and cancellations: the value is the number of gives minus the
    number of takes; a take that is woken returns at least 1; and while the owner
    is on the wait list no notification is outstanding.  The value is 32 bits
    wide: fewer than 2^32 gives. *)
Theorem notify_is_semaphore tr (w : Threads prog) : moves (G := prog) sem_pre start tr w → tally gave tr < 2 ^ 32 →
  value (fields (t_mon w : M)) = tally gave tr - tally took tr ∧
  (owner ∈ wait_list 0 (t_mon w) → value (fields (t_mon w : M)) = 0) ∧
  (∀ t clr o, EvRun (G := prog) t (PEnd (KTake clr)) o ∈ tr → ∃ v, o = Some (RValue v) ∧ 1 ≤ v).
Proof.
  intros Hr Hg. destruct (run_counts tr w Hr Hg) as [Hl [Hv Ht Hw Hk]]. cbn in Hv. split_and!; [done| |done].
  intros Hin. specialize (Hl Hin). cbn in Ht, Hw. rewrite Hl in Ht, Hw. lia.
Qed.

(** ** A value that is not overwritten is a mailbox *)

Definition mail_pre (tr : list (event prog)) (cx : ctx) (c : call) : Prop :=
  notify_pre tr cx c ∧
  match c with CNotify _ v eSetValueWithoutOverwrite _ => 0 ≤ v < 2 ^ 32 | CNotifyWait entry _ want _ => entry = 0 ∧ want = true | _ => False end.
Definition mail_value (v : Z) : bool := bool_decide (0 ≤ v < 2 ^ 32).
Definition mail_point (p : pc) : bool :=
  match p with
  | PBegin (CNotify _ v eSetValueWithoutOverwrite _) | PApply v eSetValueWithoutOverwrite _ => mail_value v
  | PBegin (CNotifyWait entry _ want _) | PEntry entry _ (KNotifyWait _ want) => (entry =? 0) && want
  | PWait _ (KNotifyWait _ want) | PWaiting _ (KNotifyWait _ want) | PWoken (KNotifyWait _ want) _ | PEnd (KNotifyWait _ want) => want
  | PSignal _ => true
  | _ => false
  end.
Lemma mail_point_succ p p' : mail_point p = true → succ p p' → mail_point p' = true.
Proof.
  destruct p as [c| |v act want|prev|bits ticks k|ticks k|ticks k|k r|k| |bits]; cbn; try done.
  - intros H ->. by destruct c.
  - by intros _ [prev ->].
  - destruct k; [done|]. intros [_ H]%andb_true_iff ->. done.
  - destruct k; [done|]. by intros H [-> | ->].
  - destruct k; [done|]. by intros H [_ ->].
Qed.
Lemma mail_points tr (w : Threads prog) l w' : (∀ t p, t_pcs w !! t = Some p → mail_point p = true) → move mail_pre tr w l w' →
  ∀ t p, t_pcs w' !! t = Some p → mail_point p = true.
Proof.
  apply points_move; [|apply mail_point_succ|by intros ? []].
  intros cx c [_ H]. destruct c as [| |x v [] want|entry exit want ticks| |]; try done; cbn.
  - by apply bool_decide_eq_true_2.
  - by destruct H as [-> ->].
Qed.

(** The values that were accepted and those that were received, in order. *)
Definition accepted (l : event prog) : list Z := match l with EvRun _ (PApply v _ _) None => [v] | _ => [] end.
Definition received (l : event prog) : list Z := match l with EvRun _ (PEnd _) (Some (RBase _ (Some v))) => [v] | _ => [] end.
Definition in_slot (a : Slot) : list Z := if a_pending a then [a_value a] else [].

Record mailbox (tr : list (event prog)) (a : Slot) (n : Z) : Prop := {
  mb_fifo : tr ≫= accepted = (tr ≫= received) ++ in_slot a;
  mb_tokens : b2z (a_pending a) = n + tokens a;
  mb_range : a_pending a = true → 0 ≤ a_value a < 2 ^ 32;
}.
Lemma mailbox_same tr a n l a' : mailbox tr a n → accepted l = [] → received l = [] → signals l = 0 →
  a_pending a' = a_pending a → (a_pending a = true → a_value a' = a_value a) → tokens a' = tokens a → mailbox (tr ++ [l]) a' (n + signals l).
Proof.
  intros [Hf Ht Hr] Ha Hc Hs Ep Ev Et. split.
  - rewrite !bind_app, Hf. cbn. rewrite Ha, Hc. cbn. rewrite !app_nil_r. f_equal. unfold in_slot. rewrite Ep.
    destruct (a_pending a); [by rewrite Ev|done].
  - rewrite Ep, Et. lia.
  - rewrite Ep. intros H. rewrite Ev by done. auto.
Qed.

Lemma land_all v : 0 ≤ v < 2 ^ 32 → Z.land v (not32 0) = v.
Proof. intros H. unfold not32. change (Z.land (Z.lnot 0) (2 ^ 32 - 1)) with (Z.ones 32). by rewrite Z.land_ones, Z.mod_small. Qed.

Lemma mailbox_run tr a n t p o : mailbox tr a n → b2z (signalling p) ≤ n → fits (EvRun (G := prog) t p o) a → mail_point p = true →
  mailbox (tr ++ [EvRun (G := prog) t p o]) (a_step p a) (n + signals (EvRun (G := prog) t p o)).
Proof.
  intros Hm Hn Hf Hp. assert (Hb : b2z (a_pending a) ≤ 1) by (unfold b2z; case_match; lia). pose proof (tokens_nonneg a).
  destruct p as [c| |v []want|prev|bits ticks [|exit want]|ticks [|exit want]|ticks [|exit want]|[|exit want] r|[|exit want]| |bits]; try done;
    try (by apply (mailbox_same tr a)).
  - cbn in Hf. cbn [a_step a_apply]. destruct (a_pending a) eqn:Ep; cbn in Hf; subst o.
    + apply (mailbox_same tr a); unfold a_apply; cbn; rewrite ?Ep; done.
    + destruct Hm as [Hx Ht Hr]. unfold a_apply. cbn. rewrite Ep. cbn. unfold in_slot in Hx. rewrite Ep in Hx, Ht. split.
      * rewrite !bind_app, Hx. cbn. by rewrite !app_nil_r.
      * change (tokens (a_set _ _ a)) with (tokens a). cbn in *. lia.
      * intros _. by apply bool_decide_eq_true_1 in Hp.
  - destruct Hm as [Hx Ht Hr]. cbn [a_step]. destruct (tokens_signal a) as [Hs Ev].
    assert (Ep : a_pending (a_signal a) = a_pending a) by (unfold a_signal; by destruct (a_wait a)). split.
    + rewrite !bind_app, Hx. cbn. rewrite !app_nil_r. f_equal. unfold in_slot. by rewrite Ep, Ev.
    + rewrite Ep. cbn [signals]. cbn in Hn. case_bool_decide; lia.
    + by rewrite Ep, Ev.
  - cbn in Hp. apply andb_true_iff in Hp as [->%Z.eqb_eq _]. apply (mailbox_same tr a); [done..| |done]. intros Hpn. cbn. rewrite land_all; [done|].
    by apply (mb_range tr a n).
  - apply (mailbox_same tr a); [done..| | |]; cbn [a_step]; cbn in Hf; unfold tokens; destruct (a_flag a) eqn:Ef; cbn; rewrite ?Hf; try done;
      destruct (_ =? _); cbn; rewrite ?Hf, ?Ef; done.
  - cbn in Hf, Hp. destruct Hf as [Hf ->], Hm as [Hx Ht Hr]. subst want. cbn in Hn.
    assert (Ep : a_pending a = true) by (destruct (a_pending a); [done|]; unfold tokens in Ht; rewrite Hf, bool_decide_eq_true_2 in Ht by done; unfold b2z in Ht; destruct (a_flag a); lia).
    split.
    + rewrite !bind_app, Hx. unfold in_slot. rewrite Ep. cbn. by rewrite !app_nil_r.
    + cbn [a_step signals]. unfold tokens in *. rewrite Hf, Ep, bool_decide_eq_true_2 in Ht by done. cbn in Ht |- *.
      rewrite bool_decide_eq_false_2 by done. destruct (a_flag a); cbn in *; lia.
    + done.
Qed.

Lemma signalling_at (w : Threads prog) t p : t_pcs w !! t = Some p → b2z (signalling p) ≤ blocked_as signalling (t_pcs w).
Proof.
  intros Hp. destruct (signalling p) eqn:E; cbn; [|apply blocked_nonneg]. assert (H := blocked_pos signalling (t_pcs w) t p Hp E). lia.
Qed.

Lemma run_mailbox tr (w : Threads prog) : moves (G := prog) mail_pre start tr w →
  (owner ∈ wait_list 0 (t_mon w) → tokens (abs (t_mon w) (t_pcs w)) = 0) ∧
  mailbox tr (abs (t_mon w) (t_pcs w)) (blocked_as signalling (t_pcs w)).
Proof.
  intros Hr. destruct (notify_ind mail_pre (λ tr a pcs, (∀ t p, pcs !! t = Some p → mail_point p = true) ∧ mailbox tr a (blocked_as signalling pcs)))
    with (tr := tr) (w := w) as [Hl [_ Hi]]; [by intros ??? []| | |done|].
  - split; [by intros t p|done].
  - clear tr w Hr. intros tr w l w' Hm Hf [Hp IH]. split; [by eapply mail_points|]. set (a := abs _ _) in *.
    assert (Hrun : ∀ t p o, l = EvRun t p o → t_pcs w !! t = Some p) by (intros t p o ->; by inversion Hm).
    rewrite (signalling_move mail_pre tr w l w' Hm). clearbody a. destruct l as [t c|t p o|t p r|t|t|t]; cbn [a_event]; try (by apply (mailbox_same tr a)).
    + assert (Ht := Hrun t p o eq_refl). apply mailbox_run; [done|by apply (signalling_at w t)|done|by eapply Hp].
    + cbn in Hf. apply (mailbox_same tr a); [done..|]. unfold tokens. cbn. by rewrite Hf.
    + cbn in Hf. apply (mailbox_same tr a); [done..|]. unfold tokens. cbn. by rewrite Hf.
  - split; [|by apply Hi]. intros [Hw Hf]%Hl. unfold tokens. by rewrite Hw, Hf.
Qed.

(** C36. With [eSetValueWithoutOverwrite] a slot is a mailbox for one 32-bit value,
    if the owner waits without bits to clear on entry and with a pointer for the
    value ([mail_pre]; the entry mask is applied to a pending value too).  In every
    interleaving of the critical sections of any number of notifiers with those of
    the owner, with timeouts and cancellations: the values that were accepted are
    those that were received, in this order and each one once, followed by the one
    in the slot if it is pending; and the owner is on the wait list while a value is
    pending only as long as its notifier is about to wake it. *)
Theorem notify_mailbox tr (w : Threads prog) : moves (G := prog) mail_pre start tr w →
  let s : NotifySlot := fields (t_mon w : M) in
  tr ≫= accepted = (tr ≫= received) ++ (if pending s then [value s] else []) ∧
  (owner ∈ wait_list 0 (t_mon w) → pending s = true → ∃ t prev, t_pcs w !! t = Some (PSignal prev)).
Proof.
  intros Hr. destruct (run_mailbox tr w Hr) as [Hl [Hx Ht _]]. split; [exact Hx|]. intros Hin Hp. specialize (Hl Hin).
  rewrite Hl in Ht. cbn in Ht, Hp. rewrite Hp in Ht. cbn in Ht.
  destruct (blocked_pos_inv signalling (t_pcs w)) as (t & p & Htp & Hsp); [lia|]. destruct p; try done. eauto.
Qed.

(** No step fails, except on an index that is out of range. *)
Lemma exec_total cx p (m : M) : uxIndex < configTASK_NOTIFICATION_ARRAY_ENTRIES → c_isr cx = false → resume_pc p = None →
  ∃ m' n, exec_pc cx p m = Ok (m', n).
Proof.
  intros Hi Hisr Hr. destruct p as [c| |v a want|prev|bits ticks k|ticks k|ticks k|k r|[clr|exit want]| |bits]; cbn [exec_pc]; try done; eauto.
  - unfold Begin, ResolveNotifyTarget. rewrite Hisr, (proj2 (Z.ltb_lt _ _) Hi). cbn. eauto.
  - destruct (xTaskNotifyAndQueryIndexed v a want m); eauto.
  - unfold Wait_segment, Semaphore.WaitEx. rewrite Hisr. destruct (negb _); cbn; [eauto|]. destruct (negb _); cbn; eauto.
  - unfold xTaskNotifyStateClearIndexed, Semaphore.WaitEx. destruct (_ || _); cbn; [|eauto]. destruct (negb _); cbn; eauto.
Qed.

End slot.

(** Priorities: a level the configuration has is kept both ways. *)
Lemma prio_roundtrip n p : 0 ≤ p < n → StkWeightToFrtosPrio n (FrtosPrioToStkWeight n p) = p.
Proof. intros H. unfold StkWeightToFrtosPrio, FrtosPrioToStkWeight. repeat case_match; lia. Qed.

(** ** Runs of a slot of task 1 *)

Definition ex_prog : Program := prog 0 1.
Definition ex_cx (t : Z) : ctx := mkCtx t 0 false.
Definition ex_start : Threads ex_prog := start 0 1.
(** A whole call of one task. *)
Definition ex_call (t : Z) (c : call) (steps : nat) : list (choice ex_prog) :=
  ChCall (G := ex_prog) (ex_cx t) c :: replicate steps (ChRun (ex_cx t)).
Definition ex_preb (cb : call → bool) (tr : list (event ex_prog)) (cx : ctx) (c : call) : bool :=
  negb (c_isr cx) && cb c && match ResolveNotifyTarget 0 1 cx (handle c) with Ok t => t =? 1 | Panic _ => false end.
Lemma ex_pre cb tr cx c : ex_preb cb tr cx c = true → notify_pre 1 0 1 tr cx c ∧ cb c = true.
Proof.
  unfold ex_preb. intros [[Hi%negb_true_iff Hc]%andb_true_iff Hr]%andb_true_iff. split; [split; [done|]|done].
  destruct (ResolveNotifyTarget 0 1 cx (handle c)); [|done]. by apply Z.eqb_eq in Hr as ->.
Qed.

(** Task 1 waits; task 2 gives twice, once before task 1 has left the wait; task 1 takes both. *)
Definition give : call := CGive (Some 1).
Definition sem_acts : list (choice ex_prog) :=
  ex_call 1 (CTake 0 portMAX_DELAY) 2 ++ ex_call 2 give 2 ++ ex_call 2 give 2 ++ [ChWake 1; ChRun (ex_cx 1); ChRun (ex_cx 1)] ++ ex_call 1 (CTake 0 5) 3.
Definition sem_callb (c : call) : bool := match c with CGive _ => true | CTake clr _ => negb (clr =? pdTRUE) | _ => false end.
Definition sem_end := exec_program (G := ex_prog) (ex_preb sem_callb) sem_acts ex_start.
Lemma sem_ex_pre tr cx c : ex_preb sem_callb tr cx c = true → sem_pre 1 0 1 tr cx c.
Proof. intros [H Hc]%ex_pre. split; [done|]. destruct c; try done. by apply Z.eqb_neq, negb_true_iff. Qed.

Lemma notify_is_semaphore_witness : tally (gave 0 1) sem_end.1 = 2 ∧ tally (took 0 1) sem_end.1 = 2 ∧
  value (fields (t_mon sem_end.2)) = tally (gave 0 1) sem_end.1 - tally (took 0 1) sem_end.1 ∧
  (1 ∈ wait_list 0 (t_mon sem_end.2) → value (fields (t_mon sem_end.2)) = 0) ∧
  (∀ t clr o, EvRun (G := ex_prog) t (PEnd (KTake clr)) o ∈ sem_end.1 → ∃ v, o = Some (RValue v) ∧ 1 ≤ v).
Proof.
  split; [vm_compute; reflexivity|]. split; [vm_compute; reflexivity|].
  apply (notify_is_semaphore 1 0 1 sem_end.1 sem_end.2); [|vm_compute; reflexivity].
  apply (exec_program_moves (G := ex_prog)). exact sem_ex_pre.
Defined.

(** Two values for task 1; the second one is refused until the first was read. *)
Definition post (v : Z) : call := CNotify (Some 1) v eSetValueWithoutOverwrite false.
Definition mail_acts : list (choice ex_prog) :=
  ex_call 2 (post 7) 3 ++ ex_call 2 (post 8) 2 ++ ex_call 1 (CNotifyWait 0 portMAX_DELAY true portMAX_DELAY) 4 ++ ex_call 2 (post 9) 2.
Definition mail_callb (c : call) : bool :=
  match c with
  | CNotify _ v eSetValueWithoutOverwrite _ => bool_decide (0 ≤ v < 2 ^ 32)
  | CNotifyWait entry _ want _ => (entry =? 0) && want
  | _ => false
  end.
Definition mail_end := exec_program (G := ex_prog) (ex_preb mail_callb) mail_acts ex_start.
Lemma mail_ex_pre tr cx c : ex_preb mail_callb tr cx c = true → mail_pre 1 0 1 tr cx c.
Proof.
  intros [H Hc]%ex_pre. split; [done|]. destruct c as [| |x v [] want|entry exit want ticks| |]; try done; cbn in Hc.
  - by apply bool_decide_eq_true_1 in Hc.
  - by apply andb_true_iff in Hc as [?%Z.eqb_eq ?].
Qed.

Lemma notify_mailbox_witness : mail_end.1 ≫= accepted 0 1 = [7; 9] ∧ mail_end.1 ≫= received 0 1 = [7] ∧
  mail_end.1 ≫= accepted 0 1 = (mail_end.1 ≫= received 0 1) ++ (if pending (fields (t_mon mail_end.2)) then [value (fields (t_mon mail_end.2))] else []).
Proof.
  split; [vm_compute; reflexivity|]. split; [vm_compute; reflexivity|].
  apply (notify_mailbox 1 0 1 mail_end.1 mail_end.2). apply (exec_program_moves (G := ex_prog)). exact mail_ex_pre.
Defined.

(** ** Corner cases *)

Definition ex_run (acts : list (choice ex_prog)) : list (event ex_prog) * Threads ex_prog :=
  exec_program (G := ex_prog) (ex_preb (λ _, true)) acts ex_start.
Definition results (t : Z) (tr : list (event ex_prog)) : list ret :=
  tr ≫= λ l, match l with EvRun u _ (Some r) => if u =? t then [r] else [] | _ => [] end.

(** Task 1 takes with clearing.  A give that comes between its wait and the critical
    section after it is included in the value that is returned, but its wake-up
    stays: the next take, although it may wait forever, returns 0 at once. *)
Example take_returns_zero :
  results 1 (ex_run (ex_call 2 give 2 ++ ex_call 1 (CTake pdTRUE portMAX_DELAY) 2 ++ ex_call 2 give 2 ++ [ChRun (ex_cx 1)] ++
    ex_call 1 (CTake pdTRUE portMAX_DELAY) 3)).1 = [RValue 2; RValue 0].
Proof. vm_compute. reflexivity. Qed.
(** The same without a race, after the value was cleared. *)
Example take_returns_zero_after_clear :
  results 1 (ex_run (ex_call 2 give 2 ++ ex_call 1 (CValueClear None (2 ^ 32 - 1)) 2 ++ ex_call 1 (CTake 0 portMAX_DELAY) 3)).1 = [RValue 1; RValue 0].
Proof. vm_compute. reflexivity. Qed.

(** A value that was set with [eSetValueWithOverwrite] and not read yet does not
    count as pending: it is lost to an [eSetValueWithoutOverwrite]. *)
Example without_overwrite_overwrites :
  let r := ex_run (ex_call 2 (CNotify (Some 1) 5 eSetValueWithOverwrite false) 3 ++ ex_call 2 (post 7) 3 ++
    ex_call 1 (CNotifyWait 0 0 true portMAX_DELAY) 4) in
  results 2 r.1 = [RBase pdPASS None; RBase pdPASS None] ∧ results 1 r.1 = [RBase pdPASS (Some 7)].
Proof. vm_compute. done. Qed.

(** A wait of half the range or more, other than [portMAX_DELAY], becomes negative
    and ends at the next tick. *)
Example long_timeout_ends_at_once : FrtosTimeoutToStk (portMAX_DELAY - 1) = -2 ∧
  (w ← WaitObject_Tick 1 (mkWait (Some 0%nat) (FrtosTimeoutToStk (portMAX_DELAY - 1)) STATE_WAIT); Ok w.1) = Ok false.
Proof. vm_compute. done. Qed.

End FrtosNotify.
