(* ===== verification/Timer.v ===== *)
(** * Software timers ([Timer] and [TimerHost] of [stk_time_timer.h])

    A [TimerHost] multiplexes timers on a tick task, which executes commands and
    looks for expired timers, and handler tasks, which run their callbacks.  The
    other tasks only write commands into a queue.  In polled mode one task does
    all of it in [Process].

    The lists of the host are lists of timers ([LinkedList.v] shows the pointer
    lists implement them), a pointer to a timer is a number; the command queue is
    the bounded FIFO that [PipeT] is ([Pipe.v]), and the two events are flags that
    [Set] raises and a wait consumes ([Event.v]).  The code of the tick task runs
    command by command and timer by timer: only that task writes what it reads
    meanwhile, but for [m_pending] and the ready list, which are accessed in
    critical sections. *)

From S2P Require Import Prelude KernelTask Monitor.
Import KTask.
Local Open Scope Z_scope.

Module Timers.

(** ** Data *)

Record Timer := mkTimer {
  m_deadline : Z;
  m_timestamp : Z;
  m_period : Z;
  m_delay : Z;
  m_active : bool;
  m_pending : bool;
  m_rearming : bool;
}.
Definition Timer_ctor : Timer := mkTimer 0 0 0 0 false false false.

Inductive EResult :=
| RES_CANCELLED | RES_INVALID_PARAM | RES_QUEUE_FULL | RES_NOT_READY | RES_FAIL
| RES_OK | RES_ACTIVE | RES_INACTIVE | RES_NOT_PERIODIC | RES_QUEUED.
#[global] Instance EResult_eq_dec : EqDecision EResult.
Proof. solve_decision. Defined.

Record TimerInfo := mkTimerInfo { i_active : bool; i_remaining : Z; i_delay : Z; i_period : Z }.
Definition no_info : TimerInfo := mkTimerInfo false 0 0 0.

Inductive EId :=
| CMD_SHUTDOWN | CMD_START | CMD_STOP | CMD_RESET | CMD_RESTART | CMD_START_OR_RESET
| CMD_SET_PERIOD | CMD_ACTIVATE | CMD_CHANGE | CMD_QUERY.
#[global] Instance EId_eq_dec : EqDecision EId.
Proof. solve_decision. Defined.

(** [c_timer] is the null pointer for [CMD_SHUTDOWN] only.  A completion point is
    known by the task on whose stack it is. *)
Record TimerCommand := mkCommand {
  c_cmd : EId;
  c_timer : option Z;
  c_timestamp : Z;
  c_delay : Z;
  c_period : Z;
  c_completion : option Z;
}.

Record TimerHost := mkHost {
  timers : gmap Z Timer;
  active : list Z;                        (* m_active *)
  ready_list : list Z;                    (* m_ready_list *)
  ready_event : bool;                     (* m_ready_event *)
  commands : list TimerCommand;           (* m_commands *)
  completed : gmap Z (EResult * TimerInfo); (* the completion points that are done *)
  m_now : Z;
  m_polled : bool;
  m_ready : bool;
  m_shutdown : bool;
  m_running : list (option Z);
  m_kernel : bool;                        (* m_kernel != nullptr *)
  m_tick_tid : Z;
}.

Section host.
(** [STK_TIMER_THREADS_COUNT] and [STK_TIMER_COMMAND_QUEUE_SIZE]. *)
Context (THREADS QUEUE_SIZE : nat).

Definition TimerHost_ctor : TimerHost :=
  mkHost ∅ [] [] false [] ∅ 0 false false false (replicate THREADS None) false TID_NONE.

(** Updates of single members. *)
Definition set_timers (x : gmap Z Timer) (h : TimerHost) : TimerHost :=
  mkHost x (active h) (ready_list h) (ready_event h) (commands h) (completed h) (m_now h) (m_polled h) (m_ready h) (m_shutdown h) (m_running h) (m_kernel h) (m_tick_tid h).
Definition set_active (x : list Z) (h : TimerHost) : TimerHost :=
  mkHost (timers h) x (ready_list h) (ready_event h) (commands h) (completed h) (m_now h) (m_polled h) (m_ready h) (m_shutdown h) (m_running h) (m_kernel h) (m_tick_tid h).
Definition set_ready_list (x : list Z) (h : TimerHost) : TimerHost :=
  mkHost (timers h) (active h) x (ready_event h) (commands h) (completed h) (m_now h) (m_polled h) (m_ready h) (m_shutdown h) (m_running h) (m_kernel h) (m_tick_tid h).
Definition set_event (x : bool) (h : TimerHost) : TimerHost :=
  mkHost (timers h) (active h) (ready_list h) x (commands h) (completed h) (m_now h) (m_polled h) (m_ready h) (m_shutdown h) (m_running h) (m_kernel h) (m_tick_tid h).
Definition set_commands (x : list TimerCommand) (h : TimerHost) : TimerHost :=
  mkHost (timers h) (active h) (ready_list h) (ready_event h) x (completed h) (m_now h) (m_polled h) (m_ready h) (m_shutdown h) (m_running h) (m_kernel h) (m_tick_tid h).
Definition set_completed (x : gmap Z (EResult * TimerInfo)) (h : TimerHost) : TimerHost :=
  mkHost (timers h) (active h) (ready_list h) (ready_event h) (commands h) x (m_now h) (m_polled h) (m_ready h) (m_shutdown h) (m_running h) (m_kernel h) (m_tick_tid h).
Definition set_now (x : Z) (h : TimerHost) : TimerHost :=
  mkHost (timers h) (active h) (ready_list h) (ready_event h) (commands h) (completed h) x (m_polled h) (m_ready h) (m_shutdown h) (m_running h) (m_kernel h) (m_tick_tid h).
Definition set_flags (polled ready shutdown kernel : bool) (h : TimerHost) : TimerHost :=
  mkHost (timers h) (active h) (ready_list h) (ready_event h) (commands h) (completed h) (m_now h) polled ready shutdown (m_running h) kernel (m_tick_tid h).
Definition set_running (x : list (option Z)) (h : TimerHost) : TimerHost :=
  mkHost (timers h) (active h) (ready_list h) (ready_event h) (commands h) (completed h) (m_now h) (m_polled h) (m_ready h) (m_shutdown h) x (m_kernel h) (m_tick_tid h).
Definition set_tick_tid (x : Z) (h : TimerHost) : TimerHost :=
  mkHost (timers h) (active h) (ready_list h) (ready_event h) (commands h) (completed h) (m_now h) (m_polled h) (m_ready h) (m_shutdown h) (m_running h) (m_kernel h) x.

(** The timer objects, which the application owns. *)
Definition timer (h : TimerHost) (t : Z) : Timer := default Timer_ctor (timers h !! t).
Definition put_timer (t : Z) (x : Timer) (h : TimerHost) : TimerHost := set_timers (<[t := x]> (timers h)) h.

Definition set_deadline (x : Z) (m : Timer) : Timer := mkTimer x (m_timestamp m) (m_period m) (m_delay m) (m_active m) (m_pending m) (m_rearming m).
Definition set_period (x : Z) (m : Timer) : Timer := mkTimer (m_deadline m) (m_timestamp m) x (m_delay m) (m_active m) (m_pending m) (m_rearming m).
Definition set_tactive (x : bool) (m : Timer) : Timer := mkTimer (m_deadline m) (m_timestamp m) (m_period m) (m_delay m) x (m_pending m) (m_rearming m).
Definition set_pending (x : bool) (m : Timer) : Timer := mkTimer (m_deadline m) (m_timestamp m) (m_period m) (m_delay m) (m_active m) x (m_rearming m).
Definition set_rearming (x : bool) (m : Timer) : Timer := mkTimer (m_deadline m) (m_timestamp m) (m_period m) (m_delay m) (m_active m) (m_pending m) x.
(** [m_deadline], [m_delay], [m_period] and [m_active] of a timer that is started. *)
Definition armed (deadline delay period : Z) (m : Timer) : Timer := mkTimer deadline (m_timestamp m) period delay true (m_pending m) (m_rearming m).

Definition IsLinked (t : Z) (h : TimerHost) : bool := bool_decide (t ∈ active h).
Definition LinkBack (t : Z) (h : TimerHost) : TimerHost := set_active (active h ++ [t]) h.
Definition Unlink (t : Z) (h : TimerHost) : TimerHost := set_active (list_remove1 t (active h)) h.

(** [Timer::GetRemainingTicks()], and the same computation for [CMD_QUERY]. *)
Definition remaining_of (m : Timer) (ticks : Z) : Z :=
  if m_active m then let remaining := m_deadline m - ticks in if remaining >? 0 then u32 remaining else 0 else 0.
Definition GetRemainingTicks (t ticks : Z) (h : TimerHost) : Z := remaining_of (timer h t) ticks.
Definition info_of (m : Timer) (ticks : Z) : TimerInfo := mkTimerInfo (m_active m) (remaining_of m ticks) (m_delay m) (m_period m).

(** ** The tick task: commands *)

(** [CancelPending(tmr)]. *)
Definition CancelPending (t : Z) (h : TimerHost) : TimerHost :=
  let h := if m_polled h then h else if bool_decide (t ∈ ready_list h) then set_ready_list (list_remove1 t (ready_list h)) h else h in
  put_timer t (set_pending false (timer h t)) h.

(** A command leaves a state, a result, a snapshot and the new [next_sleep]. *)
Definition executed_command : Type := TimerHost * EResult * TimerInfo * Z.

Definition exec_START (t : Z) (cmd : TimerCommand) (next_sleep : Z) (h : TimerHost) : res executed_command :=
  if negb (m_active (timer h t)) then
    assert! negb (IsLinked t h);
    let h := put_timer t (armed (c_timestamp cmd + c_delay cmd) (c_delay cmd) (c_period cmd) (timer h t)) h in
    let h := CancelPending t h in
    Ok (LinkBack t h, RES_OK, no_info, NO_WAIT)
  else Ok (h, RES_ACTIVE, no_info, next_sleep).
Definition exec_ACTIVATE (t : Z) (cmd : TimerCommand) (next_sleep : Z) (h : TimerHost) : res executed_command :=
  let m := timer h t in
  if negb (m_active m) then
    assert! negb (IsLinked t h);
    let h := put_timer t (armed (c_timestamp cmd + m_delay m) (m_delay m) (m_period m) m) h in
    let h := CancelPending t h in
    Ok (LinkBack t h, RES_OK, no_info, NO_WAIT)
  else Ok (h, RES_ACTIVE, no_info, next_sleep).
Definition exec_STOP (t : Z) (next_sleep : Z) (h : TimerHost) : res executed_command :=
  let r := if m_active (timer h t) then RES_OK else RES_INACTIVE in
  let h := put_timer t (set_tactive false (timer h t)) h in
  let h := CancelPending t h in
  Ok (if IsLinked t h then Unlink t h else h, r, no_info, next_sleep).
Definition exec_RESET (t : Z) (cmd : TimerCommand) (next_sleep : Z) (h : TimerHost) : res executed_command :=
  let m := timer h t in
  if m_active m && negb (m_period m =? 0) then
    assert! IsLinked t h;
    let h := put_timer t (set_deadline (c_timestamp cmd + m_period m) m) h in
    Ok (CancelPending t h, RES_OK, no_info, NO_WAIT)
  else Ok (h, if m_active m then RES_NOT_PERIODIC else RES_INACTIVE, no_info, next_sleep).
Definition exec_RESTART (t : Z) (cmd : TimerCommand) (h : TimerHost) : res executed_command :=
  let h := if IsLinked t h then Unlink t h else h in
  let h := put_timer t (set_rearming false (armed (c_timestamp cmd + c_delay cmd) (c_delay cmd) (c_period cmd) (timer h t))) h in
  let h := CancelPending t h in
  Ok (LinkBack t h, RES_OK, no_info, NO_WAIT).
Definition exec_START_OR_RESET (t : Z) (cmd : TimerCommand) (h : TimerHost) : res executed_command :=
  let m := timer h t in
  if negb (m_active m) then
    assert! negb (IsLinked t h);
    let h := put_timer t (set_rearming false (armed (c_timestamp cmd + c_delay cmd) (c_delay cmd) (c_period cmd) m)) h in
    let h := CancelPending t h in
    Ok (LinkBack t h, RES_OK, no_info, NO_WAIT)
  else if negb (m_period m =? 0) then
    assert! IsLinked t h;
    let h := put_timer t (set_deadline (c_timestamp cmd + m_period m) m) h in
    Ok (CancelPending t h, RES_OK, no_info, NO_WAIT)
  else Ok (h, RES_NOT_PERIODIC, no_info, NO_WAIT).
Definition exec_SET_PERIOD (t : Z) (cmd : TimerCommand) (next_sleep : Z) (h : TimerHost) : res executed_command :=
  let m := timer h t in
  assert! negb (c_period cmd =? 0);
  if m_active m && negb (m_period m =? 0) then
    assert! IsLinked t h;
    Ok (put_timer t (set_period (c_period cmd) m) h, RES_OK, no_info, next_sleep)
  else Ok (h, if m_active m then RES_NOT_PERIODIC else RES_INACTIVE, no_info, next_sleep).
Definition exec_CHANGE (t : Z) (cmd : TimerCommand) (next_sleep : Z) (h : TimerHost) : res executed_command :=
  let m := timer h t in
  if negb (m_active m) then
    Ok (put_timer t (mkTimer (m_deadline m) (m_timestamp m) (c_period cmd) (c_delay cmd) (m_active m) (m_pending m) (m_rearming m)) h, RES_OK, no_info, next_sleep)
  else Ok (h, RES_ACTIVE, no_info, next_sleep).
(** [CMD_SHUTDOWN]: polled mode stops every timer, task mode tells the tasks to exit. *)
Definition stop_all (h : TimerHost) : TimerHost :=
  set_active [] (foldl (λ h t, put_timer t (set_rearming false (set_pending false (set_tactive false (timer h t)))) h) h (active h)).
Definition exec_SHUTDOWN (next_sleep : Z) (h : TimerHost) : executed_command :=
  (if m_polled h then stop_all h else set_event true (set_flags (m_polled h) (m_ready h) true (m_kernel h) h), RES_OK, no_info, next_sleep).

(** The switch of [ProcessCommands]. *)
Definition exec_command (ticks : Z) (cmd : TimerCommand) (next_sleep : Z) (h : TimerHost) : res executed_command :=
  match c_cmd cmd with
  | CMD_SHUTDOWN => Ok (exec_SHUTDOWN next_sleep h)
  | id =>
      t ← deref (c_timer cmd);
      match id with
      | CMD_START => exec_START t cmd next_sleep h
      | CMD_ACTIVATE => exec_ACTIVATE t cmd next_sleep h
      | CMD_STOP => exec_STOP t next_sleep h
      | CMD_RESET => exec_RESET t cmd next_sleep h
      | CMD_RESTART => exec_RESTART t cmd h
      | CMD_START_OR_RESET => exec_START_OR_RESET t cmd h
      | CMD_SET_PERIOD => exec_SET_PERIOD t cmd next_sleep h
      | CMD_CHANGE => exec_CHANGE t cmd next_sleep h
      | CMD_QUERY | CMD_SHUTDOWN => Ok (h, RES_OK, info_of (timer h t) ticks, next_sleep)
      end
  end.
(** The end of the turn: the completion point of a synchronous caller. *)
Definition complete (cmd : TimerCommand) (r : EResult) (info : TimerInfo) (h : TimerHost) : TimerHost :=
  match c_completion cmd with Some client => set_completed (<[client := (r, info)]> (completed h)) h | None => h end.
(** One turn of the loop with a command that was read: the state, [next_sleep] and
    [working]. *)
Definition ProcessCommand (ticks : Z) (cmd : TimerCommand) (next_sleep : Z) (h : TimerHost) : res (TimerHost * Z * bool) :=
  '(h', r, info, next_sleep) ← exec_command ticks cmd next_sleep h;
  Ok (complete cmd r info h', next_sleep, negb (bool_decide (c_cmd cmd = CMD_SHUTDOWN) && negb (m_polled h))).
(** The timeout with which [ProcessCommands] begins to read. *)
Definition first_sleep (next_sleep : Z) (h : TimerHost) : Z :=
  if (match active h with [] => true | _ => false end) && negb (m_polled h) then WAIT_INFINITE else next_sleep.

(** ** The tick task: expired timers *)

Section scan.
(** [OnExpired] of the timers, which polled mode calls inline. *)
Context (on_expired : Z → TimerHost → TimerHost).

Definition expire (now diff t : Z) (h : TimerHost) : res (TimerHost * bool) :=
  let m := timer h t in
  let one_shot := m_period m =? 0 in
  let m := mkTimer (m_deadline m) now (m_period m) (m_delay m) (m_active m) true (m_rearming m) in
  let h := if one_shot then put_timer t (set_tactive false m) (Unlink t h)
           else put_timer t (set_deadline (now + m_period m - diff) m) h in
  if m_polled h then Ok (on_expired t (put_timer t (set_pending false (timer h t)) h), one_shot)
  else assert! negb (bool_decide (t ∈ ready_list h)); Ok (set_event true (set_ready_list (ready_list h ++ [t]) h), one_shot).
(** One turn of [ScanTimers]. *)
Definition ScanTimer (now t : Z) (next_sleep : Z) (h : TimerHost) : res (TimerHost * Z) :=
  let m := timer h t in
  if m_active m then
    if negb (m_pending m) then
      let diff := now - m_deadline m in
      '(h, one_shot) ← if diff >=? 0 then expire now diff t h else Ok (h, false);
      if (one_shot : bool) then Ok (h, next_sleep)
      else
        let next_deadline := Monitor.to_Timeout (m_deadline (timer h t) - now) in
        assert! (m_polled h || (next_deadline >? 0));
        let next_deadline := if next_deadline <=? 0 then NO_WAIT else next_deadline in
        Ok (h, if next_deadline <? next_sleep then next_deadline else next_sleep)
    else Ok (h, next_sleep)
  else Ok (Unlink t h, next_sleep).
Fixpoint ScanTimers_loop (now : Z) (l : list Z) (next_sleep : Z) (h : TimerHost) : res (TimerHost * Z) :=
  match l with
  | [] => Ok (h, next_sleep)
  | t :: l => '(h, next_sleep) ← ScanTimer now t next_sleep h; ScanTimers_loop now l next_sleep h
  end.
Definition ScanTimers (now : Z) (h : TimerHost) : res (TimerHost * Z) :=
  ScanTimers_loop now (active h) WAIT_INFINITE (set_now now h).

(** [Process()] of polled mode, at the tick counts it reads. *)
Fixpoint ProcessCommands_polled (ticks : Z) (fuel : nat) (h : TimerHost) : res TimerHost :=
  match commands h with
  | [] => Ok h
  | cmd :: rest =>
      match fuel with
      | O => Panic PANIC_FUEL
      | S fuel => '(h, _, _) ← ProcessCommand ticks cmd NO_WAIT (set_commands rest h); ProcessCommands_polled ticks fuel h
      end
  end.
Definition Process (ticks : Z) (h : TimerHost) : res (TimerHost * Z) :=
  assert! m_polled h;
  h ← ProcessCommands_polled ticks (length (commands h)) h;
  ScanTimers ticks h.
End scan.

(** ** The handler tasks *)

(** What [ProcessTimers] does after its critical section: run a callback, with the
    slot it is announced in, look again, exit or wait. *)
Inductive claim := ClRun (t : Z) (slot : nat) | ClAgain | ClExit | ClWait.

Fixpoint free_slot (l : list (option Z)) : nat :=
  match l with [] => O | None :: _ => O | Some _ :: l => S (free_slot l) end.
Definition Claim (h : TimerHost) : res (TimerHost * claim) :=
  match ready_list h with
  | queued :: rest =>
      let h := set_ready_list rest h in
      if m_pending (timer h queued) then
        let h := put_timer queued (set_pending false (timer h queued)) h in
        let slot := free_slot (m_running h) in
        assert! (bool_decide (slot < THREADS)%nat);
        Ok (set_running (<[slot := Some queued]> (m_running h)) h, ClRun queued slot)
      else Ok (h, ClAgain)
  | [] => Ok (h, if m_shutdown h then ClExit else ClWait)
  end.
(** After the callback: [m_running[slot] = nullptr]. *)
Definition Release (slot : nat) (h : TimerHost) : TimerHost := set_running (<[slot := None]> (m_running h)) h.

(** ** The callers *)

(** The end of [UpdateTime()]. *)
Definition UpdateTime_end (h : TimerHost) : TimerHost :=
  set_active [] (set_flags (m_polled h) false (m_shutdown h) (m_kernel h) h).

(** [Initialize(kernel, mode, cfg)]: [adds] are the results of [AddTask] for the
    handler tasks and then the tick task. *)
Definition all_added (adds : list bool) : bool := forallb id adds.
Definition Initialize (adds : list bool) (h : TimerHost) : TimerHost := set_flags false (all_added adds) false true h.
Definition InitializePolled (h : TimerHost) : TimerHost := set_flags true true (m_shutdown h) false h.

(** The caller: its task, the tick count, whether it is an interrupt handler and
    whether the kernel is running. *)
Record caller := mkCaller { k_tid : Z; k_ticks : Z; k_isr : bool; k_running : bool }.

Definition CanWait (c : caller) (h : TimerHost) : bool :=
  m_ready h && negb (m_polled h) && m_kernel h && negb (k_isr c) && k_running c && negb (k_tid c =? m_tick_tid h).

(** A push is over, or waits for a free place in the queue. *)
Inductive pushed := PushDone (r : EResult) | PushBlocked (cmd : TimerCommand).

Definition is_rearm (cmd : TimerCommand) : bool :=
  match c_cmd cmd with CMD_RESTART | CMD_START_OR_RESET => true | _ => false end.
(** The timer whose re-arming the command announces, if it does. *)
Definition rearmed (cmd : TimerCommand) : option Z :=
  if is_rearm cmd && match c_completion cmd with None => true | Some _ => false end then c_timer cmd else None.
Definition mark_rearming (b : bool) (cmd : TimerCommand) (h : TimerHost) : TimerHost :=
  match rearmed cmd with Some t => put_timer t (set_rearming b (timer h t)) h | None => h end.

(** [PushCommand(cmd, wait)] with [wait] either [WAIT_INFINITE] or [NO_WAIT]. *)
Definition PushCommand (c : caller) (cmd : TimerCommand) (infinite : bool) (h : TimerHost) : TimerHost * pushed :=
  if negb (m_ready h) then (h, PushDone RES_NOT_READY)
  else if match rearmed cmd with Some t => m_rearming (timer h t) | None => false end then (h, PushDone RES_OK)
  else
    let h := mark_rearming true cmd h in
    if bool_decide (length (commands h) < QUEUE_SIZE)%nat then (set_commands (commands h ++ [cmd]) h, PushDone RES_OK)
    else if infinite || CanWait c h then (h, PushBlocked cmd)
    else (mark_rearming false cmd h, PushDone RES_QUEUE_FULL).
(** The rest of it, when a place is free and when the wait was cancelled. *)
Definition Push_written (cmd : TimerCommand) (h : TimerHost) : TimerHost := set_commands (commands h ++ [cmd]) h.
Definition Push_cancelled (cmd : TimerCommand) (h : TimerHost) : TimerHost * EResult := (mark_rearming false cmd h, RES_CANCELLED).

Definition MAX_TICKS : Z := WAIT_INFINITE.
Definition check_delay (delay period : Z) : bool := (delay <=? MAX_TICKS) && ((period =? 0) || (period <=? MAX_TICKS)).

(** The asynchronous calls. *)
Definition Start (c : caller) (t delay period : Z) (h : TimerHost) : res (TimerHost * pushed) :=
  assert! check_delay delay period;
  Ok (if negb (m_active (timer h t)) then PushCommand c (mkCommand CMD_START (Some t) (k_ticks c) delay period None) false h
      else (h, PushDone RES_ACTIVE)).
Definition Stop (c : caller) (t : Z) (h : TimerHost) : TimerHost * pushed :=
  if m_active (timer h t) then PushCommand c (mkCommand CMD_STOP (Some t) 0 0 0 None) false h
  else (h, PushDone RES_INACTIVE).
Definition Reset (c : caller) (t : Z) (h : TimerHost) : TimerHost * pushed :=
  if negb (m_active (timer h t)) then (h, PushDone RES_INACTIVE)
  else if m_period (timer h t) =? 0 then (h, PushDone RES_NOT_PERIODIC)
  else PushCommand c (mkCommand CMD_RESET (Some t) (k_ticks c) 0 0 None) false h.
Definition Restart (c : caller) (t delay period : Z) (h : TimerHost) : res (TimerHost * pushed) :=
  assert! check_delay delay period;
  Ok (PushCommand c (mkCommand CMD_RESTART (Some t) (k_ticks c) delay period None) false h).
Definition StartOrReset (c : caller) (t delay period : Z) (h : TimerHost) : res (TimerHost * pushed) :=
  assert! check_delay delay period;
  Ok (PushCommand c (mkCommand CMD_START_OR_RESET (Some t) (k_ticks c) delay period None) false h).
Definition SetPeriod (c : caller) (t period : Z) (h : TimerHost) : TimerHost * pushed :=
  if (period =? 0) || (period >? MAX_TICKS) then (h, PushDone RES_INVALID_PARAM)
  else if negb (m_active (timer h t)) then (h, PushDone RES_INACTIVE)
  else if m_period (timer h t) =? 0 then (h, PushDone RES_NOT_PERIODIC)
  else PushCommand c (mkCommand CMD_SET_PERIOD (Some t) 0 0 period None) false h.
Definition Shutdown (c : caller) (h : TimerHost) : TimerHost * pushed :=
  PushCommand c (mkCommand CMD_SHUTDOWN None 0 0 0 None) false h.

(** [Execute(id, tmr, delay, period, info)], up to its first wait.  The result is
    returned, with the snapshot if there is one; or the command is on its way and
    the caller waits for its completion. *)
Inductive executed := ExDone (r : EResult) (info : TimerInfo) | ExPush (sync : bool) (p : pushed).
Definition Execute (c : caller) (id : EId) (t delay period : Z) (h : TimerHost) : res (TimerHost * executed) :=
  assert! check_delay delay period;
  if negb (m_ready h) then Ok (h, ExDone RES_NOT_READY no_info)
  else if CanWait c h then
    let '(h, p) := PushCommand c (mkCommand id (Some t) (k_ticks c) delay period (Some (k_tid c))) true h in
    Ok (h, ExPush true p)
  else if bool_decide (id = CMD_QUERY) then Ok (h, ExDone RES_OK (info_of (timer h t) (k_ticks c)))
  else
    let '(h, p) := PushCommand c (mkCommand id (Some t) (k_ticks c) delay period None) false h in
    Ok (h, match p with PushDone RES_OK => ExDone RES_QUEUED no_info | PushDone r => ExDone r no_info | p => ExPush false p end).
Definition SetPeriodSync (c : caller) (t period : Z) (h : TimerHost) : res (TimerHost * executed) :=
  if (period =? 0) || (period >? MAX_TICKS) then Ok (h, ExDone RES_INVALID_PARAM no_info)
  else Execute c CMD_SET_PERIOD t 0 period h.
(** Whether a stop has to wait for a callback after its completion, and the test of
    [WaitCallbackDone(tmr)]. *)
Definition waits_callback (id : EId) (r : EResult) : bool :=
  bool_decide (id = CMD_STOP) && bool_decide (r = RES_OK ∨ r = RES_INACTIVE).
Definition callback_running (t : Z) (h : TimerHost) : bool := bool_decide (Some t ∈ m_running h).
End host.
End Timers.
