(* ===== verification/TimerRun.v ===== *)
(** * A timer host at work: the tick task, the handler tasks and their callers

    The tasks of a [TimerHost] in task mode ([UpdateTime], [ProcessTimers]) and any
    number of tasks that call it, interleaved, with time passing between the
    steps.  A step of the tick task is the read of a command, its execution, or
    one turn of [ScanTimers]; a step of a handler is its critical section, a
    callback as a whole, or a wait; a call runs up to the point where it waits for a
    place in the queue or for a completion, and may be preempted before it writes.

    These steps are as fine as the tasks can tell: the tick task is the only one that
    writes the timers and the active list, apart from [m_rearming], which the callers
    set; the handlers look at the ready list and [m_pending], in critical sections; and
    the callers look at single flags. *)

From S2P Require Import Prelude KernelTask Monitor Timer.
Import KTask Timers.
Local Open Scope Z_scope.

Module TimerRun.

(** Where the tick task is: it reads the queue until a point in time, it has read a
    command, it looks at the timers, it has left its loop. *)
Inductive tick_pc :=
| TRead (next_sleep : Z) (until : option Z)
| TExec (cmd : TimerCommand) (next_sleep : Z)
| TScan (now : Z) (todo : list Z) (next_sleep : Z)
| TExit.
(** Where a handler task is. *)
Inductive handler_pc := HClaim | HRun (t : Z) (slot : nat) | HWait | HLeave | HExit.
(** Where a caller waits: for a place in the queue, for the completion of its
    command, for the end of a running callback. *)
Inductive client_pc :=
| CPush (cmd : TimerCommand) (sync : bool)
| CAwait (id : EId) (t : Z)
| CCallback (t : Z) (r : EResult).

Inductive api :=
| AStart (t delay period : Z) | AStop (t : Z) | AReset (t : Z) | ARestart (t delay period : Z)
| AStartOrReset (t delay period : Z) | ASetPeriod (t period : Z) | AShutdown
| AExecute (id : EId) (t delay period : Z) | ASetPeriodSync (t period : Z).

Record World := mkWorld {
  w_host : TimerHost;
  w_tick : tick_pc;
  w_handlers : list handler_pc;
  w_clients : gmap Z client_pc;
  w_now : Z;
}.

(** What happens in a step that the properties speak about. *)
Inductive label :=
| LTau
| LExec (cmd : TimerCommand)
| LExpire (t : Z) (now deadline : Z)
| LCallback (t : Z)
| LReturn (client : Z) (r : EResult)
| LStopped (client : Z) (t : Z) (r : EResult).

Section run.
Context (THREADS QUEUE_SIZE : nat).
(** [IsHostTid(tid)]: the tick task and the handler tasks. *)
Context (IsHostTid : Z → bool).

(** A task that is preempted before it writes its command finds the queue as if it
    were full: [size] is 0 then. *)
Definition asynchronous (p : TimerHost * pushed) : TimerHost * executed := (p.1, ExPush false p.2).
Definition call_api (size : nat) (c : caller) (a : api) (h : TimerHost) : res (TimerHost * executed) :=
  match a with
  | AStart t delay period => p ← Start size c t delay period h; Ok (asynchronous p)
  | AStop t => Ok (asynchronous (Stop size c t h))
  | AReset t => Ok (asynchronous (Reset size c t h))
  | ARestart t delay period => p ← Restart size c t delay period h; Ok (asynchronous p)
  | AStartOrReset t delay period => p ← StartOrReset size c t delay period h; Ok (asynchronous p)
  | ASetPeriod t period => Ok (asynchronous (SetPeriod size c t period h))
  | AShutdown => Ok (asynchronous (Shutdown size c h))
  | AExecute id t delay period => Execute size c id t delay period h
  | ASetPeriodSync t period => SetPeriodSync size c t period h
  end.
Definition api_id (a : api) : EId :=
  match a with
  | AStart _ _ _ => CMD_START | AStop _ => CMD_STOP | AReset _ => CMD_RESET | ARestart _ _ _ => CMD_RESTART
  | AStartOrReset _ _ _ => CMD_START_OR_RESET | ASetPeriod _ _ | ASetPeriodSync _ _ => CMD_SET_PERIOD
  | AShutdown => CMD_SHUTDOWN | AExecute id _ _ _ => id
  end.
Definition api_timer (a : api) : Z :=
  match a with
  | AStart t _ _ | AStop t | AReset t | ARestart t _ _ | AStartOrReset t _ _ | ASetPeriod t _ | ASetPeriodSync t _ | AExecute _ t _ _ => t
  | AShutdown => 0
  end.

(** The arguments are unsigned 32-bit numbers, and the synchronous calls use these
    commands. *)
Definition in_u32 (x : Z) : bool := (0 <=? x) && (x <? 2 ^ 32).
Definition api_ok (a : api) : bool :=
  match a with
  | AStart _ delay period | ARestart _ delay period | AStartOrReset _ delay period => in_u32 delay && in_u32 period
  | ASetPeriod _ period | ASetPeriodSync _ period => in_u32 period
  | AExecute id _ delay period => in_u32 delay && in_u32 period && negb (bool_decide (id = CMD_SHUTDOWN ∨ id = CMD_SET_PERIOD))
  | _ => true
  end.

(** Where the caller is after that, or the result it has. *)
Definition after_push (id : EId) (t : Z) (sync : bool) (p : pushed) : client_pc + EResult :=
  match p with
  | PushBlocked cmd => inl (CPush cmd sync)
  | PushDone r => if sync && bool_decide (r = RES_OK) then inl (CAwait id t) else inr r
  end.
Definition after_call (id : EId) (t : Z) (e : executed) : client_pc + EResult :=
  match e with ExDone r _ => inr r | ExPush sync p => after_push id t sync p end.
Definition client_next (client : Z) (n : client_pc + EResult) (cs : gmap Z client_pc) : gmap Z client_pc :=
  match n with inl p => <[client := p]> cs | inr _ => delete client cs end.
Definition client_label (client : Z) (n : client_pc + EResult) : label := match n with inl _ => LTau | inr r => LReturn client r end.

(** The point in time at which [Read(cmd, next_sleep)] gives up. *)
Definition until (now next_sleep : Z) : option Z := if next_sleep =? WAIT_INFINITE then None else Some (now + next_sleep).
Definition read_at (now next_sleep : Z) : tick_pc := TRead next_sleep (until now next_sleep).
(** A call of [ProcessCommands(next_sleep)]. *)
Definition enter_commands (now next_sleep : Z) (h : TimerHost) : tick_pc := read_at now (first_sleep next_sleep h).

Definition expires (now t : Z) (h : TimerHost) : bool :=
  m_active (timer h t) && negb (m_pending (timer h t)) && (now - m_deadline (timer h t) >=? 0).
Definition scan_label (now t : Z) (h : TimerHost) : label :=
  if expires now t h then LExpire t now (m_deadline (timer h t)) else LTau.
(** Task mode does not call the callbacks inline. *)
Definition no_callback (t : Z) (h : TimerHost) : TimerHost := h.

Definition next_handler (c : claim) : handler_pc :=
  match c with ClRun t slot => HRun t slot | ClAgain => HClaim | ClExit => HLeave | ClWait => HWait end.
Definition claim_label (c : claim) : label := match c with ClRun t _ => LCallback t | _ => LTau end.

Inductive tstep : World → label → World → Prop :=
| s_time w : tstep w LTau (mkWorld (w_host w) (w_tick w) (w_handlers w) (w_clients w) (w_now w + 1))
(* the tick task *)
| s_read w ns u cmd rest : w_tick w = TRead ns u → commands (w_host w) = cmd :: rest →
    tstep w LTau (mkWorld (set_commands rest (w_host w)) (TExec cmd ns) (w_handlers w) (w_clients w) (w_now w))
| s_timeout w ns d : w_tick w = TRead ns (Some d) → d ≤ w_now w →
    tstep w LTau (mkWorld (set_now (w_now w) (w_host w)) (TScan (w_now w) (active (w_host w)) WAIT_INFINITE) (w_handlers w) (w_clients w) (w_now w))
| s_exec w cmd ns h ns' : w_tick w = TExec cmd ns → ProcessCommand (w_now w) cmd ns (w_host w) = Ok (h, ns', true) →
    tstep w (LExec cmd) (mkWorld h (read_at (w_now w) ns') (w_handlers w) (w_clients w) (w_now w))
| s_shutdown w cmd ns h ns' : w_tick w = TExec cmd ns → ProcessCommand (w_now w) cmd ns (w_host w) = Ok (h, ns', false) →
    tstep w (LExec cmd) (mkWorld (UpdateTime_end h) TExit (w_handlers w) (w_clients w) (w_now w))
| s_scan w now t todo ns h ns' : w_tick w = TScan now (t :: todo) ns → ScanTimer no_callback now t ns (w_host w) = Ok (h, ns') →
    tstep w (scan_label now t (w_host w)) (mkWorld h (TScan now todo ns') (w_handlers w) (w_clients w) (w_now w))
| s_scanned w now ns : w_tick w = TScan now [] ns →
    tstep w LTau (mkWorld (w_host w) (enter_commands (w_now w) ns (w_host w)) (w_handlers w) (w_clients w) (w_now w))
(* a handler task *)
| s_claim w i h c : w_handlers w !! i = Some HClaim → Claim THREADS (w_host w) = Ok (h, c) →
    tstep w (claim_label c) (mkWorld h (w_tick w) (<[i := next_handler c]> (w_handlers w)) (w_clients w) (w_now w))
| s_release w i t slot : w_handlers w !! i = Some (HRun t slot) →
    tstep w LTau (mkWorld (Release slot (w_host w)) (w_tick w) (<[i := HClaim]> (w_handlers w)) (w_clients w) (w_now w))
| s_wait w i : w_handlers w !! i = Some HWait → ready_event (w_host w) = true →
    tstep w LTau (mkWorld (set_event false (w_host w)) (w_tick w) (<[i := HClaim]> (w_handlers w)) (w_clients w) (w_now w))
| s_leave w i : w_handlers w !! i = Some HLeave →
    tstep w LTau (mkWorld (set_event true (w_host w)) (w_tick w) (<[i := HExit]> (w_handlers w)) (w_clients w) (w_now w))
(* the callers *)
| s_call w c a size h e : api_ok a = true → w_clients w !! k_tid c = None → k_ticks c = w_now w → size = QUEUE_SIZE ∨ size = 0%nat → call_api size c a (w_host w) = Ok (h, e) →
    tstep w (client_label (k_tid c) (after_call (api_id a) (api_timer a) e))
      (mkWorld h (w_tick w) (w_handlers w) (client_next (k_tid c) (after_call (api_id a) (api_timer a) e) (w_clients w)) (w_now w))
| s_pushed w client cmd sync t : w_clients w !! client = Some (CPush cmd sync) → c_timer cmd = Some t ∨ c_timer cmd = None ∧ t = 0 →
    (length (commands (w_host w)) < QUEUE_SIZE)%nat →
    tstep w (client_label client (after_push (c_cmd cmd) t sync (PushDone RES_OK)))
      (mkWorld (Push_written cmd (w_host w)) (w_tick w) (w_handlers w)
         (client_next client (after_push (c_cmd cmd) t sync (PushDone RES_OK)) (w_clients w)) (w_now w))
| s_cancelled w client cmd sync : w_clients w !! client = Some (CPush cmd sync) →
    tstep w (LReturn client RES_CANCELLED)
      (mkWorld (Push_cancelled cmd (w_host w)).1 (w_tick w) (w_handlers w) (delete client (w_clients w)) (w_now w))
| s_completed w client id t r info : w_clients w !! client = Some (CAwait id t) → completed (w_host w) !! client = Some (r, info) →
    let n := if waits_callback id r && negb (IsHostTid client) then inl (CCallback t r) else inr r in
    tstep w (client_label client n)
      (mkWorld (set_completed (delete client (completed (w_host w))) (w_host w)) (w_tick w) (w_handlers w) (client_next client n (w_clients w)) (w_now w))
| s_stopped w client t r : w_clients w !! client = Some (CCallback t r) → callback_running t (w_host w) = false →
    tstep w (LStopped client t r) (mkWorld (w_host w) (w_tick w) (w_handlers w) (delete client (w_clients w)) (w_now w)).

Inductive trun (w0 : World) : list label → World → Prop :=
| trun_nil : trun w0 [] w0
| trun_step tr w l w' : trun w0 tr w → tstep w l w' → trun w0 (tr ++ [l]) w'.

(** The host after a successful [Initialize], with the tasks at their beginning. *)
Definition boot (tick_tid : Z) : World :=
  let h := set_tick_tid tick_tid (Initialize (replicate (S THREADS) true) (TimerHost_ctor THREADS)) in
  mkWorld h (enter_commands 0 NO_WAIT h) (replicate THREADS HClaim) ∅ 0.

End run.

(** ** The lists and the flags of the timers agree *)

Definition timer_ok (now : Z) (m : Timer) : Prop :=
  0 ≤ m_period m ≤ MAX_TICKS ∧ 0 ≤ m_delay m ≤ MAX_TICKS ∧ m_deadline m ≤ now + MAX_TICKS.

(** [live]: the tick task has not left its loop. *)
Record host_ok (live : Prop) (now : Z) (h : TimerHost) : Prop := {
  ho_polled : m_polled h = false;
  ho_nodup_active : NoDup (active h);
  ho_nodup_ready : NoDup (ready_list h);
  ho_active t : live → t ∈ active h ↔ m_active (timer h t) = true;
  ho_ready t : t ∈ ready_list h ↔ m_pending (timer h t) = true;
  ho_range t : timer_ok now (timer h t);
}.

Lemma timer_put t m h u : timer (put_timer t m h) u = if decide (t = u) then m else timer h u.
Proof. unfold timer. cbn. case_decide; subst; [by rewrite lookup_insert_eq|by rewrite lookup_insert_ne]. Qed.
Lemma timer_put_eq t m h : timer (put_timer t m h) t = m.
Proof. rewrite timer_put. by rewrite decide_True. Qed.

(** One timer changes, with its entries in the lists. *)
Lemma host_ok_update live now h h' t : host_ok live now h → m_polled h' = false → (∀ u, u ≠ t → timer h' u = timer h u) →
  NoDup (active h') → (∀ u, u ≠ t → u ∈ active h' ↔ u ∈ active h) → (live → t ∈ active h' ↔ m_active (timer h' t) = true) →
  NoDup (ready_list h') → (∀ u, u ≠ t → u ∈ ready_list h' ↔ u ∈ ready_list h) → (t ∈ ready_list h' ↔ m_pending (timer h' t) = true) →
  timer_ok now (timer h' t) → host_ok live now h'.
Proof.
  intros [H1 H2 H3 H4 H5 H6] Hp Ht Na Ha Hat Nr Hr Hrt Hok. split; try done; intros u; destruct (decide (u = t)) as [->|Hne]; try done.
  - rewrite Ha, Ht by done. apply H4.
  - rewrite Hr, Ht by done. apply H5.
  - rewrite Ht by done. apply H6.
Qed.
Lemma host_ok_ext live now h h' : host_ok live now h → m_polled h' = m_polled h → active h' = active h → ready_list h' = ready_list h →
  (∀ t, m_active (timer h' t) = m_active (timer h t) ∧ m_pending (timer h' t) = m_pending (timer h t) ∧ timer_ok now (timer h' t)) → host_ok live now h'.
Proof.
  intros [H1 H2 H3 H4 H5 H6] E1 E2 E3 HT. split; rewrite ?E1, ?E2, ?E3; try done; intros t; destruct (HT t) as (Ea & Ep & ?); rewrite ?Ea, ?Ep; auto.
Qed.
Lemma host_ok_later live now now' h : now ≤ now' → host_ok live now h → host_ok live now' h.
Proof. intros Hn [H1 H2 H3 H4 H5 H6]. split; try done. intros t. destruct (H6 t) as (? & ? & ?). split_and!; try done; lia. Qed.

(** [CancelPending] takes the timer off the ready list. *)
Lemma CancelPending_eq t h : m_polled h = false → (t ∈ ready_list h ↔ m_pending (timer h t) = true) → NoDup (ready_list h) →
  let h' := CancelPending t h in
  (∀ u, u ≠ t → timer h' u = timer h u) ∧ timer h' t = set_pending false (timer h t) ∧ active h' = active h ∧
  NoDup (ready_list h') ∧ (∀ u, u ∈ ready_list h' ↔ u ∈ ready_list h ∧ u ≠ t) ∧ m_polled h' = false.
Proof.
  intros Hp Hr Hn h'. subst h'. unfold CancelPending. rewrite Hp.
  assert (Hl : ready_list (if bool_decide (t ∈ ready_list h) then set_ready_list (list_remove1 t (ready_list h)) h else h) = list_remove1 t (ready_list h)).
  { case_bool_decide; [done|]. symmetry. by apply remove1_notin. }
  set (h1 := if bool_decide _ then _ else h) in *. assert (Ht : ∀ u, timer h1 u = timer h u) by (intros; subst h1; by case_bool_decide).
  assert (Ea : active h1 = active h) by (subst h1; by case_bool_decide). assert (Ep : m_polled h1 = false) by (subst h1; by case_bool_decide).
  split_and!; try done.
  - intros u Hu. rewrite timer_put, decide_False by done. apply Ht.
  - by rewrite timer_put_eq, Ht.
  - cbn. rewrite Hl. by apply NoDup_remove1.
  - intros u. cbn. rewrite Hl. rewrite elem_of_remove1 by done. tauto.
Qed.

Definition cmd_ok (now : Z) (cmd : TimerCommand) : Prop :=
  0 ≤ c_delay cmd ≤ MAX_TICKS ∧ 0 ≤ c_period cmd ≤ MAX_TICKS ∧ c_timestamp cmd ≤ now ∧
  (c_cmd cmd ≠ CMD_SHUTDOWN → is_Some (c_timer cmd)) ∧ (c_cmd cmd = CMD_SET_PERIOD → c_period cmd ≠ 0).

(** A timer is started: it leaves the ready list and is appended to the active ones. *)
Lemma arm_ok (live : Prop) now h h1 t m : host_ok live now h → timers h1 = timers h → m_polled h1 = false → ready_list h1 = ready_list h →
  active h1 = list_remove1 t (active h) → m_active m = true → m_pending m = m_pending (timer h t) → timer_ok now m →
  host_ok live now (LinkBack t (CancelPending t (put_timer t m h1))) ∧ timer (LinkBack t (CancelPending t (put_timer t m h1))) t = set_pending false m.
Proof.
  intros Hok Et Ep Er Ea Hm Hpm Hr. assert (Ht : ∀ u, timer h1 u = timer h u) by (intros; unfold timer; by rewrite Et).
  destruct (CancelPending_eq t (put_timer t m h1)) as (C1 & C2 & C3 & C4 & C5 & C6).
  { done. }
  { rewrite timer_put_eq. cbn. rewrite Er, Hpm. apply (ho_ready _ _ _ Hok). }
  { cbn. rewrite Er. apply Hok. }
  set (h2 := CancelPending t (put_timer t m h1)) in *. clearbody h2. rewrite timer_put_eq in C2. split; [|exact C2].
  assert (Hna : t ∉ active h2) by (rewrite C3; cbn; rewrite Ea, elem_of_remove1; tauto).
  apply (host_ok_update live now h _ t Hok); try done.
  - intros u Hu. change (timer (LinkBack t h2) u) with (timer h2 u). rewrite C1, timer_put, decide_False by done. apply Ht.
  - cbn. apply NoDup_app. split_and!; [rewrite C3; cbn; rewrite Ea; apply NoDup_remove1, Hok| |apply NoDup_singleton].
    intros u Hu ->%list_elem_of_singleton. done.
  - intros u Hu. cbn. rewrite elem_of_app, list_elem_of_singleton, C3. cbn. rewrite Ea, elem_of_remove1. tauto.
  - intros _. change (timer (LinkBack t h2) t) with (timer h2 t). rewrite C2. cbn. rewrite Hm, elem_of_app, list_elem_of_singleton. tauto.
  - intros u Hu. cbn. rewrite C5. cbn. rewrite Er. tauto.
  - change (timer (LinkBack t h2) t) with (timer h2 t). rewrite C2. cbn. rewrite C5. split; [tauto|done].
  - change (timer (LinkBack t h2) t) with (timer h2 t). rewrite C2. done.
Qed.
(** The deadline of a timer is moved, and an expiration that was not handled yet is
    forgotten. *)
Lemma reload_ok (live : Prop) now h t m : host_ok live now h → m_active m = m_active (timer h t) → m_pending m = m_pending (timer h t) → timer_ok now m →
  host_ok live now (CancelPending t (put_timer t m h)).
Proof.
  intros Hok Hm Hpm Hr. destruct (CancelPending_eq t (put_timer t m h)) as (C1 & C2 & C3 & C4 & C5 & C6).
  { apply Hok. }
  { rewrite timer_put_eq. cbn. rewrite Hpm. apply (ho_ready _ _ _ Hok). }
  { apply Hok. }
  set (h2 := CancelPending t (put_timer t m h)) in *. clearbody h2. rewrite timer_put_eq in C2. apply (host_ok_update live now h _ t Hok); try done.
  - intros u Hu. rewrite C1, timer_put, decide_False by done. done.
  - rewrite C3. apply Hok.
  - intros u Hu. by rewrite C3.
  - intros Hl. rewrite C3, C2. cbn. rewrite Hm. by apply (ho_active _ _ _ Hok).
  - intros u Hu. rewrite C5. cbn. tauto.
  - rewrite C2. cbn. rewrite C5. split; [tauto|done].
  - by rewrite C2.
Qed.
(** A stopped timer is on no list. *)
Definition stopped (t : Z) (h : TimerHost) : Prop :=
  m_active (timer h t) = false ∧ m_pending (timer h t) = false ∧ t ∉ active h ∧ t ∉ ready_list h.
Lemma exec_STOP_ok (live : Prop) now ns h t : host_ok live now h →
  ∃ h' r, exec_STOP t ns h = Ok (h', r, no_info, ns) ∧ host_ok live now h' ∧ stopped t h' ∧ r = (if m_active (timer h t) then RES_OK else RES_INACTIVE) ∧
    (∀ u, u ≠ t → timer h' u = timer h u).
Proof.
  intros Hok. unfold exec_STOP. destruct (CancelPending_eq t (put_timer t (set_tactive false (timer h t)) h)) as (C1 & C2 & C3 & C4 & C5 & C6).
  { apply Hok. }
  { rewrite timer_put_eq. cbn. apply (ho_ready _ _ _ Hok). }
  { apply Hok. }
  set (h2 := CancelPending t _) in *. clearbody h2. rewrite timer_put_eq in C2.
  set (h3 := if IsLinked t h2 then Unlink t h2 else h2). assert (E3 : active h3 = list_remove1 t (active h)).
  { subst h3. unfold IsLinked. case_bool_decide as Hin; cbn; rewrite C3 in *; [done|]. cbn. symmetry. by apply remove1_notin. }
  assert (T3 : ∀ u, timer h3 u = timer h2 u) by (intros; subst h3; by case_match).
  assert (R3 : ready_list h3 = ready_list h2) by (subst h3; by case_match). assert (P3 : m_polled h3 = false) by (subst h3; by case_match).
  assert (Hu : ∀ u, u ≠ t → timer h3 u = timer h u) by (intros u Hne; rewrite T3, C1, timer_put, decide_False by done; done).
  eexists _, _. split; [reflexivity|]. split_and!; [|split_and!|done|done].
  - apply (host_ok_update live now h _ t Hok); try done.
    + rewrite E3. apply NoDup_remove1, Hok.
    + intros u Hne. rewrite E3, elem_of_remove1. tauto.
    + intros _. rewrite E3, elem_of_remove1, T3, C2. cbn. split; [tauto|done].
    + by rewrite R3.
    + intros u Hne. rewrite R3, C5. cbn. tauto.
    + rewrite R3, C5, T3, C2. cbn. split; [tauto|done].
    + rewrite T3, C2. apply (ho_range _ _ _ Hok).
  - by rewrite T3, C2.
  - by rewrite T3, C2.
  - rewrite E3, elem_of_remove1. tauto.
  - rewrite R3, C5. tauto.
Qed.

(** ** Commands *)

Lemma exec_command_ok now cmd ns h : host_ok True now h → cmd_ok now cmd →
  ∃ h' r info ns', exec_command now cmd ns h = Ok (h', r, info, ns') ∧ host_ok True now h'.
Proof.
  intros Hok (Hd & Hp & Hts & Htm & Hsp). assert (Hpol := ho_polled _ _ _ Hok). unfold exec_command.
  destruct (c_cmd cmd) eqn:Ec; [|destruct Htm as [t Et]; [done|]; rewrite Et; cbn [deref mbind res_bind]..].
  1: { unfold exec_SHUTDOWN. rewrite Hpol. eexists _, _, _, _. split; [reflexivity|]. by apply (host_ok_ext True now h); [..|intros; split_and!; try apply Hok]. }
  all: assert (Hact := ho_active _ _ _ Hok t I); assert (Hrng := ho_range _ _ _ Hok t); destruct Hrng as (R1 & R2 & R3).
  - unfold exec_START, IsLinked. destruct (m_active (timer h t)) eqn:Ea; cbn [negb]; [by eexists _, _, _, _|].
    rewrite bool_decide_eq_false_2 by (rewrite Hact; done). cbn [negb stk_assert]. eexists _, _, _, _. split; [reflexivity|].
    apply (arm_ok True now h h t); try done; [|split_and!; cbn; try done; lia]. symmetry. apply remove1_notin. by rewrite Hact.
  - destruct (exec_STOP_ok True now ns h t Hok) as (h' & r & E & H & _). eauto 10.
  - unfold exec_RESET, IsLinked. destruct (m_active (timer h t)) eqn:Ea; cbn [andb]; [|by eexists _, _, _, _].
    rewrite bool_decide_eq_true_2 by (by rewrite Hact). destruct (negb _); cbn [stk_assert]; [|by eexists _, _, _, _]. eexists _, _, _, _. split; [reflexivity|].
    apply reload_ok; try done. split_and!; cbn; try done; lia.
  - unfold exec_RESTART, IsLinked. eexists _, _, _, _. split; [reflexivity|]. set (h1 := if bool_decide _ then Unlink t h else h).
    assert (E1 : active h1 = list_remove1 t (active h) ∧ timers h1 = timers h ∧ m_polled h1 = false ∧ ready_list h1 = ready_list h).
    { subst h1. case_bool_decide as Hin; [done|]. split_and!; try done. symmetry. by apply remove1_notin. }
    destruct E1 as (E1 & E2 & E3 & E4). apply (arm_ok True now h h1 t); try done; cbn; unfold timer; rewrite ?E2; [done|split_and!; cbn; try done; lia].
  - unfold exec_START_OR_RESET, IsLinked. destruct (m_active (timer h t)) eqn:Ea; cbn [negb].
    + rewrite bool_decide_eq_true_2 by (by rewrite Hact). destruct (negb _); cbn [stk_assert]; [|by eexists _, _, _, _]. eexists _, _, _, _. split; [reflexivity|].
      apply reload_ok; try done. split_and!; cbn; try done; lia.
    + rewrite bool_decide_eq_false_2 by (rewrite Hact; done). cbn [negb stk_assert]. eexists _, _, _, _. split; [reflexivity|].
      apply (arm_ok True now h h t); try done; [|split_and!; cbn; try done; lia]. symmetry. apply remove1_notin. by rewrite Hact.
  - unfold exec_SET_PERIOD, IsLinked. rewrite (proj2 (Z.eqb_neq _ _)) by (by apply Hsp). cbn [negb stk_assert].
    destruct (m_active (timer h t)) eqn:Ea; cbn [andb]; [|by eexists _, _, _, _].
    rewrite bool_decide_eq_true_2 by (by rewrite Hact). destruct (negb _); cbn [stk_assert]; [|by eexists _, _, _, _]. eexists _, _, _, _. split; [reflexivity|].
    apply (host_ok_ext True now h); try done. intros u. rewrite timer_put. case_decide; [subst u|split_and!; try done; apply Hok]. cbn. rewrite Ea. split_and!; try done; split_and!; cbn; try done; lia.
  - unfold exec_ACTIVATE, IsLinked. destruct (m_active (timer h t)) eqn:Ea; cbn [negb]; [by eexists _, _, _, _|].
    rewrite bool_decide_eq_false_2 by (rewrite Hact; done). cbn [negb stk_assert]. eexists _, _, _, _. split; [reflexivity|].
    apply (arm_ok True now h h t); try done; [|split_and!; cbn; try done; lia]. symmetry. apply remove1_notin. by rewrite Hact.
  - unfold exec_CHANGE. destruct (m_active (timer h t)) eqn:Ea; cbn [negb]; [by eexists _, _, _, _|]. eexists _, _, _, _. split; [reflexivity|].
    apply (host_ok_ext True now h); try done. intros u. rewrite timer_put. case_decide; [subst u|split_and!; try done; apply Hok]. cbn. split_and!; try done; split_and!; cbn; try done; lia.
  - by eexists _, _, _, _.
Qed.

(** What a command does not touch. *)
Definition same_rest (h h' : TimerHost) : Prop :=
  commands h' = commands h ∧ m_running h' = m_running h ∧ m_ready h' = m_ready h ∧ m_polled h' = m_polled h.
Definition same_timer (u : Z) (h h' : TimerHost) : Prop :=
  timer h' u = timer h u ∧ (u ∈ active h' ↔ u ∈ active h) ∧ (u ∈ ready_list h' ↔ u ∈ ready_list h).

Lemma same_rest_trans h1 h2 h3 : same_rest h1 h2 → same_rest h2 h3 → same_rest h1 h3.
Proof. intros (?&?&?&?) (?&?&?&?). split_and!; congruence. Qed.
(** Everything but the timer [t]. *)
Definition frame (t : Z) (h h' : TimerHost) : Prop :=
  same_rest h h' ∧ completed h' = completed h ∧ ∀ u, u ≠ t → same_timer u h h'.

Lemma frame_refl t h : frame t h h.
Proof. by split_and!. Qed.
Lemma frame_trans t h1 h2 h3 : frame t h1 h2 → frame t h2 h3 → frame t h1 h3.
Proof.
  intros ((?&?&?&?) & ? & T1) ((?&?&?&?) & ? & T2). split_and!; [split_and!; congruence|congruence|]. intros u Hu.
  destruct (T1 u Hu) as (E1&A1&R1), (T2 u Hu) as (E2&A2&R2). split_and!; [congruence|by rewrite A2|by rewrite R2].
Qed.
Lemma frame_cancel t h : frame t h (CancelPending t h).
Proof.
  unfold CancelPending. set (h1 := if m_polled h then _ else _).
  assert (H1 : same_rest h h1 ∧ completed h1 = completed h ∧ timers h1 = timers h ∧ active h1 = active h ∧ ∀ u, u ≠ t → u ∈ ready_list h1 ↔ u ∈ ready_list h).
  { subst h1. destruct (m_polled h); [done|]. case_bool_decide; [|done]. split_and!; try done. intros u Hu. cbn. rewrite elem_of_remove1. tauto. }
  clearbody h1. destruct H1 as (? & ? & Et & Ea & Er). split_and!; try done. intros u Hu. split_and!.
  - rewrite timer_put, decide_False by done. unfold timer. by rewrite Et.
  - cbn. by rewrite Ea.
  - by apply Er.
Qed.
Lemma frame_put t m h : frame t h (put_timer t m h).
Proof. split_and!; try done. intros u Hu. split_and!; try done. rewrite timer_put. by rewrite decide_False. Qed.
Lemma frame_link t h : frame t h (LinkBack t h).
Proof. split_and!; try done. intros u Hu. split_and!; try done. cbn. rewrite elem_of_app, list_elem_of_singleton. tauto. Qed.
Lemma frame_unlink t h : frame t h (Unlink t h).
Proof. split_and!; try done. intros u Hu. split_and!; try done. cbn. rewrite elem_of_remove1. tauto. Qed.
Lemma frame_unlinked t h : frame t h (if IsLinked t h then Unlink t h else h).
Proof. case_match; [apply frame_unlink|apply frame_refl]. Qed.
Local Ltac frames := repeat first [apply frame_refl | eapply frame_trans; [|first [apply frame_link | apply frame_cancel | apply frame_put | apply frame_unlinked | apply frame_unlink]]].

Lemma exec_command_frame ticks cmd ns h h' r info ns' : m_polled h = false → exec_command ticks cmd ns h = Ok (h', r, info, ns') →
  match c_timer cmd with Some t => c_cmd cmd = CMD_SHUTDOWN ∨ frame t h h' | None => True end ∧
  (c_cmd cmd = CMD_SHUTDOWN → same_rest h h' ∧ completed h' = completed h ∧ ∀ u, same_timer u h h').
Proof.
  intros Hp. unfold exec_command. destruct (c_cmd cmd) eqn:Ec.
  1: { unfold exec_SHUTDOWN. rewrite Hp. intros [= <- <- <- <-]. split; [by destruct (c_timer cmd); [left|]|]. intros _. by split_and!. }
  all: destruct (c_timer cmd) as [t|]; cbn [deref mbind res_bind]; [|done]; intros H; (split; [right|done]).
  all: unfold exec_START, exec_STOP, exec_RESET, exec_RESTART, exec_START_OR_RESET, exec_SET_PERIOD, exec_ACTIVATE, exec_CHANGE in H;
    repeat (case_match; inv_res); inv_res; simplify_eq; frames.
Qed.

(** Commands that start a timer. *)
Definition arms (t : Z) (cmd : TimerCommand) : bool :=
  bool_decide (c_timer cmd = Some t) && match c_cmd cmd with CMD_START | CMD_ACTIVATE | CMD_RESTART | CMD_START_OR_RESET => true | _ => false end.
Lemma stopped_same t h h' : same_timer t h h' → stopped t h → stopped t h'.
Proof. intros (E & A & R) (H1 & H2 & H3 & H4). unfold stopped. by rewrite E, A, R. Qed.
Lemma exec_stopped now ticks cmd ns h h' r info ns' t : host_ok True now h → stopped t h → arms t cmd = false → (c_cmd cmd ≠ CMD_SHUTDOWN → is_Some (c_timer cmd)) →
  exec_command ticks cmd ns h = Ok (h', r, info, ns') → stopped t h'.
Proof.
  intros Hok Hs Ha Hcmd E. pose proof (ho_polled _ _ _ Hok) as Hp. destruct (exec_command_frame _ _ _ _ _ _ _ _ Hp E) as [Hf Hsh].
  destruct (decide (c_cmd cmd = CMD_SHUTDOWN)) as [Ec|Ec]; [destruct (Hsh Ec) as (_ & _ & Hu); by eapply stopped_same|].
  destruct Hcmd as [u Eu]; [done|]. rewrite Eu in Hf. destruct Hf as [?|(_ & _ & Hf)]; [done|].
  destruct (decide (t = u)) as [<-|Hne]; [|eapply stopped_same; [by apply Hf|done]]. unfold arms in Ha. rewrite Eu, bool_decide_eq_true_2 in Ha by done.
  unfold exec_command in E. rewrite Eu in E. cbn [deref mbind res_bind] in E. destruct Hs as (S1 & S2 & S3 & S4). destruct (c_cmd cmd); try done; cbn [andb] in Ha.
  - destruct (exec_STOP_ok True now ns h t Hok) as (h1 & r1 & E1 & _ & Hst & _). rewrite E1 in E. by injection E as <- <- <- <-.
  - unfold exec_RESET in E. rewrite S1 in E. cbn in E. by injection E as <- <- <- <-.
  - unfold exec_SET_PERIOD in E. rewrite S1 in E. cbn in E. inv_res. done.
  - unfold exec_CHANGE in E. rewrite S1 in E. cbn in E. injection E as <- <- <- <-. unfold stopped. by rewrite timer_put_eq.
  - by injection E as <- <- <- <-.
Qed.

(** ** Expired timers *)

(** The timer [t] after its expiration was handed to the handlers. *)
Definition fired (now : Z) (m : Timer) : Timer :=
  mkTimer (if m_period m =? 0 then m_deadline m else m_deadline m + m_period m) now (m_period m) (m_delay m) (negb (m_period m =? 0)) true (m_rearming m).

Lemma expire_ok (live : Prop) now h t : host_ok True now h → t ∈ active h → m_pending (timer h t) = false → m_deadline (timer h t) ≤ now →
  ∃ h', expire no_callback now (now - m_deadline (timer h t)) t h = Ok (h', m_period (timer h t) =? 0) ∧
    timer h' t = fired now (timer h t) ∧ ready_list h' = ready_list h ++ [t] ∧ ready_event h' = true ∧
    active h' = (if m_period (timer h t) =? 0 then list_remove1 t (active h) else active h) ∧ frame t h h' ∧ host_ok True now h'.
Proof.
  intros Hok Hin Hpe Hdue. pose proof (ho_polled _ _ _ Hok) as Hpol. assert (Hact : m_active (timer h t) = true) by (by apply (ho_active _ _ _ Hok)).
  assert (Hnr : t ∉ ready_list h) by (rewrite (ho_ready _ _ _ Hok), Hpe; done). unfold expire. cbv zeta.
  set (h1 := if m_period (timer h t) =? 0 then _ else _).
  assert (H1 : timer h1 t = fired now (timer h t) ∧ ready_list h1 = ready_list h ∧ m_polled h1 = false ∧
    active h1 = (if m_period (timer h t) =? 0 then list_remove1 t (active h) else active h) ∧ frame t h h1).
  { subst h1. unfold fired. destruct (m_period (timer h t) =? 0) eqn:Epp; (split_and!; [|done..|frames]).
    - rewrite timer_put_eq. done.
    - rewrite timer_put_eq. unfold set_deadline. cbn. rewrite Hact. f_equal. lia. }
  clearbody h1. destruct H1 as (T1 & R1 & P1 & A1 & F1). rewrite P1, R1, bool_decide_eq_false_2 by done. cbn [negb stk_assert].
  eexists. split; [reflexivity|]. assert (HF : frame t h (set_event true (set_ready_list (ready_list h ++ [t]) h1))).
  { destruct F1 as (F1 & F2 & F3). split_and!; try done. intros u Hu. destruct (F3 u Hu) as (? & ? & ?). split_and!; try done. cbn. rewrite elem_of_app, list_elem_of_singleton. tauto. }
  split_and!; try done. destruct HF as (_ & _ & HF). destruct (ho_range _ _ _ Hok t) as (Hr1 & Hr2 & Hr3). apply (host_ok_update True now h _ t Hok); try done.
  - intros u Hu. by apply HF.
  - cbn. rewrite A1. case_match; [apply NoDup_remove1|]; apply Hok.
  - intros u Hu. by apply HF.
  - intros _. change (timer (set_event _ _) t) with (timer h1 t). rewrite T1. cbn. rewrite A1. destruct (m_period (timer h t) =? 0); cbn; [rewrite elem_of_remove1|]; split; try done; tauto.
  - cbn. apply NoDup_app. split_and!; [apply Hok| |apply NoDup_singleton]. intros u Hu ->%list_elem_of_singleton. done.
  - intros u Hu. by apply HF.
  - change (timer (set_event _ _) t) with (timer h1 t). rewrite T1. cbn. rewrite elem_of_app, list_elem_of_singleton. tauto.
  - change (timer (set_event _ _) t) with (timer h1 t). rewrite T1. split_and!; cbn; try done; try lia. destruct (m_period (timer h t) =? 0); lia.
Qed.

(** The deadline of a timer after a scan, and what it makes [next_sleep]. *)
Definition due (now : Z) (m : Timer) : bool := negb (m_pending m) && (m_deadline m <=? now).
Definition scanned (now : Z) (m : Timer) : Timer := if due now m then fired now m else m.
Definition sleep_until (now : Z) (m : Timer) (ns : Z) : Z :=
  if m_pending m || (due now m && (m_period m =? 0)) then ns else Z.min ns (m_deadline (scanned now m) - now).
(** The scan comes in time: no periodic timer is overdue by a whole period. *)
Definition in_time (now : Z) (m : Timer) : Prop := due now m = true → m_period m ≠ 0 → now < m_deadline m + m_period m.

Lemma min_if a b : (if a <? b then a else b) = Z.min b a.
Proof. destruct (Z.ltb_spec a b); lia. Qed.
Lemma to_Timeout_pos d : 0 < d ≤ MAX_TICKS → Monitor.to_Timeout d = d.
Proof. intros H. apply Monitor.to_Timeout_id. unfold in_i32, INT32_MIN, MAX_TICKS, WAIT_INFINITE, INT32_MAX in *. lia. Qed.

Lemma ScanTimer_ok now t ns h : host_ok True now h → t ∈ active h → in_time now (timer h t) →
  ∃ h', ScanTimer no_callback now t ns h = Ok (h', sleep_until now (timer h t) ns) ∧
    timer h' t = scanned now (timer h t) ∧
    active h' = (if due now (timer h t) && (m_period (timer h t) =? 0) then list_remove1 t (active h) else active h) ∧
    ready_list h' = (if due now (timer h t) then ready_list h ++ [t] else ready_list h) ∧
    ready_event h' = ready_event h || due now (timer h t) ∧ frame t h h' ∧ host_ok True now h'.
Proof.
  intros Hok Hin Htime. assert (Hact : m_active (timer h t) = true) by (by apply (ho_active _ _ _ Hok)).
  pose proof (ho_polled _ _ _ Hok) as Hpol. destruct (ho_range _ _ _ Hok t) as (Hr1 & Hr2 & Hr3).
  unfold ScanTimer, sleep_until, scanned, in_time, due in *. rewrite Hact. destruct (m_pending (timer h t)) eqn:Hpe; cbn [negb andb orb] in *.
  { eexists. rewrite orb_false_r. split_and!; done. }
  rewrite Z.geb_leb. destruct (Z.leb_spec (m_deadline (timer h t)) now) as [Hd|Hd]; cbn [andb] in *.
  - rewrite (proj2 (Z.leb_le 0 _)) by lia. destruct (expire_ok True now h t Hok Hin Hpe Hd) as (h' & E & T & R & Ev & A & F & Hok').
    rewrite E. cbn [mbind res_bind]. exists h'. destruct (m_period (timer h t) =? 0) eqn:Ep; [rewrite orb_true_r; done|].
    assert (Hpol' : m_polled h' = false) by (destruct F as ((_ & _ & _ & ->) & _); done). apply Z.eqb_neq in Ep.
    assert (Ed : m_deadline (timer h' t) = m_deadline (timer h t) + m_period (timer h t)) by (rewrite T; unfold fired; cbn; by rewrite (proj2 (Z.eqb_neq _ _) Ep)).
    specialize (Htime eq_refl Ep). rewrite Ed, to_Timeout_pos, Hpol' by lia. set (d := m_deadline (timer h t) + m_period (timer h t) - now) in *. rewrite (proj2 (Z.gtb_lt d 0)), (proj2 (Z.leb_gt d 0)) by lia. cbn [orb stk_assert].
    rewrite min_if, orb_true_r. split_and!; try done. rewrite <- T, Ed. done.
  - rewrite (proj2 (Z.leb_gt 0 _)) by lia. cbn [mbind res_bind]. rewrite to_Timeout_pos, Hpol by lia. set (d := m_deadline (timer h t) - now) in *. rewrite (proj2 (Z.gtb_lt d 0)), (proj2 (Z.leb_gt d 0)) by lia. cbn [orb stk_assert].
    rewrite min_if, orb_false_r. eexists. split_and!; done.
Qed.

(** Late or not, a turn that returns keeps the lists in order. *)
Lemma ScanTimer_keeps now t ns h h' ns' : host_ok True now h → t ∈ active h → ScanTimer no_callback now t ns h = Ok (h', ns') →
  timer h' t = scanned now (timer h t) ∧ (m_period (timer h t) ≠ 0 → active h' = active h) ∧ frame t h h' ∧ host_ok True now h' ∧
  (∀ u, u ∈ active h → u ≠ t → u ∈ active h').
Proof.
  intros Hok Hin E. assert (Hact : m_active (timer h t) = true) by (by apply (ho_active _ _ _ Hok)).
  unfold ScanTimer, scanned, due in *. rewrite Hact in E. destruct (m_pending (timer h t)) eqn:Hpe; cbn [negb andb] in *; [injection E as <- <-; by split_and!|].
  rewrite Z.geb_leb in E. destruct (Z.leb_spec (m_deadline (timer h t)) now) as [Hd|Hd].
  - rewrite (proj2 (Z.leb_le 0 _)) in E by lia. destruct (expire_ok True now h t Hok Hin Hpe Hd) as (h1 & E1 & T & R & Ev & A & F & Hok').
    rewrite E1 in E. cbn [mbind res_bind] in E.
    assert (h' = h1) as -> by (destruct (m_period (timer h t) =? 0); inv_res; congruence). split_and!; try done.
    + intros Hp. by rewrite (proj2 (Z.eqb_neq _ _) Hp) in A.
    + intros u Hu Hne. by apply F.
  - rewrite (proj2 (Z.leb_gt 0 _)) in E by lia. cbn [mbind res_bind] in E. inv_res. by split_and!.
Qed.

(** The whole scan. *)
Definition sleep_of (now : Z) (h : TimerHost) (l : list Z) (ns : Z) : Z := foldl (λ ns t, sleep_until now (timer h t) ns) ns l.
Definition shot (now : Z) (m : Timer) : bool := due now m && (m_period m =? 0).

Lemma ScanTimers_loop_ok now : ∀ l ns h, host_ok True now h → NoDup l → (∀ t, t ∈ l → t ∈ active h ∧ in_time now (timer h t)) →
  ∃ h', ScanTimers_loop no_callback now l ns h = Ok (h', sleep_of now h l ns) ∧
    (∀ t, timer h' t = if bool_decide (t ∈ l) then scanned now (timer h t) else timer h t) ∧
    active h' = filter (λ t, ¬ (t ∈ l ∧ shot now (timer h t) = true)) (active h) ∧
    ready_list h' = ready_list h ++ filter (λ t, due now (timer h t) = true) l ∧ same_rest h h' ∧ host_ok True now h'.
Proof.
  induction l as [|t l IH]; intros ns h Hok Hnd Hl.
  { exists h. cbn. split_and!; try done; [|by rewrite app_nil_r]. symmetry. apply filter_in_id. intros t _ [H _]. by apply not_elem_of_nil in H. }
  apply NoDup_cons in Hnd as [Ht Hnd]. destruct (Hl t) as [Hin Htime]; [left|].
  destruct (ScanTimer_ok now t ns h Hok Hin Htime) as (h1 & E & T & A & R & _ & (F0 & _ & F) & Hok1).
  assert (Hsame : ∀ u, u ∈ l → timer h1 u = timer h u) by (intros u Hu; apply F; congruence).
  destruct (IH (sleep_until now (timer h t) ns) h1 Hok1 Hnd) as (h' & E' & T' & A' & R' & F' & Hok').
  { intros u Hu. destruct (Hl u) as [Hau Htu]; [by right|]. rewrite Hsame by done. split; [|done]. apply F; [congruence|done]. }
  exists h'. cbn [ScanTimers_loop]. rewrite E. cbn [mbind res_bind]. split_and!.
  - rewrite E'. do 2 f_equal. unfold sleep_of. cbn [foldl]. apply foldl_in_ext. intros x u Hu. by rewrite Hsame.
  - intros u. rewrite T'. destruct (decide (u = t)) as [->|Hne].
    + rewrite (bool_decide_eq_false_2 (t ∈ l)), bool_decide_eq_true_2 by (done || left). exact T.
    + rewrite (bool_decide_ext (u ∈ t :: l) (u ∈ l)) by (rewrite elem_of_cons; tauto). case_bool_decide; [rewrite Hsame by done; done|by apply F].
  - rewrite A', A. assert (Hx : ∀ u, u ≠ t → timer h1 u = timer h u) by (intros u Hu; by apply F).
    destruct (shot now (timer h t)) eqn:Es; unfold shot in Es; rewrite Es.
    + unfold list_remove1. rewrite list_filter_filter. apply list_filter_iff. intros u. rewrite elem_of_cons. destruct (decide (u = t)) as [->|Hne]; [tauto|].
      rewrite Hx by done. tauto.
    + apply list_filter_iff. intros u. rewrite elem_of_cons. destruct (decide (u = t)) as [->|Hne]; [unfold shot; rewrite Es; naive_solver|].
      rewrite Hx by done. tauto.
  - rewrite R', R. assert (Ef : filter (λ u, due now (timer h1 u) = true) l = filter (λ u, due now (timer h u) = true) l).
    { apply filter_in_ext. intros u Hu. by rewrite Hsame. }
    rewrite Ef. destruct (due now (timer h t)) eqn:Ed; [rewrite filter_cons_True by done; by rewrite <- app_assoc|rewrite filter_cons_False by congruence; done].
  - eapply same_rest_trans; done.
  - done.
Qed.

(** ** Handlers *)

Section tasks.
Context (THREADS QUEUE_SIZE : nat).

Definition is_busy (s : option Z) : Z := match s with Some _ => 1 | None => 0 end.
Definition busy_slots (l : list (option Z)) : Z := Monitor.tally is_busy l.

Lemma tally_insert {A} (f : A → Z) l i x y : l !! i = Some x → Monitor.tally f (<[i := y]> l) = Monitor.tally f l - f x + f y.
Proof.
  revert i. induction l as [|z l IH]; intros [|i] H; try done; [injection H as ->; cbn; lia|].
  change (f z + Monitor.tally f (<[i := y]> l) = f z + Monitor.tally f l - f x + f y). rewrite (IH i H). lia.
Qed.
Lemma free_slot_spec l : busy_slots l < Z.of_nat (length l) → (free_slot l < length l)%nat ∧ l !! free_slot l = Some None.
Proof.
  unfold busy_slots, Monitor.tally. induction l as [|[t|] l IH]; cbn; intros H; [lia| |split; [lia|done]]. destruct IH as [? ?]; [lia|]. split; [lia|done].
Qed.

(** A handler takes the first expiration and announces its callback. *)
Lemma Claim_ok (live : Prop) now h : host_ok live now h → length (m_running h) = THREADS → busy_slots (m_running h) < Z.of_nat THREADS →
  ∃ h' c, Claim THREADS h = Ok (h', c) ∧ host_ok live now h' ∧ active h' = active h ∧ commands h' = commands h ∧ completed h' = completed h ∧ m_polled h' = m_polled h ∧
    match ready_list h with
    | t :: rest => ready_list h' = rest ∧ timer h' t = set_pending false (timer h t) ∧ (∀ u, u ≠ t → timer h' u = timer h u) ∧
        ∃ s, c = ClRun t s ∧ m_running h !! s = Some None ∧ m_running h' = <[s := Some t]> (m_running h)
    | [] => h' = h ∧ (c = ClExit ∨ c = ClWait)
    end.
Proof.
  intros Hok Hlen Hb. unfold Claim. destruct (ready_list h) as [|t rest] eqn:Er.
  { eexists _, _. split; [reflexivity|]. split_and!; try done. destruct (m_shutdown h); auto. }
  assert (Hnd := ho_nodup_ready _ _ _ Hok). rewrite Er in Hnd. apply NoDup_cons in Hnd as [Ht Hnd].
  assert (Hpe : m_pending (timer h t) = true) by (apply (ho_ready _ _ _ Hok); rewrite Er; left).
  change (timer (set_ready_list rest h) t) with (timer h t). rewrite Hpe. cbn [m_running put_timer set_timers set_ready_list].
  destruct (free_slot_spec (m_running h)) as [Hf1 Hf2]; [by rewrite Hlen|]. rewrite bool_decide_eq_true_2 by lia. cbn [stk_assert].
  eexists _, _. split; [reflexivity|]. set (h1 := set_running _ _).
  assert (T1 : ∀ u, timer h1 u = if decide (t = u) then set_pending false (timer h t) else timer h u).
  { intros u. subst h1. change (timer (set_running _ ?x) u) with (timer x u). rewrite timer_put. done. }
  assert (Hr : ready_list h1 = rest ∧ active h1 = active h ∧ m_polled h1 = m_polled h) by done. destruct Hr as (Hr & Ha & Hpo).
  split_and!; try done.
  - apply (host_ok_update live now h _ t Hok); rewrite ?Hr, ?Ha, ?Hpo, ?T1, ?decide_True by done; try done; try apply Hok.
    + intros u Hu. by rewrite T1, decide_False.
    + intros u Hu. rewrite Er, elem_of_cons. tauto.
  - by rewrite T1, decide_True.
  - intros u Hu. by rewrite T1, decide_False.
  - eauto.
Qed.

(** ** Calls *)

(** A call changes the queue and the [m_rearming] flags only. *)
Definition calls_only (h h' : TimerHost) : Prop :=
  active h' = active h ∧ ready_list h' = ready_list h ∧ m_running h' = m_running h ∧ completed h' = completed h ∧ m_polled h' = m_polled h ∧
  ∀ t, ∃ b, timer h' t = set_rearming b (timer h t).
Lemma calls_only_refl h : calls_only h h.
Proof. split_and!; try done. intros t. exists (m_rearming (timer h t)). by destruct (timer h t). Qed.
Lemma calls_only_trans h1 h2 h3 : calls_only h1 h2 → calls_only h2 h3 → calls_only h1 h3.
Proof.
  intros (?&?&?&?&?&T1) (?&?&?&?&?&T2). split_and!; try congruence. intros t. destruct (T1 t) as [b1 E1], (T2 t) as [b2 E2]. exists b2. by rewrite E2, E1.
Qed.
Lemma mark_calls b cmd h : calls_only h (mark_rearming b cmd h).
Proof.
  unfold mark_rearming. destruct (rearmed cmd) as [t|]; [|apply calls_only_refl]. split_and!; try done. intros u. rewrite timer_put.
  case_decide; [subst; eauto|]. exists (m_rearming (timer h u)). by destruct (timer h u).
Qed.
Lemma mark_commands b cmd h : commands (mark_rearming b cmd h) = commands h.
Proof. unfold mark_rearming. by destruct (rearmed cmd). Qed.
Lemma host_ok_calls live now h h' : host_ok live now h → calls_only h h' → host_ok live now h'.
Proof.
  intros Hok (Ea & Er & _ & _ & Ep & HT). apply (host_ok_ext live now h); try done. intros t. destruct (HT t) as [b E]. rewrite E. split_and!; try done. apply (ho_range _ _ _ Hok).
Qed.

(** The three ends of a push: written, merged or refused, waiting. *)
Definition push_post (cmd : TimerCommand) (h h' : TimerHost) (p : pushed) : Prop :=
  calls_only h h' ∧
  match p with
  | PushDone r => commands h' = commands h ++ [cmd] ∧ r = RES_OK ∧ (length (commands h) < QUEUE_SIZE)%nat ∨
                  commands h' = commands h ∧ (r = RES_OK → c_completion cmd = None)
  | PushBlocked cmd' => cmd' = cmd ∧ commands h' = commands h
  end.
Lemma PushCommand_post c cmd inf h : let '(h', p) := PushCommand QUEUE_SIZE c cmd inf h in push_post cmd h h' p.
Proof.
  unfold PushCommand. destruct (m_ready h); cbn [negb]; [|split; [apply calls_only_refl|by right]].
  destruct (match rearmed cmd with Some t => _ | None => false end) eqn:E.
  - split; [apply calls_only_refl|]. right. split; [done|]. intros _. unfold rearmed in E. destruct (c_completion cmd); [|done]. by rewrite andb_false_r in E.
  - rewrite mark_commands. case_bool_decide; [|destruct (inf || _)]; (split; [|cbn]).
    + cbn. apply (mark_calls true cmd).
    + left. done.
    + apply mark_calls.
    + split; [done|apply mark_commands].
    + eapply calls_only_trans; apply mark_calls.
    + right. rewrite !mark_commands. done.
Qed.

(** What a call leaves: nothing to wait for, a command to write, or a command in the
    queue whose completion it waits for. *)
Definition call_post (now client : Z) (h h' : TimerHost) (n : client_pc + EResult) : Prop :=
  calls_only h h' ∧
  match n with
  | inr _ => commands h' = commands h ∨ ∃ cmd, commands h' = commands h ++ [cmd] ∧ cmd_ok now cmd ∧ c_completion cmd = None ∧ (length (commands h) < QUEUE_SIZE)%nat
  | inl (CPush cmd sync) => commands h' = commands h ∧ cmd_ok now cmd ∧ c_completion cmd = (if sync then Some client else None)
  | inl (CAwait _ _) => ∃ cmd, commands h' = commands h ++ [cmd] ∧ cmd_ok now cmd ∧ c_completion cmd = Some client ∧ (length (commands h) < QUEUE_SIZE)%nat
  | inl (CCallback _ _) => False
  end.
Lemma push_call now client id t (sync : bool) c cmd inf h : cmd_ok now cmd → c_completion cmd = (if sync then Some client else None) →
  let '(h', p) := PushCommand QUEUE_SIZE c cmd inf h in call_post now client h h' (after_push id t sync p).
Proof.
  intros Hok Hc. pose proof (PushCommand_post c cmd inf h) as H. destruct (PushCommand _ _ _ _ _) as [h' p]. destruct H as [Hcalls H]. split; [done|].
  destruct p as [r|cmd']; cbn.
  - destruct sync; cbn [andb]; [case_bool_decide as Hr|].
    + destruct H as [(? & _ & ?)|[_ H]]; [eauto 10|]. rewrite Hc in H. by specialize (H Hr).
    + destruct H as [(? & ? & _)|[? _]]; [done|by left].
    + destruct H as [(? & _ & ?)|[? _]]; [right; eauto 10|by left].
  - destruct H as [-> ?]. done.
Qed.
Lemma check_delay_range delay period : check_delay delay period = true → in_u32 delay = true → in_u32 period = true → 0 ≤ delay ≤ MAX_TICKS ∧ 0 ≤ period ≤ MAX_TICKS.
Proof. unfold check_delay, in_u32, MAX_TICKS, WAIT_INFINITE, INT32_MAX. intros. lia. Qed.

Lemma call_api_ok c a h h' e : 0 ≤ k_ticks c → api_ok a = true → call_api QUEUE_SIZE c a h = Ok (h', e) →
  call_post (k_ticks c) (k_tid c) h h' (after_call (api_id a) (api_timer a) e).
Proof.
  intros Hnow Ha E.
  assert (Hpush : ∀ cmd inf id t, cmd_ok (k_ticks c) cmd → c_completion cmd = None →
    let '(h', p) := PushCommand QUEUE_SIZE c cmd inf h in call_post (k_ticks c) (k_tid c) h h' (after_push id t false p)).
  { intros cmd inf id t Hc Hn. by apply (push_call _ _ _ _ false). }
  assert (Hnone : ∀ r : EResult, call_post (k_ticks c) (k_tid c) h h (inr r)) by (intros; split; [apply calls_only_refl|by left]).
  assert (Hz : 0 ≤ 0 ≤ MAX_TICKS) by (unfold MAX_TICKS, WAIT_INFINITE, INT32_MAX; lia).
  assert (Hexec : ∀ id t delay period, id ≠ CMD_SHUTDOWN → (id = CMD_SET_PERIOD → period ≠ 0) → in_u32 delay = true → in_u32 period = true →
    Execute QUEUE_SIZE c id t delay period h = Ok (h', e) → call_post (k_ticks c) (k_tid c) h h' (after_call id t e)).
  { intros id t delay period Hid Hsp Hd Hp. unfold Execute. destruct (check_delay delay period) eqn:Ec; cbn [stk_assert]; [|done].
    destruct (check_delay_range _ _ Ec Hd Hp) as [Rd Rp]. destruct (negb (m_ready h)); [intros [= <- <-]; apply Hnone|].
    assert (Hco : ∀ co, cmd_ok (k_ticks c) (mkCommand id (Some t) (k_ticks c) delay period co)) by (intros; split_and!; cbn; try done; lia).
    destruct (CanWait c h).
    - pose proof (push_call (k_ticks c) (k_tid c) id t true c (mkCommand id (Some t) (k_ticks c) delay period (Some (k_tid c))) true h (Hco _) eq_refl) as H.
      destruct (PushCommand _ _ _ _ _) as [h1 p]. by intros [= <- <-].
    - case_bool_decide; [intros [= <- <-]; apply Hnone|].
      pose proof (Hpush (mkCommand id (Some t) (k_ticks c) delay period None) false id t (Hco _) eq_refl) as Hq.
      destruct (PushCommand _ _ _ _ _) as [h1 p]. intros [= <- <-]. destruct p as [r|cmd]; [|done]. by destruct r. }
  assert (Hasync : ∀ id t' t ts d p, 0 ≤ d ≤ MAX_TICKS → 0 ≤ p ≤ MAX_TICKS → ts ≤ k_ticks c → (id ≠ CMD_SHUTDOWN → is_Some t') → (id = CMD_SET_PERIOD → p ≠ 0) →
    let q := asynchronous (PushCommand QUEUE_SIZE c (mkCommand id t' ts d p None) false h) in call_post (k_ticks c) (k_tid c) h q.1 (after_call id t q.2)).
  { intros id t' t ts d p H1 H2 H3 H4 H5. specialize (Hpush (mkCommand id t' ts d p None) false id t). destruct (PushCommand _ _ _ _ _). by apply Hpush. }
  destruct a as [t d p|t|t|t d p|t d p|t p| |id t d p|t p]; cbn [call_api api_ok api_id api_timer] in *; rewrite ?andb_true_iff in Ha.
  - unfold Start in E. destruct (check_delay d p) eqn:Ec; cbn in E; [|done]. destruct Ha as [Hd Hp]. destruct (check_delay_range _ _ Ec Hd Hp) as [Rd Rp].
    injection E as <- <-. destruct (negb _); [|apply Hnone]. by apply Hasync.
  - injection E as <- <-. unfold Stop. destruct (m_active _); [|apply Hnone]. by apply Hasync.
  - injection E as <- <-. unfold Reset. destruct (negb _); [apply Hnone|]. destruct (_ =? 0); [apply Hnone|]. by apply Hasync.
  - unfold Restart in E. destruct (check_delay d p) eqn:Ec; cbn in E; [|done]. destruct Ha as [Hd Hp]. destruct (check_delay_range _ _ Ec Hd Hp) as [Rd Rp].
    injection E as <- <-. by apply Hasync.
  - unfold StartOrReset in E. destruct (check_delay d p) eqn:Ec; cbn in E; [|done]. destruct Ha as [Hd Hp]. destruct (check_delay_range _ _ Ec Hd Hp) as [Rd Rp].
    injection E as <- <-. by apply Hasync.
  - injection E as <- <-. unfold SetPeriod. destruct ((p =? 0) || (p >? MAX_TICKS)) eqn:Ep; [apply Hnone|]. destruct (negb _); [apply Hnone|].
    destruct (m_period _ =? 0); [apply Hnone|]. unfold in_u32 in Ha. apply Hasync; try done; lia.
  - injection E as <- <-. by apply Hasync.
  - destruct Ha as [[Hd Hp] Hid]. apply negb_true_iff, bool_decide_eq_false in Hid. apply (Hexec id t d p); try done; try tauto.
  - unfold SetPeriodSync in E. destruct ((p =? 0) || (p >? MAX_TICKS)) eqn:Ep; [injection E as <- <-; apply Hnone|]. apply (Hexec CMD_SET_PERIOD t 0 p); try done. intros _. lia.
Qed.
End tasks.
Lemma call_any_ok Q size c a h h' e : size = Q ∨ size = 0%nat → 0 ≤ k_ticks c → api_ok a = true → call_api size c a h = Ok (h', e) →
  call_post Q (k_ticks c) (k_tid c) h h' (after_call (api_id a) (api_timer a) e).
Proof.
  intros Hs Hk Ha E. destruct (call_api_ok size c a h h' e Hk Ha E) as [Hc H]. split; [done|].
  destruct (after_call _ _ _) as [[| |]|]; try done.
  - destruct H as (cmd & ? & ? & ? & ?). exists cmd. split_and!; try done. lia.
  - destruct H as [?|(cmd & ? & ? & ? & ?)]; [by left|]. right. exists cmd. split_and!; try done. lia.
Qed.
End TimerRun.
