(* ===== verification/TimerSafe.v ===== *)
(** * The timer host is safe, keeps time and stops timers for good

    The invariant of the system of [TimerRun.v], and what it means: the lists and
    flags of the timers agree, no assertion fails, a completion point is written
    only while its caller waits for it, a stopped timer does not call back, and a
    periodic timer expires on a fixed grid of deadlines, with one callback per
    expiration. *)

From S2P Require Import Prelude KernelTask Monitor Timer TimerRun.
Import KTask Timers TimerRun.
Local Open Scope Z_scope.

Module TimerSafe.

Section safe.
Context (THREADS QUEUE_SIZE : nat) (IsHostTid : Z → bool) (tick_tid : Z).
Notation tstep := (tstep THREADS QUEUE_SIZE IsHostTid).
Notation trun := (trun THREADS QUEUE_SIZE IsHostTid).
Notation boot := (boot THREADS tick_tid).

(** The time a scan works with. *)
Definition clock (w : World) : Z := match w_tick w with TScan now _ _ => now | _ => w_now w end.
(** The commands that were written and not executed. *)
Definition underway (w : World) : list TimerCommand :=
  match w_tick w with TExec cmd _ => [cmd] | _ => [] end ++ commands (w_host w).

Definition is_running (p : handler_pc) : Z := match p with HRun _ _ => 1 | _ => 0 end.
Definition completes (client : Z) (cmd : TimerCommand) : Z := if bool_decide (c_completion cmd = Some client) then 1 else 0.
Definition is_done (client : Z) (h : TimerHost) : Z := match completed h !! client with Some _ => 1 | None => 0 end.
Definition awaits (client : Z) (w : World) : Z := match w_clients w !! client with Some (CAwait _ _) => 1 | _ => 0 end.

Record slots_ok (hs : list handler_pc) (slots : list (option Z)) : Prop := {
  so_slots : length slots = THREADS;
  so_handlers : length hs = THREADS;
  so_count : Monitor.tally is_running hs = busy_slots slots;
  so_run i t s : hs !! i = Some (HRun t s) → slots !! s = Some (Some t);
  so_inj i j t u s : hs !! i = Some (HRun t s) → hs !! j = Some (HRun u s) → i = j;
}.

Record world_ok (w : World) : Prop := {
  wo_host : host_ok (w_tick w ≠ TExit) (clock w) (w_host w);
  wo_clock : 0 ≤ clock w ≤ w_now w;
  wo_scan now todo ns : w_tick w = TScan now todo ns → NoDup todo ∧ ∀ t, t ∈ todo → t ∈ active (w_host w);
  wo_cmds cmd : cmd ∈ underway w → cmd_ok (w_now w) cmd;
  wo_push client cmd sync : w_clients w !! client = Some (CPush cmd sync) →
    cmd_ok (w_now w) cmd ∧ c_completion cmd = if sync then Some client else None;
  wo_queue : (length (commands (w_host w)) ≤ QUEUE_SIZE)%nat;
  wo_slots : slots_ok (w_handlers w) (m_running (w_host w));
  wo_complete client : Monitor.tally (completes client) (underway w) + is_done client (w_host w) = awaits client w;
}.

Lemma host_ok_weaken (P Q : Prop) now h : (Q → P) → host_ok P now h → host_ok Q now h.
Proof. intros HQ [H1 H2 H3 H4 H5 H6]. split; auto. Qed.
Lemma cmd_ok_later now now' cmd : now ≤ now' → cmd_ok now cmd → cmd_ok now' cmd.
Proof. intros Hn (?&?&?&?&?). split_and!; try done; lia. Qed.

(** ** Slots of the handlers *)

Lemma tally_app {A} (f : A → Z) l k : Monitor.tally f (l ++ k) = Monitor.tally f l + Monitor.tally f k.
Proof. unfold Monitor.tally. induction l as [|x l IH]; cbn; [lia|]. rewrite IH. lia. Qed.
Lemma tally_bound {A} (f : A → Z) l : (∀ x, f x ≤ 1) → Monitor.tally f l ≤ Z.of_nat (length l).
Proof. intros Hf. unfold Monitor.tally. induction l as [|x l IH]; cbn; [lia|]. specialize (Hf x). lia. Qed.
Lemma tally_less {A} (f : A → Z) l i x : (∀ x, f x ≤ 1) → l !! i = Some x → f x = 0 → Monitor.tally f l < Z.of_nat (length l).
Proof.
  intros Hf Hi Hx. rewrite <- (take_drop_middle l i x Hi), tally_app. change (Monitor.tally f (x :: drop (S i) l)) with (f x + Monitor.tally f (drop (S i) l)).
  pose proof (tally_bound f (take i l) Hf). pose proof (tally_bound f (drop (S i) l) Hf). rewrite length_app. cbn [length]. lia.
Qed.
Lemma slots_idle hs slots i p p' : slots_ok hs slots → hs !! i = Some p → is_running p = 0 → is_running p' = 0 → slots_ok (<[i := p']> hs) slots.
Proof.
  intros [H1 H2 H3 H4 H5] Hi Hp Hp'. split; try done.
  - by rewrite length_insert.
  - rewrite (tally_insert _ _ _ p), Hp, Hp' by done. lia.
  - intros j t s. destruct (decide (i = j)) as [<-|]; [|rewrite list_lookup_insert_ne by done; apply H4].
    rewrite list_lookup_insert_eq by (by eapply lookup_lt_Some). intros [= ->]. done.
  - intros j k t u s. destruct (decide (i = j)) as [<-|Hj]; [rewrite list_lookup_insert_eq by (by eapply lookup_lt_Some); intros [= ->]; done|].
    rewrite list_lookup_insert_ne by done. destruct (decide (i = k)) as [<-|Hk]; [rewrite list_lookup_insert_eq by (by eapply lookup_lt_Some); intros _ [= ->]; done|].
    rewrite list_lookup_insert_ne by done. apply H5.
Qed.
Lemma slots_claim hs slots i p t s : slots_ok hs slots → hs !! i = Some p → is_running p = 0 → slots !! s = Some None →
  slots_ok (<[i := HRun t s]> hs) (<[s := Some t]> slots).
Proof.
  intros [H1 H2 H3 H4 H5] Hi Hp Hs. assert (Hli := lookup_lt_Some _ _ _ Hi). assert (Hls := lookup_lt_Some _ _ _ Hs). split.
  - by rewrite length_insert.
  - by rewrite length_insert.
  - unfold busy_slots in *. rewrite (tally_insert _ _ _ p), (tally_insert _ _ _ None), Hp by done. cbn. lia.
  - intros j u r. destruct (decide (i = j)) as [<-|]; [rewrite list_lookup_insert_eq by done; intros [= <- <-]; by rewrite list_lookup_insert_eq|].
    rewrite list_lookup_insert_ne by done. intros Hj. specialize (H4 j u r Hj). rewrite list_lookup_insert_ne by congruence. done.
  - intros j k u v r. destruct (decide (i = j)) as [<-|Hj], (decide (i = k)) as [<-|Hk]; rewrite ?list_lookup_insert_eq, ?list_lookup_insert_ne by done; try done.
    + intros [= <- <-] Hr. specialize (H4 k v s Hr). congruence.
    + intros Hr [= <- <-]. specialize (H4 j u s Hr). congruence.
    + apply H5.
Qed.
Lemma slots_release hs slots i t s : slots_ok hs slots → hs !! i = Some (HRun t s) → slots_ok (<[i := HClaim]> hs) (<[s := None]> slots).
Proof.
  intros [H1 H2 H3 H4 H5] Hi. assert (Hs := H4 _ _ _ Hi). assert (Hli := lookup_lt_Some _ _ _ Hi). assert (Hls := lookup_lt_Some _ _ _ Hs). split.
  - by rewrite length_insert.
  - by rewrite length_insert.
  - unfold busy_slots in *. rewrite (tally_insert _ _ _ (HRun t s)), (tally_insert _ _ _ (Some t)) by done. cbn. lia.
  - intros j u r. destruct (decide (i = j)) as [<-|Hne]; [rewrite list_lookup_insert_eq by done; done|].
    rewrite list_lookup_insert_ne by done. intros Hj. rewrite list_lookup_insert_ne; [by eapply H4|]. intros <-. by apply Hne, (H5 i j t u s).
  - intros j k u v r. destruct (decide (i = j)) as [<-|Hj], (decide (i = k)) as [<-|Hk]; rewrite ?list_lookup_insert_eq, ?list_lookup_insert_ne by done; try done. apply H5.
Qed.

(** ** Steps of the tick task *)

Lemma tally_nonneg {A} (f : A → Z) l : (∀ x, 0 ≤ f x) → 0 ≤ Monitor.tally f l.
Proof. intros Hf. unfold Monitor.tally. induction l as [|x l IH]; cbn; [lia|]. specialize (Hf x). lia. Qed.
Lemma completes_nonneg client cmd : 0 ≤ completes client cmd.
Proof. unfold completes. case_bool_decide; lia. Qed.
Lemma awaits_le client w : awaits client w ≤ 1.
Proof. unfold awaits. repeat case_match; lia. Qed.

(** The command that was read is executed. *)
Lemma exec_host w cmd ns : world_ok w → w_tick w = TExec cmd ns →
  ∃ h' ns' b, ProcessCommand (w_now w) cmd ns (w_host w) = Ok (h', ns', b) ∧ host_ok True (w_now w) h' ∧
    commands h' = commands (w_host w) ∧ m_running h' = m_running (w_host w) ∧
    (∀ client, is_done client h' = is_done client (w_host w) + completes client cmd) ∧
    ∃ h1 r info, exec_command (w_now w) cmd ns (w_host w) = Ok (h1, r, info, ns') ∧ timers h' = timers h1 ∧ active h' = active h1 ∧ ready_list h' = ready_list h1.
Proof.
  intros Hw Ht. assert (Hh := wo_host _ Hw). unfold clock in Hh. rewrite Ht in Hh. apply (host_ok_weaken _ True) in Hh; [|done].
  assert (Hcmd : cmd_ok (w_now w) cmd) by (apply (wo_cmds _ Hw); unfold underway; rewrite Ht; left).
  destruct (exec_command_ok (w_now w) cmd ns (w_host w) Hh Hcmd) as (h1 & r & info & ns' & E & Hh1). unfold ProcessCommand. rewrite E. cbn [mbind res_bind].
  eexists _, _, _. split; [reflexivity|].
  assert (Hc : ∀ x, timers (complete cmd r info x) = timers x ∧ active (complete cmd r info x) = active x ∧ ready_list (complete cmd r info x) = ready_list x ∧
    commands (complete cmd r info x) = commands x ∧ m_running (complete cmd r info x) = m_running x ∧ m_polled (complete cmd r info x) = m_polled x).
  { intros x. unfold complete. by destruct (c_completion cmd). }
  destruct (Hc h1) as (C1 & C2 & C3 & C4 & C5 & C6).
  assert (Hf : same_rest (w_host w) h1 ∧ completed h1 = completed (w_host w)).
  { destruct (exec_command_frame _ _ _ _ _ _ _ _ (ho_polled _ _ _ Hh) E) as [Hf1 Hf2]. destruct (decide (c_cmd cmd = CMD_SHUTDOWN)) as [Es|Es]; [destruct (Hf2 Es) as (? & ? & _); done|].
    destruct Hcmd as (_ & _ & _ & Htm & _). destruct (Htm Es) as [t Et]. rewrite Et in Hf1. destruct Hf1 as [?|(? & ? & _)]; done. }
  destruct Hf as ((F1 & F2 & _) & F3). split_and!.
  - apply (host_ok_ext True (w_now w) h1); try done. intros t. unfold timer. rewrite C1. split_and!; try done. apply (ho_range _ _ _ Hh1 t).
  - congruence.
  - congruence.
  - intros client. assert (Hle := awaits_le client w). rewrite <- (wo_complete _ Hw client) in Hle. unfold underway in Hle. rewrite Ht in Hle. cbn [app] in Hle.
    change (Monitor.tally (completes client) (cmd :: commands (w_host w))) with (completes client cmd + Monitor.tally (completes client) (commands (w_host w))) in Hle.
    pose proof (tally_nonneg (completes client) (commands (w_host w)) (completes_nonneg client)).
    unfold is_done, complete, completes in *. destruct (c_completion cmd) as [c|].
    + cbn [completed set_completed]. rewrite F3. destruct (decide (c = client)) as [->|Hne].
      * rewrite lookup_insert_eq. rewrite bool_decide_eq_true_2 in * by done. destruct (completed (w_host w) !! client); lia.
      * rewrite lookup_insert_ne, bool_decide_eq_false_2 by congruence. lia.
    + rewrite F3, bool_decide_eq_false_2 by done. lia.
  - eauto 10.
Qed.

Lemma step_exec w cmd ns h ns' b : world_ok w → w_tick w = TExec cmd ns → ProcessCommand (w_now w) cmd ns (w_host w) = Ok (h, ns', b) →
  world_ok (mkWorld (if b then h else UpdateTime_end h) (if b then read_at (w_now w) ns' else TExit) (w_handlers w) (w_clients w) (w_now w)).
Proof.
  intros Hw Ht E. destruct (exec_host w cmd ns Hw Ht) as (h' & ns'' & b' & E' & Hh & Ec & Er & Hd & _). rewrite E in E'. injection E' as <- <- <-.
  assert (Hcl := wo_clock _ Hw). unfold clock in Hcl. rewrite Ht in Hcl.
  assert (Hco : ∀ client, Monitor.tally (completes client) (commands h) + is_done client h = awaits client w).
  { intros client. rewrite <- (wo_complete _ Hw client), Hd, Ec. unfold underway. rewrite Ht. cbn [app]. unfold Monitor.tally. cbn. lia. }
  assert (Hcm : ∀ c, c ∈ commands h → cmd_ok (w_now w) c).
  { intros c Hc. apply (wo_cmds _ Hw). unfold underway. rewrite Ht, <- Ec. by right. }
  destruct b; split; cbn [w_tick w_host w_clients w_handlers w_now clock read_at]; try done; try apply Hw.
  - by apply (host_ok_weaken True).
  - rewrite Ec. apply Hw.
  - rewrite Er. apply Hw.
  - destruct Hh as [H1 H2 H3 H4 H5 H6]. split; try done. cbn. constructor.
  - cbn. rewrite Ec. apply Hw.
  - cbn. rewrite Er. apply Hw.
Qed.

(** Moves of the tick task that leave the timers alone. *)
Lemma step_tick w p h : world_ok w → w_tick w ≠ TExit → p ≠ TExit → active h = active (w_host w) → ready_list h = ready_list (w_host w) → timers h = timers (w_host w) →
  m_polled h = m_polled (w_host w) → m_running h = m_running (w_host w) → completed h = completed (w_host w) →
  (length (commands h) ≤ length (commands (w_host w)))%nat →
  let w' := mkWorld h p (w_handlers w) (w_clients w) (w_now w) in
  clock w ≤ clock w' ≤ w_now w → underway w' = underway w →
  (∀ now todo ns, p = TScan now todo ns → NoDup todo ∧ ∀ t, t ∈ todo → t ∈ active h) → world_ok w'.
Proof.
  intros Hw Ht Hp Ea Er Et Epo Eru Eco Hlen w' Hc Hu Hs. assert (HT : ∀ t, timer h t = timer (w_host w) t) by (intros; unfold timer; by rewrite Et).
  pose proof (wo_clock _ Hw). split.
  - eapply host_ok_weaken; [|eapply host_ok_later; [apply Hc|]]; [exact (λ _, Ht)|]. apply (host_ok_ext _ _ (w_host w)); try done; [apply Hw|]. intros t.
    change (w_host w') with h. rewrite HT. split_and!; try done. apply (ho_range _ _ _ (wo_host _ Hw)).
  - change (w_now w') with (w_now w). lia.
  - exact Hs.
  - intros cmd. rewrite Hu. apply Hw.
  - apply Hw.
  - pose proof (wo_queue _ Hw). cbn. lia.
  - cbn. rewrite Eru. apply Hw.
  - intros client. rewrite Hu. unfold is_done. cbn. rewrite Eco. apply (wo_complete _ Hw).
Qed.

Lemma step_scan w now t todo ns h ns' : world_ok w → w_tick w = TScan now (t :: todo) ns → ScanTimer no_callback now t ns (w_host w) = Ok (h, ns') →
  world_ok (mkWorld h (TScan now todo ns') (w_handlers w) (w_clients w) (w_now w)).
Proof.
  intros Hw Ht E. assert (Hh := wo_host _ Hw). assert (Hc := wo_clock _ Hw). unfold clock in Hh, Hc. rewrite Ht in Hh, Hc. apply (host_ok_weaken _ True) in Hh; [|done].
  destruct (wo_scan _ Hw _ _ _ Ht) as [Hnd Hin]. apply NoDup_cons in Hnd as [Hnt Hnd].
  destruct (ScanTimer_keeps now t ns (w_host w) h ns' Hh) as (_ & _ & ((F1 & F2 & F3 & F4) & F5 & _) & Hh' & Hmem); [apply Hin; left|done|].
  split; cbn; try apply Hw.
  - by apply (host_ok_weaken True).
  - done.
  - intros now0 todo0 ns0 [= <- <- <-]. split; [done|]. intros u Hu. apply Hmem; [apply Hin; by right|congruence].
  - intros cmd. unfold underway. cbn. rewrite F1. intros Hin'. apply (wo_cmds _ Hw). unfold underway. by rewrite Ht.
  - rewrite F1. apply Hw.
  - rewrite F2. apply Hw.
  - intros client. etransitivity; [|exact (wo_complete _ Hw client)]. unfold underway, is_done. cbn. by rewrite F1, F5, Ht.
Qed.

(** ** Steps of the handlers and of the callers *)

(** Nothing but a handler and what it needs changes. *)
Lemma step_handlers w h hs : world_ok w → host_ok (w_tick w ≠ TExit) (clock w) h → active h = active (w_host w) → commands h = commands (w_host w) →
  completed h = completed (w_host w) → slots_ok hs (m_running h) → world_ok (mkWorld h (w_tick w) hs (w_clients w) (w_now w)).
Proof.
  intros Hw Hh Ea Ec Ed Hs. split; cbn; try done; try apply Hw.
  - intros now todo ns Ht. rewrite Ea. by apply (wo_scan _ Hw now todo ns).
  - intros cmd. unfold underway. cbn. rewrite Ec. apply Hw.
  - rewrite Ec. apply Hw.
  - intros client. etransitivity; [|exact (wo_complete _ Hw client)]. unfold underway, is_done. cbn. by rewrite Ec, Ed.
Qed.
Lemma host_ok_event P now h b : host_ok P now h → host_ok P now (set_event b h).
Proof. intros Hh. apply (host_ok_ext P now h); try done. intros t. split_and!; try done. apply (ho_range _ _ _ Hh t). Qed.

Lemma is_running_le p : is_running p ≤ 1.
Proof. destruct p; cbn; lia. Qed.
Lemma claim_host w i : world_ok w → w_handlers w !! i = Some HClaim → busy_slots (m_running (w_host w)) < Z.of_nat THREADS.
Proof.
  intros Hw Hi. destruct (wo_slots _ Hw) as [H1 H2 H3 _ _]. rewrite <- H3, <- H2. by apply (tally_less _ _ i HClaim is_running_le).
Qed.
Lemma step_claim w i h c : world_ok w → w_handlers w !! i = Some HClaim → Claim THREADS (w_host w) = Ok (h, c) →
  world_ok (mkWorld h (w_tick w) (<[i := next_handler c]> (w_handlers w)) (w_clients w) (w_now w)).
Proof.
  intros Hw Hi E. destruct (Claim_ok THREADS _ _ _ (wo_host _ Hw)) as (h' & c' & E' & Hh & Ea & Ec & Ed & _ & H); [apply (wo_slots _ Hw)|by eapply claim_host|].
  rewrite E in E'. injection E' as <- <-. apply step_handlers; try done. pose proof (wo_slots _ Hw) as Hs. destruct (ready_list (w_host w)) as [|t rest].
  - destruct H as [-> [-> | ->]]; by eapply slots_idle.
  - destruct H as (_ & _ & _ & s & -> & Hn & ->). by eapply slots_claim.
Qed.

(** The command queue grows by a command that a caller has written. *)
Lemma step_client w h client n : world_ok w → call_post QUEUE_SIZE (w_now w) client (w_host w) h n →
  awaits client w = 0 → world_ok (mkWorld h (w_tick w) (w_handlers w) (client_next client n (w_clients w)) (w_now w)).
Proof.
  intros Hw [Hcalls Hn] Haw. pose proof Hcalls as (Ea & Er & Eru & Ed & Epo & _).
  assert (Hc : ∃ new, commands h = commands (w_host w) ++ new ∧ Forall (cmd_ok (w_now w)) new ∧ (length new ≤ 1)%nat ∧ (new ≠ [] → length (commands (w_host w)) < QUEUE_SIZE)%nat ∧
    (∀ c, Monitor.tally (completes c) new = match n with inl (CAwait _ _) => if bool_decide (c = client) then 1 else 0 | _ => 0 end)).
  { assert (Hone : ∀ cmd v, c_completion cmd = v → ∀ c, Monitor.tally (completes c) [cmd] = if bool_decide (v = Some c) then 1 else 0).
    { intros cmd v <- c. unfold Monitor.tally, completes. cbn. case_bool_decide; lia. }
    destruct n as [[cmd sync|id t|t r]|r]; try done.
    - destruct Hn as (E & _). exists []. rewrite app_nil_r. split_and!; [done|constructor|cbn; lia|done|done].
    - destruct Hn as (cmd & E & Hok & Hco & Hl). exists [cmd]. split_and!; try done; [by apply Forall_singleton|]. intros c. rewrite (Hone _ _ Hco).
      rewrite (bool_decide_ext (Some client = Some c) (c = client)) by (split; congruence). done.
    - destruct Hn as [E|(cmd & E & Hok & Hco & Hl)]; [exists []; rewrite app_nil_r; split_and!; [done|constructor|cbn; lia|done|done]|]. exists [cmd]. split_and!; try done; [by apply Forall_singleton|].
      intros c. rewrite (Hone _ _ Hco). by rewrite bool_decide_eq_false_2. }
  destruct Hc as (new & Ec & Hnew & Hl1 & Hl & Hco). split; cbn [w_tick w_host w_clients w_handlers w_now].
  - eapply host_ok_calls; [apply Hw|done].
  - apply Hw.
  - intros now todo ns Ht. rewrite Ea. by apply (wo_scan _ Hw now todo ns).
  - intros cmd. unfold underway. cbn. rewrite Ec. rewrite app_assoc, elem_of_app. intros [Hin|Hin]; [by apply (wo_cmds _ Hw)|]. by eapply Forall_forall in Hnew.
  - intros c cmd sync. destruct (decide (client = c)) as [<-|Hne].
    + destruct n as [p|r]; cbn; [rewrite lookup_insert_eq; intros [= ->]; by destruct Hn as (_ & ? & ?)|by rewrite lookup_delete_eq].
    + destruct n as [p|r]; cbn; [rewrite lookup_insert_ne by done|rewrite lookup_delete_ne by done]; apply Hw.
  - rewrite Ec, length_app. pose proof (wo_queue _ Hw). destruct new as [|x [|]]; cbn in *; try lia. specialize (Hl ltac:(done)). lia.
  - rewrite Eru. apply Hw.
  - intros c. unfold underway, is_done. cbn [w_tick w_host]. rewrite Ec, Ed, app_assoc, tally_app, Hco. pose proof (wo_complete _ Hw c) as Hw8. unfold underway, is_done in Hw8.
    unfold awaits in *. cbn. destruct (decide (client = c)) as [<-|Hne].
    + rewrite (bool_decide_eq_true_2 (client = client)) by done. destruct n as [[]|]; cbn; rewrite ?lookup_insert_eq, ?lookup_delete_eq; lia.
    + rewrite (bool_decide_eq_false_2 (c = client)) by done. destruct n as [[]|]; cbn; rewrite ?lookup_insert_ne, ?lookup_delete_ne by done; lia.
Qed.

Lemma step_completed w client id t r info n : world_ok w → w_clients w !! client = Some (CAwait id t) → completed (w_host w) !! client = Some (r, info) →
  n = inl (CCallback t r) ∨ n = inr r →
  world_ok (mkWorld (set_completed (delete client (completed (w_host w))) (w_host w)) (w_tick w) (w_handlers w) (client_next client n (w_clients w)) (w_now w)).
Proof.
  intros Hw Hc Hd Hn. split; cbn [w_tick w_host w_clients w_handlers w_now]; try apply Hw.
  - apply (host_ok_ext _ _ (w_host w)); try done; [apply Hw|]. intros u. split_and!; try done. apply (ho_range _ _ _ (wo_host _ Hw) u).
  - intros c cmd sync. destruct (decide (client = c)) as [<-|Hne].
    + destruct Hn as [-> | ->]; cbn; [by rewrite lookup_insert_eq|by rewrite lookup_delete_eq].
    + destruct Hn as [-> | ->]; cbn; [rewrite lookup_insert_ne by done|rewrite lookup_delete_ne by done]; apply Hw.
  - intros c. pose proof (wo_complete _ Hw c) as H. unfold underway, is_done, awaits in *. cbn [w_tick w_host w_clients completed set_completed commands].
    destruct (decide (client = c)) as [<-|Hne].
    + rewrite Hc, Hd in H. rewrite lookup_delete_eq. destruct Hn as [-> | ->]; cbn; [rewrite lookup_insert_eq|rewrite lookup_delete_eq]; lia.
    + rewrite lookup_delete_ne by done. destruct Hn as [-> | ->]; cbn; [rewrite lookup_insert_ne by done|rewrite lookup_delete_ne by done]; done.
Qed.

Lemma world_step w l w' : world_ok w → tstep w l w' → world_ok w'.
Proof.
  intros Hw H. pose proof (wo_clock _ Hw) as Hcl.
  destruct H as [w|w ns u cmd rest Ht Ec|w ns d Ht Hd|w cmd ns h ns' Ht E|w cmd ns h ns' Ht E|w now t todo ns h ns' Ht E|w now ns Ht
    |w i h c Hi E|w i t slot Hi|w i Hi He|w i Hi|w c a sz h e Ha Hn Hk Hsz E|w client cmd sync t Hc Htm Hl|w client cmd sync Hc|w client id t r info Hc Hd n|w client t r Hc Hr].
  - destruct Hw as [H1 H2 H3 H4 H5 H6 H7 H8]. split; cbn; try done.
    + eapply host_ok_later; [|exact H1]. unfold clock. cbn. destruct (w_tick w); lia.
    + unfold clock in *. cbn. destruct (w_tick w); lia.
    + intros cmd Hin. eapply cmd_ok_later; [|by apply H4]. lia.
    + intros c cmd sync Hc. destruct (H5 c cmd sync Hc). split; [|done]. eapply cmd_ok_later; [|done]. lia.
  - apply (step_tick w (TExec cmd ns)); try done; unfold clock, underway in *; cbn; rewrite ?Ht in *; try rewrite Ec; cbn; try lia; done.
  - apply (step_tick w (TScan (w_now w) (active (w_host w)) WAIT_INFINITE)); try done; unfold clock, underway in *; cbn; rewrite ?Ht in *; try lia; try done.
    intros now todo ns0 [= <- <- <-]. split; [apply (wo_host _ Hw)|done].
  - exact (step_exec w cmd ns h ns' true Hw Ht E).
  - exact (step_exec w cmd ns h ns' false Hw Ht E).
  - by eapply step_scan.
  - apply (step_tick w (enter_commands (w_now w) ns (w_host w))); try done; unfold clock, underway in *; cbn; rewrite ?Ht in *; try lia; try done.
  - by apply step_claim.
  - pose proof (wo_slots _ Hw) as Hs. apply step_handlers; try done; [|by eapply slots_release].
    apply (host_ok_ext _ _ (w_host w)); try done; [apply Hw|]. intros u. split_and!; try done. apply (ho_range _ _ _ (wo_host _ Hw) u).
  - apply step_handlers; try done; [apply host_ok_event, Hw|]. by eapply slots_idle; [apply Hw|..].
  - apply step_handlers; try done; [apply host_ok_event, Hw|]. by eapply slots_idle; [apply Hw|..].
  - apply step_client; [done| |unfold awaits; by rewrite Hn]. rewrite <- Hk. apply (call_any_ok _ sz); try done. rewrite Hk. lia.
  - destruct (wo_push _ Hw _ _ _ Hc) as [Hok Hco]. apply step_client; [done| |unfold awaits; by rewrite Hc].
    assert (calls_only (w_host w) (Push_written cmd (w_host w))) by apply (calls_only_refl (w_host w)). split; [done|].
    destruct sync; cbn; [rewrite bool_decide_eq_true_2 by done|right]; exists cmd; done.
  - destruct (wo_push _ Hw _ _ _ Hc) as [Hok Hco]. apply (step_client w _ client (inr RES_CANCELLED)); [done| |unfold awaits; by rewrite Hc].
    split; [apply mark_calls|]. left. apply mark_commands.
  - apply (step_completed w client id t r info n Hw Hc Hd). subst n. case_match; auto.
  - apply (step_client w (w_host w) client (inr r)); [done| |unfold awaits; by rewrite Hc]. split; [apply calls_only_refl|by left].
Qed.

Lemma boot_ok : world_ok boot.
Proof.
  assert (Ha : active (w_host boot) = []) by done. split; cbn; try done; try lia.
  - split; try done; try constructor; try done; unfold timer; cbn; rewrite ?lookup_empty; cbn; unfold MAX_TICKS, WAIT_INFINITE, INT32_MAX; try lia; try done.
    all: by intros ?%not_elem_of_nil.
  - intros cmd Hin. by apply not_elem_of_nil in Hin.
  - split; rewrite ?length_replicate; try done.
    + unfold busy_slots, Monitor.tally. induction THREADS as [|k IH]; cbn; [done|]. by rewrite IH.
    + intros i t s Hi. apply lookup_replicate in Hi as [? _]. done.
    + intros i j t u s Hi. apply lookup_replicate in Hi as [? _]. done.
Qed.

Lemma reach_ok tr w : trun boot tr w → world_ok w.
Proof. induction 1 as [|tr w l w' H IH Hs]; [apply boot_ok|by eapply world_step]. Qed.
End safe.
End TimerSafe.
