(* ===== verification/TimerProps.v ===== *)
(** * What a timer host promises

    Its state is consistent and no assertion fails while the tick task comes in
    time; a scan is exact; a stopped timer is stopped for good; a periodic timer
    does not drift.  The examples are runs of the system, most of them about what
    the host does not promise. *)

From S2P Require Import Prelude KernelTask Monitor Timer TimerRun TimerSafe.
Import KTask Timers TimerRun TimerSafe.
Local Open Scope Z_scope.

Module TimerProps.

Section props.
Context (THREADS QUEUE_SIZE : nat) (IsHostTid : Z → bool) (tick_tid : Z).
Notation tstep := (tstep THREADS QUEUE_SIZE IsHostTid).
Notation trun := (trun THREADS QUEUE_SIZE IsHostTid).
Notation boot := (boot THREADS tick_tid).
Notation world_ok := (world_ok THREADS QUEUE_SIZE).

(** ** The state *)

Lemma tally_in {A} (f : A → Z) l : (∀ x, 0 ≤ f x) → 0 < Monitor.tally f l ↔ ∃ x, x ∈ l ∧ 0 < f x.
Proof.
  intros Hf. induction l as [|x l IH]; [split; [cbn; lia|by intros (? & ?%not_elem_of_nil & _)]|].
  change (Monitor.tally f (x :: l)) with (f x + Monitor.tally f l). pose proof (Hf x). pose proof (tally_nonneg f l Hf). split.
  - intros H1. destruct (decide (0 < f x)); [exists x; split; [left|done]|]. destruct (proj1 IH) as (y & ? & ?); [lia|]. exists y. split; [by right|done].
  - intros (y & [->|Hy]%elem_of_cons & ?); [lia|]. assert (0 < Monitor.tally f l) by (apply IH; eauto). lia.
Qed.
Lemma completes_pos client cmd : 0 < completes client cmd ↔ c_completion cmd = Some client.
Proof. unfold completes. case_bool_decide; split; try done; lia. Qed.

(** A caller that waits for a completion is owed exactly one, which its command
    still carries or which has been written. *)
Lemma owed w client : world_ok w → (∃ id t, w_clients w !! client = Some (CAwait id t)) ↔
  (∃ cmd, cmd ∈ underway w ∧ c_completion cmd = Some client) ∨ is_Some (completed (w_host w) !! client).
Proof.
  intros Hw. pose proof (wo_complete _ _ _ Hw client) as H. pose proof (tally_in (completes client) (underway w) (completes_nonneg client)) as Hin.
  setoid_rewrite completes_pos in Hin. rewrite <- Hin. unfold awaits, is_done in H.
  pose proof (tally_nonneg (completes client) (underway w) (completes_nonneg client)). split.
  - intros (id & t & E). rewrite E in H. destruct (completed (w_host w) !! client); [right; eauto|left; lia].
  - intros Hc. destruct (w_clients w !! client) as [[| |]|]; eauto; exfalso; destruct (completed (w_host w) !! client); destruct Hc as [?|[? ?]]; try done; lia.
Qed.

(** C28. The state of a timer host is consistent, however the tick task, the handlers,
    the callers and time interleave: while the tick task runs, the active list holds
    exactly the timers with [m_active]; the ready list exactly those with [m_pending],
    once each; the queue keeps its bound; a handler that runs a callback is announced
    in a slot of its own.  A completion point is written only while its caller waits
    for it (it is on the caller's stack), and a caller that waits is owed one.  No
    assertion of the tick task or of a handler fails, provided the scan comes less
    than a period late. *)
Theorem timer_host_safe tr w : trun boot tr w → let h := w_host w in
  (w_tick w ≠ TExit → NoDup (active h) ∧ ∀ t, t ∈ active h ↔ m_active (timer h t) = true) ∧
  NoDup (ready_list h) ∧ (∀ t, t ∈ ready_list h ↔ m_pending (timer h t) = true) ∧
  (length (commands h) ≤ QUEUE_SIZE)%nat ∧
  (∀ i t s, w_handlers w !! i = Some (HRun t s) → m_running h !! s = Some (Some t) ∧ ∀ j u, w_handlers w !! j = Some (HRun u s) → j = i) ∧
  (∀ client, (∃ id t, w_clients w !! client = Some (CAwait id t)) ↔
     (∃ cmd, cmd ∈ underway w ∧ c_completion cmd = Some client) ∨ is_Some (completed h !! client)) ∧
  (∀ cmd ns, w_tick w = TExec cmd ns → ∃ x, ProcessCommand (w_now w) cmd ns h = Ok x) ∧
  (∀ i, w_handlers w !! i = Some HClaim → ∃ x, Claim THREADS h = Ok x) ∧
  (∀ now t todo ns, w_tick w = TScan now (t :: todo) ns → in_time now (timer h t) → ∃ x, ScanTimer no_callback now t ns h = Ok x).
Proof.
  intros Hr h. pose proof (reach_ok _ _ _ _ _ _ Hr) as Hw. pose proof (wo_host _ _ _ Hw) as Hh. split_and!; try apply Hh; try apply Hw.
  - intros Ht. split; [apply Hh|]. intros t. by apply (ho_active _ _ _ Hh).
  - intros i t s Hi. destruct (wo_slots _ _ _ Hw) as [_ _ _ H4 H5]. split; [by eapply H4|]. intros j u Hj. by eapply H5.
  - intros client. by apply owed.
  - intros cmd ns Ht. destruct (exec_host _ _ w cmd ns Hw Ht) as (? & ? & ? & E & _). eauto.
  - intros i Hi. destruct (Claim_ok THREADS _ _ _ Hh) as (? & ? & E & _); [apply (wo_slots _ _ _ Hw)|by eapply claim_host|]. eauto.
  - intros now t todo ns Ht Hin. unfold clock in Hh. rewrite Ht in Hh. apply (host_ok_weaken _ True) in Hh; [|done].
    destruct (wo_scan _ _ _ Hw _ _ _ Ht) as [_ Hact]. destruct (ScanTimer_ok now t ns h Hh) as (? & E & _); [apply Hact; left|done|]. eauto.
Qed.

(** ** Scans *)

Lemma sleep_of_min now h l ns : sleep_of now h l ns ≤ ns ∧
  (∀ t, t ∈ l → m_pending (timer h t) = false → shot now (timer h t) = false → sleep_of now h l ns ≤ m_deadline (scanned now (timer h t)) - now) ∧
  (sleep_of now h l ns = ns ∨ ∃ t, t ∈ l ∧ m_pending (timer h t) = false ∧ shot now (timer h t) = false ∧ sleep_of now h l ns = m_deadline (scanned now (timer h t)) - now).
Proof.
  revert ns. induction l as [|t l IH]; intros ns; cbn; [split_and!; [lia|by intros ? ?%not_elem_of_nil|by left]|].
  change (foldl _ ?x l) with (sleep_of now h l x). destruct (IH (sleep_until now (timer h t) ns)) as (H1 & H2 & H3).
  assert (Hs : sleep_until now (timer h t) ns ≤ ns ∧ (m_pending (timer h t) = false → shot now (timer h t) = false → sleep_until now (timer h t) ns = Z.min ns (m_deadline (scanned now (timer h t)) - now)) ∧
    (m_pending (timer h t) = true ∨ shot now (timer h t) = true → sleep_until now (timer h t) ns = ns)).
  { unfold sleep_until, shot. destruct (m_pending (timer h t)), (due now (timer h t) && (m_period (timer h t) =? 0)); cbn [orb]; split_and!; try done; try lia; intros [?|?]; done. }
  destruct Hs as (Hs1 & Hs2 & Hs3). split_and!; [lia| |].
  - intros u [->|Hu]%elem_of_cons Hp Hsh; [specialize (Hs2 Hp Hsh); lia|by apply H2].
  - destruct H3 as [->|(u & Hu & Hp & Hsh & ->)]; [|right; exists u; split_and!; try done; by right].
    destruct (m_pending (timer h t)) eqn:Hp; [left; auto|]. destruct (shot now (timer h t)) eqn:Hsh; [left; auto|]. rewrite Hs2 by done.
    destruct (Z.min_spec ns (m_deadline (scanned now (timer h t)) - now)) as [[? ->]|[? ->]]; [by left|]. right. exists t. split_and!; try done. left.
Qed.

Lemma ScanTimer_now now t ns h h' ns' : ScanTimer no_callback now t ns h = Ok (h', ns') → m_now h' = m_now h.
Proof. unfold ScanTimer, expire, no_callback. intros H. repeat (case_match; inv_res); inv_res; done. Qed.
Lemma ScanTimers_loop_now now l ns h h' ns' : ScanTimers_loop no_callback now l ns h = Ok (h', ns') → m_now h' = m_now h.
Proof.
  revert ns h. induction l as [|t l IH]; intros ns h E; cbn in E; [by injection E as <- <-|]. destruct (ScanTimer no_callback now t ns h) as [[h1 ns1]|] eqn:E1; [|done].
  cbn in E. rewrite (IH _ _ E). by eapply ScanTimer_now.
Qed.

(** C31. [ScanTimers] in time is exact: it returns; every active timer whose deadline
    has passed and whose last expiration was taken is queued for a callback once, in
    the order of the active list; a periodic one gets its old deadline plus its
    period, a one-shot one becomes inactive and leaves the active list; no other timer
    changes.  The time to sleep is positive, reaches no deadline but those of timers
    whose callback is still waiting, and is the nearest such deadline, if there is one. *)
Theorem timer_scan_exact tr w ns u : trun boot tr w → w_tick w = TRead ns u → (∀ t, t ∈ active (w_host w) → in_time (w_now w) (timer (w_host w) t)) →
  let now := w_now w in let h := w_host w in
  ∃ h' ns', ScanTimers no_callback now h = Ok (h', ns') ∧ m_now h' = now ∧
    (∀ t, timer h' t = if bool_decide (t ∈ active h) then scanned now (timer h t) else timer h t) ∧
    active h' = filter (λ t, shot now (timer h t) = false) (active h) ∧
    ready_list h' = ready_list h ++ filter (λ t, due now (timer h t) = true) (active h) ∧
    0 < ns' ∧ (∀ t, t ∈ active h' → m_pending (timer h t) = false → now + ns' ≤ m_deadline (timer h' t)) ∧
    (ns' = WAIT_INFINITE ∨ ∃ t, t ∈ active h' ∧ m_pending (timer h t) = false ∧ now + ns' = m_deadline (timer h' t)).
Proof.
  intros Hr Ht Hin now h. pose proof (reach_ok _ _ _ _ _ _ Hr) as Hw. pose proof (wo_host _ _ _ Hw) as Hh. unfold clock in Hh. rewrite Ht in Hh.
  apply (host_ok_weaken _ True) in Hh; [|done]. fold now h in Hh. unfold ScanTimers.
  assert (Hh' : host_ok True now (set_now now h)) by (destruct Hh; by split).
  destruct (ScanTimers_loop_ok now (active h) WAIT_INFINITE (set_now now h) Hh') as (h' & E & T & A & R & F & _); [apply Hh|by intros t Hta; split; [|apply Hin]|].
  change (sleep_of now (set_now now h)) with (sleep_of now h) in E.
  assert (A' : active h' = filter (λ t, shot now (timer h t) = false) (active h)).
  { rewrite A. apply filter_in_ext. intros t Hta. change (timer (set_now now h) t) with (timer h t). destruct (shot now (timer h t)); naive_solver. }
  destruct (sleep_of_min now h (active h) WAIT_INFINITE) as (_ & S2 & S3).
  assert (Hsel : ∀ t, t ∈ active h' ↔ t ∈ active h ∧ shot now (timer h t) = false) by (intros t; rewrite A', list_elem_of_filter; tauto).
  assert (HT : ∀ t, t ∈ active h' → timer h' t = scanned now (timer h t)) by (intros t [Hta _]%Hsel; rewrite T, bool_decide_eq_true_2 by done; done).
  exists h', (sleep_of now h (active h) WAIT_INFINITE). split_and!; try done.
  - by rewrite (ScanTimers_loop_now _ _ _ _ _ _ E).
  - destruct S3 as [->|(t & Hta & Hp & Hsh & ->)]; [unfold WAIT_INFINITE, INT32_MAX; lia|]. specialize (Hin t Hta). fold now h in Hin.
    unfold in_time, shot, scanned, fired, due in *. rewrite Hp in *. cbn [negb andb] in *. destruct (Z.leb_spec (m_deadline (timer h t)) now); cbn [andb] in *; [|lia].
    cbn [m_deadline]. rewrite Hsh. apply Z.eqb_neq in Hsh. specialize (Hin eq_refl Hsh). lia.
  - intros t Hta Hp. rewrite HT by done. apply Hsel in Hta as [Hta Hsh]. specialize (S2 t Hta Hp Hsh). lia.
  - destruct S3 as [->|(t & Hta & Hp & Hsh & ->)]; [by left|right]. exists t. split_and!; try done; [by apply Hsel|]. rewrite HT by (by apply Hsel). lia.
Qed.

(** ** One timer in a run *)

(** A step expires the timer, runs its callback, or is about something else. *)
Definition quiet (t : Z) (l : label) : Prop := (∀ now d, l ≠ LExpire t now d) ∧ l ≠ LCallback t.
Inductive timer_moves (t : Z) (w : World) (l : label) (m m' : Timer) : Prop :=
| tm_expire now : l = LExpire t now (m_deadline m) → m_deadline m ≤ now ≤ w_now w → m_active m = true → m_pending m = false → m' = fired now m → timer_moves t w l m m'
| tm_callback : l = LCallback t → m_pending m = true → m' = set_pending false m → timer_moves t w l m m'
| tm_quiet b : quiet t l → m' = set_rearming b m → timer_moves t w l m m'.

Lemma moves_same t w l m m' : quiet t l → m' = m → timer_moves t w l m m'.
Proof. intros Hq ->. apply (tm_quiet _ _ _ _ _ (m_rearming m)); [done|]. by destruct m. Qed.
Lemma quiet_client t client n : quiet t (client_label client n).
Proof. by destruct n. Qed.
Lemma moves_calls t w l h h' : quiet t l → calls_only h h' → timer_moves t w l (timer h t) (timer h' t).
Proof. intros Hq (_&_&_&_&_&HT). destruct (HT t) as [b E]. by eapply tm_quiet. Qed.

Lemma exec_moves t w cmd ns h ns' b : world_ok w → w_tick w = TExec cmd ns → ProcessCommand (w_now w) cmd ns (w_host w) = Ok (h, ns', b) → c_timer cmd ≠ Some t →
  timer h t = timer (w_host w) t.
Proof.
  intros Hw Ht E Hne. destruct (exec_host _ _ w cmd ns Hw Ht) as (h' & ns1 & b1 & E' & _ & _ & _ & _ & h1 & r & info & Ee & ET & _).
  rewrite E in E'. injection E' as <- <- <-. assert (Hp := ho_polled _ _ _ (wo_host _ _ _ Hw)). destruct (exec_command_frame _ _ _ _ _ _ _ _ Hp Ee) as [Hf Hs].
  transitivity (timer h1 t); [unfold timer; by rewrite ET|]. destruct (decide (c_cmd cmd = CMD_SHUTDOWN)) as [Ec|Ec]; [destruct (Hs Ec) as (_ & _ & Hu); apply (Hu t)|].
  assert (Hc : cmd_ok (w_now w) cmd) by (apply (wo_cmds _ _ _ Hw); unfold underway; rewrite Ht; left). destruct Hc as (_ & _ & _ & Htm & _).
  destruct (Htm Ec) as [u Eu]. rewrite Eu in *. destruct Hf as [?|(_ & _ & Hf)]; [done|]. apply Hf. congruence.
Qed.
Lemma scan_moves t w now u todo ns h ns' : world_ok w → w_tick w = TScan now (u :: todo) ns → ScanTimer no_callback now u ns (w_host w) = Ok (h, ns') →
  timer_moves t w (scan_label now u (w_host w)) (timer (w_host w) t) (timer h t).
Proof.
  intros Hw Ht E. assert (Hh := wo_host _ _ _ Hw). assert (Hcl := wo_clock _ _ _ Hw). unfold clock in Hh, Hcl. rewrite Ht in Hh, Hcl. apply (host_ok_weaken _ True) in Hh; [|done].
  destruct (wo_scan _ _ _ Hw _ _ _ Ht) as [_ Hin]. specialize (Hin u ltac:(left)). destruct (ScanTimer_keeps now u ns _ h ns' Hh Hin E) as (T & _ & (_ & _ & F) & _).
  assert (Ha : m_active (timer (w_host w) u) = true) by (by apply (ho_active _ _ _ Hh)). unfold scan_label, expires, scanned, due in *. rewrite Ha in *. cbn [andb] in *.
  destruct (decide (t = u)) as [->|Hne].
  - rewrite T. destruct (m_pending (timer (w_host w) u)) eqn:Hp; cbn [negb andb]; [by apply moves_same|]. rewrite Z.geb_leb.
    destruct (Z.leb_spec 0 (now - m_deadline (timer (w_host w) u))), (Z.leb_spec (m_deadline (timer (w_host w) u)) now); try lia; [|by apply moves_same].
    eapply tm_expire; try done. lia.
  - apply moves_same; [|by apply F]. clear T. destruct (negb _ && _); (split; [intros ? ? Hl; congruence|done]).
Qed.
Lemma timer_step t w l w' : world_ok w → tstep w l w' → (∀ cmd, l = LExec cmd → c_timer cmd ≠ Some t) →
  timer_moves t w l (timer (w_host w) t) (timer (w_host w') t).
Proof.
  intros Hw H Hl. destruct H as [w|w ns u cmd rest Ht Ec|w ns d Ht Hd|w cmd ns h ns' Ht E|w cmd ns h ns' Ht E|w now u todo ns h ns' Ht E|w now ns Ht
    |w i h c Hi E|w i u slot Hi|w i Hi He|w i Hi|w c a sz h e Ha Hn Hk Hsz E|w client cmd sync u Hc Htm Hq|w client cmd sync Hc|w client id u r info Hc Hd n|w client u r Hc Hr].
  1-3, 7, 9-11: by apply moves_same.
  - apply moves_same; [done|]. apply (exec_moves t w cmd ns h ns' _ Hw Ht E). by apply Hl.
  - apply moves_same; [done|]. change (timer (UpdateTime_end h) t) with (timer h t). apply (exec_moves t w cmd ns h ns' _ Hw Ht E). by apply Hl.
  - by eapply scan_moves.
  - destruct (Claim_ok THREADS _ _ _ (wo_host _ _ _ Hw)) as (h' & c' & E' & _ & _ & _ & _ & _ & H); [apply (wo_slots _ _ _ Hw)|by eapply claim_host|].
    rewrite E in E'. injection E' as <- <-. pose proof (ho_ready _ _ _ (wo_host _ _ _ Hw) t) as Hrd. destruct (ready_list (w_host w)) as [|u rest].
    + destruct H as [-> [-> | ->]]; by apply moves_same.
    + destruct H as (_ & T & F & s & -> & _). cbn. destruct (decide (t = u)) as [->|Hne]; [apply tm_callback; try done; apply Hrd; left|].
      apply moves_same; [split; [done|]; intros [=]; done|by apply F].
  - pose proof (wo_clock _ _ _ Hw). apply moves_calls; [apply quiet_client|]. destruct (call_any_ok QUEUE_SIZE sz c a (w_host w) h e Hsz) as [? _]; try done. lia.
  - apply moves_same; [apply quiet_client|done].
  - apply moves_calls; [done|apply mark_calls].
  - apply moves_same; [apply quiet_client|done].
  - by apply moves_same.
Qed.

Lemma seg_ok w0 tr w : world_ok w0 → trun w0 tr w → world_ok w.
Proof. intros H0. induction 1; [done|by eapply world_step]. Qed.
Lemma trun_app w0 tr w tr' w' : trun w0 tr w → trun w tr' w' → trun w0 (tr ++ tr') w'.
Proof. intros H. induction 1; [by rewrite app_nil_r|]. rewrite app_assoc. by eapply trun_step. Qed.

Lemma trun_split w0 tr1 l tr2 w : trun w0 (tr1 ++ l :: tr2) w → ∃ wa wb, trun w0 tr1 wa ∧ tstep wa l wb ∧ trun wb tr2 w.
Proof.
  revert w. induction tr2 as [|l' tr2 IH] using rev_ind; intros w H.
  - inversion H as [E|tr wa l' wb Ha Hs E]; [by destruct tr1|]. apply app_inj_tail in E as [-> ->]. exists wa, w. split_and!; try done. apply trun_nil.
  - rewrite app_comm_cons, app_assoc in H. inversion H as [E|tr w1 l1 w2 H1 Hs E]; [by destruct (tr1 ++ l :: tr2)|]. apply app_inj_tail in E as [-> ->].
    destruct (IH _ H1) as (wa & wb & ? & ? & ?). exists wa, wb. split_and!; try done. by eapply trun_step.
Qed.

(** ** Periodic timers *)

Definition expirations (t : Z) (tr : list label) : list (Z * Z) :=
  omap (λ l, match l with LExpire u now d => if bool_decide (u = t) then Some (now, d) else None | _ => None end) tr.
Definition callbacks (t : Z) (tr : list label) : nat := length (filter (λ l, match l with LCallback u => bool_decide (u = t) | _ => false end = true) tr).

Lemma expirations_snoc t tr l : expirations t (tr ++ [l]) = expirations t tr ++ expirations t [l].
Proof. unfold expirations. apply omap_app. Qed.
Lemma callbacks_snoc t tr l : callbacks t (tr ++ [l]) = (callbacks t tr + callbacks t [l])%nat.
Proof. unfold callbacks. by rewrite filter_app, length_app. Qed.
Lemma quiet_counts t l : quiet t l → expirations t [l] = [] ∧ callbacks t [l] = 0%nat.
Proof.
  intros [H1 H2]. destruct l as [| |u now d|u| |]; try done; cbn; (case_bool_decide as Hu; [subst u|done]); [by destruct (H1 now d)|done].
Qed.
Lemma expire_counts t now d : expirations t [LExpire t now d] = [(now, d)] ∧ callbacks t [LExpire t now d] = 0%nat.
Proof. cbn. by rewrite bool_decide_eq_true_2. Qed.
Lemma callback_counts t : expirations t [LCallback t] = [] ∧ callbacks t [LCallback t] = 1%nat.
Proof. split; [done|]. unfold callbacks. rewrite filter_cons_True; [done|]. by rewrite bool_decide_eq_true_2. Qed.

(** The deadlines from [d] on, a period [p] apart. *)
Definition grid (d p : Z) (n : nat) : list Z := (λ k, d + Z.of_nat k * p) <$> seq 0 n.
Lemma grid_S d p n : grid d p (S n) = grid d p n ++ [d + Z.of_nat n * p].
Proof. unfold grid. rewrite seq_S, fmap_app. done. Qed.
Definition waiting (m : Timer) : nat := if m_pending m then 1 else 0.

(** C30. A periodic timer does not drift: as long as no command for it is executed,
    the deadlines of its expirations are its deadline, that plus a period, plus two
    periods and so on, whatever the delays of the tick task; none comes before its
    deadline; its period stays, its deadline is the next of the sequence, and its
    callback has run once for every expiration, but for the one that still waits. *)
Theorem timer_no_drift tr0 w0 tr w t : trun boot tr0 w0 → trun w0 tr w →
  (∀ cmd, LExec cmd ∈ tr → c_timer cmd ≠ Some t) →
  let m0 := timer (w_host w0) t in let m := timer (w_host w) t in
  m_active m0 = true → m_period m0 ≠ 0 →
  let n := length (expirations t tr) in
  (expirations t tr).*2 = grid (m_deadline m0) (m_period m0) n ∧
  Forall (λ e, e.2 ≤ e.1 ≤ w_now w) (expirations t tr) ∧
  m_active m = true ∧ m_period m = m_period m0 ∧ m_deadline m = m_deadline m0 + Z.of_nat n * m_period m0 ∧
  (callbacks t tr + waiting m = n + waiting m0)%nat.
Proof.
  intros H0 Hr Hno m0 m Ha Hp. pose proof (reach_ok _ _ _ _ _ _ H0) as Hw0. subst m0 m.
  induction Hr as [|tr w l w' Hr IH Hs].
  { cbn. split_and!; try done; lia. }
  pose proof (seg_ok _ _ _ Hw0 Hr) as Hw. destruct IH as (G & F & A & P & D & C). { intros cmd Hin. apply Hno. rewrite elem_of_app. by left. }
  assert (Hm : timer_moves t w l (timer (w_host w) t) (timer (w_host w') t)).
  { apply timer_step; try done. intros cmd ->. apply Hno. rewrite elem_of_app, list_elem_of_singleton. by right. }
  assert (Hnow : w_now w ≤ w_now w') by (destruct Hs; cbn; lia).
  assert (F' : Forall (λ e, e.2 ≤ e.1 ≤ w_now w') (expirations t tr)) by (eapply Forall_impl; [exact F|]; cbn; intros; lia).
  cbv zeta. rewrite expirations_snoc, callbacks_snoc, length_app, fmap_app. unfold waiting in *.
  destruct Hm as [now -> Hd Hact Hpe Em| -> Hpe Em|b Hq Em]; rewrite Em.
  - destruct (expire_counts t now (m_deadline (timer (w_host w) t))) as [-> ->]. unfold fired. cbn. rewrite Forall_app, Forall_singleton, G, P, (proj2 (Z.eqb_neq _ _) Hp). cbn.
    rewrite Nat.add_1_r, grid_S, Hpe in *. rewrite <- D. split_and!; try done; cbn; lia.
  - destruct (callback_counts t) as [-> ->]. cbn. rewrite !app_nil_r, Nat.add_0_r. rewrite Hpe in C. split_and!; try done; lia.
  - destruct (quiet_counts t l Hq) as [-> ->]. cbn. rewrite !app_nil_r, !Nat.add_0_r. done.
Qed.

(** ** Stopped timers *)

Definition halted (t : Z) (h : TimerHost) : Prop := m_active (timer h t) = false ∧ m_pending (timer h t) = false.
Definition disarmed (t : Z) (tr : list label) : Prop := ∀ cmd, LExec cmd ∈ tr → arms t cmd = false.

Lemma exec_halted w l w' t cmd : world_ok w → tstep w l w' → l = LExec cmd → c_timer cmd = Some t → c_cmd cmd = CMD_STOP ∨ halted t (w_host w) ∧ arms t cmd = false → halted t (w_host w').
Proof.
  intros Hw Hs El Et Hc.
  assert (Hgo : ∀ ns h ns' b, w_tick w = TExec cmd ns → ProcessCommand (w_now w) cmd ns (w_host w) = Ok (h, ns', b) → halted t h).
  { intros ns h ns' b Ht E. destruct (exec_host _ _ w cmd ns Hw Ht) as (h' & ns1 & b1 & E' & _ & _ & _ & _ & h1 & r & info & Ee & ET & _).
    rewrite E in E'. injection E' as <- <- <-. assert (Hh := wo_host _ _ _ Hw). unfold clock in Hh. rewrite Ht in Hh. apply (host_ok_weaken _ True) in Hh; [|done].
    assert (Hst : stopped t h1); [|destruct Hst as (? & ? & _); unfold halted, timer; by rewrite ET].
    destruct Hc as [Hc|[[Ha Hp] Har]].
    - unfold exec_command in Ee. rewrite Hc, Et in Ee. cbn in Ee. destruct (exec_STOP_ok True _ ns _ t Hh) as (? & ? & E2 & _ & ? & _). rewrite E2 in Ee. by injection Ee as <- <- <- <-.
    - assert (Hst : stopped t (w_host w)).
      { split_and!; try done; [intros Hin%(ho_active _ _ _ Hh); [congruence|done]|intros Hin%(ho_ready _ _ _ Hh); congruence]. }
      eapply (exec_stopped (w_now w)); try done. }
  destruct Hs; try done; try (by destruct (after_call _ _ _)); try (by destruct (after_push _ _ _ _)).
  all: try (injection El as ->; match goal with E : ProcessCommand _ _ _ _ = _ |- _ => exact (Hgo _ _ _ _ ltac:(eassumption) E) end).
  all: exfalso; revert El; unfold scan_label, claim_label, client_label; repeat case_match; done.
Qed.

Lemma step_halted w l w' t : world_ok w → tstep w l w' → halted t (w_host w) → (∀ cmd, l = LExec cmd → arms t cmd = false) → halted t (w_host w') ∧ quiet t l.
Proof.
  intros Hw Hs Ht Hl.
  assert (Hcase : (∃ cmd, l = LExec cmd ∧ c_timer cmd = Some t) ∨ ∀ cmd, l = LExec cmd → c_timer cmd ≠ Some t).
  { destruct l as [|cmd| | | |]; try (by right). destruct (decide (c_timer cmd = Some t)); [left; eauto|right]. by intros ? [= <-]. }
  destruct Hcase as [(cmd & El & Et)|Hno].
  { split; [|subst l; done]. eapply exec_halted; try done. right. split; [done|]. by apply Hl. }
  destruct (timer_step t w l w' Hw Hs) as [now El Hd Ha Hp Em|El Hp Em|b Hq Em].
  - exact Hno.
  - destruct Ht. congruence.
  - destruct Ht. congruence.
  - unfold halted. by rewrite Em.
Qed.

Lemma elem_of_insert_inv {A} (l : list A) i x y : x ∈ <[i := y]> l → x = y ∨ x ∈ l.
Proof.
  intros [j Hj]%list_elem_of_lookup. destruct (decide (i = j)) as [->|]; [|right; rewrite list_lookup_insert_ne in Hj by done; by eapply list_elem_of_lookup_2].
  left. apply list_lookup_insert_Some in Hj as [(_ & ? & _)|[? _]]; done.
Qed.
(** A callback that does not run is not run by a step that is not its claim. *)
Lemma step_running w l w' t : world_ok w → tstep w l w' → quiet t l → callback_running t (w_host w) = false → callback_running t (w_host w') = false.
Proof.
  unfold callback_running. intros Hw H [_ Hq] Hr. apply bool_decide_eq_false in Hr. apply bool_decide_eq_false.
  assert (Hsame : m_running (w_host w') = m_running (w_host w) → Some t ∉ m_running (w_host w')) by (by intros ->).
  destruct H as [w|w ns u cmd rest Ht Ec|w ns d Ht Hd|w cmd ns h ns' Ht E|w cmd ns h ns' Ht E|w now u todo ns h ns' Ht E|w now ns Ht
    |w i h c Hi E|w i u slot Hi|w i Hi He|w i Hi|w c a sz h e Ha Hn Hk Hsz E|w client cmd sync u Hc Htm Hl|w client cmd sync Hc|w client id u r info Hc Hd n|w client u r Hc Hx]; try done.
  - destruct (exec_host _ _ w cmd ns Hw Ht) as (h' & ns1 & b1 & E' & _ & _ & Er & _). rewrite E in E'. injection E' as <- <- <-. by apply Hsame.
  - destruct (exec_host _ _ w cmd ns Hw Ht) as (h' & ns1 & b1 & E' & _ & _ & Er & _). rewrite E in E'. injection E' as <- <- <-. by apply Hsame.
  - apply Hsame. assert (Hh := wo_host _ _ _ Hw). unfold clock in Hh. rewrite Ht in Hh. apply (host_ok_weaken _ True) in Hh; [|done].
    destruct (wo_scan _ _ _ Hw _ _ _ Ht) as [_ Hin]. by destruct (ScanTimer_keeps now u ns _ h ns' Hh (Hin u ltac:(left)) E) as (_ & _ & ((_ & ? & _) & _) & _).
  - destruct (Claim_ok THREADS _ _ _ (wo_host _ _ _ Hw)) as (h' & c' & E' & _ & _ & _ & _ & _ & H); [apply (wo_slots _ _ _ Hw)|by eapply claim_host|].
    rewrite E in E'. injection E' as <- <-. destruct (ready_list (w_host w)) as [|u rest]; [destruct H as [-> _]; done|].
    destruct H as (_ & _ & _ & s & -> & _ & Er). cbn in *. rewrite Er. intros Hin. apply elem_of_insert_inv in Hin as [[= ->]|Hin]; done.
  - cbn. intros Hin. apply elem_of_insert_inv in Hin as [?|Hin]; done.
  - apply Hsame. pose proof (wo_clock _ _ _ Hw). destruct (call_any_ok QUEUE_SIZE sz c a (w_host w) h e Hsz) as [(_ & _ & ? & _) _]; try done. lia.
  - apply Hsame. apply (mark_calls false cmd (w_host w)).
Qed.
Lemma halted_run w tr w' t : world_ok w → trun w tr w' → halted t (w_host w) → disarmed t tr →
  halted t (w_host w') ∧ Forall (quiet t) tr ∧ (callback_running t (w_host w) = false → callback_running t (w_host w') = false).
Proof.
  intros Hw Hr Ht Hd. induction Hr as [|tr w1 l w2 Hr IH Hs]; [done|].
  destruct IH as (H1 & H2 & H3). { intros cmd Hin. apply Hd. rewrite elem_of_app. by left. }
  assert (Hw1 := seg_ok _ _ _ Hw Hr).
  destruct (step_halted w1 l w2 t Hw1 Hs H1) as [H4 H5]. { intros cmd ->. apply Hd. rewrite elem_of_app, list_elem_of_singleton. by right. }
  split_and!; [done|by apply Forall_app; split; [|apply Forall_singleton]|]. intros Hc. eapply step_running; eauto.
Qed.

(** ** Synchronous calls *)

(** The command of a synchronous call. *)
Definition call_of (client : Z) (id : EId) (t : Z) (cmd : TimerCommand) : Prop :=
  c_completion cmd = Some client ∧ c_cmd cmd = id ∧ (id ≠ CMD_SHUTDOWN → c_timer cmd = Some t).

Lemma underway_step w l w' cmd : world_ok w → tstep w l w' → cmd ∈ underway w → cmd ∈ underway w' ∨ l = LExec cmd.
Proof.
  intros Hw H Hin. assert (Hmono : underway w' = underway w → cmd ∈ underway w' ∨ l = LExec cmd) by (intros ->; by left).
  assert (Hmore : ∀ more, underway w' = underway w ++ more → cmd ∈ underway w' ∨ l = LExec cmd) by (intros more ->; left; rewrite elem_of_app; by left).
  unfold underway in *. destruct H as [w|w ns u cmd' rest Ht Ec|w ns d Ht Hd|w cmd' ns h ns' Ht E|w cmd' ns h ns' Ht E|w now u todo ns h ns' Ht E|w now ns Ht
    |w i h c Hi E|w i u slot Hi|w i Hi He|w i Hi|w c a sz h e Ha Hn Hk Hsz E|w client cmd' sync u Hc Htm Hl|w client cmd' sync Hc|w client id u r info Hc Hd n|w client u r Hc Hx]; cbn in *; auto.
  - rewrite Ht, Ec in Hin. left. exact Hin.
  - apply Hmono. by rewrite Ht.
  - destruct (exec_host _ _ w cmd' ns Hw Ht) as (h' & ns1 & b1 & E' & _ & Ec & _). rewrite E in E'. injection E' as <- <- <-. rewrite Ht in Hin.
    apply elem_of_cons in Hin as [->|Hin]; [by right|left]. by rewrite Ec.
  - destruct (exec_host _ _ w cmd' ns Hw Ht) as (h' & ns1 & b1 & E' & _ & Ec & _). rewrite E in E'. injection E' as <- <- <-. rewrite Ht in Hin.
    apply elem_of_cons in Hin as [->|Hin]; [by right|left]. by rewrite Ec.
  - apply Hmono. assert (Hh := wo_host _ _ _ Hw). unfold clock in Hh. rewrite Ht in *. apply (host_ok_weaken _ True) in Hh; [|done].
    destruct (wo_scan _ _ _ Hw _ _ _ Ht) as [_ Ha]. by destruct (ScanTimer_keeps now u ns _ h ns' Hh (Ha u ltac:(left)) E) as (_ & _ & ((-> & _) & _) & _).
  - apply Hmono. by rewrite Ht.
  - apply Hmono. destruct (Claim_ok THREADS _ _ _ (wo_host _ _ _ Hw)) as (h' & c' & E' & _ & _ & Ec & _); [apply (wo_slots _ _ _ Hw)|by eapply claim_host|].
    rewrite E in E'. injection E' as <- <-. by rewrite Ec.
  - pose proof (wo_clock _ _ _ Hw). destruct (call_any_ok QUEUE_SIZE sz c a (w_host w) h e Hsz) as [_ Hp]; try done; [lia|].
    assert (Hx : ∃ more, commands h = commands (w_host w) ++ more).
    { destruct (after_call _ _ _) as [[]|]; [destruct Hp as [-> _]|destruct Hp as (? & -> & _)|done|destruct Hp as [->|(? & -> & _)]]; eauto; exists []; by rewrite app_nil_r. }
    destruct Hx as [more Ex]. apply (Hmore more). by rewrite Ex, app_assoc.
  - apply (Hmore [cmd']). by rewrite app_assoc.
  - apply Hmono. by rewrite mark_commands.
Qed.

Lemma call_await sz c a h h' e id t : call_api sz c a h = Ok (h', e) → after_call (api_id a) (api_timer a) e = inl (CAwait id t) →
  ∃ cmd, cmd ∈ commands h' ∧ call_of (k_tid c) id t cmd.
Proof.
  intros E Ha.
  assert (Hexec : ∀ i u d p, Execute sz c i u d p h = Ok (h', e) → after_call i u e = inl (CAwait id t) → ∃ cmd, cmd ∈ commands h' ∧ call_of (k_tid c) id t cmd).
  { intros i u d p. unfold Execute. destruct (check_delay d p); cbn [stk_assert]; [|done]. destruct (negb (m_ready h)); [by intros [= <- <-]|]. destruct (CanWait c h).
    - set (cmd := mkCommand _ _ _ _ _ _). pose proof (PushCommand_post sz c cmd true h) as Hp. destruct (PushCommand _ _ _ _ _) as [h1 [r|cmd']]; intros [= <- <-]; cbn; [|done].
      case_bool_decide as Hr; [|done]. intros [= <- <-]. destruct Hp as [_ [(-> & _)|[_ Hn]]]; [|by specialize (Hn Hr)]. exists cmd. split; [rewrite elem_of_app, list_elem_of_singleton; by right|done].
    - case_bool_decide; [by intros [= <- <-]|]. destruct (PushCommand _ _ _ _ _) as [h1 [[]|]]; by intros [= <- <-]. }
  assert (Hasync : ∀ p : TimerHost * pushed, after_call (api_id a) (api_timer a) (asynchronous p).2 ≠ inl (CAwait id t)) by (intros [? []]; done).
  assert (Hno : ∀ p, Ok (asynchronous p) = Ok (h', e) → ∃ cmd, cmd ∈ commands h' ∧ call_of (k_tid c) id t cmd).
  { intros p [= _ Ee]. exfalso. apply (Hasync p). by rewrite <- Ha, <- Ee. }
  destruct a as [u d p|u|u|u d p|u d p|u p| |i u d p|u p]; cbn [call_api] in E; unfold Start, Restart, StartOrReset in E.
  1, 4, 5: destruct (check_delay d p); cbn in E; [by eapply Hno|done].
  1-4: by eapply Hno.
  - by eapply Hexec.
  - unfold SetPeriodSync in E. destruct (_ || _); [by injection E as <- <-|]. by eapply Hexec.
Qed.
Lemma next_other client client' n cs : client' ≠ client → client_next client' n cs !! client = cs !! client.
Proof. intros Hne. destruct n; cbn; [by rewrite lookup_insert_ne|by rewrite lookup_delete_ne]. Qed.
Lemma client_step w l w' client id t : world_ok w → tstep w l w' → w_clients w' !! client = Some (CAwait id t) →
  w_clients w !! client = Some (CAwait id t) ∨ ∃ cmd, cmd ∈ underway w' ∧ call_of client id t cmd.
Proof.
  intros Hw H. destruct H as [w|w ns u cmd' rest Ht Ec|w ns d Ht Hd|w cmd' ns h ns' Ht E|w cmd' ns h ns' Ht E|w now u todo ns h ns' Ht E|w now ns Ht
    |w i h c Hi E|w i u slot Hi|w i Hi He|w i Hi|w c a sz h e Ha Hn Hk Hsz E|w client' cmd' sync u Hc Htm Hl|w client' cmd' sync Hc|w client' id' u r info Hc Hd n|w client' u r Hc Hx]; cbn [w_clients w_host]; auto; try subst n.
  - destruct (decide (k_tid c = client)) as [<-|Hne].
    + destruct (after_call _ _ _) as [p|r] eqn:Ea; cbn; [rewrite lookup_insert_eq; intros [= ->]|by rewrite lookup_delete_eq]. right.
      destruct (call_await _ _ _ _ _ _ _ _ E Ea) as (cmd & Hin & Hco). exists cmd. split; [unfold underway; cbn; rewrite elem_of_app; by right|done].
    + rewrite next_other by done; auto.
  - destruct (decide (client' = client)) as [<-|Hne]; [|rewrite next_other by done; auto].
    destruct (wo_push _ _ _ Hw _ _ _ Hc) as [(_ & _ & _ & Hst & _) Hco]. destruct sync; cbn; [rewrite bool_decide_eq_true_2 by done; cbn|by rewrite lookup_delete_eq].
    rewrite lookup_insert_eq. intros [= <- <-]. right. exists cmd'. split; [unfold underway; cbn; rewrite !elem_of_app, list_elem_of_singleton; tauto|].
    split_and!; try done. intros Hs. destruct (Hst Hs) as [v Ev]. destruct Htm as [?|[? _]]; congruence.
  - destruct (decide (client' = client)) as [<-|Hne]; [by rewrite lookup_delete_eq|rewrite lookup_delete_ne by done; auto].
  - destruct (decide (client' = client)) as [<-|Hne]; [|rewrite next_other by done; auto].
    case_match; cbn; [by rewrite lookup_insert_eq|by rewrite lookup_delete_eq].
  - destruct (decide (client' = client)) as [<-|Hne]; [by rewrite lookup_delete_eq|rewrite lookup_delete_ne by done; auto].
Qed.
Lemma callback_step w l w' client t r : world_ok w → tstep w l w' → w_clients w' !! client = Some (CCallback t r) →
  w_clients w !! client = Some (CCallback t r) ∨ w_clients w !! client = Some (CAwait CMD_STOP t) ∧ is_Some (completed (w_host w) !! client).
Proof.
  intros Hw H. destruct H as [w|w ns u cmd' rest Ht Ec|w ns d Ht Hd|w cmd' ns h ns' Ht E|w cmd' ns h ns' Ht E|w now u todo ns h ns' Ht E|w now ns Ht
    |w i h c Hi E|w i u slot Hi|w i Hi He|w i Hi|w c a sz h e Ha Hn Hk Hsz E|w client' cmd' sync u Hc Htm Hl|w client' cmd' sync Hc|w client' id' u r' info Hc Hd n|w client' u r' Hc Hx]; cbn [w_clients w_host]; auto; try subst n.
  - pose proof (wo_clock _ _ _ Hw). destruct (call_any_ok QUEUE_SIZE sz c a (w_host w) h e Hsz) as [_ Hp]; try done; [lia|].
    destruct (decide (k_tid c = client)) as [<-|Hne]; [|rewrite next_other by done; auto].
    destruct (after_call _ _ _) as [[]|]; cbn; rewrite ?lookup_insert_eq, ?lookup_delete_eq; done.
  - destruct (decide (client' = client)) as [<-|Hne]; [|rewrite next_other by done; auto].
    unfold after_push. case_match; cbn; rewrite ?lookup_insert_eq, ?lookup_delete_eq; done.
  - destruct (decide (client' = client)) as [<-|Hne]; [by rewrite lookup_delete_eq|rewrite lookup_delete_ne by done; auto].
  - destruct (decide (client' = client)) as [<-|Hne]; [|rewrite next_other by done; auto].
    destruct (waits_callback id' r' && _) eqn:Ew; cbn; [rewrite lookup_insert_eq; intros [= <- <-]|by rewrite lookup_delete_eq]. right.
    apply andb_true_iff in Ew as [Ew _]. unfold waits_callback in Ew. apply andb_true_iff in Ew as [Ew _]. apply bool_decide_eq_true in Ew. subst id'. eauto.
  - destruct (decide (client' = client)) as [<-|Hne]; [by rewrite lookup_delete_eq|rewrite lookup_delete_ne by done; auto].
Qed.

(** What a caller waits for was executed in this part of the run, or is underway. *)
Record awaiting (client : Z) (tr : list label) (w : World) : Prop := {
  aw_await id t : w_clients w !! client = Some (CAwait id t) →
    (∃ cmd, cmd ∈ underway w ∧ call_of client id t cmd) ∨ ∃ cmd, LExec cmd ∈ tr ∧ call_of client id t cmd;
  aw_callback t r : w_clients w !! client = Some (CCallback t r) → ∃ cmd, LExec cmd ∈ tr ∧ call_of client CMD_STOP t cmd;
}.
Lemma not_both w client cmd : world_ok w → cmd ∈ underway w → c_completion cmd = Some client → completed (w_host w) !! client = None.
Proof.
  intros Hw Hin Hc. destruct (completed (w_host w) !! client) eqn:Ed; [|done]. exfalso.
  pose proof (wo_complete _ _ _ Hw client) as H. pose proof (awaits_le client w). unfold is_done in H. rewrite Ed in H.
  assert (0 < Monitor.tally (completes client) (underway w)); [|lia]. apply tally_in; [apply completes_nonneg|]. exists cmd. by rewrite completes_pos.
Qed.
Lemma awaiting_run w0 tr w client : world_ok w0 → w_clients w0 !! client = None → trun w0 tr w → awaiting client tr w.
Proof.
  intros Hw0 H0 Hr. induction Hr as [|tr w l w' Hr IH Hs]; [split; congruence|]. pose proof (seg_ok _ _ _ Hw0 Hr) as Hw. split.
  - intros id t Hc. destruct (client_step w l w' client id t Hw Hs Hc) as [Hc'|?]; [|by left].
    destruct (aw_await _ _ _ IH id t Hc') as [(cmd & Hin & Hco)|(cmd & Hin & Hco)].
    + destruct (underway_step w l w' cmd Hw Hs Hin) as [?| ->]; [left; eauto|]. right. exists cmd. split; [rewrite elem_of_app, list_elem_of_singleton; by right|done].
    + right. exists cmd. split; [rewrite elem_of_app; by left|done].
  - intros t r Hc. assert (Hx : ∃ cmd, LExec cmd ∈ tr ∧ call_of client CMD_STOP t cmd); [|destruct Hx as (cmd & ? & ?); exists cmd; split; [rewrite elem_of_app; by left|done]].
    destruct (callback_step w l w' client t r Hw Hs Hc) as [Hc'|[Hc' Hd]]; [by eapply (aw_callback _ _ _ IH)|].
    destruct (aw_await _ _ _ IH _ _ Hc') as [(cmd & Hin & Hco)|?]; [|done]. rewrite (not_both w client cmd Hw Hin) in Hd; [by destruct Hd|apply Hco].
Qed.

Lemma stopped_step w l w' client t r : tstep w l w' → l = LStopped client t r →
  w_clients w !! client = Some (CCallback t r) ∧ callback_running t (w_host w) = false ∧ w_host w' = w_host w.
Proof.
  intros H El. destruct H as [w|w ns u cmd' rest Ht Ec|w ns d Ht Hd|w cmd' ns h ns' Ht E|w cmd' ns h ns' Ht E|w now u todo ns h ns' Ht E|w now ns Ht
    |w i h c Hi E|w i u slot Hi|w i Hi He|w i Hi|w c a sz h e Ha Hn Hk Hsz E|w client' cmd' sync u Hc Htm Hl|w client' cmd' sync Hc|w client' id' u r' info Hc Hd n|w client' u r' Hc Hx]; try done.
  - revert El. unfold scan_label. by destruct (expires _ _ _).
  - by destruct c.
  - by destruct (after_call _ _ _).
  - by destruct (after_push _ _ _ _).
  - by destruct n.
  - by injection El as -> -> ->.
Qed.

(** C29. A synchronous stop that waited is final.  When a task that is outside the host
    comes back from a stop of [t] whose command was executed and for whose callback it
    waited ([LStopped], the return from [WaitCallbackDone]; not a stop that was only
    queued or refused, from a callback or with the scheduler locked), the host has
    executed its command in the meantime; and from then on, until a command that starts
    [t] is executed after it, [t] is inactive and not pending, its callback is not
    running and does not run, and it does not expire: its object may be reused. *)
Theorem timer_stop_final tr0 w0 tr w w' client t r : trun boot tr0 w0 → w_clients w0 !! client = None →
  trun w0 tr w → tstep w (LStopped client t r) w' →
  ∃ tr1 cmd tr2, tr = tr1 ++ LExec cmd :: tr2 ∧ c_cmd cmd = CMD_STOP ∧ c_timer cmd = Some t ∧ c_completion cmd = Some client ∧
    ∀ tr3 w'', trun w' tr3 w'' → disarmed t (tr2 ++ tr3) →
      m_active (timer (w_host w'') t) = false ∧ m_pending (timer (w_host w'') t) = false ∧ callback_running t (w_host w'') = false ∧ Forall (quiet t) (tr2 ++ tr3).
Proof.
  intros H0 Hc0 Hr Hs. pose proof (reach_ok _ _ _ _ _ _ H0) as Hw0. pose proof (seg_ok _ _ _ Hw0 Hr) as Hw.
  destruct (stopped_step w _ w' client t r Hs eq_refl) as (Hc & Hrun & Eh).
  destruct (aw_callback _ _ _ (awaiting_run w0 tr w client Hw0 Hc0 Hr) t r Hc) as (cmd & Hin & Hco & Hid & Htm).
  specialize (Htm ltac:(done)). apply list_elem_of_split in Hin as (tr1 & tr2 & ->). exists tr1, cmd, tr2. split_and!; try done.
  intros tr3 w'' Hr3 Hd. apply trun_split in Hr as (wa & wb & Ha & Hab & Hbw).
  assert (Hwa := seg_ok _ _ _ Hw0 Ha). assert (Hwb := world_step _ _ _ _ _ _ Hwa Hab).
  assert (Hhb : halted t (w_host wb)) by (eapply exec_halted; [exact Hwa|exact Hab|done|done|by left]).
  destruct (halted_run wb tr2 w t Hwb Hbw Hhb) as (H1 & H2 & _). { intros c Hic. apply Hd. rewrite elem_of_app. by left. }
  assert (Hw' := world_step _ _ _ _ _ _ Hw Hs).
  destruct (halted_run w' tr3 w'' t Hw' Hr3) as ([? ?] & H4 & H5); [by rewrite Eh| |split_and!; try done; [apply H5; by rewrite Eh|by apply Forall_app]].
  intros c Hic. apply Hd. rewrite elem_of_app. by right.
Qed.

(** ** Runs that are computed *)

Inductive action :=
| ATime | ARead | ATimeout | AExec | AScan | AScanned
| AClaim (i : nat) | ARelease (i : nat) | AWait (i : nat) | ALeave (i : nat)
| ACall (client : Z) (a : api) | APushed (client : Z) | ACancelled (client : Z) | ACompleted (client : Z) | AStopped (client : Z).

Definition of_res {A} (r : res A) : option A := match r with Ok x => Some x | Panic _ => None end.
Definition set_tick (h : TimerHost) (p : tick_pc) (w : World) : World := mkWorld h p (w_handlers w) (w_clients w) (w_now w).
Definition set_handler (h : TimerHost) (i : nat) (p : handler_pc) (w : World) : World := mkWorld h (w_tick w) (<[i := p]> (w_handlers w)) (w_clients w) (w_now w).
Definition set_client (h : TimerHost) (client : Z) (n : client_pc + EResult) (w : World) : World := mkWorld h (w_tick w) (w_handlers w) (client_next client n (w_clients w)) (w_now w).

Definition perform (act : action) (w : World) : option (label * World) :=
  let h := w_host w in
  match act with
  | ATime => Some (LTau, mkWorld h (w_tick w) (w_handlers w) (w_clients w) (w_now w + 1))
  | ARead => match w_tick w, commands h with TRead ns _, cmd :: rest => Some (LTau, set_tick (set_commands rest h) (TExec cmd ns) w) | _, _ => None end
  | ATimeout =>
      match w_tick w, commands h with
      | TRead _ (Some d), [] => if d <=? w_now w then Some (LTau, set_tick (set_now (w_now w) h) (TScan (w_now w) (active h) WAIT_INFINITE) w) else None
      | _, _ => None
      end
  | AExec =>
      match w_tick w with
      | TExec cmd ns =>
          '(h', ns', b) ← of_res (ProcessCommand (w_now w) cmd ns h);
          Some (LExec cmd, if (b : bool) then set_tick h' (read_at (w_now w) ns') w else set_tick (UpdateTime_end h') TExit w)
      | _ => None
      end
  | AScan =>
      match w_tick w with
      | TScan now (t :: todo) ns => '(h', ns') ← of_res (ScanTimer no_callback now t ns h); Some (scan_label now t h, set_tick h' (TScan now todo ns') w)
      | _ => None
      end
  | AScanned => match w_tick w with TScan _ [] ns => Some (LTau, set_tick h (enter_commands (w_now w) ns h) w) | _ => None end
  | AClaim i => match w_handlers w !! i with Some HClaim => '(h', c) ← of_res (Claim THREADS h); Some (claim_label c, set_handler h' i (next_handler c) w) | _ => None end
  | ARelease i => match w_handlers w !! i with Some (HRun _ slot) => Some (LTau, set_handler (Release slot h) i HClaim w) | _ => None end
  | AWait i => match w_handlers w !! i with Some HWait => if ready_event h then Some (LTau, set_handler (set_event false h) i HClaim w) else None | _ => None end
  | ALeave i => match w_handlers w !! i with Some HLeave => Some (LTau, set_handler (set_event true h) i HExit w) | _ => None end
  | ACall client a =>
      match w_clients w !! client with
      | None =>
          if api_ok a then
            '(h', e) ← of_res (call_api QUEUE_SIZE (mkCaller client (w_now w) false true) a h);
            let n := after_call (api_id a) (api_timer a) e in Some (client_label client n, set_client h' client n w)
          else None
      | _ => None
      end
  | APushed client =>
      match w_clients w !! client with
      | Some (CPush cmd sync) =>
          if bool_decide (length (commands h) < QUEUE_SIZE)%nat then
            let n := after_push (c_cmd cmd) (default 0 (c_timer cmd)) sync (PushDone RES_OK) in Some (client_label client n, set_client (Push_written cmd h) client n w)
          else None
      | _ => None
      end
  | ACancelled client =>
      match w_clients w !! client with
      | Some (CPush cmd _) => Some (LReturn client RES_CANCELLED, set_client (Push_cancelled cmd h).1 client (inr RES_CANCELLED) w)
      | _ => None
      end
  | ACompleted client =>
      match w_clients w !! client, completed h !! client with
      | Some (CAwait id t), Some (r, _) =>
          let n := if waits_callback id r && negb (IsHostTid client) then inl (CCallback t r) else inr r in
          Some (client_label client n, set_client (set_completed (delete client (completed h)) h) client n w)
      | _, _ => None
      end
  | AStopped client =>
      match w_clients w !! client with
      | Some (CCallback t r) => if callback_running t h then None else Some (LStopped client t r, set_client h client (inr r) w)
      | _ => None
      end
  end.
Fixpoint perform_all (acts : list action) (w : World) : option (list label * World) :=
  match acts with
  | [] => Some ([], w)
  | act :: acts => '(l, w) ← perform act w; '(tr, w) ← perform_all acts w; Some (l :: tr, w)
  end.

Lemma of_res_ok {A} (r : res A) x : of_res r = Some x → r = Ok x.
Proof. destruct r; cbn; congruence. Qed.
Lemma perform_sound act w l w' : perform act w = Some (l, w') → tstep w l w'.
Proof.
  destruct act as [| | | | | |i|i|i|i|client a|client|client|client|client]; unfold perform; intros H.
  11: { destruct (w_clients w !! client) eqn:Ec; [done|]. destruct (api_ok a) eqn:Ea; [|done].
    destruct (call_api _ _ _ _) as [[h e]|] eqn:E; [|done]. cbn in H. injection H as <- <-. by apply (s_call _ _ _ w (mkCaller client (w_now w) false true) a QUEUE_SIZE h e); auto. }
  11: { destruct (w_clients w !! client) as [[cmd sync| |]|] eqn:Ec; try done. case_bool_decide; [|done]. injection H as <- <-.
    apply (s_pushed _ _ _ w client cmd sync); try done. destruct (c_timer cmd); auto. }
  12: { destruct (w_clients w !! client) as [[|id t|]|] eqn:Ec; try done. destruct (completed (w_host w) !! client) as [[r info]|] eqn:Ed; [|done]. injection H as <- <-.
    by apply (s_completed _ _ _ w client id t r info). }
  all: cbn in H; repeat case_match; try done; simplify_option_eq; repeat case_match; simplify_eq;
    repeat match goal with E : of_res _ = Some _ |- _ => apply of_res_ok in E end.
  all: first [by econstructor | by econstructor; eauto; lia].
Qed.
Lemma perform_run acts w tr w' : perform_all acts w = Some (tr, w') → trun w tr w'.
Proof.
  revert w tr. induction acts as [|act acts IH]; intros w tr H; cbn in H; [injection H as <- <-; apply trun_nil|].
  destruct (perform act w) as [[l w1]|] eqn:E; cbn in H; [|done]. destruct (perform_all acts w1) as [[tr1 w2]|] eqn:E1; cbn in H; [|done]. injection H as <- <-.
  apply (trun_app w [l] w1 tr1 w2); [|by apply IH]. apply (trun_step _ _ _ w [] w); [apply trun_nil|by eapply perform_sound].
Qed.

(** The tick task has left: a caller whose completion point was not written by then
    waits for ever. *)
Lemma abandoned_step w l w' client id t : world_ok w → tstep w l w' → w_tick w = TExit → completed (w_host w) !! client = None → w_clients w !! client = Some (CAwait id t) →
  w_tick w' = TExit ∧ completed (w_host w') !! client = None ∧ w_clients w' !! client = Some (CAwait id t).
Proof.
  intros Hw H Ht Hd Hc. destruct H as [w|w ns u cmd' rest Ht' Ec|w ns d Ht' Hd'|w cmd' ns h ns' Ht' E|w cmd' ns h ns' Ht' E|w now u todo ns h ns' Ht' E|w now ns Ht'
    |w i h c Hi E|w i u slot Hi|w i Hi He|w i Hi|w c a sz h e Ha Hn Hk Hsz E|w client' cmd' sync u Hc' Htm Hl|w client' cmd' sync Hc'|w client' id' u r' info Hc' Hd' n|w client' u r' Hc' Hx]; cbn [w_tick w_host w_clients]; try congruence; try done.
  - destruct (Claim_ok THREADS _ _ _ (wo_host _ _ _ Hw)) as (h' & c' & E' & _ & _ & _ & Ed & _); [apply (wo_slots _ _ _ Hw)|by eapply claim_host|].
    rewrite E in E'. injection E' as <- <-. by rewrite Ed.
  - pose proof (wo_clock _ _ _ Hw). destruct (call_any_ok QUEUE_SIZE sz c a (w_host w) h e Hsz) as [(_ & _ & _ & Ed & _) _]; try done; [lia|].
    rewrite Ed, next_other by congruence. done.
  - rewrite next_other by congruence. done.
  - destruct (mark_calls false cmd' (w_host w)) as (_ & _ & _ & Ed & _). cbn [Push_cancelled fst]. rewrite Ed, lookup_delete_ne by congruence. done.
  - assert (Hne : client' ≠ client) by congruence. rewrite next_other by done. cbn. rewrite lookup_delete_ne by done. done.
  - rewrite lookup_delete_ne by congruence. done.
Qed.
Lemma abandoned_run w tr w' client id t : world_ok w → trun w tr w' → w_tick w = TExit → completed (w_host w) !! client = None → w_clients w !! client = Some (CAwait id t) →
  w_tick w' = TExit ∧ completed (w_host w') !! client = None ∧ w_clients w' !! client = Some (CAwait id t).
Proof.
  intros Hw Hr Ht Hd Hc. induction Hr as [|tr w1 l w2 Hr IH Hs]; [done|]. destruct IH as (? & ? & ?). by apply (abandoned_step w1 l w2 client id t (seg_ok _ _ _ Hw Hr) Hs).
Qed.
End props.

(** ** Examples *)

Definition ex_host (tid : Z) : bool := (tid =? 100) || (tid =? 101).
Definition ex_boot : World := boot 1 100.
Definition ex_run (acts : list action) (w : World) : option (list label * World) := perform_all 1 4 ex_host acts w.
Definition ex_world (acts : list action) (w : World) : World := from_option snd w (ex_run acts w).
Definition ex_trace (acts : list action) (w : World) : list label := from_option fst [] (ex_run acts w).
Definition ex_runs (acts : list action) (w : World) : bool := match ex_run acts w with Some _ => true | None => false end.
Lemma timer_ex_reach acts w : ex_runs acts w = true → trun 1 4 ex_host w (ex_trace acts w) (ex_world acts w).
Proof. unfold ex_runs, ex_trace, ex_world. destruct (ex_run acts w) as [[tr w']|] eqn:E; [|done]. intros _. by eapply perform_run. Qed.
(** A command is read, executed and completed; the timers are looked at. *)
Definition ex_serve : list action := [ARead; AExec].
Definition ex_look : list action := [ATimeout; AScan; AScanned].
Definition ex_handle : list action := [AClaim 0; ARelease 0].
(** Timer 7 is started with a delay of 2 and a period of 3. *)
Definition ex_started : list action := [ACall 1 (AExecute CMD_START 7 2 3)] ++ ex_serve ++ [ACompleted 1] ++ ex_look.
(** It expires at 2 and at 5, the second time a tick late. *)
Definition ex_expired : list action := [ATime; ATime] ++ ex_look ++ ex_handle ++ [ATime; ATime; ATime; ATime] ++ ex_look.
(** The second callback begins, then the timer is stopped, then the callback ends. *)
Definition ex_stop : list action := [AClaim 0; ACall 1 (AExecute CMD_STOP 7 0 0)] ++ ex_serve ++ [ACompleted 1; ARelease 0].
Definition ex_w0 : World := ex_world ex_started ex_boot.
Definition ex_w1 : World := ex_world ex_expired ex_w0.
Definition ex_w2 : World := ex_world ex_stop ex_w1.
Definition ex_w3 : World := ex_world [AStopped 1] ex_w2.

(** The commands of a trace, to be compared with a list. *)
Definition executed_commands (tr : list label) : list TimerCommand := omap (λ l, match l with LExec cmd => Some cmd | _ => None end) tr.
Lemma executed_in tr l : executed_commands tr = l → ∀ cmd, LExec cmd ∈ tr → cmd ∈ l.
Proof. intros <- cmd Hin. unfold executed_commands. apply list_elem_of_omap. by exists (LExec cmd). Qed.

Lemma executed_none tr t : executed_commands tr = [] → ∀ cmd, LExec cmd ∈ tr → c_timer cmd ≠ Some t.
Proof. intros H cmd Hin. apply (executed_in _ _ H) in Hin. by apply not_elem_of_nil in Hin. Qed.
Lemma executed_one tr tr1 cmd tr2 c : executed_commands tr = [c] → tr = tr1 ++ LExec cmd :: tr2 → arms 7 c = false → disarmed 7 tr2.
Proof.
  intros H -> Hc cmd' Hin. assert (Hx : LExec cmd' ∈ tr1 ++ LExec cmd :: tr2) by (rewrite elem_of_app, elem_of_cons; auto).
  apply (executed_in _ _ H), list_elem_of_singleton in Hx. by subst.
Qed.

Lemma timer_host_safe_witness : ∃ x, Claim 1 (w_host ex_w0) = Ok x.
Proof.
  destruct (timer_host_safe 1 4 ex_host 100 (ex_trace ex_started ex_boot) ex_w0) as (_ & _ & _ & _ & _ & _ & _ & H & _).
  - apply timer_ex_reach. by vm_compute.
  - apply (H 0%nat). by vm_compute.
Defined.
(** Two ticks later timer 7 is due: the scan queues it and reloads it. *)
Definition ex_due : World := ex_world [ATime; ATime] ex_w0.
Lemma timer_scan_exact_witness : ∃ h' ns', ScanTimers no_callback 2 (w_host ex_due) = Ok (h', ns') ∧ ready_list h' = [7] ∧
  m_deadline (timer h' 7) = 5 ∧ active h' = [7] ∧ 0 < ns'.
Proof.
  assert (Ha : active (w_host ex_due) = [7]) by (by vm_compute).
  assert (Hd : due (w_now ex_due) (timer (w_host ex_due) 7) = true) by (by vm_compute).
  destruct (timer_scan_exact 1 4 ex_host 100 (ex_trace ex_started ex_boot ++ ex_trace [ATime; ATime] ex_w0) ex_due 2 (Some 2))
    as (h' & ns' & E & _ & T & A & R & H & _).
  - eapply trun_app; [apply (timer_ex_reach ex_started ex_boot)|apply (timer_ex_reach [ATime; ATime] ex_w0)]; by vm_compute.
  - by vm_compute.
  - intros t Ht _ _. rewrite Ha in Ht. apply list_elem_of_singleton in Ht. subst t. by vm_compute.
  - exists h', ns'. split; [exact E|]. rewrite R, A, T, Ha. split_and!; [by vm_compute..|exact H].
Defined.
Lemma timer_no_drift_witness : (expirations 7 (ex_trace ex_expired ex_w0)).*2 = grid 2 3 2 ∧ m_deadline (timer (w_host ex_w1) 7) = 8.
Proof.
  destruct (timer_no_drift 1 4 ex_host 100 (ex_trace ex_started ex_boot) ex_w0 (ex_trace ex_expired ex_w0) ex_w1 7) as (G & _ & _ & _ & D & _).
  - apply timer_ex_reach. by vm_compute.
  - apply timer_ex_reach. by vm_compute.
  - assert (Hn : executed_commands (ex_trace ex_expired ex_w0) = []) by (by vm_compute). exact (executed_none _ 7 Hn).
  - by vm_compute.
  - by vm_compute.
  - split; [exact G|]. rewrite D. by vm_compute.
Defined.
Lemma timer_stop_final_witness : m_active (timer (w_host ex_w3) 7) = false ∧ callback_running 7 (w_host ex_w3) = false.
Proof.
  destruct (timer_stop_final 1 4 ex_host 100 (ex_trace ex_started ex_boot ++ ex_trace ex_expired ex_w0) ex_w1 (ex_trace ex_stop ex_w1) ex_w2 ex_w3 1 7 RES_OK) as (tr1 & cmd & tr2 & E & _ & _ & _ & H).
  - eapply trun_app; [apply (timer_ex_reach ex_started ex_boot)|apply (timer_ex_reach ex_expired ex_w0)]; by vm_compute.
  - by vm_compute.
  - apply timer_ex_reach. by vm_compute.
  - apply (perform_sound 1 4 ex_host (AStopped 1)). by vm_compute.
  - destruct (H [] ex_w3 (trun_nil _ _ _ ex_w3)) as (Ha & _ & Hc & _); [|split; [exact Ha|exact Hc]]. rewrite app_nil_r. intros c Hin.
    assert (Hn : executed_commands (ex_trace ex_stop ex_w1) = [mkCommand CMD_STOP (Some 7) 6 0 0 (Some 1)]) by (by vm_compute).
    exact (executed_one _ _ _ _ _ Hn E eq_refl c Hin).
Defined.

(** *** What the host does not do *)

(** [CMD_START_OR_RESET] of an active timer leaves [m_rearming] set: a later [Restart]
    returns [RES_OK] without a command in the queue, for ever. *)
Definition ex_rearm : list action := ex_started ++ [ACall 1 (AStartOrReset 7 2 3)] ++ ex_serve ++ [ACall 1 (ARestart 7 9 9)].
Example restart_is_lost : let w := ex_world ex_rearm ex_boot in
  ex_runs ex_rearm ex_boot = true ∧ last (ex_trace ex_rearm ex_boot) = Some (LReturn 1 RES_OK) ∧
  commands (w_host w) = [] ∧ m_rearming (timer (w_host w) 7) = true ∧ m_period (timer (w_host w) 7) = 3.
Proof. vm_compute. tauto. Qed.

(** A callback that is a period late stops the timer: the scan skips the timer while
    its expiration waits and finds nothing else to wake up for; nothing wakes the tick
    task when the handler takes the expiration. *)
Definition ex_late : list action := ex_started ++ [ATime; ATime] ++ ex_look ++ [ATime; ATime; ATime] ++ ex_look ++ ex_handle ++ [AClaim 0; ATime; ATime; ATime].
Example late_callback_stops_timer : let w := ex_world ex_late ex_boot in
  ex_runs ex_late ex_boot = true ∧ w_tick w = TRead WAIT_INFINITE None ∧ commands (w_host w) = [] ∧
  m_active (timer (w_host w) 7) = true ∧ m_pending (timer (w_host w) 7) = false ∧ m_deadline (timer (w_host w) 7) < w_now w.
Proof. vm_compute. tauto. Qed.

(** A scan that is a period late fails the assertion that the next deadline is ahead. *)
Definition ex_overdue : list action := ex_started ++ [ATime; ATime; ATime; ATime; ATime; ATimeout].
Example late_scan_fails : let w := ex_world ex_overdue ex_boot in
  ex_runs ex_overdue ex_boot = true ∧ w_tick w = TScan 5 [7] WAIT_INFINITE ∧ ScanTimer no_callback 5 7 WAIT_INFINITE (w_host w) = Panic PANIC_ASSERT.
Proof. vm_compute. tauto. Qed.

(** A shutdown does not stop the timers: after the next [Initialize] they are said to
    be active, but the host does not know them. *)
Definition ex_down : list action := ex_started ++ [ACall 1 AShutdown] ++ ex_serve.
Example shutdown_keeps_active : let h := Initialize [true; true] (w_host (ex_world ex_down ex_boot)) in
  ex_runs ex_down ex_boot = true ∧ active h = [] ∧ ∃ h', Start 4 (mkCaller 1 0 false true) 7 2 3 h = Ok (h', PushDone RES_ACTIVE).
Proof. split; [by vm_compute|]. split; [by vm_compute|]. eexists. by vm_compute. Qed.

(** A synchronous call whose command is behind a shutdown never returns. *)
Definition ex_behind : list action := ex_started ++ [ACall 2 AShutdown; ACall 1 (AExecute CMD_STOP 7 0 0)] ++ ex_serve.
Example call_behind_shutdown_hangs tr w : trun 1 4 ex_host (ex_world ex_behind ex_boot) tr w → w_clients w !! 1 = Some (CAwait CMD_STOP 7).
Proof.
  assert (Hr : trun 1 4 ex_host ex_boot (ex_trace ex_behind ex_boot) (ex_world ex_behind ex_boot)) by (apply timer_ex_reach; by vm_compute).
  pose proof (reach_ok _ _ _ _ _ _ Hr) as Hw. intros H. assert (Ht : w_tick (ex_world ex_behind ex_boot) = TExit) by (by vm_compute).
  assert (Hd : completed (w_host (ex_world ex_behind ex_boot)) !! 1 = None) by (by vm_compute).
  assert (Hc : w_clients (ex_world ex_behind ex_boot) !! 1 = Some (CAwait CMD_STOP 7)) by (by vm_compute).
  by destruct (abandoned_run _ _ _ _ _ _ _ _ _ Hw H Ht Hd Hc) as (_ & _ & ?).
Qed.
End TimerProps.
