(* ===== verification/TimeUtil.v ===== *)
(** * Time utilities ([PeriodicTrigger] and [Stopwatch] of [stk_time_util.h])

    A [PeriodicTrigger] is polled and says when a period has passed; a [Stopwatch]
    tells the cycles between its readings of a 64-bit counter.  [Ticks] is a 64-bit
    count of kernel ticks, which does not overflow; [Cycles] does, and wraps. *)

From S2P Require Import Prelude KernelTask.
Import KTask.
Local Open Scope Z_scope.

Module Trigger.

Record PeriodicTrigger := mkTrigger { m_next : Z; m_period : Z }.

(** The tick count is an argument of the operations that read it. *)
Definition Restart (ticks : Z) (p : PeriodicTrigger) : PeriodicTrigger := mkTrigger (ticks + m_period p) (m_period p).
Definition PeriodicTrigger_ctor (ticks period : Z) (start : bool) : PeriodicTrigger :=
  let p := mkTrigger 0 period in if start then Restart ticks p else p.
Definition GetPeriod (p : PeriodicTrigger) : Z := m_period p.
Definition SetPeriod (period : Z) (p : PeriodicTrigger) : PeriodicTrigger := mkTrigger (m_next p - m_period p + period) period.
Definition Poll (ticks : Z) (p : PeriodicTrigger) : res (PeriodicTrigger * bool) :=
  assert! (m_next p >? 0);
  let diff := ticks - m_next p in
  Ok (if diff >=? 0 then (mkTrigger (m_next p + m_period p) (m_period p), true) else (p, false)).

(** A task that polls at the tick counts of a list: the answers. *)
Fixpoint polls (ticks : list Z) (p : PeriodicTrigger) : res (PeriodicTrigger * list (Z * bool)) :=
  match ticks with
  | [] => Ok (p, [])
  | t :: ticks => '(p, b) ← Poll t p; '(p, l) ← polls ticks p; Ok (p, (t, b) :: l)
  end.
Definition firings (l : list (Z * bool)) : list Z := omap (λ x, if x.2 : bool then Some x.1 else None) l.

Lemma Poll_eq t p : 0 < m_next p → Poll t p = Ok (if m_next p <=? t then mkTrigger (m_next p + m_period p) (m_period p) else p, m_next p <=? t).
Proof.
  intros H. unfold Poll. rewrite (proj2 (Z.gtb_lt _ _) H). cbn [stk_assert]. rewrite Z.geb_leb.
  destruct (Z.leb_spec 0 (t - m_next p)), (Z.leb_spec (m_next p) t); try done; lia.
Qed.

(** The firings of a list of polls, from the next one on the grid. *)
Lemma polls_spec p : 0 < m_next p → 0 < m_period p → ∀ ticks, ∃ p' l, polls ticks p = Ok (p', l) ∧ l.*1 = ticks ∧
  let k := length (firings l) in m_period p' = m_period p ∧ m_next p' = m_next p + Z.of_nat k * m_period p ∧
  (∀ i t, firings l !! i = Some t → m_next p + Z.of_nat i * m_period p ≤ t) ∧
  (∀ t, last l = Some (t, false) → t < m_next p').
Proof.
  intros Hn Hp ticks. revert p Hn Hp. induction ticks as [|t ticks IH]; intros p Hn Hp.
  { exists p, []. cbn. split_and!; try done; lia. }
  cbn [polls]. rewrite Poll_eq by done. cbn [mbind res_bind].
  set (q := if m_next p <=? t then mkTrigger (m_next p + m_period p) (m_period p) else p).
  assert (Hq : 0 < m_next q ∧ m_period q = m_period p) by (subst q; case_match; cbn; lia). destruct Hq as [Hq Eq].
  destruct (IH q Hq ltac:(lia)) as (p' & l & E & El & P & N & F & L). rewrite E. cbn [mbind res_bind]. eexists _, _. split; [reflexivity|].
  rewrite Eq in *. assert (Hlast : ∀ u, last ((t, m_next p <=? t) :: l) = Some (u, false) → u < m_next p').
  { intros u. destruct l as [|x l']; [|by intros H; apply L]. cbn. intros [= <- H]. cbn in N. subst q. rewrite H in *. cbn in *. apply Z.leb_gt in H. lia. }
  split; [by cbn; rewrite El|]. subst q. destruct (Z.leb_spec (m_next p) t) as [Hle|Hlt]; cbn in *.
  - fold (firings l). cbn [length]. split_and!; try done; [lia|]. intros [|i] u Hi; cbn in Hi; [injection Hi as <-; lia|]. specialize (F i u Hi). lia.
  - fold (firings l). split_and!; done.
Qed.

(** A trigger does not drift: after a start at [t0], polled at any times up to [tn],
    every poll returns (no assertion fails); the [k]-th firing comes no earlier than [k]
    periods after [t0]; the firings are at most as many as periods have passed, and
    exactly as many when the last poll says no, however late the polls were. *)
Theorem trigger_no_drift t0 p ticks tn : 0 ≤ t0 → 0 < m_period p → t0 ≤ tn → Forall (λ t, t ≤ tn) ticks → ∃ p' l,
  polls ticks (Restart t0 p) = Ok (p', l) ∧ l.*1 = ticks ∧
  let k := Z.of_nat (length (firings l)) in
  (∀ i t, firings l !! i = Some t → t0 + (Z.of_nat i + 1) * m_period p ≤ t) ∧
  m_next p' = t0 + (k + 1) * m_period p ∧ k ≤ (tn - t0) / m_period p ∧
  (last l = Some (tn, false) → k = (tn - t0) / m_period p).
Proof.
  intros Ht Hp Htn Hall. destruct (polls_spec (Restart t0 p) ltac:(cbn; lia) ltac:(done) ticks) as (p' & l & E & El & P & N & F & L). cbn in *.
  exists p', l. split; [done|]. split; [done|].
  assert (Hk : Z.of_nat (length (firings l)) * m_period p ≤ tn - t0).
  { destruct (length (firings l)) as [|k] eqn:Ek; [lia|]. destruct (lookup_lt_is_Some_2 (firings l) k) as [t Et]; [lia|]. specialize (F k t Et).
    assert (Hin : t ∈ ticks); [|rewrite Forall_forall in Hall; specialize (Hall t Hin); lia].
    apply list_elem_of_lookup_2 in Et. unfold firings in Et. apply list_elem_of_omap in Et as ([u b] & Hin & Hu). cbn in Hu. destruct b; [|done]. injection Hu as ->.
    rewrite <- El. apply list_elem_of_fmap. by exists (t, true). }
  assert (Hb : Z.of_nat (length (firings l)) ≤ (tn - t0) / m_period p) by (apply Z.div_le_lower_bound; lia).
  split_and!; try done; [intros i t Hi; specialize (F i t Hi); lia|lia|].
  intros Hl. specialize (L tn Hl). apply Z.le_antisymm; [done|]. apply Z.lt_succ_r, Z.div_lt_upper_bound; lia.
Qed.
Lemma trigger_no_drift_witness : ∃ p', polls [8; 27; 27; 31; 32] (Restart 5 (mkTrigger 0 10)) = Ok (p', [(8, false); (27, true); (27, true); (31, false); (32, false)]) ∧ m_next p' = 35.
Proof.
  destruct (trigger_no_drift 5 (mkTrigger 0 10) [8; 27; 27; 31; 32] 32) as (p' & l & E & _ & _ & N & _); [lia|cbn; lia|lia|repeat constructor; lia|].
  assert (Hv : polls [8; 27; 27; 31; 32] (Restart 5 (mkTrigger 0 10)) = Ok (mkTrigger 35 10, [(8, false); (27, true); (27, true); (31, false); (32, false)])) by reflexivity.
  rewrite Hv in E. injection E as <- <-. exists (mkTrigger 35 10). split; [exact Hv|exact N].
Defined.

(** The phase is kept: the last point of the grid is the same before and after. *)
Lemma SetPeriod_phase period p : m_next (SetPeriod period p) - m_period (SetPeriod period p) = m_next p - m_period p.
Proof. cbn. lia. Qed.
(** A trigger that was not started fires after a change of its period. *)
Example unstarted_fires : Poll 100 (SetPeriod 20 (PeriodicTrigger_ctor 0 10 false)) = Ok (mkTrigger 30 20, true).
Proof. reflexivity. Qed.
End Trigger.

Module Stopwatch.

Record Stopwatch := mkStopwatch { m_prev : Z }.
Definition NOT_STARTED : Z := 0.
Definition Stopwatch_ctor : Stopwatch := mkStopwatch NOT_STARTED.
(** The counter that is read is an argument. *)
Definition Start (now : Z) (s : Stopwatch) : Stopwatch := mkStopwatch (u64 now).
Definition Update (now : Z) (s : Stopwatch) : Stopwatch * Z :=
  let now := u64 now in
  let prev := if m_prev s =? NOT_STARTED then now else m_prev s in
  (mkStopwatch now, u64 (now - prev)).
Fixpoint updates (l : list Z) (s : Stopwatch) : Stopwatch * list Z :=
  match l with [] => (s, []) | now :: l => let '(s, d) := Update now s in let '(s, ds) := updates l s in (s, d :: ds) end.

Fixpoint rising (c : Z) (l : list Z) : Prop := match l with [] => True | d :: l => c ≤ d < c + 2 ^ 64 ∧ rising d l end.

(** A stopwatch counts every cycle once: started at the count [c] of a counter that
    is not cut to 64 bits, and read again before the 64-bit counter comes round, its
    readings sum to the cycles between the start and the last reading, provided no
    reading but the last is a multiple of 2^64 (the counter value that stands for
    "not started"). *)
Theorem stopwatch_sum c l : rising c l → Forall (λ x, u64 x ≠ NOT_STARTED) (removelast (c :: l)) →
  let '(s, ds) := updates l (Start c Stopwatch_ctor) in
  m_prev s = u64 (List.last l c) ∧ foldr Z.add 0 ds = List.last l c - c ∧ Forall (λ d, 0 ≤ d < 2 ^ 64) ds.
Proof.
  unfold Start. revert c. induction l as [|d l IH]; intros c Hr Hn; [cbn; split_and!; try done; lia|].
  destruct Hr as [Hd Hr]. change (removelast (c :: d :: l)) with (c :: removelast (d :: l)) in Hn. inversion_clear Hn as [|? ? Hc Hn']. cbn [updates]. unfold Update at 1. cbn [m_prev]. rewrite (proj2 (Z.eqb_neq _ _) Hc).
  specialize (IH d Hr Hn'). destruct (updates l (mkStopwatch (u64 d))) as [s ds]. destruct IH as (Hs & Hsum & Hb).
  assert (Hdiff : u64 (u64 d - u64 c) = d - c). { unfold u64. rewrite <- Zminus_mod. apply Z.mod_small. lia. }
  rewrite Hdiff. assert (Hlast : List.last (d :: l) c = List.last l d). { destruct l as [|x l]; [done|]. cbn. clear. revert x. induction l; intros; cbn; [done|]. apply IHl. }
  rewrite Hlast. split_and!; [done|cbn; lia|]. constructor; [lia|done].
Qed.
Lemma stopwatch_sum_witness : (updates [2 ^ 64 - 1; 2 ^ 64 + 5] (Start 7 Stopwatch_ctor)).2 = [2 ^ 64 - 8; 6] ∧ foldr Z.add 0 [2 ^ 64 - 8; 6] = 2 ^ 64 + 5 - 7.
Proof.
  assert (H : let '(s, ds) := updates [2 ^ 64 - 1; 2 ^ 64 + 5] (Start 7 Stopwatch_ctor) in foldr Z.add 0 ds = 2 ^ 64 + 5 - 7).
  { destruct (stopwatch_sum 7 [2 ^ 64 - 1; 2 ^ 64 + 5]) as (_ & H & _); [cbn; lia|repeat constructor; done|exact H]. }
  split; [reflexivity|exact H].
Defined.
(** A start at the counter value 0 is lost. *)
Example start_at_zero : (Update 50 (Start 0 Stopwatch_ctor)).2 = 0.
Proof. reflexivity. Qed.
End Stopwatch.

(** ** Ticks and milliseconds ([stk_helper.h])

    Conversions in 64-bit signed arithmetic, whose overflow is undefined;
    [resolution] is the number of microseconds of a tick. *)
Module TimeConv.

Definition i64 (x : Z) : res Z := if bool_decide (- 2 ^ 63 ≤ x < 2 ^ 63) then Ok x else Panic PANIC_OVERFLOW.
Definition GetMsFromTicks (tick_count resolution : Z) : res Z := x ← i64 (tick_count * resolution); Ok (Z.quot x 1000).
Definition GetTicksFromMs (ms resolution : Z) : res Z :=
  if negb (resolution =? 0) then x ← i64 (ms * 1000); Ok (Z.quot x resolution) else Ok 0.
Definition GetTicksFromMsClampedToTimeout (ms resolution : Z) : res Z :=
  tick_count ← GetTicksFromMs ms resolution;
  Ok (if tick_count <? WAIT_INFINITE then tick_count else WAIT_INFINITE).
(** At a tick count of the kernel. *)
Definition GetTimeNowMs (tick_count resolution : Z) : res Z :=
  if resolution =? 1000 then Ok tick_count else x ← i64 (tick_count * resolution); Ok (Z.quot x 1000).

Lemma i64_ok x : - 2 ^ 63 ≤ x < 2 ^ 63 → i64 x = Ok x.
Proof. intros. unfold i64. by rewrite bool_decide_eq_true_2. Qed.
(** The shortcut for ticks of one millisecond changes nothing. *)
Lemma time_now_ms tick resolution : 0 ≤ tick → tick * 1000 < 2 ^ 63 → GetTimeNowMs tick resolution = GetMsFromTicks tick resolution.
Proof.
  intros Ht Hb. unfold GetTimeNowMs, GetMsFromTicks. destruct (Z.eqb_spec resolution 1000) as [->|]; [|done].
  rewrite i64_ok by lia. cbn. by rewrite Z.quot_mul by lia.
Qed.
(** A timeout in milliseconds becomes the number of whole ticks in it, at most the
    largest timeout; nothing overflows; and back, the time is not later and less than
    a tick and a millisecond earlier. *)
Lemma ms_ticks ms resolution : 0 ≤ ms ≤ INT32_MAX → 0 < resolution < 2 ^ 32 → ∃ n t ms',
  GetTicksFromMs ms resolution = Ok n ∧ GetTicksFromMsClampedToTimeout ms resolution = Ok t ∧ GetMsFromTicks n resolution = Ok ms' ∧
  t = Z.min n WAIT_INFINITE ∧ 0 ≤ t ∧ n * resolution ≤ ms * 1000 < (n + 1) * resolution ∧
  ms' ≤ ms ∧ ms * 1000 < ms' * 1000 + 1000 + resolution.
Proof.
  unfold INT32_MAX. intros Hm Hr. unfold GetTicksFromMsClampedToTimeout, GetTicksFromMs, GetMsFromTicks. rewrite (proj2 (Z.eqb_neq resolution 0)) by lia. cbn [negb].
  rewrite (i64_ok (ms * 1000)) by lia. cbn [mbind res_bind]. rewrite Z.quot_div_nonneg by lia. set (n := ms * 1000 / resolution).
  assert (Hn : n * resolution ≤ ms * 1000 < (n + 1) * resolution).
  { pose proof (Z.div_mod (ms * 1000) resolution ltac:(lia)). pose proof (Z.mod_pos_bound (ms * 1000) resolution ltac:(lia)). subst n. lia. }
  assert (0 ≤ n) by (apply Z.div_pos; lia). exists n. eexists _, _. split; [done|]. split; [done|]. rewrite i64_ok by nia. cbn [mbind res_bind].
  rewrite Z.quot_div_nonneg by nia. split; [done|]. pose proof (Z.div_mod (n * resolution) 1000 ltac:(lia)). pose proof (Z.mod_pos_bound (n * resolution) 1000 ltac:(lia)).
  split_and!; [destruct (Z.ltb_spec n WAIT_INFINITE); lia|destruct (Z.ltb_spec n WAIT_INFINITE); [lia|done]|lia..].
Qed.
(** With ticks longer than a millisecond, the timeout that means forever becomes one
    that ends. *)
Example infinite_ms_ends : GetTicksFromMsClampedToTimeout WAIT_INFINITE 10000 = Ok 214748364.
Proof. by vm_compute. Qed.
End TimeConv.
