(* ===== verification/Memory.v ===== *)
(** * What the memory pools share ([memory/stk_memory_allocator.h])

    Machine words of a given width, alignment to a power of two, and the
    statistics [MemoryAllocator::Stats] every pool keeps. *)

From S2P Require Import Prelude.
Local Open Scope Z_scope.

Module Memory.

Definition nullptr : Z := 0.

(** [MemoryAllocator::Stats]. *)
Record Stats := mkStats {
  capacity : Z; allocated : Z; peak_allocated : Z; allocate_count : Z; free_count : Z; alloc_fail_count : Z; min_ever_free : Z }.
Definition Stats_ctor (cap : Z) : Stats := mkStats cap 0 0 0 0 0 cap.
Definition GetAvailable (s : Stats) : Z := if allocated s <? capacity s then capacity s - allocated s else 0.
(** [Reset] leaves what the constructor makes. *)
Definition Stats_Reset (cap : Z) (s : Stats) : Stats := mkStats cap 0 0 0 0 0 cap.

(** A multiple less than one unit above another one. *)
Lemma multiple_between c x y : (c | x) → (c | y) → x ≤ y < x + c → y = x.
Proof.
  intros [q ->] [q' ->] H. destruct (Z.le_gt_cases c 0); [lia|]. assert (q ≤ q') by (apply Z.mul_le_mono_pos_r with c; lia).
  assert (q' < q + 1) by (apply Z.mul_lt_mono_pos_r with c; lia). f_equal. lia.
Qed.

Section words.
(** The number of bits of [Word] and [size_t]. *)
Context (WB : Z).

Definition uw (x : Z) : Z := x `mod` 2 ^ WB.
Definition unot (x : Z) : Z := Z.land (Z.lnot x) (2 ^ WB - 1).

Definition RecordAllocate (size : Z) (s : Stats) : Stats :=
  let used := uw (allocated s + size) in
  let s := mkStats (capacity s) used (if used >? peak_allocated s then used else peak_allocated s)
             (uw (allocate_count s + 1)) (free_count s) (alloc_fail_count s) (min_ever_free s) in
  let avail := GetAvailable s in
  mkStats (capacity s) (allocated s) (peak_allocated s) (allocate_count s) (free_count s) (alloc_fail_count s)
    (if avail <? min_ever_free s then avail else min_ever_free s).
Definition RecordFree (size : Z) (s : Stats) : res Stats :=
  assert! (allocated s >=? size);
  Ok (mkStats (capacity s) (if allocated s >=? size then allocated s - size else 0) (peak_allocated s)
        (allocate_count s) (uw (free_count s + 1)) (alloc_fail_count s) (min_ever_free s)).
Definition RecordAllocFail (s : Stats) : Stats :=
  mkStats (capacity s) (allocated s) (peak_allocated s) (allocate_count s) (free_count s) (uw (alloc_fail_count s + 1)) (min_ever_free s).

Context (HWB : 8 ≤ WB).

(** A number with one bit. *)
Lemma one_bit x : 0 < x → Z.land x (x - 1) = 0 → ∃ k, 0 ≤ k ∧ x = 2 ^ k.
Proof.
  intros Hx E. exists (Z.log2 x). split; [apply Z.log2_nonneg|]. destruct (Z.log2_spec x Hx) as [H1 H2].
  destruct (Z.eq_dec x (2 ^ Z.log2 x)) as [|Hne]; [done|]. exfalso.
  assert (E1 : Z.log2 (x - 1) = Z.log2 x) by (apply Z.log2_unique; [apply Z.log2_nonneg|lia]).
  assert (Hb : Z.testbit (Z.land x (x - 1)) (Z.log2 x) = true).
  { rewrite Z.land_spec, Z.bit_log2 by lia. rewrite <- E1, Z.bit_log2; [done|]. assert (0 < 2 ^ Z.log2 x) by (apply Z.pow_pos_nonneg; [lia|apply Z.log2_nonneg]). lia. }
  by rewrite E, Z.bits_0 in Hb.
Qed.
(** Masking the low bits rounds down. *)
Lemma mask_down x k : 0 ≤ x < 2 ^ WB → 0 ≤ k → Z.land x (unot (2 ^ k - 1)) = x / 2 ^ k * 2 ^ k.
Proof using HWB.
  intros Hx Hk. unfold unot. rewrite (Z.land_comm _ (2 ^ WB - 1)), Z.land_assoc.
  replace (2 ^ WB - 1) with (Z.ones WB) by (rewrite Z.ones_equiv; lia). replace (2 ^ k - 1) with (Z.ones k) by (rewrite Z.ones_equiv; lia).
  rewrite Z.land_ones, Z.mod_small by lia. rewrite <- Z.ldiff_land, Z.ldiff_ones_r by done. by rewrite Z.shiftl_mul_pow2, Z.shiftr_div_pow2.
Qed.
Lemma uw_range x : 0 ≤ uw x < 2 ^ WB.
Proof using HWB. apply Z.mod_pos_bound. apply Z.pow_pos_nonneg; lia. Qed.
Lemma uw_small x : 0 ≤ x < 2 ^ WB → uw x = x.
Proof. apply Z.mod_small. Qed.
(** Rounding up to a multiple of a power of two. *)
Lemma align_up x k : 0 ≤ k → 0 ≤ x → x + (2 ^ k - 1) < 2 ^ WB →
  let y := Z.land (uw (x + (2 ^ k - 1))) (unot (2 ^ k - 1)) in x ≤ y < x + 2 ^ k ∧ (2 ^ k | y).
Proof using HWB.
  intros Hk Hx Hw. assert (Hp : 0 < 2 ^ k) by (by apply Z.pow_pos_nonneg). cbv zeta. rewrite uw_small by lia. rewrite mask_down by lia.
  split; [|apply Z.divide_factor_r]. pose proof (Z.div_mod (x + (2 ^ k - 1)) (2 ^ k) ltac:(lia)).
  pose proof (Z.mod_pos_bound (x + (2 ^ k - 1)) (2 ^ k) Hp). lia.
Qed.
End words.
End Memory.
