(* ===== verification/BlockPool.v ===== *)
(** * Block memory pool ([BlockMemoryPool] of [memory/stk_memory_blockpool.h])

    Blocks of one size are carved out of a storage area; the free ones form a
    singly-linked list whose links are kept in the blocks themselves.  The model
    keeps the first word of every block ([m_words], the [next] of a free block),
    and the program may write anything into the blocks it holds.  The theorems
    show that an allocated block is handed out to one caller only, lies inside
    the storage, is aligned and does not overlap another one, whatever the
    program does with its blocks, and that nobody waits beside a free block
    that no one was woken for. *)

From S2P Require Import Prelude KernelTask Monitor Memory.
Import KTask Monitor Memory.
Local Open Scope Z_scope.

Module BlockPool.

Record BlockMemoryPool := mkPool {
  m_storage : Z; m_blocks : Z; m_bitmap : list Z; m_free_list : Z; m_words : gmap Z Z;
  m_storage_size : Z; m_block_size : Z; m_block_align : Z; m_capacity : Z; m_used_count : Z; m_stats : Stats }.
Notation M := (Mon BlockMemoryPool).
Definition CAPACITY_MAX : Z := 0xFFFE.

Inductive call := CTimedAllocEx (timeout_ticks : Z) | CFree (ptr : Z) | CWrite (ptr v : Z).
Inductive ret := RAlloc (r : EWaitResult) (block : Z) | RFree (success : bool) | RVoid.
(** A blocked [TimedAllocEx] remembers its timeout and its 64-bit deadline. *)
Record pc := mkPc { pc_timeout : Z; pc_deadline : Z }.

Section pool.
(** The number of bits of [Word] and [size_t], and the build options
    [STK_MEMORY_BLOCKPOOL_BITMAP] and [STK_MEMORY_POOL_CHECKS]. *)
Context (WB : Z) (BITMAP CHECKS : bool).

Local Notation uw := (uw WB).
Local Notation unot := (unot WB).
Local Notation RecordAllocate := (RecordAllocate WB).
Local Notation RecordFree := (RecordFree WB).
Local Notation RecordAllocFail := (RecordAllocFail WB).
Definition PTR_SIZE : Z := WB / 8.

(** ** Construction *)
Definition AlignBlockSize (raw_size alignment : Z) : Z :=
  Z.max alignment (Z.land (uw (raw_size + (alignment - 1))) (unot (alignment - 1))).
Definition BitmapBytes (cap : Z) : Z := if BITMAP then (cap + 7) / 8 else 0.
Definition RequiredStorageSize (cap raw_block_size alignment : Z) : Z :=
  uw (uw (cap * AlignBlockSize raw_block_size alignment) + BitmapBytes cap).
Definition IsValidAlignment (alignment : Z) : bool := (alignment >=? PTR_SIZE) && (Z.land alignment (alignment - 1) =? 0).
Definition ArgsValid (cap raw_block_size alignment block_size : Z) : bool :=
  (cap >? 0) && (cap <=? CAPACITY_MAX) && (raw_block_size >? 0) && IsValidAlignment alignment && (block_size >=? raw_block_size).

(** The largest number of blocks that fits beside its bitmap. *)
Fixpoint fit_loop (n : nat) (block_size usable : Z) : nat :=
  match n with
  | O => O
  | S n' => if Z.of_nat n * block_size + BitmapBytes (Z.of_nat n) >? usable then fit_loop n' block_size usable else n
  end.
(** The loop of [BuildFreeList]: the blocks [n - 1] down to 0 are put in front. *)
Fixpoint build_loop (n : nat) (blocks block_size : Z) (words : gmap Z Z) (free_list : Z) : gmap Z Z * Z :=
  match n with
  | O => (words, free_list)
  | S i =>
      let blk := blocks + Z.of_nat i * block_size in
      build_loop i blocks block_size (<[blk := free_list]> words) blk
  end.
Definition BuildFreeList (p : BlockMemoryPool) : res BlockMemoryPool :=
  assert! (m_blocks p `mod` m_block_align p =? 0);
  let bitmap := if BITMAP then replicate (Z.to_nat (BitmapBytes (m_capacity p))) 0 else m_bitmap p in
  let '(words, free_list) := build_loop (Z.to_nat (m_capacity p)) (m_blocks p) (m_block_size p) (m_words p) nullptr in
  Ok (mkPool (m_storage p) (m_blocks p) bitmap free_list words (m_storage_size p) (m_block_size p) (m_block_align p)
        (m_capacity p) 0 (m_stats p)).
Definition reset_stats (p : BlockMemoryPool) : BlockMemoryPool :=
  mkPool (m_storage p) (m_blocks p) (m_bitmap p) (m_free_list p) (m_words p) (m_storage_size p) (m_block_size p) (m_block_align p)
    (m_capacity p) (m_used_count p) (Stats_ctor (uw (m_capacity p * m_block_size p))).
Definition Setup (raw_block_size alignment : Z) (p : BlockMemoryPool) : res BlockMemoryPool :=
  let requested := m_capacity p in
  let p := mkPool (m_storage p) nullptr [] nullptr (m_words p) (m_storage_size p) (m_block_size p) (m_block_align p) 0 0 (m_stats p) in
  assert! (requested >? 0);
  assert! (requested <=? CAPACITY_MAX);
  assert! (raw_block_size >? 0);
  assert! IsValidAlignment alignment;
  p ← (if ArgsValid requested raw_block_size alignment (m_block_size p) && negb (m_storage p =? nullptr) then
         let addr := m_storage p in
         let shift := uw (Z.land (uw (addr + (alignment - 1))) (unot (alignment - 1)) - addr) in
         let usable := if m_storage_size p >? shift then m_storage_size p - shift else 0 in
         let n := usable / m_block_size p in
         let n := if n >? requested then requested else n in
         let n := Z.of_nat (fit_loop (Z.to_nat n) (m_block_size p) usable) in
         assert! (n =? requested);
         if n >? 0 then
           BuildFreeList (mkPool (m_storage p) (m_storage p + shift) [] nullptr (m_words p) (m_storage_size p) (m_block_size p)
                            (m_block_align p) n 0 (m_stats p))
         else Ok p
       else Ok p);
  Ok (reset_stats p).
(** The constructor for external storage, whose contents are [words]. *)
Definition BlockMemoryPool_ctor (cap raw_block_size storage storage_size alignment : Z) (words : gmap Z Z) : res BlockMemoryPool :=
  let block_size := AlignBlockSize raw_block_size alignment in
  assert! negb (storage =? nullptr);
  Setup raw_block_size alignment
    (mkPool storage nullptr [] nullptr words storage_size block_size alignment cap 0 (Stats_ctor (uw (cap * block_size)))).

(** ** Allocation *)
Definition IsStorageValid (p : BlockMemoryPool) : bool := negb (m_blocks p =? nullptr) && negb (m_capacity p =? 0).
Definition GetFreeCount (p : BlockMemoryPool) : Z := m_capacity p - m_used_count p.

Definition byte_at (p : BlockMemoryPool) (index : Z) : res Z := deref (m_bitmap p !! Z.to_nat (Z.shiftr index 3)).
Definition BitmapTest (p : BlockMemoryPool) (index : Z) : res bool :=
  b ← byte_at p index; Ok (negb (Z.land b (Z.shiftl 1 (Z.land index 7)) =? 0)).
Definition set_byte (p : BlockMemoryPool) (index b : Z) : BlockMemoryPool :=
  mkPool (m_storage p) (m_blocks p) (<[Z.to_nat (Z.shiftr index 3) := b]> (m_bitmap p)) (m_free_list p) (m_words p) (m_storage_size p)
    (m_block_size p) (m_block_align p) (m_capacity p) (m_used_count p) (m_stats p).
Definition BitmapSet (p : BlockMemoryPool) (index : Z) : res BlockMemoryPool :=
  b ← byte_at p index; Ok (set_byte p index (Z.lor b (Z.shiftl 1 (Z.land index 7)))).
Definition BitmapClear (p : BlockMemoryPool) (index : Z) : res BlockMemoryPool :=
  b ← byte_at p index; Ok (set_byte p index (Z.land b (Z.land (Z.lnot (Z.shiftl 1 (Z.land index 7))) 255))).

(** A word that was filled with a byte. *)
Definition fill_word (b : Z) : Z := b * ((2 ^ WB - 1) / 255).
Definition FILL_ALLOC : Z := 0xCD.

Definition PopFreeList (p : BlockMemoryPool) : res (Z * BlockMemoryPool) :=
  assert! (m_used_count p <? m_capacity p);
  let blk := m_free_list p in
  next ← deref (m_words p !! blk);
  let p := mkPool (m_storage p) (m_blocks p) (m_bitmap p) next (m_words p) (m_storage_size p) (m_block_size p) (m_block_align p)
             (m_capacity p) (m_used_count p + 1) (RecordAllocate (m_block_size p) (m_stats p)) in
  p ← (if BITMAP then BitmapSet p ((blk - m_blocks p) / m_block_size p) else Ok p);
  let words := if CHECKS then <[blk := fill_word FILL_ALLOC]> (m_words p) else m_words p in
  Ok (blk, mkPool (m_storage p) (m_blocks p) (m_bitmap p) (m_free_list p) words (m_storage_size p) (m_block_size p) (m_block_align p)
             (m_capacity p) (m_used_count p) (m_stats p)).

(** [TimedAllocEx]: after the loop. *)
Definition alloc_end (result : EWaitResult) (m : M) : res (M * outcome pc ret) :=
  let p := fields m in
  let result := if bool_decide (result = WAIT_RESULT_TIMEOUT) && negb (m_free_list p =? nullptr) then WAIT_RESULT_SIGNAL else result in
  match result with
  | WAIT_RESULT_SIGNAL => '(blk, p) ← PopFreeList p; Ok (set_fields p m, Done (RAlloc result blk))
  | WAIT_RESULT_TIMEOUT =>
      Ok (set_fields (mkPool (m_storage p) (m_blocks p) (m_bitmap p) (m_free_list p) (m_words p) (m_storage_size p) (m_block_size p)
            (m_block_align p) (m_capacity p) (m_used_count p) (RecordAllocFail (m_stats p))) m, Done (RAlloc result nullptr))
  | _ => Ok (m, Done (RAlloc result nullptr))
  end.
(** [TimedAllocEx]: one turn of the loop. *)
Definition alloc_loop (cx : ctx) (timeout_ticks deadline : Z) (m : M) : res (M * outcome pc ret) :=
  if m_free_list (fields m) =? nullptr then
    if timeout_ticks =? NO_WAIT then alloc_end WAIT_RESULT_TIMEOUT m
    else
      let left := deadline - c_now cx in
      if is_timed timeout_ticks && (left <=? 0) then alloc_end WAIT_RESULT_TIMEOUT m
      else
        let remaining := if is_timed timeout_ticks then to_Timeout left else timeout_ticks in
        wait ← CV_WaitEx cx remaining;
        if (wait : bool) then Ok (m, Blocked remaining (mkPc timeout_ticks deadline))
        else alloc_end WAIT_RESULT_TIMEOUT m
  else alloc_end WAIT_RESULT_SIGNAL m.
Definition TimedAllocEx (cx : ctx) (timeout_ticks : Z) (m : M) : res (M * outcome pc ret) :=
  if negb (timeout_ticks =? NO_WAIT) && c_isr cx then Panic PANIC_ASSERT
  else if negb (IsStorageValid (fields m)) then Ok (m, Done (RAlloc WAIT_RESULT_FAIL nullptr))
  else alloc_loop cx timeout_ticks (if is_timed timeout_ticks then c_now cx + timeout_ticks else 0) m.

(** ** Freeing *)

(** The walk over the free list that looks for [ptr]. *)
Fixpoint in_free_list (fuel : nat) (words : gmap Z Z) (node ptr : Z) : res bool :=
  if node =? nullptr then Ok false
  else if node =? ptr then Ok true
  else
    match fuel with
    | O => Panic PANIC_FUEL
    | S fuel => next ← deref (words !! node); in_free_list fuel words next ptr
    end.
(** The checks for a double free. *)
Definition Free_check (ptr : Z) (p : BlockMemoryPool) : res BlockMemoryPool :=
  if BITMAP then
    let index := (ptr - m_blocks p) / m_block_size p in
    used ← BitmapTest p index;
    assert! used;
    BitmapClear p index
  else if CHECKS then
    found ← in_free_list (Z.to_nat (m_capacity p)) (m_words p) (m_free_list p) ptr;
    assert! negb found;
    Ok p
  else Ok p.
Definition Free_link (ptr : Z) (p : BlockMemoryPool) : res BlockMemoryPool :=
  st ← RecordFree (m_block_size p) (m_stats p);
  Ok (mkPool (m_storage p) (m_blocks p) (m_bitmap p) ptr (<[ptr := m_free_list p]> (m_words p)) (m_storage_size p) (m_block_size p)
        (m_block_align p) (m_capacity p) (m_used_count p - 1) st).
Definition Free (ptr : Z) (m : M) : res (M * bool) :=
  let p := fields m in
  if negb (ptr =? nullptr) && negb (m_blocks p =? nullptr) then
    let lo := m_blocks p in
    let hi := uw (lo + m_capacity p * m_block_size p) in
    assert! negb ((ptr <? lo) || (ptr >=? hi));
    assert! ((ptr - lo) `mod` m_block_size p =? 0);
    assert! negb (m_used_count p =? 0);
    p ← Free_check ptr p;
    p ← Free_link ptr p;
    Ok (WakeOne 0 (set_fields p m), true)
  else Ok (m, false).

(** The program writes the first word of a block. *)
Definition Write (ptr v : Z) (m : M) : M :=
  let p := fields m in
  set_fields (mkPool (m_storage p) (m_blocks p) (m_bitmap p) (m_free_list p) (<[ptr := v]> (m_words p)) (m_storage_size p) (m_block_size p)
                (m_block_align p) (m_capacity p) (m_used_count p) (m_stats p)) m.

Definition enter (cx : ctx) (c : call) (m : M) : res (M * outcome pc ret) :=
  match c with
  | CTimedAllocEx timeout_ticks => TimedAllocEx cx timeout_ticks m
  | CFree ptr => '(m, b) ← Free ptr m; Ok (m, Done (RFree b))
  | CWrite ptr v => Ok (Write ptr v m, Done RVoid)
  end.
Definition resume (cx : ctx) (p : pc) (r : EWaitResult) (m : M) : res (M * outcome pc ret) :=
  if bool_decide (r ≠ WAIT_RESULT_SIGNAL) then alloc_end r m else alloc_loop cx (pc_timeout p) (pc_deadline p) m.
Definition prim : Primitive := mkPrimitive BlockMemoryPool call pc ret (λ _, 0%nat) enter resume.

Lemma alloc_end_evolves r m m' o : alloc_end r m = Ok (m', o) → evolves m m'.
Proof.
  unfold alloc_end. cbv zeta. destruct (if bool_decide _ && _ then _ else _); try (intros [= <- <-]; eauto with stk).
  destruct (PopFreeList (fields m)) as [[b p]|]; cbn; [intros [= <- <-]; eauto with stk|done].
Qed.
Lemma alloc_end_done r m m' rem p : alloc_end r m ≠ Ok (m', Blocked rem p).
Proof.
  unfold alloc_end. cbv zeta. destruct (if bool_decide _ && _ then _ else _); try done.
  by destruct (PopFreeList (fields m)) as [[b q]|].
Qed.
(** How a turn of the loop ends. *)
Lemma alloc_loop_cases cx to d m m' o : alloc_loop cx to d m = Ok (m', o) →
  (m_free_list (fields m) ≠ nullptr ∧ alloc_end WAIT_RESULT_SIGNAL m = Ok (m', o)) ∨
  (m_free_list (fields m) = nullptr ∧ (alloc_end WAIT_RESULT_TIMEOUT m = Ok (m', o) ∨
     c_isr cx = false ∧ m' = m ∧ ∃ rem, o = Blocked rem (mkPc to d))).
Proof.
  unfold alloc_loop. destruct (Z.eqb_spec (m_free_list (fields m)) nullptr) as [E|E]; [|by left]. intros H. right. split; [done|].
  destruct (to =? NO_WAIT); [by left|]. cbv zeta in H. destruct (is_timed to && _); [by left|]. unfold CV_WaitEx in H.
  destruct (negb (_ =? NO_WAIT)) in H; cbn [mbind res_bind] in H; [|by left]. destruct (c_isr cx) eqn:Ei; cbn in H; [done|].
  right. injection H as <- <-. eauto.
Qed.

#[export] Instance pool_lawful : Lawful prim.
Proof.
  assert (Hl : ∀ cx to d m m' o, alloc_loop cx to d m = Ok (m', o) → evolves m m').
  { intros * [(_ & E)|(_ & [E|(_ & -> & _)])]%alloc_loop_cases; eauto using alloc_end_evolves with stk. }
  split; cbn.
  - intros cx [to|ptr|ptr v] m m' o; cbn [enter].
    + unfold TimedAllocEx. destruct (_ && _); [done|]. destruct (negb _); [intros [= <- <-]; eauto with stk|apply Hl].
    + unfold Free. intros H. destruct (_ && _) in H; [|by injection H as <- <-; eauto with stk]. cbv zeta in H.
      destruct (negb (_ || _)) in H; cbn [stk_assert] in H; [|done]. destruct (_ =? 0) in H; cbn [stk_assert] in H; [|done].
      destruct (negb _) in H; cbn [stk_assert] in H; [|done]. destruct (Free_check ptr (fields m)) as [p|]; cbn [mbind res_bind] in H; [|done].
      destruct (Free_link ptr p) as [q|]; cbn in H; [|done]. injection H as <- <-. eapply evolves_trans; [|apply evolves_One]. eauto with stk.
    + intros [= <- <-]. unfold Write. eauto with stk.
  - intros cx p r m m' o. unfold resume. case_match; eauto using alloc_end_evolves.
  - intros cx [to|ptr|ptr v] m m' rem p Hi; cbn [enter].
    + unfold TimedAllocEx. destruct (_ && _); [done|]. destruct (negb _); [done|].
      intros [(_ & E)|(_ & [E|(? & _)])]%alloc_loop_cases; [by apply alloc_end_done in E..|congruence].
    + by destruct (Free ptr m) as [[]|].
    + done.
Qed.

(** ** The free list *)

Fixpoint chain (words : gmap Z Z) (p : Z) (l : list Z) : Prop :=
  match l with
  | [] => p = nullptr
  | x :: l => p = x ∧ x ≠ nullptr ∧ ∃ nx, words !! x = Some nx ∧ chain words nx l
  end.
Lemma chain_frame words x v l : x ∉ l → ∀ p, chain words p l → chain (<[x := v]> words) p l.
Proof.
  intros Hx. induction l as [|y l IH]; [done|]. apply not_elem_of_cons in Hx as [Hy Hx]. intros p (-> & Hn & nx & Hnx & Hc).
  split; [done|]. split; [done|]. exists nx. rewrite lookup_insert_ne by done. auto.
Qed.
Lemma chain_walk words ptr : ∀ l p fuel, chain words p l → (length l ≤ fuel)%nat →
  in_free_list fuel words p ptr = Ok (bool_decide (ptr ∈ l)).
Proof.
  induction l as [|x l IH]; intros p fuel Hc Hf.
  - cbn in Hc. subst p. destruct fuel; cbn; by rewrite bool_decide_eq_false_2 by apply not_elem_of_nil.
  - destruct Hc as (-> & Hn & nx & Hnx & Hc). destruct fuel as [|fuel]; [cbn in Hf; lia|]. cbn [in_free_list].
    rewrite (proj2 (Z.eqb_neq _ _)) by done. destruct (Z.eqb_spec x ptr) as [->|Hne]; [by rewrite bool_decide_eq_true_2 by left|].
    rewrite Hnx. cbn [deref mbind res_bind]. rewrite (IH nx fuel Hc) by (cbn in Hf; lia). f_equal. apply bool_decide_ext.
    rewrite elem_of_cons. split; [by right|intros [->|?]; done].
Qed.

Definition block_list (B bs : Z) (n : nat) : list Z := (λ i, B + Z.of_nat i * bs) <$> seq 0 n.
Lemma block_list_S B bs n : block_list B bs (S n) = block_list B bs n ++ [B + Z.of_nat n * bs].
Proof. unfold block_list. by rewrite seq_S, fmap_app. Qed.
Lemma elem_of_blocks B bs n x : x ∈ block_list B bs n ↔ ∃ i, x = B + Z.of_nat i * bs ∧ (i < n)%nat.
Proof. unfold block_list. rewrite list_elem_of_fmap. setoid_rewrite elem_of_seq. split; intros (i & -> & ?); exists i; split; done || lia. Qed.
Lemma NoDup_blocks B bs n : 0 < bs → NoDup (block_list B bs n).
Proof. intros Hb. unfold block_list. apply NoDup_fmap_2_strong; [|apply NoDup_seq]. intros i j _ _ E. nia. Qed.

Lemma build_loop_chain B bs n : 0 < bs → 0 < B → ∀ words p l, chain words p l → (∀ x, x ∈ l → x ∉ block_list B bs n) →
  let '(words', p') := build_loop n B bs words p in chain words' p' (block_list B bs n ++ l).
Proof.
  intros Hb HB. induction n as [|n IH]; intros words p l Hc Hd; [done|]. cbn [build_loop].
  specialize (IH (<[B + Z.of_nat n * bs := p]> words) (B + Z.of_nat n * bs) (B + Z.of_nat n * bs :: l)).
  destruct (build_loop n B bs _ _) as [words' p']. rewrite block_list_S, <- app_assoc. apply IH.
  - split; [done|]. split; [unfold nullptr; nia|]. exists p. rewrite lookup_insert_eq. split; [done|]. apply chain_frame; [|done].
    intros Hin. apply (Hd _ Hin). apply elem_of_blocks. exists n. split; [done|lia].
  - intros x [->|Hx]%elem_of_cons Hin.
    + apply elem_of_blocks in Hin as (i & E & ?). nia.
    + apply (Hd x Hx). rewrite block_list_S. apply elem_of_app. by left.
Qed.

(** ** Alignment *)

Context (HWB : 8 ≤ WB).

(** The shape of a pool whose storage was accepted. *)
Record geom (p : BlockMemoryPool) : Prop := {
  ge_size : 0 < m_block_size p;
  ge_align : 0 < m_block_align p;
  ge_blocks : 0 < m_blocks p;
  ge_cap : 0 < m_capacity p ≤ CAPACITY_MAX;
  ge_block_align : m_blocks p `mod` m_block_align p = 0;
  ge_size_align : m_block_size p `mod` m_block_align p = 0;
  ge_low : m_storage p ≤ m_blocks p;
  ge_high : m_blocks p + m_capacity p * m_block_size p + BitmapBytes (m_capacity p) ≤ m_storage p + m_storage_size p;
  ge_top : m_storage p + m_storage_size p < 2 ^ WB;
}.

Lemma BitmapBytes_nonneg n : 0 ≤ n → 0 ≤ BitmapBytes n.
Proof. intros. unfold BitmapBytes. destruct BITMAP; [apply Z.div_pos; lia|lia]. Qed.
Lemma fit_loop_fits n bs usable : 0 ≤ usable →
  Z.of_nat (fit_loop n bs usable) * bs + BitmapBytes (Z.of_nat (fit_loop n bs usable)) ≤ usable.
Proof.
  intros Hu. induction n as [|n IH]; cbn [fit_loop]; [unfold BitmapBytes; change ((Z.of_nat 0 + 7) / 8) with 0; destruct BITMAP; lia|]. destruct (_ >? usable) eqn:E; [done|].
  rewrite Z.gtb_ltb in E. by apply Z.ltb_ge in E.
Qed.
Lemma align_size raw al k : al = 2 ^ k → 0 ≤ k → (AlignBlockSize raw al) `mod` al = 0 ∧ 0 < AlignBlockSize raw al.
Proof using HWB.
  intros Ea Hk. assert (Hal : 0 < al) by (rewrite Ea; apply Z.pow_pos_nonneg; lia). unfold AlignBlockSize.
  rewrite Ea, mask_down, <- Ea by (done || by apply uw_range). set (y := uw _ / al * al).
  destruct (Z.max_spec al y) as [[? ->]|[_ ->]]; [split; [apply Z.mod_mul; lia|lia]|split; [apply Z.mod_same; lia|lia]].
Qed.

(** What the constructor makes of its storage. *)
Lemma ctor_geom cap raw st ss al words p : 0 < st → 0 ≤ ss → st + ss < 2 ^ WB →
  BlockMemoryPool_ctor cap raw st ss al words = Ok p → IsStorageValid p = true →
  geom p ∧ m_capacity p = cap ∧ m_block_align p = al ∧ raw ≤ m_block_size p ∧ m_used_count p = 0 ∧ m_storage p = st ∧ m_storage_size p = ss ∧
  chain (m_words p) (m_free_list p) (block_list (m_blocks p) (m_block_size p) (Z.to_nat cap)) ∧
  m_stats p = Stats_ctor (uw (cap * m_block_size p)) ∧
  (BITMAP = true → m_bitmap p = replicate (Z.to_nat (BitmapBytes cap)) 0).
Proof using HWB.
  intros Hst Hss Htop. unfold BlockMemoryPool_ctor, Setup. cbv zeta. cbn [m_storage m_capacity m_block_size m_storage_size m_block_align m_words].
  set (bs := AlignBlockSize raw al). intros H Hv.
  destruct (negb (st =? nullptr)) eqn:E0 in H; cbn [stk_assert] in H; [|done].
  destruct (cap >? 0) eqn:E1 in H; cbn [stk_assert] in H; [|done]. destruct (cap <=? CAPACITY_MAX) eqn:E2 in H; cbn [stk_assert] in H; [|done].
  destruct (raw >? 0) eqn:E3 in H; cbn [stk_assert] in H; [|done]. destruct (IsValidAlignment al) eqn:E4 in H; cbn [stk_assert] in H; [|done].
  destruct (ArgsValid cap raw al bs) eqn:E5; cbn [andb mbind res_bind] in H.
  2: { injection H as <-. done. }
  unfold ArgsValid in E5. rewrite !andb_true_iff in E5. destruct E5 as [_ E5]. apply Z.geb_le in E5.
  unfold IsValidAlignment in E4. apply andb_true_iff in E4 as [E4 E6%Z.eqb_eq]. apply Z.geb_le in E4.
  assert (Hal : 0 < al). { unfold PTR_SIZE in E4. pose proof (Z.div_le_lower_bound WB 8 1). lia. }
  destruct (one_bit al Hal E6) as (k & Hk & Ek). destruct (align_size raw al k Ek Hk) as [Hbs Hbs0]. fold bs in Hbs, Hbs0.
  set (sh := uw (Z.land (uw (st + (al - 1))) (unot (al - 1)) - st)) in H.
  set (us := if ss >? sh then ss - sh else 0) in H.
  assert (Hsh : 0 ≤ sh < 2 ^ WB) by (by apply uw_range).
  assert (Hus : 0 ≤ us ∧ (0 < us → us = ss - sh)) by (unfold us; destruct (ss >? sh) eqn:?; lia).
  pose proof (fit_loop_fits (Z.to_nat (if us / bs >? cap then cap else us / bs)) bs us (proj1 Hus)) as Hfit.
  set (n := Z.of_nat (fit_loop _ bs us)) in H, Hfit. destruct (Z.eqb_spec n cap) as [En|]; cbn [stk_assert] in H; [|done].
  rewrite En, E1 in H. pose proof (BitmapBytes_nonneg cap). apply Z.gtb_lt in E1, E3. apply Z.leb_le in E2. rewrite En in Hfit.
  assert (Hus1 : us = ss - sh) by (apply Hus; nia).
  unfold BuildFreeList in H. cbn [m_storage m_blocks m_capacity m_block_size m_storage_size m_block_align m_words m_bitmap m_stats] in H.
  destruct (Z.eqb_spec ((st + sh) `mod` al) 0) as [Em|]; cbn [stk_assert] in H; [|done].
  pose proof (build_loop_chain (st + sh) bs (Z.to_nat cap) Hbs0 ltac:(lia) words nullptr [] eq_refl) as Hch.
  destruct (build_loop _ _ _ _ _) as [words' fl]. cbn in H. injection H as <-. unfold reset_stats. cbn.
  split_and!; try done; try lia.
  - split; cbn; try done; try lia.
  - rewrite <- (app_nil_r (block_list _ _ _)). apply Hch. by intros x ?%not_elem_of_nil.
  - by intros ->.
Qed.

(** Aligned storage of the required size is enough for all the blocks. *)
Lemma fit_loop_all n bs usable : Z.of_nat n * bs + BitmapBytes (Z.of_nat n) ≤ usable → fit_loop n bs usable = n.
Proof. destruct n as [|n]; [done|]. intros H. cbn [fit_loop]. destruct (Z.gtb_spec (Z.of_nat (S n) * bs + BitmapBytes (Z.of_nat (S n))) usable); [lia|done]. Qed.
Lemma align_here st al k : al = 2 ^ k → 0 ≤ k → 0 ≤ st → st + (al - 1) < 2 ^ WB → st `mod` al = 0 → Z.land (uw (st + (al - 1))) (unot (al - 1)) = st.
Proof using HWB.
  intros Ea Hk Hst Htop Hm. assert (Hal : 0 < al) by (rewrite Ea; by apply Z.pow_pos_nonneg). rewrite uw_small by lia. rewrite Ea, mask_down, <- Ea by lia.
  pose proof (Z.div_mod st al ltac:(lia)). replace (st + (al - 1)) with (st / al * al + (al - 1)) by lia.
  rewrite Z.div_add_l, (Z.div_small (al - 1)) by lia. lia.
Qed.
Lemma ctor_full cap raw st ss al words : ArgsValid cap raw al (AlignBlockSize raw al) = true → al < 2 ^ WB → 0 < st → st `mod` al = 0 → st + ss < 2 ^ WB →
  ss = cap * AlignBlockSize raw al + BitmapBytes cap → ∃ p, BlockMemoryPool_ctor cap raw st ss al words = Ok p ∧ IsStorageValid p = true.
Proof using HWB.
  intros Ha Hlt Hst Hm Htop Es. unfold BlockMemoryPool_ctor, Setup. cbv zeta. cbn [m_storage m_capacity m_block_size m_storage_size m_block_align m_words].
  rewrite Ha. unfold ArgsValid in Ha. rewrite !andb_true_iff in Ha. destruct Ha as [[[[A1 A2] A3] A4] A5].
  rewrite (proj2 (Z.eqb_neq st nullptr)) by (unfold nullptr; lia). rewrite A1, A2, A3, A4. cbn [negb stk_assert andb].
  unfold IsValidAlignment in A4. apply andb_true_iff in A4 as [A4 A6%Z.eqb_eq]. apply Z.geb_le in A4, A5. apply Z.gtb_lt in A1, A3. apply Z.leb_le in A2.
  assert (Hal : 0 < al). { unfold PTR_SIZE in A4. pose proof (Z.div_le_lower_bound WB 8 1). lia. }
  destruct (one_bit al Hal A6) as (k & Hk & Ek). destruct (align_size raw al k Ek Hk) as [Hbs Hbs0]. set (bs := AlignBlockSize raw al) in *.
  assert (Hal2 : al ≤ bs) by apply Z.le_max_l. pose proof (BitmapBytes_nonneg cap ltac:(lia)).
  rewrite (align_here st al k) by (done || nia). rewrite Z.sub_diag. change (uw 0) with (0 `mod` 2 ^ WB). rewrite Z.mod_0_l by lia.
  rewrite (proj2 (Z.gtb_lt ss 0)), Z.sub_0_r, Z.add_0_r by nia.
  assert (Hdiv : cap ≤ ss / bs) by (apply Z.div_le_lower_bound; [lia|nia]).
  assert (En : (if ss / bs >? cap then cap else ss / bs) = cap) by (destruct (Z.gtb_spec (ss / bs) cap); lia). rewrite En.
  rewrite fit_loop_all by (rewrite Z2Nat.id by lia; lia). rewrite Z2Nat.id, Z.eqb_refl, (proj2 (Z.gtb_lt cap 0)) by lia. cbn [stk_assert].
  unfold BuildFreeList. cbn [m_storage m_blocks m_capacity m_block_size m_storage_size m_block_align m_words m_bitmap m_stats]. rewrite Hm. cbn [Z.eqb stk_assert].
  destruct (build_loop _ _ _ _ _) as [words' fl]. cbn [mbind res_bind]. eexists. split; [done|]. unfold IsStorageValid, reset_stats. cbn.
  rewrite (proj2 (Z.eqb_neq st nullptr)), (proj2 (Z.eqb_neq cap 0)) by (unfold nullptr; lia). done.
Qed.

(** ** The bitmap of allocated blocks *)

Definition bm_bit (bm : list Z) (i : Z) : bool := match bm !! Z.to_nat (i / 8) with Some b => Z.testbit b (i mod 8) | None => false end.

Lemma test_bit b k : 0 ≤ k → negb (Z.land b (Z.shiftl 1 k) =? 0) = Z.testbit b k.
Proof.
  intros Hk. rewrite Z.shiftl_1_l. destruct (Z.testbit b k) eqn:E.
  - apply negb_true_iff, Z.eqb_neq. intros E0. assert (H : Z.testbit (Z.land b (2 ^ k)) k = true) by (by rewrite Z.land_spec, E, Z.pow2_bits_true).
    by rewrite E0, Z.bits_0 in H.
  - apply negb_false_iff, Z.eqb_eq. apply Z.bits_inj'. intros n Hn. rewrite Z.land_spec, Z.bits_0, Z.pow2_bits_eqb by done.
    destruct (Z.eqb_spec k n) as [<-|]; [by rewrite E|apply andb_false_r].
Qed.
Lemma index_split i : 0 ≤ i → Z.shiftr i 3 = i / 8 ∧ Z.land i 7 = i mod 8.
Proof. intros. split; [by rewrite Z.shiftr_div_pow2|]. change 7 with (Z.ones 3). by rewrite Z.land_ones. Qed.
Lemma same_index i j : 0 ≤ i → 0 ≤ j → Z.to_nat (i / 8) = Z.to_nat (j / 8) → i mod 8 = j mod 8 → i = j.
Proof.
  intros Hi Hj E1 E2. assert (i / 8 = j / 8). { apply Z2Nat.inj; [apply Z.div_pos; lia..|done]. }
  pose proof (Z.div_mod i 8). pose proof (Z.div_mod j 8). lia.
Qed.

Lemma byte_of p i : 0 ≤ i → (Z.to_nat (i / 8) < length (m_bitmap p))%nat →
  ∃ b, m_bitmap p !! Z.to_nat (i / 8) = Some b ∧ byte_at p i = Ok b.
Proof.
  intros Hi Hl. destruct (lookup_lt_is_Some_2 _ _ Hl) as [b Hb]. exists b. split; [done|].
  unfold byte_at. destruct (index_split i Hi) as [-> _]. by rewrite Hb.
Qed.
Lemma BitmapTest_ok p i : 0 ≤ i → (Z.to_nat (i / 8) < length (m_bitmap p))%nat → BitmapTest p i = Ok (bm_bit (m_bitmap p) i).
Proof.
  intros Hi Hl. destruct (byte_of p i Hi Hl) as (b & Hb & E). unfold BitmapTest. rewrite E. cbn [mbind res_bind].
  destruct (index_split i Hi) as [_ ->]. unfold bm_bit. rewrite Hb, test_bit; [done|]. apply Z.mod_pos_bound. lia.
Qed.
(** A new byte [f b] in which bit [i mod 8] has become [v]. *)
Lemma bm_bit_update bm i b b' (v : bool) : 0 ≤ i → bm !! Z.to_nat (i / 8) = Some b →
  (∀ k, 0 ≤ k < 8 → Z.testbit b' k = if k =? i mod 8 then v else Z.testbit b k) →
  ∀ j, 0 ≤ j → bm_bit (<[Z.to_nat (i / 8) := b']> bm) j = if i =? j then v else bm_bit bm j.
Proof.
  intros Hi Hb Hk j Hj. unfold bm_bit. destruct (decide (Z.to_nat (i / 8) = Z.to_nat (j / 8))) as [E|E].
  - rewrite <- E, list_lookup_insert_eq, Hb by (by eapply lookup_lt_Some). rewrite Hk by (apply Z.mod_pos_bound; lia).
    destruct (Z.eqb_spec (j mod 8) (i mod 8)) as [Em|Em].
    + rewrite (proj2 (Z.eqb_eq i j)); [done|]. by apply same_index.
    + rewrite (proj2 (Z.eqb_neq i j)); [done|]. by intros ->.
  - rewrite list_lookup_insert_ne by done. rewrite (proj2 (Z.eqb_neq i j)); [done|]. by intros ->.
Qed.
Lemma BitmapSet_ok p i : 0 ≤ i → (Z.to_nat (i / 8) < length (m_bitmap p))%nat →
  ∃ b, BitmapSet p i = Ok (set_byte p i b) ∧ ∀ j, 0 ≤ j → bm_bit (m_bitmap (set_byte p i b)) j = if i =? j then true else bm_bit (m_bitmap p) j.
Proof.
  intros Hi Hl. destruct (byte_of p i Hi Hl) as (b & Hb & E). unfold BitmapSet. rewrite E. cbn [mbind res_bind].
  destruct (index_split i Hi) as [E1 E2]. eexists. split; [done|]. cbn [set_byte m_bitmap]. rewrite E1, E2.
  apply (bm_bit_update _ i b); [done|done|]. intros k Hk. rewrite Z.lor_spec, Z.shiftl_1_l, Z.pow2_bits_eqb by (apply Z.mod_pos_bound; lia).
  rewrite (Z.eqb_sym k). destruct (_ =? k); [apply orb_true_r|apply orb_false_r].
Qed.
Lemma BitmapClear_ok p i : 0 ≤ i → (Z.to_nat (i / 8) < length (m_bitmap p))%nat →
  ∃ b, BitmapClear p i = Ok (set_byte p i b) ∧ ∀ j, 0 ≤ j → bm_bit (m_bitmap (set_byte p i b)) j = if i =? j then false else bm_bit (m_bitmap p) j.
Proof.
  intros Hi Hl. destruct (byte_of p i Hi Hl) as (b & Hb & E). unfold BitmapClear. rewrite E. cbn [mbind res_bind].
  destruct (index_split i Hi) as [E1 E2]. eexists. split; [done|]. cbn [set_byte m_bitmap]. rewrite E1, E2.
  apply (bm_bit_update _ i b); [done|done|]. intros k Hk. change 255 with (Z.ones 8).
  rewrite !Z.land_spec, Z.lnot_spec, Z.testbit_ones_nonneg, Z.shiftl_1_l, Z.pow2_bits_eqb by (lia || (apply Z.mod_pos_bound; lia)).
  rewrite (proj2 (Z.ltb_lt k 8)), andb_true_r, (Z.eqb_sym k) by lia. destruct (_ =? k); [apply andb_false_r|apply andb_true_r].
Qed.

(** ** The invariant *)

Record pool_inv (live : list Z) (p : BlockMemoryPool) : Prop := {
  pi_geom : geom p;
  pi_free : ∃ free, chain (m_words p) (m_free_list p) free ∧
    free ++ live ≡ₚ block_list (m_blocks p) (m_block_size p) (Z.to_nat (m_capacity p));
  pi_used : m_used_count p = Z.of_nat (length live);
  pi_bytes : allocated (m_stats p) = m_used_count p * m_block_size p;
  pi_bitmap : BITMAP = true → Z.of_nat (length (m_bitmap p)) = BitmapBytes (m_capacity p) ∧
    ∀ i, 0 ≤ i < m_capacity p → bm_bit (m_bitmap p) i = bool_decide (m_blocks p + i * m_block_size p ∈ live);
}.

Lemma pool_perm live p free : pool_inv live p → free ++ live ≡ₚ block_list (m_blocks p) (m_block_size p) (Z.to_nat (m_capacity p)) →
  NoDup (free ++ live) ∧ Z.of_nat (length free) + Z.of_nat (length live) = m_capacity p.
Proof.
  intros [Hg _ _ _ _] Hp. split; [rewrite Hp; apply NoDup_blocks, Hg|]. apply Permutation_length in Hp.
  rewrite length_app in Hp. unfold block_list in Hp. rewrite length_fmap, length_seq in Hp. pose proof (ge_cap _ Hg). lia.
Qed.
(** A block and its index. *)
Lemma block_index live p x : pool_inv live p → x ∈ block_list (m_blocks p) (m_block_size p) (Z.to_nat (m_capacity p)) →
  let i := (x - m_blocks p) / m_block_size p in x = m_blocks p + i * m_block_size p ∧ 0 ≤ i < m_capacity p ∧
  (BITMAP = true → (Z.to_nat (i / 8) < length (m_bitmap p))%nat).
Proof.
  intros [Hg _ _ _ Hbm] (i & -> & Hi)%elem_of_blocks. cbv zeta. pose proof (ge_size _ Hg). pose proof (ge_cap _ Hg).
  replace ((m_blocks p + Z.of_nat i * m_block_size p - m_blocks p) / m_block_size p) with (Z.of_nat i).
  2: { rewrite Z.add_simpl_l. by rewrite Z.div_mul by lia. }
  split_and!; [done|lia|lia|]. intros HB. destruct (Hbm HB) as [Hl _]. unfold BitmapBytes in Hl. rewrite HB in Hl.
  assert (Z.of_nat i / 8 < (m_capacity p + 7) / 8).
  { apply Z.div_lt_upper_bound; [lia|]. pose proof (Z.div_mod (m_capacity p + 7) 8). pose proof (Z.mod_pos_bound (m_capacity p + 7) 8). lia. }
  pose proof (Z.div_pos (Z.of_nat i) 8). lia.
Qed.

(** Everything that does not change after construction. *)
Definition shape (p : BlockMemoryPool) : Z * Z * Z * Z * Z * Z :=
  (m_storage p, m_blocks p, m_storage_size p, m_block_size p, m_block_align p, m_capacity p).
Lemma geom_shape p p' : shape p' = shape p → geom p → geom p'.
Proof. intros [= E1 E2 E3 E4 E5 E6] []. split; rewrite ?E1, ?E2, ?E3, ?E4, ?E5, ?E6; done. Qed.

(** The new bitmap, if there is one. *)
Lemma mark_ok live p p1 x (v : bool) (op : BlockMemoryPool → Z → res BlockMemoryPool) (live' : list Z) :
  pool_inv live p → shape p1 = shape p → m_bitmap p1 = m_bitmap p → x ∈ block_list (m_blocks p) (m_block_size p) (Z.to_nat (m_capacity p)) →
  (∀ q i, 0 ≤ i → (Z.to_nat (i / 8) < length (m_bitmap q))%nat → ∃ b, op q i = Ok (set_byte q i b) ∧
     ∀ j, 0 ≤ j → bm_bit (m_bitmap (set_byte q i b)) j = if i =? j then v else bm_bit (m_bitmap q) j) →
  (∀ y, y ∈ live' ↔ if decide (y = x) then v = true else y ∈ live) →
  ∃ bm, (if BITMAP then op p1 ((x - m_blocks p) / m_block_size p) else Ok p1) =
    Ok (mkPool (m_storage p1) (m_blocks p1) bm (m_free_list p1) (m_words p1) (m_storage_size p1) (m_block_size p1) (m_block_align p1)
          (m_capacity p1) (m_used_count p1) (m_stats p1)) ∧
    (BITMAP = true → Z.of_nat (length bm) = BitmapBytes (m_capacity p) ∧
       ∀ i, 0 ≤ i < m_capacity p → bm_bit bm i = bool_decide (m_blocks p + i * m_block_size p ∈ live')).
Proof.
  intros Hp Es Eb Hx Hop Hl. destruct (block_index live p x Hp Hx) as (Ex & Hi & Hlen). set (i := (x - m_blocks p) / m_block_size p) in *.
  destruct BITMAP eqn:HB; [|exists (m_bitmap p1); split; [by destruct p1|done]]. destruct (Hop p1 i) as (b & -> & Hbit); [lia|rewrite Eb; auto|].
  eexists. split; [done|]. intros _. destruct (pi_bitmap _ _ Hp HB) as [Hn Hbm]. cbn [set_byte m_bitmap] in Hbit. rewrite Eb in *. split; [by rewrite length_insert|].
  intros j Hj. rewrite Hbit by lia. rewrite (Hbm j Hj). pose proof (ge_size _ (pi_geom _ _ Hp)). destruct (Z.eqb_spec i j) as [<-|Hne].
  - rewrite <- Ex. destruct v; symmetry; [apply bool_decide_eq_true_2|apply bool_decide_eq_false_2]; rewrite Hl, decide_True by done; done.
  - apply bool_decide_ext. rewrite Hl, decide_False; [done|]. rewrite Ex. nia.
Qed.

Lemma pop_inv live p : pool_inv live p → m_free_list p ≠ nullptr →
  ∃ b p', PopFreeList p = Ok (b, p') ∧ pool_inv (b :: live) p' ∧ b ∉ live ∧ shape p' = shape p.
Proof using HWB.
  intros Hp Hne. pose proof Hp as [Hg (free & Hc & Hperm) Hu Hby Hbm]. destruct (pool_perm live p free Hp Hperm) as [Hnd Hlen].
  destruct free as [|x free]; [done|]. destruct Hc as (Efl & Hnn & nx & Hnx & Hc). unfold PopFreeList.
  rewrite (proj2 (Z.ltb_lt _ _)) by (cbn in Hlen; lia). cbn [stk_assert]. rewrite Efl, Hnx. cbn [deref mbind res_bind].
  set (p1 := mkPool _ _ _ nx _ _ _ _ _ _ _).
  assert (Hx : x ∈ block_list (m_blocks p) (m_block_size p) (Z.to_nat (m_capacity p))) by (rewrite <- Hperm; left).
  destruct (mark_ok live p p1 x true BitmapSet (x :: live) Hp) as (bm & E & Hbm'); [done|done|done|intros; by apply BitmapSet_ok| |].
  { intros y. rewrite elem_of_cons. case_decide; naive_solver. }
  change (m_block_size p1) with (m_block_size p). change (m_blocks p1) with (m_blocks p). rewrite E. cbn [mbind res_bind].
  eexists x, _. split; [done|]. split; [|split; [|done]].
  2: { apply NoDup_app in Hnd as (_ & H & _). by apply H; left. }
  assert (Hnd' : x ∉ free) by (cbn in Hnd; apply NoDup_cons in Hnd as [H _]; rewrite elem_of_app in H; tauto).
  split; cbn; try done.
  - by apply (geom_shape p).
  - exists free. split; [destruct CHECKS; [by apply chain_frame|done]|]. rewrite <- Hperm. by rewrite <- Permutation_middle.
  - cbn in Hlen |- *. lia.
  - rewrite Hby. unfold uw. pose proof (ge_high _ Hg). pose proof (ge_top _ Hg). pose proof (ge_size _ Hg). pose proof (ge_low _ Hg). pose proof (ge_blocks _ Hg).
    pose proof (BitmapBytes_nonneg (m_capacity p)). pose proof (ge_cap _ Hg). cbn in Hlen. rewrite Z.mod_small; [lia|]. nia.
Qed.

Lemma free_inv live p ptr : pool_inv live p → NoDup live → ptr ∈ live →
  ∃ p1 p2, Free_check ptr p = Ok p1 ∧ Free_link ptr p1 = Ok p2 ∧ pool_inv (list_remove1 ptr live) p2 ∧ shape p2 = shape p ∧
    m_free_list p2 ≠ nullptr.
Proof.
  intros Hp Hnd Hin. pose proof Hp as [Hg (free & Hc & Hperm) Hu Hby Hbm]. destruct (pool_perm live p free Hp Hperm) as [Hnd2 Hlen].
  assert (Hx : ptr ∈ block_list (m_blocks p) (m_block_size p) (Z.to_nat (m_capacity p))) by (rewrite <- Hperm; apply elem_of_app; by right).
  assert (Hnf : ptr ∉ free) by (intros Hf; apply NoDup_app in Hnd2 as (_ & H & _); by apply (H ptr)).
  assert (Hnz : ptr ≠ nullptr). { apply elem_of_blocks in Hx as (i & -> & _). pose proof (ge_blocks _ Hg). pose proof (ge_size _ Hg). unfold nullptr. nia. }
  pose proof (ge_size _ Hg) as Hsz. assert (Hll : (0 < length live)%nat) by (destruct live; [by apply not_elem_of_nil in Hin|cbn; lia]).
  destruct (mark_ok live p p ptr false BitmapClear (list_remove1 ptr live) Hp) as (bm & E & Hbm'); [done|done|done|intros; by apply BitmapClear_ok| |].
  { intros y. rewrite elem_of_remove1. case_decide; naive_solver. }
  set (p1 := mkPool (m_storage p) (m_blocks p) bm (m_free_list p) (m_words p) (m_storage_size p) (m_block_size p) (m_block_align p) (m_capacity p) (m_used_count p) (m_stats p)) in *.
  assert (Hchk : Free_check ptr p = Ok p1).
  { unfold Free_check. destruct (block_index live p ptr Hp Hx) as (Ei & Hi & Hl). destruct BITMAP eqn:HB.
    - rewrite BitmapTest_ok by (lia || auto). destruct (Hbm eq_refl) as [_ ->]; [|done]. rewrite <- Ei, bool_decide_eq_true_2 by done. exact E.
    - rewrite E. destruct CHECKS; [|done]. rewrite (chain_walk _ ptr free) by (done || lia). rewrite bool_decide_eq_false_2 by done. done. }
  exists p1. unfold Free_link, RecordFree. cbn [p1 m_block_size m_stats]. rewrite (proj2 (Z.geb_le _ _)) by (rewrite Hby, Hu; nia). cbn [stk_assert mbind res_bind].
  eexists. split; [exact Hchk|]. split; [done|]. split; [|done].
  pose proof (remove1_length ptr live Hin Hnd). split; cbn [m_words m_free_list m_blocks m_block_size m_capacity m_used_count m_stats allocated m_bitmap p1]; try done.
  - by apply (geom_shape p).
  - exists (ptr :: free). split; [|rewrite <- Hperm; cbn; by rewrite (remove1_perm ptr live) at 2 by done; rewrite Permutation_middle].
    split; [done|]. split; [done|]. exists (m_free_list p). rewrite lookup_insert_eq. split; [done|]. by apply chain_frame.
  - lia.
  - rewrite Hby. lia.
Qed.

(** ** Runs *)

(** The blocks the program holds. *)
Definition live_step (live : list Z) (l : label prim) : list Z :=
  match l with
  | LCall _ (CTimedAllocEx _) (Some (RAlloc WAIT_RESULT_SIGNAL b)) => b :: live
  | LResume _ _ _ (Some (RAlloc WAIT_RESULT_SIGNAL b)) => b :: live
  | LCall _ (CFree ptr) (Some (RFree true)) => list_remove1 ptr live
  | _ => live
  end.
Definition live (tr : list (label prim)) : list Z := foldl live_step [] tr.
Lemma live_snoc tr l : live (tr ++ [l]) = live_step (live tr) l.
Proof. unfold live. by rewrite foldl_app. Qed.

(** The program frees and writes only blocks it holds, and an interrupt handler
    does not wait. *)
Definition pool_pre (tr : list (label prim)) (cx : ctx) (c : call) : Prop :=
  match c with
  | CTimedAllocEx to => c_isr cx = false ∨ to = NO_WAIT
  | CFree ptr => ptr ∈ live tr
  | CWrite ptr _ => ptr ∈ live tr
  end.

(** Free blocks beside waiting tasks have tasks on their way; [k] counts the one
    that is running. *)
Definition wake_ok (k : Z) (m : M) (susp : gmap Z pc) : Prop :=
  wait_list 0 m ≠ [] → GetFreeCount (fields m) ≤ flight (P := prim) 0 m susp + k.

Lemma free_count_eq L p free : pool_inv L p → free ++ L ≡ₚ block_list (m_blocks p) (m_block_size p) (Z.to_nat (m_capacity p)) →
  GetFreeCount p = Z.of_nat (length free).
Proof. intros Hp Hf. destruct (pool_perm L p free Hp Hf) as [_ H]. unfold GetFreeCount. rewrite (pi_used _ _ Hp). lia. Qed.
Lemma no_free L p : pool_inv L p → m_free_list p = nullptr → GetFreeCount p = 0.
Proof.
  intros Hp E. destruct (pi_free _ _ Hp) as (free & Hc & Hf). rewrite (free_count_eq L p free Hp Hf).
  destruct free; [done|]. destruct Hc as (E1 & ? & _). congruence.
Qed.

(** The end of an allocation. *)
Lemma alloc_end_inv L (m : M) r : pool_inv L (fields m) → (r = WAIT_RESULT_SIGNAL → m_free_list (fields m) ≠ nullptr) →
  ∃ m' r' b, alloc_end r m = Ok (m', Done (RAlloc r' b)) ∧ lists m' = lists m ∧ woken m' = woken m ∧ shape (fields m') = shape (fields m) ∧
    (r' = WAIT_RESULT_SIGNAL ∧ pool_inv (b :: L) (fields m') ∧ b ∉ L ∨
     r' ≠ WAIT_RESULT_SIGNAL ∧ pool_inv L (fields m') ∧ (r' = r ∧ r ≠ WAIT_RESULT_TIMEOUT ∨ m_free_list (fields m) = nullptr)).
Proof using HWB.
  intros Hp Hr. unfold alloc_end. cbv zeta.
  assert (Hpop : m_free_list (fields m) ≠ nullptr → ∃ m' r' b,
    ('(blk, p) ← PopFreeList (fields m); Ok (set_fields p m, Done (P := pc) (RAlloc WAIT_RESULT_SIGNAL blk))) = Ok (m', Done (RAlloc r' b)) ∧
    lists m' = lists m ∧ woken m' = woken m ∧ shape (fields m') = shape (fields m) ∧ (r' = WAIT_RESULT_SIGNAL ∧ pool_inv (b :: L) (fields m') ∧ b ∉ L ∨
     r' ≠ WAIT_RESULT_SIGNAL ∧ pool_inv L (fields m') ∧ (r' = r ∧ r ≠ WAIT_RESULT_TIMEOUT ∨ m_free_list (fields m) = nullptr))).
  { intros Hf. destruct (pop_inv L _ Hp Hf) as (b & p' & -> & Hp' & Hb & Hs). cbn [mbind res_bind].
    exists (set_fields p' m), WAIT_RESULT_SIGNAL, b. split_and!; try done. left. done. }
  destruct (Z.eqb_spec (m_free_list (fields m)) nullptr) as [E|E]; cbn [negb].
  - rewrite andb_false_r. destruct r; try (exists m; eexists _, _; split_and!; done || (right; split_and!; done || by left)).
    + by apply Hpop, Hr.
    + eexists _, _, _. split; [done|]. split_and!; [done..|]. right. split_and!; [done| |by right]. by destruct Hp as [[] ? ? ? ?].
  - rewrite andb_true_r. case_bool_decide as Ht; [by apply Hpop|].
    destruct r; try done; try (exists m; eexists _, _; split_and!; done || (right; split_and!; done || by left)). by apply Hpop.
Qed.
(** An allocation that does not wait. *)
Lemma try_block L (m : M) cx : pool_inv L (fields m) →
  ∃ m' r b, TimedAllocEx cx NO_WAIT m = Ok (m', Done (RAlloc r b)) ∧ shape (fields m') = shape (fields m) ∧
    (r = WAIT_RESULT_SIGNAL ∧ pool_inv (b :: L) (fields m') ∧ b ∉ L ∨ r ≠ WAIT_RESULT_SIGNAL ∧ pool_inv L (fields m')).
Proof using HWB.
  intros Hp. pose proof (pi_geom _ _ Hp) as Hg. unfold TimedAllocEx, IsStorageValid. change (NO_WAIT =? NO_WAIT) with true. cbn [negb andb].
  pose proof (ge_blocks _ Hg). pose proof (ge_cap _ Hg). rewrite !(proj2 (Z.eqb_neq _ _)) by (unfold nullptr; lia). cbn [negb andb].
  unfold alloc_loop. change (NO_WAIT =? NO_WAIT) with true. cbv iota. destruct (Z.eqb_spec (m_free_list (fields m)) nullptr) as [E|E].
  - destruct (alloc_end_inv L m WAIT_RESULT_TIMEOUT Hp ltac:(done)) as (m' & r & b & -> & _ & _ & Hs & [?|(? & ? & _)]); eauto 10.
  - destruct (alloc_end_inv L m WAIT_RESULT_SIGNAL Hp ltac:(done)) as (m' & r & b & -> & _ & _ & Hs & [?|(? & ? & _)]); eauto 10.
Qed.
Lemma wake_same k (m m' : M) (susp : gmap Z pc) d : lists m' = lists m → woken m' = woken m → wake_ok k m susp →
  GetFreeCount (fields m') ≤ GetFreeCount (fields m) - d → wake_ok (k - d) m' susp.
Proof.
  intros E1 E2 Hw Hd. unfold wake_ok, wait_list in *. rewrite E1. intros Hne. specialize (Hw Hne).
  assert (Ef : flight (P := prim) 0 m' susp = flight (P := prim) 0 m susp) by (by apply (flight_same (P := prim))). rewrite Ef. lia.
Qed.

(** What an allocation leaves behind, for a task [t] that was not blocked. *)
Definition alloc_post (L : list Z) (t : Z) (m m' : M) (susp : gmap Z pc) (o : outcome pc ret) : Prop :=
  shape (fields m') = shape (fields m) ∧
  match o with
  | Done (RAlloc WAIT_RESULT_SIGNAL b) => pool_inv (b :: L) (fields m') ∧ b ∉ L ∧ wake_ok 0 m' susp
  | Done (RAlloc _ _) => pool_inv L (fields m') ∧ wake_ok 0 m' susp
  | Done _ => False
  | Blocked _ p => pool_inv L (fields m') ∧ wake_ok 0 (AddWaitObject 0 t m') (<[t := p]> susp)
  end.

Lemma free_count_inv L p : pool_inv L p → GetFreeCount p = m_capacity p - Z.of_nat (length L).
Proof. intros Hp. unfold GetFreeCount. by rewrite (pi_used _ _ Hp). Qed.

Lemma alloc_end_post L (m : M) (susp : gmap Z pc) t k r : pool_inv L (fields m) → wake_ok k m susp → 0 ≤ k ≤ 1 →
  (r = WAIT_RESULT_SIGNAL → m_free_list (fields m) ≠ nullptr) → (k = 1 → r = WAIT_RESULT_SIGNAL ∨ r = WAIT_RESULT_TIMEOUT) →
  ∃ m' o, alloc_end r m = Ok (m', o) ∧ alloc_post L t m m' susp o.
Proof using HWB.
  intros Hp Hw Hk Hr Hkr. destruct (alloc_end_inv L m r Hp Hr) as (m' & r' & b & E & E1 & E2 & Es & Hcase).
  exists m', (Done (RAlloc r' b)). split; [done|]. split; [done|]. pose proof Es as [= _ _ _ _ _ Ecap].
  destruct Hcase as [(-> & Hp' & Hb)|(Hne & Hp' & Hc)].
  - split_and!; [done|done|]. assert (Hf : GetFreeCount (fields m') ≤ GetFreeCount (fields m) - 1).
    { rewrite (free_count_inv _ _ Hp), (free_count_inv _ _ Hp'), Ecap. cbn [length]. lia. }
    pose proof (wake_same k m m' susp 1 E1 E2 Hw Hf) as H. intros Hne. specialize (H Hne). lia.
  - assert (Hf : GetFreeCount (fields m') = GetFreeCount (fields m)) by (by rewrite (free_count_inv _ _ Hp), (free_count_inv _ _ Hp'), Ecap).
    assert (Hw' : wake_ok 0 m' susp).
    { destruct Hc as [[-> Ht]|Hz].
      - assert (k = 0) as ->. { destruct (decide (k = 1)) as [->|]; [destruct (Hkr eq_refl); done|lia]. }
        apply (wake_same 0 m m' susp 0); try done. lia.
      - intros _. rewrite Hf, (no_free L _ Hp Hz). pose proof (flight_nonneg (P := prim) 0 m' susp). lia. }
    destruct r'; done.
Qed.

Lemma alloc_loop_post L (m : M) (susp : gmap Z pc) cx k to d : wf_parts (P := prim) m susp → (c_isr cx = false → susp !! c_tid cx = None) →
  c_isr cx = false ∨ to = NO_WAIT → pool_inv L (fields m) → wake_ok k m susp → 0 ≤ k ≤ 1 →
  ∃ m' o, alloc_loop cx to d m = Ok (m', o) ∧ alloc_post L (c_tid cx) m m' susp o.
Proof using HWB.
  intros Hwf Hn Hisr Hp Hw Hk. unfold alloc_loop. destruct (Z.eqb_spec (m_free_list (fields m)) nullptr) as [E|E].
  - assert (Hend : ∃ m' o, alloc_end WAIT_RESULT_TIMEOUT m = Ok (m', o) ∧ alloc_post L (c_tid cx) m m' susp o).
    { eapply alloc_end_post; eauto. }
    destruct (Z.eqb_spec to NO_WAIT) as [|Hto]; [done|]. cbv zeta. destruct (is_timed to && _); [done|].
    destruct Hisr as [Hisr|]; [|done]. unfold CV_WaitEx. rewrite Hisr. destruct (negb (_ =? NO_WAIT)); cbn [negb stk_assert mbind res_bind]; [|done].
    eexists _, _. split; [done|]. split; [done|]. split; [done|]. intros _. cbn [fields AddWaitObject]. rewrite (no_free L _ Hp E).
    pose proof (flight_nonneg (P := prim) 0 (AddWaitObject 0 (c_tid cx) m) (<[c_tid cx := mkPc to d]> susp)). lia.
  - eapply alloc_end_post; eauto.
Qed.

Lemma free_fields L (m : M) ptr : pool_inv L (fields m) → NoDup L → ptr ∈ L →
  ∃ p2, Free ptr m = Ok (WakeOne 0 (set_fields p2 m), true) ∧ pool_inv (list_remove1 ptr L) p2 ∧ shape p2 = shape (fields m).
Proof.
  intros Hp Hnd Hin. pose proof (pi_geom _ _ Hp) as Hg. destruct (pi_free _ _ Hp) as (free & _ & Hperm).
  assert (Hx : ptr ∈ block_list (m_blocks (fields m)) (m_block_size (fields m)) (Z.to_nat (m_capacity (fields m)))) by (rewrite <- Hperm; apply elem_of_app; by right).
  apply elem_of_blocks in Hx as (i & Ei & Hi). pose proof (ge_size _ Hg). pose proof (ge_cap _ Hg). pose proof (ge_blocks _ Hg). pose proof (ge_high _ Hg). pose proof (ge_top _ Hg).
  pose proof (BitmapBytes_nonneg (m_capacity (fields m))). assert (Hll : (0 < length L)%nat) by (destruct L; [by apply not_elem_of_nil in Hin|cbn; lia]).
  unfold Free. cbv zeta. assert (ptr ≠ nullptr) by (unfold nullptr; nia). rewrite !(proj2 (Z.eqb_neq _ nullptr)) by (done || (unfold nullptr; lia)). cbn [negb andb].
  unfold uw. rewrite Z.mod_small by nia. rewrite (proj2 (Z.ltb_ge _ _)) by nia.
  assert (Hhi : (ptr >=? m_blocks (fields m) + m_capacity (fields m) * m_block_size (fields m)) = false) by (rewrite Z.geb_leb; apply Z.leb_gt; nia).
  rewrite Hhi. cbn [orb negb stk_assert]. replace ((ptr - m_blocks (fields m)) `mod` m_block_size (fields m)) with 0.
  2: { rewrite Ei, Z.add_simpl_l, Z.mod_mul by lia. done. }
  rewrite (pi_used _ _ Hp), (proj2 (Z.eqb_neq (Z.of_nat (length L)) 0)) by lia. cbn [negb stk_assert Z.eqb].
  destruct (free_inv L (fields m) ptr Hp Hnd Hin) as (p1 & p2 & -> & E2 & Hp2 & Hs & _). cbn [mbind res_bind]. rewrite E2. cbn [mbind res_bind].
  by exists p2.
Qed.
Lemma free_post L (m : M) (susp : gmap Z pc) ptr : wf_parts (P := prim) m susp → pool_inv L (fields m) → NoDup L → ptr ∈ L → wake_ok 0 m susp →
  ∃ m', Free ptr m = Ok (m', true) ∧ pool_inv (list_remove1 ptr L) (fields m') ∧ wake_ok 0 m' susp ∧ shape (fields m') = shape (fields m).
Proof.
  intros Hwf Hp Hnd Hin Hw. destruct (free_fields L m ptr Hp Hnd Hin) as (p2 & -> & Hp2 & Hs).
  eexists. split; [done|]. rewrite fields_WakeOne. split_and!; [done| |done]. unfold wake_ok. rewrite fields_WakeOne, wait_list_WakeOne, decide_True by done.
  cbn [fields set_fields]. intros Hne. assert (Hne0 : wait_list 0 m ≠ []) by (change (wait_list 0 (set_fields p2 m)) with (wait_list 0 m) in Hne; by destruct (wait_list 0 m)).
  specialize (Hw Hne0). assert (Hwf2 : wf_parts (P := prim) (set_fields p2 m) susp) by (by apply (wf_same (P := prim) m)).
  assert (Ef : flight (P := prim) 0 (WakeOne 0 (set_fields p2 m)) susp = flight (P := prim) 0 m susp + 1).
  { etransitivity; [exact (flight_WakeOne (P := prim) 0 0 (set_fields p2 m) susp Hwf2)|].
    rewrite (bool_decide_eq_true_2 (0%nat = 0%nat)), (bool_decide_eq_true_2 (_ ≠ [])) by done. done. }
  rewrite Ef. pose proof (remove1_length ptr L Hin Hnd). pose proof Hs as [= _ _ _ _ _ Ecap]. rewrite (free_count_inv _ _ Hp2), Ecap.
  rewrite (free_count_inv _ _ Hp) in Hw. lia.
Qed.

(** A pointer that passes the range checks is a block. *)
Lemma checked_block L p ptr : pool_inv L p → m_blocks p ≤ ptr < m_blocks p + m_capacity p * m_block_size p →
  (ptr - m_blocks p) `mod` m_block_size p = 0 → ptr ∈ block_list (m_blocks p) (m_block_size p) (Z.to_nat (m_capacity p)).
Proof.
  intros Hp Hr Hm. pose proof (ge_size _ (pi_geom _ _ Hp)). pose proof (ge_cap _ (pi_geom _ _ Hp)). apply elem_of_blocks.
  pose proof (Z.div_mod (ptr - m_blocks p) (m_block_size p)) as Hd. rewrite Hm in Hd.
  set (i := (ptr - m_blocks p) / m_block_size p) in *. assert (0 ≤ i < m_capacity p) by nia. exists (Z.to_nat i). rewrite Z2Nat.id by lia. split; lia.
Qed.
(** With the bitmap or the checks, freeing anything else fails an assertion. *)
Lemma free_refused L (m : M) ptr : BITMAP || CHECKS = true → pool_inv L (fields m) → ptr ∉ L → ptr ≠ nullptr → Free ptr m = Panic PANIC_ASSERT.
Proof.
  intros Hcfg Hp Hni Hnz. pose proof (pi_geom _ _ Hp) as Hg. pose proof (ge_blocks _ Hg). pose proof (ge_high _ Hg). pose proof (ge_top _ Hg).
  pose proof (ge_size _ Hg). pose proof (ge_cap _ Hg). pose proof (BitmapBytes_nonneg (m_capacity (fields m))).
  unfold Free. cbv zeta. rewrite !(proj2 (Z.eqb_neq _ nullptr)) by (done || (unfold nullptr; lia)). cbn [negb andb].
  unfold uw. rewrite Z.mod_small by nia. destruct (ptr <? _) eqn:E1; [done|]. destruct (ptr >=? _) eqn:E2; [done|]. cbn [orb negb stk_assert].
  destruct (Z.eqb_spec ((ptr - m_blocks (fields m)) `mod` m_block_size (fields m)) 0) as [E3|]; [|done]. cbn [stk_assert].
  destruct (negb (m_used_count (fields m) =? 0)); [|done]. cbn [stk_assert]. apply Z.ltb_ge in E1. rewrite Z.geb_leb in E2. apply Z.leb_gt in E2.
  pose proof (checked_block L (fields m) ptr Hp ltac:(lia) E3) as Hx. destruct (block_index L (fields m) ptr Hp Hx) as (Ei & Hi & Hl).
  destruct (pi_free _ _ Hp) as (free & Hc & Hf). unfold Free_check. destruct BITMAP eqn:HB; cbn [orb] in Hcfg.
  - rewrite BitmapTest_ok by (lia || auto). destruct (pi_bitmap _ _ Hp HB) as [_ ->]; [|done]. rewrite <- Ei, bool_decide_eq_false_2 by done. done.
  - rewrite Hcfg. assert (Hin : ptr ∈ free) by (rewrite <- Hf, elem_of_app in Hx; by destruct Hx). destruct (pool_perm _ _ _ Hp Hf) as [_ Hlen].
    rewrite (chain_walk _ ptr free) by (done || lia). by rewrite bool_decide_eq_true_2.
Qed.

Lemma pool_nodup L p : pool_inv L p → NoDup L.
Proof. intros Hp. destruct (pi_free _ _ Hp) as (free & _ & Hf). destruct (pool_perm L p free Hp Hf) as [H _]. by apply NoDup_app in H as (_ & _ & ?). Qed.
Lemma write_post L (m : M) ptr v : pool_inv L (fields m) → ptr ∈ L → pool_inv L (fields (Write ptr v m)).
Proof.
  intros Hp Hin. pose proof Hp as [Hg (free & Hc & Hf) Hu Hby Hbm]. destruct (pool_perm _ _ _ Hp Hf) as [Hnd _].
  split; cbn; try done; [by apply (geom_shape (fields m))|]. exists free. split; [|done]. apply chain_frame; [|done].
  intros Hx. apply NoDup_app in Hnd as (_ & H & _). by apply (H ptr).
Qed.
Lemma take_wake_ok (m : M) (susp : gmap Z pc) t p r : wake_ok 0 m susp → susp !! t = Some p → woken m !! t = Some r →
  wake_ok (b2z (bool_decide (r = WAIT_RESULT_SIGNAL))) (take_woken t m) (delete t susp).
Proof.
  intros Hw Hp Hr Hne. specialize (Hw Hne). pose proof (flight_take (P := prim) 0 m susp t p r Hp Hr) as Hf.
  change (p_fields prim) with BlockMemoryPool in Hf. rewrite (bool_decide_eq_true_2 (p_cv prim p = 0%nat)) in Hf by done. cbn [andb] in Hf.
  etransitivity; [|apply Z.add_le_mono_r, Z.eq_le_incl; symmetry; exact Hf]. cbn [fields take_woken]. lia.
Qed.
Lemma abort_wake_ok (m : M) (susp : gmap Z pc) t p r : wf_parts (P := prim) m susp → wake_ok 0 m susp → susp !! t = Some p →
  t ∈ wait_list 0 m → r ≠ WAIT_RESULT_SIGNAL → wake_ok 0 (RemoveWaitObject 0 t r m) susp.
Proof.
  intros Hwf Hw Hp Hl Hr. destruct (wf_listed _ _ Hwf _ _ Hl) as (Hn & _). unfold wake_ok. cbn [fields RemoveWaitObject].
  assert (Ef : flight (P := prim) 0 (RemoveWaitObject 0 t r m) susp = flight (P := prim) 0 m susp).
  { etransitivity; [exact (flight_put (P := prim) 0 m (RemoveWaitObject 0 t r m) susp t p r Hp Hn eq_refl)|].
    rewrite (bool_decide_eq_false_2 (r = _)), andb_false_r by done. cbn. lia. }
  rewrite Ef. intros _. apply Hw. intros E. rewrite E in Hl. by apply not_elem_of_nil in Hl.
Qed.

(** Every permitted call and every return from a wait goes through. *)
Lemma enter_post tr (m : M) (susp : gmap Z pc) cx c : wf_parts (P := prim) m susp → pool_inv (live tr) (fields m) → wake_ok 0 m susp →
  (c_isr cx = false → susp !! c_tid cx = None) → pool_pre tr cx c →
  ∃ m' o, enter cx c m = Ok (m', o) ∧ shape (fields m') = shape (fields m) ∧
    let w := finish (P := prim) (c_tid cx) m' o susp in
    pool_inv (live_step (live tr) (LCall (P := prim) (c_tid cx) c (returned (P := prim) o))) (fields (w_mon w)) ∧ wake_ok 0 (w_mon w) (w_susp w).
Proof using HWB.
  intros Hwf Hp Hw Hn Hpre. destruct c as [to|ptr|ptr v]; cbn [enter pool_pre] in *.
  - unfold TimedAllocEx. assert (Hisr : negb (to =? NO_WAIT) && c_isr cx = false).
    { destruct Hpre as [->| ->]; [apply andb_false_r|done]. }
    assert (Hv : IsStorageValid (fields m) = true).
    { pose proof (ge_blocks _ (pi_geom _ _ Hp)). pose proof (ge_cap _ (pi_geom _ _ Hp)). unfold IsStorageValid, nullptr. rewrite !(proj2 (Z.eqb_neq _ 0)) by lia. done. }
    rewrite Hisr, Hv. cbn [negb].
    destruct (alloc_loop_post _ m susp cx 0 to (if is_timed to then c_now cx + to else 0) Hwf Hn Hpre Hp Hw) as (m' & o & -> & Es & Hpost); [lia|].
    exists m', o. split; [done|]. split; [done|]. destruct o as [[[] b| |]|rem p]; cbn in *; tauto.
  - destruct (free_post _ m susp ptr Hwf Hp (pool_nodup _ _ Hp) Hpre Hw) as (m' & -> & Hp' & Hw' & Es). cbn [mbind res_bind]. eexists _, _. split; [done|]. split; [done|]. split; done.
  - eexists _, _. split; [done|]. split; [done|]. split; [|done]. by apply write_post.
Qed.
Lemma resume_post tr (m : M) (susp : gmap Z pc) cx p r : wf_parts (P := prim) m susp → pool_inv (live tr) (fields m) → wake_ok 0 m susp →
  c_isr cx = false → susp !! c_tid cx = Some p → woken m !! c_tid cx = Some r →
  ∃ m' o, resume cx p r (take_woken (c_tid cx) m) = Ok (m', o) ∧ shape (fields m') = shape (fields m) ∧
    let w := finish (P := prim) (c_tid cx) m' o (delete (c_tid cx) susp) in
    pool_inv (live_step (live tr) (LResume (P := prim) (c_tid cx) p r (returned (P := prim) o))) (fields (w_mon w)) ∧ wake_ok 0 (w_mon w) (w_susp w).
Proof using HWB.
  intros Hwf Hp Hw Hisr Hs Hr. pose proof (take_wake_ok m susp _ p r Hw Hs Hr) as Hw'.
  assert (Hwf' : wf_parts (P := prim) (take_woken (c_tid cx) m) (delete (c_tid cx) susp)) by (eapply (wf_take (P := prim)); [done|done|by eexists]).
  assert (H : ∃ m' o, resume cx p r (take_woken (c_tid cx) m) = Ok (m', o) ∧ alloc_post (live tr) (c_tid cx) (take_woken (c_tid cx) m) m' (delete (c_tid cx) susp) o).
  { unfold resume. destruct (decide (r = WAIT_RESULT_SIGNAL)) as [->|Hne].
    - rewrite bool_decide_eq_false_2 by (intros H; by apply H). rewrite bool_decide_eq_true_2 in Hw' by done.
      eapply (alloc_loop_post _ _ _ _ 1); try done; try lia; [intros _; apply lookup_delete_eq|by left].
    - rewrite bool_decide_eq_true_2 by done. rewrite bool_decide_eq_false_2 in Hw' by done. eapply (alloc_end_post _ _ _ _ 0); done || lia. }
  destruct H as (m' & o & -> & Es & Hpost). exists m', o. split; [done|]. split; [done|]. destruct o as [[[] b| |]|rem q]; cbn in *; tauto.
Qed.

Definition pool_run_inv (p0 : BlockMemoryPool) (tr : list (label prim)) (m : M) (susp : gmap Z pc) : Prop :=
  pool_inv (live tr) (fields m) ∧ wake_ok 0 m susp ∧ shape (fields m) = shape p0.
Lemma pool_step p0 tr (w w' : World prim) l : wf w → pool_run_inv p0 tr (w_mon w) (w_susp w) →
  step pool_pre tr w l w' → pool_run_inv p0 (tr ++ [l]) (w_mon w') (w_susp w').
Proof using HWB.
  intros Hw (Hp & Hk & Es) Hs. destruct Hs as [w cx c m o Hpre Hn E|w cx p r m o Hisr Hpc Hr E|w t p r Hr Hpc Hl]; unfold wf in Hw;
    destruct w as [m0 susp]; cbn [p_fields p_call p_pc p_ret p_cv p_enter p_resume prim w_mon w_susp] in *.
  - destruct (enter_post tr m0 susp cx c Hw Hp Hk Hn Hpre) as (m' & o' & E' & Es' & H1 & H2). rewrite E' in E. injection E as <- <-.
    split_and!; [by rewrite live_snoc|done|]. rewrite <- Es, <- Es'. by destruct o'.
  - destruct (resume_post tr m0 susp cx p r Hw Hp Hk Hisr Hpc Hr) as (m' & o' & E' & Es' & H1 & H2). rewrite E' in E. injection E as <- <-.
    split_and!; [by rewrite live_snoc|done|]. rewrite <- Es, <- Es'. by destruct o'.
  - split_and!; [by rewrite live_snoc| |done]. apply (abort_wake_ok m0 susp t p); try done. by destruct Hr as [-> | ->].
Qed.
Lemma pool_start p0 : geom p0 → m_used_count p0 = 0 → chain (m_words p0) (m_free_list p0) (block_list (m_blocks p0) (m_block_size p0) (Z.to_nat (m_capacity p0))) →
  m_stats p0 = Stats_ctor (uw (m_capacity p0 * m_block_size p0)) → (BITMAP = true → m_bitmap p0 = replicate (Z.to_nat (BitmapBytes (m_capacity p0))) 0) →
  pool_inv [] p0.
Proof.
  intros Hg Hu Hc Hst Hbm. split; [done| |done|by rewrite Hst, Hu|].
  - eexists. split; [done|]. by rewrite app_nil_r.
  - intros HB. rewrite (Hbm HB), length_replicate. pose proof (BitmapBytes_nonneg (m_capacity p0)). pose proof (ge_cap _ Hg). split; [lia|].
    intros i Hi. rewrite bool_decide_eq_false_2 by apply not_elem_of_nil. unfold bm_bit.
    destruct (replicate _ 0 !! _) as [b|] eqn:E; [|done]. apply lookup_replicate in E as [-> _]. apply Z.bits_0.
Qed.

(** C37. Allocated blocks are the program's own.  Of a pool whose constructor
    accepted its storage, in every run in which the program frees and writes
    only blocks it holds: the blocks held at any time are distinct, each lies
    inside the storage, is aligned and large enough, and no two overlap; the
    counters agree; a free block is never beside waiting tasks without a task
    that was woken for it; no call and no return from a wait fails, whatever the
    program has written into its blocks; and with the bitmap or the checks
    enabled, freeing anything but a block that is held fails an assertion. *)
Theorem blockpool_safe cap raw st ss al words p0 tr (w : World prim) : 0 < st → 0 ≤ ss → st + ss < 2 ^ WB →
  BlockMemoryPool_ctor cap raw st ss al words = Ok p0 → IsStorageValid p0 = true →
  run pool_pre (mkWorld (P := prim) (init p0) ∅) tr w →
  let m : M := w_mon w in let p := fields m in
  NoDup (live tr) ∧
  (∀ b, b ∈ live tr → st ≤ b ∧ b + m_block_size p ≤ st + ss ∧ b `mod` al = 0 ∧ raw ≤ m_block_size p) ∧
  (∀ b b', b ∈ live tr → b' ∈ live tr → b ≠ b' → m_block_size p ≤ Z.abs (b - b')) ∧
  m_used_count p = Z.of_nat (length (live tr)) ∧ GetFreeCount p = cap - Z.of_nat (length (live tr)) ∧
  (wait_list 0 m ≠ [] → GetFreeCount p ≤ flight (P := prim) 0 m (w_susp w)) ∧
  (∀ cx c, pool_pre tr cx c → (c_isr cx = false → w_susp w !! c_tid cx = None) → ∃ m' o, enter cx c m = Ok (m', o)) ∧
  (∀ cx q r, c_isr cx = false → w_susp w !! c_tid cx = Some q → woken m !! c_tid cx = Some r →
     ∃ m' o, resume cx q r (take_woken (c_tid cx) m) = Ok (m', o)) ∧
  (BITMAP || CHECKS = true → ∀ ptr, ptr ∉ live tr → ptr ≠ nullptr → Free ptr m = Panic PANIC_ASSERT).
Proof using HWB.
  intros Hst Hss Htop Hctor Hv Hrun. destruct (ctor_geom _ _ _ _ _ _ _ Hst Hss Htop Hctor Hv) as (Hg & Ec & Ea & Hraw & Hu & E1 & E2 & Hch & Es & Hbm).
  rewrite <- Ec in Hch, Es, Hbm. pose proof (pool_start p0 Hg Hu Hch Es Hbm) as H0.
  destruct (run_ind_wf (P := prim) pool_pre p0 (λ tr w, pool_run_inv p0 tr (w_mon w) (w_susp w))) with (tr := tr) (w := w) as [Hw (Hp & Hk & Hs)];
    [split_and!; [done|intros Hne; by destruct Hne|done]|intros ? ? ? ? H1 _ H3 H4; exact (pool_step _ _ _ _ _ H1 H3 H4)|done|].
  intros m p. subst p m. destruct w as [m susp]. cbn [p_fields p_call p_pc p_ret p_cv p_enter p_resume prim w_mon w_susp] in *. unfold wf in Hw.
  pose proof Hs as [= F1 F2 F3 F4 F5 F6]. pose proof (pi_geom _ _ Hp) as Hg'. destruct (pi_free _ _ Hp) as (free & _ & Hf).
  assert (Hblk : ∀ b, b ∈ live tr → ∃ i, b = m_blocks (fields m) + Z.of_nat i * m_block_size (fields m) ∧ Z.of_nat i < m_capacity (fields m)).
  { intros b Hb. assert (Hx : b ∈ free ++ live tr) by (apply elem_of_app; by right). rewrite Hf in Hx. apply elem_of_blocks in Hx as (i & -> & ?).
    exists i. split; [done|lia]. }
  pose proof (ge_size _ Hg'). split_and!.
  - by apply (pool_nodup _ (fields m)).
  - intros b (i & -> & Hi)%Hblk. pose proof (ge_low _ Hg'). pose proof (ge_high _ Hg'). pose proof (ge_align _ Hg'). pose proof (ge_cap _ Hg').
    pose proof (BitmapBytes_nonneg (m_capacity (fields m))). rewrite <- E1, <- E2, <- F1, <- F3, <- Ea, <- F5. split_and!; [nia|nia| |congruence].
    apply Z.mod_divide; [lia|]. apply Z.divide_add_r; [|apply Z.divide_mul_r]; apply Z.mod_divide; by (lia || apply Hg').
  - intros b b' (i & -> & _)%Hblk (j & -> & _)%Hblk Hne. assert (i ≠ j) by congruence. nia.
  - apply Hp.
  - rewrite (free_count_inv _ _ Hp). congruence.
  - intros Hne. specialize (Hk Hne). lia.
  - intros cx c Hpre Hn. destruct (enter_post tr m susp cx c Hw Hp Hk Hn Hpre) as (m' & o & E & _). eauto.
  - intros cx q r Hi Hq Hr. destruct (resume_post tr m susp cx q r Hw Hp Hk Hi Hq Hr) as (m' & o & E & _). eauto.
  - intros Hcfg ptr. by apply (free_refused (live tr)).
Qed.
End pool.

(** A pool of two 8-byte blocks on a 32-bit machine, with a bitmap; a third task
    waits, and gets the block that is freed. *)
Definition ex_p0 : BlockMemoryPool :=
  match BlockMemoryPool_ctor 32 true 2 5 1003 40 8 ∅ with Ok p => p | Panic _ => mkPool 0 0 [] 0 ∅ 0 0 0 0 0 (Stats_ctor 0) end.
Notation ex_prim := (prim 32 true true).
Definition ex_cx (t : Z) : ctx := mkCtx t 0 false.
Definition ex_call (t : Z) (c : call) : action ex_prim := ACall (P := ex_prim) (ex_cx t) c.
Definition ex_preb (tr : list (label ex_prim)) (cx : ctx) (c : call) : bool :=
  match c with
  | CTimedAllocEx to => negb (c_isr cx) || (to =? NO_WAIT)
  | CFree ptr | CWrite ptr _ => bool_decide (ptr ∈ live 32 true true tr)
  end.
Definition ex_world0 : World ex_prim := mkWorld (P := ex_prim) (init ex_p0) ∅.
Definition ex_acts : list (action ex_prim) :=
  [ex_call 1 (CTimedAllocEx 10); ex_call 2 (CTimedAllocEx 10); ex_call 3 (CTimedAllocEx 10); ex_call 1 (CWrite 1008 77); ex_call 1 (CFree 1008); AResume (ex_cx 3)].
Definition ex_end : list (label ex_prim) * World ex_prim := exec_all ex_preb ex_acts ex_world0.
Lemma pool_ex_run : run (pool_pre 32 true true) ex_world0 ex_end.1 ex_end.2.
Proof.
  apply exec_all_run. intros tr cx c. unfold ex_preb, pool_pre. destruct c; [|by intros ?%bool_decide_eq_true..].
  intros [?%negb_true_iff|?%Z.eqb_eq]%orb_true_iff; auto.
Qed.
Lemma blockpool_safe_witness : live 32 true true ex_end.1 = [1008; 1016] ∧ NoDup (live 32 true true ex_end.1).
Proof.
  split; [vm_compute; reflexivity|].
  apply (blockpool_safe 32 true true ltac:(lia) 2 5 1003 40 8 ∅ ex_p0 ex_end.1 ex_end.2); [lia|lia|lia|vm_compute; reflexivity|vm_compute; reflexivity|].
  apply pool_ex_run.
Defined.
End BlockPool.
