(* ===== verification/BytePool.v ===== *)
(** * Byte pool ([BytePool] of [memory/stk_memory_bytepool.h])

    A heap of blocks of any size in one storage area.  The blocks follow each
    other without gaps, each begins with a header (its size and its state), and
    neighbouring free blocks are merged when a free block is looked at.  The
    model keeps the storage as 32-bit words, headers, guards and the data of the
    program alike, and the program may write into the blocks it holds.

    The blocks of the storage are described by a list of sizes and states
    ([layout]), up to the merging of neighbours ([same_heap]).  The theorems show
    that allocated blocks do not overlap and keep their data, that an allocation
    succeeds exactly when some run of free blocks is large enough, and that
    nobody waits for memory that is there. *)

From S2P Require Import Prelude KernelTask Monitor Memory.
Import KTask Monitor Memory.
Local Open Scope Z_scope.

Module BytePool.

Record BytePool := mkPool {
  m_storage : Z; m_first : Z; m_end : Z; m_rover : Z; m_words : gmap Z Z; m_storage_size : Z; m_stats : Stats; m_max_scan : Z }.
Notation M := (Mon BytePool).

Inductive call := CTimedAllocEx (size timeout_ticks : Z) | CFree (ptr : Z) | CWrite (addr v : Z).
Inductive ret := RAlloc (r : EWaitResult) (block : Z) | RFree (success : bool) | RVoid.
(** A blocked [TimedAllocEx] remembers the size asked for, the size of the block it
    needs, its timeout and its 64-bit deadline. *)
Record pc := mkPc { pc_size : Z; pc_need : Z; pc_timeout : Z; pc_deadline : Z }.

Definition GUARD_MAGIC : Z := 0xA5C3E17B.
Definition STATE_FREE : Z := 0x46524545.
Definition STATE_USED : Z := 0x55534544.
Definition STATE_NONE : Z := 0.
Definition FILL_ALLOC : Z := 0xCD.
Definition FILL_FREE : Z := 0xDD.

Definition set_words (w : gmap Z Z) (p : BytePool) : BytePool :=
  mkPool (m_storage p) (m_first p) (m_end p) (m_rover p) w (m_storage_size p) (m_stats p) (m_max_scan p).
Definition set_rover (h : Z) (p : BytePool) : BytePool :=
  mkPool (m_storage p) (m_first p) (m_end p) h (m_words p) (m_storage_size p) (m_stats p) (m_max_scan p).
Definition set_stats (s : Stats) (p : BytePool) : BytePool :=
  mkPool (m_storage p) (m_first p) (m_end p) (m_rover p) (m_words p) (m_storage_size p) s (m_max_scan p).
Definition set_max_scan (n : Z) (p : BytePool) : BytePool :=
  mkPool (m_storage p) (m_first p) (m_end p) (m_rover p) (m_words p) (m_storage_size p) (m_stats p) n.

(** A word of the storage; what the program finds there at the start is arbitrary. *)
Definition rd (w : gmap Z Z) (a : Z) : Z := default 0 (w !! a).
(** [h->size], [h->state], [Next(h)]. *)
Definition size_of (w : gmap Z Z) (h : Z) : Z := rd w h.
Definition state_of (w : gmap Z Z) (h : Z) : Z := rd w (h + 4).
Definition Next (w : gmap Z Z) (h : Z) : Z := h + size_of w h.
(** [Fill], of whole words. *)
Definition Fill (a n value : Z) (w : gmap Z Z) : gmap Z Z :=
  foldr (λ (i : nat) w, <[a + 4 * Z.of_nat i := value * 0x01010101]> w) w (seq 0 (Z.to_nat (n / 4))).

(** ** Block lists

    The blocks of a heap from left to right: size and whether it is used.  Two
    lists describe the same heap when they agree up to the merging of
    neighbouring free blocks. *)

Notation blk := (Z * bool)%type.
Definition ncons (b : blk) (l : list blk) : list blk :=
  match b, l with
  | (s, false), (s', false) :: l => (s + s', false) :: l
  | _, _ => b :: l
  end.
Definition norm (l : list blk) : list blk := foldr ncons [] l.
Definition same_heap (l l' : list blk) : Prop := norm l = norm l'.
#[export] Instance same_heap_equiv : Equivalence same_heap.
Proof. split; unfold same_heap; [done|by intros ? ? ->|intros ? ? ?; congruence]. Qed.

Lemma ncons_assoc s s' l : ncons (s, false) (ncons (s', false) l) = ncons (s + s', false) l.
Proof. destruct l as [|[s3 []] l]; cbn; [done..|]. by rewrite Z.add_assoc. Qed.
Lemma norm_ncons b l l' : norm (ncons b l ++ l') = ncons b (norm (l ++ l')).
Proof. destruct b as [s []], l as [|[s2 []] l]; try done. exact (eq_sym (ncons_assoc s s2 (norm (l ++ l')))). Qed.
Lemma norm_norm_app l l' : norm (norm l ++ l') = norm (l ++ l').
Proof. induction l as [|b l IH]; [done|]. cbn [norm foldr]. change (foldr ncons [] l) with (norm l). rewrite norm_ncons, IH. done. Qed.
Lemma norm_app_norm l l' : norm (l ++ norm l') = norm (l ++ l').
Proof.
  induction l as [|b l IH]; cbn [app]; [|exact (f_equal (ncons b) IH)]. pose proof (norm_norm_app l' []) as H. by rewrite !app_nil_r in H.
Qed.
#[export] Instance same_heap_app : Proper (same_heap ==> same_heap ==> same_heap) (app (A := blk)).
Proof.
  intros l1 l2 E l1' l2' E'. unfold same_heap in *. rewrite <- (norm_norm_app l1), E, <- norm_app_norm, E', norm_app_norm. apply norm_norm_app.
Qed.
#[export] Instance same_heap_cons b : Proper (same_heap ==> same_heap) (cons b).
Proof. intros l l' E. exact (f_equal (ncons b) E). Qed.
Lemma merge_heap s s' l : same_heap ((s, false) :: (s', false) :: l) ((s + s', false) :: l).
Proof. exact (ncons_assoc s s' (norm l)). Qed.

(** The used blocks with their addresses, the size of the heap, its free bytes and
    its largest run of free blocks, with [run] bytes before it. *)
Fixpoint used_at (a : Z) (l : list blk) : list (Z * Z) :=
  match l with [] => [] | (s, u) :: l => (if u then [(a, s)] else []) ++ used_at (a + s) l end.
Fixpoint total (l : list blk) : Z := match l with [] => 0 | (s, _) :: l => s + total l end.
Fixpoint used_total (l : list blk) : Z := match l with [] => 0 | (s, u) :: l => (if u then s else 0) + used_total l end.
Fixpoint best_run (run : Z) (l : list blk) : Z :=
  match l with [] => run | (s, false) :: l => best_run (run + s) l | (_, true) :: l => Z.max run (best_run 0 l) end.

(** The addresses of the blocks. *)
Fixpoint starts (a : Z) (l : list blk) : list Z := match l with [] => [] | (s, _) :: l => a :: starts (a + s) l end.

Lemma used_at_ncons a b l : used_at a (ncons b l) = used_at a (b :: l).
Proof. destruct b as [s []], l as [|[s2 []] l]; cbn; try done. by rewrite Z.add_assoc. Qed.
Lemma used_at_norm l : ∀ a, used_at a (norm l) = used_at a l.
Proof. induction l as [|[s u] l IH]; intros a; [done|]. cbn [norm foldr]. rewrite used_at_ncons. cbn. by rewrite IH. Qed.
#[export] Instance used_at_same a : Proper (same_heap ==> eq) (used_at a).
Proof. intros l l' E. by rewrite <- used_at_norm, E, used_at_norm. Qed.
Lemma total_norm l : total (norm l) = total l.
Proof.
  induction l as [|[s u] l IH]; [done|]. cbn. rewrite <- IH. change (foldr ncons [] l) with (norm l).
  destruct u, (norm l) as [|[s2 []] l2]; cbn; lia.
Qed.
#[export] Instance total_same : Proper (same_heap ==> eq) total.
Proof. intros l l' E. by rewrite <- total_norm, E, total_norm. Qed.
Lemma used_total_norm l : used_total (norm l) = used_total l.
Proof.
  induction l as [|[s u] l IH]; [done|]. cbn. rewrite <- IH. change (foldr ncons [] l) with (norm l).
  destruct u, (norm l) as [|[s2 []] l2]; cbn; lia.
Qed.
#[export] Instance used_total_same : Proper (same_heap ==> eq) used_total.
Proof. intros l l' E. by rewrite <- used_total_norm, E, used_total_norm. Qed.
Lemma best_run_norm l : ∀ run, best_run run (norm l) = best_run run l.
Proof.
  induction l as [|[s u] l IH]; intros run; [done|]. cbn [norm foldr]. change (foldr ncons [] l) with (norm l). cbn [best_run].
  rewrite <- !IH. destruct u, (norm l) as [|[s2 []] l2]; cbn; try done. by rewrite Z.add_assoc.
Qed.
#[export] Instance best_run_same run : Proper (same_heap ==> eq) (best_run run).
Proof. intros l l' E. by rewrite <- best_run_norm, E, best_run_norm. Qed.

Lemma total_app l l' : total (l ++ l') = total l + total l'.
Proof. induction l as [|[s u] l IH]; cbn; lia. Qed.
Lemma used_total_app l l' : used_total (l ++ l') = used_total l + used_total l'.
Proof. induction l as [|[s u] l IH]; cbn; lia. Qed.
Lemma used_at_app l l' : ∀ a, used_at a (l ++ l') = used_at a l ++ used_at (a + total l) l'.
Proof.
  induction l as [|[s u] l IH]; intros a; cbn; [by rewrite Z.add_0_r|]. rewrite IH, app_assoc. by rewrite Z.add_assoc.
Qed.
Lemma starts_app l l' : ∀ a, starts a (l ++ l') = starts a l ++ starts (a + total l) l'.
Proof. induction l as [|[s u] l IH]; intros a; cbn; [by rewrite Z.add_0_r|]. by rewrite IH, Z.add_assoc. Qed.
Lemma used_total_sum l : ∀ a, used_total l = foldr (λ x n, x.2 + n) 0 (used_at a l).
Proof. induction l as [|[s []] l IH]; intros a; cbn; [done|..]; by rewrite (IH (a + s)). Qed.

(** Sizes are positive. *)
Definition sizes_ok (l : list blk) : Prop := Forall (λ b, 0 < b.1) l.
Lemma starts_ge l : sizes_ok l → ∀ a x, x ∈ starts a l → a ≤ x.
Proof.
  induction 1 as [|[s u] l Hs _ IH]; intros a x; cbn; [by intros ?%not_elem_of_nil|]. intros [->|Hx%IH]%elem_of_cons; cbn in *; lia.
Qed.
Lemma best_run_ge l : sizes_ok l → ∀ run, run ≤ best_run run l.
Proof.
  induction 1 as [|[s u] l Hs _ IH]; intros run; cbn in *; [done|]. destruct u; [lia|]. specialize (IH (run + s)). lia.
Qed.
Lemma best_run_mono l : ∀ run run', run ≤ run' → best_run run l ≤ best_run run' l.
Proof. induction l as [|[s []] l IH]; intros run run' H; cbn; [done|lia|apply IH; lia]. Qed.
Lemma best_run_le l : sizes_ok l → ∀ run, 0 ≤ run → best_run run l ≤ run + total l.
Proof.
  induction 1 as [|[s u] l Hs Hl IH]; intros run Hr; cbn in *; [lia|]. destruct u.
  - specialize (IH 0 ltac:(lia)). pose proof (best_run_ge l Hl 0). lia.
  - specialize (IH (run + s) ltac:(lia)). lia.
Qed.
Lemma best_run_app l l' : sizes_ok l → ∀ run, 0 ≤ run → best_run 0 l' ≤ best_run run (l ++ l').
Proof.
  induction 1 as [|[s u] l Hs _ IH]; intros run Hr; cbn in *; [by apply best_run_mono|]. destruct u; [specialize (IH 0); lia|]. apply IH. lia.
Qed.
Lemma best_run_free l s l' : sizes_ok l → sizes_ok l' → s ≤ best_run 0 (l ++ (s, false) :: l').
Proof.
  intros Hl Hl'. etransitivity; [|apply (best_run_app _ ((s, false) :: l') Hl 0 ltac:(lia))]. cbn. etransitivity; [|by apply best_run_ge]. lia.
Qed.
(** Where a used block begins a run ends. *)
Definition head_used (l : list blk) : Prop := match l with (_, false) :: _ => False | _ => True end.
Lemma best_run_head l run : head_used l → 0 ≤ run → sizes_ok l → best_run run l = Z.max run (best_run 0 l).
Proof.
  intros H Hr Hl. destruct l as [|[s []] l]; cbn [best_run head_used] in *; [lia| |done]. apply Forall_cons in Hl as [_ Hl]. pose proof (best_run_ge l Hl 0). lia.
Qed.
(** Using (a part of) a free block makes no run longer. *)
Lemma best_run_use l l' s s1 rest : sizes_ok l → sizes_ok l' → 0 < s1 → rest = [] ∧ s1 = s ∨ rest = [(s - s1, false)] → sizes_ok rest →
  ∀ run, 0 ≤ run → best_run run (l ++ (s1, true) :: rest ++ l') ≤ best_run run (l ++ (s, false) :: l').
Proof.
  intros Hl Hl' Hs1 Hrest Hok. induction Hl as [|[s0 u] l Hs Hl IH]; intros run Hr; cbn [app best_run].
  - assert (Hs : 0 < s) by (destruct Hrest as [[_ ->]| ->]; [done|]; unfold sizes_ok in Hok; rewrite Forall_singleton in Hok; cbn [fst] in Hok; lia).
    pose proof (best_run_ge l' Hl' (run + s)). destruct Hrest as [[-> ->]| ->]; cbn [app best_run].
    + pose proof (best_run_mono l' 0 (run + s)). lia.
    + unfold sizes_ok in Hok; rewrite Forall_singleton in Hok; cbn [fst] in Hok. pose proof (best_run_mono l' (0 + (s - s1)) (run + s)). lia.
  - destruct u; [specialize (IH 0 ltac:(lia)); lia|]. apply IH. cbn in Hs. lia.
Qed.

Section pool.
(** The number of bits of [Word] and [size_t]; [STK_MEMORY_BYTEPOOL_ALIGN_DEFAULT], and
    the build options [STK_MEMORY_BYTEPOOL_GUARD], [STK_MEMORY_POOL_CHECKS] and
    [STK_MEMORY_BYTEPOOL_NEXT_FIT]. *)
Context (WB BLOCK_ALIGN : Z) (GUARD CHECKS NEXT_FIT : bool).
Local Notation uw := (uw WB).
Local Notation unot := (unot WB).
Local Notation RecordAllocate := (RecordAllocate WB).
Local Notation RecordFree := (RecordFree WB).
Local Notation RecordAllocFail := (RecordAllocFail WB).

Definition HEADER_SIZE : Z := if BLOCK_ALIGN >? 8 then BLOCK_ALIGN else 8.
Definition GUARD_SIZE : Z := if GUARD then 4 else 0.
Definition MIN_BLOCK_SIZE : Z := HEADER_SIZE + BLOCK_ALIGN.
Definition POOL_SIZE_MAX : Z := Z.land 0xFFFFFFFF (unot (BLOCK_ALIGN - 1)).
Definition AlignSize (raw_size : Z) : Z := Z.land (uw (raw_size + (BLOCK_ALIGN - 1))) (unot (BLOCK_ALIGN - 1)).
Definition RequiredSize (payload_size : Z) : Z := uw (AlignSize (uw (payload_size + GUARD_SIZE)) + HEADER_SIZE).

(** ** Construction *)
Definition Init (p : BytePool) : BytePool :=
  let p := set_stats (Stats_Reset 0 (m_stats p)) p in
  if negb (m_storage p =? nullptr) then
    let addr := m_storage p in
    let shift := uw (AlignSize addr - addr) in
    let usable := if m_storage_size p >? shift then Z.land (m_storage_size p - shift) (unot (BLOCK_ALIGN - 1)) else 0 in
    let usable := if usable >? POOL_SIZE_MAX then POOL_SIZE_MAX else usable in
    if usable >=? MIN_BLOCK_SIZE then
      let first := uw (m_storage p + shift) in
      mkPool (m_storage p) first (uw (first + usable)) first (<[first + 4 := STATE_FREE]> (<[first := u32 usable]> (m_words p)))
        (m_storage_size p) (Stats_Reset usable (m_stats p)) (m_max_scan p)
    else p
  else p.
(** The constructor for external storage, whose contents are [words]. *)
Definition BytePool_ctor (storage storage_size : Z) (words : gmap Z Z) : res BytePool :=
  assert! negb (storage =? nullptr);
  assert! (storage_size >=? MIN_BLOCK_SIZE);
  Ok (Init (mkPool storage nullptr nullptr nullptr words storage_size (Stats_ctor storage_size) 0)).

Definition IsStorageValid (p : BytePool) : bool := negb (m_first p =? nullptr).
Definition GetSize (p : BytePool) : Z := if negb (m_first p =? nullptr) then m_end p - m_first p else 0.
Definition GetMaxRequest (p : BytePool) : Z :=
  let size := GetSize p in if size >=? MIN_BLOCK_SIZE then size - HEADER_SIZE - GUARD_SIZE else 0.

(** ** Walking over the blocks *)
Definition IsSane (p : BytePool) (h : Z) : bool :=
  ((state_of (m_words p) h =? STATE_FREE) || (state_of (m_words p) h =? STATE_USED)) &&
  (size_of (m_words p) h >=? MIN_BLOCK_SIZE) && (size_of (m_words p) h `mod` BLOCK_ALIGN =? 0) &&
  (uw (m_end p - h) >=? size_of (m_words p) h).
(** Blocks have at least the minimal size: fuel for a walk over all of them. *)
Definition walk (p : BytePool) : nat := S (Z.to_nat ((m_end p - m_first p) / MIN_BLOCK_SIZE)).

Fixpoint Coalesce (fuel : nat) (h : Z) (p : BytePool) : res BytePool :=
  match fuel with
  | O => Panic PANIC_FUEL
  | S fuel =>
      let w := m_words p in
      let n := Next w h in
      if (n <? m_end p) && (state_of w n =? STATE_FREE) && IsSane p n then
        let p := if NEXT_FIT && (m_rover p =? n) then set_rover h p else p in
        Coalesce fuel h (set_words (<[n := 0]> (<[n + 4 := STATE_NONE]> (<[h := u32 (size_of w h + size_of w n)]> w))) p)
      else Ok p
  end.
(** [ScanRange]: a free block that is large enough is split and handed out. *)
Definition take_block (h need : Z) (p : BytePool) : Z * BytePool :=
  let w := m_words p in
  let rest := size_of w h - need in
  let w := if rest >=? MIN_BLOCK_SIZE then <[h := u32 need]> (<[h + need + 4 := STATE_FREE]> (<[h + need := u32 rest]> w)) else w in
  let w := <[h + 4 := STATE_USED]> w in
  let size := size_of w h in
  let w := if CHECKS then Fill (h + HEADER_SIZE) (size - HEADER_SIZE - GUARD_SIZE) FILL_ALLOC w else w in
  let w := if GUARD then <[h + size - 4 := GUARD_MAGIC]> w else w in
  let p := set_stats (RecordAllocate size (m_stats p)) (set_words w p) in
  let nxt := Next w h in
  (h + HEADER_SIZE, if NEXT_FIT then set_rover (if nxt <? m_end p then nxt else m_first p) p else p).
Fixpoint ScanRange (fuel : nat) (h stop need scanned : Z) (p : BytePool) : res (Z * Z * BytePool) :=
  match fuel with
  | O => Panic PANIC_FUEL
  | S fuel =>
      if negb (h =? nullptr) && (h <? stop) then
        let scanned := uw (scanned + 1) in
        assert! IsSane p h;
        if state_of (m_words p) h =? STATE_FREE then
          p ← Coalesce (walk p) h p;
          if size_of (m_words p) h >=? need then let '(ptr, p) := take_block h need p in Ok (ptr, scanned, p)
          else ScanRange fuel (Next (m_words p) h) stop need scanned p
        else ScanRange fuel (Next (m_words p) h) stop need scanned p
      else Ok (nullptr, scanned, p)
  end.
(** [FindFree]: from the rover on and then from the start, or from the start. *)
Definition FindFree_scan (need : Z) (p : BytePool) : res (Z * Z * BytePool) :=
  if NEXT_FIT then
    let start := if negb (m_rover p =? nullptr) then m_rover p else m_first p in
    '(ptr, scanned, p) ← ScanRange (walk p) start (m_end p) need 0 p;
    if (ptr =? nullptr) && negb (start =? m_first p) then ScanRange (walk p) (m_first p) start need scanned p
    else Ok (ptr, scanned, p)
  else ScanRange (walk p) (m_first p) (m_end p) need 0 p.
Definition FindFree (need : Z) (p : BytePool) : res (Z * BytePool) :=
  '(ptr, scanned, p) ← FindFree_scan need p;
  Ok (ptr, if scanned >? m_max_scan p then set_max_scan scanned p else p).

Fixpoint IsBlockStart_loop (fuel : nat) (b h : Z) (p : BytePool) : res bool :=
  match fuel with
  | O => Panic PANIC_FUEL
  | S fuel =>
      if negb (b =? nullptr) && (b <=? h) && (b <? m_end p) && IsSane p b then
        if b =? h then Ok true else IsBlockStart_loop fuel (Next (m_words p) b) h p
      else Ok false
  end.
Definition IsBlockStart (h : Z) (p : BytePool) : res bool := IsBlockStart_loop (walk p) (m_first p) h p.

(** [GetInfo]: the free bytes, the largest block and the number of runs. *)
Definition AccountRun (run : Z) (info : Z * Z * Z) : Z * Z * Z :=
  let '(available, largest, fragments) := info in
  if negb (run =? 0) then
    let payload := run - HEADER_SIZE in
    (available + payload, if payload >? largest then payload else largest, fragments + 1)
  else info.
Fixpoint GetInfo_loop (fuel : nat) (h run : Z) (info : Z * Z * Z) (p : BytePool) : res (Z * Z * Z) :=
  match fuel with
  | O => Panic PANIC_FUEL
  | S fuel =>
      if h <? m_end p then
        assert! IsSane p h;
        if state_of (m_words p) h =? STATE_FREE then GetInfo_loop fuel (Next (m_words p) h) (run + size_of (m_words p) h) info p
        else GetInfo_loop fuel (Next (m_words p) h) 0 (AccountRun run info) p
      else Ok (AccountRun run info)
  end.
Definition GetInfo (p : BytePool) : res (Z * Z * Z) :=
  if negb (m_first p =? nullptr) then GetInfo_loop (walk p) (m_first p) 0 (0, 0, 0) p else Ok (0, 0, 0).

(** ** Allocation *)
Definition alloc_end (result : EWaitResult) (ptr : Z) (m : M) : M * outcome pc ret :=
  let p := fields m in
  (if (ptr =? nullptr) && bool_decide (result = WAIT_RESULT_TIMEOUT) then set_fields (set_stats (RecordAllocFail (m_stats p)) p) m else m,
   Done (RAlloc result ptr)).
(** [TimedAllocEx], after a wait. *)
Definition after_wait (cx : ctx) (c : pc) (result : EWaitResult) (m : M) (again : M → res (M * outcome pc ret)) : res (M * outcome pc ret) :=
  match result with
  | WAIT_RESULT_SIGNAL | WAIT_RESULT_TIMEOUT =>
      '(ptr, p) ← FindFree (pc_need c) (fields m);
      let m := set_fields p m in
      if negb (ptr =? nullptr) then Ok (alloc_end WAIT_RESULT_SIGNAL ptr m)
      else match result with WAIT_RESULT_TIMEOUT => Ok (alloc_end result ptr m) | _ => again m end
  | _ => Ok (alloc_end result nullptr m)
  end.
(** Its loop, from the head to the wait; a wait of no time ends at once. *)
Definition alloc_loop (cx : ctx) (c : pc) (m : M) : res (M * outcome pc ret) :=
  if pc_timeout c =? NO_WAIT then Ok (alloc_end WAIT_RESULT_TIMEOUT nullptr m)
  else
    let left := pc_deadline c - c_now cx in
    if is_timed (pc_timeout c) && (left <=? 0) then Ok (alloc_end WAIT_RESULT_TIMEOUT nullptr m)
    else
      let remaining := if is_timed (pc_timeout c) then to_Timeout left else pc_timeout c in
      wait ← CV_WaitEx cx remaining;
      if (wait : bool) then Ok (m, Blocked remaining c) else after_wait cx c WAIT_RESULT_TIMEOUT m (λ m, Ok (alloc_end WAIT_RESULT_TIMEOUT nullptr m)).
Definition TimedAllocEx (cx : ctx) (size timeout_ticks : Z) (m : M) : res (M * outcome pc ret) :=
  let p := fields m in
  if c_isr cx && negb (timeout_ticks =? NO_WAIT) then Panic PANIC_ASSERT
  else if (size =? 0) || (size >? GetMaxRequest p) then
    Ok (if negb (size =? 0) && IsStorageValid p then set_fields (set_stats (RecordAllocFail (m_stats p)) p) m else m,
        Done (RAlloc WAIT_RESULT_FAIL nullptr))
  else
    let need := RequiredSize size in
    let c := mkPc size need timeout_ticks (if is_timed timeout_ticks then c_now cx + timeout_ticks else 0) in
    '(ptr, p) ← FindFree need p;
    let m := set_fields p m in
    if negb (ptr =? nullptr) then Ok (alloc_end WAIT_RESULT_SIGNAL ptr m) else alloc_loop cx c m.

(** ** Freeing *)
Definition Free (ptr : Z) (m : M) : res (M * bool) :=
  let p := fields m in
  if negb (ptr =? nullptr) && negb (m_first p =? nullptr) then
    let lo := m_first p in
    let hi := m_end p in
    assert! negb ((ptr <? uw (lo + HEADER_SIZE)) || (ptr >=? hi));
    assert! (uw (ptr - lo) `mod` BLOCK_ALIGN =? 0);
    let h := ptr - HEADER_SIZE in
    assert! (state_of (m_words p) h =? STATE_USED);
    is_block ← (if CHECKS then IsBlockStart h p else Ok true);
    assert! is_block;
    if IsSane p h then
      assert! (negb GUARD || (rd (m_words p) (h + size_of (m_words p) h - 4) =? GUARD_MAGIC));
      let block_size := size_of (m_words p) h in
      st ← RecordFree block_size (m_stats p);
      let w := <[h + 4 := STATE_FREE]> (m_words p) in
      let w := if CHECKS then Fill (h + HEADER_SIZE) (block_size - HEADER_SIZE) FILL_FREE w else w in
      p ← Coalesce (walk p) h (set_stats st (set_words w p));
      Ok (WakeAll 0 (set_fields p m), true)
    else Ok (m, false)
  else Ok (m, false).

(** The program writes a word of a block. *)
Definition Write (addr v : Z) (m : M) : M := set_fields (set_words (<[addr := v]> (m_words (fields m))) (fields m)) m.

Definition enter (cx : ctx) (c : call) (m : M) : res (M * outcome pc ret) :=
  match c with
  | CTimedAllocEx size timeout_ticks => TimedAllocEx cx size timeout_ticks m
  | CFree ptr => '(m, b) ← Free ptr m; Ok (m, Done (RFree b))
  | CWrite addr v => Ok (Write addr v m, Done RVoid)
  end.
Definition resume (cx : ctx) (c : pc) (r : EWaitResult) (m : M) : res (M * outcome pc ret) :=
  after_wait cx c r m (alloc_loop cx c).
Definition prim : Primitive := mkPrimitive BytePool call pc ret (λ _, 0%nat) enter resume.

(** ** The blocks in the storage *)

Context (HWB : 32 ≤ WB) (HA : 4 ≤ BLOCK_ALIGN) (HP : Z.land BLOCK_ALIGN (BLOCK_ALIGN - 1) = 0).

Lemma align_pow : ∃ k, 2 ≤ k ∧ BLOCK_ALIGN = 2 ^ k.
Proof using HA HP.
  destruct (one_bit BLOCK_ALIGN ltac:(lia) HP) as (k & Hk & E). exists k. split; [|done].
  destruct (Z.lt_ge_cases k 2) as [Hlt|]; [|done]. assert (k = 0 ∨ k = 1) as [-> | ->] by lia; cbn in E; lia.
Qed.
Lemma align_4 : (4 | BLOCK_ALIGN).
Proof using HA HP.
  destruct align_pow as (k & Hk & ->). exists (2 ^ (k - 2)). change 4 with (2 ^ 2). rewrite <- Z.pow_add_r by lia. f_equal. lia.
Qed.
Lemma header_facts : 8 ≤ HEADER_SIZE ∧ (BLOCK_ALIGN | HEADER_SIZE).
Proof using HA HP.
  unfold HEADER_SIZE. destruct (Z.gtb_spec BLOCK_ALIGN 8) as [H|H]; (split; [lia|]); [apply Z.divide_refl|].
  destruct align_pow as (k & Hk & E). exists (2 ^ (3 - k)). rewrite E. change 8 with (2 ^ 3). assert (k ≤ 3).
  { destruct (Z.le_gt_cases k 3) as [|Hgt]; [done|]. exfalso. pose proof (Z.pow_lt_mono_r 2 3 k ltac:(lia) ltac:(lia) Hgt). cbn in *. lia. }
  rewrite <- Z.pow_add_r by lia. by replace (3 - k + k) with 3 by lia.
Qed.
Lemma guard_range : 0 ≤ GUARD_SIZE ≤ 4 ∧ (4 | GUARD_SIZE).
Proof. unfold GUARD_SIZE. destruct GUARD; (split; [lia|]); [by exists 1|by exists 0]. Qed.
Lemma div4 x : (BLOCK_ALIGN | x) → (4 | x).
Proof using HA HP. intros H. etransitivity; [apply align_4|done]. Qed.

Definition st (u : bool) : Z := if u then STATE_USED else STATE_FREE.
Record block_at (w : gmap Z Z) (a s : Z) (u : bool) : Prop := {
  ba_size : size_of w a = s;
  ba_state : state_of w a = st u;
  ba_guard : u = true → GUARD = true → rd w (a + s - 4) = GUARD_MAGIC;
  ba_min : MIN_BLOCK_SIZE ≤ s;
  ba_align : (BLOCK_ALIGN | s);
}.
(** The blocks [l] fill the storage from [a] to [e]. *)
Fixpoint layout (w : gmap Z Z) (a e : Z) (l : list blk) : Prop :=
  match l with [] => a = e | (s, u) :: l => block_at w a s u ∧ layout w (a + s) e l end.

Lemma min_facts : 12 ≤ MIN_BLOCK_SIZE.
Proof using HA HP. unfold MIN_BLOCK_SIZE. pose proof header_facts as [? _]. lia. Qed.
Lemma layout_sizes w e l : ∀ a, layout w a e l → sizes_ok l.
Proof using HA HP.
  pose proof min_facts. induction l as [|[s u] l IH]; intros a; [constructor|]. intros [[_ _ _ Hs _] Hl]. constructor; [cbn; lia|by eapply IH].
Qed.
Lemma sizes_total l : sizes_ok l → 0 ≤ total l.
Proof. induction 1 as [|[s u] l Hs _ IH]; cbn in *; lia. Qed.
Lemma layout_total w e l : ∀ a, layout w a e l → e = a + total l.
Proof. induction l as [|[s u] l IH]; intros a; cbn; [lia|]. intros [_ Hl%IH]. lia. Qed.
Lemma layout_le w a e l : layout w a e l → a ≤ e.
Proof using HA HP. intros H. rewrite (layout_total _ _ _ _ H). pose proof (sizes_total l (layout_sizes _ _ _ _ H)). lia. Qed.
Lemma layout_app w e l l' : ∀ a, layout w a e (l ++ l') ↔ layout w a (a + total l) l ∧ layout w (a + total l) e l'.
Proof.
  induction l as [|[s u] l IH]; intros a; cbn; [rewrite Z.add_0_r; tauto|]. rewrite IH, Z.add_assoc. tauto.
Qed.
Lemma block_frame w w' a s u : block_at w a s u → (∀ x, a ≤ x < a + s → rd w' x = rd w x) → block_at w' a s u.
Proof using HA HP.
  intros [H1 H2 H3 H4 H5] H. pose proof min_facts. split; try done.
  - unfold size_of. rewrite H by lia. done.
  - unfold state_of. rewrite H by lia. done.
  - intros. rewrite H by lia. auto.
Qed.
Lemma layout_frame w w' e l : ∀ a, layout w a e l → (∀ x, a ≤ x < e → rd w' x = rd w x) → layout w' a e l.
Proof using HA HP.
  induction l as [|[s u] l IH]; intros a; [done|]. intros [Hb Hl] H. pose proof (layout_le _ _ _ _ Hl). pose proof (ba_min _ _ _ _ Hb).
  pose proof min_facts. split; [eapply block_frame; [done|]; intros; apply H; lia|]. apply IH; [done|]. intros. apply H. lia.
Qed.
Lemma layout_length w a e l : layout w a e l → Z.of_nat (length l) * MIN_BLOCK_SIZE ≤ e - a.
Proof using HA HP.
  revert a. induction l as [|[s u] l IH]; intros a; cbn [layout length]; [lia|]. intros [Hb Hl%IH]. pose proof (ba_min _ _ _ _ Hb). lia.
Qed.
Lemma walk_enough w p h l : m_first p ≤ h → layout w h (m_end p) l → (length l < walk p)%nat.
Proof using HA HP.
  intros Hh Hl. unfold walk. apply layout_length in Hl. pose proof min_facts.
  assert (Z.of_nat (length l) ≤ (m_end p - m_first p) / MIN_BLOCK_SIZE) by (apply Z.div_le_lower_bound; lia). lia.
Qed.
(** The walks accept the blocks. *)
Lemma block_sane p h s u l : 0 ≤ m_end p - h < 2 ^ 32 → layout (m_words p) h (m_end p) ((s, u) :: l) → IsSane p h = true.
Proof using HA HP HWB.
  intros He [Hb Hl]. pose proof Hb as [H1 H2 _ H4 H5]. pose proof (layout_le _ _ _ _ Hl). unfold IsSane. rewrite H1, H2.
  assert (2 ^ 32 ≤ 2 ^ WB) by (apply Z.pow_le_mono_r; lia). rewrite uw_small by lia.
  rewrite !andb_true_iff. split_and!; [by destruct u|lia| |lia]. apply Z.eqb_eq, Z.mod_divide; [lia|done].
Qed.
Lemma rd_insert w a v x : rd (<[a := v]> w) x = if decide (a = x) then v else rd w x.
Proof. unfold rd. case_decide as E; [subst; by rewrite lookup_insert_eq|by rewrite lookup_insert_ne]. Qed.
Lemma rd_Fill a n v w x : ¬ (a ≤ x < a + n) → rd (Fill a n v w) x = rd w x.
Proof.
  intros Hx. unfold Fill. destruct (Z.lt_ge_cases n 0) as [Hn|Hn].
  { replace (Z.to_nat (n / 4)) with 0%nat; [done|]. assert (n / 4 < 0) by (apply Z.div_lt_upper_bound; lia). lia. }
  assert (H : ∀ i, i ∈ seq 0 (Z.to_nat (n / 4)) → a + 4 * Z.of_nat i ≠ x).
  { intros i Hi%elem_of_seq. pose proof (Z.mul_div_le n 4). lia. }
  induction (seq 0 (Z.to_nat (n / 4))) as [|i l IH]; cbn [foldr]; [done|]. rewrite rd_insert, decide_False by (apply H; left).
  apply IH. intros j Hj. apply H. by right.
Qed.

(** ** Merging *)

(** [Coalesce] on the free block [h] of size [s] before the blocks [l]. *)
Record coalesced (h : Z) (p p' : BytePool) (s : Z) (l : list blk) (s' : Z) (l' : list blk) : Prop := {
  co_pool : ∃ w r, p' = set_rover r (set_words w p);
  co_layout : layout (m_words p') h (m_end p) ((s', false) :: l');
  co_grow : s ≤ s';
  co_same : same_heap ((s, false) :: l) ((s', false) :: l');
  co_head : head_used l';
  co_suffix : l' `suffix_of` l;
  co_frame x : ¬ (h ≤ x < h + s') → rd (m_words p') x = rd (m_words p) x;
  co_before : m_rover p ≤ h → m_rover p' = m_rover p;
  co_rover : NEXT_FIT = true → m_rover p ∈ starts h ((s, false) :: l) → m_rover p' ∈ starts h ((s', false) :: l');
}.
Lemma set_same p : set_rover (m_rover p) (set_words (m_words p) p) = p.
Proof. by destruct p. Qed.
Lemma coalesced_refl h p s l : layout (m_words p) h (m_end p) ((s, false) :: l) → head_used l → coalesced h p p s l s l.
Proof. intros Hl Hh. split; try done; [by exists (m_words p), (m_rover p); rewrite set_same]. Qed.

Lemma coalesce_spec l : ∀ fuel p h s, layout (m_words p) h (m_end p) ((s, false) :: l) → 0 ≤ m_end p - h < 2 ^ 32 → (length l < fuel)%nat →
  ∃ p' s' l', Coalesce fuel h p = Ok p' ∧ coalesced h p p' s l s' l'.
Proof using HA HP HWB.
  pose proof min_facts as Hmin. induction l as [|[s2 u] l IH]; intros fuel p h s Hl He Hf; (destruct fuel as [|fuel]; [cbn in Hf; lia|]); cbn [Coalesce]; cbv zeta;
    pose proof Hl as [Hb Hl2]; unfold Next; rewrite (ba_size _ _ _ _ Hb).
  - cbn in Hl2. rewrite Hl2, Z.ltb_irrefl. exists p, s, []. split; [done|]. by apply coalesced_refl.
  - pose proof Hl2 as [Hb2 Hl3]. pose proof (layout_le _ _ _ _ Hl3) as Hle. pose proof (ba_min _ _ _ _ Hb). pose proof (ba_min _ _ _ _ Hb2).
    rewrite (proj2 (Z.ltb_lt _ _)) by lia. rewrite (ba_state _ _ _ _ Hb2). destruct u.
    { cbn [st]. exists p, s, ((s2, true) :: l). split; [done|]. by apply coalesced_refl. }
    cbn [st]. rewrite Z.eqb_refl, (block_sane p (h + s) s2 false l) by (done || lia). cbn [andb].
    rewrite (ba_size _ _ _ _ Hb2). assert (Eu : u32 (s + s2) = s + s2) by (apply Z.mod_small; lia). rewrite Eu.
    set (w := <[h + s := 0]> _). set (p1 := if NEXT_FIT && _ then _ else _).
    assert (Hw : ∀ x, ¬ (h ≤ x < h + (s + s2)) → rd w x = rd (m_words p) x).
    { intros x Hx. unfold w. rewrite !rd_insert, !decide_False by lia. done. }
    assert (Hp1 : ∃ r, p1 = set_rover r p ∧ (m_rover p ≤ h → r = m_rover p) ∧
      (NEXT_FIT = true → m_rover p ∈ starts h ((s, false) :: (s2, false) :: l) → r ∈ starts h ((s + s2, false) :: l))).
    { unfold p1. destruct NEXT_FIT; cbn [andb]; [|exists (m_rover p); by destruct p]. destruct (Z.eqb_spec (m_rover p) (h + s)) as [E|E].
      - exists h. split; [done|]. split; [lia|]. intros _ _. cbn. by left.
      - exists (m_rover p). split; [by destruct p|]. split; [done|]. intros _. cbn [starts]. rewrite !elem_of_cons, Z.add_assoc. tauto. }
    destruct Hp1 as (r & Ep1 & Hr1 & Hr2).
    destruct (IH fuel (set_words w p1) h (s + s2)) as (p' & s' & l' & E & [C1 C2 C3 C4 C5 C6 C7 C8 C9]).
    + rewrite Ep1. cbn [m_words set_words m_end set_rover]. split.
      * pose proof Hb as [B1 B2 _ B4 B5]. split; [|by unfold state_of, w; rewrite !rd_insert, !decide_False by lia|done|lia|by apply Z.divide_add_r, Hb2].
        unfold size_of, w. rewrite !rd_insert, decide_False, decide_False, decide_True by lia. done.
      * rewrite Z.add_assoc. eapply layout_frame; [exact Hl3|]. intros x Hx. apply Hw. lia.
    + by rewrite Ep1.
    + cbn in Hf. lia.
    + exists p', s', l'. split; [done|]. rewrite Ep1 in *. cbn [m_words set_words m_end set_rover m_rover] in *. split.
      * destruct C1 as (w' & r' & ->). by exists w', r'.
      * done.
      * lia.
      * by rewrite <- C4, merge_heap.
      * done.
      * by apply suffix_cons_r.
      * intros x Hx. rewrite C7 by done. apply Hw. lia.
      * intros H'. rewrite C8; [auto|]. by rewrite Hr1.
      * auto.
Qed.

(** ** Taking a block *)

Definition shape (p : BytePool) : Z * Z * Z * Z := (m_storage p, m_first p, m_end p, m_storage_size p).
(** A free block of size [s] becomes a used one of size [s1], and what is left. *)
Definition split_of (s s1 : Z) (rest : list blk) : Prop := rest = [] ∧ s1 = s ∨ rest = [(s - s1, false)].
Record taken (h need : Z) (p p' : BytePool) (s : Z) (l : list blk) (s1 : Z) (rest : list blk) : Prop := {
  tk_shape : shape p' = shape p;
  tk_split : split_of s s1 rest;
  tk_need : need ≤ s1 ≤ s;
  tk_layout : layout (m_words p') h (m_end p) ((s1, true) :: rest ++ l);
  tk_frame x : ¬ (h ≤ x < h + s) → rd (m_words p') x = rd (m_words p) x;
  tk_stats : m_stats p' = RecordAllocate s1 (m_stats p);
  tk_rover : NEXT_FIT = true → m_rover p' ∈ starts h ((s1, true) :: rest ++ l) ∨ m_rover p' = m_first p;
}.

(** The header of the used block, and the rest. *)
Definition split_words (h need s : Z) (w : gmap Z Z) : gmap Z Z :=
  <[h + 4 := STATE_USED]> (if s - need >=? MIN_BLOCK_SIZE then <[h := u32 need]> (<[h + need + 4 := STATE_FREE]> (<[h + need := u32 (s - need)]> w)) else w).
Lemma split_spec w h e s l need : layout w h e ((s, false) :: l) → e - h < 2 ^ 32 → MIN_BLOCK_SIZE ≤ need ≤ s → (BLOCK_ALIGN | need) →
  ∃ s1 rest, split_of s s1 rest ∧ need ≤ s1 ≤ s ∧ (BLOCK_ALIGN | s1) ∧ size_of (split_words h need s w) h = s1 ∧ state_of (split_words h need s w) h = STATE_USED ∧
    layout (split_words h need s w) (h + s1) e (rest ++ l) ∧ (∀ x, ¬ (h ≤ x < h + s) → rd (split_words h need s w) x = rd w x).
Proof using HA HP.
  intros [Hb Hl] He Hn Ha. pose proof Hb as [H1 H2 _ H4 H5]. pose proof min_facts. pose proof (layout_le _ _ _ _ Hl).
  unfold split_words. destruct (Z.geb_spec (s - need) MIN_BLOCK_SIZE) as [Hr|Hr].
  - assert (E1 : u32 need = need) by (apply Z.mod_small; lia). assert (E2 : u32 (s - need) = s - need) by (apply Z.mod_small; lia). rewrite E1, E2.
    exists need, [(s - need, false)]. unfold size_of, state_of. split_and!; [by right|lia|lia|done| | | |].
    + rewrite !rd_insert, decide_False, decide_True by lia. done.
    + rewrite !rd_insert, decide_True by lia. done.
    + cbn [layout app]. replace (h + need + (s - need)) with (h + s) by lia. split; [split|].
      * unfold size_of. rewrite !rd_insert, decide_False, decide_False, decide_False, decide_True by lia. done.
      * unfold state_of. rewrite !rd_insert, decide_False, decide_False, decide_True by lia. done.
      * done.
      * lia.
      * by apply Z.divide_sub_r.
      * eapply layout_frame; [done|]. intros x Hx. rewrite !rd_insert, !decide_False by lia. done.
    + intros x Hx. rewrite !rd_insert, !decide_False by lia. done.
  - exists s, []. unfold size_of, state_of. split_and!; [by left|lia|lia|done| | | |].
    + rewrite rd_insert, decide_False by lia. done.
    + rewrite rd_insert, decide_True by lia. done.
    + cbn [app]. eapply layout_frame; [done|]. intros x Hx. rewrite rd_insert, decide_False by lia. done.
    + intros x Hx. rewrite rd_insert, decide_False by lia. done.
Qed.
(** The payload is filled and guarded. *)
Definition dress (h s : Z) (w : gmap Z Z) : gmap Z Z :=
  let w := if CHECKS then Fill (h + HEADER_SIZE) (s - HEADER_SIZE - GUARD_SIZE) FILL_ALLOC w else w in
  if GUARD then <[h + s - 4 := GUARD_MAGIC]> w else w.
Lemma dress_spec w h s : size_of w h = s → state_of w h = STATE_USED → MIN_BLOCK_SIZE ≤ s → (BLOCK_ALIGN | s) →
  block_at (dress h s w) h s true ∧ ∀ x, ¬ (h ≤ x < h + s) → rd (dress h s w) x = rd w x.
Proof using HA HP.
  intros H1 H2 H3 H4. pose proof min_facts. destruct header_facts as [Hh _]. destruct guard_range as [Hg _].
  assert (Hf : ∀ x, x < h + 8 ∨ h + s ≤ x → rd (dress h s w) x = rd w x).
  { intros x Hx. unfold dress. cbv zeta. unfold MIN_BLOCK_SIZE in *. destruct GUARD, CHECKS; rewrite ?rd_insert, ?decide_False, ?rd_Fill by lia; done. }
  split; [split|].
  - unfold size_of. rewrite Hf by lia. done.
  - unfold state_of. rewrite Hf by lia. done.
  - intros _ Eg. unfold dress. cbv zeta. destruct GUARD; [|done]. by rewrite rd_insert, decide_True.
  - done.
  - done.
  - intros x Hx. apply Hf. lia.
Qed.

Lemma take_spec p h s l need : layout (m_words p) h (m_end p) ((s, false) :: l) → m_end p - h < 2 ^ 32 → MIN_BLOCK_SIZE ≤ need ≤ s → (BLOCK_ALIGN | need) →
  ∃ p' s1 rest, take_block h need p = (h + HEADER_SIZE, p') ∧ taken h need p p' s l s1 rest.
Proof using HA HP.
  intros Hl He Hn Ha. destruct (split_spec _ _ _ _ _ _ Hl He Hn Ha) as (s1 & rest & S1 & S2 & Sa & S3 & S4 & S5 & S6).
  pose proof Hl as [Hb _]. unfold take_block. cbv zeta. rewrite (ba_size _ _ _ _ Hb). fold (split_words h need s (m_words p)). rewrite S3.
  fold (dress h s1 (split_words h need s (m_words p))). set (w := split_words h need s (m_words p)) in *.
  destruct (dress_spec w h s1 S3 S4 ltac:(lia) Sa) as [D1 D2].
  assert (Hlay : layout (dress h s1 w) h (m_end p) ((s1, true) :: rest ++ l)).
  { split; [done|]. eapply layout_frame; [exact S5|]. intros x Hx. apply D2. lia. }
  unfold Next. rewrite (ba_size _ _ _ _ D1). eexists _, s1, rest. split; [done|]. split.
  - unfold shape. by destruct NEXT_FIT.
  - done.
  - done.
  - by destruct NEXT_FIT.
  - intros x Hx. replace (m_words _) with (dress h s1 w) by (by destruct NEXT_FIT). rewrite D2 by lia. by apply S6.
  - by destruct NEXT_FIT.
  - intros ->. cbn [m_rover set_rover m_end m_first set_words set_stats]. destruct (Z.ltb_spec (h + s1) (m_end p)) as [Hlt|]; [left|by right].
    cbn [starts]. right. destruct (rest ++ l) as [|[s2 u] l2]; [cbn in S5; lia|]. cbn. left.
Qed.

(** ** Searching *)

Lemma used_range w e l : ∀ a b s, layout w a e l → (b, s) ∈ used_at a l → a ≤ b ∧ b + s ≤ e ∧ block_at w b s true.
Proof using HA HP.
  pose proof min_facts. induction l as [|[s0 u] l IH]; intros a b s; cbn [layout used_at]; [by intros _ ?%not_elem_of_nil|].
  intros [Hb Hl]. pose proof (ba_min _ _ _ _ Hb). pose proof (layout_le _ _ _ _ Hl). rewrite elem_of_app. intros [Hin|Hin].
  - destruct u; [|by apply not_elem_of_nil in Hin]. apply list_elem_of_singleton in Hin as [= -> ->]. split; [lia|]. split; [lia|done].
  - destruct (IH _ _ _ Hl Hin) as (? & ? & ?). split; [lia|]. split; [lia|done].
Qed.

(** What a search leaves alone: the shape of the pool, the storage outside the
    blocks [l] it looks at, and the used blocks. *)
Record kept (h : Z) (l : list blk) (p p' : BytePool) : Prop := {
  kp_shape : shape p' = shape p;
  kp_below x : x < h → rd (m_words p') x = rd (m_words p) x;
  kp_used b s x : (b, s) ∈ used_at h l → b ≤ x < b + s → rd (m_words p') x = rd (m_words p) x;
}.
Record missed (h stop need : Z) (l : list blk) (p p' : BytePool) (t1 t2 : list blk) : Prop := {
  ms_kept : kept h l p p';
  ms_stats : m_stats p' = m_stats p;
  ms_layout : layout (m_words p') h (m_end p) (t1 ++ t2);
  ms_same : same_heap l (t1 ++ t2);
  ms_stop : stop ≤ h + total t1;
  ms_suffix : t2 `suffix_of` l;
  ms_runs : best_run 0 t2 < need → best_run 0 (t1 ++ t2) < need;
  ms_before : m_rover p < h → m_rover p' = m_rover p;
  ms_rover : NEXT_FIT = true → m_rover p ∈ starts h l → m_rover p' ∈ starts h (t1 ++ t2);
}.
Record found (h need : Z) (l : list blk) (ptr : Z) (p p' : BytePool) (t1 t2 rest : list blk) (s s1 : Z) : Prop := {
  fd_kept : kept h l p p';
  fd_stats : m_stats p' = RecordAllocate s1 (m_stats p);
  fd_split : split_of s s1 rest;
  fd_need : need ≤ s1 ≤ s;
  fd_same : same_heap l (t1 ++ (s, false) :: t2);
  fd_layout : layout (m_words p') h (m_end p) (t1 ++ (s1, true) :: rest ++ t2);
  fd_ptr : ptr = h + total t1 + HEADER_SIZE;
  fd_rover : NEXT_FIT = true → m_rover p' ∈ starts h (t1 ++ (s1, true) :: rest ++ t2) ∨ m_rover p' = m_first p;
}.
Definition scan_post (h stop need : Z) (l : list blk) (p : BytePool) (ptr : Z) (p' : BytePool) : Prop :=
  (ptr = nullptr ∧ ∃ t1 t2, missed h stop need l p p' t1 t2) ∨
  (ptr ≠ nullptr ∧ ∃ t1 t2 rest s s1, found h need l ptr p p' t1 t2 rest s s1).

Lemma shape_eq p p' : shape p' = shape p → m_storage p' = m_storage p ∧ m_first p' = m_first p ∧ m_end p' = m_end p ∧ m_storage_size p' = m_storage_size p.
Proof. by intros [= -> -> -> ->]. Qed.
Lemma missed_none h stop need l p : layout (m_words p) h (m_end p) l → stop ≤ h → missed h stop need l p p [] l.
Proof. intros Hl Hs. split; try done. cbn. lia. Qed.
(** One more block before those of a search. *)
Lemma scan_cons h stop need s u l0 l p p1 p' ptr : layout (m_words p1) h (m_end p) ((s, u) :: l) → shape p1 = shape p → m_stats p1 = m_stats p → 0 < need →
  same_heap l0 ((s, u) :: l) → l `suffix_of` l0 → (u = true ∨ head_used l ∧ s < need) →
  (∀ x, x < h → rd (m_words p1) x = rd (m_words p) x) → (∀ b sb x, (b, sb) ∈ used_at h l0 → b ≤ x < b + sb → rd (m_words p1) x = rd (m_words p) x) →
  (m_rover p ≤ h → m_rover p1 = m_rover p) → (NEXT_FIT = true → m_rover p ∈ starts h l0 → m_rover p1 ∈ starts h ((s, u) :: l)) →
  scan_post (h + s) stop need l p1 ptr p' → scan_post h stop need l0 p ptr p'.
Proof using HA HP.
  intros Hl1 Hsh Hst Hn Hsame Hsuf Hu Hbelow Hused Hrov1 Hrov2 Hpost. pose proof Hl1 as [Hb Hl]. pose proof (ba_min _ _ _ _ Hb). pose proof min_facts.
  apply shape_eq in Hsh as (F1 & F2 & F3 & F4). rewrite <- F3 in Hl.
  assert (Hk : kept (h + s) l p1 p' → kept h l0 p p').
  { intros [K1 K2 K3]. split.
    - rewrite K1. unfold shape. congruence.
    - intros x Hx. rewrite K2 by lia. auto.
    - intros b sb x Hin Hx. rewrite <- (Hused b sb x Hin Hx). rewrite Hsame in Hin. cbn [used_at] in Hin. apply elem_of_app in Hin as [Hin|Hin]; [|eauto].
      destruct u; [|by apply not_elem_of_nil in Hin]. apply list_elem_of_singleton in Hin as [= -> ->]. apply K2. lia. }
  assert (Hh : ∀ l', layout (m_words p') (h + s) (m_end p1) l' → kept (h + s) l p1 p' → layout (m_words p') h (m_end p) ((s, u) :: l')).
  { intros l' Hl' [_ K2 _]. rewrite <- F3. split; [|done]. eapply block_frame; [exact Hb|]. intros x Hx. apply K2. lia. }
  assert (Hr : NEXT_FIT = true → m_rover p ∈ starts h l0 → m_rover p1 = h ∨ m_rover p1 ∈ starts (h + s) l).
  { intros Hf Hin. specialize (Hrov2 Hf Hin). cbn [starts] in Hrov2. by apply elem_of_cons in Hrov2. }
  destruct Hpost as [[-> (t1 & t2 & [M1 M2 M3 M4 M5 M6 M7 M8 M9])]|[Hptr (t1 & t2 & rest & s2 & s1 & [G1 G2 G3 G4 G5 G6 G7 G8])]].
  - left. split; [done|]. exists ((s, u) :: t1), t2. split.
    + auto.
    + congruence.
    + by apply Hh.
    + by rewrite Hsame, M4.
    + cbn. lia.
    + by etransitivity.
    + intros Hb2. specialize (M7 Hb2). cbn [app best_run]. destruct u; [lia|]. destruct Hu as [?|[Hu Hs]]; [done|]. rewrite Z.add_0_l.
      rewrite <- M4 in *. rewrite best_run_head; [lia|done|lia|]. by eapply layout_sizes.
    + intros Hlt. rewrite M8, Hrov1; [done|lia|]. rewrite Hrov1; lia.
    + intros Hf Hin. cbn [app starts]. rewrite elem_of_cons. destruct (Hr Hf Hin) as [E|Hin']; [|right; by apply M9]. left. rewrite M8; [done|lia].
  - right. split; [done|]. exists ((s, u) :: t1), t2, rest, s2, s1. split; try done.
    + auto.
    + congruence.
    + by rewrite Hsame, G5.
    + by apply Hh.
    + cbn. lia.
    + intros Hf. cbn [app starts]. destruct (G8 Hf) as [?|E]; [left; by right|right; congruence].
Qed.

Lemma scan_spec need stop fuel : MIN_BLOCK_SIZE ≤ need → (BLOCK_ALIGN | need) → ∀ h p l sc, layout (m_words p) h (m_end p) l →
  0 < h → m_first p ≤ h → m_end p - m_first p < 2 ^ 32 → stop ≤ m_end p → (length l < fuel)%nat →
  ∃ ptr sc' p', ScanRange fuel h stop need sc p = Ok (ptr, sc', p') ∧ scan_post h stop need l p ptr p'.
Proof using HA HP HWB.
  intros Hn Ha. pose proof min_facts as Hmin. destruct header_facts as [Hhd _].
  induction fuel as [|fuel IH]; intros h p l sc Hl Hh Hf He Hstop Hfuel; [lia|]. cbn [ScanRange].
  rewrite (proj2 (Z.eqb_neq h nullptr)) by (unfold nullptr; lia). cbn [negb andb]. destruct (Z.ltb_spec h stop) as [Hlt|Hge].
  2: { eexists _, _, _. split; [done|]. left. split; [done|]. exists [], l. by apply missed_none. }
  destruct l as [|[s u] l]; [cbn in Hl; lia|]. pose proof Hl as [Hb Hl2]. pose proof (ba_min _ _ _ _ Hb). pose proof (layout_le _ _ _ _ Hl2).
  cbv zeta. rewrite (block_sane p h s u l) by (done || lia). cbn [stk_assert]. rewrite (ba_state _ _ _ _ Hb). destruct u; cbn [st].
  - change (STATE_USED =? STATE_FREE) with false. cbv iota. unfold Next. rewrite (ba_size _ _ _ _ Hb).
    destruct (IH (h + s) p l (uw (sc + 1)) Hl2) as (ptr & sc' & p' & E & Hpost); [lia|lia|done|done|cbn in Hfuel; lia|].
    exists ptr, sc', p'. split; [done|]. eapply (scan_cons h stop need s true); try done; [lia|by apply suffix_cons_r|by left].
  - rewrite Z.eqb_refl. destruct (coalesce_spec l (walk p) p h s Hl) as (p1 & s' & l' & -> & [(w & r & Ep) C2 C3 C4 C5 C6 C7 C8 C9]);
      [lia|by eapply walk_enough; [|exact Hl2]; lia|]. cbn [mbind res_bind].
    pose proof C2 as [Hb' Hl']. rewrite (ba_size _ _ _ _ Hb').
    assert (Hsh : shape p1 = shape p) by (by rewrite Ep). pose proof (shape_eq _ _ Hsh) as (F1 & F2 & F3 & F4).
    assert (Hst : m_stats p1 = m_stats p) by (by rewrite Ep).
    assert (Hused : ∀ b sb x, (b, sb) ∈ used_at h ((s, false) :: l) → b ≤ x < b + sb → rd (m_words p1) x = rd (m_words p) x).
    { intros b sb x Hin Hx. rewrite C4 in Hin. cbn [used_at app] in Hin. destruct (used_range _ _ _ _ _ _ Hl' Hin) as (? & _). apply C7. lia. }
    destruct (Z.geb_spec s' need) as [Hge|Hlt'].
    + destruct (take_spec p1 h s' l' need) as (p2 & s1 & rest & -> & [T1 T2 T3 T4 T5 T6 T7]); [by rewrite F3|lia|lia|done|].
      eexists _, _, _. split; [done|]. right. split; [unfold nullptr; lia|]. exists [], l', rest, s', s1.
      pose proof (shape_eq _ _ T1) as (_ & _ & G3 & _). split; try done.
      * split; [congruence| |].
        -- intros x Hx. rewrite T5 by lia. apply C7. lia.
        -- intros b sb x Hin Hx. rewrite <- (Hused b sb x Hin Hx). rewrite C4 in Hin. cbn [used_at app] in Hin.
           destruct (used_range _ _ _ _ _ _ Hl' Hin) as (? & _). apply T5. lia.
      * congruence.
      * by rewrite <- F3.
      * cbn. lia.
      * intros Hnf. cbn [app]. rewrite <- F2. by apply T7.
    + unfold Next. rewrite (ba_size _ _ _ _ Hb').
      destruct (IH (h + s') p1 l' (uw (sc + 1))) as (ptr & sc' & p' & E & Hpost); [by rewrite F3|pose proof (ba_min _ _ _ _ Hb'); lia..|lia|lia| |].
      { pose proof (suffix_length _ _ C6). cbn in Hfuel. lia. }
      exists ptr, sc', p'. split; [done|]. eapply (scan_cons h stop need s' false); try done; [lia|by apply suffix_cons_r|by right|].
      intros x Hx. apply C7. lia.
Qed.

(** ** The heap *)

Record heap (p : BytePool) (l : list blk) : Prop := {
  hp_first : 0 < m_first p;
  hp_align : (BLOCK_ALIGN | m_first p);
  hp_end : m_end p < 2 ^ WB;
  hp_size : MIN_BLOCK_SIZE ≤ m_end p - m_first p < 2 ^ 32;
  hp_layout : layout (m_words p) (m_first p) (m_end p) l;
  hp_rover : NEXT_FIT = true → m_rover p ∈ starts (m_first p) l;
}.
(** The outcome of a search: memory is found exactly if some run of free blocks is
    large enough. *)
Record found_in (need : Z) (l : list blk) (ptr : Z) (p p' : BytePool) (t1 t2 rest : list blk) (s s1 : Z) : Prop := {
  fi_heap : heap p' (t1 ++ (s1, true) :: rest ++ t2);
  fi_kept : kept (m_first p) l p p';
  fi_stats : m_stats p' = RecordAllocate s1 (m_stats p);
  fi_split : split_of s s1 rest;
  fi_need : need ≤ s1 ≤ s;
  fi_same : same_heap l (t1 ++ (s, false) :: t2);
  fi_ptr : ptr = m_first p + total t1 + HEADER_SIZE;
  fi_run : need ≤ best_run 0 l;
}.
Record missing (need : Z) (l : list blk) (p p' : BytePool) (l' : list blk) : Prop := {
  mi_heap : heap p' l';
  mi_kept : kept (m_first p) l p p';
  mi_stats : m_stats p' = m_stats p;
  mi_same : same_heap l l';
  mi_run : best_run 0 l < need;
}.
Definition find_post (need : Z) (l : list blk) (p : BytePool) (ptr : Z) (p' : BytePool) : Prop :=
  (ptr = nullptr ∧ ∃ l', missing need l p p' l') ∨ (ptr ≠ nullptr ∧ ∃ t1 t2 rest s s1, found_in need l ptr p p' t1 t2 rest s s1).

Lemma starts_split l : ∀ a x, x ∈ starts a l → ∃ l1 l2, l = l1 ++ l2 ∧ l2 ≠ [] ∧ x = a + total l1.
Proof.
  induction l as [|[s u] l IH]; intros a x; cbn; [by intros ?%not_elem_of_nil|]. intros [->|Hx]%elem_of_cons.
  - exists [], ((s, u) :: l). cbn. split_and!; [done|done|lia].
  - destruct (IH _ _ Hx) as (l1 & l2 & -> & ? & ->). exists ((s, u) :: l1), l2. cbn. split_and!; [done|done|lia].
Qed.
Lemma starts_lt l : sizes_ok l → ∀ a x, x ∈ starts a l → x < a + total l.
Proof.
  intros Hok a x (l1 & l2 & -> & Hne & ->)%starts_split. apply Forall_app in Hok as [_ Hok]. rewrite total_app.
  destruct Hok as [|[s u] l2 Hs Hl2]; [done|]. pose proof (sizes_total l2 Hl2). cbn in *. lia.
Qed.
Lemma total_0 l : sizes_ok l → total l ≤ 0 → l = [].
Proof. destruct 1 as [|[s u] l Hs Hl]; cbn; [done|]. pose proof (sizes_total l Hl). cbn in *. lia. Qed.
Lemma suffix_short l1 l2 t : sizes_ok (l1 ++ l2) → t `suffix_of` l1 ++ l2 → total t ≤ total l2 → t `suffix_of` l2.
Proof.
  intros Hok [k E] Ht. apply app_eq_inv in E as [(k' & -> & ->)|(k' & -> & ->)]; [|by exists k'].
  apply Forall_app in Hok as [Hok _]. apply Forall_app in Hok as [_ Hok]. rewrite total_app in Ht.
  rewrite (total_0 k' Hok) by lia. by exists [].
Qed.
Lemma best_run_suffix t l : sizes_ok l → t `suffix_of` l → best_run 0 t ≤ best_run 0 l.
Proof. intros Hl [k ->]. apply Forall_app in Hl as [Hk _]. by apply best_run_app. Qed.
Lemma kept_app w h e l1 l2 p p' : layout w h e (l1 ++ l2) → kept (h + total l1) l2 p p' → kept h (l1 ++ l2) p p'.
Proof using HA HP.
  intros Hl [K1 K2 K3]. apply layout_app in Hl as [Hl1 Hl2]. pose proof (layout_le _ _ _ _ Hl1). split; [done|intros x Hx; apply K2; lia|].
  intros b s x. rewrite used_at_app, elem_of_app. intros [Hin|Hin] Hx; [|eauto]. destruct (used_range _ _ _ _ _ _ Hl1 Hin) as (_ & ? & _). apply K2. lia.
Qed.
Lemma kept_trans h l l' p p1 p2 : kept h l p p1 → kept h l' p1 p2 → same_heap l l' → kept h l p p2.
Proof.
  intros [K1 K2 K3] [L1 L2 L3] E. split; [congruence|intros x Hx; rewrite L2, K2; done|]. intros b s x Hin Hx. rewrite <- (K3 b s x Hin Hx). rewrite E in Hin. eauto.
Qed.
Lemma heap_sizes p l : heap p l → sizes_ok l.
Proof using HA HP. intros H. eapply layout_sizes, H. Qed.
Lemma heap_keep p l p' l' : heap p l → shape p' = shape p → layout (m_words p') (m_first p) (m_end p) l' → (NEXT_FIT = true → m_rover p' ∈ starts (m_first p) l') → heap p' l'.
Proof. intros [H1 H2 H3 H4 H5 H6] (F1 & F2 & F3 & F4)%shape_eq Hl Hr. split; rewrite ?F2, ?F3; done. Qed.

(** A search of all blocks from one of them on. *)
Lemma scan_found need p l1 l2 ptr p' t1 t2 rest s s1 : heap p (l1 ++ l2) → MIN_BLOCK_SIZE ≤ need →
  found (m_first p + total l1) need l2 ptr p p' t1 t2 rest s s1 → found_in need (l1 ++ l2) ptr p p' (l1 ++ t1) t2 rest s s1.
Proof using HA HP.
  intros Hp Hmin [G1 G2 G3 G4 G5 G6 G7 G8]. pose proof (hp_layout _ _ Hp) as Hl. pose proof Hl as [Hl1 Hl2]%layout_app. pose proof min_facts.
  assert (Hlay : layout (m_words p') (m_first p) (m_end p) ((l1 ++ t1) ++ (s1, true) :: rest ++ t2)).
  { rewrite <- app_assoc. apply layout_app. split; [|done]. eapply layout_frame; [exact Hl1|]. intros x Hx. apply G1. lia. }
  assert (Hsame : same_heap (l1 ++ l2) ((l1 ++ t1) ++ (s, false) :: t2)) by (by rewrite <- app_assoc, <- G5).
  pose proof (layout_sizes _ _ _ _ Hlay) as Hok. apply Forall_app in Hok as [Hok1 [_ Hok2]%Forall_cons]. apply Forall_app in Hok2 as [_ Hok2].
  split; try done.
  - eapply heap_keep; [exact Hp|apply G1|done|]. intros Hf. rewrite <- app_assoc, starts_app, elem_of_app. destruct (G8 Hf) as [?|E]; [by right|].
    rewrite E. destruct l1 as [|[s0 u0] l1]; [right; cbn [total]; rewrite Z.add_0_r|left; cbn; by left].
    destruct t1 as [|[s0 u0] t1]; cbn; by left.
  - by eapply kept_app.
  - rewrite total_app. lia.
  - rewrite Hsame. etransitivity; [|apply best_run_free; done]. lia.
Qed.

(** A search of the whole heap in one go. *)
Lemma scan_all need p l sc : heap p l → MIN_BLOCK_SIZE ≤ need → (BLOCK_ALIGN | need) →
  ∃ ptr sc' p', ScanRange (walk p) (m_first p) (m_end p) need sc p = Ok (ptr, sc', p') ∧ find_post need l p ptr p'.
Proof using HA HP HWB.
  intros Hp Hn Ha. pose proof min_facts as Hmin. pose proof Hp as [Hf Hal He Hs Hl Hr].
  destruct (scan_spec need (m_end p) (walk p) Hn Ha (m_first p) p l sc Hl) as (ptr & sc' & p' & E & Hpost); try done; [lia|by eapply walk_enough|].
  exists ptr, sc', p'. split; [done|]. destruct Hpost as [[-> (t1 & t2 & M)]|[Hptr (t1 & t2 & rest & s & s1 & F)]]; [left|right]; (split; [done|]).
  - destruct M as [M1 M2 M3 M4 M5 M6 M7 M8 M9]. exists (t1 ++ t2). split; try done.
    + eapply heap_keep; [exact Hp|apply M1|done|auto].
    + rewrite M4. apply M7. pose proof (layout_total _ _ _ _ M3) as Et. rewrite total_app in Et.
      pose proof (layout_sizes _ _ _ _ M3) as [_ Hok]%Forall_app. rewrite (total_0 t2 Hok) by lia. cbn. lia.
  - exists t1, t2, rest, s, s1. apply (scan_found need p [] l); [done|done|]. cbn [total]. by rewrite Z.add_0_r.
Qed.
(** A search from the rover to the end found nothing. *)
Lemma first_pass need p p1 l1 l2 t1 t2 : heap p (l1 ++ l2) → l2 ≠ [] → m_rover p = m_first p + total l1 → MIN_BLOCK_SIZE ≤ need →
  missed (m_first p + total l1) (m_end p) need l2 p p1 t1 t2 →
  heap p1 (l1 ++ t1) ∧ same_heap (l1 ++ l2) (l1 ++ t1) ∧ best_run 0 t1 < need ∧ kept (m_first p) (l1 ++ l2) p p1 ∧ m_stats p1 = m_stats p.
Proof using HA HP.
  intros Hp Hne Hrov Hn [M1 M2 M3 M4 M5 M6 M7 M8 M9]. pose proof min_facts. pose proof (hp_layout _ _ Hp) as Hl. pose proof Hl as [Hl1 _]%layout_app.
  pose proof (layout_total _ _ _ _ M3) as Et. rewrite total_app in Et. pose proof (layout_sizes _ _ _ _ M3) as [_ Hok]%Forall_app.
  assert (Ht2 : t2 = []) by (apply total_0; [done|lia]). subst t2. rewrite app_nil_r in *. split_and!.
  - eapply heap_keep; [exact Hp|apply M1| |].
    + apply layout_app. split; [|done]. eapply layout_frame; [exact Hl1|]. intros x Hx. apply M1. lia.
    + intros Hf. rewrite starts_app, elem_of_app. right. apply M9; [done|]. rewrite Hrov. destruct l2 as [|[s u] l2]; [done|]. cbn. by left.
  - by rewrite M4.
  - apply M7. cbn. lia.
  - by eapply kept_app.
  - done.
Qed.
(** Then the blocks before it are searched. *)
Lemma second_pass need p p1 l1 l2 t1 sc : heap p (l1 ++ l2) → MIN_BLOCK_SIZE ≤ need → (BLOCK_ALIGN | need) →
  heap p1 (l1 ++ t1) → same_heap (l1 ++ l2) (l1 ++ t1) → best_run 0 t1 < need → kept (m_first p) (l1 ++ l2) p p1 → m_stats p1 = m_stats p →
  ∃ ptr sc' p', ScanRange (walk p1) (m_first p1) (m_first p1 + total l1) need sc p1 = Ok (ptr, sc', p') ∧ find_post need (l1 ++ l2) p ptr p'.
Proof using HA HP HWB.
  intros Hp Hn Ha Hp1 Hsame Hrun Hk Hst. pose proof min_facts as Hmin. pose proof Hp1 as [Hf Hal He Hs Hl Hr].
  pose proof (heap_sizes _ _ Hp1) as Hok. pose proof (layout_total _ _ _ _ Hl) as Et. rewrite total_app in Et.
  assert (Ef : m_first p1 = m_first p) by (pose proof (shape_eq _ _ (kp_shape _ _ _ _ Hk)); tauto).
  pose proof Hok as [Hok1 Hok2]%Forall_app. pose proof (sizes_total _ Hok2).
  destruct (scan_spec need (m_first p1 + total l1) (walk p1) Hn Ha (m_first p1) p1 (l1 ++ t1) sc Hl) as (ptr & sc' & p' & E & Hpost); try done; [lia|lia|by eapply walk_enough|].
  exists ptr, sc', p'. split; [done|]. destruct Hpost as [[-> (u1 & u2 & M)]|[Hptr (u1 & u2 & rest & s & s1 & F)]]; [left|right]; (split; [done|]).
  - destruct M as [M1 M2 M3 M4 M5 M6 M7 M8 M9]. exists (u1 ++ u2). split.
    + eapply heap_keep; [exact Hp1|apply M1|done|auto].
    + rewrite Ef in M1. by eapply kept_trans.
    + congruence.
    + by rewrite Hsame.
    + rewrite Hsame, M4. apply M7. pose proof (layout_total _ _ _ _ M3) as Et'. rewrite total_app in Et'.
      eapply Z.le_lt_trans; [|exact Hrun]. apply best_run_suffix; [done|]. eapply suffix_short; [done|done|lia].
  - exists u1, u2, rest, s, s1. replace (m_first p1) with (m_first p1 + total []) in F by (cbn; lia). apply (scan_found need p1 [] (l1 ++ t1)) in F; [|done|done].
    destruct F as [F1 F2 F3 F4 F5 F6 F7 F8]. cbn [app] in *. rewrite Ef in *. split; try done.
    + by eapply kept_trans.
    + congruence.
    + by rewrite Hsame.
    + by rewrite Hsame.
Qed.

Lemma scan_find_spec need p l : heap p l → MIN_BLOCK_SIZE ≤ need → (BLOCK_ALIGN | need) →
  ∃ ptr sc p', FindFree_scan need p = Ok (ptr, sc, p') ∧ find_post need l p ptr p'.
Proof using HA HP HWB.
  intros Hp Hn Ha. unfold FindFree_scan. destruct NEXT_FIT eqn:Enf; [|by apply scan_all]. pose proof Hp as [Hf Hal He Hs Hl Hr]. cbv zeta.
  destruct (starts_split _ _ _ (Hr Enf)) as (l1 & l2 & -> & Hne & Er). pose proof Hl as [Hl1 Hl2]%layout_app.
  pose proof (layout_le _ _ _ _ Hl1). rewrite (proj2 (Z.eqb_neq (m_rover p) nullptr)) by (unfold nullptr; lia). cbn [negb].
  destruct (scan_spec need (m_end p) (walk p) Hn Ha (m_rover p) p l2 0) as (ptr & sc & p1 & -> & Hpost); [by rewrite Er|lia|lia|lia|lia|eapply walk_enough; [|exact Hl2]; lia|].
  cbn [mbind res_bind]. rewrite Er in Hpost. destruct Hpost as [[-> (t1 & t2 & M)]|[Hptr (t1 & t2 & rest & s & s1 & F)]].
  - destruct (first_pass need p p1 l1 l2 t1 t2 Hp Hne Er Hn M) as (P1 & P2 & P3 & P4 & P5).
    assert (Ef : m_first p1 = m_first p) by (pose proof (shape_eq _ _ (kp_shape _ _ _ _ P4)); tauto).
    rewrite Z.eqb_refl. cbn [andb]. destruct (Z.eqb_spec (m_rover p) (m_first p1)) as [E|E]; cbn [negb].
    + eexists _, _, _. split; [done|]. left. split; [done|]. exists (l1 ++ t1). split; try done. rewrite P2.
      pose proof (heap_sizes _ _ P1) as [Hok1 _]%Forall_app. rewrite (total_0 l1 Hok1) by lia. done.
    + rewrite Er, <- Ef. by eapply second_pass.
  - rewrite (proj2 (Z.eqb_neq ptr nullptr)) by done. cbn [andb]. eexists _, _, _. split; [done|]. right. split; [done|].
    exists (l1 ++ t1), t2, rest, s, s1. by apply scan_found.
Qed.
Lemma find_spec need p l : heap p l → MIN_BLOCK_SIZE ≤ need → (BLOCK_ALIGN | need) →
  ∃ ptr p', FindFree need p = Ok (ptr, p') ∧ find_post need l p ptr p'.
Proof using HA HP HWB.
  intros Hp Hn Ha. unfold FindFree. destruct (scan_find_spec need p l Hp Hn Ha) as (ptr & sc & p' & -> & Hpost). cbn [mbind res_bind].
  eexists _, _. split; [done|]. destruct (sc >? m_max_scan p'); [|done].
  destruct Hpost as [[-> (l' & [[] [] ? ? ?])]|[? (t1 & t2 & rest & s & s1 & [[] [] ? ? ? ? ? ?])]]; [left|right]; (split; [done|]).
  - exists l'. split; [by split|by split|done..].
  - exists t1, t2, rest, s, s1. split; [by split|by split|done..].
Qed.

(** ** Sizes *)

Lemma layout_divide w e l : ∀ a, layout w a e l → (BLOCK_ALIGN | total l).
Proof.
  induction l as [|[s u] l IH]; intros a; cbn; [intros _; apply Z.divide_0_r|]. intros [Hb Hl%IH]. apply Z.divide_add_r; [apply Hb|done].
Qed.
(** A request the pool accepts. *)
Definition request_ok (p : BytePool) (size : Z) : Prop := 0 < size ≤ GetMaxRequest p.
Lemma required_ok p l size : heap p l → request_ok p size →
  RequiredSize size = HEADER_SIZE + AlignSize (size + GUARD_SIZE) ∧ MIN_BLOCK_SIZE ≤ RequiredSize size ∧ (BLOCK_ALIGN | RequiredSize size) ∧
  HEADER_SIZE + size + GUARD_SIZE ≤ RequiredSize size ∧ RequiredSize size ≤ total l.
Proof using HA HP HWB.
  intros [Hf _ _ Hs Hl _] Hr. pose proof (layout_divide _ _ _ _ Hl) as Hdiv. pose proof (layout_total _ _ _ _ Hl) as Htot. destruct align_pow as (k & Hk & EA). destruct header_facts as [Hh Hhd]. destruct guard_range as [Hg _].
  assert (H32 : 2 ^ 32 ≤ 2 ^ WB) by (apply Z.pow_le_mono_r; lia).
  unfold request_ok, GetMaxRequest, GetSize in Hr. rewrite (proj2 (Z.eqb_neq (m_first p) nullptr)) in Hr by (unfold nullptr; lia). cbn [negb] in Hr.
  destruct (Z.geb_spec (m_end p - m_first p) MIN_BLOCK_SIZE) as [Hge|]; [|lia].
  assert (HhA : BLOCK_ALIGN ≤ HEADER_SIZE) by (apply Z.divide_pos_le; [lia|done]).
  unfold RequiredSize. rewrite (uw_small WB (size + GUARD_SIZE)) by lia. unfold AlignSize. rewrite EA in *.
  destruct (align_up WB ltac:(lia) (size + GUARD_SIZE) k ltac:(lia) ltac:(lia) ltac:(lia)) as [H1 H2]. set (y := Z.land (uw _) _) in *.
  assert (2 ^ k ≤ y) by (apply Z.divide_pos_le; [lia|done]).
  assert (y ≤ total l - HEADER_SIZE).
  { apply Z.le_ngt. intros Hlt. assert (2 ^ k ≤ y - (total l - HEADER_SIZE)); [|lia]. apply Z.divide_pos_le; [lia|]. by repeat apply Z.divide_sub_r. }
  rewrite uw_small by lia. unfold MIN_BLOCK_SIZE. rewrite ?EA.
  split_and!; [lia|lia|by apply Z.divide_add_r|lia|lia].
Qed.

(** ** Construction *)
Lemma ctor_spec storage size words p0 : 0 < storage → 0 ≤ size → storage + size < 2 ^ WB → BytePool_ctor storage size words = Ok p0 → IsStorageValid p0 = true →
  ∃ usable, heap p0 [(usable, false)] ∧ storage ≤ m_first p0 ∧ m_end p0 ≤ storage + size ∧ m_stats p0 = Stats_ctor usable.
Proof using HA HP HWB.
  intros Hst Hsz Htop E Hv. destruct align_pow as (k & Hk & EA). pose proof min_facts as Hmin. destruct header_facts as [Hh Hhd].
  assert (H32 : 2 ^ 32 ≤ 2 ^ WB) by (apply Z.pow_le_mono_r; lia). assert (HhA : BLOCK_ALIGN ≤ HEADER_SIZE) by (apply Z.divide_pos_le; [lia|done]).
  unfold BytePool_ctor in E. rewrite (proj2 (Z.eqb_neq storage nullptr)) in E by (unfold nullptr; lia). cbn [negb stk_assert] in E.
  destruct (Z.geb_spec size MIN_BLOCK_SIZE) as [Hge|]; cbn [stk_assert] in E; [|done]. injection E as <-.
  unfold Init in *. cbn [m_storage set_stats m_storage_size m_words m_stats m_max_scan] in *. rewrite (proj2 (Z.eqb_neq storage nullptr)) in * by (unfold nullptr; lia). cbn [negb] in *.
  unfold MIN_BLOCK_SIZE in Hge. unfold AlignSize in *. rewrite EA in Hge, HhA.
  destruct (align_up WB ltac:(lia) storage k ltac:(lia) ltac:(lia) ltac:(lia)) as [H1 H2]. rewrite EA in *. set (y := Z.land (uw _) _) in *.
  cbv zeta in *. rewrite (uw_small WB (y - storage)) in * by lia. rewrite (proj2 (Z.gtb_lt size (y - storage))) in * by lia.
  rewrite (mask_down WB ltac:(lia) (size - (y - storage)) k) in * by lia.
  assert (HM : POOL_SIZE_MAX = 0xFFFFFFFF / 2 ^ k * 2 ^ k) by (unfold POOL_SIZE_MAX; rewrite EA; apply mask_down; lia).
  set (us := if _ >? POOL_SIZE_MAX then _ else _) in *.
  assert (Hus : 0 ≤ us ≤ size - (y - storage) ∧ us < 2 ^ 32 ∧ (2 ^ k | us)).
  { pose proof (Z.mul_div_le (size - (y - storage)) (2 ^ k) ltac:(lia)). pose proof (Z.mul_div_le 0xFFFFFFFF (2 ^ k) ltac:(lia)).
    pose proof (Z.div_pos (size - (y - storage)) (2 ^ k) ltac:(lia) ltac:(lia)). pose proof (Z.div_pos 0xFFFFFFFF (2 ^ k) ltac:(lia) ltac:(lia)).
    unfold us. rewrite HM. destruct (Z.gtb_spec ((size - (y - storage)) / 2 ^ k * 2 ^ k) (0xFFFFFFFF / 2 ^ k * 2 ^ k)); (split; [nia|]); (split; [nia|apply Z.divide_factor_r]). }
  destruct Hus as (Hu1 & Hu2 & Hu3). destruct (Z.geb_spec us MIN_BLOCK_SIZE) as [Hum|]; [|done].
  replace (storage + (y - storage)) with y in * by lia. rewrite (uw_small WB y), (uw_small WB (y + us)) in * by lia.
  exists us. assert (Eu : u32 us = us) by (apply Z.mod_small; lia). split_and!; [split|..]; cbn [m_first m_end m_words m_rover m_stats]; try done; try lia.
  - by rewrite EA.
  - rewrite Eu. split; [|done]. split; [| |done|done|by rewrite EA].
    + unfold size_of. rewrite !rd_insert, decide_False, decide_True by lia. done.
    + unfold state_of. rewrite rd_insert, decide_True by lia. done.
  - intros _. cbn. by left.
Qed.
(** Storage with room for [n] bytes behind the first aligned address is accepted,
    and [n] bytes, rounded down to the alignment, can be used. *)
Lemma ctor_valid storage size words n : 0 < storage → storage + size < 2 ^ WB → size < 2 ^ 32 → storage + (BLOCK_ALIGN - 1) < 2 ^ WB →
  AlignSize storage - storage + n ≤ size → MIN_BLOCK_SIZE ≤ n →
  ∃ p0, BytePool_ctor storage size words = Ok p0 ∧ IsStorageValid p0 = true ∧ n / BLOCK_ALIGN * BLOCK_ALIGN ≤ m_end p0 - m_first p0.
Proof using HWB HA HP.
  intros Hst Htop H32 Hal Hroom Hn. destruct align_pow as (k & Hk & EA). pose proof min_facts as Hmf.
  assert (H2 : 0 < 2 ^ k) by lia. assert (HW : 2 ^ 32 ≤ 2 ^ WB) by (apply Z.pow_le_mono_r; lia).
  assert (Hmin : (2 ^ k | MIN_BLOCK_SIZE)) by (rewrite <- EA; by apply Z.divide_add_r, Z.divide_refl; apply header_facts).
  unfold BytePool_ctor. rewrite (proj2 (Z.eqb_neq storage nullptr)) by (unfold nullptr; lia). cbn [negb stk_assert].
  unfold AlignSize in Hroom. rewrite EA in Hal, Hroom. destruct (align_up WB ltac:(lia) storage k ltac:(lia) ltac:(lia) Hal) as [Hy Hyd].
  set (y := Z.land (Memory.uw _ _) _) in *. rewrite (proj2 (Z.geb_le _ _)) by lia. cbn [stk_assert]. eexists. split; [done|].
  assert (Hfl : MIN_BLOCK_SIZE ≤ n / 2 ^ k * 2 ^ k).
  { destruct Hmin as [q Eq]. rewrite Eq in *. apply Z.mul_le_mono_nonneg_r; [lia|]. apply Z.div_le_lower_bound; lia. }
  assert (Hle : ∀ a b, a ≤ b → a / 2 ^ k * 2 ^ k ≤ b / 2 ^ k * 2 ^ k) by (intros a b Hab; apply Z.mul_le_mono_nonneg_r; [lia|by apply Z.div_le_mono]).
  assert (HM : POOL_SIZE_MAX = 0xFFFFFFFF / 2 ^ k * 2 ^ k) by (unfold POOL_SIZE_MAX; rewrite EA; apply mask_down; lia).
  unfold Init. cbn [m_storage set_stats m_storage_size]. rewrite (proj2 (Z.eqb_neq storage nullptr)) by (unfold nullptr; lia). cbn [negb].
  unfold AlignSize. rewrite EA. fold y. cbv zeta. rewrite (uw_small WB (y - storage)), (proj2 (Z.gtb_lt size _)) by lia. rewrite (mask_down WB ltac:(lia) (size - (y - storage)) k) by lia.
  pose proof (Hle (size - (y - storage)) 0xFFFFFFFF ltac:(lia)). pose proof (Hle n (size - (y - storage)) ltac:(lia)).
  pose proof (Z.mul_div_le (size - (y - storage)) (2 ^ k) H2). rewrite HM.
  destruct (Z.gtb_spec ((size - (y - storage)) / 2 ^ k * 2 ^ k) (0xFFFFFFFF / 2 ^ k * 2 ^ k)); [lia|]. rewrite (proj2 (Z.geb_le _ _)) by lia.
  unfold IsStorageValid. cbn [m_first m_end]. replace (storage + (y - storage)) with y by lia. rewrite (uw_small WB y), (uw_small WB (y + _)) by lia.
  split; [|lia]. by rewrite (proj2 (Z.eqb_neq y nullptr)) by (unfold nullptr; lia).
Qed.

(** ** Reports *)

(** [GetInfo] reports the largest run, and the free bytes less a header per run. *)
Lemma info_loop l : ∀ fuel p h run av lg fr, layout (m_words p) h (m_end p) l → 0 ≤ m_end p - h < 2 ^ 32 → (length l < fuel)%nat → 0 ≤ run → 0 ≤ lg →
  ∃ av' fr', GetInfo_loop fuel h run (av, lg, fr) p = Ok (av', Z.max lg (best_run run l - HEADER_SIZE), fr') ∧
    av' + HEADER_SIZE * fr' = av + HEADER_SIZE * fr + run + (total l - used_total l).
Proof using HA HP HWB.
  destruct header_facts as [Hh _]. pose proof min_facts as Hmin.
  induction l as [|[s u] l IH]; intros fuel p h run av lg fr Hl He Hf Hr Hlg; (destruct fuel as [|fuel]; [cbn in Hf; lia|]); cbn [GetInfo_loop].
  - cbn in Hl. rewrite Hl, Z.ltb_irrefl. cbn [best_run total used_total]. unfold AccountRun. destruct (Z.eqb_spec run 0) as [->|Hne]; cbn [negb].
    + exists av, fr. split; [|lia]. rewrite Z.max_l by lia. done.
    + eexists _, _. split; [|shelve]. do 3 f_equal. destruct (Z.gtb_spec (run - HEADER_SIZE) lg); [rewrite Z.max_r by lia|rewrite Z.max_l by lia]; reflexivity.
      Unshelve. lia.
  - pose proof Hl as [Hb Hl2]. pose proof (ba_min _ _ _ _ Hb). pose proof (layout_le _ _ _ _ Hl2). rewrite (proj2 (Z.ltb_lt h (m_end p))) by lia.
    rewrite (block_sane p h s u l) by (done || lia). cbn [stk_assert]. unfold Next. rewrite (ba_state _ _ _ _ Hb), (ba_size _ _ _ _ Hb).
    cbn [total used_total best_run]. destruct u; cbn [st].
    + change (STATE_USED =? STATE_FREE) with false. cbv iota. unfold AccountRun. destruct (Z.eqb_spec run 0) as [->|Hne]; cbn [negb].
      * destruct (IH fuel p (h + s) 0 av lg fr) as (av' & fr' & E & Ea); [done|lia|cbn in Hf; lia|lia|lia|]. exists av', fr'. rewrite E. split; [|lia].
        pose proof (best_run_ge l (layout_sizes _ _ _ _ Hl2) 0). rewrite (Z.max_r 0) by lia. done.
      * destruct (IH fuel p (h + s) 0 (av + (run - HEADER_SIZE)) (Z.max lg (run - HEADER_SIZE)) (fr + 1)) as (av' & fr' & E & Ea); [done|lia|cbn in Hf; lia|lia|lia|].
        exists av', fr'. replace (if _ >? lg then _ else _) with (Z.max lg (run - HEADER_SIZE)) by (destruct (Z.gtb_spec (run - HEADER_SIZE) lg); lia).
        rewrite E. split; [|lia]. do 3 f_equal. lia.
    + rewrite Z.eqb_refl. destruct (IH fuel p (h + s) (run + s) av lg fr) as (av' & fr' & E & Ea); [done|lia|cbn in Hf; lia|lia|lia|]. exists av', fr'. rewrite E. split; [done|lia].
Qed.
Lemma info_spec p l : heap p l → ∃ av fr, GetInfo p = Ok (av, Z.max 0 (best_run 0 l - HEADER_SIZE), fr) ∧ av + HEADER_SIZE * fr = total l - used_total l.
Proof using HA HP HWB.
  intros [Hf _ _ Hs Hl _]. pose proof min_facts. unfold GetInfo. rewrite (proj2 (Z.eqb_neq (m_first p) nullptr)) by (unfold nullptr; lia). cbn [negb].
  destruct (info_loop l (walk p) p (m_first p) 0 0 0 0 Hl) as (av & fr & E & Ea); [lia|by eapply walk_enough|lia|lia|]. exists av, fr. split; [done|]. lia.
Qed.

(** [IsBlockStart] recognizes the blocks. *)
Lemma block_start_loop x l : ∀ fuel p h, layout (m_words p) h (m_end p) l → 0 < h → 0 ≤ m_end p - h < 2 ^ 32 → (length l < fuel)%nat →
  IsBlockStart_loop fuel h x p = Ok (bool_decide (x ∈ starts h l)).
Proof using HA HP HWB.
  pose proof min_facts as Hmin. induction l as [|[s u] l IH]; intros fuel p h Hl Hh He Hf; (destruct fuel as [|fuel]; [cbn in Hf; lia|]); cbn [IsBlockStart_loop];
    rewrite (proj2 (Z.eqb_neq h nullptr)) by (unfold nullptr; lia); cbn [negb andb].
  - cbn in Hl. rewrite <- Hl, Z.ltb_irrefl, andb_false_r. cbn [andb]. rewrite bool_decide_eq_false_2 by (apply not_elem_of_nil). done.
  - pose proof Hl as [Hb Hl2]. pose proof (ba_min _ _ _ _ Hb). pose proof (layout_le _ _ _ _ Hl2). rewrite (proj2 (Z.ltb_lt h (m_end p))) by lia.
    rewrite (block_sane p h s u l) by (done || lia). rewrite !andb_true_r. unfold Next. rewrite (ba_size _ _ _ _ Hb). cbn [starts].
    destruct (Z.leb_spec h x) as [Hle|Hgt].
    + destruct (Z.eqb_spec h x) as [->|Hne]; [by rewrite bool_decide_eq_true_2 by left|]. rewrite IH by (done || (cbn in Hf; lia)).
      f_equal. apply bool_decide_ext. rewrite elem_of_cons. split; [by right|intros [?|?]; congruence].
    + rewrite bool_decide_eq_false_2; [done|]. intros [?|Hin]%elem_of_cons; [lia|]. apply starts_ge in Hin; [lia|]. by eapply layout_sizes.
Qed.
Lemma starts_block w e l : ∀ a x, layout w a e l → x ∈ starts a l → ∃ s u, block_at w x s u ∧ (u = true → (x, s) ∈ used_at a l).
Proof.
  induction l as [|[s u] l IH]; intros a x; cbn; [by intros _ ?%not_elem_of_nil|]. intros [Hb Hl] [->|Hin]%elem_of_cons.
  - exists s, u. split; [done|]. intros ->. cbn. by left.
  - destruct (IH _ _ Hl Hin) as (s' & u' & H1 & H2). exists s', u'. split; [done|]. intros Hu. apply elem_of_app. right. auto.
Qed.
Lemma block_start_spec p l x : heap p l → IsBlockStart x p = Ok (bool_decide (x ∈ starts (m_first p) l)).
Proof using HA HP HWB. intros [Hf _ _ Hs Hl _]. pose proof min_facts. apply block_start_loop; [done|done|lia|by eapply walk_enough]. Qed.

(** ** Freeing *)

Lemma starts_flip l1 l2 s u u' a : starts a (l1 ++ (s, u) :: l2) = starts a (l1 ++ (s, u') :: l2).
Proof. by rewrite !starts_app. Qed.
(** The words of a block that is given back. *)
Definition freed_words (h s : Z) (w : gmap Z Z) : gmap Z Z :=
  let w := <[h + 4 := STATE_FREE]> w in if CHECKS then Fill (h + HEADER_SIZE) (s - HEADER_SIZE) FILL_FREE w else w.
Lemma freed_spec w h s : block_at w h s true → block_at (freed_words h s w) h s false ∧ ∀ x, ¬ (h ≤ x < h + s) → rd (freed_words h s w) x = rd w x.
Proof using HA HP.
  intros [H1 H2 _ H4 H5]. pose proof min_facts. destruct header_facts as [Hh _]. unfold freed_words. cbv zeta.
  assert (Hf : ∀ x, x < h + 8 ∨ h + s ≤ x → rd (if CHECKS then Fill (h + HEADER_SIZE) (s - HEADER_SIZE) FILL_FREE (<[h + 4 := STATE_FREE]> w) else <[h + 4 := STATE_FREE]> w) x =
    rd (<[h + 4 := STATE_FREE]> w) x).
  { intros x Hx. destruct CHECKS; [|done]. apply rd_Fill. lia. }
  split; [split|].
  - unfold size_of. rewrite Hf, rd_insert, decide_False by lia. done.
  - unfold state_of. rewrite Hf, rd_insert, decide_True by lia. done.
  - done.
  - done.
  - done.
  - intros x Hx. rewrite Hf, rd_insert, decide_False by lia. done.
Qed.
Record released (l1 l2 : list blk) (s : Z) (p p' : BytePool) (l' : list blk) : Prop := {
  rl_heap : heap p' l';
  rl_same : same_heap l' (l1 ++ (s, false) :: l2);
  rl_kept : kept (m_first p) (l1 ++ (s, false) :: l2) p p';
  rl_stats : RecordFree s (m_stats p) = Ok (m_stats p');
}.
Lemma coalesce_release p l1 l2 s stt : heap p (l1 ++ (s, true) :: l2) → RecordFree s (m_stats p) = Ok stt →
  let h := m_first p + total l1 in
  ∃ p' l', Coalesce (walk p) h (set_stats stt (set_words (freed_words h s (m_words p)) p)) = Ok p' ∧ released l1 l2 s p p' l'.
Proof using HA HP HWB.
  intros Hp Hst. cbv zeta. pose proof Hp as [Hf Hal He Hs Hl Hr]. pose proof min_facts. pose proof Hl as [Hl1 [Hb Hl2]]%layout_app.
  set (h := m_first p + total l1) in *.
  destruct (freed_spec _ _ _ Hb) as [Hb' Hw]. pose proof (layout_le _ _ _ _ Hl1). pose proof (layout_le _ _ _ _ Hl2). pose proof (ba_min _ _ _ _ Hb).
  set (w := freed_words h s (m_words p)) in *. set (p0 := set_stats stt (set_words w p)).
  assert (Hl0 : layout (m_words p0) h (m_end p0) ((s, false) :: l2)) by (split; [done|]; eapply layout_frame; [exact Hl2|]; intros x Hx; apply Hw; lia).
  destruct (coalesce_spec l2 (walk p) p0 h s Hl0) as (p' & s' & l' & E & [(w' & r & Ep) C2 C3 C4 C5 C6 C7 C8 C9]); [cbn; lia|eapply walk_enough; [|exact Hl2]; lia|].
  exists p', (l1 ++ (s', false) :: l'). split; [exact E|]. pose proof C2 as [Hb2 Hl2'].
  assert (Hsame : same_heap (l1 ++ (s', false) :: l') (l1 ++ (s, false) :: l2)) by (by rewrite C4).
  split.
  - eapply heap_keep; [exact Hp|by rewrite Ep| |].
    + apply layout_app. split; [|exact C2]. eapply layout_frame; [exact Hl1|]. intros x Hx. rewrite C7 by lia. apply Hw. lia.
    + intros Hnf. specialize (Hr Hnf). rewrite starts_app, elem_of_app in Hr. rewrite starts_app, elem_of_app. fold h in Hr. fold h. destruct Hr as [Hin|Hin].
      * left. rewrite C8; [done|]. cbn. pose proof (starts_lt _ (layout_sizes _ _ _ _ Hl1) _ _ Hin). unfold h. lia.
      * right. by apply C9.
  - done.
  - split; [by rewrite Ep| |].
    + intros x Hx. rewrite C7 by lia. apply Hw. lia.
    + intros b sb x Hin Hx. rewrite <- Hsame, used_at_app in Hin. fold h in Hin. cbn [used_at app] in Hin. apply elem_of_app in Hin as [Hin|Hin].
      * destruct (used_range _ _ _ _ _ _ Hl1 Hin) as (_ & ? & _). rewrite C7 by lia. apply Hw. lia.
      * destruct (used_range _ _ _ _ _ _ Hl2' Hin) as (? & _). rewrite C7 by lia. apply Hw. lia.
  - by rewrite Ep.
Qed.
Lemma free_spec (m : M) l1 l2 s : heap (fields m) (l1 ++ (s, true) :: l2) → s ≤ allocated (m_stats (fields m)) →
  ∃ p' l', Free (m_first (fields m) + total l1 + HEADER_SIZE) m = Ok (WakeAll 0 (set_fields p' m), true) ∧ released l1 l2 s (fields m) p' l'.
Proof using HA HP HWB.
  intros Hp Hst. set (p := fields m) in *. pose proof Hp as [Hf Hal He Hs Hl Hr]. pose proof min_facts. destruct header_facts as [Hh Hhd].
  pose proof Hl as [Hl1 [Hb Hl2]]%layout_app. set (h := m_first p + total l1) in *.
  pose proof (layout_le _ _ _ _ Hl1). pose proof (layout_le _ _ _ _ Hl2). pose proof (ba_min _ _ _ _ Hb). unfold MIN_BLOCK_SIZE in *.
  assert (Erf : RecordFree s (m_stats p) = Ok (mkStats (capacity (m_stats p)) (allocated (m_stats p) - s) (peak_allocated (m_stats p)) (allocate_count (m_stats p))
    (uw (free_count (m_stats p) + 1)) (alloc_fail_count (m_stats p)) (min_ever_free (m_stats p)))).
  { unfold Memory.RecordFree. destruct (Z.geb_spec (allocated (m_stats p)) s); [done|lia]. }
  destruct (coalesce_release p l1 l2 s _ Hp Erf) as (p' & l' & E & Hrel). fold h in E. exists p', l'. split; [|done].
  unfold Free. fold p. cbv zeta. rewrite (proj2 (Z.eqb_neq (h + HEADER_SIZE) nullptr)), (proj2 (Z.eqb_neq (m_first p) nullptr)) by (unfold nullptr; lia).
  cbn [negb andb]. rewrite (uw_small WB (m_first p + HEADER_SIZE)), (uw_small WB (h + HEADER_SIZE - m_first p)) by lia.
  rewrite (proj2 (Z.ltb_ge _ _)) by lia. rewrite Z.geb_leb, (proj2 (Z.leb_gt _ _)) by lia. cbn [orb negb stk_assert].
  assert (Hmod : (h + HEADER_SIZE - m_first p) `mod` BLOCK_ALIGN = 0).
  { apply Z.mod_divide; [lia|]. replace (h + HEADER_SIZE - m_first p) with (total l1 + HEADER_SIZE) by (unfold h; lia). apply Z.divide_add_r; [by eapply layout_divide|done]. }
  rewrite Hmod. cbn [Z.eqb stk_assert]. replace (h + HEADER_SIZE - HEADER_SIZE) with h by lia.
  rewrite (ba_state _ _ _ _ Hb). cbn [st]. rewrite Z.eqb_refl. cbn [stk_assert].
  assert (Hin : h ∈ starts (m_first p) (l1 ++ (s, true) :: l2)) by (rewrite starts_app; apply elem_of_app; right; cbn; by left).
  replace (if CHECKS then IsBlockStart h p else Ok true) with (Ok (A := bool) true); [|destruct CHECKS; [by rewrite (block_start_spec p _ h Hp), bool_decide_eq_true_2|done]].
  cbn [mbind res_bind stk_assert]. rewrite (block_sane p h s true l2) by (done || lia). rewrite (ba_size _ _ _ _ Hb).
  assert (Hg : negb GUARD || (rd (m_words p) (h + s - 4) =? GUARD_MAGIC) = true).
  { destruct GUARD eqn:Eg; [|done]. cbn. apply Z.eqb_eq. by apply Hb. }
  rewrite Hg. cbn [stk_assert]. rewrite Erf. cbn [mbind res_bind].
  fold (freed_words h s (m_words p)). by rewrite E.
Qed.
(** With the checks enabled, only the blocks that are in use can be freed. *)
Lemma byte_free_refused (m : M) l ptr : heap (fields m) l → CHECKS = true → ptr ≠ nullptr → (∀ b s, (b, s) ∈ used_at (m_first (fields m)) l → ptr ≠ b + HEADER_SIZE) →
  Free ptr m = Panic PANIC_ASSERT.
Proof using HA HP HWB.
  intros Hp Hc Hn Hnot. set (p := fields m) in *. pose proof Hp as [Hf Hal He Hs Hl Hr]. unfold Free. fold p. cbv zeta.
  rewrite (proj2 (Z.eqb_neq ptr nullptr)), (proj2 (Z.eqb_neq (m_first p) nullptr)) by (done || unfold nullptr; lia). cbn [negb andb].
  destruct (negb (_ || _)); cbn [stk_assert]; [|done]. destruct (_ =? 0); cbn [stk_assert]; [|done].
  destruct (Z.eqb_spec (state_of (m_words p) (ptr - HEADER_SIZE)) STATE_USED) as [E|]; cbn [stk_assert]; [|done].
  rewrite Hc, (block_start_spec p l _ Hp). cbn [mbind res_bind]. case_bool_decide as Hin; cbn [stk_assert]; [|done]. exfalso.
  destruct (starts_block _ _ _ _ _ Hl Hin) as (s & u & Hb & Hu). destruct u; [|rewrite (ba_state _ _ _ _ Hb) in E; done].
  apply (Hnot _ _ (Hu eq_refl)). lia.
Qed.

(** ** Segments *)

Lemma and_iff_compat_l_iff (P Q R : Prop) : (P → Q ↔ R) → P ∧ Q ↔ P ∧ R.
Proof. tauto. Qed.
Lemma Ok_inj {A} (x y : A) : Ok x = Ok y → x = y.
Proof. by intros [=]. Qed.
(** A call that is not refused waits only as a task, and wakes nobody. *)
Definition quiet (cx : ctx) (m m' : M) (o : outcome pc ret) : Prop := lists m' = lists m ∧ woken m' = woken m ∧ ∀ rem c, o = Blocked rem c → c_isr cx = false.
Lemma alloc_end_quiet cx r ptr m : quiet cx m (alloc_end r ptr m).1 (alloc_end r ptr m).2.
Proof. unfold alloc_end. cbn. by destruct (_ && _). Qed.
Lemma after_wait_quiet cx c r m again m' o : after_wait cx c r m again = Ok (m', o) →
  (∀ m0, lists m0 = lists m → woken m0 = woken m → again m0 = Ok (m', o) → quiet cx m0 m' o) → quiet cx m m' o.
Proof.
  intros E Hagain. assert (Hend : ∀ p r ptr, alloc_end r ptr (set_fields p m) = (m', o) → quiet cx m m' o).
  { intros p r' ptr E'. pose proof (alloc_end_quiet cx r' ptr (set_fields p m)) as H. by rewrite E' in H. }
  assert (Hend0 : ∀ r ptr, alloc_end r ptr m = (m', o) → quiet cx m m' o).
  { intros r' ptr E'. pose proof (alloc_end_quiet cx r' ptr m) as H. by rewrite E' in H. }
  unfold after_wait in E. destruct r; try (apply Ok_inj in E; by eapply Hend0); destruct (FindFree (pc_need c) (fields m)) as [[ptr p]|]; cbn [mbind res_bind] in E;
    try done; (destruct (negb _); [apply Ok_inj in E; by eapply Hend|]); [|apply Ok_inj in E; by eapply Hend].
  destruct (Hagain (set_fields p m) eq_refl eq_refl E) as (H1 & H2 & H3). done.
Qed.
Lemma alloc_loop_quiet cx c m m' o : alloc_loop cx c m = Ok (m', o) → quiet cx m m' o.
Proof.
  assert (Hend : ∀ r ptr, alloc_end r ptr m = (m', o) → quiet cx m m' o).
  { intros r ptr E. pose proof (alloc_end_quiet cx r ptr m) as H. by rewrite E in H. }
  unfold alloc_loop. cbv zeta. intros E. destruct (pc_timeout c =? NO_WAIT); [apply Ok_inj in E; by eapply Hend|].
  destruct (is_timed (pc_timeout c) && _); [apply Ok_inj in E; by eapply Hend|]. unfold CV_WaitEx in E.
  destruct (negb (_ =? NO_WAIT)) in E; cbn [mbind res_bind] in E.
  - destruct (c_isr cx) eqn:Ei; cbn in E; [done|]. injection E as <- <-. done.
  - eapply after_wait_quiet; [exact E|]. cbn beta. intros m0 _ _ E0. pose proof (alloc_end_quiet cx WAIT_RESULT_TIMEOUT nullptr m0) as H.
    apply Ok_inj in E0. by rewrite E0 in H.
Qed.
Lemma resume_quiet cx c r m m' o : resume cx c r m = Ok (m', o) → quiet cx m m' o.
Proof. intros E. eapply after_wait_quiet; [exact E|]. intros m0 _ _ E0. by eapply alloc_loop_quiet. Qed.
Lemma alloc_quiet cx size to m m' o : TimedAllocEx cx size to m = Ok (m', o) → quiet cx m m' o.
Proof.
  unfold TimedAllocEx. cbv zeta. destruct (_ && _); [done|]. destruct (_ || _); [intros [= <- <-]; by destruct (_ && _)|].
  destruct (FindFree _ (fields m)) as [[ptr p]|]; cbn [mbind res_bind]; [|done]. destruct (negb _).
  - intros E%Ok_inj. pose proof (alloc_end_quiet cx WAIT_RESULT_SIGNAL ptr (set_fields p m)) as H. by rewrite E in H.
  - intros E%alloc_loop_quiet. done.
Qed.
#[local] Arguments Coalesce : simpl never.
Lemma free_evolves ptr m m' b : Free ptr m = Ok (m', b) → evolves m m'.
Proof.
  unfold Free. cbv zeta. destruct (_ && _); [|intros [= <- <-]; eauto with stk].
  destruct (IsSane _ _); intros E; inv_res; [|eauto with stk].
  eapply evolves_trans; [|apply evolves_All]. eauto with stk.
Qed.
#[export] Instance bytepool_lawful : Lawful prim.
Proof.
  assert (Hq : ∀ cx m m' o, quiet cx m m' o → evolves m m') by (intros cx m m' o (H1 & H2 & _); by apply evolves_same).
  split; cbn.
  - intros cx [size to|ptr|a v] m m' o; cbn [enter].
    + intros E%alloc_quiet. by eapply Hq.
    + destruct (Free ptr m) as [[m1 b]|] eqn:E; cbn; [|done]. intros [= <- <-]. by eapply free_evolves.
    + intros [= <- <-]. unfold Write. eauto with stk.
  - intros cx c r m m' o E%resume_quiet. by eapply Hq.
  - intros cx [size to|ptr|a v] m m' rem c Hi; cbn [enter]; [|by destruct (Free ptr m) as [[]|]|done].
    intros (_ & _ & E)%alloc_quiet. by rewrite (E _ _ eq_refl) in Hi.
Qed.

(** ** What the program holds *)

Definition live_step (L : list (Z * Z)) (lab : label prim) : list (Z * Z) :=
  match lab with
  | LCall _ (CTimedAllocEx size _) (Some (RAlloc WAIT_RESULT_SIGNAL b)) => (b, size) :: L
  | LResume _ c _ (Some (RAlloc WAIT_RESULT_SIGNAL b)) => (b, pc_size c) :: L
  | LCall _ (CFree ptr) (Some (RFree true)) => filter (λ x, x.1 ≠ ptr) L
  | _ => L
  end.
(** The blocks handed out and not given back, with the sizes asked for. *)
Definition live (tr : list (label prim)) : list (Z * Z) := foldl live_step [] tr.
Lemma live_app tr lab : live (tr ++ [lab]) = live_step (live tr) lab.
Proof. unfold live. by rewrite foldl_app. Qed.
(** Interrupt handlers do not wait; the program frees what it holds and writes
    (words) into what it holds. *)
Definition pool_pre (tr : list (label prim)) (cx : ctx) (c : call) : Prop :=
  match c with
  | CTimedAllocEx size timeout_ticks => 0 ≤ size ∧ (c_isr cx = false ∨ timeout_ticks = NO_WAIT)
  | CFree ptr => ptr ∈ (live tr).*1
  | CWrite addr _ => ∃ b n, (b, n) ∈ live tr ∧ b ≤ addr < b + n ∧ (addr - b) `mod` 4 = 0
  end.

Record pool_inv (L : list (Z * Z)) (p : BytePool) (l : list blk) : Prop := {
  pv_heap : heap p l;
  pv_live : L.*1 ≡ₚ (λ x, x.1 + HEADER_SIZE) <$> used_at (m_first p) l;
  pv_fit b n : (b, n) ∈ L → ∃ s, (b - HEADER_SIZE, s) ∈ used_at (m_first p) l ∧ 0 < n ∧ HEADER_SIZE + n + GUARD_SIZE ≤ s;
  pv_alloc : allocated (m_stats p) = used_total l;
  pv_cap : capacity (m_stats p) = m_end p - m_first p;
}.
Definition data_kept (L : list (Z * Z)) (p p' : BytePool) : Prop := ∀ b n x, (b, n) ∈ L → b ≤ x < b + n → rd (m_words p') x = rd (m_words p) x.

Lemma used_split l : ∀ a b s, (b, s) ∈ used_at a l → ∃ l1 l2, l = l1 ++ (s, true) :: l2 ∧ b = a + total l1.
Proof.
  induction l as [|[s0 u] l IH]; intros a b s; cbn; [by intros ?%not_elem_of_nil|]. rewrite elem_of_app. intros [Hin|Hin].
  - destruct u; [|by apply not_elem_of_nil in Hin]. apply list_elem_of_singleton in Hin as [= -> ->]. exists [], l. cbn. split; [done|lia].
  - destruct (IH _ _ _ Hin) as (l1 & l2 & -> & ->). exists ((s0, u) :: l1), l2. cbn. split; [done|lia].
Qed.
Lemma used_ge l : sizes_ok l → ∀ a b s, (b, s) ∈ used_at a l → a ≤ b ∧ 0 < s.
Proof.
  induction 1 as [|[s0 u] l Hs _ IH]; intros a b s; cbn in *; [by intros ?%not_elem_of_nil|]. rewrite elem_of_app. intros [Hin|Hin].
  - destruct u; [|by apply not_elem_of_nil in Hin]. apply list_elem_of_singleton in Hin as [= -> ->]. lia.
  - apply IH in Hin. lia.
Qed.
Lemma used_NoDup l : sizes_ok l → ∀ a, NoDup (used_at a l).*1.
Proof.
  induction 1 as [|[s u] l Hs Hl IH]; intros a; cbn in *; [constructor|]. destruct u; cbn; [|apply IH]. constructor; [|apply IH].
  intros ([b s'] & -> & Hin)%list_elem_of_fmap. apply (used_ge l Hl) in Hin. cbn in Hin. lia.
Qed.
Lemma used_apart l : sizes_ok l → ∀ a b s b' s', (b, s) ∈ used_at a l → (b', s') ∈ used_at a l → b ≠ b' → b + s ≤ b' ∨ b' + s' ≤ b.
Proof.
  induction 1 as [|[s0 u] l Hs Hl IH]; intros a b s b' s'; cbn in *; [by intros ?%not_elem_of_nil|]. rewrite !elem_of_app.
  assert (Hh : ∀ c sc, (c, sc) ∈ (if u then [(a, s0)] else []) → c = a ∧ sc = s0) by (intros c sc; destruct u; [by intros [= -> ->]%list_elem_of_singleton|by intros ?%not_elem_of_nil]).
  intros [[-> ->]%Hh|H1] [[-> ->]%Hh|H2] Hne; [done|left; apply (used_ge l Hl) in H2; lia|right; apply (used_ge l Hl) in H1; lia|by eapply IH].
Qed.
Lemma used_total_range l : sizes_ok l → 0 ≤ used_total l ≤ total l.
Proof. induction 1 as [|[s []] l Hs _ IH]; cbn in *; lia. Qed.
(** The used blocks after a block was taken. *)
Lemma used_take a t1 t2 s s1 rest : split_of s s1 rest →
  used_at a (t1 ++ (s1, true) :: rest ++ t2) ≡ₚ (a + total t1, s1) :: used_at a (t1 ++ (s, false) :: t2) ∧
  used_total (t1 ++ (s1, true) :: rest ++ t2) = used_total (t1 ++ (s, false) :: t2) + s1.
Proof.
  intros Hs. rewrite !used_at_app, !used_total_app. cbn [used_at app used_total]. rewrite used_at_app, used_total_app.
  assert (H : total rest = s - s1 ∧ used_total rest = 0 ∧ ∀ a, used_at a rest = []) by (destruct Hs as [[-> ->]| ->]; cbn; split_and!; done || lia).
  destruct H as (H1 & H2 & H3). rewrite H1, H2, H3. replace (a + total t1 + s1 + (s - s1)) with (a + total t1 + s) by lia. cbn [app].
  split; [|lia]. by rewrite Permutation_middle.
Qed.

Lemma pool_inv_NoDup L p l : pool_inv L p l → NoDup L.*1.
Proof using HA HP.
  intros [Hp Hl _ _ _]. rewrite Hl. change (NoDup (((λ a, a + HEADER_SIZE) ∘ fst) <$> used_at (m_first p) l)). rewrite list_fmap_compose.
  apply NoDup_fmap_2; [intros x y; lia|].
  apply used_NoDup. by eapply heap_sizes.
Qed.
Lemma pool_inv_same L p l p' l' : pool_inv L p l → heap p' l' → same_heap l l' → shape p' = shape p →
  allocated (m_stats p') = allocated (m_stats p) → capacity (m_stats p') = capacity (m_stats p) → pool_inv L p' l'.
Proof.
  intros [V1 V2 V3 V4 V5] Hp Hs (F1 & F2 & F3 & F4)%shape_eq Ea Ec. split.
  - done.
  - by rewrite F2, <- Hs.
  - intros b n (s & Hin & Hn)%V3. exists s. by rewrite F2, <- Hs.
  - by rewrite Ea, <- Hs.
  - by rewrite Ec, F2, F3.
Qed.
Lemma kept_data L p p' l : pool_inv L p l → kept (m_first p) l p p' → data_kept L p p'.
Proof using HA HP.
  intros V K b n x Hin Hx. destruct (pv_fit _ _ _ V _ _ Hin) as (s & Hs & Hn & Hf). destruct header_facts as [Hh _]. destruct guard_range as [Hg _].
  eapply kp_used; [done|exact Hs|lia].
Qed.

(** ** Steps *)

Definition find_result (L : list (Z * Z)) (p : BytePool) (l : list blk) (size ptr : Z) (p' : BytePool) (l' : list blk) : Prop :=
  (ptr = nullptr ∧ pool_inv L p' l' ∧ best_run 0 l' = best_run 0 l ∧ best_run 0 l < RequiredSize size) ∨
  (ptr ≠ nullptr ∧ pool_inv ((ptr, size) :: L) p' l' ∧ best_run 0 l' ≤ best_run 0 l ∧ RequiredSize size ≤ best_run 0 l).
Lemma taken_inv L p l size ptr p' t1 t2 rest s s1 : pool_inv L p l → request_ok p size → found_in (RequiredSize size) l ptr p p' t1 t2 rest s s1 →
  pool_inv ((ptr, size) :: L) p' (t1 ++ (s1, true) :: rest ++ t2).
Proof using HA HP HWB.
  intros V Hr [F1 F2 F3 F4 F5 F6 F7 F8]. pose proof V as [V1 V2 V3 V4 V5]. destruct (required_ok p l size V1 Hr) as (_ & Hreq & _ & Hsz & _).
  destruct (shape_eq _ _ (kp_shape _ _ _ _ F2)) as (_ & E2 & E3 & _). destruct (used_take (m_first p) t1 t2 s s1 rest F4) as [Hu Ht].
  assert (Hal : used_total (t1 ++ (s1, true) :: rest ++ t2) = used_total l + s1) by (by rewrite Ht, F6).
  pose proof (used_total_range _ (heap_sizes _ _ F1)) as Hrange. pose proof (layout_total _ _ _ _ (hp_layout _ _ F1)) as Htot. pose proof (hp_size _ _ F1).
  pose proof (used_total_range _ (heap_sizes _ _ V1)). assert (H32 : 2 ^ 32 ≤ 2 ^ WB) by (apply Z.pow_le_mono_r; lia). destruct Hr as [Hr _]. pose proof min_facts.
  assert (Hs1 : 0 < s1) by lia. split.
  - done.
  - rewrite E2, Hu. cbn [fmap list_fmap fst]. rewrite <- F7. constructor. by rewrite V2, F6.
  - intros b n [[= -> ->]|Hin]%elem_of_cons.
    + exists s1. rewrite E2, Hu. split; [|lia]. rewrite F7. replace (m_first p + total t1 + HEADER_SIZE - HEADER_SIZE) with (m_first p + total t1) by lia. by left.
    + destruct (V3 b n Hin) as (sb & Hb & Hn). exists sb. rewrite E2, Hu, <- F6. split; [by right|done].
  - rewrite F3. unfold Memory.RecordAllocate. cbn [allocated]. rewrite V4, Hal. apply uw_small. lia.
  - rewrite F3. unfold Memory.RecordAllocate. cbn [capacity]. congruence.
Qed.
Lemma find_inv L p l size : pool_inv L p l → request_ok p size →
  ∃ ptr p' l', FindFree (RequiredSize size) p = Ok (ptr, p') ∧ shape p' = shape p ∧ data_kept L p p' ∧ find_result L p l size ptr p' l'.
Proof using HA HP HWB.
  intros V Hr. pose proof (pv_heap _ _ _ V) as Hp. destruct (required_ok p l size Hp Hr) as (_ & H1 & H2 & H3 & _).
  destruct (find_spec _ p l Hp H1 H2) as (ptr & p' & E & [[-> (l' & F)]|[Hn (t1 & t2 & rest & s & s1 & F)]]).
  - destruct F as [F1 F2 F3 F4 F5]. exists nullptr, p', l'. split; [done|]. split; [apply F2|]. split; [by eapply kept_data|]. left.
    split; [done|]. split; [eapply pool_inv_same; [done|done|done|apply F2|congruence|congruence]|]. rewrite F4 in *. done.
  - exists ptr, p', (t1 ++ (s1, true) :: rest ++ t2). split; [done|]. split; [apply F|]. split; [eapply kept_data; [done|apply F]|]. right.
    split; [done|]. split; [by eapply taken_inv|]. split; [|apply F]. rewrite (fi_same _ _ _ _ _ _ _ _ _ _ F).
    pose proof (heap_sizes _ _ (fi_heap _ _ _ _ _ _ _ _ _ _ F)) as Hok. apply Forall_app in Hok as [Hok1 [_ Hok2]%Forall_cons]. apply Forall_app in Hok2 as [Hok2 Hok3].
    apply best_run_use; [done|done| |apply (fi_split _ _ _ _ _ _ _ _ _ _ F)|done|lia]. pose proof (fi_need _ _ _ _ _ _ _ _ _ _ F). pose proof min_facts. lia.
Qed.
Lemma fail_inv L p l : pool_inv L p l → pool_inv L (set_stats (RecordAllocFail (m_stats p)) p) l.
Proof. intros [[] V2 V3 V4 V5]. split; [by split|done..]. Qed.

(** Whoever is on the wait list could not be served. *)
Definition pc_ok (p : BytePool) (c : pc) : Prop := request_ok p (pc_size c) ∧ pc_need c = RequiredSize (pc_size c).
Record world_inv (L : list (Z * Z)) (m : M) (susp : gmap Z pc) (l : list blk) : Prop := {
  wv_pool : pool_inv L (fields m) l;
  wv_pc t c : susp !! t = Some c → pc_ok (fields m) c;
  wv_wait t c : susp !! t = Some c → t ∈ wait_list 0 m → best_run 0 l < pc_need c;
}.
Lemma request_shape p p' n : shape p' = shape p → request_ok p n → request_ok p' n.
Proof. intros (_ & E2 & E3 & _)%shape_eq. unfold request_ok, GetMaxRequest, GetSize. by rewrite E2, E3. Qed.
Lemma world_fields L L' (m : M) p' susp l l' : world_inv L m susp l → pool_inv L' p' l' → shape p' = shape (fields m) → best_run 0 l' ≤ best_run 0 l →
  world_inv L' (set_fields p' m) susp l'.
Proof.
  intros [W1 W2 W3] V Hs Hb. split; [done|..].
  - intros t c [H1 H2]%W2. split; [by eapply request_shape|done].
  - intros t c Ht Hin. eapply Z.le_lt_trans; [exact Hb|]. by eapply W3.
Qed.

Definition live_of (L : list (Z * Z)) (size : Z) (o : outcome pc ret) : list (Z * Z) :=
  match o with Done (RAlloc WAIT_RESULT_SIGNAL b) => (b, size) :: L | _ => L end.
(** How a segment of an allocation ends. *)
Definition alloc_post (L : list (Z * Z)) (size t : Z) (m m' : M) (susp : gmap Z pc) (o : outcome pc ret) : Prop :=
  shape (fields m') = shape (fields m) ∧ data_kept L (fields m) (fields m') ∧
  let w := finish (P := prim) t m' o susp in ∃ l, world_inv (live_of L size o) (w_mon w) (w_susp w) l.
Lemma alloc_post_trans L size t (m m1 m' : M) susp o : shape (fields m1) = shape (fields m) → data_kept L (fields m) (fields m1) → alloc_post L size t m1 m' susp o → alloc_post L size t m m' susp o.
Proof. intros H1 H2 (H3 & H4 & H5). split; [congruence|]. split; [|done]. intros b n x Hin Hx. rewrite (H4 b n x Hin Hx). eauto. Qed.

Lemma timeout_post L size t (m : M) susp l : world_inv L m susp l →
  alloc_post L size t m (alloc_end WAIT_RESULT_TIMEOUT nullptr m).1 susp (alloc_end WAIT_RESULT_TIMEOUT nullptr m).2.
Proof.
  intros W. unfold alloc_end. cbn. split; [done|]. split; [done|]. exists l. eapply world_fields; [done|apply fail_inv, W|done|lia].
Qed.
Lemma block_post L t c rem (m : M) susp l : world_inv L m susp l → susp !! t = None → pc_ok (fields m) c → best_run 0 l < pc_need c →
  alloc_post L (pc_size c) t m m susp (Blocked rem c).
Proof.
  intros [W1 W2 W3] Hn Hc Hb. split; [done|]. split; [done|]. exists l. cbn. split; [done|..].
  - intros u c'. rewrite lookup_insert_Some. intros [[<- <-]|[_ Hu]]; [done|by eapply W2].
  - intros u c'. rewrite wait_list_Add, decide_True, elem_of_app by done. rewrite lookup_insert_Some.
    intros [[<- <-]|[Hne Hu]]; [done|]. intros [Hin|Hin]; [by eapply W3|]. apply list_elem_of_singleton in Hin. congruence.
Qed.

Lemma signal_post L size t ptr (m : M) p' susp l l' : world_inv L m susp l → shape p' = shape (fields m) → data_kept L (fields m) p' → ptr ≠ nullptr →
  pool_inv ((ptr, size) :: L) p' l' → best_run 0 l' ≤ best_run 0 l →
  alloc_post L size t m (alloc_end WAIT_RESULT_SIGNAL ptr (set_fields p' m)).1 susp (alloc_end WAIT_RESULT_SIGNAL ptr (set_fields p' m)).2.
Proof.
  intros W Hs Hd Hn V Hb. unfold alloc_end. rewrite (proj2 (Z.eqb_neq ptr nullptr)) by done. cbn [andb fst snd]. split; [done|]. split; [done|].
  exists l'. by eapply world_fields.
Qed.
(** A segment that begins with a search. *)
Lemma search_post L c t (m : M) susp l (next : Z → M → res (M * outcome pc ret)) : world_inv L m susp l → pc_ok (fields m) c →
  (∀ m1 l1, world_inv L m1 susp l1 → pc_ok (fields m1) c → best_run 0 l1 < pc_need c → ∃ m' o, next nullptr m1 = Ok (m', o) ∧ alloc_post L (pc_size c) t m1 m' susp o) →
  ∃ m' o, ('(ptr, p) ← FindFree (pc_need c) (fields m); let m := set_fields p m in
           if negb (ptr =? nullptr) then Ok (alloc_end WAIT_RESULT_SIGNAL ptr m) else next ptr m) = Ok (m', o) ∧ alloc_post L (pc_size c) t m m' susp o.
Proof using HA HP HWB.
  intros W [Hr En] Hnext. destruct (find_inv L (fields m) l (pc_size c) (wv_pool _ _ _ _ W) Hr) as (ptr & p' & l' & E & Hs & Hd & Hres). rewrite En, E. cbn [mbind res_bind].
  destruct Hres as [(-> & V & Eb & Hb)|(Hn & V & Hb & _)].
  - rewrite Z.eqb_refl. cbn [negb]. destruct (Hnext (set_fields p' m) l') as (m' & o & E' & Hpost).
    + eapply world_fields; [done|done|done|lia].
    + split; [by eapply request_shape|done].
    + rewrite En. lia.
    + exists m', o. split; [done|]. by eapply alloc_post_trans; [| |exact Hpost].
  - rewrite (proj2 (Z.eqb_neq ptr nullptr)) by done. cbn [negb]. pose proof (signal_post L (pc_size c) t ptr m p' susp l l' W Hs Hd Hn V Hb) as H.
    destruct (alloc_end WAIT_RESULT_SIGNAL ptr (set_fields p' m)) as [m' o]. by exists m', o.
Qed.
Lemma timeout_end L size t (m : M) susp l : world_inv L m susp l → ∃ m' o, Ok (alloc_end WAIT_RESULT_TIMEOUT nullptr m) = Ok (m', o) ∧ alloc_post L size t m m' susp o.
Proof. intros W. pose proof (timeout_post L size t m susp l W) as H. destruct (alloc_end _ _ m) as [m' o]. by exists m', o. Qed.
Lemma after_wait_post L cx c r t (m : M) susp l again : world_inv L m susp l → pc_ok (fields m) c →
  (∀ m1 l1, world_inv L m1 susp l1 → pc_ok (fields m1) c → best_run 0 l1 < pc_need c → ∃ m' o, again m1 = Ok (m', o) ∧ alloc_post L (pc_size c) t m1 m' susp o) →
  ∃ m' o, after_wait cx c r m again = Ok (m', o) ∧ alloc_post L (pc_size c) t m m' susp o.
Proof using HA HP HWB.
  intros W Hc Hagain. unfold after_wait. destruct r.
  - eexists _, _. split; [done|]. unfold alloc_end. cbn. split; [done|]. split; [done|]. by exists l.
  - by eapply (search_post L c t m susp l (λ _, again)).
  - eapply (search_post L c t m susp l (λ ptr m, Ok (alloc_end WAIT_RESULT_TIMEOUT ptr m))); [done|done|]. intros m1 l1 W1 _ _. by eapply timeout_end.
  - eexists _, _. split; [done|]. unfold alloc_end. cbn. split; [done|]. split; [done|]. by exists l.
Qed.
Lemma byte_alloc_loop_post L cx c (m : M) susp l : world_inv L m susp l → pc_ok (fields m) c → best_run 0 l < pc_need c →
  (c_isr cx = false → susp !! c_tid cx = None) → (c_isr cx = false ∨ pc_timeout c = NO_WAIT) →
  ∃ m' o, alloc_loop cx c m = Ok (m', o) ∧ alloc_post L (pc_size c) (c_tid cx) m m' susp o.
Proof using HA HP HWB.
  intros W Hc Hb Hn Hi. unfold alloc_loop. destruct (Z.eqb_spec (pc_timeout c) NO_WAIT) as [|Hne]; [by eapply timeout_end|]. cbv zeta.
  destruct (is_timed (pc_timeout c) && _); [by eapply timeout_end|]. destruct Hi as [Hi|]; [|done]. unfold CV_WaitEx. rewrite Hi. cbn [negb stk_assert].
  destruct (negb (_ =? NO_WAIT)); cbn [mbind res_bind].
  - eexists _, _. split; [done|]. eapply block_post; [done|by apply Hn|done|done].
  - eapply after_wait_post; [done|done|]. intros m1 l1 W1 _ _. by eapply timeout_end.
Qed.
Lemma alloc_enter_post L cx size to (m : M) susp l : world_inv L m susp l → 0 ≤ size → (c_isr cx = false ∨ to = NO_WAIT) → (c_isr cx = false → susp !! c_tid cx = None) →
  ∃ m' o, TimedAllocEx cx size to m = Ok (m', o) ∧ alloc_post L size (c_tid cx) m m' susp o.
Proof using HA HP HWB.
  intros W Hsz Hi Hn. unfold TimedAllocEx. cbv zeta. assert (Ei : c_isr cx && negb (to =? NO_WAIT) = false).
  { destruct Hi as [->| ->]; [done|]. apply andb_false_r. }
  rewrite Ei. destruct (Z.eqb_spec size 0) as [->|Hne]; cbn [orb negb andb].
  { eexists _, _. split; [done|]. split; [done|]. split; [done|]. by exists l. }
  destruct (Z.gtb_spec size (GetMaxRequest (fields m))) as [Hgt|Hle].
  { eexists _, _. split; [done|]. destruct (IsStorageValid (fields m)); [|split; [done|]; split; [done|]; by exists l].
    split; [done|]. split; [done|]. exists l. eapply world_fields; [done|apply fail_inv, W|done|lia]. }
  set (c := mkPc size (RequiredSize size) to _).
  apply (search_post L c (c_tid cx) m susp l (λ _, alloc_loop cx c)); [done|split; [split; cbn; lia|done]|].
  intros m1 l1 W1 Hc1 Hb1. by eapply byte_alloc_loop_post.
Qed.

Lemma release_used L p l1 l2 s : pool_inv L p (l1 ++ (s, true) :: l2) → let ptr := m_first p + total l1 + HEADER_SIZE in
  (filter (λ x, x.1 ≠ ptr) L).*1 ≡ₚ (λ x, x.1 + HEADER_SIZE) <$> used_at (m_first p) (l1 ++ (s, false) :: l2) ∧
  (∀ b n, (b, n) ∈ filter (λ x, x.1 ≠ ptr) L → ∃ sb, (b - HEADER_SIZE, sb) ∈ used_at (m_first p) (l1 ++ (s, false) :: l2) ∧ 0 < n ∧ HEADER_SIZE + n + GUARD_SIZE ≤ sb).
Proof using HA HP.
  intros V ptr. pose proof (pool_inv_NoDup _ _ _ V) as Hnd. pose proof V as [V1 V2 V3 _ _].
  assert (Hu : used_at (m_first p) (l1 ++ (s, true) :: l2) ≡ₚ (m_first p + total l1, s) :: used_at (m_first p) (l1 ++ (s, false) :: l2)).
  { rewrite !used_at_app. cbn [used_at app]. by rewrite Permutation_middle. }
  rewrite Hu in V2. cbn [fmap list_fmap fst] in V2. fold ptr in V2. rewrite V2 in Hnd. apply NoDup_cons in Hnd as [Hnin _]. split.
  - assert (Ef : (filter (λ x, x.1 ≠ ptr) L).*1 = filter (λ a, a ≠ ptr) L.*1).
    { clear. induction L as [|[b n] L IH]; [done|]. rewrite filter_cons. cbn [fmap list_fmap fst]. rewrite filter_cons. case_decide; cbn; by rewrite IH. }
    rewrite Ef, V2, filter_cons_False by (intros H; by apply H). change (filter (λ a, a ≠ ptr) ?k) with (list_remove1 ptr k). by rewrite remove1_notin.
  - intros b n [Hne Hin]%list_elem_of_filter. destruct (V3 b n Hin) as (sb & Hb & Hn). exists sb. split; [|done].
    rewrite Hu in Hb. apply elem_of_cons in Hb as [[= E _]|?]; [|done]. exfalso. apply Hne. unfold ptr. cbn. lia.
Qed.

Lemma byte_free_post L (m : M) susp l ptr : world_inv L m susp l → ptr ∈ L.*1 →
  ∃ m' l', Free ptr m = Ok (m', true) ∧ shape (fields m') = shape (fields m) ∧ data_kept (filter (λ x, x.1 ≠ ptr) L) (fields m) (fields m') ∧
    world_inv (filter (λ x, x.1 ≠ ptr) L) m' susp l'.
Proof using HA HP HWB.
  intros [V W2 W3] Hin. pose proof V as [V1 V2 V3 V4 V5]. rewrite V2 in Hin. apply list_elem_of_fmap in Hin as ([b s] & E & Hb). cbn in E.
  destruct (used_split _ _ _ _ Hb) as (l1 & l2 & -> & Eb). pose proof (used_total_range _ (heap_sizes _ _ V1)) as Hr.
  pose proof (heap_sizes _ _ V1) as Hok. apply Forall_app in Hok as [Hok1 [Hs Hok2]%Forall_cons]. cbn in Hs.
  destruct (release_used L _ l1 l2 s V) as [R1 R2].
  destruct (free_spec m l1 l2 s V1) as (p' & l' & Ef & [F1 F2 F3 F4]).
  { rewrite V4, used_total_app. cbn. pose proof (used_total_range _ Hok1). pose proof (used_total_range _ Hok2). lia. }
  rewrite <- Eb, <- E in Ef, R1, R2. pose proof (shape_eq _ _ (kp_shape _ _ _ _ F3)) as (_ & E2 & E3 & _).
  exists (WakeAll 0 (set_fields p' m)), l'. rewrite fields_WakeAll. split; [done|]. split; [apply F3|]. split.
  { intros c n x Hc Hx. destruct (R2 c n Hc) as (sc & Hsc & _ & Hf). destruct header_facts as [Hh _]. destruct guard_range as [Hg _].
    eapply kp_used; [exact F3|exact Hsc|lia]. }
  assert (V' : pool_inv (filter (λ x, x.1 ≠ ptr) L) p' l').
  { split; [done|..].
    - by rewrite E2, F2.
    - intros c n Hc. destruct (R2 c n Hc) as (sc & Hsc & H). exists sc. by rewrite E2, F2.
    - unfold Memory.RecordFree in F4. destruct (Z.geb_spec (allocated (m_stats (fields m))) s) as [Hge|]; cbn in F4; [|done]. injection F4 as F4.
      rewrite <- F4. cbn. rewrite F2, V4, !used_total_app. cbn. lia.
    - unfold Memory.RecordFree in F4. destruct (Z.geb_spec (allocated (m_stats (fields m))) s) as [Hge|]; cbn in F4; [|done]. injection F4 as F4.
      rewrite <- F4. cbn. by rewrite V5, E2, E3. }
  split.
  - by rewrite fields_WakeAll.
  - intros t c [H1 H2]%W2. rewrite fields_WakeAll. split; [eapply request_shape; [apply F3|done]|done].
  - intros t c _. rewrite wait_list_WakeAll, decide_True by done. by intros ?%not_elem_of_nil.
Qed.
Lemma layout_write w h e l b s x v : layout w h e l → (b, s) ∈ used_at h l → b + 8 ≤ x < b + s - GUARD_SIZE → layout (<[x := v]> w) h e l.
Proof using HA HP.
  intros Hl Hin Hx. destruct (used_split _ _ _ _ Hin) as (l1 & l2 & -> & ->). destruct guard_range as [Hg _].
  pose proof Hl as [Hl1 [Hb Hl2]]%layout_app. apply layout_app. split; [|split].
  - eapply layout_frame; [exact Hl1|]. intros y Hy. rewrite rd_insert, decide_False by lia. done.
  - pose proof Hb as [B1 B2 B3 B4 B5]. split; try done.
    + unfold size_of. rewrite rd_insert, decide_False by lia. done.
    + unfold state_of. rewrite rd_insert, decide_False by lia. done.
    + intros Hu Eg. unfold GUARD_SIZE in Hx. rewrite Eg in Hx. rewrite rd_insert, decide_False by lia. by apply B3.
  - eapply layout_frame; [exact Hl2|]. intros y Hy. rewrite rd_insert, decide_False by lia. done.
Qed.
Lemma byte_write_post L (m : M) susp l b n addr v : world_inv L m susp l → (b, n) ∈ L → b ≤ addr < b + n → world_inv L (Write addr v m) susp l.
Proof using HA HP HWB.
  intros W Hin Ha. pose proof W as [V _ _]. destruct (pv_fit _ _ _ V b n Hin) as (s & Hs & Hn & Hf). destruct header_facts as [Hh _].
  eapply world_fields; [exact W| |done|lia]. pose proof V as [[H1 H2 H3 H4 H5 H6] V2 V3 V4 V5]. split; try done. split; try done.
  eapply layout_write; [exact H5|exact Hs|lia].
Qed.
Lemma take_world L t (m : M) susp l : world_inv L m susp l → world_inv L (take_woken t m) (delete t susp) l.
Proof.
  intros [W1 W2 W3]. split; [done|..].
  - intros u c [_ H]%lookup_delete_Some. by eapply W2.
  - intros u c [_ H]%lookup_delete_Some. by eapply W3.
Qed.
Lemma abort_world L t r (m : M) susp l : world_inv L m susp l → world_inv L (RemoveWaitObject 0 t r m) susp l.
Proof.
  intros [W1 W2 W3]. split; [done|done|]. intros u c Hu. rewrite wait_list_Remove, decide_True by done. intros [Hin _]%elem_of_remove1. by eapply W3.
Qed.

(** Every permitted call and every return from a wait goes through. *)
Definition call_post (tr : list (label prim)) (t : Z) (m : M) (susp : gmap Z pc) (lab : label prim) (m' : M) (o : outcome pc ret) : Prop :=
  shape (fields m') = shape (fields m) ∧
  (∀ b n x, (b, n) ∈ live tr → (b, n) ∈ live (tr ++ [lab]) → b ≤ x < b + n → (∀ u v r, lab ≠ LCall (P := prim) u (CWrite x v) r) → rd (m_words (fields m')) x = rd (m_words (fields m)) x) ∧
  let w := finish (P := prim) t m' o susp in ∃ l, world_inv (live (tr ++ [lab])) (w_mon w) (w_susp w) l.
Lemma byte_enter_post tr (m : M) susp l cx c : world_inv (live tr) m susp l → (c_isr cx = false → susp !! c_tid cx = None) → pool_pre tr cx c →
  ∃ m' o, enter cx c m = Ok (m', o) ∧ call_post tr (c_tid cx) m susp (LCall (P := prim) (c_tid cx) c (returned (P := prim) o)) m' o.
Proof using HA HP HWB.
  intros W Hn Hpre. unfold call_post. setoid_rewrite live_app. destruct c as [size to|ptr|addr v]; cbn [enter pool_pre] in *.
  - destruct Hpre as [Hs Hi]. destruct (alloc_enter_post _ cx size to m susp l W Hs Hi Hn) as (m' & o & -> & H1 & H2 & l' & H3). exists m', o. split; [done|].
    split; [done|]. split; [intros b n x Hb _ Hx _; by eapply H2|]. exists l'. by destruct o as [[[]| |]|].
  - destruct (byte_free_post _ m susp l ptr W Hpre) as (m' & l' & -> & H1 & H2 & H3). cbn [mbind res_bind]. eexists _, _. split; [done|]. split; [done|]. cbn.
    split; [intros b n x _ Hb Hx _; by eapply H2|by exists l'].
  - destruct Hpre as (b & n & Hb & Ha & _). eexists _, _. split; [done|]. split; [done|]. cbn. split; [|exists l; by eapply byte_write_post].
    intros b' n' x _ _ _ Hne. unfold Write. cbn. rewrite rd_insert, decide_False; [done|]. intros ->. by eapply Hne.
Qed.
Lemma byte_resume_post tr (m : M) susp l cx c r : world_inv (live tr) m susp l → c_isr cx = false → susp !! c_tid cx = Some c →
  ∃ m' o, resume cx c r (take_woken (c_tid cx) m) = Ok (m', o) ∧
    call_post tr (c_tid cx) m (delete (c_tid cx) susp) (LResume (P := prim) (c_tid cx) c r (returned (P := prim) o)) m' o.
Proof using HA HP HWB.
  intros W Hi Hc. unfold call_post. setoid_rewrite live_app. pose proof (take_world _ (c_tid cx) _ _ _ W) as W'. unfold resume.
  destruct (after_wait_post (live tr) cx c r (c_tid cx) (take_woken (c_tid cx) m) (delete (c_tid cx) susp) l (alloc_loop cx c) W') as (m' & o & -> & H1 & H2 & l' & H3).
  - exact (wv_pc _ _ _ _ W _ _ Hc).
  - intros m1 l1 W1 Hc1 Hb1. eapply byte_alloc_loop_post; [done|done|done|intros _; apply lookup_delete_eq|by left].
  - exists m', o. split; [done|]. split; [done|]. split; [intros b n x Hb _ Hx _; by eapply H2|]. exists l'. by destruct o as [[[]| |]|].
Qed.
Lemma bytepool_step tr (w w' : World prim) lab l : world_inv (live tr) (w_mon w) (w_susp w) l → step pool_pre tr w lab w' →
  shape (fields (w_mon w')) = shape (fields (w_mon w)) ∧
  (∀ b n x, (b, n) ∈ live tr → (b, n) ∈ live (tr ++ [lab]) → b ≤ x < b + n → (∀ u v r, lab ≠ LCall (P := prim) u (CWrite x v) r) →
     rd (m_words (fields (w_mon w'))) x = rd (m_words (fields (w_mon w))) x) ∧
  ∃ l', world_inv (live (tr ++ [lab])) (w_mon w') (w_susp w') l'.
Proof using HA HP HWB.
  intros W Hs. destruct Hs as [w cx c m o Hpre Hn E|w cx p r m o Hisr Hpc Hr E|w t p r Hr Hpc Hl];
    destruct w as [m0 susp]; cbn [p_fields p_call p_pc p_ret p_cv p_enter p_resume prim w_mon w_susp] in *.
  - destruct (byte_enter_post tr m0 susp l cx c W Hn Hpre) as (m' & o' & E' & H). rewrite E' in E. injection E as <- <-. by destruct o'.
  - destruct (byte_resume_post tr m0 susp l cx p r W Hisr Hpc) as (m' & o' & E' & H). rewrite E' in E. injection E as <- <-. by destruct o'.
  - split; [done|]. split; [done|]. exists l. rewrite live_app. by apply abort_world.
Qed.
Lemma fresh_inv storage size words p0 : 0 < storage → 0 ≤ size → storage + size < 2 ^ WB → BytePool_ctor storage size words = Ok p0 → IsStorageValid p0 = true →
  storage ≤ m_first p0 ∧ m_end p0 ≤ storage + size ∧ ∃ us, pool_inv [] p0 [(us, false)].
Proof using HA HP HWB.
  intros H1 H2 H3 H4 H5. destruct (ctor_spec storage size words p0 H1 H2 H3 H4 H5) as (us & Hp & Hlo & Hhi & Hst). split_and!; [done..|]. exists us.
  pose proof (layout_total _ _ _ _ (hp_layout _ _ Hp)) as Et. cbn [total] in Et.
  split; [done|done|by intros ? ? ?%not_elem_of_nil|by rewrite Hst|rewrite Hst; cbn; lia].
Qed.
Lemma bytepool_run storage size words p0 tr (w : World prim) : 0 < storage → 0 ≤ size → storage + size < 2 ^ WB →
  BytePool_ctor storage size words = Ok p0 → IsStorageValid p0 = true → run pool_pre (mkWorld (P := prim) (init p0) ∅) tr w →
  shape (fields (w_mon w)) = shape p0 ∧ storage ≤ m_first p0 ∧ m_end p0 ≤ storage + size ∧ ∃ l, world_inv (live tr) (w_mon w) (w_susp w) l.
Proof using HA HP HWB.
  intros H1 H2 H3 H4 H5 Hrun. destruct (fresh_inv storage size words p0 H1 H2 H3 H4 H5) as (Hlo & Hhi & us & V).
  assert (H : shape (fields (w_mon w)) = shape p0 ∧ ∃ l, world_inv (live tr) (w_mon w) (w_susp w) l); [|tauto].
  induction Hrun as [|tr w lab w' _ (IH1 & l & IH2) Hs].
  - split; [done|]. exists [(us, false)]. by split.
  - destruct (bytepool_step tr w w' lab l IH2 Hs) as (E & _ & ?). split; [congruence|done].
Qed.

(** Where the blocks a program holds are. *)
Lemma held_range L p l b n : pool_inv L p l → (b, n) ∈ L → m_first p ≤ b ∧ b + n ≤ m_end p ∧ (BLOCK_ALIGN | b) ∧ 0 < n.
Proof using HA HP.
  intros [Hp V2 V3 _ _] (s & Hs & Hn & Hf)%V3. destruct header_facts as [Hh Hhd]. destruct guard_range as [Hg _].
  destruct (used_range _ _ _ _ _ _ (hp_layout _ _ Hp) Hs) as (R1 & R2 & Hb). split_and!; [lia|lia| |done].
  destruct (used_split _ _ _ _ Hs) as (l1 & l2 & -> & Eb). replace b with (m_first p + total l1 + HEADER_SIZE) by lia.
  pose proof (hp_layout _ _ Hp) as [Hl1 _]%layout_app. apply Z.divide_add_r; [|done]. apply Z.divide_add_r; [apply Hp|by eapply layout_divide].
Qed.
Lemma held_apart L p l b n b' n' : pool_inv L p l → (b, n) ∈ L → (b', n') ∈ L → b ≠ b' → b + n ≤ b' ∨ b' + n' ≤ b.
Proof using HA HP.
  intros [Hp V2 V3 _ _] (s & Hs & Hn & Hf)%V3 (s' & Hs' & Hn' & Hf')%V3 Hne. destruct header_facts as [Hh _]. destruct guard_range as [Hg _].
  destruct (used_apart _ (heap_sizes _ _ Hp) _ _ _ _ _ Hs Hs'); [lia|left; lia|right; lia].
Qed.
(** An allocation that does not wait. *)
Lemma try_alloc L (m : M) l cx n : pool_inv L (fields m) l → 0 ≤ n →
  ∃ m' r b l', TimedAllocEx cx n NO_WAIT m = Ok (m', Done (RAlloc r b)) ∧ (r = WAIT_RESULT_SIGNAL ↔ b ≠ nullptr) ∧
    shape (fields m') = shape (fields m) ∧ data_kept L (fields m) (fields m') ∧ pool_inv (if b =? nullptr then L else (b, n) :: L) (fields m') l' ∧
    (b ≠ nullptr ↔ request_ok (fields m) n ∧ RequiredSize n ≤ best_run 0 l).
Proof using HA HP HWB.
  intros V Hn. unfold TimedAllocEx. change (NO_WAIT =? NO_WAIT) with true. cbn [negb]. rewrite andb_false_r. cbv zeta. unfold request_ok.
  destruct (Z.eqb_spec n 0) as [->|Hne]; cbn [orb negb andb].
  { eexists _, _, nullptr, l. split; [done|]. cbn. split_and!; [done..|]. split; [done|lia]. }
  destruct (Z.gtb_spec n (GetMaxRequest (fields m))) as [Hgt|Hle].
  { eexists _, _, nullptr, l. split; [done|]. cbn. destruct (IsStorageValid (fields m)); (split_and!; [done..| |split; [done|lia]]); [by apply fail_inv|done]. }
  destruct (find_inv _ _ l n V ltac:(split; lia)) as (ptr & p' & l' & -> & Hs & Hk & [(-> & V' & _ & Hb)|(Hptr & V' & _ & Hb)]); cbn [mbind res_bind].
  - rewrite Z.eqb_refl. cbn [negb]. unfold alloc_loop. cbn [pc_timeout]. change (NO_WAIT =? NO_WAIT) with true. cbv iota. unfold alloc_end.
    eexists _, _, nullptr, l'. split; [done|]. cbn. split_and!; [done..|by apply fail_inv|]. split; [done|lia].
  - rewrite (proj2 (Z.eqb_neq ptr nullptr)) by done. cbn [negb]. unfold alloc_end. rewrite (proj2 (Z.eqb_neq ptr nullptr)) by done.
    eexists _, _, ptr, l'. split; [done|]. rewrite (proj2 (Z.eqb_neq ptr nullptr)) by done. cbn. split_and!; [done..|]. split; [|done]. intros _. lia.
Qed.

(** C38. Allocated memory is the program's own.  Of a byte pool whose constructor
    accepted its storage, in every run in which the program frees and writes
    only memory it holds: the blocks held at any time are distinct, aligned, lie
    inside the storage and do not overlap; nothing but a write of the program
    changes the data in a block while it is held; nobody waits for memory that
    a run of free blocks could provide; no call and no return from a wait fails;
    and with the checks enabled, freeing anything but a block that is held fails
    an assertion. *)
Theorem bytepool_safe storage size words p0 tr (w : World prim) : 0 < storage → 0 ≤ size → storage + size < 2 ^ WB →
  BytePool_ctor storage size words = Ok p0 → IsStorageValid p0 = true → run pool_pre (mkWorld (P := prim) (init p0) ∅) tr w →
  let m : M := w_mon w in let p := fields m in
  NoDup (live tr).*1 ∧
  (∀ b n, (b, n) ∈ live tr → storage ≤ b ∧ b + n ≤ storage + size ∧ b `mod` BLOCK_ALIGN = 0 ∧ 0 < n) ∧
  (∀ b n b' n', (b, n) ∈ live tr → (b', n') ∈ live tr → b ≠ b' → b + n ≤ b' ∨ b' + n' ≤ b) ∧
  (∀ lab w', step pool_pre tr w lab w' → ∀ b n x, (b, n) ∈ live tr → (b, n) ∈ live (tr ++ [lab]) → b ≤ x < b + n →
     (∀ u v r, lab ≠ LCall (P := prim) u (CWrite x v) r) → rd (m_words (fields (w_mon w'))) x = rd (m_words p) x) ∧
  (∀ t c, w_susp w !! t = Some c → t ∈ wait_list 0 m → ∃ av lg fr, GetInfo p = Ok (av, lg, fr) ∧ lg < AlignSize (pc_size c + GUARD_SIZE)) ∧
  (∀ cx c, pool_pre tr cx c → (c_isr cx = false → w_susp w !! c_tid cx = None) → ∃ m' o, enter cx c m = Ok (m', o)) ∧
  (∀ cx c r, c_isr cx = false → w_susp w !! c_tid cx = Some c → ∃ m' o, resume cx c r (take_woken (c_tid cx) m) = Ok (m', o)) ∧
  (CHECKS = true → ∀ ptr, ptr ∉ (live tr).*1 → ptr ≠ nullptr → Free ptr m = Panic PANIC_ASSERT).
Proof using HA HP HWB.
  intros H1 H2 H3 H4 H5 Hrun. destruct (bytepool_run _ _ _ _ _ _ H1 H2 H3 H4 H5 Hrun) as (Hsh & Hlo & Hhi & l & W). intros m p. subst p m.
  destruct w as [m susp]. cbn [p_fields p_call p_pc p_ret p_cv p_enter p_resume prim w_mon w_susp] in *.
  pose proof W as [V _ Hwait]. pose proof V as [Hp V2 V3 _ _]. destruct (shape_eq _ _ Hsh) as (_ & E2 & E3 & _).
  split_and!.
  - by eapply pool_inv_NoDup.
  - intros b n Hin. destruct (held_range _ _ _ _ _ V Hin) as (R1 & R2 & R3 & R4). split_and!; [lia|lia| |done]. apply Z.mod_divide; [lia|done].
  - intros b n b' n'. by eapply held_apart.
  - intros lab w' Hstep. by destruct (bytepool_step tr (mkWorld (P := prim) m susp) w' lab l W Hstep) as (_ & H & _).
  - intros t c Hc Ht. specialize (Hwait t c Hc Ht). destruct (wv_pc _ _ _ _ W t c Hc) as [Hr En]. destruct (info_spec _ _ Hp) as (av & fr & E & _).
    destruct (required_ok _ _ _ Hp Hr) as (Er & Hmin & _). eexists _, _, _. split; [exact E|]. unfold MIN_BLOCK_SIZE in Hmin. lia.
  - intros cx c Hpre Hn. destruct (byte_enter_post tr _ _ l cx c W Hn Hpre) as (m' & o & E & _). eauto.
  - intros cx c r Hi Hc. destruct (byte_resume_post tr _ _ l cx c r W Hi Hc) as (m' & o & E & _). eauto.
  - intros Hc ptr Hnin Hn. eapply byte_free_refused; [done|done|done|]. intros b s Hs ->. apply Hnin. rewrite V2. apply list_elem_of_fmap. by exists (b, s).
Qed.

(** An allocation that does not wait succeeds exactly when it can: if the
    request is not larger than the pool accepts and fits, with its alignment and
    guard, into the largest free run that GetInfo reports; it then returns the
    address of a block, and otherwise no block. *)
Theorem bytepool_exact storage size words p0 tr (w : World prim) : 0 < storage → 0 ≤ size → storage + size < 2 ^ WB →
  BytePool_ctor storage size words = Ok p0 → IsStorageValid p0 = true → run pool_pre (mkWorld (P := prim) (init p0) ∅) tr w →
  let m : M := w_mon w in
  ∃ av lg fr, GetInfo (fields m) = Ok (av, lg, fr) ∧ av + HEADER_SIZE * fr = GetAvailable (m_stats (fields m)) ∧
  ∀ cx n, 0 ≤ n → ∃ m' r b, TimedAllocEx cx n NO_WAIT m = Ok (m', Done (RAlloc r b)) ∧
    (r = WAIT_RESULT_SIGNAL ↔ 0 < n ≤ GetMaxRequest (fields m) ∧ AlignSize (n + GUARD_SIZE) ≤ lg) ∧ (r = WAIT_RESULT_SIGNAL ↔ b ≠ nullptr).
Proof using HA HP HWB.
  intros H1 H2 H3 H4 H5 Hrun. destruct (bytepool_run _ _ _ _ _ _ H1 H2 H3 H4 H5 Hrun) as (Hsh & Hlo & Hhi & l & W). intros m0. subst m0.
  destruct w as [m susp]. cbn [p_fields p_call p_pc p_ret p_cv p_enter p_resume prim w_mon w_susp] in *.
  pose proof W as [V _ _]. pose proof V as [Hp _ _ V4 V5]. destruct (info_spec _ _ Hp) as (av & fr & E & Eav).
  eexists _, _, _. split; [exact E|]. split.
  { rewrite Eav. unfold GetAvailable. rewrite V4, V5. pose proof (layout_total _ _ _ _ (hp_layout _ _ Hp)). pose proof (used_total_range _ (heap_sizes _ _ Hp)).
    destruct (Z.ltb_spec (used_total l) (m_end (fields m) - m_first (fields m))); lia. }
  intros cx n Hn. destruct (try_alloc _ _ l cx n V Hn) as (m' & r & b & l' & Ea & Hr & _ & _ & _ & Hb). exists m', r, b. split; [done|]. split; [|done].
  rewrite Hr, Hb. apply and_iff_compat_l_iff. intros Hreq. destruct (required_ok _ _ _ Hp Hreq) as (Er & Hmin & _). unfold MIN_BLOCK_SIZE in Hmin. lia.
Qed.
End pool.

(** A pool of 88 bytes on a 32-bit machine, with guards, checks and next fit: a
    third task waits for more than there is in one piece, is woken by a free
    that is not enough and by one that is. *)
Notation ex_prim := (prim 32 8 true true true).
Definition ex_p0 : BytePool :=
  match BytePool_ctor 32 8 1003 100 ∅ with Ok p => p | Panic _ => mkPool 0 0 0 0 ∅ 0 (Stats_ctor 0) 0 end.
Definition ex_cx (t : Z) : ctx := mkCtx t 0 false.
Definition ex_call (t : Z) (c : call) : action ex_prim := ACall (P := ex_prim) (ex_cx t) c.
Definition ex_preb (tr : list (label ex_prim)) (cx : ctx) (c : call) : bool :=
  match c with
  | CTimedAllocEx size to => (0 <=? size) && (negb (c_isr cx) || (to =? NO_WAIT))
  | CFree ptr => bool_decide (ptr ∈ (live 32 8 true true true tr).*1)
  | CWrite addr _ => existsb (λ x, (x.1 <=? addr) && (addr <? x.1 + x.2) && ((addr - x.1) `mod` 4 =? 0)) (live 32 8 true true true tr)
  end.
Lemma bytepool_ex_pre tr cx c : ex_preb tr cx c = true → pool_pre 32 8 true true true tr cx c.
Proof.
  unfold ex_preb, pool_pre. destruct c as [size to|ptr|addr v]; [|by intros ?%bool_decide_eq_true|].
  - intros [?%Z.leb_le [?%negb_true_iff|?%Z.eqb_eq]%orb_true_iff]%andb_true_iff; auto.
  - intros ([b n] & Hin & H)%existsb_exists. exists b, n. apply list_elem_of_In in Hin. cbn in H. split; [done|]. lia.
Qed.
Definition ex_world0 : World ex_prim := mkWorld (P := ex_prim) (init ex_p0) ∅.
Definition ex_acts : list (action ex_prim) :=
  [ex_call 1 (CTimedAllocEx 10 10); ex_call 2 (CTimedAllocEx 20 10); ex_call 3 (CTimedAllocEx 30 10); ex_call 1 (CWrite 1016 77);
   ex_call 1 (CFree 1016); AResume (ex_cx 3); ex_call 2 (CWrite 1044 78); ex_call 2 (CFree 1040); AResume (ex_cx 3); ex_call 3 (CWrite 1068 79)].
Definition ex_end : list (label ex_prim) * World ex_prim := exec_all ex_preb ex_acts ex_world0.
Lemma bytepool_ex_run : run (pool_pre 32 8 true true true) ex_world0 ex_end.1 ex_end.2.
Proof. apply exec_all_run, bytepool_ex_pre. Qed.
Lemma bytepool_safe_witness : live 32 8 true true true ex_end.1 = [(1040, 30)] ∧ NoDup (live 32 8 true true true ex_end.1).*1.
Proof.
  split; [vm_compute; reflexivity|].
  apply (bytepool_safe 32 8 true true true ltac:(lia) ltac:(lia) eq_refl 1003 100 ∅ ex_p0 ex_end.1 ex_end.2);
    [lia|lia|lia|vm_compute; reflexivity|vm_compute; reflexivity|]. apply bytepool_ex_run.
Defined.
(** The largest run of the pool in that state has 16 bytes for a block. *)
Lemma bytepool_exact_witness : GetInfo 32 8 (fields (w_mon ex_end.2)) = Ok (24, 16, 2) ∧
  ∃ m' r b, TimedAllocEx 32 8 true true true (ex_cx 1) 12 NO_WAIT (w_mon ex_end.2) = Ok (m', Done (RAlloc r b)) ∧ r = WAIT_RESULT_SIGNAL.
Proof.
  assert (Hi : GetInfo 32 8 (fields (w_mon ex_end.2)) = Ok (24, 16, 2)) by (vm_compute; reflexivity). split; [exact Hi|].
  destruct (bytepool_exact 32 8 true true true ltac:(lia) ltac:(lia) eq_refl 1003 100 ∅ ex_p0 ex_end.1 ex_end.2) as (av & lg & fr & E & _ & H);
    [lia|lia|lia|vm_compute; reflexivity|vm_compute; reflexivity|apply bytepool_ex_run|].
  destruct (H (ex_cx 1) 12 ltac:(lia)) as (m' & r & b & E' & Hr & _). exists m', r, b. split; [exact E'|]. apply Hr.
  assert (lg = 16) as -> by (cut (Ok (av, lg, fr) = Ok (24, 16, 2)); [intros Heq; injection Heq; auto|exact (eq_trans (eq_sym E) Hi)]).
  split; [split; [lia|vm_compute; discriminate]|vm_compute; discriminate].
Defined.
End BytePool.
