(* ===== verification/Allocator.v ===== *)
(** * Allocator front end ([MemoryAllocator] of [memory/stk_memory_allocator.h])

    The front end hands requests to three functions the program supplies
    ([MemoryAllocator::Weak], a record of operations here) and adds aligned
    blocks, typed blocks and arrays, and the operators [new] and [delete].  What
    it relies on is the class [Backend]: the laws of an allocator over a memory of
    32-bit words.  [DefaultHeap.v] shows that the default heap, a byte pool,
    has them.

    An aligned block lies somewhere inside a larger one, and a pointer to the
    larger one is kept in front of it.  The theorems show, for every program that
    stays inside what it was given, that the memory handed out is as large and as
    aligned as asked for, never overlaps, keeps its contents, and that giving it
    back frees exactly the block it was taken from. *)

From S2P Require Import Prelude KernelTask Memory.
Import KTask Memory.
Local Open Scope Z_scope.

Module Allocator.

(** [MemoryAllocator::Weak]: functions that may be missing in a build. *)
Record WeakOps (S : Type) := mkWeak {
  Weak_Allocate : option (Z → S → res (Z * S));
  Weak_Free : option (Z → S → res S);
  Weak_GetStats : option (S → res Stats) }.
Global Arguments mkWeak {S}.
Global Arguments Weak_Allocate {S}.
Global Arguments Weak_Free {S}.
Global Arguments Weak_GetStats {S}.

(** The memory: words of 32 bits at multiples of 4. *)
Class WordMemory (S : Type) := { load : Z → S → Z; store : Z → Z → S → S }.

(** What the type of an element tells the templates. *)
Record TElement := mkType { sizeof : Z; trivially_default_constructible : bool; trivially_destructible : bool }.
(** What the templates do, in order: memory is obtained, objects are constructed
    and destroyed at their addresses, memory is given back. *)
Inductive lifetime := Obtain (p : Z) | Construct (p : Z) | Destroy (p : Z) | Release (p : Z).
#[global] Instance lifetime_eq_dec : EqDecision lifetime.
Proof. solve_decision. Defined.

Section front.
(** The number of bits of [Word], [size_t] and of a pointer. *)
Context (WB : Z) {S : Type} (W : WeakOps S) `{!WordMemory S}.
Implicit Types s : S.
Local Notation uw := (uw WB).
Local Notation unot := (unot WB).

Definition ptr_size : Z := WB / 8.
Definition max_size : Z := 2 ^ WB - 1.
Definition IsPow2 (v : Z) : bool := (v >? 0) && (Z.land v (v - 1) =? 0).
Definition AlignPow2 (v align : Z) : Z := Z.land (uw (v + (align - 1))) (unot (align - 1)).

(** A pointer in memory: the words it is made of. *)
Fixpoint store_words (n : nat) (a v : Z) s : S :=
  match n with O => s | Datatypes.S n => store_words n (a + 4) (v / 2 ^ 32) (store a (v `mod` 2 ^ 32) s) end.
Fixpoint load_words (n : nat) (a : Z) s : Z :=
  match n with O => 0 | Datatypes.S n => load a s + 2 ^ 32 * load_words n (a + 4) s end.
Definition ptr_words : nat := Z.to_nat (ptr_size / 4).
Definition store_ptr (a v : Z) s : S := store_words ptr_words a v s.
Definition load_ptr (a : Z) s : Z := load_words ptr_words a s.

(** ** The checked calls *)
Definition is_linked {A} (f : option A) : bool := match f with Some _ => true | None => false end.
Definition IsAvailable : bool := is_linked (Weak_Allocate W) && is_linked (Weak_Free W).
Definition Allocate (size : Z) s : res (Z * S) :=
  assert! IsAvailable;
  match Weak_Allocate W with Some f => f size s | None => Ok (nullptr, s) end.
Definition Free (ptr : Z) s : res S :=
  assert! IsAvailable;
  match Weak_Free W with Some f => f ptr s | None => Ok s end.
Definition GetStats s : res Stats :=
  match Weak_GetStats W with Some f => f s | None => Ok (Stats_ctor 0) end.

(** ** Aligned blocks *)
Definition aligned_space (offset : Z) : Z := Z.land (uw (0 - offset)) (ptr_size - 1).
Definition private_space (alignment offset : Z) : Z :=
  uw (ptr_size + aligned_space offset + (Z.max alignment ptr_size - 1)).
Definition aligned_of (raw alignment offset : Z) : Z :=
  let lowest := uw (raw + uw (ptr_size + aligned_space offset + offset)) in
  uw (AlignPow2 lowest (Z.max alignment ptr_size) - offset).
Definition AllocateAligned (size alignment offset : Z) s : res (Z * S) :=
  let pow2 := IsPow2 alignment in
  let offset_valid := (offset =? 0) || (offset <? size) in
  assert! pow2;
  if pow2 && offset_valid then
    let space := aligned_space offset in
    let private_space := private_space alignment offset in
    if size <=? max_size - private_space then
      '(raw, s) ← Allocate (private_space + size) s;
      if negb (raw =? nullptr) then
        let aligned := aligned_of raw alignment offset in
        let block_start := uw (aligned - (space + ptr_size)) in
        Ok (aligned, store_ptr block_start raw s)
      else Ok (nullptr, s)
    else Ok (nullptr, s)
  else Ok (nullptr, s).
Definition FreeAligned (ptr : Z) s : res S :=
  if negb (ptr =? nullptr) then
    let space := Z.land ptr (ptr_size - 1) in
    let block_start := uw (ptr - space - ptr_size) in
    Free (load_ptr block_start s) s
  else Ok s.

(** ** Typed blocks and arrays

    [args] tells whether constructor arguments are given. *)
Definition constructs (T : TElement) (args : bool) : bool := args || negb (trivially_default_constructible T).
Definition AllocateOneT (T : TElement) (args : bool) s : res (Z * list lifetime * S) :=
  '(ptr, s) ← Allocate (sizeof T) s;
  Ok (ptr, if negb (ptr =? nullptr) then Obtain ptr :: (if constructs T args then [Construct ptr] else []) else [], s).
(** The loop over [i] up to [count]. *)
Fixpoint construct_loop (n : nat) (ptr i size : Z) : list lifetime :=
  match n with O => [] | Datatypes.S n => Construct (ptr + i * size) :: construct_loop n ptr (i + 1) size end.
Definition AllocateArrayT (T : TElement) (count : Z) (args : bool) s : res (Z * list lifetime * S) :=
  if negb (count =? 0) && (count <=? max_size / sizeof T) then
    '(ptr, s) ← Allocate (uw (count * sizeof T)) s;
    Ok (ptr, if negb (ptr =? nullptr) then Obtain ptr :: (if constructs T args then construct_loop (Z.to_nat count) ptr 0 (sizeof T) else []) else [], s)
  else Ok (nullptr, [], s).
Definition FreeOneT (T : TElement) (ptr : Z) s : res (list lifetime * S) :=
  if negb (ptr =? nullptr) then
    let ev := if negb (trivially_destructible T) then [Destroy ptr] else [] in
    s ← Free ptr s;
    Ok (ev ++ [Release ptr], s)
  else Ok ([], s).
(** The loop from [count] down to 1. *)
Fixpoint destroy_loop (n : nat) (ptr size : Z) : list lifetime :=
  match n with O => [] | Datatypes.S n => Destroy (ptr + Z.of_nat n * size) :: destroy_loop n ptr size end.
Definition FreeArrayT (T : TElement) (ptr count : Z) s : res (list lifetime * S) :=
  if negb (ptr =? nullptr) then
    let ev := if negb (trivially_destructible T) then destroy_loop (Z.to_nat count) ptr (sizeof T) else [] in
    s ← Free ptr s;
    Ok (ev ++ [Release ptr], s)
  else Ok ([], s).

(** ** [operator new] and [operator delete]

    [X] is the state of the application, which [std::get_new_handler] reads: the
    installed handler is code of the application that may change this state and
    the heap.  It returns ([true]), or leaves [operator new] by an exception or by
    ending the program ([false]). *)
Inductive new_result := NewPtr (p : Z) | NewBadAlloc | NewTerminate | NewLeft.
(** [STK_MEMORY_NEW_HAS_EXCEPTIONS]. *)
Context (HAS_EXCEPTIONS : bool) {X : Type} (handler : X → option (X * S → res (bool * (X * S)))).
Fixpoint new_loop (fuel : nat) (n alignment : Z) (w : X * S) : res (option Z * (X * S)) :=
  match fuel with
  | O => Panic PANIC_FUEL
  | Datatypes.S fuel =>
      let '(x, s) := w in
      '(ptr, s) ← (if negb (alignment =? 0) then AllocateAligned n alignment 0 s else Allocate n s);
      if negb (ptr =? nullptr) then Ok (Some ptr, (x, s))
      else match handler x with
           | None => Ok (Some nullptr, (x, s))
           | Some h =>
               '(returned, w) ← h (x, s);
               if (returned : bool) then new_loop fuel n alignment w else Ok (None, w)
           end
  end.
Definition NewImpl (fuel : nat) (size alignment : Z) (throwing : bool) (w : X * S) : res (new_result * (X * S)) :=
  let n := if negb (size =? 0) then size else 1 in
  '(o, w) ← new_loop fuel n alignment w;
  Ok (match o with
      | None => NewLeft
      | Some ptr => if (ptr =? nullptr) && throwing then if HAS_EXCEPTIONS then NewBadAlloc else NewTerminate else NewPtr ptr
      end, w).
Definition DeleteImpl (ptr : Z) (aligned : bool) s : res S :=
  if aligned then FreeAligned ptr s else Free ptr s.

End front.

(** ** What the front end relies on *)

(** The contents of the blocks [L] are the same in both states. *)
Definition data_kept {S} `{!WordMemory S} (L : list (Z * Z)) (s s' : S) : Prop :=
  ∀ p n a, (p, n) ∈ L → p ≤ a → a + 4 ≤ p + n → load a s' = load a s.
Definition apart (b b' : Z * Z) : Prop := b.1 + b.2 ≤ b'.1 ∨ b'.1 + b'.2 ≤ b.1.
Definition without (p : Z) (L : list (Z * Z)) : list (Z * Z) := filter (λ b, b.1 ≠ p) L.

(** An allocator of blocks aligned to [A] in a memory of 32-bit words.  [bk_inv L s]:
    in the state [s] the blocks [L] (address and size) are handed out. *)
Class Backend (WB A : Z) {S : Type} (W : WeakOps S) `{!WordMemory S} := {
  bk_allocate : Z → S → res (Z * S);
  bk_free : Z → S → res S;
  bk_linked_allocate : Weak_Allocate W = Some bk_allocate;
  bk_linked_free : Weak_Free W = Some bk_free;
  bk_inv : list (Z * Z) → S → Prop;
  bk_range L s p n : bk_inv L s → (p, n) ∈ L → 0 < p ∧ 0 ≤ n ∧ p + n < 2 ^ WB ∧ (A | p);
  bk_distinct L s : bk_inv L s → NoDup L.*1;
  bk_apart L s b b' : bk_inv L s → b ∈ L → b' ∈ L → b.1 ≠ b'.1 → apart b b';
  bk_allocate_ok L s size : bk_inv L s → 0 ≤ size < 2 ^ WB →
    ∃ p s', bk_allocate size s = Ok (p, s') ∧ data_kept L s s' ∧ (p = nullptr ∧ bk_inv L s' ∨ p ≠ nullptr ∧ bk_inv ((p, size) :: L) s');
  bk_free_ok L s p : bk_inv L s → p ∈ L.*1 → ∃ s', bk_free p s = Ok s' ∧ data_kept (without p L) s s' ∧ bk_inv (without p L) s';
  bk_free_null L s : bk_inv L s → ∃ s', bk_free nullptr s = Ok s' ∧ data_kept L s s' ∧ bk_inv L s';
  bk_perm L L' s : bk_inv L s → L ≡ₚ L' → bk_inv L' s;
  bk_store L s p n a v : bk_inv L s → (p, n) ∈ L → p ≤ a → a + 4 ≤ p + n → (4 | a) → bk_inv L (store a v s);
  bk_load_store s a b v : load b (store a v s) = if decide (a = b) then v else load b s;
}.

Lemma filter_map_iff {X Y} (f : X → Y) (P : Y → Prop) (Q : X → Prop) `{∀ y, Decision (P y)} `{∀ x, Decision (Q x)} (l : list X) :
  (∀ x, x ∈ l → Q x ↔ P (f x)) → f <$> filter Q l = filter P (f <$> l).
Proof.
  induction l as [|x l IH]; intros Hl; [done|]. cbn [fmap list_fmap]. rewrite !filter_cons. specialize (IH (λ y Hy, Hl y (list_elem_of_further _ _ _ Hy))).
  destruct (Hl x (list_elem_of_here _ _)) as [H1 H2]. repeat case_decide; [|naive_solver..|done]. cbn [fmap list_fmap]. by f_equal.
Qed.
Lemma filter_all {X} (P : X → Prop) `{∀ x, Decision (P x)} (l : list X) : (∀ x, x ∈ l → P x) → filter P l = l.
Proof.
  induction l as [|x l IH]; intros Hl; [done|]. rewrite filter_cons_True by (apply Hl; by left). f_equal. apply IH. intros y Hy. apply Hl. by right.
Qed.

(** ** The position of an aligned block *)

Section position.
Context (WB : Z) (HWB : WB = 32 ∨ WB = 64).
Local Notation ptr_size := (ptr_size WB).
Local Notation aligned_space := (aligned_space WB).
Local Notation private_space := (private_space WB).
Local Notation aligned_of := (aligned_of WB).

Lemma ptr_size_pow : ∃ j, 2 ≤ j ≤ 3 ∧ ptr_size = 2 ^ j ∧ (ptr_size | 2 ^ WB).
Proof using HWB.
  unfold Allocator.ptr_size. destruct HWB as [->| ->]; [exists 2|exists 3]; (split; [lia|split; [done|]]); by apply Z.mod_divide.
Qed.
Lemma ptr_words_eq : 4 * Z.of_nat (ptr_words WB) = ptr_size ∧ 32 * Z.of_nat (ptr_words WB) = WB.
Proof using HWB. unfold ptr_words, Allocator.ptr_size. destruct HWB as [->| ->]; done. Qed.
Lemma low_bits x : Z.land x (ptr_size - 1) = x `mod` ptr_size.
Proof using HWB. destruct ptr_size_pow as (j & Hj & -> & _). rewrite <- Z.land_ones by lia. by rewrite Z.ones_equiv, Z.sub_1_r. Qed.
Lemma space_mod offset : aligned_space offset = (- offset) `mod` ptr_size.
Proof using HWB.
  unfold Allocator.aligned_space, uw. rewrite low_bits. destruct ptr_size_pow as (j & Hj & E & Hd).
  rewrite <- Znumtheory.Zmod_div_mod; [done| | |done]; [rewrite E; lia|lia].
Qed.
Lemma pow2_inv x : IsPow2 x = true → 0 < x ∧ ∃ k, 0 ≤ k ∧ x = 2 ^ k.
Proof.
  unfold IsPow2. rewrite andb_true_iff, Z.gtb_lt, Z.eqb_eq. intros [H1 H2]. split; [done|]. by apply one_bit.
Qed.
(** The larger of two powers of two is a multiple of both. *)
Lemma pow2_max x : IsPow2 x = true → ∃ k, 0 ≤ k ∧ Z.max x ptr_size = 2 ^ k ∧ (x | 2 ^ k) ∧ (ptr_size | 2 ^ k).
Proof using HWB.
  intros (_ & k & Hk & ->)%pow2_inv. destruct ptr_size_pow as (j & Hj & -> & _). destruct (Z.le_ge_cases k j).
  - exists j. rewrite Z.max_r by (by apply Z.pow_le_mono_r; lia). split_and!; [lia|done| |done]. exists (2 ^ (j - k)). rewrite <- Z.pow_add_r by lia. f_equal; lia.
  - exists k. rewrite Z.max_l by (by apply Z.pow_le_mono_r; lia). split_and!; [lia|done|done|]. exists (2 ^ (k - j)). rewrite <- Z.pow_add_r by lia. f_equal; lia.
Qed.
Lemma private_space_eq alignment offset : IsPow2 alignment = true → alignment < 2 ^ WB →
  private_space alignment offset = ptr_size + aligned_space offset + (Z.max alignment ptr_size - 1) ∧
  0 ≤ aligned_space offset < ptr_size ∧ 4 ≤ ptr_size ≤ private_space alignment offset.
Proof using HWB.
  intros Ha Hlt. destruct (pow2_inv _ Ha) as (H0 & k & Hk & Ek). destruct ptr_size_pow as (j & Hj & Ep & _).
  assert (Hp : 4 ≤ ptr_size ≤ 8) by (rewrite Ep; split; [change 4 with (2 ^ 2)|change 8 with (2 ^ 3)]; apply Z.pow_le_mono_r; lia).
  pose proof (Z.mod_pos_bound (- offset) ptr_size ltac:(lia)) as Hs. rewrite <- space_mod in Hs.
  assert (Hhalf : alignment ≤ 2 ^ (WB - 1)).
  { rewrite Ek in *. apply Z.pow_lt_mono_r_iff in Hlt; [|lia..]. apply Z.pow_le_mono_r; lia. }
  unfold Allocator.private_space. assert (32 + 2 ^ (WB - 1) < 2 ^ WB) by (destruct HWB as [->| ->]; done). assert (0 < 2 ^ (WB - 1)) by (apply Z.pow_pos_nonneg; lia). unfold uw. rewrite Z.mod_small by lia. lia.
Qed.
(** The aligned block lies inside the raw one, behind a slot for a pointer which
    [FreeAligned] finds from the low bits of its address. *)
Lemma aligned_facts raw size alignment offset : IsPow2 alignment = true → alignment < 2 ^ WB → 0 ≤ offset → offset = 0 ∨ offset < size → 0 ≤ size →
  0 < raw → raw + (private_space alignment offset + size) < 2 ^ WB →
  let p := aligned_of raw alignment offset in let space := aligned_space offset in
  (alignment | p + offset) ∧ raw ≤ p - space - ptr_size ∧ p ≤ raw + private_space alignment offset ∧
  Z.land p (ptr_size - 1) = space ∧ (ptr_size | p - space - ptr_size).
Proof using HWB.
  intros Ha Hlt Ho Hos Hsz Hraw Htop. destruct (private_space_eq alignment offset Ha Hlt) as (Ep & Hsp & Hps).
  destruct (pow2_max alignment Ha) as (k & Hk & Em & Hd1 & Hd2). cbv zeta. unfold Allocator.aligned_of, AlignPow2.
  assert (Hm : 0 < 2 ^ k) by (by apply Z.pow_pos_nonneg). rewrite Em in *. rewrite (uw_small WB (_ + _ + offset)) by lia. rewrite (uw_small WB (raw + _)) by lia.
  destruct (align_up WB ltac:(lia) (raw + (ptr_size + aligned_space offset + offset)) k Hk ltac:(lia) ltac:(lia)) as [Hy Hyd].
  set (y := Z.land _ _) in *. rewrite uw_small by lia.
  assert (Hmod : (y - offset) `mod` ptr_size = aligned_space offset).
  { rewrite space_mod. assert (Hyp : (ptr_size | y)) by (by etransitivity). destruct Hyp as [q ->].
    replace (q * ptr_size - offset) with (- offset + q * ptr_size) by lia. apply Z.mod_add. lia. }
  split_and!; [replace (y - offset + offset) with y by lia; by etransitivity|lia|lia|by rewrite low_bits|].
  apply Z.divide_sub_r; [|done]. exists ((y - offset) / ptr_size). pose proof (Z.div_mod (y - offset) ptr_size ltac:(lia)). lia.
Qed.
End position.

(** ** Programs that use the front end *)

(** A piece of memory a program holds: where it is and how large, the alignment it
    was asked for, and the block of the allocator it was taken from. *)
Record hold := mkHold { h_ptr : Z; h_size : Z; h_alignment : Z; h_offset : Z; h_aligned : bool; h_raw : Z; h_total : Z }.
Definition block_of (h : hold) : Z * Z := (h_raw h, h_total h).
Definition is_hold (p : Z) (aligned : bool) (h : hold) : Prop := h_ptr h = p ∧ h_aligned h = aligned.
#[export] Instance is_hold_dec p al h : Decision (is_hold p al h) := _.
Definition drop (p : Z) (aligned : bool) (H : list hold) : list hold := filter (λ h, ¬ is_hold p aligned h) H.

Inductive op (Y : Type) :=
| OAllocate (size : Z) | OAllocateAligned (size alignment offset : Z) | ONew (size alignment : Z) (throwing : bool)
| OFree (p : Z) | OFreeAligned (p : Z) | ODelete (p : Z) (aligned : bool)
| OStore (a v : Z) | OApp (y : Y).
Global Arguments OAllocate {Y}.
Global Arguments OAllocateAligned {Y}.
Global Arguments ONew {Y}.
Global Arguments OFree {Y}.
Global Arguments OFreeAligned {Y}.
Global Arguments ODelete {Y}.
Global Arguments OStore {Y}.
Global Arguments OApp {Y}.

Section client.
Context (WB A : Z) (HWB : WB = 32 ∨ WB = 64) {S : Type} (W : WeakOps S) `{!WordMemory S} `{!Backend WB A W}.
(** What else the application keeps ([OApp] sets it).  It determines, together with
    what the program holds, whether a new-handler is installed, and then what the
    handler does: the pieces it gives back, in order and with their kind, the
    state it leaves behind (with a different handler or none, perhaps), and
    whether it returns. *)
Context (HAS_EXCEPTIONS : bool) {Y : Type} (plan : Y → list hold → option (list (Z * bool) * Y * bool)).
(** How often handlers may return without having given anything back. *)
Context (patience : Y → nat).
Implicit Types s : S.
Implicit Types H : list hold.
Local Notation Allocate := (Allocate W).
Local Notation Free := (Free W).
Local Notation AllocateAligned := (AllocateAligned WB W).
Local Notation FreeAligned := (FreeAligned WB W).
Local Notation DeleteImpl := (DeleteImpl WB W).
Local Notation ptr_size := (ptr_size WB).
Local Notation load_ptr := (load_ptr WB).
Local Notation store_ptr := (store_ptr WB).

(** The slot in front of an aligned block. *)
Definition slot (p : Z) : Z := p - Z.land p (ptr_size - 1) - ptr_size.
Definition plain (p size : Z) : hold := mkHold p size A 0 false p size.
Definition aligned_hold (p size alignment offset : Z) s : hold :=
  mkHold p size alignment offset true (load_ptr (slot p) s) (private_space WB alignment offset + size).
Definition hold_if (p : Z) (h : hold) H : list hold := if p =? nullptr then H else h :: H.

Definition new_size (size : Z) : Z := if negb (size =? 0) then size else 1.
Definition new_hold (p size alignment : Z) s : hold := if alignment =? 0 then plain p size else aligned_hold p size alignment 0 s.

(** The installed handler as code: it deletes the pieces one after the other. *)
Fixpoint give_back (l : list (Z * bool)) (w : list hold * S) : res (list hold * S) :=
  match l with
  | [] => Ok w
  | (p, aligned) :: l => let '(H, s) := w in s ← DeleteImpl p aligned s; give_back l (drop p aligned H, s)
  end.
Definition handler (x : list hold * Y) : option ((list hold * Y) * S → res (bool * ((list hold * Y) * S))) :=
  match plan x.2 x.1 with
  | None => None
  | Some (l, y, returned) => Some (λ w, '(H, s) ← give_back l (w.1.1, w.2); Ok (returned, ((H, y), s)))
  end.
Local Notation NewImpl := (NewImpl WB W HAS_EXCEPTIONS handler).

(** One operation of a program: the pieces it has held all along, and the state
    afterwards, with what it holds then. *)
Definition exec (o : op Y) (w : (list hold * Y) * S) : res (list hold * ((list hold * Y) * S)) :=
  let '((H, y), s) := w in
  match o with
  | OAllocate size => '(p, s) ← Allocate size s; Ok (H, ((hold_if p (plain p size) H, y), s))
  | OAllocateAligned size alignment offset =>
      '(p, s) ← AllocateAligned size alignment offset s; Ok (H, ((hold_if p (aligned_hold p size alignment offset s) H, y), s))
  | ONew size alignment throwing =>
      '(r, ((H, y), s)) ← NewImpl (Datatypes.S (length H + patience y)) size alignment throwing w;
      Ok (H, ((match r with NewPtr p => hold_if p (new_hold p (new_size size) alignment s) H | _ => H end, y), s))
  | OFree p => s ← Free p s; Ok (drop p false H, ((drop p false H, y), s))
  | OFreeAligned p => s ← FreeAligned p s; Ok (drop p true H, ((drop p true H, y), s))
  | ODelete p aligned => s ← DeleteImpl p aligned s; Ok (drop p aligned H, ((drop p aligned H, y), s))
  | OStore a v => Ok (H, ((H, y), store a v s))
  | OApp y => Ok (H, ((H, y), s))
  end.
Definition holds (p : Z) (aligned : bool) H : Prop := p = nullptr ∨ ∃ h, h ∈ H ∧ is_hold p aligned h.
(** The program asks for sizes of its type and for alignments, gives back what it
    holds, and writes into what it holds. *)
Definition legal H (o : op Y) : Prop :=
  match o with
  | OAllocate size => 0 ≤ size < 2 ^ WB
  | OAllocateAligned size alignment offset => 0 ≤ size < 2 ^ WB ∧ IsPow2 alignment = true ∧ alignment < 2 ^ WB ∧ 0 ≤ offset < 2 ^ WB
  | ONew size alignment _ => 0 ≤ size < 2 ^ WB ∧ (alignment = 0 ∨ IsPow2 alignment = true ∧ alignment < 2 ^ WB)
  | OFree p => holds p false H
  | OFreeAligned p => holds p true H
  | ODelete p aligned => holds p aligned H
  | OStore a _ => ∃ h, h ∈ H ∧ h_ptr h ≤ a ∧ a + 4 ≤ h_ptr h + h_size h ∧ (4 | a)
  | OApp _ => True
  end.
Inductive reach (y0 : Y) (s0 : S) : (list hold * Y) * S → Prop :=
| reach_start : reach y0 s0 (([], y0), s0)
| reach_step w o kept w' : reach y0 s0 w → legal w.1.1 o → exec o w = Ok (kept, w') → reach y0 s0 w'.

(** Programs that run. *)
Definition holdsb (p : Z) (aligned : bool) H : bool := (p =? nullptr) || existsb (λ h, (h_ptr h =? p) && Bool.eqb (h_aligned h) aligned) H.
Definition sizeb (size : Z) : bool := (0 <=? size) && (size <? 2 ^ WB).
Definition legalb H (o : op Y) : bool :=
  match o with
  | OAllocate size => sizeb size
  | OAllocateAligned size alignment offset => sizeb size && IsPow2 alignment && (alignment <? 2 ^ WB) && sizeb offset
  | ONew size alignment _ => sizeb size && ((alignment =? 0) || IsPow2 alignment && (alignment <? 2 ^ WB))
  | OFree p => holdsb p false H
  | OFreeAligned p => holdsb p true H
  | ODelete p aligned => holdsb p aligned H
  | OStore a _ => existsb (λ h, (h_ptr h <=? a) && (a + 4 <=? h_ptr h + h_size h) && (a `mod` 4 =? 0)) H
  | OApp _ => true
  end.
Lemma holdsb_holds p al H : holdsb p al H = true → holds p al H.
Proof.
  unfold holdsb. rewrite orb_true_iff, Z.eqb_eq, existsb_exists. intros [->|(h & Hh & [E%Z.eqb_eq E2%eqb_prop]%andb_true_iff)]; [by left|right].
  exists h. split; [by apply list_elem_of_In|done].
Qed.
Lemma sizeb_size n : sizeb n = true → 0 ≤ n < 2 ^ WB.
Proof. unfold sizeb. rewrite andb_true_iff, Z.leb_le, Z.ltb_lt. done. Qed.
Lemma legalb_legal H o : legalb H o = true → legal H o.
Proof.
  destruct o as [size|size al off|size al thr|p|p|p al|a v|y]; cbn; try done; try apply holdsb_holds; rewrite ?andb_true_iff, ?orb_true_iff, ?andb_true_iff, ?Z.ltb_lt, ?Z.eqb_eq.
  - apply sizeb_size.
  - intros [[[H1%sizeb_size H2] H3] H4%sizeb_size]. done.
  - intros [H1%sizeb_size H2]. done.
  - intros (h & Hh & [[H1%Z.leb_le H2%Z.leb_le]%andb_true_iff H3%Z.eqb_eq]%andb_true_iff)%existsb_exists. exists h. split_and!; [by apply list_elem_of_In|done|done|].
    by apply Z.mod_divide.
Qed.
Fixpoint exec_all (ops : list (op Y)) (w : (list hold * Y) * S) : option ((list hold * Y) * S) :=
  match ops with
  | [] => Some w
  | o :: ops => if legalb w.1.1 o then match exec o w with Ok (_, w) => exec_all ops w | Panic _ => None end else None
  end.
Lemma exec_all_reach y0 s0 ops : ∀ w w', reach y0 s0 w → exec_all ops w = Some w' → reach y0 s0 w'.
Proof.
  induction ops as [|o ops IH]; intros w w' Hr E; cbn in E; [by injection E as <-|]. destruct (legalb w.1.1 o) eqn:El; [|done].
  destruct (exec o w) as [[kept w1]|] eqn:E1; [|done]. apply (IH w1); [|done]. by apply (reach_step _ _ w o kept w1); [|apply legalb_legal|].
Qed.

(** ** What holds in every run *)

(** Where a piece lies in its block, and that its slot points to the block. *)
Record hold_ok s (h : hold) : Prop := {
  ho_size : 0 ≤ h_size h;
  ho_align : (h_alignment h | h_ptr h + h_offset h);
  ho_end : h_ptr h + h_size h ≤ h_raw h + h_total h;
  ho_plain : h_aligned h = false → h_ptr h = h_raw h;
  ho_slot : h_aligned h = true → h_raw h ≤ slot (h_ptr h) ∧ (ptr_size | slot (h_ptr h)) ∧ load_ptr (slot (h_ptr h)) s = h_raw h;
}.
Record client_inv H s : Prop := {
  ci_blocks : bk_inv (block_of <$> H) s;
  ci_holds h : h ∈ H → hold_ok s h;
}.

(** *** Pointers in memory *)
Lemma load_store_words n : ∀ a b v s, (∀ i, 0 ≤ i < Z.of_nat n → b ≠ a + 4 * i) → load b (store_words n a v s) = load b s.
Proof using Backend0.
  induction n as [|n IH]; intros a b v s Hb; cbn; [done|]. rewrite IH; [|intros i Hi; specialize (Hb (i + 1)); lia].
  rewrite bk_load_store, decide_False; [done|]. specialize (Hb 0). lia.
Qed.
Lemma load_words_ext n : ∀ a s s', (∀ i, 0 ≤ i < Z.of_nat n → load (a + 4 * i) s' = load (a + 4 * i) s) → load_words n a s' = load_words n a s.
Proof.
  induction n as [|n IH]; intros a s s' Hl; cbn; [done|]. f_equal; [|f_equal; apply IH].
  - specialize (Hl 0). rewrite Z.add_0_r in Hl. apply Hl. lia.
  - intros i Hi. specialize (Hl (i + 1)). replace (a + 4 * (i + 1)) with (a + 4 + 4 * i) in Hl by lia. apply Hl. lia.
Qed.
Lemma load_words_store n : ∀ a v s, 0 ≤ v < 2 ^ (32 * Z.of_nat n) → load_words n a (store_words n a v s) = v.
Proof using Backend0.
  induction n as [|n IH]; intros a v s Hv; cbn [store_words load_words]; [change (32 * Z.of_nat 0) with 0 in Hv; lia|].
  assert (E : 2 ^ (32 * Z.of_nat (Datatypes.S n)) = 2 ^ 32 * 2 ^ (32 * Z.of_nat n)) by (rewrite <- Z.pow_add_r by lia; f_equal; lia).
  rewrite E in Hv. rewrite IH by (split; [apply Z.div_pos; lia|apply Z.div_lt_upper_bound; lia]).
  rewrite load_store_words by (intros; lia). rewrite bk_load_store, decide_True by done. pose proof (Z.div_mod v (2 ^ 32) ltac:(lia)). lia.
Qed.
Lemma load_store_ptr a v s : 0 ≤ v < 2 ^ WB → load_ptr a (store_ptr a v s) = v.
Proof using HWB Backend0. intros. apply load_words_store. destruct (ptr_words_eq WB HWB) as [_ ->]. done. Qed.
Lemma load_store_ptr_ne a b v s : b + 4 ≤ a ∨ a + ptr_size ≤ b → load b (store_ptr a v s) = load b s.
Proof using HWB Backend0. intros Hb. apply load_store_words. destruct (ptr_words_eq WB HWB) as [E _]. intros i Hi. lia. Qed.
Lemma load_ptr_ext a s s' : (∀ b, a ≤ b → b + 4 ≤ a + ptr_size → load b s' = load b s) → load_ptr a s' = load_ptr a s.
Proof using HWB. intros Hl. apply load_words_ext. destruct (ptr_words_eq WB HWB) as [E _]. intros i Hi. apply Hl; lia. Qed.
Lemma store_words_inv L n : ∀ a v s p m, bk_inv L s → (p, m) ∈ L → p ≤ a → a + 4 * Z.of_nat n ≤ p + m → (4 | a) → bk_inv L (store_words n a v s).
Proof.
  induction n as [|n IH]; intros a v s p m HL Hin Ha He Hd; cbn; [done|]. apply (IH _ _ _ p m); [|done|lia|lia|by apply Z.divide_add_r].
  apply (bk_store _ _ p m); try done. lia.
Qed.
Lemma store_ptr_inv L a v s p m : bk_inv L s → (p, m) ∈ L → p ≤ a → a + ptr_size ≤ p + m → (ptr_size | a) → bk_inv L (store_ptr a v s).
Proof using HWB Backend0.
  intros HL Hin Ha He Hd. destruct (ptr_words_eq WB HWB) as [E _]. apply (store_words_inv _ _ _ _ _ p m); try done; [lia|].
  etransitivity; [|exact Hd]. exists (Z.of_nat (ptr_words WB)). lia.
Qed.

(** *** The pieces and their blocks *)
Lemma front_allocate size s : Allocate size s = bk_allocate size s.
Proof. unfold Allocator.Allocate, IsAvailable. by rewrite bk_linked_allocate, bk_linked_free. Qed.
Lemma front_free p s : Free p s = bk_free p s.
Proof. unfold Allocator.Free, IsAvailable. by rewrite bk_linked_allocate, bk_linked_free. Qed.
Lemma slot_below p : 4 ≤ ptr_size ∧ slot p + ptr_size ≤ p.
Proof using HWB.
  destruct (ptr_size_pow WB HWB) as (j & Hj & E & _). assert (4 ≤ ptr_size) by (rewrite E; change 4 with (2 ^ 2); apply Z.pow_le_mono_r; lia).
  unfold slot. rewrite (low_bits WB HWB). pose proof (Z.mod_pos_bound p ptr_size ltac:(lia)). lia.
Qed.
Lemma raw_below s h : hold_ok s h → h_raw h ≤ h_ptr h.
Proof using HWB.
  intros [_ _ _ O4 O5]. destruct (slot_below (h_ptr h)). destruct (h_aligned h); [destruct (O5 eq_refl) as (? & _); lia|rewrite O4 by done; lia].
Qed.
Lemma block_in h H : h ∈ H → (h_raw h, h_total h) ∈ block_of <$> H.
Proof. intros Hin. change (block_of h ∈ block_of <$> H). by apply list_elem_of_fmap_2. Qed.
(** A piece survives what keeps the contents of its block. *)
Lemma hold_keep L s s' h : hold_ok s h → data_kept L s s' → block_of h ∈ L → hold_ok s' h.
Proof using HWB.
  intros [O1 O2 O3 O4 O5] Hk Hin. split; try done. intros (H1 & H2 & H3)%O5. split_and!; [done..|]. rewrite <- H3.
  apply load_ptr_ext. intros b Hb1 Hb2. destruct (slot_below (h_ptr h)). apply (Hk (h_raw h) (h_total h)); [done|lia|lia].
Qed.
Lemma holds_keep H s s' : (∀ h, h ∈ H → hold_ok s h) → data_kept (block_of <$> H) s s' → ∀ h, h ∈ H → hold_ok s' h.
Proof using HWB. intros Hh Hk h Hin. eapply hold_keep; [by apply Hh|exact Hk|by apply block_in]. Qed.
Lemma plain_ok s p size : 0 ≤ size → (A | p) → hold_ok s (plain p size).
Proof. intros Hs Ha. split; cbn; try done; [by rewrite Z.add_0_r]. Qed.
(** What an allocation does to what a program holds. *)
Definition alloc_ok H s p (h : hold) s' : Prop := client_inv (hold_if p h H) s' ∧ data_kept (block_of <$> H) s s'.

Lemma allocate_inv H s size : client_inv H s → 0 ≤ size < 2 ^ WB → ∃ p s', Allocate size s = Ok (p, s') ∧ alloc_ok H s p (plain p size) s'.
Proof using HWB.
  intros [C1 C2] Hs. rewrite front_allocate. destruct (bk_allocate_ok _ s size C1 Hs) as (p & s' & E & Hk & [[-> Hi]|[Hp Hi]]).
  - exists nullptr, s'. split; [done|]. split; [|done]. split; [done|]. by apply (holds_keep H s s').
  - exists p, s'. split; [done|]. split; [|done]. unfold hold_if. rewrite (proj2 (Z.eqb_neq p nullptr)) by done. split; [done|].
    intros h [->|Hin]%elem_of_cons; [|by apply (holds_keep H s s')]. apply plain_ok; [lia|]. eapply (bk_range _ _ p size Hi). by left.
Qed.

(** The slot of a fresh aligned block is written, nothing else. *)
Lemma aligned_inv H s s1 raw size alignment offset : let total := private_space WB alignment offset + size in let p := aligned_of WB raw alignment offset in
  IsPow2 alignment = true → alignment < 2 ^ WB → 0 ≤ offset → offset = 0 ∨ offset < size → 0 ≤ size →
  (∀ h, h ∈ H → hold_ok s h) → data_kept (block_of <$> H) s s1 → bk_inv ((raw, total) :: (block_of <$> H)) s1 →
  p ≠ nullptr ∧ uw WB (p - (aligned_space WB offset + ptr_size)) = slot p ∧
  alloc_ok H s p (aligned_hold p size alignment offset (store_ptr (slot p) raw s1)) (store_ptr (slot p) raw s1).
Proof using HWB.
  intros total p Ha Hlt Ho Hos Hsz Hh Hk Hi. destruct (bk_range _ _ raw total Hi ltac:(by left)) as (R1 & R2 & R3 & R4).
  destruct (aligned_facts WB HWB raw size alignment offset Ha Hlt Ho Hos Hsz R1 R3) as (F1 & F2 & F3 & F4 & F5). fold p in F1, F2, F3, F4, F5.
  destruct (private_space_eq WB HWB alignment offset Ha Hlt) as (_ & Hsp & Hps). destruct (slot_below p) as [Hp4 Hsl].
  assert (Es : slot p = p - aligned_space WB offset - ptr_size) by (unfold slot; by rewrite F4).
  assert (Hp : p ≠ nullptr) by (unfold nullptr; lia). split; [done|]. split; [rewrite Es, uw_small by lia; lia|].
  assert (Hkept : data_kept (block_of <$> H) s1 (store_ptr (slot p) raw s1)).
  { intros q n a Hq Hqa Hqe. apply load_store_ptr_ne. assert (q ≠ raw) by (pose proof (bk_distinct _ _ Hi) as [Hnin _]%NoDup_cons; intros ->; apply Hnin; by apply list_elem_of_fmap_2 with (f := fst) in Hq).
    destruct (bk_apart _ _ (q, n) (raw, total) Hi ltac:(by right) ltac:(by left) ltac:(done)); cbn in *; lia. }
  assert (Hkept' : data_kept (block_of <$> H) s (store_ptr (slot p) raw s1)).
  { intros q n a Hq Hqa Hqe. by rewrite (Hkept q n a), (Hk q n a). }
  split; [|done]. assert (El : load_ptr (slot p) (store_ptr (slot p) raw s1) = raw) by (apply load_store_ptr; lia).
  unfold hold_if. rewrite (proj2 (Z.eqb_neq p nullptr)) by done. unfold aligned_hold. rewrite El. split.
  - apply (store_ptr_inv _ _ _ _ raw total Hi); [by left|lia|lia|by rewrite Es].
  - intros h [->|Hin]%elem_of_cons; [|by apply (holds_keep H s)]. split; cbn; try done; [lia|]. intros _. rewrite Es at 1 2. by rewrite El.
Qed.
Lemma allocate_aligned_inv H s size alignment offset : client_inv H s → 0 ≤ size < 2 ^ WB → IsPow2 alignment = true → alignment < 2 ^ WB → 0 ≤ offset < 2 ^ WB →
  ∃ p s', AllocateAligned size alignment offset s = Ok (p, s') ∧ alloc_ok H s p (aligned_hold p size alignment offset s') s'.
Proof using HWB.
  intros C Hsz Ha Hlt Ho. pose proof C as [C1 C2]. unfold Allocator.AllocateAligned. rewrite Ha. cbn [stk_assert andb].
  assert (Hnone : ∀ s', client_inv H s' → data_kept (block_of <$> H) s s' → ∃ p s'', Ok (nullptr, s') = Ok (p, s'') ∧ alloc_ok H s p (aligned_hold p size alignment offset s'') s'').
  { intros s' Hc Hk. by exists nullptr, s'. }
  destruct ((offset =? 0) || (offset <? size)) eqn:Eo; [|by apply Hnone]. cbv zeta. destruct (_ <=? _) eqn:El; [|by apply Hnone].
  apply orb_true_iff in Eo. rewrite Z.eqb_eq, Z.ltb_lt in Eo. apply Z.leb_le in El. unfold max_size in El.
  destruct (private_space_eq WB HWB alignment offset Ha Hlt) as (_ & Hsp & Hps). rewrite front_allocate.
  destruct (bk_allocate_ok _ s (private_space WB alignment offset + size) C1 ltac:(lia)) as (raw & s1 & E & Hk & [[-> Hi]|[Hr Hi]]); rewrite E; cbn [mbind res_bind].
  - change (nullptr =? nullptr) with true. apply Hnone; [|done]. split; [done|]. by apply (holds_keep H s).
  - rewrite (proj2 (Z.eqb_neq raw nullptr)) by done. cbn [negb].
    destruct (aligned_inv H s s1 raw size alignment offset Ha Hlt ltac:(lia) Eo ltac:(lia) C2 Hk Hi) as (Hp & -> & Hok). by eexists _, _.
Qed.

(** *** Giving back *)
(** A piece is determined by its address and kind. *)
Lemma hold_unique H s h h' : client_inv H s → h ∈ H → h' ∈ H → is_hold (h_ptr h) (h_aligned h) h' → h_raw h' = h_raw h.
Proof.
  intros [_ C2] Hh Hh' [E1 E2]. destruct (C2 h Hh) as [_ _ _ P1 S1]. destruct (C2 h' Hh') as [_ _ _ P2 S2]. destruct (h_aligned h) eqn:Eh.
  - destruct (S1 eq_refl) as (_ & _ & <-). destruct (S2 E2) as (_ & _ & <-). by rewrite E1.
  - rewrite <- (P1 eq_refl), <- (P2 E2). done.
Qed.
Lemma same_block H s h h' : client_inv H s → h ∈ H → h' ∈ H → h_raw h = h_raw h' → h = h'.
Proof.
  intros [C1 _] Hh Hh' E. pose proof (bk_distinct _ _ C1) as Hnd. apply list_elem_of_lookup in Hh as [i Hi], Hh' as [j Hj].
  assert (i = j); [|by simplify_eq]. apply (NoDup_lookup _ i j (h_raw h) Hnd).
  - rewrite !list_lookup_fmap, Hi. done.
  - rewrite !list_lookup_fmap, Hj. by rewrite E.
Qed.
Lemma drop_blocks H s h : client_inv H s → h ∈ H → block_of <$> drop (h_ptr h) (h_aligned h) H = without (h_raw h) (block_of <$> H).
Proof.
  intros C Hh. apply filter_map_iff. intros h' Hh'. cbn. split; intros Hn E; apply Hn.
  - by rewrite (same_block H s h' h C Hh' Hh E).
  - symmetry. by rewrite (hold_unique H s h h').
Qed.
Lemma free_block H s h : client_inv H s → h ∈ H → let H' := drop (h_ptr h) (h_aligned h) H in
  ∃ s', Free (h_raw h) s = Ok s' ∧ client_inv H' s' ∧ data_kept (block_of <$> H') s s'.
Proof using HWB.
  intros C Hh. cbv zeta. pose proof C as [C1 C2]. rewrite (drop_blocks H s h C Hh), front_free.
  destruct (bk_free_ok _ s (h_raw h) C1) as (s' & E & Hk & Hi); [exact (list_elem_of_fmap_2 fst _ _ (block_in _ _ Hh))|].
  exists s'. split_and!; [done| |done]. rewrite <- (drop_blocks H s h C Hh) in Hk, Hi. split; [done|].
  apply (holds_keep _ s); [|done]. intros h' [_ Hh']%list_elem_of_filter. by apply C2.
Qed.
Lemma free_aligned_raw H s h : client_inv H s → h ∈ H → h_aligned h = true → FreeAligned (h_ptr h) s = Free (h_raw h) s.
Proof using HWB.
  intros [C1 C2] Hh Ea. destruct (C2 h Hh) as [_ _ O3 _ O5]. destruct (O5 Ea) as (R1 & _ & R3). destruct (slot_below (h_ptr h)) as [Hp Hs].
  destruct (bk_range _ _ _ _ C1 (block_in _ _ Hh)) as (B1 & B2 & B3 & _). destruct (C2 h Hh) as [O1 _ _ _ _]. unfold Allocator.FreeAligned.
  rewrite (proj2 (Z.eqb_neq (h_ptr h) nullptr)) by (unfold nullptr; lia). cbn [negb]. cbv zeta. change (h_ptr h - _ - ptr_size) with (slot (h_ptr h)).
  rewrite uw_small by lia. by rewrite R3.
Qed.
Lemma drop_null H s al : client_inv H s → drop nullptr al H = H.
Proof using HWB.
  intros [C1 C2]. apply filter_all. intros h Hh [E _]. destruct (C2 h Hh) as [O1 _ _ O4 O5].
  destruct (bk_range _ _ _ _ C1 (block_in _ _ Hh)) as (B1 & _). destruct (slot_below (h_ptr h)) as [Hp Hs]. unfold nullptr in E.
  destruct (h_aligned h); [destruct (O5 eq_refl) as (? & _)|specialize (O4 eq_refl)]; lia.
Qed.
Definition free_ok H s p al s' : Prop := client_inv (drop p al H) s' ∧ data_kept (block_of <$> drop p al H) s s'.
Lemma front_free_inv H s p : client_inv H s → holds p false H → ∃ s', Free p s = Ok s' ∧ free_ok H s p false s'.
Proof using HWB.
  intros C [->|(h & Hh & <- & Ea)]; unfold free_ok.
  - rewrite (drop_null H s false C), front_free. destruct (bk_free_null _ s (ci_blocks _ _ C)) as (s' & E & Hk & Hi). exists s'. split_and!; [done| |done].
    split; [done|]. apply (holds_keep H s); [apply C|done].
  - destruct (free_block H s h C Hh) as (s' & E & F). rewrite Ea in F. destruct (ci_holds _ _ C h Hh) as [_ _ _ O4 _]. rewrite (O4 Ea) in *. eauto.
Qed.
Lemma free_aligned_inv H s p : client_inv H s → holds p true H → ∃ s', FreeAligned p s = Ok s' ∧ free_ok H s p true s'.
Proof using HWB.
  intros C [->|(h & Hh & <- & Ea)]; unfold free_ok.
  - rewrite (drop_null H s true C). by exists s.
  - rewrite (free_aligned_raw H s h C Hh Ea). destruct (free_block H s h C Hh) as (s' & E & F). rewrite Ea in F. eauto.
Qed.

(** *** Arrays *)
Definition element (p size : Z) (i : nat) : Z := p + Z.of_nat i * size.
Lemma construct_loop_eq p size n : ∀ i, construct_loop n p (Z.of_nat i) size = Construct ∘ element p size <$> seq i n.
Proof. induction n as [|n IH]; intros i; cbn; [done|]. f_equal. replace (Z.of_nat i + 1) with (Z.of_nat (Datatypes.S i)) by lia. apply IH. Qed.
Lemma destroy_loop_eq p size n : destroy_loop n p size = reverse (Destroy ∘ element p size <$> seq 0 n).
Proof. induction n as [|n IH]; cbn [destroy_loop]; [done|]. rewrite seq_S, fmap_app, reverse_app, IH. done. Qed.
(** An array is allocated whole and without overflow of its size, its elements are
    constructed one after the other in the memory obtained; freeing it destroys
    them in the opposite order before the memory is given back. *)
Lemma array_lifetimes H s T count args : client_inv H s → 0 < sizeof T → 0 ≤ count < 2 ^ WB → ∃ p ev s',
  AllocateArrayT WB W T count args s = Ok (p, ev, s') ∧
  alloc_ok H s p (plain p (count * sizeof T)) s' ∧
  (p = nullptr → ev = []) ∧
  (p ≠ nullptr → count * sizeof T < 2 ^ WB ∧
     ev = Obtain p :: (if constructs T args then Construct ∘ element p (sizeof T) <$> seq 0 (Z.to_nat count) else []) ∧
     ∀ H2 s2, client_inv H2 s2 → plain p (count * sizeof T) ∈ H2 → ∃ s3, free_ok H2 s2 p false s3 ∧
       FreeArrayT W T p count s2 =
         Ok ((if trivially_destructible T then [] else reverse (Destroy ∘ element p (sizeof T) <$> seq 0 (Z.to_nat count))) ++ [Release p], s3)).
Proof using HWB.
  intros C Ht Hc. unfold AllocateArrayT. destruct (negb (count =? 0) && _) eqn:E; [|by exists nullptr, [], s].
  apply andb_true_iff in E as [E1 E2]. apply Z.leb_le in E2. unfold max_size in E2.
  assert (Hm : 0 ≤ count * sizeof T < 2 ^ WB).
  { split; [lia|]. pose proof (Z.mul_div_le (2 ^ WB - 1) (sizeof T) Ht). nia. }
  rewrite uw_small by done. destruct (allocate_inv H s _ C Hm) as (p & s' & -> & Hok). cbn [mbind res_bind]. eexists p, _, s'. split; [done|]. split; [done|].
  destruct (Z.eqb_spec p nullptr) as [->|Hp]; cbn [negb]; [by split|]. split; [done|]. intros _. split_and!; [lia|by rewrite <- (construct_loop_eq p (sizeof T) _ 0)|].
  intros H2 s2 C2 Hin. destruct (front_free_inv H2 s2 p C2) as (s3 & E3 & Hf); [right; by eexists|]. exists s3. split; [done|].
  unfold FreeArrayT. rewrite (proj2 (Z.eqb_neq p nullptr)) by done. cbn [negb]. cbv zeta. rewrite E3. cbn [mbind res_bind]. rewrite destroy_loop_eq.
  by destruct (trivially_destructible T).
Qed.

(** *** [operator new] *)

(** The pieces a handler gives back are pieces the program holds. *)
Fixpoint drop_all (l : list (Z * bool)) H : list hold :=
  match l with [] => H | (p, al) :: l => drop_all l (drop p al H) end.
Fixpoint gives_ok (l : list (Z * bool)) H : Prop :=
  match l with [] => True | (p, al) :: l => holds p al H ∧ gives_ok l (drop p al H) end.
Lemma drop_all_in l : ∀ H h, h ∈ drop_all l H → h ∈ H.
Proof. induction l as [|[p al] l IH]; intros H h Hh; cbn in Hh; [done|]. apply IH, list_elem_of_filter in Hh as [_ Hh]. done. Qed.

(** Giving back a piece that is held leaves fewer of them. *)
Lemma drop_shorter p al H h : h ∈ H → is_hold p al h → (length (drop p al H) < length H)%nat.
Proof.
  intros Hin Hh. induction H as [|g H IH]; [by apply not_elem_of_nil in Hin|]. unfold drop in *. rewrite filter_cons.
  pose proof (length_filter (λ h, ¬ is_hold p al h) H). case_decide as Hg; cbn; [|lia].
  apply elem_of_cons in Hin as [->|Hin]; [done|]. specialize (IH Hin). lia.
Qed.

(** What the C++ standard asks of a new-handler: it makes more storage available, by
    giving back pieces of the program, and returns, or it does not return.  When it
    returns it has given something back, or used up some of the patience. *)
Context (Hplan : ∀ y H l y' returned, plan y H = Some (l, y', returned) →
  gives_ok l H ∧ (returned = true → (length (drop_all l H) + patience y' < length H + patience y)%nat)).

Lemma blocks_sub H H' b : (∀ h, h ∈ H' → h ∈ H) → b ∈ block_of <$> H' → b ∈ block_of <$> H.
Proof. intros Hs (h & -> & Hh)%list_elem_of_fmap. by apply list_elem_of_fmap_2, Hs. Qed.
Lemma holds_kept_trans H H' s s1 s2 : (∀ h, h ∈ H' → h ∈ H) → data_kept (block_of <$> H) s s1 → data_kept (block_of <$> H') s1 s2 → data_kept (block_of <$> H') s s2.
Proof. intros Hs H1 H2 q n a Hq Ha He. assert (Hq' := blocks_sub H H' (q, n) Hs Hq). by rewrite (H2 q n a), (H1 q n a). Qed.
Lemma delete_inv H s p al : client_inv H s → holds p al H → ∃ s', DeleteImpl p al s = Ok s' ∧ free_ok H s p al s'.
Proof using HWB. intros C Hh. unfold Allocator.DeleteImpl. destruct al; [by apply free_aligned_inv|by apply front_free_inv]. Qed.
Lemma give_back_inv l : ∀ H s, client_inv H s → gives_ok l H → ∃ s', give_back l (H, s) = Ok (drop_all l H, s') ∧
  client_inv (drop_all l H) s' ∧ data_kept (block_of <$> drop_all l H) s s'.
Proof using HWB.
  induction l as [|[p al] l IH]; intros H s C Hg; cbn [give_back drop_all gives_ok] in *; [by exists s|]. destruct Hg as [Hp Hg].
  destruct (delete_inv H s p al C Hp) as (s1 & -> & C1 & K1). cbn [mbind res_bind]. destruct (IH _ s1 C1 Hg) as (s2 & E2 & C2 & K2).
  exists s2. split_and!; [done..|]. eapply holds_kept_trans; [|exact K1|exact K2]. intros h. apply drop_all_in.
Qed.
Definition new_alloc (n alignment : Z) s : res (Z * S) := if negb (alignment =? 0) then AllocateAligned n alignment 0 s else Allocate n s.
Lemma new_alloc_inv H s n alignment : client_inv H s → 0 ≤ n < 2 ^ WB → alignment = 0 ∨ IsPow2 alignment = true ∧ alignment < 2 ^ WB →
  ∃ p s', new_alloc n alignment s = Ok (p, s') ∧ alloc_ok H s p (new_hold p n alignment s') s'.
Proof using HWB.
  intros C Hn Ha. unfold new_alloc, new_hold. destruct (Z.eqb_spec alignment 0) as [->|Hne]; cbn [negb].
  - by apply allocate_inv.
  - destruct Ha as [|[Ha Hlt]]; [done|]. apply allocate_aligned_inv; try done. lia.
Qed.
(** The loop ends: with a block, or without one and without a handler, or because a
    handler left it.  Handlers may have given back some of the pieces; the others
    are untouched. *)
Lemma new_loop_inv n alignment fuel : 0 ≤ n < 2 ^ WB → alignment = 0 ∨ IsPow2 alignment = true ∧ alignment < 2 ^ WB →
  ∀ H y s, client_inv H s → (length H + patience y < fuel)%nat →
  ∃ o H1 y1 s', new_loop WB W handler fuel n alignment ((H, y), s) = Ok (o, ((H1, y1), s')) ∧ (∀ h, h ∈ H1 → h ∈ H) ∧ data_kept (block_of <$> H1) s s' ∧
    match o with
    | Some p => client_inv (hold_if p (new_hold p n alignment s') H1) s' ∧ (p = nullptr → plan y1 H1 = None)
    | None => client_inv H1 s'
    end.
Proof using HWB Hplan.
  intros Hn Ha. induction fuel as [|fuel IH]; intros H y s C Hf; [lia|]. cbn [new_loop].
  destruct (new_alloc_inv H s n alignment C Hn Ha) as (p & s1 & E & C1 & K1). unfold new_alloc in E. rewrite E. cbn [mbind res_bind].
  destruct (Z.eqb_spec p nullptr) as [->|Hp]; cbn [negb]; [|by exists (Some p), H, y, s1]. unfold handler at 1. cbn [fst snd].
  destruct (plan y H) as [[[l y'] returned]|] eqn:Ep; [|by exists (Some nullptr), H, y, s1]. destruct (Hplan y H l y' returned Ep) as [Hg Hlt].
  cbn in C1. destruct (give_back_inv l H s1 C1 Hg) as (s2 & Eg & C2 & K2). cbn [fst snd]. rewrite Eg. cbn [mbind res_bind].
  assert (Hin : ∀ h, h ∈ drop_all l H → h ∈ H) by (intros h; apply drop_all_in). assert (K := holds_kept_trans H _ s s1 s2 Hin K1 K2).
  destruct returned; [|by exists None, (drop_all l H), y', s2]. specialize (Hlt eq_refl).
  destruct (IH (drop_all l H) y' s2 C2) as (o & H1 & y1 & s' & E' & Hs & K' & Ho); [lia|]. exists o, H1, y1, s'. split_and!; [done|auto| |done].
  by eapply holds_kept_trans; [exact Hs|exact K|].
Qed.
(** A new expression that may fail by an exception does not return a null pointer. *)
Lemma new_impl_inv H y s size alignment throwing : client_inv H s → 0 ≤ size < 2 ^ WB → alignment = 0 ∨ IsPow2 alignment = true ∧ alignment < 2 ^ WB →
  ∃ r H1 y1 s', NewImpl (Datatypes.S (length H + patience y)) size alignment throwing ((H, y), s) = Ok (r, ((H1, y1), s')) ∧
    (∀ h, h ∈ H1 → h ∈ H) ∧ data_kept (block_of <$> H1) s s' ∧
    match r with
    | NewPtr p => client_inv (hold_if p (new_hold p (new_size size) alignment s') H1) s' ∧ (p = nullptr → throwing = false ∧ plan y1 H1 = None)
    | NewBadAlloc => throwing = true ∧ HAS_EXCEPTIONS = true ∧ plan y1 H1 = None ∧ client_inv H1 s'
    | NewTerminate => throwing = true ∧ HAS_EXCEPTIONS = false ∧ client_inv H1 s'
    | NewLeft => client_inv H1 s'
    end.
Proof using HWB Hplan.
  intros C Hs Ha. unfold Allocator.NewImpl. cbv zeta. fold (new_size size).
  assert (1 < 2 ^ WB) by (apply Z.pow_gt_1; lia).
  assert (Hn : 0 ≤ new_size size < 2 ^ WB) by (unfold new_size; destruct (Z.eqb_spec size 0); cbn; lia).
  destruct (new_loop_inv (new_size size) alignment (Datatypes.S (length H + patience y)) Hn Ha H y s C ltac:(lia)) as (o & H1 & y1 & s' & -> & Hin & K & Ho).
  cbn [mbind res_bind]. eexists _, H1, y1, s'. split_and!; [done..|]. destruct o as [p|]; [|done]. destruct Ho as [C' Hnull].
  destruct (Z.eqb_spec p nullptr) as [->|Hp]; cbn [andb]; [|by split].
  specialize (Hnull eq_refl). destruct throwing; [|by split]. destruct HAS_EXCEPTIONS; split_and!; auto.
Qed.

(** *** One operation *)
Lemma store_inv H s h a v : client_inv H s → h ∈ H → h_ptr h ≤ a → a + 4 ≤ h_ptr h + h_size h → (4 | a) → client_inv H (store a v s).
Proof using HWB.
  intros C Hh Ha He Hd. pose proof C as [C1 C2]. pose proof (C2 h Hh) as [O1 _ O3 O4 O5]. destruct (slot_below (h_ptr h)) as [Hp Hs].
  pose proof (raw_below s h (C2 h Hh)) as Hraw.
  split; [apply (bk_store _ _ (h_raw h) (h_total h)); try done; [by apply block_in|lia|lia]|].
  intros h' Hh'. destruct (C2 h' Hh') as [Q1 Q2 Q3 Q4 Q5]. split; try done. intros Ea. destruct (Q5 Ea) as (R1 & R2 & R3). split_and!; [done..|].
  rewrite <- R3. apply load_ptr_ext. intros b Hb1 Hb2. rewrite bk_load_store, decide_False; [done|]. intros <-.
  destruct (slot_below (h_ptr h')) as [_ Hs']. destruct (decide (h_raw h = h_raw h')) as [E|E].
  - apply (same_block H s h h' C Hh Hh') in E as <-. lia.
  - destruct (bk_apart _ _ _ _ C1 (block_in _ _ Hh) (block_in _ _ Hh') E); cbn in *; lia.
Qed.
(** The words of a piece that is held all along keep their contents, but for the one
    that is written. *)
Definition step_ok H s (o : op Y) (kept : list hold) H' s' : Prop := client_inv H' s' ∧ (∀ h, h ∈ kept → h ∈ H ∧ h ∈ H') ∧
  ∀ h a, h ∈ kept → h_ptr h ≤ a → a + 4 ≤ h_ptr h + h_size h → (∀ v, o ≠ OStore a v) → load a s' = load a s.
Lemma kept_step H s o kept H' s' : client_inv H s → client_inv H' s' → (∀ h, h ∈ kept → h ∈ H ∧ h ∈ H') →
  data_kept (block_of <$> kept) s s' → step_ok H s o kept H' s'.
Proof using HWB.
  intros [_ Hh] C Hin Hk. split_and!; [done..|]. intros g a Hg Ha He _. destruct (Hin g Hg) as [Hg' _]. pose proof (raw_below s g (Hh g Hg')).
  destruct (Hh g Hg') as [_ _ O3 _ _]. apply (Hk (h_raw g) (h_total g)); [by apply block_in|lia|lia].
Qed.
Lemma hold_if_in p h0 H h : h ∈ H → h ∈ hold_if p h0 H.
Proof. unfold hold_if. destruct (_ =? _); [done|]. by right. Qed.
Lemma alloc_step H s o p h s' : client_inv H s → alloc_ok H s p h s' → step_ok H s o H (hold_if p h H) s'.
Proof using HWB. intros C [C' Hk]. apply kept_step; try done. intros g Hg. split; [done|by apply hold_if_in]. Qed.
Lemma free_step H s o p al s' : client_inv H s → free_ok H s p al s' → step_ok H s o (drop p al H) (drop p al H) s'.
Proof using HWB. intros C [C' Hk]. apply kept_step; try done. intros g Hg. split; [|done]. by apply list_elem_of_filter in Hg as [_ Hg]. Qed.
Lemma exec_ok H y s o : client_inv H s → legal H o →
  ∃ kept H' y' s', exec o ((H, y), s) = Ok (kept, ((H', y'), s')) ∧ step_ok H s o kept H' s'.
Proof using HWB Hplan.
  intros C Hl. pose proof C as [C1 C2]. destruct o as [size|size al off|size al thr|p|p|p al|a v|y']; cbn [exec legal] in *.
  - destruct (allocate_inv H s size C Hl) as (p & s' & -> & Hok). eexists _, _, y, s'. split; [done|]. by apply alloc_step.
  - destruct Hl as (L1 & L2 & L3 & L4). destruct (allocate_aligned_inv H s size al off C L1 L2 L3 L4) as (p & s' & -> & Hok). eexists _, _, y, s'. split; [done|]. by apply alloc_step.
  - destruct Hl as [L1 L2]. destruct (new_impl_inv H y s size al thr C L1 L2) as (r & H1 & y1 & s' & -> & Hin & K & Hr). eexists _, _, y1, s'. split; [done|]. cbn.
    apply kept_step; [done| | |done].
    + destruct r; [apply Hr|apply Hr|apply Hr|done].
    + intros h Hh. split; [auto|]. destruct r; try done. by apply hold_if_in.
  - destruct (front_free_inv H s p C Hl) as (s' & -> & Hok). eexists _, _, y, s'. split; [done|]. by apply free_step.
  - destruct (free_aligned_inv H s p C Hl) as (s' & -> & Hok). eexists _, _, y, s'. split; [done|]. by apply free_step.
  - destruct (delete_inv H s p al C Hl) as (s' & -> & Hok). eexists _, _, y, s'. split; [done|]. by apply free_step.
  - destruct Hl as (h & Hh & Ha & He & Hd). eexists _, _, y, _. split; [done|]. split_and!; [by eapply store_inv|done|]. intros g b _ _ _ Hne.
    rewrite bk_load_store, decide_False; [done|]. intros <-. by apply (Hne v).
  - by eexists _, _, y', s.
Qed.
Lemma reach_inv y0 s0 w : bk_inv [] s0 → reach y0 s0 w → client_inv w.1.1 w.2.
Proof using HWB Hplan.
  intros H0. induction 1 as [|[[H y] s] o kept w' _ IH Hl E]; [split; [done|]; by intros h ?%not_elem_of_nil|].
  destruct (exec_ok H y s o IH Hl) as (k & H' & y' & s' & E' & [C _]). rewrite E' in E. by injection E as _ <-.
Qed.
Lemma regions_apart H s h h' : client_inv H s → h ∈ H → h' ∈ H → h ≠ h' → apart (h_ptr h, h_size h) (h_ptr h', h_size h').
Proof using HWB.
  intros C Hh Hh' Hne. pose proof C as [C1 C2]. destruct (C2 h Hh) as [O1 _ O3 O4 O5]. destruct (C2 h' Hh') as [Q1 _ Q3 Q4 Q5].
  pose proof (raw_below s h (C2 h Hh)). pose proof (raw_below s h' (C2 h' Hh')).
  assert (Hr : h_raw h ≠ h_raw h') by (intros E; by apply Hne, (same_block H s)).
  destruct (bk_apart _ _ _ _ C1 (block_in _ _ Hh) (block_in _ _ Hh') Hr); [left|right]; cbn in *; lia.
Qed.

(** C39. In every run of a program over an allocator with the laws of [Backend],
    whose new-handlers give back pieces the program holds and return, or do not
    return (and return only a bounded number of times without giving anything
    back): no operation of the front end fails or runs for ever; pieces in use do
    not overlap, are aligned as asked for, lie in the blocks the allocator has
    handed out, exactly one for each piece, and keep their contents until they are
    written or given back, by the program or by a handler. *)
Theorem allocator_safe y0 s0 H y s : bk_inv [] s0 → reach y0 s0 ((H, y), s) →
  bk_inv (block_of <$> H) s ∧
  (∀ h, h ∈ H → (h_alignment h | h_ptr h + h_offset h) ∧ 0 < h_raw h ≤ h_ptr h ∧ h_ptr h + h_size h ≤ h_raw h + h_total h) ∧
  (∀ h h', h ∈ H → h' ∈ H → h ≠ h' → apart (h_ptr h, h_size h) (h_ptr h', h_size h')) ∧
  (∀ o, legal H o → ∃ kept H' y' s', exec o ((H, y), s) = Ok (kept, ((H', y'), s')) ∧ (∀ h, h ∈ kept → h ∈ H ∧ h ∈ H') ∧
     (∀ h a, h ∈ kept → h_ptr h ≤ a → a + 4 ≤ h_ptr h + h_size h → (∀ v, o ≠ OStore a v) → load a s' = load a s) ∧
     (∀ a v, o = OStore a v → load a s' = v)).
Proof using HWB Hplan.
  intros H0 Hr. pose proof (reach_inv y0 s0 _ H0 Hr) as C. cbn in C. pose proof C as [C1 C2]. split_and!; [done| |by intros; eapply regions_apart|].
  - intros h Hh. destruct (C2 h Hh) as [O1 O2 O3 O4 O5]. destruct (bk_range _ _ _ _ C1 (block_in _ _ Hh)) as (R1 & _).
    split_and!; [done|done|by apply (raw_below s)|done].
  - intros o Hl. destruct (exec_ok H y s o C Hl) as (kept & H' & y' & s' & E & (_ & Hin & Hk)). exists kept, H', y', s'. split_and!; [done..|].
    intros a v ->. cbn in E. injection E as _ _ _ <-. by rewrite bk_load_store, decide_True.
Qed.
End client.
End Allocator.
