(* ===== verification/DefaultHeap.v ===== *)
(** * The default heap ([memory/stk_memory_allocator_default.h])

    The functions the front end calls, implemented by one byte pool over a static
    array that is set up at the first use.  The pool has the laws of
    [Allocator.Backend], so what [Allocator.v] shows of programs that use the front
    end holds of programs that use it over this heap.  The variant over [malloc]
    and [free] ([memory/stk_memory_allocator_malloc.h]) is here as well, for any
    C library whose functions have these laws. *)

From S2P Require Import Prelude KernelTask Monitor Memory BytePool Allocator.
Import KTask Monitor Memory BytePool Allocator.
Local Open Scope Z_scope.

Module DefaultHeap.

(** The static variables: the pool once it exists, and the words of the array
    before that. *)
Record Heap := mkHeap { g_DefaultHeapPool : option (Mon BytePool.BytePool); g_DefaultHeapArea : gmap Z Z }.

(** Words are read from and written to the array wherever it is managed. *)
#[export] Instance heap_memory : WordMemory Heap := {
  load a h := match g_DefaultHeapPool h with Some m => rd (m_words (fields m)) a | None => rd (g_DefaultHeapArea h) a end;
  store a v h :=
    match g_DefaultHeapPool h with
    | Some m => mkHeap (Some (Write a v m)) (g_DefaultHeapArea h)
    | None => mkHeap None (<[a := v]> (g_DefaultHeapArea h))
    end }.

(** [TimedAlloc]: a block, if there is one. *)
Definition TimedAlloc_result (r : ret) : Z :=
  match r with RAlloc WAIT_RESULT_SIGNAL block => block | _ => nullptr end.

Section heap.
Context (WB BLOCK_ALIGN : Z) (GUARD CHECKS NEXT_FIT : bool).
(** Where the array is, and [STK_MEMORY_DEFAULT_HEAP_SIZE]. *)
Context (area heap_size : Z).
Local Notation TimedAllocEx := (TimedAllocEx WB BLOCK_ALIGN GUARD CHECKS NEXT_FIT).
Local Notation BytePool_ctor := (BytePool_ctor WB BLOCK_ALIGN).
Local Notation pool_inv := (pool_inv WB BLOCK_ALIGN GUARD NEXT_FIT).
Local Notation MIN_BLOCK_SIZE := (MIN_BLOCK_SIZE BLOCK_ALIGN).

(** [TryAlloc]: nothing is left waiting. *)
Definition TryAlloc (size : Z) (m : Mon BytePool.BytePool) : res (Z * Mon BytePool.BytePool) :=
  '(m, o) ← TimedAllocEx (mkCtx 0 0 true) size NO_WAIT m;
  match o with Done r => Ok (TimedAlloc_result r, m) | Blocked _ _ => Panic PANIC_ASSERT end.
Definition DefaultHeapPool (h : Heap) : res (Mon BytePool.BytePool) :=
  match g_DefaultHeapPool h with
  | Some m => Ok m
  | None => p ← BytePool_ctor area heap_size (g_DefaultHeapArea h); Ok (init p)
  end.
Definition set_pool (m : Mon BytePool.BytePool) (h : Heap) : Heap := mkHeap (Some m) (g_DefaultHeapArea h).
Definition Weak_Allocate (size : Z) (h : Heap) : res (Z * Heap) :=
  m ← DefaultHeapPool h;
  '(p, m) ← TryAlloc size m;
  Ok (p, set_pool m h).
Definition Weak_Free (ptr : Z) (h : Heap) : res Heap :=
  if negb (ptr =? nullptr) then
    m ← DefaultHeapPool h;
    '(m, freed) ← BytePool.Free WB BLOCK_ALIGN GUARD CHECKS NEXT_FIT ptr m;
    Ok (set_pool m h)
  else Ok h.
Definition Weak_GetStats (h : Heap) : res Stats :=
  m ← DefaultHeapPool h;
  Ok (m_stats (fields m)).
Definition default_heap : WeakOps Heap := mkWeak (Some Weak_Allocate) (Some Weak_Free) (Some Weak_GetStats).

(** ** The laws *)

(** The array is aligned, large enough for a block, and not larger than the block
    headers can tell. *)
Context (HWB : 32 ≤ WB) (HA : 4 ≤ BLOCK_ALIGN) (HP : Z.land BLOCK_ALIGN (BLOCK_ALIGN - 1) = 0).
Context (Harea : 0 < area) (Halign : (BLOCK_ALIGN | area)) (Hsize : MIN_BLOCK_SIZE ≤ heap_size < 2 ^ 32) (Htop : area + heap_size < 2 ^ WB).

Lemma heap_pool_valid words : ∃ p0, BytePool_ctor area heap_size words = Ok p0 ∧ IsStorageValid p0 = true.
Proof using All.
  destruct (align_pow BLOCK_ALIGN HA HP) as (k & Hk & EA). destruct (header_facts BLOCK_ALIGN HA HP) as [Hh _]. unfold BytePool.MIN_BLOCK_SIZE in Hsize.
  assert (Hal : area + (BLOCK_ALIGN - 1) < 2 ^ WB) by lia. rewrite EA in Hal.
  destruct (align_up WB ltac:(lia) area k ltac:(lia) ltac:(lia) Hal) as [Hy Hyd]. rewrite <- EA in Hal, Hy, Hyd.
  destruct (ctor_valid WB BLOCK_ALIGN HWB HA HP area heap_size words heap_size) as (p0 & E & Hv & _); try done; [lia| |unfold BytePool.MIN_BLOCK_SIZE; lia|by exists p0].
  unfold AlignSize. rewrite (multiple_between BLOCK_ALIGN area _ Halign Hyd Hy). lia.
Qed.

Definition heap_inv (L : list (Z * Z)) (h : Heap) : Prop :=
  match g_DefaultHeapPool h with None => L = [] | Some m => ∃ l, pool_inv L (fields m) l end.
(** The first use sets up the pool. *)
Lemma heap_pool_ok L h : heap_inv L h →
  ∃ m l, DefaultHeapPool h = Ok m ∧ pool_inv L (fields m) l ∧
    ∀ L' m', (∀ b, b ∈ L' → b ∈ L) → BytePool.data_kept L' (fields m) (fields m') → Allocator.data_kept L' h (set_pool m' h).
Proof using All.
  unfold heap_inv, DefaultHeapPool, Allocator.data_kept. cbn [load heap_memory set_pool g_DefaultHeapPool]. destruct (g_DefaultHeapPool h) as [m|].
  - intros [l V]. exists m, l. split_and!; [done..|]. intros L' m' _ Hk b n a Hb H1 H2. apply (Hk b n); [done|lia].
  - intros ->. destruct (heap_pool_valid (g_DefaultHeapArea h)) as (p0 & E & Hv). rewrite E. cbn [mbind res_bind].
    destruct (fresh_inv WB BLOCK_ALIGN GUARD NEXT_FIT HWB HA HP area heap_size (g_DefaultHeapArea h) p0) as (_ & _ & us & V); try done; [destruct (header_facts BLOCK_ALIGN HA HP); unfold BytePool.MIN_BLOCK_SIZE in Hsize; lia|].
    exists (init p0), [(us, false)]. split_and!; [done..|]. intros L' m' HL _ b n a Hb. by apply HL, not_elem_of_nil in Hb.
Qed.
Lemma heap_allocate L h size : heap_inv L h → 0 ≤ size →
  ∃ p h', Weak_Allocate size h = Ok (p, h') ∧ Allocator.data_kept L h h' ∧ (p = nullptr ∧ heap_inv L h' ∨ p ≠ nullptr ∧ heap_inv ((p, size) :: L) h').
Proof using All.
  intros Hi Hs. destruct (heap_pool_ok L h Hi) as (m & l & E & V & Hk). unfold Weak_Allocate, TryAlloc. rewrite E. cbn [mbind res_bind].
  destruct (try_alloc WB BLOCK_ALIGN GUARD CHECKS NEXT_FIT HWB HA HP L m l (mkCtx 0 0 true) size V Hs) as (m' & r & b & l' & -> & Hr & _ & Hd & V' & _). cbn [mbind res_bind].
  assert (Eb : TimedAlloc_result (RAlloc r b) = b).
  { destruct (Z.eq_dec b nullptr) as [->|Hb]; [by destruct r|]. by rewrite (proj2 Hr Hb). }
  rewrite Eb. exists b, (set_pool m' h). split_and!; [done|by apply Hk|]. unfold heap_inv. cbn [set_pool g_DefaultHeapPool].
  destruct (Z.eqb_spec b nullptr) as [->|Hb]; [left|right]; eauto.
Qed.
Lemma heap_free L h p : heap_inv L h → p ∈ L.*1 → ∃ h', Weak_Free p h = Ok h' ∧ Allocator.data_kept (without p L) h h' ∧ heap_inv (without p L) h'.
Proof using All.
  intros Hi Hp. destruct (heap_pool_ok L h Hi) as (m & l & E & V & Hk). unfold Weak_Free.
  assert (Hn : p ≠ nullptr).
  { apply list_elem_of_fmap in Hp as ([b n] & -> & Hin). destruct (held_range WB BLOCK_ALIGN GUARD NEXT_FIT HA HP _ _ _ _ _ V Hin) as (H1 & _).
    pose proof (hp_first _ _ _ _ _ _ (pv_heap _ _ _ _ _ _ _ V)). unfold nullptr. cbn. lia. }
  rewrite (proj2 (Z.eqb_neq p nullptr)) by done. cbn [negb]. rewrite E. cbn [mbind res_bind].
  destruct (byte_free_post WB BLOCK_ALIGN GUARD CHECKS NEXT_FIT HWB HA HP L m ∅ l p) as (m' & l' & -> & _ & Hd & [V' _ _]); [by split|done|]. cbn [mbind res_bind].
  exists (set_pool m' h). split_and!; [done| |by exists l']. apply Hk; [|done]. intros b [_ Hb]%list_elem_of_filter. done.
Qed.
Lemma heap_held L h b : heap_inv L h → b ∈ L → ∃ m l, g_DefaultHeapPool h = Some m ∧ pool_inv L (fields m) l.
Proof.
  unfold heap_inv. destruct (g_DefaultHeapPool h) as [m|]; [intros [l V]; eauto|]. by intros -> ?%not_elem_of_nil.
Qed.
Lemma heap_range L h p n : heap_inv L h → (p, n) ∈ L → 0 < p ∧ 0 ≤ n ∧ p + n < 2 ^ WB ∧ (BLOCK_ALIGN | p).
Proof using HWB HA HP.
  intros Hi Hin. destruct (heap_held L h _ Hi Hin) as (m & l & _ & V). destruct (held_range WB BLOCK_ALIGN GUARD NEXT_FIT HA HP _ _ _ _ _ V Hin) as (H1 & H2 & H3 & H4).
  pose proof (pv_heap _ _ _ _ _ _ _ V) as Hp. pose proof (hp_first _ _ _ _ _ _ Hp). pose proof (hp_end _ _ _ _ _ _ Hp). split_and!; [lia|lia|lia|done].
Qed.
Lemma heap_distinct L h : heap_inv L h → NoDup L.*1.
Proof using HWB HA HP.
  unfold heap_inv. destruct (g_DefaultHeapPool h) as [m|]; [intros [l V]; by eapply pool_inv_NoDup|]. intros ->. constructor.
Qed.
Lemma heap_apart L h b b' : heap_inv L h → b ∈ L → b' ∈ L → b.1 ≠ b'.1 → apart b b'.
Proof using HWB HA HP.
  destruct b as [b n], b' as [b' n']. cbn. intros Hi Hin Hin' Hne. destruct (heap_held L h _ Hi Hin) as (m & l & _ & V).
  by apply (held_apart WB BLOCK_ALIGN GUARD NEXT_FIT HA HP L (fields m) l).
Qed.
Lemma heap_perm L L' h : heap_inv L h → L ≡ₚ L' → heap_inv L' h.
Proof.
  unfold heap_inv. destruct (g_DefaultHeapPool h) as [m|]; [|by intros -> ?%Permutation_nil]. intros [l [V1 V2 V3 V4 V5]] HL. exists l. split; try done.
  - by rewrite <- HL.
  - intros b n. rewrite <- HL. apply V3.
Qed.
Lemma heap_store L h p n a v : heap_inv L h → (p, n) ∈ L → p ≤ a → a + 4 ≤ p + n → heap_inv L (store a v h).
Proof using HWB HA HP.
  intros Hi Hin Ha He. destruct (heap_held L h _ Hi Hin) as (m & l & E & V). unfold heap_inv. cbn [store heap_memory]. rewrite E. cbn. exists l.
  apply (byte_write_post WB BLOCK_ALIGN GUARD NEXT_FIT HWB HA HP L m ∅ l p n a v); [by split|done|lia].
Qed.
Lemma heap_load_store (h : Heap) a b v : load b (store a v h) = if decide (a = b) then v else load b h.
Proof. cbn. destruct (g_DefaultHeapPool h); cbn; apply rd_insert. Qed.

(** The default heap is an allocator of blocks aligned to [A], for every [A] that
    divides [BLOCK_ALIGN], as [MIN_ALIGNMENT] does. *)
Definition default_backend (A : Z) (Hdiv : (A | BLOCK_ALIGN)) : Backend WB A default_heap.
Proof using All.
  refine {| bk_allocate := Weak_Allocate; bk_free := Weak_Free; bk_inv := heap_inv |}.
  - done.
  - done.
  - intros L h p n Hi Hin. destruct (heap_range L h p n Hi Hin) as (? & ? & ? & ?). split_and!; [done..|by etransitivity].
  - apply heap_distinct.
  - apply heap_apart.
  - intros L h size Hi [Hs _]. by apply heap_allocate.
  - apply heap_free.
  - intros L h Hi. by exists h.
  - apply heap_perm.
  - intros L h p n a v Hi Hin Ha He _. by apply (heap_store L h p n).
  - apply heap_load_store.
Defined.
End heap.

(** ** Over [malloc] and [free]

    The C library's functions on its state, whatever they are. *)
Section malloc.
Context {S : Type} (malloc : Z → S → res (Z * S)) (free : Z → S → res S).
Definition malloc_Allocate (size : Z) (s : S) : res (Z * S) := malloc size s.
Definition malloc_Free (ptr : Z) (s : S) : res S := free ptr s.
Definition malloc_GetStats (s : S) : res Stats := Ok (Stats_ctor 0).
Definition malloc_heap : WeakOps S := mkWeak (Some malloc_Allocate) (Some malloc_Free) (Some malloc_GetStats).
End malloc.

(** ** A program over a heap of 256 bytes on a 32-bit machine

    The program keeps a reserve, and a new-handler that deletes it: the address of
    the reserve is the state of the application, the handler is installed as long
    as there is one. *)
Definition ex_heap : WeakOps Heap := default_heap 32 8 true true true 4096 256.
#[export] Instance ex_backend : Backend 32 8 ex_heap.
Proof. apply default_backend; [lia|lia|done|lia|by exists 512|split; [by vm_compute|lia]|lia|by exists 1]. Defined.
Definition ex_start : Heap := mkHeap None ∅.
Definition ex_plan (reserve : option Z) (H : list hold) : option (list (Z * bool) * option Z * bool) :=
  match reserve with
  | Some p => if decide (Exists (is_hold p false) H) then Some ([(p, false)], None, true) else None
  | None => None
  end.
Lemma ex_plan_ok (y : option Z) H l y' returned : ex_plan y H = Some (l, y', returned) →
  gives_ok l H ∧ (returned = true → (length (drop_all l H) + 0 < length H + 0)%nat).
Proof.
  destruct y as [p|]; [|done]. cbn. case_decide as Hp; [|done]. intros [= <- <- <-]. apply Exists_exists in Hp as (h & Hin & Hh).
  split; [split; [by right; exists h|done]|]. intros _. cbn. rewrite !Nat.add_0_r. by eapply drop_shorter.
Qed.
Definition ex_exec_all : list (op (option Z)) → (list hold * option Z) * Heap → option ((list hold * option Z) * Heap) :=
  exec_all 32 8 ex_heap true ex_plan (λ _, 0%nat).
(** An aligned block whose fifth byte is at a multiple of 16, a plain one as the
    reserve, a block by [new] with an alignment of 32 for which there is room; then
    one for which there is none until the handler has deleted the reserve.  The
    program writes and gives two back. *)
Definition ex_ops : list (op (option Z)) :=
  [OAllocateAligned 24 16 4; OAllocate 10; OApp (Some 4160); ONew 8 32 true; OStore 4108 77; OStore 4196 5; ODelete 4192 true;
   ONew 176 0 true].
Definition ex_end : (list hold * option Z) * Heap := default (([], None), ex_start) (ex_exec_all ex_ops (([], None), ex_start)).
Lemma heap_ex_reach : reach 32 8 ex_heap true ex_plan (λ _, 0%nat) None ex_start ex_end.
Proof. apply (exec_all_reach 32 8 ex_heap true ex_plan (λ _, 0%nat) None ex_start ex_ops (([], None), ex_start)); [constructor|by vm_compute]. Qed.
(** The last block lies where the reserve was; the aligned one kept its contents. *)
Lemma allocator_safe_witness : ex_end.1 = ([mkHold 4160 176 8 0 false 4160 176; mkHold 4108 24 16 4 true 4104 43], None) ∧
  load 4108 ex_end.2 = 77 ∧ bk_inv [(4160, 176); (4104, 43)] ex_end.2.
Proof.
  assert (E : ex_end.1 = ([mkHold 4160 176 8 0 false 4160 176; mkHold 4108 24 16 4 true 4104 43], None)) by (by vm_compute).
  assert (H0 : bk_inv [] ex_start).
  { hnf. reflexivity. }
  assert (Hr : reach 32 8 ex_heap true ex_plan (λ _, 0%nat) None ex_start ((ex_end.1.1, ex_end.1.2), ex_end.2))
    by (rewrite <- !surjective_pairing; exact heap_ex_reach).
  destruct (allocator_safe 32 8 ltac:(by left) ex_heap true ex_plan (λ _, 0%nat) ex_plan_ok None ex_start ex_end.1.1 ex_end.1.2 ex_end.2 H0 Hr) as [Hi _].
  split_and!; [exact E|by vm_compute|]. rewrite E in Hi. exact Hi.
Defined.
(** When the last pieces are given back too, the heap holds no block any more; one
    attempt to allocate had failed. *)
Example ex_all_back : match ex_exec_all [OFreeAligned 4108; OFree 4160] ex_end with Some (x, h) => Some (x, Weak_GetStats 32 8 4096 256 h) | None => None end =
  Some (([], None), Ok (mkStats 256 0 256 4 4 1 0)).
Proof. by vm_compute. Qed.
End DefaultHeap.
