(* ===== verification/HeapPools.v ===== *)
(** * Memory pools over the allocator

    The constructors of [BlockMemoryPool] and [BytePool] that take their storage
    from [MemoryAllocator], and their destructors.  The theorems are proved against
    the interface [Allocator.Backend]: with valid arguments a constructor never
    fails, the pool it makes either has no storage or is the pool the constructor
    for external storage makes (so that what [BlockPool.v] and [BytePool.v] show of
    it holds), with room for all that was asked for, and the destructor gives the
    storage back. *)

From S2P Require Import Prelude KernelTask Monitor Memory BlockPool BytePool Allocator.
Import KTask Memory Allocator.
Local Open Scope Z_scope.

Module HeapPools.

Section pools.
Context (WB A : Z) (HWB : WB = 32 ∨ WB = 64) {S : Type} (W : WeakOps S) `{!WordMemory S} `{!Backend WB A W}.
Implicit Types s : S.
Local Notation client_inv := (client_inv WB A W).
Local Notation aligned_hold := (aligned_hold WB).
Local Notation plain := (plain A).

(** ** Block pool *)
Section block.
Context (BITMAP : bool).
Local Notation AlignBlockSize := (BlockPool.AlignBlockSize WB).
Local Notation BitmapBytes := (BlockPool.BitmapBytes BITMAP).
Local Notation ArgsValid := (BlockPool.ArgsValid WB).
Local Notation Setup := (BlockPool.Setup WB BITMAP).

(** The storage and its size; [words] is what the memory happens to contain. *)
Definition block_storage (cap raw_block_size alignment : Z) s : res (Z * Z * S) :=
  let block_size := AlignBlockSize raw_block_size alignment in
  if ArgsValid cap raw_block_size alignment block_size then
    let bitmap := BitmapBytes cap in
    if (cap <=? max_size WB / block_size) && (cap * block_size <=? max_size WB - bitmap) then
      let total := cap * block_size + bitmap in
      '(p, s) ← AllocateAligned WB W total alignment 0 s;
      Ok (p, if negb (p =? nullptr) then total else 0, s)
    else Ok (nullptr, 0, s)
  else Ok (nullptr, 0, s).
Definition BlockMemoryPool_heap (cap raw_block_size alignment : Z) (words : gmap Z Z) s : res (BlockPool.BlockMemoryPool * S) :=
  let block_size := AlignBlockSize raw_block_size alignment in
  '(storage, storage_size, s) ← block_storage cap raw_block_size alignment s;
  p ← Setup raw_block_size alignment
        (BlockPool.mkPool storage nullptr [] nullptr words storage_size block_size alignment cap 0 (Stats_ctor (uw WB (cap * block_size))));
  Ok (p, s).
(** [owned] is [m_storage_owned]. *)
Definition BlockMemoryPool_dtor (owned : bool) (p : BlockPool.BlockMemoryPool) s : res (BlockPool.BlockMemoryPool * S) :=
  assert! (BlockPool.m_used_count p =? 0);
  '(storage, s) ← (if owned && negb (BlockPool.m_storage p =? nullptr) then s ← FreeAligned WB W (BlockPool.m_storage p) s; Ok (nullptr, s)
                   else Ok (BlockPool.m_storage p, s));
  Ok (BlockPool.mkPool storage nullptr (BlockPool.m_bitmap p) (BlockPool.m_free_list p) (BlockPool.m_words p) (BlockPool.m_storage_size p)
        (BlockPool.m_block_size p) (BlockPool.m_block_align p) (BlockPool.m_capacity p) (BlockPool.m_used_count p) (BlockPool.m_stats p), s).

(** The pool has no storage, or it is the pool the other constructor makes. *)
Lemma block_heap_none cap raw al words s s' : ArgsValid cap raw al (AlignBlockSize raw al) = true → block_storage cap raw al s = Ok (nullptr, 0, s') →
  ∃ p, BlockMemoryPool_heap cap raw al words s = Ok (p, s') ∧ BlockPool.IsStorageValid p = false ∧ BlockPool.m_capacity p = 0 ∧ BlockPool.m_storage p = nullptr.
Proof.
  intros Ha E. unfold BlockMemoryPool_heap. rewrite E. cbn [mbind res_bind]. unfold BlockPool.Setup. cbv zeta.
  cbn [BlockPool.m_storage BlockPool.m_capacity BlockPool.m_block_size BlockPool.m_storage_size BlockPool.m_words]. rewrite Ha.
  unfold BlockPool.ArgsValid in Ha. rewrite !andb_true_iff in Ha. destruct Ha as [[[[-> ->] ->] ->] _]. cbn [stk_assert]. by eexists.
Qed.
Lemma args_pow2 cap raw al bs : ArgsValid cap raw al bs = true → IsPow2 al = true ∧ 0 < cap ≤ BlockPool.CAPACITY_MAX ∧ 0 < raw ≤ bs.
Proof using HWB.
  unfold BlockPool.ArgsValid, BlockPool.IsValidAlignment, BlockPool.PTR_SIZE, IsPow2. rewrite !andb_true_iff, !Z.gtb_lt, !Z.geb_le, Z.leb_le, Z.eqb_eq.
  intros [[[[A1 A2] A3] [A4 A5]] A6]. assert (0 < WB / 8) by (apply Z.div_str_pos; lia). split_and!; try done; lia.
Qed.
Lemma block_storage_ok cap raw al H s : client_inv H s → ArgsValid cap raw al (AlignBlockSize raw al) = true → al < 2 ^ WB →
  let total := cap * AlignBlockSize raw al + BitmapBytes cap in
  ∃ p s', (block_storage cap raw al s = Ok (nullptr, 0, s') ∧ p = nullptr ∨ block_storage cap raw al s = Ok (p, total, s') ∧ p ≠ nullptr) ∧
    alloc_ok WB A W H s p (aligned_hold p total al 0 s') s'.
Proof using HWB.
  intros C Ha Hlt total. unfold block_storage. rewrite Ha. cbv zeta. fold total. destruct (args_pow2 _ _ _ _ Ha) as (Hp2 & Hcap & Hraw).
  destruct (_ && _) eqn:E; [|exists nullptr, s; split; [by left|by split]]. apply andb_true_iff in E as [_ E]. apply Z.leb_le in E. unfold max_size in E.
  pose proof (BlockPool.BitmapBytes_nonneg BITMAP cap ltac:(lia)).
  destruct (allocate_aligned_inv WB A HWB W H s total al 0 C ltac:(split; nia) Hp2 Hlt ltac:(lia)) as (p & s' & -> & Hok). cbn [mbind res_bind].
  exists p, s'. split; [|done]. destruct (Z.eqb_spec p nullptr) as [->|Hp]; [by left|by right].
Qed.
(** A block pool on the heap. *)
Theorem block_heap_pool cap raw al words H s : client_inv H s → ArgsValid cap raw al (AlignBlockSize raw al) = true → al < 2 ^ WB →
  ∃ p s', BlockMemoryPool_heap cap raw al words s = Ok (p, s') ∧
  ((BlockPool.IsStorageValid p = false ∧ BlockPool.m_capacity p = 0 ∧ client_inv H s') ∨
   let st := BlockPool.m_storage p in let total := cap * AlignBlockSize raw al + BitmapBytes cap in let h := aligned_hold st total al 0 s' in
   BlockPool.BlockMemoryPool_ctor WB BITMAP cap raw st total al words = Ok p ∧ BlockPool.IsStorageValid p = true ∧ BlockPool.m_capacity p = cap ∧
   client_inv (h :: H) s' ∧
   ∀ H2 s2 p2, client_inv H2 s2 → h ∈ H2 → BlockPool.m_storage p2 = st → BlockPool.m_used_count p2 = 0 →
     ∃ p3 s3, BlockMemoryPool_dtor true p2 s2 = Ok (p3, s3) ∧ BlockPool.IsStorageValid p3 = false ∧ client_inv (drop st true H2) s3).
Proof using HWB.
  intros C Ha Hlt. destruct (block_storage_ok cap raw al H s C Ha Hlt) as (st & s' & [[E ->]|[E Hst]] & [C' _]).
  { destruct (block_heap_none cap raw al words s s' Ha E) as (p & Ep & Hv & Hc & _). exists p, s'. split; [done|]. by left. }
  unfold hold_if in C'. rewrite (proj2 (Z.eqb_neq st nullptr)) in C' by done. set (total := cap * AlignBlockSize raw al + BitmapBytes cap) in *.
  set (h := aligned_hold st total al 0 s') in *. pose proof (ci_holds _ _ _ _ _ C' h ltac:(by left)) as [O1 O2 O3 _ O5].
  assert (Hr : 0 < st ∧ st + total < 2 ^ WB).
  { destruct (bk_range _ _ _ _ (ci_blocks _ _ _ _ _ C') (block_in h (h :: H) ltac:(by left))) as (R1 & R2 & R3 & _).
    pose proof (raw_below WB HWB _ _ (ci_holds _ _ _ _ _ C' h ltac:(by left))). cbn in *. lia. }
  cbn [h_alignment h_ptr h_offset h aligned_hold] in O2. rewrite Z.add_0_r in O2. destruct (args_pow2 _ _ _ _ Ha) as ((Hal & _)%pow2_inv & Hcap & Hraw).
  assert (HW : 8 ≤ WB) by lia.
  destruct (BlockPool.ctor_full WB BITMAP HW cap raw st total al words Ha Hlt (proj1 Hr)) as (p & Ep & Hv); [by apply Z.mod_divide; [lia|]|lia|done|].
  pose proof (BlockPool.BitmapBytes_nonneg BITMAP cap ltac:(lia)).
  destruct (BlockPool.ctor_geom WB BITMAP HW cap raw st total al words p (proj1 Hr) ltac:(unfold total; nia) (proj2 Hr) Ep Hv) as (_ & Gc & _ & _ & _ & Gs & _).
  exists p, s'. split.
  { unfold BlockMemoryPool_heap. rewrite E. cbn [mbind res_bind]. revert Ep. unfold BlockPool.BlockMemoryPool_ctor. cbv zeta.
    rewrite (proj2 (Z.eqb_neq st nullptr)) by done. cbn [negb stk_assert]. by intros ->. }
  right. rewrite Gs. split_and!; [done..|]. intros H2 s2 p2 C2 Hin E2 Eu. unfold BlockMemoryPool_dtor. rewrite Eu, E2, (proj2 (Z.eqb_neq st nullptr)) by done. cbn [Z.eqb stk_assert negb andb].
  destruct (free_aligned_inv WB A HWB W H2 s2 st C2) as (s3 & -> & [C3 _]); [right; by exists h|]. cbn [mbind res_bind]. by eexists _, s3.
Qed.
End block.

(** ** Byte pool *)
Section bytes.
(** [BLOCK_ALIGN] and [MIN_ALIGNMENT], which is [A], are powers of two. *)
Context (BLOCK_ALIGN : Z) (HA : 4 ≤ BLOCK_ALIGN) (HP : Z.land BLOCK_ALIGN (BLOCK_ALIGN - 1) = 0) (HA2 : IsPow2 A = true).
Local Notation MIN_BLOCK_SIZE := (BytePool.MIN_BLOCK_SIZE BLOCK_ALIGN).
Local Notation Init := (BytePool.Init WB BLOCK_ALIGN).

Definition HeapSize (size : Z) : Z :=
  let slack := if BLOCK_ALIGN >? A then BLOCK_ALIGN - 1 else 0 in
  if size <=? max_size WB - slack then size + slack else 0.
(** [uint8_t]. *)
Definition uint8 : TElement := mkType 1 true true.
Definition BytePool_heap (storage_size : Z) (words : gmap Z Z) s : res (BytePool.BytePool * S) :=
  '(storage, _, s) ← AllocateArrayT WB W uint8 (HeapSize storage_size) false s;
  assert! (storage_size >=? MIN_BLOCK_SIZE);
  Ok (Init (BytePool.mkPool storage nullptr nullptr nullptr words (HeapSize storage_size) (Stats_ctor storage_size) 0), s).
Definition BytePool_dtor (owned : bool) (p : BytePool.BytePool) s : res (BytePool.BytePool * S) :=
  assert! (allocated (BytePool.m_stats p) =? 0);
  '(storage, s) ← (if owned && negb (BytePool.m_storage p =? nullptr) then
                     '(_, s) ← FreeArrayT W uint8 (BytePool.m_storage p) (BytePool.m_storage_size p) s; Ok (nullptr, s)
                   else Ok (BytePool.m_storage p, s));
  Ok (BytePool.mkPool storage nullptr nullptr (BytePool.m_rover p) (BytePool.m_words p) (BytePool.m_storage_size p) (BytePool.m_stats p) (BytePool.m_max_scan p), s).

(** Wherever the storage is, what was asked for fits behind the first aligned
    address in it. *)
Lemma heap_room storage n : MIN_BLOCK_SIZE ≤ n → 0 < storage → (A | storage) → n ≤ HeapSize n → storage + HeapSize n < 2 ^ WB →
  storage + (BLOCK_ALIGN - 1) < 2 ^ WB ∧ BytePool.AlignSize WB BLOCK_ALIGN storage - storage + n ≤ HeapSize n.
Proof using HWB HA HP HA2.
  intros Hn Hs Hd Hh Htop. destruct (BytePool.align_pow BLOCK_ALIGN HA HP) as (k & Hk & EA). destruct (pow2_inv A HA2) as (HA0 & j & Hj & Ej).
  pose proof (BytePool.header_facts BLOCK_ALIGN HA HP) as [Hhd _]. unfold BytePool.MIN_BLOCK_SIZE in Hn.
  assert (Hal : storage + (BLOCK_ALIGN - 1) < 2 ^ WB) by lia. split; [done|]. rewrite EA in Hal.
  destruct (align_up WB ltac:(lia) storage k ltac:(lia) ltac:(lia) Hal) as [Hy Hyd]. unfold BytePool.AlignSize. rewrite EA.
  set (y := Z.land (uw WB _) _) in *. clearbody y. revert Hh Htop. unfold HeapSize. rewrite EA. destruct (Z.gtb_spec (2 ^ k) A) as [Hgt|Hle]; cbv zeta.
  - destruct (_ <=? _); lia.
  - assert (y = storage); [|subst y; destruct (_ <=? _); lia]. assert (Hkj : (2 ^ k | A)).
    { rewrite Ej in Hle |- *. assert (k ≤ j) by (apply Z.pow_le_mono_r_iff in Hle; lia). exists (2 ^ (j - k)). rewrite <- Z.pow_add_r by lia. f_equal. lia. }
    apply (multiple_between (2 ^ k)); [by etransitivity|done|lia].
Qed.
(** A byte pool on the heap. *)
Theorem byte_heap_pool n words H s : client_inv H s → MIN_BLOCK_SIZE ≤ n → n + BLOCK_ALIGN < 2 ^ 32 →
  ∃ p s', BytePool_heap n words s = Ok (p, s') ∧
  ((BytePool.IsStorageValid p = false ∧ client_inv H s') ∨
   let st := BytePool.m_storage p in let h := plain st (HeapSize n) in
   BytePool.BytePool_ctor WB BLOCK_ALIGN st (HeapSize n) words = Ok p ∧ BytePool.IsStorageValid p = true ∧
   n / BLOCK_ALIGN * BLOCK_ALIGN ≤ BytePool.GetSize p ∧ client_inv (h :: H) s' ∧
   ∀ H2 s2 p2, client_inv H2 s2 → h ∈ H2 → BytePool.m_storage p2 = st → BytePool.m_storage_size p2 = HeapSize n → allocated (BytePool.m_stats p2) = 0 →
     ∃ p3 s3, BytePool_dtor true p2 s2 = Ok (p3, s3) ∧ BytePool.IsStorageValid p3 = false ∧ client_inv (drop st false H2) s3).
Proof using HWB HA HP HA2.
  intros C Hn Hlt. assert (HW : 2 ^ 32 ≤ 2 ^ WB) by (apply Z.pow_le_mono_r; lia). pose proof (BytePool.min_facts BLOCK_ALIGN HA HP) as Hmf.
  assert (Hh : n ≤ HeapSize n < 2 ^ 32). { unfold HeapSize, max_size. cbv zeta. destruct (BLOCK_ALIGN >? A); (destruct (_ <=? _) eqn:El; [lia|apply Z.leb_gt in El; lia]). }
  destruct (array_lifetimes WB A HWB W H s uint8 (HeapSize n) false C ltac:(done) ltac:(lia)) as (st & ev & s' & E & [C' _] & _ & Hfree).
  cbn [sizeof uint8] in C', Hfree. rewrite Z.mul_1_r in C', Hfree. unfold BytePool_heap. rewrite E. cbn [mbind res_bind]. rewrite (proj2 (Z.geb_le _ _)) by done. cbn [stk_assert].
  eexists _, s'. split; [done|]. destruct (Z.eq_dec st nullptr) as [->|Hst]; [left; by split|right].
  unfold hold_if in C'. rewrite (proj2 (Z.eqb_neq st nullptr)) in C' by done. destruct (Hfree Hst) as (_ & _ & Hf).
  destruct (bk_range _ _ _ _ (ci_blocks _ _ _ _ _ C') (block_in (plain st (HeapSize n)) _ ltac:(by left))) as (R1 & R2 & R3 & R4). cbn [h_raw h_total plain] in *.
  destruct (heap_room st n Hn R1 R4 (proj1 Hh) R3) as [Hroom1 Hroom2].
  destruct (BytePool.ctor_valid WB BLOCK_ALIGN ltac:(lia) HA HP st (HeapSize n) words n R1 R3 (proj2 Hh) Hroom1 Hroom2 Hn) as (p & Ep & Hv & Hsz).
  assert (Ei : Init (BytePool.mkPool st nullptr nullptr nullptr words (HeapSize n) (Stats_ctor n) 0) = p).
  { revert Ep. unfold BytePool.BytePool_ctor. rewrite (proj2 (Z.eqb_neq st nullptr)), (proj2 (Z.geb_le _ _)) by (done || lia). cbn [negb stk_assert]. intros E0. injection E0 as <-. reflexivity. }
  assert (Es : BytePool.m_storage p = st) by (rewrite <- Ei; unfold BytePool.Init; cbv zeta; repeat case_match; done).
  rewrite Ei, Es. cbv zeta. split_and!; [done|done| |done|].
  - revert Hv. unfold BytePool.GetSize, BytePool.IsStorageValid. by intros ->.
  - intros H2 s2 p2 C2 Hin E2 E3 Ea. destruct (Hf H2 s2 C2 Hin) as (s3 & [C3 _] & Ef). unfold BytePool_dtor. rewrite Ea, E2, E3, Ef, (proj2 (Z.eqb_neq st nullptr)) by done.
    cbn [Z.eqb stk_assert negb andb mbind res_bind]. by eexists _, s3.
Qed.
End bytes.
End pools.
End HeapPools.
