(* ===== verification/PoolPtr.v ===== *)
(** * Typed objects of memory pools ([PoolPtr], [NewT], [DeleteT])

    The pools construct objects in their blocks ([NewT]) and destroy them
    ([DeleteT]); [PoolPtr] of [memory/stk_memory_allocator.h] is a handle that owns
    such an object and destroys it at the end of its life.  Handles are moved,
    never copied.

    The handles are modelled over an interface, [ObjectPool], that both pools
    implement.  The theorem shows that every object that lives in a pool has
    exactly one owner, a handle or the program that took it out of one, and that
    objects are destroyed once for each time they were constructed. *)

From S2P Require Import Prelude KernelTask Monitor Memory BlockPool BytePool Allocator.
Import KTask Monitor Memory.
Local Open Scope Z_scope.

Module PoolPtr.

Notation lifetime := Allocator.lifetime.
Notation Construct := Allocator.Construct.
Notation Destroy := Allocator.Destroy.

(** ** What a pool of objects does

    [live L p]: the objects at the addresses [L] live in the pool. *)
Class ObjectPool (P : Type) := {
  TryNewT : P → res (Z * list lifetime * P);
  DeleteT : Z → P → res (list lifetime * P);
  live : gset Z → P → Prop;
  live_null L p : live L p → nullptr ∉ L;
  new_ok L p : live L p → ∃ x ev p', TryNewT p = Ok (x, ev, p') ∧
    (x = nullptr ∧ ev = [] ∧ live L p' ∨ x ≠ nullptr ∧ x ∉ L ∧ ev = [Construct x] ∧ live ({[x]} ∪ L) p');
  delete_ok L p x : live L p → x ∈ L → ∃ p', DeleteT x p = Ok ([Destroy x], p') ∧ live (L ∖ {[x]}) p';
}.

(** ** Handles *)

(** [m_pool] is null or the pool. *)
Record PoolPtr := mkPtr { m_ptr : Z; m_pool : bool }.
Definition PoolPtr_ctor : PoolPtr := mkPtr nullptr false.
(** [Release]. *)
Definition Release (q : PoolPtr) : Z * PoolPtr := (m_ptr q, mkPtr nullptr false).
(** The move constructor: the new handle and what is left of the other one. *)
Definition move (other : PoolPtr) : PoolPtr * PoolPtr := (mkPtr (m_ptr other) (m_pool other), mkPtr nullptr false).

Section handles.
Context {P : Type} `{!ObjectPool P}.

Definition Reset (q : PoolPtr) (p : P) : res (PoolPtr * list lifetime * P) :=
  '(ev, p) ← (if negb (m_ptr q =? nullptr) && m_pool q then DeleteT (m_ptr q) p else Ok ([], p));
  Ok (mkPtr nullptr false, ev, p).

(** The handles of a program by name, the objects it took out of handles, and what
    happened to objects so far. *)
Record World := mkWorld { handles : gmap nat PoolPtr; released : gset Z; log : list lifetime; pool : P }.
Implicit Types w : World.

Inductive op :=
| OMake (h : nat) | ODefault (h : nat) | OMove (h g : nat) | OAssign (h g : nat)
| OReset (h : nat) | ORelease (h : nat) | OEnd (h : nat) | ODelete (x : Z).

Definition at_handle (h : nat) w : res PoolPtr := deref (handles w !! h).
(** [TryMakeT], the constructors, the move assignment, [Reset], [Release], the
    destructor; [DeleteT] of an object taken out of its handle. *)
Definition exec (o : op) w : res World :=
  match o with
  | OMake h => '(x, ev, p) ← TryNewT (pool w); Ok (mkWorld (<[h := mkPtr x true]> (handles w)) (released w) (log w ++ ev) p)
  | ODefault h => Ok (mkWorld (<[h := PoolPtr_ctor]> (handles w)) (released w) (log w) (pool w))
  | OMove h g =>
      other ← at_handle g w;
      let '(this, other) := move other in
      Ok (mkWorld (<[h := this]> (<[g := other]> (handles w))) (released w) (log w) (pool w))
  | OAssign h g =>
      if bool_decide (h ≠ g) then
        this ← at_handle h w;
        '(this, ev, p) ← Reset this (pool w);
        other ← at_handle g w;
        let '(this, other) := move other in
        Ok (mkWorld (<[h := this]> (<[g := other]> (handles w))) (released w) (log w ++ ev) p)
      else Ok w
  | OReset h =>
      this ← at_handle h w;
      '(this, ev, p) ← Reset this (pool w);
      Ok (mkWorld (<[h := this]> (handles w)) (released w) (log w ++ ev) p)
  | ORelease h =>
      this ← at_handle h w;
      let '(x, this) := Release this in
      Ok (mkWorld (<[h := this]> (handles w)) (if x =? nullptr then released w else {[x]} ∪ released w) (log w) (pool w))
  | OEnd h =>
      this ← at_handle h w;
      '(_, ev, p) ← Reset this (pool w);
      Ok (mkWorld (delete h (handles w)) (released w) (log w ++ ev) p)
  | ODelete x => '(ev, p) ← DeleteT x (pool w); Ok (mkWorld (handles w) (released w ∖ {[x]}) (log w ++ ev) p)
  end.
(** Handles are used while they exist; an object that was taken out is deleted
    at most once. *)
Definition legal (o : op) w : Prop :=
  match o with
  | OMake h | ODefault h => handles w !! h = None
  | OMove h g => handles w !! h = None ∧ is_Some (handles w !! g)
  | OAssign h g => is_Some (handles w !! h) ∧ is_Some (handles w !! g)
  | OReset h | ORelease h | OEnd h => is_Some (handles w !! h)
  | ODelete x => x ∈ released w
  end.
Inductive reach (p0 : P) : World → Prop :=
| reach_start : reach p0 (mkWorld ∅ ∅ [] p0)
| reach_step w o w' : reach p0 w → legal o w → exec o w = Ok w' → reach p0 w'.

(** ** Ownership *)

(** The handle [h] holds the object [x]. *)
Definition owns (H : gmap nat PoolPtr) (h : nat) (x : Z) : Prop := x ≠ nullptr ∧ ∃ q, H !! h = Some q ∧ m_ptr q = x.
Definition constructed (x : Z) (l : list lifetime) : nat := length (filter (λ e, e = Construct x) l).
Definition destroyed (x : Z) (l : list lifetime) : nat := length (filter (λ e, e = Destroy x) l).
Record owned (L : gset Z) w : Prop := {
  ow_live : live L (pool w);
  ow_released : released w ⊆ L;
  ow_held h x : owns (handles w) h x → x ∈ L ∧ x ∉ released w;
  ow_pool h q : handles w !! h = Some q → m_ptr q ≠ nullptr → m_pool q = true;
  ow_one h g x : owns (handles w) h x → owns (handles w) g x → h = g;
  ow_cover x : x ∈ L → x ∈ released w ∨ ∃ h, owns (handles w) h x;
  ow_log x : constructed x (log w) = (destroyed x (log w) + if bool_decide (x ∈ L) then 1 else 0)%nat;
}.

Lemma owns_insert H h q k x : owns (<[h := q]> H) k x ↔ (k = h ∧ x ≠ nullptr ∧ m_ptr q = x) ∨ (k ≠ h ∧ owns H k x).
Proof.
  unfold owns. destruct (decide (k = h)) as [->|Hne]; [rewrite lookup_insert_eq|rewrite lookup_insert_ne by done]; naive_solver.
Qed.
Lemma owns_delete H h k x : owns (delete h H) k x ↔ k ≠ h ∧ owns H k x.
Proof.
  unfold owns. destruct (decide (k = h)) as [->|Hne]; [rewrite lookup_delete_eq|rewrite lookup_delete_ne by done]; naive_solver.
Qed.
Lemma owned_same L w H : owned L w → (∀ h x, owns H h x ↔ owns (handles w) h x) → (∀ h q, H !! h = Some q → m_ptr q ≠ nullptr → m_pool q = true) →
  owned L (mkWorld H (released w) (log w) (pool w)).
Proof.
  intros [O1 O2 O3 O4 O5 O6 O7] HH Hp. split; cbn; try done.
  - intros h x. rewrite HH. apply O3.
  - intros h g x. rewrite !HH. apply O5.
  - intros x [Hx|[h Hh]]%O6; [by left|right]. exists h. by rewrite HH.
Qed.
Lemma pool_insert (H : gmap nat PoolPtr) h q : (∀ k r, H !! k = Some r → m_ptr r ≠ nullptr → m_pool r = true) → (m_ptr q ≠ nullptr → m_pool q = true) →
  ∀ k r, <[h := q]> H !! k = Some r → m_ptr r ≠ nullptr → m_pool r = true.
Proof. intros HH Hq k r [[<- <-]|[_ Hk]]%lookup_insert_Some; [done|by eapply HH]. Qed.

(** Objects leave the pool one at a time. *)
Lemma log_delete x (L : gset Z) l : (∀ y, constructed y l = (destroyed y l + if bool_decide (y ∈ L) then 1 else 0)%nat) → x ∈ L →
  ∀ y, constructed y (l ++ [Destroy x]) = (destroyed y (l ++ [Destroy x]) + if bool_decide (y ∈ L ∖ {[x]}) then 1 else 0)%nat.
Proof.
  intros Hl Hx y. specialize (Hl y). unfold constructed, destroyed in *. rewrite !filter_app, !length_app. rewrite (filter_cons_False (λ e, e = Construct y)) by done.
  destruct (decide (x = y)) as [->|Hne].
  - rewrite filter_cons_True by done. rewrite bool_decide_eq_true_2 in Hl by done. rewrite bool_decide_eq_false_2 by set_solver. rewrite !filter_nil. cbn. lia.
  - rewrite filter_cons_False by congruence. rewrite (bool_decide_ext (y ∈ L ∖ {[x]}) (y ∈ L)) by set_solver. rewrite !filter_nil. cbn. lia.
Qed.
Lemma log_new x (L : gset Z) l : (∀ y, constructed y l = (destroyed y l + if bool_decide (y ∈ L) then 1 else 0)%nat) → x ∉ L →
  ∀ y, constructed y (l ++ [Construct x]) = (destroyed y (l ++ [Construct x]) + if bool_decide (y ∈ {[x]} ∪ L) then 1 else 0)%nat.
Proof.
  intros Hl Hx y. specialize (Hl y). unfold constructed, destroyed in *. rewrite !filter_app, !length_app. rewrite (filter_cons_False (λ e, e = Destroy y)) by done.
  destruct (decide (x = y)) as [->|Hne].
  - rewrite filter_cons_True by done. rewrite bool_decide_eq_false_2 in Hl by done. rewrite bool_decide_eq_true_2 by set_solver. rewrite !filter_nil. cbn. lia.
  - rewrite filter_cons_False by congruence. rewrite (bool_decide_ext (y ∈ {[x]} ∪ L) (y ∈ L)) by set_solver. rewrite !filter_nil. cbn. lia.
Qed.
Lemma reset_owned L w h q : owned L w → handles w !! h = Some q →
  ∃ ev p L', Reset q (pool w) = Ok (PoolPtr_ctor, ev, p) ∧ owned L' (mkWorld (<[h := PoolPtr_ctor]> (handles w)) (released w) (log w ++ ev) p).
Proof.
  intros O Hq. pose proof O as [O1 O2 O3 O4 O5 O6 O7]. unfold Reset. destruct (Z.eqb_spec (m_ptr q) nullptr) as [E|E]; cbn [negb andb].
  - exists [], (pool w), L. split; [done|]. rewrite app_nil_r. apply owned_same; [done| |by apply pool_insert].
    intros k x. rewrite owns_insert. unfold owns. cbn. destruct (decide (k = h)) as [->|]; naive_solver.
  - rewrite (O4 h q Hq E). assert (Ho : owns (handles w) h (m_ptr q)) by (by split; [|exists q]). destruct (O3 _ _ Ho) as [Hin Hnr].
    destruct (delete_ok L (pool w) (m_ptr q) O1 Hin) as (p' & -> & Hl). cbn [mbind res_bind]. exists [Destroy (m_ptr q)], p', (L ∖ {[m_ptr q]}). split; [done|].
    split; cbn.
    + done.
    + set_solver.
    + intros k x [(_ & ? & E2)|[Hk Hx]]%owns_insert; [cbn in E2; congruence|]. destruct (O3 k x Hx). split; [|done]. apply elem_of_difference. split; [done|].
      intros ->%elem_of_singleton. by apply Hk, (O5 k h (m_ptr q)).
    + by apply pool_insert.
    + intros k g x. rewrite !owns_insert. cbn. intros [(_ & ? & ?)|[_ H1]] [(_ & ? & ?)|[_ H2]]; [congruence..|by eapply O5].
    + intros x [Hx Hne]%elem_of_difference. destruct (O6 x Hx) as [|[k Hk]]; [by left|right]. exists k. apply owns_insert. right. split; [|done].
      intros ->. destruct Hk as [_ (r & Hr & <-)]. simplify_eq. set_solver.
    + by apply log_delete.
Qed.
(** An object moves from one handle to another one that holds none. *)
Lemma move_owned L w h g q : owned L w → h ≠ g → handles w !! g = Some q → (∀ x, ¬ owns (handles w) h x) →
  owned L (mkWorld (<[h := mkPtr (m_ptr q) (m_pool q)]> (<[g := mkPtr nullptr false]> (handles w))) (released w) (log w) (pool w)).
Proof.
  intros [O1 O2 O3 O4 O5 O6 O7] Hne Hq Hn. set (H' := <[h := _]> _).
  assert (HH : ∀ k x, owns H' k x → ∃ k', owns (handles w) k' x ∧ (k' = g ∧ k = h ∨ k' = k ∧ k ≠ h ∧ k ≠ g)).
  { intros k x. unfold H'. rewrite !owns_insert. cbn. intros [(-> & Hx & <-)|[Hk [(_ & ? & ?)|[Hg Ho]]]]; [|congruence|exists k; split; [done|]; by right].
    exists g. split; [|by left]. split; [done|]. by exists q. }
  split; cbn; try done.
  - intros k x (k' & Ho & _)%HH. by eapply O3.
  - apply pool_insert; [by apply pool_insert|]. cbn. by eapply O4.
  - intros k k2 x (a & Ha & Ea)%HH (b & Hb & Eb)%HH. pose proof (O5 a b x Ha Hb) as ->. naive_solver.
  - intros x [Hx|[k Hk]]%O6; [by left|right]. destruct (decide (k = g)) as [->|Hkg].
    + exists h. apply owns_insert. left. destruct Hk as [Hx (r & Hr & <-)]. simplify_eq. done.
    + exists k. unfold H'. rewrite !owns_insert. right. split; [intros ->; by apply (Hn x)|]. by right.
Qed.
Lemma end_owned L w h : owned L w → (∀ x, ¬ owns (handles w) h x) → owned L (mkWorld (delete h (handles w)) (released w) (log w) (pool w)).
Proof.
  intros O Hn. apply owned_same; [done| |intros k q [_ Hk]%lookup_delete_Some; by eapply (ow_pool _ _ O)].
  intros k x. rewrite owns_delete. split; [by intros [_ ?]|]. intros Ho. split; [|done]. intros ->. by apply (Hn x).
Qed.
Lemma default_owned L w h q : owned L w → (∀ x, ¬ owns (handles w) h x) → m_ptr q = nullptr → owned L (mkWorld (<[h := q]> (handles w)) (released w) (log w) (pool w)).
Proof.
  intros O Hn Eq. apply owned_same; [done| |apply pool_insert; [apply O|done]]. intros k x. rewrite owns_insert. split.
  - intros [(_ & ? & ?)|[_ ?]]; [congruence|done].
  - intros Ho. right. split; [intros ->; by apply (Hn x)|done].
Qed.
(** A fresh object in a handle. *)
Lemma make_owned L w h x p : owned L w → handles w !! h = None → x ≠ nullptr → x ∉ L → live ({[x]} ∪ L) p →
  owned ({[x]} ∪ L) (mkWorld (<[h := mkPtr x true]> (handles w)) (released w) (log w ++ [Construct x]) p).
Proof.
  intros [O1 O2 O3 O4 O5 O6 O7] Hh Hx Hf Hl. split; cbn; try done.
  - set_solver.
  - intros k y [(_ & _ & <-)|[_ Ho]]%owns_insert; [set_solver|]. destruct (O3 k y Ho). set_solver.
  - by apply pool_insert.
  - intros k g y. rewrite !owns_insert. cbn. intros [(-> & _ & <-)|[_ H1]] [(-> & _ & E)|[_ H2]]; [done|..].
    + by destruct (O3 g x H2).
    + subst y. by destruct (O3 k x H1).
    + by eapply O5.
  - intros y [->%elem_of_singleton|Hy]%elem_of_union; [right; exists h; apply owns_insert; by left|]. destruct (O6 y Hy) as [|[k Hk]]; [by left|right]. exists k.
    apply owns_insert. right. split; [|done]. intros ->. destruct Hk as [_ (r & Hr & _)]. congruence.
  - by apply log_new.
Qed.
(** The program takes an object out of its handle. *)
Lemma release_owned L w h x : owned L w → owns (handles w) h x → owned L (mkWorld (<[h := mkPtr nullptr false]> (handles w)) ({[x]} ∪ released w) (log w) (pool w)).
Proof.
  intros [O1 O2 O3 O4 O5 O6 O7] Ho. destruct (O3 h x Ho) as [Hin Hnr]. split; cbn; try done.
  - set_solver.
  - intros k y [(_ & ? & ?)|[Hk Hy]]%owns_insert; [cbn in *; congruence|]. destruct (O3 k y Hy) as [? ?]. split; [done|]. intros [->%elem_of_singleton|?]%elem_of_union; [|done].
    by apply Hk, (O5 k h x).
  - by apply pool_insert.
  - intros k g y. rewrite !owns_insert. cbn. intros [(_ & ? & ?)|[_ H1]] [(_ & ? & ?)|[_ H2]]; [congruence..|by eapply O5].
  - intros y [Hy|[k Hk]]%O6; [left; set_solver|]. destruct (decide (k = h)) as [->|Hne].
    + left. destruct Hk as [_ (r & Hr & <-)], Ho as [_ (r' & Hr' & <-)]. simplify_eq. set_solver.
    + right. exists k. apply owns_insert. by right.
Qed.
(** The program deletes an object it has taken out. *)
Lemma delete_owned L w x : owned L w → x ∈ released w →
  ∃ p, DeleteT x (pool w) = Ok ([Destroy x], p) ∧ owned (L ∖ {[x]}) (mkWorld (handles w) (released w ∖ {[x]}) (log w ++ [Destroy x]) p).
Proof.
  intros [O1 O2 O3 O4 O5 O6 O7] Hx. destruct (delete_ok L (pool w) x O1 ltac:(set_solver)) as (p & E & Hl). exists p. split; [done|]. split; cbn; try done.
  - set_solver.
  - intros k y Ho. destruct (O3 k y Ho). split; [|set_solver]. apply elem_of_difference. split; [done|]. intros ->%elem_of_singleton. done.
  - intros y [Hy Hne]%elem_of_difference. destruct (O6 y Hy) as [|]; [left; set_solver|by right].
  - apply log_delete; [done|set_solver].
Qed.

Lemma no_handle (H : gmap nat PoolPtr) h : H !! h = None → ∀ x, ¬ owns H h x.
Proof. intros E x [_ (q & Hq & _)]. congruence. Qed.
Lemma no_object (H : gmap nat PoolPtr) h q : m_ptr q = nullptr → ∀ x, ¬ owns (<[h := q]> H) h x.
Proof. intros E x [(_ & ? & ?)|[? _]]%owns_insert; congruence. Qed.
Lemma ptr_exec_ok L w o : owned L w → legal o w → ∃ w' L', exec o w = Ok w' ∧ owned L' w'.
Proof.
  intros O Hl. destruct o as [h|h|h g|h g|h|h|h|x]; cbn [exec legal] in *; unfold at_handle.
  - destruct (new_ok L (pool w) (ow_live _ _ O)) as (x & ev & p & -> & [(-> & -> & Hp)|(Hx & Hf & -> & Hp)]); cbn [mbind res_bind]; eexists _, _; (split; [done|]).
    + rewrite app_nil_r. pose proof O as []. apply (default_owned L (mkWorld (handles w) (released w) (log w) p)); [by split|by apply no_handle|done].
    + by apply make_owned.
  - eexists _, L. split; [done|]. by apply default_owned; [|apply no_handle|].
  - destruct Hl as [Hh [q Hq]]. rewrite Hq. cbn. eexists _, L. split; [done|]. apply move_owned; [done|congruence|done|by apply no_handle].
  - destruct Hl as [[q Hq] [r Hr]]. case_bool_decide as Hne; [|by eexists _, L]. rewrite Hq. cbn [deref mbind res_bind].
    destruct (reset_owned L w h q O Hq) as (ev & p & L' & -> & O'). cbn [mbind res_bind]. rewrite Hr. cbn. eexists _, L'. split; [done|].
    assert (Hr' : <[h := PoolPtr_ctor]> (handles w) !! g = Some r) by (by rewrite lookup_insert_ne).
    pose proof (move_owned L' _ h g r O' Hne Hr') as M. cbn in M. rewrite insert_insert_ne, insert_insert_eq, insert_insert_ne in M by done. by apply M, no_object.
  - destruct Hl as [q Hq]. rewrite Hq. cbn [deref mbind res_bind]. destruct (reset_owned L w h q O Hq) as (ev & p & L' & -> & O'). by eexists _, L'.
  - destruct Hl as [q Hq]. rewrite Hq. cbn. eexists _, L. split; [done|]. destruct (Z.eqb_spec (m_ptr q) nullptr) as [E|E].
    + apply default_owned; [done| |done]. intros x [Hx (r & Hr & <-)]. simplify_eq.
    + apply release_owned; [done|]. split; [done|]. by exists q.
  - destruct Hl as [q Hq]. rewrite Hq. cbn [deref mbind res_bind]. destruct (reset_owned L w h q O Hq) as (ev & p & L' & -> & O'). cbn [mbind res_bind].
    eexists _, L'. split; [done|]. pose proof (end_owned L' _ h O') as M. cbn in M. rewrite delete_insert_eq in M. by apply M, no_object.
  - destruct (delete_owned L w x O Hl) as (p & -> & O'). cbn. by eexists _, _.
Qed.
Lemma reach_owned p0 w : live ∅ p0 → reach p0 w → ∃ L, owned L w.
Proof.
  intros H0. induction 1 as [|w o w' _ [L IH] Hl E].
  - exists ∅. assert (Hn : ∀ h x, ¬ owns ∅ h x) by (intros h x [_ (q & Hq & _)]; by rewrite lookup_empty in Hq).
    split; cbn; try done; [by intros h x ?%Hn|by intros h g x ?%Hn].
  - destruct (ptr_exec_ok L w o IH Hl) as (w'' & L' & E' & O). rewrite E' in E. injection E as ->. by exists L'.
Qed.

(** C40. Every object of the pool has one owner.  In every run of a program that makes,
    moves, assigns, resets, releases and ends handles, and deletes what it
    released: no operation fails; the objects alive in the pool are those in
    handles and those released, none in two handles or both; an object has been
    constructed as often as destroyed, once more if it is alive; and when no handle
    is left and nothing is released the pool is empty. *)
Theorem poolptr_owner p0 w : live ∅ p0 → reach p0 w →
  ∃ L, live L (pool w) ∧
    (∀ x, x ∈ L ↔ x ∈ released w ∨ ∃ h, owns (handles w) h x) ∧
    (∀ h g x, owns (handles w) h x → owns (handles w) g x → h = g) ∧
    (∀ h x, owns (handles w) h x → x ∉ released w) ∧
    (∀ x, constructed x (log w) = (destroyed x (log w) + if bool_decide (x ∈ L) then 1 else 0)%nat) ∧
    (∀ o, legal o w → ∃ w', exec o w = Ok w') ∧
    (handles w = ∅ → released w = ∅ → L = ∅).
Proof.
  intros H0 Hr. destruct (reach_owned p0 w H0 Hr) as [L O]. pose proof O as [O1 O2 O3 O4 O5 O6 O7]. exists L. split_and!; [done| |done| |done| |].
  - intros x. split; [apply O6|]. intros [?|[h Hh]]; [set_solver|]. by destruct (O3 h x Hh).
  - intros h x Ho. by destruct (O3 h x Ho).
  - intros o Hl. destruct (ptr_exec_ok L w o O Hl) as (w' & _ & E & _). by exists w'.
  - intros Eh Er. apply elem_of_equiv_empty_L. intros x [Hx|[h [_ (q & Hq & _)]]]%O6; [rewrite Er in Hx; by apply elem_of_empty in Hx|]. by rewrite Eh in Hq.
Qed.
End handles.

(** ** Objects in a block pool *)
Section block.
(** The type: its size and alignment. *)
Context (WB : Z) (BITMAP CHECKS : bool) (sizeofT alignofT : Z).
Notation M := (Mon BlockPool.BlockMemoryPool).
Implicit Types m : M.
Local Notation pool_inv := (BlockPool.pool_inv WB BITMAP).

(** [TimedAlloc]: the block, if the call returns one. *)
Definition block_result (r : BlockPool.ret) : Z := match r with BlockPool.RAlloc WAIT_RESULT_SIGNAL b => b | _ => nullptr end.
Definition block_TimedAllocT (cx : ctx) (timeout_ticks : Z) m : res (M * outcome BlockPool.pc Z) :=
  let fits := (sizeofT <=? BlockPool.m_block_size (fields m)) && (alignofT <=? BlockPool.m_block_align (fields m)) in
  assert! (sizeofT <=? BlockPool.m_block_size (fields m));
  assert! (alignofT <=? BlockPool.m_block_align (fields m));
  if fits then
    '(m, o) ← BlockPool.TimedAllocEx WB BITMAP CHECKS cx timeout_ticks m;
    Ok (m, match o with Done r => Done (block_result r) | Blocked t c => Blocked t c end)
  else Ok (m, Done nullptr).
(** [TimedNewT] with [NO_WAIT]. *)
Definition block_TryNewT m : res (Z * list lifetime * M) :=
  '(m, o) ← block_TimedAllocT (mkCtx 0 0 true) NO_WAIT m;
  match o with
  | Done ptr => Ok (ptr, if negb (ptr =? nullptr) then [Construct ptr] else [], m)
  | Blocked _ _ => Panic PANIC_ASSERT
  end.
Definition block_DeleteT (ptr : Z) m : res (list lifetime * M) :=
  if negb (ptr =? nullptr) then '(m, freed) ← BlockPool.Free WB BITMAP CHECKS ptr m; Ok ([Destroy ptr], m) else Ok ([], m).
Definition block_live (L : gset Z) m : Prop :=
  ∃ l, pool_inv l (fields m) ∧ L = list_to_set l ∧ sizeofT ≤ BlockPool.m_block_size (fields m) ∧ alignofT ≤ BlockPool.m_block_align (fields m).

Context (HWB : 8 ≤ WB).
Lemma block_nonnull l p b : pool_inv l p → b ∈ l → b ≠ nullptr.
Proof.
  intros [Hg (free & _ & Hperm) _ _ _] Hb. assert (Hx : b ∈ free ++ l) by (apply elem_of_app; by right). rewrite Hperm in Hx.
  apply BlockPool.elem_of_blocks in Hx as (i & -> & _). pose proof (BlockPool.ge_blocks _ _ _ Hg). pose proof (BlockPool.ge_size _ _ _ Hg). unfold nullptr. nia.
Qed.
Lemma block_new L m : block_live L m → ∃ x ev m', block_TryNewT m = Ok (x, ev, m') ∧
  (x = nullptr ∧ ev = [] ∧ block_live L m' ∨ x ≠ nullptr ∧ x ∉ L ∧ ev = [Construct x] ∧ block_live ({[x]} ∪ L) m').
Proof using HWB.
  intros (l & Hp & -> & Hs & Ha). unfold block_TryNewT, block_TimedAllocT. cbv zeta. rewrite (proj2 (Z.leb_le _ _) Hs), (proj2 (Z.leb_le _ _) Ha). cbn [andb stk_assert].
  destruct (BlockPool.try_block WB BITMAP CHECKS HWB l m (mkCtx 0 0 true) Hp) as (m' & r' & b & -> & Hsh & Hres).
  injection Hsh as _ _ _ E4 E5 _. cbn [mbind res_bind]. destruct Hres as [(-> & Hp' & Hb)|(Hr & Hp')].
  - assert (Hn : b ≠ nullptr) by (eapply block_nonnull; [exact Hp'|by left]). cbn [block_result]. rewrite (proj2 (Z.eqb_neq b nullptr)) by done. exists b, [Construct b], m'.
    split; [done|]. right. split_and!; [done|by rewrite elem_of_list_to_set|done|]. exists (b :: l). rewrite E4, E5. by cbn.
  - exists nullptr, [], m'. split; [by destruct r'|]. left. split_and!; [done..|]. exists l. by rewrite E4, E5.
Qed.
Lemma block_delete L m x : block_live L m → x ∈ L → ∃ m', block_DeleteT x m = Ok ([Destroy x], m') ∧ block_live (L ∖ {[x]}) m'.
Proof using HWB.
  intros (l & Hp & -> & Hs & Ha) Hx. apply elem_of_list_to_set in Hx. pose proof (block_nonnull l _ x Hp Hx) as Hn. unfold block_DeleteT. rewrite (proj2 (Z.eqb_neq x nullptr)) by done. cbn [negb].
  pose proof (BlockPool.pool_nodup WB BITMAP l _ Hp) as Hnd.
  destruct (BlockPool.free_fields WB BITMAP CHECKS HWB l m x Hp Hnd Hx) as (p2 & -> & Hp2 & Hsh). cbn [mbind res_bind]. injection Hsh as _ _ _ E4 E5 _.
  eexists. split; [done|]. exists (list_remove1 x l). rewrite fields_WakeOne. cbn [fields set_fields]. rewrite E4, E5. split_and!; [done| |done..].
  apply leibniz_equiv. intros y. rewrite elem_of_difference, !elem_of_list_to_set, elem_of_singleton, elem_of_remove1. done.
Qed.
#[local] Instance block_objects : ObjectPool M.
Proof using WB BITMAP CHECKS sizeofT alignofT HWB.
  refine {| TryNewT := block_TryNewT; DeleteT := block_DeleteT; live := block_live |}.
  - intros L m (l & Hp & -> & _) Hx%elem_of_list_to_set. by eapply block_nonnull.
  - apply block_new.
  - apply block_delete.
Defined.
End block.

(** ** Objects in a byte pool *)
Section bytes.
Context (WB BLOCK_ALIGN : Z) (GUARD CHECKS NEXT_FIT : bool) (sizeofT : Z).
Notation M := (Mon BytePool.BytePool).
Implicit Types m : M.
Local Notation pool_inv := (BytePool.pool_inv WB BLOCK_ALIGN GUARD NEXT_FIT).

Definition byte_result (r : BytePool.ret) : Z := match r with BytePool.RAlloc WAIT_RESULT_SIGNAL b => b | _ => nullptr end.
Definition byte_TimedAllocT (cx : ctx) (timeout_ticks : Z) m : res (M * outcome BytePool.pc Z) :=
  '(m, o) ← BytePool.TimedAllocEx WB BLOCK_ALIGN GUARD CHECKS NEXT_FIT cx sizeofT timeout_ticks m;
  Ok (m, match o with Done r => Done (byte_result r) | Blocked t c => Blocked t c end).
Definition byte_TryNewT m : res (Z * list lifetime * M) :=
  '(m, o) ← byte_TimedAllocT (mkCtx 0 0 true) NO_WAIT m;
  match o with
  | Done ptr => Ok (ptr, if negb (ptr =? nullptr) then [Construct ptr] else [], m)
  | Blocked _ _ => Panic PANIC_ASSERT
  end.
Definition byte_DeleteT (ptr : Z) m : res (list lifetime * M) :=
  if negb (ptr =? nullptr) then '(m, freed) ← BytePool.Free WB BLOCK_ALIGN GUARD CHECKS NEXT_FIT ptr m; Ok ([Destroy ptr], m) else Ok ([], m).
Definition byte_live (L : gset Z) m : Prop := ∃ B l, pool_inv B (fields m) l ∧ L = list_to_set B.*1.

Context (HWB : 32 ≤ WB) (HA : 4 ≤ BLOCK_ALIGN) (HP : Z.land BLOCK_ALIGN (BLOCK_ALIGN - 1) = 0) (HT : 0 < sizeofT).
Lemma byte_nonnull B p l x : pool_inv B p l → x ∈ B.*1 → x ≠ nullptr.
Proof using HWB HA HP.
  intros V ([b n] & -> & Hin)%list_elem_of_fmap. destruct (BytePool.held_range WB BLOCK_ALIGN GUARD NEXT_FIT HA HP _ _ _ _ _ V Hin) as (H1 & _).
  pose proof (BytePool.hp_first _ _ _ _ _ _ (BytePool.pv_heap _ _ _ _ _ _ _ V)). unfold nullptr. cbn. lia.
Qed.
Lemma byte_new L m : byte_live L m → ∃ x ev m', byte_TryNewT m = Ok (x, ev, m') ∧
  (x = nullptr ∧ ev = [] ∧ byte_live L m' ∨ x ≠ nullptr ∧ x ∉ L ∧ ev = [Construct x] ∧ byte_live ({[x]} ∪ L) m').
Proof using HWB HA HP HT.
  intros (B & l & V & ->). unfold byte_TryNewT, byte_TimedAllocT.
  destruct (BytePool.try_alloc WB BLOCK_ALIGN GUARD CHECKS NEXT_FIT HWB HA HP B m l (mkCtx 0 0 true) sizeofT V ltac:(lia)) as (m' & r & b & l' & -> & Hr & _ & _ & V' & _).
  cbn [mbind res_bind]. assert (Eb : byte_result (BytePool.RAlloc r b) = b).
  { destruct (Z.eq_dec b nullptr) as [->|Hb]; [by destruct r|]. by rewrite (proj2 Hr Hb). }
  rewrite Eb. destruct (Z.eqb_spec b nullptr) as [->|Hb]; cbn [negb]; eexists _, _, m'; (split; [done|]).
  - left. split_and!; [done..|]. by exists B, l'.
  - right. split_and!; [done| |done|by exists ((b, sizeofT) :: B), l']. rewrite elem_of_list_to_set. intros Hin.
    pose proof (BytePool.pool_inv_NoDup WB BLOCK_ALIGN GUARD NEXT_FIT HA HP _ _ _ V') as [Hn _]%NoDup_cons. done.
Qed.
Lemma byte_delete L m x : byte_live L m → x ∈ L → ∃ m', byte_DeleteT x m = Ok ([Destroy x], m') ∧ byte_live (L ∖ {[x]}) m'.
Proof using HWB HA HP.
  intros (B & l & V & ->) Hx. apply elem_of_list_to_set in Hx. pose proof (byte_nonnull B _ l x V Hx) as Hn. unfold byte_DeleteT. rewrite (proj2 (Z.eqb_neq x nullptr)) by done. cbn [negb].
  destruct (BytePool.byte_free_post WB BLOCK_ALIGN GUARD CHECKS NEXT_FIT HWB HA HP B m ∅ l x) as (m' & l' & -> & _ & _ & [V' _ _]); [by split|done|]. cbn [mbind res_bind].
  exists m'. split; [done|]. eexists _, l'. split; [exact V'|]. apply leibniz_equiv. intros y. rewrite elem_of_difference, !elem_of_list_to_set, elem_of_singleton, !list_elem_of_fmap.
  setoid_rewrite list_elem_of_filter. split.
  - intros [([b n] & -> & Hin) Hne]. by exists (b, n).
  - intros ([b n] & -> & Hb & Hin). split; [by exists (b, n)|done].
Qed.
#[local] Instance byte_objects : ObjectPool M.
Proof using WB BLOCK_ALIGN GUARD CHECKS NEXT_FIT sizeofT HWB HA HP HT.
  refine {| TryNewT := byte_TryNewT; DeleteT := byte_DeleteT; live := byte_live |}.
  - intros L m (B & l & V & ->) Hx%elem_of_list_to_set. by eapply byte_nonnull.
  - apply byte_new.
  - apply byte_delete.
Defined.
End bytes.

(** ** A program with a pool of three blocks of 8 bytes on a 32-bit machine

    Two objects are made; one handle is assigned to the other, which destroys the
    object that one had; the assigned handle then ends, the object that was moved
    is taken out. *)
Definition ex_pool : BlockPool.BlockMemoryPool :=
  match BlockPool.BlockMemoryPool_ctor 32 true 3 8 1000 25 8 ∅ with Ok p => p | Panic _ => BlockPool.mkPool 0 0 [] 0 ∅ 0 0 0 0 0 (Stats_ctor 0) end.
#[export] Instance ex_objects : ObjectPool (Mon BlockPool.BlockMemoryPool).
Proof. apply (block_objects 32 true true 6 4). lia. Defined.
Lemma ex_fresh : live ∅ (init ex_pool).
Proof.
  assert (HW : 8 ≤ 32) by lia. assert (E : BlockPool.BlockMemoryPool_ctor 32 true 3 8 1000 25 8 ∅ = Ok ex_pool) by (by vm_compute).
  destruct (BlockPool.ctor_geom 32 true HW 3 8 1000 25 8 ∅ ex_pool ltac:(lia) ltac:(lia) ltac:(lia) E ltac:(by vm_compute)) as (G & Gc & Ga & Gb & Gu & _ & _ & Gch & Gst & Gbm).
  exists []. split; [|split; [done|split; [by vm_compute|by vm_compute]]]. apply BlockPool.pool_start; rewrite ?Gc; done.
Qed.
Definition ex_ops : list op := [OMake 0; OMake 1; OAssign 0 1; OAssign 0 0; OEnd 1; ORelease 0].
Definition legal_op (o : op) (w : World (P := Mon BlockPool.BlockMemoryPool)) : bool :=
  let has h := match handles w !! h with Some _ => true | None => false end in
  match o with
  | OMake h | ODefault h => negb (has h)
  | OMove h g => negb (has h) && has g
  | OAssign h g => has h && has g
  | OReset h | ORelease h | OEnd h => has h
  | ODelete x => bool_decide (x ∈ released w)
  end.
Lemma legal_op_ok o w : legal_op o w = true → legal o w.
Proof.
  unfold legal_op, legal. destruct o; repeat (case_match; cbn; try done); try (by eauto); try (intros; split; eauto; fail). by intros ?%bool_decide_eq_true_1.
Qed.
Fixpoint exec_ops (ops : list op) (w : World (P := Mon BlockPool.BlockMemoryPool)) : option World :=
  match ops with
  | [] => Some w
  | o :: ops => if legal_op o w then match exec o w with Ok w => exec_ops ops w | Panic _ => None end else None
  end.
Lemma exec_ops_reach p0 ops : ∀ w w', reach p0 w → exec_ops ops w = Some w' → reach p0 w'.
Proof.
  induction ops as [|o ops IH]; intros w w' Hr E; cbn in E; [by injection E as <-|]. destruct (legal_op o w) eqn:El; [|done].
  destruct (exec o w) as [w1|] eqn:E1; [|done]. apply (IH w1); [|done]. by apply (reach_step _ w o w1); [|apply legal_op_ok|].
Qed.
Definition ptr_start : World := mkWorld ∅ ∅ [] (init ex_pool).
Definition ptr_end : World := default ptr_start (exec_ops ex_ops ptr_start).
Lemma ptr_ex_reach : reach (init ex_pool) ptr_end.
Proof. apply (exec_ops_reach _ ex_ops ptr_start); [constructor|by vm_compute]. Qed.
Lemma poolptr_owner_witness : released ptr_end = {[1008]} ∧ log ptr_end = [Construct 1000; Construct 1008; Destroy 1000] ∧
  (∀ x, x ∈ released ptr_end → constructed x (log ptr_end) = (destroyed x (log ptr_end) + 1)%nat).
Proof.
  split; [by vm_compute|]. split; [by vm_compute|].
  destruct (poolptr_owner (init ex_pool) ptr_end ex_fresh ptr_ex_reach) as (L & _ & HL & _ & _ & Hlog & _).
  intros x Hx. rewrite Hlog, bool_decide_eq_true_2; [done|]. apply HL. by left.
Defined.
End PoolPtr.
